(* ===== verification/_CoqProject ===== *)
-Q . S2P
Prelude.v
Hcall.v
Bitmap.v
PgAlloc.v
ObjAlloc.v
Hash.v
Dlist.v
Atomic.v
Xirr.v
Xir.v
Sched.v
Logical.v
Resource.v
Death.v
Os.v
Rcu.v
Field.v
Htab.v
Psm.v
MemResource.v
Tce.v
Crq.v
Imemcpy.v
LanPorts.v
Llan.v
LlanSend.v
Ipc.v
VtFifo.v
Vterm.v
Vio.v
Clib.v
Snprintf.v
Ofd.v
OfdTree.v
OfdProps.v
OfdFind.v
Gdbstub.v
GdbIsa.v
X86Vm.v
X86Pgc.v
X86Fault.v
X86Iso.v
X86Flaws.v
X86Seg.v
X86Trap.v
X86Frame.v
Logio.v
Thinwire.v
