(* ===== verification/Prelude.v ===== *)
(** * A verification of the rHype research hypervisor

    rHype partitions a 64-bit PowerPC machine.  Partitions are guests that ask the
    hypervisor for everything through hypervisor calls ([h_...]): time slots, memory,
    page-table entries, device translations, message queues.  This library models the C
    code that decides who gets what, and proves that the decisions are right: that
    memory handed out twice was given back in between, that a guest only ever reaches
    memory it was granted, that a grant taken back is gone everywhere, that no work is
    freed while another processor can still see it.

    ** Parts of the program, and where they are modelled

    The library routines:
    - [lib/bitmap.c], [include/bitmap.h]: [Bitmap] (state [lbm]).
    - [lib/pgalloc.c]: [PgAlloc], pages on top of a bitmap; [lib/objalloc.c]: [ObjAlloc],
      the caches [halloc] and [hfree] draw on, on top of pages.
    - [lib/hash.c]: [Hash], chained tables that grow; [include/dlist.h]: [Dlist], circular
      lists on an explicit heap of pointers.
    - [include/atomic.h]: [Atomic], spin locks, reader-writer locks, lock bits and atomic
      addition, one access of the shared word at a time.
    - [include/xirr.h], [lib/xirr.c]: [Xirr], interrupt words and routing tables.
    - [include/powerpc/64/mmu.h], [lib/powerpc/64/pte.c]: in [Htab].
    - [lib/memcpy.c], [lib/memmove.c], [lib/memset.c], [lib/memcmp.c], [lib/str*.c],
      [lib/hexstr.c]: [Clib], memory and strings; [lib/snprintf.c], [lib/print.c]:
      [Snprintf], printing.
    - [lib/of_devtree.c], [ofd_walk] of [lib/of_devwalk.c]: [Ofd], the device tree a
      partition is given; [OfdTree], its invariant, [OfdProps], the properties of its
      nodes, and [OfdFind], looking up paths.

    The hypervisor:
    - [hype/xir.c], [hype/xir.h], [h_xirr], [h_eoi]: [Xir], virtual interrupts.
    - [hype/sched.c], [h_set_sched_params], [h_yield], [preempt_thread]: [Sched], the 64
      time slots of a processor.
    - [hype/rcu.c]: [Rcu], work deferred until every processor has been seen.
    - [hype/logical.h], [hype/pmm.c]: [Logical], a partition's address space in chunks.
    - [hype/resource.c], [h_grant_logical], [h_accept_logical], [h_rescind_logical],
      [h_resource_transfer]: [Resource], the tree of grants; [Death], what happens to
      it when a partition dies.
    - [hype/mem_resource.c], [hype/phys_mem.c]: [MemResource], memory as a resource;
      [hype/psm.c], [psm_arch.c]: [Psm], the page-share manager.
    - [hype/os.c], [hype/lpidtag.c], [h_start], [h_destroy]: [Os], partitions.
    - [htab.c], [vm.c], [pmm_arch.c], [h_enter], [h_remove], [h_read], [h_protect],
      [h_clear_mod], [h_clear_ref], [h_htab]: [Htab], the hashed page table.
    - [hype/tce.c]: [Tce], device address translation; [hype/crq.c], [h_copy_rdma]:
      [Crq], command/response queues.
    - [hype/imemcpy.c]: [Imemcpy], physical memory as bytes; [hype/llan.c] and its calls:
      [LanPorts], the switch table of the logical LAN, [Llan], devices, and [LlanSend],
      the way of a frame.
    - [hype/ipc.c], [h_create_msgq], [h_send_async]: [Ipc], message queues in the memory of
      partitions.
    - [hype/vterm.c], [hype/vtty.c] and their calls: [VtFifo], character buffers, and [Vterm],
      terminals and their sessions.
    - [hype/vio.c], [h_vio_ctl], [h_vio_signal], [h_put_tce]: [Vio], the way from an
      identifier to the adapter it belongs to.
    - [lib/gdbstub.c] and the inline part of its header: [Gdbstub], the debugger's packets;
      [lib/powerpc/64/gdbstub_isa.c]: [GdbIsa], its commands.
    - [h_logical_cache_load] and its kin, [h_page_init], [h_lpar_info]: [Logio], a partition's
      memory read and written for it.
    - [hype/thinwire.c], the calls of [lib/chan.c]: [Thinwire], channels over one serial line.
    [Field] holds bit fields of words, [Hcall] the return codes.

    The port to x86, a machine of 32-bit words, little-endian, without a partition's page
    table in hardware:
    - [hype/x86/vm.c], [hype/x86/imemcpy.c]: [X86Vm], the hypervisor's page tables and the
      windows it copies through.
    - [hype/x86/pgcache.c], [hype/x86/pgcache.h]: [X86Pgc], the shadows of a partition's page
      tables.
    - [h_page_dir.c], [h_flush_tlb.c], [h_get_pte.c], half of [intr.c]: [X86Fault], page
      faults and the calls on shadows; [X86Iso], isolation; [X86Flaws], the interface
      discharged, and runs.
    - [gdt.c], [idt.c], [h_dr.c]: [X86Seg], segments, gates and debug registers.
    - [handler.c], the rest of [intr.c], [h_set_mbox.c]: [X86Trap], exceptions and interrupts;
      [X86Frame], the frame of an exception.

    The parts meet in these places.  [PgAlloc] runs on [Bitmap], [ObjAlloc] on [PgAlloc].
    [Resource] works with any type of resource through a record of operations and the
    class [RescindLaws], which [MemResource] instantiates for memory (on [Logical] and
    [Psm]), so that the theorem on rescinding, proved against the class, becomes one on
    memory.  [Htab], [Tce], [Crq], [Llan], [Ipc] and [Vterm] translate guest addresses
    through [Logical] or [Tce] and, except for [Htab], interrupt through [Xir]; [Vio] is
    generic in the adapters it calls.  [Ofd] and [Snprintf] use [Clib], whose copies and
    fills are shown to be those of [Imemcpy] and [PgAlloc].  [Os] puts [Hash], [Dlist], [Sched], [Resource] and
    [Death] together.  [X86Iso] is proved against the class [Translation], what the
    translation of a partition's addresses promises to the shadow tables; [X86Flaws]
    discharges it with [Logical].  [Thinwire] is proved against the classes [Wire] and
    [Server], the line and what answers at its other end, with a reference server as
    instance.

    ** How code is modelled

    A C function is a Rocq function of the same name; its state is passed explicitly,
    and its result is a [res]: a value or a [fault], for what C leaves undefined (an
    index outside an array, a null pointer, a shift by too much) and for a failed
    [assert], which traps.  Words are [Z] with their wrap-around written out ([add64],
    [u64], ...), structures are records, pointers are addresses with 0 for [NULL], arrays
    are lists read and written with [aget] and [aset], which fault outside.  Locks make
    an operation one step; where the code relies on atomic accesses instead ([Atomic],
    [Rcu]), a step is one access, and theorems quantify over all interleavings, on
    sequentially consistent memory.  Memory that belongs to a partition may change between
    any two calls and, in [Ipc], between any two accesses of the hypervisor.

    Loops that are not structural take fuel.  Its amount is part of the definition where
    the code has a bound (words of a bitmap, slots, entries of a page-table group) and
    the theorems show that it suffices: no theorem says only what happens if a run ends.
    Loops over rings take the number of nodes ([Os.run_event_once]), the walk of a tree
    of resources the number of resources ([Resource.walk_fuel]), lists of a device tree the
    number of its cells ([Ofd.fuel_of]), the format loop of [Snprintf] the characters of the
    format ([Snprintf.vsnprintf_ends]); the walk over the clients
    of [Vterm.vts_partner_info] takes its fuel as an argument, since the list may be broken.
    The collection of directories ([X86Pgc.gc_dirs]) has a round for each directory frame and
    one more; copies through a window ([X86Vm]) have a round for each byte.  The debugger's loop and the
    recursion between a page fault and the push of its frame ([X86Fault.force_page_fault])
    may go on for ever in the code and take their bound as an argument, as does the purge of the
    line in [Thinwire]; what is proved of them holds for every bound.

    Code outside these files is a parameter: the memory [halloc] returns to a bitmap or
    a table, handlers of events and interrupts, shifts whose result C leaves to the
    processor ([Sched]).

    Lists of resources are [Dlist] rings in one heap of pointers, so that a second detach of a
    node writes through the pointers the node still holds, as in the code ([Death.death_relinks]).
    The wait of [h_rescind_logical] for the other processors, [rcu_pause], is an argument of the
    call: what other processors do meanwhile is its result.  [Resource.pause_alone] is the
    wait of a machine with one processor, which runs the deferred work.

    ** What is proved

    Where the code is only right under a condition it does not check, the condition is in the
    theorem and in its comment, which names the example that shows the need.

    - Allocation: a search in a bitmap for a request that fits the map finds a range exactly when
      there is one; blocks in use never overlap, nor do objects as long as none of more than 64
      pages is freed; [halloc] succeeds while pages are left, and freeing undoes allocating.
    - Data structures: a hash table of at most 511 entries answers as a finite map across growth;
      list operations splice and cut rings.
    - Concurrency: locks exclude, additions are not lost, deferred work waits for every
      processor, without [rcu_pause].
    - Interrupts: an interrupt that is not ended or unrouted while it is queued is queued at most
      once, interrupts are delivered in order, and identifiers round trip.
    - Scheduling: owners and masks agree, locked slots stay with their owner, a runnable
      processor with a slot runs within one turn while nobody asks for a directed yield.
    - Memory: translations of addresses inside the table of chunks stay in what a partition owns, for its
      address space, its page table, its device tables and its queues; what is accepted
      is found where it was reported; [h_enter] places the translated entry or says why not.
    - Devices: frames and messages are written only into buffers and queues their receiver
      provided, arrive in order and raise its interrupt, as long as the receiver leaves its buffer
      list alone and posts buffers in contiguous pages; a terminal session joins exactly
      two terminals and carries characters both ways; interrupts are switched only by
      the partition they are routed to.
      What is done for a partition on its memory depends on and changes nothing else but, for
      single bytes that are not the partition's, the byte at the invalid address.
    - Channels: any sequence of writes, and of reads other than the console's, over the serial line returns
      what separate channels would.
    - Library: copying and filling by words is copying and filling by bytes; printing is
      cut to its buffer, and unsigned numbers printed are read back; a device tree stays one under
      every sequence of calls, a property set is read back, and a path leads to a node
      along names that begin with its components.
    - Debugging: packets are read back exactly, in whatever pieces they arrive; the registers
      the debugger gets restore every register.
    - x86: whatever a partition writes into its page tables and whatever calls and faults it
      makes, except one kind of flush, the processor reaches its own memory, its devices, or the
      hypervisor through the hypervisor's tables; its segments, gates and debug registers stay out of the
      hypervisor as long as it asks for code and data segments below it; an exception whose frame fits a mapped page is
      pushed and returned from; interrupts take turns.  The findings of [X86Flaws] and
      [X86Seg] show what happens without the conditions.
    - Taking back: a rescind reaches everything derived from a resource and nothing else, and memory a chunk
      showed cannot be translated afterwards, once the wait is over and nothing that was marked was touched; the
      death of a partition marks everything derived from what it held, stops its processors and runs its handlers.  Both are
      about types of resources that keep [RescindLaws]: memory and device memory, not virtual devices.

    Where the code does not do what it means to, the theorem says what it does, or an
    example shows the failing run; the examples follow the theorems of their file.

    ** What is not modelled

    Assembly, boot code, firmware and drivers of devices are not modelled:
    what they do is to touch hardware.  So are the register state of PowerPC threads and the
    calls that only read or write it, the port to 32-bit PowerPC, the program
    loaders, the host tools and the test partitions.  The files on the virtual mode of PowerPC
    partitions ([vm_class.c], [vbase.c], ...) are left out: they fill translations between exception entry and
    exit in assembly.  Of the port to x86, the initialisation of the machine, its interrupt
    controller, and [pgc_destroy] are left out.  Of the
    virtual devices, the operations that pass a device on through the lists of resources
    ([llan_acquire], [llan_grant], [llan_rescind], [vt_grant], [vt_rescind] and those of
    [crq.c]) are left out: they call back into [Resource] while it works on the same
    lists. *)

(** ** Prelude: machine words, faults and shared automation *)

From Stdlib Require Export ZArith Lia Bool.
From stdpp Require Export base list gmap.

#[global] Open Scope Z_scope.
#[global] Set Default Goal Selector "!".

(** ** Faults

    C code can go wrong in ways the language does not define.  Every
    operation that can do so returns a [res]: either a value, or the reason
    the run stopped.  A failed [assert] of [include/lib.h] calls [assprint],
    which reports and traps, so it is a fault as well; [Deadlock] is a loop
    that waits for a lock its own caller holds. *)
Inductive fault : Type :=
  | Assert_failed
  | Out_of_bounds
  | Null_deref
  | Bad_shift
  | Deadlock
  | Out_of_fuel.

Inductive res (A : Type) : Type :=
  | Ok (a : A)
  | Fault (f : fault).
Arguments Ok {A} a.
Arguments Fault {A} f.

#[global] Instance fault_eq_dec : EqDecision fault.
Proof. solve_decision. Defined.

Definition res_bind {A B} (m : res A) (k : A -> res B) : res B :=
  match m with
  | Ok a => k a
  | Fault f => Fault f
  end.

Declare Scope hv_scope.
Delimit Scope hv_scope with hv.
Notation "'let!' x := m 'in' k" := (res_bind m (fun x => k))
  (at level 10, x pattern, m at level 100, k at level 200,
   format "'[v' 'let!'  x  :=  m  'in' '/' k ']'") : hv_scope.
Notation "'check!' b 'else' f 'in' k" := (if b then k else Fault f)
  (at level 10, b at level 100, f at level 100, k at level 200) : hv_scope.
#[global] Open Scope hv_scope.

(** [cassert b k] is [assert(b, ...); k]. *)
Definition cassert {A} (b : bool) (k : res A) : res A :=
  if b then k else Fault Assert_failed.

Definition of_option {A} (f : fault) (o : option A) : res A :=
  match o with
  | Some a => Ok a
  | None => Fault f
  end.

(** Array accesses: an index outside the array is a fault, never a default. *)
Definition aget {A} (l : list A) (i : Z) : res A :=
  if i <? 0 then Fault Out_of_bounds
  else of_option Out_of_bounds (l !! Z.to_nat i).

Definition aset {A} (l : list A) (i : Z) (x : A) : res (list A) :=
  if (0 <=? i) && (i <? Z.of_nat (length l))
  then Ok (<[Z.to_nat i := x]> l)
  else Fault Out_of_bounds.

Lemma res_bind_ok {A B} (m : res A) (k : A -> res B) b :
  res_bind m k = Ok b -> exists a, m = Ok a /\ k a = Ok b.
Proof. destruct m; simpl; [eauto | discriminate]. Qed.

(** Whether a run ends well, for runs on concrete states. *)
Definition is_ok {A} (r : res A) : bool := match r with Ok _ => true | Fault _ => false end.
Lemma is_ok_inv {A} (r : res A) : is_ok r = true -> exists a, r = Ok a.
Proof. destruct r; [eauto|done]. Qed.

Lemma aget_ok {A} (l : list A) i x :
  0 <= i -> l !! Z.to_nat i = Some x -> aget l i = Ok x.
Proof.
  intros Hi Hl. unfold aget. destruct (Z.ltb_spec i 0); [lia|]. by rewrite Hl.
Qed.

Lemma aget_inv {A} (l : list A) i x :
  aget l i = Ok x -> 0 <= i < Z.of_nat (length l) /\ l !! Z.to_nat i = Some x.
Proof.
  unfold aget. destruct (Z.ltb_spec i 0); [discriminate|].
  destruct (l !! Z.to_nat i) eqn:E; simpl; [|discriminate].
  intros [= ->]. apply lookup_lt_Some in E as ?. split; [lia|done].
Qed.

Lemma aget_is_ok {A} (l : list A) i :
  0 <= i < Z.of_nat (length l) -> exists x, aget l i = Ok x.
Proof.
  intros Hi. destruct (l !! Z.to_nat i) eqn:E.
  - eexists. apply aget_ok; [lia|done].
  - apply lookup_ge_None in E. lia.
Qed.

Lemma aset_ok {A} (l : list A) i x :
  0 <= i < Z.of_nat (length l) -> aset l i x = Ok (<[Z.to_nat i := x]> l).
Proof.
  intros Hi. unfold aset.
  destruct (Z.leb_spec 0 i), (Z.ltb_spec i (Z.of_nat (length l))); simpl; try lia.
  done.
Qed.

Lemma aset_inv {A} (l l' : list A) i x :
  aset l i x = Ok l' ->
  0 <= i < Z.of_nat (length l) /\ l' = <[Z.to_nat i := x]> l.
Proof.
  unfold aset.
  destruct (Z.leb_spec 0 i), (Z.ltb_spec i (Z.of_nat (length l)));
    simpl; try discriminate.
  intros [= <-]. split; [lia|done].
Qed.

(** ** Machine words

    [uval], [uval64] and [unsigned long] are 64-bit on the modelled targets;
    a word is a [Z] kept in [0, 2^64). *)
Definition u64 (x : Z) : Z := x mod 2 ^ 64.
Definition u32 (x : Z) : Z := x mod 2 ^ 32.
Definition u16 (x : Z) : Z := x mod 2 ^ 16.

Definition add64 (a b : Z) : Z := u64 (a + b).
Definition sub64 (a b : Z) : Z := u64 (a - b).
Definition mul64 (a b : Z) : Z := u64 (a * b).
Definition shl64 (a n : Z) : Z := u64 (Z.shiftl a n).
Definition shr64 (a n : Z) : Z := Z.shiftr a n.
Definition not64 (a : Z) : Z := u64 (Z.lnot a).
Definition not32 (a : Z) : Z := u32 (Z.lnot a).

(** [~((uval)0)] *)
Definition ONES64 : Z := 2 ^ 64 - 1.

Definition is_u64 (x : Z) : Prop := 0 <= x < 2 ^ 64.
Definition is_u32 (x : Z) : Prop := 0 <= x < 2 ^ 32.

(** A word read as a C truth value. *)
Definition truth (x : Z) : bool := negb (x =? 0).
Definition b2z (b : bool) : Z := if b then 1 else 0.

(** [sval] view of a 64-bit word. *)
Definition s64 (x : Z) : Z := if x <? 2 ^ 63 then x else x - 2 ^ 64.

(** [include/util.h]: [s] is a power of two of the width of the result. *)
Definition ALIGN_UP (a s : Z) : Z := Z.land (add64 a (sub64 s 1)) (not64 (sub64 s 1)).
Definition ALIGN_DOWN (a s : Z) : Z := Z.land a (not64 (sub64 s 1)).

Lemma u64_range x : is_u64 (u64 x).
Proof. unfold is_u64, u64. apply Z.mod_pos_bound. lia. Qed.

Lemma u64_small x : 0 <= x < 2 ^ 64 -> u64 x = x.
Proof. intros. unfold u64. by apply Z.mod_small. Qed.

Lemma u32_small x : 0 <= x < 2 ^ 32 -> u32 x = x.
Proof. intros. unfold u32. by apply Z.mod_small. Qed.

Lemma u64_idem x : u64 (u64 x) = u64 x.
Proof. apply u64_small, u64_range. Qed.

Lemma add64_small a b : 0 <= a + b < 2 ^ 64 -> add64 a b = a + b.
Proof. apply u64_small. Qed.

Lemma sub64_small a b : 0 <= a - b < 2 ^ 64 -> sub64 a b = a - b.
Proof. apply u64_small. Qed.

Lemma mul64_small a b : 0 <= a * b < 2 ^ 64 -> mul64 a b = a * b.
Proof. apply u64_small. Qed.

(** ** Bits *)
Lemma testbit_u64 x i : 0 <= i -> Z.testbit (u64 x) i = (i <? 64) && Z.testbit x i.
Proof.
  intros Hi. unfold u64. destruct (Z.ltb_spec i 64); simpl.
  - rewrite Z.mod_pow2_bits_low; [done|lia].
  - apply Z.mod_pow2_bits_high. lia.
Qed.

Lemma testbit_u32 x i : 0 <= i -> Z.testbit (u32 x) i = (i <? 32) && Z.testbit x i.
Proof.
  intros Hi. unfold u32. destruct (Z.ltb_spec i 32); simpl.
  - rewrite Z.mod_pow2_bits_low; [done|lia].
  - apply Z.mod_pow2_bits_high. lia.
Qed.

Lemma testbit_high x n i : 0 <= x < 2 ^ n -> 0 <= n <= i -> Z.testbit x i = false.
Proof.
  intros Hx Hn. rewrite <- (Z.mod_small x (2 ^ n)) by done.
  apply Z.mod_pow2_bits_high. lia.
Qed.

Lemma testbit_not64 x i :
  0 <= i -> Z.testbit (not64 x) i = (i <? 64) && negb (Z.testbit x i).
Proof.
  intros Hi. unfold not64. rewrite testbit_u64 by done. by rewrite Z.lnot_spec.
Qed.

Lemma testbit_not32 x i :
  0 <= i -> Z.testbit (not32 x) i = (i <? 32) && negb (Z.testbit x i).
Proof.
  intros Hi. unfold not32. rewrite testbit_u32 by done. by rewrite Z.lnot_spec.
Qed.

Lemma testbit_shl64 x n i :
  0 <= i -> Z.testbit (shl64 x n) i = (i <? 64) && Z.testbit x (i - n).
Proof.
  intros Hi. unfold shl64. rewrite testbit_u64 by done. by rewrite Z.shiftl_spec.
Qed.

Lemma testbit_shr64 x n i : 0 <= i -> Z.testbit (shr64 x n) i = Z.testbit x (i + n).
Proof. intros Hi. unfold shr64. by rewrite Z.shiftr_spec. Qed.

Lemma testbit_pow2 n i : 0 <= n -> Z.testbit (2 ^ n) i = (n =? i).
Proof. intros Hn. apply Z.pow2_bits_eqb. done. Qed.

Lemma testbit_one i : Z.testbit 1 i = (i =? 0).
Proof. change 1 with (2 ^ 0). rewrite testbit_pow2 by lia. by rewrite Z.eqb_sym. Qed.

Lemma testbit_ONES64 i : 0 <= i -> Z.testbit ONES64 i = (i <? 64).
Proof.
  intros Hi. unfold ONES64. replace (2 ^ 64 - 1) with (Z.ones 64) by reflexivity.
  destruct (Z.ltb_spec i 64).
  - apply Z.ones_spec_low. lia.
  - apply Z.ones_spec_high. lia.
Qed.

Lemma is_u64_testbit x i : is_u64 x -> 64 <= i -> Z.testbit x i = false.
Proof. intros Hx Hi. apply (testbit_high x 64); [done|lia]. Qed.

Lemma is_u64_intro x :
  (forall i, 64 <= i -> Z.testbit x i = false) -> 0 <= x -> is_u64 x.
Proof.
  intros Hb Hx.   assert (u64 x = x) as <-; [|apply u64_range].
  apply Z.bits_inj'. intros i Hi. rewrite testbit_u64 by done.
  destruct (Z.ltb_spec i 64); simpl; [done|]. symmetry. apply Hb. lia.
Qed.

Lemma is_u64_land x y : is_u64 x -> 0 <= y -> is_u64 (Z.land x y).
Proof.
  intros Hx Hy. apply is_u64_intro.
  - intros i Hi. rewrite Z.land_spec, is_u64_testbit; done.
  - apply Z.land_nonneg. unfold is_u64 in Hx. lia.
Qed.

Lemma is_u64_lor x y : is_u64 x -> is_u64 y -> is_u64 (Z.lor x y).
Proof.
  intros Hx Hy. apply is_u64_intro.
  - intros i Hi. rewrite Z.lor_spec, !is_u64_testbit; done.
  - apply Z.lor_nonneg. unfold is_u64 in *. lia.
Qed.

Lemma is_u64_shr x n : is_u64 x -> 0 <= n -> is_u64 (shr64 x n).
Proof.
  intros Hx Hn. apply is_u64_intro.
  - intros i Hi. rewrite testbit_shr64 by lia. apply is_u64_testbit; [done|lia].
  - apply Z.shiftr_nonneg. unfold is_u64 in Hx. lia.
Qed.

Lemma is_u32_intro x :
  (forall i, 32 <= i -> Z.testbit x i = false) -> 0 <= x -> is_u32 x.
Proof.
  intros Hb Hx. assert (u32 x = x) as <-.
  - apply Z.bits_inj'. intros i Hi. rewrite testbit_u32 by done.
    destruct (Z.ltb_spec i 32); simpl; [done|]. symmetry. apply Hb. lia.
  - unfold is_u32, u32. apply Z.mod_pos_bound. lia.
Qed.

Lemma is_u32_testbit x i : is_u32 x -> 32 <= i -> Z.testbit x i = false.
Proof. intros Hx Hi. apply (testbit_high x 32); [done|lia]. Qed.

Lemma is_u32_land x y : is_u32 x -> 0 <= y -> is_u32 (Z.land x y).
Proof.
  intros Hx Hy. apply is_u32_intro.
  - intros i Hi. rewrite Z.land_spec, is_u32_testbit; done.
  - apply Z.land_nonneg. unfold is_u32 in Hx. lia.
Qed.

Lemma is_u32_lor x y : is_u32 x -> is_u32 y -> is_u32 (Z.lor x y).
Proof.
  intros Hx Hy. apply is_u32_intro.
  - intros i Hi. rewrite Z.lor_spec, !is_u32_testbit; done.
  - apply Z.lor_nonneg. unfold is_u32 in *. lia.
Qed.

Lemma is_u32_pow2 n : 0 <= n < 32 -> is_u32 (2 ^ n).
Proof. intros Hn. unfold is_u32. split; [lia|]. apply Z.pow_lt_mono_r; lia. Qed.

Lemma not32_range x : is_u32 (not32 x).
Proof. unfold is_u32, not32, u32. apply Z.mod_pos_bound. lia. Qed.

Create HintDb word discriminated.
#[export] Hint Resolve u64_range is_u64_land is_u64_lor is_u64_shr : word.
#[export] Hint Resolve is_u32_land is_u32_lor is_u32_pow2 not32_range : word.
#[export] Hint Extern 5 (_ <= _ < _) => lia : word.
#[export] Hint Extern 6 (0 <= _) => lia : word.
#[export] Hint Extern 5 (is_u32 _) => (unfold is_u32; lia) : word.
#[export] Hint Extern 5 (0 <= not32 _) => (apply not32_range) : word.
#[export] Hint Extern 1 (is_u64 (add64 _ _)) => apply u64_range : word.
#[export] Hint Extern 1 (is_u64 (sub64 _ _)) => apply u64_range : word.
#[export] Hint Extern 1 (is_u64 (shl64 _ _)) => apply u64_range : word.
#[export] Hint Extern 1 (is_u64 (not64 _)) => apply u64_range : word.
#[export] Hint Extern 5 (is_u64 _) => (unfold is_u64; lia) : word.

Create Rewrite HintDb testbit.
#[export] Hint Rewrite Z.land_spec Z.lor_spec Z.lxor_spec Z.bits_0
  testbit_one : testbit.
#[export] Hint Rewrite testbit_u64 testbit_u32 testbit_not64 testbit_not32
  testbit_shl64 testbit_shr64 testbit_ONES64 Z.lnot_spec Z.shiftr_spec
  Z.shiftl_spec testbit_pow2 using lia : testbit.

(** [bits i] reduces an equality of words to one on their [i]-th bits. *)
Ltac bits i :=
  let H := fresh "H" i in
  apply Z.bits_inj'; intros i H; autorewrite with testbit.

Ltac zbool :=
  repeat match goal with
  | |- context [?a <? ?b] => destruct (Z.ltb_spec a b)
  | |- context [?a <=? ?b] => destruct (Z.leb_spec a b)
  | |- context [?a =? ?b] => destruct (Z.eqb_spec a b)
  | H : context [?a <? ?b] |- _ => destruct (Z.ltb_spec a b)
  | H : context [?a <=? ?b] |- _ => destruct (Z.leb_spec a b)
  | H : context [?a =? ?b] |- _ => destruct (Z.eqb_spec a b)
  end; simpl in *.

Lemma land_zero_iff x y :
  0 <= x -> Z.land x y = 0 <-> (forall i, 0 <= i -> Z.testbit x i = true -> Z.testbit y i = false).
Proof.
  intros Hx. split.
  - intros H i Hi Hb. assert (Z.testbit (Z.land x y) i = false) as E by (rewrite H; apply Z.bits_0).
    rewrite Z.land_spec, Hb in E. done.
  - intros H. bits i. destruct (Z.testbit x i) eqn:E; simpl; [|done]. by apply H.
Qed.

Lemma truth_true x : truth x = true <-> x <> 0.
Proof. unfold truth. destruct (Z.eqb_spec x 0); simpl; split; congruence || done. Qed.

Lemma truth_false x : truth x = false <-> x = 0.
Proof. unfold truth. destruct (Z.eqb_spec x 0); simpl; split; congruence || done. Qed.

Lemma truth_land_pow2 x k : 0 <= k -> truth (Z.land x (2 ^ k)) = Z.testbit x k.
Proof.
  intros Hk. destruct (Z.testbit x k) eqn:E.
  - apply truth_true. intros H0. assert (Z.testbit (Z.land x (2 ^ k)) k = false) as H by (rewrite H0; apply Z.bits_0).
    rewrite Z.land_spec, testbit_pow2, E, Z.eqb_refl in H by done. done.
  - apply truth_false. bits i. destruct (Z.eqb_spec k i) as [->|]; [by rewrite E|apply andb_false_r].
Qed.

Lemma shl64_one i : 0 <= i < 64 -> shl64 1 i = 2 ^ i.
Proof.
  intros Hi. unfold shl64. rewrite Z.shiftl_mul_pow2, Z.mul_1_l by lia. apply u64_small.
  split; [lia|]. apply Z.pow_lt_mono_r; lia.
Qed.

(** ** Alignment *)
Lemma sub64_one_pow2 k : 0 <= k < 64 -> sub64 (2 ^ k) 1 = Z.ones k.
Proof.
  intros Hk. rewrite Z.ones_equiv, sub64_small; [lia|].
  assert (0 < 2 ^ k) by (apply Z.pow_pos_nonneg; lia).
  assert (2 ^ k < 2 ^ 64) by (apply Z.pow_lt_mono_r; lia). lia.
Qed.

Lemma land_not_ones a k :
  is_u64 a -> 0 <= k < 64 -> Z.land a (not64 (Z.ones k)) = a / 2 ^ k * 2 ^ k.
Proof.
  intros Ha Hk. rewrite <- Z.shiftr_div_pow2, <- Z.shiftl_mul_pow2 by lia.
  apply Z.bits_inj'. intros i Hi.
  rewrite Z.land_spec, testbit_not64, Z.shiftl_spec by done.
  destruct (Z.ltb_spec i k).
  - rewrite Z.ones_spec_low by lia. rewrite (Z.testbit_neg_r _ (i - k)) by lia.
    by rewrite !andb_false_r.
  - rewrite Z.shiftr_spec by lia. replace (i - k + k) with i by lia.
    rewrite Z.ones_spec_high by lia. destruct (Z.ltb_spec i 64); simpl.
    + apply andb_true_r.
    + rewrite (is_u64_testbit a) by (done || lia). done.
Qed.

Lemma ALIGN_DOWN_pow2 a k :
  is_u64 a -> 0 <= k < 64 -> ALIGN_DOWN a (2 ^ k) = a / 2 ^ k * 2 ^ k.
Proof.
  intros Ha Hk. unfold ALIGN_DOWN. rewrite sub64_one_pow2 by done.
  by apply land_not_ones.
Qed.

Lemma ALIGN_UP_pow2 a k :
  0 <= a -> 0 <= k < 64 -> a + 2 ^ k - 1 < 2 ^ 64 ->
  ALIGN_UP a (2 ^ k) = (a + 2 ^ k - 1) / 2 ^ k * 2 ^ k.
Proof.
  intros Ha Hk Hs. assert (0 < 2 ^ k) by (apply Z.pow_pos_nonneg; lia).
  unfold ALIGN_UP. rewrite sub64_one_pow2 by done.
  rewrite add64_small by (rewrite Z.ones_equiv; lia).
  rewrite land_not_ones; [|unfold is_u64; rewrite Z.ones_equiv; lia|done].
  by rewrite Z.ones_equiv, <- Z.sub_1_r, Z.add_sub_assoc.
Qed.

(** The aligned value is the least multiple of [2 ^ k] not below [a]. *)
Lemma align_up_bounds a k :
  0 <= a -> 0 <= k < 64 -> a + 2 ^ k - 1 < 2 ^ 64 ->
  a <= ALIGN_UP a (2 ^ k) < a + 2 ^ k /\ (2 ^ k | ALIGN_UP a (2 ^ k)).
Proof.
  intros Ha Hk Hs. assert (0 < 2 ^ k) by (apply Z.pow_pos_nonneg; lia).
  rewrite ALIGN_UP_pow2 by done. split; [|apply Z.divide_factor_r].
  pose proof (Z.div_mod (a + 2 ^ k - 1) (2 ^ k)).
  pose proof (Z.mod_pos_bound (a + 2 ^ k - 1) (2 ^ k)). lia.
Qed.

Lemma align_up_id a k :
  0 <= a -> 0 <= k < 64 -> a + 2 ^ k - 1 < 2 ^ 64 -> (2 ^ k | a) ->
  ALIGN_UP a (2 ^ k) = a.
Proof.
  intros Ha Hk Hs [q ->]. assert (0 < 2 ^ k) by (apply Z.pow_pos_nonneg; lia).
  rewrite ALIGN_UP_pow2 by done. f_equal.
  symmetry. apply Z.div_unique_pos with (2 ^ k - 1); lia.
Qed.

(** [lia] after replacing quotients and remainders by their equations. *)
Ltac dlia := Z.to_euclidean_division_equations; lia.
(** Case analysis on every integer comparison, each case closed by arithmetic. *)
Ltac zcases := zbool; first [done | lia | exfalso; lia | dlia | exfalso; dlia].

(** ** Lists *)
Lemma elem_of_concat {A} (x : A) (ls : list (list A)) :
  x ∈ concat ls <-> exists l, x ∈ l /\ l ∈ ls.
Proof.
  rewrite list_elem_of_In, in_concat. split; intros (l & H1 & H2); exists l;
    rewrite ?list_elem_of_In in *; tauto.
Qed.

(** Membership in concrete concatenations. *)
Ltac lmem :=
  rewrite ?elem_of_app, ?elem_of_cons, ?elem_of_app, ?elem_of_cons,
    ?elem_of_app, ?elem_of_cons, ?elem_of_nil in *; tauto.

(** Sums over lists, and how they change when one element is replaced. *)
Fixpoint zsum {A} (f : A -> Z) (l : list A) : Z :=
  match l with
  | [] => 0
  | x :: l => f x + zsum f l
  end.

Lemma zsum_insert {A} (f : A -> Z) l i x y :
  l !! i = Some x -> zsum f (<[i := y]> l) = zsum f l - f x + f y.
Proof.
  revert i. induction l as [|z l IH]; intros [|i] H; simpl in *; try done.
  - injection H as ->. lia.
  - rewrite (IH i H). lia.
Qed.

Lemma zsum_nonneg {A} (f : A -> Z) l : (forall x, 0 <= f x) -> 0 <= zsum f l.
Proof. intros Hf. induction l as [|x l IH]; simpl; [lia|]. specialize (Hf x). lia. Qed.

Lemma zsum_elem {A} (f : A -> Z) l i x :
  (forall x, 0 <= f x) -> l !! i = Some x -> f x <= zsum f l.
Proof.
  intros Hf. revert i. induction l as [|y l IH]; intros [|i] H; simpl in *; try done.
  - injection H as ->. pose proof (zsum_nonneg f l Hf). lia.
  - specialize (IH i H). specialize (Hf y). lia.
Qed.

(** Two different elements both count. *)
Lemma zsum_two {A} (f : A -> Z) l i j x y :
  (forall x, 0 <= f x) -> l !! i = Some x -> l !! j = Some y -> i <> j -> f x + f y <= zsum f l.
Proof.
  intros Hf. revert i j. induction l as [|z l IH]; intros [|i] [|j] Hi Hj Hne; simpl in *; try done.
  - injection Hi as ->. pose proof (zsum_elem f l j y Hf Hj). lia.
  - injection Hj as ->. pose proof (zsum_elem f l i x Hf Hi). lia.
  - specialize (IH i j Hi Hj). specialize (Hf z). lia.
Qed.

Lemma zsum_bound {A} (f : A -> Z) l c :
  (forall x, f x <= c) -> zsum f l <= c * Z.of_nat (length l).
Proof. intros Hf. induction l as [|x l IH]; simpl; [lia|]. specialize (Hf x). lia. Qed.

Lemma zsum_repeat {A} (f : A -> Z) x m : zsum f (repeat x m) = f x * Z.of_nat m.
Proof. induction m as [|m IH]; simpl repeat; simpl zsum; lia. Qed.
