(* ===== verification/Hcall.v ===== *)
(** * Hcall: return codes of the hypervisor calls ([include/lpar.h])

    A handler returns a signed word; a routine declared [uval] returns the same
    code as an unsigned word, which is [u64] of it. *)

From S2P Require Import Prelude.

Definition H_PARTIAL_STORE : Z := 16.
Definition H_Constrained : Z := 4.
Definition H_Closed : Z := 2.
Definition H_Busy : Z := 1.
Definition H_Success : Z := 0.
Definition H_Hardware : Z := -1.
Definition H_Function : Z := -2.
Definition H_Privilege : Z := -3.
Definition H_Parameter : Z := -4.
Definition H_Bad_Mode : Z := -5.
Definition H_PTEG_FULL : Z := -6.
Definition H_NOT_FOUND : Z := -7.
Definition H_UNAVAIL : Z := -9.
Definition H_INVAL : Z := -10.
Definition H_Permission : Z := -11.
Definition H_Dropped : Z := -12.
Definition H_S_Parm : Z := -13.
Definition H_D_Parm : Z := -14.
Definition H_R_Parm : Z := -15.
Definition H_Resource : Z := -16.
Definition H_ADAPTER_PARM : Z := -17.
Definition H_Rescinded : Z := -18.

(** [H_SELF_LPID]: the caller's own partition. *)
Definition H_SELF_LPID : Z := ONES64.
