(* ===== verification/Bitmap.v ===== *)
(** * Bitmap: large bitmaps

    [lib/bitmap.c] and [include/bitmap.h], with [ffz] and [bit_log2] of
    [include/powerpc/bitops.h] and [include/powerpc/64/bitops.h].  A bitmap is
    the number of bits it tracks and its array of 64-bit words.  The page
    allocator, the logical memory map, the page share manager and the LPID tag
    pool are its clients. *)

From S2P Require Import Prelude.

(** ** Bit operations *)

(** [bit_log2]: [63 - cntlzd(x)]; [cntlzd(0)] is 64, so zero gives -1. *)
Definition bit_log2 (x : Z) : Z := if x =? 0 then ONES64 else Z.log2 x.

(** [ffz]: index of the least zero bit, 64 when there is none. *)
Definition ffz (i : Z) : Z :=
  let i := not64 i in
  if i =? 0 then 64 else bit_log2 (Z.land i (u64 (- i))).

(** ** Data *)

Definition UVAL_BITS : Z := 64.
Definition SIZEOF_UVAL : Z := 8.
Definition SIZEOF_LBM : Z := 8.
Definition LARGE_BITMAP_ERROR : Z := ONES64.

Record lbm := Lbm { lbm_num : Z; lbm_bits : list Z }.

Definition set_words (l : lbm) (ws : list Z) : lbm := Lbm (lbm_num l) ws.

(** [(l->lbm_num + UVAL_BITS - 1) / UVAL_BITS] *)
Definition lbm_words (num : Z) : Z := sub64 (add64 num UVAL_BITS) 1 / UVAL_BITS.

(** ** Operations *)

Definition lbm_size (l : lbm) : Z := add64 SIZEOF_LBM (mul64 (lbm_num l) SIZEOF_UVAL).

(** [lbm_init] builds a bitmap over the memory it is given: the words keep the
    contents [mem] they had.  [None] is the [NULL] of the size check. *)
Definition lbm_init (num_bits max_size : Z) (mem : list Z) : option lbm :=
  let size := add64 SIZEOF_LBM (mul64 (lbm_words num_bits) SIZEOF_UVAL) in
  if truth max_size && (max_size <? size) then None
  else Some (Lbm num_bits mem).

(** The size [lbm_alloc] asks [halloc] for. *)
Definition lbm_alloc_size (num_bits : Z) : Z :=
  add64 SIZEOF_LBM (sub64 (add64 num_bits UVAL_BITS) 1 / SIZEOF_UVAL).

(** [halloc] is given by the contents of the words it returns, [None] when it
    fails. *)
Definition lbm_alloc (halloc : Z -> option (list Z)) (num_bits : Z) : option lbm :=
  let size := lbm_alloc_size num_bits in
  match halloc size with
  | None => None
  | Some mem => lbm_init num_bits size mem
  end.

Fixpoint set_all_loop (n : nat) (i val : Z) (ws : list Z) : res (list Z) :=
  match n with
  | O => Ok ws
  | S n => let! ws := aset ws i val in set_all_loop n (i + 1) val ws
  end.

Definition lbm_set_all_bits (l : lbm) (val : Z) : res lbm :=
  let words := lbm_words (lbm_num l) in
  let val := if truth val then ONES64 else val in
  let! ws := set_all_loop (Z.to_nat words) 0 val (lbm_bits l) in
  Ok (set_words l ws).

(** One turn of the [while (num_bits)] loop of [lbm_set_bits]. *)
Definition set_bits_body (start_bit num_bits val : Z) (ws : list Z)
  : res (Z * Z * list Z) :=
  let start := start_bit mod UVAL_BITS in
  let e := add64 start num_bits in
  let mask := shl64 ONES64 start in
  let '(e, mask) :=
    if UVAL_BITS <=? e then (UVAL_BITS, mask)
    else (e, Z.lxor mask (shl64 ONES64 e)) in
  let! w := aget ws (start_bit / UVAL_BITS) in
  let! ws :=
    aset ws (start_bit / UVAL_BITS)
      (if truth val then Z.lor w mask else Z.land w (not64 mask)) in
  Ok (add64 start_bit (sub64 e start), sub64 num_bits (sub64 e start), ws).

Fixpoint set_bits_loop (fuel : nat) (start_bit num_bits val : Z) (ws : list Z)
  : res (list Z) :=
  if num_bits =? 0 then Ok ws
  else match fuel with
  | O => Fault Out_of_fuel
  | S fuel =>
      let! r := set_bits_body start_bit num_bits val ws in
      let '(start_bit, num_bits, ws) := r in
      set_bits_loop fuel start_bit num_bits val ws
  end.

(** Each turn finishes one word, so one turn per word of the map and one more
    is always enough fuel for a range inside it. *)
Definition lbm_set_bits (l : lbm) (start_bit num_bits val : Z) : res lbm :=
  let num_bits :=
    if lbm_num l <? add64 start_bit num_bits
    then sub64 (lbm_num l) start_bit else num_bits in
  let! ws := set_bits_loop (S (length (lbm_bits l))) start_bit num_bits val (lbm_bits l) in
  Ok (set_words l ws).

(** [1 << log_align] is an [int] shift: undefined from 31 on. *)
Definition int_shl1 (n : Z) : res Z :=
  if (0 <=? n) && (n <? 31) then Ok (2 ^ n) else Fault Bad_shift.

(** [i = i + base; i = (i + align - 1) & ~(align - 1); i = i - base;] *)
Definition align_from_base (i align base : Z) : Z :=
  let i := add64 i base in
  let i := Z.land (sub64 (add64 i align) 1) (not64 (sub64 align 1)) in
  sub64 i base.

(** One turn of the search loop of [lbm_find_range]: go on with a new
    [(i, matched)], or [break]. *)
Inductive find_step := Find_next (i matched : Z) | Find_break (i matched : Z).

Definition find_body (l : lbm) (val num_bits align base i matched : Z)
  : res find_step :=
  let! w := aget (lbm_bits l) (i / UVAL_BITS) in
  if (truth val && (w =? 0)) || ((val =? 0) && (w =? ONES64))
  then Ok (Find_next (add64 i UVAL_BITS) 0)
  else
    let i := if matched =? 0 then align_from_base i align base else i in
    let mask_bits :=
      if sub64 UVAL_BITS (i mod UVAL_BITS) <? sub64 num_bits matched
      then sub64 UVAL_BITS (i mod UVAL_BITS)
      else sub64 num_bits matched in
    let mask := shr64 ONES64 (sub64 UVAL_BITS mask_bits) in
    let! w := aget (lbm_bits l) (i / UVAL_BITS) in
    let test := shr64 w (i mod UVAL_BITS) in
    if ((val =? 1) && (Z.land test mask =? mask))
       || ((val =? 0) && (Z.land test mask =? 0))
    then
      let matched := add64 matched mask_bits in
      if matched =? num_bits then Ok (Find_break (add64 i mask_bits) matched)
      else if truth matched then Ok (Find_next (add64 i mask_bits) matched)
      else Ok (Find_next (add64 i align) matched)
    else Ok (Find_next (add64 i align) 0).

Fixpoint find_loop (fuel : nat) (l : lbm) (val num_bits align base i matched : Z)
  : res (Z * Z) :=
  if sub64 i matched <=? sub64 (mul64 (lbm_words (lbm_num l)) UVAL_BITS) num_bits
  then match fuel with
  | O => Fault Out_of_fuel
  | S fuel =>
      let! s := find_body l val num_bits align base i matched in
      match s with
      | Find_break i matched => Ok (i, matched)
      | Find_next i matched => find_loop fuel l val num_bits align base i matched
      end
  end
  else Ok (i, matched).

(** The position grows by at least one bit on every turn and stays below the
    number of bits of the map while the loop runs. *)
Definition find_fuel (l : lbm) : nat :=
  S (Z.to_nat (mul64 (lbm_words (lbm_num l)) UVAL_BITS)).

Definition lbm_find_range (l : lbm) (val num_bits log_align base : Z) : res Z :=
  let! align := int_shl1 log_align in
  let i := align_from_base 0 align base in
  if num_bits =? 0 then Ok LARGE_BITMAP_ERROR
  else
    let! r := find_loop (find_fuel l) l val num_bits align base i 0 in
    let '(i, matched) := r in
    if negb (matched =? num_bits) then Ok LARGE_BITMAP_ERROR
    else Ok (sub64 i matched).

Definition test_bit (l : lbm) (bit : Z) : res Z :=
  cassert (bit <? lbm_num l) (
  let! w := aget (lbm_bits l) (bit / UVAL_BITS) in
  Ok (Z.land (shr64 w (bit mod UVAL_BITS)) 1)).

Fixpoint test_bits_loop (fuel : nat) (l : lbm) (bit num_bits val : Z) : res Z :=
  if bit <? num_bits then
    match fuel with
    | O => Fault Out_of_fuel
    | S fuel =>
        let! b := test_bit l bit in
        if truth val then
          if negb (truth b) then Ok 0
          else test_bits_loop fuel l (add64 bit 1) num_bits val
        else
          if truth b then Ok 0
          else test_bits_loop fuel l (add64 bit 1) num_bits val
    end
  else Ok 1.

Definition test_bits (l : lbm) (bit num_bits val : Z) : res Z :=
  cassert (add64 bit num_bits <=? lbm_num l)
  (test_bits_loop (Z.to_nat num_bits) l bit num_bits val).

(** ** Atomic use

    [lbm_acquire] and [lbm_release] may race with other processors.  [env i map]
    is the value word [i] holds when the compare-and-swap runs, [map] being the
    value loaded just before; a processor running alone has [env i map = map].
    [1U << bit] is a 32-bit shift: for [bit] of 32 and above C leaves it
    undefined and the result, [wide bit], is what the hardware gives. *)
Section Acquire.
Context (env : Z -> Z -> Z) (wide : Z -> Z).

Definition uint_shl1 (n : Z) : Z := if n <? 32 then u32 (Z.shiftl 1 n) else wide n.

Fixpoint acquire_loop (n : nat) (i num : Z) (ws : list Z) : res (Z * list Z) :=
  match n with
  | O => Ok (-1, ws)
  | S n =>
      let! map := aget ws i in
      let bit := ffz map in
      if (bit <? UVAL_BITS) && (add64 (mul64 i UVAL_BITS) bit <? num) then
        let new := Z.lor map (uint_shl1 bit) in
        let! ws := aset ws i (env i map) in
        if env i map =? map then
          let! ws := aset ws i new in
          Ok (add64 (mul64 i UVAL_BITS) bit, ws)
        else acquire_loop n (i + 1) num ws
      else acquire_loop n (i + 1) num ws
  end.

Definition lbm_acquire (l : lbm) : res (Z * lbm) :=
  let words := lbm_words (lbm_num l) in
  let! r := acquire_loop (Z.to_nat words) 0 (lbm_num l) (lbm_bits l) in
  let '(bit, ws) := r in
  Ok (bit, set_words l ws).
End Acquire.

(** The retry loop of [lbm_release] ends with a turn whose load and
    compare-and-swap see the same word; this is that turn. *)
Definition lbm_release (l : lbm) (bit : Z) : res (Z * lbm) :=
  if lbm_num l <=? bit then Fault Assert_failed
  else
    let i := bit / UVAL_BITS in
    let b := shl64 1 (bit mod UVAL_BITS) in
    let! map := aget (lbm_bits l) i in
    if Z.land map b =? 0 then Ok (-1, l)
    else
      let! ws := aset (lbm_bits l) i (Z.land map (not64 b)) in
      Ok (bit, set_words l ws).

(** ** Abstraction: the bit a map holds at a position *)
Definition lbit (ws : list Z) (k : Z) : bool :=
  match ws !! Z.to_nat (k / UVAL_BITS) with
  | Some w => Z.testbit w (k mod UVAL_BITS)
  | None => false
  end.

(** Number of bits the array of words holds. *)
Definition capacity (ws : list Z) : Z := Z.of_nat (length ws) * UVAL_BITS.

Record lbm_wf (l : lbm) : Prop := {
  wf_num : 0 <= lbm_num l < 2 ^ 60;
  wf_len : Z.of_nat (length (lbm_bits l)) = (lbm_num l + 63) / 64;
  wf_words : Forall is_u64 (lbm_bits l)
}.

(** ** Basic lemmas *)

Lemma lbm_words_eq num : 0 <= num < 2 ^ 60 -> lbm_words num = (num + 63) / 64.
Proof.
  intros Hn. unfold lbm_words, UVAL_BITS.
  rewrite add64_small, sub64_small by lia. f_equal. lia.
Qed.

Lemma wf_words_eq l : lbm_wf l -> lbm_words (lbm_num l) = Z.of_nat (length (lbm_bits l)).
Proof. intros [Hn Hl _]. by rewrite lbm_words_eq, Hl. Qed.

Lemma wf_capacity l : lbm_wf l -> lbm_num l <= capacity (lbm_bits l) < lbm_num l + 64.
Proof. intros [Hn Hl _]. unfold capacity, UVAL_BITS. rewrite Hl. dlia. Qed.

Lemma wf_total l :
  lbm_wf l -> mul64 (lbm_words (lbm_num l)) UVAL_BITS = capacity (lbm_bits l).
Proof.
  intros H. pose proof (wf_capacity l H). destruct H as [Hn Hl ?].
  rewrite (wf_words_eq l) by (by constructor).
  apply mul64_small. unfold capacity in *. lia.
Qed.

Lemma word_at l k :
  0 <= k < capacity l ->
  exists w, aget l (k / 64) = Ok w /\ l !! Z.to_nat (k / 64) = Some w.
Proof.
  unfold capacity, UVAL_BITS. intros Hk.
  destruct (aget_is_ok l (k / 64)) as [w Hw]; [dlia|].
  exists w. split; [done|]. by apply aget_inv in Hw as [_ ?].
Qed.

Lemma lbit_eq l k w : l !! Z.to_nat (k / 64) = Some w -> lbit l k = Z.testbit w (k mod 64).
Proof. intros H. unfold lbit, UVAL_BITS. by rewrite H. Qed.

(** Updating one word changes the bits of that word only. *)
Lemma lbit_insert ws i w' k :
  0 <= i < Z.of_nat (length ws) -> 0 <= k ->
  lbit (<[Z.to_nat i := w']> ws) k =
    if k / 64 =? i then Z.testbit w' (k mod 64) else lbit ws k.
Proof.
  intros Hi Hk. unfold lbit, UVAL_BITS. destruct (Z.eqb_spec (k / 64) i) as [->|Hne].
  - rewrite list_lookup_insert_eq by lia. done.
  - rewrite list_lookup_insert_ne; [done|]. intros E. apply Hne. dlia.
Qed.

Lemma lbit_outside ws k : 0 <= k -> capacity ws <= k -> lbit ws k = false.
Proof.
  unfold capacity, UVAL_BITS. intros H0 Hk. unfold lbit, UVAL_BITS.
  rewrite lookup_ge_None_2; [done|]. dlia.
Qed.

(** ** Setting a range of bits *)

Lemma mask_from start j :
  0 <= start < 64 -> 0 <= j ->
  Z.testbit (shl64 ONES64 start) j = (start <=? j) && (j <? 64).
Proof.
  intros Hs Hj. rewrite testbit_shl64 by done.
  destruct (Z.leb_spec start j); simpl.
  - rewrite testbit_ONES64 by lia. zcases.
  - rewrite Z.testbit_neg_r by lia. apply andb_false_r.
Qed.

(** The word [set_bits_body] writes, bit by bit. *)
Lemma set_word_bits val w start e j :
  is_u64 w -> 0 <= start < 64 -> start <= e <= 64 -> 0 <= j < 64 ->
  let mask := if e =? 64 then shl64 ONES64 start
              else Z.lxor (shl64 ONES64 start) (shl64 ONES64 e) in
  Z.testbit (if truth val then Z.lor w mask else Z.land w (not64 mask)) j =
    if (start <=? j) && (j <? e) then truth val else Z.testbit w j.
Proof.
  intros Hw Hs He Hj mask.
  assert (Z.testbit mask j = (start <=? j) && (j <? e)) as Hm.
  { unfold mask. destruct (Z.eqb_spec e 64) as [->|].
    - apply mask_from; lia.
    - rewrite Z.lxor_spec, !mask_from by lia. zcases. }
  destruct (truth val).
  - rewrite Z.lor_spec, Hm. destruct (_ && _); [apply orb_true_r|apply orb_false_r].
  - rewrite Z.land_spec, testbit_not64, Hm by lia. destruct (Z.ltb_spec j 64); [|lia].
    destruct (_ && _); simpl; [apply andb_false_r|apply andb_true_r].
Qed.

Lemma set_word_u64 val w mask :
  is_u64 w -> is_u64 mask ->
  is_u64 (if truth val then Z.lor w mask else Z.land w (not64 mask)).
Proof.
  intros Hw Hm. destruct (truth val); [by auto with word|].
  apply is_u64_land; [done|]. apply u64_range.
Qed.

Lemma is_u64_lxor x y : is_u64 x -> is_u64 y -> is_u64 (Z.lxor x y).
Proof.
  intros Hx Hy. apply is_u64_intro.
  - intros i Hi. rewrite Z.lxor_spec, !is_u64_testbit; done.
  - apply Z.lxor_nonneg. unfold is_u64 in *. lia.
Qed.

Lemma set_bits_body_spec ws start n val :
  Forall is_u64 ws -> capacity ws < 2 ^ 62 ->
  0 <= start -> 0 < n -> start + n <= capacity ws ->
  let step := Z.min n (64 - start mod 64) in
  exists ws',
    set_bits_body start n val ws = Ok (start + step, n - step, ws') /\
    Forall is_u64 ws' /\ length ws' = length ws /\
    forall k, 0 <= k ->
      lbit ws' k = if (start <=? k) && (k <? start + step) then truth val else lbit ws k.
Proof.
  intros Hws Hcap Hs Hn Hend step. unfold set_bits_body, UVAL_BITS in *.
  destruct (word_at ws start) as (w & Hget & Hw); [lia|].
  assert (is_u64 w) as Hw64 by (eapply Forall_lookup_1; done).
  apply aget_inv in Hget as Hr. destruct Hr as [Hr _].
  assert (0 <= start mod 64 < 64) as Hm by dlia.
  rewrite (add64_small (start mod 64) n) by lia.
  set (e := start mod 64 + step).
  assert (He : start mod 64 <= e <= 64) by lia.
  set (mask := if e =? 64 then shl64 ONES64 (start mod 64)
               else Z.lxor (shl64 ONES64 (start mod 64)) (shl64 ONES64 e)).
  set (w' := if truth val then Z.lor w mask else Z.land w (not64 mask)).
  replace (if 64 <=? start mod 64 + n
           then (64, shl64 ONES64 (start mod 64))
           else (start mod 64 + n,
                 Z.lxor (shl64 ONES64 (start mod 64)) (shl64 ONES64 (start mod 64 + n))))
    with (e, mask).
  2:{ unfold mask, e, step. destruct (Z.leb_spec 64 (start mod 64 + n)).
      - rewrite Z.min_r by lia. replace (start mod 64 + (64 - start mod 64)) with 64 by lia. done.
      - rewrite Z.min_l by lia. destruct (Z.eqb_spec (start mod 64 + n) 64); [lia|done]. }
  rewrite Hget. simpl. fold w'. rewrite aset_ok by done. simpl.
  rewrite (sub64_small e) by lia.
  rewrite add64_small, sub64_small by lia.
  exists (<[Z.to_nat (start / 64) := w']> ws). split_and!.
  - do 2 f_equal. f_equal; lia.
  - apply Forall_insert; [done|]. apply set_word_u64; [done|].
    unfold mask. destruct (e =? 64); [apply u64_range|].
    apply is_u64_lxor; apply u64_range.
  - apply length_insert.
  - intros k Hk. rewrite lbit_insert by done.
    destruct (Z.eqb_spec (k / 64) (start / 64)) as [E|E].
    + unfold w', mask. rewrite set_word_bits by (done || dlia).
      rewrite (lbit_eq ws k w) by (by rewrite E).
      replace ((start <=? k) && (k <? start + step))
        with ((start mod 64 <=? k mod 64) && (k mod 64 <? e)); [done|].
      unfold e. zcases.
    + destruct (Z.leb_spec start k), (Z.ltb_spec k (start + step)); simpl; try done.
      exfalso. apply E. dlia.
Qed.

Lemma set_bits_loop_spec fuel : forall ws start n val,
  Forall is_u64 ws -> capacity ws < 2 ^ 62 ->
  0 <= start -> 0 <= n -> start + n <= capacity ws ->
  (0 < n -> Z.of_nat (length ws) <= start / 64 + Z.of_nat fuel) ->
  exists ws',
    set_bits_loop fuel start n val ws = Ok ws' /\
    Forall is_u64 ws' /\ length ws' = length ws /\
    forall k, 0 <= k ->
      lbit ws' k = if (start <=? k) && (k <? start + n) then truth val else lbit ws k.
Proof.
  induction fuel as [|fuel IH]; intros ws start n val Hws Hcap Hs Hn Hend Hf; simpl;
    (destruct (Z.eqb_spec n 0) as [->|Hn0];
     [exists ws; split_and!; [done..|]; intros k Hk; zcases|]).
  - unfold capacity, UVAL_BITS in *. exfalso. dlia.
  - destruct (set_bits_body_spec ws start n val) as (ws1 & -> & H1 & L1 & B1);
      [done..|lia|done|]. simpl.
    set (step := Z.min n (64 - start mod 64)) in *.
    destruct (IH ws1 (start + step) (n - step) val) as (ws2 & -> & H2 & L2 & B2).
    + done.
    + unfold capacity in *. by rewrite L1.
    + unfold step. dlia.
    + unfold step. dlia.
    + unfold capacity in *. rewrite L1. lia.
    + rewrite L1. unfold step. intros. dlia.
    + exists ws2. split_and!; [done|done|congruence|].
      intros k Hk. rewrite B2, B1 by done.
      assert (0 < step <= n) by (unfold step; dlia).
      zcases.
Qed.

(** The bits [lbm_set_bits] writes: from [start] for [n] bits, cut at the end
    of the map. *)
Lemma lbm_set_bits_spec l start n val :
  lbm_wf l -> 0 <= start <= lbm_num l -> 0 <= n -> start + n < 2 ^ 64 ->
  exists l',
    lbm_set_bits l start n val = Ok l' /\ lbm_wf l' /\ lbm_num l' = lbm_num l /\
    forall k, 0 <= k ->
      lbit (lbm_bits l') k =
        if (start <=? k) && (k <? Z.min (start + n) (lbm_num l))
        then truth val else lbit (lbm_bits l) k.
Proof.
  intros Hwf Hs Hn Hov. pose proof (wf_capacity l Hwf) as Hc.
  unfold lbm_set_bits. rewrite add64_small by lia.
  replace (if lbm_num l <? start + n then sub64 (lbm_num l) start else n)
    with (Z.min (start + n) (lbm_num l) - start).
  2:{ destruct (Z.ltb_spec (lbm_num l) (start + n)).
      - rewrite sub64_small; destruct Hwf; lia.
      - lia. }
  destruct (set_bits_loop_spec (S (length (lbm_bits l))) (lbm_bits l) start
    (Z.min (start + n) (lbm_num l) - start) val) as (ws' & Hr & Hw & Hl & Hb).
  - by destruct Hwf.
  - destruct Hwf; lia.
  - lia.
  - lia.
  - lia.
  - intros _. dlia.
  - rewrite Hr. simpl. exists (set_words l ws'). split_and!; [done| |done|].
    + destruct Hwf. constructor; simpl; [done|congruence|done].
    + intros k Hk. simpl. rewrite Hb by done.
      replace (start + (Z.min (start + n) (lbm_num l) - start))
        with (Z.min (start + n) (lbm_num l)) by lia. done.
Qed.

(** ** Setting every bit *)

Lemma set_all_loop_spec n : forall i val ws,
  0 <= i -> i + Z.of_nat n <= Z.of_nat (length ws) ->
  exists ws', set_all_loop n i val ws = Ok ws' /\ length ws' = length ws /\
    forall j, ws' !! j = if decide (i <= Z.of_nat j < i + Z.of_nat n)
                         then Some val else ws !! j.
Proof.
  induction n as [|n IH]; intros i val ws Hi Hn; cbn [set_all_loop].
  - exists ws. split_and!; [done..|]. intros j. rewrite decide_False by lia. done.
  - rewrite aset_ok by lia. simpl.
    destruct (IH (i + 1) val (<[Z.to_nat i := val]> ws)) as (ws' & -> & Hl & Hj).
    + lia.
    + rewrite length_insert. lia.
    + exists ws'. rewrite length_insert in Hl. split_and!; [done..|].
      intros j. rewrite Hj. destruct (decide (Z.of_nat j = i)) as [<-|Hne].
      * rewrite decide_False, decide_True, Nat2Z.id by lia.
        apply list_lookup_insert_eq. lia.
      * rewrite list_lookup_insert_ne by lia. repeat case_decide; done || lia.
Qed.

Lemma lbm_set_all_bits_spec l val :
  lbm_wf l ->
  exists l',
    lbm_set_all_bits l val = Ok l' /\ lbm_wf l' /\ lbm_num l' = lbm_num l /\
    forall k, 0 <= k < capacity (lbm_bits l) -> lbit (lbm_bits l') k = truth val.
Proof.
  intros Hwf. unfold lbm_set_all_bits. rewrite (wf_words_eq l Hwf), Nat2Z.id.
  set (v := if truth val then ONES64 else val).
  destruct (set_all_loop_spec (length (lbm_bits l)) 0 v (lbm_bits l))
    as (ws' & -> & Hl & Hj); [lia..|]. simpl.
  assert (is_u64 v) as Hv.
  { unfold v. destruct (truth val) eqn:E; [unfold is_u64, ONES64; lia|].
    apply truth_false in E as ->. unfold is_u64; lia. }
  exists (set_words l ws'). split_and!; [done| |done|].
  - destruct Hwf. constructor; simpl; [done|congruence|].
    apply Forall_lookup. intros j w Hw. rewrite Hj in Hw. case_decide.
    + congruence.
    + apply lookup_lt_Some in Hw. lia.
  - intros k Hk. unfold capacity, UVAL_BITS in Hk. simpl.
    rewrite (lbit_eq _ _ v).
    + unfold v. destruct (truth val) eqn:E.
      * rewrite testbit_ONES64 by dlia. zcases.
      * apply truth_false in E as ->. apply Z.bits_0.
    + rewrite Hj, decide_True; [done|dlia].
Qed.

(** ** Testing bits *)

Lemma test_bit_spec l bit :
  lbm_wf l -> 0 <= bit < lbm_num l ->
  test_bit l bit = Ok (b2z (lbit (lbm_bits l) bit)).
Proof.
  intros Hwf Hb. pose proof (wf_capacity l Hwf). unfold test_bit, cassert.
  destruct (Z.ltb_spec bit (lbm_num l)); [|lia].
  destruct (word_at (lbm_bits l) bit) as (w & Hg & Hw); [lia|].
  unfold UVAL_BITS. rewrite Hg. simpl. rewrite (lbit_eq _ _ w Hw). f_equal.
  bits i. destruct (Z.eqb_spec i 0) as [->|Hne].
  - rewrite andb_true_r, Z.add_0_l. by destruct (Z.testbit w _).
  - rewrite andb_false_r. destruct (Z.testbit w _); simpl; [|by rewrite Z.bits_0].
    rewrite testbit_one. zcases.
Qed.

Lemma test_bits_loop_spec fuel : forall l bit n val,
  lbm_wf l -> 0 <= bit -> n <= lbm_num l -> n - bit <= Z.of_nat fuel ->
  exists r,
    test_bits_loop fuel l bit n val = Ok r /\
    ((r = 1 /\ forall k, bit <= k < n -> lbit (lbm_bits l) k = truth val) \/
     (r = 0 /\ exists k, bit <= k < n /\ lbit (lbm_bits l) k = negb (truth val))).
Proof.
  induction fuel as [|fuel IH]; intros l bit n val Hwf Hb Hn Hf; simpl;
    destruct (Z.ltb_spec bit n); try lia;
    try (exists 1; split; [done|]; left; split; [done|]; intros; lia).
  rewrite test_bit_spec by (done || lia). simpl.
  destruct (IH l (bit + 1) n val) as (r & Hr & Hcase); [done|lia..|].
  rewrite add64_small by (destruct Hwf; lia).
  assert (truth (b2z (lbit (lbm_bits l) bit)) = lbit (lbm_bits l) bit) as ->
    by (by destruct (lbit _ _)).
  destruct (truth val) eqn:Ev, (lbit (lbm_bits l) bit) eqn:Eb; simpl;
    try (exists 0; split; [done|]; right; split; [done|];
         exists bit; split; [lia|done]);
    rewrite Hr; exists r; (split; [done|]);
    (destruct Hcase as [[-> Hk]|[-> [k [Hk Hkb]]]]; [left|right]; split; try done;
     [intros k Hk'; destruct (decide (k = bit)) as [->|]; [done|apply Hk; lia]
     |exists k; split; [lia|done]]).
Qed.

(** ** Searching for a range *)

Lemma align_from_base_spec i k base :
  0 <= i -> 0 <= base -> 0 <= k < 31 -> i + base + 2 ^ k < 2 ^ 64 ->
  let a := align_from_base i (2 ^ k) base in
  i <= a < i + 2 ^ k /\ (2 ^ k | a + base).
Proof.
  intros Hi Hb Hk Hov. assert (0 < 2 ^ k) by (apply Z.pow_pos_nonneg; lia).
  unfold align_from_base. cbv zeta. rewrite (add64_small i base) by lia.
  assert (Z.land (sub64 (add64 (i + base) (2 ^ k)) 1) (not64 (sub64 (2 ^ k) 1))
          = ALIGN_UP (i + base) (2 ^ k)) as ->.
  { unfold ALIGN_UP. f_equal. rewrite !sub64_small, !add64_small by
      (rewrite ?sub64_small, ?add64_small by lia; lia). lia. }
  destruct (align_up_bounds (i + base) k) as [Hr Hd]; [lia..|].
  rewrite sub64_small by lia. split; [lia|].
  replace (ALIGN_UP (i + base) (2 ^ k) - base + base) with (ALIGN_UP (i + base) (2 ^ k)) by lia.
  done.
Qed.

Section Find.
Context (l : lbm) (val n k base : Z).
Local Abbreviation T := (capacity (lbm_bits l)).
Local Abbreviation A := (2 ^ k).
Local Abbreviation want := (val =? 1).
Context (Hwf : lbm_wf l) (Hval : val = 0 \/ val = 1) (Hn : 0 < n <= T)
        (Hk : 0 <= k < 31) (Hbase : 0 <= base < 2 ^ 63).

Lemma find_T : 0 <= T < 2 ^ 61 /\ (64 | T).
Proof.
  pose proof (wf_capacity l Hwf). destruct Hwf as [? ? ?]. split; [lia|].
  unfold capacity, UVAL_BITS. apply Z.divide_factor_r.
Qed.

Lemma find_A : 0 < A <= 2 ^ 30.
Proof.
  split; [apply Z.pow_pos_nonneg; lia|]. apply Z.pow_le_mono_r; lia.
Qed.

(** The "entire block of bits is already used" test. *)
Lemma fast_check w :
  is_u64 w ->
  (truth val && (w =? 0)) || ((val =? 0) && (w =? ONES64)) = true <->
  forall j, 0 <= j < 64 -> Z.testbit w j = negb want.
Proof.
  intros Hw. destruct Hval as [->| ->]; simpl.
  - destruct (Z.eqb_spec w ONES64) as [->|Hne]; split; try done.
    + intros _ j Hj. rewrite testbit_ONES64 by lia. zcases.
    + intros H. exfalso. apply Hne. bits j. destruct (Z.ltb_spec j 64).
      * apply H. lia.
      * apply is_u64_testbit; [done|lia].
  - rewrite orb_false_r. destruct (Z.eqb_spec w 0) as [->|Hne]; split; try done.
    + intros _ j Hj. apply Z.bits_0.
    + intros H. exfalso. apply Hne. bits j. destruct (Z.ltb_spec j 64).
      * apply H. lia.
      * apply is_u64_testbit; [done|lia].
Qed.

(** The test of [mask_bits] bits of a word from position [s]. *)
Lemma mask_check w s mb :
  is_u64 w -> 0 <= s -> 0 < mb -> s + mb <= 64 ->
  let mask := shr64 ONES64 (64 - mb) in
  let test := shr64 w s in
  ((val =? 1) && (Z.land test mask =? mask)) || ((val =? 0) && (Z.land test mask =? 0)) = true
  <-> forall j, s <= j < s + mb -> Z.testbit w j = want.
Proof.
  intros Hw Hs Hmb Hend mask test.
  assert (forall j, 0 <= j -> Z.testbit mask j = (j <? mb)) as Hm.
  { intros j Hj. unfold mask. rewrite testbit_shr64, testbit_ONES64 by lia. zcases. }
  assert (forall j, 0 <= j -> Z.testbit (Z.land test mask) j = (j <? mb) && Z.testbit w (s + j)) as Ht.
  { intros j Hj. rewrite Z.land_spec, Hm by lia. unfold test.
    rewrite testbit_shr64 by lia. rewrite andb_comm. do 2 f_equal. lia. }
  destruct Hval as [->| ->]; simpl; rewrite ?orb_false_r, Z.eqb_eq; split.
  - intros E j Hj. specialize (Ht (j - s)). rewrite E, Z.bits_0 in Ht.
    replace (s + (j - s)) with j in Ht by lia.
    destruct (Z.ltb_spec (j - s) mb); [|lia]. symmetry. apply Ht. lia.
  - intros H. apply Z.bits_inj'. intros j Hj. rewrite Ht, Z.bits_0 by done.
    destruct (Z.ltb_spec j mb); simpl; [|done]. apply H. lia.
  - intros E j Hj. specialize (Ht (j - s)). rewrite E, Hm in Ht by lia.
    replace (s + (j - s)) with j in Ht by lia.
    destruct (Z.ltb_spec (j - s) mb); [|lia]. symmetry. apply Ht. lia.
  - intros H. apply Z.bits_inj'. intros j Hj. rewrite Ht, Hm by done.
    destruct (Z.ltb_spec j mb); simpl; [|done]. apply H. lia.
Qed.

Definition aligned_at (i m : Z) : Z := if m =? 0 then align_from_base i A base else i.
Definition chunk (i m : Z) : Z := Z.min (n - m) (64 - i mod 64).

(** What one turn of the loop does, in terms of the bits of the map. *)
Inductive find_turn (i m : Z) : find_step -> Prop :=
  | Turn_skip :
      (forall j, i / 64 * 64 <= j < i / 64 * 64 + 64 -> lbit (lbm_bits l) j = negb want) ->
      find_turn i m (Find_next (i + 64) 0)
  | Turn_found i1 :
      i1 = aligned_at i m ->
      (forall j, i1 <= j < i1 + chunk i1 m -> lbit (lbm_bits l) j = want) ->
      m + chunk i1 m = n ->
      find_turn i m (Find_break (i1 + chunk i1 m) n)
  | Turn_more i1 :
      i1 = aligned_at i m ->
      (forall j, i1 <= j < i1 + chunk i1 m -> lbit (lbm_bits l) j = want) ->
      m + chunk i1 m < n ->
      find_turn i m (Find_next (i1 + chunk i1 m) (m + chunk i1 m))
  | Turn_miss i1 j h :
      i1 = aligned_at i m ->
      i1 <= j < i1 + chunk i1 m -> lbit (lbm_bits l) j = negb want ->
      i / 64 = h / 64 -> 0 <= h -> lbit (lbm_bits l) h = want ->
      find_turn i m (Find_next (i1 + A) 0).

(** A position of a block is the word's number and an offset in the word. *)
Lemma block_bit i w j :
  (lbm_bits l) !! Z.to_nat (i / 64) = Some w -> 0 <= i ->
  i / 64 * 64 <= j < i / 64 * 64 + 64 ->
  lbit (lbm_bits l) j = Z.testbit w (j - i / 64 * 64).
Proof.
  intros Hw Hi Hj. rewrite (lbit_eq _ _ w).
  - f_equal. dlia.
  - replace (j / 64) with (i / 64) by dlia. done.
Qed.

Lemma not_forall_bit w s e (b : bool) :
  ~ (forall j, s <= j < e -> Z.testbit w j = b) ->
  exists j, s <= j < e /\ Z.testbit w j = negb b.
Proof.
  intros H. destruct (decide (Exists (fun j => Z.testbit w j = negb b) (seqZ s (e - s)))) as [D|D].
  - apply Exists_exists in D as (j & Hj & Hb). exists j. split; [|done].
    apply elem_of_seqZ in Hj. lia.
  - exfalso. apply H. intros j Hj. destruct (Z.testbit w j) eqn:E, b; try done;
      (exfalso; apply D; apply Exists_exists; exists j; split; [apply elem_of_seqZ; lia|done]).
Qed.

Lemma find_body_turn i m :
  0 <= i < T -> 0 <= m < n -> 0 <= aligned_at i m < T ->
  exists st, find_body l val n A base i m = Ok st /\ find_turn i m st.
Proof.
  intros Hi Hm H1. pose proof find_T as [HT _]. pose proof find_A as HA.
  destruct Hwf as [Hnum Hlen Hws].
  destruct (word_at (lbm_bits l) i) as (w & Hg & Hw); [done|].
  assert (is_u64 w) as Hw64 by (eapply Forall_lookup_1; done).
  unfold find_body, UVAL_BITS. rewrite Hg. simpl.
  destruct (_ || _) eqn:Hfast.
  - pose proof (proj1 (fast_check w Hw64) Hfast) as Hf. rewrite add64_small by lia.
    eexists. split; [done|]. apply Turn_skip. intros j Hj.
    rewrite (block_bit i w) by (done || lia). apply Hf. lia.
  - fold (aligned_at i m). set (i1 := aligned_at i m) in *.
    assert (exists h, i / 64 = h / 64 /\ 0 <= h /\ lbit (lbm_bits l) h = want) as (h & Hh1 & Hh2 & Hh3).
    { destruct (not_forall_bit w 0 64 (negb want)) as (j & Hj & Hb).
      - intros H. apply (fast_check w Hw64) in H. congruence.
      - exists (i / 64 * 64 + j). split_and!; [dlia|dlia|].
        rewrite (block_bit i w) by (done || lia).
        replace (i / 64 * 64 + j - i / 64 * 64) with j by lia.
        rewrite Hb. apply negb_involutive. }
    assert (0 <= i1 mod 64 < 64) as Hmod by dlia.
    rewrite (sub64_small n), (sub64_small 64 (i1 mod 64)) by lia.
    replace (if 64 - i1 mod 64 <? n - m then 64 - i1 mod 64 else n - m)
      with (chunk i1 m) by (unfold chunk; zcases).
    assert (0 < chunk i1 m <= 64) as Hc by (unfold chunk; lia).
    assert (i1 mod 64 + chunk i1 m <= 64) by (unfold chunk; lia).
    rewrite (sub64_small 64) by lia.
    destruct (word_at (lbm_bits l) i1) as (w1 & Hg1 & Hw1); [done|].
    assert (is_u64 w1) as Hw164 by (eapply Forall_lookup_1; done).
    rewrite Hg1. simpl.
    assert (forall j, i1 <= j < i1 + chunk i1 m ->
      lbit (lbm_bits l) j = Z.testbit w1 (j - i1 / 64 * 64)) as Hbl.
    { intros j Hj. apply block_bit; [done|lia|dlia]. }
    pose proof (mask_check w1 (i1 mod 64) (chunk i1 m) Hw164) as Hmask.
    cbv zeta in Hmask. specialize (Hmask ltac:(lia) ltac:(lia) ltac:(lia)).
    match goal with |- context [if ?b then _ else _] => destruct b eqn:Htest end.
    + assert (forall j, i1 <= j < i1 + chunk i1 m -> lbit (lbm_bits l) j = want) as Hall.
      { intros j Hj. rewrite Hbl by done. apply (proj1 Hmask eq_refl). dlia. }
      rewrite !add64_small by (unfold chunk in *; lia).
      destruct (Z.eqb_spec (m + chunk i1 m) n) as [E|E].
      * rewrite E. eexists. split; [done|]. by apply Turn_found.
      * assert (truth (m + chunk i1 m) = true) as -> by (apply truth_true; lia).
        eexists. split; [done|]. apply Turn_more; [done..|]. unfold chunk in *. lia.
    + rewrite add64_small by lia. eexists. split; [done|].
      destruct (not_forall_bit w1 (i1 mod 64) (i1 mod 64 + chunk i1 m) want) as (j & Hj & Hb).
      { intros H'. apply Hmask in H'. congruence. }
      apply (Turn_miss i m i1 (i1 / 64 * 64 + j) h); try done.
      * dlia.
      * rewrite Hbl by dlia. replace (i1 / 64 * 64 + j - i1 / 64 * 64) with j by lia. done.
Qed.

(** The search is exact when the alignment divides the word size, and safe
    when base, length and map size are all aligned. *)
Context (Hside : (A | 64) \/ (base = 0 /\ (A | n) /\ (A | T))).

Definition free_at (r : Z) : Prop :=
  forall j, r <= j < r + n -> lbit (lbm_bits l) j = want.

Definition found (r : Z) : Prop :=
  0 <= r /\ r + n <= T /\ (A | r + base) /\ free_at r.

Definition blocked (c : Z) : Prop :=
  exists j, c <= j < c + n /\ lbit (lbm_bits l) j = negb want.

Record find_inv (i m : Z) : Prop := {
  inv_m : 0 <= m < n;
  inv_i : m <= i <= T + A + 64;
  inv_run : forall j, i - m <= j < i -> lbit (lbm_bits l) j = want;
  inv_start : 0 < m -> (A | i - m + base) /\ (64 | i);
  inv_j : (A | 64) -> m = 0 -> (A | i + base) \/ (A | i);
  inv_c : (A | 64) -> (A | base) -> forall c, 0 <= c < i - m -> (A | c) -> blocked c;
  inv_h : (A | 64) -> (A | base) -> m = 0 ->
    (64 | i) \/ exists h, h / 64 = i / 64 /\ 0 <= h /\ lbit (lbm_bits l) h = want
}.

Lemma find_aligned i m :
  find_inv i m -> i - m <= T - n ->
  i <= aligned_at i m < T /\ (A | aligned_at i m - m + base) /\
  (m = 0 -> aligned_at i m < i + A) /\ (0 < m -> aligned_at i m = i).
Proof.
  intros [Hm Hi _ Hst Hj _ _] Hg. pose proof find_T as [HT Hdiv]. pose proof find_A as HA.
  unfold aligned_at. destruct (Z.eqb_spec m 0) as [->|Hm0].
  - destruct (align_from_base_spec i k base) as [Hr Hd]; [lia..|].
    set (a := align_from_base i A base) in *.
    split_and!; [lia| |by rewrite Z.sub_0_r|lia|lia].
    destruct Hside as [H64|(-> & HAn & HAT)].
    + destruct (Hj H64 eq_refl) as [HA1|HA1].
      * assert (a = i); [|lia].
        assert (A | a - i) as HAd.
        { replace (a - i) with (a + base - (i + base)) by lia. by apply Z.divide_sub_r. }
        destruct HAd as [q Hq]. assert (q = 0) by nia. lia.
      * assert (A | T - i) as [q Hq].
        { apply Z.divide_sub_r; [exact (Z.divide_trans _ _ _ H64 Hdiv)|done]. }
        assert (1 <= q) by nia. nia.
    + assert (A | T - n - a) as [q Hq].
      { rewrite Z.add_0_r in Hd. apply Z.divide_sub_r; [by apply Z.divide_sub_r|done]. }
      assert (0 <= q) by nia. nia.
  - destruct (Hst ltac:(lia)) as [? _]. split_and!; lia || done.
Qed.

Lemma find_turn_found i m i' m' :
  find_inv i m -> i - m <= T - n ->
  find_turn i m (Find_break i' m') -> m' = n /\ n <= i' /\ found (i' - n).
Proof.
  intros Hinv Hg Ht. destruct (find_aligned i m Hinv Hg) as (Hal & Hd & Hm0 & Hmp).
  pose proof find_T as [HT [q Hq]]. destruct Hinv as [Hm Hi Hrun Hst _ _ _].
  inversion Ht as [|i1 Hi1 Hall Hend| |]; subst i1 i' m'. clear Ht.
  set (a := aligned_at i m) in *.
  assert (a + chunk a m <= T) by (unfold chunk in *; dlia).
  split_and!; [done|lia|]. unfold found. split_and!; [lia|lia| |].
  - match goal with |- (_ | ?x) => replace x with (a - m + base) by lia end. done.
  - intros j Hj. destruct (decide (a <= j)).
    + apply Hall. lia.
    + assert (0 < m) by lia. rewrite Hmp in * by done. apply Hrun. lia.
Qed.

Lemma blocked_step i m c j :
  find_inv i m -> i <= j < i - m + n -> lbit (lbm_bits l) j = negb want ->
  (A | 64) -> (A | base) -> 0 <= c <= i -> (A | c) -> blocked c.
Proof.
  intros Hinv Hj Hb H64 HAb Hc HAc. destruct (decide (c < i - m)).
  - apply (inv_c i m Hinv); done || lia.
  - exists j. split; [lia|done].
Qed.

Lemma div_gap a b c : 0 < a -> (a | b) -> (a | c) -> b < c -> b + a <= c.
Proof. intros Ha [p ->] [q ->] Hlt. assert (p < q) by nia. nia. Qed.

Lemma find_turn_skip i m :
  find_inv i m -> i - m <= T - n ->
  (forall j, i / 64 * 64 <= j < i / 64 * 64 + 64 -> lbit (lbm_bits l) j = negb want) ->
  find_inv (i + 64) 0.
Proof.
  intros Hinv Hg Hfull. pose proof find_A as HA.
  assert (Hinv' := Hinv). destruct Hinv' as [Hm Hi Hrun Hst Hj Hc Hh].
  constructor; try lia.
  - intros H64 _. destruct (decide (m = 0)) as [->|].
    + destruct (Hj H64 eq_refl) as [E|E]; [left|right].
      * replace (i + 64 + base) with (i + base + 64) by lia. by apply Z.divide_add_r.
      * by apply Z.divide_add_r.
    + right. destruct (Hst ltac:(lia)) as [_ E]. apply Z.divide_add_r; [|done]. by apply Z.divide_trans with 64.
  - intros H64 HAb c Hcr HAc.
    assert (64 | i) as [q Hq].
    { destruct (decide (m = 0)) as [->|]; [|apply Hst; lia].
      destruct (Hh H64 HAb eq_refl) as [?|(h & E & Hh0 & Hw)]; [done|].
      rewrite Hfull in Hw by dlia. by destruct want. }
    destruct (decide (c <= i)).
    + eapply (blocked_step i m c i); try done; [lia| |lia]. apply Hfull. dlia.
    + exists c. split; [lia|]. apply Hfull. dlia.
  - intros H64 HAb _. left. apply Z.divide_add_r; [|apply Z.divide_refl].
    destruct (decide (m = 0)) as [->|]; [|apply Hst; lia].
    destruct (Hh H64 HAb eq_refl) as [?|(h & E & Hh0 & Hw)]; [done|].
    rewrite Hfull in Hw by dlia. by destruct want.
Qed.

Lemma find_turn_more i m :
  find_inv i m -> i - m <= T - n ->
  let a := aligned_at i m in
  (forall j, a <= j < a + chunk a m -> lbit (lbm_bits l) j = want) ->
  m + chunk a m < n ->
  find_inv (a + chunk a m) (m + chunk a m).
Proof.
  intros Hinv Hg a Hall Hend. destruct (find_aligned i m Hinv Hg) as (Hal & Hd & Hm0 & Hmp).
  fold a in Hal, Hd, Hm0, Hmp. pose proof find_A as HA.
  assert (Hinv' := Hinv). destruct Hinv' as [Hm Hi Hrun Hst Hj Hc Hh].
  assert (0 < chunk a m <= 64) by (unfold chunk; dlia).
  constructor; try (unfold chunk in *; lia).
  - intros j Hjr. destruct (decide (a <= j)); [apply Hall; lia|].
    assert (0 < m) by lia. rewrite Hmp in * by done. apply Hrun. lia.
  - intros _. split.
    + replace (a + chunk a m - (m + chunk a m) + base) with (a - m + base) by lia. done.
    + exists (a / 64 + 1). unfold chunk in *. dlia.
  - intros H64 HAb c Hcr HAc. destruct (decide (m = 0)) as [->|].
    + destruct (decide (c < i)); [eapply Hc; done || lia|]. exfalso.
      assert (A | a).
      { replace a with (a - 0 + base - base) by lia. by apply Z.divide_sub_r. }
      pose proof (div_gap A c a ltac:(lia) HAc ltac:(done) ltac:(lia)).
      specialize (Hm0 eq_refl). lia.
    + eapply Hc; try done. rewrite Hmp in Hcr by lia. lia.
Qed.

Lemma find_turn_miss i m j h :
  find_inv i m -> i - m <= T - n ->
  let a := aligned_at i m in
  a <= j < a + chunk a m -> lbit (lbm_bits l) j = negb want ->
  i / 64 = h / 64 -> 0 <= h -> lbit (lbm_bits l) h = want ->
  find_inv (a + A) 0.
Proof.
  intros Hinv Hg a Hjr Hjb Hh1 Hh2 Hh3.
  destruct (find_aligned i m Hinv Hg) as (Hal & Hd & Hm0 & Hmp).
  fold a in Hal, Hd, Hm0, Hmp. pose proof find_A as HA.
  assert (Hinv' := Hinv). destruct Hinv' as [Hm Hi Hrun Hst Hj Hc Hh].
  assert (forall H64 : (A | 64), (A | base) -> (A | a) /\ a = i) as Haligned.
  { intros H64 HAb. assert (A | a).
    { destruct (decide (m = 0)) as [->|].
      - replace a with (a - 0 + base - base) by lia. by apply Z.divide_sub_r.
      - rewrite Hmp by lia. apply Z.divide_trans with 64; [done|]. apply Hst. lia. }
    split; [done|]. destruct (decide (m = 0)) as [->|]; [|by apply Hmp; lia].
    assert (A | i).
    { destruct (Hj H64 eq_refl) as [E|E]; [|done].
      replace i with (i + base - base) by lia. by apply Z.divide_sub_r. }
    destruct (decide (a = i)); [done|].
    pose proof (div_gap A i a ltac:(lia) ltac:(done) ltac:(done) ltac:(lia)).
    specialize (Hm0 eq_refl). lia. }
  constructor; try lia.
  - intros H64 _. destruct (decide (m = 0)) as [->|].
    + left. replace (a + A + base) with (a - 0 + base + A) by lia.
      apply Z.divide_add_r; [done|apply Z.divide_refl].
    + right. apply Z.divide_add_r; [|apply Z.divide_refl].
      rewrite Hmp by lia. apply Z.divide_trans with 64; [done|]. apply Hst. lia.
  - intros H64 HAb c Hcr HAc. destruct (Haligned H64 HAb) as [HAa Hai].
    rewrite Hai in *. destruct (decide (c <= i)).
    + eapply (blocked_step i m c j); try done; [|lia]. unfold chunk in Hjr. lia.
    + pose proof (div_gap A i c ltac:(lia) HAa HAc ltac:(lia)). lia.
  - intros H64 HAb _. destruct (Haligned H64 HAb) as [HAa Hai]. rewrite Hai in *.
    destruct (decide ((i + A) / 64 = i / 64)) as [E|E].
    + right. exists h. split_and!; [congruence|done..].
    + left. assert (A | i / 64 * 64 + 64) as Hnext.
      { replace (i / 64 * 64 + 64) with ((i / 64 + 1) * 64) by lia. by apply Z.divide_mul_r. }
      pose proof (div_gap A i (i / 64 * 64 + 64) ltac:(lia) HAa Hnext ltac:(dlia)).
      exists (i / 64 + 1). dlia.
Qed.

Lemma find_turn_next i m i' m' :
  find_inv i m -> i - m <= T - n ->
  find_turn i m (Find_next i' m') -> find_inv i' m' /\ i < i'.
Proof.
  intros Hinv Hg Ht. destruct (find_aligned i m Hinv Hg) as (Hal & _ & _ & _).
  pose proof find_A as HA. pose proof (inv_m _ _ Hinv).
  inversion Ht; subst; clear Ht.
  - split; [by apply (find_turn_skip i m)|lia].
  - split; [by apply find_turn_more|]. unfold chunk. dlia.
  - split; [by apply (find_turn_miss i m j h)|lia].
Qed.

(** The loop stops within its fuel, on a good range or with every range that
    fits ruled out. *)
Lemma find_loop_spec fuel : forall i m,
  find_inv i m -> T - i < Z.of_nat fuel ->
  exists i' m', find_loop fuel l val n A base i m = Ok (i', m') /\
    ((m' = n /\ n <= i' /\ found (i' - n)) \/
     (find_inv i' m' /\ T - n < i' - m')).
Proof.
  pose proof find_T as [HT _]. pose proof find_A as HA.
  induction fuel as [|fuel IH]; intros i m Hinv Hf;
    pose proof (inv_m _ _ Hinv); pose proof (inv_i _ _ Hinv); cbn [find_loop];
    rewrite (wf_total l Hwf), !sub64_small by lia;
    (destruct (Z.leb_spec (i - m) (T - n)) as [Hg|Hg];
     [|exists i, m; split; [done|]; right; split; [done|lia]]).
  - lia.
  - destruct (find_aligned i m Hinv Hg) as (Hal & _ & _ & _).
    destruct (find_body_turn i m) as (st & -> & Ht); [lia..|]. simpl.
    destruct st as [i' m'|i' m'].
    + destruct (find_turn_next i m i' m' Hinv Hg Ht) as [Hinv' Hlt].
      apply IH; [done|lia].
    + exists i', m'. split; [done|]. left. by apply (find_turn_found i m).
Qed.

Lemma find_init : find_inv (align_from_base 0 A base) 0.
Proof.
  pose proof find_A as HA. pose proof find_T as [HT _].
  destruct (align_from_base_spec 0 k base) as [Hr Hd]; [lia..|].
  set (a := align_from_base 0 A base) in *.
  assert ((A | base) -> a = 0) as Ha0.
  { intros HAb. assert (A | a) as HAa.
    { replace a with (a + base - base) by lia. by apply Z.divide_sub_r. }
    destruct (decide (a = 0)); [done|].
    pose proof (div_gap A 0 a ltac:(lia) (Z.divide_0_r _) HAa ltac:(lia)). lia. }
  constructor; try lia.
  - intros _ _. by left.
  - intros _ HAb c Hc _. rewrite Ha0 in Hc by done. lia.
  - intros _ HAb _. left. rewrite Ha0 by done. apply Z.divide_0_r.
Qed.

Lemma find_range_run :
  exists r, lbm_find_range l val n k base = Ok r /\
    (found r \/
     (r = LARGE_BITMAP_ERROR /\
      ((A | 64) -> (A | base) ->
       forall c, 0 <= c -> c + n <= T -> (A | c) -> blocked c))).
Proof.
  pose proof find_T as [HT _]. unfold lbm_find_range, int_shl1.
  destruct (Z.leb_spec 0 k), (Z.ltb_spec k 31); try lia. cbn [andb res_bind].
  destruct (Z.eqb_spec n 0); [lia|].
  destruct (find_loop_spec (find_fuel l) _ _ find_init) as (i' & m' & -> & Hcase).
  { unfold find_fuel. rewrite (wf_total l Hwf).
    pose proof (inv_i _ _ find_init). lia. }
  cbn [res_bind]. destruct Hcase as [(-> & Hle & Hf)|[Hinv Hg]].
  - rewrite Z.eqb_refl. cbn [negb]. destruct Hf as (Hf1 & Hf2 & Hf3 & Hf4).
    rewrite sub64_small by lia. eexists. split; [done|]. by left.
  - pose proof (inv_m _ _ Hinv). destruct (Z.eqb_spec m' n); [lia|]. cbn [negb].
    eexists. split; [done|]. right. split; [done|].
    intros H64 HAb c Hc1 Hc2 HAc. apply (inv_c _ _ Hinv); done || lia.
Qed.
End Find.

(** ** Find first zero *)

Lemma odd_land_opp a : Z.odd a = true -> Z.land a (- a) = 1.
Proof.
  intros Ho. apply Z.odd_spec in Ho as [q ->]. bits i.
  replace (- (2 * q + 1)) with (Z.lnot (2 * q)) by (unfold Z.lnot; lia).
  rewrite Z.lnot_spec by done. destruct (Z.eqb_spec i 0) as [->|Hne].
  - by rewrite Z.testbit_odd_0, Z.testbit_even_0.
  - replace i with (Z.succ (i - 1)) by lia.
    rewrite Z.testbit_odd_succ, Z.testbit_even_succ by lia.
    by destruct (Z.testbit q _).
Qed.

(** [x & -x] isolates the least set bit. *)
Lemma land_opp_least x :
  0 < x ->
  exists b, 0 <= b /\ Z.land x (- x) = 2 ^ b /\ Z.testbit x b = true /\
    forall j, 0 <= j < b -> Z.testbit x j = false.
Proof.
  intros Hx. assert (exists b a, 0 <= b /\ Z.odd a = true /\ x = a * 2 ^ b) as (b & a & Hb & Ho & ->).
  { destruct x as [|p|p]; try lia. clear Hx. induction p as [p _|p IH|].
    - exists 0, (Z.pos p~1). split_and!; [done..|lia].
    - destruct IH as (b & a & Hb & Ho & E). exists (b + 1), a. split_and!; [lia|done|].
      rewrite Z.pow_add_r, Z.pow_1_r by lia. rewrite Pos2Z.inj_xO, E. lia.
    - exists 0, 1. done. }
  exists b. split; [done|]. split_and!.
  - replace (- (a * 2 ^ b)) with ((- a) * 2 ^ b) by lia.
    rewrite <- !Z.shiftl_mul_pow2 by done. rewrite <- Z.shiftl_land, odd_land_opp by done.
    rewrite Z.shiftl_mul_pow2 by done. lia.
  - rewrite Z.mul_pow2_bits by done. by rewrite Z.sub_diag, Z.bit0_odd.
  - intros j Hj. apply Z.mul_pow2_bits_low. lia.
Qed.

Lemma ffz_spec w :
  is_u64 w ->
  (ffz w = 64 /\ forall j, 0 <= j < 64 -> Z.testbit w j = true) \/
  (0 <= ffz w < 64 /\ Z.testbit w (ffz w) = false /\
   forall j, 0 <= j < ffz w -> Z.testbit w j = true).
Proof.
  intros Hw. unfold ffz. destruct (Z.eqb_spec (not64 w) 0) as [E|E].
  - left. split; [done|]. intros j Hj.
    assert (Z.testbit (not64 w) j = false) as Hb by (rewrite E; apply Z.bits_0).
    rewrite testbit_not64 in Hb by lia. destruct (Z.ltb_spec j 64); [|lia].
    by destruct (Z.testbit w j).
  - right. pose proof (u64_range (Z.lnot w)) as Hr. fold (not64 w) in Hr. unfold is_u64 in Hr.
    destruct (land_opp_least (not64 w)) as (b & Hb & Hl & Hbit & Hlow); [lia|].
    assert (b < 64).
    { destruct (Z.lt_ge_cases b 64); [done|]. rewrite is_u64_testbit in Hbit; done. }
    assert (Z.land (not64 w) (u64 (- not64 w)) = 2 ^ b) as ->.
    { rewrite <- Hl. bits j. by destruct (Z.ltb_spec j 64). }
    unfold bit_log2. destruct (Z.eqb_spec (2 ^ b) 0) as [Hz|_].
    { pose proof (Z.pow_pos_nonneg 2 b). lia. }
    rewrite Z.log2_pow2 by done. rewrite testbit_not64 in Hbit by done.
    split_and!; [lia..| |].
    + destruct (Z.ltb_spec b 64); [|lia]. by destruct (Z.testbit w b).
    + intros j Hj. specialize (Hlow j Hj). rewrite testbit_not64 in Hlow by lia.
      destruct (Z.ltb_spec j 64); [|lia]. by destruct (Z.testbit w j).
Qed.

(** ** Acquiring and releasing single bits *)

(** A processor that is not disturbed sees the word it loaded. *)
Definition undisturbed (_ m : Z) : Z := m.

Lemma uint_shl1_bit wide b j :
  0 <= b < 32 -> 0 <= j -> Z.testbit (uint_shl1 wide b) j = (j =? b).
Proof.
  intros Hb Hj. unfold uint_shl1. destruct (Z.ltb_spec b 32); [|lia].
  autorewrite with testbit. zcases.
Qed.

(** The outcome of a search for a clear bit from word [i] on. *)
Definition acquired (wide : Z -> Z) (num i b : Z) (ws ws' : list Z) : Prop :=
  i * 64 <= b < num /\ lbit ws b = false /\
  (forall k, i * 64 <= k < b -> lbit ws k = true) /\
  (b mod 64 < 32 -> forall k, 0 <= k -> lbit ws' k = (k =? b) || lbit ws k) /\
  (32 <= b mod 64 -> wide (b mod 64) = 0 -> ws' = ws).

Definition acquire_result (wide : Z -> Z) (num i b : Z) (ws ws' : list Z) : Prop :=
  (b = -1 /\ ws' = ws /\ forall k, i * 64 <= k < num -> lbit ws k = true) \/
  acquired wide num i b ws ws'.

Lemma word_bits ws i w j :
  ws !! Z.to_nat i = Some w -> 0 <= i -> 0 <= j < 64 -> lbit ws (i * 64 + j) = Z.testbit w j.
Proof.
  intros Hw Hi Hj. replace j with ((i * 64 + j) mod 64) at 2 by dlia.
  apply lbit_eq. replace ((i * 64 + j) / 64) with i by dlia. done.
Qed.

(** A word with no clear bit below [num] does not change the outcome. *)
Lemma acquire_skip wide num i w b ws ws' :
  ws !! Z.to_nat i = Some w -> 0 <= i ->
  (forall j, 0 <= j < 64 -> i * 64 + j < num -> Z.testbit w j = true) ->
  acquire_result wide num (i + 1) b ws ws' -> acquire_result wide num i b ws ws'.
Proof.
  intros Hw Hi Hfull Hcase.
  assert (forall k, i * 64 <= k < (i + 1) * 64 -> k < num -> lbit ws k = true) as Hk.
  { intros k Hk1 Hk2. replace k with (i * 64 + (k - i * 64)) by lia.
    rewrite (word_bits ws i w) by (done || lia). apply Hfull; lia. }
  destruct Hcase as [(-> & -> & Ha)|(Hb1 & Hb2 & Hb3 & Hb4)]; [left|right].
  - split_and!; [done..|]. intros k Hkr.
    destruct (decide (k < (i + 1) * 64)); [apply Hk|apply Ha]; lia.
  - unfold acquired. split_and!; [lia..|done| |apply Hb4|apply Hb4].
    intros k Hkr. destruct (decide (k < (i + 1) * 64)); [apply Hk|apply Hb3]; lia.
Qed.

(** Setting the least clear bit of word [i] acquires it. *)
Lemma acquire_take wide num i w ws :
  ws !! Z.to_nat i = Some w -> 0 <= i < Z.of_nat (length ws) -> 0 <= ffz w < 64 ->
  i * 64 + ffz w < num -> Z.testbit w (ffz w) = false ->
  (forall j, 0 <= j < ffz w -> Z.testbit w j = true) ->
  acquired wide num i (i * 64 + ffz w) ws
    (<[Z.to_nat i := Z.lor w (uint_shl1 wide (ffz w))]> ws).
Proof.
  intros Hw Hi Hz Hlt Hclear Hlow.
  assert ((i * 64 + ffz w) mod 64 = ffz w) as Hmod by dlia.
  unfold acquired. split_and!; [lia..| | | |].
  - rewrite (word_bits ws i w) by (done || lia). done.
  - intros k Hk. replace k with (i * 64 + (k - i * 64)) by lia.
    rewrite (word_bits ws i w) by (done || lia). apply Hlow. lia.
  - rewrite Hmod. intros H32 k Hk. rewrite lbit_insert by lia.
    destruct (Z.eqb_spec (k / 64) i) as [E|E].
    + replace (lbit ws k) with (Z.testbit w (k mod 64)).
      2:{ rewrite <- (word_bits ws i w) by (done || dlia). f_equal. dlia. }
      rewrite Z.lor_spec, uint_shl1_bit by dlia. rewrite orb_comm. f_equal. zcases.
    + destruct (Z.eqb_spec k (i * 64 + ffz w)) as [->|]; [|done]. exfalso. apply E. dlia.
  - rewrite Hmod. intros H32 H0. unfold uint_shl1.
    destruct (Z.ltb_spec (ffz w) 32); [lia|]. rewrite H0, Z.lor_0_r.
    by apply list_insert_id.
Qed.

Lemma acquire_loop_spec wide n : forall i num ws,
  Forall is_u64 ws -> 0 <= i -> capacity ws < 2 ^ 62 -> num <= capacity ws ->
  Z.of_nat n = Z.of_nat (length ws) - i ->
  exists b ws', acquire_loop undisturbed wide n i num ws = Ok (b, ws') /\
    acquire_result wide num i b ws ws'.
Proof.
  induction n as [|n IH]; intros i num ws Hws Hi Hcap Hnum Hn; cbn [acquire_loop].
  - exists (-1), ws. split; [done|]. left. split_and!; [done..|].
    unfold capacity, UVAL_BITS in *. lia.
  - destruct (aget_is_ok ws i) as [w Hg]; [lia|]. rewrite Hg. cbn [res_bind].
    apply aget_inv in Hg as [Hr Hw].
    assert (is_u64 w) as Hw64 by (eapply Forall_lookup_1; done).
    destruct (IH (i + 1) num ws) as (b & ws' & Hrun & Hcase); [done|lia|done|done|lia|].
    unfold capacity, UVAL_BITS in *.
    destruct (ffz_spec w Hw64) as [[Hz Hfull]|(Hz & Hclear & Hlow)].
    + rewrite Hz. simpl. rewrite Hrun.
      exists b, ws'. split; [done|]. apply (acquire_skip _ _ _ w); auto.
    + rewrite mul64_small, add64_small by lia.
      destruct (Z.ltb_spec (ffz w) 64); [|lia]. cbn [andb].
      destruct (Z.ltb_spec (i * 64 + ffz w) num) as [Hlt|Hge].
      * unfold undisturbed at 1 2. rewrite aset_ok by lia. cbn [res_bind].
        rewrite list_insert_id by done. rewrite Z.eqb_refl.
        rewrite aset_ok by lia. cbn [res_bind]. eexists _, _. split; [done|]. right.
        by apply acquire_take.
      * rewrite Hrun. exists b, ws'. split; [done|]. apply (acquire_skip _ _ _ w); try done.
        intros j Hj Hjn. apply Hlow. lia.
Qed.

Lemma pow2_divides_64 k : 0 <= k <= 6 -> (2 ^ k | 64).
Proof.
  intros Hk. exists (2 ^ (6 - k)). change 64 with (2 ^ 6).
  rewrite <- Z.pow_add_r by lia. f_equal. lia.
Qed.

Lemma blocked_not_free l val n c : blocked l val n c -> ~ free_at l val n c.
Proof.
  intros (j & Hj & Hb) Hf. rewrite Hf in Hb by done. by destruct (val =? 1).
Qed.

(** ** Properties *)

(** [lbm_set_bits] on a range that starts inside the map writes exactly the
    bits of the range, cut at the end of the map, to the truth value of [val],
    leaves every other bit alone, and always terminates without leaving the
    array of words. *)
Theorem lbm_set_bits_correct l start n val :
  lbm_wf l -> 0 <= start <= lbm_num l -> 0 <= n -> start + n < 2 ^ 64 ->
  exists l',
    lbm_set_bits l start n val = Ok l' /\ lbm_wf l' /\ lbm_num l' = lbm_num l /\
    forall k, 0 <= k ->
      lbit (lbm_bits l') k =
        if (start <=? k) && (k <? Z.min (start + n) (lbm_num l))
        then truth val else lbit (lbm_bits l) k.
Proof. apply lbm_set_bits_spec. Qed.

Lemma wf_two_words a b : is_u64 a -> is_u64 b -> lbm_wf (Lbm 128 [a; b]).
Proof. intros Ha Hb. constructor; simpl; [lia|reflexivity|]. by apply Forall_cons_2, Forall_cons_2. Qed.

Lemma lbm_set_bits_correct_witness :
  exists l', lbm_set_bits (Lbm 128 [0; 0]) 60 10 1 = Ok l' /\ lbm_wf l' /\ lbm_num l' = 128 /\
    forall k, 0 <= k ->
      lbit (lbm_bits l') k =
        if (60 <=? k) && (k <? Z.min 70 128) then true else lbit [0; 0] k.
Proof.
  apply (lbm_set_bits_correct (Lbm 128 [0; 0]) 60 10 1); simpl; try lia.
  apply wf_two_words; unfold is_u64; lia.
Defined.



(** [lbm_find_range] is complete when the alignment is at most one word and
    divides the base: it returns a position if and only if the map holds an
    aligned range of [n] wanted bits. *)
Theorem lbm_find_range_complete l val n k base :
  lbm_wf l -> val = 0 \/ val = 1 -> 0 < n <= capacity (lbm_bits l) ->
  0 <= k <= 6 -> 0 <= base < 2 ^ 63 -> (2 ^ k | base) ->
  (exists r, lbm_find_range l val n k base = Ok r /\ r <> LARGE_BITMAP_ERROR) <->
  (exists c, 0 <= c /\ c + n <= capacity (lbm_bits l) /\ (2 ^ k | c + base) /\
     forall j, c <= j < c + n -> lbit (lbm_bits l) j = (val =? 1)).
Proof.
  intros Hwf Hv Hn Hk Hb Hd. pose proof (pow2_divides_64 k Hk) as H64.
  destruct (find_range_run l val n k base) as (r & Hr & Hcase); try done; [lia|by left|].
  pose proof (wf_capacity l Hwf). destruct Hwf as [Hnum _ _].
  split.
  - intros (r' & Hr' & Hne). rewrite Hr' in Hr. injection Hr as ->.
    destruct Hcase as [Hf|[-> _]]; [|done]. exists r. apply Hf.
  - intros (c & Hc1 & Hc2 & Hc3 & Hc4). exists r. split; [done|].
    destruct Hcase as [Hf|[-> Hall]].
    + destruct Hf as (? & ? & _). unfold LARGE_BITMAP_ERROR, ONES64. lia.
    + exfalso. apply (blocked_not_free l val n c); [|done]. apply Hall; try done.
      replace c with (c + base - base) by lia. by apply Z.divide_sub_r.
Qed.

Lemma lbm_find_range_complete_witness :
  (exists r, lbm_find_range (Lbm 128 [255; 2 ^ 64 - 1]) 1 16 2 8 = Ok r /\ r <> LARGE_BITMAP_ERROR) <->
  (exists c, 0 <= c /\ c + 16 <= 128 /\ (2 ^ 2 | c + 8) /\
     forall j, c <= j < c + 16 -> lbit [255; 2 ^ 64 - 1] j = true).
Proof.
  apply (lbm_find_range_complete (Lbm 128 [255; 2 ^ 64 - 1]) 1 16 2 8);
    [apply wf_two_words; unfold is_u64; lia|by right|cbv; by split..|by exists 2].
Defined.

(** Outside those conditions the search leaves the map.  With an alignment of
    two words, skipping a full word and re-aligning moves past the last word
    before the bound is tested again; and a request larger than the map wraps
    the loop bound around, so it is not refused. *)
Theorem lbm_find_range_overrun :
  lbm_find_range (Lbm 128 [0; 1]) 1 64 7 0 = Fault Out_of_bounds /\
  lbm_find_range (Lbm 64 [2 ^ 64 - 1]) 1 65 0 0 = Fault Out_of_bounds.
Proof. split; vm_compute; reflexivity. Qed.

(** [test_bits] compares its position with the length of the range and not
    with its end: started at or after position [n] it reports success whatever
    the map holds, and before that it only looks at the bits below [n]. *)
Theorem test_bits_range l bit n val :
  lbm_wf l -> 0 <= bit -> 0 <= n -> bit + n <= lbm_num l ->
  exists r, test_bits l bit n val = Ok r /\
    (r = 1 <-> forall k, bit <= k < n -> lbit (lbm_bits l) k = truth val).
Proof.
  intros Hwf Hb Hn Hend. unfold test_bits, cassert.
  rewrite add64_small by (destruct Hwf; lia).
  destruct (Z.leb_spec (bit + n) (lbm_num l)); [|lia].
  destruct (test_bits_loop_spec (Z.to_nat n) l bit n val) as (r & -> & Hcase); [done|lia..|].
  exists r. split; [done|]. destruct Hcase as [[-> Hk]|[-> (k & Hk & Hb')]]; [done|].
  split; [done|]. intros H'. rewrite H' in Hb' by done. by destruct (truth val).
Qed.

Lemma test_bits_range_witness :
  exists r, test_bits (Lbm 128 [2 ^ 64 - 1; 2 ^ 64 - 1]) 3 2 0 = Ok r /\
    (r = 1 <-> forall k, 3 <= k < 2 -> lbit [2 ^ 64 - 1; 2 ^ 64 - 1] k = false).
Proof.
  apply (test_bits_range (Lbm 128 [2 ^ 64 - 1; 2 ^ 64 - 1]) 3 2 0); simpl; try lia.
  apply wf_two_words; unfold is_u64; lia.
Defined.

(** An undisturbed [lbm_acquire] takes the least clear bit of the map: it
    returns -1 exactly when no bit below [lbm_num] is clear; otherwise the bit
    was clear, all bits before it are set, and, when it is one of the lower 32
    of its word, it is now set and nothing else changed. *)
Theorem lbm_acquire_least wide l :
  lbm_wf l ->
  exists b l', lbm_acquire undisturbed wide l = Ok (b, l') /\ lbm_num l' = lbm_num l /\
    ((b = -1 /\ l' = l /\ forall k, 0 <= k < lbm_num l -> lbit (lbm_bits l) k = true) \/
     (0 <= b < lbm_num l /\ lbit (lbm_bits l) b = false /\
      (forall k, 0 <= k < b -> lbit (lbm_bits l) k = true) /\
      (b mod 64 < 32 -> forall k, 0 <= k ->
         lbit (lbm_bits l') k = (k =? b) || lbit (lbm_bits l) k))).
Proof.
  intros Hwf. unfold lbm_acquire. rewrite (wf_words_eq l Hwf), Nat2Z.id.
  pose proof (wf_capacity l Hwf).
  destruct (acquire_loop_spec wide (length (lbm_bits l)) 0 (lbm_num l) (lbm_bits l))
    as (b & ws' & -> & Hcase); [by destruct Hwf|lia|destruct Hwf; lia|lia|lia|].
  cbn [res_bind]. exists b, (set_words l ws'). split_and!; [done..|].
  destruct Hcase as [(-> & -> & Hall)|(H1 & H2 & H3 & H4 & _)]; [left|right].
  - split_and!; [done| |done]. by destruct l.
  - split_and!; [lia..|done|done|done].
Qed.

Lemma lbm_acquire_least_witness :
  exists b l', lbm_acquire undisturbed (fun _ => 0) (Lbm 128 [7; 0]) = Ok (b, l') /\ lbm_num l' = 128 /\
    ((b = -1 /\ l' = Lbm 128 [7; 0] /\ forall k, 0 <= k < 128 -> lbit [7; 0] k = true) \/
     (0 <= b < 128 /\ lbit [7; 0] b = false /\ (forall k, 0 <= k < b -> lbit [7; 0] k = true) /\
      (b mod 64 < 32 -> forall k, 0 <= k -> lbit (lbm_bits l') k = (k =? b) || lbit [7; 0] k))).
Proof.
  apply (lbm_acquire_least (fun _ => 0) (Lbm 128 [7; 0])).
  apply wf_two_words; unfold is_u64; lia.
Defined.
