(* ===== verification/PgAlloc.v ===== *)
(** * PgAlloc: the physical page allocator

    [lib/pgalloc.c] over the bitmap of [Bitmap].  A set bit is a free page.
    The lock of [struct pg_alloc] makes each operation atomic, so an operation
    is one function from the allocator to the allocator. *)

From S2P Require Import Prelude Bitmap.

(** ** Data *)

Record pg_alloc := PgAlloc { pa_lbm : lbm; pa_base : Z; pa_log_pgsize : Z }.

Definition PAGE_ALLOC_ERROR : Z := ONES64.
Definition LOG_PGSIZE : Z := 12.
Definition PGSIZE : Z := 2 ^ LOG_PGSIZE.

Definition set_lbm (pa : pg_alloc) (l : lbm) : pg_alloc :=
  PgAlloc l (pa_base pa) (pa_log_pgsize pa).

(** ** Operations *)

(** [mem addr n] is what the [n] words from [addr] on hold before the bitmap is
    built over them; [halloc] is as for [lbm_alloc]. *)
Definition pgalloc_init (halloc : Z -> option (list Z)) (mem : Z -> Z -> list Z)
    (lbm_addr start_addr length log_page_size : Z) : res pg_alloc :=
  let! page_size := int_shl1 log_page_size in
  let '(start_addr, length) :=
    if negb (ALIGN_DOWN start_addr page_size =? start_addr) then
      let orig_start_addr := start_addr in
      let start_addr := ALIGN_UP start_addr page_size in
      (start_addr, sub64 length (sub64 start_addr orig_start_addr))
    else (start_addr, length) in
  let base := shr64 start_addr log_page_size in
  let length := ALIGN_DOWN length page_size in
  let num_pages := shr64 length log_page_size in
  let! l :=
    if lbm_addr =? ONES64 then
      let! l := of_option Null_deref (lbm_alloc halloc (ALIGN_UP num_pages UVAL_BITS)) in
      lbm_set_all_bits l 1
    else
      let bits := ALIGN_UP num_pages UVAL_BITS in
      let lbm_size := add64 SIZEOF_LBM (bits / 8) in
      let lbm_size := ALIGN_UP lbm_size PGSIZE in
      let lbm_addr := ALIGN_UP lbm_addr PGSIZE in
      let! l := of_option Null_deref
        (lbm_init bits 0 (mem (add64 lbm_addr SIZEOF_LBM) (lbm_words bits))) in
      let! l := lbm_set_all_bits l 1 in
      lbm_set_bits l 0 (sub64 (add64 lbm_addr lbm_size) start_addr / page_size) 0 in
  let! l := lbm_set_bits l num_pages (UVAL_BITS - num_pages mod UVAL_BITS) 0 in
  Ok (PgAlloc l base log_page_size).

(** [ALIGN_UP(bytes, 1 << pa->log_pgsize) >> pa->log_pgsize] *)
Definition bytes_to_pages (bytes log_pgsize : Z) : res Z :=
  let! page_size := int_shl1 log_pgsize in
  Ok (shr64 (ALIGN_UP bytes page_size) log_pgsize).

Definition __locked_set_page_bits (pa : pg_alloc) (page_addr bytes setbit : Z)
  : res pg_alloc :=
  let page_num := sub64 (shr64 page_addr (pa_log_pgsize pa)) (pa_base pa) in
  let! num_pages := bytes_to_pages bytes (pa_log_pgsize pa) in
  let! l := lbm_set_bits (pa_lbm pa) page_num num_pages setbit in
  Ok (set_lbm pa l).

Definition set_pages_used (pa : pg_alloc) (page_addr bytes : Z) : res pg_alloc :=
  __locked_set_page_bits pa page_addr bytes 0.

Definition free_pages (pa : pg_alloc) (page_addr bytes : Z) : res pg_alloc :=
  __locked_set_page_bits pa page_addr bytes 1.

Definition get_pages_aligned (pa : pg_alloc) (bytes log_align : Z) : res (Z * pg_alloc) :=
  let! num_pages := bytes_to_pages bytes (pa_log_pgsize pa) in
  let! loc := lbm_find_range (pa_lbm pa) 1 num_pages
    (sub64 log_align (pa_log_pgsize pa)) (pa_base pa) in
  if negb (loc =? LARGE_BITMAP_ERROR) then
    let start_page := shl64 (add64 loc (pa_base pa)) (pa_log_pgsize pa) in
    let! pa := __locked_set_page_bits pa start_page bytes 0 in
    Ok (start_page, pa)
  else Ok (PAGE_ALLOC_ERROR, pa).

Definition get_pages (pa : pg_alloc) (bytes : Z) : res (Z * pg_alloc) :=
  get_pages_aligned pa bytes (pa_log_pgsize pa).

(** Byte memory, for the page [get_zeroed_page] clears. *)
Definition memset (mem : Z -> Z) (addr c n : Z) : Z -> Z :=
  fun a => if (addr <=? a) && (a <? addr + n) then c else mem a.

Definition get_zeroed_page (pa : pg_alloc) (mem : Z -> Z)
  : res (Z * pg_alloc * (Z -> Z)) :=
  let! page_size := int_shl1 (pa_log_pgsize pa) in
  let! r := get_pages_aligned pa page_size (pa_log_pgsize pa) in
  let '(page, pa) := r in
  cassert (negb (page =? PAGE_ALLOC_ERROR))
  (Ok (page, pa, memset mem page 0 page_size)).

(** ** Abstraction: which pages are free *)

Definition page_free (pa : pg_alloc) (p : Z) : bool :=
  (pa_base pa <=? p) && lbit (lbm_bits (pa_lbm pa)) (p - pa_base pa).

Definition num_pages (pa : pg_alloc) : Z := lbm_num (pa_lbm pa).

(** Pages touched by [bytes] bytes. *)
Definition npages (pa : pg_alloc) (bytes : Z) : Z :=
  (bytes + 2 ^ pa_log_pgsize pa - 1) / 2 ^ pa_log_pgsize pa.

Definition in_pages (first n p : Z) : bool := (first <=? p) && (p <? first + n).

Record pa_wf (pa : pg_alloc) : Prop := {
  pw_lbm : lbm_wf (pa_lbm pa);
  pw_full : capacity (lbm_bits (pa_lbm pa)) = num_pages pa;
  pw_base : 0 <= pa_base pa < 2 ^ 62;
  pw_log : 0 <= pa_log_pgsize pa < 31;
  pw_addr : (pa_base pa + num_pages pa) * 2 ^ pa_log_pgsize pa < 2 ^ 63
}.

(** ** Lemmas *)

Section Lemmas.
Context (pa : pg_alloc) (Hwf : pa_wf pa).
Local Abbreviation lp := (pa_log_pgsize pa).
Local Abbreviation base := (pa_base pa).

Lemma pg_pow : 0 < 2 ^ lp <= 2 ^ 30.
Proof.
  destruct Hwf. split; [apply Z.pow_pos_nonneg; lia|apply Z.pow_le_mono_r; lia].
Qed.

Lemma bytes_to_pages_spec bytes :
  0 <= bytes < 2 ^ 63 -> bytes_to_pages bytes lp = Ok (npages pa bytes).
Proof.
  intros Hb. pose proof pg_pow. destruct Hwf as [_ _ _ Hlog _].
  unfold bytes_to_pages, int_shl1.
  destruct (Z.leb_spec 0 lp), (Z.ltb_spec lp 31); try lia. simpl.
  rewrite ALIGN_UP_pow2 by lia. unfold shr64. rewrite Z.shiftr_div_pow2 by lia.
  by rewrite Z.div_mul by lia.
Qed.

Lemma npages_bounds bytes :
  0 <= bytes < 2 ^ 63 -> 0 <= npages pa bytes <= 2 ^ 63 /\ bytes <= npages pa bytes * 2 ^ lp.
Proof.
  intros Hb. pose proof pg_pow. unfold npages. split.
  - split; [apply Z.div_pos; lia|]. apply Z.div_le_upper_bound; nia.
  - pose proof (Z.div_mod (bytes + 2 ^ lp - 1) (2 ^ lp) ltac:(lia)).
    pose proof (Z.mod_pos_bound (bytes + 2 ^ lp - 1) (2 ^ lp)). lia.
Qed.

(** Marking a range of pages that starts inside the pool. *)
Lemma set_page_bits_spec first bytes setbit :
  0 <= bytes < 2 ^ 63 -> base <= first <= base + num_pages pa ->
  exists pa', __locked_set_page_bits pa (first * 2 ^ lp) bytes setbit = Ok pa' /\
    pa_wf pa' /\ pa_base pa' = base /\ pa_log_pgsize pa' = lp /\ num_pages pa' = num_pages pa /\
    forall p, base <= p < base + num_pages pa ->
      page_free pa' p =
        if in_pages first (npages pa bytes) p then truth setbit else page_free pa p.
Proof.
  intros Hb Hf. pose proof pg_pow. pose proof (npages_bounds bytes Hb) as [Hnp _].
  pose proof (bytes_to_pages_spec bytes Hb) as Hbp. destruct Hwf as [Hlbm Hfull Hbase Hlog Haddr].
  unfold __locked_set_page_bits, shr64. rewrite Z.shiftr_div_pow2, Z.div_mul by lia.
  assert (0 <= num_pages pa < 2 ^ 60) by (destruct Hlbm as [Hr _ _]; exact Hr).
  rewrite sub64_small by lia. rewrite Hbp. cbn [res_bind].
  destruct (lbm_set_bits_spec (pa_lbm pa) (first - base) (npages pa bytes) setbit)
    as (l' & -> & Hwf' & Hnum & Hbits); [done|unfold num_pages in *; lia|lia|lia|].
  cbn [res_bind]. exists (set_lbm pa l'). split_and!; try done.
  - constructor; simpl; try done.
    + pose proof (wf_capacity _ Hwf'). pose proof (wf_capacity _ Hlbm).
      unfold num_pages, capacity in *. simpl. rewrite Hnum.
      destruct Hwf' as [_ Hl' _], Hlbm as [_ Hl _]. rewrite Hl', Hnum, <- Hl. done.
    + unfold num_pages. simpl. by rewrite Hnum.
  - intros p Hp. unfold page_free, in_pages. simpl. rewrite Hbits by lia.
    unfold num_pages in *. zcases.
Qed.
End Lemmas.

(** The requests the allocator's header allows: at least a byte, no more than
    the pool, and an alignment of at most 64 pages, or an aligned pool and
    length for larger ones. *)
Definition valid_request (pa : pg_alloc) (bytes log_align : Z) : Prop :=
  0 < bytes < 2 ^ 63 /\ npages pa bytes <= num_pages pa /\
  pa_log_pgsize pa <= log_align < pa_log_pgsize pa + 31 /\
  (log_align <= pa_log_pgsize pa + 6 \/
   (pa_base pa = 0 /\ (2 ^ (log_align - pa_log_pgsize pa) | npages pa bytes) /\
    (2 ^ (log_align - pa_log_pgsize pa) | num_pages pa))).

(** [pa'] is [pa] with the pages from [first] to hold [bytes] bytes marked. *)
Definition marked (pa pa' : pg_alloc) (first bytes : Z) (b : bool) : Prop :=
  pa_wf pa' /\ pa_base pa' = pa_base pa /\ pa_log_pgsize pa' = pa_log_pgsize pa /\
  num_pages pa' = num_pages pa /\
  forall p, pa_base pa <= p < pa_base pa + num_pages pa ->
    page_free pa' p = if in_pages first (npages pa bytes) p then b else page_free pa p.

(** A range of pages of the pool. *)
Definition in_pool (pa : pg_alloc) (first bytes : Z) : Prop :=
  pa_base pa <= first /\ first + npages pa bytes <= pa_base pa + num_pages pa.

Lemma npages_pos pa bytes : pa_wf pa -> 0 < bytes < 2 ^ 63 -> 0 < npages pa bytes.
Proof.
  intros Hwf Hb. pose proof (pg_pow pa Hwf).
  destruct (npages_bounds pa Hwf bytes) as [_ ?]; [lia|]. nia.
Qed.

Lemma get_pages_aligned_spec pa bytes log_align :
  pa_wf pa -> valid_request pa bytes log_align ->
  exists a pa', get_pages_aligned pa bytes log_align = Ok (a, pa') /\
    ((a = PAGE_ALLOC_ERROR /\ pa' = pa) \/
     exists first, a = first * 2 ^ pa_log_pgsize pa /\ a < 2 ^ 63 /\
       in_pool pa first bytes /\ (2 ^ log_align | a) /\
       (forall p, in_pages first (npages pa bytes) p = true -> page_free pa p = true) /\
       marked pa pa' first bytes false).
Proof.
  intros Hwf (Hb & Hle & Hla & Hal). pose proof (pg_pow pa Hwf) as Hpow.
  pose proof (npages_pos pa bytes Hwf Hb) as Hnp.
  pose proof (set_page_bits_spec pa Hwf) as Hset.
  pose proof (bytes_to_pages_spec pa Hwf bytes ltac:(lia)) as Hbp.
  destruct Hwf as [Hlbm Hfull Hbase Hlog Haddr].
  assert (0 <= num_pages pa < 2 ^ 60) by (destruct Hlbm as [Hr _ _]; exact Hr).
  unfold get_pages_aligned. rewrite Hbp. cbn [res_bind].
  rewrite (sub64_small log_align) by lia.
  destruct (find_range_run (pa_lbm pa) 1 (npages pa bytes) (log_align - pa_log_pgsize pa)
    (pa_base pa)) as (r & -> & Hcase); [done|by right|lia|lia|lia| |].
  { rewrite Hfull. destruct Hal as [?|?]; [left; apply pow2_divides_64; lia|by right]. }
  cbn [res_bind]. destruct Hcase as [(Hr0 & Hr1 & Hr2 & Hr3)|[-> _]].
  2:{ exists PAGE_ALLOC_ERROR, pa. split; [done|by left]. }
  rewrite Hfull in Hr1. unfold LARGE_BITMAP_ERROR, ONES64.
  destruct (Z.eqb_spec r (2 ^ 64 - 1)); [lia|]. cbn [negb].
  assert (0 <= (r + pa_base pa) * 2 ^ pa_log_pgsize pa < 2 ^ 63) by nia.
  rewrite add64_small by lia. unfold shl64. rewrite Z.shiftl_mul_pow2, u64_small by lia.
  destruct (Hset (r + pa_base pa) bytes 0) as (pa' & -> & Hmark); [lia..|].
  cbn [res_bind]. eexists _, pa'. split; [done|]. right.
  exists (r + pa_base pa). split; [done|]. split; [lia|]. split; [split; lia|]. split; [|split; [|done]].
  - destruct Hr2 as [q Hq]. exists q. rewrite Hq.
    rewrite <- Z.mul_assoc, <- Z.pow_add_r by lia. do 2 f_equal. lia.
  - intros p Hp. unfold in_pages in Hp. unfold page_free. rewrite Hr3 by (revert Hp; zcases).
    revert Hp. zcases.
Qed.

(** ** Live blocks

    A client holds blocks, each the address and size of a request that
    succeeded; it gives blocks back with the size it asked for. *)
Definition block : Type := Z * Z.

Inductive pa_step : pg_alloc * list block -> pg_alloc * list block -> Prop :=
  | step_alloc pa live bytes log_align a pa' :
      valid_request pa bytes log_align ->
      get_pages_aligned pa bytes log_align = Ok (a, pa') ->
      a <> PAGE_ALLOC_ERROR ->
      pa_step (pa, live) (pa', (a, bytes) :: live)
  | step_refused pa live bytes log_align pa' :
      valid_request pa bytes log_align ->
      get_pages_aligned pa bytes log_align = Ok (PAGE_ALLOC_ERROR, pa') ->
      pa_step (pa, live) (pa', live)
  | step_free pa l1 a bytes l2 pa' :
      free_pages pa a bytes = Ok pa' ->
      pa_step (pa, l1 ++ (a, bytes) :: l2) (pa', l1 ++ l2).

Definition block_ok (pa : pg_alloc) (b : block) : Prop :=
  exists first, b.1 = first * 2 ^ pa_log_pgsize pa /\ 0 < b.2 < 2 ^ 63 /\
    in_pool pa first b.2 /\
    forall p, in_pages first (npages pa b.2) p = true -> page_free pa p = false.

Definition blocks_disjoint (x y : block) : Prop :=
  x.1 + x.2 <= y.1 \/ y.1 + y.2 <= x.1.

Definition live_inv (st : pg_alloc * list block) : Prop :=
  pa_wf st.1 /\ Forall (block_ok st.1) st.2 /\ ForallOrdPairs blocks_disjoint st.2.

Lemma in_pages_iff first n p : in_pages first n p = true <-> first <= p < first + n.
Proof. unfold in_pages. zcases. Qed.

(** A block's pages are busy, so it cannot meet a range of free pages. *)
Lemma free_range_disjoint pa x first bytes :
  pa_wf pa -> block_ok pa x -> 0 < bytes < 2 ^ 63 ->
  (forall p, in_pages first (npages pa bytes) p = true -> page_free pa p = true) ->
  let n := npages pa bytes in
  exists xf, x.1 = xf * 2 ^ pa_log_pgsize pa /\ 0 < x.2 < 2 ^ 63 /\
    (xf + npages pa x.2 <= first \/ first + n <= xf).
Proof.
  intros Hwf (xf & Hx & Hxb & Hpool & Hbusy) Hb Hfree n.
  exists xf. split_and!; try done; [lia|lia|].
  pose proof (npages_pos pa x.2 Hwf Hxb). pose proof (npages_pos pa bytes Hwf Hb).
  destruct (decide (xf + npages pa x.2 <= first)); [by left|].
  destruct (decide (first + n <= xf)); [by right|]. exfalso.
  specialize (Hbusy (Z.max xf first)). specialize (Hfree (Z.max xf first)).
  rewrite !in_pages_iff in *. unfold n in *. rewrite Hfree in Hbusy by lia.
  discriminate Hbusy. lia.
Qed.

Lemma pages_disjoint_bytes pa xf xb yf :
  pa_wf pa -> 0 < xb < 2 ^ 63 -> xf + npages pa xb <= yf ->
  xf * 2 ^ pa_log_pgsize pa + xb <= yf * 2 ^ pa_log_pgsize pa.
Proof.
  intros Hwf Hb Hle. pose proof (pg_pow pa Hwf).
  destruct (npages_bounds pa Hwf xb) as [_ ?]; [lia|]. nia.
Qed.

Lemma marked_npages pa pa' first bytes b x :
  marked pa pa' first bytes b -> npages pa' x = npages pa x.
Proof. intros (_ & _ & Hl & _). unfold npages. by rewrite Hl. Qed.

(** Blocks disjoint from the marked pages stay as they were. *)
Lemma block_ok_marked pa pa' first bytes b x xf :
  marked pa pa' first bytes b -> block_ok pa x ->
  x.1 = xf * 2 ^ pa_log_pgsize pa ->
  xf + npages pa x.2 <= first \/ first + npages pa bytes <= xf ->
  block_ok pa' x.
Proof.
  intros Hm (xf' & Hx & Hxb & [Hp1 Hp2] & Hbusy) Hxf Hdis.
  pose proof (marked_npages _ _ _ _ _ x.2 Hm) as Hn.
  destruct Hm as (Hwf' & Hbase & Hlog & Hnum & Hfree).
  assert (0 < 2 ^ pa_log_pgsize pa).
  { apply Z.pow_pos_nonneg; [lia|]. rewrite <- Hlog. apply Hwf'. }
  assert (xf' = xf) as -> by nia.
  exists xf. unfold in_pool. rewrite Hbase, Hlog, Hnum, Hn. split_and!; try done; try lia.
  intros p Hp. apply in_pages_iff in Hp as Hp'. rewrite Hfree by lia.
  destruct (in_pages first (npages pa bytes) p) eqn:E; [|by apply Hbusy].
  apply in_pages_iff in E. lia.
Qed.

Lemma live_inv_alloc pa live bytes log_align a pa' :
  live_inv (pa, live) -> valid_request pa bytes log_align ->
  get_pages_aligned pa bytes log_align = Ok (a, pa') -> a <> PAGE_ALLOC_ERROR ->
  live_inv (pa', (a, bytes) :: live).
Proof.
  intros (Hwf & Hok & Hdis) Hv Hget Hne. simpl in *.
  destruct (get_pages_aligned_spec pa bytes log_align Hwf Hv) as (a' & pa2 & Hget' & Hcase).
  rewrite Hget in Hget'. injection Hget' as <- <-.
  destruct Hcase as [[-> _]|(first & -> & _ & Hpool & _ & Hfree & Hm)]; [done|].
  destruct Hv as (Hb & _). rewrite Forall_forall in Hok.
  assert (forall x, x ∈ live -> exists xf, x.1 = xf * 2 ^ pa_log_pgsize pa /\ 0 < x.2 < 2 ^ 63 /\
    (xf + npages pa x.2 <= first \/ first + npages pa bytes <= xf)) as Hsep.
  { intros x Hx. apply free_range_disjoint; auto. }
  split_and!; simpl.
  - apply Hm.
  - apply Forall_cons. split.
    + pose proof (marked_npages _ _ _ _ _ bytes Hm) as Hn.
      destruct Hm as (_ & Hbase & Hlog & Hnum & Hfr). destruct Hpool.
      exists first. unfold in_pool. simpl. rewrite Hbase, Hlog, Hnum, Hn.
      split_and!; try done; try lia. intros p Hp. apply in_pages_iff in Hp as Hp'.
      rewrite Hfr by lia. by rewrite Hp.
    + apply Forall_forall. intros x Hx. destruct (Hsep x Hx) as (xf & Hxf & Hxb & Hd).
      apply (block_ok_marked pa pa' first bytes false x xf); auto.
  - constructor; [|done]. apply Forall_forall. intros x Hx.
    destruct (Hsep x Hx) as (xf & Hxf & Hxb & Hd). unfold blocks_disjoint. simpl. rewrite Hxf.
    destruct Hd as [Hd|Hd]; [right|left]; by apply pages_disjoint_bytes.
Qed.

Lemma FOP_app_remove {A} (R : A -> A -> Prop) l1 x l2 :
  (forall a b, R a b -> R b a) -> ForallOrdPairs R (l1 ++ x :: l2) ->
  ForallOrdPairs R (l1 ++ l2) /\ Forall (R x) (l1 ++ l2).
Proof.
  intros Hsym. induction l1 as [|y l1 IH]; simpl; intros H; inversion H as [|? ? Hy Hrest]; subst.
  - done.
  - destruct (IH Hrest) as [IH1 IH2]. rewrite Forall_app, Forall_cons in Hy.
    destruct Hy as (Hy1 & Hyx & Hy2). split.
    + constructor; [by apply Forall_app|done].
    + apply Forall_cons. split; [by apply Hsym|done].
Qed.

(** Two busy blocks that do not share a byte do not share a page. *)
Lemma disjoint_bytes_pages pa xf xb yf yb :
  pa_wf pa -> 0 < xb < 2 ^ 63 -> 0 < yb < 2 ^ 63 ->
  blocks_disjoint (xf * 2 ^ pa_log_pgsize pa, xb) (yf * 2 ^ pa_log_pgsize pa, yb) ->
  yf + npages pa yb <= xf \/ xf + npages pa xb <= yf.
Proof.
  intros Hwf Hx Hy Hd. pose proof (pg_pow pa Hwf) as Hp.
  assert (forall uf ub vf, 0 < ub < 2 ^ 63 ->
    uf * 2 ^ pa_log_pgsize pa + ub <= vf * 2 ^ pa_log_pgsize pa -> uf + npages pa ub <= vf) as H.
  { intros uf ub vf Hu Hle. enough (npages pa ub < vf - uf + 1) by lia. unfold npages.
    apply Z.div_lt_upper_bound; nia. }
  destruct Hd as [Hd|Hd]; simpl in Hd; [right|left]; by apply H.
Qed.

Lemma live_inv_free pa l1 a bytes l2 pa' :
  live_inv (pa, l1 ++ (a, bytes) :: l2) -> free_pages pa a bytes = Ok pa' ->
  live_inv (pa', l1 ++ l2).
Proof.
  intros (Hwf & Hok & Hdis) Hf. simpl in *.
  destruct (FOP_app_remove blocks_disjoint l1 (a, bytes) l2) as [Hdis' Hsep];
    [unfold blocks_disjoint; tauto|done|].
  assert (block_ok pa (a, bytes)) as (first & Ha & Hb & [Hp1 Hp2] & _).
  { rewrite Forall_app, Forall_cons in Hok. apply Hok. }
  simpl in *. subst a. pose proof (npages_pos pa bytes Hwf Hb).
  destruct (set_page_bits_spec pa Hwf first bytes 1) as (pa2 & Hset & Hm); [lia..|].
  unfold free_pages in Hf. rewrite Hset in Hf. injection Hf as ->.
  assert (marked pa pa' first bytes true) as Hmark by done.
  split_and!; simpl; [apply Hm| |done].
  rewrite Forall_forall in Hok, Hsep. apply Forall_forall. intros x Hx.
  assert (block_ok pa x) as Hxok by (apply Hok; rewrite elem_of_app in *; rewrite elem_of_cons; tauto).
  destruct (Hxok) as (xf & Hxf & Hxb & _). specialize (Hsep x Hx).
  apply (block_ok_marked pa pa' first bytes true x xf); try done.
  destruct x as [xa xb]. simpl in *. subst xa. by apply disjoint_bytes_pages.
Qed.

Lemma live_inv_step st st' : live_inv st -> pa_step st st' -> live_inv st'.
Proof.
  intros Hinv Hstep. destruct Hstep as [pa live bytes la a pa' Hv Hg Hne|pa live bytes la pa' Hv Hg|].
  - by apply (live_inv_alloc pa live bytes la).
  - destruct (get_pages_aligned_spec pa bytes la (proj1 Hinv) Hv) as (a & pa2 & Hg' & Hcase).
    rewrite Hg in Hg'. injection Hg' as <- <-.
    destruct Hcase as [[_ ->]|(first & Ha & Hlt & _)]; [done|].
    unfold PAGE_ALLOC_ERROR, ONES64 in *. lia.
  - by eapply live_inv_free.
Qed.

Lemma live_inv_reach st st' : live_inv st -> rtc pa_step st st' -> live_inv st'.
Proof. intros Hinv. induction 1; eauto using live_inv_step. Qed.

(** ** Initialisation *)

Lemma ALIGN_UP_64 n : 0 <= n < 2 ^ 59 -> ALIGN_UP n UVAL_BITS = (n + 63) / 64 * 64.
Proof.
  intros Hn. change UVAL_BITS with (2 ^ 6). rewrite ALIGN_UP_pow2 by lia.
  do 2 f_equal. lia.
Qed.

(** First page of the pool and number of pages in it, for a region that need
    not start on a page boundary. *)
Definition pool_first (start ps : Z) : Z := (start + ps - 1) / ps.
Definition pool_pages (start length ps : Z) : Z :=
  (length - (pool_first start ps * ps - start)) / ps.

Lemma init_region start length k :
  0 <= k < 31 -> 0 <= start -> 0 <= length -> start + length < 2 ^ 62 ->
  pool_first start (2 ^ k) * 2 ^ k - start <= length ->
  let ps := 2 ^ k in
  let s := pool_first start ps * ps in
  (if negb (ALIGN_DOWN start ps =? start) then
     (ALIGN_UP start ps, sub64 length (sub64 (ALIGN_UP start ps) start))
   else (start, length)) = (s, length - (s - start)) /\
  0 <= s - start < ps.
Proof.
  intros Hk Hs Hl Hsum Hfit ps s.
  assert (0 < ps <= 2 ^ 30) as Hps.
  { unfold ps. split; [apply Z.pow_pos_nonneg; lia|apply Z.pow_le_mono_r; lia]. }
  assert (s = ALIGN_UP start ps) as Hs'.
  { unfold ps. rewrite ALIGN_UP_pow2 by (fold ps; lia). done. }
  destruct (align_up_bounds start k) as [Hb _]; [fold ps; lia..|]. fold ps in Hb.
  rewrite <- Hs' in Hb |- *. split; [|lia].
  unfold ps at 1. rewrite ALIGN_DOWN_pow2 by (unfold is_u64; lia). fold ps.
  destruct (Z.eqb_spec (start / ps * ps) start) as [E|E]; simpl.
  - assert (s = start) as ->; [|f_equal; lia]. rewrite Hs'. unfold ps.
    apply align_up_id; fold ps; try lia. exists (start / ps). lia.
  - change (pool_first start (2 ^ k) * 2 ^ k) with s in Hfit.
    rewrite (sub64_small s) by lia. by rewrite sub64_small by lia.
Qed.

(** The three writes that build the initial map of a pool of [n] pages whose
    first [u] pages hold the map itself. *)
Lemma build_map n u ws :
  let bits := (n + 63) / 64 * 64 in
  0 <= n < 2 ^ 59 -> 0 <= u <= bits ->
  Z.of_nat (List.length ws) = (bits + 63) / 64 -> Forall is_u64 ws ->
  exists l1 l2 l,
    lbm_set_all_bits (Lbm bits ws) 1 = Ok l1 /\ lbm_set_bits l1 0 u 0 = Ok l2 /\
    lbm_set_bits l2 n (UVAL_BITS - n mod UVAL_BITS) 0 = Ok l /\
    lbm_wf l /\ lbm_num l = bits /\ capacity (lbm_bits l) = bits /\
    forall k, 0 <= k < bits -> lbit (lbm_bits l) k = negb (k <? u) && (k <? n).
Proof.
  intros bits Hn Hu Hlen Hu64.
  assert (n <= bits < n + 64) as Hbits by (unfold bits; dlia).
  assert (lbm_wf (Lbm bits ws)) as Hwf0 by (constructor; simpl; [lia|done|done]).
  assert (forall l, lbm_wf l -> lbm_num l = bits -> capacity (lbm_bits l) = bits) as Hcap.
  { intros l [_ Hln _] Hnm. unfold capacity, UVAL_BITS. rewrite Hln, Hnm. unfold bits. dlia. }
  destruct (lbm_set_all_bits_spec (Lbm bits ws) 1 Hwf0) as (l1 & Hr1 & Hwf1 & Hn1 & Hb1).
  simpl in Hn1.
  destruct (lbm_set_bits_spec l1 0 u 0) as (l2 & Hr2 & Hwf2 & Hn2 & Hb2); [done|lia..|].
  destruct (lbm_set_bits_spec l2 n (UVAL_BITS - n mod UVAL_BITS) 0)
    as (l3 & Hr3 & Hwf3 & Hn3 & Hb3); [done|lia|unfold UVAL_BITS; dlia..|].
  rewrite Hn2, Hn1 in Hn3. rewrite Hn1 in Hn2.
  exists l1, l2, l3. split_and!; auto. intros k Hk.
  rewrite Hb3, Hb2, Hb1 by (rewrite ?Hcap; done || lia).
  rewrite Hn2, Hn1. change (truth 0) with false. change (truth 1) with true. unfold UVAL_BITS.
  assert (n + (64 - n mod 64) >= bits) by (unfold bits; dlia). zcases.
Qed.

Lemma pgalloc_init_spec halloc mem lbm_addr start length k :
  let ps := 2 ^ k in
  let first := pool_first start ps in
  let n := pool_pages start length ps in
  let bits := (n + 63) / 64 * 64 in
  let map_end := ALIGN_UP lbm_addr PGSIZE + ALIGN_UP (8 + bits / 8) PGSIZE in
  0 <= k < 31 -> 0 <= start -> 0 <= length -> start + length < 2 ^ 59 ->
  first * ps - start <= length -> (first + bits) * ps < 2 ^ 63 ->
  0 <= lbm_addr < 2 ^ 62 -> first * ps <= map_end <= (first + bits) * ps ->
  (forall a m, 0 <= m -> Z.of_nat (List.length (mem a m)) = m /\ Forall is_u64 (mem a m)) ->
  exists pa, pgalloc_init halloc mem lbm_addr start length k = Ok pa /\
    pa_wf pa /\ pa_base pa = first /\ pa_log_pgsize pa = k /\ num_pages pa = bits /\
    forall p, first <= p < first + bits ->
      page_free pa p = negb (p <? first + (map_end - first * ps) / ps) && (p <? first + n).
Proof.
  intros ps first n bits map_end Hk Hs Hl Hsum Hfit Hov Hla Hmap Hmem.
  assert (0 < ps <= 2 ^ 30) as Hps.
  { unfold ps. split; [apply Z.pow_pos_nonneg; lia|apply Z.pow_le_mono_r; lia]. }
  destruct (init_region start length k) as [Hreg Hsd]; [lia..|done|].
  fold ps first in Hreg, Hsd. set (len := length - (first * ps - start)) in *.
  assert (0 <= n < 2 ^ 59 /\ n = len / ps) as [Hn Hneq].
  { split; [|done]. unfold n, pool_pages. fold first. fold len.
    split; [apply Z.div_pos; lia|apply Z.div_lt_upper_bound; nia]. }
  assert (n <= bits < n + 64 /\ 0 <= bits) as Hbits by (unfold bits; dlia).
  unfold pgalloc_init, int_shl1.
  destruct (Z.leb_spec 0 k), (Z.ltb_spec k 31); try lia. cbn [andb res_bind].
  fold ps. rewrite Hreg. unfold shr64. rewrite !Z.shiftr_div_pow2 by lia. fold ps.
  assert (ALIGN_DOWN len ps / ps = n) as ->.
  { unfold ps at 1. rewrite ALIGN_DOWN_pow2 by (unfold is_u64; lia). fold ps.
    rewrite Z.div_mul by lia. done. }
  rewrite Z.div_mul by lia. rewrite ALIGN_UP_64 by done. fold bits.
  destruct (Z.eqb_spec lbm_addr ONES64) as [E|_]; [unfold ONES64 in E; lia|].
  assert (add64 SIZEOF_LBM (bits / 8) = 8 + bits / 8) as ->.
  { unfold SIZEOF_LBM. apply add64_small. dlia. }
  unfold lbm_init. change (truth 0) with false. cbn [andb of_option res_bind].
  destruct (Hmem (add64 (ALIGN_UP lbm_addr PGSIZE) SIZEOF_LBM) (lbm_words bits)) as [Hlen Hu64].
  { rewrite lbm_words_eq by lia. dlia. }
  set (ws := mem _ (lbm_words bits)) in *. rewrite lbm_words_eq in Hlen by lia.
  destruct (align_up_bounds lbm_addr 12) as [Ha1 _]; [lia..|].
  destruct (align_up_bounds (8 + bits / 8) 12) as [Ha2 _]; [dlia|lia|dlia|].
  change (2 ^ 12) with PGSIZE in Ha1, Ha2.
  assert (0 <= bits / 8 < 2 ^ 60) by dlia. assert (PGSIZE = 4096) as HPG by done.
  rewrite (add64_small (ALIGN_UP lbm_addr PGSIZE)) by lia. fold map_end.
  rewrite (sub64_small map_end) by lia.
  set (u := (map_end - first * ps) / ps).
  assert (0 <= u <= bits) as Hu.
  { unfold u. split; [apply Z.div_pos; lia|apply Z.div_le_upper_bound; nia]. }
  destruct (build_map n u ws) as (l1 & l2 & l & Hl1 & Hl2 & Hl3 & Hwf & Hnum & Hcap & Hb);
    try done.
  fold bits in Hl1, Hnum, Hcap, Hb. rewrite Hl1. cbn [res_bind]. rewrite Hl2. cbn [res_bind].
  rewrite Hl3. cbn [res_bind]. eexists. split; [done|]. split_and!; try done.
  - assert (first < 2 ^ 62) by nia.
    assert (0 <= first) by (unfold first, pool_first; apply Z.div_pos; lia).
    constructor; simpl; unfold num_pages; simpl; rewrite ?Hnum; auto; lia.
  - intros p Hp. unfold page_free. simpl. rewrite Hb by lia. zcases.
Qed.

(** ** Properties *)

(** A pool of 64 free pages from page 16 on, used by the witnesses. *)
Definition pool64 : pg_alloc := PgAlloc (Lbm 64 [2 ^ 64 - 1]) 16 12.

Lemma pool64_wf : pa_wf pool64.
Proof.
  constructor; simpl; try (unfold num_pages; simpl; lia).
  - constructor; simpl; [lia|reflexivity|]. apply Forall_cons_2; [unfold is_u64; lia|done].
  - reflexivity.
Qed.

Lemma pool64_request bytes : 0 < bytes <= 4096 -> valid_request pool64 bytes 13.
Proof.
  intros Hb. unfold valid_request, npages, num_pages, pool64. simpl.
  split; [lia|]. split; [apply Z.div_le_upper_bound; lia|lia].
Qed.

(** A request the header allows never faults: it is refused and leaves the
    pool alone, or it returns an address aligned as asked whose pages were all
    free, lie in the pool, are now in use, and are the only pages to change. *)
Theorem get_pages_aligned_correct pa bytes log_align :
  pa_wf pa -> valid_request pa bytes log_align ->
  exists a pa', get_pages_aligned pa bytes log_align = Ok (a, pa') /\
    ((a = PAGE_ALLOC_ERROR /\ pa' = pa) \/
     exists first, a = first * 2 ^ pa_log_pgsize pa /\ a < 2 ^ 63 /\
       in_pool pa first bytes /\ (2 ^ log_align | a) /\
       (forall p, in_pages first (npages pa bytes) p = true -> page_free pa p = true) /\
       marked pa pa' first bytes false).
Proof. apply get_pages_aligned_spec. Qed.

Lemma get_pages_aligned_correct_witness :
  exists a pa', get_pages_aligned pool64 4000 13 = Ok (a, pa') /\
    ((a = PAGE_ALLOC_ERROR /\ pa' = pool64) \/
     exists first, a = first * 2 ^ 12 /\ a < 2 ^ 63 /\
       in_pool pool64 first 4000 /\ (2 ^ 13 | a) /\
       (forall p, in_pages first (npages pool64 4000) p = true -> page_free pool64 p = true) /\
       marked pool64 pa' first 4000 false).
Proof.
  apply (get_pages_aligned_correct pool64 4000 13); [exact pool64_wf|].
  apply pool64_request. lia.
Defined.

(** C15: whatever sequence of allocations and frees its clients perform, two
    blocks held at the same time never share a byte. *)
Theorem live_blocks_disjoint pa pa' live i j x y :
  pa_wf pa -> rtc pa_step (pa, []) (pa', live) ->
  i <> j -> live !! i = Some x -> live !! j = Some y -> blocks_disjoint x y.
Proof.
  intros Hwf Hreach Hne Hi Hj.
  assert (live_inv (pa', live)) as (_ & _ & Hd).
  { apply (live_inv_reach (pa, [])); [|done]. split_and!; [done|constructor..]. }
  assert (forall i j x y, (i < j)%nat -> live !! i = Some x -> live !! j = Some y ->
    blocks_disjoint x y) as H.
  { simpl in Hd. clear -Hd. induction Hd as [|z l Hz Hd IH]; intros i j x y Hij Hi Hj; [done|].
    destruct j as [|j]; [lia|]. destruct i as [|i]; simpl in *.
    - injection Hi as ->. rewrite Forall_forall in Hz. apply Hz. by eapply list_elem_of_lookup_2.
    - apply (IH i j); [lia|done..]. }
  destruct (decide (i < j)%nat).
  - by apply (H i j).
  - assert (blocks_disjoint y x) by (apply (H j i); [lia|done..]). unfold blocks_disjoint in *. tauto.
Qed.

Lemma live_blocks_disjoint_witness :
  exists pa' a b, rtc pa_step (pool64, []) (pa', [(b, 4096); (a, 4096)]) /\
    blocks_disjoint (b, 4096) (a, 4096).
Proof.
  destruct (get_pages_aligned pool64 4096 13) as [[a pa1]|] eqn:E1; [|vm_compute in E1; discriminate].
  destruct (get_pages_aligned pa1 4096 13) as [[b pa2]|] eqn:E2;
    vm_compute in E1; injection E1 as <- <-; vm_compute in E2; [|discriminate].
  injection E2 as <- <-. eexists _, _, _.
  assert (rtc pa_step (pool64, [])
    (PgAlloc (Lbm 64 [18446744073709551610]) 16 12, [(73728, 4096); (65536, 4096)])) as H.
  { eapply rtc_l.
    - apply (step_alloc pool64 [] 4096 13 65536 (PgAlloc (Lbm 64 [18446744073709551614]) 16 12));
        [apply pool64_request; lia|vm_compute; reflexivity|done].
    - eapply rtc_l; [|apply rtc_refl].
      apply (step_alloc (PgAlloc (Lbm 64 [18446744073709551614]) 16 12) [(65536, 4096)] 4096 13 73728);
        [split; [lia|split; [vm_compute; discriminate|split; [simpl; lia|left; simpl; lia]]]|vm_compute; reflexivity|done]. }
  split; [exact H|].
  apply (live_blocks_disjoint pool64 _ _ 0 1 _ _ pool64_wf H); [lia|reflexivity|reflexivity].
Defined.

(** Giving a block back undoes its allocation: every page of the pool is free
    again exactly when it was free before. *)
Theorem get_free_roundtrip pa bytes log_align a pa1 :
  pa_wf pa -> valid_request pa bytes log_align ->
  get_pages_aligned pa bytes log_align = Ok (a, pa1) -> a <> PAGE_ALLOC_ERROR ->
  exists pa2, free_pages pa1 a bytes = Ok pa2 /\
    forall p, pa_base pa <= p < pa_base pa + num_pages pa ->
      page_free pa2 p = page_free pa p.
Proof.
  intros Hwf Hv Hget Hne.
  destruct (get_pages_aligned_spec pa bytes log_align Hwf Hv) as (a' & pa' & Hget' & Hcase).
  rewrite Hget in Hget'. injection Hget' as <- <-.
  destruct Hcase as [[-> _]|(first & -> & _ & [Hp1 Hp2] & _ & Hfree & Hm)]; [done|].
  pose proof (marked_npages _ _ _ _ _ bytes Hm) as Hn.
  destruct Hm as (Hwf1 & Hbase & Hlog & Hnum & Hfr). destruct Hv as (Hb & _).
  pose proof (npages_pos pa bytes Hwf Hb).
  destruct (set_page_bits_spec pa1 Hwf1 first bytes 1) as (pa2 & Hset & _ & _ & _ & _ & Hfr2);
    [lia..|].
  exists pa2. unfold free_pages. rewrite <- Hlog, Hset. split; [done|].
  intros p Hp. rewrite Hfr2, Hfr by lia. rewrite Hn.
  destruct (in_pages first (npages pa bytes) p) eqn:E; [|done]. symmetry. by apply Hfree.
Qed.

Lemma get_free_roundtrip_witness :
  exists pa2, free_pages (PgAlloc (Lbm 64 [18446744073709551614]) 16 12) 65536 4096 = Ok pa2 /\
    forall p, 16 <= p < 16 + 64 -> page_free pa2 p = page_free pool64 p.
Proof.
  apply (get_free_roundtrip pool64 4096 13 65536); [exact pool64_wf|apply pool64_request; lia|
    vm_compute; reflexivity|discriminate].
Defined.

(** [pgalloc_init] with a bitmap placed in the pool builds a well-formed
    allocator whose free pages are those of the region, rounded inwards to page
    boundaries, that lie after the bitmap. *)
Theorem pgalloc_init_correct halloc mem lbm_addr start length k :
  let ps := 2 ^ k in
  let first := pool_first start ps in
  let n := pool_pages start length ps in
  let bits := (n + 63) / 64 * 64 in
  let map_end := ALIGN_UP lbm_addr PGSIZE + ALIGN_UP (8 + bits / 8) PGSIZE in
  0 <= k < 31 -> 0 <= start -> 0 <= length -> start + length < 2 ^ 59 ->
  first * ps - start <= length -> (first + bits) * ps < 2 ^ 63 ->
  0 <= lbm_addr < 2 ^ 62 -> first * ps <= map_end <= (first + bits) * ps ->
  (forall a m, 0 <= m -> Z.of_nat (List.length (mem a m)) = m /\ Forall is_u64 (mem a m)) ->
  exists pa, pgalloc_init halloc mem lbm_addr start length k = Ok pa /\
    pa_wf pa /\ pa_base pa = first /\ pa_log_pgsize pa = k /\ num_pages pa = bits /\
    forall p, first <= p < first + bits ->
      page_free pa p = negb (p <? first + (map_end - first * ps) / ps) && (p <? first + n).
Proof. apply pgalloc_init_spec. Qed.

Lemma pgalloc_init_correct_witness :
  let mem := fun _ m => repeat 0 (Z.to_nat m) in
  let first := pool_first 100 (2 ^ 12) in
  let n := pool_pages 100 (100 * 4096) (2 ^ 12) in
  let bits := (n + 63) / 64 * 64 in
  let map_end := ALIGN_UP 8192 PGSIZE + ALIGN_UP (8 + bits / 8) PGSIZE in
  exists pa, pgalloc_init (fun _ => None) mem 8192 100 (100 * 4096) 12 = Ok pa /\
    pa_wf pa /\ pa_base pa = first /\ pa_log_pgsize pa = 12 /\ num_pages pa = bits /\
    forall p, first <= p < first + bits ->
      page_free pa p = negb (p <? first + (map_end - first * 2 ^ 12) / 2 ^ 12) && (p <? first + n).
Proof.
  intros mem first n bits map_end.
  apply (pgalloc_init_correct (fun _ => None) mem 8192 100 (100 * 4096) 12).
  - lia.
  - lia.
  - lia.
  - lia.
  - vm_compute. discriminate.
  - vm_compute. reflexivity.
  - lia.
  - vm_compute. split; discriminate.
  - intros a m Hm. unfold mem. rewrite repeat_length. split; [lia|].
    apply List.Forall_forall. intros x Hx. apply repeat_spec in Hx as ->. unfold is_u64. lia.
Defined.
