(* ===== verification/ObjAlloc.v ===== *)
(** * ObjAlloc: the object allocator

    [lib/objalloc.c]: objects of less than half a page come from one of seven caches,
    whose size is a power of two and which cut pages of the page allocator
    ([PgAlloc]) into objects; larger ones are pages.  Each page of a cache has a
    descriptor; descriptors come from pages of their own.  The ring of a cache's free
    objects appears as the list of its nodes from [list] on ([Dlist.ring]), chains of
    descriptors as lists.  Each operation runs with its lock held.  Not here:
    [cache_clean] and [release_apd], which the source marks as untested and useless,
    and the debugging check [cache_assert]. *)

From S2P Require Import Prelude Bitmap PgAlloc.

Definition LOG_MIN_OBJ_SIZE : Z := 5.
Definition LOG_MAX_OBJ_SIZE : Z := LOG_PGSIZE - 1.
Definition NUM_CACHES : Z := LOG_MAX_OBJ_SIZE - LOG_MIN_OBJ_SIZE + 1.
Definition SIZEOF_APD : Z := 32.
Definition SIZEOF_OBJCACHE : Z := 48.
Definition HDR_PAGE_COUNT : Z := PGSIZE / SIZEOF_OBJCACHE.

(** [struct alloc_page_desc] *)
Record alloc_page_desc := Apd { apd_page : Z; apd_bits : list Z }.

(** [struct objcache] *)
Record objcache := Objcache {
  oc_node : list Z;
  oc_size : Z;
  oc_list : list Z;
  oc_alloced : Z
}.

(** [struct page_desc_cache]: its address and the bits of the descriptors in use. *)
Record page_desc_cache := Pdc { pdc_addr : Z; pdc_used : list Z }.

(** The allocator: the pages it draws on, the caches, the pages of descriptors
    ([nodes]), the descriptors by address, the [node] field of free objects, and the
    bytes of memory, as far as it clears them. *)
Record heap := Heap {
  default_pa : pg_alloc;
  caches : list objcache;
  nodes : list page_desc_cache;
  free_nodes : Z;
  apds : gmap Z alloc_page_desc;
  fo_node : gmap Z Z;
  mem : Z -> Z
}.

Definition set_pa (h : heap) (pa : pg_alloc) : heap :=
  Heap pa (caches h) (nodes h) (free_nodes h) (apds h) (fo_node h) (mem h).
Definition set_nodes (h : heap) (l : list page_desc_cache) (n : Z) : heap :=
  Heap (default_pa h) (caches h) l n (apds h) (fo_node h) (mem h).
Definition put_apd (h : heap) (a : Z) (d : alloc_page_desc) : heap :=
  Heap (default_pa h) (caches h) (nodes h) (free_nodes h) (<[a := d]> (apds h)) (fo_node h) (mem h).
Definition set_fo (h : heap) (f : gmap Z Z) : heap :=
  Heap (default_pa h) (caches h) (nodes h) (free_nodes h) (apds h) f (mem h).
Definition put_cache (h : heap) (i : Z) (c : objcache) : res heap :=
  let! l := aset (caches h) i c in
  Ok (Heap (default_pa h) l (nodes h) (free_nodes h) (apds h) (fo_node h) (mem h)).
Definition set_memory (h : heap) (m : Z -> Z) : heap :=
  Heap (default_pa h) (caches h) (nodes h) (free_nodes h) (apds h) (fo_node h) m.

(** [get_pages(pa, PGSIZE)] by a caller that uses the result unchecked: running out
    of pages is an access to the last byte of the address space. *)
Definition need_page (h : heap) : res (Z * heap) :=
  let! (page, pa) := get_pages (default_pa h) PGSIZE in
  check! negb (page =? PAGE_ALLOC_ERROR) else Out_of_bounds in
  Ok (page, set_pa h pa).

(** [while (i <= numbits / 32)]: the word and the index in it. *)
Fixpoint zero_loop (n : nat) (set : list Z) (i : Z) : res (Z * Z) :=
  match n with
  | O => Ok (i, 32)
  | S n =>
      let! w := aget set i in
      if ffz w <? 32 then Ok (i, ffz w) else zero_loop n set (i + 1)
  end.

(** [set_zero_bit]: the index and the new words. *)
Definition set_zero_bit (set : list Z) (numbits : Z) : res (Z * list Z) :=
  let! (i, idx) := zero_loop (S (Z.to_nat (numbits / 32))) set 0 in
  if numbits <=? idx + 32 * i then Ok (numbits, set)
  else
    let! w := aget set i in
    let! set := aset set i (Z.lor w (2 ^ idx)) in
    Ok (idx + 32 * i, set).

(** [while (pdc)]: the descriptor taken, and the pages of descriptors. *)
Fixpoint take_desc (l : list page_desc_cache) : res (option Z * list page_desc_cache) :=
  match l with
  | [] => Ok (None, [])
  | p :: l =>
      let! (idx, used) := set_zero_bit (pdc_used p) HDR_PAGE_COUNT in
      if idx <? HDR_PAGE_COUNT then
        Ok (Some (add64 (pdc_addr p) (mul64 idx SIZEOF_APD)), Pdc (pdc_addr p) used :: l)
      else let! (r, l) := take_desc l in Ok (r, Pdc (pdc_addr p) used :: l)
  end.

(** The number of descriptors the header of the page takes up. *)
Definition hdr_descs : Z := (24 + SIZEOF_APD) / SIZEOF_APD.

Definition new_alloc_page_desc (h : heap) : res (Z * heap) :=
  let! h :=
    if free_nodes h =? 0 then
      let! (page, h) := need_page h in
      Ok (set_nodes h (Pdc page [2 ^ hdr_descs - 1; 0; 0] :: nodes h) (free_nodes h + (HDR_PAGE_COUNT - hdr_descs)))
    else Ok h in
  let! (a, l) := take_desc (nodes h) in
  match a with
  | None => Fault Assert_failed
  | Some a => Ok (a, put_apd (set_nodes h l (free_nodes h - 1)) a (Apd 0 [0; 0; 0; 0]))
  end.

(** The objects of a page. *)
Definition page_objs (page size : Z) : list Z := (fun i => page + i * size) <$> seqZ 0 (PGSIZE / size).

(** [if (!hdr->list) ...] of [cache_alloc]. *)
Definition refill (h : heap) (i : Z) (c : objcache) : res (objcache * heap) :=
  match oc_list c with
  | _ :: _ => Ok (c, h)
  | [] =>
      let! (apd, h) := new_alloc_page_desc h in
      let! (page, h) := need_page h in
      let! d := of_option Null_deref (apds h !! apd) in
      let objs := page_objs page (oc_size c) in
      let h := put_apd h apd (Apd page (apd_bits d)) in
      let h := set_fo h (foldr (fun o f => <[o := apd]> f) (fo_node h) objs) in
      Ok (Objcache (apd :: oc_node c) (oc_size c) objs (oc_alloced c), h)
  end.

(** [bits[idx/32] |= 1<<(idx%32)] and [&= ~...] *)
Definition set_apd_bit (d : alloc_page_desc) (idx : Z) (b : bool) : res alloc_page_desc :=
  let! w := aget (apd_bits d) (idx / 32) in
  let w := if b then Z.lor w (2 ^ (idx mod 32)) else Z.land w (not32 (2 ^ (idx mod 32))) in
  let! l := aset (apd_bits d) (idx / 32) w in
  Ok (Apd (apd_page d) l).

(** The object's bit, if the object names a descriptor. *)
Definition mark_used (h : heap) (obj size : Z) : res heap :=
  let idx := Z.land obj (PGSIZE - 1) / size in
  let! node := of_option Out_of_bounds (fo_node h !! obj) in
  if node =? 0 then Ok h
  else
    let! d := of_option Null_deref (apds h !! node) in
    let! d := set_apd_bit d idx true in
    let h := put_apd h node d in
    cassert (Z.land obj (not64 (PGSIZE - 1)) =? apd_page d) (Ok h).

Definition cache_alloc (h : heap) (i : Z) : res (Z * heap) :=
  let! c := aget (caches h) i in
  let! (c, h) := refill h i c in
  match oc_list c with
  | [] => Fault Null_deref
  | obj :: rest =>
      let! h := mark_used h obj (oc_size c) in
      let h := set_memory h (memset (mem h) obj 0 (oc_size c)) in
      let h := set_fo h (delete obj (fo_node h)) in
      let! h := put_cache h i (Objcache (oc_node c) (oc_size c) rest (add64 (oc_alloced c) (oc_size c))) in
      Ok (obj, h)
  end.

Definition cache_free (h : heap) (i ptr : Z) : res heap :=
  let! c := aget (caches h) i in
  let page := ALIGN_DOWN ptr PGSIZE in
  match oc_node c with
  | [] => Fault Null_deref
  | head :: _ =>
      let! d := of_option Null_deref (apds h !! head) in
      let! h :=
        if page =? apd_page d then
          let! d := set_apd_bit d (sub64 ptr page / oc_size c) false in
          Ok (set_fo (put_apd h head d) (<[ptr := head]> (fo_node h)))
        else Ok (set_fo h (<[ptr := 0]> (fo_node h))) in
      cassert (negb (oc_alloced c =? 0))
        (put_cache h i (Objcache (oc_node c) (oc_size c) (ptr :: oc_list c) (sub64 (oc_alloced c) (oc_size c))))
  end.

Definition cache_init (size : Z) : objcache := Objcache [] size [] 0.

Definition init_allocator (pa : pg_alloc) (m : Z -> Z) : heap :=
  Heap pa ((fun i => cache_init (2 ^ (i + LOG_MIN_OBJ_SIZE))) <$> seqZ 0 NUM_CACHES) [] 0 ∅ ∅ m.

(** [for (; i<NUM_CACHES; ++i) if (size <= ...) break;] *)
Fixpoint cache_index (n : nat) (i size : Z) : Z :=
  match n with
  | O => i
  | S n => if size <=? 2 ^ (i + LOG_MIN_OBJ_SIZE) then i else cache_index n (i + 1) size
  end.

Definition halloc (h : heap) (size : Z) : res (Z * heap) :=
  if 2 ^ LOG_MAX_OBJ_SIZE <=? size then
    let! (a, pa) := get_pages (default_pa h) size in Ok (a, set_pa h pa)
  else cache_alloc h (cache_index (Z.to_nat NUM_CACHES) 0 size).

Definition hfree (h : heap) (ptr size : Z) : res heap :=
  cassert (negb (ptr =? 0))
    (if 2 ^ LOG_MAX_OBJ_SIZE <=? size then
       let size := ALIGN_UP size PGSIZE in
       let size := if 64 * PGSIZE <? size then ALIGN_UP size (64 * PGSIZE) else size in
       let! pa := free_pages (default_pa h) ptr size in
       Ok (set_pa h pa)
     else cache_free h (cache_index (Z.to_nat NUM_CACHES) 0 size) ptr).

(** ** Bits of the descriptor pages *)
Definition used_bit (ws : list Z) (j : Z) : bool := Z.testbit (default 0 (ws !! Z.to_nat (j / 32))) (j mod 32).

Definition words_ok (ws : list Z) : Prop := length ws = 3%nat /\ Forall is_u32 ws.

Definition unused (ws : list Z) : Z := zsum (fun j => if used_bit ws j then 0 else 1) (seqZ 0 HDR_PAGE_COUNT).

Lemma ffz_low w :
  is_u32 w ->
  (ffz w < 32 /\ 0 <= ffz w /\ Z.testbit w (ffz w) = false /\ forall j, 0 <= j < ffz w -> Z.testbit w j = true) \/
  (32 <= ffz w /\ forall j, 0 <= j < 32 -> Z.testbit w j = true).
Proof.
  intros Hw. assert (is_u64 w) as Hw64 by (unfold is_u32, is_u64 in *; lia).
  destruct (ffz_spec w Hw64) as [[E Hall]|(H0 & Hf & Hlow)].
  - right. split; [lia|]. intros j Hj. apply Hall. lia.
  - destruct (Z.ltb_spec (ffz w) 32) as [|Hge]; [left; by split_and!; try lia|].
    right. split; [done|]. intros j Hj. apply Hlow. lia.
Qed.

Lemma used_bit_at ws i w b : ws !! Z.to_nat i = Some w -> 0 <= i -> 0 <= b < 32 -> used_bit ws (b + 32 * i) = Z.testbit w b.
Proof.
  intros Hw Hi Hb. unfold used_bit. replace ((b + 32 * i) / 32) with i by dlia.
  replace ((b + 32 * i) mod 32) with b by dlia. by rewrite Hw.
Qed.

(** The loop stops at the first word with a clear bit, or past the last word. *)
Lemma zero_loop_spec n : forall ws i,
  words_ok ws -> 0 <= i -> i + Z.of_nat n = 3 ->
  (forall j, 0 <= j < 32 * i -> used_bit ws j = true) ->
  exists k b, zero_loop n ws i = Ok (k, b) /\ 0 <= k <= 3 /\ 0 <= b <= 32 /\
    (forall j, 0 <= j < Z.min 96 (b + 32 * k) -> used_bit ws j = true) /\
    (k = 3 /\ b = 32 \/ k < 3 /\ b < 32 /\ used_bit ws (b + 32 * k) = false).
Proof.
  induction n as [|n IH]; intros ws i Hok Hi Hn Hall; cbn [zero_loop].
  - exists i, 32. split; [done|]. split; [lia|]. split; [lia|]. split; [|left; lia].
    intros j Hj. apply Hall. lia.
  - pose proof Hok as [Hl Hf]. destruct (aget_is_ok ws i) as [w Hw]; [lia|]. rewrite Hw. cbn [res_bind].
    apply aget_inv in Hw as [_ Hw]. pose proof (proj1 (Forall_lookup _ _) Hf _ _ Hw) as Hw32.
    destruct (ffz_low w Hw32) as [(Hlt & H0 & Hb & Hlow)|[Hge Hb]].
    + destruct (Z.ltb_spec (ffz w) 32); [|lia]. exists i, (ffz w). split; [done|]. split; [lia|]. split; [lia|]. split.
      * intros j Hj. destruct (Z.ltb_spec j (32 * i)); [by apply Hall; lia|].
        replace j with ((j - 32 * i) + 32 * i) by lia. rewrite (used_bit_at ws i w) by (done || lia). apply Hlow. lia.
      * right. split; [lia|]. split; [done|]. by rewrite (used_bit_at ws i w) by (done || lia).
    + destruct (Z.ltb_spec (ffz w) 32); [lia|]. apply IH; [done|lia|lia|]. intros j Hj.
      destruct (Z.ltb_spec j (32 * i)); [by apply Hall; lia|].
      replace j with ((j - 32 * i) + 32 * i) by lia. rewrite (used_bit_at ws i w) by (done || lia). apply Hb. lia.
Qed.

Lemma set_zero_bit_spec ws :
  words_ok ws ->
  exists k ws', set_zero_bit ws HDR_PAGE_COUNT = Ok (k, ws') /\ words_ok ws' /\
    (k = HDR_PAGE_COUNT /\ ws' = ws /\ (forall j, 0 <= j < HDR_PAGE_COUNT -> used_bit ws j = true) \/
     0 <= k < HDR_PAGE_COUNT /\ used_bit ws k = false /\
     forall j, 0 <= j -> used_bit ws' j = used_bit ws j || (j =? k)).
Proof.
  intros Hok. assert (HDR_PAGE_COUNT = 85) as E85 by reflexivity. unfold set_zero_bit.
  destruct (zero_loop_spec 3 ws 0 Hok) as (i & b & Ez & Hi & Hb & Hall & Hcase); [lia|lia|intros j Hj; lia|].
  change (S (Z.to_nat (HDR_PAGE_COUNT / 32))) with 3%nat. rewrite Ez. cbn [res_bind].
  destruct (Z.leb_spec HDR_PAGE_COUNT (b + 32 * i)) as [Hge|Hlt].
  - exists HDR_PAGE_COUNT, ws. split; [done|]. split; [done|]. left. split; [done|]. split; [done|].
    intros j Hj. apply Hall. lia.
  - destruct Hcase as [[-> ->]|(Hi3 & Hb32 & Hf)]; [lia|]. pose proof Hok as [Hl Hf32].
    destruct (aget_is_ok ws i) as [w Hw]; [lia|]. rewrite Hw. cbn [res_bind]. rewrite aset_ok by lia. cbn [res_bind].
    apply aget_inv in Hw as [_ Hw]. eexists _, _. split; [done|]. split.
    + split; [by rewrite length_insert|]. apply Forall_insert; [done|]. apply is_u32_lor; [by eapply Forall_lookup|].
      apply is_u32_pow2. lia.
    + right. split; [lia|]. split; [done|]. intros j Hj. unfold used_bit.
      destruct (decide (Z.to_nat i = Z.to_nat (j / 32))) as [E|Hne].
      * rewrite <- E, list_lookup_insert_eq by (apply lookup_lt_Some in Hw; lia). rewrite Hw. cbn [default].
        assert (i = j / 32) as -> by dlia. cbn [from_option id]. rewrite Z.lor_spec, testbit_pow2 by dlia. f_equal. zcases.
      * rewrite list_lookup_insert_ne by done. destruct (Z.eqb_spec j (b + 32 * i)) as [->|]; [|by rewrite orb_false_r].
        exfalso. apply Hne. f_equal. dlia.
Qed.

Lemma zsum_change {A} (f g : A -> Z) k l :
  NoDup l -> k ∈ l -> (forall x, x <> k -> g x = f x) -> zsum g l = zsum f l - f k + g k.
Proof.
  intros Hnd Hk Hne. induction l as [|x l IH]; [by apply elem_of_nil in Hk|]. inversion_clear Hnd as [|? ? Hx Hl]. simpl.
  apply elem_of_cons in Hk as [<-|Hk].
  - assert (zsum g l = zsum f l) as ->; [|lia]. clear - Hx Hne. induction l as [|y l IH]; [done|]. simpl.
    apply not_elem_of_cons in Hx as [Hy Hl]. rewrite IH by done. rewrite Hne by congruence. done.
  - rewrite IH by done. rewrite (Hne x); [lia|]. by intros ->.
Qed.

Lemma unused_take ws ws' k :
  0 <= k < HDR_PAGE_COUNT -> used_bit ws k = false ->
  (forall j, 0 <= j -> used_bit ws' j = used_bit ws j || (j =? k)) -> unused ws' = unused ws - 1.
Proof.
  intros Hk Hf Hall. unfold unused. assert (forall j, j ∈ seqZ 0 HDR_PAGE_COUNT -> 0 <= j) as Hpos.
  { intros j Hj. apply elem_of_seqZ in Hj. lia. }
  transitivity (zsum (fun j => if used_bit ws j || (j =? k) then 0 else 1) (seqZ 0 HDR_PAGE_COUNT)).
  - revert Hpos. generalize (seqZ 0 HDR_PAGE_COUNT). intros l. induction l as [|x l IH]; intros Hp; [done|]. simpl.
    rewrite IH by (intros j Hj; apply Hp, elem_of_cons; by right). rewrite Hall by (apply Hp, elem_of_cons; by left). done.
  - rewrite (zsum_change (fun j => if used_bit ws j then 0 else 1) _ k).
    + rewrite Hf, Z.eqb_refl. simpl. lia.
    + apply NoDup_seqZ.
    + apply elem_of_seqZ. lia.
    + intros x Hx. destruct (Z.eqb_spec x k); [done|]. by rewrite orb_false_r.
Qed.

Lemma unused_pos ws : 0 < unused ws -> exists k, 0 <= k < HDR_PAGE_COUNT /\ used_bit ws k = false.
Proof.
  unfold unused. assert (forall j, j ∈ seqZ 0 HDR_PAGE_COUNT -> 0 <= j < HDR_PAGE_COUNT) as Hr.
  { intros j Hj. apply elem_of_seqZ in Hj. lia. }
  revert Hr. generalize (seqZ 0 HDR_PAGE_COUNT). intros l. induction l as [|x l IH]; intros Hr; simpl; [lia|].
  destruct (used_bit ws x) eqn:E.
  - intros H. apply IH; [|lia]. intros j Hj. apply Hr, elem_of_cons. by right.
  - intros _. exists x. split; [|done]. apply Hr, elem_of_cons. by left.
Qed.

Lemma unused_nonneg ws : 0 <= unused ws.
Proof. apply zsum_nonneg. intros j. by destruct (used_bit ws j). Qed.

(** ** Descriptor pages *)

(** Descriptor [a] is number [k] of a page of descriptors, and taken. *)
Definition desc_taken (l : list page_desc_cache) (a : Z) : Prop :=
  exists p k, p ∈ l /\ 0 <= k < HDR_PAGE_COUNT /\ a = pdc_addr p + k * SIZEOF_APD /\ used_bit (pdc_used p) k = true.

Definition pdc_ok (p : page_desc_cache) : Prop := words_ok (pdc_used p) /\ 0 <= pdc_addr p < 2 ^ 63.

Lemma take_desc_spec l :
  Forall pdc_ok l -> 0 < zsum (fun p => unused (pdc_used p)) l ->
  exists p k l', take_desc l = Ok (Some (pdc_addr p + k * SIZEOF_APD), l') /\ p ∈ l /\ 0 <= k < HDR_PAGE_COUNT /\
    used_bit (pdc_used p) k = false /\ Forall pdc_ok l' /\ pdc_addr <$> l' = pdc_addr <$> l /\
    zsum (fun p => unused (pdc_used p)) l' = zsum (fun p => unused (pdc_used p)) l - 1 /\
    desc_taken l' (pdc_addr p + k * SIZEOF_APD) /\ forall a, desc_taken l a -> desc_taken l' a.
Proof.
  assert (HDR_PAGE_COUNT = 85) as E85 by reflexivity. assert (SIZEOF_APD = 32) as E32 by reflexivity.
  induction l as [|q l IH]; intros Hok Hsum; simpl in *; [lia|]. inversion_clear Hok as [|? ? [Hq Ha] Hl].
  destruct (set_zero_bit_spec (pdc_used q) Hq) as (k & ws & -> & Hws & Hcase). cbn [res_bind].
  destruct Hcase as [(-> & -> & Hall)|(Hk & Hf & Hset)].
  - rewrite Z.ltb_irrefl. assert (unused (pdc_used q) = 0) as E0.
    { pose proof (unused_nonneg (pdc_used q)). destruct (Z.ltb_spec 0 (unused (pdc_used q))) as [Hp|]; [|lia].
      destruct (unused_pos _ Hp) as (k & Hk & Hkf). rewrite Hall in Hkf by done. done. }
    destruct IH as (p & k & l' & -> & Hp & Hk & Hkf & Hok' & Hadr & Hs & Ht & Hkeep); [done|lia|]. cbn [res_bind].
    exists p, k, (Pdc (pdc_addr q) (pdc_used q) :: l'). split; [done|]. split_and!; try done; try lia.
    + apply elem_of_cons. by right.
    + by constructor.
    + rewrite fmap_cons, Hadr. done.
    + simpl. lia.
    + destruct Ht as (p' & k' & H1 & H2). exists p', k'. split; [apply elem_of_cons; by right|done].
    + intros a (p' & k' & H1 & H2 & H3 & H4). apply elem_of_cons in H1 as [->|H1].
      * exists (Pdc (pdc_addr q) (pdc_used q)), k'. split; [apply elem_of_cons; by left|done].
      * destruct (Hkeep a) as (p2 & k2 & G1 & G2); [by exists p', k'|]. exists p2, k2. split; [apply elem_of_cons; by right|done].
  - destruct (Z.ltb_spec k HDR_PAGE_COUNT); [|lia]. rewrite mul64_small, add64_small by lia.
    exists q, k, (Pdc (pdc_addr q) ws :: l). split; [done|]. split_and!; try done; try lia.
    + apply elem_of_cons. by left.
    + by constructor.
    + simpl. rewrite (unused_take (pdc_used q) ws k) by done. lia.
    + exists (Pdc (pdc_addr q) ws), k. split; [apply elem_of_cons; by left|]. split; [done|]. split; [done|]. simpl.
      rewrite Hset by lia. by rewrite Z.eqb_refl, orb_true_r.
    + intros a (p' & k' & H1 & H2 & H3 & H4). apply elem_of_cons in H1 as [->|H1].
      * exists (Pdc (pdc_addr q) ws), k'. split; [apply elem_of_cons; by left|]. split; [done|]. split; [done|]. simpl.
        rewrite Hset by lia. by rewrite H4.
      * exists p', k'. split; [apply elem_of_cons; by right|done].
Qed.

(** An unused descriptor is not one of the taken ones, since descriptor pages are
    different pages. *)
Lemma fresh_desc l p k :
  NoDup (pdc_addr <$> l) -> (forall q, q ∈ l -> (PGSIZE | pdc_addr q)) -> p ∈ l -> 0 <= k < HDR_PAGE_COUNT ->
  used_bit (pdc_used p) k = false -> ~ desc_taken l (pdc_addr p + k * SIZEOF_APD).
Proof.
  intros Hnd Hal Hp Hk Hf (q & k' & Hq & Hk' & Ha & Ht).
  change HDR_PAGE_COUNT with 85 in *. change SIZEOF_APD with 32 in *. change PGSIZE with 4096 in *.
  destruct (Hal p Hp) as [x Hx], (Hal q Hq) as [y Hy].
  assert (pdc_addr p = pdc_addr q /\ k = k') as [E ->] by lia.
  enough (p = q) as -> by congruence. clear - Hnd Hp Hq E. induction l as [|z l IH]; [by apply elem_of_nil in Hp|].
  rewrite fmap_cons in Hnd. inversion_clear Hnd as [|? ? Hz Hl].
  apply elem_of_cons in Hp as [->|Hp], Hq as [->|Hq]; auto.
  - destruct Hz. rewrite E. by apply list_elem_of_fmap_2.
  - destruct Hz. rewrite <- E. by apply list_elem_of_fmap_2.
Qed.

(** ** Pages of the allocator *)
Lemma FOP_perm {A} (R : A -> A -> Prop) l l' :
  (forall a b, R a b -> R b a) -> l ≡ₚ l' -> ForallOrdPairs R l -> ForallOrdPairs R l'.
Proof.
  intros Hsym. induction 1 as [|x l l' Hp IH|x y l|l1 l2 l3 H1 IH1 H2 IH2]; intros H; auto.
  - inversion_clear H as [|? ? Hx Hl]. constructor; [by rewrite <- Hp|auto].
  - inversion_clear H as [|? ? Hx Hl]. inversion_clear Hl as [|? ? Hy Hl']. inversion_clear Hx as [|? ? Hyx Hx'].
    constructor; [constructor; auto|by constructor].
Qed.

Lemma live_inv_perm pa l l' : l ≡ₚ l' -> live_inv (pa, l) -> live_inv (pa, l').
Proof.
  intros Hp (Hwf & Hok & Hd). split; [done|]. simpl in *. split; [by rewrite <- Hp|].
  apply (FOP_perm _ l); [unfold blocks_disjoint; tauto|done|done].
Qed.

(** The pool of pages, of which [own] are in use. *)
Definition pool_ok (pa : pg_alloc) (own : list block) : Prop :=
  live_inv (pa, own) /\ pa_log_pgsize pa = LOG_PGSIZE /\ 0 < num_pages pa.

Lemma pool_ok_perm pa l l' : l ≡ₚ l' -> pool_ok pa l -> pool_ok pa l'.
Proof. intros Hp (H & ?). split; [by apply (live_inv_perm pa l)|done]. Qed.

Lemma npages_page pa : pa_log_pgsize pa = LOG_PGSIZE -> npages pa PGSIZE = 1.
Proof. intros E. unfold npages. by rewrite E. Qed.

Lemma get_pages_pool pa own bytes :
  pool_ok pa own -> 0 < bytes < 2 ^ 63 -> npages pa bytes <= num_pages pa ->
  exists a pa', get_pages pa bytes = Ok (a, pa') /\
    (a = PAGE_ALLOC_ERROR /\ pa' = pa \/ a <> PAGE_ALLOC_ERROR /\ pool_ok pa' ((a, bytes) :: own)).
Proof.
  intros (Hl & Hlog & Hnum) Hb Hn. unfold get_pages. pose proof (proj1 Hl) as Hwf. simpl in Hwf.
  assert (valid_request pa bytes (pa_log_pgsize pa)) as Hv by (split_and!; try lia; destruct Hwf; lia).
  destruct (get_pages_aligned_spec _ _ _ Hwf Hv) as (a & pa' & Hg & Hcase). exists a, pa'. split; [done|].
  destruct Hcase as [[-> ->]|(f & Ha & Hlt & _ & _ & _ & Hm)]; [by left|]. right.
  assert (a <> PAGE_ALLOC_ERROR) as Hne by (unfold PAGE_ALLOC_ERROR, ONES64; lia). split; [done|].
  split; [by eapply live_inv_alloc|]. destruct Hm as (_ & _ & E1 & E2 & _). by rewrite E1, E2.
Qed.

(** Pages left in the pool. *)
Definition free_page (pa : pg_alloc) (p : Z) : Prop :=
  pa_base pa <= p < pa_base pa + num_pages pa /\ page_free pa p = true.
Definition one_page (pa : pg_alloc) : Prop := exists p, free_page pa p.
Definition two_pages (pa : pg_alloc) : Prop := exists p q, p <> q /\ free_page pa p /\ free_page pa q.

(** A request for a page fails only when there is none. *)
Lemma get_page_none pa own :
  pool_ok pa own -> get_pages pa PGSIZE = Ok (PAGE_ALLOC_ERROR, pa) -> ~ one_page pa.
Proof.
  intros ((Hwf & _) & Hlog & Hnum) Hg (p & Hp & Hf). simpl in Hwf. unfold get_pages, get_pages_aligned in Hg.
  rewrite bytes_to_pages_spec in Hg by done. rewrite npages_page in Hg by done. cbn [res_bind] in Hg.
  pose proof Hwf as [Hlbm Hfull Hbase Hl _]. rewrite (sub64_small (pa_log_pgsize pa)) in Hg by lia. rewrite Z.sub_diag in Hg.
  destruct (find_range_run (pa_lbm pa) 1 1 0 (pa_base pa)) as (r & Hr & Hcase); [done|by right|lia|lia|lia| |].
  { left. by exists 64. }
  rewrite Hr in Hg. cbn [res_bind] in Hg. destruct (Z.eqb_spec r LARGE_BITMAP_ERROR) as [Er|Hne]; cbn [negb] in Hg.
  - destruct Hcase as [(H1 & H2 & _)|[_ Hall]].
    { rewrite Hfull in H2. destruct Hlbm as [Hn _ _]. unfold num_pages, LARGE_BITMAP_ERROR, ONES64 in *. lia. }
    apply (blocked_not_free (pa_lbm pa) 1 1 (p - pa_base pa)).
    + apply Hall; [by exists 64|apply Z.divide_1_l|lia|rewrite Hfull; lia|apply Z.divide_1_l].
    + intros j Hj. replace j with (p - pa_base pa) by lia. unfold page_free in Hf. apply andb_prop in Hf as [_ Hf]. exact Hf.
  - apply res_bind_ok in Hg as (pa' & _ & [= E _]). revert E. rewrite Hlog. unfold shl64, u64, PAGE_ALLOC_ERROR, ONES64.
    rewrite Z.shiftl_mul_pow2 by done. change (2 ^ LOG_PGSIZE) with 4096. intros E. dlia.
Qed.

Lemma need_page_spec h own :
  pool_ok (default_pa h) own ->
  (need_page h = Fault Out_of_bounds /\ ~ one_page (default_pa h)) \/
  exists p pa, need_page h = Ok (p, set_pa h pa) /\ pool_ok pa ((p, PGSIZE) :: own) /\
    (two_pages (default_pa h) -> one_page pa).
Proof.
  intros Hp. pose proof Hp as (Hl & Hlog & Hnum). pose proof (proj1 Hl) as Hwf. simpl in Hwf.
  assert (npages (default_pa h) PGSIZE <= num_pages (default_pa h)) as Hle by (rewrite npages_page by done; lia).
  destruct (get_pages_pool _ _ PGSIZE Hp) as (a & pa & Hg & Hcase); [done|done|].
  unfold need_page. rewrite Hg. cbn [res_bind]. destruct Hcase as [[-> ->]|[Hne Hok]].
  { left. split; [done|]. by apply (get_page_none _ own). }
  destruct (Z.eqb_spec a PAGE_ALLOC_ERROR); [done|]. right. exists a, pa. split; [done|]. split; [done|].
  intros (p & q & Hpq & [Hp1 Hp2] & [Hq1 Hq2]). unfold get_pages in Hg.
  destruct (get_pages_aligned_spec (default_pa h) PGSIZE (pa_log_pgsize (default_pa h)) Hwf) as (a' & pa2 & Hg' & Hcase).
  { split_and!; try done; destruct Hwf; lia. }
  rewrite Hg in Hg'. injection Hg' as <- <-. destruct Hcase as [[-> _]|(f & _ & _ & _ & _ & _ & _ & E1 & E2 & E3 & Hfree)]; [done|].
  rewrite npages_page in Hfree by done. unfold one_page, free_page. rewrite E1, E3.
  destruct (decide (p = f)) as [->|Hpf]; [exists q|exists p]; (split; [done|]); rewrite Hfree by done;
    destruct (in_pages f 1 _) eqn:E; try done; apply in_pages_iff in E; lia.
Qed.

(** A page in use: aligned, below half the address space. *)
Lemma pool_page pa own p : pool_ok pa own -> (p, PGSIZE) ∈ own -> (PGSIZE | p) /\ 0 <= p < 2 ^ 63 - PGSIZE.
Proof.
  intros ((Hwf & Hok & _) & Hlog & _) Hin. simpl in *.
  destruct (proj1 (Forall_forall _ _) Hok _ Hin) as (f & Hf & _ & [H1 H2] & _). simpl in *.
  rewrite npages_page in H2 by done. destruct Hwf as [_ _ Hb _ Ha]. rewrite Hlog in *.
  change (2 ^ LOG_PGSIZE) with 4096 in *. change PGSIZE with 4096 in *. split; [by exists f|]. lia.
Qed.

Lemma FOP_app_inv {A} (R : A -> A -> Prop) l1 l2 :
  ForallOrdPairs R (l1 ++ l2) -> (forall x y, x ∈ l1 -> y ∈ l2 -> R x y) /\ ForallOrdPairs R l2.
Proof.
  induction l1 as [|z l1 IH]; simpl; intros H; [split; [by intros x y Hx%elem_of_nil|done]|].
  inversion_clear H as [|? ? Hz Hl]. destruct (IH Hl) as [IH1 IH2]. split; [|done].
  intros x y [->|Hx]%elem_of_cons Hy; [|auto]. rewrite Forall_forall in Hz. apply Hz, elem_of_app. by right.
Qed.

(** ** The invariant

    [objs] are the objects clients hold, each with the size asked for; [pages] are
    the pages cut into objects, each with the index of its cache. *)
Definition obj_size (i : Z) : Z := 2 ^ (i + LOG_MIN_OBJ_SIZE).
Definition ix (size : Z) : Z := cache_index (Z.to_nat NUM_CACHES) 0 size.
Definition is_small (b : block) : Prop := b.2 < 2 ^ LOG_MAX_OBJ_SIZE.
Definition smalls (objs : list block) : list (Z * Z) := (fun b => (b.1, ix b.2)) <$> filter is_small objs.
Definition larges (objs : list block) : list block := filter (fun b => ~ is_small b) objs.

Definition desc_pages (h : heap) : list block := (fun p => (pdc_addr p, PGSIZE)) <$> nodes h.
Definition cut_pages (pages : list (Z * Z)) : list block := (fun p => (p.1, PGSIZE)) <$> pages.

Definition own (h : heap) (pages : list (Z * Z)) (objs : list block) : list block :=
  desc_pages h ++ cut_pages pages ++ larges objs.

(** Object [o] of cache [i] lies in one of the cache's pages. *)
Definition slot (pages : list (Z * Z)) (i o : Z) : Prop :=
  exists p k, (p, i) ∈ pages /\ 0 <= k < PGSIZE / obj_size i /\ o = p + k * obj_size i.

(** The descriptor a free object names is that of its page. *)
Definition fo_ok (fo : gmap Z Z) (ds : gmap Z alloc_page_desc) (o : Z) : Prop :=
  exists n, fo !! o = Some n /\ (n = 0 \/ exists d, ds !! n = Some d /\ apd_page d = o / PGSIZE * PGSIZE).

Definition count (i : Z) (live : list (Z * Z)) : Z := Z.of_nat (length (filter (fun x => x.2 = i) live)).

Record cache_inv (h : heap) (pages live : list (Z * Z)) (i : Z) (c : objcache) : Prop := {
  ci_size : oc_size c = obj_size i;
  ci_nodup : NoDup (oc_list c);
  ci_free o : o ∈ oc_list c -> slot pages i o /\ ~ (o, i) ∈ live /\ fo_ok (fo_node h) (apds h) o;
  ci_node : Forall (fun a => is_Some (apds h !! a)) (oc_node c);
  ci_some p : (p, i) ∈ pages -> oc_node c <> [];
  ci_alloced : oc_alloced c = obj_size i * count i live
}.

Record desc_inv (h : heap) : Prop := {
  di_nodes : Forall pdc_ok (nodes h);
  di_addrs : NoDup (pdc_addr <$> nodes h);
  di_free : free_nodes h = zsum (fun p => unused (pdc_used p)) (nodes h);
  di_apds a d : apds h !! a = Some d -> desc_taken (nodes h) a /\ length (apd_bits d) = 4%nat
}.

Record heap_inv (h : heap) (objs : list block) (pages : list (Z * Z)) : Prop := {
  hi_pool : pool_ok (default_pa h) (own h pages objs);
  hi_pages : NoDup (fst <$> pages);
  hi_desc : desc_inv h;
  hi_len : Z.of_nat (length (caches h)) = NUM_CACHES;
  hi_cache i c : 0 <= i -> caches h !! Z.to_nat i = Some c -> cache_inv h pages (smalls objs) i c;
  hi_live : NoDup (smalls objs);
  hi_slots x : x ∈ smalls objs -> slot pages x.2 x.1;
  hi_sizes : Forall (fun b => 0 <= b.2) objs
}.

Lemma cache_index_spec n : forall i size,
  0 <= i -> size <= obj_size (i + Z.of_nat n - 1) ->
  (0 < n)%nat -> i <= cache_index n i size < i + Z.of_nat n /\ size <= obj_size (cache_index n i size).
Proof.
  induction n as [|n IH]; intros i size Hi Hs Hn; [lia|]. cbn [cache_index]. fold (obj_size i).
  destruct (Z.leb_spec size (obj_size i)); [lia|]. destruct n as [|n].
  - replace (i + Z.of_nat 1 - 1) with i in Hs by lia. lia.
  - destruct (IH (i + 1) size); [lia| |lia|lia]. by replace (i + 1 + Z.of_nat (S n) - 1) with (i + Z.of_nat (S (S n)) - 1) by lia.
Qed.

Lemma ix_spec size : size < 2 ^ LOG_MAX_OBJ_SIZE -> 0 <= ix size < NUM_CACHES /\ size <= obj_size (ix size).
Proof.
  intros H. destruct (cache_index_spec (Z.to_nat NUM_CACHES) 0 size) as [H1 H2]; [done| |cbv; lia|by split].
  change (obj_size (0 + Z.of_nat (Z.to_nat NUM_CACHES) - 1)) with (2 ^ LOG_MAX_OBJ_SIZE). lia.
Qed.

(** The sizes of the caches divide the page. *)
Lemma obj_size_cases i :
  0 <= i < NUM_CACHES -> obj_size i ∈ [32; 64; 128; 256; 512; 1024; 2048] /\ PGSIZE = PGSIZE / obj_size i * obj_size i.
Proof.
  intros Hi. change NUM_CACHES with 7 in Hi.
  assert (i = 0 \/ i = 1 \/ i = 2 \/ i = 3 \/ i = 4 \/ i = 5 \/ i = 6) as Hc by lia.
  destruct Hc as [-> | [-> | [-> | [-> | [-> | [-> | ->]]]]]]; (split; [|reflexivity]); cbv - [elem_of]; lmem.
Qed.

Lemma obj_size_bounds i : 0 <= i < NUM_CACHES -> 32 <= obj_size i <= 2048 /\ PGSIZE = PGSIZE / obj_size i * obj_size i.
Proof.
  intros Hi. destruct (obj_size_cases i Hi) as [Hc E]. split; [|done].
  rewrite !elem_of_cons, elem_of_nil in Hc. lia.
Qed.

(** An object lies in its page, clear of the others. *)
Lemma slot_page pa o_ pages i o :
  pool_ok pa o_ -> (forall p, p ∈ cut_pages pages -> p ∈ o_) -> 0 <= i < NUM_CACHES -> slot pages i o ->
  (o / PGSIZE * PGSIZE, i) ∈ pages /\ o / PGSIZE * PGSIZE <= o /\ o + obj_size i <= o / PGSIZE * PGSIZE + PGSIZE /\
  0 <= o / PGSIZE * PGSIZE < 2 ^ 63 - PGSIZE /\ (obj_size i | o).
Proof.
  intros Hp Hin Hi (p & k & Hpg & Hk & ->). destruct (obj_size_bounds i Hi) as [Hs E].
  destruct (pool_page pa o_ p Hp) as [[q Hq] Hr].
  { apply Hin. unfold cut_pages. apply list_elem_of_fmap. by exists (p, i). }
  assert (0 <= k * obj_size i /\ k * obj_size i + obj_size i <= PGSIZE) as [H1 H2] by nia.
  assert ((p + k * obj_size i) / PGSIZE * PGSIZE = p) as Ep.
  { rewrite Hq, (Z.add_comm (q * PGSIZE)), Z.div_add by done. rewrite Z.div_small by lia. done. }
  rewrite Ep. split_and!; try done; try lia.
  apply Z.divide_add_r; [|apply Z.divide_factor_r]. rewrite Hq, E. exists (q * (PGSIZE / obj_size i)). lia.
Qed.

Lemma smalls_cons_small b l : is_small b -> smalls (b :: l) = (b.1, ix b.2) :: smalls l.
Proof. intros H. unfold smalls. by rewrite filter_cons_True. Qed.
Lemma smalls_cons_large b l : ~ is_small b -> smalls (b :: l) = smalls l.
Proof. intros H. unfold smalls. by rewrite filter_cons_False. Qed.
Lemma larges_cons_small b l : is_small b -> larges (b :: l) = larges l.
Proof. intros H. unfold larges. rewrite filter_cons_False; [done|tauto]. Qed.
Lemma larges_cons_large b l : ~ is_small b -> larges (b :: l) = b :: larges l.
Proof. intros H. unfold larges. by rewrite filter_cons_True. Qed.

Lemma elem_of_smalls b l : is_small b -> b ∈ l -> (b.1, ix b.2) ∈ smalls l.
Proof. intros Hs Hb. unfold smalls. apply list_elem_of_fmap. exists b. split; [done|]. by apply list_elem_of_filter. Qed.

Section Slots.
Context (pa : pg_alloc) (o_ : list block) (pages : list (Z * Z)).
Hypothesis Hp : pool_ok pa o_.
Hypothesis Hin : forall p, p ∈ cut_pages pages -> p ∈ o_.
Hypothesis Hnd : NoDup (fst <$> pages).

Lemma page_owner p i j : (p, i) ∈ pages -> (p, j) ∈ pages -> i = j.
Proof.
  intros Hi Hj. clear - Hnd Hi Hj. induction pages as [|[q k] l IH]; [by apply elem_of_nil in Hi|].
  rewrite fmap_cons in Hnd. inversion_clear Hnd as [|? ? Hq Hl].
  apply elem_of_cons in Hi as [Hi|Hi], Hj as [Hj|Hj]; simplify_eq; auto.
  - destruct Hq. by apply (list_elem_of_fmap_2 fst l (q, j)).
  - destruct Hq. by apply (list_elem_of_fmap_2 fst l (q, i)).
Qed.

(** Different objects do not overlap, and an address is an object of one cache only. *)
Lemma slots_disjoint i o j o' :
  0 <= i < NUM_CACHES -> 0 <= j < NUM_CACHES -> slot pages i o -> slot pages j o' ->
  (o, i) = (o', j) \/ o + obj_size i <= o' \/ o' + obj_size j <= o.
Proof.
  intros Hi Hj Ho Ho'. destruct (slot_page pa o_ pages i o Hp Hin Hi Ho) as (Ha & Hb & Hc & Hd & [u Hu]).
  destruct (slot_page pa o_ pages j o' Hp Hin Hj Ho') as (Ha' & Hb' & Hc' & Hd' & [v Hv]).
  destruct (decide (o / PGSIZE = o' / PGSIZE)) as [E|Hne].
  - rewrite <- E in Ha'. pose proof (page_owner _ _ _ Ha Ha') as <-.
    destruct (obj_size_bounds i Hi) as [Hs _].
    destruct (decide (u = v)) as [->|]; [left; congruence|]. right. rewrite Hu, Hv. nia.
  - right. change PGSIZE with 4096 in *. lia.
Qed.

Lemma slot_clear i o b :
  0 <= i < NUM_CACHES -> slot pages i o -> (forall p, p ∈ cut_pages pages -> blocks_disjoint p b) ->
  o + obj_size i <= b.1 \/ b.1 + b.2 <= o.
Proof.
  intros Hi Ho Hd. destruct (slot_page pa o_ pages i o Hp Hin Hi Ho) as (Ha & Hb & Hc & _).
  assert (blocks_disjoint (o / PGSIZE * PGSIZE, PGSIZE) b) as [H|H]; [|simpl in H; lia..].
  apply Hd. unfold cut_pages. apply list_elem_of_fmap. by eexists (_, i).
Qed.

(** Objects in different slots, and blocks clear of the pages and of each other,
    are disjoint. *)
Lemma objs_disjoint objs :
  NoDup (smalls objs) -> (forall x, x ∈ smalls objs -> slot pages x.2 x.1) ->
  (forall p b, p ∈ cut_pages pages -> b ∈ larges objs -> blocks_disjoint p b) ->
  ForallOrdPairs blocks_disjoint (larges objs) -> ForallOrdPairs blocks_disjoint objs.
Proof.
  induction objs as [|x l IH]; intros Hs Hslot Hclear Hl; [constructor|].
  destruct (decide (is_small x)) as [Hx|Hx].
  - rewrite smalls_cons_small in Hs, Hslot by done. rewrite larges_cons_small in Hclear, Hl by done.
    inversion_clear Hs as [|? ? Hfresh Hs']. pose proof (ix_spec x.2 Hx) as [Hix Hle].
    pose proof (Hslot _ (list_elem_of_here _ _)) as Hxs. simpl in Hxs.
    constructor; [|apply IH; auto; intros y Hy; apply Hslot, elem_of_cons; by right].
    apply Forall_forall. intros y Hy. unfold blocks_disjoint. destruct (decide (is_small y)) as [Hys|Hyl].
    + pose proof (elem_of_smalls y l Hys Hy) as Hyin. pose proof (ix_spec y.2 Hys) as [Hiy Hley].
      destruct (slots_disjoint (ix x.2) x.1 (ix y.2) y.1) as [E|Hd]; try done; [|by rewrite E in Hfresh|lia].
      apply (Hslot (y.1, ix y.2)), elem_of_cons. by right.
    + destruct (slot_clear (ix x.2) x.1 y) as [H'|H']; try done; [|lia|lia].
      intros p Hpp. apply Hclear; [done|]. by apply list_elem_of_filter.
  - rewrite smalls_cons_large in Hs, Hslot by done. rewrite larges_cons_large in Hclear, Hl by done.
    inversion_clear Hl as [|? ? Hxl Hl']. constructor.
    2: { apply IH; auto. intros p b H1 H2. apply Hclear; [done|]. apply elem_of_cons. by right. }
    apply Forall_forall. intros y Hy. destruct (decide (is_small y)) as [Hys|Hyl].
    + pose proof (ix_spec y.2 Hys) as [Hiy Hley].
      destruct (slot_clear (ix y.2) y.1 x) as [H'|H']; try done; [| |right; lia|left; lia].
      * apply (Hslot (y.1, ix y.2)). by apply elem_of_smalls.
      * intros p Hpp. apply Hclear; [done|]. apply elem_of_cons. by left.
    + rewrite Forall_forall in Hxl. apply Hxl. by apply list_elem_of_filter.
Qed.
End Slots.

(** ** Descriptors *)
Lemma desc_aligned h pages objs q :
  pool_ok (default_pa h) (own h pages objs) -> q ∈ nodes h -> (PGSIZE | pdc_addr q) /\ 0 <= pdc_addr q < 2 ^ 63 - PGSIZE.
Proof.
  intros Hp Hq. apply (pool_page _ _ _ Hp). unfold own, desc_pages. apply elem_of_app. left.
  apply list_elem_of_fmap. by exists q.
Qed.

Lemma take_apd h :
  desc_inv h -> (forall q, q ∈ nodes h -> (PGSIZE | pdc_addr q)) -> free_nodes h <> 0 ->
  exists a l, take_desc (nodes h) = Ok (Some a, l) /\ apds h !! a = None /\ pdc_addr <$> l = pdc_addr <$> nodes h /\
    desc_inv (put_apd (set_nodes h l (free_nodes h - 1)) a (Apd 0 [0; 0; 0; 0])).
Proof.
  intros [Hok Hnd Hfree Hapds] Hal Hpos.
  pose proof (zsum_nonneg (fun p => unused (pdc_used p)) (nodes h) (fun p => unused_nonneg (pdc_used p))).
  destruct (take_desc_spec (nodes h)) as (p & k & l & -> & Hp & Hk & Hu & Hl & Hadr & Hsum & Ht & Hkeep); [done|lia|].
  eexists _, l. split; [done|]. split.
  { destruct (apds h !! _) as [d|] eqn:E; [|done]. destruct (fresh_desc (nodes h) p k); auto. by eapply Hapds. }
  split; [done|]. constructor; simpl; [done|by rewrite Hadr|lia|]. intros a d. rewrite lookup_insert.
  case_decide as Ha; [subst a; intros [= <-]; done|]. intros Hd. destruct (Hapds a d Hd). auto.
Qed.

(** A page of descriptors is added. *)
Lemma desc_page_added h pages objs p pa :
  desc_inv h -> free_nodes h = 0 -> pool_ok pa ((p, PGSIZE) :: own h pages objs) ->
  let h' := set_nodes (set_pa h pa) (Pdc p [2 ^ hdr_descs - 1; 0; 0] :: nodes h) (free_nodes h + (HDR_PAGE_COUNT - hdr_descs)) in
  desc_inv h' /\ pool_ok (default_pa h') (own h' pages objs) /\ free_nodes h' <> 0.
Proof.
  intros [Hok Hnd Hfree Hapds] H0 Hpool h'. destruct (pool_page _ _ p Hpool) as [Hal Hr]; [apply list_elem_of_here|].
  split; [|split; [exact Hpool|subst h'; simpl; rewrite H0; done]]. constructor; simpl.
  - constructor; [|done]. split; [split; [done|repeat constructor; done]|]. simpl. change PGSIZE with 4096 in *. lia.
  - constructor; [|done]. intros Hin. apply list_elem_of_fmap in Hin as (q & -> & Hq).
    destruct Hpool as ((_ & _ & Hd) & _). simpl in Hd. inversion_clear Hd as [|? ? Hx _]. rewrite Forall_forall in Hx.
    assert (blocks_disjoint (pdc_addr q, PGSIZE) (pdc_addr q, PGSIZE)) as [H|H];
      [apply Hx|change PGSIZE with 4096 in H; simpl in H; lia..].
    unfold own, desc_pages. apply elem_of_app. left. apply list_elem_of_fmap. by exists q.
  - rewrite <- Hfree, H0. reflexivity.
  - intros a d Hd. destruct (Hapds a d Hd) as [(q & k & Hq & Hk) Hl]. split; [|done].
    exists q, k. split; [apply elem_of_cons; by right|done].
Qed.

Lemma pages_of_addrs (l : list page_desc_cache) : (fun p => (pdc_addr p, PGSIZE)) <$> l = (fun a => (a, PGSIZE)) <$> (pdc_addr <$> l).
Proof. induction l as [|p l IH]; [done|]. rewrite !fmap_cons, IH. done. Qed.

Lemma new_alloc_page_desc_spec h pages objs :
  desc_inv h -> pool_ok (default_pa h) (own h pages objs) ->
  (new_alloc_page_desc h = Fault Out_of_bounds /\ ~ one_page (default_pa h)) \/
  exists a h', new_alloc_page_desc h = Ok (a, h') /\ (two_pages (default_pa h) -> one_page (default_pa h')) /\ desc_inv h' /\ pool_ok (default_pa h') (own h' pages objs) /\
    apds h !! a = None /\ apds h' = <[a := Apd 0 [0; 0; 0; 0]]> (apds h) /\ caches h' = caches h /\
    fo_node h' = fo_node h /\ mem h' = mem h.
Proof.
  intros Hd Hpool. unfold new_alloc_page_desc.
  assert (forall h1, desc_inv h1 -> pool_ok (default_pa h1) (own h1 pages objs) -> free_nodes h1 <> 0 ->
    exists a l, take_desc (nodes h1) = Ok (Some a, l) /\ apds h1 !! a = None /\
      desc_inv (put_apd (set_nodes h1 l (free_nodes h1 - 1)) a (Apd 0 [0; 0; 0; 0])) /\
      pool_ok (default_pa h1) (own (set_nodes h1 l (free_nodes h1 - 1)) pages objs)) as Htake.
  { intros h1 Hd1 Hp1 Hf1. destruct (take_apd h1 Hd1) as (a & l & Ht & Hn & Hadr & Hd'); [|done|].
    - intros q Hq. by eapply desc_aligned.
    - exists a, l. split_and!; try done. unfold own, desc_pages in *. simpl.
      by rewrite pages_of_addrs, Hadr, <- pages_of_addrs. }
  destruct (Z.eqb_spec (free_nodes h) 0) as [E|Hne].
  - destruct (need_page_spec h _ Hpool) as [[-> Hno] | (p & pa & -> & Hpool' & Htwo)]; [by left|]. right. cbn [res_bind].
    destruct (desc_page_added h pages objs p pa Hd E Hpool') as (Hd1 & Hp1 & Hf1).
    destruct (Htake _ Hd1 Hp1 Hf1) as (a & l & Ht & Hn & Hd' & Hpool2). setoid_rewrite Ht. cbn [res_bind].
    eexists a, _. split; [done|]. split; [exact Htwo|]. by split_and!.
  - right. cbn [res_bind]. destruct (Htake h Hd Hpool Hne) as (a & l & -> & Hn & Hd' & Hpool2).
    eexists a, _. split; [done|]. split; [intros (p & _ & _ & Hp & _); by exists p|]. by split_and!.
Qed.

(** ** Refilling a cache *)
Definition with_cache (h : heap) (i : Z) (c : objcache) : heap :=
  Heap (default_pa h) (<[Z.to_nat i := c]> (caches h)) (nodes h) (free_nodes h) (apds h) (fo_node h) (mem h).

Lemma put_cache_ok h i c : 0 <= i < Z.of_nat (length (caches h)) -> put_cache h i c = Ok (with_cache h i c).
Proof. intros Hi. unfold put_cache. by rewrite aset_ok by done. Qed.

(** What a cache keeps when the rest of the allocator changes. *)
Lemma cache_inv_frame h h' pages pages' live live' j c :
  cache_inv h pages live j c ->
  (forall x, x ∈ pages -> x ∈ pages') -> (forall p, (p, j) ∈ pages' -> (p, j) ∈ pages) ->
  (forall n d, apds h !! n = Some d -> exists d', apds h' !! n = Some d' /\ apd_page d' = apd_page d) ->
  (forall o, slot pages j o -> o ∈ oc_list c -> fo_node h' !! o = fo_node h !! o) ->
  (forall o, (o, j) ∈ live' -> (o, j) ∈ live) -> count j live' = count j live ->
  cache_inv h' pages' live' j c.
Proof.
  intros [Hs Hnd Hf Hn Hsome Ha] Hpg Hpg' Hd Hfo Hlive Hc. constructor; auto.
  - intros o Ho. destruct (Hf o Ho) as (Hsl & Hnl & n & Hn1 & Hn2). split; [|split].
    + destruct Hsl as (p & k & Hp & Hk). exists p, k. auto.
    + auto.
    + exists n. rewrite Hfo by done. split; [done|]. destruct Hn2 as [->|(d & Hd1 & Hd2)]; [by left|]. right.
      destruct (Hd n d Hd1) as (d' & Hd' & E). exists d'. by rewrite E.
  - eapply Forall_impl; [exact Hn|]. intros a [d Ha']. simpl in *. destruct (Hd a d Ha') as (d' & -> & _). by eexists.
  - intros p Hp. by eapply Hsome, Hpg'.
  - by rewrite Hc.
Qed.

Lemma foldr_insert_lookup (l : list Z) (a : Z) (f : gmap Z Z) o :
  foldr (fun o f => <[o := a]> f) f l !! o = if decide (o ∈ l) then Some a else f !! o.
Proof.
  induction l as [|x l IH]; cbn [foldr]; [case_decide as H; [by apply elem_of_nil in H|done]|].
  rewrite lookup_insert, IH. repeat case_decide; subst; try done; rewrite elem_of_cons in *; naive_solver.
Qed.

Lemma elem_of_page_objs p size o :
  o ∈ page_objs p size <-> exists k, 0 <= k < PGSIZE / size /\ o = p + k * size.
Proof.
  unfold page_objs. rewrite list_elem_of_fmap. split.
  - intros (k & -> & Hk). apply elem_of_seqZ in Hk. exists k. split; [lia|done].
  - intros (k & Hk & ->). exists k. split; [done|]. apply elem_of_seqZ. lia.
Qed.

Lemma NoDup_page_objs p size : 0 < size -> NoDup (page_objs p size).
Proof. intros Hs. apply NoDup_fmap_2; [|apply NoDup_seqZ]. intros x y E. nia. Qed.

Lemma own_new_page h pages objs p i :
  own h ((p, i) :: pages) objs ≡ₚ (p, PGSIZE) :: own h pages objs.
Proof. unfold own, cut_pages. rewrite fmap_cons. symmetry. apply Permutation_middle. Qed.

Lemma new_page_fresh h pa pages objs p :
  pool_ok pa ((p, PGSIZE) :: own h pages objs) -> forall j, (p, j) ∉ pages.
Proof.
  intros ((_ & _ & Hd) & _) j Hin. simpl in Hd. inversion_clear Hd as [|? ? Hx _]. rewrite Forall_forall in Hx.
  assert (blocks_disjoint (p, PGSIZE) (p, PGSIZE)) as [H|H]; [apply Hx|change PGSIZE with 4096 in H; simpl in H; lia..].
  unfold own. rewrite !elem_of_app. right. left. unfold cut_pages. apply list_elem_of_fmap. by exists (p, j).
Qed.

Lemma cut_pages_own h pages objs b : b ∈ cut_pages pages -> b ∈ own h pages objs.
Proof. intros H. unfold own. rewrite !elem_of_app. auto. Qed.

Lemma page_obj_page p i o :
  0 <= i < NUM_CACHES -> (PGSIZE | p) -> o ∈ page_objs p (obj_size i) -> o / PGSIZE * PGSIZE = p.
Proof.
  intros Hi [q Hq] Ho. destruct (obj_size_bounds i Hi) as [Hs E]. apply elem_of_page_objs in Ho as (k & Hk & ->).
  rewrite Hq, (Z.add_comm (q * PGSIZE)), Z.div_add by done. rewrite Z.div_small by nia. done.
Qed.

Lemma refill_new h objs pages i c :
  heap_inv h objs pages -> 0 <= i < NUM_CACHES -> caches h !! Z.to_nat i = Some c -> oc_list c = [] ->
  (refill h i c = Fault Out_of_bounds /\ ~ two_pages (default_pa h)) \/
  exists c' h' pages', refill h i c = Ok (c', h') /\ heap_inv (with_cache h' i c') objs pages' /\ oc_list c' <> [] /\
    caches h' = caches h /\ mem h' = mem h.
Proof.
  intros [Hpool Hpgs Hdesc Hlen Hc Hlive Hslots Hsz] Hi Hci El. unfold refill. rewrite El.
  destruct (new_alloc_page_desc_spec h pages objs Hdesc Hpool) as [[-> Hno] | (a & h1 & -> & Htwo & Hd1 & Hp1 & Ha & Hapds & E1 & E2 & E3)].
  { left. split; [done|]. intros (p & _ & _ & Hp & _). apply Hno. by exists p. }
  cbn [res_bind]. destruct (need_page_spec h1 _ Hp1) as [[-> Hno] | (p & pa & -> & Hp2 & _)]; [left; auto|]. cbn [res_bind apds set_pa].
  assert (apds h1 !! a = Some (Apd 0 [0; 0; 0; 0])) as -> by (rewrite Hapds; apply lookup_insert_eq). cbn [of_option res_bind]. right. eexists _, _, ((p, i) :: pages).
  split; [done|]. pose proof (new_page_fresh _ _ _ _ _ Hp2) as Hfresh.
  destruct (pool_page _ _ p Hp2) as [Hal Hpr]; [apply list_elem_of_here|].
  pose proof (Hc i c (proj1 Hi) Hci) as Hcinv. rewrite (ci_size _ _ _ _ _ Hcinv).
  destruct (obj_size_bounds i Hi) as [Hs Epg].
  assert (forall j o, 0 <= j < NUM_CACHES -> slot pages j o -> o ∉ page_objs p (obj_size i)) as Hother.
  { intros j o Hj Ho Hin. destruct (slot_page _ _ pages j o Hpool (fun _ => cut_pages_own _ _ _ _) Hj Ho) as [Hpg _].
    rewrite (page_obj_page p i o) in Hpg by done. by apply (Hfresh j). }
  assert (forall n d, apds h !! n = Some d -> n <> a) as Hna by (intros n d Hn ->; congruence).
  split; [|split; [|by simpl]].
  2: { simpl. intros E. assert (p ∈ page_objs p (obj_size i)) as Hin; [|rewrite E in Hin; by apply elem_of_nil in Hin].
       apply elem_of_page_objs. exists 0. assert (0 < PGSIZE) by done. split; [nia|lia]. }
  constructor; simpl; try done.
  - eapply pool_ok_perm; [symmetry; apply own_new_page|]. exact Hp2.
  - constructor; [|done]. intros Hin. apply list_elem_of_fmap in Hin as ([q j] & -> & Hq). by apply (Hfresh j).
  - destruct Hd1 as [G1 G2 G3 G4]. constructor; simpl; try done. intros n d. rewrite lookup_insert.
    case_decide as E; [|by apply G4]. subst n. intros [= <-]. simpl. split; [|done].
    by apply (G4 a (Apd 0 [0; 0; 0; 0])); rewrite Hapds, lookup_insert_eq.
  - by rewrite length_insert, E1.
  - intros j cj Hj Hl. assert (0 <= j < NUM_CACHES) as Hj7.
    { apply lookup_lt_Some in Hl. rewrite length_insert, E1 in Hl. lia. }
    destruct (decide (j = i)) as [->|Hji].
    + rewrite list_lookup_insert_eq in Hl by (apply lookup_lt_Some in Hci; by rewrite E1). injection Hl as <-.
      constructor; simpl; try done.
      * apply NoDup_page_objs. lia.
      * intros o Ho. pose proof (page_obj_page p i o Hi Hal Ho) as Hop. split; [|split].
        -- apply elem_of_page_objs in Ho as (k & Hk). exists p, k. split; [apply list_elem_of_here|done].
        -- intros Hin. by apply (Hother i o Hi (Hslots _ Hin)).
        -- exists a. rewrite foldr_insert_lookup, decide_True by done. split; [done|]. right. eexists.
           by rewrite lookup_insert_eq.
      * constructor; [by rewrite lookup_insert_eq|]. eapply Forall_impl; [apply Hcinv|]. intros n [d Hn]. simpl in *.
        rewrite lookup_insert_ne, Hapds, lookup_insert_ne by (symmetry; by eapply Hna). by eexists.
      * apply Hcinv.
    + rewrite list_lookup_insert_ne, E1 in Hl by lia. eapply cache_inv_frame; [by apply (Hc j)|..]; simpl; try done.
      * intros x Hx. apply elem_of_cons. by right.
      * intros q Hq. apply elem_of_cons in Hq as [[= ? ?]|]; done.
      * intros n d Hn. exists d. by rewrite lookup_insert_ne, Hapds, lookup_insert_ne by (symmetry; by eapply Hna).
      * intros o Ho _. rewrite foldr_insert_lookup, decide_False, E2 by by eapply Hother. done.
  - intros x Hx. destruct (Hslots x Hx) as (q & k & Hq & Hk). exists q, k. split; [apply elem_of_cons; by right|done].
Qed.

Lemma with_cache_id h i c : caches h !! Z.to_nat i = Some c -> with_cache h i c = h.
Proof. intros H. destruct h. unfold with_cache. simpl in *. by rewrite list_insert_id. Qed.

Lemma refill_spec h objs pages i c :
  heap_inv h objs pages -> 0 <= i < NUM_CACHES -> caches h !! Z.to_nat i = Some c ->
  (refill h i c = Fault Out_of_bounds /\ ~ two_pages (default_pa h)) \/
  exists c' h' pages', refill h i c = Ok (c', h') /\ heap_inv (with_cache h' i c') objs pages' /\ oc_list c' <> [] /\
    length (caches h') = length (caches h) /\ mem h' = mem h.
Proof.
  intros Hinv Hi Hci. destruct (oc_list c) as [|o l] eqn:El.
  - destruct (refill_new h objs pages i c Hinv Hi Hci El) as [|(c' & h' & pages' & H1 & H2 & H3 & H4 & H5)]; [by left|].
    right. exists c', h', pages'. by rewrite H4.
  - right. exists c, h, pages. unfold refill. rewrite El. rewrite with_cache_id by done. done.
Qed.

(** ** Objects in use are few enough for the count of bytes not to wrap *)
Lemma live_bytes pa o_ pages i live :
  pool_ok pa o_ -> (forall p, p ∈ cut_pages pages -> p ∈ o_) -> 0 <= i < NUM_CACHES ->
  NoDup live -> (forall x, x ∈ live -> slot pages x.2 x.1) -> obj_size i * count i live <= 2 ^ 63.
Proof.
  intros Hp Hin Hi Hnd Hsl. destruct (obj_size_bounds i Hi) as [Hs _]. unfold count.
  set (l := filter (fun x => x.2 = i) live).
  assert (forall x, x ∈ l -> x.2 = i /\ (obj_size i | x.1) /\ 0 <= x.1 /\ x.1 + obj_size i <= 2 ^ 63) as Hl.
  { intros x Hx. apply list_elem_of_filter in Hx as [E Hx]. specialize (Hsl x Hx). rewrite E in Hsl.
    destruct (slot_page _ _ _ _ _ Hp Hin Hi Hsl) as (_ & H1 & H2 & H3 & H4). change PGSIZE with 4096 in *. split_and!; try done; lia. }
  assert (Z.of_nat (length l) <= 2 ^ 63 / obj_size i) as Hle; [|pose proof (Z.mul_div_le (2 ^ 63) (obj_size i)); nia].
  enough (length ((fun x => (x.1 / obj_size i)%Z) <$> l) <= length (seqZ 0 (2 ^ 63 / obj_size i)))%nat as H.
  { rewrite length_fmap, length_seqZ in H. pose proof (Z.div_pos (2 ^ 63) (obj_size i)). lia. }
  apply submseteq_length, NoDup_submseteq.
  - assert (NoDup l) as Hndl by (by apply NoDup_filter). clear - Hndl Hl Hs.
    induction Hndl as [|x l Hx Hndl IH]; [constructor|]. rewrite fmap_cons. constructor.
    + intros Hin. apply list_elem_of_fmap in Hin as (y & E & Hy). apply Hx.
      destruct (Hl x (list_elem_of_here _ _)) as (E1 & [u Hu] & _), (Hl y) as (E2 & [v Hv] & _); [apply elem_of_cons; by right|].
      rewrite Hu, Hv, !Z.div_mul in E by lia. destruct x, y. simpl in *. by subst.
    + apply IH. intros y Hy. apply Hl, elem_of_cons. by right.
  - intros q Hq. apply list_elem_of_fmap in Hq as (x & -> & Hx). destruct (Hl x Hx) as (_ & [u Hu] & Hr).
    apply elem_of_seqZ. rewrite Hu, Z.div_mul by lia. split; [nia|].
    apply Z.lt_le_trans with (u + 1); [lia|]. apply Z.div_le_lower_bound; [lia|]. nia.
Qed.

(** ** The bits of a page *)
Lemma set_apd_bit_ok d idx b :
  length (apd_bits d) = 4%nat -> 0 <= idx < 128 ->
  exists d', set_apd_bit d idx b = Ok d' /\ apd_page d' = apd_page d /\ length (apd_bits d') = 4%nat.
Proof.
  intros Hl Hi. unfold set_apd_bit. destruct (aget_is_ok (apd_bits d) (idx / 32)) as [w ->]; [rewrite Hl; dlia|].
  cbn [res_bind]. rewrite aset_ok by (rewrite Hl; dlia). eexists. split; [done|]. split; [done|]. simpl. by rewrite length_insert.
Qed.

Lemma heap_inv_put_bit h objs pages n d d' :
  heap_inv h objs pages -> apds h !! n = Some d -> apd_page d' = apd_page d -> length (apd_bits d') = 4%nat ->
  heap_inv (put_apd h n d') objs pages.
Proof.
  intros [Hpool Hpgs Hdesc Hlen Hc Hlive Hslots Hsz] Hn Ep El. constructor; try done.
  - destruct Hdesc as [G1 G2 G3 G4]. constructor; try done. intros m e. simpl. rewrite lookup_insert.
    case_decide as E; [|by apply G4]. subst m. intros [= <-]. split; [by eapply G4|done].
  - intros j cj Hj Hl. eapply cache_inv_frame; [by apply Hc|..]; simpl; try done.
    intros m e Hm. rewrite lookup_insert. case_decide; subst; [|by exists e]. exists d'. split; [done|]. congruence.
Qed.

Lemma obj_index i o p :
  0 <= i < NUM_CACHES -> 0 <= p -> p = o / PGSIZE * PGSIZE -> 0 <= (o - p) / obj_size i < 128.
Proof.
  intros Hi Hp ->. destruct (obj_size_bounds i Hi) as [Hs _]. change PGSIZE with 4096 in *.
  assert (0 <= o - o / 4096 * 4096 < 4096) by dlia. split; [apply Z.div_pos; lia|]. apply Z.div_lt_upper_bound; lia.
Qed.

Lemma obj_masks o : is_u64 o ->
  Z.land o (PGSIZE - 1) = o - o / PGSIZE * PGSIZE /\ Z.land o (not64 (PGSIZE - 1)) = o / PGSIZE * PGSIZE.
Proof.
  intros Ho. change (PGSIZE - 1) with (Z.ones LOG_PGSIZE). split.
  - rewrite Z.land_ones by done. change (2 ^ LOG_PGSIZE) with PGSIZE. pose proof (Z.div_mod o PGSIZE ltac:(done)). lia.
  - rewrite land_not_ones by done. done.
Qed.

Lemma heap_slot h objs pages i o :
  heap_inv h objs pages -> 0 <= i < NUM_CACHES -> slot pages i o ->
  (o / PGSIZE * PGSIZE, i) ∈ pages /\ o / PGSIZE * PGSIZE <= o /\ o + obj_size i <= o / PGSIZE * PGSIZE + PGSIZE /\
  0 <= o / PGSIZE * PGSIZE < 2 ^ 63 - PGSIZE /\ (obj_size i | o).
Proof. intros Hinv. apply (slot_page (default_pa h) (own h pages objs)); [apply Hinv|apply cut_pages_own]. Qed.

Lemma mark_used_spec h objs pages i c o rest :
  heap_inv (with_cache h i c) objs pages -> 0 <= i < NUM_CACHES -> (Z.to_nat i < length (caches h))%nat ->
  oc_list c = o :: rest ->
  exists ds, mark_used h o (obj_size i) = Ok (Heap (default_pa h) (caches h) (nodes h) (free_nodes h) ds (fo_node h) (mem h)) /\
    heap_inv (with_cache (Heap (default_pa h) (caches h) (nodes h) (free_nodes h) ds (fo_node h) (mem h)) i c) objs pages.
Proof.
  intros Hinv Hi Hlen El. assert (caches (with_cache h i c) !! Z.to_nat i = Some c) as Hci by (by apply list_lookup_insert_eq).
  pose proof (hi_cache _ _ _ Hinv i c (proj1 Hi) Hci) as Hc.
  destruct (ci_free _ _ _ _ _ Hc o) as (Hsl & _ & n & Hn & Hd); [rewrite El; apply list_elem_of_here|].
  destruct (heap_slot _ _ _ i o Hinv Hi Hsl) as (_ & H1 & H2 & H3 & _).
  destruct (obj_masks o) as [M1 M2]; [unfold is_u64; pose proof (proj1 (obj_size_bounds i Hi)); lia|].
  unfold mark_used. simpl in Hn. rewrite Hn. cbn [of_option res_bind]. destruct (Z.eqb_spec n 0) as [E|Hne].
  - exists (apds h). by destruct h.
  - destruct Hd as [?|(d & Hd & Hp)]; [done|]. simpl in Hd. rewrite Hd. cbn [of_option res_bind].
    destruct (set_apd_bit_ok d (Z.land o (PGSIZE - 1) / obj_size i) true) as (d' & -> & Ep & El').
    + apply (di_apds _ (hi_desc _ _ _ Hinv) n). exact Hd.
    + rewrite M1. apply obj_index; [done|lia|done].
    + cbn [res_bind]. rewrite M2, Ep, Hp, Z.eqb_refl. exists (<[n := d']> (apds h)). split; [done|].
      apply (heap_inv_put_bit (with_cache h i c) objs pages n d d'); done.
Qed.

(** ** Allocation *)
Lemma count_cons i o j live : count i ((o, j) :: live) = count i live + (if decide (j = i) then 1 else 0).
Proof. unfold count. rewrite filter_cons. simpl. repeat case_decide; simpl; try lia; congruence. Qed.

Lemma heap_inv_take h i c o rest objs pages size m :
  heap_inv (with_cache h i c) objs pages -> (Z.to_nat i < length (caches h))%nat -> oc_list c = o :: rest ->
  0 <= size < 2 ^ LOG_MAX_OBJ_SIZE -> i = ix size ->
  heap_inv (with_cache (set_fo (set_memory h m) (delete o (fo_node h))) i
    (Objcache (oc_node c) (oc_size c) rest (add64 (oc_alloced c) (oc_size c)))) ((o, size) :: objs) pages.
Proof.
  intros Hinv Hlen El Hsize Hix. destruct (ix_spec size) as [Hi Hle]; [lia|]. rewrite <- Hix in Hi, Hle.
  assert (caches (with_cache h i c) !! Z.to_nat i = Some c) as Hci by (by apply list_lookup_insert_eq).
  pose proof (hi_cache _ _ _ Hinv i c (proj1 Hi) Hci) as Hcinv. pose proof Hinv as [Hpool Hpgs Hdesc Hl Hc Hlive Hslots Hsz].
  destruct (ci_free _ _ _ _ _ Hcinv o) as (Hsl & Hnl & _); [rewrite El; apply list_elem_of_here|].
  assert (is_small (o, size)) as Hsm by (unfold is_small; simpl; lia).
  assert (NoDup (smalls ((o, size) :: objs))) as Hnd by (rewrite smalls_cons_small by done; simpl; rewrite <- Hix; by constructor).
  assert (forall x, x ∈ smalls ((o, size) :: objs) -> slot pages x.2 x.1) as Hsl'.
  { intros x. rewrite smalls_cons_small, elem_of_cons by done. simpl. rewrite <- Hix. intros [->|Hx]; [done|auto]. }
  pose proof (live_bytes _ _ _ i _ Hpool (fun _ => cut_pages_own _ _ _ _) Hi Hnd Hsl') as Hbytes.
  rewrite smalls_cons_small in Hbytes by done. simpl in Hbytes. rewrite <- Hix, count_cons, decide_True in Hbytes by done.
  constructor; simpl; try done.
  - unfold own. rewrite larges_cons_small by done. exact Hpool.
  - by destruct Hdesc.
  - simpl in Hl. by rewrite length_insert in *.
  - intros j cj Hj Hlj. rewrite smalls_cons_small by done. simpl. rewrite <- Hix. destruct (decide (j = i)) as [->|Hji].
    + rewrite list_lookup_insert_eq in Hlj by done. injection Hlj as <-. destruct Hcinv as [G1 G2 G3 G4 G5 G6].
      rewrite El in G2. inversion_clear G2 as [|? ? Hor Hrest]. constructor; simpl; try done.
      * intros o' Ho'. destruct (G3 o') as (H1 & H2 & n & H3 & H4); [rewrite El; apply elem_of_cons; by right|].
        assert (o' <> o) by (by intros ->). split; [done|]. split; [rewrite elem_of_cons; intros [[= ->]|]; done|].
        exists n. by rewrite lookup_delete_ne.
      * rewrite count_cons, decide_True, G6, G1 by done. rewrite add64_small; [lia|].
        unfold count in *. destruct (obj_size_bounds i Hi). nia.
    + rewrite list_lookup_insert_ne in Hlj by lia.
      assert (0 <= j < NUM_CACHES) as Hj7.
      { apply lookup_lt_Some in Hlj. simpl in Hl. rewrite length_insert in Hl. lia. }
      eapply cache_inv_frame; [apply (Hc j cj Hj); simpl; by rewrite list_lookup_insert_ne by lia|..]; simpl; try done.
      * intros n d Hd. by exists d.
      * intros o' Ho' _. apply lookup_delete_ne. intros ->.
        destruct (slots_disjoint _ _ _ Hpool (fun _ => cut_pages_own _ _ _ _) Hpgs i o' j o' Hi Hj7 Hsl Ho') as [[= ->]|Hd]; [done|].
        pose proof (proj1 (obj_size_bounds i Hi)). pose proof (proj1 (obj_size_bounds j Hj7)). lia.
      * intros o' Ho'. apply elem_of_cons in Ho' as [[= _ ->]|]; done.
      * rewrite count_cons, decide_False by congruence. lia.
  - by constructor; [simpl; lia|].
Qed.

Lemma cache_alloc_spec h objs pages size :
  heap_inv h objs pages -> 0 <= size < 2 ^ LOG_MAX_OBJ_SIZE ->
  (cache_alloc h (ix size) = Fault Out_of_bounds /\ ~ two_pages (default_pa h)) \/
  exists o h' pages', cache_alloc h (ix size) = Ok (o, h') /\ heap_inv h' ((o, size) :: objs) pages' /\
    mem h' = memset (mem h) o 0 (obj_size (ix size)).
Proof.
  intros Hinv Hsize. destruct (ix_spec size) as [Hi _]; [lia|]. set (i := ix size) in *. unfold cache_alloc.
  pose proof (hi_len _ _ _ Hinv) as Hlen. destruct (aget_is_ok (caches h) i) as [c Hc]; [lia|]. rewrite Hc.
  apply aget_inv in Hc as [_ Hc]. cbn [res_bind].
  destruct (refill_spec h objs pages i c Hinv Hi Hc) as [[-> Hno] | (c' & h1 & pages' & -> & Hinv1 & Hne & Hl1 & Hm1)]; [by left|].
  right. cbn [res_bind]. destruct (oc_list c') as [|o rest] eqn:El; [done|].
  assert (Z.to_nat i < length (caches h1))%nat as Hi1 by lia.
  assert (oc_size c' = obj_size i) as Es.
  { apply (hi_cache _ _ _ Hinv1 i c' (proj1 Hi)). by apply list_lookup_insert_eq. }
  rewrite Es. destruct (mark_used_spec h1 objs pages' i c' o rest Hinv1 Hi Hi1 El) as (ds & -> & Hinv2). cbn [res_bind].
  rewrite put_cache_ok by (simpl; lia). cbn [res_bind]. eexists o, _, pages'. split; [done|]. split; [|by rewrite <- Hm1].
  pose proof (heap_inv_take _ i c' o rest objs pages' size (memset (mem h1) o 0 (obj_size i)) Hinv2 Hi1 El Hsize eq_refl) as H.
  rewrite Es in H. exact H.
Qed.

(** ** Freeing *)
Lemma smalls_perm l l' : l ≡ₚ l' -> smalls l ≡ₚ smalls l'.
Proof. intros H. unfold smalls. by rewrite H. Qed.

Lemma heap_inv_perm h objs objs' pages : objs ≡ₚ objs' -> heap_inv h objs pages -> heap_inv h objs' pages.
Proof.
  intros Hp [Hpool Hpgs Hdesc Hl Hc Hlive Hslots Hsz]. pose proof (smalls_perm _ _ Hp) as Hs. constructor; try done.
  - eapply pool_ok_perm; [|exact Hpool]. unfold own, larges. by rewrite Hp.
  - intros i c Hi Hci. eapply cache_inv_frame; [by apply Hc|..]; try done.
    + intros n d Hd. by exists d.
    + intros o Ho. by rewrite Hs.
    + unfold count. by rewrite Hs.
  - by rewrite <- Hs.
  - intros x Hx. apply Hslots. by rewrite Hs.
  - by rewrite <- Hp.
Qed.

Lemma heap_inv_give h c n o size objs pages :
  let i := ix size in
  heap_inv h ((o, size) :: objs) pages -> 0 <= size < 2 ^ LOG_MAX_OBJ_SIZE -> caches h !! Z.to_nat i = Some c ->
  (n = 0 \/ exists d, apds h !! n = Some d /\ apd_page d = o / PGSIZE * PGSIZE) ->
  oc_alloced c <> 0 /\
  heap_inv (with_cache (set_fo h (<[o := n]> (fo_node h))) i
    (Objcache (oc_node c) (oc_size c) (o :: oc_list c) (sub64 (oc_alloced c) (oc_size c)))) objs pages.
Proof.
  intros i Hinv Hsize Hci Hn. destruct (ix_spec size) as [Hi Hle]; [lia|]. fold i in Hi, Hle.
  pose proof Hinv as [Hpool Hpgs Hdesc Hl Hc Hlive Hslots Hsz]. pose proof (Hc i c (proj1 Hi) Hci) as Hcinv.
  pose proof (live_bytes _ _ _ i _ Hpool (fun _ => cut_pages_own _ _ _ _) Hi Hlive Hslots) as Hbytes.
  assert (is_small (o, size)) as Hsm by (unfold is_small; simpl; lia).
  rewrite smalls_cons_small in * by done. simpl in *. fold i in Hlive, Hslots, Hcinv, Hc, Hbytes.
  inversion_clear Hlive as [|? ? Hnew Hlive']. pose proof (Hslots _ (list_elem_of_here _ _)) as Hsl. simpl in Hsl.
  assert (count i ((o, i) :: smalls objs) = count i (smalls objs) + 1) as Ecount by (by rewrite count_cons, decide_True).
  assert (0 <= count i (smalls objs)) as Hpos by (unfold count; lia).
  destruct (obj_size_bounds i Hi) as [Hs _]. destruct Hcinv as [G1 G2 G3 G4 G5 G6]. split; [rewrite G6, Ecount; nia|].
  constructor; simpl; try done.
  - unfold own in Hpool. rewrite larges_cons_small in Hpool by done. exact Hpool.
  - by destruct Hdesc.
  - by rewrite length_insert.
  - intros j cj Hj Hlj. destruct (decide (j = i)) as [->|Hji].
    + rewrite list_lookup_insert_eq in Hlj by (by eapply lookup_lt_Some). injection Hlj as <-.
      assert (o ∉ oc_list c) as Hno by (intros H; apply (G3 o H), list_elem_of_here). constructor; simpl; try done.
      * by constructor.
      * intros o' Ho'. destruct (decide (o' = o)) as [->|Hne].
        { split; [done|]. split; [done|]. exists n. by rewrite lookup_insert_eq. }
        apply elem_of_cons in Ho' as [?|Ho']; [done|]. destruct (G3 o' Ho') as (H1 & H2 & n' & H3 & H4). split; [done|].
        split; [intros H; apply H2, elem_of_cons; by right|]. exists n'. by rewrite lookup_insert_ne.
      * rewrite G6, G1, Ecount. rewrite sub64_small; [lia|]. rewrite Ecount in Hbytes. nia.
    + rewrite list_lookup_insert_ne in Hlj by lia. assert (0 <= j < NUM_CACHES) as Hj7 by (apply lookup_lt_Some in Hlj; lia).
      eapply cache_inv_frame; [by apply (Hc j cj Hj)|..]; simpl; try done.
      * intros m d Hd. by exists d.
      * intros o' Ho' _. apply lookup_insert_ne. intros <-.
        destruct (slots_disjoint _ _ _ Hpool (fun _ => cut_pages_own _ _ _ _) Hpgs i o j o Hi Hj7 Hsl Ho') as [[= ->]|Hd]; [done|].
        pose proof (proj1 (obj_size_bounds j Hj7)). lia.
      * intros o' Ho'. apply elem_of_cons. by right.
      * rewrite count_cons, decide_False by congruence. lia.
  - intros x Hx. apply Hslots, elem_of_cons. by right.
  - by inversion_clear Hsz.
Qed.

Lemma cache_free_spec h objs pages o size :
  heap_inv h ((o, size) :: objs) pages -> 0 <= size < 2 ^ LOG_MAX_OBJ_SIZE ->
  exists h', cache_free h (ix size) o = Ok h' /\ heap_inv h' objs pages /\ mem h' = mem h.
Proof.
  intros Hinv Hsize. destruct (ix_spec size) as [Hi _]; [lia|]. set (i := ix size) in *. unfold cache_free.
  pose proof (hi_len _ _ _ Hinv) as Hlen. destruct (aget_is_ok (caches h) i) as [c Hc]; [lia|]. rewrite Hc.
  apply aget_inv in Hc as [_ Hc]. cbn [res_bind]. pose proof (hi_cache _ _ _ Hinv i c (proj1 Hi) Hc) as Hcinv.
  assert (slot pages i o) as Hsl.
  { apply (hi_slots _ _ _ Hinv (o, i)). rewrite smalls_cons_small by (unfold is_small; simpl; lia). apply list_elem_of_here. }
  destruct (heap_slot _ _ _ i o Hinv Hi Hsl) as (Hpg & H1 & H2 & H3 & _). pose proof (proj1 (obj_size_bounds i Hi)) as Hs.
  pose proof (ci_some _ _ _ _ _ Hcinv _ Hpg) as Hne. pose proof (ci_node _ _ _ _ _ Hcinv) as Hnode.
  destruct (oc_node c) as [|head tl] eqn:En; [done|]. inversion_clear Hnode as [|? ? [d Hd] _]. simpl in Hd.
  rewrite Hd. cbn [of_option res_bind]. change PGSIZE with (2 ^ 12) at 1. change PGSIZE with (2 ^ 12) at 1.
  rewrite ALIGN_DOWN_pow2 by (unfold is_u64; lia). change (2 ^ 12) with PGSIZE. rewrite (ci_size _ _ _ _ _ Hcinv).
  assert (Z.of_nat (length (caches h)) = NUM_CACHES -> 0 <= i < Z.of_nat (length (caches h))) as Hil by lia.
  destruct (Z.eqb_spec (o / PGSIZE * PGSIZE) (apd_page d)) as [E|Hpne].
  - destruct (set_apd_bit_ok d (sub64 o (o / PGSIZE * PGSIZE) / obj_size i) false) as (d' & -> & Ep & El').
    + by apply (di_apds _ (hi_desc _ _ _ Hinv) head).
    + rewrite sub64_small by lia. apply obj_index; [done|lia|done].
    + cbn [res_bind]. pose proof (heap_inv_put_bit _ _ _ head d d' Hinv Hd Ep El') as Hinv1.
      destruct (heap_inv_give _ c head o size objs pages Hinv1 Hsize Hc) as [Ha Hinv2].
      { right. exists d'. simpl. by rewrite lookup_insert_eq, Ep. }
      destruct (Z.eqb_spec (oc_alloced c) 0); [done|]. cbn [negb cassert]. rewrite put_cache_ok by (simpl; auto).
      eexists. split; [done|]. fold i in Hinv2. by rewrite En, (ci_size _ _ _ _ _ Hcinv) in Hinv2.
  - cbn [res_bind]. destruct (heap_inv_give _ c 0 o size objs pages Hinv Hsize Hc) as [Ha Hinv2]; [by left|].
    destruct (Z.eqb_spec (oc_alloced c) 0); [done|]. cbn [negb cassert]. rewrite put_cache_ok by (simpl; auto).
    eexists. split; [done|]. fold i in Hinv2. by rewrite En, (ci_size _ _ _ _ _ Hcinv) in Hinv2.
Qed.

(** ** Large objects *)
Lemma heap_inv_pool h objs objs' pages pa :
  heap_inv h objs pages -> smalls objs' = smalls objs -> Forall (fun b => 0 <= b.2) objs' ->
  pool_ok pa (own h pages objs') -> heap_inv (set_pa h pa) objs' pages.
Proof.
  intros [Hpool Hpgs Hdesc Hl Hc Hlive Hslots Hsz] Es Hsz' Hpool'. constructor; rewrite ?Es; try done.
  - by destruct Hdesc.
  - intros i c Hi Hci. by destruct (Hc i c Hi Hci).
Qed.

Lemma own_cons_large h pages objs b : ~ is_small b -> own h pages (b :: objs) ≡ₚ b :: own h pages objs.
Proof.
  intros Hb. unfold own. rewrite larges_cons_large by done. rewrite !app_assoc. symmetry. apply Permutation_middle.
Qed.

(** Rounding a size up to a page leaves the number of pages as it is. *)
Lemma free_pages_rounded pa a size :
  pa_wf pa -> pa_log_pgsize pa = LOG_PGSIZE -> 0 < size < 2 ^ 62 ->
  free_pages pa a (ALIGN_UP size PGSIZE) = free_pages pa a size.
Proof.
  intros Hwf Hlog Hs. unfold free_pages, __locked_set_page_bits. change PGSIZE with (2 ^ 12).
  rewrite ALIGN_UP_pow2 by lia. rewrite !bytes_to_pages_spec by (done || (change (2 ^ 12) with 4096; dlia)).
  cbn [res_bind]. unfold npages. rewrite Hlog. change (2 ^ LOG_PGSIZE) with 4096. change (2 ^ 12) with 4096.
  replace (((size + 4096 - 1) / 4096 * 4096 + 4096 - 1) / 4096) with ((size + 4096 - 1) / 4096) by dlia. done.
Qed.

Lemma pool_free pa a bytes own :
  pool_ok pa ((a, bytes) :: own) -> exists pa', free_pages pa a bytes = Ok pa' /\ pool_ok pa' own.
Proof.
  intros (Hl & Hlog & Hnum). pose proof Hl as (Hwf & Hok & _). simpl in *. inversion_clear Hok as [|? ? Hb _].
  destruct Hb as (f & Hf & Hb & [Hp1 Hp2] & _). simpl in *. subst a. pose proof (npages_pos pa bytes Hwf Hb).
  destruct (set_page_bits_spec pa Hwf f bytes 1) as (pa' & Hset & Hwf' & E1 & E2 & E3 & _); [lia..|].
  exists pa'. split; [done|]. split; [by apply (live_inv_free pa [] (f * 2 ^ pa_log_pgsize pa) bytes)|]. by rewrite E2, E3.
Qed.

(** ** Runs

    Clients allocate objects of any size up to that of the pool and free, with the
    size they asked for, objects of up to 64 pages. *)
Definition fits (h : heap) (size : Z) : Prop :=
  0 <= size < 2 ^ 62 /\ npages (default_pa h) size <= num_pages (default_pa h).

Inductive heap_step : heap * list block -> heap * list block -> Prop :=
  | hs_alloc h objs size a h' :
      fits h size -> halloc h size = Ok (a, h') -> a <> PAGE_ALLOC_ERROR -> heap_step (h, objs) (h', (a, size) :: objs)
  | hs_refused h objs size h' :
      fits h size -> halloc h size = Ok (PAGE_ALLOC_ERROR, h') -> heap_step (h, objs) (h', objs)
  | hs_free h objs a size objs' h' :
      objs ≡ₚ (a, size) :: objs' -> size <= 64 * PGSIZE -> hfree h a size = Ok h' -> heap_step (h, objs) (h', objs').

Definition heap_ok (h : heap) (objs : list block) : Prop := exists pages, heap_inv h objs pages.

(** [halloc] on a state of the invariant: it faults only when fewer than two pages
    are left, and an object of less than half a page comes cleared. *)
Lemma halloc_spec h objs size :
  heap_ok h objs -> fits h size ->
  (halloc h size = Fault Out_of_bounds /\ ~ two_pages (default_pa h)) \/
  exists a h', halloc h size = Ok (a, h') /\
    (2 ^ LOG_MAX_OBJ_SIZE <= size /\ a = PAGE_ALLOC_ERROR /\ h' = h \/
     a <> PAGE_ALLOC_ERROR /\ heap_ok h' ((a, size) :: objs) /\ (size < 2 ^ LOG_MAX_OBJ_SIZE -> forall x, a <= x < a + size -> mem h' x = 0)).
Proof.
  intros [pages Hinv] [Hs Hn]. unfold halloc. destruct (Z.leb_spec (2 ^ LOG_MAX_OBJ_SIZE) size) as [Hbig|Hsmall].
  - right. assert (0 < 2 ^ LOG_MAX_OBJ_SIZE) by done.
    destruct (get_pages_pool _ _ size (hi_pool _ _ _ Hinv)) as (a & pa & -> & Hcase); [lia|done|]. cbn [res_bind].
    eexists a, _. split; [done|]. destruct Hcase as [[-> ->]|[Hne Hok]]; [left; by destruct h|]. right. split; [done|]. split; [|lia].
    assert (~ is_small (a, size)) as Hb by (unfold is_small; simpl; lia). exists pages. apply (heap_inv_pool h objs); try done.
    + by apply smalls_cons_large.
    + constructor; [simpl; lia|apply Hinv].
    + eapply pool_ok_perm; [symmetry; by apply own_cons_large|done].
  - fold (ix size). destruct (ix_spec size) as [Hi Hle]; [lia|].
    destruct (cache_alloc_spec h objs pages size Hinv) as [?|(o & h' & pages' & -> & Hinv' & Hm)]; [lia|by left|]. right.
    exists o, h'. split; [done|]. right. split.
    { destruct (heap_slot _ _ _ (ix size) o Hinv' Hi) as (_ & _ & H & H' & _); [|unfold PAGE_ALLOC_ERROR, ONES64; lia].
      apply (hi_slots _ _ _ Hinv' (o, ix size)). rewrite smalls_cons_small by done. apply list_elem_of_here. }
    split; [by exists pages'|]. intros _ x Hx. rewrite Hm. unfold memset. zcases.
Qed.

Lemma hfree_spec h objs a size :
  heap_ok h ((a, size) :: objs) -> size <= 64 * PGSIZE -> a <> 0 -> exists h', hfree h a size = Ok h' /\ heap_ok h' objs.
Proof.
  intros [pages Hinv] Hs Ha. unfold hfree. destruct (Z.eqb_spec a 0); [done|]. cbn [negb cassert].
  pose proof (hi_sizes _ _ _ Hinv) as Hsz. inversion_clear Hsz as [|? ? H0 Hsz']. simpl in H0.
  destruct (Z.leb_spec (2 ^ LOG_MAX_OBJ_SIZE) size) as [Hbig|Hsmall].
  - assert (~ is_small (a, size)) as Hb by (unfold is_small; simpl; lia). pose proof (hi_pool _ _ _ Hinv) as Hpool.
    assert (2 ^ LOG_MAX_OBJ_SIZE = 2048) as E2048 by reflexivity.
    assert (ALIGN_UP size PGSIZE <= 64 * PGSIZE) as Hup.
    { change PGSIZE with (2 ^ 12) in *. rewrite ALIGN_UP_pow2 by lia. change (2 ^ 12) with 4096 in *. dlia. }
    destruct (Z.ltb_spec (64 * PGSIZE) (ALIGN_UP size PGSIZE)); [lia|].
    rewrite free_pages_rounded by (first [apply Hpool | change PGSIZE with 4096 in *; lia]).
    destruct (pool_free (default_pa h) a size (own h pages objs)) as (pa & -> & Hpool').
    { eapply pool_ok_perm; [by apply own_cons_large|done]. }
    eexists. split; [done|]. exists pages. apply (heap_inv_pool h ((a, size) :: objs)); try done. symmetry. by apply smalls_cons_large.
  - fold (ix size). destruct (cache_free_spec h objs pages a size Hinv) as (h' & -> & Hinv' & _); [lia|]. exists h'. split; [done|]. by exists pages.
Qed.

Lemma heap_ok_step st st' : heap_step st st' -> heap_ok st.1 st.2 -> heap_ok st'.1 st'.2.
Proof.
  intros [h objs size a h' Hf Hh Hne|h objs size h' Hf Hh|h objs a size objs' h' Hp Hs Hh] Hok; simpl in *.
  - destruct (halloc_spec h objs size Hok Hf) as [[E _]|(a' & h2 & E & Hcase)]; rewrite Hh in E; [done|]. injection E as <- <-.
    by destruct Hcase as [(_ & ? & _)|(_ & Hok' & _)].
  - destruct (halloc_spec h objs size Hok Hf) as [[E _]|(a' & h2 & E & Hcase)]; rewrite Hh in E; [done|]. injection E as <- <-.
    by destruct Hcase as [(_ & _ & ->)|[? _]].
  - destruct (decide (a = 0)) as [->|Ha]; [done|]. destruct Hok as [pages Hinv]. apply (heap_inv_perm _ _ _ _ Hp) in Hinv.
    destruct (hfree_spec h objs' a size) as (h2 & E & Hok'); [by exists pages|done|done|]. rewrite Hh in E. by injection E as <-.
Qed.

Lemma heap_ok_reach st st' : rtc heap_step st st' -> heap_ok st.1 st.2 -> heap_ok st'.1 st'.2.
Proof. induction 1; eauto using heap_ok_step. Qed.

Definition fresh_pool (pa : pg_alloc) : Prop := pa_wf pa /\ pa_log_pgsize pa = LOG_PGSIZE /\ 0 < num_pages pa.

Lemma init_heap_ok pa m : fresh_pool pa -> heap_ok (init_allocator pa m) [].
Proof.
  intros (Hwf & Hlog & Hnum). exists []. constructor; try done.
  - split; [|done]. split; [done|]. split; constructor.
  - constructor.
  - by constructor; try constructor.
  - intros i c Hi Hc. cbn [caches init_allocator] in Hc. apply list_lookup_fmap_Some in Hc as (j & -> & Hj).
    apply lookup_seqZ in Hj as [-> Hj]. constructor; simpl; try done; try constructor.
    + unfold obj_size. f_equal. lia.
    + by apply elem_of_nil in H.
    + by apply elem_of_nil in H.
    + by intros p Hp%elem_of_nil.
    + unfold count. simpl. lia.
  - constructor.
  - by intros x Hx%elem_of_nil.
Qed.

(** ** Properties *)

(** C11: whatever sequence of allocations, and of frees of objects of up to 64 pages,
    clients perform after [init_allocator], two objects held at the same time never
    share a byte, whether they come from the caches or from the page allocator.  The limit on frees is
    the code's: freeing a larger object gives too much back ([hfree_large_overlaps]). *)
Theorem halloc_objects_disjoint pa m h objs :
  fresh_pool pa -> rtc heap_step (init_allocator pa m, []) (h, objs) -> ForallOrdPairs blocks_disjoint objs.
Proof.
  intros Hp Hr. destruct (heap_ok_reach _ _ Hr (init_heap_ok pa m Hp)) as [pages [Hpool Hpgs Hdesc Hl Hc Hlive Hslots Hsz]].
  simpl in *. apply (objs_disjoint (default_pa h) (own h pages objs) pages); auto using cut_pages_own.
  - intros p b Hpp Hb. destruct Hpool as ((_ & _ & Hd) & _). apply FOP_app_inv in Hd as [_ Hd].
    apply FOP_app_inv in Hd as [Hd _]. auto.
  - destruct Hpool as ((_ & _ & Hd) & _). apply FOP_app_inv in Hd as [_ Hd]. by apply FOP_app_inv in Hd as [_ Hd].
Qed.

(** In every state clients can reach, [halloc] of a size the pool can hold never
    faults while two pages are left: below half a page it returns a cleared object,
    above it may only refuse, leaving the allocator alone; and [hfree] accepts every
    object held. *)
Theorem halloc_hfree_total pa m h objs :
  fresh_pool pa -> rtc heap_step (init_allocator pa m, []) (h, objs) ->
  (forall size, fits h size -> two_pages (default_pa h) ->
    exists a h', halloc h size = Ok (a, h') /\
      (2 ^ LOG_MAX_OBJ_SIZE <= size /\ a = PAGE_ALLOC_ERROR /\ h' = h \/
       a <> PAGE_ALLOC_ERROR /\ (size < 2 ^ LOG_MAX_OBJ_SIZE -> forall x, a <= x < a + size -> mem h' x = 0))) /\
  (forall a size, (a, size) ∈ objs -> a <> 0 -> size <= 64 * PGSIZE -> exists h', hfree h a size = Ok h').
Proof.
  intros Hp Hr. pose proof (heap_ok_reach _ _ Hr (init_heap_ok pa m Hp)) as Hok. simpl in Hok. split.
  - intros size Hf Htwo. destruct (halloc_spec h objs size Hok Hf) as [[_ ?]|(a & h' & Hh & Hcase)]; [done|].
    exists a, h'. split; [done|]. destruct Hcase as [?|(? & _ & ?)]; auto.
  - intros a size Hin Ha Hs. apply elem_of_Permutation in Hin as [objs' Hperm]. destruct Hok as [pages Hinv].
    apply (heap_inv_perm _ _ _ _ Hperm) in Hinv. destruct (hfree_spec h objs' a size) as (h' & Hh & _); [by exists pages|done..|].
    by exists h'.
Qed.

(** ** A run *)
Lemma pool64_fresh : fresh_pool pool64.
Proof. split; [apply pool64_wf|done]. Qed.

Definition heap64 : heap := init_allocator pool64 (fun _ => 7).

Definition heap_of (r : res (Z * heap)) : heap := match r with Ok (_, h) => h | Fault _ => heap64 end.
Definition heap64_1 : heap := Eval vm_compute in heap_of (halloc heap64 40).
Definition heap64_2 : heap := Eval vm_compute in heap_of (halloc heap64_1 5000).

Lemma heap64_run : rtc heap_step (heap64, []) (heap64_2, [(73728, 5000); (69632, 40)]).
Proof.
  eapply rtc_l; [|eapply rtc_l; [|apply rtc_refl]].
  - apply (hs_alloc _ _ 40 69632 heap64_1); [split; [lia|by vm_compute]|vm_compute; reflexivity|done].
  - apply (hs_alloc _ _ 5000 73728 heap64_2); [split; [lia|by vm_compute]|vm_compute; reflexivity|done].
Qed.

Lemma halloc_objects_disjoint_witness : ForallOrdPairs blocks_disjoint [(73728, 5000); (69632, 40)].
Proof. apply (halloc_objects_disjoint pool64 (fun _ => 7) heap64_2); [apply pool64_fresh|apply heap64_run]. Defined.

Lemma halloc_hfree_total_witness : exists h', hfree heap64_2 69632 40 = Ok h'.
Proof.
  apply (halloc_hfree_total pool64 (fun _ => 7) heap64_2 [(73728, 5000); (69632, 40)]); [apply pool64_fresh|apply heap64_run| |done|done].
  apply elem_of_cons. right. apply list_elem_of_singleton. done.
Defined.

(** [hfree] of more than 64 pages frees pages past the end of the object: the pages
    of the second object are given out again while it is in use. *)
Definition pool192 : pg_alloc := PgAlloc (Lbm 192 [2 ^ 64 - 1; 2 ^ 64 - 1; 2 ^ 64 - 1]) 16 12.

Example hfree_large_overlaps :
  match (let! (a, h) := halloc (init_allocator pool192 (fun _ => 0)) (65 * PGSIZE) in
         let! (b, h) := halloc h PGSIZE in
         let! h := hfree h a (65 * PGSIZE) in
         let! (c, h) := halloc h (66 * PGSIZE) in
         Ok (a, b, c)) with
  | Ok (a, b, c) => c <= b /\ b + PGSIZE <= c + 66 * PGSIZE
  | Fault _ => False
  end.
Proof. vm_compute. split; discriminate. Qed.
