(* ===== verification/Hash.v ===== *)
(** * Hash: chained hash tables

    [lib/hash.c] and [include/hash.h].  A table is an array of chains; a chain
    is the list of the entries linked through [he_next], head first.  An entry
    is embedded in the object it belongs to, so it is its key and the identity
    of that object.  The operating-system directory and the page share manager
    are its clients. *)

From S2P Require Import Prelude.

(** ** Data *)

Record hash_entry := Entry { he_key : Z; he_obj : Z }.

#[global] Instance hash_entry_eq_dec : EqDecision hash_entry.
Proof. solve_decision. Defined.

Definition LOG_INIT_TBL_SIZE : Z := 2.
Definition RESIZE_MULTIPLE : Z := 4.

(** [ht_embedded] says that [ht_table] is the array [ht_init_table] inside the
    structure; [ht_freed] lists the calls made to [hfree]: whether the pointer
    was that embedded array, and the size passed. *)
Record hash_table := HashTable {
  ht_count : Z;
  ht_table : list (list hash_entry);
  ht_log_tbl_size : Z;
  ht_embedded : bool;
  ht_freed : list (bool * Z)
}.

Definition default_hash (key log_tbl_size : Z) : Z :=
  Z.land key (sub64 (shl64 1 log_tbl_size) 1).

Section Operations.
(** [ht_hash] is the function stored in the table; [halloc] is the memory a
    call returns, read as an array of chains ([NULL] is the empty chain). *)
Context (ht_hash : Z -> Z -> Z) (halloc : Z -> list (list hash_entry)).

(** ** Operations *)

Definition ht_init : hash_table :=
  HashTable 0 (repeat [] (Z.to_nat (2 ^ LOG_INIT_TBL_SIZE))) LOG_INIT_TBL_SIZE true [].

(** [hash = ht->ht_hash(key, log); hash &= (1UL << log) - 1;] *)
Definition ht_index (log key : Z) : Z :=
  Z.land (ht_hash key log) (sub64 (shl64 1 log) 1).

Definition __ht_insert (ht : hash_table) (he : hash_entry) : res hash_table :=
  let hash := ht_index (ht_log_tbl_size ht) (he_key he) in
  let! chain := aget (ht_table ht) hash in
  let! table := aset (ht_table ht) hash (he :: chain) in
  Ok (HashTable (add64 (ht_count ht) 1) table (ht_log_tbl_size ht)
        (ht_embedded ht) (ht_freed ht)).

(** The inner loop of [__ht_grow] empties a chain of the old table from its
    head, its outer loop visits the chains in order. *)
Fixpoint grow_chain (chain : list hash_entry) (ht : hash_table) : res hash_table :=
  match chain with
  | [] => Ok ht
  | curr :: rest =>
      let! ht := __ht_insert
        (HashTable (sub64 (ht_count ht) 1) (ht_table ht) (ht_log_tbl_size ht)
           (ht_embedded ht) (ht_freed ht)) curr in
      grow_chain rest ht
  end.

Fixpoint grow_chains (old : list (list hash_entry)) (ht : hash_table) : res hash_table :=
  match old with
  | [] => Ok ht
  | chain :: rest => let! ht := grow_chain chain ht in grow_chains rest ht
  end.

Definition __ht_grow (ht : hash_table) : res hash_table :=
  let old := ht_table ht in
  let old_size := shl64 1 (ht_log_tbl_size ht) in
  let log := add64 (ht_log_tbl_size ht) 1 in
  let table := halloc (mul64 8 (shl64 1 log)) in
  let! ht' := grow_chains old (HashTable (ht_count ht) table log false (ht_freed ht)) in
  Ok (HashTable (ht_count ht') (ht_table ht') (ht_log_tbl_size ht') (ht_embedded ht')
        ((ht_embedded ht, old_size) :: ht_freed ht')).

Definition ht_insert (ht : hash_table) (he : hash_entry) : res hash_table :=
  let! ht := __ht_insert ht he in
  if mul64 RESIZE_MULTIPLE (shl64 1 (ht_log_tbl_size ht)) <=? ht_count ht
  then __ht_grow ht else Ok ht.

Fixpoint chain_find (chain : list hash_entry) (key : Z) : option hash_entry :=
  match chain with
  | [] => None
  | he :: next => if he_key he =? key then Some he else chain_find next key
  end.

Definition ht_lookup (ht : hash_table) (key : Z) : res (option hash_entry) :=
  let! chain := aget (ht_table ht) (ht_index (ht_log_tbl_size ht) key) in
  Ok (chain_find chain key).

(** The chain without its first entry of that key. *)
Fixpoint chain_unlink (chain : list hash_entry) (key : Z) : list hash_entry :=
  match chain with
  | [] => []
  | he :: next => if he_key he =? key then next else he :: chain_unlink next key
  end.

(** The count goes down whether or not the key was found. *)
Definition ht_remove (ht : hash_table) (key : Z) : res (option hash_entry * hash_table) :=
  let hash := ht_index (ht_log_tbl_size ht) key in
  let! chain := aget (ht_table ht) hash in
  let! table := aset (ht_table ht) hash (chain_unlink chain key) in
  Ok (chain_find chain key,
      HashTable (sub64 (ht_count ht) 1) table (ht_log_tbl_size ht)
        (ht_embedded ht) (ht_freed ht)).

Fixpoint pop_loop (chains : list (list hash_entry)) (ht : hash_table)
  : res (option hash_entry * hash_table) :=
  match chains with
  | [] => Ok (None, ht)
  | [] :: rest => pop_loop rest ht
  | (he :: _) :: _ => ht_remove ht (he_key he)
  end.

Definition ht_pop (ht : hash_table) : res (option hash_entry * hash_table) :=
  if ht_count ht =? 0 then Ok (None, ht)
  else pop_loop (take (Z.to_nat (shl64 1 (ht_log_tbl_size ht))) (ht_table ht)) ht.

Definition ht_destroy (ht : hash_table) : Z * hash_table :=
  if truth (ht_count ht) then (ht_count ht, ht)
  else (0, HashTable (ht_count ht) (ht_table ht) (ht_log_tbl_size ht) (ht_embedded ht)
             ((ht_embedded ht, shl64 1 (ht_log_tbl_size ht)) :: ht_freed ht)).

(** ** Abstraction: a finite map from keys to entries *)

Definition ht_entries (ht : hash_table) : list hash_entry := concat (ht_table ht).

Definition by_key (l : list hash_entry) : list (Z * hash_entry) :=
  (fun e => (he_key e, e)) <$> l.

Definition ht_map (ht : hash_table) : gmap Z hash_entry :=
  list_to_map (by_key (ht_entries ht)).

(** Shape of a table: the array has its announced size and every entry sits in
    the chain of its index. *)
Record ht_shape (ht : hash_table) : Prop := {
  sh_log : 0 <= ht_log_tbl_size ht < 40;
  sh_len : Z.of_nat (length (ht_table ht)) = 2 ^ ht_log_tbl_size ht;
  sh_place : forall i chain e, ht_table ht !! i = Some chain -> e ∈ chain ->
    ht_index (ht_log_tbl_size ht) (he_key e) = Z.of_nat i
}.

Record ht_wf (ht : hash_table) : Prop := {
  wf_shape : ht_shape ht;
  wf_keys : NoDup (he_key <$> ht_entries ht);
  wf_count : ht_count ht = Z.of_nat (length (ht_entries ht))
}.

(** ** Lemmas on arrays of chains *)

Lemma ht_index_range log key :
  0 <= log < 40 -> 0 <= ht_hash key log -> 0 <= ht_index log key < 2 ^ log.
Proof.
  intros Hl Hh. unfold ht_index. rewrite shl64_one, sub64_one_pow2, Z.land_ones by lia.
  apply Z.mod_pos_bound, Z.pow_pos_nonneg; lia.
Qed.

Lemma concat_focus (t : list (list hash_entry)) i chain chain' :
  t !! i = Some chain ->
  exists rest, concat t ≡ₚ chain ++ rest /\ concat (<[i := chain']> t) ≡ₚ chain' ++ rest.
Proof.
  revert i. induction t as [|c t IH]; intros [|i] Hi; simpl in *; try done.
  - injection Hi as ->. by exists (concat t).
  - destruct (IH i Hi) as (rest & H1 & H2). exists (c ++ rest). rewrite H1, H2.
    split; solve_Permutation.
Qed.

Lemma chain_find_Some chain key e :
  chain_find chain key = Some e -> e ∈ chain /\ he_key e = key.
Proof.
  induction chain as [|x chain IH]; simpl; [done|].
  destruct (Z.eqb_spec (he_key x) key).
  - intros [= ->]. split; [apply elem_of_cons; by left|done].
  - intros H. destruct (IH H). split; [apply elem_of_cons; by right|done].
Qed.

Lemma chain_find_None chain key e :
  chain_find chain key = None -> e ∈ chain -> he_key e <> key.
Proof.
  induction chain as [|x chain IH]; simpl; intros H He.
  - by apply elem_of_nil in He.
  - destruct (Z.eqb_spec (he_key x) key); [done|].
    apply elem_of_cons in He as [->|He]; [done|by apply IH].
Qed.

Lemma chain_unlink_perm chain key e :
  chain_find chain key = Some e -> chain ≡ₚ e :: chain_unlink chain key.
Proof.
  induction chain as [|x chain IH]; simpl; [done|].
  destruct (Z.eqb_spec (he_key x) key).
  - by intros [= ->].
  - intros H. rewrite (IH H) at 1. apply perm_swap.
Qed.

Lemma chain_unlink_absent chain key :
  chain_find chain key = None -> chain_unlink chain key = chain.
Proof.
  induction chain as [|x chain IH]; simpl; [done|].
  destruct (Z.eqb_spec (he_key x) key); [done|]. intros H. by rewrite IH.
Qed.

Lemma chain_unlink_subset chain key e : e ∈ chain_unlink chain key -> e ∈ chain.
Proof.
  induction chain as [|x chain IH]; simpl; [done|].
  destruct (Z.eqb_spec (he_key x) key); rewrite ?elem_of_cons; [by right|].
  intros [->|H]; [by left|right; auto].
Qed.

(** ** Lemmas on tables

    A hash function returns an unsigned word.  [__ht_grow] does not clear the larger
    table, so that [halloc] has to; it does for objects of less than half a page
    ([ObjAlloc.halloc_hfree_total]), and not for whole pages. *)
Context (Hhash : forall key log, 0 <= ht_hash key log).

Definition cleared (log : Z) : Prop :=
  halloc (mul64 8 (shl64 1 log)) = repeat [] (Z.to_nat (2 ^ log)).

(** The chain of a key, and that no other chain can hold the key. *)
Lemma shape_chain ht key :
  ht_shape ht ->
  exists chain, aget (ht_table ht) (ht_index (ht_log_tbl_size ht) key) = Ok chain /\
    ht_table ht !! Z.to_nat (ht_index (ht_log_tbl_size ht) key) = Some chain /\
    0 <= ht_index (ht_log_tbl_size ht) key < Z.of_nat (length (ht_table ht)) /\
    forall e, e ∈ ht_entries ht -> he_key e = key -> e ∈ chain.
Proof.
  intros [Hl Hlen Hp]. pose proof (ht_index_range (ht_log_tbl_size ht) key Hl (Hhash _ _)) as Hr.
  destruct (aget_is_ok (ht_table ht) (ht_index (ht_log_tbl_size ht) key)) as [chain Hc]; [lia|].
  exists chain. apply aget_inv in Hc as Hc'. destruct Hc' as [Hb Hc']. split_and!; try done; try lia.
  intros e He <-. unfold ht_entries in He. apply elem_of_concat in He as (c & Hec & Hct).
  apply list_elem_of_lookup in Hct as [i Hi]. specialize (Hp i c e Hi Hec).
  rewrite Hp, Nat2Z.id in Hc'. congruence.
Qed.

Lemma entries_chain_key ht chain key :
  ht_table ht !! Z.to_nat (ht_index (ht_log_tbl_size ht) key) = Some chain ->
  forall e, e ∈ chain -> e ∈ ht_entries ht.
Proof.
  intros Hc e He. unfold ht_entries. apply elem_of_concat. exists chain.
  split; [done|]. by eapply list_elem_of_lookup_2.
Qed.

(** Replacing one chain by another with entries of the same index. *)
Lemma shape_update ht key chain chain' count :
  ht_shape ht ->
  ht_table ht !! Z.to_nat (ht_index (ht_log_tbl_size ht) key) = Some chain ->
  (forall e, e ∈ chain' -> e ∈ chain \/ he_key e = key) ->
  ht_shape (HashTable count
    (<[Z.to_nat (ht_index (ht_log_tbl_size ht) key) := chain']> (ht_table ht))
    (ht_log_tbl_size ht) (ht_embedded ht) (ht_freed ht)).
Proof.
  intros [Hl Hlen Hp] Hc Hsub. constructor; simpl; [done|by rewrite length_insert|].
  intros i c e Hi He.
  pose proof (ht_index_range (ht_log_tbl_size ht) key Hl (Hhash _ _)).
  destruct (decide (Z.to_nat (ht_index (ht_log_tbl_size ht) key) = i)) as [<-|Hne].
  - rewrite list_lookup_insert_eq in Hi by (by apply lookup_lt_Some in Hc).
    injection Hi as ->. destruct (Hsub e He) as [Hin| ->]; [by apply (Hp _ chain)|lia].
  - rewrite list_lookup_insert_ne in Hi by done. by apply (Hp i c).
Qed.

Lemma __ht_insert_spec ht he :
  ht_shape ht -> 0 <= ht_count ht < 2 ^ 63 ->
  exists ht', __ht_insert ht he = Ok ht' /\ ht_shape ht' /\
    ht_entries ht' ≡ₚ he :: ht_entries ht /\ ht_count ht' = ht_count ht + 1 /\
    ht_log_tbl_size ht' = ht_log_tbl_size ht.
Proof.
  intros Hsh Hcnt. destruct (shape_chain ht (he_key he) Hsh) as (chain & Hg & Hc & Hr & _).
  unfold __ht_insert. rewrite Hg. cbn [res_bind]. rewrite aset_ok by done. cbn [res_bind].
  eexists. split; [done|]. split_and!; simpl; [|
    |by apply add64_small; lia|done].
  - apply (shape_update ht (he_key he) chain); [done..|].
    intros e He. apply elem_of_cons in He as [->|He]; [by right|by left].
  - unfold ht_entries. simpl.
    destruct (concat_focus _ _ _ (he :: chain) Hc) as (rest & H1 & H2). by rewrite H1, H2.
Qed.

Lemma grow_chain_spec chain : forall ht,
  ht_shape ht -> Z.of_nat (length chain) <= ht_count ht < 2 ^ 63 -> 0 < ht_count ht \/ chain = [] ->
  exists ht', grow_chain chain ht = Ok ht' /\ ht_shape ht' /\
    ht_entries ht' ≡ₚ chain ++ ht_entries ht /\ ht_count ht' = ht_count ht /\
    ht_log_tbl_size ht' = ht_log_tbl_size ht.
Proof.
  induction chain as [|e chain IH]; intros ht Hsh Hc Hpos; cbn [grow_chain].
  - by exists ht.
  - simpl in Hc.
    destruct (__ht_insert_spec (HashTable (sub64 (ht_count ht) 1) (ht_table ht)
      (ht_log_tbl_size ht) (ht_embedded ht) (ht_freed ht)) e) as (ht1 & -> & Hsh1 & He1 & Hc1 & Hl1).
    + by destruct Hsh.
    + simpl. rewrite sub64_small; lia.
    + cbn [res_bind]. simpl in *. rewrite sub64_small in Hc1 by lia.
      destruct (IH ht1) as (ht2 & -> & Hsh2 & He2 & Hc2 & Hl2); [done|lia|by left; lia|].
      exists ht2. split_and!; try done; try lia.
      rewrite He2, He1. unfold ht_entries. simpl. solve_Permutation.
Qed.

Lemma grow_chains_spec old : forall ht,
  ht_shape ht -> Z.of_nat (length (concat old)) <= ht_count ht < 2 ^ 63 ->
  exists ht', grow_chains old ht = Ok ht' /\ ht_shape ht' /\
    ht_entries ht' ≡ₚ concat old ++ ht_entries ht /\ ht_count ht' = ht_count ht /\
    ht_log_tbl_size ht' = ht_log_tbl_size ht.
Proof.
  induction old as [|c old IH]; intros ht Hsh Hc; cbn [grow_chains].
  - by exists ht.
  - simpl in Hc. rewrite length_app in Hc.
    destruct (grow_chain_spec c ht) as (ht1 & -> & Hsh1 & He1 & Hc1 & Hl1); [done|lia| |].
    { destruct c; [by right|left; simpl in Hc; lia]. }
    cbn [res_bind]. destruct (IH ht1) as (ht2 & -> & Hsh2 & He2 & Hc2 & Hl2); [done|lia|].
    exists ht2. split_and!; try done; try lia.
    rewrite He2, He1. simpl. solve_Permutation.
Qed.

Lemma concat_repeat_nil n : concat (repeat (@nil hash_entry) n) = [].
Proof. by induction n. Qed.

Lemma __ht_grow_spec ht :
  ht_wf ht -> ht_count ht < 2 ^ 63 -> ht_log_tbl_size ht < 39 ->
  cleared (ht_log_tbl_size ht + 1) ->
  exists ht', __ht_grow ht = Ok ht' /\ ht_wf ht' /\ ht_entries ht' ≡ₚ ht_entries ht /\
    ht_log_tbl_size ht' = ht_log_tbl_size ht + 1 /\
    ht_freed ht' !! 0%nat = Some (ht_embedded ht, 2 ^ ht_log_tbl_size ht).
Proof.
  intros [Hsh Hk Hc] Hlt Hlog Hclr. unfold __ht_grow. destruct Hsh as [Hl Hlen Hp].
  rewrite (add64_small (ht_log_tbl_size ht) 1) by lia. rewrite Hclr.
  set (log := ht_log_tbl_size ht + 1). pose proof (Z.pow_pos_nonneg 2 log ltac:(lia) ltac:(lia)).
  destruct (grow_chains_spec (ht_table ht)
    (HashTable (ht_count ht) (repeat [] (Z.to_nat (2 ^ log))) log false (ht_freed ht)))
    as (ht1 & -> & Hsh1 & He1 & Hc1 & Hl1).
  - constructor; simpl; [lia|rewrite repeat_length; lia|].
    intros i c e Hi He. apply list_elem_of_lookup_2, list_elem_of_In, repeat_spec in Hi as ->.
    by apply elem_of_nil in He.
  - simpl. unfold ht_entries in Hc. lia.
  - cbn [res_bind]. rewrite shl64_one by lia. eexists. split; [done|].
    assert (ht_entries ht1 ≡ₚ ht_entries ht) as Hperm.
    { rewrite He1. unfold ht_entries. simpl. by rewrite concat_repeat_nil, app_nil_r. }
    split_and!; try done.
    constructor; simpl.
    + by destruct Hsh1.
    + unfold ht_entries in *. simpl. by rewrite Hperm.
    + rewrite Hc1. simpl. rewrite Hc. unfold ht_entries in *. simpl. by rewrite Hperm.
Qed.

Lemma ht_map_perm ht ht' :
  NoDup (he_key <$> ht_entries ht) -> ht_entries ht ≡ₚ ht_entries ht' -> ht_map ht = ht_map ht'.
Proof.
  intros Hk Hp. unfold ht_map. apply list_to_map_proper.
  - unfold by_key. by rewrite <- list_fmap_compose.
  - unfold by_key. by rewrite Hp.
Qed.

Lemma ht_map_lookup ht key e :
  NoDup (he_key <$> ht_entries ht) ->
  ht_map ht !! key = Some e <-> e ∈ ht_entries ht /\ he_key e = key.
Proof.
  intros Hk. unfold ht_map. rewrite <- elem_of_list_to_map.
  2:{ unfold by_key. by rewrite <- list_fmap_compose. }
  unfold by_key. rewrite list_elem_of_fmap. split.
  - intros (x & [= -> ->] & Hx). done.
  - intros [He <-]. by exists e.
Qed.

Lemma ht_lookup_spec ht key : ht_wf ht -> ht_lookup ht key = Ok (ht_map ht !! key).
Proof.
  intros [Hsh Hk _]. destruct (shape_chain ht key Hsh) as (chain & Hg & Hc & Hr & Hin).
  unfold ht_lookup. rewrite Hg. cbn [res_bind]. f_equal.
  destruct (chain_find chain key) as [e|] eqn:Hf; symmetry.
  - apply chain_find_Some in Hf as [He Hke]. apply ht_map_lookup; [done|].
    split; [|done]. by apply (entries_chain_key ht chain key).
  - destruct (ht_map ht !! key) as [e|] eqn:Hm; [|done]. exfalso.
    apply ht_map_lookup in Hm as [He Hke]; [|done].
    by apply (chain_find_None chain key e Hf (Hin e He Hke)).
Qed.

Lemma ht_insert_spec ht he :
  ht_wf ht -> ht_map ht !! he_key he = None ->
  ht_count ht < 2 ^ 62 -> ht_log_tbl_size ht < 39 ->
  (4 * 2 ^ ht_log_tbl_size ht <= ht_count ht + 1 -> cleared (ht_log_tbl_size ht + 1)) ->
  exists ht', ht_insert ht he = Ok ht' /\ ht_wf ht' /\
    ht_map ht' = <[he_key he := he]> (ht_map ht) /\
    (ht_log_tbl_size ht' = ht_log_tbl_size ht \/
     (ht_log_tbl_size ht' = ht_log_tbl_size ht + 1 /\ 4 * 2 ^ ht_log_tbl_size ht <= ht_count ht + 1 /\
      ht_freed ht' !! 0%nat = Some (ht_embedded ht, 2 ^ ht_log_tbl_size ht))).
Proof.
  intros [Hsh Hk Hc] Hfresh Hlt Hlog Hclr.
  destruct (__ht_insert_spec ht he Hsh) as (ht1 & H1 & Hsh1 & He1 & Hc1 & Hl1); [lia|].
  assert (ht_wf ht1) as Hwf1.
  { constructor; [done| |].
    - rewrite He1. simpl. constructor; [|done]. intros Hin.
      apply list_elem_of_fmap in Hin as (e & Hke & He).
      assert (ht_map ht !! he_key he = Some e) as E by (by apply ht_map_lookup).
      congruence.
    - rewrite Hc1, He1. simpl. lia. }
  assert (ht_map ht1 = <[he_key he := he]> (ht_map ht)) as Hm1.
  { unfold ht_map. rewrite <- list_to_map_cons. apply list_to_map_proper.
    - unfold by_key. rewrite <- list_fmap_compose. apply Hwf1.
    - unfold by_key. by rewrite He1. }
  unfold ht_insert. rewrite H1. cbn [res_bind].
  destruct (Z.leb_spec (mul64 RESIZE_MULTIPLE (shl64 1 (ht_log_tbl_size ht1))) (ht_count ht1)) as [Hge|].
  - assert (4 * 2 ^ ht_log_tbl_size ht <= ht_count ht + 1) as Hfull.
    { rewrite Hc1, Hl1, shl64_one in Hge by (destruct Hsh; lia). unfold RESIZE_MULTIPLE in Hge.
      pose proof (Z.pow_lt_mono_r 2 (ht_log_tbl_size ht) 39 ltac:(lia) ltac:(lia) ltac:(lia)).
      pose proof (Z.pow_nonneg 2 (ht_log_tbl_size ht) ltac:(lia)).
      rewrite mul64_small in Hge by lia. lia. }
    destruct (__ht_grow_spec ht1 Hwf1) as (ht2 & -> & Hwf2 & He2 & Hl2 & Hf2);
      [lia|lia|rewrite Hl1; by apply Hclr|].
    exists ht2. split_and!; [done..| |].
    + rewrite <- Hm1. apply ht_map_perm; [apply Hwf2|done].
    + right. rewrite Hl2, Hl1, Hf2, Hl1. split; [done|]. split; [done|].
      unfold __ht_insert in H1. apply res_bind_ok in H1 as (c & _ & H1).
      apply res_bind_ok in H1 as (t & _ & H1). by injection H1 as <-.
  - exists ht1. split_and!; [done..|by left].
Qed.

Lemma ht_remove_present ht key e :
  ht_wf ht -> ht_map ht !! key = Some e -> ht_count ht < 2 ^ 64 ->
  exists ht', ht_remove ht key = Ok (Some e, ht') /\ ht_wf ht' /\
    ht_map ht' = delete key (ht_map ht) /\ ht_log_tbl_size ht' = ht_log_tbl_size ht.
Proof.
  intros [Hsh Hk Hc] Hm Hlt. destruct (shape_chain ht key Hsh) as (chain & Hg & Hch & Hr & Hin).
  apply ht_map_lookup in Hm as [He Hke]; [|done].
  assert (chain_find chain key = Some e) as Hf.
  { destruct (chain_find chain key) as [e'|] eqn:E.
    - apply chain_find_Some in E as [He' Hke']. f_equal.
      apply (entries_chain_key ht chain key Hch) in He'.
      assert (ht_map ht !! key = Some e) by (by apply ht_map_lookup).
      assert (ht_map ht !! key = Some e') by (by apply ht_map_lookup). congruence.
    - exfalso. by apply (chain_find_None chain key e E (Hin e He Hke)). }
  unfold ht_remove. rewrite Hg. cbn [res_bind]. rewrite aset_ok by done. cbn [res_bind].
  rewrite Hf. eexists. split; [done|].
  match goal with |- ht_wf ?h /\ _ => set (ht' := h) end.
  assert (ht_entries ht ≡ₚ e :: ht_entries ht') as Hperm.
  { unfold ht_entries, ht'. simpl.
    destruct (concat_focus _ _ _ (chain_unlink chain key) Hch) as (rest & H1 & H2).
    rewrite H1, H2. by rewrite (chain_unlink_perm chain key e Hf) at 1. }
  assert (NoDup (he_key <$> ht_entries ht')) as Hk'.
  { rewrite Hperm in Hk. by inversion Hk. }
  assert (key ∉ he_key <$> ht_entries ht') as Hnin.
  { rewrite Hperm in Hk. inversion Hk. by rewrite <- Hke. }
  split_and!; [|apply map_eq; intros k|done].
  - constructor; [|done|].
    + apply (shape_update ht key chain); [done..|].
      intros x Hx. left. by apply chain_unlink_subset in Hx.
    + unfold ht' at 1. simpl. rewrite Hc. rewrite Hperm. simpl. rewrite sub64_small; [lia|].
      rewrite Hc, Hperm in Hlt. simpl in Hlt. lia.
  - apply option_eq. intros x. rewrite ht_map_lookup by done. rewrite lookup_delete.
    case_decide as Hd.
    + split; [|done]. intros [Hx Hkx]. exfalso. apply Hnin. apply list_elem_of_fmap.
      exists x. split; [congruence|done].
    + rewrite ht_map_lookup by done. rewrite Hperm, elem_of_cons. split; [tauto|].
      intros [[->|Hx] Hkx]; [congruence|done].
Qed.

(** Removal on any table of the right shape, whatever its count says and however
    often the key occurs. *)
Lemma ht_remove_shape ht key :
  ht_shape ht ->
  exists r ht', ht_remove ht key = Ok (r, ht') /\ ht_shape ht' /\
    match r with
    | None => ht_entries ht' = ht_entries ht
    | Some e => ht_entries ht ≡ₚ e :: ht_entries ht'
    end.
Proof.
  intros Hsh. destruct (shape_chain ht key Hsh) as (chain & Hg & Hch & Hr & _).
  unfold ht_remove. rewrite Hg. cbn [res_bind]. rewrite aset_ok by done. cbn [res_bind].
  do 2 eexists. split; [done|]. split.
  { apply (shape_update ht key chain); [done..|]. intros x Hx. left. by apply chain_unlink_subset in Hx. }
  destruct (chain_find chain key) as [e|] eqn:Hf; unfold ht_entries; simpl.
  - destruct (concat_focus _ _ _ (chain_unlink chain key) Hch) as (rest & H1 & H2).
    rewrite H1, H2. by rewrite (chain_unlink_perm chain key e Hf) at 1.
  - by rewrite (chain_unlink_absent chain key Hf), list_insert_id.
Qed.

Lemma pop_loop_spec chains ht :
  (exists he l1 l2 c, chains = l1 ++ (he :: c) :: l2 /\ concat l1 = [] /\
     pop_loop chains ht = ht_remove ht (he_key he)) \/
  (concat chains = [] /\ pop_loop chains ht = Ok (None, ht)).
Proof.
  induction chains as [|[|he c] chains IH]; simpl.
  - by right.
  - destruct IH as [(he & l1 & l2 & c & -> & H1 & H2)|IH]; [left|by right].
    by exists he, ([] :: l1), l2, c.
  - left. by exists he, [], chains, c.
Qed.
End Operations.

(** ** Properties *)

(** Removing a key the table holds returns its entry and deletes it from the
    map; removing a key it does not hold returns nothing and leaves the chains
    alone, yet still lowers the count, so that the table is no longer well
    formed. *)
Lemma ht_remove_effect h ht key :
  (forall k log, 0 <= h k log) -> ht_wf h ht -> ht_count ht < 2 ^ 64 ->
  exists ht', ht_remove h ht key = Ok (ht_map ht !! key, ht') /\
    match ht_map ht !! key with
    | Some e => ht_wf h ht' /\ ht_map ht' = delete key (ht_map ht)
    | None => ht_table ht' = ht_table ht /\ ht_count ht' = sub64 (ht_count ht) 1 /\
              ~ ht_wf h ht'
    end.
Proof.
  intros Hh Hwf Hlt. destruct (ht_map ht !! key) as [e|] eqn:Hm.
  - destruct (ht_remove_present h (fun _ => []) Hh ht key e) as (ht' & ? & ? & ? & _); try done. by exists ht'.
  - pose proof (ht_lookup_spec h Hh ht key Hwf) as Hlk.
    destruct (shape_chain h Hh ht key (wf_shape _ _ Hwf)) as (chain & Hg & Hch & Hr & _).
    unfold ht_lookup in Hlk. rewrite Hg in Hlk. cbn [res_bind] in Hlk.
    injection Hlk as Hlk. rewrite Hm in Hlk.
    unfold ht_remove. rewrite Hg. cbn [res_bind]. rewrite aset_ok by done. cbn [res_bind].
    rewrite Hlk, chain_unlink_absent, list_insert_id by done.
    eexists. split; [done|]. split_and!; try done.
    intros [_ _ Hc']. destruct Hwf as [_ _ Hc]. simpl in Hc'. rewrite Hc in Hc'.
    unfold ht_entries in *. simpl in Hc'. unfold sub64, u64 in Hc'.
    rewrite Hc in Hlt. dlia.
Qed.

(** [ht_pop] returns nothing exactly for an empty table, and otherwise takes
    an entry out of the map. *)
Lemma ht_pop_spec h ht :
  (forall k log, 0 <= h k log) -> ht_wf h ht -> ht_count ht < 2 ^ 64 ->
  exists r ht', ht_pop h ht = Ok (r, ht') /\ ht_wf h ht' /\
    match r with
    | None => ht_map ht = ∅ /\ ht' = ht
    | Some e => ht_map ht !! he_key e = Some e /\ ht_map ht' = delete (he_key e) (ht_map ht) /\
                ht_log_tbl_size ht' = ht_log_tbl_size ht
    end.
Proof.
  intros Hh Hwf Hlt. destruct Hwf as [Hsh Hk Hc]. unfold ht_pop.
  assert (ht_entries ht = [] -> ht_map ht = ∅) as Hempty.
  { intros E. unfold ht_map. by rewrite E. }
  destruct (Z.eqb_spec (ht_count ht) 0) as [E|E].
  - exists None, ht. split_and!; try done. apply Hempty, length_zero_iff_nil. lia.
  - assert (take (Z.to_nat (shl64 1 (ht_log_tbl_size ht))) (ht_table ht) = ht_table ht) as ->.
    { destruct Hsh as [Hl Hlen _]. rewrite shl64_one by lia. apply take_ge. lia. }
    destruct (pop_loop_spec h (ht_table ht) ht) as [(he & l1 & l2 & c & Ht & _ & ->)|[Hn _]].
    + assert (ht_map ht !! he_key he = Some he) as Hm.
      { apply ht_map_lookup; [done|]. split; [|done]. unfold ht_entries. rewrite Ht.
        rewrite concat_app, elem_of_app. right. simpl. apply elem_of_cons. by left. }
      destruct (ht_remove_present h (fun _ => []) Hh ht (he_key he) he) as (ht' & Hrm & ? & ? & ?); try done.
      by exists (Some he), ht'.
    + exfalso. apply E. rewrite Hc. unfold ht_entries. by rewrite Hn.
Qed.

(** ** Refinement

    The specification a client may rely on: a finite map.  A client is [safe] when
    it inserts only new keys, never more than [n] at a time, and removes only present ones, however the map
    answers; an [ht_pop] may answer with any binding. *)
Inductive ht_op := Ht_insert (he : hash_entry) | Ht_lookup (key : Z) | Ht_remove (key : Z) | Ht_pop.

Definition map_pre (m : gmap Z hash_entry) (o : ht_op) : Prop :=
  match o with
  | Ht_insert he => m !! he_key he = None
  | Ht_remove key => is_Some (m !! key)
  | _ => True
  end.

Inductive map_step (m : gmap Z hash_entry) : ht_op -> option hash_entry -> gmap Z hash_entry -> Prop :=
  | MS_insert he : map_step m (Ht_insert he) None (<[he_key he := he]> m)
  | MS_lookup key : map_step m (Ht_lookup key) (m !! key) m
  | MS_remove key : map_step m (Ht_remove key) (m !! key) (delete key m)
  | MS_pop e : m !! he_key e = Some e -> map_step m Ht_pop (Some e) (delete (he_key e) m)
  | MS_pop_empty : m = ∅ -> map_step m Ht_pop None m.

Inductive map_run : gmap Z hash_entry -> list ht_op -> list (option hash_entry) -> gmap Z hash_entry -> Prop :=
  | MR_nil m : map_run m [] [] m
  | MR_cons m o r m1 l rs m2 : map_step m o r m1 -> map_run m1 l rs m2 -> map_run m (o :: l) (r :: rs) m2.

Definition room (n : Z) (m : gmap Z hash_entry) (o : ht_op) : Prop :=
  match o with Ht_insert _ => Z.of_nat (size m) < n | _ => True end.

Fixpoint safe (n : Z) (m : gmap Z hash_entry) (l : list ht_op) : Prop :=
  match l with
  | [] => True
  | o :: l => map_pre m o /\ room n m o /\ forall r m', map_step m o r m' -> safe n m' l
  end.

Definition ht_exec h halloc (ht : hash_table) (o : ht_op) : res (option hash_entry * hash_table) :=
  match o with
  | Ht_insert he => let! ht := ht_insert h halloc ht he in Ok (None, ht)
  | Ht_lookup key => let! r := ht_lookup h ht key in Ok (r, ht)
  | Ht_remove key => ht_remove h ht key
  | Ht_pop => ht_pop h ht
  end.

Fixpoint ht_run h halloc (ht : hash_table) (l : list ht_op) : res (list (option hash_entry) * hash_table) :=
  match l with
  | [] => Ok ([], ht)
  | o :: l =>
      let! (r, ht) := ht_exec h halloc ht o in
      let! (rs, ht) := ht_run h halloc ht l in
      Ok (r :: rs, ht)
  end.

Lemma ht_init_wf h : ht_wf h ht_init.
Proof.
  constructor; [constructor|..]; simpl.
  - unfold LOG_INIT_TBL_SIZE. lia.
  - reflexivity.
  - intros i chain e Hi He. repeat (destruct i as [|i]; simpl in Hi;
      [injection Hi as <-; by apply elem_of_nil in He|]). done.
  - constructor.
  - done.
Qed.

Lemma wf_count_size h ht : ht_wf h ht -> ht_count ht = Z.of_nat (size (ht_map ht)).
Proof.
  intros [_ Hk Hc]. rewrite Hc. unfold ht_map. rewrite map_size_list_to_map.
  - unfold by_key. by rewrite length_fmap.
  - unfold by_key. by rewrite <- list_fmap_compose.
Qed.

Lemma map_step_size n m o r m' :
  map_pre m o -> room n m o -> map_step m o r m' -> Z.of_nat (size m) <= n -> Z.of_nat (size m') <= n.
Proof.
  intros Hp Hr H. inversion H; subst; simpl in Hp, Hr; try lia.
  - rewrite map_size_insert_None by done. lia.
  - rewrite map_size_delete. destruct (m !! key); simpl; lia.
  - rewrite map_size_delete. destruct (m !! he_key e); simpl; lia.
Qed.

(** The table has grown only as far as [n] entries make it. *)
Definition log_bound (n : Z) (ht : hash_table) : Prop := ht_log_tbl_size ht <= 2 \/ 2 ^ (ht_log_tbl_size ht + 1) <= n.

Lemma log_bound_small n ht : n < 2 ^ 39 -> log_bound n ht -> ht_log_tbl_size ht < 38.
Proof.
  intros Hn [|H]; [lia|].
  assert (ht_log_tbl_size ht + 1 < 39) by (apply (Z.pow_lt_mono_r_iff 2); lia). lia.
Qed.

(** The tables a client with [n] entries gets to are cleared. *)
Definition halloc_clears halloc (n : Z) : Prop := forall log, 0 <= log -> 2 ^ (log + 1) <= n -> cleared halloc log.

Lemma ht_exec_refines h halloc n ht o :
  (forall k log, 0 <= h k log) -> halloc_clears halloc n -> n < 2 ^ 39 ->
  ht_wf h ht -> ht_count ht <= n -> log_bound n ht -> map_pre (ht_map ht) o -> room n (ht_map ht) o ->
  exists r ht', ht_exec h halloc ht o = Ok (r, ht') /\ map_step (ht_map ht) o r (ht_map ht') /\
    ht_wf h ht' /\ log_bound n ht'.
Proof.
  intros Hh Hclr Hn Hwf Hc Hlog Hpre Hroom. pose proof (log_bound_small n ht Hn Hlog) as Hsm.
  pose proof (sh_log _ _ (wf_shape _ _ Hwf)) as H0. destruct o as [he|key|key|]; simpl in Hpre |- *.
  - destruct (ht_insert_spec h halloc Hh ht he) as (ht' & -> & Hwf' & Em & Hg); try done; [lia|lia| |].
    { intros Hfull. apply Hclr; [lia|]. simpl in Hroom. rewrite <- (wf_count_size h ht Hwf) in Hroom.
      replace (ht_log_tbl_size ht + 1 + 1) with (2 + ht_log_tbl_size ht) by lia. rewrite Z.pow_add_r by lia. lia. }
    simpl in Hroom. rewrite <- (wf_count_size h ht Hwf) in Hroom. exists None, ht'. rewrite Em. split_and!; try done; [constructor|]. unfold log_bound in *.
    destruct Hg as [->|(-> & Hge & _)]; [done|]. right.
    replace (ht_log_tbl_size ht + 1 + 1) with (2 + ht_log_tbl_size ht) by lia. rewrite Z.pow_add_r by lia. lia.
  - rewrite (ht_lookup_spec h Hh ht key Hwf). eexists _, ht. split_and!; try done. constructor.
  - destruct Hpre as [e He]. destruct (ht_remove_present h halloc Hh ht key e) as (ht' & -> & Hwf' & Em & El); try done; [lia|].
    exists (Some e), ht'. rewrite Em, <- He. split_and!; try done; [constructor|]. unfold log_bound. by rewrite El.
  - destruct (ht_pop_spec h ht Hh Hwf) as (r & ht' & -> & Hwf' & Hr); [lia|]. exists r, ht'.
    destruct r as [e|]; [destruct Hr as (He & Em & El)|destruct Hr as [Em ->]].
    + rewrite Em. split_and!; try done; [by constructor|]. unfold log_bound. by rewrite El.
    + split_and!; try done. by constructor.
Qed.

Lemma ht_run_refines h halloc n l : forall ht,
  (forall k log, 0 <= h k log) -> halloc_clears halloc n -> n < 2 ^ 39 ->
  ht_wf h ht -> ht_count ht <= n -> log_bound n ht -> safe n (ht_map ht) l ->
  exists rs ht', ht_run h halloc ht l = Ok (rs, ht') /\ map_run (ht_map ht) l rs (ht_map ht') /\ ht_wf h ht'.
Proof.
  induction l as [|o l IH]; intros ht Hh Hclr Hn Hwf Hc Hlog Hs; simpl.
  - exists [], ht. split_and!; try done. constructor.
  - destruct Hs as (Hpre & Hroom & Hs).
    destruct (ht_exec_refines h halloc n ht o) as (r & ht1 & -> & Hst & Hwf1 & Hl1); try done. cbn [res_bind].
    destruct (IH ht1) as (rs & ht2 & -> & Hrun & Hwf2); try done; [|by eapply Hs|].
    + rewrite (wf_count_size h ht Hwf) in Hc. rewrite (wf_count_size h ht1 Hwf1). by eapply map_step_size.
    + exists (r :: rs), ht2. split_and!; try done. by econstructor.
Qed.

(** C19: whatever sequence of insertions, lookups, removals and pops, of any length, a client performs
    on a fresh table, the table, growing as it fills, answers as a finite map would,
    for every hash function, as long as the client inserts only new keys, never has more than 511 entries at a time, and
    removes only present ones, and [halloc] clears objects of less than half a page, as it does.  With the 512th entry the
    table grows onto pages that nobody clears ([uncleared_growth]). *)
Theorem ht_refines_map h halloc l :
  (forall k log, 0 <= h k log) -> (forall log, 0 <= log -> 8 * 2 ^ log < 2048 -> cleared halloc log) -> safe 511 ∅ l ->
  exists rs ht', ht_run h halloc ht_init l = Ok (rs, ht') /\ map_run ∅ l rs (ht_map ht') /\ ht_wf h ht'.
Proof.
  intros Hh Hclr Hs. apply (ht_run_refines h halloc 511 l ht_init); try done.
  - intros log H0 Hl. apply Hclr; [done|]. rewrite Z.pow_add_r in Hl by lia.
    destruct (Z.ltb_spec (8 * 2 ^ log) 2048) as [|Hge]; [done|exfalso]. assert (2 ^ 8 <= 2 ^ log) by lia. lia.
  - apply ht_init_wf.
  - by left.
Qed.

(** ** Witnesses and examples *)

Definition mod13 (key _ : Z) : Z := key mod 13.

Lemma mod13_nonneg k log : 0 <= mod13 k log.
Proof. unfold mod13. dlia. Qed.

(** Memory that is cleared whatever the size. *)
Definition clear_halloc (bytes : Z) : list (list hash_entry) := repeat [] (Z.to_nat (bytes / 8)).

Lemma clear_halloc_cleared log : 0 <= log -> 8 * 2 ^ log < 2048 -> cleared clear_halloc log.
Proof.
  intros H0 Hl. unfold cleared, clear_halloc. assert (log < 64).
  { destruct (Z.ltb_spec log 64); [done|]. pose proof (Z.pow_le_mono_r 2 8 log ltac:(lia) ltac:(lia)). lia. }
  rewrite shl64_one by lia. pose proof (Z.pow_nonneg 2 log ltac:(lia)).
  rewrite mul64_small, Z.mul_comm, Z.div_mul by lia. done.
Qed.

Definition demo_ht_ops : list ht_op := [Ht_insert (Entry 4097 1); Ht_lookup 4097; Ht_pop; Ht_pop].

Lemma ht_refines_map_witness :
  exists rs ht', ht_run mod13 clear_halloc ht_init demo_ht_ops = Ok (rs, ht') /\
    map_run ∅ demo_ht_ops rs (ht_map ht') /\ ht_wf mod13 ht'.
Proof.
  apply (ht_refines_map mod13 clear_halloc demo_ht_ops).
  - exact mod13_nonneg.
  - exact clear_halloc_cleared.
  - split; [done|]. split; [done|]. intros r m' H. inversion H; subst. split; [done|]. split; [done|]. intros r m' H1.
    inversion H1; subst. split; [done|]. split; [done|]. intros r m' _. split; [done|]. done.
Defined.

Fixpoint insert_all (h : Z -> Z -> Z) (halloc : Z -> list (list hash_entry))
    (keys : list Z) (ht : hash_table) : res hash_table :=
  match keys with
  | [] => Ok ht
  | k :: keys => let! ht := ht_insert h halloc ht (Entry k k) in insert_all h halloc keys ht
  end.

(** The sixteenth insertion grows the table: [hfree] is handed the array inside
    the structure, and the number of its chains in place of its size in bytes. *)
Example first_grow_frees_embedded_array :
  res_bind (insert_all mod13 clear_halloc (seqZ 4096 16) ht_init) (fun ht => Ok (ht_freed ht))
  = Ok [(true, 4)].
Proof. vm_compute. reflexivity. Qed.

(** Memory as [halloc] hands it out: cleared below half a page. *)
Definition page_halloc (bytes : Z) : list (list hash_entry) :=
  repeat (if bytes <? 2048 then [] else [Entry 7 7]) (Z.to_nat (bytes / 8)).

(** The 512th insertion grows the table onto memory that is not cleared: it finds entries nobody inserted. *)
Example uncleared_growth :
  res_bind (insert_all mod13 page_halloc (seqZ 4096 511) ht_init) (fun ht => ht_lookup mod13 ht 7) = Ok None /\
  res_bind (insert_all mod13 page_halloc (seqZ 4096 512) ht_init) (fun ht => ht_lookup mod13 ht 7) = Ok (Some (Entry 7 7)).
Proof. split; vm_compute; reflexivity. Qed.
