(* ===== verification/Dlist.v ===== *)
(** * Dlist: circular doubly linked lists

    [include/dlist.h] on a heap of nodes.  The lists of resources, of children,
    of events and of free objects are such rings; the other components use them
    through the list of nodes a ring stands for. *)

From S2P Require Import Prelude.

(** ** The heap: the two fields of every node *)
Record dheap := DHeap { dl_next : gmap Z Z; dl_prev : gmap Z Z }.

Definition get_next (h : dheap) (p : Z) : res Z := of_option Null_deref (dl_next h !! p).
Definition get_prev (h : dheap) (p : Z) : res Z := of_option Null_deref (dl_prev h !! p).

Definition set_next (h : dheap) (p v : Z) : res dheap :=
  let! _ := get_next h p in Ok (DHeap (<[p := v]> (dl_next h)) (dl_prev h)).
Definition set_prev (h : dheap) (p v : Z) : res dheap :=
  let! _ := get_prev h p in Ok (DHeap (dl_next h) (<[p := v]> (dl_prev h))).

(** ** Operations *)

Definition dlist_init (h : dheap) (elem : Z) : res dheap :=
  let! h := set_next h elem elem in
  set_prev h elem elem.

Definition dlist_ins_after (h : dheap) (item to : Z) : res dheap :=
  let! last := get_prev h item in
  let first := item in
  let before := to in
  let! after := get_next h to in
  let! h := set_next h last after in
  let! h := set_prev h after last in
  let! h := set_next h before first in
  set_prev h first before.

Definition dlist_ins_before (h : dheap) (item to : Z) : res dheap :=
  let! last := get_prev h item in
  let first := item in
  let! before := get_prev h to in
  let after := to in
  let! h := set_next h last after in
  let! h := set_prev h after last in
  let! h := set_next h before first in
  set_prev h first before.

Definition dlist_insert (h : dheap) (item l : Z) : res dheap := dlist_ins_before h item l.

Definition dlist_detach (h : dheap) (item : Z) : res dheap :=
  let! before := get_prev h item in
  let! after := get_next h item in
  let! h := set_next h before after in
  set_prev h after before.

Definition dlist_prev (h : dheap) (elem : Z) : res Z := get_prev h elem.
Definition dlist_next (h : dheap) (elem : Z) : res Z := get_next h elem.

Definition dlist_empty (h : dheap) (item : Z) : res bool :=
  let! n := get_next h item in Ok (n =? item).

(** ** Abstraction: the nodes of a ring, in order *)

Definition link (h : dheap) (x y : Z) : Prop :=
  dl_next h !! x = Some y /\ dl_prev h !! y = Some x.

Fixpoint chain (h : dheap) (l : list Z) : Prop :=
  match l with
  | x :: (y :: _) as r => link h x y /\ chain h r
  | _ => True
  end.

(** [ring h head l]: from [head], following [dl_next] visits [l] and returns. *)
Definition ring (h : dheap) (head : Z) (l : list Z) : Prop :=
  NoDup (head :: l) /\ chain h (head :: l ++ [head]).

Lemma chain_app h l1 x l2 :
  chain h (l1 ++ x :: l2) <-> chain h (l1 ++ [x]) /\ chain h (x :: l2).
Proof.
  induction l1 as [|y l1 IH]; simpl; [tauto|].
  destruct l1 as [|z l1]; simpl in *; [tauto|]. rewrite IH. tauto.
Qed.

Lemma chain_join h p b a q :
  chain h ((p ++ [b]) ++ a :: q) <-> chain h (p ++ [b]) /\ link h b a /\ chain h (a :: q).
Proof.
  rewrite chain_app. rewrite <- app_assoc. simpl. rewrite chain_app. simpl. tauto.
Qed.

(** A chain only depends on the forward pointers of all nodes but the last and
    on the backward pointers of all nodes but the first. *)
Lemma chain_frame h h' l :
  (forall p x q, l = p ++ x :: q -> q <> [] -> dl_next h' !! x = dl_next h !! x) ->
  (forall p x q, l = p ++ x :: q -> p <> [] -> dl_prev h' !! x = dl_prev h !! x) ->
  chain h l -> chain h' l.
Proof.
  induction l as [|x [|y l] IH]; simpl; intros Hn Hp; try done. intros [[H1 H2] Hc]. split.
  - split.
    + rewrite (Hn [] x (y :: l)); done.
    + rewrite (Hp [x] y l); done.
  - apply IH; [|intros p z q E Hq; apply (Hp (x :: p) z q); [by rewrite E|done]|done].
    intros p z q E Hq. apply (Hn (x :: p) z q); [by rewrite E|done].
Qed.

Lemma set_next_ok h p v w :
  dl_next h !! p = Some w -> set_next h p v = Ok (DHeap (<[p := v]> (dl_next h)) (dl_prev h)).
Proof. intros H. unfold set_next, get_next. by rewrite H. Qed.

Lemma set_prev_ok h p v w :
  dl_prev h !! p = Some w -> set_prev h p v = Ok (DHeap (dl_next h) (<[p := v]> (dl_prev h))).
Proof. intros H. unfold set_prev, get_prev. by rewrite H. Qed.

(** The four stores shared by the insertions. *)
Definition spliced (h : dheap) (last first before after : Z) : dheap :=
  DHeap (<[before := first]> (<[last := after]> (dl_next h)))
        (<[first := before]> (<[after := last]> (dl_prev h))).

Lemma splice_stores h last first before after a b c d :
  dl_next h !! last = Some a -> dl_prev h !! after = Some b ->
  dl_next h !! before = Some c -> dl_prev h !! first = Some d ->
  (let! h := set_next h last after in
   let! h := set_prev h after last in
   let! h := set_next h before first in
   set_prev h first before) = Ok (spliced h last first before after).
Proof.
  intros Ha Hb Hc Hd. rewrite (set_next_ok h last after a Ha). cbn [res_bind].
  rewrite (set_prev_ok _ after last b) by done. cbn [res_bind].
  assert (is_Some (<[last := after]> (dl_next h) !! before)) as [c' Hc'].
  { rewrite lookup_insert. case_decide; eauto. }
  rewrite (set_next_ok _ before first c') by done. cbn [res_bind].
  assert (is_Some (<[after := last]> (dl_prev h) !! first)) as [d' Hd'].
  { rewrite lookup_insert. case_decide; eauto. }
  by rewrite (set_prev_ok _ first before d').
Qed.

(** In a duplicate-free list, an element that is followed by another is not the
    last one, and one that is preceded is not the first. *)
Lemma not_last_of p b p' (x : Z) q :
  NoDup (p ++ [b]) -> p ++ [b] = p' ++ x :: q -> q <> [] -> x <> b.
Proof.
  intros Hnd E Hq ->. destruct q as [|y q _] using rev_ind; [done|].
  rewrite app_comm_cons, app_assoc in E. apply app_inj_tail in E as [-> _].
  apply NoDup_app in Hnd as (_ & Hd & _). apply (Hd b); lmem.
Qed.

Lemma not_first_of (a : Z) q p' x q' :
  NoDup (a :: q) -> a :: q = p' ++ x :: q' -> p' <> [] -> x <> a.
Proof.
  intros Hnd E Hp ->. destruct p' as [|y p']; [done|]. injection E as -> ->.
  inversion Hnd as [|? ? Hn]. apply Hn. lmem.
Qed.

Lemma elem_mid (p : list Z) x q l : l = p ++ x :: q -> x ∈ l.
Proof. intros ->. rewrite elem_of_app, elem_of_cons. auto. Qed.

Lemma spliced_next h last first before after x :
  x <> last -> x <> before ->
  dl_next (spliced h last first before after) !! x = dl_next h !! x.
Proof. intros H1 H2. simpl. by rewrite !lookup_insert_ne. Qed.

Lemma spliced_prev h last first before after x :
  x <> first -> x <> after ->
  dl_prev (spliced h last first before after) !! x = dl_prev h !! x.
Proof. intros H1 H2. simpl. by rewrite !lookup_insert_ne. Qed.

(** Splicing the chain [first .. last] between [before] and [after]. *)
Lemma splice_chain h p1 before first m p2 last after q :
  first :: m = p2 ++ [last] ->
  NoDup (p1 ++ [before]) -> NoDup (first :: m) -> NoDup (after :: q) ->
  (forall x, x ∈ p1 ++ [before] -> x ∉ first :: m) ->
  (forall x, x ∈ after :: q -> x ∉ first :: m) ->
  (forall x, x ∈ p1 ++ [before] -> (exists p y l, after :: q = p ++ x :: y :: l) -> False) ->
  (forall x, x ∈ after :: q -> (exists y p l, p1 ++ [before] = y :: p ++ x :: l) -> False) ->
  chain h (p1 ++ [before]) -> chain h (first :: m) -> chain h (after :: q) ->
  chain (spliced h last first before after) ((p1 ++ [before]) ++ (first :: m) ++ after :: q).
Proof.
  intros Hm Hn1 Hn2 Hn3 Hd12 Hd32 Hd13 Hd31 Hc1 Hc2 Hc3.
  assert (last ∈ first :: m) as Hlast by (rewrite Hm; lmem).
  assert (before ∈ p1 ++ [before]) as Hb by lmem.
  simpl. apply chain_join. split_and!.
  - eapply chain_frame; [| |exact Hc1]; intros p x l E Hne; apply elem_mid in E as Hx.
    + apply spliced_next; [|by eapply not_last_of]. intros ->. by apply (Hd12 last).
    + apply spliced_prev.
      * intros ->. apply (Hd12 first); lmem.
      * intros ->. destruct p as [|y p]; [done|]. apply (Hd31 after); [lmem|].
        by exists y, p, l.
  - split; simpl.
    + apply lookup_insert_eq.
    + apply lookup_insert_eq.
  - rewrite app_comm_cons, Hm. apply chain_join. rewrite <- Hm. split_and!.
    + eapply chain_frame; [| |exact Hc2]; intros p x l E Hne; apply elem_mid in E as Hx.
      * apply spliced_next.
        -- rewrite Hm in E, Hn2. by eapply not_last_of.
        -- intros ->. by apply (Hd12 before).
      * apply spliced_prev; [by eapply not_first_of|]. intros ->. apply (Hd32 after); lmem.
    + split; simpl.
      * rewrite lookup_insert_ne; [apply lookup_insert_eq|]. intros ->. by apply (Hd12 last).
      * rewrite lookup_insert_ne; [apply lookup_insert_eq|]. intros ->. apply (Hd32 after); lmem.
    + eapply chain_frame; [| |exact Hc3]; intros p x l E Hne; apply elem_mid in E as Hx.
      * apply spliced_next.
        -- intros ->. by apply (Hd32 last).
        -- intros ->. destruct l as [|y l]; [done|]. apply (Hd13 before Hb). by exists p, y, l.
      * apply spliced_prev; [|by eapply not_first_of]. intros ->. apply (Hd32 first); lmem.
Qed.

(** The last node of a non-empty list. *)
Lemma split_last (x : Z) l : exists p b, x :: l = p ++ [b].
Proof.
  destruct l as [|b l _] using rev_ind.
  - by exists [], x.
  - by exists (x :: l), b.
Qed.

(** In a ring, the two neighbours of a cut. *)
Lemma ring_cut h hd l1 l2 :
  ring h hd (l1 ++ l2) ->
  exists p before after q, hd :: l1 = p ++ [before] /\ l2 ++ [hd] = after :: q /\
    link h before after /\ chain h (p ++ [before]) /\ chain h (after :: q).
Proof.
  intros [_ Hc]. destruct (split_last hd l1) as (p & before & Hp).
  assert (exists after q, l2 ++ [hd] = after :: q) as (after & q & Hq).
  { destruct l2; simpl; eauto. }
  exists p, before, after, q. split_and!; try done.
  all: rewrite <- app_assoc, app_comm_cons, Hp, Hq in Hc; by apply chain_join in Hc as (? & ? & ?).
Qed.

Lemma ring_last h hd l p b : ring h hd l -> hd :: l = p ++ [b] -> link h b hd /\ chain h (hd :: l).
Proof.
  intros [_ Hc] E. rewrite app_comm_cons, E in Hc. apply chain_join in Hc as (H1 & H2 & _).
  by rewrite E.
Qed.

(** Splicing the ring of [item] into the ring of [hd], at a cut. *)
Lemma ring_splice h hd l1 l2 item m p before after q p2 lst :
  ring h hd (l1 ++ l2) -> ring h item m ->
  (forall x, x ∈ hd :: l1 ++ l2 -> x ∉ item :: m) ->
  hd :: l1 = p ++ [before] -> l2 ++ [hd] = after :: q -> item :: m = p2 ++ [lst] ->
  ring (spliced h lst item before after) hd (l1 ++ (item :: m) ++ l2).
Proof.
  intros Hr Hri Hdis Hp Hq Hm.
  destruct (ring_last h item m p2 lst Hri Hm) as [_ Hcm].
  destruct Hr as [Hnd Hc], Hri as [Hndi _].
  rewrite <- app_assoc, app_comm_cons, Hp, Hq in Hc. apply chain_join in Hc as (H1 & _ & H3).
  assert (NoDup ((item :: m) ++ hd :: l1 ++ l2)) as Hall.
  { apply NoDup_app. split_and!; [done| |done]. intros x Hx Hx'. by apply (Hdis x Hx'). }
  assert (hd :: l1 ++ item :: m ++ l2 ≡ₚ (item :: m) ++ hd :: l1 ++ l2) as Hperm by solve_Permutation.
  split; [simpl; by rewrite Hperm|].
  replace (hd :: (l1 ++ (item :: m) ++ l2) ++ [hd])
    with ((p ++ [before]) ++ (item :: m) ++ after :: q).
  2:{ rewrite <- Hp, <- Hq. simpl. rewrite <- app_assoc. simpl. by rewrite <- app_assoc. }
  rewrite app_comm_cons in Hnd. apply NoDup_app in Hnd as (Hnd1 & Hnd12 & Hnd2).
  assert (NoDup (l2 ++ [hd])).
  { apply NoDup_app. split_and!; [done| |apply NoDup_singleton].
    intros x Hx Hx'. apply list_elem_of_singleton in Hx' as ->. apply (Hnd12 hd); lmem. }
  apply (splice_chain h p before item m p2 lst after q); try done; rewrite <- ?Hp, <- ?Hq; try done.
  - intros x Hx. apply Hdis. lmem.
  - intros x Hx. apply Hdis. lmem.
  - intros x Hx (u & y & v & E). apply (Hnd12 x Hx).
    destruct v as [|z v _] using rev_ind.
    + change (u ++ [x; y]) with (u ++ [x] ++ [y]) in E. rewrite app_assoc in E.
      apply app_inj_tail in E as [-> _]. lmem.
    + rewrite app_comm_cons, app_comm_cons, app_assoc in E. apply app_inj_tail in E as [-> _].
      lmem.
  - intros x Hx (y & u & v & E). injection E as -> ->.
    apply elem_of_app in Hx as [Hx|Hx].
    + apply (Hnd12 x); lmem.
    + apply list_elem_of_singleton in Hx as ->. inversion Hnd1 as [|? ? Hn]. apply Hn. lmem.
Qed.

(** The stores of [dlist_detach]. *)
Definition unlinked (h : dheap) (before after : Z) : dheap :=
  DHeap (<[before := after]> (dl_next h)) (<[after := before]> (dl_prev h)).

Lemma ring_unlink h hd l1 x l2 p before after q :
  ring h hd (l1 ++ x :: l2) -> hd :: l1 = p ++ [before] -> l2 ++ [hd] = after :: q ->
  ring (unlinked h before after) hd (l1 ++ l2).
Proof.
  intros [Hnd Hc] Hp Hq. split.
  { rewrite app_comm_cons in Hnd |- *. by apply NoDup_app in Hnd as (? & Hd & [_ ?]%NoDup_cons);
      apply NoDup_app; split_and!; [done| |done]; intros y Hy Hy'; apply (Hd y Hy), elem_of_cons; right. }
  assert (hd :: (l1 ++ x :: l2) ++ [hd] = (p ++ [before]) ++ x :: after :: q) as E.
  { by rewrite <- Hp, <- Hq, <- app_assoc. }
  rewrite E in Hc. clear E.
  apply chain_join in Hc as (H1 & _ & H3). destruct H3 as [_ H3].
  rewrite <- app_assoc, app_comm_cons, Hp, Hq.
  rewrite app_comm_cons in Hnd. apply NoDup_app in Hnd as (Hnd1 & Hnd12 & Hnd2).
  inversion Hnd2 as [|? ? _ Hnd3]; subst.
  apply chain_join. split_and!.
  - eapply chain_frame; [| |exact H1]; intros u y v E Hne; simpl; apply lookup_insert_ne.
    + intros ->. rewrite Hp in Hnd1. by eapply not_last_of.
    + intros ->. destruct u as [|z u]; [done|]. rewrite <- Hp in E. injection E as -> ->.
      assert (y ∈ l2 ++ [z]) as Hy by (rewrite Hq; lmem).
      apply elem_of_app in Hy as [Hy|Hy].
      * apply (Hnd12 y); lmem.
      * apply list_elem_of_singleton in Hy as ->. inversion Hnd1 as [|? ? Hn]. apply Hn. lmem.
  - split; simpl; apply lookup_insert_eq.
  - eapply chain_frame; [| |exact H3]; intros u y v E Hne; simpl; apply lookup_insert_ne.
    + intros ->. assert (y ∈ hd :: l1) as Hy by (rewrite Hp; lmem). apply (Hnd12 y Hy).
      destruct v as [|z v _] using rev_ind; [done|]. rewrite <- Hq in E.
      rewrite app_comm_cons, app_assoc in E. apply app_inj_tail in E as [-> _]. lmem.
    + intros ->. assert (NoDup (y :: q)) as Hndq.
      { rewrite <- Hq. apply NoDup_app. split_and!; [done| |apply NoDup_singleton].
        intros z Hz Hz'. apply list_elem_of_singleton in Hz' as ->. apply (Hnd12 hd); lmem. }
      by eapply not_first_of.
Qed.

Lemma link_get_prev h x y : link h x y -> get_prev h y = Ok x.
Proof. intros [_ H]. unfold get_prev. by rewrite H. Qed.
Lemma link_get_next h x y : link h x y -> get_next h x = Ok y.
Proof. intros [H _]. unfold get_next. by rewrite H. Qed.

(** Every node of a ring has both fields. *)
Lemma ring_fields h hd l x :
  ring h hd l -> x ∈ hd :: l -> is_Some (dl_next h !! x) /\ is_Some (dl_prev h !! x).
Proof.
  intros Hr Hx. apply elem_of_cons in Hx as [->|Hx].
  - destruct (ring_cut h hd [] l Hr) as (p & b & a & q & Hp & _ & [Hl _] & _).
    destruct (split_last hd l) as (p' & b' & E). destruct (ring_last h hd l p' b' Hr E) as [[_ H'] _].
    destruct p as [|? [|]]; try done. injection Hp as ->. split; eauto.
  - apply list_elem_of_split in Hx as (l1 & l2 & ->).
    destruct (ring_cut h hd l1 (x :: l2) Hr) as (p & b & a & q & _ & Hq & [_ Hl] & _).
    injection Hq as <- _. split; [|eauto].
    rewrite (cons_middle x l1 l2) in Hr. rewrite app_assoc in Hr.
    destruct (ring_cut h hd (l1 ++ [x]) l2 Hr) as (p' & b' & a' & q' & Hp' & _ & [Hl' _] & _).
    rewrite app_comm_cons in Hp'. apply app_inj_tail in Hp' as [_ ->]. eauto.
Qed.

(** ** Properties *)

(** [dlist_ins_before] puts the whole ring of [item] in front of [to]: the
    ring of the list reads as before with the nodes of [item]'s ring inserted
    there, and no field of a node outside the two rings changes. *)
Theorem dlist_ins_before_ring h hd l1 l2 item m to :
  ring h hd (l1 ++ l2) -> ring h item m ->
  (forall x, x ∈ hd :: l1 ++ l2 -> x ∉ item :: m) ->
  head (l2 ++ [hd]) = Some to ->
  exists h', dlist_ins_before h item to = Ok h' /\
    ring h' hd (l1 ++ (item :: m) ++ l2) /\
    forall x, x ∉ hd :: l1 ++ l2 -> x ∉ item :: m ->
      dl_next h' !! x = dl_next h !! x /\ dl_prev h' !! x = dl_prev h !! x.
Proof.
  intros Hr Hri Hdis Hto.
  destruct (ring_cut h hd l1 l2 Hr) as (p & before & after & q & Hp & Hq & Hl & _ & _).
  rewrite Hq in Hto. injection Hto as ->.
  destruct (split_last item m) as (p2 & lst & Hm).
  destruct (ring_last h item m p2 lst Hri Hm) as [Hlm _].
  assert (to ∈ hd :: l1 ++ l2) as Hto.
  { assert (to ∈ l2 ++ [hd]) by (rewrite Hq; lmem). lmem. }
  assert (before ∈ hd :: l1 ++ l2) as Hbf.
  { rewrite app_comm_cons, Hp. lmem. }
  assert (lst ∈ item :: m) as Hls by (rewrite Hm; lmem).
  assert (item ∈ item :: m) as Hit by lmem.
  exists (spliced h lst item before to). split_and!.
  - unfold dlist_ins_before. rewrite (link_get_prev _ _ _ Hlm), (link_get_prev _ _ _ Hl).
    cbn [res_bind]. destruct Hl as [Hl1 Hl2], Hlm as [Hm1 Hm2]. by eapply splice_stores.
  - by eapply ring_splice.
  - intros x Hx1 Hx2. split; [apply spliced_next|apply spliced_prev]; intros ->; done.
Qed.

(** The ring of [item] put behind [to]. *)
Lemma dlist_ins_after_ring h hd l1 l2 item m to :
  ring h hd (l1 ++ l2) -> ring h item m ->
  (forall x, x ∈ hd :: l1 ++ l2 -> x ∉ item :: m) ->
  last (hd :: l1) = Some to ->
  exists h', dlist_ins_after h item to = Ok h' /\
    ring h' hd (l1 ++ (item :: m) ++ l2) /\
    forall x, x ∉ hd :: l1 ++ l2 -> x ∉ item :: m ->
      dl_next h' !! x = dl_next h !! x /\ dl_prev h' !! x = dl_prev h !! x.
Proof.
  intros Hr Hri Hdis Hto.
  destruct (ring_cut h hd l1 l2 Hr) as (p & before & after & q & Hp & Hq & Hl & _ & _).
  rewrite Hp, last_snoc in Hto. injection Hto as ->.
  destruct (split_last item m) as (p2 & lst & Hm).
  destruct (ring_last h item m p2 lst Hri Hm) as [Hlm _].
  assert (after ∈ hd :: l1 ++ l2) as Haf.
  { assert (after ∈ l2 ++ [hd]) by (rewrite Hq; lmem). lmem. }
  assert (to ∈ hd :: l1 ++ l2) as Hbf by (rewrite app_comm_cons, Hp; lmem).
  assert (lst ∈ item :: m) as Hls by (rewrite Hm; lmem).
  assert (item ∈ item :: m) as Hit by lmem.
  exists (spliced h lst item to after). split_and!.
  - unfold dlist_ins_after. rewrite (link_get_prev _ _ _ Hlm), (link_get_next _ _ _ Hl).
    cbn [res_bind]. destruct Hl as [Hl1 Hl2], Hlm as [Hm1 Hm2]. by eapply splice_stores.
  - by eapply ring_splice.
  - intros x Hx1 Hx2. split; [apply spliced_next|apply spliced_prev]; intros ->; done.
Qed.

(** [dlist_detach] takes a node out of its ring and leaves every other node,
    and the node's own two pointers, where they were. *)
Theorem dlist_detach_ring h hd l1 x l2 :
  ring h hd (l1 ++ x :: l2) ->
  exists h', dlist_detach h x = Ok h' /\ ring h' hd (l1 ++ l2) /\
    dl_next h' !! x = dl_next h !! x /\ dl_prev h' !! x = dl_prev h !! x /\
    forall y, y ∉ hd :: l1 ++ l2 ->
      dl_next h' !! y = dl_next h !! y /\ dl_prev h' !! y = dl_prev h !! y.
Proof.
  intros Hr.
  destruct (ring_cut h hd l1 (x :: l2) Hr) as (p & before & x' & q & Hp & Hq & Hl & _ & Hc).
  simpl in Hq. injection Hq as <- <-.
  assert (exists after r, l2 ++ [hd] = after :: r) as (after & r & Hr2) by (destruct l2; simpl; eauto).
  rewrite Hr2 in Hc. destruct Hc as [Hl2 _].
  assert (before ∈ hd :: l1) as Hbf by (rewrite Hp; lmem).
  assert (after ∈ l2 ++ [hd]) as Haf by (rewrite Hr2; lmem).
  exists (unlinked h before after).
  assert (forall y, y ∉ hd :: l1 ++ l2 ->
    dl_next (unlinked h before after) !! y = dl_next h !! y /\
    dl_prev (unlinked h before after) !! y = dl_prev h !! y) as Hframe.
  { intros y Hy. split; simpl; apply lookup_insert_ne; intros ->; apply Hy; lmem. }
  assert (x ∉ hd :: l1 ++ l2) as Hx.
  { destruct Hr as [Hnd _]. rewrite app_comm_cons in Hnd.
    apply NoDup_app in Hnd as (_ & Hd & [Hn _]%NoDup_cons).
    intros Hin. rewrite app_comm_cons in Hin. apply elem_of_app in Hin as [Hin|Hin]; [|done].
    apply (Hd x Hin). lmem. }
  split_and!; try apply Hframe; try done.
  - unfold dlist_detach. rewrite (link_get_prev _ _ _ Hl), (link_get_next _ _ _ Hl2).
    cbn [res_bind]. destruct Hl as [Hl1 _], Hl2 as [_ Hl2].
    rewrite (set_next_ok _ _ _ _ Hl1). cbn [res_bind]. by erewrite set_prev_ok.
  - by eapply ring_unlink.
Qed.

(** [dlist_empty] answers whether the ring has no other node. *)
Lemma dlist_empty_ring h hd l :
  ring h hd l -> dlist_empty h hd = Ok (bool_decide (l = [])).
Proof.
  intros Hr. destruct (ring_cut h hd [] l Hr) as (p & b & a & q & Hp & Hq & Hl & _).
  destruct p as [|? [|]]; try done. injection Hp as ->.
  unfold dlist_empty. rewrite (link_get_next _ _ _ Hl). cbn [res_bind]. f_equal.
  destruct l as [|x l]; injection Hq as -> _.
  - apply Z.eqb_refl.
  - destruct Hr as [Hnd _]. inversion Hnd as [|? ? Hn]. destruct (Z.eqb_spec a b) as [->|]; [|done].
    exfalso. apply Hn. lmem.
Qed.

(** [dlist_init] makes a node its own ring. *)
Lemma dlist_init_ring h x a b :
  dl_next h !! x = Some a -> dl_prev h !! x = Some b ->
  exists h', dlist_init h x = Ok h' /\ ring h' x [] /\
    forall y, y <> x -> dl_next h' !! y = dl_next h !! y /\ dl_prev h' !! y = dl_prev h !! y.
Proof.
  intros Ha Hb. unfold dlist_init. rewrite (set_next_ok _ _ _ _ Ha). cbn [res_bind].
  rewrite (set_prev_ok _ _ _ b) by done. eexists. split; [done|]. split.
  - split; [apply NoDup_singleton|]. simpl. split; [|done]. split; apply lookup_insert_eq.
  - intros y Hy. simpl. by rewrite !lookup_insert_ne.
Qed.

(** The nodes of a ring are determined by the pointers. *)
Lemma chain_unique h hd l1 : forall x l2,
  hd ∉ l1 -> hd ∉ l2 -> chain h (x :: l1 ++ [hd]) -> chain h (x :: l2 ++ [hd]) -> l1 = l2.
Proof.
  induction l1 as [|y l1 IH]; intros x [|z l2] H1 H2; simpl; intros [[N1 _] C1] [[N2 _] C2]; try done.
  - exfalso. apply H2. rewrite N1 in N2. injection N2 as ->. lmem.
  - exfalso. apply H1. rewrite N1 in N2. injection N2 as ->. lmem.
  - rewrite N1 in N2. injection N2 as ->. f_equal. apply (IH z l2); try done; intros Hin; [apply H1|apply H2]; lmem.
Qed.

Lemma ring_unique h hd l1 l2 : ring h hd l1 -> ring h hd l2 -> l1 = l2.
Proof.
  intros [N1 C1] [N2 C2]. apply NoDup_cons in N1 as [H1 _], N2 as [H2 _]. by apply (chain_unique h hd l1 hd l2).
Qed.

(** A node can be detached, whether or not it is on a list, when the nodes it points to exist. *)
Lemma dlist_detach_any h x b a :
  dl_prev h !! x = Some b -> dl_next h !! x = Some a -> is_Some (dl_next h !! b) -> is_Some (dl_prev h !! a) ->
  dlist_detach h x = Ok (unlinked h b a).
Proof.
  intros Hb Ha [b' Hb'] [a' Ha']. unfold dlist_detach, get_prev, get_next. rewrite Hb, Ha. cbn [of_option res_bind].
  rewrite (set_next_ok _ _ _ _ Hb'). cbn [res_bind]. by erewrite set_prev_ok.
Qed.

(** A ring is not affected by changes to other nodes. *)
Lemma ring_frame h h' hd l :
  (forall x, x ∈ hd :: l -> dl_next h' !! x = dl_next h !! x /\ dl_prev h' !! x = dl_prev h !! x) -> ring h hd l -> ring h' hd l.
Proof.
  intros Hf [Hn Hc]. split; [done|]. eapply chain_frame; [| |exact Hc]; intros p x q E _; apply Hf; apply elem_mid in E; lmem.
Qed.

Lemma ring_head h hd l : ring h hd l -> dl_next h !! hd = head (l ++ [hd]).
Proof. intros [_ Hc]. destruct l as [|x l]; simpl in *; by destruct Hc as [[-> _] _]. Qed.

(** A ring of three nodes beside a detached one. *)
Definition three_and_one : dheap :=
  DHeap (list_to_map [(1, 2); (2, 3); (3, 1); (4, 4)])
        (list_to_map [(1, 3); (2, 1); (3, 2); (4, 4)]).

Lemma three_ring : ring three_and_one 1 [2; 3].
Proof.
  split; [|repeat split; reflexivity].
  apply (bool_decide_unpack _). reflexivity.
Qed.

Lemma one_ring : ring three_and_one 4 [].
Proof. split; [apply NoDup_singleton|repeat split; reflexivity]. Qed.

Lemma dlist_ins_before_ring_witness :
  exists h', dlist_ins_before three_and_one 4 3 = Ok h' /\ ring h' 1 [2; 4; 3] /\
    forall x, x ∉ [1; 2; 3] -> x ∉ [4] ->
      dl_next h' !! x = dl_next three_and_one !! x /\ dl_prev h' !! x = dl_prev three_and_one !! x.
Proof.
  apply (dlist_ins_before_ring three_and_one 1 [2] [3] 4 [] 3).
  - exact three_ring.
  - exact one_ring.
  - intros x Hx Hx'. apply list_elem_of_singleton in Hx' as ->. revert Hx.
    apply (bool_decide_unpack _). reflexivity.
  - reflexivity.
Defined.

Lemma dlist_detach_ring_witness :
  exists h', dlist_detach three_and_one 2 = Ok h' /\ ring h' 1 [3] /\
    dl_next h' !! 2 = dl_next three_and_one !! 2 /\ dl_prev h' !! 2 = dl_prev three_and_one !! 2 /\
    forall y, y ∉ [1; 3] ->
      dl_next h' !! y = dl_next three_and_one !! y /\ dl_prev h' !! y = dl_prev three_and_one !! y.
Proof. apply (dlist_detach_ring three_and_one 1 [] 2 [3]). exact three_ring. Defined.
