(* ===== verification/Atomic.v ===== *)
(** * Atomic: compare-and-store loops and the locks built on them

    [include/atomic.h].  Each routine is a loop around one shared word; its
    model takes the word and the routine's local state, performs one access of
    the shared word, and gives the new word with either the next local state or
    the result.  Processors interleave between accesses.  [cas_uval32] and
    [cas_uval] ([include/powerpc/atomic.h], [include/powerpc/64/atomic.h]) are
    the load-reserve/store-conditional sequences, taken as one access; the
    fences order accesses and have no effect on an interleaving. *)

From S2P Require Import Prelude.

Definition cas (w oval nval : Z) : bool * Z := if w =? oval then (true, nval) else (false, w).
Definition cas_uval32 : Z -> Z -> Z -> bool * Z := cas.
Definition cas_uval : Z -> Z -> Z -> bool * Z := cas.

(** ** The routines, one access at a time *)

(** Local state of a load-then-compare loop: before the load, or holding the
    value loaded. *)
Abbreviation snap := (option Z).

Definition atomic_add (add : Z) (w : Z) (l : snap) : Z * (snap + Z) :=
  match l with
  | None => (w, inl (Some w))
  | Some old =>
      let '(ok, w) := cas_uval w old (add64 old add) in
      (w, if ok then inr (add64 old add) else inl None)
  end.

Definition atomic_add32 (add : Z) (w : Z) (l : snap) : Z * (snap + Z) :=
  match l with
  | None => (w, inl (Some w))
  | Some old =>
      let '(ok, w) := cas_uval32 w old (u32 (old + add)) in
      (w, if ok then inr (u32 (old + add)) else inl None)
  end.

Definition lock_unlocked : Z := 0.
Definition lock_held (w : Z) : bool := negb (w =? lock_unlocked).
Definition lock_init : Z := lock_unlocked.

Definition lock_acquire (w : Z) : Z * option unit :=
  let '(ok, w) := cas_uval32 w lock_unlocked (not32 lock_unlocked) in
  (w, if ok then Some tt else None).

Definition lock_tryacquire (w : Z) : Z * Z :=
  let '(ok, w) := cas_uval32 w lock_unlocked (not32 lock_unlocked) in
  (w, if ok then 1 else 0).

Definition lock_release (w : Z) : Z := lock_unlocked.

Definition rw_lock_init : Z := 0.
Definition write_locked (w : Z) : Z := Z.land (2 ^ 31) w.
Definition read_locked (w : Z) : Z := Z.land w (2 ^ 31 - 1).

Definition read_lock_acquire (w : Z) (l : snap) : Z * (snap + unit) :=
  match l with
  | None => (w, inl (Some (Z.land w (2 ^ 31 - 1))))
  | Some val =>
      let '(ok, w) := cas_uval32 w val (u32 (val + 1)) in
      (w, if ok then inr tt else inl None)
  end.

Definition write_lock_acquire (w : Z) : Z * option unit :=
  let '(ok, w) := cas_uval32 w 0 (2 ^ 31) in
  (w, if ok then Some tt else None).

Definition write_lock_release (w : Z) : Z := 0.

Definition read_lock_release (w : Z) (l : snap) : Z * (snap + unit) :=
  match l with
  | None => (w, inl (Some w))
  | Some val =>
      let '(ok, w) := cas_uval32 w val (u32 (val - 1)) in
      (w, if ok then inr tt else inl None)
  end.

Definition lockbit (val : Z) (w : Z) (l : snap) : Z * (snap + Z) :=
  match l with
  | None => (w, inl (Some (Z.land w (not32 val))))
  | Some old =>
      let '(ok, w) := cas_uval32 w old (Z.lor old val) in
      (w, if ok then inr old else inl None)
  end.

Definition unlockbit (val : Z) (w : Z) (l : snap) : Z * (snap + Z) :=
  match l with
  | None => (w, inl (Some (Z.land w (not32 val))))
  | Some old =>
      let '(ok, w) := cas_uval32 w (Z.lor old val) old in
      (w, if ok then inr old else inl None)
  end.

(** A processor that runs a lock-bit routine while nothing else touches the word:
    the load, then the comparison; a failed comparison would repeat for ever. *)
Definition lockbit_alone (val w : Z) : res Z :=
  match lockbit val w (Some (Z.land w (not32 val))) with
  | (w, inr _) => Ok w
  | (_, inl _) => Fault Deadlock
  end.

Definition unlockbit_alone (val w : Z) : res Z :=
  match unlockbit val w (Some (Z.land w (not32 val))) with
  | (w, inr _) => Ok w
  | (_, inl _) => Fault Deadlock
  end.

(** ** Interleaving

    A system is the shared word and the state of every processor; a step lets
    one processor perform one access. *)
Section System.
Context {T : Type} (tstep : Z -> T -> Z -> T -> Prop).

Inductive sys_step : Z * list T -> Z * list T -> Prop :=
  | Sys_step w ts i t w' t' :
      ts !! i = Some t -> tstep w t w' t' -> sys_step (w, ts) (w', <[i := t']> ts).

Lemma sys_invariant (I : Z * list T -> Prop) s s' :
  (forall w ts i t w' t', I (w, ts) -> ts !! i = Some t -> tstep w t w' t' -> I (w', <[i := t']> ts)) ->
  I s -> rtc sys_step s s' -> I s'.
Proof.
  intros Hstep HI Hrtc. induction Hrtc as [|s1 s2 s3 H12 _ IH]; [done|]. apply IH.
  inversion H12; subst. by eapply Hstep.
Qed.

Lemma sys_length s s' : rtc sys_step s s' -> length s'.2 = length s.2.
Proof.
  intros H. induction H as [|s1 s2 s3 H12 _ IH]; [done|]. rewrite IH.
  inversion H12; subst. apply length_insert.
Qed.
End System.

(** *** Spin locks *)
Inductive spin := SIdle | SAcquiring | SHolding.

Inductive spin_step : Z -> spin -> Z -> spin -> Prop :=
  | Spin_start w : spin_step w SIdle w SAcquiring
  | Spin_acquire w w' r :
      lock_acquire w = (w', r) ->
      spin_step w SAcquiring w' (if r is Some _ then SHolding else SAcquiring)
  | Spin_try w w' r :
      lock_tryacquire w = (w', r) ->
      spin_step w SIdle w' (if r =? 1 then SHolding else SIdle)
  | Spin_release w : spin_step w SHolding (lock_release w) SIdle.

Definition spin_holds (t : spin) : Z := if t is SHolding then 1 else 0.

Definition spin_inv (s : Z * list spin) : Prop :=
  (s.1 = lock_unlocked \/ s.1 = not32 lock_unlocked) /\ zsum spin_holds s.2 = b2z (lock_held s.1).

Lemma held_locked : b2z (lock_held (not32 lock_unlocked)) = 1.
Proof. reflexivity. Qed.

Lemma spin_inv_step w ts i t w' t' :
  spin_inv (w, ts) -> ts !! i = Some t -> spin_step w t w' t' -> spin_inv (w', <[i := t']> ts).
Proof.
  unfold spin_inv. simpl. intros [Hw Hs] Hi Hst.
  rewrite (zsum_insert _ _ _ _ t' Hi).
  destruct Hst as [w|w w' r E|w w' r E|w].
  - simpl. split; [done|lia].
  - unfold lock_acquire, cas_uval32, cas in E.
    destruct (Z.eqb_spec w lock_unlocked) as [->|]; injection E as <- <-;
      cbn in *; rewrite ?held_locked; split; auto; lia.
  - unfold lock_tryacquire, cas_uval32, cas in E.
    destruct (Z.eqb_spec w lock_unlocked) as [->|]; injection E as <- <-;
      cbn in *; rewrite ?held_locked; split; auto; lia.
  - pose proof (zsum_elem spin_holds ts i _ ltac:(by intros []) Hi).
    destruct Hw as [->| ->]; cbn in *; rewrite ?held_locked in *; split; auto; lia.
Qed.

(** *** Reader-writer locks *)
Inductive rw := RIdle | RAcquiring (l : snap) | Reading | RReleasing (l : snap) | WAcquiring | Writing.

Inductive rw_step : Z -> rw -> Z -> rw -> Prop :=
  | Rw_start_read w : rw_step w RIdle w (RAcquiring None)
  | Rw_start_write w : rw_step w RIdle w WAcquiring
  | Rw_read w l w' r :
      read_lock_acquire w l = (w', r) ->
      rw_step w (RAcquiring l) w' (match r with inl l => RAcquiring l | inr _ => Reading end)
  | Rw_write w w' r :
      write_lock_acquire w = (w', r) ->
      rw_step w WAcquiring w' (if r is Some _ then Writing else WAcquiring)
  | Rw_stop_read w : rw_step w Reading w (RReleasing None)
  | Rw_read_release w l w' r :
      read_lock_release w l = (w', r) ->
      rw_step w (RReleasing l) w' (match r with inl l => RReleasing l | inr _ => RIdle end)
  | Rw_write_release w : rw_step w Writing (write_lock_release w) RIdle.

Definition rw_reads (t : rw) : Z :=
  match t with Reading | RReleasing _ => 1 | _ => 0 end.
Definition rw_writes (t : rw) : Z := if t is Writing then 1 else 0.

(** What a processor remembers of the word between its load and its compare. *)
Definition rw_snap (t : rw) : Prop :=
  match t with RAcquiring (Some v) => 0 <= v < 2 ^ 31 | _ => True end.

Record rw_inv (s : Z * list rw) : Prop := {
  rw_snaps : Forall rw_snap s.2;
  rw_few : Z.of_nat (length s.2) < 2 ^ 31;
  rw_word : s.1 = zsum rw_writes s.2 * 2 ^ 31 + zsum rw_reads s.2;
  rw_excl : zsum rw_writes s.2 = 0 \/ zsum rw_writes s.2 = 1 /\ zsum rw_reads s.2 = 0
}.

Lemma rw_reads_nonneg t : 0 <= rw_reads t.
Proof. by destruct t. Qed.
Lemma rw_writes_nonneg t : 0 <= rw_writes t.
Proof. by destruct t. Qed.

Lemma rw_reads_room ts i t :
  ts !! i = Some t -> rw_reads t = 0 -> zsum rw_reads ts < Z.of_nat (length ts).
Proof.
  intros Hi Ht. pose proof (zsum_bound rw_reads (<[i := Reading]> ts) 1 ltac:(by intros [])).
  rewrite (zsum_insert _ _ _ _ Reading Hi), length_insert in H. simpl in H. lia.
Qed.

Lemma rw_inv_step w ts i t w' t' :
  rw_inv (w, ts) -> ts !! i = Some t -> rw_step w t w' t' -> rw_inv (w', <[i := t']> ts).
Proof.
  intros [Hsn Hfew Hw Hex] Hi Hst. simpl in *.
  pose proof (zsum_nonneg rw_reads ts rw_reads_nonneg) as Hr0.
  pose proof (zsum_elem rw_reads ts i t rw_reads_nonneg Hi) as Hr1.
  pose proof (zsum_elem rw_writes ts i t rw_writes_nonneg Hi) as Hw1.
  pose proof (rw_reads_room ts i t Hi) as Hroom.
  pose proof (zsum_bound rw_reads ts 1 ltac:(by intros [])) as Hr2.
  assert (rw_snap t') as Ht'.
  { destruct Hst as [w|w|w l w' r E|w w' r E|w|w l w' r E|w]; simpl; try done.
    - destruct l as [v|]; simpl in E.
      + unfold cas_uval32, cas in E. by destruct (w =? v); injection E as <- <-.
      + injection E as <- <-. simpl. change (2 ^ 31 - 1) with (Z.ones 31). rewrite Z.land_ones by lia. apply Z.mod_pos_bound. lia. 
    - by destruct r.
    - destruct l as [v|]; simpl in E; [|by injection E as <- <-].
      unfold cas_uval32, cas in E. by destruct (w =? v); injection E as <- <-. }
  assert (rw_snap t) as Ht by (by eapply (Forall_lookup_1 rw_snap)).
  enough (w' = (zsum rw_writes ts - rw_writes t + rw_writes t') * 2 ^ 31 +
               (zsum rw_reads ts - rw_reads t + rw_reads t') /\
          (zsum rw_writes ts - rw_writes t + rw_writes t' = 0 \/
           zsum rw_writes ts - rw_writes t + rw_writes t' = 1 /\
           zsum rw_reads ts - rw_reads t + rw_reads t' = 0)) as [? ?].
  { split; simpl; rewrite ?length_insert, ?(zsum_insert _ _ _ _ t' Hi); try done.
    by apply Forall_insert. }
  clear Hsn Ht' Hi.
  destruct Hst as [w|w|w l w' r E|w w' r E|w|w l w' r E|w]; simpl in *; try lia.
  - destruct l as [v|]; simpl in E; [|injection E as <- <-; simpl; lia].
    unfold cas_uval32, cas in E. destruct (Z.eqb_spec w v); injection E as <- <-; simpl in *; [|lia].
    rewrite u32_small by lia. lia.
  - unfold write_lock_acquire, cas_uval32, cas in E.
    destruct (Z.eqb_spec w 0); injection E as <- <-; simpl; lia.
  - destruct l as [v|]; simpl in E; [|injection E as <- <-; simpl; lia].
    unfold cas_uval32, cas in E. destruct (Z.eqb_spec w v); injection E as <- <-; simpl in *; [|lia].
    rewrite u32_small by lia. lia.
  - unfold write_lock_release. lia.
Qed.

(** *** Lock bits

    The other bits of the word belong to the holder, who may store any word
    with the lock bit still set, and to [xir_find], which claims a word that is
    entirely zero. *)
Inductive bitlock := BIdle | BAcquiring (l : snap) | BHolding | BReleasing (l : snap).

Section LockBit.
(** The mask, one bit of a 32-bit word. *)
Context (n : Z) (Hn : 0 <= n < 32).
Local Abbreviation mask := (2 ^ n).

Inductive bit_step : Z -> bitlock -> Z -> bitlock -> Prop :=
  | Bit_start w : bit_step w BIdle w (BAcquiring None)
  | Bit_acquire w l w' r :
      lockbit mask w l = (w', r) ->
      bit_step w (BAcquiring l) w' (match r with inl l => BAcquiring l | inr _ => BHolding end)
  | Bit_store w w' :
      is_u32 w' -> Z.testbit w' n = true -> bit_step w BHolding w' BHolding
  | Bit_stop w : bit_step w BHolding w (BReleasing None)
  | Bit_release w l w' r :
      unlockbit mask w l = (w', r) ->
      bit_step w (BReleasing l) w' (match r with inl l => BReleasing l | inr _ => BIdle end)
  | Bit_claim w v ok w' :
      is_u32 v -> Z.testbit v n = false -> cas_uval32 w 0 v = (ok, w') -> bit_step w BIdle w' BIdle.

Definition bit_holds (t : bitlock) : Z :=
  match t with BHolding | BReleasing _ => 1 | _ => 0 end.

Definition bit_snap (w : Z) (t : bitlock) : Prop :=
  match t with
  | BAcquiring (Some v) => is_u32 v /\ Z.testbit v n = false
  | BReleasing (Some v) => is_u32 v /\ Z.testbit v n = false /\ w = Z.lor v mask
  | _ => True
  end.

Record bit_inv (s : Z * list bitlock) : Prop := {
  bit_word : is_u32 s.1;
  bit_snaps : forall i t, s.2 !! i = Some t -> bit_snap s.1 t;
  bit_count : zsum bit_holds s.2 = b2z (Z.testbit s.1 n)
}.

Lemma bit_holds_nonneg t : 0 <= bit_holds t.
Proof. by destruct t. Qed.

Lemma clear_bit x : Z.testbit (Z.land x (not32 mask)) n = false.
Proof. rewrite Z.land_spec, testbit_not32, testbit_pow2, Z.eqb_refl by lia. by rewrite !andb_false_r. Qed.

Lemma set_bit x : Z.testbit (Z.lor x mask) n = true.
Proof. rewrite Z.lor_spec, testbit_pow2, Z.eqb_refl by lia. apply orb_true_r. Qed.

(** Clearing a set bit and setting it again. *)
Lemma clear_set x : is_u32 x -> Z.testbit x n = true -> Z.lor (Z.land x (not32 mask)) mask = x.
Proof.
  intros Hx Hb. bits i. destruct (Z.eqb_spec n i) as [->|]; simpl.
  - by rewrite Hb, orb_true_r.
  - rewrite orb_false_r, andb_true_r. zbool; [by rewrite andb_true_r|].
    rewrite (testbit_high x 32) by (done || lia). done.
Qed.

Lemma clear_clean x : is_u32 x -> Z.testbit x n = false -> Z.land x (not32 mask) = x.
Proof.
  intros Hx Hb. bits i. destruct (Z.ltb_spec i 32); simpl.
  - destruct (Z.eqb_spec n i) as [->|]; simpl; [by rewrite Hb|apply andb_true_r].
  - rewrite (is_u32_testbit x) by (done || lia). done.
Qed.

(** Only the holder changes a word whose lock bit is set. *)
Lemma bit_step_owner w t w' t' :
  bit_snap w t -> bit_step w t w' t' -> w = w' \/ bit_holds t = 1 \/ Z.testbit w n = false.
Proof.
  intros Hs Hst. destruct Hst as [|w l w' r E|w w'| |w l w' r E|w v ok w' _ _ E]; simpl; auto.
  - destruct l as [v|]; simpl in E; [|injection E as <- <-; auto].
    unfold cas_uval32, cas in E. destruct (Z.eqb_spec w v) as [->|]; injection E as <- <-; auto.
    right. right. apply Hs.
  - unfold cas_uval32, cas in E. destruct (Z.eqb_spec w 0) as [->|]; injection E as <- <-; auto.
    right. right. apply Z.bits_0.
Qed.

(** The effect of one access on the word and on the processor that made it. *)
Lemma bit_step_effect w t w' t' :
  is_u32 w -> bit_snap w t -> (bit_holds t = 1 -> Z.testbit w n = true) -> bit_step w t w' t' ->
  is_u32 w' /\ bit_snap w' t' /\
  b2z (Z.testbit w' n) = b2z (Z.testbit w n) - bit_holds t + bit_holds t'.
Proof.
  intros Hw Hs Hh Hst. destruct Hst as [|w l w' r E|w w' Hw' Hb| |w l w' r E|w v ok w' Hv Hvn E];
    simpl in *; rewrite ?Hh by done; try (split_and!; (done || lia)).
  - destruct l as [v|]; simpl in E.
    + destruct Hs as [Hv Hb]. unfold cas_uval32, cas in E.
      destruct (Z.eqb_spec w v) as [->|]; injection E as <- <-; simpl.
      * rewrite set_bit, Hb. split_and!; auto with word.
      * split_and!; (done || lia).
    + injection E as <- <-. simpl. split_and!; auto using clear_bit with word. lia.
  - rewrite Hb. split_and!; (done || lia).
  - destruct l as [v|]; simpl in E.
    + destruct Hs as (Hv & Hb & ->). unfold cas_uval32, cas in E. rewrite Z.eqb_refl in E.
      injection E as <- <-. simpl. rewrite Hb. done.
    + injection E as <- <-. simpl. rewrite Hh by done. split_and!; auto using clear_bit with word.
      symmetry. auto using clear_set.
  - unfold cas_uval32, cas in E. destruct (Z.eqb_spec w 0) as [->|]; injection E as <- <-.
    + rewrite Hvn, Z.bits_0. done.
    + split_and!; (done || lia).
Qed.

Lemma bit_inv_step w ts i t w' t' :
  bit_inv (w, ts) -> ts !! i = Some t -> bit_step w t w' t' -> bit_inv (w', <[i := t']> ts).
Proof.
  intros [Hw Hs Hc] Hi Hst. simpl in *.
  pose proof (zsum_elem bit_holds ts i t bit_holds_nonneg Hi) as Hle.
  assert (bit_holds t = 1 -> Z.testbit w n = true) as Hh.
  { intros H1. destruct (Z.testbit w n); simpl in Hc; [done|lia]. }
  destruct (bit_step_effect w t w' t' Hw (Hs i t Hi) Hh Hst) as (Hw' & Hs' & Hd).
  split; simpl; [done| |rewrite (zsum_insert _ _ _ _ t' Hi); lia].
  intros j u Hj. destruct (decide (i = j)) as [<-|Hne].
  { rewrite list_lookup_insert_eq in Hj by (by eapply lookup_lt_Some). by injection Hj as <-. }
  rewrite list_lookup_insert_ne in Hj by done. pose proof (Hs j u Hj) as Hu.
  pose proof (zsum_two bit_holds ts i j t u bit_holds_nonneg Hi Hj Hne) as H2.
  destruct (bit_step_owner w t w' t' (Hs i t Hi) Hst) as [<-|[H1|H1]]; [done| |].
  - destruct u as [|[]| |[]]; simpl in *; try done. destruct (Z.testbit w n); simpl in Hc; lia.
  - rewrite H1 in Hc. simpl in Hc. destruct u as [|[]| |[]]; simpl in *; try done.
    pose proof (bit_holds_nonneg t). lia.
Qed.
End LockBit.

(** *** Atomic addition

    A processor remembers, for the statement only, the sum of the additions it
    has completed. *)
Inductive adder := Adder (total : Z) (running : option (Z * snap)).

Inductive add_step : Z -> adder -> Z -> adder -> Prop :=
  | Add_start w total a : add_step w (Adder total None) w (Adder total (Some (a, None)))
  | Add_access w total a l w' r :
      atomic_add a w l = (w', r) ->
      add_step w (Adder total (Some (a, l))) w'
        (match r with
         | inl l => Adder total (Some (a, l))
         | inr _ => Adder (total + a) None
         end).

Definition completed (t : adder) : Z := let 'Adder total _ := t in total.

Definition add_inv (w0 : Z) (s : Z * list adder) : Prop := s.1 = u64 (w0 + zsum completed s.2).

Lemma add_inv_step w0 w ts i t w' t' :
  add_inv w0 (w, ts) -> ts !! i = Some t -> add_step w t w' t' -> add_inv w0 (w', <[i := t']> ts).
Proof.
  unfold add_inv. simpl. intros Hw Hi Hst. rewrite (zsum_insert _ _ _ _ t' Hi).
  destruct Hst as [w total a|w total a l w' r E]; simpl.
  - rewrite Hw. f_equal. lia.
  - destruct l as [v|]; simpl in E.
    + unfold cas_uval, cas in E. destruct (Z.eqb_spec w v) as [->|]; injection E as <- <-; simpl.
      * rewrite Hw. unfold add64, u64. rewrite Zplus_mod_idemp_l. f_equal. lia.
      * rewrite Hw. f_equal. lia.
    + injection E as <- <-. simpl. rewrite Hw. f_equal. lia.
Qed.

(** ** Properties *)

(** Whatever the processors' accesses interleave to, at most one of them
    holds a spin lock, and [lock_held] says whether one does. *)
Theorem spin_lock_exclusion m w ts i j :
  rtc (sys_step spin_step) (lock_init, repeat SIdle m) (w, ts) ->
  (ts !! i = Some SHolding -> ts !! j = Some SHolding -> i = j) /\
  (lock_held w = true <-> exists k, ts !! k = Some SHolding).
Proof.
  intros Hr.
  assert (spin_inv (w, ts)) as [Hw Hs].
  { eapply (sys_invariant spin_step spin_inv); [apply spin_inv_step| |exact Hr].
    split; [by left|]. simpl. change (b2z (lock_held lock_init)) with 0.
    by rewrite zsum_repeat. }
  assert (forall t, 0 <= spin_holds t) as Hnn by (by intros []). simpl in *.
  split.
  - intros Hi Hj. destruct (decide (i = j)) as [|Hne]; [done|].
    pose proof (zsum_two spin_holds ts i j _ _ Hnn Hi Hj Hne). simpl in *.
    destruct (lock_held w); simpl in *; lia.
  - split.
    + intros Hh. rewrite Hh in Hs. clear -Hs. induction ts as [|t ts IH]; simpl in *; [done|].
      destruct t; simpl in *; [| |by exists 0%nat]; destruct IH as [k Hk]; try lia; by exists (S k).
    + intros [k Hk]. pose proof (zsum_elem spin_holds ts k _ Hnn Hk). simpl in *.
      destruct (lock_held w); simpl in *; [done|lia].
Qed.

(** C21: with fewer than 2^31 processors, a writer of a reader-writer lock
    excludes every other writer and every reader; [write_locked] and
    [read_locked] report the writer and the exact number of readers. *)
Theorem rw_lock_exclusion m w ts :
  Z.of_nat m < 2 ^ 31 ->
  rtc (sys_step rw_step) (rw_lock_init, repeat RIdle m) (w, ts) ->
  (forall i j t, ts !! i = Some Writing -> ts !! j = Some t -> i <> j ->
     t <> Writing /\ rw_reads t = 0) /\
  read_locked w = zsum rw_reads ts /\
  write_locked w = zsum rw_writes ts * 2 ^ 31.
Proof.
  intros Hm Hr.
  assert (rw_inv (w, ts)) as [_ Hfew Hw Hex].
  { eapply (sys_invariant rw_step rw_inv); [apply rw_inv_step| |exact Hr].
    assert (zsum rw_reads (repeat RIdle m) = 0 /\ zsum rw_writes (repeat RIdle m) = 0) as [H1 H2].
    { by rewrite !zsum_repeat. }
    split; simpl; rewrite ?repeat_length, ?H1, ?H2; try done; [|by left].
    apply Forall_forall. intros t Ht. apply list_elem_of_In, repeat_spec in Ht as ->. done. }
  simpl in *.
  pose proof (zsum_bound rw_reads ts 1 ltac:(by intros [])) as Hb.
  pose proof (zsum_nonneg rw_reads ts rw_reads_nonneg) as Hr0.
  split_and!.
  - intros i j t Hi Hj Hne.
    pose proof (zsum_two rw_writes ts i j _ _ rw_writes_nonneg Hi Hj Hne).
    pose proof (zsum_elem rw_reads ts j t rw_reads_nonneg Hj).
    pose proof (rw_reads_nonneg t). pose proof (rw_writes_nonneg t). simpl in *. split; [intros ->; simpl in *; lia|lia].
  - unfold read_locked. change (2 ^ 31 - 1) with (Z.ones 31). rewrite Z.land_ones by lia.
    rewrite Hw, Z.add_comm, Z.mod_add by lia. apply Z.mod_small. lia.
  - unfold write_locked. destruct Hex as [E|[E1 E2]].
    + rewrite Hw, E. apply land_zero_iff; [lia|]. intros i Hi. rewrite testbit_pow2 by lia.
      intros <-%Z.eqb_eq. apply (testbit_high _ 31); lia.
    + rewrite Hw, E1, E2. reflexivity.
Qed.

(** At most one processor holds a lock bit, the bit is set exactly while one
    does, and [unlockbit] always succeeds at its first comparison, whatever the
    holder stored in the other bits. *)
Theorem lockbit_exclusion n m w ts :
  0 <= n < 32 ->
  rtc (sys_step (bit_step n)) (0, repeat BIdle m) (w, ts) ->
  zsum bit_holds ts = b2z (Z.testbit w n) /\
  forall i v, ts !! i = Some (BReleasing (Some v)) -> unlockbit (2 ^ n) w (Some v) = (v, inr v).
Proof.
  intros Hn Hr.
  assert (bit_inv n (w, ts)) as [Hw Hs Hc].
  { eapply (sys_invariant (bit_step n) (bit_inv n)); [by apply bit_inv_step| |exact Hr].
    split; simpl.
    - unfold is_u32. lia.
    - intros i t Ht. apply list_elem_of_lookup_2, list_elem_of_In, repeat_spec in Ht as ->. done.
    - by rewrite Z.bits_0, zsum_repeat. }
  split; [done|]. intros i v Hi. destruct (Hs i _ Hi) as (_ & _ & E). simpl in E.
  unfold unlockbit, cas_uval32, cas. by rewrite <- E, Z.eqb_refl.
Qed.

(** No addition is lost: the word always holds its first value plus every
    completed [atomic_add], modulo the width. *)
Theorem atomic_add_total w0 m w ts :
  is_u64 w0 ->
  rtc (sys_step add_step) (w0, repeat (Adder 0 None) m) (w, ts) ->
  w = u64 (w0 + zsum completed ts).
Proof.
  intros Hw0 Hr. apply (sys_invariant add_step (add_inv w0) (w0, repeat (Adder 0 None) m) (w, ts));
    [apply add_inv_step| |done].
  unfold add_inv. simpl. assert (zsum completed (repeat (Adder 0 None) m) = 0) as ->.
  { by rewrite zsum_repeat. }
  rewrite Z.add_0_r. symmetry. by apply u64_small.
Qed.

(** ** Witnesses: short concrete runs *)
Ltac run i c := eapply rtc_l; [eapply (Sys_step _ _ _ i); [reflexivity|c]|]; cbn.

Lemma spin_lock_exclusion_witness :
  ([SHolding; SAcquiring] !! 0%nat = Some SHolding -> [SHolding; SAcquiring] !! 1%nat = Some SHolding -> 0%nat = 1%nat) /\
  (lock_held (not32 0) = true <-> exists k, [SHolding; SAcquiring] !! k = Some SHolding).
Proof.
  apply (spin_lock_exclusion 2).
  run 0%nat ltac:(apply Spin_start). run 1%nat ltac:(apply Spin_start).
  run 0%nat ltac:(by apply Spin_acquire). run 1%nat ltac:(by apply Spin_acquire).
  apply rtc_refl.
Defined.

Lemma rw_lock_exclusion_witness :
  (forall i j t, [Reading; WAcquiring] !! i = Some Writing -> [Reading; WAcquiring] !! j = Some t ->
     i <> j -> t <> Writing /\ rw_reads t = 0) /\
  read_locked 1 = 1 /\ write_locked 1 = 0.
Proof.
  apply (rw_lock_exclusion 2 1 [Reading; WAcquiring]); [lia|].
  run 0%nat ltac:(apply Rw_start_read). run 1%nat ltac:(apply Rw_start_write).
  run 0%nat ltac:(by apply Rw_read). run 0%nat ltac:(by apply Rw_read).
  run 1%nat ltac:(by apply Rw_write).
  apply rtc_refl.
Defined.

Lemma lockbit_exclusion_witness :
  zsum bit_holds [BReleasing (Some 16); BAcquiring (Some 0)] = b2z (Z.testbit (2 ^ 31 + 16) 31) /\
  forall i v, [BReleasing (Some 16); BAcquiring (Some 0)] !! i = Some (BReleasing (Some v)) ->
    unlockbit (2 ^ 31) (2 ^ 31 + 16) (Some v) = (v, inr v).
Proof.
  apply (lockbit_exclusion 31 2); [lia|].
  run 0%nat ltac:(apply Bit_start). run 1%nat ltac:(apply Bit_start).
  run 1%nat ltac:(by apply Bit_acquire).
  run 0%nat ltac:(by apply Bit_acquire). run 0%nat ltac:(by apply Bit_acquire).
  run 0%nat ltac:(apply (Bit_store 31 _ (2 ^ 31 + 16)); [unfold is_u32; lia|reflexivity]).
  run 0%nat ltac:(apply Bit_stop). run 0%nat ltac:(by apply Bit_release).
  apply rtc_refl.
Defined.

Lemma atomic_add_total_witness :
  2 = u64 (ONES64 + zsum completed [Adder 3 None; Adder 0 (Some (5, Some ONES64))]).
Proof.
  apply (atomic_add_total ONES64 2); [unfold is_u64, ONES64; lia|].
  run 0%nat ltac:(apply (Add_start _ _ 3)). run 1%nat ltac:(apply (Add_start _ _ 5)).
  run 0%nat ltac:(by apply Add_access). run 1%nat ltac:(by apply Add_access).
  run 0%nat ltac:(by apply Add_access).
  apply rtc_refl.
Defined.
