(* ===== verification/Xirr.v ===== *)
(** * Xirr: interrupt identifiers, their routing tables and their queues

    [include/xirr.h], [lib/xirr.c] and the queue of [hype/xir.h].  An interrupt
    is a 32-bit word: a 20-bit source, a 4-bit class and an 8-bit priority.  A
    routing table has one line per source: a handler, its data, and flags, one
    of which is the line's lock bit. *)

From S2P Require Import Prelude Atomic.

(** ** Identifiers *)
Definition XIRR_DEVID_SZ : Z := 256.

Definition __xirr_get_field (x width shift : Z) : Z :=
  let mask := Z.shiftl 1 width - 1 in
  Z.land (Z.shiftr x shift) mask.

Definition __xirr_set_field (x val width shift : Z) : Z :=
  let mask := Z.shiftl 1 width - 1 in
  let val := Z.land val mask in
  let mask := not64 (shl64 mask shift) in
  let x := u32 (Z.land x mask) in
  let val := shl64 val shift in
  u32 (Z.lor x val).

Definition XIRR_XISR_WIDTH : Z := 20.
Definition XIRR_XISR_LOG : Z := 0.
Definition XIRR_CLASS_WIDTH : Z := 4.
Definition XIRR_CLASS_LOG : Z := 20.
Definition XIRR_CPPR_WIDTH : Z := 8.
Definition XIRR_CPPR_LOG : Z := 24.

Definition xirr_encode (dev_id class : Z) : Z :=
  let x := __xirr_set_field 0 dev_id XIRR_XISR_WIDTH XIRR_XISR_LOG in
  __xirr_set_field x class XIRR_CLASS_WIDTH XIRR_CLASS_LOG.

Definition xirr_cppr (xirr : Z) : Z := __xirr_get_field xirr XIRR_CPPR_WIDTH XIRR_CPPR_LOG.
Definition xirr_dev_id (xirr : Z) : Z := __xirr_get_field xirr XIRR_XISR_WIDTH XIRR_XISR_LOG.
Definition xirr_class (xirr : Z) : Z := __xirr_get_field xirr XIRR_CLASS_WIDTH XIRR_CLASS_LOG.
Definition xirr_xisr (xirr : Z) : Z := __xirr_get_field xirr XIRR_XISR_WIDTH XIRR_XISR_LOG.

(** ** Lines *)
Definition XIRR_INVALID : Z := 2 ^ 32 - 1.
Definition XIRR_DISABLED : Z := 1.
Definition XIRR_PENDING : Z := 2.
Definition XIRR_OUTSTANDING : Z := 4.
Definition XIRR_DATA_THR : Z := 8.
Definition XIRR_INUSE : Z := 16.
Definition XIRR_LOCK_BIT : Z := 2 ^ 31.

(** Handlers: the one of [hype/xir.c], or a routine of another component. *)
Inductive handler := Xir_raise_fn | Other_fn (fn : Z).

#[global] Instance handler_eq_dec : EqDecision handler.
Proof. solve_decision. Defined.

(** [struct xh_data]; pointers are words, 0 is [NULL]. *)
Record xh_data := XhData {
  xh_dat : Z;
  xh_handler : option handler;
  xh_device : Z;
  xh_flags : Z
}.

Definition set_flags (xh : xh_data) (f : Z) : xh_data :=
  XhData (xh_dat xh) (xh_handler xh) (xh_device xh) (u32 f).

Definition __xirr_lock (xh : xh_data) : res xh_data :=
  let! w := lockbit_alone XIRR_LOCK_BIT (xh_flags xh) in Ok (set_flags xh w).

Definition __xirr_unlock (xh : xh_data) : res xh_data :=
  let! w := unlockbit_alone XIRR_LOCK_BIT (xh_flags xh) in Ok (set_flags xh w).

(** ** Routing tables: [lib/xirr.c] *)
Definition xirr_check_range (xirr : Z) : res bool :=
  if XIRR_DEVID_SZ <=? xirr_dev_id xirr then Fault Assert_failed else Ok true.

Definition xirr_ptr (xhd : list xh_data) (xirr : Z) : res xh_data := aget xhd (xirr_dev_id xirr).
Definition xirr_put (xhd : list xh_data) (xirr : Z) (xh : xh_data) : res (list xh_data) :=
  aset xhd (xirr_dev_id xirr) xh.

Definition xirr_get_data (xhd : list xh_data) (xirr : Z) : res Z :=
  let! _ := xirr_check_range xirr in
  let! xh := xirr_ptr xhd xirr in
  Ok (xh_dat xh).

Definition xirr_get_flags (xhd : list xh_data) (xirr : Z) : res Z :=
  let! _ := xirr_check_range xirr in
  let! xh := xirr_ptr xhd xirr in
  Ok (xh_flags xh).

Definition xirr_set_data (xhd : list xh_data) (xirr data : Z) : res (Z * list xh_data) :=
  let! _ := xirr_check_range xirr in
  let! xh := xirr_ptr xhd xirr in
  let! xhd := xirr_put xhd xirr (XhData data (xh_handler xh) (xh_device xh) (xh_flags xh)) in
  Ok (xh_dat xh, xhd).

Definition xirr_set_flags (xhd : list xh_data) (xirr f : Z) : res (Z * list xh_data) :=
  let! _ := xirr_check_range xirr in
  let! xh := xirr_ptr xhd xirr in
  let! xhd := xirr_put xhd xirr (set_flags xh f) in
  Ok (xh_flags xh, xhd).

Definition xirr_set_handler (xhd : list xh_data) (xirr : Z) (h : option handler) (d : Z)
  : res (Z * list xh_data) :=
  let! _ := xirr_check_range xirr in
  let! xh := xirr_ptr xhd xirr in
  let! xh := __xirr_lock xh in
  if bool_decide (xh_handler xh <> None) then
    let! xh := __xirr_unlock xh in
    let! xhd := xirr_put xhd xirr xh in
    Ok (0, xhd)
  else
    cassert (bool_decide (h <> None))
      (let xh := XhData d h (xh_device xh) (Z.lor XIRR_LOCK_BIT XIRR_INUSE) in
       let! xh := __xirr_unlock xh in
       let! xhd := xirr_put xhd xirr xh in
       Ok (1, xhd)).

Definition xirr_clear_handler (xhd : list xh_data) (xirr : Z) : res (list xh_data) :=
  let! _ := xirr_check_range xirr in
  let! xh := xirr_ptr xhd xirr in
  cassert (bool_decide (xh_handler xh <> None))
    (let! xh := __xirr_lock xh in
     let xh := XhData 0 None (xh_device xh) XIRR_LOCK_BIT in
     let! xh := __xirr_unlock xh in
     xirr_put xhd xirr xh).

Definition xirr_lock (xhd : list xh_data) (xirr : Z) : res (list xh_data) :=
  let! _ := xirr_check_range xirr in
  let! xh := xirr_ptr xhd xirr in
  let! xh := __xirr_lock xh in
  xirr_put xhd xirr xh.

Definition xirr_unlock (xhd : list xh_data) (xirr : Z) : res (list xh_data) :=
  let! _ := xirr_check_range xirr in
  let! xh := xirr_ptr xhd xirr in
  let! xh := __xirr_unlock xh in
  xirr_put xhd xirr xh.

(** [xirr_handle] calls the line's handler with the line locked; the handler may
    change the table and the rest of the system, of type [S].  [receiver] is
    [None] for a [NULL] pointer, and else what it points to. *)
Section Handle.
Context {S : Type}
  (call : handler -> Z -> Z -> option Z -> list xh_data -> S -> res (Z * option Z * list xh_data * S)).

Definition xirr_handle (xhd : list xh_data) (xirr payload : Z) (receiver : option Z) (s : S)
  : res (Z * option Z * list xh_data * S) :=
  let pend xh := xirr_put xhd xirr (set_flags xh (Z.lor (xh_flags xh) XIRR_PENDING)) in
  let! _ := xirr_check_range xirr in
  let! xhd := xirr_lock xhd xirr in
  let! xh := xirr_ptr xhd xirr in
  let! (ret, receiver, xhd, s) :=
    match xh_handler xh with
    | Some h =>
        if Z.land (xh_flags xh) XIRR_DISABLED =? 0
        then call h xirr payload receiver xhd s
        else let! xhd := pend xh in Ok (0, receiver, xhd, s)
    | None => let! xhd := pend xh in Ok (0, receiver, xhd, s)
    end in
  let receiver := if receiver is Some _ then Some 0 else None in
  let! xhd := xirr_unlock xhd xirr in
  Ok (ret, receiver, xhd, s).
End Handle.

(** ** Queues: [struct xir_queue] of [hype/xir.h] *)
Record xir_queue := XirQueue { xq_head : Z; xq_tail : Z; xq_list : list Z }.

Definition xirq_empty (xq : xir_queue) : bool := xq_head xq =? xq_tail xq.

Definition xirq_peek (xq : xir_queue) : res Z :=
  if xq_head xq =? xq_tail xq then Ok 0 else aget (xq_list xq) (xq_head xq).

Definition xirq_pop (xq : xir_queue) : res (Z * xir_queue) :=
  let head := xq_head xq in
  if head =? xq_tail xq then Ok (0, xq)
  else
    let next := u16 (xq_head xq + 1) in
    let next := if XIRR_DEVID_SZ <=? next then 0 else next in
    let! x := aget (xq_list xq) head in
    Ok (x, XirQueue next (xq_tail xq) (xq_list xq)).

Definition xir_add (xq : xir_queue) (xirr : Z) : res (Z * xir_queue) :=
  let tail := xq_tail xq + 1 in
  let tail := if XIRR_DEVID_SZ <=? tail then 0 else tail in
  if negb (tail =? xq_head xq) then
    let ret := xq_tail xq in
    let! l := aset (xq_list xq) ret xirr in
    Ok (ret, XirQueue (xq_head xq) (u16 tail) l)
  else Ok (-1, xq).

(** ** Lemmas: fields *)
Lemma testbit_ones n i : 0 <= n -> Z.testbit (Z.shiftl 1 n - 1) i = (0 <=? i) && (i <? n).
Proof.
  intros Hn. rewrite Z.shiftl_mul_pow2, Z.mul_1_l by done.
  replace (2 ^ n - 1) with (Z.ones n) by (rewrite Z.ones_equiv; lia).
  destruct (Z.leb_spec 0 i); simpl; [|by apply Z.testbit_neg_r].
  destruct (Z.ltb_spec i n); [apply Z.ones_spec_low|apply Z.ones_spec_high]; lia.
Qed.

Lemma testbit_get_field x width shift i :
  0 <= width -> 0 <= shift -> 0 <= i ->
  Z.testbit (__xirr_get_field x width shift) i = (i <? width) && Z.testbit x (i + shift).
Proof.
  intros Hw Hs Hi. unfold __xirr_get_field. rewrite Z.land_spec, testbit_ones by done.
  rewrite Z.shiftr_spec, andb_comm by done. zcases.
Qed.

Lemma testbit_set_field x val width shift i :
  0 <= width -> 0 <= shift -> shift + width <= 32 -> 0 <= i ->
  Z.testbit (__xirr_set_field x val width shift) i =
  (i <? 32) && (if (shift <=? i) && (i <? shift + width) then Z.testbit val (i - shift)
                else Z.testbit x i).
Proof.
  intros Hw Hs Hsw Hi. unfold __xirr_set_field.
  rewrite testbit_u32, Z.lor_spec, testbit_u32, Z.land_spec, testbit_not64, !testbit_shl64,
    Z.land_spec, !testbit_ones by done.
  zbool; try lia; simpl; rewrite ?andb_true_r, ?andb_false_r, ?orb_false_r; done.
Qed.

Lemma testbit_encode dev_id class i :
  0 <= i ->
  Z.testbit (xirr_encode dev_id class) i =
  if i <? 20 then Z.testbit dev_id i else (i <? 24) && Z.testbit class (i - 20).
Proof.
  intros Hi. unfold xirr_encode, XIRR_XISR_WIDTH, XIRR_XISR_LOG, XIRR_CLASS_WIDTH, XIRR_CLASS_LOG.
  rewrite !testbit_set_field, Z.bits_0 by lia. rewrite Z.sub_0_r. zcases.
Qed.

Lemma testbit_mod_pow2 x n i : 0 <= n -> 0 <= i -> Z.testbit (x mod 2 ^ n) i = (i <? n) && Z.testbit x i.
Proof.
  intros Hn Hi. destruct (Z.ltb_spec i n); simpl.
  - apply Z.mod_pow2_bits_low. lia.
  - apply Z.mod_pow2_bits_high. lia.
Qed.

Lemma decode_encode dev_id class :
  xirr_dev_id (xirr_encode dev_id class) = dev_id mod 2 ^ 20 /\
  xirr_class (xirr_encode dev_id class) = class mod 2 ^ 4.
Proof.
  unfold xirr_dev_id, xirr_class, XIRR_XISR_WIDTH, XIRR_XISR_LOG, XIRR_CLASS_WIDTH, XIRR_CLASS_LOG.
  split; apply Z.bits_inj'; intros i Hi;
    rewrite ?testbit_mod_pow2, ?testbit_get_field, ?testbit_encode by lia.
  - rewrite Z.add_0_r. zcases.
  - replace (i + 20 - 20) with i by lia. zcases.
Qed.

Lemma decode_encode_small dev_id class :
  0 <= dev_id < 2 ^ 20 -> 0 <= class < 16 ->
  xirr_dev_id (xirr_encode dev_id class) = dev_id /\ xirr_class (xirr_encode dev_id class) = class.
Proof. intros Hd Hc. destruct (decode_encode dev_id class) as [-> ->]. split; by apply Z.mod_small. Qed.

(** An identifier decodes to the source and the class it was encoded from,
    each truncated to its field, with priority zero; and an identifier is its
    source and class encoded, apart from its priority. *)
Theorem xirr_encode_decode dev_id class xirr :
  xirr_dev_id (xirr_encode dev_id class) = dev_id mod 2 ^ 20 /\
  xirr_class (xirr_encode dev_id class) = class mod 2 ^ 4 /\
  xirr_cppr (xirr_encode dev_id class) = 0 /\
  xirr_encode (xirr_dev_id xirr) (xirr_class xirr) = xirr mod 2 ^ 24.
Proof.
  destruct (decode_encode dev_id class) as [Ed Ec]. split; [done|]. split; [done|].
  unfold xirr_dev_id, xirr_class, xirr_cppr, XIRR_XISR_WIDTH, XIRR_XISR_LOG, XIRR_CLASS_WIDTH,
    XIRR_CLASS_LOG, XIRR_CPPR_WIDTH, XIRR_CPPR_LOG.
  split; apply Z.bits_inj'; intros i Hi;
    rewrite ?Z.bits_0, ?testbit_encode, ?testbit_mod_pow2, ?testbit_get_field, ?testbit_encode by lia.
  - zcases.
  - rewrite Z.add_0_r. zbool; try lia; try done.
    rewrite testbit_get_field by lia. replace (i - 20 + 20) with i by lia. zcases.
Qed.

(** ** The queue as a list *)
Record xq_wf (q : xir_queue) : Prop := {
  xq_head_range : 0 <= xq_head q < XIRR_DEVID_SZ;
  xq_tail_range : 0 <= xq_tail q < XIRR_DEVID_SZ;
  xq_len : Z.of_nat (length (xq_list q)) = XIRR_DEVID_SZ
}.

Definition xq_count (q : xir_queue) : Z := (xq_tail q - xq_head q) mod XIRR_DEVID_SZ.

Definition xq_at (q : xir_queue) (k : nat) : Z :=
  default 0 (xq_list q !! Z.to_nat ((xq_head q + Z.of_nat k) mod XIRR_DEVID_SZ)).

Definition xq_contents (q : xir_queue) : list Z := xq_at q <$> seq 0 (Z.to_nat (xq_count q)).

(** One slot stays free, to tell a full ring from an empty one. *)
Definition XQ_CAPACITY : Z := XIRR_DEVID_SZ - 1.

Lemma xq_contents_length q : Z.of_nat (length (xq_contents q)) = xq_count q.
Proof.
  unfold xq_contents. rewrite length_fmap, length_seq. unfold xq_count.
  pose proof (Z.mod_pos_bound (xq_tail q - xq_head q) XIRR_DEVID_SZ ltac:(done)). lia.
Qed.

(** The next index of the ring. *)
Lemma ring_next i :
  0 <= i < XIRR_DEVID_SZ ->
  (if XIRR_DEVID_SZ <=? i + 1 then 0 else i + 1) = (i + 1) mod XIRR_DEVID_SZ.
Proof. unfold XIRR_DEVID_SZ. intros. zcases. Qed.

Lemma xir_add_room q x :
  xq_wf q -> xq_count q < XQ_CAPACITY ->
  exists q', xir_add q x = Ok (xq_tail q, q') /\ xq_wf q' /\ xq_contents q' = xq_contents q ++ [x].
Proof.
  intros [Hh Ht Hl] Hc. unfold xir_add. rewrite ring_next by done.
  unfold xq_count, XQ_CAPACITY in Hc.
  destruct (Z.eqb_spec ((xq_tail q + 1) mod XIRR_DEVID_SZ) (xq_head q)) as [E|E]; simpl negb; cbn match.
  { unfold XIRR_DEVID_SZ in *. dlia. }
  rewrite aset_ok by lia. cbn [res_bind]. eexists. split; [done|].
  assert (0 <= (xq_tail q + 1) mod XIRR_DEVID_SZ < XIRR_DEVID_SZ) as Hb by (apply Z.mod_pos_bound; done).
  assert (u16 ((xq_tail q + 1) mod XIRR_DEVID_SZ) = (xq_tail q + 1) mod XIRR_DEVID_SZ) as Hu.
  { unfold u16. apply Z.mod_small. unfold XIRR_DEVID_SZ in *. lia. }
  split; [split; simpl; rewrite ?Hu, ?length_insert; done|].
  unfold xq_contents. unfold xq_count. cbn [xq_tail xq_head xq_list]. rewrite Hu.
  replace (Z.to_nat (((xq_tail q + 1) mod XIRR_DEVID_SZ - xq_head q) mod XIRR_DEVID_SZ))
    with (S (Z.to_nat ((xq_tail q - xq_head q) mod XIRR_DEVID_SZ))).
  2:{ unfold XIRR_DEVID_SZ in *. dlia. }
  rewrite seq_S, fmap_app. f_equal.
  - apply list_fmap_ext. intros i k Hk. apply lookup_seq in Hk as [-> Hk]. unfold xq_at. simpl.
    rewrite list_lookup_insert_ne; [done|]. unfold XIRR_DEVID_SZ in *. dlia.
  - simpl. unfold xq_at. simpl.
    replace (Z.to_nat ((xq_head q + _) mod _)) with (Z.to_nat (xq_tail q)).
    2:{ unfold XIRR_DEVID_SZ in *. dlia. }
    rewrite list_lookup_insert_eq by lia. done.
Qed.

Lemma xir_add_full q x : xq_wf q -> xq_count q = XQ_CAPACITY -> xir_add q x = Ok (-1, q).
Proof.
  intros [Hh Ht Hl] Hc. unfold xir_add. rewrite ring_next by done.
  destruct (Z.eqb_spec ((xq_tail q + 1) mod XIRR_DEVID_SZ) (xq_head q)) as [E|E]; [done|].
  exfalso. apply E. unfold xq_count, XQ_CAPACITY, XIRR_DEVID_SZ in *. dlia.
Qed.

Lemma xir_add_total q x : xq_wf q -> exists n q', xir_add q x = Ok (n, q').
Proof.
  intros Hw. destruct (Z.eqb_spec (xq_count q) XQ_CAPACITY) as [E|E]; [do 2 eexists; by apply xir_add_full|].
  assert (0 <= xq_count q < 256) by (unfold xq_count; apply Z.mod_pos_bound; done).
  destruct (xir_add_room q x Hw) as (q' & E1 & _); [|eauto]. unfold XQ_CAPACITY, XIRR_DEVID_SZ in *. lia.
Qed.

Lemma xirq_pop_cons q x r :
  xq_wf q -> xq_contents q = x :: r ->
  xirq_peek q = Ok x /\
  exists q', xirq_pop q = Ok (x, q') /\ xq_wf q' /\ xq_contents q' = r.
Proof.
  intros [Hh Ht Hl] Hc. pose proof (xq_contents_length q) as Hn. rewrite Hc in Hn. simpl in Hn.
  unfold xq_count in Hn.
  unfold xirq_peek, xirq_pop. destruct (Z.eqb_spec (xq_head q) (xq_tail q)) as [E|E].
  { rewrite E, Z.sub_diag, Z.mod_0_l in Hn by done. lia. }
  unfold xq_contents, xq_count in Hc. rewrite <- Hn, Nat2Z.id in Hc. simpl in Hc.
  injection Hc as Hx Hr. unfold xq_at in Hx. rewrite Z.add_0_r, Z.mod_small in Hx by done.
  destruct (xq_list q !! Z.to_nat (xq_head q)) as [y|] eqn:Ey.
  2:{ apply lookup_ge_None in Ey. lia. }
  simpl in Hx. subst y. rewrite (aget_ok _ _ x) by (done || lia). cbn [res_bind]. split; [done|].
  assert (u16 (xq_head q + 1) = xq_head q + 1) as ->.
  { unfold u16. apply Z.mod_small. unfold XIRR_DEVID_SZ in *. lia. }
  rewrite ring_next by done. eexists. split; [done|].
  assert (0 <= (xq_head q + 1) mod XIRR_DEVID_SZ < XIRR_DEVID_SZ) by (apply Z.mod_pos_bound; done).
  split; [done|].
  unfold xq_contents, xq_count. cbn [xq_tail xq_head xq_list].
  replace (Z.to_nat ((xq_tail q - (xq_head q + 1) mod XIRR_DEVID_SZ) mod XIRR_DEVID_SZ)) with (length r).
  2:{ unfold XIRR_DEVID_SZ in *. dlia. }
  set (n := length r) in *. clearbody n. rewrite <- Hr. change (list_fmap nat Z) with (@fmap list _ nat Z).
  rewrite <- fmap_S_seq, <- list_fmap_compose. apply list_fmap_ext. intros i k Hk.
  unfold xq_at. simpl. do 3 f_equal. unfold XIRR_DEVID_SZ. dlia.
Qed.

Lemma xirq_pop_nil q :
  xq_wf q -> xq_contents q = [] -> xirq_peek q = Ok 0 /\ xirq_pop q = Ok (0, q).
Proof.
  intros [Hh Ht Hl] Hc. pose proof (xq_contents_length q) as Hn. rewrite Hc in Hn. simpl in Hn.
  unfold xirq_peek, xirq_pop. destruct (Z.eqb_spec (xq_head q) (xq_tail q)) as [E|E]; [done|].
  unfold xq_count, XIRR_DEVID_SZ in *. dlia.
Qed.

Lemma xirq_empty_contents q : xq_wf q -> xirq_empty q = bool_decide (xq_contents q = []).
Proof.
  intros [Hh Ht Hl]. pose proof (xq_contents_length q) as Hn. unfold xirq_empty, xq_count in *.
  destruct (Z.eqb_spec (xq_head q) (xq_tail q)) as [E|E]; symmetry.
  - rewrite E, Z.sub_diag, Z.mod_0_l in Hn by done.
    apply bool_decide_eq_true. destruct (xq_contents q); [done|simpl in Hn; lia].
  - apply bool_decide_eq_false. intros E'. rewrite E' in Hn. simpl in Hn.
    unfold XIRR_DEVID_SZ in *. dlia.
Qed.

Lemma xirq_add_total q x :
  xq_wf q ->
  exists n q', xir_add q x = Ok (n, q') /\ xq_wf q' /\
    (0 <= n /\ xq_contents q' = xq_contents q ++ [x] /\ (length (xq_contents q') <= 255)%nat \/
     n = -1 /\ q' = q /\ length (xq_contents q) = 255%nat).
Proof.
  intros Hq. pose proof (xq_contents_length q) as Hn.
  assert (0 <= xq_count q < 256) as Hb by (unfold xq_count; apply Z.mod_pos_bound; done).
  destruct (Z.eqb_spec (xq_count q) XQ_CAPACITY) as [E|E].
  - exists (-1), q. split; [by apply xir_add_full|]. split; [done|]. right.
    split_and!; try done. unfold XQ_CAPACITY, XIRR_DEVID_SZ in E. lia.
  - destruct (xir_add_room q x Hq) as (q' & E1 & E2 & E3).
    { unfold XQ_CAPACITY, XIRR_DEVID_SZ in *. lia. }
    exists (xq_tail q), q'. split_and!; try done. left. destruct Hq.
    split; [lia|]. split; [done|]. rewrite E3, length_app. simpl.
    unfold XQ_CAPACITY, XIRR_DEVID_SZ in *. lia.
Qed.

(** The ring of interrupts is a queue of at most 255: adding appends, or
    changes nothing and answers -1 when it is full; popping takes the oldest, or
    answers 0 when there is none; peeking and the emptiness test agree. *)
Theorem xirq_refines_fifo q x :
  xq_wf q ->
  (exists n q', xir_add q x = Ok (n, q') /\ xq_wf q' /\
     (0 <= n /\ xq_contents q' = xq_contents q ++ [x] /\ (length (xq_contents q') <= 255)%nat \/
      n = -1 /\ q' = q /\ length (xq_contents q) = 255%nat)) /\
  (exists y q', xirq_pop q = Ok (y, q') /\ xirq_peek q = Ok y /\ xq_wf q' /\
     match xq_contents q with
     | [] => y = 0 /\ q' = q
     | z :: r => y = z /\ xq_contents q' = r
     end) /\
  xirq_empty q = bool_decide (xq_contents q = []).
Proof.
  intros Hq. split_and!; [by apply xirq_add_total| |by apply xirq_empty_contents].
  destruct (xq_contents q) as [|z r] eqn:E.
  - destruct (xirq_pop_nil q Hq E) as [H1 H2]. exists 0, q. done.
  - destruct (xirq_pop_cons q z r Hq E) as (H1 & q' & H2 & H3 & H4). exists z, q'. done.
Qed.

Lemma xirq_refines_fifo_witness :
  let q := XirQueue 255 1 (repeat 7 256) in
  (exists n q', xir_add q 9 = Ok (n, q') /\ xq_wf q' /\
     (0 <= n /\ xq_contents q' = xq_contents q ++ [9] /\ (length (xq_contents q') <= 255)%nat \/
      n = -1 /\ q' = q /\ length (xq_contents q) = 255%nat)) /\
  (exists y q', xirq_pop q = Ok (y, q') /\ xirq_peek q = Ok y /\ xq_wf q' /\
     match xq_contents q with
     | [] => y = 0 /\ q' = q
     | z :: r => y = z /\ xq_contents q' = r
     end) /\
  xirq_empty q = bool_decide (xq_contents q = []).
Proof. apply xirq_refines_fifo. split; cbn; lia || done. Defined.

(** ** Lemmas: the lock of a line *)
Definition unlocked (xh : xh_data) : Prop :=
  is_u32 (xh_flags xh) /\ Z.testbit (xh_flags xh) 31 = false.

Lemma xh_data_eta xh : XhData (xh_dat xh) (xh_handler xh) (xh_device xh) (xh_flags xh) = xh.
Proof. by destruct xh. Qed.

Lemma xirr_lock_ok xh :
  unlocked xh -> __xirr_lock xh = Ok (set_flags xh (Z.lor (xh_flags xh) XIRR_LOCK_BIT)).
Proof.
  intros [Hf Hb]. unfold __xirr_lock, lockbit_alone, lockbit, cas_uval32, cas, XIRR_LOCK_BIT.
  rewrite clear_clean by (done || lia). by rewrite Z.eqb_refl.
Qed.

Lemma xirr_unlock_ok xh :
  is_u32 (xh_flags xh) -> Z.testbit (xh_flags xh) 31 = true ->
  __xirr_unlock xh = Ok (set_flags xh (Z.land (xh_flags xh) (not32 XIRR_LOCK_BIT))).
Proof.
  intros Hf Hb. unfold __xirr_unlock, unlockbit_alone, unlockbit, cas_uval32, cas, XIRR_LOCK_BIT.
  rewrite clear_set by (done || lia). by rewrite Z.eqb_refl.
Qed.

(** ** Lemmas: flags *)
Definition has (xh : xh_data) (k : Z) : bool := Z.testbit (xh_flags xh) k.

Lemma flag_DISABLED f : truth (Z.land f XIRR_DISABLED) = Z.testbit f 0.
Proof. apply (truth_land_pow2 f 0). done. Qed.
Lemma flag_PENDING f : truth (Z.land f XIRR_PENDING) = Z.testbit f 1.
Proof. apply (truth_land_pow2 f 1). done. Qed.
Lemma flag_OUTSTANDING f : truth (Z.land f XIRR_OUTSTANDING) = Z.testbit f 2.
Proof. apply (truth_land_pow2 f 2). done. Qed.
Lemma flag_DATA_THR f : truth (Z.land f XIRR_DATA_THR) = Z.testbit f 3.
Proof. apply (truth_land_pow2 f 3). done. Qed.

(** Setting and clearing one flag. *)
Definition with_flag (f k : Z) : Z := Z.lor f (2 ^ k).
Definition without_flag (f k : Z) : Z := Z.land f (not32 (2 ^ k)).

Lemma testbit_with f k i : 0 <= k -> Z.testbit (with_flag f k) i = Z.testbit f i || (k =? i).
Proof. intros Hk. unfold with_flag. by rewrite Z.lor_spec, testbit_pow2. Qed.

Lemma testbit_without f k i :
  is_u32 f -> 0 <= k -> 0 <= i -> Z.testbit (without_flag f k) i = Z.testbit f i && negb (k =? i).
Proof.
  intros Hf Hk Hi. unfold without_flag. rewrite Z.land_spec, testbit_not32, testbit_pow2 by done.
  destruct (Z.ltb_spec i 32); simpl; [done|]. by rewrite is_u32_testbit.
Qed.

Lemma with_flag_u32 f k : is_u32 f -> 0 <= k < 32 -> is_u32 (with_flag f k).
Proof. unfold with_flag. auto with word. Qed.
Lemma without_flag_u32 f k : is_u32 f -> is_u32 (without_flag f k).
Proof. unfold without_flag. auto with word. Qed.
#[export] Hint Resolve with_flag_u32 without_flag_u32 : word.

(** Equality of two flag words, bit by bit. *)
Ltac flagbits i :=
  apply Z.bits_inj'; intros i ?;
  rewrite ?testbit_with, ?testbit_without by (auto with word || lia);
  rewrite ?testbit_with, ?testbit_without by (auto with word || lia);
  rewrite ?testbit_with, ?testbit_without by (auto with word || lia);
  rewrite ?testbit_with, ?testbit_without by (auto with word || lia).

Lemma clear64 f k : is_u32 f -> 0 <= k < 32 -> Z.land f (not64 (2 ^ k)) = without_flag f k.
Proof.
  intros Hf Hk. bits i. rewrite testbit_without by (done || lia).
  destruct (Z.ltb_spec i 64); simpl; [done|]. by rewrite is_u32_testbit by (done || lia).
Qed.

Lemma set_flags_flags xh f : is_u32 f -> xh_flags (set_flags xh f) = f.
Proof. intros Hf. simpl. by apply u32_small. Qed.
Lemma set_flags_twice xh f g : set_flags (set_flags xh f) g = set_flags xh g.
Proof. done. Qed.
Lemma set_flags_id xh : is_u32 (xh_flags xh) -> set_flags xh (xh_flags xh) = xh.
Proof. intros Hf. unfold set_flags. rewrite u32_small by done. apply xh_data_eta. Qed.

Lemma without_with f k : is_u32 f -> 0 <= k < 32 -> Z.testbit f k = false -> without_flag (with_flag f k) k = f.
Proof.
  intros Hf Hk Hb. flagbits i. destruct (Z.eqb_spec k i) as [->|]; simpl.
  - by rewrite Hb.
  - by rewrite orb_false_r, andb_true_r.
Qed.
