(* ===== verification/Xir.v ===== *)
(** * Xir: virtual interrupts

    [hype/xir.h], [hype/xir.c], [hype/h_xirr.c] and [hype/h_eoi.c]: the classes of
    interrupt lines, the delivery of an interrupt to the queue of a virtual
    processor's thread, and the two hypervisor calls that let the guest fetch an
    interrupt and end it.  A line is addressed by its class and its source. *)

From S2P Require Import Prelude Hcall Atomic Xirr.

(** ** State *)
Definition XH_UNKNOWN : Z := -1.
Definition XH_DROP : Z := -2.
Definition XIRR_CLASS_MAX : Z := 15.
Definition XIRR_CLASS_HWDEV : Z := 0.

(** [struct xirr_class_s]: the line array, [None] for [NULL], and the class's
    own end-of-interrupt routine if it has one. *)
Record xirr_class_s := XirrClass { xc_data : option (list xh_data); eoi_fn : option Z }.

(** What interrupt delivery uses of [struct cpu_thread] and [struct cpu]. *)
Record cpu_thread := CpuThread { xirq : xir_queue; thr_cpu : Z }.
Record cpu := Cpu { cpu_os : Z; runnable : Z }.

Record machine := Machine {
  xirr_classes : list xirr_class_s;
  threads : gmap Z cpu_thread;
  cpus : gmap Z cpu
}.

(** Access to a class, its lines and one line. *)
Definition get_class (m : machine) (class : Z) : res xirr_class_s := aget (xirr_classes m) class.
Definition get_lines (m : machine) (class : Z) : res (list xh_data) :=
  let! c := get_class m class in of_option Null_deref (xc_data c).
Definition put_lines (m : machine) (class : Z) (a : list xh_data) : res machine :=
  let! c := get_class m class in
  let! cs := aset (xirr_classes m) class (XirrClass (Some a) (eoi_fn c)) in
  Ok (Machine cs (threads m) (cpus m)).

(** A pointer to a line; [None] is [NULL]. *)
Abbreviation xh_ptr := (option (Z * Z)).

Definition get_xh (m : machine) (p : xh_ptr) : res xh_data :=
  match p with
  | None => Fault Null_deref
  | Some (class, dev) => let! a := get_lines m class in aget a dev
  end.
Definition put_xh (m : machine) (p : xh_ptr) (xh : xh_data) : res machine :=
  match p with
  | None => Fault Null_deref
  | Some (class, dev) =>
      let! a := get_lines m class in
      let! a := aset a dev xh in
      put_lines m class a
  end.

Definition get_thread (m : machine) (thr : Z) : res cpu_thread := of_option Null_deref (threads m !! thr).
Definition get_cpu (m : machine) (c : Z) : res cpu := of_option Null_deref (cpus m !! c).

(** [run_partition] of [hype/sched.c]. *)
Definition run_partition (m : machine) (thr : Z) : res machine :=
  let! t := get_thread m thr in
  let! c := get_cpu m (thr_cpu t) in
  Ok (Machine (xirr_classes m) (threads m) (<[thr_cpu t := Cpu (cpu_os c) 1]> (cpus m))).

(** ** Lines *)
Definition __xir_get_xh_data (m : machine) (class dev_id : Z) : res xh_ptr :=
  let! c := get_class m class in
  match xc_data c with
  | None => Ok None
  | Some _ => if XIRR_DEVID_SZ <=? dev_id then Ok None else Ok (Some (class, dev_id))
  end.

Definition xir_get_xh_data (m : machine) (xirr : Z) : res xh_ptr :=
  __xir_get_xh_data m (xirr_class xirr) (xirr_xisr xirr).

Definition __xir_get_thread (xhd : xh_data) : Z :=
  if truth (Z.land (xh_flags xhd) XIRR_DATA_THR) then xh_dat xhd else 0.

Definition xir_get_thread (m : machine) (xirr : Z) : res Z :=
  let! xhd := xir_get_xh_data m xirr in
  match xhd with
  | None => Ok 0
  | p => let! xh := get_xh m p in Ok (__xir_get_thread xh)
  end.

Definition xir_set_thread (m : machine) (xirr thr : Z) : res (Z * machine) :=
  let! xhd := xir_get_xh_data m xirr in
  match xhd with
  | None => Ok (0, m)
  | p =>
      let! xh := get_xh m p in
      let t := if truth (Z.land (xh_flags xh) XIRR_DATA_THR) then xh_dat xh else 0 in
      let! m := put_xh m p (XhData thr (xh_handler xh) (xh_device xh)
                              (Z.lor (xh_flags xh) XIRR_DATA_THR)) in
      Ok (t, m)
  end.

(** The wrappers around [lib/xirr.c], on the class of the interrupt. *)
Definition xir_set_handler (m : machine) (xirr : Z) (h : option handler) (data : Z)
  : res (Z * machine) :=
  let! a := get_lines m (xirr_class xirr) in
  let! (r, a) := xirr_set_handler a xirr h data in
  let! m := put_lines m (xirr_class xirr) a in
  Ok (r, m).

Definition xir_set_flags (m : machine) (xirr f : Z) : res (Z * machine) :=
  let! a := get_lines m (xirr_class xirr) in
  let! (r, a) := xirr_set_flags a xirr f in
  let! m := put_lines m (xirr_class xirr) a in
  Ok (r, m).

Definition xir_get_flags (m : machine) (xirr : Z) : res Z :=
  let! a := get_lines m (xirr_class xirr) in
  xirr_get_flags a xirr.

Definition xir_clear_handler (m : machine) (xirr : Z) : res machine :=
  let! a := get_lines m (xirr_class xirr) in
  let! a := xirr_clear_handler a xirr in
  put_lines m (xirr_class xirr) a.

(** [xir_find]: the first line whose flags are zero, claimed. *)
Fixpoint find_line (n : nat) (x : Z) (a : list xh_data) : res (Z * list xh_data) :=
  match n with
  | O => Ok (-1, a)
  | S n =>
      let! xh := aget a x in
      let '(ok, w) := cas_uval32 (xh_flags xh) 0 XIRR_INUSE in
      if ok then let! a := aset a x (set_flags xh w) in Ok (x, a)
      else find_line n (x + 1) a
  end.

Definition xir_find (m : machine) (class : Z) : res (Z * machine) :=
  let! a := get_lines m class in
  let! (x, a) := find_line (Z.to_nat XIRR_DEVID_SZ) 0 a in
  let! m := put_lines m class a in
  Ok (x, m).

Definition xir_grab (m : machine) (xirr : Z) : res (Z * machine) :=
  let p := Some (xirr_class xirr, xirr_dev_id xirr) in
  let! xh := get_xh m p in
  let '(ok, w) := cas_uval32 (xh_flags xh) 0 XIRR_INUSE in
  if ok then let! m := put_xh m p (set_flags xh w) in Ok (1, m) else Ok (0, m).

(** ** Delivery *)
Definition __xir_enqueue (m : machine) (xirr : Z) (xhd : xh_ptr) (thr : Z) : res (Z * machine) :=
  let! xh := get_xh m xhd in
  let flags := xh_flags xh in
  if truth (Z.land flags XIRR_OUTSTANDING) then Ok (0, m)
  else
    let flags := Z.lor flags XIRR_OUTSTANDING in
    let flags := Z.land flags (not64 XIRR_PENDING) in
    let! m := put_xh m xhd (set_flags xh flags) in
    let! t := get_thread m thr in
    let! (ret, q) := xir_add (xirq t) xirr in
    let m := Machine (xirr_classes m) (<[thr := CpuThread q (thr_cpu t)]> (threads m)) (cpus m) in
    if 0 <=? ret then let! m := run_partition m thr in Ok (ret, m) else Ok (ret, m).

(** The result, what [*thread] holds afterwards, and the state. *)
Definition __xir_raise (m : machine) (xirr : Z) (xh : xh_ptr) (payload thread : Z)
  : res (Z * Z * machine) :=
  let! d := get_xh m xh in
  let thr := xh_dat d in
  let! (ret, m) := __xir_enqueue m xirr xh thr in
  Ok (ret, if 0 <=? ret then thr else thread, m).

Section Deliver.
(** The handlers and end-of-interrupt routines of other components. *)
Context (other_handler : Z -> machine -> Z -> xh_ptr -> Z -> Z -> res (Z * Z * machine)).
Context (other_eoi : Z -> machine -> Z -> Z -> res (Z * machine)).

Definition call_handler (h : handler) : machine -> Z -> xh_ptr -> Z -> Z -> res (Z * Z * machine) :=
  match h with
  | Xir_raise_fn => __xir_raise
  | Other_fn fn => other_handler fn
  end.

Definition lock_line (m : machine) (p : xh_ptr) : res machine :=
  let! xh := get_xh m p in
  let! xh := __xirr_lock xh in
  put_xh m p xh.

Definition unlock_line (m : machine) (p : xh_ptr) : res machine :=
  let! xh := get_xh m p in
  let! xh := __xirr_unlock xh in
  put_xh m p xh.

Definition xir_inject (m : machine) (class dev_id payload : Z) : res (Z * Z * machine) :=
  let! xd := __xir_get_xh_data m class dev_id in
  let pthr := 0 in
  let! m := lock_line m xd in
  let! xh := get_xh m xd in
  let flags := xh_flags xh in
  let! (ret, pthr, m) :=
    if truth (Z.land flags XIRR_DISABLED) then
      let flags := Z.lor flags XIRR_PENDING in
      let! m := put_xh m xd (set_flags xh flags) in
      Ok (XH_DROP, pthr, m)
    else match xh_handler xh with
    | Some h => call_handler h m (xirr_encode dev_id class) xd payload pthr
    | None => Ok (XH_DROP, pthr, m)
    end in
  let! m := unlock_line m xd in
  Ok (ret, pthr, m).

Definition xir_raise (m : machine) (xirr : Z) : res (Z * Z * machine) :=
  xir_inject m (xirr_class xirr) (xirr_dev_id xirr) 0.

Definition xir_set_state (m : machine) (xirr : Z) (xd : xh_ptr) (state : Z) : res machine :=
  let! m := lock_line m xd in
  let! xh := get_xh m xd in
  let flags := xh_flags xh in
  if truth state then
    if truth (Z.land flags XIRR_DISABLED) && truth (Z.land flags XIRR_PENDING) then
      let flags := Z.land flags (not64 XIRR_DISABLED) in
      let! m := put_xh m xd (set_flags xh flags) in
      let! m := unlock_line m xd in
      let! (_, _, m) := xir_raise m xirr in
      Ok m
    else
      let flags := Z.land flags (not64 XIRR_DISABLED) in
      let! m := put_xh m xd (set_flags xh flags) in
      unlock_line m xd
  else
    let flags := Z.lor flags XIRR_DISABLED in
    let! m := put_xh m xd (set_flags xh flags) in
    unlock_line m xd.

Definition xir_eoi (m : machine) (xirr : Z) : res machine :=
  let class := xirr_class xirr in
  let! a := get_lines m class in
  let! a := xirr_lock a xirr in
  let! flags := xirr_get_flags a xirr in
  let flags := Z.land flags (not64 XIRR_OUTSTANDING) in
  let! (_, a) := xirr_set_flags a xirr flags in
  let! a := xirr_unlock a xirr in
  put_lines m class a.

Definition xir_get_device (m : machine) (xirr : Z) : res Z :=
  let! xh := xir_get_xh_data m xirr in
  match xh with
  | None => Ok 0
  | p => let! d := get_xh m p in Ok (xh_device d)
  end.

Definition xir_default_config (m : machine) (xirr dest device : Z) : res (Z * machine) :=
  let! p := xir_get_xh_data m xirr in
  match p with
  | None => Ok (H_Parameter, m)
  | _ =>
      let! m := lock_line m p in
      let! xh := get_xh m p in
      let kept := Z.land (xh_flags xh) XIRR_LOCK_BIT in
      let! (ret, m) :=
        if dest =? 0 then
          let! m := put_xh m p (XhData 0 None device kept) in Ok (H_Success, m)
        else match xh_handler xh with
        | Some _ => Ok (H_UNAVAIL, m)
        | None =>
            let flags := Z.lor kept (Z.lor (Z.lor XIRR_INUSE XIRR_DISABLED) XIRR_DATA_THR) in
            let! m := put_xh m p (XhData dest (Some Xir_raise_fn) device flags) in
            Ok (H_Success, m)
        end in
      let! m := unlock_line m p in
      Ok (ret, m)
  end.

Definition xir_init_class (m : machine) (class : Z) (h : option handler) (arg : Z) : res machine :=
  let line := match h with
              | Some _ => XhData arg h 0 XIRR_INUSE
              | None => XhData 0 None 0 0
              end in
  put_lines m class (repeat line (Z.to_nat XIRR_DEVID_SZ)).

(** ** Hypervisor calls *)

(** The result register and the state; the call itself returns [H_Success]. *)
Definition h_xirr (m : machine) (thread : Z) : res (Z * machine) :=
  let! t := get_thread m thread in
  if xirq_empty (xirq t) then Ok (0, m)
  else
    let! (xirr, q) := xirq_pop (xirq t) in
    let m := Machine (xirr_classes m) (<[thread := CpuThread q (thr_cpu t)]> (threads m)) (cpus m) in
    let class := xirr_class xirr in
    if class =? XIRR_CLASS_HWDEV then
      let! c := get_class m class in
      let! f := of_option Null_deref (eoi_fn c) in
      let! (rc, m) := other_eoi f m thread xirr in
      cassert (rc =? H_Success) (Ok (xirr, m))
    else Ok (xirr, m).

Definition h_eoi (m : machine) (thread val : Z) : res (Z * machine) :=
  let val := u32 val in
  let class := xirr_class val in
  let! thr := xir_get_thread m val in
  let! c := get_class m class in
  match eoi_fn c with
  | Some f => other_eoi f m thread val
  | None =>
      if thr =? 0 then Ok (H_Permission, m)
      else
        let! t := get_thread m thr in
        let! ct := get_cpu m (thr_cpu t) in
        let! me := get_thread m thread in
        let! cme := get_cpu m (thr_cpu me) in
        if negb (cpu_os ct =? cpu_os cme) then Ok (H_Permission, m)
        else let! m := xir_eoi m val in Ok (H_Success, m)
  end.
End Deliver.

(** ** Lines as a map *)
Definition line (m : machine) (c d : Z) : option xh_data :=
  if (0 <=? c) && (0 <=? d) then
    k ← xirr_classes m !! Z.to_nat c; a ← xc_data k; a !! Z.to_nat d
  else None.

Definition upd (m : machine) (c d : Z) (xh : xh_data) : machine :=
  Machine
    (alter (fun k => XirrClass (<[Z.to_nat d := xh]> <$> xc_data k) (eoi_fn k)) (Z.to_nat c) (xirr_classes m))
    (threads m) (cpus m).

Lemma line_inv m c d xh :
  line m c d = Some xh ->
  0 <= c /\ 0 <= d /\ exists k a, xirr_classes m !! Z.to_nat c = Some k /\ xc_data k = Some a /\
    a !! Z.to_nat d = Some xh.
Proof.
  unfold line. destruct (Z.leb_spec 0 c), (Z.leb_spec 0 d); simpl; try done.
  intros (k & Hk & (a & Ha & Hd)%bind_Some)%bind_Some. eauto 10.
Qed.

Lemma line_lines m c d xh :
  line m c d = Some xh -> exists a, get_lines m c = Ok a /\ aget a d = Ok xh /\
    forall xh', exists a', aset a d xh' = Ok a' /\ put_lines m c a' = Ok (upd m c d xh').
Proof.
  intros (Hc & Hd & k & a & Hk & Ha & Hx)%line_inv. exists a.
  assert (get_class m c = Ok k) as Hg by (by apply aget_ok).
  split; [unfold get_lines; rewrite Hg; simpl; by rewrite Ha|].
  split; [by apply aget_ok|]. intros xh'.
  apply lookup_lt_Some in Hk as Hck. apply lookup_lt_Some in Hx as Hdx.
  rewrite aset_ok by lia. eexists. split; [done|].
  unfold put_lines. rewrite Hg. simpl. rewrite aset_ok by lia. simpl. unfold upd. do 2 f_equal.
  apply list_eq. intros i. destruct (decide (i = Z.to_nat c)) as [->|].
  - rewrite list_lookup_insert_eq, list_lookup_alter_eq, Hk by done. simpl. by rewrite Ha.
  - by rewrite list_lookup_insert_ne, list_lookup_alter_ne by done.
Qed.

Lemma get_xh_ok m c d xh : line m c d = Some xh -> get_xh m (Some (c, d)) = Ok xh.
Proof. intros H. destruct (line_lines m c d xh H) as (a & E & Ex & _). simpl. by rewrite E. Qed.

Lemma put_xh_ok m c d xh xh' : line m c d = Some xh -> put_xh m (Some (c, d)) xh' = Ok (upd m c d xh').
Proof.
  intros H. destruct (line_lines m c d xh H) as (a & E & _ & Ex). destruct (Ex xh') as (a' & E1 & E2).
  simpl. rewrite E. simpl. by rewrite E1.
Qed.

Lemma line_upd_eq m c d xh xh' : line m c d = Some xh -> line (upd m c d xh') c d = Some xh'.
Proof.
  intros (Hc & Hd & k & a & Hk & Ha & Hx)%line_inv. unfold line.
  destruct (Z.leb_spec 0 c), (Z.leb_spec 0 d); try lia. simpl.
  rewrite list_lookup_alter_eq, Hk. simpl. rewrite Ha. simpl.
  apply list_lookup_insert_eq. by eapply lookup_lt_Some.
Qed.

Lemma line_upd_ne m c d xh c' d' :
  0 <= c -> 0 <= d -> (c', d') <> (c, d) -> line (upd m c d xh) c' d' = line m c' d'.
Proof.
  intros Hc Hd Hne. unfold line. destruct (Z.leb_spec 0 c'), (Z.leb_spec 0 d'); try done. simpl.
  destruct (decide (c' = c)) as [->|].
  - rewrite list_lookup_alter_eq. destruct (xirr_classes m !! Z.to_nat c) as [[[a|] e]|]; simpl; try done.
    rewrite list_lookup_insert_ne; [done|]. intros E. apply Hne. f_equal. lia.
  - rewrite list_lookup_alter_ne; [done|lia].
Qed.

Lemma upd_upd m c d xh xh' : upd (upd m c d xh) c d xh' = upd m c d xh'.
Proof.
  unfold upd. simpl. f_equal. apply list_eq. intros i. destruct (decide (i = Z.to_nat c)) as [->|].
  - rewrite !list_lookup_alter_eq. destruct (_ !! _) as [[[a|] e]|]; simpl; try done.
    by rewrite list_insert_insert_eq.
  - by rewrite !list_lookup_alter_ne by done.
Qed.

Lemma upd_id m c d xh : line m c d = Some xh -> upd m c d xh = m.
Proof.
  intros (Hc & Hd & k & a & Hk & Ha & Hx)%line_inv. unfold upd. destruct m as [cs ts us]. simpl in *.
  f_equal. apply list_eq. intros i. destruct (decide (i = Z.to_nat c)) as [->|].
  - rewrite list_lookup_alter_eq, Hk. simpl. rewrite Ha. simpl. rewrite list_insert_id by done.
    destruct k; simpl in *. by subst.
  - by rewrite list_lookup_alter_ne by done.
Qed.

Lemma get_data_ok m c d xh :
  line m c d = Some xh -> d < XIRR_DEVID_SZ -> __xir_get_xh_data m c d = Ok (Some (c, d)).
Proof.
  intros (Hc & Hd & k & a & Hk & Ha & Hx)%line_inv Hsz. unfold __xir_get_xh_data, get_class.
  rewrite (aget_ok _ _ k) by done. simpl. rewrite Ha.
  destruct (Z.leb_spec XIRR_DEVID_SZ d); [lia|done].
Qed.

(** Locking and unlocking a line. *)
Definition locked (xh : xh_data) : xh_data := set_flags xh (with_flag (xh_flags xh) 31).

Lemma locked_flags xh : is_u32 (xh_flags xh) -> xh_flags (locked xh) = with_flag (xh_flags xh) 31.
Proof. intros Hf. apply set_flags_flags. auto with word. Qed.

Lemma lock_line_ok m c d xh :
  line m c d = Some xh -> unlocked xh -> lock_line m (Some (c, d)) = Ok (upd m c d (locked xh)).
Proof.
  intros Hl Hu. unfold lock_line. rewrite (get_xh_ok _ _ _ _ Hl). cbn [res_bind].
  rewrite xirr_lock_ok by done. cbn [res_bind]. by apply (put_xh_ok _ _ _ xh).
Qed.

Lemma unlock_line_ok m c d xh :
  line m c d = Some xh -> is_u32 (xh_flags xh) -> has xh 31 = true ->
  unlock_line m (Some (c, d)) = Ok (upd m c d (set_flags xh (without_flag (xh_flags xh) 31))).
Proof.
  intros Hl Hu Hh. unfold unlock_line. rewrite (get_xh_ok _ _ _ _ Hl). cbn [res_bind].
  rewrite xirr_unlock_ok by done. cbn [res_bind]. by apply (put_xh_ok _ _ _ xh).
Qed.

Lemma unlock_upd m c d xh0 xh :
  line m c d = Some xh0 -> is_u32 (xh_flags xh) -> has xh 31 = true ->
  unlock_line (upd m c d xh) (Some (c, d)) =
  Ok (upd m c d (set_flags xh (without_flag (xh_flags xh) 31))).
Proof.
  intros Hl Hu Hh. rewrite (unlock_line_ok _ _ _ xh) by (by eauto using line_upd_eq).
  by rewrite upd_upd.
Qed.

(** The flags a critical section leaves: those it stored, without the lock bit. *)
Lemma unlocked_again f k b :
  is_u32 f -> Z.testbit f 31 = false -> 0 <= k < 31 ->
  without_flag (if b : bool then with_flag (with_flag f 31) k else without_flag (with_flag f 31) k) 31 =
  if b then with_flag f k else without_flag f k.
Proof.
  intros Hf Hb Hk. destruct b; flagbits i.
  all: destruct (Z.eqb_spec 31 i), (Z.eqb_spec k i); simpl; try lia; subst;
    rewrite ?Hb, ?orb_true_r, ?orb_false_r, ?andb_true_r, ?andb_false_r; done.
Qed.

(** Delivery of the interrupt of a line to the thread its data names. *)
Definition outstanding (xh : xh_data) : xh_data :=
  set_flags xh (without_flag (with_flag (xh_flags xh) 2) 1).

Definition with_tc (m : machine) (ts : gmap Z cpu_thread) (us : gmap Z cpu) : machine :=
  Machine (xirr_classes m) ts us.

Definition delivered (m : machine) (c d : Z) (xh : xh_data) (t : cpu_thread) (u : cpu) (n : Z)
  (q : xir_queue) : machine :=
  with_tc (upd m c d (outstanding xh))
    (<[xh_dat xh := CpuThread q (thr_cpu t)]> (threads m))
    (if 0 <=? n then <[thr_cpu t := Cpu (cpu_os u) 1]> (cpus m) else cpus m).

Section Delivery.
Context (other_handler : Z -> machine -> Z -> xh_ptr -> Z -> Z -> res (Z * Z * machine)).
Local Abbreviation inject := (xir_inject other_handler).
Local Abbreviation set_state := (xir_set_state other_handler).

(** A line whose flags were replaced inside its critical section, and unlocked. *)
Lemma unlock_set m c d xh f :
  line m c d = Some xh -> is_u32 f -> Z.testbit f 31 = true ->
  unlock_line (upd m c d (set_flags xh f)) (Some (c, d)) =
  Ok (upd m c d (set_flags xh (without_flag f 31))).
Proof.
  intros Hl Hf Hb. rewrite (unlock_upd _ _ _ xh); unfold has; by rewrite ?set_flags_flags.
Qed.

(** Entering the critical section of a line. *)
Lemma enter_line {A} m c d xh (k : machine -> xh_data -> res A) :
  line m c d = Some xh -> unlocked xh ->
  (let! m := lock_line m (Some (c, d)) in let! xh := get_xh m (Some (c, d)) in k m xh) =
  k (upd m c d (locked xh)) (locked xh).
Proof.
  intros Hl Hu. rewrite (lock_line_ok _ _ _ xh) by done. cbn [res_bind].
  rewrite (get_xh_ok _ _ _ (locked xh)); [done|]. by eauto using line_upd_eq.
Qed.

(** Replacing the flags and leaving. *)
Lemma leave_line m c d xh f :
  line m c d = Some xh -> is_u32 f -> Z.testbit f 31 = true ->
  put_xh (upd m c d (locked xh)) (Some (c, d)) (set_flags (locked xh) f) = Ok (upd m c d (set_flags xh f)).
Proof.
  intros Hl Hf Hb. rewrite (put_xh_ok _ _ _ (locked xh)) by (by eauto using line_upd_eq).
  by rewrite upd_upd.
Qed.

Lemma locked_bit f : is_u32 f -> is_u32 (with_flag f 31) /\ Z.testbit (with_flag f 31) 31 = true.
Proof. intros Hf. split; [auto with word|]. rewrite testbit_with by lia. apply orb_true_r. Qed.

Lemma inject_disabled m c d p xh :
  line m c d = Some xh -> unlocked xh -> d < XIRR_DEVID_SZ -> has xh 0 = true ->
  inject m c d p = Ok (XH_DROP, 0, upd m c d (set_flags xh (with_flag (xh_flags xh) 1))).
Proof.
  intros Hl Hu Hd H0. unfold inject. rewrite (get_data_ok _ _ _ xh) by done. cbn [res_bind].
  rewrite (enter_line m c d xh) by done. destruct Hu as [Hf Hb].
  destruct (locked_bit _ Hf) as [Hf' Hb'].
  rewrite flag_DISABLED, locked_flags, testbit_with by (done || lia).
  unfold has in H0. rewrite H0. cbn [orb].
  change (Z.lor (with_flag (xh_flags xh) 31) XIRR_PENDING)
    with (with_flag (with_flag (xh_flags xh) 31) 1).
  assert (is_u32 (with_flag (with_flag (xh_flags xh) 31) 1)) by auto with word.
  assert (Z.testbit (with_flag (with_flag (xh_flags xh) 31) 1) 31 = true).
  { by rewrite testbit_with, Hb' by lia. }
  rewrite leave_line by done. cbn [res_bind]. rewrite (unlock_set m c d xh) by done. cbn [res_bind].
  by rewrite (unlocked_again _ 1 true) by (done || lia).
Qed.
Lemma inject_again m c d p xh :
  line m c d = Some xh -> unlocked xh -> d < XIRR_DEVID_SZ -> has xh 0 = false ->
  xh_handler xh = Some Xir_raise_fn -> has xh 2 = true ->
  inject m c d p = Ok (0, xh_dat xh, m).
Proof.
  intros Hl Hu Hd H0 Hh H2. unfold inject. rewrite (get_data_ok _ _ _ xh) by done. cbn [res_bind].
  rewrite (enter_line m c d xh) by done. destruct Hu as [Hf Hb].
  destruct (locked_bit _ Hf) as [Hf' Hb'].
  rewrite flag_DISABLED, locked_flags, testbit_with by (done || lia).
  unfold has in *. rewrite H0. cbn [orb Z.eqb Pos.eqb].
  assert (line (upd m c d (locked xh)) c d = Some (locked xh)) as Hl' by (by eauto using line_upd_eq).
  change (xh_handler (locked xh)) with (xh_handler xh). rewrite Hh. cbn [call_handler].
  unfold __xir_raise, __xir_enqueue. rewrite (get_xh_ok _ _ _ _ Hl'). cbn [res_bind].
  rewrite flag_OUTSTANDING, locked_flags, testbit_with, H2 by (done || lia). cbn [orb res_bind].
  unfold locked. cbn [xh_dat set_flags]. rewrite (unlock_set m c d xh) by done. cbn [res_bind Z.leb Z.compare].
  rewrite without_with, set_flags_id, upd_id by (done || lia). done.
Qed.

Lemma outstanding_again f :
  is_u32 f -> Z.testbit f 31 = false ->
  without_flag (without_flag (with_flag (with_flag f 31) 2) 1) 31 = without_flag (with_flag f 2) 1.
Proof.
  intros Hf Hb. flagbits i.
  destruct (Z.eqb_spec 31 i), (Z.eqb_spec 2 i), (Z.eqb_spec 1 i); simpl; try lia; subst;
    rewrite ?Hb, ?orb_true_r, ?orb_false_r, ?andb_true_r, ?andb_false_r; done.
Qed.

Lemma inject_deliver m c d p xh t u n q :
  line m c d = Some xh -> unlocked xh -> d < XIRR_DEVID_SZ -> has xh 0 = false ->
  xh_handler xh = Some Xir_raise_fn -> has xh 2 = false ->
  threads m !! xh_dat xh = Some t -> cpus m !! thr_cpu t = Some u ->
  xir_add (xirq t) (xirr_encode d c) = Ok (n, q) ->
  inject m c d p = Ok (n, if 0 <=? n then xh_dat xh else 0, delivered m c d xh t u n q).
Proof.
  intros Hl Hu Hd H0 Hh H2 Ht Hc Hq. unfold inject.
  rewrite (get_data_ok _ _ _ xh) by done. cbn [res_bind].
  rewrite (enter_line m c d xh) by done. destruct Hu as [Hf Hb].
  destruct (locked_bit _ Hf) as [Hf' Hb'].
  rewrite flag_DISABLED, locked_flags, testbit_with by (done || lia).
  unfold has in *. rewrite H0. cbn [orb Z.eqb Pos.eqb].
  assert (line (upd m c d (locked xh)) c d = Some (locked xh)) as Hl' by (by eauto using line_upd_eq).
  change (xh_handler (locked xh)) with (xh_handler xh). rewrite Hh. cbn [call_handler].
  unfold __xir_raise, __xir_enqueue. rewrite (get_xh_ok _ _ _ _ Hl'). cbn [res_bind].
  rewrite flag_OUTSTANDING, locked_flags, testbit_with, H2 by (done || lia). cbn [orb Z.eqb Pos.eqb].
  set (f := without_flag (with_flag (with_flag (xh_flags xh) 31) 2) 1).
  assert (Z.land (Z.lor (with_flag (xh_flags xh) 31) XIRR_OUTSTANDING) (not64 XIRR_PENDING) = f) as ->.
  { apply (clear64 _ 1); [|lia]. apply (with_flag_u32 _ 2); [done|lia]. }
  assert (is_u32 f) as Hff by (unfold f; auto with word).
  assert (Z.testbit f 31 = true) as Hfb.
  { unfold f. rewrite testbit_without, testbit_with, Hb' by (auto with word || lia). done. }
  rewrite leave_line by done. cbn [res_bind]. unfold get_thread. cbn [threads upd].
  change (xh_dat (locked xh)) with (xh_dat xh). rewrite Ht. cbn [of_option res_bind].
  rewrite Hq. cbn [res_bind]. set (ts := <[xh_dat xh := _]> (threads m)).
  assert (forall us, unlock_line (with_tc (upd m c d (set_flags xh f)) ts us) (Some (c, d)) =
    Ok (with_tc (upd m c d (outstanding xh)) ts us)) as Hun.
  { intros us. change (with_tc (upd m c d (set_flags xh f)) ts us)
      with (upd (with_tc m ts us) c d (set_flags xh f)).
    rewrite (unlock_set (with_tc m ts us) c d xh) by done. unfold f. by rewrite outstanding_again. }
  unfold delivered. fold ts. destruct (Z.leb_spec 0 n); cbn [res_bind].
  - unfold run_partition, get_thread. cbn [threads]. unfold ts at 1. rewrite lookup_insert_eq.
    cbn [of_option res_bind thr_cpu]. unfold get_cpu. cbn [cpus upd]. rewrite Hc.
    cbn [of_option res_bind]. destruct (Z.leb_spec 0 n); [|lia]. cbn [res_bind].
    match goal with |- context [unlock_line ?M _] =>
      change M with (with_tc (upd m c d (set_flags xh f)) ts (<[thr_cpu t := Cpu (cpu_os u) 1]> (cpus m)))
    end.
    by rewrite Hun.
  - destruct (Z.leb_spec 0 n); [lia|].
    match goal with |- context [unlock_line ?M _] =>
      change M with (with_tc (upd m c d (set_flags xh f)) ts (cpus m))
    end.
    by rewrite Hun.
Qed.
Lemma set_state_disable m c d xirr xh :
  line m c d = Some xh -> unlocked xh ->
  set_state m xirr (Some (c, d)) 0 = Ok (upd m c d (set_flags xh (with_flag (xh_flags xh) 0))).
Proof.
  intros Hl [Hf Hb]. unfold set_state. rewrite (enter_line m c d xh) by done. cbn [truth Z.eqb negb].
  rewrite locked_flags by done. destruct (locked_bit _ Hf) as [Hf' Hb'].
  change (Z.lor (with_flag (xh_flags xh) 31) XIRR_DISABLED)
    with (with_flag (with_flag (xh_flags xh) 31) 0).
  assert (is_u32 (with_flag (with_flag (xh_flags xh) 31) 0)) by auto with word.
  assert (Z.testbit (with_flag (with_flag (xh_flags xh) 31) 0) 31 = true).
  { by rewrite testbit_with, Hb' by lia. }
  rewrite leave_line by done. cbn [res_bind]. rewrite (unlock_set m c d xh) by done.
  by rewrite (unlocked_again _ 0 true) by (done || lia).
Qed.

(** Enabling a line clears the flag, then raises an interrupt that was held. *)
Lemma set_state_enable m c d xirr xh state :
  line m c d = Some xh -> unlocked xh -> truth state = true ->
  set_state m xirr (Some (c, d)) state =
  let m' := upd m c d (set_flags xh (without_flag (xh_flags xh) 0)) in
  if has xh 0 && has xh 1 then let! (_, _, m') := xir_raise other_handler m' xirr in Ok m' else Ok m'.
Proof.
  intros Hl [Hf Hb] Hs. unfold set_state. rewrite (enter_line m c d xh), Hs by done.
  rewrite locked_flags by done. destruct (locked_bit _ Hf) as [Hf' Hb'].
  rewrite flag_DISABLED, flag_PENDING, !testbit_with by lia. cbn [Z.eqb Pos.eqb]. rewrite !orb_false_r.
  change XIRR_DISABLED with (2 ^ 0). rewrite clear64 by (done || lia).
  assert (is_u32 (without_flag (with_flag (xh_flags xh) 31) 0)) by auto with word.
  assert (Z.testbit (without_flag (with_flag (xh_flags xh) 31) 0) 31 = true).
  { by rewrite testbit_without, Hb' by (auto with word || lia). }
  rewrite leave_line by done. cbn [res_bind]. rewrite (unlock_set m c d xh) by done.
  rewrite (unlocked_again _ 0 false) by (done || lia). done.
Qed.

Lemma xir_eoi_ok m c d xh xirr :
  line m c d = Some xh -> unlocked xh -> d < XIRR_DEVID_SZ ->
  xirr_class xirr = c -> xirr_dev_id xirr = d ->
  xir_eoi m xirr = Ok (upd m c d (set_flags xh (without_flag (xh_flags xh) 2))).
Proof.
  intros Hl [Hf Hb] Hd Ec Ed.
  unfold xir_eoi. rewrite Ec. destruct (line_lines m c d xh Hl) as (a & Ea & Ex & Hput).
  rewrite Ea. cbn [res_bind]. unfold xirr_lock, xirr_get_flags, xirr_set_flags, xirr_unlock, xirr_check_range,
    xirr_ptr, xirr_put. rewrite Ed. destruct (Z.leb_spec XIRR_DEVID_SZ d); [lia|]. cbn [res_bind].
  rewrite Ex. cbn [res_bind]. rewrite xirr_lock_ok by done. cbn [res_bind].
  apply aget_inv in Ex as [Hda Hda'].
  assert (forall (b : list xh_data) x, length b = length a -> aset b d x = Ok (<[Z.to_nat d := x]> b)) as Hset.
  { intros b x Hlen. apply aset_ok. lia. }
  assert (forall (b : list xh_data) x, length b = length a -> aget (<[Z.to_nat d := x]> b) d = Ok x) as Hget.
  { intros b x Hlen. apply aget_ok; [lia|]. apply list_lookup_insert_eq. lia. }
  rewrite Hset by done. cbn [res_bind]. rewrite Hget by done. cbn [res_bind].
  fold (with_flag (xh_flags xh) 31). fold (locked xh).
  change (set_flags xh (Z.lor (xh_flags xh) XIRR_LOCK_BIT)) with (locked xh).
  destruct (locked_bit _ Hf) as [Hf' Hb'].
  rewrite locked_flags by done. change XIRR_OUTSTANDING with (2 ^ 2). rewrite clear64 by (done || lia).
  rewrite Hset by (by rewrite length_insert). cbn [res_bind]. rewrite list_insert_insert_eq.
  rewrite Hget by done. cbn [res_bind]. unfold locked. rewrite set_flags_twice.
  assert (is_u32 (without_flag (with_flag (xh_flags xh) 31) 2)) by auto with word.
  rewrite xirr_unlock_ok.
  2:{ by rewrite set_flags_flags. }
  2:{ rewrite set_flags_flags by done. by rewrite testbit_without, Hb' by (auto with word || lia). }
  cbn [res_bind]. rewrite Hset by (by rewrite length_insert). cbn [res_bind].
  rewrite list_insert_insert_eq. rewrite set_flags_flags by done.
  change (Z.land (without_flag (with_flag (xh_flags xh) 31) 2) (not32 XIRR_LOCK_BIT))
    with (without_flag (without_flag (with_flag (xh_flags xh) 31) 2) 31).
  rewrite (unlocked_again _ 2 false) by (done || lia). rewrite set_flags_twice.
  destruct (Hput (set_flags xh (without_flag (xh_flags xh) 2))) as (a' & Ha' & Hp).
  rewrite Hset in Ha' by done. injection Ha' as <-. done.
Qed.
End Delivery.

(** ** Invariant *)
Definition queued (m : machine) (thr x : Z) : Prop :=
  exists t, threads m !! thr = Some t /\ x ∈ xq_contents (xirq t).

Definition handler_ok (m : machine) (xh : xh_data) : Prop :=
  xh_handler xh = None \/
  xh_handler xh = Some Xir_raise_fn /\ is_Some (threads m !! xh_dat xh).

(** The line of a queued interrupt: outstanding, and routed to that thread. *)
Definition line_of (m : machine) (thr x : Z) : Prop :=
  exists c d xh, x = xirr_encode d c /\ line m c d = Some xh /\ has xh 2 = true /\
    xh_dat xh = thr /\ xh_handler xh = Some Xir_raise_fn.

(** [x] is in [l] at most once. *)
Definition once {A} (x : A) (l : list A) : Prop := forall i j, l !! i = Some x -> l !! j = Some x -> i = j.

Lemma once_nil {A} (x : A) : once x [].
Proof. by intros i j. Qed.

Lemma once_tail {A} (x y : A) l : once x (y :: l) -> once x l.
Proof. intros H i j Hi Hj. pose proof (H (S i) (S j) Hi Hj). lia. Qed.

Lemma once_app {A} (x y : A) l : once x l -> (x = y -> y ∉ l) -> once x (l ++ [y]).
Proof.
  intros H Hy i j Hi Hj. apply lookup_app_Some in Hi as [Hi|[Li Hi]], Hj as [Hj|[Lj Hj]].
  - by apply H.
  - apply list_lookup_singleton_Some in Hj as [_ ->]. destruct (Hy eq_refl). by eapply list_elem_of_lookup_2.
  - apply list_lookup_singleton_Some in Hi as [_ ->]. destruct (Hy eq_refl). by eapply list_elem_of_lookup_2.
  - apply list_lookup_singleton_Some in Hi as [Hi _]. apply list_lookup_singleton_Some in Hj as [Hj _]. lia.
Qed.

(** What every operation keeps.  The first part is about every line and every
    queue; what is said of queued interrupts is said of the [good] ones, those
    that nobody ends or unroutes while they are queued. *)
Record xir_ok (good : Z -> Prop) (m : machine) : Prop := {
  inv_lines : forall c d xh, line m c d = Some xh ->
    c < XIRR_CLASS_MAX /\ d < XIRR_DEVID_SZ /\ unlocked xh /\ handler_ok m xh;
  inv_threads : forall thr t, threads m !! thr = Some t ->
    xq_wf (xirq t) /\ is_Some (cpus m !! thr_cpu t) /\ forall x, good x -> once x (xq_contents (xirq t));
  inv_queued : forall thr x, good x -> queued m thr x -> line_of m thr x
}.
#[global] Arguments inv_lines {_} _ _.
#[global] Arguments inv_threads {_} _ _.
#[global] Arguments inv_queued {_} _ _.

Definition xir_inv : machine -> Prop := xir_ok (fun _ => True).

Lemma encode_inj d c d' c' :
  0 <= d < XIRR_DEVID_SZ -> 0 <= c < XIRR_CLASS_MAX -> 0 <= d' < XIRR_DEVID_SZ -> 0 <= c' < XIRR_CLASS_MAX ->
  xirr_encode d c = xirr_encode d' c' -> d = d' /\ c = c'.
Proof.
  unfold XIRR_DEVID_SZ, XIRR_CLASS_MAX. intros Hd Hc Hd' Hc' E.
  destruct (decode_encode_small d c) as [E1 E2]; try lia.
  destruct (decode_encode_small d' c') as [E3 E4]; try lia.
  split; congruence.
Qed.

Section Good.
Context {good : Z -> Prop}.

Lemma inv_range m c d xh :
  xir_ok good m -> line m c d = Some xh -> 0 <= c < XIRR_CLASS_MAX /\ 0 <= d < XIRR_DEVID_SZ.
Proof.
  intros Hi Hl. destruct (inv_lines m Hi c d xh Hl) as (Hc & Hd & _).
  apply line_inv in Hl as (? & ? & _). lia.
Qed.

Lemma inv_upd m c d xh xh' :
  xir_ok good m -> line m c d = Some xh -> unlocked xh' -> handler_ok m xh' ->
  (forall thr, good (xirr_encode d c) -> queued m thr (xirr_encode d c) ->
     has xh' 2 = true /\ xh_dat xh' = xh_dat xh /\ xh_handler xh' = xh_handler xh) ->
  xir_ok good (upd m c d xh').
Proof.
  intros Hi Hl Hu Hh Hq. destruct (inv_range m c d xh Hi Hl) as [Hc Hd]. split.
  - intros c' d' y Hy. destruct (decide ((c', d') = (c, d))) as [[= -> ->]|Hne].
    + rewrite (line_upd_eq _ _ _ xh) in Hy by done. injection Hy as <-. by split_and!; [lia|lia|..].
    + rewrite line_upd_ne in Hy by (done || lia). by apply (inv_lines m Hi).
  - apply (inv_threads m Hi).
  - intros thr x Hg Hx. destruct (inv_queued m Hi thr x Hg Hx) as (c' & d' & y & -> & Hy & H2 & Hthr & Hr).
    exists c', d'. destruct (decide ((c', d') = (c, d))) as [[= -> ->]|Hne].
    + rewrite Hl in Hy. injection Hy as <-. destruct (Hq thr Hg Hx) as (Ha & Hb & Hc').
      exists xh'. rewrite (line_upd_eq _ _ _ xh) by done. split_and!; congruence.
    + exists y. rewrite line_upd_ne by (done || lia). done.
Qed.

Lemma inv_thread m thr t q us :
  xir_ok good m -> threads m !! thr = Some t -> xq_wf q -> (forall x, good x -> once x (xq_contents q)) ->
  (forall x, x ∈ xq_contents q -> x ∈ xq_contents (xirq t) \/ line_of m thr x) ->
  (forall c, is_Some (cpus m !! c) -> is_Some (us !! c)) ->
  xir_ok good (with_tc m (<[thr := CpuThread q (thr_cpu t)]> (threads m)) us).
Proof.
  intros Hi Ht Hq Hn Hx Hus. split.
  - intros c d xh Hl. destruct (inv_lines m Hi c d xh Hl) as (H1 & H2 & H3 & H4). split_and!; try done.
    destruct H4 as [H4|[H4 H5]]; [by left|right]. split; [done|]. simpl.
    rewrite lookup_insert. case_decide; eauto.
  - intros thr' t'. simpl. rewrite lookup_insert. case_decide as E.
    + intros [= <-]. simpl. split_and!; try done. apply Hus. by apply (inv_threads m Hi thr).
    + intros H'. destruct (inv_threads m Hi thr' t' H') as (H1 & H2 & H3). auto.
  - intros thr' x Hg (t' & Ht' & Hin). simpl in Ht'. rewrite lookup_insert in Ht'. case_decide as E.
    + injection Ht' as <-. subst thr'. destruct (Hx x Hin) as [Hin'|]; [|done].
      apply (inv_queued m Hi); [done|]. by exists t.
    + apply (inv_queued m Hi); [done|]. by exists t'.
Qed.

Lemma queued_outstanding m c d xh thr :
  xir_ok good m -> line m c d = Some xh -> good (xirr_encode d c) -> queued m thr (xirr_encode d c) ->
  has xh 2 = true /\ xh_dat xh = thr /\ xh_handler xh = Some Xir_raise_fn.
Proof.
  intros Hi Hl Hg Hq. destruct (inv_queued m Hi thr _ Hg Hq) as (c' & d' & y & E & Hy & H2 & Ht & Hr).
  destruct (inv_range m c d xh Hi Hl), (inv_range m c' d' y Hi Hy).
  apply encode_inj in E as [-> ->]; try done. rewrite Hl in Hy. by injection Hy as <-.
Qed.

(** Changing flags other than the outstanding one keeps the invariant. *)
Lemma inv_flags m c d xh f :
  xir_ok good m -> line m c d = Some xh -> is_u32 f -> Z.testbit f 31 = false ->
  (has xh 2 = true -> Z.testbit f 2 = true) -> xir_ok good (upd m c d (set_flags xh f)).
Proof.
  intros Hi Hl Hf Hb H2. destruct (inv_lines m Hi c d xh Hl) as (_ & _ & _ & Hh).
  apply (inv_upd m c d xh); try done.
  - split; by rewrite set_flags_flags.
  - intros thr Hg Hq. destruct (queued_outstanding m c d xh thr Hi Hl Hg Hq) as (H2' & _).
    unfold has. rewrite set_flags_flags by done. auto.
Qed.

Lemma inv_delivered m c d xh t u n q :
  xir_ok good m -> line m c d = Some xh -> xh_handler xh = Some Xir_raise_fn -> has xh 2 = false ->
  threads m !! xh_dat xh = Some t -> cpus m !! thr_cpu t = Some u ->
  xir_add (xirq t) (xirr_encode d c) = Ok (n, q) -> xir_ok good (delivered m c d xh t u n q).
Proof.
  intros Hi Hl Hr H2 Ht Hu Hq. destruct (inv_lines m Hi c d xh Hl) as (_ & _ & [Hf Hb] & Hh).
  assert (is_u32 (without_flag (with_flag (xh_flags xh) 2) 1)) as Hf' by auto with word.
  assert (xir_ok good (upd m c d (outstanding xh))) as Hi'.
  { apply inv_flags; try done;
      rewrite testbit_without, testbit_with by (auto with word || lia); by rewrite ?Hb, ?orb_true_r. }
  destruct (inv_threads m Hi (xh_dat xh) t Ht) as (Hwf & Hc & Hn).
  assert (forall q', xq_wf q' -> (forall x, good x -> once x (xq_contents q')) ->
    (forall x, x ∈ xq_contents q' -> x ∈ xq_contents (xirq t) \/ x = xirr_encode d c) ->
    xir_ok good (with_tc (upd m c d (outstanding xh)) (<[xh_dat xh := CpuThread q' (thr_cpu t)]> (threads m))
      (if 0 <=? n then <[thr_cpu t := Cpu (cpu_os u) 1]> (cpus m) else cpus m))) as Hgen.
  { intros q' Hq' Hn' Hx. apply (inv_thread (upd m c d (outstanding xh)) (xh_dat xh) t); try done.
    - intros x Hin. destruct (Hx x Hin) as [| ->]; [by left|right].
      exists c, d, (outstanding xh). rewrite (line_upd_eq _ _ _ xh) by done. split_and!; try done.
      unfold has, outstanding. rewrite set_flags_flags by done.
      rewrite testbit_without, testbit_with by (auto with word || lia). by rewrite orb_true_r.
    - intros c' Hc'. simpl in Hc'. destruct (0 <=? n); [|done].
      rewrite lookup_insert. case_decide; eauto. }
  assert (good (xirr_encode d c) -> xirr_encode d c ∉ xq_contents (xirq t)) as Hnew.
  { intros Hg Hin. destruct (queued_outstanding m c d xh (xh_dat xh) Hi Hl Hg) as [H2' _].
    - by exists t.
    - congruence. }
  destruct (Z.eqb_spec (xq_count (xirq t)) XQ_CAPACITY) as [E|E].
  - rewrite xir_add_full in Hq by done. injection Hq as <- <-. apply Hgen; auto.
  - assert (0 <= xq_count (xirq t) < 256) by (unfold xq_count; apply Z.mod_pos_bound; done).
    destruct (xir_add_room (xirq t) (xirr_encode d c) Hwf) as (q' & E1 & E2 & E3).
    { unfold XQ_CAPACITY, XIRR_DEVID_SZ in *. lia. }
    rewrite E1 in Hq. injection Hq as _ <-. apply Hgen; rewrite ?E3; try done.
    + intros x Hg. apply once_app; [by apply Hn|]. intros ->. by apply Hnew.
    + intros x Hx. apply elem_of_app in Hx as [Hx|Hx]; [by left|right].
      by apply list_elem_of_singleton in Hx.
Qed.
End Good.

Section Steps.
Context (other_handler : Z -> machine -> Z -> xh_ptr -> Z -> Z -> res (Z * Z * machine)).
Context (other_eoi : Z -> machine -> Z -> Z -> res (Z * machine)).
Context (good : Z -> Prop).

Lemma inject_none m c d p xh :
  line m c d = Some xh -> unlocked xh -> d < XIRR_DEVID_SZ -> has xh 0 = false ->
  xh_handler xh = None -> xir_inject other_handler m c d p = Ok (XH_DROP, 0, m).
Proof.
  intros Hl Hu Hd H0 Hh. unfold xir_inject. rewrite (get_data_ok _ _ _ xh) by done. cbn [res_bind].
  rewrite (enter_line m c d xh) by done. destruct Hu as [Hf Hb].
  destruct (locked_bit _ Hf) as [Hf' Hb'].
  rewrite flag_DISABLED, locked_flags, testbit_with by (done || lia).
  unfold has in *. rewrite H0. cbn [orb Z.eqb].
  change (xh_handler (locked xh)) with (xh_handler xh). rewrite Hh. cbn [res_bind].
  unfold locked. rewrite (unlock_set m c d xh) by done. cbn [res_bind].
  by rewrite without_with, set_flags_id, upd_id by (done || lia).
Qed.

(** What an injection leads to, on a line whose routing is sound. *)
Lemma inject_total m c d p xh :
  xir_ok good m -> line m c d = Some xh ->
  exists r thr m', xir_inject other_handler m c d p = Ok (r, thr, m') /\ xir_ok good m'.
Proof.
  intros Hi Hl. destruct (inv_lines m Hi c d xh Hl) as (Hc & Hd & Hu & Hh).
  destruct (has xh 0) eqn:H0.
  { do 3 eexists. split; [by apply inject_disabled|]. destruct Hu as [Hf Hb].
    apply inv_flags; try done; auto with word; rewrite testbit_with by lia; [by rewrite Hb|].
    intros E. unfold has in E. by rewrite E. }
  destruct Hh as [Hh|[Hh [t Ht]]].
  { do 3 eexists. split; [by apply (inject_none m c d p xh)|done]. }
  destruct (has xh 2) eqn:H2.
  { do 3 eexists. split; [by apply inject_again|done]. }
  destruct (inv_threads m Hi _ t Ht) as (Hwf & [u Hcu] & _).
  destruct (xir_add_total (xirq t) (xirr_encode d c) Hwf) as (n & q & Hq).
  do 3 eexists. split; [by apply (inject_deliver _ m c d p xh t u n q)|]. by apply inv_delivered.
Qed.

Lemma set_state_total m c d xh state :
  xir_ok good m -> line m c d = Some xh ->
  exists m', xir_set_state other_handler m (xirr_encode d c) (Some (c, d)) state = Ok m' /\ xir_ok good m'.
Proof.
  intros Hi Hl. destruct (inv_lines m Hi c d xh Hl) as (_ & _ & Hu & _).
  destruct (inv_range m c d xh Hi Hl) as [Hc Hd].
  destruct (truth state) eqn:Hs.
  - set (m1 := upd m c d (set_flags xh (without_flag (xh_flags xh) 0))).
    assert (xir_ok good m1) as Hi1.
    { destruct Hu as [Hf Hb]. apply inv_flags; try done; auto with word;
        rewrite testbit_without by (done || lia); [by rewrite Hb|].
      intros E. unfold has in E. by rewrite E. }
    rewrite (set_state_enable _ m c d _ xh) by done. fold m1.
    destruct (has xh 0 && has xh 1); [|eauto].
    unfold xir_raise. destruct (decode_encode_small d c) as [-> ->];
      [unfold XIRR_DEVID_SZ, XIRR_CLASS_MAX in *; lia..|].
    destruct (inject_total m1 c d 0 (set_flags xh (without_flag (xh_flags xh) 0)) Hi1) as (r & thr & m2 & E & Hi2).
    + unfold m1. by eauto using line_upd_eq.
    + rewrite E. cbn [res_bind]. eauto.
  - apply truth_false in Hs as ->. eexists. split; [by apply set_state_disable|].
    destruct Hu as [Hf Hb]. apply inv_flags; try done; auto with word;
      rewrite testbit_with by lia; [by rewrite Hb|].
    intros E. unfold has in E. by rewrite E.
Qed.
Lemma get_xh_inv m c d xh : get_xh m (Some (c, d)) = Ok xh -> line m c d = Some xh.
Proof.
  simpl. intros (a & Ha & Hd)%res_bind_ok. apply res_bind_ok in Ha as (k & Hk & Ha).
  apply aget_inv in Hk as [Hc Hk]. apply aget_inv in Hd as [Hd Hx].
  destruct (xc_data k) as [a'|] eqn:E; [|done]. injection Ha as ->.
  unfold line. destruct (Z.leb_spec 0 c), (Z.leb_spec 0 d); try lia. simpl. by rewrite Hk; simpl; rewrite E.
Qed.

Lemma fetch_inv m thread x m' :
  xir_ok good m -> h_xirr other_eoi m thread = Ok (x, m') -> xirr_class x <> XIRR_CLASS_HWDEV ->
  xir_ok good m'.
Proof.
  intros Hi (t & Ht & E)%res_bind_ok Hcl. unfold get_thread in Ht.
  destruct (threads m !! thread) as [t'|] eqn:Et; [|done]. injection Ht as ->.
  destruct (inv_threads m Hi thread t Et) as (Hwf & Hc & Hn).
  rewrite xirq_empty_contents in E by done.
  destruct (xq_contents (xirq t)) as [|y r] eqn:Eq.
  { rewrite bool_decide_eq_true_2 in E by done. by injection E as _ <-. }
  rewrite bool_decide_eq_false_2 in E by done.
  destruct (xirq_pop_cons (xirq t) y r Hwf Eq) as (_ & q & Ep & Hq & Hr).
  rewrite Ep in E. cbn [res_bind] in E.
  assert (xir_ok good (with_tc m (<[thread := CpuThread q (thr_cpu t)]> (threads m)) (cpus m))) as Hi'.
  { apply inv_thread; try done.
    - intros z Hz. rewrite Hr. by eapply once_tail, Hn.
    - intros z Hz. left. rewrite Eq. rewrite Hr in Hz. lmem. }
  destruct (Z.eqb_spec (xirr_class y) XIRR_CLASS_HWDEV) as [E0|E0].
  - exfalso. apply res_bind_ok in E as (c & _ & E). apply res_bind_ok in E as (f & _ & E).
    apply res_bind_ok in E as ([rc m2] & _ & E). unfold cassert in E.
    destruct (rc =? H_Success); [|done]. by injection E as <- _.
  - by injection E as _ <-.
Qed.

(** Ending an interrupt: either nothing happens, or its line is outstanding no
    more; the latter only for a caller whose OS owns the thread it is routed to. *)
Lemma h_eoi_inv m thread val r m' :
  h_eoi other_eoi m thread val = Ok (r, m') ->
  (forall k, get_class m (xirr_class (u32 val)) = Ok k -> eoi_fn k = None) ->
  (r = H_Permission /\ m' = m) \/
  r = H_Success /\ xir_eoi m (u32 val) = Ok m' /\
  exists xh t u me cme,
    line m (xirr_class (u32 val)) (xirr_dev_id (u32 val)) = Some xh /\
    threads m !! xh_dat xh = Some t /\ cpus m !! thr_cpu t = Some u /\
    threads m !! thread = Some me /\ cpus m !! thr_cpu me = Some cme /\ cpu_os u = cpu_os cme.
Proof.
  unfold h_eoi. set (v := u32 val). intros (thr & Hthr & E)%res_bind_ok Hfn.
  apply res_bind_ok in E as (k & Hk & E). rewrite (Hfn k Hk) in E.
  destruct (Z.eqb_spec thr 0) as [->|Hne].
  { injection E as <- <-. by left. }
  apply res_bind_ok in Hthr as (p & Hp & Hthr).
  assert (p = None \/ p = Some (xirr_class v, xirr_dev_id v)) as [-> | ->].
  { unfold xir_get_xh_data, __xir_get_xh_data in Hp. apply res_bind_ok in Hp as (k' & _ & Hp).
    destruct (xc_data k'); [|injection Hp as <-; by left].
    destruct (XIRR_DEVID_SZ <=? _); injection Hp as <-; auto. }
  { injection Hthr as <-. done. }
  apply res_bind_ok in Hthr as (xh & Hxh & Hthr). injection Hthr as <-. apply get_xh_inv in Hxh.
  unfold __xir_get_thread in *. destruct (truth (Z.land (xh_flags xh) XIRR_DATA_THR)); [|done].
  apply res_bind_ok in E as (t & Ht & E). apply res_bind_ok in E as (u & Hu & E).
  apply res_bind_ok in E as (me & Hme & E). apply res_bind_ok in E as (cme & Hcme & E).
  unfold get_thread, get_cpu in *.
  destruct (threads m !! xh_dat xh) as [t'|] eqn:E1; [|done]. injection Ht as ->.
  destruct (cpus m !! thr_cpu t) as [u'|] eqn:E2; [|done]. injection Hu as ->.
  destruct (threads m !! thread) as [me'|] eqn:E3; [|done]. injection Hme as ->.
  destruct (cpus m !! thr_cpu me) as [cme'|] eqn:E4; [|done]. injection Hcme as ->.
  destruct (Z.eqb_spec (cpu_os u) (cpu_os cme)) as [Eo|]; cbn [negb] in E.
  - apply res_bind_ok in E as (m2 & Em & E). injection E as <- <-. right.
    split; [done|]. split; [done|]. by exists xh, t, u, me, cme.
  - injection E as <- <-. by left.
Qed.

Lemma xir_eoi_inv m xirr m' :
  xir_ok good m -> xir_eoi m xirr = Ok m' ->
  exists xh, line m (xirr_class xirr) (xirr_dev_id xirr) = Some xh /\
    m' = upd m (xirr_class xirr) (xirr_dev_id xirr) (set_flags xh (without_flag (xh_flags xh) 2)).
Proof.
  intros Hi E. pose proof E as E'. unfold xir_eoi in E.
  apply res_bind_ok in E as (a & Ha & E). apply res_bind_ok in E as (a1 & Ha1 & _).
  unfold xirr_lock in Ha1. apply res_bind_ok in Ha1 as (b & _ & Ha1).
  apply res_bind_ok in Ha1 as (xh & Hxh & _). exists xh.
  assert (line m (xirr_class xirr) (xirr_dev_id xirr) = Some xh) as Hl.
  { apply get_xh_inv. simpl. by rewrite Ha. }
  split; [done|]. destruct (inv_lines m Hi _ _ xh Hl) as (_ & Hd & Hu & _).
  rewrite (xir_eoi_ok m _ _ xh xirr Hl Hu Hd eq_refl eq_refl) in E'. by injection E' as <-.
Qed.

Lemma config_ok m c d xh xirr dest device :
  line m c d = Some xh -> unlocked xh -> d < XIRR_DEVID_SZ -> xirr_class xirr = c -> xirr_dev_id xirr = d ->
  xir_default_config m xirr dest device =
  if dest =? 0 then Ok (H_Success, upd m c d (XhData 0 None device 0))
  else if xh_handler xh is Some _ then Ok (H_UNAVAIL, m)
  else Ok (H_Success, upd m c d (XhData dest (Some Xir_raise_fn) device 25)).
Proof.
  intros Hl Hu Hd Ec Ed. unfold xir_default_config, xir_get_xh_data.
  change (xirr_xisr xirr) with (xirr_dev_id xirr). rewrite Ec, Ed.
  rewrite (get_data_ok _ _ _ xh) by done. cbn [res_bind]. rewrite (enter_line m c d xh) by done.
  destruct Hu as [Hf Hb]. destruct (locked_bit _ Hf) as [Hf' Hb'].
  assert (line (upd m c d (locked xh)) c d = Some (locked xh)) as Hl' by (by eauto using line_upd_eq).
  rewrite locked_flags by done.
  assert (Z.land (with_flag (xh_flags xh) 31) XIRR_LOCK_BIT = 2 ^ 31) as ->.
  { unfold XIRR_LOCK_BIT. bits i. rewrite testbit_with by lia.
    destruct (31 =? i); rewrite ?andb_true_r, ?andb_false_r, ?orb_true_r; done. }
  destruct (dest =? 0).
  - rewrite (put_xh_ok _ _ _ _ _ Hl'), upd_upd. cbn [res_bind].
    by rewrite (unlock_upd m c d xh) by (done || (simpl; unfold is_u32; lia)).
  - change (xh_handler (locked xh)) with (xh_handler xh). destruct (xh_handler xh).
    + cbn [res_bind]. unfold locked. rewrite (unlock_set m c d xh) by done. cbn [res_bind].
      by rewrite without_with, set_flags_id, upd_id by (done || lia).
    + rewrite (put_xh_ok _ _ _ _ _ Hl'), upd_upd. cbn [res_bind].
      by rewrite (unlock_upd m c d xh) by (done || (simpl; unfold is_u32; lia)).
Qed.

(** ** The system *)

(** An operation on the interrupts of a machine whose lines are all routed by
    [xir_default_config]. *)
Inductive xir_op :=
  | Op_inject (class dev_id payload : Z)
  | Op_state (class dev_id state : Z)
  | Op_xirr (thread : Z)
  | Op_eoi (thread val : Z)
  | Op_config (class dev_id dest device : Z).

Definition xir_exec (m : machine) (o : xir_op) : res machine :=
  match o with
  | Op_inject c d p => let! (_, _, m) := xir_inject other_handler m c d p in Ok m
  | Op_state c d state => xir_set_state other_handler m (xirr_encode d c) (Some (c, d)) state
  | Op_xirr thread => let! (_, m) := h_xirr other_eoi m thread in Ok m
  | Op_eoi thread val => let! (_, m) := h_eoi other_eoi m thread val in Ok m
  | Op_config c d dest device => let! (_, m) := xir_default_config m (xirr_encode d c) dest device in Ok m
  end.

(** The operation names a line there is and a thread there is, and goes through
    no interrupt controller: an interrupt of a hardware device is not fetched, and
    the class of an interrupt that is ended has no routine of its own. *)
Definition served (m : machine) (o : xir_op) : Prop :=
  match o with
  | Op_inject c d _ | Op_state c d _ => is_Some (line m c d)
  | Op_xirr thread => forall x m', h_xirr other_eoi m thread = Ok (x, m') -> xirr_class x <> XIRR_CLASS_HWDEV
  | Op_eoi _ val => forall k, get_class m (xirr_class (u32 val)) = Ok k -> eoi_fn k = None
  | Op_config c d dest _ => is_Some (line m c d) /\ (dest = 0 \/ is_Some (threads m !! dest))
  end.

(** The operation neither ends nor unroutes the interrupt [x] while it waits in a
    queue.  The code checks neither: this is up to the guest. *)
Definition spares (m : machine) (o : xir_op) (x : Z) : Prop :=
  match o with
  | Op_eoi _ val => xirr_encode (xirr_dev_id (u32 val)) (xirr_class (u32 val)) = x -> forall t, ~ queued m t x
  | Op_config c d dest _ => dest = 0 -> xirr_encode d c = x -> forall t, ~ queued m t x
  | _ => True
  end.

(** A step: any operation, as long as the [good] interrupts are spared. *)
Definition xir_step (m m' : machine) : Prop :=
  exists o, served m o /\ (forall x, good x -> spares m o x) /\ xir_exec m o = Ok m'.

Lemma xir_step_inv m m' : xir_ok good m -> xir_step m m' -> xir_ok good m'.
Proof.
  intros Hi (o & Hs & Hg & E). destruct o as [c d p|c d state|thread|thread val|c d dest device]; cbn [served xir_exec] in Hs, E.
  - destruct Hs as [xh Hl]. destruct (inject_total m c d p xh Hi Hl) as (r' & thr' & m2 & E' & Hi2).
    rewrite E' in E. by injection E as <-.
  - destruct Hs as [xh Hl]. destruct (set_state_total m c d xh state Hi Hl) as (m2 & E' & Hi2).
    rewrite E' in E. by injection E as <-.
  - apply res_bind_ok in E as ([x m2] & E & [= <-]). by eapply fetch_inv; [..|by eapply Hs].
  - apply res_bind_ok in E as ([r m2] & E & [= <-]). destruct (h_eoi_inv m thread val r m2 E Hs) as [[_ ->]|(_ & E' & _)]; [done|].
    destruct (xir_eoi_inv m _ m2 Hi E') as (xh & Hl & ->).
    destruct (inv_lines m Hi _ _ xh Hl) as (_ & _ & [Hf Hb] & Hh).
    apply (inv_upd m _ _ xh); try done.
    + split; rewrite set_flags_flags by auto with word; [auto with word|].
      by rewrite testbit_without, Hb by (done || lia).
    + intros t Hx Ht. by destruct (Hg _ Hx eq_refl t).
  - apply res_bind_ok in E as ([r m2] & E & [= <-]). destruct Hs as [[xh Hl] Hdest].
    destruct (inv_lines m Hi c d xh Hl) as (_ & Hd & Hu & Hh). destruct (inv_range m c d xh Hi Hl) as [Hc Hd'].
    destruct (decode_encode_small d c) as [Ed Ec]; [unfold XIRR_DEVID_SZ, XIRR_CLASS_MAX in *; lia..|].
    rewrite (config_ok m c d xh) in E by done. destruct (Z.eqb_spec dest 0) as [->|Hd0].
    + injection E as _ <-. apply (inv_upd m c d xh); try done; [by left|].
      intros t Hx Ht. by destruct (Hg _ Hx eq_refl eq_refl t).
    + destruct (xh_handler xh) eqn:Eh; injection E as _ <-; [done|].
      apply (inv_upd m c d xh); try done.
      * right. split; [done|]. destruct Hdest; done.
      * intros t Hx Ht. destruct (queued_outstanding m c d xh t Hi Hl Hx Ht) as (_ & _ & E). congruence.
Qed.
End Steps.

(** ** Properties *)

(** C16: whatever sequence of injections, state changes, fetches, ends and
    reconfigurations is run, no line is left locked; and an interrupt that nobody
    ends or unroutes while it waits in a queue is never queued twice for a thread,
    and while it is queued its line is outstanding and routed to that thread,
    whatever is done with the other interrupts.  The condition is needed and the
    code does not check it: see [eoi_before_fetch].  Interrupts that end in a
    controller, those of hardware devices, are left out. *)
Theorem xir_no_duplicates oh oe good m m' :
  xir_ok good m -> rtc (xir_step oh oe good) m m' ->
  (forall c d xh, line m' c d = Some xh -> unlocked xh) /\
  (forall thr t x, good x -> threads m' !! thr = Some t -> once x (xq_contents (xirq t))) /\
  (forall thr x, good x -> queued m' thr x -> line_of m' thr x).
Proof.
  intros Hi Hr. assert (xir_ok good m') as Hi'.
  { induction Hr as [|m1 m2 m3 H12 _ IH]; [done|]. by eapply IH, xir_step_inv. }
  split_and!.
  - intros c d xh Hl. by destruct (inv_lines m' Hi' c d xh Hl) as (_ & _ & ? & _).
  - intros thr t x Hx Ht. by apply (inv_threads m' Hi' thr).
  - apply (inv_queued m' Hi').
Qed.

(** The effect of raising an interrupt routed to a thread.  On a disabled
    line it is held pending; on an outstanding one it changes nothing; else it
    is appended to the thread's queue, the line becomes outstanding and the
    processor runnable; with a full queue only the line changes.  The call
    always returns, with the line unlocked and every other line as it was. *)
Theorem xir_inject_effect oh m c d p xh t u :
  line m c d = Some xh -> unlocked xh -> 0 <= c < XIRR_CLASS_MAX -> 0 <= d < XIRR_DEVID_SZ ->
  xh_handler xh = Some Xir_raise_fn -> threads m !! xh_dat xh = Some t ->
  cpus m !! thr_cpu t = Some u -> xq_wf (xirq t) ->
  exists r thr m', xir_inject oh m c d p = Ok (r, thr, m') /\
    (exists xh', line m' c d = Some xh' /\ unlocked xh' /\
      if has xh 0 then r = XH_DROP /\ threads m' = threads m /\ has xh' 1 = true /\ has xh' 2 = has xh 2
      else if has xh 2 then m' = m
      else has xh' 2 = true /\ has xh' 1 = false /\
        exists q, threads m' = <[xh_dat xh := CpuThread q (thr_cpu t)]> (threads m) /\ xq_wf q /\
          if Z.of_nat (length (xq_contents (xirq t))) =? 255 then r = -1 /\ q = xirq t
          else 0 <= r /\ xq_contents q = xq_contents (xirq t) ++ [xirr_encode d c] /\
            cpus m' !! thr_cpu t = Some (Cpu (cpu_os u) 1)) /\
    forall c' d', (c', d') <> (c, d) -> line m' c' d' = line m c' d'.
Proof.
  intros Hl Hu Hc Hd Hh Ht Hcu Hwf. pose proof Hu as [Hf Hb]. pose proof (proj2 Hd) as Hd2.
  destruct (has xh 0) eqn:H0.
  { do 3 eexists. split; [by apply inject_disabled|]. split.
    - eexists. split; [by eauto using line_upd_eq|].
      assert (is_u32 (with_flag (xh_flags xh) 1)) by auto with word.
      unfold unlocked, has. rewrite !set_flags_flags by done. rewrite !testbit_with, Hb by lia.
      rewrite orb_true_r, orb_false_r. split_and!; try done. apply orb_false_r.
    - intros c' d' Hne. apply line_upd_ne; (done || lia). }
  destruct (has xh 2) eqn:H2.
  { do 3 eexists. split; [by apply inject_again|]. split; [|done]. by exists xh. }
  assert (is_u32 (without_flag (with_flag (xh_flags xh) 2) 1)) as Hf2 by auto with word.
  pose proof (xq_contents_length (xirq t)) as Hlen.
  assert (0 <= xq_count (xirq t) < 256) as Hcount by (unfold xq_count; apply Z.mod_pos_bound; done).
  assert (exists n q, xir_add (xirq t) (xirr_encode d c) = Ok (n, q) /\ xq_wf q /\
    if Z.of_nat (length (xq_contents (xirq t))) =? 255 then n = -1 /\ q = xirq t
    else 0 <= n /\ xq_contents q = xq_contents (xirq t) ++ [xirr_encode d c]) as (n & q & Hq & Hwq & Hadd).
  { rewrite Hlen. destruct (Z.eqb_spec (xq_count (xirq t)) 255) as [E|E].
    - exists (-1), (xirq t). by rewrite xir_add_full.
    - destruct (xir_add_room (xirq t) (xirr_encode d c) Hwf) as (q & E1 & E2 & E3).
      { unfold XQ_CAPACITY, XIRR_DEVID_SZ. lia. }
      exists (xq_tail (xirq t)), q. destruct Hwf. split_and!; try done. lia. }
  do 3 eexists. split; [by apply (inject_deliver oh m c d p xh t u n q)|]. split.
  - exists (outstanding xh). split; [by apply (line_upd_eq m c d xh)|].
    unfold unlocked, has, outstanding. rewrite !set_flags_flags by done.
    rewrite !testbit_without, !testbit_with, Hb by (auto with word || lia).
    rewrite orb_true_r, andb_false_r. split; [done|]. split; [done|]. split; [done|]. exists q. split; [done|].
    split; [done|]. destruct (_ =? 255); [done|]. destruct Hadd as [Hn Hq']. split; [done|]. split; [done|].
    simpl. destruct (Z.leb_spec 0 n); [|lia]. apply lookup_insert_eq.
  - intros c' d' Hne. apply (line_upd_ne m c d); (done || lia).
Qed.

(** An interrupt raised while its line is disabled is not lost: enabling the
    line afterwards gives the same machine as raising it on the enabled line. *)
Theorem xir_deferred_delivery oh m c d p p' xh t u :
  line m c d = Some xh -> unlocked xh -> 0 <= c < XIRR_CLASS_MAX -> 0 <= d < XIRR_DEVID_SZ ->
  xh_handler xh = Some Xir_raise_fn -> threads m !! xh_dat xh = Some t ->
  cpus m !! thr_cpu t = Some u -> xq_wf (xirq t) -> has xh 0 = true -> has xh 2 = false ->
  exists n q, xir_add (xirq t) (xirr_encode d c) = Ok (n, q) /\
  (let! (_, _, m) := xir_inject oh m c d p in
   xir_set_state oh m (xirr_encode d c) (Some (c, d)) 1) =
    Ok (delivered m c d (set_flags xh (without_flag (xh_flags xh) 0)) t u n q) /\
  (has xh 1 = false ->
   (let! m := xir_set_state oh m (xirr_encode d c) (Some (c, d)) 1 in
    let! (_, _, m) := xir_inject oh m c d p' in Ok m) =
    Ok (delivered m c d (set_flags xh (without_flag (xh_flags xh) 0)) t u n q)).
Proof.
  intros Hl Hu Hc Hd Hh Ht Hcu Hwf H0 H2. pose proof Hu as [Hf Hb].
  assert (exists n q, xir_add (xirq t) (xirr_encode d c) = Ok (n, q)) as (n & q & Hq).
  { destruct (xirq_add_total (xirq t) (xirr_encode d c) Hwf) as (n & q & Hq & _). eauto. }
  destruct (decode_encode_small d c) as [Ed Ec]; [unfold XIRR_DEVID_SZ, XIRR_CLASS_MAX in *; lia..|].
  exists n, q. split; [done|]. set (f := without_flag (xh_flags xh) 0).
  assert (is_u32 f) as Hff by (unfold f; auto with word).
  assert (forall g, is_u32 g -> Z.testbit g 31 = false -> Z.testbit g 0 = false -> Z.testbit g 2 = false ->
    without_flag (with_flag g 2) 1 = without_flag (with_flag f 2) 1 -> forall x p,
    x = set_flags xh g ->
    (let! (_, _, m') := xir_inject oh (upd m c d x) c d p in Ok m') =
    Ok (delivered m c d (set_flags xh f) t u n q)) as Hdel.
  { intros g Hg Hg31 Hg0 Hg2 Hgf x pp ->.
    assert (line (upd m c d (set_flags xh g)) c d = Some (set_flags xh g)) as Hl' by (by eauto using line_upd_eq).
    rewrite (inject_deliver oh _ c d pp (set_flags xh g) t u n q);
      unfold unlocked, has; rewrite ?set_flags_flags by done; try done; [|lia].
    cbn [res_bind]. unfold delivered, with_tc. do 2 f_equal. rewrite upd_upd. unfold outstanding.
    rewrite !set_flags_flags by done. by rewrite !set_flags_twice, Hgf. }
  split.
  - rewrite (inject_disabled oh m c d p xh) by (done || lia). cbn [res_bind].
    set (x1 := set_flags xh (with_flag (xh_flags xh) 1)).
    assert (xh_flags x1 = with_flag (xh_flags xh) 1) as Hx1 by (unfold x1; rewrite set_flags_flags; auto with word).
    rewrite (set_state_enable oh _ c d _ x1); [|by eauto using line_upd_eq| |done].
    2:{ split; rewrite Hx1; [auto with word|]. by rewrite testbit_with, Hb by lia. }
    unfold has. rewrite Hx1, !testbit_with by lia. unfold has in H0. rewrite H0, orb_true_r. cbn [orb andb].
    unfold xir_raise. rewrite Ed, Ec, upd_upd.
    apply (Hdel (without_flag (with_flag (xh_flags xh) 1) 0)); auto with word.
    + by rewrite testbit_without, testbit_with, Hb by (auto with word || lia).
    + rewrite testbit_without by (auto with word || lia). apply andb_false_r.
    + unfold has in H2. by rewrite testbit_without, testbit_with, H2 by (auto with word || lia).
    + unfold f. flagbits i. destruct (1 =? i); rewrite ?andb_false_r, ?orb_false_r; done.
  - intros H1. rewrite (set_state_enable oh m c d _ xh), H1, andb_false_r by done. cbn [res_bind].
    apply (Hdel f); auto; unfold f; rewrite testbit_without by (done || lia).
    + by rewrite Hb.
    + apply andb_false_r.
    + unfold has in H2. by rewrite H2.
Qed.

(** [h_eoi] ends an interrupt only for a caller of the partition the
    interrupt is routed to, and any other caller changes nothing. *)
Theorem h_eoi_isolated oe m thread val r m' :
  h_eoi oe m thread val = Ok (r, m') ->
  (forall k, get_class m (xirr_class (u32 val)) = Ok k -> eoi_fn k = None) ->
  m' = m \/
  exists xh t u me cme,
    line m (xirr_class (u32 val)) (xirr_dev_id (u32 val)) = Some xh /\
    threads m !! xh_dat xh = Some t /\ cpus m !! thr_cpu t = Some u /\
    threads m !! thread = Some me /\ cpus m !! thr_cpu me = Some cme /\ cpu_os u = cpu_os cme.
Proof.
  intros E Hfn. destruct (h_eoi_inv oe m thread val r m' E Hfn) as [[_ ->]|(_ & _ & H)]; [by left|by right].
Qed.

(** A class field of 15 passes the 4-bit mask but indexes past the table of
    classes: [h_eoi] of such a word reads outside it. *)
Theorem h_eoi_class_15 oe m thread :
  Z.of_nat (length (xirr_classes m)) = XIRR_CLASS_MAX ->
  h_eoi oe m thread (xirr_encode 0 15) = Fault Out_of_bounds.
Proof.
  intros Hlen. unfold h_eoi. change (xirr_class (u32 (xirr_encode 0 15))) with 15.
  unfold xir_get_thread, xir_get_xh_data. change (xirr_class (u32 (xirr_encode 0 15))) with 15.
  unfold __xir_get_xh_data, get_class, aget.
  destruct (xirr_classes m !! Z.to_nat 15) as [k|] eqn:E; [|done].
  apply lookup_lt_Some in E. unfold XIRR_CLASS_MAX in Hlen. lia.
Qed.

(** ** Witnesses: one line of class 1 routed to a thread of OS 7 *)
Definition demo_line (f : Z) : xh_data := XhData 1 (Some Xir_raise_fn) 0 f.
Definition demo_lines (f : Z) : list xh_data := demo_line f :: repeat (XhData 0 None 0 0) 255.
Definition demo_thread : cpu_thread := CpuThread (XirQueue 0 0 (repeat 0 256)) 1.
Definition demo (f : Z) : machine :=
  Machine ([XirrClass None None; XirrClass (Some (demo_lines f)) None] ++ repeat (XirrClass None None) 13)
    {[1 := demo_thread]} {[1 := Cpu 7 0]}.
Definition no_handler (_ : Z) (m : machine) (_ : Z) (_ : xh_ptr) (_ _ : Z) : res (Z * Z * machine) :=
  Ok (0, 0, m).
Definition no_eoi (_ : Z) (m : machine) (_ _ : Z) : res (Z * machine) := Ok (0, m).

Lemma demo_inv : xir_inv (demo 24).
Proof.
  split.
  - intros c d xh (Hc & Hd & k & a & Hk & Ha & Hx)%line_inv.
    assert (c = 1 /\ a = demo_lines 24) as [-> ->].
    { remember (Z.to_nat c) as n eqn:En. destruct n as [|[|n]]; simpl in Hk.
      - injection Hk as <-. done.
      - injection Hk as <-. injection Ha as <-. split; [lia|done].
      - apply list_elem_of_lookup_2, list_elem_of_In, (repeat_spec 13) in Hk as ->. done. }
    apply lookup_lt_Some in Hx as Hlt. change (length (demo_lines 24)) with 256%nat in Hlt.
    split; [done|]. split; [unfold XIRR_DEVID_SZ; lia|].
    remember (Z.to_nat d) as n eqn:En. destruct n as [|n].
    + injection Hx as <-. split; [split; simpl; [unfold is_u32; lia|done]|].
      right. split; [done|]. by exists demo_thread.
    + simpl in Hx. apply list_elem_of_lookup_2, list_elem_of_In, (repeat_spec 255) in Hx as ->.
      split; [split; simpl; [unfold is_u32; lia|done]|by left].
  - intros thr t Ht. simpl in Ht. apply lookup_singleton_Some in Ht as [<- <-].
    split_and!; [split; simpl; done || lia|by exists (Cpu 7 0)|].
    intros x _. change (xq_contents (xirq demo_thread)) with (@nil Z). apply once_nil.
  - intros thr x _ (t & Ht & Hin). simpl in Ht. apply lookup_singleton_Some in Ht as [<- <-].
    change (xq_contents (xirq demo_thread)) with (@nil Z) in Hin. by apply not_elem_of_nil in Hin.
Qed.

(** The interrupts other than the one of line 0; that one is ended before it is fetched. *)
Definition demo_good (x : Z) : Prop := x <> xirr_encode 0 1.
Definition run_ops (m : machine) (l : list xir_op) : res machine :=
  fold_left (fun r o => let! m := r in xir_exec no_handler no_eoi m o) l (Ok m).

(** Raised, ended before it is fetched and raised again, an interrupt is queued twice. *)
Example eoi_before_fetch :
  (let! m := run_ops (demo 24) [Op_inject 1 0 0; Op_eoi 1 (xirr_encode 0 1); Op_inject 1 0 0] in
   let! t := get_thread m 1 in Ok (xq_contents (xirq t))) = Ok [xirr_encode 0 1; xirr_encode 0 1].
Proof. vm_compute. reflexivity. Qed.

Lemma xir_no_duplicates_witness :
  exists m', run_ops (demo 24) [Op_inject 1 0 0; Op_eoi 1 (xirr_encode 0 1)] = Ok m' /\ m' <> demo 24 /\
  (forall c d xh, line m' c d = Some xh -> unlocked xh) /\
  (forall thr t x, demo_good x -> threads m' !! thr = Some t -> once x (xq_contents (xirq t))) /\
  (forall thr x, demo_good x -> queued m' thr x -> line_of m' thr x).
Proof.
  destruct (xir_exec no_handler no_eoi (demo 24) (Op_inject 1 0 0)) as [m1|] eqn:E1; [|vm_compute in E1; discriminate].
  destruct (xir_exec no_handler no_eoi m1 (Op_eoi 1 (xirr_encode 0 1))) as [m'|] eqn:E2;
    [|vm_compute in E1; injection E1 as <-; vm_compute in E2; discriminate].
  exists m'. split; [unfold run_ops; cbn [fold_left res_bind]; rewrite E1; exact E2|].
  split; [vm_compute in E1; injection E1 as <-; vm_compute in E2; injection E2 as <-; discriminate|].
  apply (xir_no_duplicates no_handler no_eoi demo_good (demo 24) m').
  - destruct demo_inv as [H1 H2 H3]. split; [done| |intros thr x _; by apply H3].
    intros thr t Ht. destruct (H2 thr t Ht) as (Ha & Hb & Hc). eauto.
  - eapply rtc_l; [|apply rtc_once].
    + exists (Op_inject 1 0 0). split; [by exists (demo_line 24)|]. split; [done|exact E1].
    + exists (Op_eoi 1 (xirr_encode 0 1)). split; [|split; [|exact E2]].
      * intros k Hk. vm_compute in E1. injection E1 as <-. vm_compute in Hk. injection Hk as <-. reflexivity.
      * intros x Hx E. destruct Hx. symmetry. exact E.
Defined.

Lemma xir_inject_effect_witness :
  exists r thr m', xir_inject no_handler (demo 24) 1 0 0 = Ok (r, thr, m') /\
    (exists xh', line m' 1 0 = Some xh' /\ unlocked xh' /\
      has xh' 2 = true /\ has xh' 1 = false /\
        exists q, threads m' = <[1 := CpuThread q 1]> (threads (demo 24)) /\ xq_wf q /\
          0 <= r /\ xq_contents q = xq_contents (xirq demo_thread) ++ [xirr_encode 0 1] /\
            cpus m' !! 1 = Some (Cpu 7 1)) /\
    forall c' d', (c', d') <> (1, 0) -> line m' c' d' = line (demo 24) c' d'.
Proof.
  apply (xir_inject_effect no_handler (demo 24) 1 0 0 (demo_line 24) demo_thread (Cpu 7 0));
    try done; split; simpl; done || (unfold is_u32; lia).
Defined.

Lemma xir_deferred_delivery_witness :
  exists n q, xir_add (xirq demo_thread) (xirr_encode 0 1) = Ok (n, q) /\
  (let! (_, _, m) := xir_inject no_handler (demo 25) 1 0 0 in
   xir_set_state no_handler m (xirr_encode 0 1) (Some (1, 0)) 1) =
    Ok (delivered (demo 25) 1 0 (set_flags (demo_line 25) (without_flag 25 0)) demo_thread (Cpu 7 0) n q) /\
  (has (demo_line 25) 1 = false ->
   (let! m := xir_set_state no_handler (demo 25) (xirr_encode 0 1) (Some (1, 0)) 1 in
    let! (_, _, m) := xir_inject no_handler m 1 0 0 in Ok m) =
    Ok (delivered (demo 25) 1 0 (set_flags (demo_line 25) (without_flag 25 0)) demo_thread (Cpu 7 0) n q)).
Proof.
  apply (xir_deferred_delivery no_handler (demo 25) 1 0 0 0 (demo_line 25) demo_thread (Cpu 7 0));
    try done; split; simpl; done || (unfold is_u32; lia).
Defined.

Lemma h_eoi_isolated_witness :
  exists m', h_eoi no_eoi (demo 28) 1 (xirr_encode 0 1) = Ok (H_Success, m') /\
  (m' = demo 28 \/
   exists xh t u me cme,
    line (demo 28) 1 0 = Some xh /\
    threads (demo 28) !! xh_dat xh = Some t /\ cpus (demo 28) !! thr_cpu t = Some u /\
    threads (demo 28) !! 1 = Some me /\ cpus (demo 28) !! thr_cpu me = Some cme /\ cpu_os u = cpu_os cme).
Proof.
  destruct (h_eoi no_eoi (demo 28) 1 (xirr_encode 0 1)) as [[r m']|] eqn:E; [|vm_compute in E; discriminate].
  exists m'. split.
  - assert (r = H_Success) as -> by (vm_compute in E; injection E as <- _; reflexivity). done.
  - apply (h_eoi_isolated no_eoi (demo 28) 1 (xirr_encode 0 1) r m' E).
    intros k Hk. vm_compute in Hk. injection Hk as <-. reflexivity.
Defined.

Lemma h_eoi_class_15_witness : h_eoi no_eoi (demo 24) 1 (xirr_encode 0 15) = Fault Out_of_bounds.
Proof. apply h_eoi_class_15. reflexivity. Defined.
