(* ===== verification/Sched.v ===== *)
(** * Sched: slots of processor time

    [hype/sched.c], [hype/h_set_sched_params.c], [hype/h_yield.c] and
    [hype/preempt_thread.c].  Every physical processor has 64 time slots; a
    virtual processor ([struct cpu]) owns some of them, some locked.  All of
    this runs with the physical processor's [hpc_mutex] held, as one step. *)

From S2P Require Import Prelude Hcall.

Definition NUM_SCHED_SLOTS : Z := 64.
Definition THIS_CPU : Z := 65535.

(** [struct sched_poll_s] *)
Record sched_poll_s := SchedPoll {
  curr_set : Z;
  required : Z;
  desired : Z;
  next_lpid : Z;
  runnable : Z
}.

(** What scheduling uses of [struct cpu]; [os] is the partition's id. *)
Record cpu := Cpu { logical_cpu_num : Z; sched : sched_poll_s; cpu_lpid : Z }.

(** [struct hype_scheduler]; an owner is a pointer to a [cpu], 0 is [NULL]. *)
Record hype_scheduler := HypeScheduler {
  used_slots : Z;
  locked_slots : Z;
  owners : list Z;
  curr_slot : Z
}.

Record state := State { cpus : gmap Z cpu; hype_per_cpu : list hype_scheduler }.

Definition get_cpu (s : state) (c : Z) : res cpu := of_option Null_deref (cpus s !! c).
Definition put_cpu (s : state) (c : Z) (k : cpu) : state := State (<[c := k]> (cpus s)) (hype_per_cpu s).
Definition get_hpc (s : state) (p : Z) : res hype_scheduler := aget (hype_per_cpu s) p.
Definition put_hpc (s : state) (p : Z) (h : hype_scheduler) : res state :=
  let! l := aset (hype_per_cpu s) p h in Ok (State (cpus s) l).

Definition set_curr_set (k : cpu) (v : Z) : cpu :=
  Cpu (logical_cpu_num k)
      (SchedPoll v (required (sched k)) (desired (sched k)) (next_lpid (sched k)) (runnable (sched k)))
      (cpu_lpid k).
Definition set_masks (k : cpu) (req des : Z) : cpu :=
  Cpu (logical_cpu_num k)
      (SchedPoll (curr_set (sched k)) req des (next_lpid (sched k)) (runnable (sched k)))
      (cpu_lpid k).
Definition set_next_lpid (k : cpu) (v : Z) : cpu :=
  Cpu (logical_cpu_num k)
      (SchedPoll (curr_set (sched k)) (required (sched k)) (desired (sched k)) v (runnable (sched k)))
      (cpu_lpid k).
Definition set_runnable (k : cpu) (v : Z) : cpu :=
  Cpu (logical_cpu_num k)
      (SchedPoll (curr_set (sched k)) (required (sched k)) (desired (sched k)) (next_lpid (sched k)) v)
      (cpu_lpid k).
Definition set_owner (h : hype_scheduler) (i c : Z) : res hype_scheduler :=
  let! l := aset (owners h) i c in Ok (HypeScheduler (used_slots h) (locked_slots h) l (curr_slot h)).

(** ** Rotations *)

Definition rotate1 (bits : Z) : Z := Z.lor (shr64 bits (NUM_SCHED_SLOTS - 1)) (shl64 bits 1).

(** [match_slot]: the result and the mask [*orig] points to. *)
Fixpoint match_loop (n : nat) (i fixed bits : Z) : option (Z * Z) :=
  match n with
  | O => None
  | S n => if Z.land bits (not64 fixed) =? bits then Some (i, bits)
           else match_loop n (i + 1) fixed (rotate1 bits)
  end.

Definition match_slot (fixed orig : Z) : Z * Z :=
  match match_loop (Z.to_nat NUM_SCHED_SLOTS) 0 fixed orig with
  | Some (i, bits) => (i, bits)
  | None => (u64 H_UNAVAIL, orig)
  end.

(** ** Owners *)
Definition os_yield_slot (s : state) (pcpu slot_id : Z) : res state :=
  cassert (negb (pcpu =? 0))
    (let! k := get_cpu s pcpu in
     let k := set_curr_set k (Z.land (curr_set (sched k)) (not64 (shl64 1 slot_id))) in
     let s := put_cpu s pcpu k in
     let! h := get_hpc s (logical_cpu_num k) in
     let! h := set_owner h slot_id 0 in
     put_hpc s (logical_cpu_num k) h).

Definition os_acquire_slot (s : state) (pcpu slot_id p : Z) : res state :=
  let! h := get_hpc s p in
  let! h := set_owner h slot_id pcpu in
  let! s := put_hpc s p h in
  let! k := get_cpu s pcpu in
  Ok (put_cpu s pcpu (set_curr_set k (Z.lor (curr_set (sched k)) (shl64 1 slot_id)))).

Section Shifts.
(** Two shifts of this file go past the width of their operand.  [0x1 << i] is a
    32-bit [int] shift: for [i < 31] it is the bit, for [i = 31] the sign bit,
    which widens to a mask of bits 31 to 63, and past that whatever [int_shl]
    says the processor gives.  [desired >> 64] is [shr_all desired]. *)
Context (int_shl : Z -> Z) (shr_all : Z -> Z).

Definition slot_bit (i : Z) : Z :=
  if i <? 31 then 2 ^ i else if i =? 31 then 2 ^ 64 - 2 ^ 31 else int_shl i.

Definition slot_step (s : state) (p slots pcpu i : Z) : res state :=
  let! h := get_hpc s p in
  let! o := aget (owners h) i in
  if truth (Z.land slots (slot_bit i)) && negb (o =? pcpu) then
    let! s := if o =? 0 then Ok s else os_yield_slot s o i in
    if pcpu =? 0 then Ok s else os_acquire_slot s pcpu i p
  else Ok s.

Fixpoint slots_loop (n : nat) (i : Z) (s : state) (p slots pcpu : Z) : res state :=
  match n with
  | O => Ok s
  | S n => let! s := slot_step s p slots pcpu i in slots_loop n (i + 1) s p slots pcpu
  end.

Definition set_slot_owners (s : state) (p slots pcpu : Z) : res state :=
  slots_loop (Z.to_nat NUM_SCHED_SLOTS) 0 s p slots pcpu.

Definition rotate_desired (desired rotation : Z) : Z :=
  Z.lor (if rotation =? 0 then shr_all desired else shr64 desired (NUM_SCHED_SLOTS - rotation))
        (shl64 desired rotation).

Definition set_hpc_masks (s : state) (p used locked : Z) : res state :=
  let! h := get_hpc s p in
  put_hpc s p (HypeScheduler used locked (owners h) (curr_slot h)).

Definition locked_set_sched_params (s : state) (pcpu p required0 desired0 : Z) : res (Z * state) :=
  let! k := get_cpu s pcpu in
  let used := curr_set (sched k) in
  let! h := get_hpc s p in
  let tmp := Z.land (used_slots h) (not64 used) in
  let '(rotation, req) := match_slot tmp required0 in
  let '(rotation, req) :=
    if NUM_SCHED_SLOTS <=? rotation
    then match_slot (Z.land (locked_slots h) (not64 used)) req else (rotation, req) in
  if NUM_SCHED_SLOTS <=? rotation then Ok (NUM_SCHED_SLOTS, s)
  else
    let! s := set_slot_owners s p used 0 in
    let! s := set_slot_owners s p req pcpu in
    let des := rotate_desired desired0 rotation in
    let! k := get_cpu s pcpu in
    let! h := get_hpc s p in
    let locked := Z.land (locked_slots h) (not64 (Z.land used (required (sched k)))) in
    let used' := Z.land (used_slots h) (not64 used) in
    let s := put_cpu s pcpu (set_masks k req des) in
    let locked := Z.lor locked req in
    let! s := set_hpc_masks s p used' locked in
    let des := Z.land des (not64 locked) in
    let! s := set_slot_owners s p des pcpu in
    let! h := get_hpc s p in
    let! s := set_hpc_masks s p (Z.lor (used_slots h) (Z.lor des req)) (locked_slots h) in
    Ok (H_Success, s).

(** [run_partition] and [run_cpu] *)
Definition run_cpu (s : state) (pcpu : Z) : res state :=
  let! k := get_cpu s pcpu in Ok (put_cpu s pcpu (set_runnable k 1)).

(** ** Choosing the next processor *)

(** A partition is found by its id; [next_os->cpu[]] is an array. *)
Context (os_lookup : Z -> option (list Z)).

(** The scan: the slot reached and its owner, for the fuel left. *)
Fixpoint next_loop (n : nat) (s : state) (own : list Z) (slot next : Z) : res (Z * Z) :=
  match n with
  | O => Ok (slot, next)
  | S n =>
      let slot := (slot + 1) mod NUM_SCHED_SLOTS in
      let! next := aget own slot in
      if next =? 0 then next_loop n s own slot next
      else
        let! k := get_cpu s next in
        if truth (runnable (sched k)) then Ok (slot, next) else next_loop n s own slot next
  end.

Definition sched_next_os (s : state) (cur : Z) : res (Z * state) :=
  cassert (negb (cur =? 0))
    (let! k := get_cpu s cur in
     let l := logical_cpu_num k in
     let! h := get_hpc s l in
     let slot := (curr_slot h + 0) mod NUM_SCHED_SLOTS in
     let scan :=
       let! (slot, next) := next_loop (Z.to_nat NUM_SCHED_SLOTS) s (owners h) slot 0 in
       if next =? 0 then Ok (cur, s)
       else
         let! kn := get_cpu s next in
         if negb (truth (runnable (sched kn))) then Ok (cur, s)
         else
           let! s := put_hpc s l (HypeScheduler (used_slots h) (locked_slots h) (owners h) slot) in
           Ok (next, s) in
     if negb (next_lpid (sched k) =? cpu_lpid k) && negb (next_lpid (sched k) =? 0) then
       match os_lookup (next_lpid (sched k)) with
       | Some l' => let! next := aget l' l in Ok (next, s)
       | None => scan
       end
     else scan).

(** ** Hypervisor calls *)

(** The call's result, its three result registers when it sets them, and the
    state. *)
Definition h_set_sched_params (s : state) (thread_cpu : Z) (my_os : list Z)
  (lpid phys_cpu_num required0 desired0 : Z) : res (Z * option (Z * Z * Z) * state) :=
  let MAX_CPU := Z.of_nat (length (hype_per_cpu s)) in
  let target_os := os_lookup lpid in
  if (bool_decide (target_os = None) && negb (lpid =? H_SELF_LPID)) ||
     ((MAX_CPU <? phys_cpu_num) && negb (phys_cpu_num =? THIS_CPU))
  then Ok (H_Parameter, None, s)
  else
    let target_os := default my_os target_os in
    let! me := get_cpu s thread_cpu in
    let p := if phys_cpu_num =? THIS_CPU then logical_cpu_num me else phys_cpu_num in
    let! target_cpu := aget target_os p in
    if target_cpu =? 0 then Ok (H_Parameter, None, s)
    else
      let! (err, s) := locked_set_sched_params s target_cpu p required0 desired0 in
      let! h := get_hpc s p in
      let! k := get_cpu s target_cpu in
      Ok (err, Some (locked_slots h, used_slots h, required (sched k)), s).

Definition CT_PREEMPT_RESCHEDULE : Z := 1.
Definition CT_PREEMPT_YIELD_SELF : Z := 2.
Definition CT_PREEMPT_YIELD_DIRECTED : Z := 4.
Definition CT_PREEMPT_CEDE : Z := 8.

(** The result, what [thread->preempt] becomes, and the state. *)
Definition h_yield (s : state) (thread_cpu lpid : Z) : res (Z * Z * state) :=
  let! k := get_cpu s thread_cpu in
  let k := set_next_lpid k 0 in
  if lpid =? 0 then Ok (H_Success, CT_PREEMPT_YIELD_SELF, put_cpu s thread_cpu (set_runnable k 0))
  else if negb (lpid =? H_SELF_LPID) then
    match os_lookup lpid with
    | None => Ok (H_Parameter, CT_PREEMPT_YIELD_SELF, put_cpu s thread_cpu k)
    | Some _ => Ok (H_Success, CT_PREEMPT_YIELD_DIRECTED, put_cpu s thread_cpu (set_next_lpid k lpid))
    end
  else Ok (H_Success, CT_PREEMPT_YIELD_SELF, put_cpu s thread_cpu k).

(** [preempt_thread]: which processor's thread runs next, for the preemption
    request [preempt] of the current one, and the request left afterwards.  The
    switch of register state itself is left out. *)
Definition preempt_thread (s : state) (thread_cpu preempt : Z) : res (Z * Z * state) :=
  let! (next, s) :=
    if (preempt =? CT_PREEMPT_RESCHEDULE) || (preempt =? CT_PREEMPT_YIELD_SELF) ||
       (preempt =? CT_PREEMPT_YIELD_DIRECTED)
    then sched_next_os s thread_cpu
    else if preempt =? CT_PREEMPT_CEDE then Ok (thread_cpu, s)
    else Fault Assert_failed in
  Ok (next, 0, s).
End Shifts.

(** ** Rotations *)
Definition rotate (n : nat) (b : Z) : Z := Nat.iter n rotate1 b.

Lemma rotate1_u64 b : is_u64 b -> is_u64 (rotate1 b).
Proof. intros Hb. unfold rotate1, NUM_SCHED_SLOTS. auto with word. Qed.

Lemma rotate_u64 n b : is_u64 b -> is_u64 (rotate n b).
Proof. intros Hb. induction n; simpl; [done|]. by apply rotate1_u64. Qed.

Lemma testbit_rotate1 b k :
  is_u64 b -> 0 <= k < 64 -> Z.testbit (rotate1 b) k = Z.testbit b ((k - 1) mod 64).
Proof.
  intros Hb Hk. unfold rotate1, NUM_SCHED_SLOTS. rewrite Z.lor_spec, testbit_shr64, testbit_shl64 by lia.
  destruct (Z.eqb_spec k 0) as [->|].
  - simpl. apply orb_false_r.
  - rewrite (is_u64_testbit b (k + (64 - 1))) by (done || lia). rewrite (Z.mod_small (k - 1)) by lia.
    destruct (Z.ltb_spec k 64); [done|lia].
Qed.

Lemma testbit_rotate n b k :
  is_u64 b -> 0 <= k < 64 -> Z.testbit (rotate n b) k = Z.testbit b ((k - Z.of_nat n) mod 64).
Proof.
  intros Hb. revert k. induction n as [|n IH]; intros k Hk; simpl rotate.
  - by rewrite Z.sub_0_r, Z.mod_small.
  - change (rotate (S n) b) with (rotate1 (rotate n b)).
    rewrite testbit_rotate1, IH by (auto using rotate_u64; apply Z.mod_pos_bound; lia).
    f_equal. dlia.
Qed.

Lemma fits_iff b f : is_u64 b -> is_u64 f -> Z.land b (not64 f) = b <-> Z.land b f = 0.
Proof.
  intros Hb Hf. assert (0 <= b) by (unfold is_u64 in Hb; lia). rewrite land_zero_iff by done. split.
  - intros E i Hi Hbi. rewrite <- E, Z.land_spec, testbit_not64 in Hbi by done.
    destruct (Z.testbit f i); [|done]. by rewrite !andb_false_r in Hbi.
  - intros E. bits i. destruct (Z.testbit b i) eqn:Ei; [|done]. rewrite (E i) by done. simpl.
    destruct (Z.ltb_spec i 64); [done|]. by rewrite is_u64_testbit in Ei.
Qed.

Lemma match_loop_spec n k fixed orig :
  is_u64 fixed -> is_u64 orig ->
  match match_loop n (Z.of_nat k) fixed (rotate k orig) with
  | Some (r, m) => exists j, r = Z.of_nat j /\ (k <= j < k + n)%nat /\ m = rotate j orig /\
      Z.land m fixed = 0 /\ forall l, (k <= l < j)%nat -> Z.land (rotate l orig) fixed <> 0
  | None => forall l, (k <= l < k + n)%nat -> Z.land (rotate l orig) fixed <> 0
  end.
Proof.
  intros Hf Ho. revert k. induction n as [|n IH]; intros k; simpl.
  - intros l Hl. lia.
  - pose proof (fits_iff (rotate k orig) fixed (rotate_u64 k orig Ho) Hf) as Hfit.
    destruct (Z.eqb_spec (Z.land (rotate k orig) (not64 fixed)) (rotate k orig)) as [E|E].
    + exists k. split_and!; try done; try lia; by apply Hfit.
    + replace (Z.of_nat k + 1) with (Z.of_nat (S k)) by lia.
      change (rotate1 (rotate k orig)) with (rotate (S k) orig).
      specialize (IH (S k)). destruct (match_loop n _ _ _) as [[r m]|].
      * destruct IH as (j & -> & Hj & -> & Hz & Hl). exists j. split_and!; try done; try lia.
        intros l Hl'. destruct (decide (l = k)) as [->|]; [by rewrite <- Hfit|]. apply Hl. lia.
      * intros l Hl'. destruct (decide (l = k)) as [->|]; [by rewrite <- Hfit|]. apply IH. lia.
Qed.

(** The result of [match_slot], for use below. *)
Definition best_rotation (fixed orig r m : Z) : Prop :=
  (exists j, r = Z.of_nat j /\ (j < 64)%nat /\ m = rotate j orig /\ Z.land m fixed = 0 /\
     forall l, (l < j)%nat -> Z.land (rotate l orig) fixed <> 0) \/
  (64 <= r /\ m = orig /\ forall l, (l < 64)%nat -> Z.land (rotate l orig) fixed <> 0).

Lemma match_slot_spec fixed orig :
  is_u64 fixed -> is_u64 orig ->
  best_rotation fixed orig (match_slot fixed orig).1 (match_slot fixed orig).2.
Proof.
  intros Hf Ho. pose proof (match_loop_spec 64 0 fixed orig Hf Ho) as H.
  unfold match_slot. change (Z.to_nat NUM_SCHED_SLOTS) with 64%nat.
  change (rotate 0 orig) with orig in H. change (Z.of_nat 0) with 0 in H.
  destruct (match_loop 64 0 fixed orig) as [[r m]|]; simpl.
  - destruct H as (j & -> & Hj & -> & Hz & Hl). left. exists j. split_and!; try done; [lia|].
    intros l Hl'. apply Hl. lia.
  - right. split; [done|]. split; [done|]. intros l Hl'. apply H. lia.
Qed.

(** ** Ownership *)
Definition owner (s : state) (p i : Z) : option Z :=
  if (0 <=? p) && (0 <=? i) then h ← hype_per_cpu s !! Z.to_nat p; owners h !! Z.to_nat i else None.

Record sched_wf (s : state) : Prop := {
  wf_owner : forall p i c, owner s p i = Some c -> c <> 0 ->
    exists k, cpus s !! c = Some k /\ logical_cpu_num k = p /\ Z.testbit (curr_set (sched k)) i = true;
  wf_curr : forall c k i, cpus s !! c = Some k -> 0 <= i -> Z.testbit (curr_set (sched k)) i = true ->
    owner s (logical_cpu_num k) i = Some c;
  wf_cpu : forall c k, cpus s !! c = Some k -> c <> 0 /\ is_u64 (curr_set (sched k));
  wf_slots : forall p h, hype_per_cpu s !! p = Some h -> length (owners h) = 64%nat
}.

(** States that differ only in who owns which slot. *)
Definition same_cpu (k k' : cpu) : Prop := k' = set_curr_set k (curr_set (sched k')).
Definition same_hpc (h h' : hype_scheduler) : Prop :=
  h' = HypeScheduler (used_slots h) (locked_slots h) (owners h') (curr_slot h).

Record same (s s' : state) : Prop := {
  same_cpus : forall c k, cpus s !! c = Some k -> exists k', cpus s' !! c = Some k' /\ same_cpu k k';
  same_none : forall c, cpus s !! c = None -> cpus s' !! c = None;
  same_hpcs : forall p h, hype_per_cpu s !! p = Some h ->
    exists h', hype_per_cpu s' !! p = Some h' /\ same_hpc h h'
}.

#[global] Instance same_refl : Reflexive same.
Proof.
  intros s. split; try done.
  - intros c k Hk. exists k. split; [done|]. by destruct k as [? [] ?].
  - intros p h Hh. exists h. split; [done|]. by destruct h.
Qed.

#[global] Instance same_trans : Transitive same.
Proof.
  intros s1 s2 s3 [A1 B1 C1] [A2 B2 C2]. split.
  - intros c k Hk. destruct (A1 c k Hk) as (k2 & Hk2 & E2). destruct (A2 c k2 Hk2) as (k3 & Hk3 & E3).
    exists k3. split; [done|]. unfold same_cpu in *. rewrite E3, E2. done.
  - auto.
  - intros p h Hh. destruct (C1 p h Hh) as (h2 & Hh2 & E2). destruct (C2 p h2 Hh2) as (h3 & Hh3 & E3).
    exists h3. split; [done|]. unfold same_hpc in *. rewrite E3, E2. done.
Qed.

Lemma owner_inv s p i c :
  owner s p i = Some c -> 0 <= p /\ 0 <= i /\ exists h, hype_per_cpu s !! Z.to_nat p = Some h /\
    owners h !! Z.to_nat i = Some c.
Proof.
  unfold owner. destruct (Z.leb_spec 0 p), (Z.leb_spec 0 i); simpl; try done.
  intros (h & Hh & Ho)%bind_Some. eauto.
Qed.

(** The two writes behind a change of owner. *)
Definition owned (s : state) (p i o c : Z) (k : cpu) : state :=
  State (<[c := k]> (cpus s))
    (alter (fun h => HypeScheduler (used_slots h) (locked_slots h) (<[Z.to_nat i := o]> (owners h)) (curr_slot h))
       (Z.to_nat p) (hype_per_cpu s)).

Lemma owner_owned s p i o c k q j x :
  owner s p i = Some x ->
  owner (owned s p i o c k) q j = if (q =? p) && (j =? i) then Some o else owner s q j.
Proof.
  intros (Hp & Hi & h & Hh & Ho)%owner_inv. unfold owner, owned. simpl.
  destruct (Z.eqb_spec q p) as [->|]; simpl.
  - destruct (Z.leb_spec 0 p), (Z.leb_spec 0 j), (Z.eqb_spec j i) as [->|]; simpl; try lia; try done.
    + rewrite list_lookup_alter_eq, Hh. simpl. apply list_lookup_insert_eq. by eapply lookup_lt_Some.
    + rewrite list_lookup_alter_eq, Hh. simpl. apply list_lookup_insert_ne. lia.
  - destruct (Z.leb_spec 0 q), (Z.leb_spec 0 j); simpl; try done.
    rewrite list_lookup_alter_ne; [done|lia].
Qed.

Lemma same_owned s p i o c k v :
  cpus s !! c = Some k -> same s (owned s p i o c (set_curr_set k v)).
Proof.
  intros Hk. split; simpl.
  - intros c' k' Hk'. destruct (decide (c' = c)) as [->|].
    + rewrite lookup_insert_eq. eexists. split; [done|]. rewrite Hk in Hk'. by injection Hk' as <-.
    + rewrite lookup_insert_ne by done. exists k'. split; [done|]. by destruct k' as [? [] ?].
  - intros c' Hc'. rewrite lookup_insert_ne; [done|]. intros ->. congruence.
  - intros q h Hh. destruct (decide (q = Z.to_nat p)) as [->|].
    + rewrite list_lookup_alter_eq, Hh. simpl. eexists. split; [done|]. by destruct h.
    + rewrite list_lookup_alter_ne by done. exists h. split; [done|]. by destruct h.
Qed.

Lemma slots_owned s p i o c k q h :
  (forall p h, hype_per_cpu s !! p = Some h -> length (owners h) = 64%nat) ->
  hype_per_cpu (owned s p i o c k) !! q = Some h -> length (owners h) = 64%nat.
Proof.
  intros Hs. simpl. destruct (decide (q = Z.to_nat p)) as [->|].
  - rewrite list_lookup_alter_eq. destruct (hype_per_cpu s !! Z.to_nat p) as [h'|] eqn:E; simpl; [|done].
    intros [= <-]. simpl. rewrite length_insert. eauto.
  - rewrite list_lookup_alter_ne by done. eauto.
Qed.

Lemma put_owner_ok s p i o x :
  owner s p i = Some x ->
  (let! h := get_hpc s p in let! h := set_owner h i o in put_hpc s p h) =
  Ok (State (cpus s)
    (alter (fun h => HypeScheduler (used_slots h) (locked_slots h) (<[Z.to_nat i := o]> (owners h)) (curr_slot h))
       (Z.to_nat p) (hype_per_cpu s))).
Proof.
  intros (Hp & Hi & h & Hh & Ho)%owner_inv. unfold get_hpc, set_owner, put_hpc.
  rewrite (aget_ok _ _ h) by done. cbn [res_bind]. apply lookup_lt_Some in Ho as Hl, Hh as Hl'.
  rewrite aset_ok by lia. cbn [res_bind]. rewrite aset_ok by lia. cbn [res_bind]. do 2 f_equal.
  apply list_eq. intros q. destruct (decide (q = Z.to_nat p)) as [->|].
  - by rewrite list_lookup_insert_eq, list_lookup_alter_eq, Hh by done.
  - by rewrite list_lookup_insert_ne, list_lookup_alter_ne by done.
Qed.

Lemma wf_owned s p i o c k v x :
  sched_wf s -> owner s p i = Some x -> cpus s !! c = Some k -> logical_cpu_num k = p -> is_u64 v ->
  (forall j, 0 <= j -> j <> i -> Z.testbit v j = Z.testbit (curr_set (sched k)) j) ->
  Z.testbit v i = (o =? c) -> o = 0 \/ o = c -> x = 0 \/ x = c ->
  sched_wf (owned s p i o c (set_curr_set k v)).
Proof.
  intros Hwf Hx Hk Hp Hv Hrest Hbit Ho Hxc.
  destruct (wf_cpu s Hwf c k Hk) as [Hc0 _].
  split.
  - intros q j c' Hown Hc'. pose proof Hown as (Hq & Hj & _)%owner_inv.
    rewrite (owner_owned _ _ _ _ _ _ _ _ x) in Hown by done.
    simpl. destruct (Z.eqb_spec q p) as [->|Hne]; [destruct (Z.eqb_spec j i) as [->|Hne]|]; simpl in Hown.
    { injection Hown as ->. destruct Ho as [->| ->]; [done|]. rewrite lookup_insert_eq.
      eexists. split; [done|]. split; [done|]. simpl. by rewrite Hbit, Z.eqb_refl. }
    all: destruct (wf_owner s Hwf _ _ _ Hown Hc') as (k' & Hk' & Hl & Hb);
      destruct (decide (c' = c)) as [->|]; [|rewrite lookup_insert_ne by done; eauto].
    all: rewrite Hk in Hk'; injection Hk' as <-; rewrite lookup_insert_eq.
    + eexists. split; [done|]. split; [done|]. simpl. by rewrite Hrest.
    + congruence.
  - intros c' k' j Hk' Hj Hb. rewrite (owner_owned _ _ _ _ _ _ _ _ x) by done.
    simpl in Hk'. destruct (decide (c' = c)) as [->|Hne].
    + rewrite lookup_insert_eq in Hk'. injection Hk' as <-. simpl in *. rewrite Hp, Z.eqb_refl. simpl.
      destruct (Z.eqb_spec j i) as [->|].
      * rewrite Hbit in Hb. apply Z.eqb_eq in Hb as ->. done.
      * rewrite Hrest in Hb by done. rewrite <- Hp. by apply (wf_curr s Hwf).
    + rewrite lookup_insert_ne in Hk' by done. pose proof (wf_curr s Hwf c' k' j Hk' Hj Hb) as Hown.
      destruct (Z.eqb_spec (logical_cpu_num k') p) as [E|]; [|done].
      destruct (Z.eqb_spec j i) as [->|]; [|done]. simpl. rewrite E, Hx in Hown. injection Hown as ->.
      destruct (wf_cpu s Hwf c' k' Hk') as [H0 _]. destruct Hxc; done.
  - intros c' k' Hk'. simpl in Hk'. destruct (decide (c' = c)) as [->|].
    + rewrite lookup_insert_eq in Hk'. injection Hk' as <-. done.
    + rewrite lookup_insert_ne in Hk' by done. by apply (wf_cpu s Hwf).
  - intros q h. apply slots_owned, (wf_slots s Hwf).
Qed.

Lemma yield_spec s p i o :
  sched_wf s -> owner s p i = Some o -> o <> 0 -> i < 64 ->
  exists s', os_yield_slot s o i = Ok s' /\ sched_wf s' /\ same s s' /\
    forall q j, owner s' q j = if (q =? p) && (j =? i) then Some 0 else owner s q j.
Proof.
  intros Hwf Ho Hne Hi. pose proof Ho as (Hp & Hi0 & _)%owner_inv.
  destruct (wf_owner s Hwf p i o Ho Hne) as (k & Hk & Hl & Hb).
  set (v := Z.land (curr_set (sched k)) (not64 (2 ^ i))).
  exists (owned s p i 0 o (set_curr_set k v)). split_and!.
  - unfold os_yield_slot. destruct (Z.eqb_spec o 0); [done|]. simpl negb. unfold cassert, get_cpu.
    rewrite Hk. cbn [of_option res_bind]. rewrite shl64_one by lia. fold v. simpl logical_cpu_num. rewrite Hl.
    rewrite (put_owner_ok _ _ _ _ o); [done|]. exact Ho.
  - destruct (wf_cpu s Hwf o k Hk) as [_ Hu]. apply (wf_owned s p i 0 o k v o); auto.
    + apply is_u64_land; [done|]. unfold not64. apply u64_range.
    + intros j Hj Hji. unfold v. rewrite Z.land_spec, testbit_not64, testbit_pow2 by lia.
      destruct (Z.eqb_spec i j); [lia|]. simpl.
      destruct (Z.ltb_spec j 64); [apply andb_true_r|]. by rewrite is_u64_testbit.
    + unfold v. rewrite Z.land_spec, testbit_not64, testbit_pow2, Z.eqb_refl by lia.
      rewrite !andb_false_r. symmetry. by apply Z.eqb_neq.
  - by apply same_owned.
  - intros q j. by apply (owner_owned _ _ _ _ _ _ _ _ o).
Qed.

Lemma acquire_spec s p i c k :
  sched_wf s -> owner s p i = Some 0 -> cpus s !! c = Some k -> logical_cpu_num k = p -> i < 64 ->
  exists s', os_acquire_slot s c i p = Ok s' /\ sched_wf s' /\ same s s' /\
    forall q j, owner s' q j = if (q =? p) && (j =? i) then Some c else owner s q j.
Proof.
  intros Hwf Ho Hk Hl Hi. pose proof Ho as (Hp & Hi0 & _)%owner_inv.
  set (v := Z.lor (curr_set (sched k)) (2 ^ i)).
  exists (owned s p i c c (set_curr_set k v)). split_and!.
  - unfold os_acquire_slot. destruct (get_hpc s p) as [h|] eqn:Eh.
    2:{ pose proof (put_owner_ok s p i c 0 Ho) as H. by rewrite Eh in H. }
    pose proof (put_owner_ok s p i c 0 Ho) as H. rewrite Eh in H. cbn [res_bind] in *.
    apply res_bind_ok in H as (h' & E' & H). rewrite E'. cbn [res_bind]. rewrite H. cbn [res_bind].
    unfold get_cpu. simpl cpus. rewrite Hk. cbn [of_option res_bind].
    rewrite shl64_one by lia. done.
  - destruct (wf_cpu s Hwf c k Hk) as [_ Hu]. apply (wf_owned s p i c c k v 0); auto.
    + apply is_u64_lor; [done|]. split; [lia|]. apply Z.pow_lt_mono_r; lia.
    + intros j Hj Hji. unfold v. rewrite Z.lor_spec, testbit_pow2 by lia.
      destruct (Z.eqb_spec i j); [lia|]. apply orb_false_r.
    + unfold v. rewrite Z.lor_spec, testbit_pow2, !Z.eqb_refl by lia. apply orb_true_r.
  - by apply same_owned.
  - intros q j. by apply (owner_owned _ _ _ _ _ _ _ _ 0).
Qed.

Section Owners.
Context (int_shl : Z -> Z) (shr_all : Z -> Z).

Definition hits (slots i : Z) : bool := truth (Z.land slots (slot_bit int_shl i)).

Lemma hits_low slots i : 0 <= i < 31 -> hits slots i = Z.testbit slots i.
Proof.
  intros Hi. unfold hits, slot_bit. destruct (Z.ltb_spec i 31); [|lia]. apply truth_land_pow2; lia.
Qed.

(** Who can be given slots of a processor: nobody, or one of its own. *)
Definition eligible (s : state) (p pcpu : Z) : Prop :=
  pcpu = 0 \/ exists k, cpus s !! pcpu = Some k /\ logical_cpu_num k = p.

Lemma eligible_same s s' p pcpu : same s s' -> eligible s p pcpu -> eligible s' p pcpu.
Proof.
  intros Hs [->|(k & Hk & Hl)]; [by left|right].
  destruct (same_cpus s s' Hs pcpu k Hk) as (k' & Hk' & E). exists k'. split; [done|].
  by rewrite E.
Qed.

Lemma slot_step_spec s p slots pcpu i x :
  sched_wf s -> owner s p i = Some x -> i < 64 -> eligible s p pcpu ->
  exists s', slot_step int_shl s p slots pcpu i = Ok s' /\ sched_wf s' /\ same s s' /\
    forall q j, owner s' q j =
      if (q =? p) && (j =? i) && hits slots i then Some pcpu else owner s q j.
Proof.
  intros Hwf Hx Hi Hel. pose proof Hx as (Hp & Hi0 & h & Hh & Ho)%owner_inv.
  unfold slot_step, get_hpc. rewrite (aget_ok _ _ h) by done. cbn [res_bind].
  rewrite (aget_ok _ _ x) by done. cbn [res_bind]. fold (hits slots i).
  destruct (hits slots i) eqn:Hhit; simpl andb; cbn match.
  2:{ exists s. split_and!; try done. intros q j. by rewrite andb_false_r. }
  destruct (Z.eqb_spec x pcpu) as [->|Hne]; simpl negb; cbn match.
  { exists s. split_and!; try done. intros q j. rewrite andb_true_r.
    destruct (Z.eqb_spec q p) as [->|], (Z.eqb_spec j i) as [->|]; done. }
  assert (exists s1, (if x =? 0 then Ok s else os_yield_slot s x i) = Ok s1 /\ sched_wf s1 /\ same s s1 /\
    forall q j, owner s1 q j = if (q =? p) && (j =? i) then Some 0 else owner s q j)
    as (s1 & E1 & Hwf1 & Hs1 & Ho1).
  { destruct (Z.eqb_spec x 0) as [->|]; [|by apply yield_spec].
    exists s. split_and!; try done. intros q j.
    destruct (Z.eqb_spec q p) as [->|], (Z.eqb_spec j i) as [->|]; done. }
  rewrite E1. cbn [res_bind]. destruct (Z.eqb_spec pcpu 0) as [->|Hp0].
  { exists s1. split_and!; try done. intros q j. by rewrite andb_true_r, Ho1. }
  destruct (eligible_same s s1 p pcpu Hs1 Hel) as [|(k & Hk & Hl)]; [done|].
  destruct (acquire_spec s1 p i pcpu k) as (s2 & E2 & Hwf2 & Hs2 & Ho2); try done.
  { by rewrite Ho1, !Z.eqb_refl. }
  exists s2. split_and!; try done; [by transitivity s1|].
  intros q j. rewrite Ho2, Ho1, andb_true_r. by destruct ((q =? p) && (j =? i)).
Qed.

Lemma slots_loop_spec n i s p slots pcpu :
  sched_wf s -> 0 <= i -> i + Z.of_nat n = 64 -> (forall j, i <= j < 64 -> is_Some (owner s p j)) ->
  eligible s p pcpu ->
  exists s', slots_loop int_shl n i s p slots pcpu = Ok s' /\ sched_wf s' /\ same s s' /\
    forall q j, owner s' q j =
      if (q =? p) && (i <=? j) && (j <? 64) && hits slots j then Some pcpu else owner s q j.
Proof.
  revert i s. induction n as [|n IH]; intros i s Hwf Hi Hn Hall Hel; simpl.
  { exists s. split_and!; try done. intros q j. destruct (q =? p); [|done]. simpl.
    destruct (Z.leb_spec i j), (Z.ltb_spec j 64); try done. lia. }
  destruct (Hall i) as [x Hx]; [lia|].
  destruct (slot_step_spec s p slots pcpu i x Hwf Hx) as (s1 & E1 & Hwf1 & Hs1 & Ho1); [lia|done|].
  rewrite E1. cbn [res_bind].
  destruct (IH (i + 1) s1) as (s2 & E2 & Hwf2 & Hs2 & Ho2); try done; try lia.
  - intros j Hj. rewrite Ho1. destruct (_ && hits slots i); [done|]. apply Hall. lia.
  - by eapply eligible_same.
  - exists s2. split_and!; try done; [by transitivity s1|].
    intros q j. rewrite Ho2, Ho1. destruct (Z.eqb_spec q p) as [->|]; simpl; [|done].
    destruct (Z.leb_spec (i + 1) j), (Z.leb_spec i j), (Z.ltb_spec j 64), (Z.eqb_spec j i) as [->|];
      simpl; try lia; try done.
Qed.

Lemma owner_some s p h j :
  sched_wf s -> hype_per_cpu s !! Z.to_nat p = Some h -> 0 <= p -> 0 <= j < 64 -> is_Some (owner s p j).
Proof.
  intros Hwf Hh Hp Hj. unfold owner. destruct (Z.leb_spec 0 p), (Z.leb_spec 0 j); try lia. simpl.
  rewrite Hh. simpl. apply lookup_lt_is_Some. rewrite (wf_slots s Hwf _ h Hh). lia.
Qed.

Lemma set_slot_owners_spec s p h slots pcpu :
  sched_wf s -> 0 <= p -> hype_per_cpu s !! Z.to_nat p = Some h -> eligible s p pcpu ->
  exists s', set_slot_owners int_shl s p slots pcpu = Ok s' /\ sched_wf s' /\ same s s' /\
    forall q j, 0 <= j < 64 ->
      owner s' q j = if (q =? p) && hits slots j then Some pcpu else owner s q j.
Proof.
  intros Hwf Hp Hh Hel.
  destruct (slots_loop_spec 64 0 s p slots pcpu) as (s' & E & Hwf' & Hs & Ho); try done.
  - intros j Hj. by eapply owner_some.
  - exists s'. split_and!; try done. intros q j Hj. rewrite Ho.
    destruct (Z.leb_spec 0 j), (Z.ltb_spec j 64); try lia. by destruct (q =? p).
Qed.
End Owners.

(** ** Setting parameters *)
Lemma get_cpu_ok s c k : cpus s !! c = Some k -> get_cpu s c = Ok k.
Proof. intros H. unfold get_cpu. by rewrite H. Qed.

Lemma get_hpc_ok s p h : 0 <= p -> hype_per_cpu s !! Z.to_nat p = Some h -> get_hpc s p = Ok h.
Proof. intros Hp H. by apply aget_ok. Qed.

(** Replacing a processor's masks or current slot changes no owner. *)
Lemma same_owners s p h h' :
  0 <= p -> hype_per_cpu s !! Z.to_nat p = Some h -> owners h' = owners h ->
  let s' := State (cpus s) (<[Z.to_nat p := h']> (hype_per_cpu s)) in
  (forall q j, owner s' q j = owner s q j) /\ (sched_wf s -> sched_wf s') /\
  hype_per_cpu s' !! Z.to_nat p = Some h'.
Proof.
  intros Hp Hh Hown s'. apply lookup_lt_Some in Hh as Hl.
  assert (forall q j, owner s' q j = owner s q j) as Ho.
  { intros q j. unfold owner, s'. simpl. destruct (Z.leb_spec 0 q), (Z.leb_spec 0 j); simpl; try done.
    destruct (decide (q = p)) as [->|].
    - rewrite list_lookup_insert_eq, Hh by done. simpl. by rewrite Hown.
    - rewrite list_lookup_insert_ne by lia. done. }
  split; [exact Ho|]. split; [|by apply list_lookup_insert_eq].
  intros [A B C D]. split; simpl.
  - intros q j c. rewrite Ho. apply A.
  - intros c k j. rewrite Ho. apply B.
  - apply C.
  - intros q h''. destruct (decide (q = Z.to_nat p)) as [->|].
    + rewrite list_lookup_insert_eq by done. intros [= <-]. rewrite Hown. by eapply D.
    + rewrite list_lookup_insert_ne by done. apply D.
Qed.

Lemma set_hpc_masks_spec s p h u l :
  0 <= p -> hype_per_cpu s !! Z.to_nat p = Some h ->
  exists s', set_hpc_masks s p u l = Ok s' /\ cpus s' = cpus s /\
    (forall q j, owner s' q j = owner s q j) /\ (sched_wf s -> sched_wf s') /\
    hype_per_cpu s' !! Z.to_nat p = Some (HypeScheduler u l (owners h) (curr_slot h)).
Proof.
  intros Hp Hh. unfold set_hpc_masks. rewrite (get_hpc_ok s p h) by done. cbn [res_bind].
  unfold put_hpc. apply lookup_lt_Some in Hh as Hl. rewrite aset_ok by lia. cbn [res_bind].
  eexists. split; [done|]. split; [done|]. by apply (same_owners s p h).
Qed.

Lemma put_masks_wf s c k req des :
  cpus s !! c = Some k -> sched_wf s -> sched_wf (put_cpu s c (set_masks k req des)).
Proof.
  intros Hk [A B C D]. split; simpl.
  - intros p i c' Ho Hc'. destruct (A p i c' Ho Hc') as (k' & Hk' & H1 & H2).
    destruct (decide (c' = c)) as [->|]; [|rewrite lookup_insert_ne by done; eauto].
    rewrite lookup_insert_eq. rewrite Hk in Hk'. injection Hk' as <-. eauto.
  - intros c' k' i. destruct (decide (c' = c)) as [->|].
    + rewrite lookup_insert_eq. intros [= <-]. simpl. by apply (B c k).
    + rewrite lookup_insert_ne by done. by apply B.
  - intros c' k'. destruct (decide (c' = c)) as [->|].
    + rewrite lookup_insert_eq. intros [= <-]. simpl. by apply (C c k).
    + rewrite lookup_insert_ne by done. by apply C.
  - done.
Qed.

(** The rotation [locked_set_sched_params] settles on: one that avoids the slots
    in use by others, or, if there is none, one that avoids their locked slots. *)
Definition chosen (h : hype_scheduler) (used required0 : Z) (j : nat) : Prop :=
  let free := Z.land (used_slots h) (not64 used) in
  let takeable := Z.land (locked_slots h) (not64 used) in
  (j < 64)%nat /\
  (Z.land (rotate j required0) free = 0 /\
   (forall l, (l < j)%nat -> Z.land (rotate l required0) free <> 0) \/
   Z.land (rotate j required0) takeable = 0 /\
   (forall l, (l < j)%nat -> Z.land (rotate l required0) takeable <> 0) /\
   (forall l, (l < 64)%nat -> Z.land (rotate l required0) free <> 0)).

Lemma choose_spec h used required0 :
  is_u64 (used_slots h) -> is_u64 (locked_slots h) -> is_u64 required0 ->
  let '(rotation, req) := match_slot (Z.land (used_slots h) (not64 used)) required0 in
  let '(rotation, req) :=
    if NUM_SCHED_SLOTS <=? rotation
    then match_slot (Z.land (locked_slots h) (not64 used)) req else (rotation, req) in
  (exists j, rotation = Z.of_nat j /\ req = rotate j required0 /\ chosen h used required0 j) \/
  64 <= rotation /\
  forall l, (l < 64)%nat -> Z.land (rotate l required0) (Z.land (locked_slots h) (not64 used)) <> 0.
Proof.
  intros Hu Hl Hr. unfold NUM_SCHED_SLOTS.
  assert (0 <= not64 used) as Hn by (unfold not64; apply u64_range).
  pose proof (match_slot_spec (Z.land (used_slots h) (not64 used)) required0) as H1.
  destruct (match_slot (Z.land (used_slots h) (not64 used)) required0) as [r1 m1]. simpl in H1.
  destruct H1 as [(j & -> & Hj & -> & Hz & Hmin)|(Hge & -> & Hno)]; auto using is_u64_land.
  - destruct (Z.leb_spec 64 (Z.of_nat j)); [lia|]. left. exists j. unfold chosen. auto 10.
  - destruct (Z.leb_spec 64 r1); [|lia].
    pose proof (match_slot_spec (Z.land (locked_slots h) (not64 used)) required0) as H2.
    destruct (match_slot (Z.land (locked_slots h) (not64 used)) required0) as [r2 m2]. simpl in H2.
    destruct H2 as [(j & -> & Hj & -> & Hz & Hmin)|(Hge2 & -> & Hno2)]; auto using is_u64_land.
    left. exists j. unfold chosen. auto 10.
Qed.

(** What setting parameters on physical processor [p] leaves alone: where virtual
    processors belong and whether they are runnable, and the masks of the other physical
    processors. *)
Record kept (p : Z) (s s' : state) : Prop := {
  kept_cpus c k : cpus s !! c = Some k -> exists k', cpus s' !! c = Some k' /\
    logical_cpu_num k' = logical_cpu_num k /\ runnable (sched k') = runnable (sched k);
  kept_hpcs q h : q <> Z.to_nat p -> hype_per_cpu s !! q = Some h -> exists h', hype_per_cpu s' !! q = Some h' /\
    used_slots h' = used_slots h /\ locked_slots h' = locked_slots h
}.

#[global] Instance kept_refl p : Reflexive (kept p).
Proof. intros s. split; [intros c k Hk; by exists k|intros q h _ Hh; by exists h]. Qed.

#[global] Instance kept_trans p : Transitive (kept p).
Proof.
  intros s1 s2 s3 [A1 B1] [A2 B2]. split.
  - intros c k Hk. destruct (A1 c k Hk) as (k2 & Hk2 & E1 & E2). destruct (A2 c k2 Hk2) as (k3 & Hk3 & E3 & E4).
    exists k3. split_and!; congruence.
  - intros q h Hq Hh. destruct (B1 q h Hq Hh) as (h2 & Hh2 & E1 & E2). destruct (B2 q h2 Hq Hh2) as (h3 & Hh3 & E3 & E4).
    exists h3. split_and!; congruence.
Qed.

Lemma same_kept p s s' : same s s' -> kept p s s'.
Proof.
  intros [A _ C]. split.
  - intros c k Hk. destruct (A c k Hk) as (k' & Hk' & E). exists k'. split; [done|]. by rewrite E.
  - intros q h _ Hh. destruct (C q h Hh) as (h' & Hh' & E). exists h'. split; [done|]. by rewrite E.
Qed.

Lemma put_masks_kept p s c k req des : cpus s !! c = Some k -> kept p s (put_cpu s c (set_masks k req des)).
Proof.
  intros Hk. split; simpl; [|intros q h _ Hh; by exists h]. intros c' k' Hk'. rewrite lookup_insert.
  case_decide as E; [|by exists k']. subst c'. assert (k' = k) as -> by congruence. by eexists.
Qed.

Lemma set_hpc_masks_kept s p u l s' : set_hpc_masks s p u l = Ok s' -> kept p s s'.
Proof.
  unfold set_hpc_masks, put_hpc. intros H. apply res_bind_ok in H as (h & _ & H). apply res_bind_ok in H as (m & Hm & [= <-]).
  apply aset_inv in Hm as [_ ->]. split; simpl; [intros c k Hk; by exists k|].
  intros q h' Hq Hh. exists h'. by rewrite list_lookup_insert_ne.
Qed.

Section Params.
Context (int_shl : Z -> Z) (shr_all : Z -> Z).
Local Abbreviation hit := (hits int_shl).

(** What a successful call has done. *)
Definition granted (s s' : state) (pcpu p : Z) (k : cpu) (h : hype_scheduler) (required0 desired0 : Z)
  (j : nat) : Prop :=
  exists k' h', cpus s' !! pcpu = Some k' /\ hype_per_cpu s' !! Z.to_nat p = Some h' /\
    let used := curr_set (sched k) in
    let req := rotate j required0 in
    let des := Z.land (rotate_desired shr_all desired0 (Z.of_nat j)) (not64 (locked_slots h')) in
    required (sched k') = req /\
    locked_slots h' = Z.lor (Z.land (locked_slots h) (not64 (Z.land used (required (sched k))))) req /\
    used_slots h' = Z.lor (Z.land (used_slots h) (not64 used)) (Z.lor des req) /\
    forall q i, 0 <= i < 64 ->
      owner s' q i =
        if (q =? p) && (hit req i || hit des i) then Some pcpu
        else if (q =? p) && hit used i then Some 0 else owner s q i.

Lemma locked_set_sched_params_spec s pcpu p k h required0 desired0 :
  sched_wf s -> 0 <= p -> cpus s !! pcpu = Some k -> logical_cpu_num k = p ->
  hype_per_cpu s !! Z.to_nat p = Some h ->
  is_u64 (used_slots h) -> is_u64 (locked_slots h) -> is_u64 required0 ->
  exists r s', locked_set_sched_params int_shl shr_all s pcpu p required0 desired0 = Ok (r, s') /\
    (sched_wf s' /\ kept p s s') /\
    ((r = H_Success /\ exists j, chosen h (curr_set (sched k)) required0 j /\
        granted s s' pcpu p k h required0 desired0 j) \/
     (r = NUM_SCHED_SLOTS /\ s' = s /\ forall l, (l < 64)%nat ->
        Z.land (rotate l required0) (Z.land (locked_slots h) (not64 (curr_set (sched k)))) <> 0)).
Proof.
  intros Hwf Hp Hk Hl Hh Hu Hlk Hreq. unfold locked_set_sched_params.
  rewrite (get_cpu_ok s pcpu k), (get_hpc_ok s p h) by done. cbn [res_bind].
  pose proof (choose_spec h (curr_set (sched k)) required0 Hu Hlk Hreq) as Hch.
  destruct (match_slot _ required0) as [r1 m1].
  destruct (if NUM_SCHED_SLOTS <=? r1 then _ else _) as [rotation req].
  destruct Hch as [(j & -> & -> & Hj)|[Hge Hno]].
  2:{ unfold NUM_SCHED_SLOTS. destruct (Z.leb_spec 64 rotation); [|lia].
      exists 64, s. split; [done|]. split; [done|]. by right. }
  pose proof (proj1 Hj) as Hj64. unfold NUM_SCHED_SLOTS at 1.
  destruct (Z.leb_spec 64 (Z.of_nat j)); [lia|].
  set (used := curr_set (sched k)) in *. set (req := rotate j required0).
  destruct (set_slot_owners_spec int_shl s p h used 0) as (s1 & E1 & Hwf1 & Hs1 & Ho1); try done; [by left|].
  rewrite E1. cbn [res_bind].
  destruct (same_hpcs s s1 Hs1 _ h Hh) as (h1 & Hh1 & Eh1).
  destruct (same_cpus s s1 Hs1 _ k Hk) as (k1 & Hk1 & Ek1).
  destruct (set_slot_owners_spec int_shl s1 p h1 req pcpu) as (s2 & E2 & Hwf2 & Hs2 & Ho2); try done.
  { right. exists k1. split; [done|]. by rewrite Ek1. }
  rewrite E2. cbn [res_bind].
  destruct (same_hpcs s1 s2 Hs2 _ h1 Hh1) as (h2 & Hh2 & Eh2).
  destruct (same_cpus s1 s2 Hs2 _ k1 Hk1) as (k2 & Hk2 & Ek2).
  rewrite (get_cpu_ok s2 pcpu k2), (get_hpc_ok s2 p h2) by done. cbn [res_bind].
  assert (locked_slots h2 = locked_slots h /\ used_slots h2 = used_slots h) as [-> ->].
  { rewrite Eh2, Eh1. done. }
  assert (required (sched k2) = required (sched k) /\ logical_cpu_num k2 = p) as [-> Hl2].
  { rewrite Ek2, Ek1. done. }
  set (des0 := rotate_desired shr_all desired0 (Z.of_nat j)).
  set (s3 := put_cpu s2 pcpu (set_masks k2 req des0)).
  set (lk := Z.lor (Z.land (locked_slots h) (not64 (Z.land used (required (sched k))))) req).
  set (us := Z.land (used_slots h) (not64 used)).
  destruct (set_hpc_masks_spec s3 p h2 us lk) as (s4 & E4 & Hc4 & Ho4 & Hwf4 & Hh4); try done.
  rewrite E4. cbn [res_bind].
  assert (sched_wf s4) as Hwf4' by (apply Hwf4; by apply put_masks_wf).
  set (des := Z.land des0 (not64 lk)).
  assert (cpus s4 !! pcpu = Some (set_masks k2 req des0)) as Hk4 by (rewrite Hc4; apply lookup_insert_eq).
  destruct (set_slot_owners_spec int_shl s4 p _ des pcpu Hwf4' Hp Hh4) as (s5 & E5 & Hwf5 & Hs5 & Ho5).
  { right. exists (set_masks k2 req des0). done. }
  rewrite E5. cbn [res_bind].
  destruct (same_hpcs s4 s5 Hs5 _ _ Hh4) as (h5 & Hh5 & Eh5).
  destruct (same_cpus s4 s5 Hs5 _ _ Hk4) as (k5 & Hk5 & Ek5).
  rewrite (get_hpc_ok s5 p h5) by done. cbn [res_bind].
  destruct (set_hpc_masks_spec s5 p h5 (Z.lor (used_slots h5) (Z.lor des req)) (locked_slots h5))
    as (s6 & E6 & Hc6 & Ho6 & Hwf6 & Hh6); try done.
  rewrite E6. cbn [res_bind]. exists H_Success, s6. split; [done|]. split.
  { split; [auto|]. transitivity s2; [by transitivity s1; apply same_kept|].
    transitivity s4; [transitivity s3; [by apply put_masks_kept|by eapply set_hpc_masks_kept]|].
    transitivity s5; [by apply same_kept|by eapply set_hpc_masks_kept]. }
  left. split; [done|].
  exists j. split; [done|].
  assert (locked_slots h5 = lk /\ used_slots h5 = us) as [Elk Eus] by (rewrite Eh5; done).
  rewrite Elk, Eus in Hh6.
  eexists k5, _. split; [by rewrite Hc6|]. split; [exact Hh6|]. cbv zeta.
  cbn [used_slots locked_slots].
  split; [by rewrite Ek5|]. split; [done|]. split; [done|].
  intros q i Hi. rewrite Ho6, Ho5, Ho4 by done. change (owner s3 q i) with (owner s2 q i).
  rewrite Ho2, Ho1 by done. fold req used des0 lk des.
  destruct (q =? p); simpl; [|done]. destruct (hit req i), (hit des i), (hit used i); done.
Qed.
End Params.

(** ** Choosing the next processor *)
Definition slot_runs (s : state) (p i : Z) : bool :=
  match owner s p i with
  | Some c => negb (c =? 0) && match cpus s !! c with
                               | Some k => truth (runnable (sched k))
                               | None => false
                               end
  | None => false
  end.

Section Next.
Context (os_lookup : Z -> option (list Z)).

(** The scan from [slot]: the first slot after it, cyclically, that can run. *)
Lemma next_loop_spec n s p h slot next :
  sched_wf s -> 0 <= p -> hype_per_cpu s !! Z.to_nat p = Some h -> 0 <= slot < 64 ->
  exists slot' next', next_loop n s (owners h) slot next = Ok (slot', next') /\
    ((exists d, 1 <= d <= Z.of_nat n /\ slot' = (slot + d) mod 64 /\
       owner s p slot' = Some next' /\ slot_runs s p slot' = true /\
       forall e, 1 <= e < d -> slot_runs s p ((slot + e) mod 64) = false) \/
     ((forall e, 1 <= e <= Z.of_nat n -> slot_runs s p ((slot + e) mod 64) = false) /\
      ((n = 0%nat /\ next' = next) \/ next' = 0 \/ 
       exists k, cpus s !! next' = Some k /\ truth (runnable (sched k)) = false))).
Proof.
  intros Hwf Hp Hh. revert slot next. induction n as [|n IH]; intros slot next Hslot; simpl.
  { exists slot, next. split; [done|]. right. split; [intros; lia|auto]. }
  unfold NUM_SCHED_SLOTS. set (sl := (slot + 1) mod 64).
  assert (0 <= sl < 64) as Hsl by (apply Z.mod_pos_bound; lia).
  destruct (owner_some s p h sl Hwf Hh Hp Hsl) as [c Hc].
  pose proof Hc as (_ & _ & h' & Hh' & Ho)%owner_inv. rewrite Hh in Hh'. injection Hh' as <-.
  rewrite (aget_ok _ _ c) by (done || lia). cbn [res_bind].
  assert (forall nx, slot_runs s p sl = false ->
    (nx = 0 \/ exists k, cpus s !! nx = Some k /\ truth (runnable (sched k)) = false) ->
    exists slot' next', next_loop n s (owners h) sl nx = Ok (slot', next') /\
    ((exists d, 1 <= d <= Z.of_nat (S n) /\ slot' = (slot + d) mod 64 /\
       owner s p slot' = Some next' /\ slot_runs s p slot' = true /\
       forall e, 1 <= e < d -> slot_runs s p ((slot + e) mod 64) = false) \/
     ((forall e, 1 <= e <= Z.of_nat (S n) -> slot_runs s p ((slot + e) mod 64) = false) /\
      ((S n = 0%nat /\ next' = next) \/ next' = 0 \/
       exists k, cpus s !! next' = Some k /\ truth (runnable (sched k)) = false)))) as Hrec.
  { intros nx Hno Hnx. destruct (IH sl nx Hsl) as (slot' & next' & E & Hcase).
    assert (forall e, (sl + e) mod 64 = (slot + (e + 1)) mod 64) as Hadd.
    { intros e. unfold sl. rewrite Zplus_mod_idemp_l. f_equal. lia. }
    exists slot', next'. split; [done|]. destruct Hcase as [(d & Hd & -> & H1 & H2 & H3)|[H1 H2]].
    - left. exists (d + 1). rewrite Hadd in *. split_and!; try done; try lia.
      intros e He. destruct (Z.eqb_spec e 1) as [->|]; [done|].
      replace e with ((e - 1) + 1) by lia. rewrite <- Hadd. apply H3. lia.
    - right. split.
      + intros e He. destruct (Z.eqb_spec e 1) as [->|]; [done|].
        replace e with ((e - 1) + 1) by lia. rewrite <- Hadd. apply H1. lia.
      + right. destruct H2 as [[-> ->]|H2]; done. }
  assert (slot_runs s p sl = negb (c =? 0) &&
    match cpus s !! c with Some k => truth (runnable (sched k)) | None => false end) as Hruns.
  { unfold slot_runs. by rewrite Hc. }
  destruct (Z.eqb_spec c 0) as [->|Hc0]; [apply Hrec; auto|].
  destruct (wf_owner s Hwf p sl c Hc Hc0) as (k & Hk & _ & _). rewrite Hk in Hruns.
  rewrite (get_cpu_ok s c k) by done. cbn [res_bind].
  destruct (truth (runnable (sched k))) eqn:Er; [|apply Hrec; eauto].
  exists sl, c. split; [done|]. left. exists 1. split_and!; try done; try lia.
Qed.

(** A processor that has not asked for a directed yield. *)
Definition undirected (k : cpu) : Prop := next_lpid (sched k) = 0 \/ next_lpid (sched k) = cpu_lpid k.

Lemma sched_next_os_spec s cur k h :
  sched_wf s -> cpus s !! cur = Some k -> 0 <= logical_cpu_num k ->
  hype_per_cpu s !! Z.to_nat (logical_cpu_num k) = Some h -> 0 <= curr_slot h < 64 -> undirected k ->
  let p := logical_cpu_num k in
  (exists d c, 1 <= d <= 64 /\
     sched_next_os os_lookup s cur =
       Ok (c, State (cpus s) (<[Z.to_nat p := HypeScheduler (used_slots h) (locked_slots h) (owners h)
                                                ((curr_slot h + d) mod 64)]> (hype_per_cpu s))) /\
     owner s p ((curr_slot h + d) mod 64) = Some c /\ slot_runs s p ((curr_slot h + d) mod 64) = true /\
     forall e, 1 <= e < d -> slot_runs s p ((curr_slot h + e) mod 64) = false) \/
  (sched_next_os os_lookup s cur = Ok (cur, s) /\ forall i, 0 <= i < 64 -> slot_runs s p i = false).
Proof.
  intros Hwf Hk Hl Hh Hslot Hun p. unfold sched_next_os.
  destruct (wf_cpu s Hwf cur k Hk) as [Hcur _]. destruct (Z.eqb_spec cur 0); [done|]. simpl negb.
  unfold cassert. rewrite (get_cpu_ok s cur k) by done. cbn [res_bind]. fold p.
  rewrite (get_hpc_ok s p h) by done. cbn [res_bind].
  rewrite Z.add_0_r. unfold NUM_SCHED_SLOTS at 1. rewrite (Z.mod_small (curr_slot h)) by done.
  assert (negb (next_lpid (sched k) =? cpu_lpid k) && negb (next_lpid (sched k) =? 0) = false) as ->.
  { destruct Hun as [->| ->]; rewrite Z.eqb_refl; simpl; by rewrite ?andb_false_r. }
  destruct (next_loop_spec 64 s p h (curr_slot h) 0 Hwf Hl Hh Hslot) as (slot' & next' & E & Hcase).
  change (Z.to_nat NUM_SCHED_SLOTS) with 64%nat. rewrite E. cbn [res_bind].
  destruct Hcase as [(d & Hd & -> & H1 & H2 & H3)|[H1 H2]].
  - left. exists d, next'. split; [lia|].
    assert (exists kn, next' <> 0 /\ cpus s !! next' = Some kn /\ truth (runnable (sched kn)) = true)
      as (kn & Hn0 & Hkn & Hrn).
    { unfold slot_runs in H2. rewrite H1 in H2. apply andb_prop in H2 as [H2 H2'].
      destruct (cpus s !! next') as [kn|] eqn:Ekn; [|done]. exists kn. split_and!; try done.
      by apply negb_true_iff, Z.eqb_neq in H2. }
    destruct (Z.eqb_spec next' 0); [done|]. rewrite (get_cpu_ok s next' kn) by done. cbn [res_bind].
    rewrite Hrn. simpl negb. cbn match. unfold put_hpc. apply lookup_lt_Some in Hh as Hlt.
    rewrite aset_ok by lia. cbn [res_bind]. done.
  - right. split.
    + destruct H2 as [[? _]|[->|(kn & Hkn & Hrn)]]; [done|done|].
      destruct (wf_cpu s Hwf next' kn Hkn) as [Hn0 _].
      destruct (Z.eqb_spec next' 0); [done|]. rewrite (get_cpu_ok s next' kn) by done. cbn [res_bind].
      by rewrite Hrn.
    + intros i Hi. destruct (decide (i = curr_slot h)) as [->|].
      * rewrite <- (H1 64) by lia. f_equal. dlia.
      * rewrite <- (H1 ((i - curr_slot h) mod 64)) by dlia. f_equal. dlia.
Qed.
End Next.

(** Successive decisions, each made by the processor that was chosen last. *)
Fixpoint sched_iter (os_lookup : Z -> option (list Z)) (m : nat) (s : state) (cur : Z) : res (Z * state) :=
  match m with
  | O => Ok (cur, s)
  | S m => let! (next, s) := sched_next_os os_lookup s cur in sched_iter os_lookup m s next
  end.

(** How many slots ahead of [slot] the slot [t] is. *)
Definition ahead (slot t : Z) : Z := (t - slot - 1) mod 64 + 1.

Lemma fairness_steps os_lookup n : forall s p h cur k t c,
  sched_wf s -> cpus s !! cur = Some k -> logical_cpu_num k = p -> 0 <= p ->
  hype_per_cpu s !! Z.to_nat p = Some h -> 0 <= curr_slot h < 64 ->
  (forall c k, cpus s !! c = Some k -> logical_cpu_num k = p -> undirected k) ->
  0 <= t < 64 -> owner s p t = Some c -> slot_runs s p t = true ->
  ahead (curr_slot h) t <= Z.of_nat n ->
  exists m s', (m <= n)%nat /\ sched_iter os_lookup m s cur = Ok (c, s') /\
    exists h', hype_per_cpu s' !! Z.to_nat p = Some h' /\ curr_slot h' = t.
Proof.
  induction n as [|n IH]; intros s p h cur k t c Hwf Hk Hl Hp Hh Hslot Hun Ht Hc Hr Hd.
  { unfold ahead in Hd. pose proof (Z.mod_pos_bound (t - curr_slot h - 1) 64). lia. }
  assert (undirected k) as Huk by eauto.
  assert (0 <= logical_cpu_num k) as Hl0 by lia. rewrite <- Hl in Hh.
  destruct (sched_next_os_spec os_lookup s cur k h Hwf Hk Hl0 Hh Hslot Huk)
    as [(d & c1 & Hd1 & E & Ho & Hr1 & Hmin)|[_ Hnone]].
  2:{ rewrite Hl in Hnone. by rewrite Hnone in Hr. }
  rewrite Hl in *. set (slot1 := (curr_slot h + d) mod 64) in *.
  set (h1 := HypeScheduler (used_slots h) (locked_slots h) (owners h) slot1) in *.
  destruct (same_owners s p h h1 Hp Hh eq_refl) as (Ho1 & Hwf1 & Hh1). specialize (Hwf1 Hwf).
  set (s1 := State (cpus s) (<[Z.to_nat p := h1]> (hype_per_cpu s))) in *.
  assert (0 <= slot1 < 64) as Hslot1 by (apply Z.mod_pos_bound; lia).
  destruct (Z.eqb_spec slot1 t) as [Et|Et].
  { exists 1%nat, s1. split; [lia|]. simpl. rewrite E. cbn [res_bind].
    rewrite Et, Hc in Ho. injection Ho as <-. split; [done|]. by exists h1. }
  assert (d < ahead (curr_slot h) t) as Hlt.
  { destruct (Z.ltb_spec d (ahead (curr_slot h) t)) as [|Hge]; [done|].
    destruct (Z.eqb_spec d (ahead (curr_slot h) t)) as [Ed|Ed].
    - exfalso. apply Et. unfold slot1. rewrite Ed. unfold ahead. dlia.
    - assert (slot_runs s p ((curr_slot h + ahead (curr_slot h) t) mod 64) = false) as Hf.
      { apply Hmin. unfold ahead in *. pose proof (Z.mod_pos_bound (t - curr_slot h - 1) 64). lia. }
      replace ((curr_slot h + ahead (curr_slot h) t) mod 64) with t in Hf by (unfold ahead; dlia).
      congruence. }
  assert (exists k1, cpus s !! c1 = Some k1 /\ logical_cpu_num k1 = p) as (k1 & Hk1 & Hl1).
  { assert (c1 <> 0) as Hc0.
    { intros ->. unfold slot_runs in Hr1. rewrite Ho in Hr1. done. }
    destruct (wf_owner s Hwf p slot1 c1 Ho Hc0) as (k1 & ? & ? & _). eauto. }
  destruct (IH s1 p h1 c1 k1 t c) as (m & s' & Hm & Em & Hh'); try done.
  - by rewrite Ho1.
  - unfold slot_runs. rewrite Ho1. exact Hr.
  - simpl. unfold ahead, slot1 in *. dlia.
  - exists (S m), s'. split; [lia|]. simpl. rewrite E. cbn [res_bind]. by split.
Qed.

(** ** Properties *)

(** [match_slot] gives the least left rotation that makes the mask disjoint
    from the fixed slots, with the rotated mask; or says that none of the 64
    rotations fits and leaves the mask alone. *)
Theorem match_slot_least fixed orig :
  is_u64 fixed -> is_u64 orig ->
  let r := (match_slot fixed orig).1 in
  let m := (match_slot fixed orig).2 in
  (exists j, r = Z.of_nat j /\ (j < 64)%nat /\ m = rotate j orig /\ Z.land m fixed = 0 /\
     forall l, (l < j)%nat -> Z.land (rotate l orig) fixed <> 0) \/
  (64 <= r /\ m = orig /\ forall l, (l < 64)%nat -> Z.land (rotate l orig) fixed <> 0).
Proof. apply match_slot_spec. Qed.

Lemma match_slot_least_witness :
  let r := (match_slot 7 (2 ^ 63 + 1)).1 in
  let m := (match_slot 7 (2 ^ 63 + 1)).2 in
  (exists j, r = Z.of_nat j /\ (j < 64)%nat /\ m = rotate j (2 ^ 63 + 1) /\ Z.land m 7 = 0 /\
     forall l, (l < j)%nat -> Z.land (rotate l (2 ^ 63 + 1)) 7 <> 0) \/
  (64 <= r /\ m = 2 ^ 63 + 1 /\ forall l, (l < 64)%nat -> Z.land (rotate l (2 ^ 63 + 1)) 7 <> 0).
Proof. apply match_slot_least; unfold is_u64; lia. Defined.

(** Setting scheduling parameters never fails half way: it keeps owners and
    owned sets in agreement, and either changes nothing because every rotation
    of the request meets a slot locked by another processor, or grants the
    least rotation that fits, with the masks and owners that follow. *)
Theorem sched_params_effect int_shl shr_all s pcpu p k h required0 desired0 :
  sched_wf s -> 0 <= p -> cpus s !! pcpu = Some k -> logical_cpu_num k = p ->
  hype_per_cpu s !! Z.to_nat p = Some h ->
  is_u64 (used_slots h) -> is_u64 (locked_slots h) -> is_u64 required0 ->
  exists r s', locked_set_sched_params int_shl shr_all s pcpu p required0 desired0 = Ok (r, s') /\
    sched_wf s' /\
    ((r = H_Success /\ exists j, chosen h (curr_set (sched k)) required0 j /\
        granted int_shl shr_all s s' pcpu p k h required0 desired0 j) \/
     (r = NUM_SCHED_SLOTS /\ s' = s /\ forall l, (l < 64)%nat ->
        Z.land (rotate l required0) (Z.land (locked_slots h) (not64 (curr_set (sched k)))) <> 0)).
Proof.
  intros Hwf Hp Hk Hl Hh Hu Hlk Hreq.
  destruct (locked_set_sched_params_spec int_shl shr_all s pcpu p k h required0 desired0)
    as (r & s' & E & [Hwf' _] & Hcase); try done. by exists r, s'.
Qed.

(** A slot below 31 that another processor has locked keeps its owner,
    whatever this processor asks for; so do all slots of other processors. *)
Theorem locked_slots_kept int_shl shr_all s pcpu p k h required0 desired0 i :
  sched_wf s -> 0 <= p -> cpus s !! pcpu = Some k -> logical_cpu_num k = p ->
  hype_per_cpu s !! Z.to_nat p = Some h ->
  is_u64 (used_slots h) -> is_u64 (locked_slots h) -> is_u64 required0 ->
  0 <= i < 31 -> Z.testbit (locked_slots h) i = true -> Z.testbit (used_slots h) i = true ->
  Z.testbit (curr_set (sched k)) i = false ->
  exists r s', locked_set_sched_params int_shl shr_all s pcpu p required0 desired0 = Ok (r, s') /\
    owner s' p i = owner s p i /\
    forall q j, q <> p -> 0 <= j < 64 -> owner s' q j = owner s q j.
Proof.
  intros Hwf Hp Hk Hl Hh Hu Hlk Hreq Hi Hli Hui Hci.
  destruct (locked_set_sched_params_spec int_shl shr_all s pcpu p k h required0 desired0)
    as (r & s' & E & _ & Hcase); try done.
  exists r, s'. split; [done|]. destruct Hcase as [(_ & j & Hch & Hg)|(_ & -> & _)]; [|done].
  destruct Hg as (k' & h' & _ & _ & _ & Elk & _ & Ho). split.
  2:{ intros q x Hq Hx. rewrite Ho by done. destruct (Z.eqb_spec q p); done. }
  rewrite Ho, Z.eqb_refl, !hits_low by lia. cbn [andb].
  assert (Z.testbit (rotate j required0) i = false) as Hri.
  { destruct Hch as (_ & [[Hz _]|[Hz _]]);
      rewrite land_zero_iff in Hz by (apply rotate_u64; done);
      destruct (Z.testbit (rotate j required0) i) eqn:Eb; try done;
      apply Hz in Eb; [|lia| |lia]; rewrite Z.land_spec, testbit_not64, Hci in Eb by lia;
      rewrite ?Hui, ?Hli in Eb; destruct (Z.ltb_spec i 64); done || lia. }
  rewrite Hri, Hci, Z.land_spec, testbit_not64, Elk, Z.lor_spec, Z.land_spec, testbit_not64,
    Z.land_spec, Hci, Hli by lia.
  destruct (Z.ltb_spec i 64); [|lia]. simpl. by rewrite andb_false_r.
Qed.

(** Round robin: without a directed yield, the processor that runs next is
    the owner of the first runnable slot after the current one, cyclically; if
    no slot has a runnable owner the current processor goes on. *)
Theorem sched_next_os_round_robin os_lookup s cur k h :
  sched_wf s -> cpus s !! cur = Some k -> 0 <= logical_cpu_num k ->
  hype_per_cpu s !! Z.to_nat (logical_cpu_num k) = Some h -> 0 <= curr_slot h < 64 -> undirected k ->
  let p := logical_cpu_num k in
  (exists d c, 1 <= d <= 64 /\
     sched_next_os os_lookup s cur =
       Ok (c, State (cpus s) (<[Z.to_nat p := HypeScheduler (used_slots h) (locked_slots h) (owners h)
                                                ((curr_slot h + d) mod 64)]> (hype_per_cpu s))) /\
     owner s p ((curr_slot h + d) mod 64) = Some c /\ slot_runs s p ((curr_slot h + d) mod 64) = true /\
     forall e, 1 <= e < d -> slot_runs s p ((curr_slot h + e) mod 64) = false) \/
  (sched_next_os os_lookup s cur = Ok (cur, s) /\ forall i, 0 <= i < 64 -> slot_runs s p i = false).
Proof. apply sched_next_os_spec. Qed.

(** C17: no runnable slot starves: while no processor asks for a directed yield and no
    call changes slots or makes processors ready or idle, the owner of every runnable slot
    is chosen, for that slot, within 64 decisions.  Directed yields are excepted because they
    leave the current slot where it is: [directed_yield_starves]. *)
Theorem sched_no_starvation os_lookup s p h cur k t c :
  sched_wf s -> cpus s !! cur = Some k -> logical_cpu_num k = p -> 0 <= p ->
  hype_per_cpu s !! Z.to_nat p = Some h -> 0 <= curr_slot h < 64 ->
  (forall c k, cpus s !! c = Some k -> logical_cpu_num k = p -> undirected k) ->
  0 <= t < 64 -> owner s p t = Some c -> slot_runs s p t = true ->
  exists m s', (m <= 64)%nat /\ sched_iter os_lookup m s cur = Ok (c, s') /\
    exists h', hype_per_cpu s' !! Z.to_nat p = Some h' /\ curr_slot h' = t.
Proof.
  intros Hwf Hk Hl Hp Hh Hslot Hun Ht Hc Hr.
  apply (fairness_steps os_lookup 64 s p h cur k t c); try done.
  unfold ahead. pose proof (Z.mod_pos_bound (t - curr_slot h - 1) 64). lia.
Qed.

(** ** Witnesses: processor 1 owns slot 0, locked, and processor 2 owns slot 2 *)
Definition demo_cpu (set req lpid : Z) : cpu := Cpu 0 (SchedPoll set req 0 0 1) lpid.
Definition demo_hpc : hype_scheduler := HypeScheduler 5 1 (1 :: 0 :: 2 :: repeat 0 61) 0.
Definition demo : state :=
  State (<[1 := demo_cpu 1 1 11]> (<[2 := demo_cpu 4 0 12]> ∅)) [demo_hpc].
Definition no_os (_ : Z) : option (list Z) := None.
Definition zero_shift (_ : Z) : Z := 0.

Lemma demo_cpus c k :
  cpus demo !! c = Some k -> c = 1 /\ k = demo_cpu 1 1 11 \/ c = 2 /\ k = demo_cpu 4 0 12.
Proof.
  simpl. destruct (decide (c = 1)) as [->|H1]; [rewrite lookup_insert_eq; intros [= <-]; auto|].
  rewrite lookup_insert_ne by done. intros [[<- <-]|[_ H]]%lookup_insert_Some; [auto|].
  by rewrite lookup_empty in H.
Qed.

Lemma demo_wf : sched_wf demo.
Proof.
  split.
  - intros p i c (Hp & Hi & h & Hh & Ho)%owner_inv Hc.
    destruct (Z.to_nat p) as [|n] eqn:Ep; [|by rewrite lookup_nil in Hh || (destruct n; done)].
    injection Hh as <-. destruct (Z.to_nat i) as [|[|[|n]]] eqn:Ei; simpl in Ho.
    + injection Ho as <-. exists (demo_cpu 1 1 11). split; [done|]. split; [simpl; lia|].
      by replace i with 0 by lia.
    + by injection Ho as <-.
    + injection Ho as <-. exists (demo_cpu 4 0 12). split; [done|]. split; [simpl; lia|].
      by replace i with 2 by lia.
    + apply list_elem_of_lookup_2, list_elem_of_In, (repeat_spec 61) in Ho as ->. done.
  - intros c k i [[-> ->]|[-> ->]]%demo_cpus Hi Hb.
    + change (Z.testbit (2 ^ 0) i = true) in Hb. rewrite testbit_pow2 in Hb by lia.
      apply Z.eqb_eq in Hb as <-. done.
    + change (Z.testbit (2 ^ 2) i = true) in Hb. rewrite testbit_pow2 in Hb by lia.
      apply Z.eqb_eq in Hb as <-. done.
  - intros c k [[-> ->]|[-> ->]]%demo_cpus; simpl; unfold is_u64; lia.
  - intros p h. destruct p as [|p]; simpl; [|by destruct p]. intros [= <-]. done.
Qed.

Lemma sched_params_effect_witness :
  exists r s', locked_set_sched_params zero_shift zero_shift demo 2 0 1 3 = Ok (r, s') /\
    sched_wf s' /\
    ((r = H_Success /\ exists j, chosen demo_hpc 4 1 j /\
        granted zero_shift zero_shift demo s' 2 0 (demo_cpu 4 0 12) demo_hpc 1 3 j) \/
     (r = NUM_SCHED_SLOTS /\ s' = demo /\ forall l, (l < 64)%nat ->
        Z.land (rotate l 1) (Z.land 1 (not64 4)) <> 0)).
Proof.
  apply (sched_params_effect zero_shift zero_shift demo 2 0 (demo_cpu 4 0 12) demo_hpc 1 3);
    try done; try apply demo_wf; simpl; unfold is_u64; lia.
Defined.

Lemma locked_slots_kept_witness :
  exists r s', locked_set_sched_params zero_shift zero_shift demo 2 0 1 3 = Ok (r, s') /\
    owner s' 0 0 = Some 1 /\
    forall q j, q <> 0 -> 0 <= j < 64 -> owner s' q j = owner demo q j.
Proof.
  apply (locked_slots_kept zero_shift zero_shift demo 2 0 (demo_cpu 4 0 12) demo_hpc 1 3 0);
    try done; try apply demo_wf; simpl; unfold is_u64; lia.
Defined.

Lemma sched_next_os_round_robin_witness :
  (exists d c, 1 <= d <= 64 /\
     sched_next_os no_os demo 1 =
       Ok (c, State (cpus demo) [HypeScheduler 5 1 (owners demo_hpc) ((0 + d) mod 64)]) /\
     owner demo 0 ((0 + d) mod 64) = Some c /\ slot_runs demo 0 ((0 + d) mod 64) = true /\
     forall e, 1 <= e < d -> slot_runs demo 0 ((0 + e) mod 64) = false) \/
  (sched_next_os no_os demo 1 = Ok (1, demo) /\ forall i, 0 <= i < 64 -> slot_runs demo 0 i = false).
Proof.
  apply (sched_next_os_round_robin no_os demo 1 (demo_cpu 1 1 11) demo_hpc);
    try done; try apply demo_wf. by left.
Defined.

Lemma sched_no_starvation_witness :
  exists m s', (m <= 64)%nat /\ sched_iter no_os m demo 1 = Ok (2, s') /\
    exists h', hype_per_cpu s' !! 0%nat = Some h' /\ curr_slot h' = 2.
Proof.
  apply (sched_no_starvation no_os demo 0 demo_hpc 1 (demo_cpu 1 1 11) 2 2);
    try done; try apply demo_wf.
  intros c k [[-> ->]|[-> ->]]%demo_cpus _; by left.
Defined.

(** Three processors of partitions 11, 12 and 13, all ready; the first two have asked to
    yield to each other's partition. *)
Definition yield_cpu (set lpid next : Z) : cpu := Cpu 0 (SchedPoll set 0 0 next 1) lpid.
Definition yielders : state :=
  State (list_to_map [(1, yield_cpu 1 11 12); (2, yield_cpu 4 12 11); (3, yield_cpu 16 13 0)])
    [HypeScheduler 21 0 ([1; 0; 2; 0; 3] ++ repeat 0 59) 0].
Definition yielders_os (lpid : Z) : option (list Z) := if lpid =? 11 then Some [1] else if lpid =? 12 then Some [2] else None.

(** A directed yield does not move the current slot on, so two processors that yield to
    each other keep the third from ever being chosen. *)
Example directed_yield_starves m :
  slot_runs yielders 0 4 = true /\ sched_iter yielders_os m yielders 1 = Ok (if Nat.even m then 1 else 2, yielders).
Proof.
  split; [vm_compute; reflexivity|].
  assert (sched_next_os yielders_os yielders 1 = Ok (2, yielders)) as E1 by (vm_compute; reflexivity).
  assert (sched_next_os yielders_os yielders 2 = Ok (1, yielders)) as E2 by (vm_compute; reflexivity).
  cut (sched_iter yielders_os m yielders 1 = Ok (if Nat.even m then 1 else 2, yielders) /\
    sched_iter yielders_os m yielders 2 = Ok (if Nat.even m then 2 else 1, yielders)); [by intros [? _]|].
  induction m as [|m [IH1 IH2]]; [done|]. cbn [sched_iter]. rewrite E1, E2. cbn [res_bind]. rewrite IH1, IH2, Nat.even_succ, <- Nat.negb_even.
  by destruct (Nat.even m).
Qed.

(** ** Slots past 30

    The scheduler before: processor 1 has slot 31, locked. *)
Definition high_slot : state :=
  State (<[1 := demo_cpu (2 ^ 31) (2 ^ 31) 11]> (<[2 := demo_cpu 0 0 12]> ∅))
        [HypeScheduler (2 ^ 31) (2 ^ 31) (repeat 0 31 ++ [1] ++ repeat 0 32) 0].

(** The [int] shift in [set_slot_owners] breaks the guarantee from slot 31
    on.  Asking for slot 32 only, which is free, takes slot 31 away from the
    processor that has it locked, and slot 32 itself is given to nobody although
    it is recorded as locked. *)
Theorem locked_slot_stolen :
  res_bind (locked_set_sched_params zero_shift zero_shift high_slot 2 0 (2 ^ 32) 0)
    (fun '(r, s) => Ok (r, owner s 0 31, owner s 0 32, locked_slots <$> hype_per_cpu s)) =
  Ok (H_Success, Some 2, Some 0, [2 ^ 31 + 2 ^ 32]).
Proof. vm_compute. reflexivity. Qed.

(** A processor number equal to the number of processors passes the check of
    [h_set_sched_params] and indexes past the partition's processors. *)
Example set_sched_params_off_by_one :
  h_set_sched_params zero_shift zero_shift no_os demo 1 [1] H_SELF_LPID 1 1 0 = Fault Out_of_bounds.
Proof. vm_compute. reflexivity. Qed.
