(* ===== verification/Logical.v ===== *)
(** * Logical: a partition's logical address space

    [hype/logical.h], [hype/pmm.c] and the range tests of [include/lib.h].  A
    partition's memory is a table of chunks; a chunk entry points to the record
    ([struct logical_chunk_info]) of the resource mapped there, which knows its
    logical range and, for plain memory, the physical address behind it.
    Pointers to records are words, 0 is [NULL]; the table is updated with the
    map's lock held, as one step. *)

From S2P Require Import Prelude Bitmap PgAlloc.

Definition LOG_CHUNKSIZE : Z := 26.
Definition CHUNK_SIZE : Z := 2 ^ LOG_CHUNKSIZE.
Definition INVALID_PHYSICAL_ADDRESS : Z := ONES64.
Definition INVALID_PHYSICAL_PAGE : Z := ONES64.
Definition INVALID_LOGICAL_ADDRESS : Z := ONES64.
Definition MAX_LOGICAL_MEM_CHUNKS : Z := 2 ^ LOG_PGSIZE / 8.

Definition chunk_number_addr (i : Z) : Z := shr64 i LOG_CHUNKSIZE.
Definition chunk_offset_addr (i : Z) : Z := Z.land i (2 ^ LOG_CHUNKSIZE - 1).

(** ** Ranges: [include/lib.h] *)
Definition range_subset (start1 size1 start2 size2 : Z) : bool :=
  (start1 <=? start2) && (add64 start2 size2 <=? add64 start1 size1).

Definition range_contains (start size val : Z) : bool := range_subset start size val 1.

Definition ranges_conflict (start1 size1 start2 size2 : Z) : bool :=
  if range_contains start2 size2 start1 then true
  else range_contains start1 size1 start2.

(** ** Chunk records *)
Definition LCI_DISABLED : Z := 1.

(** The operation tables: plain memory's, or another component's, which has an
    address translation of its own. *)
Inductive chunk_ops := Phys_mem_ops | Other_ops (t : Z).

#[global] Instance chunk_ops_eq_dec : EqDecision chunk_ops.
Proof. solve_decision. Defined.

Record logical_chunk_info := Lci {
  lci_raddr : Z;
  lci_laddr : Z;
  lci_size : Z;
  lci_ptecount : Z;
  lci_flags : Z;
  lci_ops : chunk_ops;
  lci_os : Z
}.

Definition set_lci_flags (l : logical_chunk_info) (f : Z) : logical_chunk_info :=
  Lci (lci_raddr l) (lci_laddr l) (lci_size l) (lci_ptecount l) f (lci_ops l) (lci_os l).
Definition set_lci_place (l : logical_chunk_info) (laddr os : Z) : logical_chunk_info :=
  Lci (lci_raddr l) laddr (lci_size l) (lci_ptecount l) (lci_flags l) (lci_ops l) os.

Definition lci_disable (l : logical_chunk_info) : logical_chunk_info :=
  set_lci_flags l (Z.lor (lci_flags l) LCI_DISABLED).
Definition lci_enable (l : logical_chunk_info) : logical_chunk_info :=
  set_lci_flags l (Z.land (lci_flags l) (not32 LCI_DISABLED)).

Definition lci_owns (l : logical_chunk_info) (laddr : Z) : bool :=
  range_contains (lci_laddr l) (lci_size l) laddr.

(** [phys_mem_lci_init] of [hype/phys_mem.c], on a fresh record. *)
Definition phys_mem_lci_init (l : logical_chunk_info) (raddr size : Z) : logical_chunk_info :=
  Lci raddr (chunk_offset_addr raddr) size (lci_ptecount l) (lci_flags l) Phys_mem_ops (lci_os l).

(** ** The map of a partition *)
Record logical_memory_map := Lmm { p_lci : list Z; chunk_usage : lbm }.

Record memory := Memory {
  lcis : gmap Z logical_chunk_info;
  maps : gmap Z logical_memory_map
}.

Definition get_lci (m : memory) (l : Z) : res logical_chunk_info := of_option Null_deref (lcis m !! l).
Definition get_map (m : memory) (os : Z) : res logical_memory_map := of_option Null_deref (maps m !! os).
Definition put_lci (m : memory) (l : Z) (x : logical_chunk_info) : memory :=
  Memory (<[l := x]> (lcis m)) (maps m).
Definition put_map (m : memory) (os : Z) (x : logical_memory_map) : memory :=
  Memory (lcis m) (<[os := x]> (maps m)).

(** [logical_mmap_init] gives a partition an empty table in a zeroed page; the
    bitmap takes [bits], the words already in the partition's record. *)
Definition logical_mmap_init (m : memory) (os : Z) (bits : list Z) : res memory :=
  match lbm_init MAX_LOGICAL_MEM_CHUNKS (SIZEOF_LBM + MAX_LOGICAL_MEM_CHUNKS / 8) bits with
  | None => Fault Assert_failed
  | Some x => Ok (put_map m os (Lmm (repeat 0 (Z.to_nat MAX_LOGICAL_MEM_CHUNKS)) x))
  end.

(** [logical_mmap_clean] requires an empty map and drops it. *)
Definition logical_mmap_clean (m : memory) (os : Z) : res memory :=
  let! map := get_map m os in
  cassert (forallb (fun l => l =? 0) (p_lci map)) (Ok (Memory (lcis m) (delete os (maps m)))).

Definition laddr_to_lci (m : memory) (os laddr : Z) : res Z :=
  let! map := get_map m os in aget (p_lci map) (chunk_number_addr laddr).

Section Translate.
(** Address translation of the other components' chunks. *)
Context (l_to_r : Z -> logical_chunk_info -> Z -> Z -> res Z).

Definition lci_translate (l : logical_chunk_info) (laddr size : Z) : res Z :=
  if truth (Z.land (lci_flags l) LCI_DISABLED) then Ok INVALID_PHYSICAL_ADDRESS
  else if lci_raddr l =? INVALID_PHYSICAL_ADDRESS then
    match lci_ops l with
    | Phys_mem_ops => Fault Null_deref
    | Other_ops t => l_to_r t l laddr size
    end
  else if negb (lci_owns l laddr) || negb (lci_owns l (sub64 (add64 laddr size) 1))
  then Ok INVALID_PHYSICAL_ADDRESS
  else Ok (add64 (sub64 laddr (lci_laddr l)) (lci_raddr l)).

Definition logical_to_physical_address (m : memory) (os laddr len : Z) : res Z :=
  let! l := laddr_to_lci m os laddr in
  if l =? 0 then Ok INVALID_PHYSICAL_PAGE
  else let! x := get_lci m l in lci_translate x laddr len.

Definition logical_to_physical_page (m : memory) (os lpn : Z) : res Z :=
  let laddr := shl64 lpn LOG_PGSIZE in
  let! l := laddr_to_lci m os laddr in
  if l =? 0 then Ok INVALID_PHYSICAL_PAGE
  else
    let! x := get_lci m l in
    let! ret := lci_translate x laddr PGSIZE in
    Ok (if ret =? INVALID_PHYSICAL_ADDRESS then ret else shr64 ret LOG_PGSIZE).
End Translate.

(** [for (; j < size; ++j) p_lci[i + j] = lci] *)
Fixpoint fill_lci (n : nat) (i l : Z) (p : list Z) : res (list Z) :=
  match n with
  | O => Ok p
  | S n => let! p := aset p i l in fill_lci n (i + 1) l p
  end.

(** Number of chunks a record needs. *)
Definition chunks_of (x : logical_chunk_info) : Z :=
  shr64 (ALIGN_UP (add64 (lci_size x) (chunk_offset_addr (lci_laddr x))) CHUNK_SIZE) LOG_CHUNKSIZE.

Definition set_lci (m : memory) (os hint_laddr l : Z) : res (Z * memory) :=
  let! x := get_lci m l in
  let! map := get_map m os in
  let i := chunk_number_addr hint_laddr in
  let size := chunks_of x in
  let i := if MAX_LOGICAL_MEM_CHUNKS <? add64 i size then 0 else i in
  let log_align := bit_log2 (Z.land size (not64 (sub64 size 1))) in
  let! free := test_bits (chunk_usage map) i size 0 in
  let! i := if truth free then Ok i else lbm_find_range (chunk_usage map) 0 size log_align 0 in
  if i =? LARGE_BITMAP_ERROR then Ok (INVALID_LOGICAL_ADDRESS, m)
  else
    let! u := lbm_set_bits (chunk_usage map) i size 1 in
    let! p := fill_lci (Z.to_nat size) i l (p_lci map) in
    let ret := shl64 i LOG_CHUNKSIZE in
    let x := set_lci_place x (add64 ret (chunk_offset_addr (lci_laddr x))) os in
    Ok (ret, put_lci (put_map m os (Lmm p u)) l x).

(** The loop of [detach_lci]: clear the run of entries that point to [l]. *)
Fixpoint detach_loop (fuel : nat) (idx l ret : Z) (p : list Z) (u : lbm) : res (Z * list Z * lbm) :=
  match fuel with
  | O => Fault Out_of_fuel
  | S fuel =>
      if MAX_LOGICAL_MEM_CHUNKS <=? idx then Ok (ret, p, u)
      else
        let! e := aget p idx in
        if negb (e =? 0) && (e =? l) then
          let! p := aset p idx 0 in
          let! u := lbm_set_bits u idx 1 0 in
          detach_loop fuel (idx + 1) l 0 p u
        else Ok (ret, p, u)
  end.

Definition detach_lci (m : memory) (l : Z) : res (Z * memory) :=
  let! x := get_lci m l in
  let idx := shr64 (lci_laddr x) LOG_CHUNKSIZE in
  let! map := get_map m (lci_os x) in
  if MAX_LOGICAL_MEM_CHUNKS <=? idx then Ok (1, m)
  else
    let! e := aget (p_lci map) idx in
    if e =? l then
      let! (ret, p, u) :=
        detach_loop (S (Z.to_nat MAX_LOGICAL_MEM_CHUNKS)) idx l 1 (p_lci map) (chunk_usage map) in
      Ok (ret, put_lci (put_map m (lci_os x) (Lmm p u)) l (lci_disable x))
    else Ok (1, m).

(** ** Well-formed maps *)
Definition entry (map : logical_memory_map) (k : Z) : Z := default 0 (p_lci map !! Z.to_nat k).

Record map_wf (map : logical_memory_map) : Prop := {
  map_len : Z.of_nat (length (p_lci map)) = 512;
  map_lbm : lbm_wf (chunk_usage map);
  map_num : lbm_num (chunk_usage map) = 512;
  map_used : forall k, 0 <= k < 512 ->
    lbit (lbm_bits (chunk_usage map)) k = negb (entry map k =? 0)
}.

Lemma map_capacity map : map_wf map -> capacity (lbm_bits (chunk_usage map)) = 512.
Proof.
  intros [_ Hl Hn _]. destruct Hl as [_ Hlen _]. unfold capacity, UVAL_BITS. rewrite Hlen, Hn. reflexivity.
Qed.

Lemma entry_lookup map k :
  map_wf map -> 0 <= k < 512 -> p_lci map !! Z.to_nat k = Some (entry map k).
Proof.
  intros [Hl _ _ _] Hk. unfold entry. destruct (p_lci map !! Z.to_nat k) eqn:E; [done|].
  apply lookup_ge_None in E. lia.
Qed.

Lemma fill_lci_spec n : forall i l p,
  0 <= i -> i + Z.of_nat n <= Z.of_nat (length p) ->
  exists p', fill_lci n i l p = Ok p' /\ length p' = length p /\
    forall k, 0 <= k -> p' !! Z.to_nat k =
      if (i <=? k) && (k <? i + Z.of_nat n) then Some l else p !! Z.to_nat k.
Proof.
  induction n as [|n IH]; intros i l p Hi Hn; simpl.
  - exists p. split_and!; try done. intros k Hk. zcases.
  - rewrite aset_ok by lia. cbn [res_bind].
    destruct (IH (i + 1) l (<[Z.to_nat i := l]> p)) as (p' & E & Hlen & Hp); [lia|rewrite length_insert; lia|].
    exists p'. split; [done|]. rewrite length_insert in Hlen. split; [done|].
    intros k Hk. rewrite Hp by done.
    destruct (Z.eqb_spec k i) as [->|Hne].
    + destruct (Z.leb_spec (i + 1) i), (Z.leb_spec i i), (Z.ltb_spec i (i + Z.of_nat (S n))); try lia.
      simpl. apply list_lookup_insert_eq. lia.
    + rewrite list_lookup_insert_ne by lia.
      replace (i + 1 + Z.of_nat n) with (i + Z.of_nat (S n)) by lia.
      destruct (Z.leb_spec (i + 1) k), (Z.leb_spec i k); try lia; done.
Qed.

(** The alignment [set_lci] asks for: the largest power of two dividing the size. *)
Lemma least_bit size :
  0 < size < 2 ^ 63 ->
  exists b, 0 <= b < 63 /\ bit_log2 (Z.land size (not64 (sub64 size 1))) = b /\ (2 ^ b | size).
Proof.
  intros Hs. destruct (land_opp_least size) as (b & Hb & Hl & Hbit & Hlow); [lia|].
  assert (b < 63) as Hb63.
  { destruct (Z.ltb_spec b 63); [done|]. rewrite (testbit_high size 63) in Hbit by lia. done. }
  assert (Z.land size (not64 (sub64 size 1)) = 2 ^ b) as ->.
  { rewrite <- Hl, sub64_small by lia. replace (- size) with (Z.lnot (size - 1)) by (unfold Z.lnot; lia).
    bits i. destruct (Z.ltb_spec i 64); [done|]. rewrite (testbit_high size 63) by lia. done. }
  exists b. split; [lia|]. split.
  - unfold bit_log2. assert (0 < 2 ^ b) by (apply Z.pow_pos_nonneg; lia).
    destruct (Z.eqb_spec (2 ^ b) 0); [lia|]. apply Z.log2_pow2. lia.
  - apply Z.mod_divide; [apply Z.pow_nonzero; lia|].
    rewrite <- Z.land_ones by lia. bits i.
    destruct (Z.ltb_spec i b); [rewrite Hlow by lia; done|].
    rewrite Z.ones_spec_high by lia. apply andb_false_r.
Qed.

Lemma pow2_512 b n : 0 <= b -> (2 ^ b | n) -> 0 < n <= 512 -> (2 ^ b | 512).
Proof.
  intros Hb Hd Hn. assert (2 ^ b <= 512) as Hle by (apply Z.divide_pos_le in Hd; lia).
  assert (b <= 9) by (destruct (Z.leb_spec b 9); [done|];
    assert (2 ^ 10 <= 2 ^ b) by (apply Z.pow_le_mono_r; lia); lia).
  exists (2 ^ (9 - b)). rewrite <- Z.pow_add_r by lia. by replace (9 - b + b) with 9 by lia.
Qed.

(** Placing a record over free chunks. *)
Lemma place_spec map i n l :
  map_wf map -> 0 <= i -> 0 <= n -> i + n <= 512 -> l <> 0 ->
  exists u p, lbm_set_bits (chunk_usage map) i n 1 = Ok u /\
    fill_lci (Z.to_nat n) i l (p_lci map) = Ok p /\ map_wf (Lmm p u) /\
    forall k, 0 <= k < 512 -> entry (Lmm p u) k = if (i <=? k) && (k <? i + n) then l else entry map k.
Proof.
  intros Hwf Hi Hn Hin Hl. pose proof Hwf as [Hlen Hlbm Hnum Hused].
  destruct (lbm_set_bits_spec (chunk_usage map) i n 1) as (u & Eu & Hu & Hnu & Hbits); try done; try lia.
  destruct (fill_lci_spec (Z.to_nat n) i l (p_lci map)) as (p & Ep & Hplen & Hp); [lia|lia|].
  exists u, p. split; [done|]. split; [done|].
  assert (forall k, 0 <= k < 512 ->
    entry (Lmm p u) k = if (i <=? k) && (k <? i + n) then l else entry map k) as He.
  { intros k Hk. unfold entry. simpl. rewrite Hp by lia. rewrite Z2Nat.id by lia.
    by destruct ((i <=? k) && (k <? i + n)). }
  split; [|done]. split; simpl; try done; [lia|lia|].
  intros k Hk. rewrite Hbits, He, Hnum by lia. rewrite Z.min_l by lia.
  destruct ((i <=? k) && (k <? i + n)) eqn:E; [|by apply Hused].
  destruct (Z.eqb_spec l 0); [done|]. reflexivity.
Qed.

(** What a successful [set_lci] has done: the record sits over chunks [i] to
    [i + n] of the partition, which were free, and nothing else moved. *)
Definition placed (m m' : memory) (os l : Z) (x : logical_chunk_info) (map map' : logical_memory_map)
  (i n : Z) : Prop :=
  0 <= i /\ i + n <= 512 /\
  m' = put_lci (put_map m os map') l
         (set_lci_place x (i * CHUNK_SIZE + chunk_offset_addr (lci_laddr x)) os) /\
  map_wf map' /\
  (forall k, i <= k < i + n -> entry map k = 0) /\
  (forall k, 0 <= k < 512 -> entry map' k = if (i <=? k) && (k <? i + n) then l else entry map k).

Lemma chunk_offset_range a : 0 <= chunk_offset_addr a < CHUNK_SIZE.
Proof.
  unfold chunk_offset_addr, CHUNK_SIZE, LOG_CHUNKSIZE.
  change (2 ^ 26 - 1) with (Z.ones 26). rewrite Z.land_ones by lia. apply Z.mod_pos_bound. lia.
Qed.

Lemma chunk_base i : 0 <= i <= 512 -> shl64 i LOG_CHUNKSIZE = i * CHUNK_SIZE.
Proof.
  intros Hi. unfold shl64, CHUNK_SIZE, LOG_CHUNKSIZE. rewrite Z.shiftl_mul_pow2 by lia.
  apply u64_small. lia.
Qed.

(** The test of [set_lci] at chunk 0. *)
Lemma test_free map n :
  map_wf map -> 0 <= n <= 512 ->
  exists r, test_bits (chunk_usage map) 0 n 0 = Ok r /\
    ((r = 1 /\ forall k, 0 <= k < n -> entry map k = 0) \/
     (r = 0 /\ exists k, 0 <= k < n /\ entry map k <> 0)).
Proof.
  intros Hwf Hn. pose proof Hwf as [Hlen Hlbm Hnum Hused]. unfold test_bits, cassert.
  rewrite add64_small by lia. destruct (Z.leb_spec (0 + n) (lbm_num (chunk_usage map))); [|lia].
  destruct (test_bits_loop_spec (Z.to_nat n) (chunk_usage map) 0 n 0) as (r & E & Hcase); try done; try lia.
  exists r. split; [done|]. destruct Hcase as [[-> Hk]|[-> (k & Hk & Hb)]]; [left|right].
  - split; [done|]. intros k Hk'. specialize (Hk k Hk'). rewrite Hused in Hk by lia.
    by destruct (Z.eqb_spec (entry map k) 0).
  - split; [done|]. exists k. split; [done|]. rewrite Hused in Hb by lia.
    destruct (Z.eqb_spec (entry map k) 0); [done|]. done.
Qed.

(** The search of [set_lci]. *)
Lemma find_free map n b :
  map_wf map -> 0 < n <= 512 -> 0 <= b -> (2 ^ b | n) ->
  exists i, lbm_find_range (chunk_usage map) 0 n b 0 = Ok i /\
    (i = LARGE_BITMAP_ERROR \/
     0 <= i /\ i + n <= 512 /\ forall k, i <= k < i + n -> entry map k = 0).
Proof.
  intros Hwf Hn Hb Hdiv. pose proof Hwf as [Hlen Hlbm Hnum Hused]. pose proof (map_capacity map Hwf) as Hcap.
  pose proof (pow2_512 b n Hb Hdiv Hn) as H512.
  assert (b <= 9).
  { destruct (Z.leb_spec b 9); [done|]. assert (2 ^ 10 <= 2 ^ b) by (apply Z.pow_le_mono_r; lia).
    apply Z.divide_pos_le in H512; lia. }
  destruct (find_range_run (chunk_usage map) 0 n b 0) as (i & E & Hcase);
    rewrite ?Hcap; try done; try lia; [right; auto|].
  exists i. split; [done|]. destruct Hcase as [(H1 & H2 & _ & H4)|[-> _]]; [right|by left].
  split; [done|]. rewrite Hcap in H2. split; [done|]. intros k Hk. specialize (H4 k Hk).
  rewrite Hused in H4 by lia. by destruct (Z.eqb_spec (entry map k) 0).
Qed.

Lemma set_lci_spec m os hint l x map n :
  lcis m !! l = Some x -> maps m !! os = Some map -> map_wf map -> l <> 0 ->
  chunks_of x = n -> 0 < n <= 512 -> 0 <= hint < CHUNK_SIZE ->
  exists r m', set_lci m os hint l = Ok (r, m') /\
    ((r = INVALID_LOGICAL_ADDRESS /\ m' = m /\ exists k, 0 <= k < n /\ entry map k <> 0) \/
     exists i map', r = i * CHUNK_SIZE /\ placed m m' os l x map map' i n).
Proof.
  intros Hx Hmap Hwf Hl Hn Hn0 Hhint.
  unfold set_lci, get_lci, get_map. rewrite Hx, Hmap. cbn [of_option res_bind]. rewrite Hn.
  assert (chunk_number_addr hint = 0) as ->.
  { unfold chunk_number_addr, shr64, CHUNK_SIZE, LOG_CHUNKSIZE in *. rewrite Z.shiftr_div_pow2 by lia.
    apply Z.div_small. lia. }
  replace (if MAX_LOGICAL_MEM_CHUNKS <? add64 0 n then 0 else 0) with 0 by (by destruct (_ <? _)).
  destruct (least_bit n) as (b & Hb & -> & Hdiv); [lia|].
  assert (exists i, (let! free := test_bits (chunk_usage map) 0 n 0 in
      if truth free then Ok 0 else lbm_find_range (chunk_usage map) 0 n b 0) = Ok i /\
    (i = LARGE_BITMAP_ERROR /\ (exists k, 0 <= k < n /\ entry map k <> 0) \/
     0 <= i /\ i + n <= 512 /\ forall k, i <= k < i + n -> entry map k = 0)) as (i & Ei & Hi).
  { destruct (test_free map n Hwf) as (free & -> & [[-> Hall]|[-> Hocc]]); [lia| |]; simpl.
    - exists 0. split; [done|]. right. split_and!; try lia. apply Hall.
    - destruct (find_free map n b Hwf Hn0) as (i & -> & [->|Hi]); [lia|done| |]; eauto 10. }
  apply res_bind_ok in Ei as (free & -> & Ei). cbn [res_bind]. rewrite Ei. cbn [res_bind].
  destruct Hi as [[-> Hocc]|(Hi & Hin & Hfr)].
  { rewrite Z.eqb_refl. exists INVALID_LOGICAL_ADDRESS, m. split; [done|]. by left. }
  destruct (Z.eqb_spec i LARGE_BITMAP_ERROR) as [->|_]; [unfold LARGE_BITMAP_ERROR, ONES64 in *; lia|].
  destruct (place_spec map i n l Hwf) as (u & p & -> & -> & Hwf' & He); try lia; try done.
  cbn [res_bind]. rewrite chunk_base by lia. pose proof (chunk_offset_range (lci_laddr x)) as Ho.
  rewrite add64_small by (unfold CHUNK_SIZE, LOG_CHUNKSIZE in *; lia).
  do 2 eexists. split; [done|]. right. exists i, (Lmm p u). split; [done|]. unfold placed. auto 10.
Qed.

(** ** Detaching *)
Lemma clear_spec map i :
  map_wf map -> 0 <= i < 512 ->
  exists p u, aset (p_lci map) i 0 = Ok p /\ lbm_set_bits (chunk_usage map) i 1 0 = Ok u /\
    map_wf (Lmm p u) /\
    forall k, 0 <= k < 512 -> entry (Lmm p u) k = if k =? i then 0 else entry map k.
Proof.
  intros Hwf Hi. pose proof Hwf as [Hlen Hlbm Hnum Hused].
  destruct (lbm_set_bits_spec (chunk_usage map) i 1 0) as (u & Eu & Hu & Hnu & Hbits); try done; try lia.
  rewrite aset_ok by lia. do 2 eexists. split; [done|]. split; [done|].
  assert (forall k, 0 <= k < 512 -> entry (Lmm (<[Z.to_nat i := 0]> (p_lci map)) u) k =
    if k =? i then 0 else entry map k) as He.
  { intros k Hk. unfold entry. simpl. destruct (Z.eqb_spec k i) as [->|].
    - rewrite list_lookup_insert_eq by lia. done.
    - rewrite list_lookup_insert_ne by lia. done. }
  split; [|done]. split; simpl; rewrite ?length_insert; try done; [lia|].
  intros k Hk. rewrite Hbits, He, Hnum by lia. rewrite Z.min_l by lia.
  destruct (Z.eqb_spec k i) as [->|]; [zcases|]. rewrite Hused by lia. zcases.
Qed.

(** The run of entries from [idx] that point to [l]. *)
Definition run (map : logical_memory_map) (idx n l : Z) : Prop :=
  0 <= n /\ idx + n <= 512 /\ (forall k, idx <= k < idx + n -> entry map k = l) /\
  (idx + n = 512 \/ entry map (idx + n) <> l).

Lemma detach_loop_spec fuel : forall idx l ret map,
  map_wf map -> 0 <= idx <= 512 -> l <> 0 -> 512 - idx < Z.of_nat fuel ->
  exists n ret' p u, detach_loop fuel idx l ret (p_lci map) (chunk_usage map) = Ok (ret', p, u) /\
    run map idx n l /\ ret' = (if n =? 0 then ret else 0) /\ map_wf (Lmm p u) /\
    forall k, 0 <= k < 512 ->
      entry (Lmm p u) k = if (idx <=? k) && (k <? idx + n) then 0 else entry map k.
Proof.
  induction fuel as [|fuel IH]; intros idx l ret map Hwf Hidx Hl Hf; [lia|]. simpl detach_loop.
  change MAX_LOGICAL_MEM_CHUNKS with 512.
  assert (forall Hend : idx = 512 \/ entry map idx <> l,
    exists n ret' p u, Ok (ret, p_lci map, chunk_usage map) = Ok (ret', p, u) /\
    run map idx n l /\ ret' = (if n =? 0 then ret else 0) /\ map_wf (Lmm p u) /\
    forall k, 0 <= k < 512 ->
      entry (Lmm p u) k = if (idx <=? k) && (k <? idx + n) then 0 else entry map k) as Hstop.
  { intros Hend. exists 0, ret, (p_lci map), (chunk_usage map). split; [done|].
    split; [unfold run; rewrite Z.add_0_r; split_and!; try lia; done|].
    split; [done|]. split; [by destruct map|]. intros k Hk. destruct map. zcases. }
  destruct (Z.leb_spec 512 idx); [apply Hstop; lia|].
  rewrite (aget_ok _ _ (entry map idx)) by (lia || (apply entry_lookup; done || lia)). cbn [res_bind].
  destruct (Z.eqb_spec (entry map idx) l) as [E|E].
  2:{ rewrite andb_false_r. apply Hstop. by right. }
  rewrite E. destruct (Z.eqb_spec l 0) as [|_]; [done|]. simpl negb. cbn [andb].
  destruct (clear_spec map idx Hwf) as (p & u & -> & -> & Hwf' & He); [lia|]. cbn [res_bind].
  destruct (IH (idx + 1) l 0 (Lmm p u) Hwf') as (n & ret' & p' & u' & E' & Hrun & -> & Hwf2 & He2); try lia; try done.
  exists (n + 1), 0, p', u'. simpl in E'. destruct Hrun as (Hn & Hn5 & Hk & Hend).
  split; [rewrite E'; by destruct (n =? 0)|]. split_and!; try done.
  - split; [lia|]. split; [lia|]. split.
    + intros k Hk'. destruct (Z.eqb_spec k idx) as [->|]; [done|].
      rewrite <- (Hk k) by lia. rewrite He by lia. by destruct (Z.eqb_spec k idx).
    + destruct (Z.eqb_spec (idx + 1 + n) 512) as [E5|E5]; [left; lia|right].
      destruct Hend as [Hend|Hend]; [lia|]. rewrite He in Hend by lia.
      destruct (Z.eqb_spec (idx + 1 + n) idx); [lia|]. by replace (idx + (n + 1)) with (idx + 1 + n) by lia.
  - by destruct (Z.eqb_spec (n + 1) 0); [lia|].
  - intros k Hk'. rewrite He2, He by lia. zcases.
Qed.

Lemma detach_lci_spec m l x map :
  lcis m !! l = Some x -> maps m !! lci_os x = Some map -> map_wf map -> l <> 0 -> is_u64 (lci_laddr x) ->
  let idx := chunk_number_addr (lci_laddr x) in
  idx < 512 -> entry map idx = l ->
  exists n map', 0 < n /\ run map idx n l /\
    detach_lci m l = Ok (0, put_lci (put_map m (lci_os x) map') l (lci_disable x)) /\ map_wf map' /\
    forall k, 0 <= k < 512 -> entry map' k = if (idx <=? k) && (k <? idx + n) then 0 else entry map k.
Proof.
  intros Hx Hmap Hwf Hl Hu idx Hidx He. unfold detach_lci, get_lci, get_map.
  rewrite Hx. cbn [of_option res_bind]. rewrite Hmap. cbn [of_option res_bind].
  change (shr64 (lci_laddr x) LOG_CHUNKSIZE) with idx. change MAX_LOGICAL_MEM_CHUNKS with 512.
  assert (0 <= idx) as Hidx0.
  { unfold idx, chunk_number_addr, shr64. apply Z.shiftr_nonneg. unfold is_u64 in Hu. lia. }
  destruct (Z.leb_spec 512 idx); [lia|].
  rewrite (aget_ok _ _ (entry map idx)) by (lia || (apply entry_lookup; done || lia)). cbn [res_bind].
  rewrite He, Z.eqb_refl.
  destruct (detach_loop_spec (S (Z.to_nat 512)) idx l 1 map Hwf) as (n & ret & p & u & E & Hrun & -> & Hwf' & He');
    [lia|done|lia|].
  rewrite E. cbn [res_bind]. exists n, (Lmm p u). assert (n <> 0) as Hn.
  { intros ->. destruct Hrun as (_ & _ & _ & [Hr|Hr]); [lia|]. rewrite Z.add_0_r in Hr. done. }
  destruct (Z.eqb_spec n 0); [done|]. split_and!; try done. destruct Hrun. lia.
Qed.

(** ** Translation *)

(** A record whose logical and physical ranges do not wrap. *)
Definition lci_sane (x : logical_chunk_info) : Prop :=
  0 <= lci_laddr x /\ 0 <= lci_size x /\ lci_laddr x + lci_size x < 2 ^ 64 /\
  0 <= lci_raddr x /\ lci_raddr x + lci_size x < 2 ^ 64.

Lemma lci_owns_iff x a :
  lci_sane x -> 0 <= a < 2 ^ 64 - 1 ->
  lci_owns x a = true <-> lci_laddr x <= a < lci_laddr x + lci_size x.
Proof.
  intros (H1 & H2 & H3 & _) Ha. unfold lci_owns, range_contains, range_subset.
  rewrite !add64_small by lia. rewrite andb_true_iff, !Z.leb_le. lia.
Qed.

Lemma lci_translate_spec l_to_r x laddr len :
  lci_sane x -> 0 <= laddr -> 0 < len -> laddr + len < 2 ^ 64 ->
  lci_raddr x <> INVALID_PHYSICAL_ADDRESS ->
  exists pa, lci_translate l_to_r x laddr len = Ok pa /\
    (pa = INVALID_PHYSICAL_ADDRESS \/
     truth (Z.land (lci_flags x) LCI_DISABLED) = false /\
     lci_laddr x <= laddr /\ laddr + len <= lci_laddr x + lci_size x /\
     pa = lci_raddr x + (laddr - lci_laddr x)).
Proof.
  intros Hs Hla Hlen Hov Hra. unfold lci_translate.
  destruct (truth (Z.land (lci_flags x) LCI_DISABLED)); [by exists INVALID_PHYSICAL_ADDRESS; auto|].
  destruct (Z.eqb_spec (lci_raddr x) INVALID_PHYSICAL_ADDRESS); [done|].
  rewrite (add64_small laddr len), sub64_small by lia.
  pose proof (lci_owns_iff x laddr Hs ltac:(lia)) as H1.
  pose proof (lci_owns_iff x (laddr + len - 1) Hs ltac:(lia)) as H2.
  destruct (lci_owns x laddr), (lci_owns x (laddr + len - 1)); simpl;
    try (exists INVALID_PHYSICAL_ADDRESS; by auto).
  eexists. split; [done|]. right. pose proof (proj1 H1). pose proof (proj1 H2).
  destruct Hs as (? & ? & ? & ? & ?). rewrite (sub64_small laddr) by lia. rewrite add64_small by lia.
  split_and!; try done; lia.
Qed.

Lemma l2p_record l_to_r m os laddr len pa :
  logical_to_physical_address l_to_r m os laddr len = Ok pa -> pa <> INVALID_PHYSICAL_ADDRESS ->
  exists map x, maps m !! os = Some map /\
    p_lci map !! Z.to_nat (chunk_number_addr laddr) <> Some 0 /\
    (exists l, p_lci map !! Z.to_nat (chunk_number_addr laddr) = Some l /\ lcis m !! l = Some x) /\
    lci_translate l_to_r x laddr len = Ok pa.
Proof.
  unfold logical_to_physical_address, laddr_to_lci, get_map, get_lci. intros H Hpa.
  apply res_bind_ok in H as (l & Hl & H). apply res_bind_ok in Hl as (map & Hmap & Hl).
  destruct (maps m !! os) as [map'|] eqn:Em; [|done]. injection Hmap as ->.
  apply aget_inv in Hl as [_ Hl]. destruct (Z.eqb_spec l 0) as [->|Hne].
  { injection H as <-. done. }
  apply res_bind_ok in H as (x & Hx & H). destruct (lcis m !! l) as [x'|] eqn:Ex; [|done].
  injection Hx as ->. exists map, x. split_and!; try done; [congruence|]. by exists l.
Qed.

(** The records a partition's table points to. *)
Definition maps_record (m : memory) (os : Z) (x : logical_chunk_info) : Prop :=
  exists map i l, maps m !! os = Some map /\ p_lci map !! i = Some l /\ l <> 0 /\ lcis m !! l = Some x.

(** [covered m os a n]: the physical range is inside a record of the partition. *)
Definition covered (m : memory) (os a n : Z) : Prop :=
  exists x, maps_record m os x /\ lci_raddr x <= a /\ a + n <= lci_raddr x + lci_size x.

(** ** Properties *)

(** A successful translation stays inside the physical range of an enabled
    record the partition's own table points to. *)
Theorem l2p_contained l_to_r m os laddr len pa :
  (forall x, maps_record m os x -> lci_sane x /\ lci_raddr x <> INVALID_PHYSICAL_ADDRESS) ->
  0 <= laddr -> 0 < len -> laddr + len < 2 ^ 64 ->
  logical_to_physical_address l_to_r m os laddr len = Ok pa -> pa <> INVALID_PHYSICAL_ADDRESS ->
  exists x, maps_record m os x /\ truth (Z.land (lci_flags x) LCI_DISABLED) = false /\
    lci_laddr x <= laddr /\ laddr + len <= lci_laddr x + lci_size x /\
    pa - lci_raddr x = laddr - lci_laddr x /\
    lci_raddr x <= pa /\ pa + len <= lci_raddr x + lci_size x.
Proof.
  intros Hsane Hla Hlen Hov E Hpa.
  destruct (l2p_record l_to_r m os laddr len pa E Hpa) as (map & x & Hmap & H0 & (l & Hl & Hx) & Et).
  assert (maps_record m os x) as Hr.
  { exists map, (Z.to_nat (chunk_number_addr laddr)), l. split_and!; try done. congruence. }
  destruct (Hsane x Hr) as [Hs Hra]. exists x. split; [done|].
  destruct (lci_translate_spec l_to_r x laddr len) as (pa' & Et' & Hcase); try done.
  rewrite Et in Et'. injection Et' as <-. destruct Hcase as [->|(Hd & H1 & H2 & ->)]; [done|].
  split_and!; try done; lia.
Qed.

(** C12: isolation: when two partitions' tables hold records of ordinary memory that do not wrap around the
    address space, and the physical ranges behind the two tables are disjoint, no range of addresses of one and none of the
    other, of at least one byte and not reaching 2^64, translate to overlapping physical memory.  A length
    that wraps passes the check of the range ([l2p_wraps]). *)
Theorem l2p_isolation l_to_r m os1 os2 a1 n1 a2 n2 p1 p2 :
  (forall x, maps_record m os1 x \/ maps_record m os2 x ->
     lci_sane x /\ lci_raddr x <> INVALID_PHYSICAL_ADDRESS) ->
  (forall x y, maps_record m os1 x -> maps_record m os2 y ->
     lci_raddr x + lci_size x <= lci_raddr y \/ lci_raddr y + lci_size y <= lci_raddr x) ->
  0 <= a1 -> 0 < n1 -> a1 + n1 < 2 ^ 64 -> 0 <= a2 -> 0 < n2 -> a2 + n2 < 2 ^ 64 ->
  logical_to_physical_address l_to_r m os1 a1 n1 = Ok p1 -> p1 <> INVALID_PHYSICAL_ADDRESS ->
  logical_to_physical_address l_to_r m os2 a2 n2 = Ok p2 -> p2 <> INVALID_PHYSICAL_ADDRESS ->
  p1 + n1 <= p2 \/ p2 + n2 <= p1.
Proof.
  intros Hsane Hdis H1 H2 H3 H4 H5 H6 E1 Hp1 E2 Hp2.
  destruct (l2p_record l_to_r m os1 a1 n1 p1 E1 Hp1) as (map1 & x & Hm1 & Hz1 & (l1 & Hl1 & Hx) & Et1).
  destruct (l2p_record l_to_r m os2 a2 n2 p2 E2 Hp2) as (map2 & y & Hm2 & Hz2 & (l2 & Hl2 & Hy) & Et2).
  assert (maps_record m os1 x) as Hr1 by (eexists map1, _, l1; split_and!; try done; congruence).
  assert (maps_record m os2 y) as Hr2 by (eexists map2, _, l2; split_and!; try done; congruence).
  destruct (Hsane x (or_introl Hr1)) as [Hs1 Hi1], (Hsane y (or_intror Hr2)) as [Hs2 Hi2].
  destruct (lci_translate_spec l_to_r x a1 n1) as (q1 & Eq1 & Hc1); try done.
  destruct (lci_translate_spec l_to_r y a2 n2) as (q2 & Eq2 & Hc2); try done.
  rewrite Et1 in Eq1. injection Eq1 as <-. rewrite Et2 in Eq2. injection Eq2 as <-.
  destruct Hc1 as [->|(_ & Hb1 & Hb2 & ->)]; [done|]. destruct Hc2 as [->|(_ & Hb3 & Hb4 & ->)]; [done|].
  specialize (Hdis x y Hr1 Hr2). lia.
Qed.

(** [set_lci] with a hint in the first chunk maps a record over an aligned
    run of chunks that were all free and keeps table and bitmap in agreement, or
    reports failure and changes nothing. *)
Theorem set_lci_places m os hint l x map n :
  lcis m !! l = Some x -> maps m !! os = Some map -> map_wf map -> l <> 0 ->
  chunks_of x = n -> 0 < n <= 512 -> 0 <= hint < CHUNK_SIZE ->
  exists r m', set_lci m os hint l = Ok (r, m') /\
    ((r = INVALID_LOGICAL_ADDRESS /\ m' = m /\ exists k, 0 <= k < n /\ entry map k <> 0) \/
     exists i map', r = i * CHUNK_SIZE /\ placed m m' os l x map map' i n).
Proof. apply set_lci_spec. Qed.

(** Mapping a record that was nowhere in the table and detaching it again
    restores every entry, and leaves the record disabled. *)
Theorem set_detach_roundtrip m os hint l x map n r m1 :
  lcis m !! l = Some x -> maps m !! os = Some map -> map_wf map -> l <> 0 ->
  chunks_of x = n -> 0 < n <= 512 -> 0 <= hint < CHUNK_SIZE ->
  (forall k, 0 <= k < 512 -> entry map k <> l) ->
  set_lci m os hint l = Ok (r, m1) -> r <> INVALID_LOGICAL_ADDRESS ->
  exists m2 map2 x2, detach_lci m1 l = Ok (0, m2) /\
    maps m2 !! os = Some map2 /\ map_wf map2 /\ (forall k, 0 <= k < 512 -> entry map2 k = entry map k) /\
    lcis m2 !! l = Some x2 /\ truth (Z.land (lci_flags x2) LCI_DISABLED) = true.
Proof.
  intros Hx Hmap Hwf Hl Hn Hn0 Hh Hfresh E Hr.
  destruct (set_lci_spec m os hint l x map n) as (r' & m' & E' & Hcase); try done.
  rewrite E in E'. injection E' as <- <-. destruct Hcase as [(-> & _ & _)|(i & map1 & -> & Hp)]; [done|].
  destruct Hp as (Hi & Hin & -> & Hwf1 & Hfree & Hent). pose proof (chunk_offset_range (lci_laddr x)) as Ho.
  set (la := i * CHUNK_SIZE + chunk_offset_addr (lci_laddr x)) in *.
  assert (chunk_number_addr la = i) as Hla.
  { unfold chunk_number_addr, shr64, la, CHUNK_SIZE, LOG_CHUNKSIZE in *. rewrite Z.shiftr_div_pow2 by lia. dlia. }
  assert (is_u64 la) as Hlu by (unfold is_u64, la, CHUNK_SIZE, LOG_CHUNKSIZE in *; lia). clearbody la.
  destruct (detach_lci_spec (put_lci (put_map m os map1) l (set_lci_place x la os)) l (set_lci_place x la os) map1)
    as (c & map2 & Hc & Hrun & Ed & Hwf2 & He2); try done; cbn [lci_laddr lci_os set_lci_place] in *; rewrite ?Hla in *.
  - apply lookup_insert_eq.
  - apply lookup_insert_eq.
  - lia.
  - rewrite Hent by lia. zcases.
  - assert (c = n) as ->.
    { destruct Hrun as (_ & H5 & Hall & Hend).
      destruct (Z.ltb_spec c n).
      - destruct Hend as [?|Hend]; [lia|]. exfalso. apply Hend. rewrite Hent by lia. zcases.
      - destruct (Z.ltb_spec n c); [|lia]. exfalso. apply (Hfresh (i + n)); [lia|].
        rewrite <- (Hall (i + n)) by lia. rewrite Hent by lia. zcases. }
    eexists _, map2, (lci_disable (set_lci_place x la os)). split; [exact Ed|].
    split; [apply lookup_insert_eq|]. split; [done|]. split.
    + intros k Hk. rewrite He2, Hent by lia. destruct (Z.leb_spec i k), (Z.ltb_spec k (i + n)); simpl; try done.
      symmetry. apply Hfree. lia.
    + split; [apply lookup_insert_eq|]. cbn [lci_flags lci_disable set_lci_flags]. change LCI_DISABLED with (2 ^ 0).
      rewrite truth_land_pow2, Z.lor_spec by lia. apply orb_true_r.
Qed.

(** ** Witnesses: partition 1 has record 10 in its first chunk, partition 2 has
    record 20 in its first chunk; record 30 is not mapped yet *)
Definition demo_lci (raddr os : Z) : logical_chunk_info := Lci raddr 0 CHUNK_SIZE 0 0 Phys_mem_ops os.
Definition demo_map (l : Z) : logical_memory_map := Lmm (l :: repeat 0 511) (Lbm 512 (1 :: repeat 0 7)).
Definition demo : memory :=
  Memory (<[10 := demo_lci (8 * CHUNK_SIZE) 1]> (<[20 := demo_lci (9 * CHUNK_SIZE) 2]>
           (<[30 := demo_lci (5 * CHUNK_SIZE) 1]> ∅)))
    (<[1 := demo_map 10]> (<[2 := demo_map 20]> ∅)).
Definition no_l_to_r (_ : Z) (_ : logical_chunk_info) (_ _ : Z) : res Z := Ok INVALID_PHYSICAL_ADDRESS.

Lemma demo_map_entry l k : 0 <= k < 512 -> entry (demo_map l) k = if k =? 0 then l else 0.
Proof.
  intros Hk. unfold entry, demo_map. cbn [p_lci]. destruct (Z.eqb_spec k 0) as [->|Hne]; [done|].
  destruct (Z.to_nat k) as [|n] eqn:E; [lia|]. cbn [lookup list_lookup].
  destruct (repeat 0 511 !! n) as [y|] eqn:Ey; [|done].
  by apply list_elem_of_lookup_2, list_elem_of_In, (repeat_spec 511) in Ey as ->.
Qed.

Lemma demo_map_wf l : l <> 0 -> map_wf (demo_map l).
Proof.
  intros Hl. split; [reflexivity| |reflexivity|].
  - split; [simpl; lia|reflexivity|]. apply Forall_cons_2; [unfold is_u64; lia|].
    apply Forall_forall. intros w Hw. apply list_elem_of_In, (repeat_spec 7) in Hw as ->. unfold is_u64. lia.
  - intros k Hk. rewrite demo_map_entry by done. unfold lbit, UVAL_BITS. cbn [chunk_usage demo_map lbm_bits].
    destruct (Z.eqb_spec k 0) as [->|Hne].
    { destruct (Z.eqb_spec l 0); [done|]. reflexivity. }
    destruct (Z.to_nat (k / 64)) as [|n] eqn:E.
    + cbn [lookup list_lookup]. rewrite testbit_one. rewrite Z.mod_small by dlia. by destruct (Z.eqb_spec k 0).
    + cbn [lookup list_lookup]. destruct (repeat 0 7 !! n) as [y|] eqn:Ey; [|done].
      apply list_elem_of_lookup_2, list_elem_of_In, (repeat_spec 7) in Ey as ->. apply Z.bits_0.
Qed.

Lemma demo_records os x :
  maps_record demo os x -> os = 1 /\ x = demo_lci (8 * CHUNK_SIZE) 1 \/ os = 2 /\ x = demo_lci (9 * CHUNK_SIZE) 2.
Proof.
  intros (map & i & l & Hm & Hi & Hl & Hx).
  assert (forall c, p_lci (demo_map c) !! i = Some l -> l = c) as Hone.
  { intros c H. destruct i as [|i]; cbn in H; [by injection H as <-|].
    by apply list_elem_of_lookup_2, list_elem_of_In, (repeat_spec 511) in H as ->. }
  unfold demo in Hm. cbn [maps] in Hm. apply lookup_insert_Some in Hm as [[<- <-]|[_ Hm]].
  - left. apply Hone in Hi as ->. split; [done|]. vm_compute in Hx. by injection Hx as <-.
  - apply lookup_insert_Some in Hm as [[<- <-]|[_ Hm]]; [|by rewrite lookup_empty in Hm].
    right. apply Hone in Hi as ->. split; [done|]. vm_compute in Hx. by injection Hx as <-.
Qed.

Lemma demo_sane os x : maps_record demo os x -> lci_sane x /\ lci_raddr x <> INVALID_PHYSICAL_ADDRESS.
Proof. intros [[_ ->]|[_ ->]]%demo_records; vm_compute; repeat split; discriminate. Qed.

Lemma l2p_contained_witness :
  exists x, maps_record demo 1 x /\ truth (Z.land (lci_flags x) LCI_DISABLED) = false /\
    lci_laddr x <= 4096 /\ 4096 + 16 <= lci_laddr x + lci_size x /\
    (8 * CHUNK_SIZE + 4096) - lci_raddr x = 4096 - lci_laddr x /\
    lci_raddr x <= 8 * CHUNK_SIZE + 4096 /\ 8 * CHUNK_SIZE + 4096 + 16 <= lci_raddr x + lci_size x.
Proof.
  apply (l2p_contained no_l_to_r demo 1 4096 16); [apply demo_sane|lia|lia|lia| |].
  - vm_compute. reflexivity.
  - vm_compute. discriminate.
Defined.

Lemma l2p_isolation_witness :
  8 * CHUNK_SIZE + 4096 + 16 <= 9 * CHUNK_SIZE + 4096 \/ 9 * CHUNK_SIZE + 4096 + 16 <= 8 * CHUNK_SIZE + 4096.
Proof.
  apply (l2p_isolation no_l_to_r demo 1 2 4096 16 4096 16); try lia.
  - intros x [H|H]; by apply demo_sane in H.
  - intros x y [[_ ->]|[? _]]%demo_records [[? _]|[_ ->]]%demo_records; try done.
    left. vm_compute. discriminate.
  - vm_compute. reflexivity.
  - vm_compute. discriminate.
  - vm_compute. reflexivity.
  - vm_compute. discriminate.
Defined.

Lemma set_lci_places_witness :
  exists r m', set_lci demo 1 0 30 = Ok (r, m') /\
    ((r = INVALID_LOGICAL_ADDRESS /\ m' = demo /\ exists k, 0 <= k < 1 /\ entry (demo_map 10) k <> 0) \/
     exists i map', r = i * CHUNK_SIZE /\
       placed demo m' 1 30 (demo_lci (5 * CHUNK_SIZE) 1) (demo_map 10) map' i 1).
Proof.
  apply set_lci_places;
    [reflexivity|reflexivity|by apply demo_map_wf|lia|reflexivity|lia|split; [lia|reflexivity]].
Defined.

Lemma set_detach_roundtrip_witness :
  exists m1 m2 map2 x2, set_lci demo 1 0 30 = Ok (CHUNK_SIZE, m1) /\ detach_lci m1 30 = Ok (0, m2) /\
    maps m2 !! 1 = Some map2 /\ map_wf map2 /\
    (forall k, 0 <= k < 512 -> entry map2 k = entry (demo_map 10) k) /\
    lcis m2 !! 30 = Some x2 /\ truth (Z.land (lci_flags x2) LCI_DISABLED) = true.
Proof.
  destruct (set_lci demo 1 0 30) as [[r m1]|] eqn:E; [|vm_compute in E; discriminate].
  assert (r = CHUNK_SIZE) as -> by (vm_compute in E; injection E as <- _; reflexivity).
  destruct (set_detach_roundtrip demo 1 0 30 (demo_lci (5 * CHUNK_SIZE) 1) (demo_map 10) 1 CHUNK_SIZE m1)
    as (m2 & map2 & x2 & H);
    [reflexivity|reflexivity|by apply demo_map_wf|lia|reflexivity|lia|split; [lia|reflexivity]| |exact E| |].
  - intros k Hk. rewrite demo_map_entry by exact Hk. by destruct (k =? 0).
  - vm_compute. discriminate.
  - exists m1, m2, map2, x2. split; [reflexivity|exact H].
Defined.

(** ** What the checks let through *)

(** [set_lci] tests the bits from the hint's chunk up to the size, so with a hint
    at or past its size it tests none: mapping a second record at chunk 1 replaces
    the one mapped there. *)
Example set_lci_overwrites :
  res_bind (set_lci demo 1 CHUNK_SIZE 30) (fun '(_, m) =>
  res_bind (set_lci m 1 CHUNK_SIZE 20) (fun '(r, m) =>
  res_bind (laddr_to_lci m 1 CHUNK_SIZE) (fun l => Ok (r, l)))) = Ok (CHUNK_SIZE, 20).
Proof. vm_compute. reflexivity. Qed.

(** An address past the table is not refused: it indexes past its 512 entries. *)
Example l2p_past_table :
  logical_to_physical_address no_l_to_r demo 1 (512 * CHUNK_SIZE) 8 = Fault Out_of_bounds.
Proof. vm_compute. reflexivity. Qed.

(** The end of the range is computed modulo 2^64, so a length that wraps passes
    for a range that is not the record's. *)
Example l2p_wraps :
  logical_to_physical_address no_l_to_r demo 1 4096 (2 ^ 64 - 16) = Ok (8 * CHUNK_SIZE + 4096).
Proof. vm_compute. reflexivity. Qed.
