(* ===== verification/Resource.v ===== *)
(** * Resource: granting, accepting and rescinding resources

    [hype/resource.c] and the hypervisor calls on it ([hype/h_grant_logical.c],
    [hype/h_accept_logical.c], [hype/h_rescind_logical.c],
    [hype/h_resource_transfer.c]).  A granted resource is a child of the one it was
    cut from, so a resource is the root of everything derived from it, and
    rescinding it has to reach all of that.  A partition's list of its resources is
    a ring of [Dlist], since the code detaches nodes that are on no list any more;
    a resource's children, whose nodes are initialised when they are taken off, are the
    list of them.  A resource is addressed by a pointer, 0 is [NULL].  Operations
    run one after the other, except that a rescind waits between its two halves; the
    locks of resources and partitions do not appear. *)

From S2P Require Import Prelude Hcall Dlist.

Definition RES_MAPPED : Z := 1.
Definition RES_RESCINDED : Z := 2.
Definition MEM_ADDR : Z := 1.
Definition MMIO_ADDR : Z := 2.
Definition INTR_SRC : Z := 3.
Definition MAX_TYPE : Z := 6.

(** [struct sys_resource] *)
Record sys_resource := SysResource {
  sr_cookie : Z;
  sr_type : Z;
  sr_flags : Z;
  sr_owner : Z;
  sr_parent : Z;
  sr_children : list Z
}.

(** Work handed to [rcu_defer]. *)
Inductive callback := Rescind_cleanup (todo : list Z) | Death_cleanup (todo : list Z) (os : Z).

(** The resources, the nodes of the partitions' lists of them, the last cookie
    given out, the deferred work, and the rest of the system, of type [W], that the
    actions of the resource types work on.  The node [sr_os_res] of the resource at
    [r] has the address [r], the head [os_res] of the partition at [os] the
    address [po_head os]. *)
Record state (W : Type) := State {
  srs : gmap Z sys_resource;
  os_res : dheap;
  keys : Z;
  deferred : list callback;
  world : W
}.
Arguments State {W}.
Arguments srs {W}.
Arguments os_res {W}.
Arguments keys {W}.
Arguments deferred {W}.
Arguments world {W}.

Definition po_head (os : Z) : Z := - os.

(** [struct resource_action]: the operations of one type of resource. *)
Record resource_action (W : Type) := ResourceAction {
  grant_fn : option (state W -> Z -> Z -> Z -> Z -> Z -> Z -> res (Z * Z * state W));
  accept_fn : W -> Z -> Z -> res (Z * Z * W);
  invalidate_fn : W -> Z -> res (Z * W);
  return_fn : W -> Z -> res (Z * W);
  rescind_fn : W -> Z -> res (Z * W);
  conflict_fn : W -> Z -> Z -> res Z
}.
Arguments ResourceAction {W}.
Arguments grant_fn {W}.
Arguments accept_fn {W}.
Arguments invalidate_fn {W}.
Arguments return_fn {W}.
Arguments rescind_fn {W}.
Arguments conflict_fn {W}.

Definition set_sr_flags (r : sys_resource) (f : Z) : sys_resource :=
  SysResource (sr_cookie r) (sr_type r) f (sr_owner r) (sr_parent r) (sr_children r).
Definition set_children (r : sys_resource) (l : list Z) : sys_resource :=
  SysResource (sr_cookie r) (sr_type r) (sr_flags r) (sr_owner r) (sr_parent r) l.
Definition set_parent (r : sys_resource) (p : Z) : sys_resource :=
  SysResource (sr_cookie r) (sr_type r) (sr_flags r) (sr_owner r) p (sr_children r).
Definition set_cookie (r : sys_resource) (c : Z) : sys_resource :=
  SysResource c (sr_type r) (sr_flags r) (sr_owner r) (sr_parent r) (sr_children r).
Definition set_sr_owner (r : sys_resource) (o : Z) : sys_resource :=
  SysResource (sr_cookie r) (sr_type r) (sr_flags r) o (sr_parent r) (sr_children r).

(** Taking a child off the list it is on: [dlist_detach] of its [sr_siblings], followed by [dlist_init]. *)
Definition off_siblings (x : Z) (l : list Z) : list Z := filter (fun y => y <> x) l.

Section Ops.
Context {W : Type} (res_actions : list (option (resource_action W))).

Definition get_sr (s : state W) (r : Z) : res sys_resource := of_option Null_deref (srs s !! r).
Definition put_sr (s : state W) (r : Z) (x : sys_resource) : state W :=
  State (<[r := x]> (srs s)) (os_res s) (keys s) (deferred s) (world s).
Definition put_heap (s : state W) (h : dheap) : state W := State (srs s) h (keys s) (deferred s) (world s).
Definition put_world (s : state W) (w : W) : state W :=
  State (srs s) (os_res s) (keys s) (deferred s) w.
Definition rcu_defer (s : state W) (c : callback) : state W :=
  State (srs s) (os_res s) (keys s) (deferred s ++ [c]) (world s).

(** [dlist_init] of a node in a new object. *)
Definition new_node (h : dheap) (p : Z) : dheap := DHeap (<[p := p]> (dl_next h)) (<[p := p]> (dl_prev h)).
Definition del_node (h : dheap) (p : Z) : dheap := DHeap (delete p (dl_next h)) (delete p (dl_prev h)).

(** The list of a new partition, and of one that is freed. *)
Definition init_os_res (s : state W) (os : Z) : state W := put_heap s (new_node (os_res s) (po_head os)).
Definition free_os_res (s : state W) (os : Z) : state W := put_heap s (del_node (os_res s) (po_head os)).

(** A loop over a list visits no more nodes than there are. *)
Definition list_fuel (s : state W) : nat := S (size (dl_next (os_res s))).

Definition get_action (t : Z) : res (resource_action W) :=
  let! a := aget res_actions t in of_option Null_deref a.

(** [get_sys_resource]: the result and what [*sr] points to afterwards. *)
Fixpoint find_cookie (fuel : nat) (s : state W) (os curr cookie sr : Z) : res (Z * Z) :=
  if curr =? po_head os then Ok (H_Parameter, sr)
  else
    match fuel with
    | O => Fault Out_of_fuel
    | S fuel =>
        let! x := get_sr s curr in
        if sr_cookie x =? cookie then
          Ok (if truth (Z.land (sr_flags x) RES_RESCINDED) then H_Rescinded else H_Success, curr)
        else
          let! next := dlist_next (os_res s) curr in
          find_cookie fuel s os next cookie curr
    end.

Definition get_sys_resource (s : state W) (os cookie : Z) : res (Z * Z) :=
  let! curr := dlist_next (os_res s) (po_head os) in
  find_cookie (list_fuel s) s os curr cookie 0.

(** [resource_init], on the record embedded in a new object: the record, and the
    object with its node on no list. *)
Definition resource_init (parent type : Z) : sys_resource := SysResource 0 type 0 0 parent [].
Definition init_sr (s : state W) (r parent type : Z) : state W :=
  put_heap (put_sr s r (resource_init parent type)) (new_node (os_res s) r).

Fixpoint conflict_loop (fuel : nat) (s : state W) (os curr sr : Z) : res Z :=
  if curr =? po_head os then Ok H_Success
  else
    match fuel with
    | O => Fault Out_of_fuel
    | S fuel =>
        let! x := get_sr s curr in
        let! y := get_sr s sr in
        let! conflict :=
          if negb (truth (Z.land (sr_flags x) RES_RESCINDED)) && (sr_type x =? sr_type y) then
            let! ra := get_action (sr_type y) in conflict_fn ra (world s) curr sr
          else Ok 0 in
        if truth conflict then Ok H_UNAVAIL
        else let! next := dlist_next (os_res s) curr in conflict_loop fuel s os next sr
    end.

Definition resource_conflict (s : state W) (os sr : Z) : res Z :=
  let! curr := dlist_next (os_res s) (po_head os) in
  conflict_loop (list_fuel s) s os curr sr.

Definition insert_resource (s : state W) (r os : Z) : res (Z * state W) :=
  let! x := get_sr s r in
  let! rescinded :=
    if sr_parent x =? 0 then Ok false
    else let! p := get_sr s (sr_parent x) in Ok (truth (Z.land (sr_flags p) RES_RESCINDED)) in
  if rescinded : bool then Ok (H_Rescinded, s)
  else
    let! s :=
      if sr_parent x =? 0 then Ok s
      else let! p := get_sr s (sr_parent x) in
           Ok (put_sr s (sr_parent x) (set_children p (sr_children p ++ [r]))) in
    let cookie := add64 (keys s) 1 in
    let s := State (srs s) (os_res s) cookie (deferred s) (world s) in
    let! x := get_sr s r in
    let s := put_sr s r (set_sr_owner (set_cookie x cookie) os) in
    let! h := dlist_ins_before (os_res s) r (po_head os) in
    Ok (s64 cookie, put_heap s h).

(** The error and the logical address the resource was bound to. *)
Definition accept_locked_resource (s : state W) (r : Z) : res (Z * Z * state W) :=
  let! x := get_sr s r in
  let! ra := get_action (sr_type x) in
  let! (err, retval, w) := accept_fn ra (world s) (sr_owner x) r in
  let s := put_world s w in
  if err =? H_Success then
    let! x := get_sr s r in
    Ok (err, retval, put_sr s r (set_sr_flags x (Z.lor (sr_flags x) RES_MAPPED)))
  else Ok (err, retval, s).

Definition rescind_new (s : state W) (ra : resource_action W) (r : Z) : res (state W) :=
  let! (_, w) := rescind_fn ra (world s) r in Ok (put_world s w).

(** The error or cookie, and the new resource ([*sr]) when it was inserted. *)
Definition grant_resource (s : state W) (src flags hi lo length dest : Z)
  : res (Z * option Z * state W) :=
  if Z.of_nat (List.length res_actions) <=? flags then Ok (H_UNAVAIL, None, s)
  else
    let! ra := get_action flags in
    match grant_fn ra with
    | None => Ok (H_UNAVAIL, None, s)
    | Some grant =>
        let! (err, r, s) := grant s src flags hi lo length dest in
        if negb (err =? H_Success) then Ok (err, None, s)
        else
          let! x := get_sr s r in
          if truth (Z.land (sr_flags x) RES_RESCINDED) then
            let! s := rescind_new s ra r in Ok (H_Rescinded, None, s)
          else
            let! (err, s) := insert_resource s r dest in
            if 0 <? err then Ok (err, Some r, s)
            else let! s := rescind_new s ra r in Ok (err, None, s)
    end.

(** ** Rescinding *)
Definition mark_for_rescind (s : state W) (r : Z) : res (bool * state W) :=
  let! x := get_sr s r in
  if truth (Z.land (sr_flags x) RES_RESCINDED) then Ok (false, s)
  else Ok (true, put_sr s r (set_sr_flags x (Z.lor (sr_flags x) RES_RESCINDED))).

(** [if (sr->sr_flags & RES_MAPPED) ra->invalidate_fn(sr)] *)
Definition invalidate (s : state W) (ra : resource_action W) (r : Z) : res (state W) :=
  let! x := get_sr s r in
  if truth (Z.land (sr_flags x) RES_MAPPED) then
    let! (_, w) := invalidate_fn ra (world s) r in Ok (put_world s w)
  else Ok s.

(** One child of the node being walked: taken off its parent, and appended to the
    list unless it is to be avoided or already marked. *)
Definition walk_child (s : state W) (ra : resource_action W) (avoid c : Z) (nodes : list Z)
  : res (list Z * state W) :=
  let! x := get_sr s c in
  let s := put_sr s c (set_parent x 0) in
  if sr_owner x =? avoid then Ok (nodes, s)
  else
    let! (ok, s) := mark_for_rescind s c in
    if ok : bool then
      let! s := invalidate s ra c in
      Ok (nodes ++ [c], s)
    else Ok (nodes, s).

Fixpoint walk_children (fuel : nat) (s : state W) (ra : resource_action W) (avoid r : Z) (nodes : list Z)
  : res (list Z * state W) :=
  match fuel with
  | O => Fault Out_of_fuel
  | S fuel =>
      let! x := get_sr s r in
      match sr_children x with
      | [] => Ok (nodes, s)
      | c :: rest =>
          let s := put_sr s r (set_children x rest) in
          let! (nodes, s) := walk_child s ra avoid c nodes in
          walk_children fuel s ra avoid r nodes
      end
  end.

(** The walk: [pre] has been walked, [post] is the list from [curr] on. *)
Fixpoint walk (fuel : nat) (s : state W) (ra : resource_action W) (avoid : Z) (pre post : list Z)
  : res (list Z * state W) :=
  match post with
  | [] => Ok (pre, s)
  | r :: post =>
      match fuel with
      | O => Fault Out_of_fuel
      | S fuel =>
          let! x := get_sr s r in
          let! (post, s) := walk_children (S (length (sr_children x))) s ra avoid r post in
          walk fuel s ra avoid (pre ++ [r]) post
      end
  end.

Definition walk_fuel (s : state W) : nat := S (size (srs s)).

(** The result, the list of nodes, and the state; [nodes] are those already on
    the list. *)
Definition forced_rescind_mark (s : state W) (start : Z) (nodes : list Z) (avoid : Z)
  : res (Z * list Z * state W) :=
  let! (ok, s) := mark_for_rescind s start in
  if negb ok then Ok (H_Rescinded, nodes, s)
  else
    let! x := get_sr s start in
    let! s :=
      if sr_parent x =? 0 then Ok s
      else let! p := get_sr s (sr_parent x) in
           Ok (put_sr s (sr_parent x) (set_children p (off_siblings start (sr_children p)))) in
    let! ra := get_action (sr_type x) in
    let! s := invalidate s ra start in
    let! (nodes, s) := walk (walk_fuel s) s ra avoid nodes [start] in
    Ok (0, nodes, s).

(** One node of the clean-up, which goes from the end of the list.  The owner,
    whose lock is taken, must still be there; the node may have been taken off the
    owner's list before, and then its pointers are those it had there. *)
Definition cleanup_node (s : state W) (r : Z) : res (state W) :=
  let! x := get_sr s r in
  let! _ := get_next (os_res s) (po_head (sr_owner x)) in
  let! h := dlist_detach (os_res s) r in
  let s := put_heap s h in
  cassert (truth (Z.land (sr_flags x) RES_RESCINDED))
    (cassert (match sr_children x with [] => true | _ => false end)
      (let! ra := get_action (sr_type x) in
       let! s :=
         if truth (Z.land (sr_flags x) RES_MAPPED) then
           let! (_, w) := return_fn ra (world s) r in Ok (put_world s w)
         else Ok s in
       rescind_new s ra r)).

Fixpoint cleanup_nodes (s : state W) (rev_nodes : list Z) : res (state W) :=
  match rev_nodes with
  | [] => Ok s
  | r :: l => let! s := cleanup_node s r in cleanup_nodes s l
  end.

Definition forced_rescind_cleanup (s : state W) (nodes : list Z) : res (state W) :=
  cleanup_nodes s (rev nodes).

Definition force_rescind_resource (s : state W) (r : Z) : res (Z * state W) :=
  let! (err, todo, s) := forced_rescind_mark s r [] 0 in
  if err =? H_Rescinded then Ok (H_Success, s)
  else cassert (err =? H_Success) (Ok (err, rcu_defer s (Rescind_cleanup todo))).

(** [partition_death_cleanup]: rescind everything a partition owns. *)
Fixpoint death_loop (fuel : nat) (s : state W) (os curr : Z) (todo : list Z) : res (list Z * state W) :=
  if curr =? po_head os then Ok (todo, s)
  else
    match fuel with
    | O => Fault Out_of_fuel
    | S fuel =>
        let! x := get_sr s curr in
        let! next := dlist_next (os_res s) curr in
        let! h := dlist_detach (os_res s) curr in
        let s := put_heap s h in
        if truth (Z.land (sr_flags x) RES_RESCINDED) then death_loop fuel s os next todo
        else
          let! (_, todo, s) := forced_rescind_mark s curr todo os in
          let! curr := dlist_next (os_res s) (po_head os) in
          death_loop fuel s os curr todo
    end.

Definition partition_death_cleanup (s : state W) (os : Z) : res (Z * state W) :=
  let! curr := dlist_next (os_res s) (po_head os) in
  let! (todo, s) := death_loop (list_fuel s) s os curr [] in
  Ok (0, rcu_defer s (Death_cleanup todo os)).

(** ** Hypervisor calls: the result, the result register when it is set, and the
    state *)
Definition resource_transfer (s : state W) (os type hi lo size target : Z)
  : res (Z * option Z * state W) :=
  if negb (truth (Z.land type (Z.lor (Z.lor MEM_ADDR MMIO_ADDR) INTR_SRC))) then Ok (H_Parameter, None, s)
  else
    let! (rc, sr, s) := grant_resource s os type hi lo size target in
    if 0 <=? rc then
      let! r := of_option Null_deref sr in
      let! (rc, ret, s) := accept_locked_resource s r in
      if rc =? H_Success then Ok (H_Success, Some ret, s)
      else
        let! (rc, _, s) := grant_resource s target type hi lo size os in
        cassert (0 <=? rc) (Ok (H_Parameter, None, s))
    else Ok (H_Parameter, None, s).

Context (os_lookup : Z -> option Z).

Definition h_resource_transfer (s : state W) (os type hi lo size lpid : Z)
  : res (Z * option Z * state W) :=
  match os_lookup lpid with
  | None => Ok (H_Parameter, None, s)
  | Some target => resource_transfer s os type hi lo size target
  end.

Definition h_accept_logical (s : state W) (os cookie : Z) : res (Z * option Z * state W) :=
  let! (err, sr) := get_sys_resource s os cookie in
  if negb (err =? H_Success) then Ok (err, None, s)
  else
    let! (err, retval, s) := accept_locked_resource s sr in
    Ok (err, if err =? H_Success then Some retval else None, s).

Definition h_grant_logical (s : state W) (os flags hi lo length unit_address : Z)
  : res (Z * option Z * state W) :=
  if negb (truth (Z.land flags (Z.lor (Z.lor MEM_ADDR MMIO_ADDR) INTR_SRC))) then Ok (H_Parameter, None, s)
  else
    match (if unit_address =? H_SELF_LPID then Some os else os_lookup unit_address) with
    | None => Ok (H_Parameter, None, s)
    | Some dest =>
        let! (err, _, s) := grant_resource s os flags hi lo length dest in
        if 0 <=? err then Ok (H_Success, Some err, s) else Ok (err, None, s)
    end.

(** [rcu_pause] waits until the calls running on other processors are over; deferred
    work, and other calls, change the state meanwhile: [rcu_pause s] is the state
    when it returns. *)
Context (rcu_pause : state W -> res (state W)).

Definition h_rescind_logical (s : state W) (os flags cookie : Z) : res (Z * state W) :=
  let! (err, sr) := get_sys_resource s os cookie in
  if negb (err =? H_Success) then Ok (err, s)
  else
    let! x := get_sr s sr in
    if negb (truth (Z.land flags 1)) &&
       (truth (Z.land (sr_flags x) RES_MAPPED) || negb (match sr_children x with [] => true | _ => false end))
    then Ok (H_Resource, s)
    else
      let! (err, todo, s) := forced_rescind_mark s sr [] 0 in
      if err =? H_Rescinded then Ok (H_Success, s)
      else
        let! s := rcu_pause s in
        let! s := forced_rescind_cleanup s todo in
        Ok (0, s).
End Ops.

(** ** What rescinding needs of the actions

    [there w r]: the object behind [r] exists; [ready w r]: it is bound in its
    owner's space; [invalid w r]: no further use of it succeeds.  A bound object can
    be invalidated, and then be given back; an existing one can be destroyed.  None
    of this faults, or undoes any of the three for anything. *)
Definition keeps_at {W} (there ready invalid : W -> Z -> Prop) (w w' : W) (r : Z) : Prop :=
  (ready w r -> ready w' r) /\ (invalid w r -> invalid w' r) /\ (there w r -> there w' r).
Definition keeps {W} (there ready invalid : W -> Z -> Prop) (w w' : W) : Prop :=
  forall r, keeps_at there ready invalid w w' r.

Class RescindLaws {W} (there ready invalid : W -> Z -> Prop) (ra : resource_action W) : Prop := {
  law_invalidate : forall w r, ready w r ->
    exists e w', invalidate_fn ra w r = Ok (e, w') /\ invalid w' r /\ keeps there ready invalid w w';
  law_return : forall w r, ready w r -> invalid w r ->
    exists e w', return_fn ra w r = Ok (e, w') /\ keeps there ready invalid w w';
  law_rescind : forall w r, there w r ->
    exists e w', rescind_fn ra w r = Ok (e, w') /\ keeps there ready invalid w w'
}.

Lemma keeps_refl {W} (there ready invalid : W -> Z -> Prop) w : keeps there ready invalid w w.
Proof. done. Qed.

Lemma keeps_trans {W} (there ready invalid : W -> Z -> Prop) w1 w2 w3 :
  keeps there ready invalid w1 w2 -> keeps there ready invalid w2 w3 -> keeps there ready invalid w1 w3.
Proof. intros H1 H2 r. destruct (H1 r) as (?&?&?), (H2 r) as (?&?&?). unfold keeps_at; auto. Qed.

(** ** The tree *)
Definition marked (x : sys_resource) : bool := truth (Z.land (sr_flags x) RES_RESCINDED).
Definition mapped (x : sys_resource) : bool := truth (Z.land (sr_flags x) RES_MAPPED).

Lemma marked_bit x : marked x = Z.testbit (sr_flags x) 1.
Proof. apply (truth_land_pow2 _ 1). lia. Qed.
Lemma mapped_bit x : mapped x = Z.testbit (sr_flags x) 0.
Proof. apply (truth_land_pow2 _ 0). lia. Qed.

Lemma marked_or x b : marked (set_sr_flags x (Z.lor (sr_flags x) (if b : bool then RES_RESCINDED else 0))) = marked x || b.
Proof. rewrite !marked_bit. cbn [sr_flags set_sr_flags]. rewrite Z.lor_spec. by destruct b. Qed.

Section Rescind.
Context {W : Type} (there ready invalid : W -> Z -> Prop) (ra : resource_action W).
Context {laws : RescindLaws there ready invalid ra}.

(** What a rescind of [start] has to reach: everything derived from it, apart
    from what is already rescinded or belongs to [avoid]. *)
Inductive reach (s : state W) (avoid start : Z) : Z -> Prop :=
  | Reach_start : reach s avoid start start
  | Reach_child p x c y :
      reach s avoid start p -> srs s !! p = Some x -> c ∈ sr_children x ->
      srs s !! c = Some y -> sr_owner y <> avoid -> marked y = false -> reach s avoid start c.

(** Children exist. *)
Definition tree_ok (s : state W) : Prop :=
  forall p x c, srs s !! p = Some x -> c ∈ sr_children x -> is_Some (srs s !! c).

(** The walk has turned [s0] into [s], with [P] walked and [Q] on the list. *)
Record winv (s0 : state W) (avoid start : Z) (P Q : list Z) (s : state W) : Prop := {
  w_rec : forall r x0, srs s0 !! r = Some x0 ->
    exists x, srs s !! r = Some x /\ sr_type x = sr_type x0 /\ sr_owner x = sr_owner x0 /\
      mapped x = mapped x0 /\ marked x = (marked x0 || bool_decide (r ∈ P ++ Q)) /\
      exists l, sr_children x0 = l ++ sr_children x /\
        forall c y, c ∈ l -> srs s0 !! c = Some y -> sr_owner y <> avoid -> marked y = false -> c ∈ P ++ Q;
  w_dom : forall r, srs s0 !! r = None -> srs s !! r = None;
  w_nodup : NoDup (P ++ Q);
  w_reach : forall r, r ∈ P ++ Q -> reach s0 avoid start r /\ is_Some (srs s0 !! r);
  w_inval : forall r x0, r ∈ P ++ Q -> srs s0 !! r = Some x0 -> mapped x0 = true -> invalid (world s) r;
  w_walked : forall r x, r ∈ P -> srs s !! r = Some x -> sr_children x = [];
  w_world : keeps there ready invalid (world s0) (world s);
  w_lists : os_res s = os_res s0
}.

(** The effect of walking one child [c] of [r]. *)
Record child_step (s s' : state W) (r c : Z) (rest : list Z) (fresh : bool) : Prop := {
  cs_rec : forall q x, srs s !! q = Some x ->
    exists x', srs s' !! q = Some x' /\ sr_type x' = sr_type x /\ sr_owner x' = sr_owner x /\
      mapped x' = mapped x /\ marked x' = (marked x || (fresh && bool_decide (q = c))) /\
      sr_children x' = (if decide (q = r) then rest else sr_children x);
  cs_dom : forall q, srs s !! q = None -> srs s' !! q = None;
  cs_inval : forall x, fresh = true -> srs s !! c = Some x -> mapped x = true -> invalid (world s') c;
  cs_world : keeps there ready invalid (world s) (world s');
  cs_lists : os_res s' = os_res s
}.

Lemma winv_step s0 avoid start P r post s s' c rest fresh x x0 y0 :
  winv s0 avoid start P (r :: post) s -> child_step s s' r c rest fresh ->
  srs s0 !! r = Some x0 -> srs s !! r = Some x -> sr_children x = c :: rest ->
  srs s0 !! c = Some y0 ->
  fresh = negb (sr_owner y0 =? avoid) && negb (marked y0 || bool_decide (c ∈ P ++ r :: post)) ->
  winv s0 avoid start P (r :: (if fresh then post ++ [c] else post)) s'.
Proof.
  intros Hw Hc Hx0 Hx Hch Hy0 Hf.
  set (Q' := r :: (if fresh then post ++ [c] else post)).
  assert (r ∈ P ++ r :: post) as Hr by lmem.
  assert (forall q, q ∈ P ++ Q' <-> q ∈ P ++ r :: post \/ (fresh = true /\ q = c)) as HQ.
  { intros q. unfold Q'. destruct fresh; rewrite ?elem_of_app, ?elem_of_cons, ?elem_of_app, ?list_elem_of_singleton;
      naive_solver. }
  assert (fresh = true -> (c ∉ P ++ r :: post) /\ sr_owner y0 <> avoid /\ marked y0 = false) as Hfresh.
  { intros ->. symmetry in Hf. apply andb_prop in Hf as [H1 H2]. apply negb_true_iff in H1, H2.
    apply orb_false_iff in H2 as [H2 H3]. apply Z.eqb_neq in H1. by apply bool_decide_eq_false in H3. }
  assert (reach s0 avoid start r) as Hrr by (by apply (w_reach _ _ _ _ _ _ Hw)).
  assert (c ∈ sr_children x0) as Hcx0.
  { destruct (w_rec _ _ _ _ _ _ Hw r x0 Hx0) as (x' & Hx' & _ & _ & _ & _ & l & Hl & _).
    rewrite Hx in Hx'. injection Hx' as <-. rewrite Hl, Hch. lmem. }
  split.
  - intros q z0 Hz0. destruct (w_rec _ _ _ _ _ _ Hw q z0 Hz0) as (z & Hz & Ht & Ho & Hm & Hk & l & Hl & Htk).
    destruct (cs_rec _ _ _ _ _ _ Hc q z Hz) as (z' & Hz' & Ht' & Ho' & Hm' & Hk' & Hch').
    exists z'. split; [done|]. split; [congruence|]. split; [congruence|]. split; [congruence|]. split.
    + rewrite Hk', Hk, <- orb_assoc. f_equal.
      destruct (bool_decide (q ∈ P ++ r :: post)) eqn:E1; simpl.
      * symmetry. apply bool_decide_eq_true. apply bool_decide_eq_true in E1. apply HQ. by left.
      * apply bool_decide_eq_false in E1. destruct fresh; simpl.
        -- apply bool_decide_ext. rewrite HQ. naive_solver.
        -- symmetry. apply bool_decide_eq_false. rewrite HQ. naive_solver.
    + destruct (decide (q = r)) as [->|Hne].
      * rewrite Hx in Hz. injection Hz as <-. exists (l ++ [c]). rewrite Hch', Hl, Hch, <- app_assoc. split; [done|].
        intros d y Hd Hy Hoy Hmy. apply HQ. apply elem_of_app in Hd as [Hd|Hd]; [left; by eapply Htk|].
        apply list_elem_of_singleton in Hd as ->. rewrite Hy0 in Hy. injection Hy as <-.
        destruct fresh; [by right|left]. symmetry in Hf. apply andb_false_iff in Hf as [Hf|Hf].
        -- apply negb_false_iff, Z.eqb_eq in Hf. done.
        -- apply negb_false_iff in Hf. rewrite Hmy in Hf. by apply bool_decide_eq_true in Hf.
      * exists l. rewrite Hch', Hl. split; [done|]. intros d y Hd Hy Hoy Hmy. apply HQ. left. by eapply Htk.
  - intros q Hq. apply (cs_dom _ _ _ _ _ _ Hc), (w_dom _ _ _ _ _ _ Hw), Hq.
  - pose proof (w_nodup _ _ _ _ _ _ Hw) as Hn. unfold Q'. destruct fresh; [|done].
    replace (P ++ r :: post ++ [c]) with ((P ++ r :: post) ++ [c]) by (by rewrite <- app_assoc).
    apply NoDup_app. split_and!; [done| |apply NoDup_singleton].
    intros q Hq Hq'. apply list_elem_of_singleton in Hq' as ->. by destruct (Hfresh eq_refl).
  - intros q Hq. apply HQ in Hq as [Hq|[Hfr ->]]; [by apply (w_reach _ _ _ _ _ _ Hw)|].
    destruct (Hfresh Hfr) as (_ & Ho & Hm). split; [|by exists y0]. by eapply Reach_child.
  - intros q z0 Hq Hz0 Hm. apply HQ in Hq as [Hq|[Hfr ->]].
    + apply (cs_world _ _ _ _ _ _ Hc q). by eapply (w_inval _ _ _ _ _ _ Hw).
    + destruct (w_rec _ _ _ _ _ _ Hw c z0 Hz0) as (z & Hz & _ & _ & Hmz & _).
      apply (cs_inval _ _ _ _ _ _ Hc z); [done|done|congruence].
  - intros q z Hq Hz. destruct (srs s !! q) as [z1|] eqn:E.
    2:{ apply (cs_dom _ _ _ _ _ _ Hc) in E. congruence. }
    destruct (cs_rec _ _ _ _ _ _ Hc q z1 E) as (z' & Hz' & _ & _ & _ & _ & Hch').
    rewrite Hz in Hz'. injection Hz' as <-. rewrite Hch'. destruct (decide (q = r)) as [->|].
    + exfalso. pose proof (w_nodup _ _ _ _ _ _ Hw) as Hn. apply NoDup_app in Hn as (_ & Hd & _).
      apply (Hd r Hq). lmem.
    + by apply (w_walked _ _ _ _ _ _ Hw q z1).
  - eapply keeps_trans; [apply (w_world _ _ _ _ _ _ Hw)|apply (cs_world _ _ _ _ _ _ Hc)].
  - rewrite (cs_lists _ _ _ _ _ _ Hc). apply (w_lists _ _ _ _ _ _ Hw).
Qed.

(** [walk_child], after the child [c] was taken off the list of [r]. *)
Lemma walk_child_step s r x c rest avoid nodes y :
  srs s !! r = Some x -> srs s !! c = Some y -> (mapped y = true -> ready (world s) c) ->
  let s1 := put_sr s r (set_children x rest) in
  let fresh := negb (sr_owner y =? avoid) && negb (marked y) in
  exists s', walk_child s1 ra avoid c nodes = Ok (if fresh then nodes ++ [c] else nodes, s') /\
    child_step s s' r c rest fresh.
Proof.
  intros Hx Hy Hready s1 fresh.
  set (y1 := if decide (c = r) then set_children x rest else y).
  assert (srs s1 !! c = Some y1) as Hy1.
  { unfold s1, y1. simpl. destruct (decide (c = r)) as [->|]; [apply lookup_insert_eq|].
    by rewrite lookup_insert_ne. }
  assert (sr_owner y1 = sr_owner y /\ sr_type y1 = sr_type y /\ sr_flags y1 = sr_flags y) as (Eo & Et & Ef).
  { unfold y1. destruct (decide (c = r)) as [->|]; [|done]. rewrite Hx in Hy. by injection Hy as <-. }
  assert (marked y1 = marked y) as Em by (unfold marked; by rewrite Ef).
  assert (mapped y1 = mapped y) as Ep by (unfold mapped; by rewrite Ef).
  unfold walk_child, get_sr. rewrite Hy1. cbn [of_option res_bind]. rewrite Eo.
  assert (forall fr y2 w, sr_type y2 = sr_type y1 -> sr_owner y2 = sr_owner y1 -> mapped y2 = mapped y1 ->
    marked y2 = marked y1 || fr -> sr_children y2 = sr_children y1 ->
    (fr = true -> mapped y = true -> invalid w c) -> keeps there ready invalid (world s) w ->
    child_step s (State (<[c := y2]> (srs s1)) (os_res s) (keys s) (deferred s) w) r c rest fr) as Hgen.
  { intros fr y2 w H1 H2 H3 H4 H5 H6 H7. split; simpl; try done.
    - intros q z Hz. destruct (decide (q = c)) as [->|Hqc].
      + rewrite lookup_insert_eq. rewrite Hy in Hz. injection Hz as <-. exists y2.
        rewrite H1, H2, H3, H4, H5. rewrite bool_decide_eq_true_2, andb_true_r by done.
        split_and!; try done; try congruence. unfold y1. by destruct (decide (c = r)).
      + rewrite lookup_insert_ne by done. rewrite bool_decide_eq_false_2, andb_false_r, orb_false_r by done.
        unfold s1. simpl. destruct (decide (q = r)) as [->|].
        * rewrite lookup_insert_eq. rewrite Hx in Hz. injection Hz as <-. eexists. done.
        * rewrite lookup_insert_ne by done. by exists z.
    - intros q Hq. rewrite lookup_insert_ne by congruence. unfold s1. simpl.
      rewrite lookup_insert_ne by congruence. done.
    - intros z Hfr Hz Hm. apply H6; [done|]. rewrite Hy in Hz. by injection Hz as <-. }
  unfold fresh. destruct (Z.eqb_spec (sr_owner y) avoid) as [_|_]; simpl negb; cbn [andb].
  { eexists. split; [done|]. apply (Hgen false (set_parent y1 0)); try done. by rewrite orb_false_r. }
  unfold mark_for_rescind, get_sr. simpl srs. rewrite lookup_insert_eq. cbn [of_option res_bind].
  change (truth (Z.land (sr_flags (set_parent y1 0)) RES_RESCINDED)) with (marked y1). rewrite Em.
  destruct (marked y) eqn:Emy; cbn [negb res_bind].
  { eexists. split; [done|]. apply (Hgen false (set_parent y1 0)); try done. by rewrite orb_false_r. }
  set (y2 := set_sr_flags (set_parent y1 0) (Z.lor (sr_flags (set_parent y1 0)) RES_RESCINDED)).
  assert (marked y2 = marked y1 || true) as Em2 by (apply (marked_or (set_parent y1 0) true)).
  assert (mapped y2 = mapped y1) as Ep2.
  { rewrite !mapped_bit. cbn [sr_flags y2 set_sr_flags set_parent]. rewrite Z.lor_spec. apply orb_false_r. }
  unfold invalidate, get_sr. simpl srs. rewrite lookup_insert_eq. cbn [of_option res_bind].
  change (truth (Z.land (sr_flags y2) RES_MAPPED)) with (mapped y2). rewrite Ep2, Ep.
  destruct (mapped y) eqn:Emap; cbn [world put_sr].
  - change (world s1) with (world s). destruct (law_invalidate (W := W) (world s) c (Hready eq_refl)) as (e & w' & -> & Hinv & Hk).
    cbn [res_bind]. eexists. split; [reflexivity|]. unfold put_world, put_sr at 1 2.
    cbn [srs os_res keys deferred world]. rewrite insert_insert_eq.
    apply (Hgen true y2 w'); try done; congruence.
  - cbn [res_bind]. eexists. split; [reflexivity|]. unfold put_sr at 1 2.
    cbn [srs os_res keys deferred world]. rewrite insert_insert_eq.
    apply (Hgen true y2 (world s)); try done; congruence.
Qed.

(** The resources that are mapped can be invalidated. *)
Definition mapped_ready (s : state W) : Prop :=
  forall r x, srs s !! r = Some x -> mapped x = true -> ready (world s) r.

Section Walk.
Context (s0 : state W) (avoid start : Z) (Htree : tree_ok s0) (Hready : mapped_ready s0).

Lemma walk_children_winv fuel : forall P r post s x,
  winv s0 avoid start P (r :: post) s -> srs s !! r = Some x -> (length (sr_children x) < fuel)%nat ->
  exists post' s' x', walk_children fuel s ra avoid r post = Ok (post', s') /\
    winv s0 avoid start P (r :: post') s' /\ srs s' !! r = Some x' /\ sr_children x' = [].
Proof.
  induction fuel as [|fuel IH]; intros P r post s x Hw Hx Hf; [lia|].
  cbn [walk_children]. unfold get_sr at 1. rewrite Hx. cbn [of_option res_bind].
  destruct (sr_children x) as [|c rest] eqn:Ech; [by exists post, s, x|].
  destruct (w_reach _ _ _ _ _ _ Hw r) as [_ [x0 Hx0]]; [lmem|].
  destruct (w_rec _ _ _ _ _ _ Hw r x0 Hx0) as (x1 & Hx1 & _ & _ & _ & _ & l & Hl & _).
  rewrite Hx in Hx1. injection Hx1 as <-. rewrite Ech in Hl.
  destruct (Htree r x0 c Hx0) as [y0 Hy0]; [rewrite Hl; lmem|].
  destruct (w_rec _ _ _ _ _ _ Hw c y0 Hy0) as (y & Hy & _ & Ho & Hm & Hk & _).
  destruct (walk_child_step s r x c rest avoid post y Hx Hy) as (s1 & -> & Hc).
  { rewrite Hm. intros Hmy. apply (w_world _ _ _ _ _ _ Hw c), (Hready c y0 Hy0 Hmy). }
  cbn [res_bind]. rewrite Ho, Hk in Hc |- *.
  pose proof (winv_step _ _ _ _ _ _ _ _ _ _ _ _ _ _ Hw Hc Hx0 Hx Ech Hy0 eq_refl) as Hw1.
  destruct (cs_rec _ _ _ _ _ _ Hc r x Hx) as (x1 & Hx1 & _ & _ & _ & _ & Hch1).
  rewrite decide_True in Hch1 by done. apply (IH P r _ s1 x1 Hw1 Hx1).
  rewrite Hch1. simpl in Hf. lia.
Qed.

Lemma winv_shift P r post s x :
  winv s0 avoid start P (r :: post) s -> srs s !! r = Some x -> sr_children x = [] ->
  winv s0 avoid start (P ++ [r]) post s.
Proof.
  intros [H1 H2 H3 H4 H5 H6 H7 H8] Hx Hch.
  replace (P ++ r :: post) with ((P ++ [r]) ++ post) in * by (by rewrite <- app_assoc).
  split; try done. intros q z Hq Hz. apply elem_of_app in Hq as [Hq|Hq]; [by apply (H6 q)|].
  apply list_elem_of_singleton in Hq as ->. congruence.
Qed.

(** No more nodes than resources get on the list. *)
Lemma winv_bound P Q s : winv s0 avoid start P Q s -> (length (P ++ Q) <= size (srs s0))%nat.
Proof.
  intros Hw. rewrite <- size_dom, <- (size_list_to_set (C := gset Z)) by apply (w_nodup _ _ _ _ _ _ Hw).
  apply subseteq_size. intros r Hr. apply elem_of_list_to_set in Hr.
  apply elem_of_dom. by apply (w_reach _ _ _ _ _ _ Hw).
Qed.

Lemma walk_winv fuel : forall P Q s,
  winv s0 avoid start P Q s -> (size (srs s0) < length P + fuel)%nat ->
  exists P' s', walk fuel s ra avoid P Q = Ok (P', s') /\ winv s0 avoid start P' [] s' /\ (P ++ take 1 Q `prefix_of` P').
Proof.
  induction fuel as [|fuel IH]; intros P Q s Hw Hf;
    pose proof (winv_bound _ _ _ Hw) as Hb; rewrite length_app in Hb.
  { destruct Q; [|simpl in Hb; lia]. exists P, s. rewrite app_nil_r. done. }
  destruct Q as [|r post]; [exists P, s; by rewrite app_nil_r|].
  destruct (w_reach _ _ _ _ _ _ Hw r) as [_ [x0 Hx0]]; [lmem|].
  destruct (w_rec _ _ _ _ _ _ Hw r x0 Hx0) as (x & Hx & _).
  cbn [walk]. unfold get_sr at 1. rewrite Hx. cbn [of_option res_bind].
  destruct (walk_children_winv _ P r post s x Hw Hx (Nat.lt_succ_diag_r _)) as (post' & s1 & x1 & E & Hw1 & Hx1 & Hch1).
  rewrite E. cbn [res_bind].
  destruct (IH (P ++ [r]) post' s1) as (P' & s' & E' & Hw' & Hp).
  { by eapply winv_shift. }
  { rewrite length_app. simpl. lia. }
  exists P', s'. split; [done|]. split; [done|]. etrans; [|exact Hp]. simpl. by exists (take 1 post').
Qed.

(** When the walk is over, it has been everywhere. *)
Lemma walked_all P s r : winv s0 avoid start P [] s -> start ∈ P -> reach s0 avoid start r -> r ∈ P.
Proof.
  intros Hw Hs. induction 1 as [|p x c y _ Hp Hx Hc Hy Ho Hm]; [done|].
  destruct (w_rec _ _ _ _ _ _ Hw p x Hx) as (x' & Hx' & _ & _ & _ & _ & l & Hl & Hin).
  rewrite (w_walked _ _ _ _ _ _ Hw p x' Hp Hx'), app_nil_r in Hl. rewrite app_nil_r in Hin.
  apply (Hin c y); [by rewrite <- Hl|done..].
Qed.
End Walk.

(** [forced_rescind_mark] from [s] to [s']: [nodes] is what is derived from
    [start], each once; all of it, and nothing else, is now marked, cut from the
    tree, and invalidated where it was mapped. *)
Record rescinded (s : state W) (avoid start : Z) (nodes : list Z) (s' : state W) : Prop := {
  rs_nodup : NoDup nodes;
  rs_nodes : forall r, r ∈ nodes <-> reach s avoid start r;
  rs_rec : forall r x, srs s !! r = Some x ->
    exists x', srs s' !! r = Some x' /\ sr_type x' = sr_type x /\ sr_owner x' = sr_owner x /\
      mapped x' = mapped x /\ marked x' = (marked x || bool_decide (r ∈ nodes)) /\
      (r ∈ nodes -> sr_children x' = []);
  rs_children : forall r x c y, srs s !! r = Some x -> c ∈ sr_children x -> srs s !! c = Some y ->
    sr_owner y <> avoid -> marked y = false ->
    c ∈ nodes \/ exists x', srs s' !! r = Some x' /\ c ∈ sr_children x';
  rs_invalid : forall r x, r ∈ nodes -> srs s !! r = Some x -> mapped x = true -> invalid (world s') r;
  rs_world : keeps there ready invalid (world s) (world s');
  rs_lists : os_res s' = os_res s;
  rs_dom : forall r, srs s !! r = None -> srs s' !! r = None
}.

(** What comes before the walk: [start] marked and taken off its parent. *)
Record cut (s : state W) (start : Z) (s1 : state W) : Prop := {
  cut_rec : forall r x, srs s !! r = Some x ->
    exists x1, srs s1 !! r = Some x1 /\ sr_type x1 = sr_type x /\ sr_owner x1 = sr_owner x /\
      mapped x1 = mapped x /\ marked x1 = (marked x || bool_decide (r = start)) /\
      forall c, c ∈ sr_children x1 -> c ∈ sr_children x;
  cut_keep : forall r x x1 c, srs s !! r = Some x -> srs s1 !! r = Some x1 -> c <> start ->
    c ∈ sr_children x -> c ∈ sr_children x1;
  cut_dom : forall r, srs s !! r = None -> srs s1 !! r = None
}.

Lemma cut_back s start s1 r x1 :
  cut s start s1 -> srs s1 !! r = Some x1 -> is_Some (srs s !! r).
Proof.
  intros Hc H1. destruct (srs s !! r) eqn:E; [done|]. apply (cut_dom _ _ _ Hc) in E. congruence.
Qed.

Lemma cut_reach s start s1 avoid r : cut s start s1 -> reach s1 avoid start r <-> reach s avoid start r.
Proof.
  intros Hc. split.
  - induction 1 as [|p x1 c y1 _ IH Hx1 Hin Hy1 Ho Hm]; [constructor|].
    destruct (cut_back _ _ _ _ _ Hc Hx1) as [x Hx], (cut_back _ _ _ _ _ Hc Hy1) as [y Hy].
    destruct (cut_rec _ _ _ Hc p x Hx) as (x1' & Hx1' & _ & _ & _ & _ & Hch).
    destruct (cut_rec _ _ _ Hc c y Hy) as (y1' & Hy1' & _ & Ho' & _ & Hm' & _).
    simplify_eq. apply (Reach_child s avoid start p x c y); auto; [congruence|].
    rewrite Hm in Hm'. symmetry in Hm'. by apply orb_false_iff in Hm' as [? _].
  - induction 1 as [|p x c y _ IH Hx Hin Hy Ho Hm]; [constructor|].
    destruct (decide (c = start)) as [->|Hne]; [constructor|].
    destruct (cut_rec _ _ _ Hc p x Hx) as (x1 & Hx1 & _).
    destruct (cut_rec _ _ _ Hc c y Hy) as (y1 & Hy1 & _ & Ho' & _ & Hm' & _).
    apply (Reach_child s1 avoid start p x1 c y1); auto; [by apply (cut_keep _ _ _ Hc p x x1 c)|congruence|].
    rewrite Hm', Hm, bool_decide_eq_false_2 by done. done.
Qed.

Lemma cut_tree s start s1 : cut s start s1 -> tree_ok s -> tree_ok s1.
Proof.
  intros Hc Ht p x1 c Hx1 Hin. destruct (cut_back _ _ _ _ _ Hc Hx1) as [x Hx].
  destruct (cut_rec _ _ _ Hc p x Hx) as (x1' & Hx1' & _ & _ & _ & _ & Hch). simplify_eq.
  destruct (Ht p x c Hx (Hch c Hin)) as [y Hy]. destruct (cut_rec _ _ _ Hc c y Hy) as (y1 & Hy1 & _). eauto.
Qed.

Lemma cut_ok s start x (sm := put_sr s start (set_sr_flags x (Z.lor (sr_flags x) RES_RESCINDED))) :
  srs s !! start = Some x -> (sr_parent x = 0 \/ is_Some (srs s !! sr_parent x)) ->
  exists s1 x1,
    (if sr_parent x =? 0 then Ok sm
     else let! p := get_sr sm (sr_parent x) in
          Ok (put_sr sm (sr_parent x) (set_children p (off_siblings start (sr_children p))))) = Ok s1 /\
    cut s start s1 /\ srs s1 !! start = Some x1 /\ mapped x1 = mapped x /\
    world s1 = world s /\ os_res s1 = os_res s.
Proof.
  intros Hx Hp. set (xm := set_sr_flags x (Z.lor (sr_flags x) RES_RESCINDED)) in *.
  assert (mapped xm = mapped x) as Epm.
  { rewrite !mapped_bit. cbn [sr_flags xm set_sr_flags]. rewrite Z.lor_spec. apply orb_false_r. }
  assert (marked xm = true) as Emm.
  { unfold xm. change RES_RESCINDED with (if true then RES_RESCINDED else 0). rewrite marked_or. apply orb_true_r. }
  assert (forall r y, srs s !! r = Some y -> exists y1, srs sm !! r = Some y1 /\ sr_type y1 = sr_type y /\
    sr_owner y1 = sr_owner y /\ mapped y1 = mapped y /\ marked y1 = (marked y || bool_decide (r = start)) /\
    sr_children y1 = sr_children y) as Hsm.
  { intros r y Hy. unfold sm. simpl. destruct (decide (r = start)) as [->|Hne].
    - rewrite lookup_insert_eq. simplify_eq. exists xm. rewrite Epm, Emm, bool_decide_eq_true_2 by done.
      by rewrite orb_true_r.
    - rewrite lookup_insert_ne by done. exists y. by rewrite bool_decide_eq_false_2, orb_false_r by done. }
  assert (forall r, srs s !! r = None -> srs sm !! r = None) as Hdom.
  { intros r Hr. unfold sm. simpl. rewrite lookup_insert_ne by congruence. done. }
  destruct (Z.eqb_spec (sr_parent x) 0) as [_|Hne].
  { exists sm, xm. split; [done|]. split; [split|].
    - intros r y Hy. destruct (Hsm r y Hy) as (y1 & Hy1 & H1 & H2 & H3 & H4 & H5). exists y1.
      rewrite H5. auto 10.
    - intros r y y1 c Hy Hy1 _ Hc. destruct (Hsm r y Hy) as (y1' & Hy1' & _ & _ & _ & _ & H5). simplify_eq. by rewrite H5.
    - done.
    - unfold sm at 1. simpl. by rewrite lookup_insert_eq. }
  destruct Hp as [?|[p Hp]]; [done|]. destruct (Hsm _ p Hp) as (p1 & Hp1 & Ht & Ho & Hmp & Hmk & Hch).
  unfold get_sr. rewrite Hp1. cbn [of_option res_bind].
  set (p2 := set_children p1 (off_siblings start (sr_children p1))).
  assert (forall c, c ∈ sr_children p2 <-> c <> start /\ c ∈ sr_children p) as Hch2.
  { intros c. unfold p2, off_siblings. simpl. rewrite list_elem_of_filter, Hch. done. }
  eexists (put_sr sm (sr_parent x) p2), (if decide (start = sr_parent x) then p2 else xm).
  split; [done|]. split; [split|].
  - intros r y Hy. simpl. destruct (decide (r = sr_parent x)) as [->|Hr].
    + rewrite lookup_insert_eq. simplify_eq. exists p2. repeat (split; [done|]). intros c. rewrite Hch2. tauto.
    + rewrite lookup_insert_ne by done. destruct (Hsm r y Hy) as (y1 & Hy1 & H1 & H2 & H3 & H4 & H5). exists y1.
      rewrite H5. auto 10.
  - intros r y y1 c Hy Hy1 Hne' Hc. simpl in Hy1. destruct (decide (r = sr_parent x)) as [->|Hr].
    + rewrite lookup_insert_eq in Hy1. simplify_eq. by apply Hch2.
    + rewrite lookup_insert_ne in Hy1 by done.
      destruct (Hsm r y Hy) as (y1' & Hy1' & _ & _ & _ & _ & H5). 
      assert (y1' = y1) as -> by (apply (inj Some); rewrite <- Hy1, <- Hy1'; reflexivity). by rewrite H5.
  - intros r Hr. simpl. rewrite lookup_insert_ne by (intros <-; congruence). auto.
  - simpl. destruct (decide (start = sr_parent x)) as [->|Hr].
    + rewrite lookup_insert_eq. simplify_eq. done.
    + rewrite lookup_insert_ne by done. by rewrite lookup_insert_eq.
Qed.

Lemma mark_spec (acts : list (option (resource_action W))) s start x avoid :
  tree_ok s -> mapped_ready s -> srs s !! start = Some x -> marked x = false ->
  (sr_parent x = 0 \/ is_Some (srs s !! sr_parent x)) -> get_action acts (sr_type x) = Ok ra ->
  exists nodes s', forced_rescind_mark acts s start [] avoid = Ok (0, nodes, s') /\
    rescinded s avoid start nodes s'.
Proof.
  intros Ht Hr Hx Hm Hp Hra.
  unfold forced_rescind_mark, mark_for_rescind, get_sr at 1. rewrite Hx. cbn [of_option res_bind].
  change (truth (Z.land (sr_flags x) RES_RESCINDED)) with (marked x). rewrite Hm. cbn [res_bind negb].
  unfold get_sr at 1. cbn [srs put_sr]. rewrite lookup_insert_eq. cbn [of_option res_bind sr_parent sr_type set_sr_flags].
  destruct (cut_ok s start x Hx Hp) as (s1 & x1 & -> & Hcut & Hx1 & Em & Ew & El).
  cbn [res_bind]. rewrite Hra. cbn [res_bind]. unfold invalidate, get_sr. rewrite Hx1. cbn [of_option res_bind].
  change (truth (Z.land (sr_flags x1) RES_MAPPED)) with (mapped x1). rewrite Em.
  assert (exists w, (if mapped x then let! (_, w) := invalidate_fn ra (world s1) start in Ok (put_world s1 w) else Ok s1)
    = Ok (put_world s1 w) /\ (mapped x = true -> invalid w start) /\ keeps there ready invalid (world s) w) as (w & -> & Hinv & Hk).
  { destruct (mapped x) eqn:E.
    - rewrite Ew. destruct (law_invalidate (W := W) (world s) start (Hr start x Hx E)) as (e & w & -> & Hi & Hk).
      by exists w.
    - exists (world s). rewrite <- Ew. by destruct s1. }
  cbn [res_bind]. set (s2 := put_world s1 w).
  assert (cut s start s2) as Hcut2 by (destruct Hcut; by split).
  assert (winv s2 avoid start [] [start] s2) as Hw.
  { split; try done.
    - intros r z Hz. exists z. split_and!; try done.
      + destruct (bool_decide_reflect (r ∈ [] ++ [start])) as [Hin|]; [|by rewrite orb_false_r].
        apply list_elem_of_singleton in Hin as ->. rewrite orb_true_r.
        destruct (cut_rec _ _ _ Hcut2 start x Hx) as (x1' & Hx1' & _ & _ & _ & Hmk & _).
        simplify_eq. by rewrite Hmk, bool_decide_eq_true_2, orb_true_r by done.
      + exists []. split; [done|]. set_solver.
    - apply NoDup_singleton.
    - intros r Hin. apply list_elem_of_singleton in Hin as ->. split; [constructor|by exists x1].
    - intros r z Hin Hz Hmz. apply list_elem_of_singleton in Hin as ->.
      assert (z = x1) as -> by (apply (inj Some); etrans; [symmetry; exact Hz|exact Hx1]). apply Hinv. congruence.
    - set_solver. }
  assert (mapped_ready s2) as Hr2.
  { intros r z Hz Hmz. destruct (cut_back _ _ _ _ _ Hcut2 Hz) as [z0 Hz0].
    destruct (cut_rec _ _ _ Hcut2 r z0 Hz0) as (z' & Hz' & _ & _ & Hmz' & _). simplify_eq.
    apply (Hk r), (Hr r z0 Hz0). congruence. }
  destruct (walk_winv s2 avoid start (cut_tree _ _ _ Hcut2 Ht) Hr2 (walk_fuel s2) [] [start] s2 Hw)
    as (nodes & s' & E & Hw' & Hpre); [unfold walk_fuel; simpl; lia|].
  rewrite E. cbn [res_bind]. exists nodes, s'. split; [done|].
  assert (start ∈ nodes) as Hst by (destruct Hpre as [k ->]; apply elem_of_app; left; by apply list_elem_of_singleton).
  assert (forall r, r ∈ nodes <-> reach s avoid start r) as Hnodes.
  { intros r. rewrite <- (cut_reach s start s2 avoid r Hcut2). split.
    - intros Hin. apply (w_reach _ _ _ _ _ _ Hw'). by rewrite app_nil_r.
    - by apply (walked_all s2 avoid start nodes s'). }
  pose proof (w_nodup _ _ _ _ _ _ Hw') as Hnd. rewrite app_nil_r in Hnd. split; try done.
  - intros r z Hz. destruct (cut_rec _ _ _ Hcut2 r z Hz) as (z1 & Hz1 & T1 & O1 & M1 & K1 & _).
    destruct (w_rec _ _ _ _ _ _ Hw' r z1 Hz1) as (z2 & Hz2 & T2 & O2 & M2 & K2 & _).
    exists z2. split; [done|]. split_and!; try congruence.
    + rewrite K2, K1, app_nil_r, <- orb_assoc. f_equal.
      destruct (decide (r = start)) as [->|]; [|by rewrite bool_decide_eq_false_2].
      by rewrite !bool_decide_eq_true_2 by done.
    + intros Hin. by apply (w_walked _ _ _ _ _ _ Hw' r z2).
  - intros r z c y Hz Hc Hy Ho Hmy. destruct (decide (c = start)) as [->|Hne]; [by left|].
    destruct (cut_rec _ _ _ Hcut2 r z Hz) as (z1 & Hz1 & _).
    destruct (cut_rec _ _ _ Hcut2 c y Hy) as (y1 & Hy1 & _ & Oy & _ & Ky & _).
    pose proof (cut_keep _ _ _ Hcut2 r z z1 c Hz Hz1 Hne Hc) as Hc1.
    destruct (w_rec _ _ _ _ _ _ Hw' r z1 Hz1) as (z2 & Hz2 & _ & _ & _ & _ & l & El' & Hl). rewrite El' in Hc1.
    apply elem_of_app in Hc1 as [Hc1|Hc1]; [left|right; by exists z2]. rewrite app_nil_r in Hl.
    apply (Hl c y1); [done|done|congruence|]. by rewrite Ky, Hmy, bool_decide_eq_false_2.
  - intros r z Hin Hz Hmz. destruct (cut_rec _ _ _ Hcut2 r z Hz) as (z1 & Hz1 & _ & _ & M1 & _).
    apply (w_inval _ _ _ _ _ _ Hw' r z1); [by rewrite app_nil_r|done|congruence].
  - eapply keeps_trans; [exact Hk|]. apply (w_world _ _ _ _ _ _ Hw').
  - rewrite (w_lists _ _ _ _ _ _ Hw'). done.
  - intros q Hq. by apply (w_dom _ _ _ _ _ _ Hw'), (cut_dom _ _ _ Hcut2).
Qed.
End Rescind.

(** ** The lists of the partitions *)
Lemma filter_all {A} (P : A -> Prop) `{!forall x, Decision (P x)} l : Forall P l -> filter P l = l.
Proof. induction 1 as [|x l Hx _ IH]; [done|]. by rewrite filter_cons_True, IH. Qed.

Section Lists.
Context {W : Type}.
Implicit Types (s : state W) (h : dheap).

(** The partition a node belongs to: a head to its own, a resource's node to the owner. *)
Definition region s (p : Z) : option Z := if p <? 0 then Some (- p) else sr_owner <$> srs s !! p.
Definition node h (p : Z) : Prop := is_Some (dl_next h !! p) /\ is_Some (dl_prev h !! p).

(** The pointers of a node, on a list or taken off one, stay among the nodes of its partition. *)
Record cells_ok s : Prop := {
  co_node r x : srs s !! r = Some x -> 0 < r /\ 0 < sr_owner x /\ node (os_res s) r /\ node (os_res s) (po_head (sr_owner x));
  co_next p q : dl_next (os_res s) !! p = Some q -> node (os_res s) q /\ region s p = region s q;
  co_prev p q : dl_prev (os_res s) !! p = Some q -> node (os_res s) q /\ region s p = region s q
}.

Lemma region_head s o : 0 < o -> region s (po_head o) = Some o.
Proof. intros H. unfold region, po_head. destruct (Z.ltb_spec (- o) 0); [|lia]. f_equal. lia. Qed.

Lemma region_node s r x : cells_ok s -> srs s !! r = Some x -> region s r = Some (sr_owner x).
Proof. intros Hc Hx. destruct (co_node s Hc r x Hx) as [? _]. unfold region. destruct (Z.ltb_spec r 0); [lia|]. by rewrite Hx. Qed.

Lemma chain_region s l : forall x, cells_ok s -> chain (os_res s) (x :: l) -> forall q, q ∈ x :: l -> region s q = region s x.
Proof.
  induction l as [|y l IH]; intros x Hc Hch q Hq; [by apply list_elem_of_singleton in Hq as ->|]. destruct Hch as [[Hn _] Hch].
  apply elem_of_cons in Hq as [->|Hq]; [done|]. rewrite (IH y Hc Hch q Hq). symmetry. by apply (co_next s Hc).
Qed.

Lemma ring_region s o l q : cells_ok s -> 0 < o -> ring (os_res s) (po_head o) l -> q ∈ po_head o :: l -> region s q = Some o.
Proof. intros Hc Ho [_ Hch] Hq. rewrite (chain_region s (l ++ [po_head o]) (po_head o) Hc Hch q); [by apply region_head|lmem]. Qed.

Lemma filter_out (l1 l2 : list Z) r : NoDup (l1 ++ r :: l2) -> filter (fun q => q <> r) (l1 ++ r :: l2) = l1 ++ l2.
Proof.
  intros Hn. apply NoDup_app in Hn as (_ & H1 & [H2 _]%NoDup_cons). rewrite filter_app, filter_cons_False by tauto.
  rewrite !filter_all; [done| |]; apply Forall_forall; intros q Hq ->; [done|]. apply (H1 r Hq). lmem.
Qed.

(** Only owners matter for this. *)
Lemma cells_ok_ext s s' :
  os_res s' = os_res s -> (forall r, sr_owner <$> srs s' !! r = sr_owner <$> srs s !! r) -> cells_ok s -> cells_ok s'.
Proof.
  intros Eh Eo [C1 C2 C3]. assert (forall p, region s' p = region s p) as Er by (intros p; unfold region; by rewrite Eo).
  split; rewrite Eh; [|intros p q; rewrite !Er; auto..].
  intros r x Hx. specialize (Eo r). rewrite Hx in Eo. destruct (srs s !! r) as [y|] eqn:Hy; [|done]. injection Eo as ->. by apply C1.
Qed.

Lemma rescinded_cells (there ready invalid : W -> Z -> Prop) s avoid start nodes s' :
  rescinded there ready invalid s avoid start nodes s' -> cells_ok s -> cells_ok s'.
Proof.
  intros Hr. apply cells_ok_ext; [apply Hr|]. intros r. destruct (srs s !! r) as [x|] eqn:Hx.
  - destruct (rs_rec _ _ _ _ _ _ _ _ Hr r x Hx) as (x' & -> & _ & O & _). cbn. by rewrite O.
  - by rewrite (rs_dom _ _ _ _ _ _ _ _ Hr r Hx).
Qed.

(** Detaching a resource's node, which may be on its owner's list or not, changes only nodes of the owner, and the
    owner's list as it should when the node is on it. *)
Lemma detach_cells s r x :
  cells_ok s -> srs s !! r = Some x ->
  exists h', dlist_detach (os_res s) r = Ok h' /\ cells_ok (put_heap s h') /\
    forall o l, 0 < o -> ring (os_res s) (po_head o) l -> (sr_owner x = o -> r ∈ l) -> ring h' (po_head o) (filter (fun q => q <> r) l).
Proof.
  intros Hc Hx. destruct (co_node s Hc r x Hx) as (Hr & Hox & [[a Ha] [b Hb]] & Hhd). pose proof (region_node s r x Hc Hx) as Er.
  destruct (co_next s Hc r a Ha) as [Na Ra], (co_prev s Hc r b Hb) as [Nb Rb]. set (h' := unlinked (os_res s) b a).
  assert (dlist_detach (os_res s) r = Ok h') as E by (apply dlist_detach_any; [done|done|apply Nb|apply Na]).
  assert (forall p, node (os_res s) p -> node h' p) as Hnode.
  { intros p [Hp1 Hp2]. split; cbn; rewrite lookup_insert; case_decide; eauto. }
  exists h'. split; [done|]. split.
  - split; cbn [srs os_res put_heap].
    + intros q y Hy. destruct (co_node s Hc q y Hy) as (? & ? & ? & ?). auto.
    + intros p q. cbn. rewrite lookup_insert. case_decide as Ep.
      * intros [= <-]. subst p. split; [auto|]. change (region s b = region s a). congruence.
      * intros Hq. destruct (co_next s Hc p q Hq). auto.
    + intros p q. cbn. rewrite lookup_insert. case_decide as Ep.
      * intros [= <-]. subst p. split; [auto|]. change (region s a = region s b). congruence.
      * intros Hq. destruct (co_prev s Hc p q Hq). auto.
  - intros o l Ho Hring Hin. destruct (decide (sr_owner x = o)) as [Eo|Hne].
    + destruct (list_elem_of_split l r (Hin Eo)) as (l1 & l2 & ->). pose proof Hring as [Hnd _].
      destruct (dlist_detach_ring _ _ _ _ _ Hring) as (h2 & E2 & Hr2 & _). assert (h2 = h') as -> by congruence.
      apply NoDup_cons in Hnd as [_ Hnd]. by rewrite filter_out.
    + assert (forall q, q ∈ po_head o :: l -> region s q = Some o) as Hreg by (intros q; by apply ring_region).
      rewrite filter_all.
      2:{ apply Forall_forall. intros q Hq ->. assert (region s r = Some o) by (apply Hreg; lmem). congruence. }
      apply (ring_frame (os_res s)); [|done]. intros q Hq. specialize (Hreg q Hq).
      split; cbn; apply lookup_insert_ne; intros <-; congruence.
Qed.
End Lists.

(** ** Cleaning up *)
Section Cleanup.
Context {W : Type} (there ready invalid : W -> Z -> Prop) (acts : list (option (resource_action W))).

(** What the clean-up of a node needs. *)
Definition cleanable (s : state W) (r : Z) : Prop :=
  exists x ra, srs s !! r = Some x /\ marked x = true /\ sr_children x = [] /\ get_action acts (sr_type x) = Ok ra /\
    RescindLaws there ready invalid ra /\ there (world s) r /\
    (mapped x = true -> ready (world s) r /\ invalid (world s) r).

(** A list on which its partition's part of the nodes is loses these, and only these. *)
Record cleaned (s : state W) (nodes : list Z) (s' : state W) : Prop := {
  cl_srs : srs s' = srs s;
  cl_cells : cells_ok s';
  cl_lists : forall o l, 0 < o -> ring (os_res s) (po_head o) l ->
    (forall q x, q ∈ nodes -> srs s !! q = Some x -> sr_owner x = o -> q ∈ l) ->
    ring (os_res s') (po_head o) (filter (fun q => q ∉ nodes) l);
  cl_world : keeps there ready invalid (world s) (world s')
}.

Lemma cleanup_node_spec s r :
  cells_ok s -> cleanable s r -> exists s', cleanup_node acts s r = Ok s' /\ cleaned s [r] s'.
Proof.
  intros Hc (x & ra & Hx & Hm & Hch & Ha & Hlaws & Hth & Hrd). destruct (detach_cells s r x Hc Hx) as (h' & Eh & Hc' & Hl).
  destruct (co_node s Hc r x Hx) as (_ & _ & _ & [[hd Hhd] _]).
  unfold cleanup_node, get_sr, get_next. rewrite Hx. cbn [of_option res_bind]. rewrite Hhd. cbn [of_option res_bind]. rewrite Eh. cbn [res_bind].
  change (truth (Z.land (sr_flags x) RES_RESCINDED)) with (marked x). rewrite Hm, Hch, Ha. cbn [cassert res_bind].
  set (s1 := put_heap s h') in *.
  assert (forall w, keeps there ready invalid (world s) w -> cleaned s [r] (put_world s1 w)) as Hgen.
  { intros w Hk. split; [done| | |done].
    - destruct Hc' as [C1 C2 C3]. by split.
    - intros o l Ho Hr Hin. cbn [os_res put_world s1 put_heap]. rewrite (list_filter_iff _ (fun q => q <> r)) by set_solver.
      apply Hl; try done. intros Eo. apply (Hin r x); [lmem|done..]. }
  assert (exists w, (if truth (Z.land (sr_flags x) RES_MAPPED)
      then let! (_, w) := return_fn ra (world s1) r in Ok (put_world s1 w) else Ok s1) = Ok (put_world s1 w) /\
    keeps there ready invalid (world s) w) as (w & -> & Hk).
  { change (truth (Z.land (sr_flags x) RES_MAPPED)) with (mapped x). destruct (mapped x); [|by exists (world s)].
    destruct (Hrd eq_refl) as [Hready Hinv].
    change (world s1) with (world s). destruct (law_return (W := W) (world s) r Hready Hinv) as (e & w & -> & Hk). by exists w. }
  cbn [res_bind]. unfold rescind_new. cbn [world put_world].
  destruct (law_rescind (W := W) w r (proj2 (proj2 (Hk r)) Hth)) as (e & w' & -> & Hk').
  cbn [res_bind]. eexists. split; [done|]. apply (Hgen w'). by eapply keeps_trans.
Qed.

Lemma cleaned_cons s1 s2 s3 r l :
  r ∉ l -> cleaned s1 [r] s2 -> cleaned s2 l s3 -> cleaned s1 (r :: l) s3.
Proof.
  intros Hn [A1 B1 C1 D1] [A2 B2 C2 D2]. split; [congruence|done| |by eapply keeps_trans].
  intros o k Ho Hr Hin. rewrite (list_filter_iff _ (fun q => (q ∉ l) /\ (q ∉ [r]))) by set_solver. rewrite <- list_filter_filter.
  apply C2; [done| |].
  - apply C1; try done. intros q x Hq. apply Hin. lmem.
  - intros q x Hq Hx Ho'. rewrite A1 in Hx. apply list_elem_of_filter. split; [|apply (Hin q x); [lmem|done..]].
    intros ->%list_elem_of_singleton. done.
Qed.

Lemma cleanable_after s nodes s' r : cleaned s nodes s' -> cleanable s r -> cleanable s' r.
Proof.
  intros [A _ _ C] (x & ra & Hx & Hm & Hch & Ha & Hlaws & Hth & Hrd).
  exists x, ra. rewrite A. destruct (C r) as (C1 & C2 & C3).
  split_and!; try done; [by apply C3|]. intros Hmx. destruct (Hrd Hmx). auto.
Qed.

Lemma cleanup_nodes_spec nodes : forall s,
  cells_ok s -> NoDup nodes -> Forall (cleanable s) nodes -> exists s', cleanup_nodes acts s nodes = Ok s' /\ cleaned s nodes s'.
Proof.
  induction nodes as [|r nodes IH]; intros s Hc Hn Hf; simpl.
  - exists s. split; [done|]. split; [done|done| |done]. intros o l Ho Hl _. rewrite filter_all; [done|].
    apply Forall_forall. set_solver.
  - inversion_clear Hf as [|? ? Hr Hrest]. apply NoDup_cons in Hn as [Hrn Hn].
    destruct (cleanup_node_spec s r Hc Hr) as (s1 & -> & Hc1). cbn [res_bind].
    destruct (IH s1) as (s' & E & Hc'); [apply Hc1|done| |].
    { eapply Forall_impl; [exact Hrest|]. intros q. by eapply cleanable_after. }
    exists s'. split; [done|]. by apply (cleaned_cons s s1 s' r nodes).
Qed.
End Cleanup.

Lemma elem_of_rev (r : Z) l : r ∈ rev l <-> r ∈ l.
Proof. rewrite !list_elem_of_In. symmetry. apply in_rev. Qed.

Lemma nodup_rev (l : list Z) : NoDup l -> NoDup (rev l).
Proof. rewrite !NoDup_ListNoDup. apply List.NoDup_rev. Qed.

(** ** The hypervisor call *)
Section Calls.
Context {W : Type} (there ready invalid : W -> Z -> Prop) (acts : list (option (resource_action W))).

(** Every resource has its parent, its children, a node among those of its owner, an object, and
    actions that keep their promises. *)
Record sys_ok (s : state W) : Prop := {
  ok_tree : tree_ok s;
  ok_parent : forall r x, srs s !! r = Some x -> sr_parent x = 0 \/ is_Some (srs s !! sr_parent x);
  ok_cells : cells_ok s;
  ok_there : forall r x, srs s !! r = Some x -> there (world s) r;
  ok_ready : forall r x, srs s !! r = Some x -> mapped x = true -> ready (world s) r;
  ok_action : forall r x, srs s !! r = Some x ->
    exists ra, get_action acts (sr_type x) = Ok ra /\ RescindLaws there ready invalid ra
}.

(** A resource that is not rescinded is on its owner's list. *)
Definition on_list (s : state W) (r : Z) : Prop :=
  forall x, srs s !! r = Some x -> exists l, ring (os_res s) (po_head (sr_owner x)) l /\ r ∈ l.
Definition listed (s : state W) : Prop := forall r x, srs s !! r = Some x -> marked x = false -> on_list s r.

Lemma find_cookie_found (s : state W) os cookie fuel : forall curr p r,
  find_cookie fuel s os curr cookie p = Ok (H_Success, r) ->
  exists x, srs s !! r = Some x /\ sr_cookie x = cookie /\ marked x = false.
Proof.
  induction fuel as [|fuel IH]; intros curr p r; simpl; (destruct (Z.eqb_spec curr (po_head os)); [done|]); [done|].
  unfold get_sr. destruct (srs s !! curr) as [x|] eqn:Hx; cbn [of_option res_bind]; [|done].
  destruct (Z.eqb_spec (sr_cookie x) cookie) as [E|_].
  - change (truth (Z.land (sr_flags x) RES_RESCINDED)) with (marked x).
    destruct (marked x) eqn:Em; [done|]. intros H. injection H as <-. by exists x.
  - destruct (dlist_next (os_res s) curr); cbn [res_bind]; [|done]. apply IH.
Qed.

(** What may happen to the marked [nodes] while the call waits: their records stay as they are, they stay on
    their owners' lists, which are in order, and what holds of their objects goes on holding. *)
Record undisturbed (nodes : list Z) (s1 s2 : state W) : Prop := {
  un_rec : forall q, q ∈ nodes -> srs s2 !! q = srs s1 !! q;
  un_cells : cells_ok s2;
  un_lists : forall q, q ∈ nodes -> on_list s2 q;
  un_world : forall q, q ∈ nodes -> keeps_at there ready invalid (world s1) (world s2) q
}.

(** A rescind that marked [nodes] in [s1], waited until [s2] and ended in [s']: the nodes are marked, have no
    children, cannot be used if they were mapped, and are off the lists; no other record is changed by the
    second half, and nothing else left a list. *)
Record gone (nodes : list Z) (s1 s2 s' : state W) : Prop := {
  g_nodes : forall q x, q ∈ nodes -> srs s1 !! q = Some x ->
    srs s' !! q = Some x /\ marked x = true /\ sr_children x = [] /\ (mapped x = true -> invalid (world s') q);
  g_srs : srs s' = srs s2;
  g_lists : forall o l, 0 < o -> ring (os_res s2) (po_head o) l -> ring (os_res s') (po_head o) (filter (fun q => q ∉ nodes) l)
}.

Lemma rescinded_cleanable s r nodes s1 s2 avoid :
  sys_ok s -> is_Some (srs s !! r) -> rescinded there ready invalid s avoid r nodes s1 -> undisturbed nodes s1 s2 ->
  Forall (cleanable there ready invalid acts s2) nodes.
Proof.
  intros [Ht Hp Ho Hth Hrd Ha] [x Hx] [Hnd Hn Hrec _ Hinv Hw Hl] [Ur Uc Ul Uw].
  apply Forall_forall. intros q Hq.
  assert (is_Some (srs s !! q)) as [z Hz]. { apply Hn in Hq. destruct Hq as [|p z c y _ _ _ Hy _ _]; eauto. }
  destruct (Hrec q z Hz) as (z' & Hz' & T & O & M & K & Hch). destruct (Ha q z Hz) as (ra' & Hra' & Hlaws').
  exists z', ra'. rewrite Ur by done. rewrite T. split_and!; eauto.
  - by rewrite K, bool_decide_eq_true_2, orb_true_r by done.
  - apply (Uw q Hq), (Hw q). by eapply Hth.
  - intros Hmz. rewrite M in Hmz. split; [apply (Uw q Hq), (Hw q); by eapply Hrd|]. apply (Uw q Hq). by eapply Hinv.
Qed.

Lemma cleanup_gone s r nodes s1 s2 avoid :
  sys_ok s -> is_Some (srs s !! r) -> rescinded there ready invalid s avoid r nodes s1 -> undisturbed nodes s1 s2 ->
  exists s', forced_rescind_cleanup acts s2 nodes = Ok s' /\ gone nodes s1 s2 s'.
Proof.
  intros Hok Hx Hres Hun. pose proof (rescinded_cleanable _ _ _ _ _ _ Hok Hx Hres Hun) as Hcl.
  destruct Hun as [Ur Uc Ul Uw], Hres as [Hnd Hn Hrec _ Hinv Hw Hl].
  destruct (cleanup_nodes_spec there ready invalid acts (rev nodes) s2) as (s' & E & [A B C D]);
    [done|by apply nodup_rev|by apply List.Forall_rev|].
  exists s'. split; [done|]. split; [|done|].
  - intros q y Hq Hy. rewrite Forall_forall in Hcl. destruct (Hcl q Hq) as (y' & ra & Hy' & Hm & Hc & _ & _ & _ & Hi).
    rewrite Ur in Hy' by done. assert (y' = y) as -> by congruence. rewrite A, Ur by done. split_and!; try done.
    intros Hmy. apply (D q). by apply Hi.
  - intros o l Ho Hring. rewrite (list_filter_iff _ (fun q => q ∉ rev nodes)) by (intros q; by rewrite elem_of_rev).
    apply C; try done. intros q y Hq Hy <-. rewrite elem_of_rev in Hq. destruct (Ul q Hq y Hy) as (l' & Hl' & Hin).
    by rewrite (ring_unique _ _ _ _ Hring Hl').
Qed.
End Calls.

Lemma rescind_by_cookie {W} (there ready invalid : W -> Z -> Prop) acts rcu_pause (s : state W) os flags cookie r x :
  sys_ok there ready invalid acts s -> get_sys_resource s os cookie = Ok (H_Success, r) ->
  srs s !! r = Some x -> (Z.odd flags = true \/ mapped x = false /\ sr_children x = []) ->
  (forall nodes s1, forced_rescind_mark acts s r [] 0 = Ok (0, nodes, s1) -> rescinded there ready invalid s 0 r nodes s1 ->
    exists s2, rcu_pause s1 = Ok s2 /\ undisturbed there ready invalid nodes s1 s2) ->
  exists nodes s1 s2 s', h_rescind_logical acts rcu_pause s os flags cookie = Ok (H_Success, s') /\
    rescinded there ready invalid s 0 r nodes s1 /\ rcu_pause s1 = Ok s2 /\ undisturbed there ready invalid nodes s1 s2 /\
    gone invalid nodes s1 s2 s'.
Proof.
  intros Hok Hget Hx Hf Hpause. unfold h_rescind_logical. rewrite Hget. cbn [res_bind Z.eqb H_Success negb].
  unfold get_sr. rewrite Hx. cbn [of_option res_bind].
  apply res_bind_ok in Hget as (l & Hl & Hfind).
  destruct (find_cookie_found _ _ _ _ _ _ _ Hfind) as (x' & Hx' & _ & Hm).
  assert (x' = x) as -> by congruence. destruct (ok_action _ _ _ _ _ Hok r x Hx) as (ra & Hra & Hlaws).
  destruct (mark_spec there ready invalid ra acts s r x 0) as (nodes & s1 & E1 & Hres);
    [apply Hok|exact (ok_ready _ _ _ _ _ Hok)|done|done|exact (ok_parent _ _ _ _ _ Hok r x Hx)|done|].
  destruct (Hpause nodes s1 E1 Hres) as (s2 & E2 & Hun).
  destruct (cleanup_gone there ready invalid acts s r nodes s1 s2 0 Hok (mk_is_Some _ _ Hx) Hres Hun) as (s' & E3 & Hg).
  assert (negb (truth (Z.land flags 1)) && (truth (Z.land (sr_flags x) RES_MAPPED) ||
    negb (match sr_children x with [] => true | _ => false end)) = false) as ->.
  { change (truth (Z.land (sr_flags x) RES_MAPPED)) with (mapped x).
    change (Z.land flags 1) with (Z.land flags (2 ^ 0)). rewrite truth_land_pow2, Z.bit0_odd by lia.
    destruct Hf as [->|[-> ->]]; [done|]. apply andb_false_r. }
  rewrite E1. cbn [res_bind Z.eqb H_Rescinded]. rewrite E2. cbn [res_bind]. rewrite E3. cbn [res_bind]. by exists nodes, s1, s2, s'.
Qed.


(** An unforced rescind of a resource that is mapped or has been granted on is
    refused with [H_Resource], a rescind of an unknown cookie with [H_Parameter], and
    of one already rescinded with [H_Rescinded]; none of them changes anything. *)
Theorem h_rescind_logical_refused {W} acts rcu_pause (s : state W) os flags cookie err r :
  get_sys_resource s os cookie = Ok (err, r) ->
  (err <> H_Success -> h_rescind_logical acts rcu_pause s os flags cookie = Ok (err, s)) /\
  (forall x, err = H_Success -> srs s !! r = Some x -> Z.even flags = true ->
    mapped x = true \/ sr_children x <> [] ->
    h_rescind_logical acts rcu_pause s os flags cookie = Ok (H_Resource, s)).
Proof.
  intros Hget. unfold h_rescind_logical. rewrite Hget. cbn [res_bind]. split.
  - intros Hne. by destruct (Z.eqb_spec err H_Success).
  - intros x -> Hx Hev Hu. cbn [Z.eqb H_Success negb]. unfold get_sr. rewrite Hx. cbn [of_option res_bind].
    change (Z.land flags 1) with (Z.land flags (2 ^ 0)). rewrite truth_land_pow2, Z.bit0_odd by lia.
    rewrite <- Z.negb_even, Hev. change (truth (Z.land (sr_flags x) RES_MAPPED)) with (mapped x).
    destruct Hu as [->|Hu]; [done|]. destruct (sr_children x); [done|]. by rewrite orb_true_r.
Qed.

(** Cookies given out so far. *)
Definition cookies_ok {W} (s : state W) : Prop :=
  0 <= keys s < 2 ^ 63 - 1 /\ forall r x, srs s !! r = Some x -> sr_cookie x <= keys s.

(** A walk along the rest [l] of a list, behind [c]. *)
Lemma find_cookie_last {W} (s : state W) os cookie r x : forall l fuel c p,
  chain (os_res s) (c :: l ++ [r; po_head os]) -> po_head os ∉ l ++ [r] -> (length l < fuel)%nat ->
  (forall q, q ∈ l -> exists y, srs s !! q = Some y /\ sr_cookie y <> cookie) ->
  srs s !! r = Some x -> sr_cookie x = cookie -> marked x = false ->
  forall n, dl_next (os_res s) !! c = Some n -> find_cookie fuel s os n cookie p = Ok (H_Success, r).
Proof.
  induction l as [|q l IH]; intros [|fuel] c p Hch Hh Hf Hl Hx Hc Hm n Hn; simpl in Hf; try lia; destruct Hch as [[E _] Hch];
    rewrite E in Hn; injection Hn as <-; cbn [find_cookie].
  - destruct (Z.eqb_spec r (po_head os)) as [->|_]; [exfalso; apply Hh; lmem|]. unfold get_sr. rewrite Hx. cbn [of_option res_bind].
    rewrite Hc, Z.eqb_refl. change (truth (Z.land (sr_flags x) RES_RESCINDED)) with (marked x). by rewrite Hm.
  - destruct (Z.eqb_spec q (po_head os)) as [->|_]; [exfalso; apply Hh; lmem|]. unfold get_sr.
    destruct (Hl q) as (y & Hy & Hne); [lmem|]. rewrite Hy. cbn [of_option res_bind].
    destruct (Z.eqb_spec (sr_cookie y) cookie); [done|].
    assert (exists n, dl_next (os_res s) !! q = Some n) as [n2 Hn2] by (destruct l; simpl in Hch; destruct Hch as [[? _] _]; eauto).
    unfold dlist_next, get_next. rewrite Hn2. cbn [of_option res_bind]. apply (IH fuel q q); try done; [|lia|].
    + intros Hin. apply Hh. lmem.
    + intros k Hk. apply Hl. lmem.
Qed.

(** A ring has no more nodes than the heap. *)
Lemma ring_size h hd l : ring h hd l -> (length l < size (dl_next h))%nat.
Proof.
  intros Hr. pose proof Hr as [Hn _]. rewrite <- size_dom. change (length l) with (pred (length (hd :: l))).
  rewrite <- (size_list_to_set (C := gset Z)) by done. assert (list_to_set (C := gset Z) (hd :: l) ⊆ dom (dl_next h)) as Hs.
  { intros q Hq%elem_of_list_to_set. apply elem_of_dom. by apply (ring_fields h hd l q). }
  apply subseteq_size in Hs. assert (0 < size (list_to_set (C := gset Z) (hd :: l)))%nat; [|lia].
  rewrite size_list_to_set by done. simpl. lia.
Qed.

Lemma s64_small a : a < 2 ^ 63 -> s64 a = a.
Proof. intros H. unfold s64. destruct (Z.ltb_spec a (2 ^ 63)); [done|lia]. Qed.

(** Associating a resource with a partition makes its cookie name exactly it:
    the cookie is positive and new, looking it up in that partition gives the
    resource, the partition owns it and its parent has it as its last child. *)
Theorem insert_resource_lookup {W} (s : state W) r os x l :
  srs s !! r = Some x -> marked x = false -> ring (os_res s) (po_head os) l -> ring (os_res s) r [] ->
  cookies_ok s -> r ∉ po_head os :: l -> (forall q, q ∈ l -> is_Some (srs s !! q)) ->
  sr_parent x <> r -> (forall p, srs s !! sr_parent x = Some p -> marked p = false) ->
  (sr_parent x = 0 \/ is_Some (srs s !! sr_parent x)) ->
  exists s' x', insert_resource s r os = Ok (keys s + 1, s') /\ keys s' = keys s + 1 /\ 0 < keys s' /\
    get_sys_resource s' os (keys s') = Ok (H_Success, r) /\
    srs s' !! r = Some x' /\ sr_owner x' = os /\ ring (os_res s') (po_head os) (l ++ [r]) /\
    (sr_parent x <> 0 -> forall p, srs s !! sr_parent x = Some p ->
      exists p', srs s' !! sr_parent x = Some p' /\ sr_children p' = sr_children p ++ [r]).
Proof.
  intros Hx Hm Hl Hrr [Hk Hc] Hnin Hex Hpr Hpm Hp.
  destruct (dlist_ins_before_ring (os_res s) (po_head os) l [] r [] (po_head os)) as (h' & Eh & Hring & _);
    [by rewrite app_nil_r|done| |done|].
  { intros q Hq. rewrite app_nil_r in Hq. intros ->%list_elem_of_singleton. done. }
  rewrite app_nil_r in Hring. cbn [app] in Hring. set (x' := set_sr_owner (set_cookie x (keys s + 1)) os).
  set (m1 := if sr_parent x =? 0 then srs s else
    match srs s !! sr_parent x with
    | Some p => <[sr_parent x := set_children p (sr_children p ++ [r])]> (srs s) | None => srs s end).
  set (s' := State (<[r := x']> m1) h' (keys s + 1) (deferred s) (world s)).
  assert (forall q y, srs s !! q = Some y -> exists y', m1 !! q = Some y' /\ sr_cookie y' = sr_cookie y) as Hm1.
  { intros q y Hy. unfold m1. destruct (sr_parent x =? 0); [by exists y|].
    destruct (srs s !! sr_parent x) as [p|] eqn:Ep; [|by exists y].
    destruct (decide (q = sr_parent x)) as [->|]; [|rewrite lookup_insert_ne by done; by exists y].
    rewrite lookup_insert_eq. simplify_eq. by eexists. }
  assert (srs s' !! r = Some x') as Hx' by apply lookup_insert_eq.
  exists s', x'. unfold insert_resource, get_sr. rewrite Hx. cbn [of_option res_bind]. split_and!; try done.
  - destruct (Z.eqb_spec (sr_parent x) 0) as [E0|Hne]; cbn [res_bind].
    + rewrite (add64_small (keys s) 1) by lia. cbn [srs]. rewrite Hx. cbn [of_option res_bind os_res put_sr]. rewrite Eh. cbn [res_bind].
      rewrite s64_small by lia. unfold s', m1. destruct (Z.eqb_spec (sr_parent x) 0); [reflexivity|done].
    + destruct Hp as [?|[p Hp]]; [done|]. rewrite Hp. cbn [of_option res_bind].
      change (truth (Z.land (sr_flags p) RES_RESCINDED)) with (marked p). rewrite (Hpm p Hp). cbn [res_bind].
      cbn [srs os_res keys put_sr]. rewrite lookup_insert_ne by done. rewrite Hx. cbn [of_option res_bind os_res put_sr].
      rewrite Eh. cbn [res_bind]. rewrite add64_small, s64_small by lia.
      unfold s', m1. destruct (Z.eqb_spec (sr_parent x) 0); [done|]. by rewrite Hp.
  - simpl. lia.
  - pose proof Hring as [Hnd Hch]. destruct (ring_fields _ _ _ (po_head os) Hring) as [[n Hn] _]; [lmem|].
    unfold get_sys_resource, dlist_next, get_next. cbn [s' os_res]. rewrite Hn. cbn [of_option res_bind].
    apply (find_cookie_last s' os _ r x' l (list_fuel s') (po_head os) 0); try done.
    + by rewrite <- app_assoc in Hch.
    + by apply NoDup_cons in Hnd as [? _].
    + pose proof (ring_size _ _ _ Hring) as Hs. rewrite length_app in Hs. unfold list_fuel. cbn [os_res s']. lia.
    + intros q Hq. destruct (Hex q Hq) as [y Hy]. destruct (Hm1 q y Hy) as (y' & Hy' & Ec). exists y'. split.
      * unfold s'. cbn [srs]. rewrite lookup_insert_ne; [done|]. intros ->. apply Hnin. lmem.
      * rewrite Ec. pose proof (Hc q y Hy). simpl. lia.
  - intros Hne p Hpp. unfold s', m1. destruct (Z.eqb_spec (sr_parent x) 0); [done|]. rewrite Hpp. cbn [srs].
    rewrite lookup_insert_ne, lookup_insert_eq by done. by eexists.
Qed.

(** ** Witnesses

    A world that records what was invalidated.  Resource 1 of partition 10 was
    granted to partition 20 as 2, which granted it on as 3 to 10, and is mapped
    there; 4 is another resource of 20. *)
Definition demo_actions : resource_action (list Z) :=
  ResourceAction None (fun w _ _ => Ok (0, 0, w)) (fun w r => Ok (0, r :: w)) (fun w _ => Ok (0, w))
    (fun w _ => Ok (0, w)) (fun _ _ _ => Ok 0).
Definition demo_acts : list (option (resource_action (list Z))) :=
  [None; Some demo_actions; None; None; None; None; None].
Definition demo_there (_ : list Z) (_ : Z) : Prop := True.
Definition demo_ready (_ : list Z) (_ : Z) : Prop := True.
Definition demo_invalid (w : list Z) (r : Z) : Prop := r ∈ w.

#[global] Instance demo_laws : RescindLaws demo_there demo_ready demo_invalid demo_actions.
Proof.
  split; intros w r; intros; do 2 eexists; (split; [reflexivity|]); unfold keeps, keeps_at, demo_there, demo_ready, demo_invalid;
    [split; [lmem|]|..]; intros q; split_and!; auto; lmem.
Qed.

(** Partition 10 has resources 1 and 3, partition 20 has 2, 4 and 5; 5 was rescinded, and its clean-up is deferred. *)
Definition demo_heap : dheap :=
  DHeap (list_to_map [(-10, 1); (1, 3); (3, -10); (-20, 2); (2, 4); (4, 5); (5, -20)])
        (list_to_map [(-10, 3); (3, 1); (1, -10); (-20, 5); (5, 4); (4, 2); (2, -20)]).
Definition demo : state (list Z) :=
  State (list_to_map [(1, SysResource 101 MEM_ADDR RES_MAPPED 10 0 [2]); (2, SysResource 102 MEM_ADDR 0 20 1 [3]);
                      (3, SysResource 103 MEM_ADDR RES_MAPPED 10 2 []); (4, SysResource 104 MEM_ADDR 0 20 0 []);
                      (5, SysResource 105 MEM_ADDR RES_RESCINDED 20 0 [])])
    demo_heap 105 [Rescind_cleanup [5]] [].

Lemma demo_cases r x : srs demo !! r = Some x ->
  (r = 1 /\ x = SysResource 101 MEM_ADDR RES_MAPPED 10 0 [2]) \/ (r = 2 /\ x = SysResource 102 MEM_ADDR 0 20 1 [3]) \/
  (r = 3 /\ x = SysResource 103 MEM_ADDR RES_MAPPED 10 2 []) \/ (r = 4 /\ x = SysResource 104 MEM_ADDR 0 20 0 []) \/
  (r = 5 /\ x = SysResource 105 MEM_ADDR RES_RESCINDED 20 0 []).
Proof.
  unfold demo. cbn [srs list_to_map foldr fst snd uncurry].
  rewrite !lookup_insert_Some, lookup_empty. naive_solver.
Qed.

Ltac demo_case H := destruct (demo_cases _ _ H) as [[-> ->]|[[-> ->]|[[-> ->]|[[-> ->]|[-> ->]]]]].

Lemma demo_ring_10 : ring demo_heap (po_head 10) [1; 3].
Proof. split; [apply (bool_decide_unpack _); reflexivity|repeat split; reflexivity]. Qed.
Lemma demo_ring_20 : ring demo_heap (po_head 20) [2; 4; 5].
Proof. split; [apply (bool_decide_unpack _); reflexivity|repeat split; reflexivity]. Qed.

Lemma demo_cells : cells_ok demo.
Proof.
  assert (forall (m : gmap Z Z), map_Forall (fun p q => node demo_heap q /\ region demo p = region demo q) m ->
    forall p q, m !! p = Some q -> node demo_heap q /\ region demo p = region demo q) as Hm by (intros m H p q; apply H).
  split.
  - intros r x Hx. demo_case Hx; (split; [done|]); (split; [done|]); (split; split; by eexists).
  - apply Hm. cbn [demo_heap list_to_map foldr uncurry]. repeat (apply map_Forall_insert_2; [by split; [split; eexists|]|]). apply map_Forall_empty.
  - apply Hm. cbn [demo_heap list_to_map foldr uncurry]. repeat (apply map_Forall_insert_2; [by split; [split; eexists|]|]). apply map_Forall_empty.
Qed.

Lemma demo_ok : sys_ok demo_there demo_ready demo_invalid demo_acts demo.
Proof.
  split.
  - intros p x c Hx Hc. demo_case Hx; cbn in Hc;
      rewrite ?list_elem_of_singleton in Hc; try (subst; eexists; reflexivity); by apply not_elem_of_nil in Hc.
  - intros r x Hx. demo_case Hx; auto; right; by eexists.
  - exact demo_cells.
  - done.
  - done.
  - intros r x Hx. exists demo_actions. split; [|apply _]. demo_case Hx; reflexivity.
Qed.

Lemma demo_listed : listed demo.
Proof.
  intros r x Hx Hm x' Hx'. assert (x' = x) as -> by congruence.
  demo_case Hx; try done; eexists; (split; [first [exact demo_ring_10|exact demo_ring_20]|lmem]).
Qed.

(** ** One processor

    On one processor [rcu_pause] runs what was deferred, in order ([Rcu.rcu_check_drains]). *)
Definition run_callback {W} acts (s : state W) (c : callback) : res (state W) :=
  match c with
  | Rescind_cleanup todo => forced_rescind_cleanup acts s todo
  | Death_cleanup todo os => let! s := forced_rescind_cleanup acts s todo in Ok (free_os_res s os)
  end.

Fixpoint run_callbacks {W} acts (s : state W) (cs : list callback) : res (state W) :=
  match cs with
  | [] => Ok s
  | c :: cs => let! s := run_callback acts s c in run_callbacks acts s cs
  end.

Definition pause_alone {W} acts (s : state W) : res (state W) :=
  run_callbacks acts (State (srs s) (os_res s) (keys s) [] (world s)) (deferred s).

(** A deferred clean-up of nodes that are marked and on their lists. *)
Definition pending_ok {W} (there ready invalid : W -> Z -> Prop) acts (s : state W) (nodes : list Z) (c : callback) : Prop :=
  exists todo, c = Rescind_cleanup todo /\ NoDup todo /\ Forall (cleanable there ready invalid acts s) todo /\
    Forall (on_list s) todo /\ forall q, q ∈ nodes -> q ∉ todo.

(** Earlier rescinds do not disturb a later one: their clean-ups run while it waits. *)
Lemma cleanup_undisturbed {W} (there ready invalid : W -> Z -> Prop) acts (s : state W) nodes todo :
  cells_ok s -> (forall q, q ∈ nodes -> on_list s q) -> pending_ok there ready invalid acts s nodes (Rescind_cleanup todo) ->
  exists s', forced_rescind_cleanup acts s todo = Ok s' /\ undisturbed there ready invalid nodes s s' /\ srs s' = srs s.
Proof.
  intros Hc Hl (t & [= <-] & Hn & Hcl & Hon & Hd). unfold forced_rescind_cleanup.
  destruct (cleanup_nodes_spec there ready invalid acts (rev todo) s Hc) as (s' & E & [A B C D]); [by apply nodup_rev|by apply List.Forall_rev|].
  exists s'. split; [done|]. split; [|done]. split; [by intros; rewrite A|done| |by intros; apply D].
  intros q Hq x Hx. rewrite A in Hx. destruct (Hl q Hq x Hx) as (l & Hr & Hin). eexists. split.
  - apply (C _ l); [by apply (co_node s Hc q x Hx)|done|]. intros k y Hk Hy Ey. rewrite elem_of_rev in Hk. rewrite Forall_forall in Hon.
    destruct (Hon k Hk y Hy) as (l' & Hl' & Hin'). rewrite Ey in Hl'. by rewrite (ring_unique _ _ _ _ Hr Hl').
  - apply list_elem_of_filter. split; [|done]. rewrite elem_of_rev. by apply Hd.
Qed.

(** Partition 20 takes back what it granted, forcibly, while the clean-up of 5 is deferred. *)
Lemma demo_paused nodes s1 :
  forced_rescind_mark demo_acts demo 2 [] 0 = Ok (0, nodes, s1) -> rescinded demo_there demo_ready demo_invalid demo 0 2 nodes s1 ->
  exists s2, pause_alone demo_acts s1 = Ok s2 /\ undisturbed demo_there demo_ready demo_invalid nodes s1 s2.
Proof.
  intros E Hres. pose proof (rescinded_cells _ _ _ _ _ _ _ _ Hres demo_cells) as Hc1. destruct Hres as [_ _ Hrec _ _ _ Hl _].
  assert (nodes = [2; 3] /\ deferred s1 = [Rescind_cleanup [5]]) as (-> & Ed) by (vm_compute in E; injection E as <- <-; done).
  unfold pause_alone. rewrite Ed. cbn [run_callbacks run_callback]. set (s0 := State (srs s1) (os_res s1) (keys s1) [] (world s1)).
  assert (forall q, q ∈ [2; 3; 5] -> on_list s0 q) as Hon.
  { intros q Hq x Hx. assert (exists y, srs demo !! q = Some y) as [y Hy].
    { repeat (apply elem_of_cons in Hq as [->|Hq]; [by eexists|]). by apply not_elem_of_nil in Hq. }
    destruct (Hrec q y Hy) as (y' & Hy' & _ & O & _). assert (y' = x) as -> by (change (srs s0) with (srs s1) in Hx; congruence).
    rewrite O. change (os_res s0) with (os_res s1). rewrite Hl. demo_case Hy; eexists; (split; [first [exact demo_ring_10|exact demo_ring_20]|lmem]). }
  destruct (cleanup_undisturbed demo_there demo_ready demo_invalid demo_acts s0 [2; 3] [5]) as (s2 & E2 & Hun & _).
  - by apply (cells_ok_ext s1).
  - intros q Hq. apply Hon. lmem.
  - exists [5]. split; [done|]. split; [apply NoDup_singleton|]. split; [|split].
    + apply Forall_singleton. destruct (Hrec 5 (SysResource 105 MEM_ADDR RES_RESCINDED 20 0 []) eq_refl) as (y & Hy & T & _ & M & K & _).
      exists y, demo_actions. rewrite T, K. split; [exact Hy|]. split; [done|]. split; [|split; [done|split; [apply _|split; [done|by rewrite M]]]].
      vm_compute in E. injection E as <-. by injection Hy as <-.
    + apply Forall_singleton, Hon. lmem.
    + intros q Hq ->%list_elem_of_singleton. revert Hq. by apply (bool_decide_unpack _).
  - exists s2. rewrite E2. split; [done|]. destruct Hun as [U1 U2 U3 U4]. by split.
Qed.


(** The nodes of a list, in order. *)
Fixpoint nodes_of (fuel : nat) (h : dheap) (hd curr : Z) : list Z :=
  match fuel with
  | O => []
  | S fuel => if curr =? hd then [] else curr :: nodes_of fuel h hd (default 0 (dl_next h !! curr))
  end.
Definition list_of {W} (s : state W) (os : Z) : list Z :=
  nodes_of (list_fuel s) (os_res s) (po_head os) (default 0 (dl_next (os_res s) !! po_head os)).

Example h_rescind_logical_run :
  (let! (e, s) := h_rescind_logical demo_acts (pause_alone demo_acts) demo 20 1 102 in
   Ok (e, list_of s 10, list_of s 20, world s)) = Ok (0, [1], [4], [3]).
Proof. vm_compute. reflexivity. Qed.

Lemma h_rescind_logical_refused_witness :
  h_rescind_logical demo_acts (pause_alone demo_acts) demo 20 0 102 = Ok (H_Resource, demo) /\
  h_rescind_logical demo_acts (pause_alone demo_acts) demo 20 1 103 = Ok (H_Parameter, demo).
Proof.
  split.
  - apply (proj2 (h_rescind_logical_refused demo_acts (pause_alone demo_acts) demo 20 0 102 H_Success 2 eq_refl)
      (SysResource 102 MEM_ADDR 0 20 1 [3]) eq_refl eq_refl eq_refl). by right.
  - by apply (proj1 (h_rescind_logical_refused demo_acts (pause_alone demo_acts) demo 20 1 103 H_Parameter 5 eq_refl)).
Defined.

(** A new resource cut from 4, for partition 10. *)
Definition demo_new : state (list Z) := init_sr demo 6 4 MEM_ADDR.

Lemma demo_new_rings : ring (os_res demo_new) (po_head 10) [1; 3] /\ ring (os_res demo_new) 6 [].
Proof. split; (split; [apply (bool_decide_unpack _); reflexivity|repeat split; reflexivity]). Qed.

Lemma insert_resource_lookup_witness :
  exists s' x', insert_resource demo_new 6 10 = Ok (106, s') /\
    get_sys_resource s' 10 106 = Ok (H_Success, 6) /\ srs s' !! 6 = Some x' /\ sr_owner x' = 10.
Proof.
  destruct (insert_resource_lookup demo_new 6 10 (resource_init 4 MEM_ADDR) [1; 3])
    as (s' & x' & H1 & H2 & _ & H3 & H4 & H5 & _); [done|done|apply demo_new_rings|apply demo_new_rings|..]; try done.
  - split; [split; done|]. intros r x Hx. unfold demo_new in Hx. cbn [srs init_sr put_heap put_sr] in Hx.
    apply lookup_insert_Some in Hx as [[<- <-]|[_ Hx]]; [done|]. demo_case Hx; done.
  - by apply (bool_decide_unpack _).
  - intros q Hq. repeat (apply elem_of_cons in Hq as [->|Hq]; [by eexists|]). by apply not_elem_of_nil in Hq.
  - intros p Hp. change (srs demo_new !! sr_parent (resource_init 4 MEM_ADDR)) with
      (Some (SysResource 104 MEM_ADDR 0 20 0 [])) in Hp. by simplify_eq.
  - right. by eexists.
  - exists s', x'. change (keys demo_new) with 105 in *. rewrite H2 in H3. done.
Defined.
