(* ===== verification/Death.v ===== *)
(** * Death: what happens to the resources of a partition that is destroyed

    [partition_death_cleanup] of [hype/resource.c], modelled in [Resource], marks every
    resource of the partition, with everything derived from it in other partitions, and
    leaves the rest to deferred work.  This file proves that it reaches all of it and that
    the deferred work does not fault, although it detaches the partition's resources a
    second time: the nodes they then point to are the partition's own. *)

From S2P Require Import Prelude Hcall Dlist Resource.

(** ** Marking with nodes already on the list *)
Section Prefix.
Context {W : Type} (acts : list (option (resource_action W))).

Lemma walk_prefix (ra : resource_action W) avoid pre fuel : forall s P Q,
  walk fuel s ra avoid (pre ++ P) Q = (let! (n, s) := walk fuel s ra avoid P Q in Ok (pre ++ n, s)).
Proof.
  induction fuel as [|fuel IH]; intros s P [|r Q]; cbn [walk]; try done.
  destruct (get_sr s r) as [x|f]; [|done]. cbn [res_bind].
  destruct (walk_children (S (length (sr_children x))) s ra avoid r Q) as [[post s1]|f]; [|done]. cbn [res_bind]. by rewrite <- IH, app_assoc.
Qed.

Lemma mark_prefix s start todo avoid :
  forced_rescind_mark acts s start todo avoid =
  (let! (e, n, s) := forced_rescind_mark acts s start [] avoid in Ok (e, todo ++ n, s)).
Proof.
  unfold forced_rescind_mark. destruct (mark_for_rescind s start) as [[ok s1]|f]; [|done]. cbn [res_bind].
  destruct ok; cbn [negb res_bind]; [|by rewrite app_nil_r].
  destruct (get_sr s1 start) as [x|f]; [|done]. cbn [res_bind].
  destruct (if sr_parent x =? 0 then Ok s1 else _) as [s2|f]; [|done]. cbn [res_bind].
  destruct (get_action acts (sr_type x)) as [ra|f]; [|done]. cbn [res_bind].
  destruct (invalidate s2 ra start) as [s3|f]; [|done]. cbn [res_bind].
  rewrite <- (app_nil_r todo) at 1. rewrite walk_prefix.
  by destruct (walk (walk_fuel s3) s3 ra avoid [] [start]) as [[n s4]|f].
Qed.

(** ** Marking only cuts the tree *)
Record shrunk (s s' : state W) : Prop := {
  sh_back r x' : srs s' !! r = Some x' -> exists x, srs s !! r = Some x /\
    (sr_parent x' = sr_parent x \/ sr_parent x' = 0) /\ forall c, c ∈ sr_children x' -> c ∈ sr_children x;
  sh_dom r : is_Some (srs s !! r) -> is_Some (srs s' !! r)
}.

#[global] Instance shrunk_refl : Reflexive shrunk.
Proof. intros s. split; [|done]. intros r x Hx. exists x. auto. Qed.

#[global] Instance shrunk_trans : Transitive shrunk.
Proof.
  intros s1 s2 s3 [A1 B1] [A2 B2]. split; [|auto]. intros r x3 H3. destruct (A2 r x3 H3) as (x2 & H2 & P2 & C2).
  destruct (A1 r x2 H2) as (x1 & H1 & P1 & C1). exists x1. split; [done|]. split; [|auto]. destruct P2 as [->|]; auto.
Qed.

Lemma shrunk_put (s : state W) r x x' :
  srs s !! r = Some x -> (sr_parent x' = sr_parent x \/ sr_parent x' = 0) ->
  (forall c, c ∈ sr_children x' -> c ∈ sr_children x) -> shrunk s (put_sr s r x').
Proof.
  intros Hx Hp Hc. split; simpl; [|intros q Hq; rewrite lookup_insert; by case_decide].
  intros q y. rewrite lookup_insert. case_decide as E; [|intros Hy; exists y; auto]. subst q. intros [= <-]. by exists x.
Qed.

Lemma shrunk_srs (s s1 s2 : state W) : srs s2 = srs s1 -> shrunk s s1 -> shrunk s s2.
Proof. intros E [A B]. split; by rewrite E. Qed.

Lemma get_sr_inv (s : state W) r x : get_sr s r = Ok x -> srs s !! r = Some x.
Proof. unfold get_sr. destruct (srs s !! r); [|done]. by intros [= ->]. Qed.

Lemma mark_for_rescind_shrunk (s : state W) r b s' : mark_for_rescind s r = Ok (b, s') -> shrunk s s'.
Proof.
  unfold mark_for_rescind. intros H. apply res_bind_ok in H as (x & Hx%get_sr_inv & H).
  destruct (truth _); injection H as <- <-; [done|]. apply (shrunk_put s r x); auto.
Qed.

Lemma invalidate_srs (s : state W) ra r s' : invalidate s ra r = Ok s' -> srs s' = srs s.
Proof.
  unfold invalidate. intros H. apply res_bind_ok in H as (x & _ & H). destruct (truth _); [|by injection H as <-].
  apply res_bind_ok in H as ([e w] & _ & [= <-]). done.
Qed.

Lemma walk_child_shrunk (s : state W) ra avoid c nodes n s' : walk_child s ra avoid c nodes = Ok (n, s') -> shrunk s s'.
Proof.
  unfold walk_child. intros H. apply res_bind_ok in H as (x & Hx%get_sr_inv & H).
  assert (shrunk s (put_sr s c (set_parent x 0))) as Hs by (apply (shrunk_put s c x); auto).
  destruct (sr_owner x =? avoid); [by injection H as _ <-|]. apply res_bind_ok in H as ([ok s1] & Hm & H).
  apply mark_for_rescind_shrunk in Hm. destruct ok; [|injection H as _ <-; by transitivity (put_sr s c (set_parent x 0))].
  apply res_bind_ok in H as (s2 & Hi%invalidate_srs & [= _ <-]). apply (shrunk_srs _ s1); [done|].
  by transitivity (put_sr s c (set_parent x 0)).
Qed.

Lemma walk_children_shrunk (ra : resource_action W) avoid r fuel : forall s nodes n s',
  walk_children fuel s ra avoid r nodes = Ok (n, s') -> shrunk s s'.
Proof.
  induction fuel as [|fuel IH]; intros s nodes n s' H; [done|]. simpl in H. apply res_bind_ok in H as (x & Hx%get_sr_inv & H).
  destruct (sr_children x) as [|c rest] eqn:Ec; [by injection H as _ <-|]. apply res_bind_ok in H as ([n1 s1] & Hw%walk_child_shrunk & H).
  transitivity s1; [|by eapply IH]. etransitivity; [|exact Hw]. apply (shrunk_put s r x); [done|by left|].
  intros d Hd. rewrite Ec. apply elem_of_cons. by right.
Qed.

Lemma walk_shrunk (ra : resource_action W) avoid fuel : forall s P Q n s', walk fuel s ra avoid P Q = Ok (n, s') -> shrunk s s'.
Proof.
  induction fuel as [|fuel IH]; intros s P [|r Q] n s' H; cbn [walk] in H; try by injection H as _ <-. 1: done.
  apply res_bind_ok in H as (x & _ & H). apply res_bind_ok in H as ([post s1] & Hc%walk_children_shrunk & H).
  transitivity s1; [done|]. by eapply IH.
Qed.

Lemma mark_shrunk s start todo avoid e n s' : forced_rescind_mark acts s start todo avoid = Ok (e, n, s') -> shrunk s s'.
Proof.
  unfold forced_rescind_mark. intros H. apply res_bind_ok in H as ([ok s1] & Hm%mark_for_rescind_shrunk & H).
  destruct ok; cbn [negb] in H; [|by injection H as _ _ <-]. apply res_bind_ok in H as (x & Hx%get_sr_inv & H).
  apply res_bind_ok in H as (s2 & H2 & H). apply res_bind_ok in H as (ra & _ & H).
  apply res_bind_ok in H as (s3 & H3%invalidate_srs & H). apply res_bind_ok in H as ([n4 s4] & H4%walk_shrunk & [= _ _ <-]).
  transitivity s1; [done|]. transitivity s3; [|done]. apply (shrunk_srs _ s2); [done|].
  destruct (sr_parent x =? 0); [by injection H2 as <-|]. apply res_bind_ok in H2 as (p & Hp%get_sr_inv & [= <-]).
  apply (shrunk_put s1 _ p); [done|by left|]. intros c Hc. simpl in Hc. unfold off_siblings in Hc. by apply list_elem_of_filter in Hc as [_ Hc].
Qed.
End Prefix.

(** ** The loop *)
Section Loop.
Context {W : Type} (there ready invalid : W -> Z -> Prop) (acts : list (option (resource_action W))).
Local Abbreviation sysok := (sys_ok there ready invalid acts).

(** A mark leaves the system in order. *)
Lemma mark_sys_ok s start nodes s' avoid e n :
  sysok s -> rescinded there ready invalid s avoid start nodes s' ->
  forced_rescind_mark acts s start [] avoid = Ok (e, n, s') -> sysok s'.
Proof.
  intros [Ht Hp Ho Hth Hrd Ha] Hres Hm. pose proof (rescinded_cells _ _ _ _ _ _ _ _ Hres Ho) as Hcells. destruct Hres as [_ _ Hrec _ _ Hw Hl _]. pose proof (mark_shrunk acts _ _ _ _ _ _ _ Hm) as [Hb Hd].
  assert (forall r x', srs s' !! r = Some x' -> exists x, srs s !! r = Some x /\ sr_type x' = sr_type x /\
    sr_owner x' = sr_owner x /\ mapped x' = mapped x) as Hback.
  { intros r x' Hx'. destruct (Hb r x' Hx') as (x & Hx & _). destruct (Hrec r x Hx) as (x2 & Hx2 & T & O & M & _).
    exists x. assert (x2 = x') as <- by congruence. done. }
  split.
  - intros p x' c Hx' Hc. destruct (Hb p x' Hx') as (x & Hx & _ & Hsub). apply Hd. by apply (Ht p x c Hx), Hsub.
  - intros r x' Hx'. destruct (Hb r x' Hx') as (x & Hx & [-> | ->] & _); [|by left].
    destruct (Hp r x Hx) as [|Hs]; [by left|right; by apply Hd].
  - done.
  - intros r x' Hx'. destruct (Hback r x' Hx') as (x & Hx & _). apply (Hw r). by eapply Hth.
  - intros r x' Hx' Hm'. destruct (Hback r x' Hx') as (x & Hx & _ & _ & E). apply (Hw r). apply (Hrd r x Hx). congruence.
  - intros r x' Hx'. destruct (Hback r x' Hx') as (x & Hx & -> & _). by apply (Ha r x Hx).
Qed.

(** Of the lists of partitions, only their cells matter for this. *)
Lemma list_sys_ok s h : sysok s -> cells_ok (put_heap s h) -> sysok (put_heap s h).
Proof. intros [Ht Hp Ho Hth Hrd Ha] Hc. by split. Qed.

(** From [s0] to [s], with [todo] marked on the way, for the death of [os]. *)
Record dinv (s0 : state W) (os : Z) (todo : list Z) (s : state W) : Prop := {
  d_ok : sysok s;
  d_rec r x : srs s0 !! r = Some x -> exists x', srs s !! r = Some x' /\ sr_type x' = sr_type x /\
    sr_owner x' = sr_owner x /\ mapped x' = mapped x /\ marked x' = (marked x || bool_decide (r ∈ todo)) /\
    (r ∈ todo -> sr_children x' = []);
  d_invalid r x : r ∈ todo -> srs s0 !! r = Some x -> mapped x = true -> invalid (world s) r;
  d_children r x c y : srs s0 !! r = Some x -> c ∈ sr_children x -> srs s0 !! c = Some y ->
    sr_owner y <> os -> marked y = false ->
    c ∈ todo \/ (~ r ∈ todo /\ exists x', srs s !! r = Some x' /\ c ∈ sr_children x');
  d_world : keeps there ready invalid (world s0) (world s);
  d_exists r : r ∈ todo -> exists x, srs s0 !! r = Some x /\ marked x = false;
  d_dom r : is_Some (srs s !! r) -> is_Some (srs s0 !! r);
  d_nodup : NoDup todo
}.

Lemma dinv_init s os : sysok s -> dinv s os [] s.
Proof.
  intros Hok. split; try done.
  - intros r x Hx. exists x. split_and!; try done; [|by intros ?%elem_of_nil].
    rewrite bool_decide_eq_false_2 by apply not_elem_of_nil. by rewrite orb_false_r.
  - by intros r x ?%elem_of_nil.
  - intros r x c y Hx Hc _ _ _. right. split; [apply not_elem_of_nil|]. by exists x.
  - by intros r ?%elem_of_nil.
  - apply NoDup_nil_2.
Qed.

Lemma dinv_list s0 os todo s h : dinv s0 os todo s -> cells_ok (put_heap s h) -> dinv s0 os todo (put_heap s h).
Proof. intros [A B C D E F G] Hc. split; try done. by apply list_sys_ok. Qed.

(** One more resource of the partition is marked. *)
Lemma dinv_mark s0 os todo s start x nodes s' e n :
  dinv s0 os todo s -> srs s !! start = Some x -> marked x = false ->
  rescinded there ready invalid s os start nodes s' -> forced_rescind_mark acts s start [] os = Ok (e, n, s') ->
  dinv s0 os (todo ++ nodes) s'.
Proof.
  intros [Hok Hrec Hinv Hch Hw Hex Hdom Hnd] Hx Hmx Hres Hm. pose proof (mark_sys_ok _ _ _ _ _ _ _ Hok Hres Hm) as Hok'.
  pose proof (mark_shrunk acts _ _ _ _ _ _ _ Hm) as [Hb _].
  destruct Hres as [Rnd Rn Rrec Rch Rinv Rw _ _].
  assert (forall r, r ∈ nodes -> exists y, srs s !! r = Some y /\ marked y = false) as Hn.
  { intros r Hr. apply Rn in Hr. destruct Hr as [|p z c y _ _ _ Hy _ Hmy]; eauto. }
  split; [done|..].
  - intros r z Hz. destruct (Hrec r z Hz) as (z1 & Hz1 & T1 & O1 & M1 & K1 & C1).
    destruct (Rrec r z1 Hz1) as (z2 & Hz2 & T2 & O2 & M2 & K2 & C2). exists z2. split; [done|]. split_and!; try congruence.
    + rewrite K2, K1, <- orb_assoc. f_equal. apply eq_true_iff_eq. rewrite orb_true_iff, !bool_decide_eq_true. by rewrite elem_of_app.
    + intros [Hr|Hr]%elem_of_app; [|by apply C2]. destruct (Hb r z2 Hz2) as (z3 & Hz3 & _ & Hsub).
      assert (z3 = z1) as -> by congruence. rewrite (C1 Hr) in Hsub. destruct (sr_children z2) as [|c l]; [done|].
      exfalso. by apply (not_elem_of_nil c), Hsub, list_elem_of_here.
  - intros r z [Hr|Hr]%elem_of_app Hz Hmz; [apply (Rw r); by eapply Hinv|].
    destruct (Hrec r z Hz) as (z1 & Hz1 & _ & _ & M1 & _). apply (Rinv r z1 Hr Hz1). congruence.
  - intros r z c y Hz Hc Hy Ho Hmy. destruct (Hch r z c y Hz Hc Hy Ho Hmy) as [Hin|[Hnr (z1 & Hz1 & Hc1)]].
    { left. apply elem_of_app. by left. }
    destruct (decide (c ∈ todo)) as [Hct|Hct]; [left; apply elem_of_app; by left|].
    destruct (Hrec c y Hy) as (y1 & Hy1 & _ & Oy & _ & Ky & _).
    assert (marked y1 = false) as Hmy1 by (by rewrite Ky, Hmy, bool_decide_eq_false_2). rewrite <- Oy in Ho.
    destruct (Rch r z1 c y1 Hz1 Hc1 Hy1 Ho Hmy1) as [Hin|Hin]; [left; apply elem_of_app; by right|].
    destruct (decide (r ∈ nodes)) as [Hr|Hr]; [left; apply elem_of_app; right|].
    + apply Rn. apply Rn in Hr. by apply (Reach_child s os start r z1 c y1).
    + right. split; [|done]. intros [|]%elem_of_app; done.
  - by eapply keeps_trans.
  - intros r [Hr|Hr]%elem_of_app; [auto|]. destruct (Hn r Hr) as (y & Hy & Hmy). destruct (Hdom r) as [z Hz]; [by eexists|].
    exists z. split; [done|]. destruct (Hrec r z Hz) as (z1 & Hz1 & _ & _ & _ & K & _). assert (z1 = y) as -> by congruence.
    rewrite Hmy in K. symmetry in K. by apply orb_false_iff in K as [? _].
  - intros r [y Hy]. destruct (Hb r y Hy) as (z & Hz & _). apply Hdom. by eexists.
  - apply NoDup_app. split; [done|]. split; [|done]. intros r Hr Hrn. destruct (Hn r Hrn) as (y & Hy & Hmy).
    destruct (Hex r Hr) as (z & Hz & _). destruct (Hrec r z Hz) as (z1 & Hz1 & _ & _ & _ & K & _). assert (z1 = y) as -> by congruence.
    by rewrite Hmy, (bool_decide_eq_true_2 _ Hr), orb_true_r in K.
Qed.

(** The first node of the list is taken off it. *)
Lemma detach_first_spec s os r l x :
  sysok s -> 0 < os -> ring (os_res s) (po_head os) (r :: l) -> srs s !! r = Some x ->
  exists h, dlist_detach (os_res s) r = Ok h /\ cells_ok (put_heap s h) /\ ring h (po_head os) l /\
    forall o k, 0 < o -> o <> os -> ring (os_res s) (po_head o) k -> ring h (po_head o) k.
Proof.
  intros Hok Hos Hr Hx. destruct (detach_cells s r x (ok_cells _ _ _ _ _ Hok) Hx) as (h & E & Hc & Hl). exists h. split; [done|]. split; [done|].
  assert (region s r = Some os) as Er by (apply (ring_region s os (r :: l)); [apply Hok|done|done|lmem]).
  assert (sr_owner x = os) as Eo by (rewrite (region_node s r x) in Er; [congruence|apply Hok|done]).
  pose proof Hr as [Hn _]. apply NoDup_cons in Hn as [_ Hn]. split.
  - pose proof (filter_out [] l r Hn) as Ef. cbn [app] in Ef. rewrite <- Ef. apply Hl; [done|done|intros _; lmem].
  - intros o k Ho Hne Hk. rewrite <- (filter_all (fun q => q <> r) k); [apply Hl; try done; congruence|].
    apply Forall_forall. intros q Hq ->. assert (region s r = Some o) by (apply (ring_region s o k); [apply Hok|done|done|lmem]). congruence.
Qed.

Lemma ring_start h os l curr : ring h (po_head os) l -> head (l ++ [po_head os]) = Some curr -> dlist_next h (po_head os) = Ok curr.
Proof. intros Hr Hc. unfold dlist_next, get_next. by rewrite (ring_head _ _ _ Hr), Hc. Qed.

Lemma ring_second h os r l : ring h (po_head os) (r :: l) -> exists next, head (l ++ [po_head os]) = Some next /\ dlist_next h r = Ok next.
Proof. intros [_ [_ Hc]]. destruct l as [|y l]; simpl in Hc; destruct Hc as [[Hn _] _]; eexists; (split; [done|]); unfold dlist_next, get_next; by rewrite Hn. Qed.

Lemma death_loop_spec s0 os : 0 < os -> forall l fuel todo s curr,
  dinv s0 os todo s -> ring (os_res s) (po_head os) l -> head (l ++ [po_head os]) = Some curr -> (length l < fuel)%nat ->
  (forall r, r ∈ l -> is_Some (srs s0 !! r)) ->
  exists todo' s', death_loop acts fuel s os curr todo = Ok (todo', s') /\ dinv s0 os todo' s' /\
    ring (os_res s') (po_head os) [] /\ (forall o k, 0 < o -> o <> os -> ring (os_res s) (po_head o) k -> ring (os_res s') (po_head o) k) /\
    (forall r, r ∈ todo -> r ∈ todo') /\
    forall r x, r ∈ l -> srs s0 !! r = Some x -> marked x = false -> r ∈ todo'.
Proof.
  intros Hos. induction l as [|r l IH]; intros fuel todo s curr Hd Hl Hcurr Hf Hex; (destruct fuel as [|fuel]; [simpl in Hf; lia|]);
    cbn [death_loop]; injection Hcurr as <-.
  - rewrite Z.eqb_refl. exists todo, s. split_and!; try done. by intros r x ?%elem_of_nil.
  - pose proof Hl as [Hnd _]. apply NoDup_cons in Hnd as [Hhd _].
    destruct (Z.eqb_spec r (po_head os)) as [->|_]; [exfalso; apply Hhd; lmem|].
    destruct (Hex r) as [x0 Hx0]; [apply list_elem_of_here|].
    destruct (d_rec _ _ _ _ Hd r x0 Hx0) as (x & Hx & _ & _ & _ & Hk & _). unfold get_sr. rewrite Hx. cbn [of_option res_bind].
    destruct (ring_second _ _ _ _ Hl) as (next & Enext & En). rewrite En. cbn [res_bind].
    destruct (detach_first_spec s os r l x (d_ok _ _ _ _ Hd) Hos Hl Hx) as (h & Eh & Hc & Hl1 & Hothers). rewrite Eh. cbn [res_bind].
    change (truth (Z.land (sr_flags x) RES_RESCINDED)) with (marked x).
    pose proof (dinv_list s0 os todo s h Hd Hc) as Hd1. set (s1 := put_heap s h) in *. simpl in Hf.
    assert (forall q, q ∈ l -> is_Some (srs s0 !! q)) as Hex1 by (intros q Hq; apply Hex, elem_of_cons; by right).
    destruct (marked x) eqn:Em.
    + destruct (IH fuel todo s1 next Hd1 Hl1 Enext) as (todo' & s' & -> & Hd' & Hl' & Ho' & Hsub & Hin); [lia|done|].
      exists todo', s'. split; [done|]. split; [done|]. split; [done|]. split; [auto|].
      split; [done|]. intros q y [->|Hq]%elem_of_cons Hy Hmy; [|by eapply Hin]. apply Hsub. simplify_eq.
      rewrite Hmy in Hk. symmetry in Hk. by apply bool_decide_eq_true in Hk.
    + destruct (d_ok _ _ _ _ Hd1) as [Ht Hp Ho Hth Hrd Ha]. destruct (Ha r x Hx) as (ra & Hra & Hlaws).
      destruct (mark_spec there ready invalid ra acts s1 r x os) as (nodes & s2 & E & Hres); try done; [by eapply Hp|].
      rewrite mark_prefix, E. cbn [res_bind]. pose proof (dinv_mark _ _ _ _ _ _ _ _ _ _ Hd1 Hx Em Hres E) as Hd2.
      assert (r ∈ nodes) as Hrn by (apply (rs_nodes _ _ _ _ _ _ _ _ Hres); constructor).
      pose proof (rs_lists _ _ _ _ _ _ _ _ Hres) as El. rewrite El. change (os_res s1) with h. rewrite (ring_start h os l next Hl1 Enext). cbn [res_bind].
      destruct (IH fuel (todo ++ nodes) s2 next Hd2) as (todo' & s' & -> & Hd' & Hl' & Ho' & Hsub & Hin); [by rewrite El|done|lia|done|].
      exists todo', s'. split; [done|]. split; [done|]. split; [done|]. split; [intros o k H1 H2 H3; apply Ho'; [done|done|rewrite El; by apply Hothers]|].
      split; [intros q Hq; apply Hsub, elem_of_app; by left|].
      intros q y [->|Hq]%elem_of_cons Hy Hmy; [|by eapply Hin]. apply Hsub, elem_of_app. by right.
Qed.

(** Everything derived from a marked resource is marked. *)
Lemma death_closed s0 os todo s r q :
  dinv s0 os todo s -> r ∈ todo -> reach s0 os r q -> q ∈ todo.
Proof.
  intros Hd Hr. induction 1 as [|p x c y _ Hp Hx Hc Hy Ho Hm]; [done|].
  by destruct (d_children _ _ _ _ Hd p x c y Hx Hc Hy Ho Hm) as [|[? _]].
Qed.

End Loop.

(** What may happen before the deferred work runs: the records of [todo] stay as they are, the resources of other
    partitions on their lists, and what holds of their objects goes on holding. *)
Record kept {W} (there ready invalid : W -> Z -> Prop) (os : Z) (todo : list Z) (s1 s2 : state W) : Prop := {
  k_rec q : q ∈ todo -> srs s2 !! q = srs s1 !! q;
  k_cells : cells_ok s2;
  k_lists q x : q ∈ todo -> srs s2 !! q = Some x -> sr_owner x <> os -> on_list s2 q;
  k_world q : q ∈ todo -> keeps_at there ready invalid (world s1) (world s2) q
}.

(** The deferred work. *)
Lemma death_cleanup_ok {W} (there ready invalid : W -> Z -> Prop) acts (s0 : state W) os todo s s2 :
  dinv there ready invalid acts s0 os todo s -> kept there ready invalid os todo s s2 ->
  exists s3, forced_rescind_cleanup acts s2 todo = Ok s3 /\ srs s3 = srs s2 /\
    forall o k, 0 < o -> o <> os -> ring (os_res s2) (po_head o) k -> ring (os_res s3) (po_head o) (filter (fun q => q ∉ todo) k).
Proof.
  intros [[Ht Hp Ho Hth Hrd Ha] Hrec Hinv Hch Hw Hex Hdom Hnd] [K1 K2 K3 K4].
  destruct (cleanup_nodes_spec there ready invalid acts (rev todo) s2 K2) as (s3 & E & [A B C D]); [by apply nodup_rev| |].
  - apply List.Forall_rev, Forall_forall. intros q Hq.
    destruct (Hex q Hq) as (x & Hx & _). destruct (Hrec q x Hx) as (x' & Hx' & _ & _ & M & K & Cc).
    destruct (Ha q x' Hx') as (ra & Hra & Hlaws). exists x', ra. rewrite K1 by done. split; [done|]. split; [by rewrite K, bool_decide_eq_true_2, orb_true_r|].
    split; [by apply Cc|]. split; [done|]. split; [done|]. split; [apply (K4 q Hq); by eapply Hth|].
    intros Hm. split; [apply (K4 q Hq); by eapply Hrd|]. apply (K4 q Hq), (Hinv q x Hq Hx). congruence.
  - exists s3. split; [done|]. split; [done|]. intros o k Ho' Hne Hk.
    rewrite (list_filter_iff _ (fun q => q ∉ rev todo)) by (intros q; by rewrite elem_of_rev).
    apply C; try done. intros q y Hq Hy Ey. rewrite elem_of_rev in Hq. destruct (K3 q y Hq Hy) with y as (l & Hl & Hin); [congruence|done|].
    rewrite Ey in Hl. by rewrite (ring_unique _ _ _ _ Hk Hl).
Qed.

(** What the death of [os], which held [l], has done: [todo] is what is to be cleaned up. *)
Record dead {W} (there ready invalid : W -> Z -> Prop) (acts : list (option (resource_action W)))
    (s : state W) (os : Z) (l todo : list Z) (s' : state W) : Prop := {
  dd_list : ring (os_res s') (po_head os) [];
  dd_lists o k : 0 < o -> o <> os -> ring (os_res s) (po_head o) k -> ring (os_res s') (po_head o) k;
  dd_reached r q x y : r ∈ l -> srs s !! r = Some x -> marked x = false -> reach s os r q -> srs s !! q = Some y ->
    exists y', srs s' !! q = Some y' /\ q ∈ todo /\ marked y' = true /\ sr_children y' = [] /\
      (mapped y = true -> invalid (world s') q);
  dd_others q y : ~ q ∈ todo -> srs s !! q = Some y -> exists y', srs s' !! q = Some y' /\ marked y' = marked y;
  dd_kept : kept there ready invalid os todo s' s';
  dd_cleanup s2 : kept there ready invalid os todo s' s2 ->
    exists s3, forced_rescind_cleanup acts s2 todo = Ok s3 /\ srs s3 = srs s2 /\
    forall o k, 0 < o -> o <> os -> ring (os_res s2) (po_head o) k -> ring (os_res s3) (po_head o) (filter (fun q => q ∉ todo) k)
}.

Lemma partition_death_spec {W} (there ready invalid : W -> Z -> Prop) acts (s : state W) os l :
  sys_ok there ready invalid acts s -> listed s -> 0 < os -> ring (os_res s) (po_head os) l -> (forall r, r ∈ l -> is_Some (srs s !! r)) ->
  exists todo s', partition_death_cleanup acts s os = Ok (0, rcu_defer s' (Death_cleanup todo os)) /\
    dead there ready invalid acts s os l todo s'.
Proof.
  intros Hok Hli Hos Hl Hex. assert (exists curr, head (l ++ [po_head os]) = Some curr) as [curr Hcurr] by (destruct l; eauto).
  destruct (death_loop_spec there ready invalid acts s os Hos l (list_fuel s) [] s curr (dinv_init _ _ _ _ _ _ Hok) Hl Hcurr)
    as (todo & s' & E & Hd & El & Eo & _ & Hin); [pose proof (ring_size _ _ _ Hl); unfold list_fuel; lia|done|].
  exists todo, s'. unfold partition_death_cleanup. rewrite (ring_start _ _ _ _ Hl Hcurr). cbn [res_bind]. rewrite E.
  split; [done|]. split; [done|done|..].
  - intros r q x y Hr Hx Hm Hreach Hy. pose proof (death_closed _ _ _ _ _ _ _ _ _ _ Hd (Hin r x Hr Hx Hm) Hreach) as Hq.
    destruct (d_rec _ _ _ _ _ _ _ _ Hd q y Hy) as (y' & Hy' & _ & _ & _ & K & C). exists y'. split; [done|]. split; [done|].
    split; [by rewrite K, bool_decide_eq_true_2, orb_true_r|]. split; [auto|]. by apply (d_invalid _ _ _ _ _ _ _ _ Hd q y).
  - intros q y Hq Hy. destruct (d_rec _ _ _ _ _ _ _ _ Hd q y Hy) as (y' & Hy' & _ & _ & _ & K & _). exists y'. split; [done|].
    by rewrite K, bool_decide_eq_false_2, orb_false_r.
  - split; try done; [apply (ok_cells _ _ _ _ _ (d_ok _ _ _ _ _ _ _ _ Hd))|]. intros q x Hq Hx Hne x2 Hx2. assert (x2 = x) as -> by congruence.
    destruct (d_exists _ _ _ _ _ _ _ _ Hd q Hq) as (y & Hy & Hmy). destruct (d_rec _ _ _ _ _ _ _ _ Hd q y Hy) as (y' & Hy' & _ & O & _).
    assert (y' = x) as -> by congruence. destruct (Hli q y Hy Hmy y Hy) as (k & Hk & Hin'). exists k. split; [|done]. rewrite O in Hne |- *. apply Eo; try done.
    by apply (co_node s (ok_cells _ _ _ _ _ Hok) q y Hy).
  - intros s2. by eapply death_cleanup_ok.
Qed.

(** ** Property *)

(** C5: the death of a partition takes every resource it holds, of the types whose actions keep the laws of
    [RescindLaws] (memory and device memory do), and everything derived from that in other partitions:
    [partition_death_cleanup] returns, empties the partition's list, leaves the others' and hands the clean-up to deferred
    work; every resource of the partition that was
    not yet rescinded, and every resource derived from one of them through partitions
    other than the dying one, is marked, loses its children and, where it was mapped, can
    no longer be used; every resource not to be cleaned up keeps its mark as it was.  When the
    deferred clean-up runs, with those records and the partition still there and its resources in other partitions on
    their lists, it does not fault and takes them off the lists of the other partitions, which stay in
    order; the list of the dead partition does not ([death_relinks]). *)
Theorem partition_death_rescinds {W} (there ready invalid : W -> Z -> Prop) acts (s : state W) os l :
  sys_ok there ready invalid acts s -> listed s -> 0 < os -> ring (os_res s) (po_head os) l -> (forall r, r ∈ l -> is_Some (srs s !! r)) ->
  exists todo s', partition_death_cleanup acts s os = Ok (0, rcu_defer s' (Death_cleanup todo os)) /\
    dead there ready invalid acts s os l todo s'.
Proof. apply partition_death_spec. Qed.

(** Partition 20 of the example holds resource 2, from which 3 of partition 10 is derived. *)
Lemma partition_death_rescinds_witness :
  exists todo s', partition_death_cleanup demo_acts demo 20 = Ok (0, rcu_defer s' (Death_cleanup todo 20)) /\
    exists y', srs s' !! 3 = Some y' /\ marked y' = true.
Proof.
  destruct (partition_death_rescinds demo_there demo_ready demo_invalid demo_acts demo 20 [2; 4; 5] demo_ok demo_listed) as (todo & s' & E & [_ _ Hr _ _ _]).
  - done.
  - exact demo_ring_20.
  - intros r Hr. repeat (apply elem_of_cons in Hr as [->|Hr]; [by eexists|]). by apply not_elem_of_nil in Hr.
  - exists todo, s'. split; [exact E|].
    destruct (Hr 2 3 (SysResource 102 MEM_ADDR 0 20 1 [3]) (SysResource 103 MEM_ADDR 1 10 2 [])) as (y' & H1 & _ & H2 & _);
      [apply list_elem_of_here|reflexivity|reflexivity| |reflexivity|by exists y'].
    eapply Reach_child; [constructor|reflexivity|apply list_elem_of_here|reflexivity|done|reflexivity].
Defined.

(** The clean-up detaches the partition's resources, which are on no list any more, again: through the pointers they were
    left with, the empty list of the dead partition gets a node back. *)
Example death_relinks :
  (let! (_, s) := partition_death_cleanup demo_acts demo 20 in
   let! s2 := forced_rescind_cleanup demo_acts s [2; 3; 4] in
   Ok (deferred s, list_of s 20, dl_next (os_res s2) !! po_head 20, list_of s2 10)) =
  Ok ([Rescind_cleanup [5]; Death_cleanup [2; 3; 4] 20], [], Some 4, [1]).
Proof. vm_compute. reflexivity. Qed.
