(* ===== verification/Os.v ===== *)
(** * Os: partitions, from creation to destruction

    [hype/os.c], [hype/os.h], [hype/lpidtag.c], [hype/h_start.c], [hype/h_destroy.c] and the clean-up at the end of
    [partition_death_cleanup] in [hype/resource.c].  A partition ([struct os]) is found by
    its id in a hash table ([Hash]), has a ring of event handlers ([Dlist]), processors that
    own time slots ([Sched]) and resources ([Resource]); creating, starting and destroying
    one is where these components meet.  A structure is named by its address, 0 is [NULL];
    a handler by that of its [le_list], its first field.  Operations run one after the other.
    Left out are the fields that other components own (memory map, page table, page-share
    manager), the register state [arch_init_thread] sets up, and [arch_os_init]. *)

From S2P Require Import Prelude Hcall Sched Resource Death Bitmap PgAlloc Hash Dlist.

Definition LPAR_DIE : Z := 1.
Definition PO_STATE_CREATED : Z := 1.
Definition PO_STATE_RUNNABLE : Z := 2.

(** ** Events *)
Section Events.
(** The handlers, on the rest of the system: what [le_func] returns and leaves. *)
Context {W : Type} (le_func : Z -> Z -> Z -> W -> res (Z * W)).

Definition register_event (h : dheap) (oe_list le : Z) : res (Z * dheap) :=
  let! h := dlist_init h le in
  let! h := dlist_insert h oe_list le in
  Ok (0, h).

Definition unregister_event (h : dheap) (le : Z) : res (Z * dheap) :=
  let! h := dlist_detach h le in Ok (0, h).

(** [while (curr != &os->po_events.oe_list)] *)
Fixpoint run_loop (fuel : nat) (h : dheap) (w : W) (os oe_list event curr : Z) : res (dheap * W) :=
  if curr =? oe_list then Ok (h, w)
  else
    match fuel with
    | O => Fault Out_of_fuel
    | S fuel =>
        let le := curr in
        let! h := dlist_detach h le in
        let! curr := dlist_next h curr in
        let! (ret, w) := le_func os le event w in
        let! h := if (ret =? 0) && negb (event =? LPAR_DIE) then dlist_insert h curr le else Ok h in
        run_loop fuel h w os oe_list event curr
    end.

Definition run_event (fuel : nat) (h : dheap) (w : W) (os oe_list event : Z) : res (dheap * W) :=
  let! curr := dlist_next h oe_list in run_loop fuel h w os oe_list event curr.

(** The handlers of a list, in order. *)
Fixpoint run_handlers (os event : Z) (l : list Z) (w : W) : res W :=
  match l with
  | [] => Ok w
  | le :: l => let! (_, w) := le_func os le event w in run_handlers os event l w
  end.

(** A node that was just unlinked still points at its neighbours, so putting the rest
    of the ring in front of it stores back what is there. *)
Lemma reinsert_lost h hd l x nx :
  ring h hd l -> head (l ++ [hd]) = Some nx -> dl_next h !! x = Some nx -> dl_prev h !! x = Some hd -> x ∉ hd :: l ->
  exists h', dlist_insert h nx x = Ok h' /\ ring h' hd l /\ dl_next h' !! x = Some nx.
Proof.
  intros Hr Hnx Hxn Hxp Hx. destruct (ring_cut h hd [] l Hr) as (p & b & a & q & Hp & Hq & [Hl1 Hl2] & _).
  destruct p as [|? [|]]; try done. injection Hp as <-. rewrite Hq in Hnx. injection Hnx as ->.
  assert (nx ∈ hd :: l) as Hin.
  { assert (nx ∈ l ++ [hd]) as H by (rewrite Hq; apply list_elem_of_here). lmem. }
  exists (spliced h hd nx hd x). split; [|split].
  - unfold dlist_insert, dlist_ins_before, get_prev. rewrite Hl2, Hxp. cbn [of_option res_bind]. by eapply splice_stores.
  - destruct Hr as [Hnd Hc]. split; [done|]. revert Hc. apply chain_frame; intros p y q' E Hne; simpl.
    + rewrite lookup_insert. case_decide; [congruence|]. by rewrite lookup_insert_ne.
    + assert (y ∈ hd :: l) as Hy by (apply elem_mid in E; rewrite app_comm_cons in E; lmem).
      rewrite lookup_insert. case_decide; [congruence|]. rewrite lookup_insert_ne; [done|]. by intros ->.
  - simpl. rewrite !lookup_insert_ne; [done|..]; intros ->; by apply Hx, list_elem_of_here.
Qed.

Lemma run_loop_spec os hd event l : forall h w w' x,
  ring h hd l -> head (l ++ [hd]) = Some x -> run_handlers os event l w = Ok w' ->
  exists h', run_loop (length l) h w os hd event x = Ok (h', w') /\ ring h' hd [].
Proof.
  induction l as [|y l IH]; intros h w w' x Hr Hx Hrun; simpl in Hx; injection Hx as <-.
  - simpl. rewrite Z.eqb_refl. injection Hrun as ->. by exists h.
  - assert (y <> hd) as Hne by (destruct Hr as [Hnd _]; inversion_clear Hnd as [|? ? Hn]; intros ->; apply Hn; lmem).
    cbn [length run_loop run_handlers] in *. destruct (Z.eqb_spec y hd); [done|].
    apply res_bind_ok in Hrun as ([ret w1] & Hf & Hrun).
    destruct (dlist_detach_ring h hd [] y l Hr) as (h1 & -> & Hr1 & En & Ep & _). cbn [res_bind app] in *.
    assert (exists nx, head (l ++ [hd]) = Some nx) as [nx Hnx] by (destruct l; simpl; eauto).
    destruct Hr as [Hnd Hc]. assert (link h hd y /\ link h y nx) as [[_ H1] [H2 _]].
    { simpl in Hc. destruct (l ++ [hd]) as [|z q]; [done|]. injection Hnx as ->. tauto. }
    unfold dlist_next, get_next. rewrite En, H2. cbn [of_option res_bind]. rewrite Hf. cbn [res_bind].
    destruct ((ret =? 0) && negb (event =? LPAR_DIE)); [|by apply (IH h1 w1)].
    destruct (reinsert_lost h1 hd l y nx) as (h2 & -> & Hr2 & _); try done; [by rewrite En|by rewrite Ep| |by apply (IH h2 w1)].
    inversion_clear Hnd as [|? ? Hh Hl]. inversion_clear Hl as [|? ? Hy _]. intros [->|Hin]%elem_of_cons; done.
Qed.

End Events.

(** A ring read from its second node. *)
Lemma ring_rotate h x y l : ring h x (y :: l) -> ring h y (l ++ [x]).
Proof.
  intros [Hnd Hc]. split.
  - assert (y :: l ++ [x] ≡ₚ x :: y :: l) as ->; [|done]. rewrite (Permutation_app_comm l [x]). apply Permutation_swap.
  - change (chain h (((y :: l) ++ [x]) ++ y :: [])). apply chain_join. destruct Hc as [Hl Hc]. split; [exact Hc|]. done.
Qed.

(** A new handler comes last. *)
Lemma register_event_ring h hd l le a b :
  ring h hd l -> le ∉ hd :: l -> dl_next h !! le = Some a -> dl_prev h !! le = Some b ->
  exists h', register_event h hd le = Ok (0, h') /\ ring h' hd (l ++ [le]) /\
    forall y, y ∉ hd :: l ++ [le] -> dl_next h' !! y = dl_next h !! y /\ dl_prev h' !! y = dl_prev h !! y.
Proof.
  intros Hr Hle Ha Hb. unfold register_event. destruct (dlist_init_ring h le a b Ha Hb) as (h1 & -> & Hr1 & Hk). cbn [res_bind].
  assert (ring h1 hd l) as Hr2 by (apply (ring_frame h); [|done]; intros y Hy; apply Hk; by intros ->).
  destruct (dlist_ins_before_ring h1 le [] [] hd l le Hr1 Hr2) as (h2 & E & Hr3 & Hk2); [|done|].
  - simpl. intros x [->|Hx]%elem_of_cons; [done|by apply elem_of_nil in Hx].
  - unfold dlist_insert. rewrite E. cbn [res_bind]. exists h2. split; [done|]. simpl in Hr3. rewrite app_nil_r in Hr3.
    split; [by apply ring_rotate|]. intros y Hy. destruct (Hk2 y) as [-> ->]; [..|apply Hk]; intros Hin; apply Hy; simpl in Hin; lmem.
Qed.

(** ** Tags of partitions in the translation hardware *)
Definition lpidtag_init (halloc : Z -> option (list Z)) (num_lpidr_bits : Z) : res lbm :=
  let! l := of_option Null_deref (lbm_alloc halloc (shl64 1 num_lpidr_bits)) in lbm_set_all_bits l 0.

(** The tag, of 16 bits, and the map; [disturb] and [wide] are as for [lbm_acquire]. *)
Definition lpidtag_acquire disturb wide (lpidtags : lbm) : res (Z * lbm) :=
  let! (bit, l) := lbm_acquire disturb wide lpidtags in
  cassert (negb (u16 bit =? 2 ^ 16 - 1)) (Ok (u16 bit, l)).

Definition lpidtag_release (lpidtags : lbm) (po_lpid_tag : Z) : res lbm :=
  let! (_, l) := lbm_release lpidtags po_lpid_tag in Ok l.

(** ** Partitions *)

(** [struct os]: [oe_list] is the address of the head of its ring of events. *)
Record os := Os { po_lpid : Z; po_state : Z; os_cpu : list Z; oe_list : Z; po_lpid_tag : Z }.

(** The partitions by address, the directory, the last id, the nodes of the event
    rings, the schedulers, the resources, and the rest of the system. *)
Record state (W : Type) := State {
  oss : gmap Z os;
  os_hash : hash_table;
  cur_lpid : Z;
  events : dheap;
  scheds : Sched.state;
  resources : Resource.state W;
  lpidtags : lbm
}.
Arguments State {W}.
Arguments oss {W}.
Arguments os_hash {W}.
Arguments cur_lpid {W}.
Arguments events {W}.
Arguments scheds {W}.
Arguments resources {W}.
Arguments lpidtags {W}.

Definition os_hashfunc (lpid log_tbl_size : Z) : Z := lpid mod 13.

(** [po_lpid] has 32 bits. *)
Definition set_po_lpid (o : os) (lpid : Z) : os := Os (u32 lpid) (po_state o) (os_cpu o) (oe_list o) (po_lpid_tag o).
Definition set_po_state (o : os) (st : Z) : os := Os (po_lpid o) st (os_cpu o) (oe_list o) (po_lpid_tag o).

(** A signed 32-bit argument widened to a word. *)
Definition sext32 (x : Z) : Z := if u32 x <? 2 ^ 31 then u32 x else u64 (u32 x - 2 ^ 32).

Section Partitions.
Context {W : Type}.

Definition put_oss (s : state W) (a : Z) (o : os) : state W :=
  State (<[a := o]> (oss s)) (os_hash s) (cur_lpid s) (events s) (scheds s) (resources s) (lpidtags s).
Definition del_oss (s : state W) (a : Z) : state W :=
  State (delete a (oss s)) (os_hash s) (cur_lpid s) (events s) (scheds s) (resources s) (lpidtags s).
Definition set_hash (s : state W) (ht : hash_table) : state W :=
  State (oss s) ht (cur_lpid s) (events s) (scheds s) (resources s) (lpidtags s).
Definition set_lpid (s : state W) (n : Z) : state W :=
  State (oss s) (os_hash s) n (events s) (scheds s) (resources s) (lpidtags s).
Definition set_events (s : state W) (h : dheap) : state W :=
  State (oss s) (os_hash s) (cur_lpid s) h (scheds s) (resources s) (lpidtags s).
Definition set_scheds (s : state W) (x : Sched.state) : state W :=
  State (oss s) (os_hash s) (cur_lpid s) (events s) x (resources s) (lpidtags s).
Definition set_resources (s : state W) (r : Resource.state W) : state W :=
  State (oss s) (os_hash s) (cur_lpid s) (events s) (scheds s) r (lpidtags s).

Definition set_tags (s : state W) (l : lbm) : state W :=
  State (oss s) (os_hash s) (cur_lpid s) (events s) (scheds s) (resources s) l.

Definition get_os (s : state W) (a : Z) : res os := of_option Null_deref (oss s !! a).

(** [cpu_create], on the memory [halloc] returned; a [cpu] reaches its partition's id
    through a pointer, so the id it shows is set when the partition gets one. *)
Definition cpu_create (s : state W) (pcpu cpu_idx : Z) : res (Z * state W) :=
  if pcpu =? 0 then Ok (0, s)
  else
    check! negb (pcpu =? PAGE_ALLOC_ERROR) else Out_of_bounds in
    let k := Sched.Cpu cpu_idx (Sched.SchedPoll 0 0 0 0 0) 0 in
    Ok (pcpu, set_scheds s (Sched.put_cpu (scheds s) pcpu k)).

(** The loop of [os_alloc] over the addresses [halloc] returned; [false] is the jump to
    [unwind]. *)
Fixpoint create_cpus (s : state W) (a : Z) (mem : list Z) (i : Z) : res (bool * state W) :=
  match mem with
  | [] => Ok (true, s)
  | m :: mem =>
      let! (pcpu, s) := cpu_create s m i in
      if pcpu =? 0 then Ok (false, s)
      else
        let! o := get_os s a in
        create_cpus (put_oss s a (Os (po_lpid o) (po_state o) (os_cpu o ++ [pcpu]) (oe_list o) (po_lpid_tag o))) a mem (i + 1)
  end.

(** Memory of the processors given back. *)
Fixpoint free_cpus (s : state W) (l : list Z) : state W :=
  match l with
  | [] => s
  | c :: l => free_cpus (set_scheds s (Sched.State (delete c (Sched.cpus (scheds s))) (Sched.hype_per_cpu (scheds s)))) l
  end.

(** [htab_free] and [os_psm_destroy], which [os_free] runs first. *)
Context (free_tables : Z -> Resource.state W -> res (Resource.state W)).

Definition os_free (s : state W) (a : Z) : res (state W) :=
  let! o := get_os s a in
  let! r := free_tables a (resources s) in
  let s := free_cpus (set_resources s r) (os_cpu o) in
  let! (_, ht) := ht_remove os_hashfunc (os_hash s) (po_lpid o) in
  Ok (del_oss (set_resources (set_hash s ht) (Resource.free_os_res (resources s) a)) a).

(** [os_alloc], with the addresses [halloc] returns for the partition and for its
    processors, and that of its event list. *)
Definition os_alloc (s : state W) (a : Z) (mem : list Z) (oe : Z) : res (Z * state W) :=
  if a =? 0 then Ok (0, s)
  else
    check! negb (a =? PAGE_ALLOC_ERROR) else Out_of_bounds in
    let! (ok, s) := create_cpus (put_oss s a (Os 0 0 [] oe 0)) a mem 0 in
    if ok : bool then Ok (a, s) else let! s := os_free s a in Ok (0, s).

Context (halloc : Z -> list (list hash_entry)).

(** The id every processor of the partition now shows. *)
Fixpoint show_lpid (s : state W) (l : list Z) (lpid : Z) : res (state W) :=
  match l with
  | [] => Ok s
  | c :: l =>
      let! k := Sched.get_cpu (scheds s) c in
      show_lpid (set_scheds s (Sched.put_cpu (scheds s) c (Sched.Cpu (Sched.logical_cpu_num k) (Sched.sched k) lpid))) l lpid
  end.

Definition os_create (s : state W) (a : Z) (mem : list Z) (oe : Z) : res (Z * state W) :=
  let! (a, s) := os_alloc s a mem oe in
  if a =? 0 then Ok (0, s)
  else
    let! o := get_os s a in
    let lpid := add64 (cur_lpid s) 1 in
    let o := set_po_lpid (set_po_state o PO_STATE_CREATED) lpid in
    let! s := show_lpid (put_oss (set_lpid s lpid) a o) (os_cpu o) (po_lpid o) in
    let! ht := ht_insert os_hashfunc halloc (os_hash s) (Entry (po_lpid o) a) in
    let s := set_hash s ht in
    let! h := dlist_init (events s) (oe_list o) in
    let s := set_events s h in
    Ok (a, set_resources s (Resource.init_os_res (resources s) a)).

(** [cur] is the caller's partition. *)
Definition os_lookup (s : state W) (cur lpid : Z) : res Z :=
  if lpid =? H_SELF_LPID then Ok cur
  else
    let! e := ht_lookup os_hashfunc (os_hash s) lpid in
    Ok (match e with Some e => he_obj e | None => 0 end).

Definition os_init : hash_table := ht_init.

(** ** Starting and destroying *)
Definition h_start (s : state W) (cur lpid : Z) : res (Z * state W) :=
  let! a := os_lookup s cur (sext32 lpid) in
  if a =? 0 then Ok (H_Parameter, s)
  else
    let! o := get_os s a in
    if negb (po_state o =? PO_STATE_CREATED) then Ok (H_Parameter, s)
    else
      let! c := aget (os_cpu o) 0 in
      let! k := Sched.get_cpu (scheds s) c in
      if Sched.required (Sched.sched k) =? 0 then Ok (H_UNAVAIL, s)
      else
        let s := put_oss s a (set_po_state o PO_STATE_RUNNABLE) in
        let! sc := Sched.run_cpu (scheds s) c in
        Ok (H_Success, set_scheds s sc).

Context (int_shl shr_all : Z -> Z) (acts : list (option (Resource.resource_action W))).
Context (le_func : Z -> Z -> Z -> Sched.state * Resource.state W -> res (Z * (Sched.state * Resource.state W))).

(** [for (cpu = 0; cpu < MAX_CPU; ++cpu)] *)
Fixpoint stop_cpus (sc : Sched.state) (l : list Z) : res Sched.state :=
  match l with
  | [] => Ok sc
  | c :: l =>
      let! k := Sched.get_cpu sc c in
      let sc := Sched.put_cpu sc c (Sched.set_runnable k 0) in
      let! (_, sc) := Sched.locked_set_sched_params int_shl shr_all sc c (Sched.logical_cpu_num k) 0 0 in
      stop_cpus sc l
  end.

(** [cur] is the caller's partition, [ctrl_os] the controlling one; [None] is
    [boot_shutdown], which does not return. *)
Definition h_destroy_partition (fuel : nat) (s : state W) (cur ctrl_os sid : Z) : res (option (Z * state W)) :=
  let! a := if sid =? H_SELF_LPID then Ok cur else os_lookup s cur sid in
  if cur =? a then Ok (if a =? ctrl_os then None else Some (H_Parameter, s))
  else if a =? 0 then Ok (Some (H_Parameter, s))
  else
    let! o := get_os s a in
    let! (h, (sc, r)) := run_event le_func fuel (events s) (scheds s, resources s) a (oe_list o) LPAR_DIE in
    let! sc := stop_cpus sc (os_cpu o) in
    let! (_, r) := Resource.partition_death_cleanup acts r a in
    Ok (Some (H_Success, set_resources (set_scheds (set_events s h) sc) r)).

(** [arch_os_destroy] *)
Definition arch_os_destroy (s : state W) (a : Z) : res (state W) :=
  let! o := get_os s a in
  let! l := lpidtag_release (lpidtags s) (po_lpid_tag o) in Ok (set_tags s l).

(** [death_rcu_cleanup], when the deferred work is run. *)
Definition death_rcu_cleanup (s : state W) (todo : list Z) (a : Z) : res (state W) :=
  let! r := Resource.forced_rescind_cleanup acts (resources s) todo in
  let! s := arch_os_destroy (set_resources s r) a in
  os_free s a.
End Partitions.

(** ** The directory of partitions *)
Definition good_mem (m : Z) : Prop := m <> 0 /\ m <> PAGE_ALLOC_ERROR.

Lemma os_hashfunc_nonneg k log : 0 <= os_hashfunc k log.
Proof. unfold os_hashfunc. dlia. Qed.

Section Directory.
Context {W : Type} (free_tables : Z -> Resource.state W -> res (Resource.state W)).
Context (halloc : Z -> list (list hash_entry)).
(** As [ObjAlloc.halloc_hfree_total] shows of [halloc]. *)
Hypothesis halloc_cleared : forall log, 0 <= log -> 8 * 2 ^ log < 2048 -> cleared halloc log.

Lemma few_clears : halloc_clears halloc 511.
Proof.
  intros log H0 Hl. apply halloc_cleared; [done|]. rewrite Z.pow_add_r in Hl by lia.
  destruct (Z.ltb_spec (8 * 2 ^ log) 2048) as [|Hge]; [done|exfalso]. assert (2 ^ 8 <= 2 ^ log) by lia. lia.
Qed.

Lemma create_cpus_spec mem : forall (s : state W) a i o,
  oss s !! a = Some o -> Forall good_mem mem ->
  exists sc, create_cpus s a mem i =
    Ok (true, set_scheds (put_oss s a (Os (po_lpid o) (po_state o) (os_cpu o ++ mem) (oe_list o) (po_lpid_tag o))) sc) /\
    forall c, c ∈ mem \/ is_Some (Sched.cpus (scheds s) !! c) -> is_Some (Sched.cpus sc !! c).
Proof.
  induction mem as [|m mem IH]; intros s a i o Ho Hm; cbn [create_cpus].
  - exists (scheds s). rewrite app_nil_r. split; [|intros c [Hc|]; [by apply elem_of_nil in Hc|done]].
    do 2 f_equal. destruct s, o. unfold set_scheds, put_oss. simpl in *. by rewrite insert_id.
  - inversion_clear Hm as [|? ? [H0 H1] Hm']. unfold cpu_create. destruct (Z.eqb_spec m 0); [done|].
    destruct (Z.eqb_spec m PAGE_ALLOC_ERROR); [done|]. cbn [negb res_bind].
    destruct (Z.eqb_spec m 0); [done|]. unfold get_os. simpl. rewrite Ho. cbn [of_option res_bind].
    edestruct IH as (sc & -> & Hsc); [simpl; apply lookup_insert_eq|done|]. exists sc. split.
    + do 2 f_equal. unfold set_scheds, put_oss. simpl. rewrite insert_insert_eq, <- app_assoc. done.
    + intros c Hc. apply Hsc. simpl. destruct Hc as [[->|Hc]%elem_of_cons|Hc]; [right; by rewrite lookup_insert_eq|by left|].
      right. rewrite lookup_insert. case_decide; [by eexists|done].
Qed.

Lemma show_lpid_spec l lpid : forall (s : state W),
  (forall c, c ∈ l -> is_Some (Sched.cpus (scheds s) !! c)) -> exists sc, show_lpid s l lpid = Ok (set_scheds s sc).
Proof.
  induction l as [|c l IH]; intros s Hl; cbn [show_lpid].
  - exists (scheds s). by destruct s.
  - destruct (Hl c) as [k Hk]; [apply list_elem_of_here|]. unfold Sched.get_cpu. rewrite Hk. cbn [of_option res_bind].
    edestruct IH as [sc ->]; [|by exists sc]. intros d Hd. simpl. rewrite lookup_insert. case_decide; [by eexists|].
    apply Hl, elem_of_cons. by right.
Qed.

(** Every partition is in the table under its id, and nothing else is. *)
Record dir_inv (s : state W) : Prop := {
  di_wf : ht_wf os_hashfunc (os_hash s);
  di_map k e : ht_map (os_hash s) !! k = Some e -> exists o, oss s !! he_obj e = Some o /\ po_lpid o = k;
  di_all a o : oss s !! a = Some o -> ht_map (os_hash s) !! po_lpid o = Some (Entry (po_lpid o) a);
  di_range a o : oss s !! a = Some o -> a <> 0 /\ 4096 < po_lpid o <= cur_lpid s;
  di_count : ht_count (os_hash s) = Z.of_nat (size (oss s)) /\ Z.of_nat (size (oss s)) <= 511;
  di_log : log_bound 511 (os_hash s);
  di_cur : 4096 <= cur_lpid s < 2 ^ 32
}.

(** Memory for a new partition, one of at most 511: its own, that of its processors, and the node of its
    event list, which exists but holds anything. *)
Definition new_mem (s : state W) (a : Z) (mem : list Z) (oe : Z) : Prop :=
  oss s !! a = None /\ Z.of_nat (size (oss s)) < 511 /\ good_mem a /\ Forall good_mem mem /\
  is_Some (dl_next (events s) !! oe) /\ is_Some (dl_prev (events s) !! oe).

Lemma hash_insert ht k a :
  ht_wf os_hashfunc ht -> ht_map ht !! k = None -> ht_count ht < 511 -> log_bound 511 ht ->
  exists ht', ht_insert os_hashfunc halloc ht (Entry k a) = Ok ht' /\ ht_wf os_hashfunc ht' /\
    ht_map ht' = <[k := Entry k a]> (ht_map ht) /\ log_bound 511 ht' /\ ht_count ht' = ht_count ht + 1.
Proof.
  intros Hwf Hk Hc Hl.
  destruct (ht_exec_refines os_hashfunc halloc 511 ht (Ht_insert (Entry k a))) as (r & ht' & E & Hst & Hwf' & Hl'); try done.
  { apply os_hashfunc_nonneg. }
  { exact few_clears. }
  { lia. }
  { simpl. by rewrite <- (wf_count_size os_hashfunc). }
  simpl in E. apply res_bind_ok in E as (ht2 & E & [= <- <-]). exists ht2. split; [done|]. split; [done|].
  inversion Hst as [he Hh Hr Hm| | | |]. simpl in *. split; [done|]. split; [done|].
  rewrite !(wf_count_size os_hashfunc) by done. rewrite <- Hm, map_size_insert_None by done. lia.
Qed.

Lemma os_create_spec s a mem oe :
  dir_inv s -> new_mem s a mem oe -> cur_lpid s + 1 < 2 ^ 32 ->
  exists s', os_create free_tables halloc s a mem oe = Ok (a, s') /\ dir_inv s' /\
    oss s' = <[a := Os (cur_lpid s + 1) PO_STATE_CREATED mem oe 0]> (oss s) /\ cur_lpid s' = cur_lpid s + 1 /\
    ring (events s') oe [].
Proof.
  intros [Hwf Hmap Hall Hrange [Hcount Hmax] Hlog Hcur] (Hfresh & Hfew & [Ha0 Hae] & Hmem & [x Hx] & [y Hy]) Hlt.
  unfold os_create, os_alloc. destruct (Z.eqb_spec a 0); [done|]. destruct (Z.eqb_spec a PAGE_ALLOC_ERROR); [done|].
  cbn [negb res_bind]. destruct (create_cpus_spec mem (put_oss s a (Os 0 0 [] oe 0)) a 0 (Os 0 0 [] oe 0)) as (sc & -> & Hsc);
    [apply lookup_insert_eq|done|]. cbn [res_bind]. destruct (Z.eqb_spec a 0); [done|]. unfold get_os. simpl.
  rewrite insert_insert_eq, lookup_insert_eq. cbn [of_option res_bind]. rewrite add64_small by lia.
  edestruct (show_lpid_spec mem (u32 (cur_lpid s + 1))) as [sc2 ->]; [simpl; auto|]. simpl. rewrite u32_small by lia.
  destruct (hash_insert (os_hash s) (cur_lpid s + 1) a) as (ht & -> & Hwf' & Hm' & Hl' & Hc'); try done; [|lia|].
  { destruct (ht_map (os_hash s) !! (cur_lpid s + 1)) as [e|] eqn:E; [|done]. destruct (Hmap _ _ E) as (o & Ho & El).
    destruct (Hrange _ _ Ho). lia. }
  cbn [res_bind]. destruct (dlist_init_ring (events s) oe x y Hx Hy) as (h & Hh & Hr & _). unfold set_hash, put_oss in *. simpl.
  rewrite Hh. cbn [res_bind]. eexists. split; [done|]. simpl. rewrite !insert_insert_eq.
  unfold set_po_lpid, set_po_state. simpl. rewrite u32_small by lia.
  split; [|by split_and!]. constructor; simpl; try done; try lia.
  - intros k e. rewrite Hm', lookup_insert. case_decide as E; [intros [= <-]; simpl; rewrite lookup_insert_eq; by eexists|].
    intros He. destruct (Hmap k e He) as (o & Ho & El). exists o. rewrite lookup_insert_ne; [done|]. intros ->. congruence.
  - intros b o. rewrite lookup_insert. case_decide as E; [subst b; intros [= <-]; simpl; by rewrite Hm', lookup_insert_eq|].
    intros Ho. rewrite Hm', lookup_insert_ne; [by apply Hall|]. destruct (Hrange b o Ho). lia.
  - intros b o. rewrite lookup_insert. case_decide as E; [subst b; intros [= <-]; simpl; lia|].
    intros Ho. destruct (Hrange b o Ho). lia.
  - rewrite map_size_insert_None by done. lia.
Qed.

Lemma free_cpus_eq l : forall s : state W, exists sc, free_cpus s l = set_scheds s sc.
Proof.
  induction l as [|c l IH]; intros s; simpl; [exists (scheds s); by destruct s|].
  destruct (IH (set_scheds s (Sched.State (delete c (Sched.cpus (scheds s))) (Sched.hype_per_cpu (scheds s))))) as [sc ->].
  by exists sc.
Qed.

Lemma os_free_spec s a s' :
  dir_inv s -> is_Some (oss s !! a) -> os_free free_tables s a = Ok s' ->
  dir_inv s' /\ oss s' = delete a (oss s) /\ cur_lpid s' = cur_lpid s.
Proof.
  intros [Hwf Hmap Hall Hrange [Hcount Hmax] Hlog Hcur] [o Ho] H. unfold os_free, get_os in H. rewrite Ho in H. cbn [of_option res_bind] in H.
  apply res_bind_ok in H as (r & _ & H). destruct (free_cpus_eq (os_cpu o) (set_resources s r)) as [sc Esc]. rewrite Esc in H. simpl in H.
  destruct (ht_exec_refines os_hashfunc halloc 511 (os_hash s) (Ht_remove (po_lpid o))) as (e & ht & E & Hst & Hwf' & Hl'); try done.
  { apply os_hashfunc_nonneg. }
  { exact few_clears. }
  { lia. }
  { simpl. rewrite (Hall a o Ho). by eexists. }
  simpl in E. rewrite E in H. injection H as <-. unfold del_oss, set_hash. simpl. split; [|done].
  inversion Hst as [| |k Hk Hr Hm| |]. subst. symmetry in Hm. pose proof (Hall a o Ho) as Hao. constructor; simpl; try done.
  - intros k e. rewrite Hm, lookup_delete. case_decide; [done|]. intros He. destruct (Hmap k e He) as (o' & Ho' & El).
    exists o'. split; [|done]. rewrite lookup_delete_ne; [done|]. intros ->. congruence.
  - intros b o' Hb. rewrite lookup_delete in Hb. case_decide; [done|]. rewrite Hm, lookup_delete_ne; [by apply Hall|].
    intros E1. pose proof (Hall b o' Hb) as Hbo. rewrite <- E1 in Hbo. congruence.
  - intros b o' Hb. rewrite lookup_delete in Hb. case_decide; [done|]. by apply Hrange.
  - rewrite (wf_count_size os_hashfunc) in * by done. rewrite Hm, !map_size_delete, Hao, Ho. simpl. lia.
Qed.

(** What clients do with the directory. *)
Inductive dir_step : state W -> state W -> Prop :=
  | dir_create s a mem oe a' s' :
      new_mem s a mem oe -> cur_lpid s + 1 < 2 ^ 32 ->
      os_create free_tables halloc s a mem oe = Ok (a', s') -> dir_step s s'
  | dir_free s a s' : is_Some (oss s !! a) -> os_free free_tables s a = Ok s' -> dir_step s s'.

(** A step gives no id out again. *)
Lemma dir_step_ids s s' b o :
  dir_step s s' -> dir_inv s -> cur_lpid s <= cur_lpid s' /\ (oss s' !! b = Some o -> po_lpid o <= cur_lpid s -> oss s !! b = Some o).
Proof.
  intros Hst Hinv. destruct Hst as [s a mem oe a' s' Hn Hl E|s a s' Ha E].
  - destruct (os_create_spec s a mem oe Hinv Hn Hl) as (s2 & E' & _ & Ho & Hc & _). rewrite E in E'. injection E' as _ <-.
    rewrite Hc, Ho. split; [lia|]. rewrite lookup_insert. case_decide; [|done]. intros [= <-]. cbn [po_lpid]. lia.
  - destruct (os_free_spec s a s' Hinv Ha E) as (_ & Ho & Hc). rewrite Hc, Ho. split; [lia|]. rewrite lookup_delete. by case_decide.
Qed.

Lemma dir_inv_reach s s' : rtc dir_step s s' -> dir_inv s -> dir_inv s'.
Proof.
  induction 1 as [|s1 s2 s3 Hst _ IH]; [done|]. intros Hinv. apply IH.
  destruct Hst as [s a mem oe a' s' Hn Hl E|s a s' Ha E].
  - destruct (os_create_spec s a mem oe Hinv Hn Hl) as (s2 & E' & Hinv' & _). rewrite E in E'. by injection E' as _ <-.
  - by apply (os_free_spec s a).
Qed.

Lemma dir_reach_ids s s' b o :
  rtc dir_step s s' -> dir_inv s -> cur_lpid s <= cur_lpid s' /\ (oss s' !! b = Some o -> po_lpid o <= cur_lpid s -> oss s !! b = Some o).
Proof.
  induction 1 as [|s1 s2 s3 Hst Hr IH]; [done|]. intros Hinv. destruct (dir_step_ids s1 s2 b o Hst Hinv) as [L1 I1].
  assert (dir_inv s2) as Hinv2 by (apply (dir_inv_reach s1); [by apply rtc_once|done]). destruct (IH Hinv2) as [L2 I2].
  split; [lia|]. intros Ho Hle. apply I1; [apply I2; [done|lia]|done].
Qed.
End Directory.

(** ** Properties of the directory *)

(** The system before any partition. *)
Definition boot_state {W} (h : dheap) (sc : Sched.state) (r : Resource.state W) (l : lbm) : state W :=
  State ∅ os_init 4096 h sc r l.

Lemma boot_dir_inv {W} h sc (r : Resource.state W) l : dir_inv (boot_state h sc r l).
Proof.
  constructor; simpl; try done; try lia; try apply ht_init_wf. by left.
Qed.

(** C38: after any sequence of creations and removals of partitions, with at most 511 at a time and ids below 2^32, an id
    finds the one partition that has it, or nothing when no partition has it: never a partition that is
    gone, never another one; creating one more succeeds with the next id; and an id that was given out finds,
    whatever is created and removed later, the partition it found before or nothing: no id is used twice.  [halloc] is
    taken to clear objects of less than half a page, as it does. *)
Theorem os_lookup_exact {W} free_tables halloc h sc (r : Resource.state W) l s cur :
  (forall log, 0 <= log -> 8 * 2 ^ log < 2048 -> cleared halloc log) ->
  rtc (dir_step free_tables halloc) (boot_state h sc r l) s ->
  (forall lpid, lpid <> H_SELF_LPID -> exists a, os_lookup s cur lpid = Ok a /\
     forall b, b <> 0 -> b = a <-> exists o, oss s !! b = Some o /\ po_lpid o = lpid) /\
  (forall a mem oe, new_mem s a mem oe -> cur_lpid s + 1 < 2 ^ 32 ->
     exists s', os_create free_tables halloc s a mem oe = Ok (a, s') /\ os_lookup s' cur (cur_lpid s + 1) = Ok a /\
       ring (events s') oe []) /\
  (forall lpid s' a, lpid <= cur_lpid s -> rtc (dir_step free_tables halloc) s s' -> os_lookup s' cur lpid = Ok a ->
     a = 0 \/ os_lookup s cur lpid = Ok a).
Proof.
  intros Hclr Hr. pose proof (dir_inv_reach free_tables halloc Hclr _ _ Hr (boot_dir_inv h sc r l)) as Hinv.
  assert (forall (s : state W) lpid, dir_inv s -> lpid <> H_SELF_LPID ->
    os_lookup s cur lpid = Ok (match ht_map (os_hash s) !! lpid with Some e => he_obj e | None => 0 end)) as Hlk.
  { intros s1 lpid H1 Hs. unfold os_lookup. destruct (Z.eqb_spec lpid H_SELF_LPID); [done|].
    by rewrite (ht_lookup_spec os_hashfunc os_hashfunc_nonneg (os_hash s1) lpid (di_wf _ H1)). }
  split_and!.
  - intros lpid Hself. rewrite (Hlk s lpid Hinv Hself). eexists. split; [done|]. intros b Hb.
    destruct (ht_map (os_hash s) !! lpid) as [e|] eqn:E.
    + destruct (di_map _ Hinv _ _ E) as (o & Ho & El). split; [intros ->; by exists o|]. intros (o' & Ho' & El').
      pose proof (di_all _ Hinv _ _ Ho') as H1. rewrite El', E in H1. by injection H1 as ->.
    + split; [done|]. intros (o & Ho & <-). pose proof (di_all _ Hinv _ _ Ho). congruence.
  - intros a mem oe Hn Hl. destruct (os_create_spec free_tables halloc Hclr s a mem oe Hinv Hn Hl) as (s' & E & Hinv' & Hoss & Hcur & Hring).
    exists s'. split; [done|]. split; [|done]. rewrite (Hlk s' _ Hinv').
    + assert (oss s' !! a = Some (Os (cur_lpid s + 1) PO_STATE_CREATED mem oe 0)) as Ha by (rewrite Hoss; apply lookup_insert_eq).
      pose proof (di_all _ Hinv' _ _ Ha) as H1. simpl in H1. by rewrite H1.
    + unfold H_SELF_LPID, ONES64. pose proof (di_cur _ Hinv). lia.
  - intros lpid s' a Hle Hr' Ha. destruct (decide (lpid = H_SELF_LPID)) as [->|Hself].
    { exfalso. unfold H_SELF_LPID, ONES64 in Hle. pose proof (di_cur _ Hinv). lia. }
    assert (dir_inv s') as Hinv' by (by apply (dir_inv_reach free_tables halloc Hclr s)).
    rewrite (Hlk s' lpid Hinv' Hself) in Ha. injection Ha as <-. rewrite (Hlk s lpid Hinv Hself).
    destruct (ht_map (os_hash s') !! lpid) as [e|] eqn:E; [right|by left]. destruct (di_map _ Hinv' _ _ E) as (o & Ho & <-).
    destruct (dir_reach_ids free_tables halloc Hclr s s' (he_obj e) o Hr' Hinv) as [_ Hback]. pose proof (di_all _ Hinv _ _ (Hback Ho Hle)) as H1.
    by rewrite H1.
Qed.

(** ** Destroying a partition *)
Section Stop.
Context (int_shl shr_all : Z -> Z).
(** Shifting 0 gives 0. *)
Hypothesis shr_all_0 : shr_all 0 = 0.

(** Processor [c] belongs to physical processor [logical_cpu_num], whose masks are words. *)
Definition cpu_placed (sc : Sched.state) (c : Z) : Prop :=
  exists k h, Sched.cpus sc !! c = Some k /\ 0 <= Sched.logical_cpu_num k /\
    Sched.hype_per_cpu sc !! Z.to_nat (Sched.logical_cpu_num k) = Some h /\
    is_u64 (Sched.used_slots h) /\ is_u64 (Sched.locked_slots h).

Lemma put_runnable_wf sc c k : Sched.cpus sc !! c = Some k -> Sched.sched_wf sc -> Sched.sched_wf (Sched.put_cpu sc c (Sched.set_runnable k 0)).
Proof.
  intros Hk [A B C D]. split; simpl; [| | |done].
  - intros p i c' Ho Hc'. destruct (A p i c' Ho Hc') as (k' & Hk' & H1 & H2). rewrite lookup_insert.
    case_decide as E; [|by exists k']. subst c'. assert (k' = k) as -> by congruence. by eexists.
  - intros c' k' i. rewrite lookup_insert. case_decide as E; [|apply B]. subst c'. intros [= <-]. by apply (B c k).
  - intros c' k'. rewrite lookup_insert. case_decide as E; [|apply C]. subst c'. intros [= <-]. by apply (C c k).
Qed.

Lemma rotate_zero j : Sched.rotate j 0 = 0.
Proof. unfold Sched.rotate. induction j as [|j IH]; [done|]. rewrite Nat.iter_succ, IH. reflexivity. Qed.

Lemma rotate_desired_zero j : Sched.rotate_desired shr_all 0 j = 0.
Proof.
  unfold Sched.rotate_desired, shr64, shl64. rewrite shr_all_0, Z.shiftr_0_l, Z.shiftl_0_l. by destruct (j =? 0).
Qed.

(** The processor no longer runs and owns no slot below 31; the other owners stay. *)
Definition stopped (sc sc' : Sched.state) (c : Z) : Prop :=
  (forall d k, Sched.cpus sc !! d = Some k -> exists k', Sched.cpus sc' !! d = Some k' /\
     Sched.runnable (Sched.sched k') = if decide (d = c) then 0 else Sched.runnable (Sched.sched k)) /\
  (forall q i, 0 <= i < 31 -> Sched.owner sc' q i = if decide (Sched.owner sc q i = Some c) then Some 0 else Sched.owner sc q i).

(** One turn of the loop. *)
Lemma stop_cpu_spec sc c k :
  Sched.sched_wf sc -> Sched.cpus sc !! c = Some k -> cpu_placed sc c ->
  exists r sc', Sched.locked_set_sched_params int_shl shr_all (Sched.put_cpu sc c (Sched.set_runnable k 0)) c
      (Sched.logical_cpu_num k) 0 0 = Ok (r, sc') /\ Sched.sched_wf sc' /\ stopped sc sc' c /\
    forall d, cpu_placed sc d -> cpu_placed sc' d.
Proof.
  intros Hwf Hk (k0 & h & Hk0 & Hp & Hh & Hu & Hl). assert (k0 = k) as -> by congruence. set (p := Sched.logical_cpu_num k) in *.
  pose proof (put_runnable_wf sc c k Hk Hwf) as Hwf1.
  destruct (Sched.locked_set_sched_params_spec int_shl shr_all (Sched.put_cpu sc c (Sched.set_runnable k 0)) c p
    (Sched.set_runnable k 0) h 0 0) as (r & sc' & E & [Hwf' [Kc Kh]] & Hcase); try done; [apply lookup_insert_eq|].
  exists r, sc'. split; [done|]. split; [done|].
  destruct Hcase as [(_ & j & _ & Hg)|(_ & _ & Hno)]; [|by destruct (Hno 0%nat); [lia|]].
  destruct Hg as (k' & h' & Hk' & Hh' & Hg). cbv zeta in Hg. rewrite rotate_zero, rotate_desired_zero, Z.land_0_l in Hg.
  destruct Hg as (_ & El & Eu & Ho). rewrite !Z.lor_0_r in El, Eu.
  assert (forall d kd, Sched.cpus sc !! d = Some kd -> exists k2, Sched.cpus sc' !! d = Some k2 /\
    Sched.logical_cpu_num k2 = Sched.logical_cpu_num kd /\
    Sched.runnable (Sched.sched k2) = if decide (d = c) then 0 else Sched.runnable (Sched.sched kd)) as Hcpus.
  { intros d kd Hd. case_decide as Hdc.
    - subst d. assert (kd = k) as -> by congruence. apply (Kc c (Sched.set_runnable k 0)). apply lookup_insert_eq.
    - apply (Kc d kd). simpl. by rewrite lookup_insert_ne. }
  split; [split|].
  - intros d kd Hd. destruct (Hcpus d kd Hd) as (k2 & H1 & _ & H2). by exists k2.
  - intros q i Hi. rewrite Ho by lia. unfold Sched.hits at 1 2. rewrite !Z.land_0_l. rewrite andb_false_r.
    change (Sched.owner (Sched.put_cpu sc c (Sched.set_runnable k 0)) q i) with (Sched.owner sc q i).
    rewrite Sched.hits_low by done. simpl. case_decide as Eo.
    + destruct (Sched.wf_owner _ Hwf q i c Eo) as (k3 & Hk3 & E1 & E2); [by eapply Sched.wf_cpu|].
      assert (k3 = k) as -> by congruence. fold p in E1. by rewrite <- E1, Z.eqb_refl, E2.
    + destruct (Z.eqb_spec q p) as [->|]; [|done]. simpl. destruct (Z.testbit (Sched.curr_set (Sched.sched k)) i) eqn:Eb; [|done].
      destruct Eo. apply (Sched.wf_curr _ Hwf c k i Hk); [lia|done].
  - intros d (kd & hd & Hd & Hpd & Hhd & Hud & Hld). destruct (Hcpus d kd Hd) as (k2 & H1 & H2 & _). exists k2.
    destruct (decide (Z.to_nat (Sched.logical_cpu_num kd) = Z.to_nat p)) as [Eq|Hne].
    + exists h'. rewrite H2, Eq, El, Eu. split_and!; try done; apply is_u64_land; try done; apply u64_range.
    + destruct (Kh _ hd Hne Hhd) as (h2 & Hh2 & E1 & E2). exists h2. by rewrite H2, E1, E2.
Qed.

Lemma stop_cpus_spec l : forall sc,
  Sched.sched_wf sc -> Forall (cpu_placed sc) l ->
  exists sc', stop_cpus int_shl shr_all sc l = Ok sc' /\ Sched.sched_wf sc' /\
    (forall d k, Sched.cpus sc !! d = Some k -> exists k', Sched.cpus sc' !! d = Some k' /\
       Sched.runnable (Sched.sched k') = if decide (d ∈ l) then 0 else Sched.runnable (Sched.sched k)) /\
    (forall q i, 0 <= i < 31 -> Sched.owner sc' q i =
       match Sched.owner sc q i with Some d => if decide (d ∈ l) then Some 0 else Some d | None => None end).
Proof.
  induction l as [|c l IH]; intros sc Hwf Hl; cbn [stop_cpus].
  - exists sc. split; [done|]. split; [done|]. split.
    + intros d k Hk. exists k. split; [done|]. case_decide as H; [by apply elem_of_nil in H|done].
    + intros q i Hi. destruct (Sched.owner sc q i) as [d|]; [|done]. case_decide as H; [by apply elem_of_nil in H|done].
  - inversion_clear Hl as [|? ? Hc Hl']. pose proof Hc as (k & h & Hk & _). unfold Sched.get_cpu. rewrite Hk. cbn [of_option res_bind].
    destruct (stop_cpu_spec sc c k Hwf Hk Hc) as (r & sc1 & -> & Hwf1 & [Hs1 Hs2] & Hpl). cbn [res_bind].
    destruct (IH sc1 Hwf1) as (sc' & -> & Hwf' & H1 & H2); [by eapply Forall_impl|]. exists sc'. split; [done|]. split; [done|]. split.
    + intros d kd Hd. destruct (Hs1 d kd Hd) as (k1 & Hk1 & E1). destruct (H1 d k1 Hk1) as (k2 & Hk2 & E2). exists k2. split; [done|].
      rewrite E2, E1. repeat case_decide; rewrite elem_of_cons in *; naive_solver.
    + intros q i Hi. rewrite H2, Hs2 by done. destruct (Sched.owner sc q i) as [d|] eqn:Eo; [|by case_decide].
      case_decide as E1; [injection E1 as ->|].
      * rewrite (decide_True (P := c ∈ c :: l)) by apply list_elem_of_here. by case_decide.
      * assert (d <> c) by congruence. repeat case_decide; rewrite elem_of_cons in *; naive_solver.
Qed.
End Stop.

(** ** Properties of events, start and destruction *)

(** Handlers registered one after the other. *)
Fixpoint register_all (h : dheap) (oe_list : Z) (les : list Z) : res dheap :=
  match les with
  | [] => Ok h
  | le :: les => let! (_, h) := register_event h oe_list le in register_all h oe_list les
  end.

Lemma register_all_spec hd les : forall h l,
  ring h hd l -> NoDup (hd :: l ++ les) -> Forall (fun le => is_Some (dl_next h !! le) /\ is_Some (dl_prev h !! le)) les ->
  exists h', register_all h hd les = Ok h' /\ ring h' hd (l ++ les).
Proof.
  induction les as [|le les IH]; intros h l Hr Hnd Hf; simpl; [exists h; by rewrite app_nil_r|].
  inversion_clear Hf as [|? ? [[a Ha] [b Hb]] Hf'].
  replace (l ++ le :: les) with ((l ++ [le]) ++ les) in * by (by rewrite <- app_assoc).
  destruct (register_event_ring h hd l le a b Hr) as (h1 & -> & Hr1 & Hk); [|done|done|].
  { rewrite app_comm_cons in Hnd. apply NoDup_app in Hnd as (Hnd & _ & _). rewrite app_comm_cons in Hnd.
    apply NoDup_app in Hnd as (_ & Hd & _). intros Hin. apply (Hd le Hin), list_elem_of_singleton. done. }
  cbn [res_bind]. apply IH; [done|done|]. rewrite Forall_forall in Hf' |- *. intros y Hy. destruct (Hk y) as [-> ->]; [|by apply Hf'].
  rewrite app_comm_cons in Hnd. apply NoDup_app in Hnd as (_ & Hd & _). intros Hin. apply (Hd y); [|done]. lmem.
Qed.

(** Handlers registered one after the other on a partition's list run when an event
    occurs, each once, in that order, on what the one before left; and afterwards none of
    them is registered any more, whatever they returned: putting a handler that wants to
    stay back on the list has no effect. *)
Theorem run_event_once {W} le_func h hd les os event (w w' : W) :
  ring h hd [] -> NoDup (hd :: les) -> Forall (fun le => is_Some (dl_next h !! le) /\ is_Some (dl_prev h !! le)) les ->
  run_handlers le_func os event les w = Ok w' ->
  exists h1 h2, register_all h hd les = Ok h1 /\ ring h1 hd les /\
    run_event le_func (length les) h1 w os hd event = Ok (h2, w') /\ ring h2 hd [].
Proof.
  intros Hr Hnd Hf Hrun. destruct (register_all_spec hd les h [] Hr Hnd Hf) as (h1 & E & Hr1). simpl in Hr1.
  assert (exists x, head (les ++ [hd]) = Some x) as [x Hx] by (destruct les; simpl; eauto).
  destruct (run_loop_spec le_func os hd event les h1 w w' x Hr1 Hx Hrun) as (h2 & E2 & Hr2).
  exists h1, h2. split; [done|]. split; [done|]. split; [|done]. unfold run_event, dlist_next, get_next.
  destruct Hr1 as [_ Hc]. destruct (les ++ [hd]) as [|z q]; [done|]. injection Hx as ->. destruct Hc as [[-> _] _]. done.
Qed.


(** ** A system with two partitions *)

(** Partition 20, with id 12, has processor 2, one handler and the resources 2, 4 and 5;
    partition 10, with id 11, has processor 1. *)
Definition two_events : dheap :=
  DHeap (list_to_map [(100, 101); (101, 100); (110, 110)]) (list_to_map [(100, 101); (101, 100); (110, 110)]).
Definition two_oss : gmap Z os := list_to_map [(10, Os 11 2 [1] 110 0); (20, Os 12 2 [2] 100 1)].
Definition two : state (list Z) :=
  State two_oss (HashTable 2 [[Entry 12 20]; []; []; [Entry 11 10]] 2 true []) 4098 two_events Sched.demo Resource.demo
    (Lbm 64 [3]).

Definition leave (_ _ _ : Z) (w : Sched.state * Resource.state (list Z)) : res (Z * (Sched.state * Resource.state (list Z))) :=
  Ok (1, w).

Lemma two_ring : ring two_events 100 [101].
Proof. split; [apply (bool_decide_unpack _); reflexivity|repeat split; reflexivity]. Qed.

Lemma two_placed : Forall (cpu_placed Sched.demo) [2].
Proof.
  constructor; [|done]. exists (Sched.demo_cpu 4 0 12), Sched.demo_hpc. split; [reflexivity|]. split; [done|].
  split; [reflexivity|]. unfold is_u64. simpl. lia.
Qed.


Lemma run_event_once_witness :
  exists h1 h2, register_all (DHeap (list_to_map [(1, 1); (2, 0); (3, 0)]) (list_to_map [(1, 1); (2, 0); (3, 0)])) 1 [2; 3] = Ok h1 /\
    run_event (fun _ le _ w => Ok (0, le :: w)) 2 h1 [] 9 1 5 = Ok (h2, [3; 2]) /\ ring h2 1 [].
Proof.
  destruct (run_event_once (fun _ le _ w => Ok (0, le :: w))
    (DHeap (list_to_map [(1, 1); (2, 0); (3, 0)]) (list_to_map [(1, 1); (2, 0); (3, 0)])) 1 [2; 3] 9 5 [] [3; 2])
    as (h1 & h2 & E1 & _ & E2 & Hr).
  - split; [apply NoDup_singleton|repeat split; reflexivity].
  - apply (bool_decide_unpack _). reflexivity.
  - repeat constructor; by eexists.
  - reflexivity.
  - by exists h1, h2.
Defined.

(** Nothing says that a partition is being destroyed: until the deferred work has run, the
    directory still finds it, a second call destroys it again, and the structure is freed
    twice. *)
Example h_destroy_twice :
  match (let! r := h_destroy_partition Sched.zero_shift Sched.zero_shift Resource.demo_acts leave 1 two 10 10 12 in
         match r with
         | None => Fault Assert_failed
         | Some (_, s) => h_destroy_partition Sched.zero_shift Sched.zero_shift Resource.demo_acts leave 1 s 10 10 12
         end) with
  | Ok (Some (rc, s)) =>
      rc = H_Success /\ match Resource.deferred (resources s) with
                        | [_; Resource.Death_cleanup t1 20; Resource.Death_cleanup t2 20] =>
                            match (let! s := death_rcu_cleanup (fun _ r => Ok r) Resource.demo_acts s t1 20 in
                                   death_rcu_cleanup (fun _ r => Ok r) Resource.demo_acts s t2 20) with
                            | Fault Null_deref => True
                            | _ => False
                            end
                        | _ => False
                        end
  | _ => False
  end.
Proof. vm_compute. split; reflexivity. Qed.

(** A partition whose id is asked for with the sign bit of 32 bits set is the caller. *)
Example h_start_minus_one : sext32 (2 ^ 32 - 1) = H_SELF_LPID.
Proof. reflexivity. Qed.

Definition boot1 : state (list Z) :=
  boot_state (DHeap {[50 := 0]} {[50 := 0]}) Sched.demo Resource.demo (Lbm 64 [0]).

Lemma os_lookup_exact_witness :
  exists s', os_create (fun _ r => Ok r) clear_halloc boot1 30 [31; 32] 50 = Ok (30, s') /\ os_lookup s' 10 4097 = Ok 30 /\
    ring (events s') 50 [].
Proof.
  apply (proj1 (proj2 (os_lookup_exact (fun _ r => Ok r) clear_halloc (DHeap {[50 := 0]} {[50 := 0]}) Sched.demo Resource.demo
    (Lbm 64 [0]) boot1 10 clear_halloc_cleared (rtc_refl _ _)))); [|done].
  split; [reflexivity|]. split; [reflexivity|]. split; [done|]. split; [by repeat constructor|]. split; by eexists.
Defined.
