(* ===== verification/Rcu.v ===== *)
(** * Rcu: deferred work and grace periods

    [hype/rcu.c].  A routine that unlinks an object hands the object's destruction
    to [rcu_defer]; processors call [rcu_check] when they hold no references, and
    the work runs once all of them have.  The processors run concurrently: a step
    is one access to the shared words [gen_mask], [inactive_mask] and [gen_count],
    or one critical section of [rcu_lock]; any processor may step next.  The
    chains of [struct rcu_node] with their tail pointers are lists, and a node is
    its address.  A log of what happened, newest first, is kept for the theorems. *)

From S2P Require Import Prelude.

Definition NUM_GEN : Z := 4.

Inductive event := E_defer (node : Z) | E_quiet (cpu : nat) | E_run (node : Z).

#[global] Instance event_eq_dec : EqDecision event.
Proof. solve_decision. Defined.

(** Where a processor is.  [rep] is [repeat], [dc] is [do_cleanup], [new] is
    [new_gen]; [k] is the caller of [rcu_check]: [None], or [rcu_pause] with its
    [start_count]. *)
Inductive pc :=
  | Idle
  | Old (rep : Z) (dc : bool) (k : option Z)
  | New (rep : Z) (dc : bool) (old : Z) (k : option Z)
  | Cas (rep : Z) (dc : bool) (old new : Z) (k : option Z)
  | Clean (rep new : Z) (k : option Z)
  | Collect (rep new : Z) (list : list Z) (k : option Z)
  | Again (rep new : Z) (k : option Z)
  | Inactive (rep new : Z) (k : option Z)
  | Set1 (rep new : Z) (k : option Z)
  | Set2 (rep new r1 : Z) (k : option Z)
  | Set3 (rep new r1 r2 : Z) (k : option Z)
  | Last (rep new : Z) (k : option Z)
  | Pause_start
  | Pause_read (start : Z)
  | Pause_set (start old : Z)
  | Pause_test (start : Z)
  | Pause_read2
  | Pause_clear (old : Z).

Record rcu := Rcu {
  rcu_lists : list (list Z);
  gen_count : Z;
  cpu_mask : Z;
  gen_mask : Z;
  inactive_mask : Z;
  pcs : list pc;
  log : list event
}.

Definition set_pc (s : rcu) (i : nat) (p : pc) : rcu :=
  Rcu (rcu_lists s) (gen_count s) (cpu_mask s) (gen_mask s) (inactive_mask s) (<[i := p]> (pcs s)) (log s).
Definition set_gen_mask (s : rcu) (m : Z) : rcu :=
  Rcu (rcu_lists s) (gen_count s) (cpu_mask s) m (inactive_mask s) (pcs s) (log s).
Definition set_inactive_mask (s : rcu) (m : Z) : rcu :=
  Rcu (rcu_lists s) (gen_count s) (cpu_mask s) (gen_mask s) m (pcs s) (log s).
Definition note (s : rcu) (e : event) : rcu :=
  Rcu (rcu_lists s) (gen_count s) (cpu_mask s) (gen_mask s) (inactive_mask s) (pcs s) (e :: log s).

(** [((uval)1) << get_tca_index()] *)
Definition mybit (i : nat) : Z := shl64 1 (Z.of_nat i).

Definition gen_slot (g : Z) : nat := Z.to_nat (g mod NUM_GEN).

(** [rcu_init] on processor [i]. *)
Definition rcu_init (s : rcu) (i : nat) : rcu :=
  let lists := if cpu_mask s =? 0 then repeat [] (Z.to_nat NUM_GEN) else rcu_lists s in
  Rcu lists (gen_count s) (Z.lor (cpu_mask s) (mybit i)) (gen_mask s) (inactive_mask s) (pcs s) (log s).

(** [rcu_defer], under [rcu_lock]. *)
Definition rcu_defer (s : rcu) (node : Z) : rcu :=
  let gen := gen_slot (add64 (gen_count s) 2) in
  note (Rcu (alter (fun l => l ++ [node]) gen (rcu_lists s)) (gen_count s) (cpu_mask s) (gen_mask s)
            (inactive_mask s) (pcs s) (log s)) (E_defer node).

(** The critical section of [rcu_check]: take this generation's list. *)
Definition take_list (s : rcu) : list Z * rcu :=
  let g := gen_slot (gen_count s) in
  (nth g (rcu_lists s) [],
   Rcu (<[g := []]> (rcu_lists s)) (add64 (gen_count s) 1) (cpu_mask s) (gen_mask s) (inactive_mask s)
       (pcs s) (log s)).

(** Back to the caller of [rcu_check]. *)
Definition check_return (k : option Z) : pc :=
  match k with None => Idle | Some start => Pause_test start end.

(** One step of processor [i] inside [rcu_check]. *)
Definition rcu_check (s : rcu) (i : nat) (p : pc) : rcu :=
  let bit := mybit i in
  match p with
  | Old rep dc k => set_pc s i (New rep dc (gen_mask s) k)
  | New rep dc old k =>
      let new_gen := Z.lor old bit in
      if new_gen =? cpu_mask s
      then set_pc s i (Cas rep true old (Z.land (inactive_mask s) (not64 bit)) k)
      else set_pc s i (Cas rep dc old new_gen k)
  | Cas rep dc old new k =>
      if gen_mask s =? old
      then note (set_pc (set_gen_mask s new) i (if dc then Clean rep new k else check_return k)) (E_quiet i)
      else set_pc s i (Old rep dc k)
  | Clean rep new k =>
      let (l, s) := take_list s in set_pc s i (Collect rep new l k)
  | Collect rep new (n :: l) k => note (set_pc s i (Collect rep new l k)) (E_run n)
  | Collect rep new [] k => set_pc s i (Again (rep + 1) new k)
  | Again rep new k =>
      if (rep <? NUM_GEN) && (Z.lor bit (gen_mask s) =? cpu_mask s) then set_pc s i (Old rep false k)
      else set_pc s i (Inactive rep new k)
  | Inactive rep new k =>
      if truth (Z.land (inactive_mask s) bit) then set_pc s i (Set1 rep new k)
      else set_pc s i (check_return k)
  | Set1 rep new k => set_pc s i (Set2 rep new (gen_mask s) k)
  | Set2 rep new r1 k => set_pc s i (Set3 rep new r1 (gen_mask s) k)
  | Set3 rep new r1 r2 k =>
      if gen_mask s =? r1 then set_pc (set_gen_mask s (Z.lor r2 bit)) i (Last rep new k)
      else set_pc s i (Set1 rep new k)
  | Last rep new k =>
      if (gen_mask s =? cpu_mask s) && negb (Z.lor new bit =? cpu_mask s) then set_pc s i (Old rep false k)
      else set_pc s i (check_return k)
  | _ => s
  end.

(** One step of processor [i] inside [rcu_pause]. *)
Definition rcu_pause (s : rcu) (i : nat) (p : pc) : rcu :=
  let bit := mybit i in
  match p with
  | Pause_start => set_pc s i (Pause_read (gen_count s))
  | Pause_read start => set_pc s i (Pause_set start (inactive_mask s))
  | Pause_set start old =>
      if inactive_mask s =? old
      then set_pc (set_inactive_mask s (Z.lor old bit)) i (Old 0 false (Some start))
      else set_pc s i (Pause_read start)
  | Pause_test start =>
      if gen_count s =? start then set_pc s i (Old 0 false (Some start)) else set_pc s i Pause_read2
  | Pause_read2 => set_pc s i (Pause_clear (inactive_mask s))
  | Pause_clear old =>
      if inactive_mask s =? old then set_pc (set_inactive_mask s (Z.land old (not64 bit))) i Idle
      else set_pc s i Pause_read2
  | _ => s
  end.

(** What processor [i] does next: continue the routine it is in, call one of the
    routines, or defer work, which work that is being run may do too. *)
Inductive action := Go | Call_check | Call_pause | Defer (node : Z).

Definition coll_nodes (p : pc) : list Z := match p with Collect _ _ l _ => l | _ => [] end.

(** Nodes deferred and not yet run. *)
Definition pending (s : rcu) : list Z := concat (rcu_lists s) ++ concat (map coll_nodes (pcs s)).

Definition step (s : rcu) (i : nat) (a : action) : option rcu :=
  match pcs s !! i with
  | None => None
  | Some p =>
      match a, p with
      | Go, Idle => None
      | Go, (Pause_start | Pause_read _ | Pause_set _ _ | Pause_test _ | Pause_read2 | Pause_clear _) =>
          Some (rcu_pause s i p)
      | Go, _ => Some (rcu_check s i p)
      | Call_check, Idle => Some (set_pc s i (Old 0 false None))
      | Call_pause, Idle => Some (set_pc s i Pause_start)
      | Defer n, (Idle | Collect _ _ _ _) =>
          (* a node is deferred again only after it has run *)
          if bool_decide (n ∈ pending s) then None else Some (rcu_defer s n)
      | _, _ => None
      end
  end.

Fixpoint run (s : rcu) (l : list (nat * action)) : option rcu :=
  match l with
  | [] => Some s
  | (i, a) :: l => match step s i a with Some s => run s l | None => None end
  end.

(** The state of [n] processors after every one has called [rcu_init]. *)
Definition booted (n : nat) : rcu :=
  fold_left rcu_init (seq 0 n) (Rcu [] 0 0 0 0 (repeat Idle n) []).

(** ** Grace periods *)

(** What happened after [node] was last deferred. *)
Fixpoint since (node : Z) (l : list event) : list event :=
  match l with
  | [] => []
  | E_defer m :: l => if m =? node then [] else E_defer m :: since node l
  | e :: l => e :: since node l
  end.

(** Every one of the [n] processors went through [rcu_check] after [node] was
    deferred. *)
Definition grace (n : nat) (node : Z) (l : list event) : Prop :=
  E_defer node ∈ l /\ forall i, (i < n)%nat -> E_quiet i ∈ since node l.

(** Whatever was run had been deferred and had its grace period. *)
Fixpoint runs_ok (n : nat) (l : list event) : Prop :=
  match l with
  | [] => True
  | E_run node :: l => grace n node l /\ runs_ok n l
  | _ :: l => runs_ok n l
  end.

Lemma since_mono node e x l : e <> E_defer node -> x ∈ since node l -> x ∈ since node (e :: l).
Proof.
  intros He Hx. destruct e; simpl; try lmem. destruct (Z.eqb_spec node0 node); [congruence|lmem].
Qed.

Lemma since_new node e l : e <> E_defer node -> e ∈ since node (e :: l).
Proof. intros He. destruct e; simpl; try lmem. destruct (Z.eqb_spec node0 node); [congruence|lmem]. Qed.

Lemma grace_mono n node e l : e <> E_defer node -> grace n node l -> grace n node (e :: l).
Proof. intros He [Hd Hq]. split; [lmem|]. intros i Hi. apply since_mono; auto. Qed.

Definition is_clean (p : pc) : bool := match p with Clean _ _ _ => true | _ => false end.

Lemma gen_slot_u64 g : gen_slot (u64 g) = gen_slot g.
Proof. unfold gen_slot, u64, NUM_GEN. f_equal. apply Z.mod_mod_divide. exists (2 ^ 62). lia. Qed.

Section Grace.
Context (n : nat) (Hn : (n <= 64)%nat).

Definition full : Z := Z.ones (Z.of_nat n).

Lemma testbit_mybit i k : (i < n)%nat -> 0 <= k -> Z.testbit (mybit i) k = (Z.of_nat i =? k).
Proof. intros Hi Hk. unfold mybit. rewrite shl64_one by lia. apply testbit_pow2. lia. Qed.

(** A mask of processors, and what it takes to complete it. *)
Definition mask_ok (m : Z) : Prop := 0 <= m /\ forall k, Z.of_nat n <= k -> Z.testbit m k = false.

Lemma testbit_full k : 0 <= k -> Z.testbit full k = (k <? Z.of_nat n).
Proof.
  intros Hk. unfold full. destruct (Z.ltb_spec k (Z.of_nat n)); [apply Z.ones_spec_low|apply Z.ones_spec_high]; lia.
Qed.

Lemma complete_bits m i j :
  (i < n)%nat -> (j < n)%nat -> Z.lor m (mybit i) = full -> j <> i -> Z.testbit m (Z.of_nat j) = true.
Proof.
  intros Hi Hj Hf Hne. assert (Z.testbit (Z.lor m (mybit i)) (Z.of_nat j) = true) as H.
  { rewrite Hf, testbit_full by lia. apply Z.ltb_lt. lia. }
  rewrite Z.lor_spec, testbit_mybit in H by lia. destruct (Z.eqb_spec (Z.of_nat i) (Z.of_nat j)); [lia|].
  by rewrite orb_false_r in H.
Qed.

Lemma lor_mybit_in m i : (i < n)%nat -> 0 <= m -> Z.testbit m (Z.of_nat i) = true -> Z.lor m (mybit i) = m.
Proof.
  intros Hi Hm Hb. apply Z.bits_inj'. intros k Hk. rewrite Z.lor_spec, testbit_mybit by lia.
  destruct (Z.eqb_spec (Z.of_nat i) k) as [<-|]; [by rewrite Hb|apply orb_false_r].
Qed.

Lemma mask_ok_or m i : (i < n)%nat -> mask_ok m -> mask_ok (Z.lor m (mybit i)).
Proof.
  intros Hi [H1 H2]. unfold mybit. rewrite shl64_one by lia. split.
  - apply Z.lor_nonneg. split; [done|]. apply Z.pow_nonneg. lia.
  - intros k Hk. rewrite Z.lor_spec, H2, testbit_pow2 by lia. destruct (Z.eqb_spec (Z.of_nat i) k); [lia|done].
Qed.

(** Where a processor can be when none pauses. *)
Definition pc_ok (gm : Z) (i : nat) (p : pc) : Prop :=
  match p with
  | Idle => True
  | Old _ dc k => dc = false /\ k = None
  | New _ dc old k => dc = false /\ k = None /\ (Z.lor old (mybit i) = full -> gm = old)
  | Cas _ true old new k => k = None /\ gm = old /\ Z.lor old (mybit i) = full /\ new = 0
  | Cas _ false old new k => k = None /\ new = Z.lor old (mybit i) /\ new <> full
  | Clean _ _ k => k = None /\ Z.testbit gm (Z.of_nat i) = false
  | Collect _ _ _ k | Again _ _ k | Inactive _ _ k => k = None
  | _ => False
  end.

(** [G] generations have ended, [win] is the processor that has reset the mask and
    not yet advanced the count; a deferred node carries the generation [tag] it
    was deferred in. *)
Definition resets (G : Z) (win : option nat) : Z := G + match win with Some _ => 1 | None => 0 end.

Record node_ok (s : rcu) (c g : Z) (node : Z) : Prop := {
  no_defer : E_defer node ∈ log s;
  no_bits : c = g + 2 -> forall i, Z.testbit (gen_mask s) (Z.of_nat i) = true -> E_quiet i ∈ since node (log s);
  no_full : g + 3 <= c -> forall i, (i < n)%nat -> E_quiet i ∈ since node (log s)
}.

Record rinv (s : rcu) (G : Z) (win : option nat) (tag : Z -> Z) : Prop := {
  ri_len : length (pcs s) = n;
  ri_cpu : cpu_mask s = full;
  ri_inactive : inactive_mask s = 0;
  ri_mask : mask_ok (gen_mask s);
  ri_open : gen_mask s <> full;
  ri_count : gen_count s = u64 G;
  ri_lists : length (rcu_lists s) = 4%nat;
  ri_pc : forall i p, pcs s !! i = Some p -> pc_ok (gen_mask s) i p /\ (is_clean p = true <-> win = Some i);
  ri_win : forall i, win = Some i -> (i < n)%nat;
  ri_nodes : forall k l node, rcu_lists s !! k = Some l -> node ∈ l ->
    tag node <= G <= tag node + 2 /\ gen_slot (tag node + 2) = k /\ node_ok s (resets G win) (tag node) node;
  ri_coll : forall i p node, pcs s !! i = Some p -> node ∈ coll_nodes p -> grace n node (log s);
  ri_log : runs_ok n (log s)
}.

Lemma insert_cases {A} (l : list A) i j (x y : A) :
  <[i := x]> l !! j = Some y -> (j = i /\ y = x) \/ (j <> i /\ l !! j = Some y).
Proof.
  intros H. destruct (decide (j = i)) as [->|Hne]; [left|right; split; [done|by rewrite list_lookup_insert_ne in H]].
  apply list_lookup_insert_Some in H. naive_solver.
Qed.

Lemma node_ok_mono s s' c g node e :
  node_ok s c g node -> gen_mask s' = gen_mask s -> (log s' = log s \/ log s' = e :: log s /\ e <> E_defer node) ->
  node_ok s' c g node.
Proof.
  intros [H1 H2 H3] Hg Hl. split; rewrite ?Hg.
  - destruct Hl as [->|[-> _]]; [done|lmem].
  - intros Hc i Hi. destruct Hl as [->|[-> He]]; [|apply since_mono]; auto.
  - intros Hc i Hi. destruct Hl as [->|[-> He]]; [|apply since_mono]; auto.
Qed.

(** A processor moves on without touching the masks. *)
Lemma rinv_move s G win tag i p p' :
  rinv s G win tag -> pcs s !! i = Some p -> is_clean p = false -> is_clean p' = false ->
  pc_ok (gen_mask s) i p' -> (forall node, node ∈ coll_nodes p' -> grace n node (log s)) ->
  rinv (set_pc s i p') G win tag.
Proof.
  intros [] Hp Hc Hc' Hok Hcoll. destruct (ri_pc0 i p Hp) as [_ Hw].
  split; simpl; try done; [by rewrite length_insert|..].
  - intros j q Hq. apply insert_cases in Hq as [[-> ->]|[_ Hq]]; [|auto].
    split; [done|]. rewrite Hc in Hw. rewrite Hc'. done.
  - intros k l node Hl Hnode. destruct (ri_nodes0 k l node Hl Hnode) as (? & ? & ?).
    split; [done|]. split; [done|]. by eapply (node_ok_mono s _ _ _ _ (E_quiet 0)); [done..|left].
  - intros j q node Hq Hnode. apply insert_cases in Hq as [[-> ->]|[_ Hq]]; eauto.
Qed.

Lemma rinv_run s G win tag i rep new node l :
  rinv s G win tag -> pcs s !! i = Some (Collect rep new (node :: l) None) ->
  rinv (note (set_pc s i (Collect rep new l None)) (E_run node)) G win tag.
Proof.
  intros Hinv Hp. pose proof (rinv_move s G win tag i _ (Collect rep new l None) Hinv Hp eq_refl eq_refl) as Hm.
  assert (forall m, m ∈ node :: l -> grace n m (log s)) as Hg.
  { intros m Hm'. by apply (ri_coll _ _ _ _ Hinv i _ m Hp). }
  destruct Hm as []; [done|intros m Hm'; apply Hg; lmem|]. simpl in *. split; simpl; try done.
  - intros k l' m Hl Hm'. destruct (ri_nodes0 k l' m Hl Hm') as (? & ? & ?).
    split; [done|]. split; [done|]. by eapply node_ok_mono; [done|done|right].
  - intros j q m Hq Hm'. apply grace_mono; [done|]. by eapply ri_coll0.
  - split; [|done]. apply Hg. lmem.
Qed.

Lemma rinv_defer s G win tag node :
  rinv s G win tag -> node ∉ pending s -> rinv (rcu_defer s node) G win (fun m => if m =? node then G else tag m).
Proof.
  intros [] Hp. unfold pending in Hp. rewrite elem_of_app, !elem_of_concat in Hp.
  split; simpl; try done; [by rewrite length_alter|..].
  - intros k l m Hl Hm. unfold add64 in Hl. rewrite ri_count0, gen_slot_u64 in Hl.
    assert (gen_slot (u64 G + 2) = gen_slot (G + 2)) as HG.
    { unfold gen_slot, u64, NUM_GEN. f_equal. rewrite <- Z.add_mod_idemp_l by lia.
      rewrite Z.mod_mod_divide by (exists (2 ^ 62); lia). by rewrite Z.add_mod_idemp_l. }
    rewrite HG in Hl. clear HG.
    assert (forall l0, rcu_lists s !! k = Some l0 -> m ∈ l0 -> m <> node /\
      tag m <= G <= tag m + 2 /\ gen_slot (tag m + 2) = k /\ node_ok (rcu_defer s node) (resets G win) (tag m) m) as Hold.
    { intros l0 Hl0 Hm0. assert (m <> node) as Hne by (intros ->; apply Hp; left; eauto using list_elem_of_lookup_2).
      destruct (ri_nodes0 k l0 m Hl0 Hm0) as (? & ? & ?). do 3 (split; [done|]).
      eapply (node_ok_mono s _ _ _ _ (E_defer node)); [done|done|right]. split; [done|congruence]. }
    assert (m = node -> k = gen_slot (G + 2) -> (if m =? node then G else tag m) <= G <= (if m =? node then G else tag m) + 2 /\
      gen_slot ((if m =? node then G else tag m) + 2) = k /\
      node_ok (rcu_defer s node) (resets G win) (if m =? node then G else tag m) m) as Hnew.
    { intros -> ->. rewrite Z.eqb_refl. split; [lia|]. split; [done|].
      split; simpl; [lmem|..]; rewrite ?Z.eqb_refl; unfold resets; destruct win; lia. }
    assert (m <> node -> tag m = if m =? node then G else tag m) as Htag by (by destruct (Z.eqb_spec m node)).
    destruct (decide (k = gen_slot (G + 2))) as [->|Hk].
    + rewrite list_lookup_alter_eq in Hl. apply fmap_Some in Hl as (l0 & Hl0 & ->).
      apply elem_of_app in Hm as [Hm|Hm%list_elem_of_singleton]; [|auto].
      destruct (Hold l0 Hl0 Hm) as (Hne & ?). rewrite <- Htag by done. done.
    + rewrite list_lookup_alter_ne in Hl by done. destruct (Hold l Hl Hm) as (Hne & ?). rewrite <- Htag by done. done.
  - intros i p m Hi Hm. apply grace_mono; [|by eapply ri_coll0].
    intros [= ->]. apply Hp. right. exists (coll_nodes p). split; [done|].
    apply list_elem_of_In, in_map, list_elem_of_In. by eapply list_elem_of_lookup_2.
Qed.

(** A processor adds its bit to a mask that stays incomplete. *)
Lemma rinv_bit s G win tag i rep old :
  rinv s G win tag -> pcs s !! i = Some (Cas rep false old (Z.lor old (mybit i)) None) ->
  gen_mask s = old -> Z.lor old (mybit i) <> full ->
  rinv (note (set_pc (set_gen_mask s (Z.lor old (mybit i))) i Idle) (E_quiet i)) G win tag.
Proof.
  intros Hinv Hp <- Hne. pose proof (lookup_lt_Some _ _ _ Hp) as Hi. destruct Hinv. rewrite ri_len0 in Hi.
  destruct (ri_pc0 i _ Hp) as [_ Hw].
  assert (forall j, (j < n)%nat -> j <> i -> Z.lor (gen_mask s) (mybit j) = full ->
    Z.lor (gen_mask s) (mybit i) = gen_mask s) as Hsame.
  { intros j Hj Hji Hf. apply lor_mybit_in; [done|by destruct ri_mask0|]. by apply (complete_bits _ j i). }
  split; simpl; try done; [by rewrite length_insert|by apply mask_ok_or|..].
  - intros j q Hq. apply insert_cases in Hq as [[-> ->]|[Hji Hq]]; [by split|].
    assert (j < n)%nat as Hj by (rewrite <- ri_len0; by eapply lookup_lt_Some).
    destruct (ri_pc0 j q Hq) as [Hok Hcl]. split; [|done].
    destruct q as [|? ?|? ? o|? dc o|? ? ?| | | | | | | | | | | | |]; simpl in *; try done.
    + destruct Hok as (? & ? & Hc). split; [done|]. split; [done|]. intros Hf. specialize (Hc Hf). subst o.
      by apply (Hsame j).
    + destruct dc; [|done]. destruct Hok as (? & Ho & Hf & ?). subst o. split_and!; try done. by apply (Hsame j).
    + destruct Hok as [? Hb]. split; [done|]. rewrite Z.lor_spec, Hb, testbit_mybit by lia.
      destruct (Z.eqb_spec (Z.of_nat i) (Z.of_nat j)); [lia|done].
  - intros k l node Hl Hnode. destruct (ri_nodes0 k l node Hl Hnode) as (? & ? & [H1 H2 H3]).
    split; [done|]. split; [done|]. split; simpl; [lmem|..].
    + intros Hc j Hj. rewrite Z.lor_spec in Hj. apply orb_prop in Hj as [Hj|Hj]; [specialize (H2 Hc j Hj); lmem|].
      rewrite testbit_mybit in Hj by lia. apply Z.eqb_eq in Hj. assert (j = i) as -> by lia. lmem.
    + intros Hc j Hj. specialize (H3 Hc j Hj). lmem.
  - intros j q node Hq Hnode. apply insert_cases in Hq as [[-> ->]|[_ Hq]]; [by apply not_elem_of_nil in Hnode|].
    apply grace_mono; eauto.
Qed.

(** A processor completes the mask. *)
Lemma rinv_complete s G win tag i rep old :
  rinv s G win tag -> pcs s !! i = Some (Cas rep true old 0 None) -> gen_mask s = old -> Z.lor old (mybit i) = full ->
  rinv (note (set_pc (set_gen_mask s 0) i (Clean rep 0 None)) (E_quiet i)) G (Some i) tag /\ win = None.
Proof.
  intros Hinv Hp <- Hf. pose proof (lookup_lt_Some _ _ _ Hp) as Hi. destruct Hinv. rewrite ri_len0 in Hi.
  assert (forall j, (j < n)%nat -> j <> i -> Z.testbit (gen_mask s) (Z.of_nat j) = true) as Hbits.
  { intros j Hj Hji. by apply (complete_bits _ i j). }
  assert (Z.testbit (gen_mask s) (Z.of_nat i) = false) as Hbi.
  { destruct (Z.testbit (gen_mask s) (Z.of_nat i)) eqn:E; [|done]. exfalso. apply ri_open0. rewrite <- Hf. symmetry.
    apply lor_mybit_in; [done|by destruct ri_mask0|done]. }
  assert (forall j q, j <> i -> pcs s !! j = Some q -> (j < n)%nat /\ is_clean q = false /\ pc_ok 0 j q) as Hothers.
  { intros j q Hji Hq. assert (j < n)%nat as Hj by (rewrite <- ri_len0; by eapply lookup_lt_Some). split; [done|].
    destruct (ri_pc0 j q Hq) as [Hok _].
    assert (Z.lor (gen_mask s) (mybit j) <> full) as Hnf.
    { intros Hf'. rewrite (complete_bits _ j i Hj Hi Hf') in Hbi by done. done. }
    destruct q as [|? ?|? ? o|? dc o|? ? ?| | | | | | | | | | | | |]; simpl in *; try done.
    - destruct Hok as (? & ? & Hc). split_and!; try done. intros Hf'. specialize (Hc Hf'). by subst o.
    - destruct dc; [|done]. destruct Hok as (? & <- & ? & _). done.
    - destruct Hok as [? Hb]. by rewrite Hbits in Hb. }
  assert (win = None) as ->.
  { destruct win as [j|]; [|done]. pose proof (ri_win0 j eq_refl) as Hj.
    destruct (lookup_lt_is_Some_2 (pcs s) j) as [q Hq]; [lia|]. destruct (ri_pc0 j q Hq) as [_ [_ Hc]].
    specialize (Hc eq_refl). destruct (decide (j = i)) as [->|Hji]; [by simplify_eq|].
    destruct (Hothers j q Hji Hq) as (_ & Hc' & _). congruence. }
  split; [|done]. split; simpl; try done; [by rewrite length_insert|..].
  - split; [done|]. intros. apply Z.bits_0.
  - unfold full. rewrite Z.ones_equiv. assert (2 ^ 1 <= 2 ^ Z.of_nat n) by (apply Z.pow_le_mono_r; lia). lia.
  - intros j q Hq. apply insert_cases in Hq as [[-> ->]|[Hji Hq]].
    + split; [|done]. split; [done|]. apply Z.bits_0.
    + destruct (Hothers j q Hji Hq) as (_ & -> & Hok). split; [done|]. split; [done|congruence].
  - intros j [= <-]. done.
  - intros k l node Hl Hnode. destruct (ri_nodes0 k l node Hl Hnode) as (Ht & ? & [H1 H2 H3]).
    unfold resets in *. split; [done|]. split; [done|]. split; simpl; [lmem|..].
    + intros _ j Hj. by rewrite Z.bits_0 in Hj.
    + intros Hc j Hj. destruct (decide (j = i)) as [->|Hji]; [lmem|].
      assert (E_quiet j ∈ since node (log s)) by (apply H2; [lia|auto]). lmem.
  - intros j q node Hq Hnode. apply insert_cases in Hq as [[-> ->]|[_ Hq]]; [by apply not_elem_of_nil in Hnode|].
    apply grace_mono; eauto.
Qed.

(** It takes the list of the generation. *)
Lemma rinv_take s G win tag i rep new :
  rinv s G win tag -> pcs s !! i = Some (Clean rep new None) ->
  rinv (let (l, s) := take_list s in set_pc s i (Collect rep new l None)) (G + 1) None tag.
Proof.
  intros Hinv Hp. pose proof (lookup_lt_Some _ _ _ Hp) as Hi. destruct Hinv. rewrite ri_len0 in Hi.
  destruct (ri_pc0 i _ Hp) as [_ [Hw _]]. specialize (Hw eq_refl). subst win.
  unfold take_list. rewrite ri_count0, gen_slot_u64.
  assert (gen_slot G < 4)%nat as Hslot by (unfold gen_slot, NUM_GEN; pose proof (Z.mod_pos_bound G 4); lia).
  destruct (lookup_lt_is_Some_2 (rcu_lists s) (gen_slot G)) as [l0 Hl0]; [lia|].
  rewrite (nth_lookup_Some _ _ _ _ Hl0).
  split; simpl; try done; [by rewrite length_insert|..].
  - unfold add64, u64. by rewrite Z.add_mod_idemp_l by lia.
  - by rewrite length_insert.
  - intros j q Hq. apply insert_cases in Hq as [[-> ->]|[Hji Hq]]; [done|].
    destruct (ri_pc0 j q Hq) as [Hok Hc]. split; [done|]. rewrite Hc. split; congruence.
  - intros k l node Hl Hnode. apply insert_cases in Hl as [[-> ->]|[Hk Hl]]; [by apply not_elem_of_nil in Hnode|].
    destruct (ri_nodes0 k l node Hl Hnode) as (Ht & <- & Hok).
    assert (G <> tag node + 2) by (intros ->; done). split; [lia|]. split; [done|].
    replace (resets (G + 1) None) with (resets G (Some i)) by (unfold resets; lia).
    by eapply (node_ok_mono s _ _ _ _ (E_quiet 0)); [done..|left].
  - intros j q node Hq Hnode. apply insert_cases in Hq as [[-> ->]|[_ Hq]]; [|by eauto].
    simpl in Hnode. destruct (ri_nodes0 _ _ _ Hl0 Hnode) as (Ht & Hk & [H1 H2 H3]).
    split; [done|]. apply H3. unfold resets. unfold gen_slot, NUM_GEN in Hk.
    assert ((tag node + 2) mod 4 = G mod 4) by (pose proof (Z.mod_pos_bound G 4); pose proof (Z.mod_pos_bound (tag node + 2) 4); lia).
    assert (G = tag node + 2) by dlia. lia.
Qed.

Lemma rinv_check s G win tag i p :
  rinv s G win tag -> pcs s !! i = Some p -> p <> Idle ->
  exists G' win' tag', rinv (rcu_check s i p) G' win' tag'.
Proof.
  intros Hinv Hp Hidle. pose proof (lookup_lt_Some _ _ _ Hp) as Hi. rewrite (ri_len _ _ _ _ Hinv) in Hi.
  destruct (ri_pc _ _ _ _ Hinv i p Hp) as [Hok _].
  assert (forall node, node ∈ @nil Z -> grace n node (log s)) as Hnil.
  { intros node H. by apply not_elem_of_nil in H. }
  assert (forall p', is_clean p = false -> is_clean p' = false -> pc_ok (gen_mask s) i p' -> coll_nodes p' = [] ->
    exists G' win' tag', rinv (set_pc s i p') G' win' tag') as Hmove.
  { intros p' Hc Hc' Hok' Hcn. exists G, win, tag. eapply rinv_move; eauto. by rewrite Hcn. }
  destruct p as [|rep dc k|rep dc old k|rep dc old new k|rep new k|rep new l k|rep new k|rep new k| | | | | | | | | |];
    simpl in Hok; try done; cbn [rcu_check].
  - destruct Hok as [-> ->]. apply Hmove; done.
  - destruct Hok as (-> & -> & Hc). rewrite (ri_cpu _ _ _ _ Hinv), (ri_inactive _ _ _ _ Hinv), Z.land_0_l.
    destruct (Z.eqb_spec (Z.lor old (mybit i)) full) as [Hf|Hf]; apply Hmove; try done; simpl; auto.
  - destruct dc.
    + destruct Hok as (-> & Hgm & Hf & ->). rewrite <- Hgm, Z.eqb_refl. subst old.
      destruct (rinv_complete s G win tag i rep _ Hinv Hp eq_refl Hf) as [H _]. eauto.
    + destruct Hok as (-> & -> & Hf). destruct (Z.eqb_spec (gen_mask s) old) as [Hgm|_]; [|by apply Hmove].
      exists G, win, tag. by apply (rinv_bit s G win tag i rep old).
  - destruct Hok as [-> _]. do 3 eexists. by apply (rinv_take s G win tag i rep new).
  - subst k. destruct l as [|node l]; [by apply Hmove|]. exists G, win, tag. by apply rinv_run.
  - subst k. destruct ((rep <? NUM_GEN) && (Z.lor (mybit i) (gen_mask s) =? cpu_mask s)); by apply Hmove.
  - subst k. rewrite (ri_inactive _ _ _ _ Hinv), Z.land_0_l. by apply Hmove.
Qed.

Lemma rinv_step s G win tag i a s' :
  rinv s G win tag -> step s i a = Some s' -> a <> Call_pause -> exists G' win' tag', rinv s' G' win' tag'.
Proof.
  intros Hinv Hs Ha. unfold step in Hs. destruct (pcs s !! i) as [p|] eqn:Hp; [|done].
  destruct (ri_pc _ _ _ _ Hinv i p Hp) as [Hok _].
  destruct a as [| | |node]; [|destruct p; try done|done|].
  - assert (p <> Idle /\ Some (rcu_check s i p) = Some s') as [Hidle [= <-]] by (destruct p; done).
    by eapply rinv_check.
  - injection Hs as <-. exists G, win, tag. eapply rinv_move; try done. intros node H. by apply not_elem_of_nil in H.
  - destruct (bool_decide_reflect (node ∈ pending s)) as [|Hnp]; [destruct p; done|].
    assert (rcu_defer s node = s') as <- by (destruct p; congruence).
    do 3 eexists. by apply (rinv_defer s G win tag node).
Qed.

Lemma booted_eq m : (m <= n)%nat -> (0 < m)%nat ->
  fold_left rcu_init (seq 0 m) (Rcu [] 0 0 0 0 (repeat Idle n) []) =
  Rcu [[]; []; []; []] 0 (Z.ones (Z.of_nat m)) 0 0 (repeat Idle n) [].
Proof.
  induction m as [|m IH]; intros Hm H0; [lia|]. rewrite seq_S, fold_left_app. destruct m as [|m]; [reflexivity|].
  rewrite IH by lia. cbn [fold_left]. unfold rcu_init. cbn [cpu_mask rcu_lists gen_count gen_mask inactive_mask pcs log].
  assert (0 < Z.ones (Z.of_nat (S m))) as Hpos.
  { rewrite Z.ones_equiv. assert (2 ^ 1 <= 2 ^ Z.of_nat (S m)) by (apply Z.pow_le_mono_r; lia). lia. }
  destruct (Z.eqb_spec (Z.ones (Z.of_nat (S m))) 0); [lia|]. f_equal.
  unfold mybit. rewrite shl64_one by lia. apply Z.bits_inj'. intros k Hk.
  rewrite Z.lor_spec, testbit_pow2, !Z.testbit_ones by lia. zcases.
Qed.

Lemma rinv_booted : (0 < n)%nat -> rinv (booted n) 0 None (fun _ => 0).
Proof.
  intros H0. unfold booted. rewrite booted_eq by lia. split; simpl; try done.
  - apply repeat_length.
  - split; [done|]. intros. apply Z.bits_0.
  - unfold full. rewrite Z.ones_equiv. assert (2 ^ 1 <= 2 ^ Z.of_nat n) by (apply Z.pow_le_mono_r; lia). lia.
  - intros i p Hp. apply list_elem_of_lookup_2, list_elem_of_In, repeat_spec in Hp as ->. by split.
  - intros k l node Hl Hnode. destruct k as [|[|[|[|k]]]]; simplify_eq/=; by apply not_elem_of_nil in Hnode.
  - intros i p node Hp Hnode. apply list_elem_of_lookup_2, list_elem_of_In, repeat_spec in Hp as ->.
    by apply not_elem_of_nil in Hnode.
Qed.

Lemma run_rinv l : forall s G win tag s',
  rinv s G win tag -> run s l = Some s' -> Forall (fun ia => snd ia <> Call_pause) l ->
  exists G' win' tag', rinv s' G' win' tag'.
Proof.
  induction l as [|[i a] l IH]; intros s G win tag s' Hinv Hr Hf; simpl in Hr; [simplify_eq; eauto|].
  inversion_clear Hf as [|? ? Ha Hrest]. destruct (step s i a) as [s1|] eqn:E; [|done].
  destruct (rinv_step s G win tag i a s1 Hinv E Ha) as (G' & win' & tag' & H1). by eapply IH.
Qed.
End Grace.

(** C13: as long as no processor is in [rcu_pause], deferred work only runs after a
    full grace period: in every interleaving of up to 64 processors that defer work
    and call [rcu_check], each piece of work that runs had been deferred, and every
    processor went through [rcu_check] between the two. *)
Theorem rcu_grace_period n l s :
  (0 < n <= 64)%nat -> run (booted n) l = Some s -> Forall (fun ia => snd ia <> Call_pause) l ->
  runs_ok n (log s).
Proof.
  intros Hn Hr Hf.
  destruct (run_rinv n (proj2 Hn) l _ _ _ _ s (rinv_booted n (proj2 Hn) (proj1 Hn)) Hr Hf) as (G & win & tag & Hinv).
  apply (ri_log _ _ _ _ _ Hinv).
Qed.

(** Two processors: the work deferred by one runs after both checked. *)
Definition demo_trace : list (nat * action) :=
  [(0, Defer 7); (1, Call_check); (1, Go); (1, Go); (1, Go)]%nat ++
  concat (repeat ((0%nat, Call_check) :: repeat (0%nat, Go) 7 ++ (1%nat, Call_check) :: repeat (1%nat, Go) 3) 3).

Lemma rcu_grace_period_witness :
  exists s, run (booted 2) demo_trace = Some s /\ E_run 7 ∈ log s /\ runs_ok 2 (log s).
Proof.
  destruct (run (booted 2) demo_trace) as [s|] eqn:E; [|vm_compute in E; discriminate].
  exists s. split; [done|]. split.
  - vm_compute in E. injection E as <-. right. left.
  - apply (rcu_grace_period 2 demo_trace s); [lia|done|]. repeat constructor; discriminate.
Defined.

(** ** One processor *)

Lemma run_app l1 : forall s l2,
  run s (l1 ++ l2) = match run s l1 with Some s => run s l2 | None => None end.
Proof. induction l1 as [|[i a] l1 IH]; intros s l2; simpl; [done|]. by destruct (step s i a). Qed.

Lemma run_go s s1 s2 a b :
  run s (repeat (0%nat, Go) a) = Some s1 -> run s1 (repeat (0%nat, Go) b) = Some s2 ->
  run s (repeat (0%nat, Go) (a + b)) = Some s2.
Proof. intros H1 H2. by rewrite repeat_app, run_app, H1. Qed.

Definition alone (p : pc) (lists : list (list Z)) (c : Z) (lg : list event) : rcu :=
  Rcu lists c 1 0 0 [p] lg.

Lemma run_collect rep new lists c l : forall lg,
  run (alone (Collect rep new l None) lists c lg) (repeat (0%nat, Go) (length l)) =
  Some (alone (Collect rep new [] None) lists c (map E_run (rev l) ++ lg)).
Proof.
  induction l as [|node l IH]; intros lg; [done|]. simpl. rewrite map_app, <- app_assoc. apply (IH (E_run node :: lg)).
Qed.

(** One round of [rcu_check] runs one generation. *)
Lemma run_round rep lists c lg :
  run (alone (Old rep false None) lists c lg)
    (repeat (0%nat, Go) (4 + (length (nth (gen_slot c) lists []) + 2))) =
  Some (alone (if rep + 1 <? NUM_GEN then Old (rep + 1) false None else Inactive (rep + 1) 0 None)
          (<[gen_slot c := []]> lists) (add64 c 1) (map E_run (rev (nth (gen_slot c) lists [])) ++ E_quiet 0 :: lg)).
Proof.
  set (l := nth (gen_slot c) lists []). rewrite repeat_app, run_app.
  assert (run (alone (Old rep false None) lists c lg) (repeat (0%nat, Go) 4) =
    Some (alone (Collect rep 0 l None) (<[gen_slot c := []]> lists) (add64 c 1) (E_quiet 0 :: lg))) as -> by reflexivity.
  rewrite repeat_app, run_app, run_collect. cbn [repeat run step alone pcs lookup list_lookup rcu_check set_pc
    rcu_lists gen_count cpu_mask gen_mask inactive_mask log insert list_insert].
  by destruct (rep + 1 <? NUM_GEN).
Qed.

(** The nodes run, oldest first. *)
Definition ran (l : list event) : list Z :=
  omap (fun e => match e with E_run x => Some x | _ => None end) (rev l).

Lemma ran_round l r : ran (map E_run (rev l) ++ E_quiet 0 :: r) = ran r ++ l.
Proof.
  unfold ran. rewrite rev_app_distr. simpl. rewrite <- map_rev, rev_involutive, <- app_assoc, !omap_app. f_equal. simpl.
  induction l as [|x l IH]; [done|]. cbn [map omap list_omap]. f_equal. exact IH.
Qed.

(** C39: with one processor a single call of [rcu_check] runs everything that is
    pending, generation by generation and within a generation in the order it was
    deferred, empties every list, and returns. *)
Theorem rcu_check_drains l0 l1 l2 l3 (c : Z) lg :
  exists fuel s', run (Rcu [l0; l1; l2; l3] c 1 0 0 [Idle] lg) ((0%nat, Call_check) :: repeat (0%nat, Go) fuel) = Some s' /\
    rcu_lists s' = [[]; []; []; []] /\ pcs s' = [Idle] /\ gen_count s' = add64 c 4 /\
    exists front, log s' = front ++ lg /\
      ran front = concat (map (fun k => nth (gen_slot (c + k)) [l0; l1; l2; l3] []) [0; 1; 2; 3]).
Proof.
  set (L := [l0; l1; l2; l3]).
  assert (forall a k, 0 <= k -> gen_slot (add64 a k) = gen_slot (a + k)) as Hadd by (intros; apply gen_slot_u64).
  assert (forall a b, add64 (add64 a b) 1 = add64 a (b + 1)) as Hadd1.
  { intros a b. unfold add64, u64. rewrite Z.add_mod_idemp_l by lia. f_equal. lia. }
  pose proof (run_round 0 L c lg) as R1. set (lg1 := map E_run _ ++ _) in R1.
  pose proof (run_round 1 (<[gen_slot c := []]> L) (add64 c 1) lg1) as R2. set (lg2 := map E_run _ ++ _) in R2.
  pose proof (run_round 2 (<[gen_slot (add64 c 1) := []]> (<[gen_slot c := []]> L)) (add64 c 2) lg2) as R3.
  set (lg3 := map E_run _ ++ _) in R3.
  pose proof (run_round 3 (<[gen_slot (add64 c 2) := []]> (<[gen_slot (add64 c 1) := []]> (<[gen_slot c := []]> L)))
    (add64 c 3) lg3) as R4.
  set (lg4 := map E_run _ ++ _) in R4. rewrite !Hadd1 in *. cbn [Z.add Z.ltb NUM_GEN Z.compare Pos.compare Pos.compare_cont] in *.
  set (LL := <[gen_slot (add64 c 3) := []]> (<[gen_slot (add64 c 2) := []]>
    (<[gen_slot (add64 c 1) := []]> (<[gen_slot c := []]> L)))) in *.
  assert (run (alone (Inactive 4 0 None) LL (add64 c 4) lg4) (repeat (0%nat, Go) 1) =
    Some (alone Idle LL (add64 c 4) lg4)) as R5 by reflexivity.
  assert (exists fuel, run (alone (Old 0 false None) L c lg) (repeat (0%nat, Go) fuel) =
    Some (alone Idle LL (add64 c 4) lg4)) as [fuel R].
  { eexists. eapply run_go; [exact R1|]. eapply run_go; [exact R2|]. eapply run_go; [exact R3|].
    eapply run_go; [exact R4|exact R5]. }
  clear R1 R2 R3 R4 R5. exists fuel, (alone Idle LL (add64 c 4) lg4). split; [exact R|].
  assert (exists m, (m = 0 \/ m = 1 \/ m = 2 \/ m = 3) /\ forall k, gen_slot (c + k) = Z.to_nat ((m + k) mod 4))
    as (m & Hm & Hslot).
  { exists (c mod 4). split; [pose proof (Z.mod_pos_bound c 4); lia|]. intros k. unfold gen_slot, NUM_GEN.
    by rewrite Z.add_mod_idemp_l. }
  pose proof (Hslot 0) as Hslot0. rewrite !Z.add_0_r in Hslot0.
  clear R. unfold alone, lg4, lg3, lg2, lg1, LL. cbn [rcu_lists pcs gen_count log map concat].
  rewrite !Hadd, !Hslot, Hslot0 by lia. split; [|split; [done|split; [done|]]].
  - destruct Hm as [-> | [-> | [-> | ->]]]; reflexivity.
  - set (A1 := nth (Z.to_nat ((m + 3) mod 4)) _ []). set (A2 := nth (Z.to_nat ((m + 2) mod 4)) _ []).
    set (A3 := nth (Z.to_nat ((m + 1) mod 4)) _ []). set (A4 := nth (Z.to_nat (m mod 4)) L []).
    exists (map E_run (rev A1) ++ E_quiet 0 :: map E_run (rev A2) ++ E_quiet 0 :: map E_run (rev A3) ++
      E_quiet 0 :: map E_run (rev A4) ++ [E_quiet 0]). split.
    { repeat (simpl; rewrite <- ?app_assoc). done. }
    rewrite !ran_round. subst A1 A2 A3 A4. destruct Hm as [-> | [-> | [-> | ->]]]; simpl; by rewrite <- ?app_assoc, ?app_nil_r.
Qed.

(** With [rcu_pause] the promise fails: [do_cleanup] keeps its value when the
    compare-and-swap fails and the mask has been reset meanwhile.  Processor 1
    pauses; node 77 is deferred and run while processor 0 is outside [rcu_check]
    throughout. *)
Definition premature : list (nat * action) :=
  [(0, Call_check); (0, Go); (0, Go); (0, Go); (0, Call_check);
   (1, Call_pause); (1, Go); (1, Go); (1, Go); (2, Call_check); (2, Go); (2, Go); (2, Go);
   (1, Go); (1, Go); (1, Go); (0, Go); (0, Go); (0, Go); (2, Defer 77);
   (1, Go); (1, Go); (1, Go); (1, Go); (2, Call_check); (2, Go); (2, Go); (2, Go);
   (1, Go); (1, Go); (1, Go); (1, Go); (1, Go); (1, Go); (2, Call_check); (2, Go);
   (1, Go); (1, Go); (2, Go); (2, Go); (2, Go); (2, Go); (2, Go); (2, Go); (2, Go)]%nat.

Example rcu_pause_premature :
  option_map log (run (booted 3) premature) =
    Some [E_run 77; E_quiet 2; E_quiet 1; E_quiet 2; E_defer 77; E_quiet 0; E_quiet 1; E_quiet 2; E_quiet 0]
  /\ option_map (fun s => pcs s !! 0%nat) (run (booted 3) (take 20 premature)) = Some (Some Idle)
  /\ Forall (fun ia => fst ia <> 0%nat) (drop 20 premature).
Proof. split; [reflexivity|]. split; [reflexivity|]. repeat constructor; discriminate. Qed.
