(* ===== verification/Field.v ===== *)
(** * Field: bit fields of 64-bit unions

    The unions [pte], [ptel] ([include/powerpc/64/htab.h]), [tce] and [tce_bdesc]
    ([hype/tce.h]) view a word as bit fields, laid out from the most significant
    bit on this machine.  A field is its lowest bit and its width; assigning to it
    truncates the value to the width. *)

From S2P Require Import Prelude.

Record field := Field { f_off : Z; f_len : Z }.

Definition fget (f : field) (w : Z) : Z := Z.land (Z.shiftr w (f_off f)) (Z.ones (f_len f)).

Definition fset (f : field) (w v : Z) : Z :=
  Z.lor (Z.land w (Z.lnot (Z.shiftl (Z.ones (f_len f)) (f_off f))))
        (Z.shiftl (Z.land v (Z.ones (f_len f))) (f_off f)).

Definition field_ok (f : field) : Prop := 0 <= f_off f /\ 0 <= f_len f /\ f_off f + f_len f <= 64.

Definition field_disjoint (f g : field) : Prop :=
  f_off f + f_len f <= f_off g \/ f_off g + f_len g <= f_off f.

(** Whether bit [i] belongs to the field. *)
Definition in_field (f : field) (i : Z) : bool := (f_off f <=? i) && (i <? f_off f + f_len f).

Lemma testbit_ones_small n i : 0 <= n -> 0 <= i -> Z.testbit (Z.ones n) i = (i <? n).
Proof. intros Hn Hi. rewrite Z.testbit_ones by done. zcases. Qed.

Lemma testbit_fget f w i :
  field_ok f -> 0 <= i -> Z.testbit (fget f w) i = (i <? f_len f) && Z.testbit w (i + f_off f).
Proof.
  intros (H1 & H2 & _) Hi. unfold fget. rewrite Z.land_spec, Z.shiftr_spec, testbit_ones_small by lia. apply andb_comm.
Qed.

Lemma testbit_fset f w v i :
  field_ok f -> 0 <= i ->
  Z.testbit (fset f w v) i = if in_field f i then Z.testbit v (i - f_off f) else Z.testbit w i.
Proof.
  intros (H1 & H2 & _) Hi. unfold fset, in_field.
  rewrite Z.lor_spec, Z.land_spec, Z.lnot_spec, !Z.shiftl_spec by lia.
  destruct (Z.leb_spec (f_off f) i) as [Hle|Hlt]; cbn [andb].
  - rewrite Z.land_spec, testbit_ones_small by lia.
    destruct (Z.ltb_spec (i - f_off f) (f_len f)), (Z.ltb_spec i (f_off f + f_len f)); try lia; cbn [negb andb].
    + by rewrite andb_false_r, andb_true_r.
    + by rewrite andb_true_r, andb_false_r, orb_false_r.
  - rewrite !(Z.testbit_neg_r _ (i - f_off f)) by lia. by rewrite andb_true_r, orb_false_r.
Qed.

Lemma fget_range f w : field_ok f -> 0 <= fget f w < 2 ^ f_len f.
Proof. intros (H1 & H2 & _). unfold fget. rewrite Z.land_ones by lia. apply Z.mod_pos_bound, Z.pow_pos_nonneg; lia. Qed.

Lemma fget_fset f w v : field_ok f -> fget f (fset f w v) = Z.land v (Z.ones (f_len f)).
Proof.
  intros Hf. pose proof Hf as (H1 & H2 & _). apply Z.bits_inj'. intros i Hi.
  rewrite testbit_fget, testbit_fset, Z.land_spec, testbit_ones_small by (done || lia). unfold in_field.
  destruct (Z.ltb_spec i (f_len f)); cbn [andb]; [|by rewrite andb_false_r].
  destruct (Z.leb_spec (f_off f) (i + f_off f)), (Z.ltb_spec (i + f_off f) (f_off f + f_len f)); try lia.
  cbn [andb]. rewrite andb_true_r. f_equal. lia.
Qed.

Lemma fget_fset_other f g w v :
  field_ok f -> field_ok g -> field_disjoint f g -> fget f (fset g w v) = fget f w.
Proof.
  intros Hf Hg Hd. pose proof Hf as (H1 & H2 & _). pose proof Hg as (H3 & H4 & _). apply Z.bits_inj'. intros i Hi.
  rewrite !testbit_fget, testbit_fset by (done || lia). unfold in_field.
  destruct (Z.ltb_spec i (f_len f)); [|done].
  destruct Hd; destruct (Z.leb_spec (f_off g) (i + f_off f)), (Z.ltb_spec (i + f_off f) (f_off g + f_len g)); try lia; done.
Qed.

Lemma fset_u64 f w v : field_ok f -> is_u64 w -> is_u64 (fset f w v).
Proof.
  intros Hf Hw. pose proof Hf as (H1 & H2 & H3). apply is_u64_intro.
  - intros i Hi. rewrite testbit_fset by (done || lia). unfold in_field.
    destruct (Z.leb_spec (f_off f) i), (Z.ltb_spec i (f_off f + f_len f)); try lia; simpl; by apply is_u64_testbit.
  - unfold fset. apply Z.lor_nonneg. split.
    + apply Z.land_nonneg. left. apply Hw.
    + apply Z.shiftl_nonneg, Z.land_nonneg. right. rewrite Z.ones_equiv. assert (0 < 2 ^ f_len f) by (apply Z.pow_pos_nonneg; lia). lia.
Qed.

(** A field of one bit. *)
Lemma fget_bit f w : field_ok f -> f_len f = 1 -> fget f w = Z.b2z (Z.testbit w (f_off f)).
Proof.
  intros Hf Hl. pose proof Hf as (H1 & H2 & _). apply Z.bits_inj'. intros i Hi. rewrite testbit_fget, Hl by (done || lia).
  destruct (Z.eqb_spec i 0) as [->|].
  - rewrite Z.add_0_l. by destruct (Z.testbit w (f_off f)).
  - destruct (Z.ltb_spec i 1); [lia|]. simpl. destruct (Z.testbit w (f_off f)); simpl; [|by rewrite Z.bits_0].
    rewrite testbit_one. symmetry. by apply Z.eqb_neq.
Qed.

Ltac field_side := first [ done | lia | solve [unfold field_ok, field_disjoint; simpl; lia] ].
