(* ===== verification/Htab.v ===== *)
(** * Htab: the hashed page table of a partition

    [include/powerpc/64/htab.h], [hype/powerpc/64/htab.[ch]], [vm.[ch]],
    [pmm_arch.c], the page-table calls [h_enter], [h_remove], [h_read],
    [h_protect], [h_clear_mod], [h_clear_ref], and the functions of
    [lib/powerpc/64/pte.c] and [include/powerpc/64/mmu.h] that build and place
    entries.  A partition edits the table the processor walks only through these
    calls; its real page numbers come out of the logical address space
    ([Logical]).  The memory barriers have no counterpart; translation-lookaside
    invalidations are logged.  The build has no [SWTLB]. *)

From S2P Require Import Prelude Hcall Bitmap PgAlloc Logical Field.

(** ** Entries: [union pte] *)
Record pte := Pte { vsidWord : Z; rpnWord : Z }.

Definition b_avpn : field := Field 7 57.
Definition b_lock : field := Field 6 1.
Definition b_res : field := Field 5 1.
Definition b_bolted : field := Field 4 1.
Definition b_l : field := Field 2 1.
Definition b_h : field := Field 1 1.
Definition b_v : field := Field 0 1.
Definition b_pp0 : field := Field 63 1.
Definition b_ts : field := Field 62 1.
Definition b_rpn : field := Field 12 50.
Definition b_res2 : field := Field 10 2.
Definition b_r : field := Field 8 1.
Definition b_c : field := Field 7 1.
Definition b_w : field := Field 6 1.
Definition b_i : field := Field 5 1.
Definition b_m : field := Field 4 1.
Definition b_g : field := Field 3 1.
Definition b_n : field := Field 2 1.
Definition b_pp1 : field := Field 0 2.

Definition vget (f : field) (p : pte) : Z := fget f (vsidWord p).
Definition rget (f : field) (p : pte) : Z := fget f (rpnWord p).
Definition vset (f : field) (p : pte) (x : Z) : pte := Pte (fset f (vsidWord p) x) (rpnWord p).
Definition rset (f : field) (p : pte) (x : Z) : pte := Pte (vsidWord p) (fset f (rpnWord p) x).

Definition H_EXACT : Z := 2 ^ (63 - 24).
Definition H_R_XLATE : Z := 2 ^ (63 - 25).
Definition H_READ_4 : Z := 2 ^ (63 - 26).
Definition H_AVPN : Z := 2 ^ (63 - 32).
Definition H_ANDCOND : Z := 2 ^ (63 - 33).
Definition H_ICACHE_INVALIDATE : Z := 2 ^ (63 - 40).
Definition H_ICACHE_SYNCHRONIZE : Z := 2 ^ (63 - 41).
Definition H_ZERO_PAGE : Z := 2 ^ (63 - 48).
Definition H_N : Z := 2 ^ (63 - 61).
Definition H_PP1 : Z := 2 ^ (63 - 62).
Definition H_PP2 : Z := 2 ^ (63 - 63).

Definition UNSUP_FLAGS : Z :=
  Z.lor H_ICACHE_INVALIDATE (Z.lor H_ICACHE_SYNCHRONIZE (Z.lor H_ZERO_PAGE H_R_XLATE)).

(** ** The table and the partition *)
Definition SDR1_HTABORG_MASK : Z := 0xfffffffffff80000.
Definition SDR1_HTABSIZE_MASK : Z := 0x1f.
Definition SDR1_HTABSIZE_MAX : Z := 46.
Definition SDR1_HTABSIZE_BASEBITS : Z := 11.
Definition HTAB_MIN_LOG_SIZE : Z := 18.
Definition HTAB_MAX_LOG_SIZE : Z := 26.
Definition LOG_PTE_SIZE : Z := 4.
Definition LOG_PTEG_SIZE : Z := 7.
Definition NUM_PTES_IN_PTEG : Z := 8.

(** [struct logical_htab]; [ptes] is what the memory at [GET_HTAB] holds. *)
Record logical_htab := LogicalHtab {
  sdr1 : Z;
  num_ptes : Z;
  shadow : list Z;
  ptes : list pte
}.

(** What the calls of a partition work on: the memory records and tables, its
    hashed table, the shifts of its large pages, whether the software manages the
    translation buffer, the caller's registers, and the translations invalidated
    so far (address, large page). *)
Record part := Part {
  p_mem : memory;
  p_os : Z;
  p_htab : logical_htab;
  large_page_shift : list Z;
  sfw_tlb : bool;
  gprs : gmap Z Z;
  tlb_log : list (Z * bool)
}.

Definition set_mem (s : part) (m : memory) : part :=
  Part m (p_os s) (p_htab s) (large_page_shift s) (sfw_tlb s) (gprs s) (tlb_log s).
Definition set_ptes (s : part) (l : list pte) : part :=
  Part (p_mem s) (p_os s) (LogicalHtab (sdr1 (p_htab s)) (num_ptes (p_htab s)) (shadow (p_htab s)) l)
    (large_page_shift s) (sfw_tlb s) (gprs s) (tlb_log s).
Definition set_shadow (s : part) (l : list Z) : part :=
  Part (p_mem s) (p_os s) (LogicalHtab (sdr1 (p_htab s)) (num_ptes (p_htab s)) l (ptes (p_htab s)))
    (large_page_shift s) (sfw_tlb s) (gprs s) (tlb_log s).
Definition set_gpr (s : part) (r x : Z) : part :=
  Part (p_mem s) (p_os s) (p_htab s) (large_page_shift s) (sfw_tlb s) (<[r := x]> (gprs s)) (tlb_log s).
Definition log_tlbie (s : part) (e : Z * bool) : part :=
  Part (p_mem s) (p_os s) (p_htab s) (large_page_shift s) (sfw_tlb s) (gprs s) (tlb_log s ++ [e]).

Definition get_pte (s : part) (i : Z) : res pte := aget (ptes (p_htab s)) i.
Definition put_pte (s : part) (i : Z) (p : pte) : res part :=
  let! l := aset (ptes (p_htab s)) i p in Ok (set_ptes s l).

(** [struct arch_mem_ops]: what a kind of memory does when an entry for it
    appears or goes; an absent operation is [NULL]. *)
Record arch_mem_ops := ArchMemOps {
  amo_sav_ptep : option (memory -> Z -> Z -> Z -> Z -> res (Z * memory));
  amo_rem_ptep : option (memory -> Z -> Z -> Z -> Z -> res (Z * memory))
}.

(** [pmem_ops], less the check of the cache bits, whose result [h_enter] drops. *)
Definition pmem_ops : arch_mem_ops := ArchMemOps None None.

(** [hpte] memory-type check of [pmm_arch.c]; [type] is the resource's. *)
Definition phys_mem_amo_check_WIMG (type word : Z) : Z :=
  if type =? 1 then
    if (fget b_w word =? 0) && (fget b_i word =? 0) && (fget b_m word =? 1) && (fget b_g word =? 0) then 1 else 0
  else if type =? 2 then
    if (fget b_w word =? 0) && (fget b_i word =? 1) && (fget b_g word =? 1) then 1 else 0
  else 0.

Definition CHECK_UNSUP (flags : Z) : bool := truth (Z.land flags UNSUP_FLAGS).

Definition check_index (s : part) (ptex : Z) : bool := num_ptes (p_htab s) <? ptex.

(** The virtual address [do_tlbie] invalidates for an entry at [ptex]. *)
Definition tlbie_addr (p : pte) (ptex : Z) : Z :=
  let vsid := shr64 (vget b_avpn p) 5 in
  let group := shr64 ptex 3 in
  let group := if truth (vget b_h p) then not64 group else group in
  let pi := Z.land (Z.lxor vsid group) 0x7ff in
  let pi_high := shl64 (Z.land (vget b_avpn p) 0x1f) 11 in
  let pi := Z.lor pi pi_high in
  Z.lor (shl64 pi 12) (shl64 vsid 28).

Definition do_tlbie (s : part) (p : pte) (ptex : Z) : part :=
  let va := tlbie_addr p ptex in
  if truth (vget b_l p) then log_tlbie s (Z.lor va (Z.land (rget b_rpn p) 1), true)
  else log_tlbie s (va, false).

Definition save_pte (s : part) (ptex vsidIndex rpnIndex : Z) : res part :=
  let! p := get_pte s ptex in
  let! ex := aget (shadow (p_htab s)) ptex in
  let s := set_gpr s vsidIndex (vsidWord p) in
  let w := if rpnWord p =? 0 then rpnWord p else fset b_rpn (rpnWord p) ex in
  Ok (set_gpr s rpnIndex w).

Definition pte_insert (s : part) (ptex vsidw rpnw lrpn : Z) : res part :=
  let! p := get_pte s ptex in
  cassert (vget b_v p =? 0)
    (let! sh := aset (shadow (p_htab s)) ptex lrpn in
     put_pte (set_shadow s sh) ptex (Pte vsidw rpnw)).

(** [PTE_MOD_GENERAL_END] *)
Definition PTE_MOD_GENERAL_END (p : pte) : pte := vset b_v p 1.

Definition add_ptecount (m : memory) (l d : Z) : res memory :=
  let! x := get_lci m l in
  Ok (put_lci m l (Lci (lci_raddr x) (lci_laddr x) (lci_size x) (u32 (lci_ptecount x + d)) (lci_flags x)
                       (lci_ops x) (lci_os x))).

(** [while (rpn & 0x1)]: the large-page bits and their number. *)
Fixpoint lp_bits (fuel : nat) (rpn lpbits lpsize : Z) : Z * Z :=
  match fuel with
  | O => (lpbits, lpsize)
  | S fuel =>
      if truth (Z.land rpn 1) then lp_bits fuel (Z.shiftr rpn 1) (Z.lor (Z.shiftl lpbits 1) 1) (lpsize + 1)
      else (lpbits, lpsize)
  end.

Section Calls.
Context (l_to_r : Z -> logical_chunk_info -> Z -> Z -> res Z) (other_amo : Z -> arch_mem_ops).

Definition amo_of (x : logical_chunk_info) : arch_mem_ops :=
  match lci_ops x with Phys_mem_ops => pmem_ops | Other_ops t => other_amo t end.

(** The first free entry from [i], of [n]. *)
Fixpoint find_slot (n : nat) (s : part) (i : Z) : res (option Z) :=
  match n with
  | O => Ok None
  | S n =>
      let! p := get_pte s i in
      if vget b_v p =? 0 then Ok (Some i) else find_slot n s (i + 1)
  end.

(** [h_enter].  The flags that ask for clearing or cache work are among those
    [CHECK_UNSUP] refuses, so the branches on them are not reached. *)
Definition h_enter (s : part) (flags ptex vsidw rpnw : Z) : res (Z * part) :=
  let localPte := Pte vsidw rpnw in
  if CHECK_UNSUP flags then Ok (H_Parameter, s)
  else
    let large := truth (vget b_l localPte) in
    let (lpbits, lpsize) := if large then lp_bits 51 (rget b_rpn localPte) 0 0 else (0, 0) in
    if large && (1 <? lpsize) then Ok (H_Parameter, s)
    else
      let! pgsize := if large then aget (large_page_shift s) lpsize else Ok LOG_PGSIZE in
      check! 12 <=? pgsize else Bad_shift in
      let lrpn := Z.land (rget b_rpn localPte) (shl64 ONES64 (pgsize - 12)) in
      let laddr := shl64 lrpn LOG_PGSIZE in
      let! l := laddr_to_lci (p_mem s) (p_os s) laddr in
      if l =? 0 then Ok (H_Parameter, s)
      else
        let! x := get_lci (p_mem s) l in
        let! raddr := lci_translate l_to_r x laddr (2 ^ pgsize) in
        if raddr =? INVALID_PHYSICAL_ADDRESS then Ok (H_Parameter, s)
        else
          let rrpn := shr64 raddr LOG_PGSIZE in
          if rrpn =? 0 then Ok (H_Privilege, s)
          else
            let localPte := rset b_rpn localPte (Z.lor rrpn lpbits) in
            if check_index s ptex then Ok (H_Parameter, s)
            else
              let amo := amo_of x in
              let localPte := vset b_res (vset b_lock localPte 0) 0 in
              let localPte := rset b_res2 (rset b_ts (rset b_pp0 localPte 0) 0) 0 in
              let exact := truth (Z.land flags H_EXACT) in
              let ptex := if exact then ptex else Z.land ptex (not64 7) in
              let! slot := find_slot (if exact then 1 else 8) s ptex in
              match slot with
              | None => Ok (H_PTEG_FULL, s)
              | Some i =>
                  let! (ok, m) :=
                    match amo_sav_ptep amo with
                    | None => Ok (1, p_mem s)
                    | Some sav => sav (p_mem s) l laddr rrpn i
                    end in
                  let s := set_mem s m in
                  if ok =? 0 then Ok (H_UNAVAIL, s)
                  else
                    let! s := pte_insert s i (vsidWord localPte) (rpnWord localPte) lrpn in
                    let! m := add_ptecount (p_mem s) l 1 in
                    Ok (H_Success, set_gpr (set_mem s m) 4 i)
              end.

Definition h_remove (s : part) (flags ptex avpn : Z) : res (Z * part) :=
  if check_index s ptex then Ok (H_Parameter, s)
  else
    let! p := get_pte s ptex in
    if truth (Z.land flags H_AVPN) && negb (shl64 (vget b_avpn p) 7 =? avpn) then Ok (H_NOT_FOUND, s)
    else if truth (Z.land flags H_ANDCOND) && negb (Z.land avpn (vsidWord p) =? 0) then Ok (H_NOT_FOUND, s)
    else
      let! s := save_pte s ptex 4 5 in
      let invalidate s :=
        let p := vset b_v p 0 in
        let! s := put_pte s ptex p in
        Ok (H_Success, do_tlbie s p ptex) in
      if truth (vget b_v p) then
        let! sh := aget (shadow (p_htab s)) ptex in
        let laddr := shl64 sh LOG_PGSIZE in
        let! l := laddr_to_lci (p_mem s) (p_os s) laddr in
        if l =? 0 then Ok (H_Parameter, s)
        else
          let! x := get_lci (p_mem s) l in
          let! (_, m) :=
            match amo_rem_ptep (amo_of x) with
            | None => Ok (0, p_mem s)
            | Some rem => rem (p_mem s) l laddr (rget b_rpn p) ptex
            end in
          let! m := add_ptecount m l (2 ^ 32 - 1) in
          invalidate (set_mem s m)
      else invalidate s.

Fixpoint save_ptes (n : nat) (s : part) (ptex r : Z) : res part :=
  match n with
  | O => Ok s
  | S n => let! s := save_pte s ptex r (r + 1) in save_ptes n s (ptex + 1) (r + 2)
  end.

Definition h_read (s : part) (flags ptex : Z) : res (Z * part) :=
  if CHECK_UNSUP flags then Ok (H_Parameter, s)
  else if check_index s ptex then Ok (H_Parameter, s)
  else
    let four := truth (Z.land flags H_READ_4) in
    if four && (check_index s (add64 ptex 1) || check_index s (add64 ptex 2) || check_index s (add64 ptex 3))
    then Ok (H_Parameter, s)
    else
      let! s := if four then save_ptes 4 s (Z.land ptex (not64 3)) 4 else save_pte s ptex 4 5 in
      Ok (H_Success, s).

Definition h_protect (s : part) (flags ptex avpn : Z) : res (Z * part) :=
  if check_index s ptex then Ok (H_Parameter, s)
  else
    let! p := get_pte s ptex in
    if vget b_v p =? 0 then Ok (H_NOT_FOUND, s)
    else if truth (Z.land flags H_AVPN) && negb (shl64 (vget b_avpn p) 7 =? avpn) then Ok (H_NOT_FOUND, s)
    else
      let p := vset b_v p 0 in
      let s := do_tlbie s p ptex in
      let p := rset b_pp1 p (Z.land flags (Z.lor H_PP1 H_PP2)) in
      let p := rset b_n p (if truth (Z.land flags H_N) then 1 else 0) in
      let! s := put_pte s ptex (PTE_MOD_GENERAL_END p) in
      Ok (H_Success, s).

Definition h_clear_mod (s : part) (ptex : Z) : res (Z * part) :=
  if check_index s ptex then Ok (H_Parameter, s)
  else
    let! p := get_pte s ptex in
    let s := set_gpr s 4 (rpnWord p) in
    if rget b_c p =? 0 then Ok (H_Success, s)
    else
      let p := vset b_v p 0 in
      let s := do_tlbie s p ptex in
      let! s := put_pte s ptex (PTE_MOD_GENERAL_END (rset b_c p 0)) in
      Ok (H_Success, s).

Definition h_clear_ref (s : part) (ptex : Z) : res (Z * part) :=
  if check_index s ptex then Ok (H_Parameter, s)
  else
    let! p := get_pte s ptex in
    let s := set_gpr s 4 (rpnWord p) in
    if rget b_r p =? 0 then Ok (H_Success, s)
    else
      let p := rset b_r p 0 in
      let! s := put_pte s ptex p in
      Ok (H_Success, do_tlbie s p ptex).
End Calls.

(** ** Taking memory away *)

(** [ptes_tlbies]: entries [i] to [num_ptes]. *)
Fixpoint ptes_tlbies (n : nat) (s : part) (x : logical_chunk_info) (i : Z) : res part :=
  match n with
  | O => Ok s
  | S n =>
      let! p := get_pte s i in
      let! sh := aget (shadow (p_htab s)) i in
      if (vget b_v p =? 0) || negb (range_contains (lci_laddr x) (lci_size x) sh) then ptes_tlbies n s x (i + 1)
      else
        let p := vset b_v p 0 in
        let! s := put_pte s i p in
        ptes_tlbies n (do_tlbie s p i) x (i + 1)
  end.

(** [hpte_scan_unmap], also known as [phys_mem_unmap]; the alternative invalidates
    the whole translation buffer, which leaves the table alone. *)
Definition hpte_scan_unmap (s : part) (l : Z) : res (Z * part) :=
  let! x := get_lci (p_mem s) l in
  if lci_ptecount x =? 0 then Ok (0, s)
  else
    let! s := if sfw_tlb s then Ok s else ptes_tlbies (Z.to_nat (num_ptes (p_htab s))) s x 0 in
    Ok (0, set_mem s (put_lci (p_mem s) l (Lci (lci_raddr x) (lci_laddr x) (lci_size x) 0 (lci_flags x)
                                               (lci_ops x) (lci_os x)))).

(** [pte_invalidate]: [ptex] is the entry's place. *)
Definition pte_invalidate (s : part) (ptex : Z) : res part :=
  let! p := get_pte s ptex in
  let! s := put_pte s ptex (vset b_v p 0) in
  let! sh := aset (shadow (p_htab s)) ptex 0 in
  Ok (set_shadow s sh).

(** ** Making a table *)
Definition htab_calc_sdr1 (htab_addr log_htab_size : Z) : res Z :=
  let htab_size := shl64 1 log_htab_size in
  cassert (Z.land htab_addr (sub64 htab_size 1) =? 0)
    (cassert (log_htab_size <=? SDR1_HTABSIZE_MAX)
      (cassert (HTAB_MIN_LOG_SIZE <=? log_htab_size)
        (let sdr1_htabsize := log_htab_size - LOG_PTEG_SIZE - SDR1_HTABSIZE_BASEBITS in
         Ok (Z.lor htab_addr (Z.land sdr1_htabsize SDR1_HTABSIZE_MASK))))).

Definition GET_HTAB (h : logical_htab) : Z := Z.land (sdr1 h) SDR1_HTABORG_MASK.

(** [htab_alloc]: [shadow_words] is what the new shadow array holds; the copies of
    the register kept for each processor are not modelled. *)
Definition htab_alloc (pa : pg_alloc) (hrmor log_htab_bytes : Z) (shadow_words : list Z)
  : res (logical_htab * pg_alloc) :=
  let htab_bytes := shl64 1 log_htab_bytes in
  let! (htab_raddr, pa) := get_pages_aligned pa htab_bytes log_htab_bytes in
  cassert (negb (htab_raddr =? INVALID_PHYSICAL_PAGE))
    (let! sdr1_val := htab_calc_sdr1 (add64 htab_raddr hrmor) log_htab_bytes in
     let num := shl64 1 (log_htab_bytes - LOG_PTE_SIZE) in
     Ok (LogicalHtab sdr1_val num shadow_words (repeat (Pte 0 0) (Z.to_nat num)), pa)).

Definition htab_free (pa : pg_alloc) (hrmor : Z) (h : logical_htab) : res pg_alloc :=
  let ht_ea := sub64 (GET_HTAB h) hrmor in
  if ht_ea =? 0 then Ok pa else free_pages pa ht_ea (shl64 (num_ptes h) LOG_PTE_SIZE).

(** [h_htab], once the caller is the controller and the partition was found. *)
Definition h_htab (pa : pg_alloc) (hrmor : Z) (ctrl : bool) (found : option logical_htab) (log_size : Z)
  (shadow_words : list Z) : res (Z * option logical_htab * pg_alloc) :=
  if negb ctrl then Ok (H_Parameter, found, pa)
  else
    match found with
    | None => Ok (H_Parameter, None, pa)
    | Some h =>
        if log_size <? HTAB_MIN_LOG_SIZE then Ok (H_Parameter, found, pa)
        else if HTAB_MAX_LOG_SIZE <? log_size then Ok (H_Parameter, found, pa)
        else if truth (GET_HTAB h) then Ok (H_Parameter, found, pa)
        else let! (h, pa) := htab_alloc pa hrmor log_size shadow_words in Ok (H_Success, Some h, pa)
    end.

(** ** What a client builds: [lib/powerpc/64/pte.c], [include/powerpc/64/mmu.h] *)
Definition VSID_HASH_MASK : Z := 0x7fffffffff.
Definition VADDR_TO_API (vaddr : Z) : Z := shr64 (Z.land vaddr (shl64 0x1f 23)) 23.

Definition get_esid (ea : Z) : Z := Z.land ea (shl64 ONES64 (63 - 35)).

Definition get_vsid (ea : Z) : Z :=
  let esid_val := shr64 (get_esid ea) (63 - 35) in
  if esid_val =? 0xc00000000 then 0x06a99b4b14 else esid_val.

Definition get_pteg (log_htab_bytes vaddr vsid pg_size : Z) : Z :=
  let vpn := shr64 vaddr pg_size in
  let mask := 2 ^ (28 - pg_size) - 1 in
  let htab_bytes := shl64 1 log_htab_bytes in
  let hash_mask := sub64 (shr64 htab_bytes LOG_PTEG_SIZE) 1 in
  let hash := Z.lxor (Z.land vsid VSID_HASH_MASK) (Z.land vpn mask) in
  Z.land hash hash_mask.

(** [while (lp_selection--)] *)
Fixpoint lp_mask (n : nat) (lpbits : Z) : Z :=
  match n with O => lpbits | S n => lp_mask n ((lpbits * 2 + 1) mod 2 ^ 8) end.

Definition pte_init (eaddr raddr vsid : Z) (bolted is_large : bool) (lp_selection : Z) : pte :=
  let p := Pte 0 0 in
  let p := vset b_avpn p (shl64 vsid 5) in
  let p := vset b_avpn p (Z.lor (vget b_avpn p) (VADDR_TO_API eaddr)) in
  let p := vset b_bolted p (b2z bolted) in
  let p := vset b_l p (b2z is_large) in
  let p := vset b_h p 0 in
  let p := vset b_v p 1 in
  let p := rset b_rpn p (shr64 raddr 12) in
  let p := if is_large then rset b_rpn p (Z.lor (rget b_rpn p) (lp_mask (Z.to_nat lp_selection) 0)) else p in
  let p := rset b_r p 0 in
  let p := rset b_c p 0 in
  let p := rset b_pp0 p (Z.land 2 1) in
  rset b_pp1 p (Z.land (shr64 2 1) 3).

Definition get_large_page_shift (large_page_size : Z) : Z :=
  if large_page_size =? 65536 then 16
  else if large_page_size =? 1048576 then 20
  else if large_page_size =? 16777216 then 24
  else 0.

(** ** What the processor makes of an entry *)

(** The page an entry maps: its size and where it starts. *)
Definition hw_shift (lps : list Z) (p : pte) : Z :=
  if truth (vget b_l p)
  then default 0 (lps !! Z.to_nat (snd (lp_bits 51 (rget b_rpn p) 0 0)))
  else 12.

Definition hw_base (lps : list Z) (p : pte) : Z :=
  Z.shiftl (Z.land (rget b_rpn p) (Z.lnot (Z.ones (hw_shift lps p - 12)))) 12.

Definition pte_safe (s : part) (p : pte) : Prop :=
  let sh := hw_shift (large_page_shift s) p in
  12 <= sh /\ covered (p_mem s) (p_os s) (hw_base (large_page_shift s) p) (2 ^ sh).

(** Never used: what a cleared table holds. *)
Definition blank (p : pte) : Prop := vget b_v p = 0 /\ rget b_c p = 0.

(** Plain memory of the partition, whose logical and physical addresses agree
    within a chunk, as [phys_mem_lci_init] and [set_lci] leave them, and whose real
    page numbers fit the field of an entry. *)
Definition record_ok (x : logical_chunk_info) : Prop :=
  lci_sane x /\ lci_raddr x + lci_size x <= 2 ^ 62 /\ lci_ops x = Phys_mem_ops /\
  (CHUNK_SIZE | lci_raddr x - lci_laddr x).

Record part_inv (s : part) : Prop := {
  pi_ptes : forall i p, ptes (p_htab s) !! i = Some p -> blank p \/ pte_safe s p;
  pi_recs : forall x, maps_record (p_mem s) (p_os s) x -> record_ok x;
  pi_lps : forall i a, large_page_shift s !! i = Some a -> a = get_large_page_shift 0 \/ a = 16 \/ a = 20 \/ a = 24
}.

(** Memory states that differ in counts of entries only. *)
Definition same_place (x y : logical_chunk_info) : Prop :=
  lci_raddr x = lci_raddr y /\ lci_laddr x = lci_laddr y /\ lci_size x = lci_size y /\ lci_ops x = lci_ops y.

Definition mem_same (m m' : memory) : Prop :=
  maps m' = maps m /\ forall l, option_Forall2 same_place (lcis m !! l) (lcis m' !! l).

#[global] Instance mem_same_refl : Reflexive mem_same.
Proof. intros m. split; [done|]. intros l. destruct (lcis m !! l); by constructor. Qed.

#[global] Instance mem_same_trans : Transitive mem_same.
Proof.
  intros m1 m2 m3 [H1 H2] [H3 H4]. split; [congruence|]. intros l. specialize (H2 l). specialize (H4 l).
  destruct H2 as [x y (E1 & E2 & E3 & E4)|]; inversion H4 as [? z (F1 & F2 & F3 & F4) Ey Ez|]; subst; constructor.
  unfold same_place. split_and!; congruence.
Qed.

Lemma mem_same_record m m' os x' :
  mem_same m m' -> maps_record m' os x' -> exists x, maps_record m os x /\ same_place x x'.
Proof.
  intros [Hm Hl] (map & i & l & H1 & H2 & H3 & H4). rewrite Hm in H1. specialize (Hl l). rewrite H4 in Hl.
  inversion Hl as [x y Hs Ex|]; subst. exists x. split; [|done]. by exists map, i, l.
Qed.

Lemma mem_same_record_back m m' os x :
  mem_same m m' -> maps_record m os x -> exists x', maps_record m' os x' /\ same_place x x'.
Proof.
  intros [Hm Hl] (map & i & l & H1 & H2 & H3 & H4). rewrite <- Hm in H1. specialize (Hl l). rewrite H4 in Hl.
  inversion Hl as [y x' Hs Ey Ex|]; subst. exists x'. split; [|done]. by exists map, i, l.
Qed.

Lemma covered_same m m' os a n : mem_same m m' -> covered m os a n -> covered m' os a n.
Proof.
  intros Hs (x & Hx & H1 & H2). destruct (mem_same_record_back m m' os x Hs Hx) as (x' & Hx' & E1 & _ & E3 & _).
  exists x'. rewrite <- E1, <- E3. done.
Qed.

Lemma add_ptecount_same m l d m' : add_ptecount m l d = Ok m' -> mem_same m m'.
Proof.
  unfold add_ptecount, get_lci. destruct (lcis m !! l) as [x|] eqn:E; [|done]. cbn [of_option res_bind].
  intros [= <-]. split; [done|]. intros k. simpl. destruct (decide (k = l)) as [->|].
  - rewrite lookup_insert_eq, E. by constructor.
  - rewrite lookup_insert_ne by done. destruct (lcis m !! k); by constructor.
Qed.

(** What the calls keep: the partition, its page sizes and its memory. *)
Record frame (s s' : part) : Prop := {
  fr_os : p_os s' = p_os s;
  fr_lps : large_page_shift s' = large_page_shift s;
  fr_mem : mem_same (p_mem s) (p_mem s')
}.

Lemma frame_inv s s' :
  frame s s' -> part_inv s ->
  (forall i p, ptes (p_htab s') !! i = Some p -> blank p \/ pte_safe s p) -> part_inv s'.
Proof.
  intros [Ho Hl Hm] [Hp Hr Hs] Hnew. split.
  - intros i p Hi. destruct (Hnew i p Hi) as [|[H1 H2]]; [by left|right]. unfold pte_safe. rewrite Hl, Ho.
    split; [done|]. by apply (covered_same (p_mem s)).
  - intros x' Hx'. rewrite Ho in Hx'. destruct (mem_same_record _ _ _ _ Hm Hx') as (x & Hx & E1 & E2 & E3 & E4).
    destruct (Hr x Hx) as (G1 & G2 & G3 & G4). unfold record_ok, lci_sane. rewrite <- E1, <- E2, <- E3, <- E4. done.
  - intros i a Ha. rewrite Hl in Ha. eauto.
Qed.

(** Assigning one field leaves the others alone. *)
Lemma vget_rset f g p x : vget f (rset g p x) = vget f p.
Proof. done. Qed.
Lemma rget_vset f g p x : rget f (vset g p x) = rget f p.
Proof. done. Qed.
Lemma vget_vset_ne f g p x : field_ok f -> field_ok g -> field_disjoint f g -> vget f (vset g p x) = vget f p.
Proof. intros. by apply fget_fset_other. Qed.
Lemma rget_rset_ne f g p x : field_ok f -> field_ok g -> field_disjoint f g -> rget f (rset g p x) = rget f p.
Proof. intros. by apply fget_fset_other. Qed.
Lemma vget_vset_eq f p x : field_ok f -> vget f (vset f p x) = Z.land x (Z.ones (f_len f)).
Proof. intros. by apply fget_fset. Qed.
Lemma rget_rset_eq f p x : field_ok f -> rget f (rset f p x) = Z.land x (Z.ones (f_len f)).
Proof. intros. by apply fget_fset. Qed.

Create Rewrite HintDb fields.
#[export] Hint Rewrite vget_rset rget_vset : fields.
#[export] Hint Rewrite vget_vset_ne rget_rset_ne using field_side : fields.
#[export] Hint Rewrite vget_vset_eq rget_rset_eq using field_side : fields.

Lemma pte_safe_ext s p p' :
  vget b_l p' = vget b_l p -> rget b_rpn p' = rget b_rpn p -> pte_safe s p -> pte_safe s p'.
Proof. intros H1 H2. unfold pte_safe, hw_base, hw_shift. by rewrite H1, H2. Qed.

Lemma put_pte_inv s i p s' :
  put_pte s i p = Ok s' -> 0 <= i /\ s' = set_ptes s (<[Z.to_nat i := p]> (ptes (p_htab s))).
Proof.
  unfold put_pte. intros H. apply res_bind_ok in H as (l & Hl & [= <-]). apply aset_inv in Hl as [H0 ->]. split; [lia|done].
Qed.

Lemma get_pte_inv s i p : get_pte s i = Ok p -> ptes (p_htab s) !! Z.to_nat i = Some p.
Proof. intros H. by apply aget_inv in H as [_ H]. Qed.

Lemma insert_lookup_cases {A} (l : list A) i j (x y : A) :
  <[i := x]> l !! j = Some y -> y = x \/ l !! j = Some y.
Proof. intros H. apply list_lookup_insert_Some in H. naive_solver. Qed.

(** Replacing an entry by a safe one. *)
Lemma inv_put s s1 s' i p :
  part_inv s -> frame s s1 -> ptes (p_htab s1) = ptes (p_htab s) -> put_pte s1 i p = Ok s' ->
  blank p \/ pte_safe s p -> part_inv s' /\ frame s s'.
Proof.
  intros Hinv Hf He Hp Hok. apply put_pte_inv in Hp as [_ ->].
  assert (frame s (set_ptes s1 (<[Z.to_nat i := p]> (ptes (p_htab s1))))) as Hf' by (destruct Hf; by split).
  split; [|done]. apply (frame_inv s); [done|done|]. intros j q Hj. simpl in Hj. rewrite He in Hj.
  apply insert_lookup_cases in Hj as [->|Hj]; [done|]. by apply (pi_ptes _ Hinv j).
Qed.

Lemma frame_refl s : frame s s.
Proof. by split. Qed.

Lemma inv_same_ptes s s' : part_inv s -> frame s s' -> ptes (p_htab s') = ptes (p_htab s) -> part_inv s'.
Proof. intros Hinv Hf He. apply (frame_inv s); [done|done|]. intros i p. rewrite He. apply (pi_ptes _ Hinv). Qed.

Lemma save_pte_frame s i a b s' :
  save_pte s i a b = Ok s' -> frame s s' /\ p_htab s' = p_htab s /\ p_mem s' = p_mem s.
Proof.
  unfold save_pte. intros H. apply res_bind_ok in H as (p & _ & H). apply res_bind_ok in H as (ex & _ & [= <-]).
  split; [|done]. split; [done|done|]. reflexivity.
Qed.

Lemma save_ptes_frame n : forall s i r s',
  save_ptes n s i r = Ok s' -> frame s s' /\ p_htab s' = p_htab s.
Proof.
  induction n as [|n IH]; intros s i r s' H; simpl in H; [by injection H as <-|].
  apply res_bind_ok in H as (s1 & H1 & H). apply save_pte_frame in H1 as ([F1 F2 F3] & E & _).
  apply IH in H as ([G1 G2 G3] & E'). split; [|congruence]. split; [congruence|congruence|by etrans].
Qed.

(** ** Large-page bits *)
Lemma lp_bits_mono fuel : forall r b n, n <= snd (lp_bits fuel r b n).
Proof.
  induction fuel as [|fuel IH]; intros r b n; simpl; [lia|].
  destruct (truth (Z.land r 1)); simpl; [|lia]. specialize (IH (Z.shiftr r 1) (Z.lor (Z.shiftl b 1) 1) (n + 1)). lia.
Qed.

Lemma truth_land_1 r : truth (Z.land r 1) = Z.testbit r 0.
Proof. apply (truth_land_pow2 r 0). lia. Qed.

Lemma lp_bits_S fuel r b n :
  lp_bits (S fuel) r b n =
  if Z.testbit r 0 then lp_bits fuel (Z.shiftr r 1) (Z.lor (Z.shiftl b 1) 1) (n + 1) else (b, n).
Proof. cbn [lp_bits]. by rewrite truth_land_1. Qed.

Lemma lp_bits_cases r lpbits lpsize :
  lp_bits 51 r 0 0 = (lpbits, lpsize) -> lpsize <= 1 ->
  (Z.testbit r 0 = false /\ lpbits = 0 /\ lpsize = 0) \/
  (Z.testbit r 0 = true /\ Z.testbit r 1 = false /\ lpbits = 1 /\ lpsize = 1).
Proof.
  intros H Hl. rewrite lp_bits_S in H. destruct (Z.testbit r 0) eqn:E0; [right|left; by injection H as <- <-].
  rewrite lp_bits_S, Z.shiftr_spec in H by lia. change (0 + 1) with 1 in H.
  destruct (Z.testbit r 1) eqn:E1; [|by injection H as <- <-].
  match type of H with lp_bits ?f ?a ?b ?n = _ => pose proof (lp_bits_mono f a b n) as Hm; rewrite H in Hm end.
  simpl in Hm. lia.
Qed.

Lemma lp_bits_even r : Z.testbit r 0 = false -> lp_bits 51 r 0 0 = (0, 0).
Proof. intros H. by rewrite lp_bits_S, H. Qed.

Lemma lp_bits_one r : Z.testbit r 0 = true -> Z.testbit r 1 = false -> lp_bits 51 r 0 0 = (1, 1).
Proof. intros H0 H1. rewrite lp_bits_S, H0, lp_bits_S, Z.shiftr_spec by lia. change (0 + 1) with 1. by rewrite H1. Qed.

(** The page number and address [h_enter] translates. *)
Lemma lrpn_aligned rpn k :
  0 <= rpn < 2 ^ 50 -> 0 <= k <= 14 ->
  let lrpn := Z.land rpn (shl64 ONES64 k) in
  0 <= lrpn /\ lrpn + 2 ^ k <= 2 ^ 50 /\ (2 ^ k | lrpn) /\ shl64 lrpn LOG_PGSIZE = lrpn * 2 ^ 12.
Proof.
  intros Hr Hk lrpn. assert (0 < 2 ^ k) as Hp by (apply Z.pow_pos_nonneg; lia).
  assert (forall i, 0 <= i -> Z.testbit lrpn i = negb (i <? k) && Z.testbit rpn i) as Hbit.
  { intros i Hi. unfold lrpn. rewrite Z.land_spec, testbit_shl64 by lia.
    destruct (Z.ltb_spec i k); [rewrite (Z.testbit_neg_r _ (i - k)) by lia; by rewrite !andb_false_r|].
    destruct (Z.ltb_spec i 64).
    - rewrite testbit_ONES64 by lia. destruct (Z.ltb_spec (i - k) 64); [|lia]. by rewrite andb_true_r.
    - by rewrite (testbit_high rpn 50) by lia. }
  assert (Z.land lrpn (Z.land rpn (Z.ones k)) = 0) as Hand.
  { apply Z.bits_inj'. intros i Hi. rewrite !Z.land_spec, Hbit, testbit_ones_small, Z.bits_0 by lia.
    destruct (Z.ltb_spec i k); simpl; [done|by rewrite !andb_false_r]. }
  assert (Z.lor lrpn (Z.land rpn (Z.ones k)) = rpn) as Hor.
  { apply Z.bits_inj'. intros i Hi. rewrite Z.lor_spec, Z.land_spec, Hbit, testbit_ones_small by lia.
    destruct (Z.ltb_spec i k); simpl; [by rewrite andb_true_r|by rewrite andb_false_r, orb_false_r]. }
  rewrite <- Z.add_nocarry_lor in Hor by done. rewrite Z.land_ones in Hor by lia.
  pose proof (Z.div_mod rpn (2 ^ k) ltac:(lia)) as Hd. pose proof (Z.mod_pos_bound rpn (2 ^ k) Hp) as Hb.
  assert (lrpn = 2 ^ k * (rpn / 2 ^ k)) as E2 by lia.
  assert ((2 ^ k | 2 ^ 50)) as [q Hq] by (exists (2 ^ (50 - k)); rewrite <- Z.pow_add_r by lia; f_equal; lia).
  assert (0 <= rpn / 2 ^ k) by (apply Z.div_pos; lia).
  assert (rpn / 2 ^ k < q) by (apply Z.div_lt_upper_bound; lia).
  split_and!; [nia|nia|exists (rpn / 2 ^ k); lia|].
  unfold shl64, LOG_PGSIZE. rewrite Z.shiftl_mul_pow2 by lia. apply u64_small. nia.
Qed.

Lemma divide_testbit a k i : (2 ^ k | a) -> 0 <= i < k -> Z.testbit a i = false.
Proof.
  intros [q ->] Hi. rewrite Z.mul_pow2_bits by lia. apply Z.testbit_neg_r. lia.
Qed.

(** How a page size and the large-page bits belong together. *)
Definition size_ok (s : part) (large : bool) (lpbits pgsize : Z) : Prop :=
  (large = false /\ pgsize = 12 /\ lpbits = 0) \/
  (large = true /\ 14 <= pgsize <= 26 /\
   ((lpbits = 0 /\ large_page_shift s !! 0%nat = Some pgsize) \/ (lpbits = 1 /\ large_page_shift s !! 1%nat = Some pgsize))).

Lemma entry_safe s q x laddr lpbits pgsize :
  maps_record (p_mem s) (p_os s) x -> record_ok x ->
  lci_laddr x <= laddr -> laddr + 2 ^ pgsize <= lci_laddr x + lci_size x -> (2 ^ pgsize | laddr) ->
  size_ok s (truth (vget b_l q)) lpbits pgsize ->
  rget b_rpn q = Z.land (Z.lor (shr64 (lci_raddr x + (laddr - lci_laddr x)) LOG_PGSIZE) lpbits) (Z.ones 50) ->
  pte_safe s q.
Proof.
  intros Hx (Hs & Hmax & _ & Hal) H1 H2 Hdiv Hsz Hr.
  set (raddr := lci_raddr x + (laddr - lci_laddr x)) in *.
  assert (12 <= pgsize <= 26) as Hpg by (destruct Hsz as [(_ & -> & _)|(_ & ? & _)]; lia).
  assert (0 < 2 ^ (pgsize - 12)) as Hpos by (apply Z.pow_pos_nonneg; lia).
  assert (2 ^ pgsize = 2 ^ (pgsize - 12) * 2 ^ 12) as Epg by (rewrite <- Z.pow_add_r by lia; f_equal; lia).
  assert ((2 ^ pgsize | raddr)) as Hra.
  { unfold raddr. replace (lci_raddr x + (laddr - lci_laddr x)) with (laddr + (lci_raddr x - lci_laddr x)) by lia.
    apply Z.divide_add_r; [done|]. etrans; [|exact Hal]. unfold CHUNK_SIZE, LOG_CHUNKSIZE.
    exists (2 ^ (26 - pgsize)). rewrite <- Z.pow_add_r by lia. f_equal. lia. }
  destruct Hra as [rr0 Hrr]. set (rr := rr0 * 2 ^ (pgsize - 12)).
  assert (raddr = rr * 2 ^ 12) as Hrr' by (unfold rr; rewrite Hrr, Epg; ring).
  assert (shr64 raddr LOG_PGSIZE = rr) as Eshr.
  { unfold shr64, LOG_PGSIZE. rewrite Z.shiftr_div_pow2, Hrr' by lia. apply Z.div_mul. lia. }
  assert (0 <= rr < 2 ^ 50) as Hrange.
  { destruct Hs as (? & ? & ? & ? & ?). assert (0 < 2 ^ pgsize) by (apply Z.pow_pos_nonneg; lia). lia. }
  assert ((2 ^ (pgsize - 12) | rr)) as Hdrr by (by exists rr0).
  assert (forall i, 0 <= i -> Z.testbit (rget b_rpn q) i = Z.testbit rr i || Z.testbit lpbits i) as Hbits.
  { intros i Hi. rewrite Hr, Eshr, Z.land_spec, Z.lor_spec, testbit_ones_small by lia.
    destruct (Z.ltb_spec i 50); [by rewrite andb_true_r|]. rewrite andb_false_r, (testbit_high rr 50) by lia.
    destruct Hsz as [(_ & _ & ->)|(_ & _ & [[-> _]|[-> _]])]; rewrite ?Z.bits_0, ?testbit_one; [done..|]. zcases. }
  assert (hw_shift (large_page_shift s) q = pgsize) as Esh.
  { unfold hw_shift. destruct Hsz as [(-> & -> & _)|(-> & Hb & Hlp)]; [done|].
    assert (Z.testbit rr 0 = false) as R0 by (apply (divide_testbit rr (pgsize - 12)); [done|lia]).
    assert (Z.testbit rr 1 = false) as R1 by (apply (divide_testbit rr (pgsize - 12)); [done|lia]).
    destruct Hlp as [[-> Hlp]|[-> Hlp]].
    - rewrite lp_bits_even by (by rewrite Hbits, R0 by lia). cbn [snd]. change (Z.to_nat 0) with 0%nat. by rewrite Hlp.
    - rewrite lp_bits_one by (by rewrite Hbits, ?R0, ?R1 by lia). cbn [snd]. change (Z.to_nat 1) with 1%nat. by rewrite Hlp. }
  assert (hw_base (large_page_shift s) q = raddr) as Eb.
  { unfold hw_base. rewrite Esh, Hrr', Z.shiftl_mul_pow2 by lia. f_equal. apply Z.bits_inj'. intros i Hi.
    rewrite Z.land_spec, Z.lnot_spec, testbit_ones_small, Hbits by lia. destruct (Z.ltb_spec i (pgsize - 12)); simpl.
    - rewrite andb_false_r. symmetry. by apply (divide_testbit rr (pgsize - 12)).
    - rewrite andb_true_r. destruct Hsz as [(_ & _ & ->)|(_ & ? & [[-> _]|[-> _]])]; rewrite ?Z.bits_0, ?testbit_one, ?orb_false_r;
        [done..|]. destruct (Z.eqb_spec i 0); [lia|]. apply orb_false_r. }
  unfold pte_safe. rewrite Esh, Eb. split; [lia|]. exists x. split; [done|]. unfold raddr. lia.
Qed.

Section Preserve.
Context (l_to_r : Z -> logical_chunk_info -> Z -> Z -> res Z) (other_amo : Z -> arch_mem_ops).

Lemma laddr_record m os laddr l x :
  laddr_to_lci m os laddr = Ok l -> l <> 0 -> get_lci m l = Ok x -> maps_record m os x.
Proof.
  unfold laddr_to_lci, get_map, get_lci. intros H Hl Hx. apply res_bind_ok in H as (map & Hmap & H).
  destruct (maps m !! os) as [map'|] eqn:Em; [|done]. injection Hmap as ->. apply aget_inv in H as [_ H].
  destruct (lcis m !! l) as [x'|] eqn:Ex; [|done]. injection Hx as ->. by exists map, (Z.to_nat (chunk_number_addr laddr)), l.
Qed.

Lemma find_slot_spec n : forall s i r,
  find_slot n s i = Ok r ->
  match r with
  | Some j => i <= j < i + Z.of_nat n /\ (exists p, get_pte s j = Ok p /\ vget b_v p = 0) /\
      forall k, i <= k < j -> exists p, get_pte s k = Ok p /\ vget b_v p <> 0
  | None => forall k, i <= k < i + Z.of_nat n -> exists p, get_pte s k = Ok p /\ vget b_v p <> 0
  end.
Proof.
  induction n as [|n IH]; intros s i r H; cbn [find_slot] in H; [injection H as <-; lia|].
  apply res_bind_ok in H as (p & Hp & H). destruct (Z.eqb_spec (vget b_v p) 0) as [Hv|Hv].
  - injection H as <-. split; [lia|]. split; [by exists p|]. lia.
  - specialize (IH _ _ _ H). assert (forall k, i <= k -> k < i + 1 -> exists p, get_pte s k = Ok p /\ vget b_v p <> 0) as H0.
    { intros k Hk1 Hk2. assert (k = i) as -> by lia. by exists p. }
    destruct r as [j|].
    + destruct IH as (I1 & I2 & I3). split; [lia|]. split; [done|]. intros k Hk.
      destruct (Z.ltb_spec k (i + 1)); [apply H0; lia|apply I3; lia].
    + intros k Hk. destruct (Z.ltb_spec k (i + 1)); [apply H0; lia|apply IH; lia].
Qed.

(** The state after a successful [h_enter] of [q] at [i]. *)
Definition entered (s : part) (i : Z) (q : pte) (lrpn : Z) (m : memory) : part :=
  set_gpr (set_mem (set_ptes (set_shadow s (<[Z.to_nat i := lrpn]> (shadow (p_htab s))))
    (<[Z.to_nat i := q]> (ptes (p_htab s)))) m) 4 i.

Lemma pte_insert_inv s i v r lrpn s' :
  pte_insert s i v r lrpn = Ok s' ->
  exists p, get_pte s i = Ok p /\ vget b_v p = 0 /\
    s' = set_ptes (set_shadow s (<[Z.to_nat i := lrpn]> (shadow (p_htab s)))) (<[Z.to_nat i := Pte v r]> (ptes (p_htab s))).
Proof.
  unfold pte_insert. intros H. apply res_bind_ok in H as (p & Hp & H). exists p. split; [done|].
  unfold cassert in H. destruct (Z.eqb_spec (vget b_v p) 0); [|done]. split; [done|].
  apply res_bind_ok in H as (sh & Hsh & H). apply aset_inv in Hsh as [_ ->]. by apply put_pte_inv in H as [_ ->].
Qed.

Lemma h_enter_cases s flags ptex vsidw rpnw r s' :
  part_inv s -> h_enter l_to_r other_amo s flags ptex vsidw rpnw = Ok (r, s') ->
  (s' = s /\ (r = H_Parameter \/ r = H_Privilege \/ r = H_PTEG_FULL)) \/
  (r = H_Success /\ exists i q lrpn l m, s' = entered s i q lrpn m /\ add_ptecount (p_mem s) l 1 = Ok m /\
     find_slot (if truth (Z.land flags H_EXACT) then 1 else 8) s
       (if truth (Z.land flags H_EXACT) then ptex else Z.land ptex (not64 7)) = Ok (Some i) /\
     vget b_v q = fget b_v vsidw /\ vget b_avpn q = fget b_avpn vsidw /\ pte_safe s q).
Proof.
  intros Hinv H. unfold h_enter in H. destruct (CHECK_UNSUP flags); [left; injection H as <- <-; auto|].
  set (p0 := Pte vsidw rpnw) in *.
  destruct (if truth (vget b_l p0) then _ else _) as [lpbits lpsize] eqn:Elp.
  destruct (truth (vget b_l p0) && (1 <? lpsize)) eqn:Ebig; [left; injection H as <- <-; auto|].
  apply res_bind_ok in H as (pgsize & Hpg & H). destruct (Z.leb_spec 12 pgsize) as [Hge|]; [|done].
  set (lrpn := Z.land (rget b_rpn p0) (shl64 ONES64 (pgsize - 12))) in *.
  assert (size_ok s (truth (vget b_l p0)) lpbits pgsize) as Hsize.
  { destruct (truth (vget b_l p0)); [right|left; by injection Hpg as <-; injection Elp as <- <-].
    simpl in Ebig. apply Z.ltb_ge in Ebig. apply aget_inv in Hpg as [_ Hpg]. split; [done|].
    pose proof (pi_lps _ Hinv _ _ Hpg) as Hc. change (get_large_page_shift 0) with 0 in Hc. split; [lia|].
    destruct (lp_bits_cases _ _ _ Elp Ebig) as [(_ & -> & ->)|(_ & _ & -> & ->)]; auto. }
  assert (12 <= pgsize <= 26) as Hb by (destruct Hsize as [(_ & -> & _)|(_ & ? & _)]; lia).
  destruct (lrpn_aligned (rget b_rpn p0) (pgsize - 12)) as (L1 & L2 & L3 & L4);
    [apply (fget_range b_rpn); field_side|lia|]. fold lrpn in L1, L2, L3, L4. rewrite L4 in H.
  apply res_bind_ok in H as (l & Hl & H). destruct (Z.eqb_spec l 0) as [|Hl0]; [left; injection H as <- <-; auto|].
  apply res_bind_ok in H as (x & Hx & H). pose proof (laddr_record _ _ _ _ _ Hl Hl0 Hx) as Hrec.
  pose proof (pi_recs _ Hinv x Hrec) as Hok. pose proof Hok as (Hsane & Hmax & Hops & _).
  apply res_bind_ok in H as (raddr & Htr & H).
  destruct (Z.eqb_spec raddr INVALID_PHYSICAL_ADDRESS) as [|Hri]; [left; injection H as <- <-; auto|].
  assert (2 ^ pgsize = 2 ^ (pgsize - 12) * 2 ^ 12) as Epg by (rewrite <- Z.pow_add_r by lia; f_equal; lia).
  assert (0 < 2 ^ (pgsize - 12)) as Hpos by (apply Z.pow_pos_nonneg; lia).
  destruct (lci_translate_spec l_to_r x (lrpn * 2 ^ 12) (2 ^ pgsize)) as (pa & Et & Hcase); try done; try lia.
  { unfold INVALID_PHYSICAL_ADDRESS, ONES64. destruct Hsane as (? & ? & ? & ? & ?). lia. }
  rewrite Htr in Et. injection Et as <-. destruct Hcase as [?|(_ & T1 & T2 & ->)]; [done|].
  set (raddr := lci_raddr x + (lrpn * 2 ^ 12 - lci_laddr x)) in *.
  destruct (Z.eqb_spec (shr64 raddr LOG_PGSIZE) 0); [left; injection H as <- <-; auto|].
  destruct (check_index s ptex); [left; injection H as <- <-; auto|].
  set (q := rset b_res2 _ _) in H. apply res_bind_ok in H as ([i|] & Hslot & H); [|left; injection H as <- <-; auto].
  right. unfold amo_of in H. rewrite Hops in H. cbn [amo_sav_ptep pmem_ops res_bind Z.eqb] in H.
  apply res_bind_ok in H as (s1 & Hins & H). apply res_bind_ok in H as (m & Hm & H). injection H as <- <-.
  apply pte_insert_inv in Hins as (_ & _ & _ & ->). split; [done|].
  exists i, q, lrpn, l, m. split; [by destruct q|]. split; [done|]. split; [done|].
  split; [unfold q; by autorewrite with fields|]. split; [unfold q; by autorewrite with fields|].
  apply (entry_safe s q x (lrpn * 2 ^ 12) lpbits pgsize); try done.
  - rewrite Epg. by apply Z.mul_divide_mono_r.
  - replace (vget b_l q) with (vget b_l p0) by (unfold q; by autorewrite with fields). done.
  - unfold q. autorewrite with fields. done.
Qed.

(** The page-table calls of a partition. *)
Inductive pcall :=
  | C_enter (flags ptex vsidw rpnw : Z)
  | C_remove (flags ptex avpn : Z)
  | C_read (flags ptex : Z)
  | C_protect (flags ptex avpn : Z)
  | C_clear_mod (ptex : Z)
  | C_clear_ref (ptex : Z).

Definition exec (s : part) (c : pcall) : res (Z * part) :=
  match c with
  | C_enter flags ptex v r => h_enter l_to_r other_amo s flags ptex v r
  | C_remove flags ptex avpn => h_remove other_amo s flags ptex avpn
  | C_read flags ptex => h_read s flags ptex
  | C_protect flags ptex avpn => h_protect s flags ptex avpn
  | C_clear_mod ptex => h_clear_mod s ptex
  | C_clear_ref ptex => h_clear_ref s ptex
  end.

Fixpoint exec_all (s : part) (l : list pcall) : res part :=
  match l with
  | [] => Ok s
  | c :: l => let! (_, s) := exec s c in exec_all s l
  end.

Lemma do_tlbie_frame s p i :
  frame s (do_tlbie s p i) /\ p_htab (do_tlbie s p i) = p_htab s /\ p_mem (do_tlbie s p i) = p_mem s.
Proof. unfold do_tlbie. destruct (truth (vget b_l p)); (split; [split; [done|done|reflexivity]|done]). Qed.

Lemma do_tlbie_inv s p i : part_inv s -> part_inv (do_tlbie s p i).
Proof. intros H. destruct (do_tlbie_frame s p i) as (F & E & _). apply (inv_same_ptes s); [done|done|by rewrite E]. Qed.

(** Changing bits of an entry other than its page and its large-page bit. *)
Lemma modify_inv s s1 i p q s' :
  part_inv s -> frame s s1 -> p_htab s1 = p_htab s -> get_pte s i = Ok p ->
  vget b_l q = vget b_l p -> rget b_rpn q = rget b_rpn p -> (blank p -> blank q \/ pte_safe s q) ->
  put_pte s1 i q = Ok s' -> part_inv s'.
Proof.
  intros Hinv Hf He Hp Hl Hr Hb Hput.
  assert (blank q \/ pte_safe s q) as Hq.
  { destruct (pi_ptes _ Hinv _ p (get_pte_inv _ _ _ Hp)) as [Hbl|Hs]; [auto|right]. by apply (pte_safe_ext s p). }
  refine (proj1 (inv_put s s1 s' i q Hinv Hf _ Hput Hq)). by rewrite He.
Qed.

Lemma h_enter_inv s flags ptex v r c s' :
  part_inv s -> h_enter l_to_r other_amo s flags ptex v r = Ok (c, s') -> part_inv s'.
Proof.
  intros Hinv H. destruct (h_enter_cases s flags ptex v r c s' Hinv H) as
    [[-> _]|(_ & i & q & lrpn & l & m & -> & Hm & _ & _ & _ & Hq)]; [done|].
  apply (frame_inv s); [split; [done|done|by eapply add_ptecount_same]|done|].
  intros j p Hj. apply insert_lookup_cases in Hj as [->|Hj]; [by right|]. by apply (pi_ptes _ Hinv j).
Qed.

Lemma h_remove_inv s flags ptex avpn c s' :
  part_inv s -> h_remove other_amo s flags ptex avpn = Ok (c, s') -> part_inv s'.
Proof.
  intros Hinv H. unfold h_remove in H. destruct (check_index s ptex); [by injection H as _ <-|].
  apply res_bind_ok in H as (p & Hp & H). destruct (_ && negb (shl64 _ _ =? _)); [by injection H as _ <-|].
  destruct (_ && negb (Z.land avpn _ =? 0)); [by injection H as _ <-|].
  apply res_bind_ok in H as (s1 & Hs1 & H). apply save_pte_frame in Hs1 as (F1 & E1 & M1).
  assert (forall m, mem_same (p_mem s) m -> forall c s',
    (let! s := put_pte (set_mem s1 m) ptex (vset b_v p 0) in Ok (H_Success, do_tlbie s (vset b_v p 0) ptex)) = Ok (c, s') ->
    part_inv s') as Hdone.
  { intros m Hm c' s'' H'. apply res_bind_ok in H' as (s2 & Hput & [= _ <-]). apply do_tlbie_inv.
    apply (modify_inv s (set_mem s1 m) ptex p (vset b_v p 0)); try done.
    - destruct F1 as [F1 F2 F3]. by split.
    - by autorewrite with fields.
    - intros [_ Hc]. left. split; by autorewrite with fields. }
  destruct (truth (vget b_v p)).
  - apply res_bind_ok in H as (sh & Hsh & H). apply res_bind_ok in H as (l & Hl & H).
    destruct (Z.eqb_spec l 0) as [|Hl0]; [injection H as _ <-; apply (inv_same_ptes s); [done|done|by rewrite E1]|].
    apply res_bind_ok in H as (x & Hx & H).
    pose proof (laddr_record _ _ _ _ _ Hl Hl0 Hx) as Hrec. rewrite M1, (fr_os _ _ F1) in Hrec.
    destruct (pi_recs _ Hinv x Hrec) as (_ & _ & Hops & _). unfold amo_of in H. rewrite Hops in H.
    cbn [amo_rem_ptep pmem_ops res_bind] in H. apply res_bind_ok in H as (m & Hm & H).
    apply add_ptecount_same in Hm. rewrite M1 in Hm. by apply (Hdone m Hm c).
  - apply (Hdone (p_mem s) ltac:(reflexivity) c). rewrite <- H, <- M1. by destruct s1.
Qed.

Lemma h_protect_inv s flags ptex avpn c s' :
  part_inv s -> h_protect s flags ptex avpn = Ok (c, s') -> part_inv s'.
Proof.
  intros Hinv H. unfold h_protect in H. destruct (check_index s ptex); [by injection H as _ <-|].
  apply res_bind_ok in H as (p & Hp & H). destruct (Z.eqb_spec (vget b_v p) 0) as [|Hv]; [by injection H as _ <-|].
  destruct (_ && _); [by injection H as _ <-|]. apply res_bind_ok in H as (s1 & Hput & [= _ <-]).
  destruct (do_tlbie_frame s (vset b_v p 0) ptex) as (F & E & _).
  eapply (modify_inv s _ ptex p); [done|exact F|exact E|exact Hp| | | |exact Hput]; unfold PTE_MOD_GENERAL_END;
    try by autorewrite with fields. by intros [? _].
Qed.

Lemma h_clear_mod_inv s ptex c s' : part_inv s -> h_clear_mod s ptex = Ok (c, s') -> part_inv s'.
Proof.
  intros Hinv H. unfold h_clear_mod in H. destruct (check_index s ptex); [by injection H as _ <-|].
  apply res_bind_ok in H as (p & Hp & H).
  assert (frame s (set_gpr s 4 (rpnWord p))) as F0 by (split; [done|done|reflexivity]).
  destruct (Z.eqb_spec (rget b_c p) 0) as [|Hc]; [injection H as _ <-; by apply (inv_same_ptes s)|].
  apply res_bind_ok in H as (s1 & Hput & [= _ <-]).
  destruct (do_tlbie_frame (set_gpr s 4 (rpnWord p)) (vset b_v p 0) ptex) as ([F1 F2 F3] & E & _).
  eapply (modify_inv s _ ptex p); [done|by split|by rewrite E|exact Hp| | | |exact Hput]; unfold PTE_MOD_GENERAL_END;
    try by autorewrite with fields. by intros [_ ?].
Qed.

Lemma h_clear_ref_inv s ptex c s' : part_inv s -> h_clear_ref s ptex = Ok (c, s') -> part_inv s'.
Proof.
  intros Hinv H. unfold h_clear_ref in H. destruct (check_index s ptex); [by injection H as _ <-|].
  apply res_bind_ok in H as (p & Hp & H).
  assert (frame s (set_gpr s 4 (rpnWord p))) as F0 by (split; [done|done|reflexivity]).
  destruct (Z.eqb_spec (rget b_r p) 0) as [|Hc]; [injection H as _ <-; by apply (inv_same_ptes s)|].
  apply res_bind_ok in H as (s1 & Hput & [= _ <-]). apply do_tlbie_inv.
  eapply (modify_inv s _ ptex p); [done|exact F0|done|exact Hp| | | |exact Hput];
    try by autorewrite with fields. intros [Hv Hcc]. left. split; by autorewrite with fields.
Qed.

Lemma exec_inv s c r s' : part_inv s -> exec s c = Ok (r, s') -> part_inv s'.
Proof.
  intros Hinv H. destruct c; simpl in H.
  - by eapply h_enter_inv.
  - by eapply h_remove_inv.
  - unfold h_read in H. destruct (CHECK_UNSUP flags); [by injection H as _ <-|].
    destruct (check_index s ptex); [by injection H as _ <-|]. destruct (_ && _); [by injection H as _ <-|].
    apply res_bind_ok in H as (s1 & H & [= _ <-]). destruct (truth _).
    + apply save_ptes_frame in H as [F E]. apply (inv_same_ptes s); [done|done|by rewrite E].
    + apply save_pte_frame in H as (F & E & _). apply (inv_same_ptes s); [done|done|by rewrite E].
  - by eapply h_protect_inv.
  - by eapply h_clear_mod_inv.
  - by eapply h_clear_ref_inv.
Qed.
End Preserve.

Section Total.
Context (l_to_r : Z -> logical_chunk_info -> Z -> Z -> res Z) (other_amo : Z -> arch_mem_ops).

(** A table of whole groups with its shadow, and a chunk table whose records are
    there. *)
Record tables_ok (s : part) : Prop := {
  to_ptes : Z.of_nat (length (ptes (p_htab s))) = num_ptes (p_htab s);
  to_shadow : Z.of_nat (length (shadow (p_htab s))) = num_ptes (p_htab s);
  to_groups : (8 | num_ptes (p_htab s));
  to_size : num_ptes (p_htab s) < 2 ^ 64;
  to_map : exists map, maps (p_mem s) !! p_os s = Some map /\ Z.of_nat (length (p_lci map)) = 512 /\
    forall i l, p_lci map !! i = Some l -> l <> 0 -> is_Some (lcis (p_mem s) !! l)
}.

Lemma find_slot_total n : forall s i,
  0 <= i -> i + Z.of_nat n <= Z.of_nat (length (ptes (p_htab s))) -> exists r, find_slot n s i = Ok r.
Proof.
  induction n as [|n IH]; intros s i Hi Hn; cbn [find_slot]; [by eexists|].
  destruct (aget_is_ok (ptes (p_htab s)) i) as [p Hp]; [lia|]. unfold get_pte. rewrite Hp. cbn [res_bind].
  destruct (_ =? _); [by eexists|]. apply IH; lia.
Qed.

Lemma group_start ptex n :
  0 <= ptex < n -> n < 2 ^ 64 -> (8 | n) ->
  let g := Z.land ptex (not64 7) in 0 <= g <= ptex /\ g + 8 <= n /\ ptex < g + 8.
Proof.
  intros Hp Hn [q Hq] g. assert (g = ptex - ptex mod 8) as ->; [|dlia].
  unfold g. change 7 with (Z.ones 3). rewrite land_not_ones by (unfold is_u64; lia).
  change (2 ^ 3) with 8. dlia.
Qed.

Lemma h_enter_total s flags ptex vsidw rpnw :
  part_inv s -> tables_ok s -> 0 <= ptex < num_ptes (p_htab s) -> fget b_rpn rpnw < 2 ^ 23 ->
  (fget b_l vsidw <> 0 -> exists a b, large_page_shift s = [a; b] /\ 12 <= a /\ 12 <= b) ->
  exists r s', h_enter l_to_r other_amo s flags ptex vsidw rpnw = Ok (r, s').
Proof.
  intros Hinv [T1 T2 T3 T4 (map & Hmap & Hlen & Hex)] Hptex Hrpn Hlp. unfold h_enter.
  destruct (CHECK_UNSUP flags); [by do 2 eexists|]. set (p0 := Pte vsidw rpnw).
  destruct (if truth (vget b_l p0) then _ else _) as [lpbits lpsize] eqn:Elp.
  destruct (truth (vget b_l p0) && (1 <? lpsize)) eqn:Ebig; [by do 2 eexists|].
  assert (exists pgsize, (if truth (vget b_l p0) then aget (large_page_shift s) lpsize else Ok LOG_PGSIZE) = Ok pgsize /\
    12 <= pgsize <= 26) as (pgsize & -> & Hpg).
  { destruct (truth (vget b_l p0)) eqn:Et; [|exists 12; split; [done|lia]].
    destruct Hlp as (a & b & Hab & Ha & Hb); [apply truth_true in Et; exact Et|].
    simpl in Ebig. apply Z.ltb_ge in Ebig.
    pose proof (pi_lps _ Hinv 0%nat a) as P0. pose proof (pi_lps _ Hinv 1%nat b) as P1. rewrite Hab in P0, P1.
    specialize (P0 eq_refl). specialize (P1 eq_refl). change (get_large_page_shift 0) with 0 in *. rewrite Hab.
    destruct (lp_bits_cases _ _ _ Elp Ebig) as [(_ & _ & ->)|(_ & _ & _ & ->)];
      [exists a|exists b]; (split; [reflexivity|lia]). }
  cbn [res_bind]. destruct (Z.leb_spec 12 pgsize); [|lia].
  pose proof (fget_range b_rpn rpnw ltac:(field_side)) as Hrr.
  destruct (lrpn_aligned (rget b_rpn p0) (pgsize - 12)) as (L1 & L2 & L3 & L4); [exact Hrr|lia|].
  set (lrpn := Z.land (rget b_rpn p0) (shl64 ONES64 (pgsize - 12))) in *. rewrite L4.
  assert (lrpn <= rget b_rpn p0) as Hle.
  { unfold lrpn. apply Z.ldiff_le; [apply Hrr|].
    apply Z.bits_inj'. intros i Hi. rewrite Z.ldiff_spec, Z.land_spec, Z.bits_0. destruct (Z.testbit _ i), (Z.testbit (shl64 _ _) i); done. }
  assert (0 <= chunk_number_addr (lrpn * 2 ^ 12) < 512) as Hcn.
  { unfold chunk_number_addr, shr64, LOG_CHUNKSIZE. rewrite Z.shiftr_div_pow2 by lia.
    unfold rget, p0 in Hle. simpl rpnWord in Hle. split; [apply Z.div_pos; lia|apply Z.div_lt_upper_bound; lia]. }
  destruct (aget_is_ok (p_lci map) (chunk_number_addr (lrpn * 2 ^ 12))) as [l Hl]; [lia|].
  assert (laddr_to_lci (p_mem s) (p_os s) (lrpn * 2 ^ 12) = Ok l) as El.
  { unfold laddr_to_lci, get_map. rewrite Hmap. exact Hl. }
  rewrite El. cbn [res_bind]. destruct (Z.eqb_spec l 0) as [|Hl0]; [by do 2 eexists|].
  pose proof (aget_inv _ _ _ Hl) as [_ Hl']. destruct (Hex _ _ Hl' Hl0) as [x Hx].
  assert (get_lci (p_mem s) l = Ok x) as Ex by (unfold get_lci; by rewrite Hx). rewrite Ex. cbn [res_bind].
  pose proof (laddr_record _ _ _ _ _ El Hl0 Ex) as Hrec. destruct (pi_recs _ Hinv x Hrec) as (Hsane & Hmax & Hops & _).
  assert (2 ^ pgsize = 2 ^ (pgsize - 12) * 2 ^ 12) as Epg by (rewrite <- Z.pow_add_r by lia; f_equal; lia).
  assert (0 < 2 ^ (pgsize - 12)) as Hpos by (apply Z.pow_pos_nonneg; lia).
  destruct (lci_translate_spec l_to_r x (lrpn * 2 ^ 12) (2 ^ pgsize)) as (pa & -> & _); try done; try lia.
  { unfold INVALID_PHYSICAL_ADDRESS, ONES64. destruct Hsane as (? & ? & ? & ? & ?). lia. }
  cbn [res_bind]. destruct (_ =? INVALID_PHYSICAL_ADDRESS); [by do 2 eexists|].
  destruct (_ =? 0); [by do 2 eexists|]. destruct (check_index s ptex); [by do 2 eexists|].
  destruct (group_start ptex _ Hptex T4 T3) as (G1 & G2 & G3).
  set (ex := truth (Z.land flags H_EXACT)).
  destruct (find_slot_total (if ex then 1 else 8) s (if ex then ptex else Z.land ptex (not64 7))) as [[i|] Hslot];
    [destruct ex; lia|destruct ex; lia|rewrite Hslot; cbn [res_bind]|rewrite Hslot; by do 2 eexists].
  unfold amo_of. rewrite Hops. cbn [amo_sav_ptep pmem_ops res_bind Z.eqb].
  pose proof (find_slot_spec _ _ _ _ Hslot) as (I1 & (p & Hp & Hv) & _).
  assert (0 <= i < num_ptes (p_htab s)) as Hi by (destruct ex; lia).
  unfold pte_insert. change (get_pte (set_mem s (p_mem s)) i) with (get_pte s i). rewrite Hp. cbn [res_bind].
  rewrite Hv, Z.eqb_refl. cbn [cassert]. cbn [p_htab set_mem]. rewrite aset_ok by lia. cbn [res_bind]. unfold put_pte.
  cbn [p_htab set_shadow ptes set_mem]. rewrite aset_ok by lia. cbn [res_bind]. unfold add_ptecount.
  cbn [p_mem set_ptes set_shadow set_mem]. rewrite Ex. cbn [res_bind]. by do 2 eexists.
Qed.
End Total.

(** ** Properties *)

Lemma exec_all_inv l_to_r other_amo l : forall s s',
  part_inv s -> exec_all l_to_r other_amo s l = Ok s' -> part_inv s'.
Proof.
  induction l as [|c l IH]; intros s s' Hinv H; simpl in H; [by injection H as <-|].
  apply res_bind_ok in H as ([r s1] & H1 & H). apply (IH s1); [|done]. by eapply exec_inv.
Qed.

Lemma fresh_inv s n :
  ptes (p_htab s) = repeat (Pte 0 0) n -> (forall x, maps_record (p_mem s) (p_os s) x -> record_ok x) ->
  Forall (fun a => a = 0 \/ a = 16 \/ a = 20 \/ a = 24) (large_page_shift s) -> part_inv s.
Proof.
  intros Hp Hr Hl. split; [|done|].
  - intros i p Hi. rewrite Hp in Hi. apply list_elem_of_lookup_2, list_elem_of_In, repeat_spec in Hi as ->. by left.
  - intros i a Ha. by apply (proj1 (Forall_lookup _ _) Hl i).
Qed.


(** ** [h_enter], case by case *)

(** The size bits and the shift of the page that is asked for, if its size is known. *)
Definition page_asked (s : part) (vsidw rpnw : Z) : option (Z * Z) :=
  if truth (fget b_l vsidw) then
    let '(lpbits, lpsize) := lp_bits 51 (fget b_rpn rpnw) 0 0 in
    if 1 <? lpsize then None else sh ← large_page_shift s !! Z.to_nat lpsize; Some (lpbits, sh)
  else Some (0, LOG_PGSIZE).

(** The logical page number, rounded down to the size of the page. *)
Definition page_number (sh rpnw : Z) : Z := Z.land (fget b_rpn rpnw) (shl64 ONES64 (sh - 12)).

(** The entry as asked for, with physical page number [rpn] in place of the logical one and the bits that are
    the hypervisor's cleared. *)
Definition entry_for (vsidw rpnw rpn : Z) : pte :=
  Pte (fset b_res (fset b_lock vsidw 0) 0) (fset b_res2 (fset b_ts (fset b_pp0 (fset b_rpn rpnw rpn) 0) 0) 0).

(** The entries that come into question: the one at the index with [H_EXACT], else its group. *)
Definition candidates (flags ptex k : Z) : Prop :=
  if truth (Z.land flags H_EXACT) then k = ptex else Z.land ptex (not64 7) <= k < Z.land ptex (not64 7) + 8.
Definition slot_used (s : part) (k : Z) : Prop := exists p, get_pte s k = Ok p /\ vget b_v p <> 0.

(** What becomes of a request whose page translates to [raddr]. *)
Inductive placed (s : part) (flags ptex vsidw rpnw lpbits sh raddr : Z) : Z -> part -> Prop :=
  | placed_foreign : raddr = INVALID_PHYSICAL_ADDRESS -> placed s flags ptex vsidw rpnw lpbits sh raddr H_Parameter s
  | placed_first : raddr <> INVALID_PHYSICAL_ADDRESS -> raddr / PGSIZE = 0 -> placed s flags ptex vsidw rpnw lpbits sh raddr H_Privilege s
  | placed_full : raddr <> INVALID_PHYSICAL_ADDRESS -> raddr / PGSIZE <> 0 -> (forall k, candidates flags ptex k -> slot_used s k) ->
      placed s flags ptex vsidw rpnw lpbits sh raddr H_PTEG_FULL s
  | placed_at i l m : raddr <> INVALID_PHYSICAL_ADDRESS -> raddr / PGSIZE <> 0 -> candidates flags ptex i ->
      (exists p, get_pte s i = Ok p /\ vget b_v p = 0) -> (forall k, candidates flags ptex k -> k < i -> slot_used s k) ->
      laddr_to_lci (p_mem s) (p_os s) (page_number sh rpnw * 2 ^ 12) = Ok l -> add_ptecount (p_mem s) l 1 = Ok m ->
      placed s flags ptex vsidw rpnw lpbits sh raddr H_Success
        (entered s i (entry_for vsidw rpnw (Z.lor (raddr / PGSIZE) lpbits)) (page_number sh rpnw) m).

Inductive enter_outcome l_to_r (s : part) (flags ptex vsidw rpnw : Z) : Z -> part -> Prop :=
  | enter_unsupported : CHECK_UNSUP flags = true -> enter_outcome l_to_r s flags ptex vsidw rpnw H_Parameter s
  | enter_no_size : CHECK_UNSUP flags = false -> page_asked s vsidw rpnw = None -> enter_outcome l_to_r s flags ptex vsidw rpnw H_Parameter s
  | enter_translated lpbits sh raddr r s' :
      CHECK_UNSUP flags = false -> page_asked s vsidw rpnw = Some (lpbits, sh) ->
      logical_to_physical_address l_to_r (p_mem s) (p_os s) (page_number sh rpnw * 2 ^ 12) (2 ^ sh) = Ok raddr ->
      placed s flags ptex vsidw rpnw lpbits sh raddr r s' -> enter_outcome l_to_r s flags ptex vsidw rpnw r s'.

(** The size of the page asked for. *)
Lemma page_asked_spec s vsidw rpnw lpbits lpsize :
  (if truth (fget b_l vsidw) then lp_bits 51 (fget b_rpn rpnw) 0 0 else (0, 0)) = (lpbits, lpsize) ->
  if truth (fget b_l vsidw) && (1 <? lpsize) then page_asked s vsidw rpnw = None
  else forall sh, (if truth (fget b_l vsidw) then aget (large_page_shift s) lpsize else Ok LOG_PGSIZE) = Ok sh ->
    page_asked s vsidw rpnw = Some (lpbits, sh).
Proof.
  intros E. unfold page_asked. destruct (truth (fget b_l vsidw)); cbn [andb]; [|injection E as <- <-; by intros sh [= <-]].
  rewrite E. destruct (1 <? lpsize); [done|]. intros sh Hsh. apply aget_inv in Hsh as [_ ->]. done.
Qed.

(** The slot the search finds, or that there is none. *)
Lemma find_slot_candidates s flags ptex r :
  find_slot (if truth (Z.land flags H_EXACT) then 1 else 8) s (if truth (Z.land flags H_EXACT) then ptex else Z.land ptex (not64 7)) = Ok r ->
  match r with
  | Some i => candidates flags ptex i /\ (exists p, get_pte s i = Ok p /\ vget b_v p = 0) /\
      forall k, candidates flags ptex k -> k < i -> slot_used s k
  | None => forall k, candidates flags ptex k -> slot_used s k
  end.
Proof.
  intros H. pose proof (find_slot_spec _ _ _ _ H) as Hs. unfold candidates, slot_used.
  destruct (truth (Z.land flags H_EXACT)), r as [i|]; cbn in Hs.
  - destruct Hs as (I1 & I2 & I3). split; [lia|]. split; [done|]. intros k Hk Hlt. apply I3. lia.
  - intros k Hk. apply Hs. lia.
  - destruct Hs as (I1 & I2 & I3). split; [lia|]. split; [done|]. intros k Hk Hlt. apply I3. lia.
  - intros k Hk. apply Hs. lia.
Qed.

Lemma page_number_addr s vsidw rpnw lpbits sh :
  part_inv s -> page_asked s vsidw rpnw = Some (lpbits, sh) -> 12 <= sh -> shl64 (page_number sh rpnw) LOG_PGSIZE = page_number sh rpnw * 2 ^ 12.
Proof.
  intros Hinv H Hs. assert (sh <= 26) as Hb.
  { unfold page_asked in H. destruct (truth _); [|injection H as _ <-; done]. destruct (lp_bits _ _ _ _) as [a b]. destruct (1 <? b); [done|].
    apply bind_Some in H as (x & Hx & [= _ <-]). pose proof (pi_lps _ Hinv _ _ Hx) as Hc. change (get_large_page_shift 0) with 0 in Hc. lia. }
  apply (lrpn_aligned (fget b_rpn rpnw) (sh - 12)); [apply (fget_range b_rpn); field_side|lia].
Qed.

Lemma h_enter_outcome l_to_r other_amo s flags ptex vsidw rpnw r s' :
  part_inv s -> 0 <= ptex < num_ptes (p_htab s) ->
  h_enter l_to_r other_amo s flags ptex vsidw rpnw = Ok (r, s') -> enter_outcome l_to_r s flags ptex vsidw rpnw r s'.
Proof.
  intros Hinv Hp H. unfold h_enter in H. destruct (CHECK_UNSUP flags) eqn:Eu; [injection H as <- <-; by apply enter_unsupported|].
  change (vget b_l (Pte vsidw rpnw)) with (fget b_l vsidw) in H. change (rget b_rpn (Pte vsidw rpnw)) with (fget b_rpn rpnw) in H.
  destruct (if truth (fget b_l vsidw) then _ else _) as [lpbits lpsize] eqn:Elp. pose proof (page_asked_spec s _ _ _ _ Elp) as Hpage.
  destruct (truth (fget b_l vsidw) && (1 <? lpsize)); [injection H as <- <-; by apply enter_no_size|].
  apply res_bind_ok in H as (sh & Hsh & H). specialize (Hpage sh Hsh). destruct (Z.leb_spec 12 sh) as [Hge|]; [|done].
  fold (page_number sh rpnw) in H. rewrite (page_number_addr s vsidw rpnw lpbits sh Hinv Hpage Hge) in H.
  apply res_bind_ok in H as (l & Hl & H).
  assert (forall raddr, logical_to_physical_address l_to_r (p_mem s) (p_os s) (page_number sh rpnw * 2 ^ 12) (2 ^ sh) = Ok raddr ->
    placed s flags ptex vsidw rpnw lpbits sh raddr r s' -> enter_outcome l_to_r s flags ptex vsidw rpnw r s') as Hdone
    by (intros raddr ? ?; by eapply (enter_translated l_to_r s flags ptex vsidw rpnw lpbits sh raddr)).
  unfold logical_to_physical_address in Hdone. rewrite Hl in Hdone. cbn [res_bind] in Hdone.
  destruct (Z.eqb_spec l 0) as [|Hl0]; [injection H as <- <-; apply (Hdone _ eq_refl); by apply placed_foreign|].
  apply res_bind_ok in H as (x & Hx & H). rewrite Hx in Hdone. cbn [res_bind] in Hdone.
  apply res_bind_ok in H as (raddr & Htr & H). specialize (Hdone raddr Htr). apply Hdone. clear Hdone.
  destruct (Z.eqb_spec raddr INVALID_PHYSICAL_ADDRESS) as [|Hri]; [injection H as <- <-; by apply placed_foreign|].
  assert (shr64 raddr LOG_PGSIZE = raddr / PGSIZE) as Esh by (unfold shr64; by rewrite Z.shiftr_div_pow2). rewrite Esh in H.
  destruct (Z.eqb_spec (raddr / PGSIZE) 0); [injection H as <- <-; by apply placed_first|].
  assert (check_index s ptex = false) as Eci by (unfold check_index; apply Z.ltb_ge; lia). rewrite Eci in H.
  apply res_bind_ok in H as (slot & Hslot & H). apply find_slot_candidates in Hslot.
  destruct slot as [i|]; [|injection H as <- <-; by apply placed_full]. destruct Hslot as (S1 & S2 & S3).
  destruct (pi_recs _ Hinv x (laddr_record _ _ _ _ _ Hl Hl0 Hx)) as (_ & _ & Hops & _).
  unfold amo_of in H. rewrite Hops in H. cbn [amo_sav_ptep pmem_ops res_bind Z.eqb] in H.
  apply res_bind_ok in H as (s1 & Hins & H). apply res_bind_ok in H as (m & Hm & H). injection H as <- <-.
  apply pte_insert_inv in Hins as (_ & _ & _ & ->).
  match goal with |- placed _ _ _ _ _ _ _ _ _ ?t =>
    change t with (entered s i (entry_for vsidw rpnw (Z.lor (raddr / PGSIZE) lpbits)) (page_number sh rpnw) m) end.
  by apply (placed_at _ _ _ _ _ _ _ _ i l m).
Qed.


(** ** The address of an invalidation *)
Lemma testbit_mask k n i : 0 <= k -> 0 <= n -> Z.testbit (Z.shiftl (Z.ones n) k) i = (k <=? i) && (i <? k + n).
Proof.
  intros Hk Hn. destruct (Z.ltb_spec i 0); [rewrite Z.testbit_neg_r by lia; zcases|].
  rewrite Z.shiftl_spec by lia. destruct (Z.leb_spec k i); simpl.
  - rewrite testbit_ones_small by lia. zcases.
  - by rewrite Z.testbit_neg_r by lia.
Qed.

Lemma testbit_api eaddr i : 0 <= i -> Z.testbit (VADDR_TO_API eaddr) i = (i <? 5) && Z.testbit eaddr (i + 23).
Proof.
  intros Hi. unfold VADDR_TO_API. rewrite testbit_shr64, Z.land_spec by lia.
  change (shl64 31 23) with (Z.shiftl (Z.ones 5) 23). rewrite testbit_mask by lia.
  rewrite andb_comm. f_equal. destruct (Z.leb_spec 23 (i + 23)), (Z.ltb_spec (i + 23) (23 + 5)), (Z.ltb_spec i 5); lia || done.
Qed.

Lemma testbit_avpn eaddr raddr vsid bolted i :
  0 <= vsid < 2 ^ 36 -> 0 <= i ->
  Z.testbit (vget b_avpn (pte_init eaddr raddr vsid bolted false 0)) i =
  if i <? 5 then Z.testbit eaddr (i + 23) else Z.testbit vsid (i - 5).
Proof.
  intros Hv Hi. unfold pte_init. autorewrite with fields.
  rewrite !Z.land_spec, Z.lor_spec, Z.land_spec, testbit_shl64, testbit_api, !testbit_ones_small by (simpl; lia).
  simpl f_len. destruct (Z.ltb_spec i 5) as [H5|H5].
  - rewrite (Z.testbit_neg_r vsid) by lia. rewrite andb_false_r. simpl. destruct (Z.ltb_spec i 57); [|lia]. by rewrite andb_true_r.
  - simpl. rewrite orb_false_r. destruct (Z.ltb_spec i 57).
    + destruct (Z.ltb_spec i 64); [|lia]. simpl. by rewrite !andb_true_r.
    + rewrite !andb_false_r. symmetry. by apply (testbit_high vsid 36); lia.
Qed.

Lemma testbit_pteg log eaddr vsid i :
  18 <= log <= 46 -> 0 <= vsid < 2 ^ 36 -> 0 <= i < 11 ->
  Z.testbit (get_pteg log eaddr vsid 12) i = xorb (Z.testbit vsid i) (Z.testbit eaddr (i + 12)).
Proof.
  intros Hlog Hv Hi. unfold get_pteg. rewrite shl64_one by lia.
  assert (sub64 (shr64 (2 ^ log) LOG_PTEG_SIZE) 1 = Z.ones (log - 7)) as ->.
  { unfold shr64, LOG_PTEG_SIZE. rewrite Z.shiftr_div_pow2, <- Z.pow_sub_r by lia. apply sub64_one_pow2. lia. }
  rewrite Z.land_spec, Z.lxor_spec, !Z.land_spec, testbit_shr64, testbit_ones_small by lia.
  change (2 ^ (28 - 12) - 1) with (Z.ones 16). change VSID_HASH_MASK with (Z.ones 39). rewrite !testbit_ones_small by lia.
  destruct (Z.ltb_spec i 39), (Z.ltb_spec i 16), (Z.ltb_spec i (log - 7)); try lia. by rewrite !andb_true_r.
Qed.

Lemma pteg_range log eaddr vsid : 18 <= log <= 46 -> 0 <= get_pteg log eaddr vsid 12 < 2 ^ 39.
Proof.
  intros Hlog. unfold get_pteg. rewrite shl64_one by lia.
  assert (sub64 (shr64 (2 ^ log) LOG_PTEG_SIZE) 1 = Z.ones (log - 7)) as ->.
  { unfold shr64, LOG_PTEG_SIZE. rewrite Z.shiftr_div_pow2, <- Z.pow_sub_r by lia. apply sub64_one_pow2. lia. }
  rewrite Z.land_ones by lia. assert (0 < 2 ^ (log - 7)) by (apply Z.pow_pos_nonneg; lia).
  assert (2 ^ (log - 7) <= 2 ^ 39) by (apply Z.pow_le_mono_r; lia).
  match goal with |- 0 <= ?a mod ?b < _ => pose proof (Z.mod_pos_bound a b) end. lia.
Qed.

(** The address the hypervisor invalidates is the one the client mapped: for an
    entry the client library builds for a 4 KB page and files in the page's group,
    in any table of legal size and with a segment number of up to 36 bits, the
    invalidated virtual address is the segment number followed by the address
    within the segment, page-aligned. *)
Theorem do_tlbie_page eaddr raddr vsid bolted log_htab_bytes slot :
  0 <= eaddr < 2 ^ 64 -> 0 <= vsid < 2 ^ 36 -> 18 <= log_htab_bytes <= 46 -> 0 <= slot < 8 ->
  tlbie_addr (pte_init eaddr raddr vsid bolted false 0)
    (NUM_PTES_IN_PTEG * get_pteg log_htab_bytes eaddr vsid 12 + slot) =
  Z.lor (Z.shiftl vsid 28) (Z.land eaddr 0xffff000).
Proof.
  intros He Hv Hlog Hslot.
  pose proof (testbit_avpn eaddr raddr vsid bolted) as Hav. pose proof (testbit_pteg log_htab_bytes eaddr vsid) as Hg.
  pose proof (pteg_range log_htab_bytes eaddr vsid Hlog) as Hgr.
  assert (vget b_h (pte_init eaddr raddr vsid bolted false 0) = 0) as Hh by (unfold pte_init; by autorewrite with fields).
  set (p := pte_init eaddr raddr vsid bolted false 0) in *. set (g := get_pteg log_htab_bytes eaddr vsid 12) in *.
  unfold tlbie_addr. rewrite Hh. cbn [truth Z.eqb negb].
  assert (shr64 (NUM_PTES_IN_PTEG * g + slot) 3 = g) as ->.
  { unfold shr64, NUM_PTES_IN_PTEG. rewrite Z.shiftr_div_pow2 by lia. dlia. }
  change 0x7ff with (Z.ones 11). change 0x1f with (Z.ones 5). change 0xffff000 with (Z.shiftl (Z.ones 16) 12).
  apply Z.bits_inj'. intros i Hi.
  rewrite !Z.lor_spec, !testbit_shl64, Z.shiftl_spec, Z.land_spec, testbit_mask by lia.
  assert (0 <= i - 28 -> Z.testbit (shr64 (vget b_avpn p) 5) (i - 28) = Z.testbit vsid (i - 28)) as Hvs.
  { intros H. rewrite testbit_shr64, Hav by lia. destruct (Z.ltb_spec (i - 28 + 5) 5); [lia|]. f_equal. lia. }
  destruct (Z.leb_spec 28 i) as [H28|H28].
  - rewrite Hvs by lia. destruct (Z.ltb_spec i (12 + 16)); [lia|]. rewrite !andb_false_r, orb_false_r.
    destruct (Z.ltb_spec i 64); simpl; [|symmetry; apply (testbit_high vsid 36); lia].
    rewrite Z.lor_spec, Z.land_spec, testbit_shl64, Z.land_spec, !testbit_ones_small by lia.
    destruct (Z.ltb_spec (i - 12) 11), (Z.ltb_spec (i - 12 - 11) 5); try lia. by rewrite !andb_false_r.
  - rewrite !(Z.testbit_neg_r _ (i - 28)) by lia. rewrite !andb_false_r, orb_false_r. simpl orb.
    destruct (Z.ltb_spec i 64); [|lia]. simpl. destruct (Z.leb_spec 12 i) as [H12|]; simpl;
      [|rewrite Z.testbit_neg_r by lia; by rewrite andb_false_r].
    destruct (Z.ltb_spec i (12 + 16)); [|lia]. rewrite andb_true_r, Z.lor_spec, Z.land_spec, testbit_shl64, testbit_ones_small by lia.
    destruct (Z.ltb_spec (i - 12) 64); [|lia]. simpl. destruct (Z.ltb_spec (i - 12) 11).
    + rewrite (Z.testbit_neg_r _ (i - 12 - 11)) by lia. rewrite andb_true_r, orb_false_r, Z.lxor_spec, testbit_shr64, Hav, Hg by lia.
      destruct (Z.ltb_spec (i - 12 + 5) 5); [lia|]. replace (i - 12 + 5 - 5) with (i - 12) by lia.
      replace (i - 12 + 12) with i by lia. by destruct (Z.testbit vsid (i - 12)), (Z.testbit eaddr i).
    + rewrite andb_false_r. simpl. rewrite Z.land_spec, testbit_ones_small, Hav by lia.
      destruct (Z.ltb_spec (i - 12 - 11) 5); [|lia]. rewrite andb_true_r. f_equal. lia.
Qed.

(** The base and the size read back from [sdr1], for tables of 512 KB and more. *)
Lemma htab_sdr1_base addr log :
  is_u64 addr -> 19 <= log <= 46 -> (2 ^ log | addr) ->
  exists v, htab_calc_sdr1 addr log = Ok v /\ Z.land v SDR1_HTABORG_MASK = addr /\
    Z.land v SDR1_HTABSIZE_MASK = log - 18.
Proof.
  intros Ha Hlog Hd. unfold htab_calc_sdr1. rewrite shl64_one, sub64_one_pow2 by lia.
  assert (Z.land addr (Z.ones log) = 0) as ->.
  { rewrite Z.land_ones by lia. by apply Z.mod_divide; [apply Z.pow_nonzero; lia|]. }
  unfold cassert, SDR1_HTABSIZE_MAX, HTAB_MIN_LOG_SIZE, SDR1_HTABSIZE_BASEBITS, LOG_PTEG_SIZE.
  destruct (Z.leb_spec log 46), (Z.leb_spec 18 log); try lia. cbn [Z.eqb]. eexists. split; [done|].
  change SDR1_HTABSIZE_MASK with (Z.ones 5).
  assert (SDR1_HTABORG_MASK = Z.shiftl (Z.ones 45) 19) as -> by reflexivity.
  assert (forall i, 0 <= i < 19 -> Z.testbit addr i = false) as Hlow.
  { intros i Hi. apply (divide_testbit addr log); [done|lia]. }
  split; apply Z.bits_inj'; intros i Hi; rewrite Z.land_spec, Z.lor_spec, Z.land_spec, ?testbit_mask, ?testbit_ones_small by lia.
  - destruct (Z.leb_spec 19 i); simpl.
    + destruct (Z.ltb_spec i 5); [lia|]. rewrite andb_false_r, orb_false_r.
      destruct (Z.ltb_spec i (19 + 45)); [by rewrite andb_true_r|]. rewrite andb_false_r. symmetry. by apply is_u64_testbit; [|lia].
    + rewrite andb_false_r. symmetry. apply Hlow. lia.
  - destruct (Z.ltb_spec i 5); simpl.
    + rewrite Hlow by lia. rewrite !andb_true_r. simpl. f_equal. lia.
    + rewrite !andb_false_r. symmetry. apply (testbit_high _ 5); lia.
Qed.

(** ** Witnesses *)
Definition demo_part (m : memory) : part :=
  Part m 1 (LogicalHtab 0 16 (repeat 0 16) (repeat (Pte 0 0) 16)) [24; 16] false ∅ [].
Definition no_amo (_ : Z) : arch_mem_ops := pmem_ops.

Lemma demo_recs x : maps_record (p_mem (demo_part demo)) 1 x -> record_ok x.
Proof.
  intros [[_ ->]|[H _]]%demo_records; [|done]. unfold record_ok, lci_sane, CHUNK_SIZE, LOG_CHUNKSIZE. simpl.
  split_and!; try done; try lia. by exists 8.
Qed.

Lemma demo_part_inv : part_inv (demo_part demo).
Proof. apply (fresh_inv _ 16); [done|apply demo_recs|]. repeat constructor; lia. Qed.

(** A page in the first group, one large page in the second, and a removal. *)
Definition demo_calls : list pcall :=
  [C_enter 0 3 0x1001 0x5000; C_enter 0 8 0x5 0x0; C_enter H_EXACT 9 0x2005 0x1002000; C_remove 0 0 0; C_read 0 8].


Lemma demo_tables : tables_ok (demo_part demo).
Proof.
  split; try done; [by exists 2|]. exists (demo_map 10). split; [done|]. split; [done|]. intros i l Hi Hl.
  destruct i as [|i]; cbn in Hi; [injection Hi as <-; by eexists|].
  by apply list_elem_of_lookup_2, list_elem_of_In, (repeat_spec 511) in Hi.
Qed.


Lemma do_tlbie_page_witness :
  tlbie_addr (pte_init 0xc000000000123456 0x77000 0x06a99b4b1 true false 0)
    (NUM_PTES_IN_PTEG * get_pteg 20 0xc000000000123456 0x06a99b4b1 12 + 5) =
  Z.lor (Z.shiftl 0x06a99b4b1 28) (Z.land 0xc000000000123456 0xffff000).
Proof. apply do_tlbie_page; lia. Defined.

(** ** What goes wrong *)

(** The index check lets one past the end through. *)
Example check_index_off_by_one : h_remove no_amo (demo_part demo) 0 16 0 = Fault Out_of_bounds.
Proof. reflexivity. Qed.

(** Clearing the changed bit of a removed entry makes it valid again, although the
    record counts no entries. *)
Example h_clear_mod_revives :
  (let! s := exec_all no_l_to_r no_amo (demo_part demo) [C_enter 0 0 0x1001 0x5080; C_remove 0 0 0; C_clear_mod 0] in
   let! p := get_pte s 0 in let! x := get_lci (p_mem s) 10 in
   Ok (vget b_v p, rget b_rpn p, lci_ptecount x)) = Ok (1, 8 * 2 ^ 14 + 5, 0).
Proof. vm_compute. reflexivity. Qed.

(** Unmapping compares page numbers with addresses: the entry of a record in the
    second chunk survives, with its count reset. *)
Definition demo2 : memory :=
  Memory (<[40 := Lci (8 * CHUNK_SIZE) CHUNK_SIZE CHUNK_SIZE 0 0 Phys_mem_ops 1]> ∅)
    (<[1 := Lmm (0 :: 40 :: repeat 0 510) (Lbm 512 (2 :: repeat 0 7))]> ∅).

Example unmap_leaves_entry :
  (let! s := exec_all no_l_to_r no_amo (demo_part demo2) [C_enter 0 0 0x1001 0x4005000] in
   let! (_, s) := hpte_scan_unmap s 40 in
   let! p := get_pte s 0 in let! x := get_lci (p_mem s) 40 in
   Ok (vget b_v p, rget b_rpn p, lci_ptecount x)) = Ok (1, 8 * 2 ^ 14 + 5, 0).
Proof. vm_compute. reflexivity. Qed.

(** A table of the smallest legal size at an odd multiple of its size is not found
    again. *)
Example sdr1_small_table :
  htab_calc_sdr1 0x40000 18 = Ok 0x40000 /\ Z.land 0x40000 SDR1_HTABORG_MASK = 0.
Proof. split; reflexivity. Qed.

(** The calls that clear bits tell the partition the real page number. *)
Example h_clear_ref_leaks :
  (let! s := exec_all no_l_to_r no_amo (demo_part demo) [C_enter 0 0 0x1001 0x5000; C_clear_ref 0] in
   Ok (option_map (fget b_rpn) (gprs s !! 4))) = Ok (Some (8 * 2 ^ 14 + 5)).
Proof. vm_compute. reflexivity. Qed.
