(* ===== verification/Psm.v ===== *)
(** * Psm: memory smaller than a chunk

    [hype/psm.c], [hype/powerpc/64/psm_arch.c] and the operations of plain memory in
    [hype/phys_mem.c].  A page-share manager is a record of its partition's logical
    address space ([Logical]) that hands out its range page by page; it remembers
    which page-table entries refer to its pages in a hash table ([Hash]) of entries'
    places ([Htab]).  Operations run one after the other, the manager's lock does not
    appear. *)

From S2P Require Import Prelude Hcall Bitmap PgAlloc Hash Logical Resource Field Htab.

Definition NUM_PSM_ENTRIES : Z := 2 ^ (4 + LOG_CHUNKSIZE - LOG_PGSIZE).

(** [struct page_share_mgr], less its own record [psm_lci], which lies at the
    manager's address. *)
Record page_share_mgr := Psm {
  psm_entries : list Z;
  psm_pte_ht : hash_table;
  psm_usage : lbm
}.

(** What memory fresh from the page allocator holds where a manager is put: the
    manager's own record, the words of its bitmap, and its array of entries. *)
Record stale_mem := Stale { stale_lci : logical_chunk_info; stale_bits : list Z; stale_words : list Z }.

(** The memory of the machine: the records and tables of partitions, the managers
    by address, each partition's manager (0 for none), its page table, the page
    allocator, the count of memory resources, records handed to [rcu_defer] to be
    freed, the next address of the object allocator, and what memory fresh from the
    page allocator holds. *)
Record mworld := MWorld {
  w_mem : memory;
  w_psms : gmap Z page_share_mgr;
  po_psm : gmap Z Z;
  w_parts : gmap Z part;
  phys_pa : pg_alloc;
  mem_res_count : Z;
  w_dead : list Z;
  w_brk : Z;
  stale : stale_mem
}.

Definition set_wmem (w : mworld) (m : memory) : mworld :=
  MWorld m (w_psms w) (po_psm w) (w_parts w) (phys_pa w) (mem_res_count w) (w_dead w) (w_brk w) (stale w).
Definition set_psm (w : mworld) (p : Z) (q : page_share_mgr) : mworld :=
  MWorld (w_mem w) (<[p := q]> (w_psms w)) (po_psm w) (w_parts w) (phys_pa w) (mem_res_count w) (w_dead w) (w_brk w)
    (stale w).
Definition set_part (w : mworld) (os : Z) (q : part) : mworld :=
  MWorld (w_mem w) (w_psms w) (po_psm w) (<[os := q]> (w_parts w)) (phys_pa w) (mem_res_count w) (w_dead w) (w_brk w)
    (stale w).
Definition add_res_count (w : mworld) (d : Z) : mworld :=
  MWorld (w_mem w) (w_psms w) (po_psm w) (w_parts w) (phys_pa w) (u32 (mem_res_count w + d)) (w_dead w) (w_brk w)
    (stale w).
Definition bury (w : mworld) (l : Z) : mworld :=
  MWorld (w_mem w) (w_psms w) (po_psm w) (w_parts w) (phys_pa w) (mem_res_count w) (w_dead w ++ [l]) (w_brk w)
    (stale w).
Definition put_wlci (w : mworld) (l : Z) (x : logical_chunk_info) : mworld := set_wmem w (put_lci (w_mem w) l x).
Definition set_count (x : logical_chunk_info) (c : Z) : logical_chunk_info :=
  Lci (lci_raddr x) (lci_laddr x) (lci_size x) c (lci_flags x) (lci_ops x) (lci_os x).

Definition get_psm (w : mworld) (p : Z) : res page_share_mgr := of_option Null_deref (w_psms w !! p).
Definition get_part (w : mworld) (os : Z) : res part := of_option Null_deref (w_parts w !! os).

(** [halloc] of a record: a cleared object at a new address. *)
Definition halloc_lci (w : mworld) : Z * mworld :=
  let l := w_brk w in
  (l, MWorld (put_lci (w_mem w) l (Lci 0 0 0 0 0 (Other_ops 0) 0)) (w_psms w) (po_psm w) (w_parts w) (phys_pa w)
        (mem_res_count w) (w_dead w) (w_brk w + 1) (stale w)).

(** ** Plain memory *)
Definition phys_mem_export (s : state mworld) (l laddr size : Z) : res (Z * Z * state mworld) :=
  let! x := get_lci (w_mem (world s)) l in
  if negb (range_subset (lci_laddr x) (lci_size x) laddr size) then Ok (H_Parameter, 0, s)
  else
    let (new, w) := halloc_lci (world s) in
    let offset := sub64 laddr (lci_laddr x) in
    let! r := get_sr s l in
    let s := init_sr (put_world s w) new l (sr_type r) in
    let! y := get_lci (w_mem w) new in
    let w := put_wlci w new (phys_mem_lci_init y (add64 (lci_raddr x) offset) size) in
    Ok (s64 size, new, put_world s w).

Definition phys_mem_destroy (w : mworld) (l : Z) : Z * mworld := (0, bury w l).

(** [phys_mem_unmap] is [hpte_scan_unmap] on the page table of the owner. *)
Definition phys_mem_unmap (w : mworld) (l : Z) : res (Z * mworld) :=
  let! x := get_lci (w_mem w) l in
  if lci_ptecount x =? 0 then Ok (0, w)
  else
    let! p := get_part w (lci_os x) in
    let! (r, p) := hpte_scan_unmap (set_mem p (w_mem w)) l in
    Ok (r, set_part (set_wmem w (p_mem p)) (lci_os x) p).

(** ** The manager *)
(** A key is a machine word. *)
Definition psm_pte_hash (key log_tbl_size : Z) : Z := shr64 (u64 key) LOG_PGSIZE.

Definition psm_owns (w : mworld) (p laddr : Z) : res bool :=
  let! x := get_lci (w_mem w) p in Ok (range_contains (lci_laddr x) (lci_size x) laddr).

Definition psm_l_to_r (w : mworld) (p : Z) (x : logical_chunk_info) (laddr size : Z) : res Z :=
  let idx := shr64 (sub64 laddr (lci_laddr x)) LOG_PGSIZE in
  let! q := get_psm w p in
  let! next := aget (psm_entries q) idx in
  if next =? 0 then Ok INVALID_PHYSICAL_ADDRESS
  else
    let! n := get_lci (w_mem w) next in
    cassert (negb (lci_raddr n =? INVALID_PHYSICAL_ADDRESS))
      (cassert (range_subset (lci_laddr n) (lci_size n) laddr size)
        (Ok (add64 (sub64 laddr (lci_laddr n)) (lci_raddr n)))).

Definition psm_export (s : state mworld) (l laddr size : Z)
  (export : state mworld -> Z -> Z -> Z -> res (Z * Z * state mworld)) : res (Z * Z * state mworld) :=
  let! x := get_lci (w_mem (world s)) l in
  let idx := shr64 (sub64 laddr (lci_laddr x)) LOG_PGSIZE in
  cassert (idx <? NUM_PSM_ENTRIES)
    (let! q := get_psm (world s) l in
     let! parent := aget (psm_entries q) idx in
     let! y := get_lci (w_mem (world s)) parent in
     let offset := sub64 laddr (lci_laddr y) in
     if lci_size y <? add64 offset size then Ok (H_Parameter, 0, s) else export s parent laddr size).

(** [lci->lci_ops->export]: a manager passes the call on to the record of the page,
    so two levels are enough. *)
Fixpoint lci_export (fuel : nat) (s : state mworld) (l laddr size : Z) : res (Z * Z * state mworld) :=
  match fuel with
  | O => Fault Out_of_fuel
  | S fuel =>
      let! x := get_lci (w_mem (world s)) l in
      match lci_ops x with
      | Phys_mem_ops => phys_mem_export s l laddr size
      | Other_ops _ => psm_export s l laddr size (lci_export fuel)
      end
  end.

(** [PGNUMS]: bytes to whole pages. *)
Definition PGNUMS (bytes : Z) : Z := shr64 (ALIGN_UP bytes PGSIZE) LOG_PGSIZE.

Definition psm_accept (w : mworld) (p l : Z) : res (Z * mworld) :=
  let! q := get_psm w p in
  let! x := get_lci (w_mem w) l in
  let pages := PGNUMS (lci_size x) in
  let! idx := lbm_find_range (psm_usage q) 0 pages (bit_log2 (Z.land pages (not64 (sub64 pages 1)))) 0 in
  if idx =? LARGE_BITMAP_ERROR then Ok (H_Resource, w)
  else
    let! u := lbm_set_bits (psm_usage q) idx pages 1 in
    let! e := fill_lci (Z.to_nat pages) idx l (psm_entries q) in
    let w := set_psm w p (Psm e (psm_pte_ht q) u) in
    let! px := get_lci (w_mem w) p in
    let base := add64 (shl64 idx LOG_PGSIZE) (lci_laddr px) in
    Ok (H_Success, put_wlci w l (set_lci_place x base (lci_os px))).

(** [init_os_psm]: nothing of the manager is cleared. *)
Definition init_os_psm (w : mworld) (os : Z) : res (Z * mworld) :=
  if negb (default 0 (po_psm w !! os) =? 0) then Ok (default 0 (po_psm w !! os), w)
  else
    let p := w_brk w in
    let! (addr, pa) := get_pages (phys_pa w) (mul64 NUM_PSM_ENTRIES 8) in
    let entries := if addr =? PAGE_ALLOC_ERROR then [] else stale_words (stale w) in
    match lbm_init NUM_PSM_ENTRIES (SIZEOF_LBM + NUM_PSM_ENTRIES / 8) (stale_bits (stale w)) with
    | None => Fault Assert_failed
    | Some u =>
        let x := Lci INVALID_PHYSICAL_ADDRESS (lci_laddr (stale_lci (stale w))) (shl64 NUM_PSM_ENTRIES LOG_PGSIZE)
                     (lci_ptecount (stale_lci (stale w))) (lci_flags (stale_lci (stale w))) (Other_ops p) os in
        let w := MWorld (put_lci (w_mem w) p x) (<[p := Psm entries ht_init u]> (w_psms w))
                   (<[os := p]> (po_psm w)) (w_parts w) pa (mem_res_count w) (w_dead w) (w_brk w + 1)
                   (stale w) in
        let! (addr, m) := set_lci (w_mem w) os 0 p in
        cassert (negb (addr =? INVALID_LOGICAL_ADDRESS)) (Ok (p, set_wmem w m))
    end.

(** ** Page-table entries of the manager's pages: [psm_arch.c] *)
Section Arch.
Context (ht_halloc : Z -> list (list hash_entry)).

Definition psm_sav_ptep (w : mworld) (p laddr ptex : Z) : res (Z * mworld) :=
  let! q := get_psm w p in
  let! ht := ht_insert psm_pte_hash ht_halloc (psm_pte_ht q) (Entry laddr ptex) in
  let w := set_psm w p (Psm (psm_entries q) ht (psm_usage q)) in
  let! px := get_lci (w_mem w) p in
  let! real := aget (psm_entries q) (shr64 (sub64 laddr (lci_laddr px)) LOG_PGSIZE) in
  let! x := get_lci (w_mem w) real in
  Ok (1, put_wlci w real (set_count x (u32 (lci_ptecount x + 1)))).
End Arch.

(** The chain without its first entry for that address and place. *)
Fixpoint unlink_match (chain : list hash_entry) (laddr ptex : Z) : list hash_entry :=
  match chain with
  | [] => []
  | he :: next =>
      if (he_key he =? laddr) && (he_obj he =? ptex) then next else he :: unlink_match next laddr ptex
  end.

Definition psm_rem_ptep (w : mworld) (p laddr ptex : Z) : res (Z * mworld) :=
  let! q := get_psm w p in
  let ht := psm_pte_ht q in
  let hash := ht_index psm_pte_hash (ht_log_tbl_size ht) laddr in
  let! chain := aget (ht_table ht) hash in
  let! table := aset (ht_table ht) hash (unlink_match chain laddr ptex) in
  let ht := HashTable (ht_count ht) table (ht_log_tbl_size ht) (ht_embedded ht) (ht_freed ht) in
  let w := set_psm w p (Psm (psm_entries q) ht (psm_usage q)) in
  let! px := get_lci (w_mem w) p in
  let! real := aget (psm_entries q) (shr64 (sub64 laddr (lci_laddr px)) LOG_PGSIZE) in
  let! x := get_lci (w_mem w) real in
  Ok (1, put_wlci w real (set_count x (u32 (lci_ptecount x + (2 ^ 32 - 1))))).

(** [__locked_psm_cleanup]: every turn takes an entry out of the table. *)
Fixpoint psm_cleanup_loop (fuel : nat) (ht : hash_table) : res hash_table :=
  match fuel with
  | O => Fault Out_of_fuel
  | S fuel =>
      let! (he, ht) := ht_pop psm_pte_hash ht in
      match he with None => Ok ht | Some _ => psm_cleanup_loop fuel ht end
  end.

Definition __locked_psm_cleanup (q : page_share_mgr) : res page_share_mgr :=
  let! ht := psm_cleanup_loop (S (length (ht_entries (psm_pte_ht q)))) (psm_pte_ht q) in
  Ok (Psm (psm_entries q) ht (psm_usage q)).

(** [while ((he = ht_remove(&psm->psm_pte_ht, start)))]: whether the count of
    entries reached zero, which ends the whole loop. *)
Fixpoint unmap_page (fuel : nat) (w : mworld) (p l start : Z) : res (bool * mworld) :=
  match fuel with
  | O => Fault Out_of_fuel
  | S fuel =>
      let! q := get_psm w p in
      let! (he, ht) := ht_remove psm_pte_hash (psm_pte_ht q) start in
      let w := set_psm w p (Psm (psm_entries q) ht (psm_usage q)) in
      match he with
      | None => Ok (false, w)
      | Some he =>
          let! x := get_lci (w_mem w) l in
          let! t := get_part w (lci_os x) in
          let! t := pte_invalidate t (he_obj he) in
          let c := u32 (lci_ptecount x + (2 ^ 32 - 1)) in
          let w := put_wlci (set_part w (lci_os x) t) l (set_count x c) in
          if c =? 0 then Ok (true, w) else unmap_page fuel w p l start
      end
  end.

(** [while (start < lci->lci_laddr + lci->lci_size)] *)
Fixpoint unmap_loop (n : nat) (w : mworld) (p l idx start : Z) : res mworld :=
  let! x := get_lci (w_mem w) l in
  if start <? add64 (lci_laddr x) (lci_size x) then
    match n with
    | O => Fault Out_of_fuel
    | S n =>
        let! q := get_psm w p in
        let! e := aset (psm_entries q) idx 0 in
        let w := set_psm w p (Psm e (psm_pte_ht q) (psm_usage q)) in
        let! (stop, w) := unmap_page (S (length (ht_entries (psm_pte_ht q)))) w p l start in
        if stop : bool then Ok w else unmap_loop n w p l (idx + 1) (add64 start PGSIZE)
    end
  else Ok w.

Definition __locked_psm_unmap_lci (w : mworld) (p l : Z) : res (Z * mworld) :=
  let! x := get_lci (w_mem w) l in
  cassert (truth (Z.land (lci_flags x) LCI_DISABLED))
    (let! px := get_lci (w_mem w) p in
     let idx := shr64 (sub64 (lci_laddr x) (lci_laddr px)) LOG_PGSIZE in
     if lci_ptecount x =? 0 then Ok (0, w)
     else
       let! w := unmap_loop (Z.to_nat (PGNUMS (lci_size x))) w p l idx (lci_laddr x) in
       Ok (0, w)).

Definition psm_unmap_lci (w : mworld) (p l : Z) : res (Z * mworld) := __locked_psm_unmap_lci w p l.

(** [do ... while (psm->psm_entries[idx] == lci && idx < NUM_PSM_ENTRIES)]: the
    entry is read before the bound is tested. *)
Fixpoint clear_run (fuel : nat) (e : list Z) (idx l : Z) : res (list Z * Z) :=
  match fuel with
  | O => Fault Out_of_fuel
  | S fuel =>
      let! e := aset e idx 0 in
      let! v := aget e (idx + 1) in
      if (v =? l) && (idx + 1 <? NUM_PSM_ENTRIES) then clear_run fuel e (idx + 1) l else Ok (e, idx + 1)
  end.

Fixpoint psm_unmap_loop (fuel : nat) (w : mworld) (p idx : Z) : res mworld :=
  if idx <? NUM_PSM_ENTRIES then
    match fuel with
    | O => Fault Out_of_fuel
    | S fuel =>
        let! q := get_psm w p in
        let! l := aget (psm_entries q) idx in
        let! (e, idx) := clear_run (Z.to_nat NUM_PSM_ENTRIES) (psm_entries q) idx l in
        let! (_, w) := __locked_psm_unmap_lci (set_psm w p (Psm e (psm_pte_ht q) (psm_usage q))) p l in
        psm_unmap_loop fuel w p idx
    end
  else Ok w.

Definition psm_unmap (w : mworld) (p : Z) : res (Z * mworld) :=
  let! w := psm_unmap_loop (S (Z.to_nat NUM_PSM_ENTRIES)) w p 0 in Ok (0, w).

Definition psm_destroy (w : mworld) (p : Z) : Z * mworld := (0, bury w p).

Definition os_psm_destroy (w : mworld) (p : Z) : res mworld :=
  let! q := get_psm w p in
  let! q := __locked_psm_cleanup q in
  Ok (bury (set_psm w p q) p).

(** The translation [lci_translate] finds behind a manager's record. *)
Definition w_l_to_r (w : mworld) (p : Z) (x : logical_chunk_info) (laddr size : Z) : res Z :=
  psm_l_to_r w p x laddr size.

Definition w_l2p (w : mworld) (os laddr len : Z) : res Z :=
  logical_to_physical_address (w_l_to_r w) (w_mem w) os laddr len.

(** ** Accepting a record *)

(** A manager over a power of two of pages. *)
Record psm_ok (q : page_share_mgr) : Prop := {
  pk_pow : exists c, 6 <= c < 31 /\ Z.of_nat (length (psm_entries q)) = 2 ^ c;
  pk_lbm : lbm_wf (psm_usage q);
  pk_num : lbm_num (psm_usage q) = Z.of_nat (length (psm_entries q))
}.

Lemma psm_capacity q : psm_ok q -> capacity (lbm_bits (psm_usage q)) = Z.of_nat (length (psm_entries q)).
Proof.
  intros [(c & Hc & Hlen) Hw Hn]. destruct Hw as [_ Hl _]. unfold capacity, UVAL_BITS. rewrite Hl, Hn, Hlen.
  replace c with (c - 6 + 6) by lia. rewrite Z.pow_add_r by lia. change (2 ^ 6) with 64.
  rewrite Z.div_add_l by lia. change (63 / 64) with 0. lia.
Qed.

(** A power of two that divides a number up to [2 ^ c] divides [2 ^ c]. *)
Lemma pow2_divide_le b c n : 0 <= b -> 0 <= c -> (2 ^ b | n) -> 0 < n <= 2 ^ c -> b <= c /\ (2 ^ b | 2 ^ c).
Proof.
  intros Hb Hc Hd Hn. assert (2 ^ b <= 2 ^ c) as Hle by (apply Z.divide_pos_le in Hd; lia).
  assert (b <= c) by (by apply (Z.pow_le_mono_r_iff 2)). split; [done|].
  exists (2 ^ (c - b)). rewrite <- Z.pow_add_r by lia. f_equal. lia.
Qed.

Lemma psm_find q n :
  psm_ok q -> 0 < n <= Z.of_nat (length (psm_entries q)) ->
  exists i, lbm_find_range (psm_usage q) 0 n (bit_log2 (Z.land n (not64 (sub64 n 1)))) 0 = Ok i /\
    (i = LARGE_BITMAP_ERROR \/
     0 <= i /\ i + n <= Z.of_nat (length (psm_entries q)) /\
     forall k, i <= k < i + n -> lbit (lbm_bits (psm_usage q)) k = false).
Proof.
  intros Hq Hn. pose proof (psm_capacity q Hq) as Hcap. destruct Hq as [(c & Hc & Hlen) Hw Hnum].
  assert (2 ^ c < 2 ^ 31) by (apply Z.pow_lt_mono_r; lia).
  destruct (least_bit n) as (b & Hb & -> & Hdiv); [lia|].
  destruct (pow2_divide_le b c n) as [Hbc Hdc]; try lia; try done.
  destruct (find_range_run (psm_usage q) 0 n b 0) as (i & E & Hcase); rewrite ?Hcap; try done; try lia.
  { right. rewrite Hlen. done. }
  exists i. split; [done|]. destruct Hcase as [(H1 & H2 & _ & H4)|[-> _]]; [right|by left].
  rewrite Hcap in H2. split; [done|]. split; [done|]. intros k Hk. exact (H4 k Hk).
Qed.

(** What an accepted record has become: mapped from page [idx] on, over pages that
    were free. *)
Record accepted (w w' : mworld) (p l idx : Z) (q : page_share_mgr) (px x : logical_chunk_info) : Prop := {
  ac_idx : 0 <= idx;
  ac_fit : idx + PGNUMS (lci_size x) <= Z.of_nat (length (psm_entries q));
  ac_free : forall k, idx <= k < idx + PGNUMS (lci_size x) -> lbit (lbm_bits (psm_usage q)) k = false;
  ac_world : exists q', w' = put_wlci (set_psm w p q') l
      (set_lci_place x (add64 (shl64 idx LOG_PGSIZE) (lci_laddr px)) (lci_os px)) /\ psm_ok q' /\
    forall k, 0 <= k -> psm_entries q' !! Z.to_nat k =
      if (idx <=? k) && (k <? idx + PGNUMS (lci_size x)) then Some l else psm_entries q !! Z.to_nat k
}.

Lemma psm_accept_spec w p l q px x :
  w_psms w !! p = Some q -> psm_ok q -> lcis (w_mem w) !! p = Some px -> lcis (w_mem w) !! l = Some x ->
  0 < PGNUMS (lci_size x) <= Z.of_nat (length (psm_entries q)) ->
  exists r w', psm_accept w p l = Ok (r, w') /\
    (r = H_Resource /\ w' = w \/ r = H_Success /\ exists idx, accepted w w' p l idx q px x).
Proof.
  intros Hq Hok Hp Hx Hn. unfold psm_accept, get_psm, get_lci. rewrite Hq, Hx. cbn [of_option res_bind].
  set (n := PGNUMS (lci_size x)) in *. destruct (psm_find q n Hok Hn) as (i & -> & Hi). cbn [res_bind].
  destruct Hi as [->|(H0 & H1 & Hfree)]; [rewrite Z.eqb_refl; do 2 eexists; split; [done|by left]|].
  pose proof Hok as [(c & Hc & Hlen) Hw Hnum]. assert (2 ^ c < 2 ^ 31) by (apply Z.pow_lt_mono_r; lia).
  destruct (Z.eqb_spec i LARGE_BITMAP_ERROR) as [->|_]; [unfold LARGE_BITMAP_ERROR, ONES64 in *; lia|].
  destruct (lbm_set_bits_spec (psm_usage q) i n 1) as (u & -> & Hu & Hun & _); try done; try lia. cbn [res_bind].
  destruct (fill_lci_spec (Z.to_nat n) i l (psm_entries q)) as (e & -> & Hel & He); [lia|lia|]. cbn [res_bind w_mem set_psm].
  rewrite Hp. cbn [of_option res_bind]. do 2 eexists. split; [done|]. right. split; [done|]. exists i. split; try done.
  eexists. split; [reflexivity|]. split.
  - split; simpl; [exists c; by rewrite Hel|done|by rewrite Hun, Hel].
  - intros k Hk. simpl. rewrite He by done. rewrite Z2Nat.id by lia. done.
Qed.

(** ** Translating through the manager *)
Lemma page_number base a : 0 <= base -> base <= a < 2 ^ 64 -> shr64 (sub64 a base) LOG_PGSIZE = (a - base) / 2 ^ 12.
Proof. intros H0 Ha. rewrite sub64_small by lia. unfold shr64, LOG_PGSIZE. by rewrite Z.shiftr_div_pow2 by lia. Qed.

Lemma PGNUMS_spec n : 0 <= n < 2 ^ 63 -> (PGNUMS n - 1) * 2 ^ 12 < n <= PGNUMS n * 2 ^ 12.
Proof.
  intros Hn. unfold PGNUMS, PGSIZE, LOG_PGSIZE, shr64. destruct (align_up_bounds n 12) as (H & [k Hk]); [lia|lia|lia|].
  rewrite Hk in *. rewrite Z.shiftr_div_pow2, Z.div_mul by lia. lia.
Qed.

(** A record of less than a chunk that a manager accepts, over pages that were all
    free, is reachable there: each of its bytes translates, through the manager's
    range, to the byte at the same offset of its physical memory. *)
Theorem psm_accept_translates w p l q px x :
  w_psms w !! p = Some q -> psm_ok q -> lcis (w_mem w) !! p = Some px -> lcis (w_mem w) !! l = Some x ->
  p <> l -> l <> 0 -> 0 < lci_size x -> PGNUMS (lci_size x) <= Z.of_nat (length (psm_entries q)) ->
  0 <= lci_raddr x -> lci_raddr x + lci_size x < 2 ^ 62 ->
  (PGSIZE | lci_laddr px) -> 0 <= lci_laddr px < 2 ^ 62 ->
  exists r w', psm_accept w p l = Ok (r, w') /\
    (r = H_Resource /\ w' = w \/ r = H_Success /\ exists base x',
       lcis (w_mem w') !! l = Some x' /\ lci_laddr x' = base /\ lci_os x' = lci_os px /\
       lci_laddr px <= base /\ base + lci_size x <= lci_laddr px + Z.of_nat (length (psm_entries q)) * PGSIZE /\
       forall a len, base <= a -> 0 <= len -> a + len <= base + lci_size x -> a < base + lci_size x ->
         psm_l_to_r w' p px a len = Ok (lci_raddr x + (a - base))).
Proof.
  intros Hq Hok Hp Hx Hpl Hl Hs Hn Hr0 Hr [d Hd] Hla. pose proof Hok as [(c & Hc & Hlen) _ _].
  assert (2 ^ c < 2 ^ 31) as Hc31 by (apply Z.pow_lt_mono_r; lia).
  pose proof (PGNUMS_spec (lci_size x) ltac:(lia)) as Hpg.
  destruct (psm_accept_spec w p l q px x Hq Hok Hp Hx) as (r & w' & E & Hcase); [lia|].
  exists r, w'. split; [done|]. destruct Hcase as [?|[-> [idx Ha]]]; [by left|right]. split; [done|].
  destruct Ha as [H0 H1 _ (q' & -> & [(c' & Hc' & Hlen') _ _] & He)].
  assert (add64 (shl64 idx LOG_PGSIZE) (lci_laddr px) = idx * 2 ^ 12 + lci_laddr px) as Eb.
  { unfold shl64, LOG_PGSIZE. rewrite Z.shiftl_mul_pow2, u64_small, add64_small by lia. done. }
  rewrite Eb. exists (idx * 2 ^ 12 + lci_laddr px). eexists. unfold PGSIZE, LOG_PGSIZE in *.
  split; [apply lookup_insert_eq|]. split; [done|]. split; [done|]. split; [lia|]. split; [nia|].
  intros a len Hlo Hln Hhi Hin. unfold psm_l_to_r. rewrite page_number by lia.
  unfold get_psm. cbn [w_psms put_wlci set_wmem set_psm]. rewrite lookup_insert_eq. cbn [of_option res_bind].
  assert (idx <= (a - lci_laddr px) / 2 ^ 12 < idx + PGNUMS (lci_size x)) as Hk.
  { split; [apply Z.div_le_lower_bound; lia|apply Z.div_lt_upper_bound; lia]. }
  rewrite (aget_ok _ _ l) by (try lia; rewrite He by lia; zcases). cbn [res_bind].
  destruct (Z.eqb_spec l 0); [done|]. unfold get_lci. cbn [w_mem put_wlci set_wmem set_psm lcis put_lci].
  rewrite lookup_insert_eq. cbn [of_option res_bind lci_raddr lci_laddr lci_size set_lci_place].
  destruct (Z.eqb_spec (lci_raddr x) INVALID_PHYSICAL_ADDRESS) as [Ei|_]; [unfold INVALID_PHYSICAL_ADDRESS, ONES64 in Ei; lia|].
  unfold range_subset. rewrite (add64_small a), (add64_small (idx * _ + _)) by lia.
  destruct (Z.leb_spec (idx * 2 ^ 12 + lci_laddr px) a), (Z.leb_spec (a + len) (idx * 2 ^ 12 + lci_laddr px + lci_size x)); try lia.
  cbn [andb negb cassert]. rewrite sub64_small, add64_small by lia. f_equal. lia.
Qed.

(** ** Witness: partition 1's manager 40, of 64 pages, at logical address 2^30 *)
Definition demo_psm : page_share_mgr := Psm (5 :: repeat 0 63) ht_init (Lbm 64 [1]).
Definition demo_world : mworld :=
  MWorld (Memory (<[40 := Lci INVALID_PHYSICAL_ADDRESS (2 ^ 30) (64 * PGSIZE) 0 0 (Other_ops 40) 1]>
                   (<[6 := Lci (2 ^ 27) 0 (3 * PGSIZE) 0 0 Phys_mem_ops 0]> (lcis Logical.demo))) (maps Logical.demo))
    (<[40 := demo_psm]> ∅) (<[1 := 40]> ∅) ∅ (PgAlloc (Lbm 0 []) 0 12) 0 [] 100
    (Stale (Lci 0 0 0 0 0 Phys_mem_ops 0) [] []).

Lemma demo_psm_ok : psm_ok demo_psm.
Proof.
  split; [exists 6; split; [lia|reflexivity]| |reflexivity].
  split; [simpl; lia|reflexivity|]. repeat constructor; unfold is_u64; lia.
Qed.

Lemma psm_accept_translates_witness :
  exists w', psm_accept demo_world 40 6 = Ok (H_Success, w') /\
    exists base x', lcis (w_mem w') !! 6 = Some x' /\ lci_laddr x' = base /\ lci_os x' = 1 /\
      2 ^ 30 <= base /\ base + 3 * PGSIZE <= 2 ^ 30 + 64 * PGSIZE /\
      forall a len, base <= a -> 0 <= len -> a + len <= base + 3 * PGSIZE -> a < base + 3 * PGSIZE ->
        psm_l_to_r w' 40 (Lci INVALID_PHYSICAL_ADDRESS (2 ^ 30) (64 * PGSIZE) 0 0 (Other_ops 40) 1) a len =
          Ok (2 ^ 27 + (a - base)).
Proof.
  destruct (psm_accept_translates demo_world 40 6 demo_psm
    (Lci INVALID_PHYSICAL_ADDRESS (2 ^ 30) (64 * PGSIZE) 0 0 (Other_ops 40) 1)
    (Lci (2 ^ 27) 0 (3 * PGSIZE) 0 0 Phys_mem_ops 0)) as (r & w' & E & Hcase);
    [reflexivity|apply demo_psm_ok|reflexivity|reflexivity|lia|lia|reflexivity|vm_compute; discriminate|
     simpl; lia|reflexivity|exists (2 ^ 18); reflexivity|simpl; lia|].
  exists w'. destruct Hcase as [[-> ->]|[-> H]]; [vm_compute in E; discriminate|]. split; [exact E|exact H].
Defined.

(** ** What goes wrong *)

(** [psm_unmap] takes the record of every page, also where there is none. *)
Example psm_unmap_faults :
  psm_unmap (set_psm demo_world 40 (Psm [0; 5; 0; 0] ht_init (Lbm 64 [0]))) 40 = Fault Null_deref.
Proof. vm_compute. reflexivity. Qed.

(** Unmapping a record that no page-table entry refers to leaves its pages with the
    manager, where they still translate. *)
Example psm_unmap_stays :
  (let! (_, w) := psm_accept demo_world 40 6 in
   let! x := get_lci (w_mem w) 6 in
   let! (_, w) := psm_unmap_lci (put_wlci w 6 (lci_disable x)) 40 6 in
   w_l2p (set_wmem w (put_map (w_mem w) 1 (Lmm (repeat 40 512) (Lbm 512 [])))) 1 (lci_laddr x) 8) = Ok (2 ^ 27).
Proof. vm_compute. reflexivity. Qed.
