(* ===== verification/MemResource.v ===== *)
(** * MemResource: memory as a resource

    [hype/mem_resource.c] and [h_mem_define] of [hype/phys_mem.c]: the actions of the
    resource types [MEM_ADDR] and [MMIO_ADDR], which bind a granted piece of memory
    into a partition's logical address space ([Logical]) or into its page-share
    manager ([Psm]), and take it out again with its page-table entries ([Htab]).  The
    actions meet what [Resource] asks of them, so that the theorem on rescinding
    applies to memory.  A resource is embedded in its record and has its address. *)

From S2P Require Import Prelude Hcall Dlist Bitmap PgAlloc Hash Logical Resource Field Htab Psm.

Definition mem_conflict (w : mworld) (r1 r2 : Z) : res Z :=
  let! x1 := get_lci (w_mem w) r1 in
  let! x2 := get_lci (w_mem w) r2 in
  cassert (negb (lci_raddr x1 =? INVALID_PHYSICAL_ADDRESS))
    (cassert (negb (lci_raddr x2 =? INVALID_PHYSICAL_ADDRESS))
      (Ok (b2z (ranges_conflict (lci_raddr x1) (lci_size x1) (lci_raddr x2) (lci_size x2))))).

(** The tail of both ways to accept: enable the record and report its address. *)
Definition enable_lci (w : mworld) (r : Z) : res (Z * mworld) :=
  let! x := get_lci (w_mem w) r in Ok (lci_laddr x, put_wlci w r (lci_enable x)).

(** The result of [set_lci] is dropped. *)
Definition mem_accept (w : mworld) (owner r : Z) : res (Z * Z * mworld) :=
  let! x := get_lci (w_mem w) r in
  if (CHUNK_SIZE <? shl64 (lci_size x) 1) ||
     (CHUNK_SIZE <=? add64 (chunk_offset_addr (lci_laddr x)) (lci_size x)) then
    let! (_, m) := set_lci (w_mem w) owner 0 r in
    let! (laddr, w) := enable_lci (set_wmem w m) r in
    Ok (H_Success, laddr, w)
  else
    let! (psm, w) := init_os_psm w owner in
    let! (err, w) := psm_accept w psm r in
    if err =? H_Success then
      let! (laddr, w) := enable_lci w r in Ok (err, laddr, w)
    else Ok (err, 0, w).

Definition mmio_accept (w : mworld) (owner r : Z) : res (Z * Z * mworld) :=
  let! x := get_lci (w_mem w) r in
  let! (_, m) := set_lci (w_mem w) owner (lci_raddr x) r in
  let! (laddr, w) := enable_lci (set_wmem w m) r in
  Ok (H_Success, laddr, w).

(** [lci->lci_ops->unmap(lci)] *)
Definition lci_unmap (w : mworld) (r : Z) : res (Z * mworld) :=
  let! x := get_lci (w_mem w) r in
  match lci_ops x with
  | Phys_mem_ops => phys_mem_unmap w r
  | Other_ops _ => psm_unmap w r
  end.

Definition mmio_return (w : mworld) (r : Z) : res (Z * mworld) :=
  let! (_, m) := detach_lci (w_mem w) r in
  let! (_, w) := lci_unmap (set_wmem w m) r in
  Ok (0, w).

Definition mem_return (w : mworld) (r : Z) : res (Z * mworld) :=
  let! x := get_lci (w_mem w) r in
  check! negb (lci_os x =? 0) else Null_deref in
  let psm := default 0 (po_psm w !! lci_os x) in
  let! owns := if psm =? 0 then Ok false else psm_owns w psm (lci_laddr x) in
  if owns : bool then let! (_, w) := psm_unmap_lci w psm r in Ok (0, w)
  else mmio_return w r.

Definition mem_invalidate (w : mworld) (r : Z) : res (Z * mworld) :=
  let! x := get_lci (w_mem w) r in Ok (0, put_wlci w r (lci_disable x)).

(** [lci->lci_ops->destroy(lci)], which [psm_ops] has the same way. *)
Definition lci_destroy (w : mworld) (r : Z) : res mworld :=
  let! _ := get_lci (w_mem w) r in Ok (snd (phys_mem_destroy w r)).

Definition mem_rescind (w : mworld) (r : Z) : res (Z * mworld) :=
  let! w := lci_destroy (add_res_count w (2 ^ 32 - 1)) r in Ok (0, w).

Definition mem_ops grant : resource_action mworld :=
  ResourceAction grant mem_accept mem_invalidate mem_return mem_rescind mem_conflict.
Definition mmio_ops grant : resource_action mworld :=
  ResourceAction grant mmio_accept mem_invalidate mmio_return mem_rescind mem_conflict.

Section Actions.
(** The actions of the remaining type, virtual I/O. *)
Context (vio_actions : option (resource_action mworld)).

(** [resource_conflict] uses the conflict tests only. *)
Definition conflict_actions : list (option (resource_action mworld)) :=
  [None; Some (mem_ops None); Some (mmio_ops None); vio_actions; None; None; None].

Definition mem_grant (s : state mworld) (src flags hi lo size dest : Z) : res (Z * Z * state mworld) :=
  let! l := laddr_to_lci (w_mem (world s)) src lo in
  if l =? 0 then Ok (H_Parameter, 0, s)
  else
    let! (err, new, s) := lci_export 2 s l lo size in
    if err <? 0 then Ok (err, 0, s)
    else
      let! err := resource_conflict conflict_actions s dest new in
      if negb (err =? H_Success) then
        let! w := lci_destroy (world s) new in Ok (err, 0, put_world s w)
      else Ok (H_Success, new, put_world s (add_res_count (world s) 1)).

Definition mem_actions : resource_action mworld := mem_ops (Some mem_grant).
Definition mmio_actions : resource_action mworld := mmio_ops (Some mem_grant).

Definition res_actions : list (option (resource_action mworld)) :=
  [None; Some mem_actions; Some mmio_actions; vio_actions; None; None; None].

(** [define_mem]: the logical address, or [INVALID_LOGICAL_ADDRESS]. *)
Definition define_mem (s : state mworld) (os type base size : Z) : res (Z * state mworld) :=
  if size =? 0 then Ok (INVALID_LOGICAL_ADDRESS, s)
  else
    let s0 := s in
    let (l, w) := halloc_lci (world s) in
    let s := init_sr (put_world s w) l 0 type in
    let! y := get_lci (w_mem w) l in
    let s := put_world s (put_wlci w l (phys_mem_lci_init y base size)) in
    let! err := resource_conflict res_actions s os l in
    if err <? 0 then Ok (INVALID_LOGICAL_ADDRESS, s0)
    else
      let! (err, s) := insert_resource s l os in
      cassert (0 <=? err)
        (let s := put_world s (add_res_count (world s) 1) in
         let! (err, retval, s) := accept_locked_resource res_actions s l in
         cassert (err =? H_Success) (Ok (retval, s))).

(** [h_mem_define]: the result and the logical address. *)
Definition h_mem_define (s : state mworld) (os : Z) (is_ctrl : bool) (type addr size : Z)
  : res (Z * option Z * state mworld) :=
  cassert ((type =? MEM_ADDR) || (type =? MMIO_ADDR))
    (if negb is_ctrl then Ok (H_Parameter, None, s)
     else
       let! (ret, s) := define_mem s os type addr size in
       if ret =? INVALID_LOGICAL_ADDRESS then Ok (H_Parameter, None, s) else Ok (H_Success, Some ret, s)).
End Actions.

(** ** Worlds that differ by what a rescind does *)
Definition disabled (x : logical_chunk_info) : bool := truth (Z.land (lci_flags x) LCI_DISABLED).

Definition lci_step (x y : logical_chunk_info) : Prop :=
  lci_raddr y = lci_raddr x /\ lci_laddr y = lci_laddr x /\ lci_size y = lci_size x /\
  lci_ops y = lci_ops x /\ lci_os y = lci_os x /\ (disabled x = true -> disabled y = true).

(** A page table whose arrays have the announced size. *)
Definition part_ok (t : part) : Prop :=
  Z.of_nat (length (ptes (p_htab t))) = num_ptes (p_htab t) /\ length (shadow (p_htab t)) = length (ptes (p_htab t)).

Definition part_step (t t' : part) : Prop :=
  num_ptes (p_htab t') = num_ptes (p_htab t) /\ length (ptes (p_htab t')) = length (ptes (p_htab t)) /\
  length (shadow (p_htab t')) = length (shadow (p_htab t)).

(** The entries a manager remembers are places in a table of [n] entries. *)
Definition psm_safe (n : nat) (q : page_share_mgr) : Prop :=
  ht_shape psm_pte_hash (psm_pte_ht q) /\
  forall e, e ∈ ht_entries (psm_pte_ht q) -> 0 <= he_obj e < Z.of_nat n.

Definition psm_step (q q' : page_share_mgr) : Prop :=
  length (psm_entries q') = length (psm_entries q) /\ forall n, psm_safe n q -> psm_safe n q'.

(** Pointwise on maps with the same keys. *)
Definition map_rel {A} (R : A -> A -> Prop) (m m' : gmap Z A) : Prop :=
  forall k, match m !! k, m' !! k with
            | Some a, Some b => R a b
            | None, None => True
            | _, _ => False
            end.

(** Entries of an address space go away, and none appear. *)
Definition fades (e e' : Z) : Prop := e' = e \/ e' = 0.
Definition map_step (a b : logical_memory_map) : Prop := (map_wf a -> map_wf b) /\ Forall2 fades (p_lci a) (p_lci b).

Record wstep (w w' : mworld) : Prop := {
  ws_lcis : map_rel lci_step (lcis (w_mem w)) (lcis (w_mem w'));
  ws_maps : map_rel map_step (maps (w_mem w)) (maps (w_mem w'));
  ws_parts : map_rel part_step (w_parts w) (w_parts w');
  ws_psms : map_rel psm_step (w_psms w) (w_psms w');
  ws_po : po_psm w' = po_psm w
}.

Lemma map_rel_refl {A} (R : A -> A -> Prop) m : (forall a, R a a) -> map_rel R m m.
Proof. intros H k. by destruct (m !! k). Qed.

Lemma map_rel_trans {A} (R : A -> A -> Prop) m1 m2 m3 :
  (forall a b c, R a b -> R b c -> R a c) -> map_rel R m1 m2 -> map_rel R m2 m3 -> map_rel R m1 m3.
Proof.
  intros H H1 H2 k. specialize (H1 k). specialize (H2 k).
  destruct (m1 !! k), (m2 !! k), (m3 !! k); naive_solver.
Qed.

Lemma map_rel_insert {A} (R : A -> A -> Prop) m k a b :
  (forall x, R x x) -> m !! k = Some a -> R a b -> map_rel R m (<[k := b]> m).
Proof.
  intros Hr Hk Hab j. destruct (decide (j = k)) as [->|]; [by rewrite Hk, lookup_insert_eq|].
  rewrite lookup_insert_ne by done. by destruct (m !! j).
Qed.

Lemma map_rel_some {A} (R : A -> A -> Prop) m m' k a :
  map_rel R m m' -> m !! k = Some a -> exists b, m' !! k = Some b /\ R a b.
Proof. intros H Hk. specialize (H k). rewrite Hk in H. destruct (m' !! k); [eauto|done]. Qed.

Lemma map_rel_back {A} (R : A -> A -> Prop) m m' k b :
  map_rel R m m' -> m' !! k = Some b -> exists a, m !! k = Some a /\ R a b.
Proof. intros H Hk. specialize (H k). rewrite Hk in H. destruct (m !! k); [eauto|done]. Qed.

Lemma lci_step_refl x : lci_step x x. Proof. by repeat split. Qed.
Lemma lci_step_trans x y z : lci_step x y -> lci_step y z -> lci_step x z.
Proof. unfold lci_step. intuition congruence. Qed.
Lemma part_step_refl x : part_step x x. Proof. by repeat split. Qed.
Lemma part_step_trans x y z : part_step x y -> part_step y z -> part_step x z.
Proof. unfold part_step. intuition congruence. Qed.
Lemma psm_step_refl x : psm_step x x. Proof. split; auto. Qed.
Lemma psm_step_trans x y z : psm_step x y -> psm_step y z -> psm_step x z.
Proof. unfold psm_step. intros [? ?] [? ?]. split; [congruence|auto]. Qed.

Lemma map_step_refl x : map_step x x.
Proof. split; [done|]. apply Forall_Forall2_diag, Forall_true. by left. Qed.
Lemma map_step_trans x y z : map_step x y -> map_step y z -> map_step x z.
Proof. intros [A1 B1] [A2 B2]. split; [auto|]. eapply (Forall2_trans fades fades fades); [|exact B1|exact B2]. unfold fades. intros ? ? ? [->| ->] [->| ->]; auto. Qed.

#[local] Hint Resolve lci_step_refl part_step_refl psm_step_refl map_step_refl : core.

Lemma wstep_refl w : wstep w w.
Proof. split; auto using map_rel_refl. Qed.

Lemma wstep_trans w1 w2 w3 : wstep w1 w2 -> wstep w2 w3 -> wstep w1 w3.
Proof.
  intros [A1 B1 C1 D1 E1] [A2 B2 C2 D2 E2]. split; [..|congruence].
  - by eapply map_rel_trans; [apply lci_step_trans| |].
  - by eapply map_rel_trans; [apply map_step_trans| |].
  - by eapply map_rel_trans; [apply part_step_trans| |].
  - by eapply map_rel_trans; [apply psm_step_trans| |].
Qed.

(** The elementary changes. *)
Lemma wstep_lci w l x y : lcis (w_mem w) !! l = Some x -> lci_step x y -> wstep w (put_wlci w l y).
Proof. intros Hx Hs. split; simpl; auto using map_rel_refl. by eapply map_rel_insert. Qed.

Lemma wstep_map w os map map' :
  maps (w_mem w) !! os = Some map -> map_step map map' -> wstep w (set_wmem w (put_map (w_mem w) os map')).
Proof. intros Hm Hw. split; simpl; auto using map_rel_refl. by eapply map_rel_insert. Qed.

Lemma wstep_part w os t t' : w_parts w !! os = Some t -> part_step t t' -> wstep w (set_part w os t').
Proof. intros Ht Hs. split; simpl; auto using map_rel_refl. by eapply map_rel_insert. Qed.

Lemma wstep_psm w p q q' : w_psms w !! p = Some q -> psm_step q q' -> wstep w (set_psm w p q').
Proof. intros Hq Hs. split; simpl; auto using map_rel_refl. by eapply map_rel_insert. Qed.

Lemma disable_step x : lci_step x (lci_disable x).
Proof.
  repeat split. intros _. unfold disabled. cbn [lci_flags lci_disable set_lci_flags]. change LCI_DISABLED with (2 ^ 0).
  rewrite truth_land_pow2, Z.lor_spec by lia. apply orb_true_r.
Qed.

Lemma disable_disabled x : disabled (lci_disable x) = true.
Proof.
  unfold disabled. cbn [lci_flags lci_disable set_lci_flags]. change LCI_DISABLED with (2 ^ 0).
  rewrite truth_land_pow2, Z.lor_spec by lia. apply orb_true_r.
Qed.

Lemma set_count_step x c : lci_step x (set_count x c).
Proof. by repeat split. Qed.

(** ** The promises of the actions *)

(** Tables and managers are in order; address 0 is no record. *)
Record w_ok (w : mworld) : Prop := {
  wo_null : lcis (w_mem w) !! 0 = None;
  wo_maps : forall os map, maps (w_mem w) !! os = Some map -> map_wf map;
  wo_parts : forall os t, w_parts w !! os = Some t -> part_ok t;
  wo_psms : forall os p, po_psm w !! os = Some p -> p <> 0 ->
    exists q px t, w_psms w !! p = Some q /\ lcis (w_mem w) !! p = Some px /\ w_parts w !! os = Some t /\
      0 <= lci_laddr px /\ psm_safe (length (ptes (p_htab t))) q
}.

(** A record bound in its partition's space: directly, or page by page inside the
    partition's manager. *)
Definition bound (w : mworld) (x : logical_chunk_info) : Prop :=
  lci_os x <> 0 /\ is_Some (maps (w_mem w) !! lci_os x) /\ is_Some (w_parts w !! lci_os x) /\
  lci_ops x = Phys_mem_ops /\ 0 <= lci_laddr x /\ 0 <= lci_size x /\ lci_laddr x + lci_size x < 2 ^ 63 /\
  forall p q px, po_psm w !! lci_os x = Some p -> p <> 0 -> w_psms w !! p = Some q ->
    lcis (w_mem w) !! p = Some px -> range_contains (lci_laddr px) (lci_size px) (lci_laddr x) = true ->
    (lci_laddr x - lci_laddr px) / 2 ^ 12 + PGNUMS (lci_size x) <= Z.of_nat (length (psm_entries q)).

Definition there (w : mworld) (r : Z) : Prop := is_Some (lcis (w_mem w) !! r).
Definition ready (w : mworld) (r : Z) : Prop := w_ok w /\ exists x, lcis (w_mem w) !! r = Some x /\ bound w x.
Definition invalid (w : mworld) (r : Z) : Prop := exists x, lcis (w_mem w) !! r = Some x /\ disabled x = true.

Lemma wstep_ok w w' : wstep w w' -> w_ok w -> w_ok w'.
Proof.
  intros [HL HM HP HQ HO] [H0 H1 H2 H3]. split.
  - specialize (HL 0). rewrite H0 in HL. by destruct (lcis (w_mem w') !! 0).
  - intros os map' Hm. destruct (map_rel_back _ _ _ _ _ HM Hm) as (map & Hm0 & Hw & _). eauto.
  - intros os t' Ht. destruct (map_rel_back _ _ _ _ _ HP Ht) as (t & Ht0 & E1 & E2 & E3).
    destruct (H2 os t Ht0) as [? ?]. split; congruence.
  - intros os p Ho Hp. rewrite HO in Ho. destruct (H3 os p Ho Hp) as (q & px & t & Hq & Hpx & Ht & Hla & Hs).
    destruct (map_rel_some _ _ _ _ _ HQ Hq) as (q' & Hq' & _ & Hs').
    destruct (map_rel_some _ _ _ _ _ HL Hpx) as (px' & Hpx' & _ & E & _).
    destruct (map_rel_some _ _ _ _ _ HP Ht) as (t' & Ht' & _ & El & _).
    exists q', px', t'. split_and!; try done; [congruence|]. rewrite El. by apply Hs'.
Qed.

Lemma wstep_bound w w' x x' : wstep w w' -> lci_step x x' -> bound w x -> bound w' x'.
Proof.
  intros [HL HM HP HQ HO] (E1 & E2 & E3 & E4 & E5 & _) (B1 & [map B2] & [t B3] & B4 & B5 & B6 & B7 & B8).
  unfold bound. rewrite E2, E3, E4, E5. split; [done|].
  split. { destruct (map_rel_some _ _ _ _ _ HM B2) as (? & ? & _). by eexists. }
  split. { destruct (map_rel_some _ _ _ _ _ HP B3) as (? & ? & _). by eexists. }
  split_and!; try done. intros p q' px' Ho Hp Hq' Hpx' Hc. rewrite HO in Ho.
  destruct (map_rel_back _ _ _ _ _ HQ Hq') as (q & Hq & El & _).
  destruct (map_rel_back _ _ _ _ _ HL Hpx') as (px & Hpx & _ & Ea & Es & _).
  rewrite Ea, Es in *. rewrite El. by eapply B8.
Qed.

Lemma wstep_keeps w w' : wstep w w' -> keeps there ready invalid w w'.
Proof.
  intros Hw r. pose proof (ws_lcis _ _ Hw) as HL. split_and!.
  - intros (Hok & x & Hx & Hb). split; [by eapply wstep_ok|].
    destruct (map_rel_some _ _ _ _ _ HL Hx) as (y & Hy & Hs). exists y. split; [done|]. by eapply wstep_bound.
  - intros (x & Hx & Hd). destruct (map_rel_some _ _ _ _ _ HL Hx) as (y & Hy & Hs). exists y. split; [done|].
    by apply Hs.
  - intros [x Hx]. destruct (map_rel_some _ _ _ _ _ HL Hx) as (y & Hy & _). by exists y.
Qed.

(** *** Detaching a record *)
Lemma detach_total w l x map :
  lcis (w_mem w) !! l = Some x -> maps (w_mem w) !! lci_os x = Some map -> map_wf map -> l <> 0 -> 0 <= lci_laddr x ->
  exists r m, detach_lci (w_mem w) l = Ok (r, m) /\ wstep w (set_wmem w m).
Proof.
  intros Hx Hm Hwf Hl Hla. unfold detach_lci, get_lci, get_map. rewrite Hx. cbn [of_option res_bind]. rewrite Hm.
  cbn [of_option res_bind]. change MAX_LOGICAL_MEM_CHUNKS with 512.
  assert (wstep w (set_wmem w (w_mem w))) as Hsame by (destruct w; apply wstep_refl).
  destruct (Z.leb_spec 512 (shr64 (lci_laddr x) LOG_CHUNKSIZE)) as [|Hidx]; [by exists 1, (w_mem w)|].
  assert (0 <= shr64 (lci_laddr x) LOG_CHUNKSIZE) as H0 by (by apply Z.shiftr_nonneg).
  rewrite (aget_ok _ _ (entry map (shr64 (lci_laddr x) LOG_CHUNKSIZE))) by (lia || (apply entry_lookup; done || lia)).
  cbn [res_bind]. destruct (_ =? l); [|by exists 1, (w_mem w)].
  destruct (detach_loop_spec (S (Z.to_nat 512)) (shr64 (lci_laddr x) LOG_CHUNKSIZE) l 1 map Hwf)
    as (n & ret & p & u & E & _ & _ & Hwf' & He); [lia|done|lia|].
  rewrite E. cbn [res_bind]. do 2 eexists. split; [done|].
  apply (wstep_trans w (set_wmem w (put_map (w_mem w) (lci_os x) (Lmm p u)))).
  - apply (wstep_map w _ map); [done|]. split; [done|]. pose proof (map_len _ Hwf) as L1. pose proof (map_len _ Hwf') as L2. cbn [p_lci] in L2 |- *. apply Forall2_same_length_lookup_2; [lia|].
    intros i a b Ha Hb. pose proof (lookup_lt_Some _ _ _ Ha) as Hi. specialize (He (Z.of_nat i) ltac:(lia)).
    unfold entry in He. rewrite Nat2Z.id in He. cbn [p_lci] in He. rewrite Ha, Hb in He. cbn in He. unfold fades. rewrite He. destruct (_ && _); auto.
  - apply (wstep_lci (set_wmem w (put_map (w_mem w) (lci_os x) (Lmm p u))) l x); [done|]. apply disable_step.
Qed.

(** *** Flushing the page table *)
Lemma ptes_tlbies_total n : forall t x i,
  part_ok t -> 0 <= i -> i + Z.of_nat n <= num_ptes (p_htab t) ->
  exists t', ptes_tlbies n t x i = Ok t' /\ part_step t t' /\ p_mem t' = p_mem t.
Proof.
  induction n as [|n IH]; intros t x i Hok Hi Hn; simpl; [exists t; by split|].
  destruct Hok as [Hl Hs]. unfold get_pte. destruct (aget_is_ok (ptes (p_htab t)) i) as [p ->]; [lia|].
  destruct (aget_is_ok (shadow (p_htab t)) i) as [sh ->]; [lia|]. cbn [res_bind].
  destruct (_ || _). { apply IH; [by split|lia|lia]. }
  unfold put_pte. rewrite aset_ok by lia. cbn [res_bind].
  destruct (IH (do_tlbie (set_ptes t (<[Z.to_nat i := vset b_v p 0]> (ptes (p_htab t)))) (vset b_v p 0) i) x (i + 1))
    as (t' & E & (A & B & C) & D).
  - unfold part_ok, do_tlbie. destruct (truth _); simpl; by rewrite length_insert.
  - lia.
  - unfold do_tlbie. destruct (truth _); simpl; lia.
  - exists t'. split; [exact E|]. unfold do_tlbie in *. destruct (truth _); simpl in *;
      rewrite length_insert in B; by repeat split.
Qed.

Lemma unmap_total w l x t :
  lcis (w_mem w) !! l = Some x -> w_parts w !! lci_os x = Some t -> part_ok t ->
  exists r w', phys_mem_unmap w l = Ok (r, w') /\ wstep w w'.
Proof.
  intros Hx Ht Hok. unfold phys_mem_unmap, get_lci, get_part. rewrite Hx. cbn [of_option res_bind].
  destruct (lci_ptecount x =? 0) eqn:Ec; [do 2 eexists; split; [done|apply wstep_refl]|].
  rewrite Ht. cbn [of_option res_bind]. unfold hpte_scan_unmap, get_lci. cbn [p_mem set_mem]. rewrite Hx.
  cbn [of_option res_bind]. rewrite Ec.
  assert (exists t', (if sfw_tlb (set_mem t (w_mem w)) then Ok (set_mem t (w_mem w))
      else ptes_tlbies (Z.to_nat (num_ptes (p_htab (set_mem t (w_mem w))))) (set_mem t (w_mem w)) x 0) = Ok t' /\
    part_step t t' /\ p_mem t' = w_mem w) as (t' & -> & Hs & Hm).
  { destruct (sfw_tlb _); [eexists; by repeat split|].
    destruct (ptes_tlbies_total (Z.to_nat (num_ptes (p_htab t))) (set_mem t (w_mem w)) x 0) as (t' & E & Hs & Hm);
      [done|lia|destruct Hok; simpl; lia|]. exists t'. by split. }
  cbn [res_bind]. do 2 eexists. split; [reflexivity|].
  apply (wstep_trans w (set_wmem w (put_lci (w_mem w) l (set_count x 0)))).
  - apply (wstep_lci w l x); [done|]. apply set_count_step.
  - cbn [p_mem set_mem]. rewrite Hm. by apply (wstep_part _ (lci_os x) t).
Qed.

(** *** Taking a record out of the manager *)
Lemma psm_hash_nonneg k log : 0 <= psm_pte_hash k log.
Proof. unfold psm_pte_hash, shr64. apply Z.shiftr_nonneg. apply u64_range. Qed.

Lemma pte_invalidate_total t i :
  part_ok t -> 0 <= i < Z.of_nat (length (ptes (p_htab t))) ->
  exists t', pte_invalidate t i = Ok t' /\ part_step t t'.
Proof.
  intros [Hl Hs] Hi. unfold pte_invalidate, get_pte, put_pte. destruct (aget_is_ok (ptes (p_htab t)) i Hi) as [p ->].
  cbn [res_bind]. rewrite aset_ok by lia. cbn [res_bind]. rewrite aset_ok by (simpl; lia). cbn [res_bind].
  eexists. split; [done|]. repeat split; simpl; by rewrite length_insert.
Qed.

(** What the loops of [__locked_psm_unmap_lci] rely on: the record [l] of partition
    [os], whose manager is [p]. *)
Record unmapping (w : mworld) (p l os : Z) : Prop := {
  um_ok : w_ok w;
  um_po : po_psm w !! os = Some p;
  um_p : p <> 0;
  um_lci : exists x, lcis (w_mem w) !! l = Some x /\ lci_os x = os
}.

Lemma unmapping_step w w' p l os : wstep w w' -> unmapping w p l os -> unmapping w' p l os.
Proof.
  intros Hw [A B C (x & Hx & D)]. split; [by eapply wstep_ok| |done|].
  - by rewrite (ws_po _ _ Hw).
  - destruct (map_rel_some _ _ _ _ _ (ws_lcis _ _ Hw) Hx) as (y & Hy & _ & _ & _ & _ & E & _).
    exists y. split; [done|congruence].
Qed.

Lemma unmap_page_total fuel : forall w p l os start q,
  unmapping w p l os -> w_psms w !! p = Some q -> (length (ht_entries (psm_pte_ht q)) < fuel)%nat ->
  exists b w', unmap_page fuel w p l start = Ok (b, w') /\ wstep w w'.
Proof.
  induction fuel as [|fuel IH]; intros w p l os start q Hu Hq Hf; [lia|]. simpl unmap_page.
  pose proof Hu as [Hok Hpo Hp (x & Hx & Ho)].
  destruct (wo_psms _ Hok os p Hpo Hp) as (q0 & px & t & Hq0 & Hpx & Ht & _ & Hsh & Hent).
  rewrite Hq in Hq0. injection Hq0 as <-. unfold get_psm. rewrite Hq. cbn [of_option res_bind].
  destruct (ht_remove_shape psm_pte_hash psm_hash_nonneg (psm_pte_ht q) start Hsh) as (r & ht & -> & Hsh' & Hr).
  cbn [res_bind]. set (q1 := Psm (psm_entries q) ht (psm_usage q)).
  assert (forall n, psm_safe n q -> psm_safe n q1) as Hkeep.
  { intros n [_ Hn]. split; [done|]. intros e He. simpl in He. apply Hn. destruct r as [e'|]; [|by rewrite <- Hr].
    rewrite Hr. by apply elem_of_cons; right. }
  assert (wstep w (set_psm w p q1)) as Hw1 by (apply (wstep_psm w p q); [done|split; auto]).
  destruct r as [e|]; [|do 2 eexists; split; [done|exact Hw1]].
  unfold get_lci. cbn [w_mem set_psm]. rewrite Hx. cbn [of_option res_bind]. unfold get_part. cbn [w_parts set_psm].
  rewrite Ho, Ht. cbn [of_option res_bind].
  destruct (pte_invalidate_total t (he_obj e)) as (t' & -> & Hts); [by apply (wo_parts _ Hok os)| |].
  { apply Hent. rewrite Hr. apply elem_of_cons. by left. }
  cbn [res_bind]. set (c := u32 _). set (w2 := put_wlci (set_part (set_psm w p q1) os t') l (set_count x c)).
  assert (wstep w w2) as Hw2.
  { eapply wstep_trans; [exact Hw1|]. eapply wstep_trans; [by apply (wstep_part _ os t)|].
    apply (wstep_lci _ l x); [done|]. apply set_count_step. }
  destruct (c =? 0); [do 2 eexists; split; [done|exact Hw2]|].
  destruct (IH w2 p l os start q1) as (b & w' & E & Hw'); [by eapply unmapping_step| | |].
  - unfold w2. simpl. by rewrite lookup_insert_eq.
  - simpl. rewrite Hr in Hf. simpl in Hf. lia.
  - exists b, w'. split; [exact E|]. by eapply wstep_trans.
Qed.

(** [start] is [k] pages into the record. *)
Lemma unmap_loop_total n : forall w p l os idx start q x,
  unmapping w p l os -> w_psms w !! p = Some q -> lcis (w_mem w) !! l = Some x ->
  0 <= idx -> idx + Z.of_nat n <= Z.of_nat (length (psm_entries q)) ->
  0 <= start -> lci_laddr x + lci_size x <= start + Z.of_nat n * PGSIZE ->
  0 <= lci_laddr x -> 0 <= lci_size x -> lci_laddr x + lci_size x < 2 ^ 63 ->
  exists w', unmap_loop n w p l idx start = Ok w' /\ wstep w w'.
Proof.
  assert (PGSIZE = 2 ^ 12) as Hpg by reflexivity.
  induction n as [|n IH]; intros w p l os idx start q x Hu Hq Hx Hi Hin H0 Hend HA HB HC.
  - simpl. unfold get_lci. rewrite Hx. cbn [of_option res_bind]. rewrite add64_small by lia.
    destruct (Z.ltb_spec start (lci_laddr x + lci_size x)); [lia|]. exists w. split; [done|apply wstep_refl].
  - cbn [unmap_loop]. unfold get_lci at 1. rewrite Hx. cbn [of_option res_bind]. rewrite add64_small by lia.
    destruct (Z.ltb_spec start (lci_laddr x + lci_size x)); [|exists w; split; [done|apply wstep_refl]].
    unfold get_psm at 1. rewrite Hq. cbn [of_option res_bind]. rewrite aset_ok by lia. cbn [res_bind].
    set (q1 := Psm (<[Z.to_nat idx := 0]> (psm_entries q)) (psm_pte_ht q) (psm_usage q)).
    assert (wstep w (set_psm w p q1)) as Hw1.
    { apply (wstep_psm w p q); [done|]. split; [apply length_insert|auto]. }
    assert (unmapping (set_psm w p q1) p l os) as Hu1 by (by eapply unmapping_step).
    destruct (unmap_page_total (S (length (ht_entries (psm_pte_ht q)))) (set_psm w p q1) p l os start q1 Hu1)
      as (b & w2 & -> & Hw2); [by simpl; rewrite lookup_insert_eq|simpl; lia|].
    cbn [res_bind]. assert (wstep w w2) as Hw by (by eapply wstep_trans).
    destruct b; [by exists w2|].
    destruct (map_rel_some _ _ _ _ _ (ws_psms _ _ Hw) Hq) as (q2 & Hq2 & Hl2 & _).
    destruct (map_rel_some _ _ _ _ _ (ws_lcis _ _ Hw) Hx) as (x2 & Hx2 & _ & E1 & E2 & _).
    destruct (IH w2 p l os (idx + 1) (add64 start PGSIZE) q2 x2) as (w' & E & Hw'); rewrite ?E1, ?E2, ?Hl2; try done; try lia.
    + by eapply unmapping_step.
    + rewrite add64_small; lia.
    + rewrite add64_small by lia. lia.
    + exists w'. split; [exact E|]. by eapply wstep_trans.
Qed.

Lemma psm_unmap_total w l x p :
  w_ok w -> lcis (w_mem w) !! l = Some x -> bound w x -> disabled x = true ->
  po_psm w !! lci_os x = Some p -> p <> 0 ->
  (forall px, lcis (w_mem w) !! p = Some px -> range_contains (lci_laddr px) (lci_size px) (lci_laddr x) = true) ->
  exists r w', psm_unmap_lci w p l = Ok (r, w') /\ wstep w w'.
Proof.
  intros Hok Hx Hb Hd Hpo Hp Hc. destruct (wo_psms _ Hok _ p Hpo Hp) as (q & px & t & Hq & Hpx & Ht & Hla & Hs).
  destruct Hb as (B1 & _ & _ & _ & B5 & B6 & B7 & B8). specialize (B8 p q px Hpo Hp Hq Hpx (Hc px Hpx)).
  pose proof (Hc px Hpx) as Hown. unfold range_contains, range_subset in Hown. apply andb_prop in Hown as [Hown _].
  apply Z.leb_le in Hown. unfold psm_unmap_lci, __locked_psm_unmap_lci, get_lci. rewrite Hx. cbn [of_option res_bind].
  unfold disabled in Hd. rewrite Hd. cbn [cassert]. rewrite Hpx. cbn [of_option res_bind].
  destruct (lci_ptecount x =? 0); [do 2 eexists; split; [done|apply wstep_refl]|].
  pose proof (PGNUMS_spec (lci_size x) ltac:(lia)) as Hpg. assert (PGSIZE = 2 ^ 12) as Eps by reflexivity.
  destruct (unmap_loop_total (Z.to_nat (PGNUMS (lci_size x))) w p l (lci_os x)
    (shr64 (sub64 (lci_laddr x) (lci_laddr px)) LOG_PGSIZE) (lci_laddr x) q x) as (w' & E & Hw); try done; try lia.
  - split; try done. by exists x.
  - rewrite page_number by lia. apply Z.div_pos; lia.
  - rewrite page_number by lia. lia.
  - rewrite E. cbn [res_bind]. do 2 eexists. split; [done|exact Hw].
Qed.

(** ** The interface of [Resource], discharged *)
Lemma mmio_return_total w r : ready w r -> exists e w', mmio_return w r = Ok (e, w') /\ wstep w w'.
Proof.
  intros (Hok & x & Hx & Hb). pose proof Hb as (B1 & [map B2] & [t B3] & B4 & B5 & _).
  assert (r <> 0) as Hr0 by (intros ->; rewrite (wo_null _ Hok) in Hx; done).
  unfold mmio_return. destruct (detach_total w r x map Hx B2 (wo_maps _ Hok _ _ B2) Hr0 B5) as (e1 & m & -> & Hw1).
  cbn [res_bind]. destruct (map_rel_some _ _ _ _ _ (ws_lcis _ _ Hw1) Hx) as (y & Hy & E).
  destruct (map_rel_some _ _ _ _ _ (ws_parts _ _ Hw1) B3) as (t' & Ht' & _).
  unfold lci_unmap, get_lci. rewrite Hy. cbn [of_option res_bind].
  destruct E as (_ & _ & _ & Eops & Eos & _). rewrite Eops, B4.
  destruct (unmap_total (set_wmem w m) r y t') as (e2 & w2 & -> & Hw2); [done|by rewrite Eos| |].
  { apply (wo_parts _ (wstep_ok _ _ Hw1 Hok) (lci_os x)). done. }
  cbn [res_bind]. do 2 eexists. split; [done|]. by eapply wstep_trans.
Qed.

Lemma mem_return_total w r : ready w r -> invalid w r -> exists e w', mem_return w r = Ok (e, w') /\ wstep w w'.
Proof.
  intros Hrd (x & Hx & Hd). pose proof Hrd as (Hok & x' & Hx' & Hb). rewrite Hx in Hx'. injection Hx' as <-.
  unfold mem_return, get_lci. rewrite Hx. cbn [of_option res_bind].
  destruct (Z.eqb_spec (lci_os x) 0) as [E|_]; [by destruct Hb|]. cbn [negb].
  destruct (po_psm w !! lci_os x) as [p|] eqn:Hpo; cbn [default from_option id]; [|by apply mmio_return_total].
  destruct (Z.eqb_spec p 0) as [|Hp]; [by apply mmio_return_total|]. cbn [res_bind].
  destruct (wo_psms _ Hok _ p Hpo Hp) as (q & px & t & Hq & Hpx & _). unfold psm_owns, get_lci. rewrite Hpx.
  cbn [of_option res_bind]. destruct (range_contains _ _ _) eqn:Hc; [|by apply mmio_return_total].
  destruct (psm_unmap_total w r x p Hok Hx Hb Hd Hpo Hp) as (e & w' & -> & Hw).
  { intros px' Hpx'. rewrite Hpx in Hpx'. by injection Hpx' as <-. }
  cbn [res_bind]. do 2 eexists. split; [done|exact Hw].
Qed.

Lemma mem_invalidate_total w r :
  there w r -> exists e w', mem_invalidate w r = Ok (e, w') /\ invalid w' r /\ wstep w w'.
Proof.
  intros [x Hx]. unfold mem_invalidate, get_lci. rewrite Hx. cbn [of_option res_bind]. do 2 eexists. split; [done|]. split.
  - eexists. split; [apply lookup_insert_eq|]. apply disable_disabled.
  - apply (wstep_lci w r x _ Hx). apply disable_step.
Qed.

Lemma mem_rescind_total w r : there w r -> exists e w', mem_rescind w r = Ok (e, w') /\ wstep w w'.
Proof.
  intros [x Hx]. unfold mem_rescind, lci_destroy, get_lci. cbn [w_mem add_res_count]. rewrite Hx. cbn [of_option res_bind].
  do 2 eexists. split; [done|]. split; simpl; auto using map_rel_refl.
Qed.

Lemma ready_there w r : ready w r -> there w r.
Proof. intros (_ & x & Hx & _). by exists x. Qed.

(** Since [w0]: a chunk that showed record [r] then shows [r] still, or nothing. *)
Definition not_reused (w0 w : mworld) (r : Z) : Prop :=
  forall os laddr, laddr_to_lci (w_mem w0) os laddr = Ok r ->
    laddr_to_lci (w_mem w) os laddr = Ok r \/ laddr_to_lci (w_mem w) os laddr = Ok 0.

Lemma not_reused_now w r : not_reused w w r.
Proof. by left. Qed.

Lemma lookup_step w w' os laddr e : wstep w w' -> laddr_to_lci (w_mem w) os laddr = Ok e ->
  laddr_to_lci (w_mem w') os laddr = Ok e \/ laddr_to_lci (w_mem w') os laddr = Ok 0.
Proof.
  intros Hw. unfold laddr_to_lci, get_map. destruct (maps (w_mem w) !! os) as [map|] eqn:Hm; [|done]. cbn [of_option res_bind].
  destruct (map_rel_some _ _ _ _ _ (ws_maps _ _ Hw) Hm) as (map' & -> & _ & Hf). cbn [of_option res_bind]. unfold aget.
  destruct (_ <? _); [done|]. destruct (p_lci map !! _) as [a|] eqn:Ha; [|done]. cbn [of_option]. intros [= ->].
  destruct (Forall2_lookup_l _ _ _ _ _ Hf Ha) as (b & -> & [->| ->]); auto.
Qed.

Lemma not_reused_step w0 w w' r : wstep w w' -> not_reused w0 w r -> not_reused w0 w' r.
Proof. intros Hw Hn os laddr H. destruct (Hn os laddr H) as [E|E]; destruct (lookup_step _ _ _ _ _ Hw E); auto. Qed.

Definition there_since (w0 w : mworld) (r : Z) : Prop := there w r /\ not_reused w0 w r.
Definition ready_since (w0 w : mworld) (r : Z) : Prop := ready w r /\ not_reused w0 w r.
Definition invalid_since (w0 w : mworld) (r : Z) : Prop := invalid w r /\ not_reused w0 w r.

Lemma wstep_keeps_since w0 w w' : wstep w w' -> keeps (there_since w0) (ready_since w0) (invalid_since w0) w w'.
Proof.
  intros Hw r. destruct (wstep_keeps w w' Hw r) as (A & B & C). pose proof (not_reused_step w0 w w' r Hw).
  split_and!; intros [? ?]; split; auto.
Qed.

#[global] Instance mem_laws w0 grant : RescindLaws (there_since w0) (ready_since w0) (invalid_since w0) (mem_ops grant).
Proof.
  split; intros w r [Hr Hn]; simpl.
  - destruct (mem_invalidate_total w r (ready_there w r Hr)) as (e & w' & E & Hi & Hw). exists e, w'.
    split_and!; [done|split; [done|by eapply not_reused_step]|by apply wstep_keeps_since].
  - intros [Hi _]. destruct (mem_return_total w r Hr Hi) as (e & w' & E & Hw). exists e, w'. split; [done|by apply wstep_keeps_since].
  - destruct (mem_rescind_total w r Hr) as (e & w' & E & Hw). exists e, w'. split; [done|by apply wstep_keeps_since].
Qed.

#[global] Instance mmio_laws w0 grant : RescindLaws (there_since w0) (ready_since w0) (invalid_since w0) (mmio_ops grant).
Proof.
  split; intros w r [Hr Hn]; simpl.
  - destruct (mem_invalidate_total w r (ready_there w r Hr)) as (e & w' & E & Hi & Hw). exists e, w'.
    split_and!; [done|split; [done|by eapply not_reused_step]|by apply wstep_keeps_since].
  - intros [Hi _]. destruct (mmio_return_total w r Hr) as (e & w' & E & Hw). exists e, w'. split; [done|by apply wstep_keeps_since].
  - destruct (mem_rescind_total w r Hr) as (e & w' & E & Hw). exists e, w'. split; [done|by apply wstep_keeps_since].
Qed.

(** ** Properties *)

(** A disabled record translates nothing. *)
Lemma disabled_translate l_to_r x laddr len :
  disabled x = true -> lci_translate l_to_r x laddr len = Ok INVALID_PHYSICAL_ADDRESS.
Proof. unfold disabled, lci_translate. intros ->. done. Qed.

(** C1: rescinding memory revokes it.  A partition rescinds a piece of its memory, forcibly or when it is neither
    mapped nor granted on.  If the wait for the other processors comes back without their having changed a
    record that was marked, its place on its owner's list, or the chunks that show it, the call succeeds, and no
    partition can translate an address any more whose chunk showed, before the call, a record derived through
    any number of grants from that memory: the translation, which went to the record then, is refused.  What was
    accepted through a page-share manager is not shown by a chunk of its own, and is not revoked
    ([psm_rescind_leaks]). *)
Theorem rescind_revokes_memory vio rcu_pause s os flags cookie r x :
  let since := fun P => P (world s) in
  sys_ok (since there_since) (since ready_since) (since invalid_since) (res_actions vio) s ->
  get_sys_resource s os cookie = Ok (H_Success, r) ->
  srs s !! r = Some x -> (Z.odd flags = true \/ mapped x = false /\ sr_children x = []) ->
  (forall nodes s1, forced_rescind_mark (res_actions vio) s r [] 0 = Ok (0, nodes, s1) ->
    rescinded (since there_since) (since ready_since) (since invalid_since) s 0 r nodes s1 ->
    exists s2, rcu_pause s1 = Ok s2 /\ undisturbed (since there_since) (since ready_since) (since invalid_since) nodes s1 s2) ->
  exists s', h_rescind_logical (res_actions vio) rcu_pause s os flags cookie = Ok (H_Success, s') /\
    forall q y, reach s 0 r q -> srs s !! q = Some y -> mapped y = true -> q <> 0 ->
    forall os' laddr len, laddr_to_lci (w_mem (world s)) os' laddr = Ok q ->
      w_l2p (world s') os' laddr len = Ok INVALID_PHYSICAL_ADDRESS.
Proof.
  intros since Hok Hget Hx Hf Hpause.
  destruct (rescind_by_cookie _ _ _ (res_actions vio) rcu_pause s os flags cookie r x Hok Hget Hx Hf Hpause)
    as (nodes & s1 & s2 & s' & E & Hres & _ & _ & Hg).
  exists s'. split; [done|]. intros q y Hq Hy Hm Hq0 os' laddr len Hla.
  destruct (rs_rec _ _ _ _ _ _ _ _ Hres q y Hy) as (y1 & Hy1 & _ & _ & M & _).
  destruct (g_nodes _ _ _ _ _ Hg q y1) as (_ & _ & _ & Hinv); [by apply (rs_nodes _ _ _ _ _ _ _ _ Hres)|done|].
  destruct (Hinv ltac:(congruence)) as [(z & Hz & Hd) Hn]. unfold w_l2p, logical_to_physical_address.
  destruct (Hn os' laddr Hla) as [-> | ->]; cbn [res_bind]; [|done].
  destruct (Z.eqb_spec q 0); [done|]. unfold get_lci. rewrite Hz. cbn [of_option res_bind]. by apply disabled_translate.
Qed.

Lemma enable_enabled x : disabled (lci_enable x) = false.
Proof.
  unfold disabled. cbn [lci_flags lci_enable set_lci_flags]. change LCI_DISABLED with (2 ^ 0).
  rewrite truth_land_pow2, Z.land_spec by lia. unfold not32. rewrite testbit_u32, Z.lnot_spec, testbit_pow2 by lia.
  apply andb_false_r.
Qed.

(** The chunks of a range of at most [n * CHUNK_SIZE] bytes from chunk [i] on. *)
Lemma chunk_of i n base size a :
  i * CHUNK_SIZE <= base -> base + size <= (i + n) * CHUNK_SIZE -> base <= a < base + size -> 0 <= i ->
  i <= chunk_number_addr a < i + n.
Proof.
  unfold CHUNK_SIZE, LOG_CHUNKSIZE, chunk_number_addr, shr64, LOG_CHUNKSIZE. intros H1 H2 H3 H0.
  rewrite Z.shiftr_div_pow2 by lia. split; [apply Z.div_le_lower_bound; lia|apply Z.div_lt_upper_bound; lia].
Qed.

Lemma chunks_of_spec x :
  0 < lci_size x -> lci_size x < 2 ^ 62 ->
  lci_size x + chunk_offset_addr (lci_laddr x) <= chunks_of x * CHUNK_SIZE /\ 0 < chunks_of x.
Proof.
  intros H0 H1. pose proof (chunk_offset_range (lci_laddr x)) as Ho. unfold chunks_of, CHUNK_SIZE, LOG_CHUNKSIZE in *.
  rewrite add64_small by lia. destruct (align_up_bounds (lci_size x + chunk_offset_addr (lci_laddr x)) 26) as (H & [k Hk]);
    [lia|lia|lia|]. rewrite Hk in *. unfold shr64. rewrite Z.shiftr_div_pow2, Z.div_mul by lia. lia.
Qed.

(** A partition that accepts memory of at least half a chunk is told a logical
    address, and afterwards either every byte of the memory is found at that address
    on, or the partition's address space had no room and is unchanged, although the
    call reports success all the same. *)
Theorem mem_accept_binds w owner r x map :
  w_ok w -> lcis (w_mem w) !! r = Some x -> maps (w_mem w) !! owner = Some map ->
  CHUNK_SIZE < 2 * lci_size x -> chunks_of x <= 512 -> lci_ops x = Phys_mem_ops ->
  0 <= lci_raddr x -> lci_raddr x + lci_size x < 2 ^ 62 ->
  exists laddr w', mem_accept w owner r = Ok (H_Success, laddr, w') /\
    (maps (w_mem w') = maps (w_mem w) \/
     (forall a len, laddr <= a -> 0 < len -> a + len <= laddr + lci_size x ->
        w_l2p w' owner a len = Ok (lci_raddr x + (a - laddr)))).
Proof.
  intros Hok Hx Hm Hhalf Hch Hops Hr0 Hr. assert (CHUNK_SIZE = 2 ^ 26) as Ecs by reflexivity.
  destruct (chunks_of_spec x) as [Hcs Hcp]; [lia|lia|].
  assert (r <> 0) as Hrn by (intros ->; rewrite (wo_null _ Hok) in Hx; done).
  unfold mem_accept, get_lci. rewrite Hx. cbn [of_option res_bind].
  assert (shl64 (lci_size x) 1 = 2 * lci_size x) as ->.
  { unfold shl64. rewrite Z.shiftl_mul_pow2, u64_small by lia. lia. }
  destruct (Z.ltb_spec CHUNK_SIZE (2 * lci_size x)); [|lia]. cbn [orb].
  destruct (set_lci_spec (w_mem w) owner 0 r x map (chunks_of x)) as (la & m & -> & Hcase); try done; try lia.
  { by apply (wo_maps _ Hok owner). }
  cbn [res_bind]. unfold enable_lci, get_lci. cbn [w_mem set_wmem].
  destruct Hcase as [(-> & -> & _)|(i & map' & -> & Hi0 & Hin & -> & Hwf & _ & He)].
  { rewrite Hx. cbn [of_option res_bind]. do 2 eexists. split; [done|]. by left. }
  simpl lookup. rewrite lookup_insert_eq. cbn [of_option res_bind]. do 2 eexists. split; [done|]. right.
  cbn [lci_laddr set_lci_place]. set (base := i * CHUNK_SIZE + chunk_offset_addr (lci_laddr x)).
  intros a len Ha Hlen Hend. pose proof (chunk_offset_range (lci_laddr x)) as Hoff.
  assert (i <= chunk_number_addr a < i + chunks_of x) as Hc by (apply (chunk_of i (chunks_of x) base (lci_size x)); unfold base; lia).
  unfold w_l2p, logical_to_physical_address, laddr_to_lci, get_map. cbn [w_mem put_wlci set_wmem maps put_lci put_map].
  rewrite lookup_insert_eq. cbn [of_option res_bind].
  rewrite (aget_ok _ _ (entry map' (chunk_number_addr a))) by (lia || (apply entry_lookup; done || lia)). cbn [res_bind].
  rewrite He by lia. destruct (Z.leb_spec i (chunk_number_addr a)), (Z.ltb_spec (chunk_number_addr a) (i + chunks_of x)); try lia.
  cbn [andb]. destruct (Z.eqb_spec r 0); [done|]. unfold get_lci. cbn [lcis put_lci]. rewrite lookup_insert_eq.
  cbn [of_option res_bind]. unfold lci_translate. change (truth (Z.land (lci_flags ?y) LCI_DISABLED)) with (disabled y).
  rewrite enable_enabled. cbn [lci_raddr lci_enable set_lci_flags set_lci_place].
  destruct (Z.eqb_spec (lci_raddr x) INVALID_PHYSICAL_ADDRESS) as [E|_]; [unfold INVALID_PHYSICAL_ADDRESS, ONES64 in E; lia|].
  set (y := lci_enable _). assert (lci_sane y) as Hsane.
  { unfold lci_sane, y. cbn [lci_raddr lci_laddr lci_size lci_enable set_lci_flags set_lci_place]. unfold base in *. lia. }
  rewrite (add64_small a len), sub64_small by (unfold base in *; lia).
  rewrite (proj2 (lci_owns_iff y a Hsane ltac:(unfold base in *; lia))) by (simpl; lia).
  rewrite (proj2 (lci_owns_iff y (a + len - 1) Hsane ltac:(unfold base in *; lia))) by (simpl; lia).
  cbn [negb orb]. change (lci_laddr y) with base. change (lci_raddr y) with (lci_raddr x).
  rewrite sub64_small, add64_small by (unfold base in *; lia). f_equal. lia.
Qed.

(** ** Witnesses

    Partition 1's chunk 10 was granted to partition 2, which has it as 20; both are
    bound ([Logical.demo]). *)
Definition no_part (os : Z) : part := Part Logical.demo os (LogicalHtab 0 0 [] []) [] false ∅ [].
Definition mem_world : mworld :=
  MWorld Logical.demo ∅ ∅ (<[1 := no_part 1]> (<[2 := no_part 2]> ∅)) (PgAlloc (Lbm 0 []) 0 12) 2 [] 100
    (Stale (Lci 0 0 0 0 0 Phys_mem_ops 0) [] []).
Definition mem_heap : dheap :=
  DHeap (list_to_map [(-1, 10); (10, -1); (-2, 20); (20, -2)]) (list_to_map [(-1, 10); (10, -1); (-2, 20); (20, -2)]).
Definition mem_state : state mworld :=
  State (<[10 := SysResource 101 MEM_ADDR RES_MAPPED 1 0 [20]]> (<[20 := SysResource 102 MEM_ADDR RES_MAPPED 2 10 []]> ∅))
    mem_heap 102 [] mem_world.

Lemma mem_state_cases r x : srs mem_state !! r = Some x ->
  r = 10 /\ x = SysResource 101 MEM_ADDR RES_MAPPED 1 0 [20] \/ r = 20 /\ x = SysResource 102 MEM_ADDR RES_MAPPED 2 10 [].
Proof. unfold mem_state. cbn [srs]. rewrite !lookup_insert_Some, lookup_empty. naive_solver. Qed.

Lemma mem_world_ok : w_ok mem_world.
Proof.
  split.
  - reflexivity.
  - intros os map Hm. unfold mem_world, Logical.demo in Hm. cbn [w_mem maps] in Hm.
    rewrite !lookup_insert_Some, lookup_empty in Hm. destruct Hm as [[_ <-]|[_ [[_ <-]|[_ ?]]]]; [..|done]; by apply demo_map_wf.
  - intros os t Ht. unfold mem_world in Ht. cbn [w_parts] in Ht.
    rewrite !lookup_insert_Some, lookup_empty in Ht. by destruct Ht as [[_ <-]|[_ [[_ <-]|[_ ?]]]].
  - intros os p Hp. unfold mem_world in Hp. cbn [po_psm] in Hp. by rewrite lookup_empty in Hp.
Qed.

Lemma mem_world_ready r : r = 10 \/ r = 20 -> ready mem_world r.
Proof.
  intros Hr. split; [exact mem_world_ok|].
  destruct Hr as [-> | ->]; eexists; (split; [reflexivity|]); unfold bound; simpl; unfold CHUNK_SIZE, LOG_CHUNKSIZE;
    (split; [lia|]); (split; [by eexists|]); (split; [by eexists|]); (split; [done|]);
    (split; [lia|]); (split; [lia|]); (split; [lia|]); intros p q px Hp; by rewrite lookup_empty in Hp.
Qed.

Lemma mem_cells : cells_ok mem_state.
Proof.
  assert (forall (m : gmap Z Z), map_Forall (fun p q => node mem_heap q /\ region mem_state p = region mem_state q) m ->
    forall p q, m !! p = Some q -> node mem_heap q /\ region mem_state p = region mem_state q) as Hm by (intros m H p q; apply H).
  split.
  - intros r x Hx. destruct (mem_state_cases r x Hx) as [[-> ->]|[-> ->]]; (split; [done|]); (split; [done|]); (split; split; by eexists).
  - apply Hm. cbn [mem_heap list_to_map foldr uncurry]. repeat (apply map_Forall_insert_2; [by split; [split; eexists|]|]). apply map_Forall_empty.
  - apply Hm. cbn [mem_heap list_to_map foldr uncurry]. repeat (apply map_Forall_insert_2; [by split; [split; eexists|]|]). apply map_Forall_empty.
Qed.

Lemma mem_state_ok : sys_ok (there_since mem_world) (ready_since mem_world) (invalid_since mem_world) (res_actions None) mem_state.
Proof.
  split.
  - intros p x c Hx Hc. destruct (mem_state_cases p x Hx) as [[-> ->]|[-> ->]]; cbn in Hc; [|by apply not_elem_of_nil in Hc].
    apply list_elem_of_singleton in Hc as ->. by eexists.
  - intros r x Hx. destruct (mem_state_cases r x Hx) as [[-> ->]|[-> ->]]; [by left|right; by eexists].
  - exact mem_cells.
  - intros r x Hx. split; [|apply not_reused_now]. apply ready_there, mem_world_ready. destruct (mem_state_cases r x Hx) as [[-> _]|[-> _]]; auto.
  - intros r x Hx _. split; [|apply not_reused_now]. apply mem_world_ready. destruct (mem_state_cases r x Hx) as [[-> _]|[-> _]]; auto.
  - intros r x Hx. exists (mem_actions None).
    destruct (mem_state_cases r x Hx) as [[-> ->]|[-> ->]]; (split; [reflexivity|apply mem_laws]).
Qed.

Lemma mem_rings : ring mem_heap (po_head 1) [10] /\ ring mem_heap (po_head 2) [20].
Proof. split; (split; [apply (bool_decide_unpack _); reflexivity|repeat split; reflexivity]). Qed.

(** Nothing is deferred, and there is one processor. *)
Lemma mem_paused there ready invalid nodes s1 :
  forced_rescind_mark (res_actions None) mem_state 10 [] 0 = Ok (0, nodes, s1) -> rescinded there ready invalid mem_state 0 10 nodes s1 ->
  exists s2, pause_alone (res_actions None) s1 = Ok s2 /\ undisturbed there ready invalid nodes s1 s2.
Proof.
  intros E Hres. pose proof (rescinded_cells _ _ _ _ _ _ _ _ Hres mem_cells) as Hc. destruct Hres as [_ _ Hrec _ _ _ Hl _].
  assert (nodes = [10; 20] /\ deferred s1 = []) as [-> Ed] by (vm_compute in E; injection E as <- <-; done).
  unfold pause_alone. rewrite Ed. eexists. split; [done|]. split; [done|by apply (cells_ok_ext s1)| |done].
  intros q Hq x Hx. assert (exists y, srs mem_state !! q = Some y) as [y Hy].
  { repeat (apply elem_of_cons in Hq as [->|Hq]; [by eexists|]). by apply not_elem_of_nil in Hq. }
  destruct (Hrec q y Hy) as (y' & Hy' & _ & O & _). cbn [srs os_res] in *. assert (y' = x) as -> by congruence. rewrite O, Hl.
  destruct (mem_state_cases q y Hy) as [[-> ->]|[-> ->]]; eexists; (split; [apply mem_rings|lmem]).
Qed.

(** Partition 2 sees the memory at its address 4096, and no longer when partition 1 has taken it back. *)
Lemma rescind_revokes_memory_witness :
  laddr_to_lci (w_mem mem_world) 2 4096 = Ok 20 /\ w_l2p mem_world 2 4096 8 = Ok (9 * CHUNK_SIZE + 4096) /\
  exists s', h_rescind_logical (res_actions None) (pause_alone (res_actions None)) mem_state 1 1 101 = Ok (H_Success, s') /\
    w_l2p (world s') 2 4096 8 = Ok INVALID_PHYSICAL_ADDRESS.
Proof.
  split; [reflexivity|]. split; [vm_compute; reflexivity|].
  destruct (rescind_revokes_memory None (pause_alone (res_actions None)) mem_state 1 1 101 10 (SysResource 101 MEM_ADDR RES_MAPPED 1 0 [20])
    mem_state_ok) as (s' & E & H); [reflexivity|reflexivity|by left|intros nodes s1; apply mem_paused|].
  exists s'. split; [exact E|].
  apply (H 20 (SysResource 102 MEM_ADDR RES_MAPPED 2 10 [])); [|reflexivity|reflexivity|lia|reflexivity].
  apply (Reach_child _ _ _ 10 (SysResource 101 MEM_ADDR RES_MAPPED 1 0 [20]) 20 (SysResource 102 MEM_ADDR RES_MAPPED 2 10 []));
    try reflexivity; [constructor|by apply list_elem_of_singleton|simpl; lia].
Defined.

Lemma mem_accept_binds_witness :
  exists laddr w', mem_accept mem_world 1 30 = Ok (H_Success, laddr, w') /\
    (maps (w_mem w') = maps Logical.demo \/
     (forall a len, laddr <= a -> 0 < len -> a + len <= laddr + CHUNK_SIZE ->
        w_l2p w' 1 a len = Ok (5 * CHUNK_SIZE + (a - laddr)))).
Proof.
  apply (mem_accept_binds mem_world 1 30 (demo_lci (5 * CHUNK_SIZE) 1) (demo_map 10) mem_world_ok);
    try reflexivity; vm_compute; discriminate.
Defined.

(** ** What goes wrong *)

(** Partition 1 with the manager 40 in its chunk 16. *)
Definition psm_map : logical_memory_map := Lmm (10 :: repeat 0 15 ++ 40 :: repeat 0 495) (Lbm 512 (65537 :: repeat 0 7)).
Definition psm_world : mworld :=
  MWorld (put_map (w_mem demo_world) 1 psm_map) (w_psms demo_world) (po_psm demo_world)
    (<[1 := no_part 1]> ∅) (PgAlloc (Lbm 0 []) 0 12) 1 [] 100 (Stale (Lci 0 0 0 0 0 Phys_mem_ops 0) [] []).
Definition psm_state : state mworld :=
  State (<[6 := SysResource 101 MEM_ADDR 0 1 0 []]> ∅)
    (DHeap (list_to_map [(-1, 6); (6, -1)]) (list_to_map [(-1, 6); (6, -1)])) 101 [] psm_world.

(** Memory bound through a manager survives its rescission: the manager looks
    neither at the record's flag nor does it forget its pages. *)
Example psm_rescind_leaks :
  (let! (_, la, s) := h_accept_logical (res_actions None) psm_state 1 101 in
   let! la := of_option Null_deref la in
   let! (e, s) := h_rescind_logical (res_actions None) (pause_alone (res_actions None)) s 1 1 101 in
   let! pa := w_l2p (world s) 1 la 8 in Ok (e, la, pa)) = Ok (H_Success, 2 ^ 30 + PGSIZE, 2 ^ 27).
Proof. vm_compute. reflexivity. Qed.

(** A partition whose address space is full is told its memory is accepted. *)
Example mem_accept_no_room :
  (let! (e, la, w) := mem_accept (set_wmem mem_world (put_map Logical.demo 1 (Lmm (repeat 10 512) (Lbm 512 (repeat ONES64 8))))) 1 30 in
   let! pa := w_l2p w 1 la 8 in Ok (e, pa)) = Ok (H_Success, 8 * CHUNK_SIZE).
Proof. vm_compute. reflexivity. Qed.
