(* ===== verification/Tce.v ===== *)
(** * Tce: translation of device addresses

    [hype/tce.c], [hype/tce.h]: the table through which a virtual device reaches a
    partition's memory.  [tce_put] stores the physical page of a logical one;
    [tce_bd_xlate] turns a buffer descriptor into a physical address. *)

From S2P Require Import Prelude Hcall Bitmap PgAlloc Logical Field.

(** [union tce] and [union tce_bdesc] *)
Definition tce_rpn : field := Field 12 40.
Definition tce_write : field := Field 1 1.
Definition tce_read : field := Field 0 1.
Definition lbd_ctrl_v : field := Field 63 1.
Definition lbd_ctrl_vtoggle : field := Field 62 1.
Definition lbd_len : field := Field 32 24.
Definition lbd_addr : field := Field 0 32.

(** [struct tce_data]; [t_tab] is what the table at [t_tce] holds. *)
Record tce_data := TceData {
  t_entries : Z;
  t_base : Z;
  t_alloc_size : Z;
  t_tce : Z;
  t_tab : list Z
}.

(** Conversion to [int]. *)
Definition s32 (x : Z) : Z := let y := u32 x in if y <? 2 ^ 31 then y else y - 2 ^ 32.

Definition tce_calc_entries (dma_window_size : Z) : Z := add64 dma_window_size (PGSIZE - 1) / PGSIZE.

Definition tce_calc_pages (dma_window_size : Z) : Z :=
  add64 (mul64 (tce_calc_entries dma_window_size) 8) (PGSIZE - 1) / PGSIZE.

(** [memset(t_tce, 0, n * 8)] *)
Definition zero_tab (tab : list Z) (n : Z) : res (list Z) :=
  check! n <=? Z.of_nat (length tab) else Out_of_bounds in
  Ok (repeat 0 (Z.to_nat n) ++ drop (Z.to_nat n) tab).

Definition tce_ia (t : tce_data) : res tce_data :=
  let! tab := zero_tab (t_tab t) (t_entries t) in
  Ok (TceData (t_entries t) (t_base t) (t_alloc_size t) (t_tce t) tab).

(** [tce_alloc] takes anything but [NULL] for memory; the page allocator reports
    failure with [PAGE_ALLOC_ERROR], which is not, and clearing it is a fault. *)
Definition tce_alloc (pa : pg_alloc) (t : tce_data) (base dma_window_size : Z) : res (Z * tce_data * pg_alloc) :=
  let entries := tce_calc_entries dma_window_size in
  let size := mul64 (tce_calc_pages dma_window_size) PGSIZE in
  let! (addr, pa) := get_pages pa size in
  if addr =? 0 then Ok (0, TceData (t_entries t) (t_base t) (t_alloc_size t) 0 [], pa)
  else
    check! negb (addr =? PAGE_ALLOC_ERROR) else Out_of_bounds in
    Ok (dma_window_size, TceData entries base size addr (repeat 0 (Z.to_nat (size / 8))), pa).

Definition tce_free (pa : pg_alloc) (t : tce_data) : res (tce_data * pg_alloc) :=
  cassert (negb (t_tce t =? 0))
    (let! pa := free_pages pa (t_tce t) (t_alloc_size t) in
     Ok (TceData 0 0 0 0 [], pa)).

Section Put.
Context (l_to_r : Z -> logical_chunk_info -> Z -> Z -> res Z).

Definition tce_put (m : memory) (os : Z) (t : tce_data) (ioba ltce : Z) : res (Z * tce_data) :=
  let entries := s32 (t_entries t) in
  let pg := s32 (shr64 ioba LOG_PGSIZE) in
  cassert (pg <? entries)
    (let la := shl64 (fget tce_rpn ltce) LOG_PGSIZE in
     let! pa := logical_to_physical_address l_to_r m os la PGSIZE in
     if pa =? INVALID_PHYSICAL_ADDRESS then Ok (H_Parameter, t)
     else
       let ltce := fset tce_rpn ltce (shr64 pa LOG_PGSIZE) in
       let! tab := aset (t_tab t) pg ltce in
       Ok (H_Success, TceData (t_entries t) (t_base t) (t_alloc_size t) (t_tce t) tab)).
End Put.

(** The pages from [s] to [ep] are present. *)
Fixpoint xlate_loop (n : nat) (t : tce_data) (s : Z) : res bool :=
  match n with
  | O => Ok true
  | S n =>
      if t_entries t <=? s then Ok false
      else
        let! e := aget (t_tab t) s in
        let rw := b2z (fget tce_read e <? 1) in
        let rw := Z.lor rw (fget tce_write e) in
        if rw =? 0 then Ok false else xlate_loop n t (s + 1)
  end.

(** The physical address, 0 for [NULL]. *)
Definition tce_bd_xlate (t : tce_data) (bd : Z) : res Z :=
  let s := fget lbd_addr bd in
  let sz := fget lbd_len bd in
  let pg := shr64 s LOG_PGSIZE in
  let bytes := sub64 s (ALIGN_DOWN s PGSIZE) in
  let ep := shr64 (ALIGN_UP (add64 s sz) PGSIZE) LOG_PGSIZE in
  let s := shr64 (ALIGN_DOWN s PGSIZE) LOG_PGSIZE in
  let! ok := xlate_loop (Z.to_nat (ep - s)) t s in
  if ok : bool then
    let! e := aget (t_tab t) pg in
    Ok (add64 (shl64 (fget tce_rpn e) LOG_PGSIZE) bytes)
  else Ok 0.

(** ** The table only ever names the partition's pages *)

(** An entry that was never set, or one whose page is the partition's. *)
Definition tce_ok (m : memory) (os : Z) (e : Z) : Prop :=
  e = 0 \/ covered m os (Z.shiftl (fget tce_rpn e) 12) PGSIZE.

Definition records_ok (m : memory) (os : Z) : Prop :=
  forall x, maps_record m os x ->
    lci_sane x /\ lci_raddr x + lci_size x <= 2 ^ 52 /\ (PGSIZE | lci_raddr x - lci_laddr x).

(** A successful translation, as [Logical] proves it, with the range covered. *)
Lemma l2p_covered l_to_r m os laddr len pa :
  records_ok m os -> 0 <= laddr -> 0 < len -> laddr + len < 2 ^ 64 ->
  logical_to_physical_address l_to_r m os laddr len = Ok pa -> pa <> INVALID_PHYSICAL_ADDRESS ->
  covered m os pa len /\ (PGSIZE | pa - laddr) /\ 0 <= pa /\ pa + len <= 2 ^ 52.
Proof.
  intros Hr Hla Hlen Hov E Hpa.
  destruct (l2p_record l_to_r m os laddr len pa E Hpa) as (map & x & Hmap & H0 & (l & Hl & Hx) & Et).
  assert (maps_record m os x) as Hrec.
  { exists map, (Z.to_nat (chunk_number_addr laddr)), l. split_and!; try done. congruence. }
  destruct (Hr x Hrec) as (Hs & Hmax & Hal).
  destruct (lci_translate_spec l_to_r x laddr len) as (pa' & Et' & Hcase); try done.
  { unfold INVALID_PHYSICAL_ADDRESS, ONES64. destruct Hs as (? & ? & ? & ? & ?). lia. }
  rewrite Et in Et'. injection Et' as <-. destruct Hcase as [->|(_ & H1 & H2 & ->)]; [done|].
  destruct Hs as (? & ? & ? & ? & ?). split; [exists x; split; [done|lia]|]. split; [|lia].
  replace (lci_raddr x + (laddr - lci_laddr x) - laddr) with (lci_raddr x - lci_laddr x) by lia. done.
Qed.

(** Entry [e] for a page at [pa]. *)
Lemma tce_entry_page e pa :
  0 <= pa -> pa + PGSIZE <= 2 ^ 52 -> (PGSIZE | pa) ->
  Z.shiftl (fget tce_rpn (fset tce_rpn e (shr64 pa LOG_PGSIZE))) 12 = pa.
Proof.
  unfold PGSIZE, LOG_PGSIZE. intros H0 H1 [q Hq]. rewrite fget_fset by field_side. unfold shr64.
  rewrite Z.land_ones, Z.shiftr_div_pow2, Hq, Z.div_mul by (simpl; lia). simpl f_len.
  rewrite Z.mod_small by lia. rewrite Z.shiftl_mul_pow2 by lia. done.
Qed.

(** What [tce_put] of [os] with [ltce] makes of an entry. *)
Definition put_entry (m : memory) (os ltce e : Z) : Prop :=
  covered m os (Z.shiftl (fget tce_rpn e) 12) PGSIZE /\
  fget tce_read e = fget tce_read ltce /\ fget tce_write e = fget tce_write ltce.

Lemma tce_put_step l_to_r m os t ioba ltce r t' :
  records_ok m os -> tce_put l_to_r m os t ioba ltce = Ok (r, t') ->
  r = H_Parameter /\ t' = t \/
  r = H_Success /\ 0 <= s32 (shr64 ioba LOG_PGSIZE) < s32 (t_entries t) /\
  exists e, put_entry m os ltce e /\ t_tab t' = <[Z.to_nat (s32 (shr64 ioba LOG_PGSIZE)) := e]> (t_tab t) /\ t_entries t' = t_entries t.
Proof.
  intros Hr H. unfold tce_put in H. destruct (Z.ltb_spec (s32 (shr64 ioba LOG_PGSIZE)) (s32 (t_entries t))) as [Hlt|]; [|done]. cbn [cassert] in H.
  apply res_bind_ok in H as (pa & Hpa & H). destruct (Z.eqb_spec pa INVALID_PHYSICAL_ADDRESS) as [|Hne]; [injection H as <- <-; by left|].
  apply res_bind_ok in H as (tab & Htab & [= <- <-]). apply aset_inv in Htab as [Hpg ->]. right. split; [done|]. split; [lia|].
  pose proof (fget_range tce_rpn ltce ltac:(field_side)) as Hrpn. simpl f_len in Hrpn.
  assert (shl64 (fget tce_rpn ltce) LOG_PGSIZE = fget tce_rpn ltce * PGSIZE) as Ela.
  { unfold shl64, LOG_PGSIZE, PGSIZE. rewrite Z.shiftl_mul_pow2 by lia. apply u64_small. unfold LOG_PGSIZE. lia. }
  rewrite Ela in Hpa. assert (PGSIZE = 4096) as Hpsz by reflexivity.
  destruct (l2p_covered l_to_r m os (fget tce_rpn ltce * PGSIZE) PGSIZE pa Hr) as (Hc & Hd & H0 & H1); try done; try lia.
  eexists. split; [|done]. split; [|by rewrite !fget_fset_other by field_side]. rewrite tce_entry_page; [done|done|lia|].
  replace pa with ((pa - fget tce_rpn ltce * PGSIZE) + fget tce_rpn ltce * PGSIZE) by lia.
  apply Z.divide_add_r; [done|]. by exists (fget tce_rpn ltce).
Qed.

(** Requests, each with the partition that makes it. *)
Fixpoint put_all l_to_r (m : memory) (t : tce_data) (l : list (Z * Z * Z)) : res tce_data :=
  match l with
  | [] => Ok t
  | (os, ioba, ltce) :: l => let! (_, t) := tce_put l_to_r m os t ioba ltce in put_all l_to_r m t l
  end.


(** ** Addresses as a device sees them *)

(** The physical address of a device address. *)
Definition byte_at (t : tce_data) (v : Z) : option Z :=
  e ← t_tab t !! Z.to_nat (v / PGSIZE); Some (Z.shiftl (fget tce_rpn e) 12 + v mod PGSIZE).

(** The pages of the buffer of a descriptor lie one behind the other in physical memory, as those of a buffer in one page do. *)
Definition contiguous (t : tce_data) (bd : Z) : Prop :=
  forall i e e', fget lbd_addr bd / PGSIZE <= i -> (i + 1) * PGSIZE < fget lbd_addr bd + fget lbd_len bd ->
    t_tab t !! Z.to_nat i = Some e -> t_tab t !! Z.to_nat (i + 1) = Some e' -> fget tce_rpn e' = fget tce_rpn e + 1.

Lemma xlate_loop_present n : forall t s i,
  0 <= s -> xlate_loop n t s = Ok true -> s <= i < s + Z.of_nat n -> is_Some (t_tab t !! Z.to_nat i).
Proof.
  induction n as [|n IH]; intros t s i Hs H Hi; [lia|]. cbn [xlate_loop] in H. destruct (_ <=? _); [done|].
  apply res_bind_ok in H as (e & He & H). destruct (_ =? 0); [done|]. destruct (decide (i = s)) as [->|].
  - apply aget_inv in He as [_ ->]. by eexists.
  - apply (IH t (s + 1)); [lia|done|lia].
Qed.

Lemma contiguous_pages t bd i0 e0 n :
  contiguous t bd -> i0 = fget lbd_addr bd / PGSIZE -> 0 <= i0 -> t_tab t !! Z.to_nat i0 = Some e0 ->
  (forall i, i0 <= i <= i0 + Z.of_nat n -> is_Some (t_tab t !! Z.to_nat i)) ->
  (i0 + Z.of_nat n) * PGSIZE < fget lbd_addr bd + fget lbd_len bd ->
  exists e, t_tab t !! Z.to_nat (i0 + Z.of_nat n) = Some e /\ fget tce_rpn e = fget tce_rpn e0 + Z.of_nat n.
Proof.
  intros Hc Ei H0 He Hall. assert (PGSIZE = 4096) as Hpg by reflexivity. induction n as [|n IH]; intros Hlt.
  - exists e0. rewrite Z.add_0_r. split; [done|lia].
  - destruct IH as (e & Hn & En); [intros i Hi; apply Hall; lia|lia|].
    destruct (Hall (i0 + Z.of_nat (S n))) as [e' He']; [lia|]. exists e'. split; [done|].
    replace (i0 + Z.of_nat (S n)) with (i0 + Z.of_nat n + 1) in * by lia. rewrite (Hc (i0 + Z.of_nat n) e e'); try done; lia.
Qed.

Lemma bd_pages s len :
  0 <= s < 2 ^ 32 -> 0 <= len < 2 ^ 24 ->
  sub64 s (ALIGN_DOWN s PGSIZE) = s mod PGSIZE /\ shr64 (ALIGN_DOWN s PGSIZE) LOG_PGSIZE = s / PGSIZE /\ shr64 s LOG_PGSIZE = s / PGSIZE /\
  s + len <= shr64 (ALIGN_UP (add64 s len) PGSIZE) LOG_PGSIZE * PGSIZE.
Proof.
  intros Hs Hl. unfold PGSIZE, LOG_PGSIZE. rewrite add64_small by dlia.
  assert (ALIGN_DOWN s (2 ^ 12) = s / 2 ^ 12 * 2 ^ 12) as Ed by (apply ALIGN_DOWN_pow2; [unfold is_u64; lia|lia]).
  rewrite Ed, sub64_small by dlia. unfold shr64. rewrite !Z.shiftr_div_pow2, Z.div_mul by lia. split; [dlia|]. split; [done|]. split; [done|].
  destruct (align_up_bounds (s + len) 12) as (U1 & [q Uq]); [dlia|lia|dlia|]. rewrite Uq, Z.div_mul by lia. lia.
Qed.

(** The address [tce_bd_xlate] gives leads to every byte of a contiguous buffer. *)
Lemma xlate_byte_at t bd rb o :
  contiguous t bd -> tce_bd_xlate t bd = Ok rb -> rb <> 0 -> 0 <= o < fget lbd_len bd ->
  byte_at t (fget lbd_addr bd + o) = Some (rb + o).
Proof.
  intros Hc H Hrb Ho. unfold tce_bd_xlate in H. set (s := fget lbd_addr bd) in *. set (len := fget lbd_len bd) in *.
  pose proof (fget_range lbd_addr bd ltac:(field_side)) as Hs. simpl f_len in Hs. fold s in Hs.
  pose proof (fget_range lbd_len bd ltac:(field_side)) as Hl. simpl f_len in Hl. fold len in Hl.
  destruct (bd_pages s len Hs Hl) as (E1 & E2 & E3 & E4). rewrite E1, E2, E3 in H.
  set (ep := shr64 (ALIGN_UP (add64 s len) PGSIZE) LOG_PGSIZE) in *. apply res_bind_ok in H as ([] & Hx & H); [|by injection H as <-].
  apply res_bind_ok in H as (e & He & [= <-]). apply aget_inv in He as [[H0 _] He]. assert (PGSIZE = 4096) as Hpg by reflexivity.
  assert ((s + o) / PGSIZE < ep) as Hep by (apply Z.div_lt_upper_bound; lia). assert (s / PGSIZE <= (s + o) / PGSIZE) as Hge by (apply Z.div_le_mono; lia).
  destruct (contiguous_pages t bd (s / PGSIZE) e (Z.to_nat ((s + o) / PGSIZE - s / PGSIZE)) Hc eq_refl H0 He) as (e' & He' & Er).
  { intros i Hi. apply (xlate_loop_present _ _ _ i H0 Hx). lia. }
  { fold s len. pose proof (Z.mul_div_le (s + o) PGSIZE ltac:(lia)). lia. }
  rewrite Z2Nat.id in He', Er by lia. replace (s / PGSIZE + ((s + o) / PGSIZE - s / PGSIZE)) with ((s + o) / PGSIZE) in He' by lia.
  unfold byte_at. rewrite He'. cbn [mbind option_bind]. f_equal. pose proof (fget_range tce_rpn e ltac:(field_side)) as Hrpn. simpl f_len in Hrpn.
  assert (shl64 (fget tce_rpn e) LOG_PGSIZE = fget tce_rpn e * PGSIZE) as ->.
  { unfold shl64, LOG_PGSIZE, PGSIZE. rewrite Z.shiftl_mul_pow2 by lia. apply u64_small. unfold LOG_PGSIZE. lia. }
  rewrite Z.shiftl_mul_pow2, Er by lia. change (2 ^ 12) with PGSIZE.
  pose proof (Z.div_mod s PGSIZE ltac:(lia)). pose proof (Z.div_mod (s + o) PGSIZE ltac:(lia)). pose proof (Z.mod_pos_bound s PGSIZE ltac:(lia)).
  rewrite add64_small by lia. lia.
Qed.

(** The page and offset of a buffer inside one page. *)
Lemma bd_one_page s len :
  0 <= s < 2 ^ 32 -> 0 < len -> s mod PGSIZE + len <= PGSIZE ->
  ALIGN_DOWN s PGSIZE = s - s mod PGSIZE /\ shr64 (ALIGN_DOWN s PGSIZE) LOG_PGSIZE = s / PGSIZE /\
  shr64 s LOG_PGSIZE = s / PGSIZE /\ shr64 (ALIGN_UP (add64 s len) PGSIZE) LOG_PGSIZE = s / PGSIZE + 1.
Proof.
  intros Hs Hl Hp. unfold PGSIZE, LOG_PGSIZE in *. rewrite add64_small by dlia.
  assert (ALIGN_DOWN s (2 ^ 12) = s / 2 ^ 12 * 2 ^ 12) as Ed by (apply ALIGN_DOWN_pow2; [unfold is_u64; lia|lia]).
  rewrite Ed. unfold shr64. rewrite !Z.shiftr_div_pow2, Z.div_mul by lia. split; [dlia|]. split; [done|]. split; [done|].
  destruct (align_up_bounds (s + len) 12) as (U1 & [q Uq]); [dlia|lia|dlia|]. rewrite Uq, Z.div_mul by lia. dlia.
Qed.

(** A buffer within one page translates to memory of the partition, at the
    buffer's offset in the page, whenever the entry was set; a page past the window
    gives [NULL]; the translation always returns. *)
Theorem tce_bd_xlate_inside m os t bd :
  let s := fget lbd_addr bd in let len := fget lbd_len bd in
  Forall (tce_ok m os) (t_tab t) -> records_ok m os -> t_entries t <= Z.of_nat (length (t_tab t)) ->
  0 < len -> s mod PGSIZE + len <= PGSIZE ->
  exists r, tce_bd_xlate t bd = Ok r /\
    (r = 0 \/ s / PGSIZE < t_entries t /\ exists e, t_tab t !! Z.to_nat (s / PGSIZE) = Some e /\
       r = Z.shiftl (fget tce_rpn e) 12 + s mod PGSIZE /\ (e <> 0 -> covered m os r len)).
Proof.
  intros s len Ht Hr Hn Hl Hp. pose proof (fget_range lbd_addr bd ltac:(field_side)) as Hs. simpl f_len in Hs. fold s in Hs.
  destruct (bd_one_page s len Hs Hl Hp) as (E1 & E2 & E3 & E4). unfold tce_bd_xlate. fold s len. rewrite E4, E3, E2, E1.
  replace (s / PGSIZE + 1 - s / PGSIZE) with 1 by lia. change (Z.to_nat 1) with 1%nat. cbn [xlate_loop].
  assert (0 <= s / PGSIZE) as H0 by (apply Z.div_pos; [lia|reflexivity]).
  destruct (Z.leb_spec (t_entries t) (s / PGSIZE)) as [|Hlt]; [exists 0; split; [done|by left]|].
  destruct (aget_is_ok (t_tab t) (s / PGSIZE)) as [e He]; [lia|]. rewrite He. cbn [res_bind].
  destruct (Z.lor _ _ =? 0); [exists 0; split; [done|by left]|]. cbn [res_bind].
  pose proof (aget_inv _ _ _ He) as [_ He']. pose proof (proj1 (Forall_lookup _ _) Ht _ _ He') as Hok.
  pose proof (fget_range tce_rpn e ltac:(field_side)) as Hrpn. simpl f_len in Hrpn.
  assert (PGSIZE = 2 ^ 12) as Hpg by reflexivity.
  assert (0 <= s mod PGSIZE < PGSIZE) as Hm by (apply Z.mod_pos_bound; lia).
  eexists. split; [done|]. right. split; [done|]. exists e. split; [done|].
  assert (shl64 (fget tce_rpn e) LOG_PGSIZE = Z.shiftl (fget tce_rpn e) 12) as Esh.
  { unfold shl64, LOG_PGSIZE. apply u64_small. rewrite Z.shiftl_mul_pow2 by lia. lia. }
  rewrite Esh. assert (0 <= Z.shiftl (fget tce_rpn e) 12 < 2 ^ 52) as Hr52 by (rewrite Z.shiftl_mul_pow2 by lia; lia).
  rewrite sub64_small, add64_small by dlia.
  replace (s - (s - s mod PGSIZE)) with (s mod PGSIZE) by lia. split; [done|].
  intros Hne. destruct Hok as [->|(x & Hx & C1 & C2)]; [done|]. exists x. split; [done|]. lia.
Qed.

(** ** Witnesses *)
Definition demo_tce : tce_data := TceData 4 0 4096 0x9000 [0; 0; 0; 0].

Lemma demo_records_ok os : records_ok demo os.
Proof.
  intros x [[_ ->]|[_ ->]]%demo_records; unfold lci_sane, PGSIZE, LOG_PGSIZE; simpl;
    unfold CHUNK_SIZE, LOG_CHUNKSIZE; (split_and!; try lia); [by exists (2 ^ 17)|by exists (9 * 2 ^ 14)].
Qed.

(** Both partitions put an entry. *)
Definition demo_puts : list (Z * Z * Z) := [(1, 0, 0x5003); (2, 0x2000, 0x7002)].


(** A descriptor for 16 bytes at address 0x2010. *)
Definition demo_bd : Z := fset lbd_len (fset lbd_addr 0 0x2010) 16.

Lemma tce_bd_xlate_inside_witness :
  exists r, tce_bd_xlate demo_tce demo_bd = Ok r /\
    (r = 0 \/ 2 < 4 /\ exists e, t_tab demo_tce !! 2%nat = Some e /\
      r = Z.shiftl (fget tce_rpn e) 12 + 0x10 /\ (e <> 0 -> covered demo 1 r 16)).
Proof.
  apply (tce_bd_xlate_inside demo 1 demo_tce demo_bd); try done; [|apply demo_records_ok].
  repeat constructor; by left.
Defined.

(** ** What goes wrong *)

(** An entry that was never set is accepted and gives physical page 0; a read-only
    entry is refused. *)
Example tce_unset_accepted : tce_bd_xlate demo_tce demo_bd = Ok 0x10.
Proof. reflexivity. Qed.

Example tce_read_only_refused :
  (let! (_, t) := tce_put no_l_to_r demo 1 demo_tce 0x2000 0x5001 in tce_bd_xlate t demo_bd) = Ok 0.
Proof. vm_compute. reflexivity. Qed.

(** A device address beyond 2^43 becomes a negative index and passes the check. *)
Example tce_put_negative : tce_put no_l_to_r demo 1 demo_tce (2 ^ 43) 0x5003 = Fault Out_of_bounds.
Proof. vm_compute. reflexivity. Qed.

(** A buffer over two pages is answered with the first page's address, also when the
    second page is elsewhere. *)
Example tce_pages_apart :
  (let! t := put_all no_l_to_r demo demo_tce [(1, 0x2000, 0x5003); (1, 0x3000, 0x9003)] in
   tce_bd_xlate t (fset lbd_len (fset lbd_addr 0 0x2800) 0x1000)) = Ok (8 * CHUNK_SIZE + 0x5800).
Proof. vm_compute. reflexivity. Qed.
