(* ===== verification/Crq.v ===== *)
(** * Crq: command/response queues

    [hype/crq.c] and the calls on it: two partitions each register a ring of
    16-byte messages in their own memory and send into the other's.  The pair
    shares one lock, held throughout each operation; operations run one after the
    other.  What leaves the component is logged: messages written to physical
    memory, interrupts raised ([Xir.xir_raise]) and memory copied.  Creating a pair
    and passing it on ([crq_acquire], [crq_grant], [crq_rescind]) are not here. *)

From S2P Require Import Prelude Hcall Bitmap PgAlloc Logical Field Tce.

Definition CRQ_FLAG_USED : Z := 1.
Definition CRQ_FLAG_HAS_PARTNER : Z := 2.
Definition CRQ_FLAG_VALID : Z := 4.
Definition CRQ_EVT_CLOSE_HI : Z := 0xFF04000000000000.
Definition CRQ_EVT_CLOSE_LO : Z := 0.
Definition CRQ_TRANS_EVT_MASK : Z := 0xFF00000000000000.
Definition CRQ_CMD_RESP_MASK : Z := 0x8000000000000000.
Definition CRQ_MIN_BUFFER_SIZE : Z := 4096.

(** [struct crq_partner], less the resources and the lock. *)
Record crq_partner := CrqPartner {
  cp_flags : Z;
  cp_num_entries : Z;
  cp_next_entry : Z;
  cp_crqs : Z;
  cp_os : Z;
  cp_interrupt : Z;
  cp_tce_data : tce_data;
  cp_partner : Z
}.

Inductive effect :=
  | E_message (dst addr hi lo : Z)
  | E_raise (irq : Z)
  | E_copy (dst src len : Z).

(** The queues by address, the device of each unit address, and the log. *)
Record crqs := Crqs { partners : gmap Z crq_partner; devices : gmap Z Z; out : list effect }.

Definition get_cp (s : crqs) (p : Z) : res crq_partner := of_option Null_deref (partners s !! p).
Definition put_cp (s : crqs) (p : Z) (c : crq_partner) : crqs := Crqs (<[p := c]> (partners s)) (devices s) (out s).
Definition emit (s : crqs) (l : list effect) : crqs := Crqs (partners s) (devices s) (out s ++ l).

Definition set_flags (c : crq_partner) (f : Z) : crq_partner :=
  CrqPartner f (cp_num_entries c) (cp_next_entry c) (cp_crqs c) (cp_os c) (cp_interrupt c) (cp_tce_data c) (cp_partner c).
Definition set_next (c : crq_partner) (n : Z) : crq_partner :=
  CrqPartner (cp_flags c) (cp_num_entries c) n (cp_crqs c) (cp_os c) (cp_interrupt c) (cp_tce_data c) (cp_partner c).
Definition set_tce (c : crq_partner) (t : tce_data) : crq_partner :=
  CrqPartner (cp_flags c) (cp_num_entries c) (cp_next_entry c) (cp_crqs c) (cp_os c) (cp_interrupt c) t (cp_partner c).

(** [crq_get_crq]: the device of a unit address, 0 for none. *)
Definition crq_get_crq (s : crqs) (liobn : Z) : Z := default 0 (devices s !! liobn).

Definition crq_flags_test (c : crq_partner) (flags : Z) : bool := flags =? Z.land (cp_flags c) flags.
Definition crq_check_unused (c : crq_partner) : bool := 0 =? Z.land (cp_flags c) CRQ_FLAG_USED.
Definition crq_haspartner (c : crq_partner) : bool :=
  crq_flags_test c (Z.lor CRQ_FLAG_USED CRQ_FLAG_HAS_PARTNER).

Definition crq_put_entry_raw_locked (s : crqs) (dst hi lo : Z) : res (Z * crqs) :=
  let! d := get_cp s dst in
  if crq_haspartner d then
    let entry := cp_next_entry d in
    let s := emit s [E_message dst (add64 (cp_crqs d) (mul64 entry 16)) hi lo; E_raise (cp_interrupt d)] in
    let next := u16 (cp_next_entry d + 1) in
    let next := if next =? cp_num_entries d then 0 else next in
    Ok (H_Success, put_cp s dst (set_next d next))
  else Ok (H_Closed, s).

Definition crq_put_entry_locked (s : crqs) (dst hi lo : Z) : res (Z * crqs) :=
  if negb (Z.land hi CRQ_TRANS_EVT_MASK =? CRQ_TRANS_EVT_MASK) && negb (Z.land hi CRQ_CMD_RESP_MASK =? 0)
  then crq_put_entry_raw_locked s dst hi lo
  else Ok (H_Parameter, s).

Definition crq_release_locked (s : crqs) (p : Z) : res (Z * crqs) :=
  let! c := get_cp s p in
  let peer := cp_partner c in
  let! (ret, s) := crq_put_entry_raw_locked s peer CRQ_EVT_CLOSE_HI CRQ_EVT_CLOSE_LO in
  let! d := get_cp s peer in
  let s := put_cp s peer (set_flags d (Z.land (cp_flags d) (not32 CRQ_FLAG_HAS_PARTNER))) in
  let! c := get_cp s p in
  Ok (ret, put_cp s p (set_flags c (Z.land (cp_flags c) (not32 (Z.lor CRQ_FLAG_USED CRQ_FLAG_VALID))))).

Definition crq_release_internal (s : crqs) (p : Z) : res (Z * crqs) := crq_release_locked s p.

(** [crq_addr_lookup]: the address as a pointer, 0 for [NULL]. *)
Definition crq_addr_lookup (c : crq_partner) (addr size : Z) : res Z :=
  tce_bd_xlate (cp_tce_data c) (fset lbd_addr (fset lbd_len 0 size) addr).

Definition crq_setup_osdata (s : crqs) (p buffer buffersize : Z) : res crqs :=
  let! c := get_cp s p in
  let s := put_cp s p (set_flags c (Z.lor CRQ_FLAG_USED CRQ_FLAG_HAS_PARTNER)) in
  let! d := get_cp s (cp_partner c) in
  let s := put_cp s (cp_partner c) (set_flags d (Z.lor (cp_flags d) CRQ_FLAG_HAS_PARTNER)) in
  let! c := get_cp s p in
  let! q := crq_addr_lookup c buffer buffersize in
  cassert (negb (t_tce (cp_tce_data c) =? 0))
    (Ok (put_cp s p (CrqPartner (cp_flags c) (u16 (buffersize / 16)) 0 q (cp_os c) (cp_interrupt c)
                                (cp_tce_data c) (cp_partner c)))).

(** ** The calls *)
Definition crq_tce_put l_to_r (m : memory) (s : crqs) (os liobn ioba ltce : Z) : res (Z * crqs) :=
  let p := crq_get_crq s liobn in
  if p =? 0 then Ok (H_Parameter, s)
  else
    let! c := get_cp s p in
    if negb (os =? cp_os c) then Ok (H_Parameter, s)
    else
      cassert (negb (t_tce (cp_tce_data c) =? 0))
        (let! (r, t) := tce_put l_to_r m os (cp_tce_data c) ioba ltce in
         Ok (r, put_cp s p (set_tce c t))).

Definition crq_try_copy (s : crqs) (os sliobn sioba dliobn dioba len : Z) : res (Z * crqs) :=
  let only_src := Z.land dliobn (2 ^ 32 - 1) =? 2 ^ 32 - 1 in
  let known := crq_get_crq s (if only_src then sliobn else dliobn) in
  if known =? 0 then Ok (H_Parameter, s)
  else
    let! k := get_cp s known in
    let! other := get_cp s (cp_partner k) in
    let src := if only_src then k else other in
    let dst := if only_src then other else k in
    if negb (os =? cp_os src) && negb (os =? cp_os dst) then Ok (H_Parameter, s)
    else
      let! d_pa := crq_addr_lookup dst dioba len in
      if d_pa =? 0 then Ok (H_Parameter, s)
      else
        let! s_pa := crq_addr_lookup src sioba len in
        if s_pa =? 0 then Ok (H_Parameter, s)
        else Ok (H_Success, emit s [E_copy d_pa s_pa len]).

Definition crq_free_crq (s : crqs) (os uaddr : Z) : res (Z * crqs) :=
  let p := crq_get_crq s uaddr in
  if p =? 0 then Ok (H_Parameter, s)
  else
    let! c := get_cp s p in
    if negb (os =? cp_os c) then Ok (H_Parameter, s) else crq_release_internal s p.

Definition crq_reg (s : crqs) (os uaddr queue len : Z) : res (Z * crqs) :=
  if (len <? CRQ_MIN_BUFFER_SIZE) || negb (Z.land len (CRQ_MIN_BUFFER_SIZE - 1) =? 0) ||
     negb (queue =? ALIGN_DOWN queue len) then Ok (H_Parameter, s)
  else
    let p := crq_get_crq s uaddr in
    if p =? 0 then Ok (H_Parameter, s)
    else
      let! c := get_cp s p in
      if negb (os =? cp_os c) then Ok (H_Parameter, s)
      else if crq_check_unused c then
        let! s := crq_setup_osdata s p queue len in
        let! d := get_cp s (cp_partner c) in
        Ok (if crq_check_unused d then H_Closed else H_Success, s)
      else Ok (H_Resource, s).

Definition crq_send (s : crqs) (os uaddr hi lo : Z) : res (Z * crqs) :=
  let p := crq_get_crq s uaddr in
  if p =? 0 then Ok (H_Parameter, s)
  else
    let! c := get_cp s p in
    if negb (os =? cp_os c) then Ok (H_Parameter, s)
    else
      let! d := get_cp s (cp_partner c) in
      if crq_haspartner d then crq_put_entry_locked s (cp_partner c) hi lo else Ok (H_Parameter, s).

Definition crq_release (s : crqs) (os liobn : Z) : res (Z * crqs) :=
  let p := crq_get_crq s liobn in
  if p =? 0 then Ok (H_Parameter, s)
  else
    let! c := get_cp s p in
    if negb (cp_os c =? os) then Ok (H_Parameter, s)
    else
      let! (r, s) := crq_release_internal s p in
      Ok (if r =? 0 then H_Busy else H_Success, s).

Definition crq_accept (s : crqs) (os liobn : Z) : res (Z * option Z) :=
  let p := crq_get_crq s liobn in
  if p =? 0 then Ok (H_Parameter, None)
  else let! c := get_cp s p in
       Ok (if os =? cp_os c then (H_Success, Some liobn) else (H_Parameter, None)).

Definition crq_invalidate (s : crqs) (os liobn : Z) : res (Z * crqs) :=
  let p := crq_get_crq s liobn in
  if p =? 0 then Ok (H_Parameter, s)
  else
    let! c := get_cp s p in
    if os =? cp_os c
    then Ok (H_Success, put_cp s p (set_flags c (Z.land (cp_flags c) (not32 CRQ_FLAG_VALID))))
    else Ok (H_Success, s).

Definition crq_return (s : crqs) (os liobn : Z) : Z :=
  if crq_get_crq s liobn =? 0 then H_Parameter else H_Success.

(** [h_copy_rdma] *)
Definition h_copy_rdma (s : crqs) (os length sliobn sioba dliobn dioba : Z) : res (Z * crqs) :=
  if 0 =? length then Ok (H_Parameter, s) else crq_try_copy s os (u32 sliobn) sioba (u32 dliobn) dioba length.

(** ** Rings *)

(** A queue in use has a ring, and the next slot is inside it. *)
Definition ring_ok (c : crq_partner) : Prop :=
  crq_check_unused c = false -> 0 < cp_num_entries c < 2 ^ 16 /\ 0 <= cp_next_entry c < cp_num_entries c.

Definition crqs_ok (s : crqs) : Prop :=
  forall p c, partners s !! p = Some c -> ring_ok c /\ is_Some (partners s !! cp_partner c).

(** A message goes into the ring of the queue it is for. *)
Definition in_ring (s : crqs) (e : effect) : Prop :=
  match e with
  | E_message dst addr _ _ => exists c k, partners s !! dst = Some c /\ crq_haspartner c = true /\
      0 <= k < cp_num_entries c /\ addr = add64 (cp_crqs c) (16 * k)
  | _ => True
  end.

Lemma haspartner_used c : crq_haspartner c = true -> crq_check_unused c = false.
Proof.
  unfold crq_haspartner, crq_flags_test, crq_check_unused. intros H. apply Z.eqb_eq in H.
  apply Z.eqb_neq. intros H0. apply (f_equal (fun x => Z.testbit x 0)) in H, H0.
  rewrite Z.land_spec in H, H0. simpl in H, H0. rewrite <- H0 in H. done.
Qed.

Lemma put_cp_ok s p c c' :
  crqs_ok s -> partners s !! p = Some c -> ring_ok c' -> cp_partner c' = cp_partner c -> crqs_ok (put_cp s p c').
Proof.
  intros Hs Hc Hr Hp q d Hq. simpl in Hq |- *. rewrite <- not_eq_None_Some.
  assert (forall r, partners s !! r <> None -> <[p := c']> (partners s) !! r <> None) as Hex.
  { intros r Hr'. destruct (decide (r = p)) as [->|]; [by rewrite lookup_insert_eq|by rewrite lookup_insert_ne]. }
  apply lookup_insert_Some in Hq as [[<- <-]|[_ Hq]].
  - split; [done|]. apply Hex. rewrite Hp. destruct (Hs p c Hc) as [_ [? ->]]. done.
  - destruct (Hs q d Hq) as [Hd [? He]]. split; [done|]. apply Hex. by rewrite He.
Qed.

Lemma emit_ok s l : crqs_ok s -> crqs_ok (emit s l).
Proof. done. Qed.

(** What an operation may do: keep the rings, and write inside them. *)
Definition step_ok (s : crqs) (s' : crqs) : Prop :=
  crqs_ok s' /\ devices s' = devices s /\ exists l, out s' = out s ++ l /\ Forall (in_ring s) l.

Lemma step_ok_refl s : crqs_ok s -> step_ok s s.
Proof. intros H. split; [done|]. split; [done|]. exists []. by rewrite app_nil_r. Qed.

Lemma put_raw_step s dst hi lo r s' :
  crqs_ok s -> crq_put_entry_raw_locked s dst hi lo = Ok (r, s') ->
  step_ok s s' /\ (forall p c', partners s' !! p = Some c' -> exists c, partners s !! p = Some c /\
    cp_partner c' = cp_partner c /\ cp_flags c' = cp_flags c).
Proof.
  intros Hs H. unfold crq_put_entry_raw_locked, get_cp in H.
  destruct (partners s !! dst) as [d|] eqn:Hd; [|done]. cbn [of_option res_bind] in H.
  destruct (crq_haspartner d) eqn:Hh.
  2:{ injection H as <- <-. split; [by apply step_ok_refl|]. intros p c' Hc. by exists c'. }
  injection H as <- <-. destruct (Hs dst d Hd) as [Hr _]. destruct (Hr (haspartner_used d Hh)) as [Hn Hx].
  assert (u16 (cp_next_entry d + 1) = cp_next_entry d + 1) as Eu by (apply Z.mod_small; lia). rewrite Eu.
  split.
  - split.
    + apply (put_cp_ok _ dst d); [by apply emit_ok|done| |done]. intros _. simpl. split; [lia|].
      destruct (Z.eqb_spec (cp_next_entry d + 1) (cp_num_entries d)); lia.
    + split; [done|]. eexists. split; [reflexivity|]. constructor; [|by repeat constructor].
      exists d, (cp_next_entry d). split_and!; try done; try lia. f_equal. rewrite mul64_small by lia. lia.
  - intros p c' Hp. simpl in Hp. apply lookup_insert_Some in Hp as [[<- <-]|[_ Hp]]; [by exists d|by exists c'].
Qed.

(** Clearing flags keeps a ring well-formed. *)
Lemma ring_ok_flags c f :
  ring_ok c -> (Z.testbit f 0 = true -> Z.testbit (cp_flags c) 0 = true) -> ring_ok (set_flags c f).
Proof.
  intros Hr Hf Hu. apply Hr. unfold crq_check_unused in *. cbn [cp_flags set_flags] in Hu. apply Z.eqb_neq in Hu. apply Z.eqb_neq.
  change CRQ_FLAG_USED with (2 ^ 0) in *. intros H0. symmetry in H0. apply Hu.
  assert (truth (Z.land (cp_flags c) (2 ^ 0)) = false) as H1 by (by apply truth_false).
  rewrite truth_land_pow2 in H1 by lia. symmetry. apply truth_false. rewrite truth_land_pow2 by lia.
  destruct (Z.testbit f 0); [|done]. by rewrite Hf in H1.
Qed.

Lemma set_flags_step s p c f :
  crqs_ok s -> partners s !! p = Some c -> (Z.testbit f 0 = true -> Z.testbit (cp_flags c) 0 = true) ->
  crqs_ok (put_cp s p (set_flags c f)).
Proof.
  intros Hs Hp Hf. apply (put_cp_ok s p c); [done|done| |done]. apply ring_ok_flags; [|done]. by apply (Hs p).
Qed.

Lemma release_step s p r s' :
  crqs_ok s -> crq_release_locked s p = Ok (r, s') -> step_ok s s'.
Proof.
  intros Hs H. unfold crq_release_locked, get_cp in H.
  destruct (partners s !! p) as [c|] eqn:Hp; [|done]. cbn [of_option res_bind] in H.
  apply res_bind_ok in H as ([ret s1] & H1 & H). destruct (put_raw_step s _ _ _ _ _ Hs H1) as [(K1 & D1 & l & O1 & F1) _].
  apply res_bind_ok in H as (d & Hd & H). destruct (partners s1 !! cp_partner c) as [d'|] eqn:Ed; [|done]. injection Hd as ->.
  apply res_bind_ok in H as (c2 & Hc2 & [= <- <-]). destruct (partners (put_cp _ _ _) !! p) as [c2'|] eqn:Ec2; [|done].
  injection Hc2 as ->.
  assert (crqs_ok (put_cp s1 (cp_partner c) (set_flags d (Z.land (cp_flags d) (not32 CRQ_FLAG_HAS_PARTNER))))) as K2.
  { apply set_flags_step; [done|done|]. rewrite Z.land_spec. intros H. by apply andb_prop in H as [? _]. }
  split.
  - apply set_flags_step; [exact K2|exact Ec2|]. rewrite Z.land_spec. intros H. by apply andb_prop in H as [? _].
  - split; [done|]. by exists l.
Qed.

Lemma reg_step s os uaddr queue len r s' :
  crqs_ok s -> 0 <= len < 2 ^ 20 -> crq_reg s os uaddr queue len = Ok (r, s') -> step_ok s s'.
Proof.
  intros Hs Hlen H. unfold crq_reg in H.
  destruct (Z.ltb_spec len CRQ_MIN_BUFFER_SIZE) as [|Hmin]; [injection H as <- <-; by apply step_ok_refl|].
  cbn [orb] in H. destruct (_ || _); [injection H as <- <-; by apply step_ok_refl|].
  destruct (_ =? 0); [injection H as <- <-; by apply step_ok_refl|].
  apply res_bind_ok in H as (c & Hc & H). destruct (negb _); [injection H as <- <-; by apply step_ok_refl|].
  destruct (crq_check_unused c); [|injection H as <- <-; by apply step_ok_refl].
  set (p := crq_get_crq s uaddr) in *. unfold get_cp in Hc. destruct (partners s !! p) as [c0|] eqn:Hp; [|done]. injection Hc as ->.
  apply res_bind_ok in H as (s1 & H1 & H). apply res_bind_ok in H as (d & _ & [= <- <-]).
  unfold crq_setup_osdata, get_cp in H1. rewrite Hp in H1. cbn [of_option res_bind] in H1.
  set (c1 := set_flags c (Z.lor CRQ_FLAG_USED CRQ_FLAG_HAS_PARTNER)) in *.
  apply res_bind_ok in H1 as (d1 & Hd1 & H1). destruct (partners (put_cp s p c1) !! cp_partner c) as [d1'|] eqn:Ed1; [|done].
  injection Hd1 as ->. apply res_bind_ok in H1 as (c2 & Hc2 & H1).
  set (s2 := put_cp (put_cp s p c1) (cp_partner c) (set_flags d1 (Z.lor (cp_flags d1) CRQ_FLAG_HAS_PARTNER))) in *.
  destruct (partners s2 !! p) as [c2'|] eqn:Ec2; [|done]. injection Hc2 as ->.
  apply res_bind_ok in H1 as (q & _ & H1). destruct (t_tce (cp_tce_data c2) =? 0); [done|]. cbn [cassert negb] in H1.
  injection H1 as <-.
  assert (0 < u16 (len / 16) < 2 ^ 16) as Hnum.
  { unfold u16. unfold CRQ_MIN_BUFFER_SIZE in Hmin. rewrite Z.mod_small by dlia. dlia. }
  assert (cp_partner c2 = cp_partner c) as Hpc.
  { unfold s2 in Ec2. simpl in Ec2. destruct (decide (p = cp_partner c)) as [Epc|Hne].
    - rewrite <- Epc, lookup_insert_eq in Ec2. injection Ec2 as <-. simpl. rewrite <- Epc in Ed1. simpl in Ed1.
      rewrite lookup_insert_eq in Ed1. by injection Ed1 as <-.
    - rewrite lookup_insert_ne, lookup_insert_eq in Ec2 by done. by injection Ec2 as <-. }
  split; [|split; [done|exists []; by rewrite app_nil_r]].
  intros b x Hb. simpl in Hb |- *.
  assert (forall k, is_Some (partners s !! k) -> is_Some (<[p := CrqPartner (cp_flags c2) (u16 (len / 16)) 0 q (cp_os c2)
    (cp_interrupt c2) (cp_tce_data c2) (cp_partner c2)]> (partners s2) !! k)) as Hex.
  { intros k Hk. apply lookup_insert_is_Some'. right. unfold s2. simpl. apply lookup_insert_is_Some'. right.
    apply lookup_insert_is_Some'. by right. }
  apply lookup_insert_Some in Hb as [[<- <-]|[Hbp Hb]].
  { split; [intros _; simpl; lia|]. apply Hex. simpl. rewrite Hpc. by apply (Hs p). }
  unfold s2 in Hb. simpl in Hb. apply lookup_insert_Some in Hb as [[<- <-]|[_ Hb]].
  - simpl in Ed1. rewrite (lookup_insert_ne _ p) in Ed1 by done.
    destruct (Hs _ _ Ed1) as [Hr He]. split; [|by apply Hex]. apply ring_ok_flags; [done|].
    rewrite Z.lor_spec. intros Hbit. apply orb_prop in Hbit as [|Hbit]; [done|]. discriminate Hbit.
  - rewrite lookup_insert_ne in Hb by done. destruct (Hs _ _ Hb) as [Hr He]. split; [done|]. by apply Hex.
Qed.

(** ** Properties *)
Inductive crq_op :=
  | Op_reg (os uaddr queue len : Z)
  | Op_send (os uaddr hi lo : Z)
  | Op_free (os uaddr : Z)
  | Op_release (os liobn : Z)
  | Op_invalidate (os liobn : Z)
  | Op_tce_put (os liobn ioba ltce : Z)
  | Op_copy (os len sliobn sioba dliobn dioba : Z).

Section Trace.
Context (l_to_r : Z -> logical_chunk_info -> Z -> Z -> res Z) (m : memory).

Definition crq_exec (s : crqs) (o : crq_op) : res (Z * crqs) :=
  match o with
  | Op_reg os uaddr queue len => crq_reg s os uaddr queue len
  | Op_send os uaddr hi lo => crq_send s os uaddr hi lo
  | Op_free os uaddr => crq_free_crq s os uaddr
  | Op_release os liobn => crq_release s os liobn
  | Op_invalidate os liobn => crq_invalidate s os liobn
  | Op_tce_put os liobn ioba ltce => crq_tce_put l_to_r m s os liobn ioba ltce
  | Op_copy os len sliobn sioba dliobn dioba => h_copy_rdma s os len sliobn sioba dliobn dioba
  end.

(** A ring of less than 1 MB: its number of entries fits 16 bits. *)
Definition small_op (o : crq_op) : Prop :=
  match o with Op_reg _ _ _ len => 0 <= len < 2 ^ 20 | _ => True end.

Lemma crq_exec_step s o r s' : crqs_ok s -> small_op o -> crq_exec s o = Ok (r, s') -> step_ok s s'.
Proof.
  intros Hs Ho H. destruct o; simpl in H.
  - by eapply reg_step.
  - unfold crq_send in H. destruct (_ =? 0); [injection H as <- <-; by apply step_ok_refl|].
    apply res_bind_ok in H as (c & _ & H). destruct (negb _); [injection H as <- <-; by apply step_ok_refl|].
    apply res_bind_ok in H as (d & _ & H). destruct (crq_haspartner d); [|injection H as <- <-; by apply step_ok_refl].
    unfold crq_put_entry_locked in H. destruct (_ && _); [|injection H as <- <-; by apply step_ok_refl].
    by destruct (put_raw_step s _ _ _ _ _ Hs H).
  - unfold crq_free_crq in H. destruct (_ =? 0); [injection H as <- <-; by apply step_ok_refl|].
    apply res_bind_ok in H as (c & _ & H). destruct (negb _); [injection H as <- <-; by apply step_ok_refl|].
    by eapply release_step.
  - unfold crq_release in H. destruct (_ =? 0); [injection H as <- <-; by apply step_ok_refl|].
    apply res_bind_ok in H as (c & _ & H). destruct (negb _); [injection H as <- <-; by apply step_ok_refl|].
    apply res_bind_ok in H as ([x s1] & H1 & [= <- <-]). by eapply release_step.
  - unfold crq_invalidate, get_cp in H. destruct (_ =? 0); [injection H as <- <-; by apply step_ok_refl|].
    destruct (partners s !! _) as [c|] eqn:Hp; [|done]. cbn [of_option res_bind] in H.
    destruct (_ =? _); injection H as <- <-; [|by apply step_ok_refl].
    split; [|split; [done|exists []; by rewrite app_nil_r]]. apply set_flags_step; [done|done|].
    rewrite Z.land_spec. intros Hb. by apply andb_prop in Hb as [? _].
  - unfold crq_tce_put, get_cp in H. destruct (_ =? 0); [injection H as <- <-; by apply step_ok_refl|].
    destruct (partners s !! _) as [c|] eqn:Hp; [|done]. cbn [of_option res_bind] in H.
    destruct (negb (_ =? cp_os c)); [injection H as <- <-; by apply step_ok_refl|]. destruct (negb _); [|done].
    cbn [cassert] in H. apply res_bind_ok in H as ([x t] & _ & [= <- <-]).
    split; [|split; [done|exists []; by rewrite app_nil_r]]. apply (put_cp_ok s _ c); [done|done| |done].
    by destruct (Hs _ _ Hp).
  - unfold h_copy_rdma in H. destruct (0 =? len); [injection H as <- <-; by apply step_ok_refl|].
    unfold crq_try_copy in H. set (only_src := _ =? 2 ^ 32 - 1) in H.
    destruct (_ =? 0); [injection H as <- <-; by apply step_ok_refl|].
    apply res_bind_ok in H as (k & _ & H). apply res_bind_ok in H as (o' & _ & H).
    destruct (_ && _); [injection H as <- <-; by apply step_ok_refl|].
    apply res_bind_ok in H as (d_pa & _ & H). destruct (d_pa =? 0); [injection H as <- <-; by apply step_ok_refl|].
    apply res_bind_ok in H as (s_pa & _ & H). destruct (s_pa =? 0); injection H as <- <-; [by apply step_ok_refl|].
    split; [by apply emit_ok|]. split; [done|]. eexists. split; [reflexivity|]. by repeat constructor.
Qed.

(** Every step of the run keeps its messages inside the rings. *)
Fixpoint writes_ok (s : crqs) (l : list crq_op) : Prop :=
  match l with
  | [] => True
  | o :: l =>
      match crq_exec s o with
      | Ok (_, s') => (exists new, out s' = out s ++ new /\ Forall (in_ring s) new) /\ writes_ok s' l
      | Fault _ => True
      end
  end.

Lemma writes_ok_all l : forall s, crqs_ok s -> Forall small_op l -> writes_ok s l.
Proof.
  induction l as [|o l IH]; intros s Hs Hf; simpl; [done|]. inversion_clear Hf as [|? ? Ho Hl].
  destruct (crq_exec s o) as [[r s']|] eqn:E; [|done]. destruct (crq_exec_step s o r s' Hs Ho E) as (Hs' & _ & Hw).
  split; [done|]. by apply IH.
Qed.
End Trace.


Fixpoint put_all (s : crqs) (dst : Z) (l : list (Z * Z)) : res crqs :=
  match l with
  | [] => Ok s
  | (hi, lo) :: l => let! (_, s) := crq_put_entry_raw_locked s dst hi lo in put_all s dst l
  end.

(** Message [i] of a run that starts at slot [next]. *)
Fixpoint ring_effects (dst : Z) (c : crq_partner) (next : Z) (l : list (Z * Z)) : list effect :=
  match l with
  | [] => []
  | (hi, lo) :: l =>
      E_message dst (add64 (cp_crqs c) (16 * next)) hi lo :: E_raise (cp_interrupt c) ::
      ring_effects dst c ((next + 1) mod cp_num_entries c) l
  end.

Lemma ring_effects_next dst c a l : forall n, ring_effects dst (set_next c a) n l = ring_effects dst c n l.
Proof. induction l as [|[hi lo] l IH]; intros n; simpl; [done|]. by rewrite IH. Qed.

(** Messages to a connected queue fill its ring slot after slot, wrap around at
    the end, and raise one interrupt each; the next free slot advances by the number
    of messages modulo the size of the ring. *)
Theorem crq_ring_order l : forall s dst c,
  partners s !! dst = Some c -> crq_haspartner c = true -> ring_ok c ->
  exists s', put_all s dst l = Ok s' /\ out s' = out s ++ ring_effects dst c (cp_next_entry c) l /\
    partners s' !! dst = Some (set_next c ((cp_next_entry c + Z.of_nat (length l)) mod cp_num_entries c)).
Proof.
  induction l as [|[hi lo] l IH]; intros s dst c Hc Hh Hr; destruct (Hr (haspartner_used c Hh)) as [Hn Hx]; simpl.
  - exists s. rewrite app_nil_r, Z.add_0_r, Z.mod_small by lia. split_and!; try done. rewrite Hc. by destruct c.
  - unfold crq_put_entry_raw_locked, get_cp. rewrite Hc. cbn [of_option res_bind]. rewrite Hh. cbn [res_bind].
    assert (u16 (cp_next_entry c + 1) = cp_next_entry c + 1) as -> by (apply Z.mod_small; lia).
    assert ((if cp_next_entry c + 1 =? cp_num_entries c then 0 else cp_next_entry c + 1) =
      (cp_next_entry c + 1) mod cp_num_entries c) as ->.
    { destruct (Z.eqb_spec (cp_next_entry c + 1) (cp_num_entries c)) as [->|].
      - by rewrite Z.mod_same by lia.
      - by rewrite Z.mod_small by lia. }
    set (n1 := (cp_next_entry c + 1) mod cp_num_entries c).
    assert (0 <= n1 < cp_num_entries c) by (apply Z.mod_pos_bound; lia).
    match goal with |- exists s', put_all ?s1 _ _ = _ /\ _ => destruct (IH s1 dst (set_next c n1)) as (s' & E & Ho & Hp) end.
    + simpl. apply lookup_insert_eq.
    + done.
    + intros _. simpl. lia.
    + exists s'. split; [done|]. split.
      * rewrite Ho. simpl. rewrite mul64_small by lia. rewrite <- app_assoc. simpl. do 3 f_equal; [f_equal; lia|].
        apply ring_effects_next.
      * rewrite Hp. f_equal. unfold set_next. simpl. f_equal. unfold n1. rewrite Z.add_mod_idemp_l by lia. f_equal. lia.
Qed.

(** A partition's message is delivered exactly when the sender owns the queue,
    the other side is connected, and the message is a command or response; it can
    never pass for one of the hypervisor's own events, such as a close. *)
Theorem crq_send_filter s os uaddr hi lo r s' :
  crq_send s os uaddr hi lo = Ok (r, s') -> s' <> s ->
  exists c d, partners s !! crq_get_crq s uaddr = Some c /\ cp_os c = os /\
    partners s !! cp_partner c = Some d /\ crq_haspartner d = true /\ r = H_Success /\
    Z.testbit hi 63 = true /\ Z.land hi CRQ_TRANS_EVT_MASK <> CRQ_TRANS_EVT_MASK /\
    out s' = out s ++ [E_message (cp_partner c) (add64 (cp_crqs d) (mul64 (cp_next_entry d) 16)) hi lo;
                       E_raise (cp_interrupt d)].
Proof.
  intros H Hne. unfold crq_send, get_cp in H. destruct (_ =? 0); [by injection H as _ <-|].
  destruct (partners s !! crq_get_crq s uaddr) as [c|] eqn:Hc; [|done]. cbn [of_option res_bind] in H.
  destruct (Z.eqb_spec os (cp_os c)) as [Ho|]; [|by injection H as _ <-]. cbn [negb] in H.
  destruct (partners s !! cp_partner c) as [d|] eqn:Hd; [|done]. cbn [of_option res_bind] in H.
  destruct (crq_haspartner d) eqn:Hh; [|by injection H as _ <-]. unfold crq_put_entry_locked in H.
  destruct (Z.eqb_spec (Z.land hi CRQ_TRANS_EVT_MASK) CRQ_TRANS_EVT_MASK) as [|Ht]; [by injection H as _ <-|].
  destruct (Z.eqb_spec (Z.land hi CRQ_CMD_RESP_MASK) 0) as [|Hm]; [by injection H as _ <-|]. cbn [negb andb] in H.
  unfold crq_put_entry_raw_locked, get_cp in H. rewrite Hd in H. cbn [of_option res_bind] in H. rewrite Hh in H.
  injection H as <- <-. exists c, d. split_and!; try done.
  apply truth_true in Hm. change CRQ_CMD_RESP_MASK with (2 ^ 63) in Hm. by rewrite truth_land_pow2 in Hm by lia.
Qed.

(** ** Witnesses *)

(** Queue 10 of partition 1 (unit address 0x1001) and queue 20 of partition 2 (unit
    address 0x1002); each has a window of 4 pages with the first page set. *)
Definition demo_pair : crqs :=
  let t r := TceData 4 0 4096 0x9000 [fset tce_rpn 3 r; 0; 0; 0] in
  Crqs (list_to_map [(10, CrqPartner CRQ_FLAG_VALID 0 0 0 1 0x1001 (t 0x100) 20);
                     (20, CrqPartner CRQ_FLAG_VALID 0 0 0 2 0x1002 (t 0x200) 10)])
       (list_to_map [(0x1001, 10); (0x1002, 20)]) [].

Lemma demo_pair_ok : crqs_ok demo_pair.
Proof.
  intros p c Hp. unfold demo_pair in Hp. cbn [partners list_to_map foldr uncurry fst snd fmap] in Hp.
  apply lookup_insert_Some in Hp as [[<- <-]|[_ Hp]].
  { split; [by intros Hu; discriminate Hu|]. by eexists. }
  apply lookup_insert_Some in Hp as [[<- <-]|[_ Hp]].
  { split; [by intros Hu; discriminate Hu|]. by eexists. }
  by rewrite lookup_empty in Hp.
Qed.

(** Both sides register a page, then partition 1 sends. *)
Definition demo_ops : list crq_op :=
  [Op_reg 1 0x1001 0 4096; Op_reg 2 0x1002 0 4096; Op_send 1 0x1001 0x8000000000000000 7; Op_free 2 0x1002].


(** What that run writes: the message into slot 0 of partition 2's ring, the close
    into slot 0 of partition 1's. *)
Fixpoint crq_run (s : crqs) (l : list crq_op) : res crqs :=
  match l with
  | [] => Ok s
  | o :: l => let! (_, s) := crq_exec no_l_to_r demo s o in crq_run s l
  end.

Example demo_ops_out : (let! s := crq_run demo_pair demo_ops in Ok (out s)) =
  Ok [E_message 20 0x200000 0x8000000000000000 7; E_raise 0x1002;
      E_message 10 0x100000 CRQ_EVT_CLOSE_HI 0; E_raise 0x1001].
Proof. vm_compute. reflexivity. Qed.

(** A ring of three slots with one message in it. *)
Definition demo_queue : crq_partner := CrqPartner 3 3 1 0x5000 2 0x1002 demo_tce 10.
Definition demo_sys : crqs :=
  Crqs (list_to_map [(10, CrqPartner 3 3 0 0x6000 1 0x1001 demo_tce 20); (20, demo_queue)])
       (list_to_map [(0x1001, 10); (0x1002, 20)]) [].

Lemma crq_ring_order_witness :
  exists s', put_all demo_sys 20 [(1, 2); (3, 4); (5, 6)] = Ok s' /\
    out s' = [E_message 20 0x5010 1 2; E_raise 0x1002; E_message 20 0x5020 3 4; E_raise 0x1002;
              E_message 20 0x5000 5 6; E_raise 0x1002] /\
    partners s' !! 20 = Some (set_next demo_queue 1).
Proof.
  apply (crq_ring_order [(1, 2); (3, 4); (5, 6)] demo_sys 20 demo_queue); try reflexivity.
  intros _. simpl. lia.
Defined.

Lemma crq_send_filter_witness :
  exists s', crq_send demo_sys 1 0x1001 0x8000000000000005 9 = Ok (H_Success, s') /\
    exists c d, partners demo_sys !! crq_get_crq demo_sys 0x1001 = Some c /\ cp_os c = 1 /\
      partners demo_sys !! cp_partner c = Some d /\ crq_haspartner d = true /\ H_Success = H_Success /\
      Z.testbit 0x8000000000000005 63 = true /\ Z.land 0x8000000000000005 CRQ_TRANS_EVT_MASK <> CRQ_TRANS_EVT_MASK /\
      out s' = out demo_sys ++ [E_message (cp_partner c) (add64 (cp_crqs d) (mul64 (cp_next_entry d) 16)) 0x8000000000000005 9;
                                E_raise (cp_interrupt d)].
Proof.
  eexists. split; [vm_compute; reflexivity|].
  apply (crq_send_filter demo_sys 1 0x1001 0x8000000000000005 9 H_Success); [vm_compute; reflexivity|].
  intros H. apply (f_equal out) in H. vm_compute in H. discriminate H.
Defined.

(** ** What goes wrong *)

(** A release that told the peer reports [H_Busy]; one whose peer is not connected
    reports success. *)
Example crq_release_inverted :
  (let! (r, _) := crq_release demo_sys 1 0x1001 in Ok r) = Ok H_Busy /\
  (let! (r, _) := crq_release demo_pair 1 0x1001 in Ok r) = Ok H_Success.
Proof. vm_compute. done. Qed.

(** A queue whose address has no translation is registered all the same, at [NULL]. *)
Example crq_reg_null :
  (let! (r, s) := crq_reg demo_pair 1 0x1001 0x10000 4096 in
   let! c := get_cp s 10 in Ok (r, cp_crqs c, cp_num_entries c)) = Ok (H_Closed, 0, 256).
Proof. vm_compute. done. Qed.

(** The descriptor's length has 24 bits: a copy of 16 MB is checked as one of no
    bytes, and a ring of 1 MB has no entries. *)
Example copy_length_lost :
  (let! (r, s) := h_copy_rdma demo_pair 1 (2 ^ 24) 0x1001 0 0x1002 0 in Ok (r, out s)) =
    Ok (H_Success, [E_copy 0x200000 0x100000 (2 ^ 24)]).
Proof. vm_compute. done. Qed.

Example ring_size_lost :
  (let! (r, s) := crq_reg demo_pair 1 0x1001 0 (2 ^ 20) in
   let! c := get_cp s 10 in Ok (cp_num_entries c)) = Ok 0.
Proof. vm_compute. done. Qed.
