(* ===== verification/Imemcpy.v ===== *)
(** * Imemcpy: copying to and from physical memory

    [hype/imemcpy.c]: the hypervisor reaches all of physical memory directly, so these
    are [memcpy] and [memset] on bytes.  [copy_in] gives the bytes read, [copy_out]
    takes the bytes to write; instruction caches do not appear.  Words in memory are
    big-endian. *)

From S2P Require Import Prelude Bitmap PgAlloc.

(** Physical memory, by byte. *)
Definition pmem : Type := Z -> Z.

Definition copy_in (m : pmem) (src n : Z) : list Z :=
  (fun i => m (src + Z.of_nat i)) <$> seq 0 (Z.to_nat n).

Definition copy_out (m : pmem) (dest : Z) (bs : list Z) : pmem :=
  fun a => if (dest <=? a) && (a <? dest + Z.of_nat (length bs)) then default 0 (bs !! Z.to_nat (a - dest)) else m a.

Definition zero_mem (m : pmem) (dest n : Z) : pmem := memset m dest 0 n.

(** The ranges of [memcpy] do not overlap; where they would, it reads all it copies
    before it writes. *)
Definition copy_mem (m : pmem) (dest src n : Z) : pmem := copy_out m dest (copy_in m src n).

(** ** Words *)
Definition be_val (bs : list Z) : Z := foldl (fun v b => v * 256 + b) 0 bs.

Fixpoint be_bytes (n : nat) (v : Z) : list Z :=
  match n with
  | O => []
  | S n => be_bytes n (v / 256) ++ [v mod 256]
  end.

Definition load64 (m : pmem) (a : Z) : Z := be_val (copy_in m a 8).
Definition store64 (m : pmem) (a v : Z) : pmem := copy_out m a (be_bytes 8 v).

Definition bytes_ok (m : pmem) : Prop := forall a, 0 <= m a < 256.

Lemma length_copy_in m src n : length (copy_in m src n) = Z.to_nat n.
Proof. unfold copy_in. by rewrite length_fmap, length_seq. Qed.

Lemma lookup_copy_in m src n i : (i < Z.to_nat n)%nat -> copy_in m src n !! i = Some (m (src + Z.of_nat i)).
Proof. intros Hi. unfold copy_in. rewrite list_lookup_fmap, lookup_seq_lt by done. done. Qed.

Lemma copy_in_ext m m' src n :
  (forall a, src <= a < src + n -> m' a = m a) -> copy_in m' src n = copy_in m src n.
Proof.
  intros H. unfold copy_in. apply list_eq. intros i. rewrite !list_lookup_fmap.
  destruct (decide (i < Z.to_nat n)%nat).
  - rewrite lookup_seq_lt by done. simpl. f_equal. apply H. lia.
  - by rewrite !lookup_seq_ge by lia.
Qed.

Lemma copy_out_outside m dest bs a :
  ~ (dest <= a < dest + Z.of_nat (length bs)) -> copy_out m dest bs a = m a.
Proof.
  intros H. unfold copy_out. destruct (Z.leb_spec dest a), (Z.ltb_spec a (dest + Z.of_nat (length bs))); simpl; done || lia.
Qed.

Lemma copy_out_inside m dest bs i x : bs !! i = Some x -> copy_out m dest bs (dest + Z.of_nat i) = x.
Proof.
  intros H. apply lookup_lt_Some in H as Hi. unfold copy_out.
  destruct (Z.leb_spec dest (dest + Z.of_nat i)), (Z.ltb_spec (dest + Z.of_nat i) (dest + Z.of_nat (length bs))); simpl; try lia.
  replace (Z.to_nat (dest + Z.of_nat i - dest)) with i by lia. by rewrite H.
Qed.

Lemma copy_out_in m dest bs : copy_in (copy_out m dest bs) dest (Z.of_nat (length bs)) = bs.
Proof.
  apply list_eq. intros i. destruct (bs !! i) as [x|] eqn:E.
  - apply lookup_lt_Some in E as Hi. rewrite lookup_copy_in by lia. f_equal. by apply copy_out_inside.
  - apply lookup_ge_None in E. apply lookup_ge_None. rewrite length_copy_in. lia.
Qed.

Lemma copy_in_app m src a b :
  0 <= a -> 0 <= b -> copy_in m src (a + b) = copy_in m src a ++ copy_in m (src + a) b.
Proof.
  intros Ha Hb. unfold copy_in. rewrite Z2Nat.inj_add, seq_app, fmap_app by done. f_equal.
  apply list_eq. intros i. rewrite !list_lookup_fmap. destruct (decide (i < Z.to_nat b)%nat).
  - rewrite !lookup_seq_lt by done. simpl. do 2 f_equal. lia.
  - by rewrite !lookup_seq_ge by lia.
Qed.

Lemma zero_mem_outside m dest n a : ~ (dest <= a < dest + n) -> zero_mem m dest n a = m a.
Proof. intros H. unfold zero_mem, memset. destruct (Z.leb_spec dest a), (Z.ltb_spec a (dest + n)); simpl; done || lia. Qed.

Lemma length_be_bytes n : forall v, length (be_bytes n v) = n.
Proof. induction n as [|n IH]; intros v; simpl; [done|]. rewrite length_app, IH. simpl. lia. Qed.

(** A word stored is read back. *)
Lemma be_val_bytes n : forall v, 0 <= v < 256 ^ Z.of_nat n -> be_val (be_bytes n v) = v.
Proof.
  unfold be_val. induction n as [|n IH]; intros v Hv; simpl; [simpl in Hv; lia|].
  rewrite foldl_app. simpl. rewrite IH; [dlia|].
  rewrite Nat2Z.inj_succ, Z.pow_succ_r in Hv by lia. split; [dlia|]. apply Z.div_lt_upper_bound; lia.
Qed.

Lemma load_store64 m a v : is_u64 v -> load64 (store64 m a v) a = v.
Proof.
  intros Hv. unfold load64, store64. etransitivity; [apply f_equal, (copy_out_in m a (be_bytes 8 v))|]. apply be_val_bytes. exact Hv.
Qed.

Lemma load64_ext m m' a : (forall b, a <= b < a + 8 -> m' b = m b) -> load64 m' a = load64 m a.
Proof. intros H. unfold load64. f_equal. by apply copy_in_ext. Qed.

Lemma load_store64_other m a b v : a + 8 <= b \/ b + 8 <= a -> load64 (store64 m a v) b = load64 m b.
Proof. intros H. apply load64_ext. intros c Hc. apply copy_out_outside. rewrite length_be_bytes. lia. Qed.

Lemma load64_zero m d n a : d <= a -> a + 8 <= d + n -> load64 (zero_mem m d n) a = 0.
Proof.
  intros H1 H2. unfold load64. assert (copy_in (zero_mem m d n) a 8 = replicate 8 0) as ->; [|done].
  apply list_eq. intros i. destruct (decide (i < 8)%nat).
  - rewrite lookup_copy_in by (simpl; lia). rewrite lookup_replicate_2 by lia.
    f_equal. unfold zero_mem, memset. destruct (Z.leb_spec d (a + Z.of_nat i)), (Z.ltb_spec (a + Z.of_nat i) (d + n)); simpl; done || lia.
  - rewrite !lookup_ge_None_2; [done|rewrite length_replicate; lia|rewrite length_copy_in; simpl; lia].
Qed.

Lemma be_val_range bs : Forall (fun b => 0 <= b < 256) bs -> 0 <= be_val bs < 256 ^ Z.of_nat (length bs).
Proof.
  unfold be_val. induction bs as [|b bs IH] using rev_ind; intros H; [simpl; lia|]. apply Forall_app in H as [H1 H2].
  apply Forall_cons in H2 as [Hb _]. specialize (IH H1). rewrite foldl_app, length_app. simpl length. simpl foldl.
  rewrite Nat2Z.inj_add, Z.pow_add_r by lia. change (256 ^ Z.of_nat 1) with 256. nia.
Qed.

(** Writing bytes keeps memory bytes. *)
Lemma bytes_copy_out m a bs : bytes_ok m -> Forall (fun b => 0 <= b < 256) bs -> bytes_ok (copy_out m a bs).
Proof.
  intros Hm Hb b. unfold copy_out. destruct (_ && _); [|apply Hm]. destruct (bs !! _) eqn:E; simpl; [|lia].
  by apply (proj1 (Forall_lookup _ _) Hb) in E.
Qed.

Lemma bytes_be n : forall v, Forall (fun b => 0 <= b < 256) (be_bytes n v).
Proof.
  induction n as [|n IH]; intros v; simpl; [constructor|]. apply Forall_app. split; [apply IH|]. constructor; [|constructor].
  by apply Z.mod_pos_bound.
Qed.

Lemma bytes_store64 m a v : bytes_ok m -> bytes_ok (store64 m a v).
Proof. intros H. apply bytes_copy_out; [done|apply bytes_be]. Qed.

Lemma bytes_zero m a n : bytes_ok m -> bytes_ok (zero_mem m a n).
Proof. intros H b. unfold zero_mem, memset. destruct (_ && _); [lia|apply H]. Qed.

#[export] Hint Resolve bytes_store64 bytes_zero bytes_copy_out : word.

Lemma load64_u64 m a : bytes_ok m -> is_u64 (load64 m a).
Proof.
  intros H. unfold load64, is_u64. apply (be_val_range (copy_in m a 8)). apply Forall_forall. intros b Hb.
  apply list_elem_of_fmap in Hb as (i & -> & _). apply H.
Qed.

(** Memory that differs only where [P] holds. *)
Definition only_in (P : Z -> Prop) (m m' : pmem) : Prop := forall a, ~ P a -> m' a = m a.

Lemma only_in_refl P m : only_in P m m.
Proof. by intros a _. Qed.

Lemma only_in_trans P m1 m2 m3 : only_in P m1 m2 -> only_in P m2 m3 -> only_in P m1 m3.
Proof. intros H1 H2 a Ha. by rewrite H2, H1. Qed.

Lemma only_in_impl (P Q : Z -> Prop) m m' : (forall a, P a -> Q a) -> only_in P m m' -> only_in Q m m'.
Proof. intros H H1 a Ha. apply H1. intros HP. by apply Ha, H. Qed.

Lemma only_in_copy_out m dest bs : only_in (fun a => dest <= a < dest + Z.of_nat (length bs)) m (copy_out m dest bs).
Proof. intros a. apply copy_out_outside. Qed.

Lemma only_in_zero m dest n : only_in (fun a => dest <= a < dest + n) m (zero_mem m dest n).
Proof. intros a. apply zero_mem_outside. Qed.

Lemma only_in_store m a v : only_in (fun x => a <= x < a + 8) m (store64 m a v).
Proof. intros x Hx. apply copy_out_outside. rewrite length_be_bytes. lia. Qed.

Lemma only_in_copy_mem m d s n : 0 <= n -> only_in (fun a => d <= a < d + n) m (copy_mem m d s n).
Proof. intros Hn a Ha. unfold copy_mem. apply copy_out_outside. rewrite length_copy_in. lia. Qed.

#[export] Hint Resolve only_in_refl only_in_copy_out only_in_zero only_in_store : word.
