(* ===== verification/LanPorts.v ===== *)
(** * LanPorts: the switch table of the logical LAN

    [llan_ports] of [hype/llan.c] and the routines on it: a port is a registered
    device, with the MAC address it registered and the last eight other addresses
    seen behind it.  Devices are addresses, 0 is [NULL]. *)

From S2P Require Import Prelude Atomic Xirr.

Definition MACS_PER_PORT : Z := 8.
Definition LLAN_IFACES : Z := XIRR_DEVID_SZ.

Record llan_ports_s := Port {
  lm_mac : Z;
  lm_cache : list Z;
  lm_lan : Z;
  lm_next : Z
}.

Definition no_port : llan_ports_s := Port 0 (repeat 0 8) 0 0.

(** [llan_ports] before any registration. *)
Definition llan_ports : list llan_ports_s := repeat no_port 256.

Fixpoint cache_scan (n : nat) (cache : list Z) (c mac : Z) : res (option Z) :=
  match n with
  | O => Ok None
  | S n => let! x := aget cache c in if x =? mac then Ok (Some c) else cache_scan n cache (c + 1) mac
  end.

(** The device, 0 for none, and [*in_cache] if it was set. *)
Fixpoint find_loop (n : nat) (t : list llan_ports_s) (i mac : Z) : res (Z * option Z) :=
  match n with
  | O => Ok (0, None)
  | S n =>
      let! p := aget t i in
      if negb (lm_mac p =? 0) then
        if lm_mac p =? mac then cassert (negb (lm_lan p =? 0)) (Ok (lm_lan p, Some 0))
        else
          let! hit := cache_scan (Z.to_nat MACS_PER_PORT) (lm_cache p) 0 mac in
          match hit with
          | Some _ => cassert (negb (lm_lan p =? 0)) (Ok (lm_lan p, Some 1))
          | None => find_loop n t (i + 1) mac
          end
      else find_loop n t (i + 1) mac
  end.

Definition llan_mac_find (t : list llan_ports_s) (mac : Z) : res (Z * option Z) :=
  find_loop (Z.to_nat LLAN_IFACES) t 0 mac.

(** The first slot that holds the address or is empty. *)
Fixpoint empty_scan (n : nat) (cache : list Z) (c mac : Z) : res (option Z) :=
  match n with
  | O => Ok None
  | S n =>
      let! x := aget cache c in
      if x =? mac then Ok (Some c) else if x =? 0 then Ok (Some c) else empty_scan n cache (c + 1) mac
  end.

(** [idx] is [l->ll_mac_idx]. *)
Definition llan_mac_cache_add (t : list llan_ports_s) (idx l mac : Z) : res (Z * list llan_ports_s) :=
  let! m := aget t idx in
  if negb (lm_mac m =? 0) && (lm_lan m =? l) then
    let! hit := empty_scan (Z.to_nat MACS_PER_PORT) (lm_cache m) 0 mac in
    match hit with
    | Some c =>
        let! x := aget (lm_cache m) c in
        if x =? mac then Ok (c, t)
        else
          let! cache := aset (lm_cache m) c mac in
          let! t := aset t idx (Port (lm_mac m) cache (lm_lan m) ((c + 1) mod MACS_PER_PORT)) in
          Ok (c, t)
    | None =>
        let! cache := aset (lm_cache m) (lm_next m) mac in
        let! t := aset t idx (Port (lm_mac m) cache (lm_lan m) ((lm_next m + 1) mod MACS_PER_PORT)) in
        Ok (-1, t)
    end
  else Ok (-1, t).

Definition llan_mac_cache_free (t : list llan_ports_s) (idx l mac : Z) : res (list llan_ports_s) :=
  let! m := aget t idx in
  if negb (lm_mac m =? 0) && (lm_lan m =? l) then
    let! hit := cache_scan (Z.to_nat MACS_PER_PORT) (lm_cache m) 0 mac in
    match hit with
    | Some c => let! cache := aset (lm_cache m) c 0 in aset t idx (Port (lm_mac m) cache (lm_lan m) c)
    | None => Ok t
    end
  else Ok t.

(** The first port without a device. *)
Fixpoint add_loop (n : nat) (t : list llan_ports_s) (i l mac : Z) : res (Z * list llan_ports_s) :=
  match n with
  | O => Ok (-1, t)
  | S n =>
      let! p := aget t i in
      let '(ok, lan) := cas_uval (lm_lan p) 0 l in
      if ok : bool then
        cassert (lm_mac p =? 0) (let! t := aset t i (Port mac (lm_cache p) lan (lm_next p)) in Ok (i, t))
      else add_loop n t (i + 1) l mac
  end.

(** [mac_idx] reads [ll_mac_idx] of another device; [mac] is [l->ll_mac]. *)
Definition llan_mac_add (mac_idx : Z -> res Z) (t : list llan_ports_s) (l mac : Z) : res (Z * list llan_ports_s) :=
  let! (d, in_cache) := llan_mac_find t mac in
  let add t := add_loop (Z.to_nat LLAN_IFACES) t 0 l mac in
  if d =? 0 then add t
  else match in_cache with
  | Some 0 => Ok (-1, t)
  | _ =>
      let! idx := mac_idx d in
      let! t := llan_mac_cache_free t idx d mac in
      add t
  end.

(** [old] is [l->ll_mac]. *)
Fixpoint change_loop (n : nat) (t : list llan_ports_s) (i l old mac : Z) : res (Z * list llan_ports_s) :=
  match n with
  | O => Ok (-1, t)
  | S n =>
      let! p := aget t i in
      if lm_lan p =? l then
        cassert (lm_mac p =? old)
          (let! t := aset t i (Port mac (lm_cache p) (lm_lan p) (lm_next p)) in Ok (i, t))
      else change_loop n t (i + 1) l old mac
  end.

Definition llan_mac_change (t : list llan_ports_s) (l old mac : Z) : res (Z * list llan_ports_s) :=
  change_loop (Z.to_nat LLAN_IFACES) t 0 l old mac.

Definition llan_mac_free (t : list llan_ports_s) (idx mac : Z) : res (list llan_ports_s) :=
  let! p := aget t idx in
  let '(ok, m) := cas_uval (lm_mac p) mac 0 in
  cassert ok (aset t idx (Port m (repeat 0 (Z.to_nat MACS_PER_PORT)) 0 (lm_next p))).

(** ** Well-formed tables *)

(** A port without a device is blank; the replacement index stays in the cache. *)
Record port_wf (p : llan_ports_s) : Prop := {
  pw_cache : Z.of_nat (length (lm_cache p)) = MACS_PER_PORT;
  pw_next : 0 <= lm_next p < MACS_PER_PORT;
  pw_blank : lm_lan p = 0 -> lm_mac p = 0 /\ lm_cache p = repeat 0 8
}.

(** The port of a device. *)
Definition port_of (t : list llan_ports_s) (i l : Z) : Prop :=
  0 <= i /\ exists p, t !! Z.to_nat i = Some p /\ lm_lan p = l.

Record tab_wf (t : list llan_ports_s) : Prop := {
  tw_len : Z.of_nat (length t) = LLAN_IFACES;
  tw_ports i p : t !! i = Some p -> port_wf p;
  tw_once i j p q : t !! i = Some p -> t !! j = Some q -> lm_lan p <> 0 -> lm_lan p = lm_lan q -> i = j
}.

Lemma llan_ports_wf : tab_wf llan_ports.
Proof.
  split; [done| |].
  - intros i p H. apply list_elem_of_lookup_2, list_elem_of_In, repeat_spec in H as ->. by split.
  - intros i j p q H _ Hne. apply list_elem_of_lookup_2, list_elem_of_In, repeat_spec in H as ->. done.
Qed.

(** Replacing a port by another of the same device. *)
Lemma tab_wf_update t i p q :
  tab_wf t -> t !! i = Some p -> port_wf q -> lm_lan q = lm_lan p -> tab_wf (<[i := q]> t).
Proof.
  intros [Hl Hp Ho] Hi Hq E. split; [by rewrite length_insert| |].
  - intros j r [(-> & <- & _)|[_ Hj]]%list_lookup_insert_Some; [done|by eapply Hp].
  - intros j k r s [(-> & <- & _)|[Hj1 Hj2]]%list_lookup_insert_Some [(-> & <- & _)|[Hk1 Hk2]]%list_lookup_insert_Some Hne Eq;
      try done; rewrite ?E in *.
    + by eapply Ho.
    + eapply Ho; try done; congruence.
    + by eapply Ho.
Qed.

(** Giving a device that has no port the port [i]. *)
Lemma tab_wf_claim t i p q :
  tab_wf t -> t !! i = Some p -> port_wf q -> (forall j r, t !! j = Some r -> lm_lan r = lm_lan q -> lm_lan q = 0) ->
  tab_wf (<[i := q]> t).
Proof.
  intros [Hl Hp Ho] Hi Hq Hnew. split; [by rewrite length_insert| |].
  - intros j r [(-> & <- & _)|[_ Hj]]%list_lookup_insert_Some; [done|by eapply Hp].
  - intros j k r s [(-> & <- & _)|[Hj1 Hj2]]%list_lookup_insert_Some [(-> & <- & _)|[Hk1 Hk2]]%list_lookup_insert_Some Hne Eq; try done.
    + by rewrite (Hnew k s) in Hne.
    + rewrite Eq in Hne. by rewrite (Hnew j r) in Hne.
    + by eapply Ho.
Qed.

(** ** Finding an address *)
Definition has_mac (mac : Z) (p : llan_ports_s) : Prop := lm_mac p <> 0 /\ (lm_mac p = mac \/ mac ∈ lm_cache p).
#[global] Instance has_mac_dec mac p : Decision (has_mac mac p).
Proof. apply _. Defined.

Lemma cache_scan_spec n : forall cache c mac,
  0 <= c -> c + Z.of_nat n = Z.of_nat (length cache) ->
  exists r, cache_scan n cache c mac = Ok r /\
    match r with
    | Some d => c <= d /\ cache !! Z.to_nat d = Some mac
    | None => ~ mac ∈ drop (Z.to_nat c) cache
    end.
Proof.
  induction n as [|n IH]; intros cache c mac Hc Hn; simpl.
  - eexists. split; [done|]. simpl. rewrite drop_ge by lia. apply not_elem_of_nil.
  - destruct (aget_is_ok cache c) as [x Hx]; [lia|]. rewrite Hx. simpl. pose proof (aget_inv _ _ _ Hx) as [_ Hx'].
    destruct (Z.eqb_spec x mac) as [->|Hne]; [exists (Some c); split; [done|by split]|].
    destruct (IH cache (c + 1) mac) as (r & -> & Hr); [lia|lia|]. exists r. split; [done|].
    destruct r as [d|]; [destruct Hr; split; [lia|done]|].
    erewrite drop_S by exact Hx'. replace (S (Z.to_nat c)) with (Z.to_nat (c + 1)) by lia.
    rewrite elem_of_cons. intros [<-|?]; done.
Qed.

Lemma cache_scan_all p mac :
  port_wf p -> exists r, cache_scan (Z.to_nat MACS_PER_PORT) (lm_cache p) 0 mac = Ok r /\
    match r with
    | Some d => 0 <= d < MACS_PER_PORT /\ lm_cache p !! Z.to_nat d = Some mac
    | None => ~ mac ∈ lm_cache p
    end.
Proof.
  intros [Hc _ _]. destruct (cache_scan_spec (Z.to_nat MACS_PER_PORT) (lm_cache p) 0 mac) as (r & Hr & H); [done|done|].
  exists r. split; [done|]. destruct r as [d|]; [|done]. destruct H as [H1 H2]. split; [|done].
  apply lookup_lt_Some in H2. unfold MACS_PER_PORT in *. lia.
Qed.

Definition find_answer (mac : Z) (o : option (nat * llan_ports_s)) : Z * option Z :=
  match o with
  | Some (_, p) => (lm_lan p, Some (if lm_mac p =? mac then 0 else 1))
  | None => (0, None)
  end.

Lemma mac_find_loop_spec n : forall t i mac,
  (forall i p, t !! i = Some p -> port_wf p) -> 0 <= i -> i + Z.of_nat n = Z.of_nat (length t) ->
  find_loop n t i mac = Ok (find_answer mac (list_find (has_mac mac) (drop (Z.to_nat i) t))).
Proof.
  induction n as [|n IH]; intros t i mac Hw Hi Hn; cbn [find_loop]; [by rewrite drop_ge by lia|].
  destruct (aget_is_ok t i) as [p Hp]; [lia|]. rewrite Hp. cbn [res_bind]. pose proof (aget_inv _ _ _ Hp) as [_ Hp'].
  pose proof (Hw _ _ Hp') as Hpw. erewrite drop_S by exact Hp'. cbn [list_find].
  assert (find_loop n t (i + 1) mac = Ok (find_answer mac (prod_map S id <$> list_find (has_mac mac) (drop (S (Z.to_nat i)) t)))) as Hnext.
  { rewrite IH by (done || lia). replace (Z.to_nat (i + 1)) with (S (Z.to_nat i)) by lia. by destruct (list_find _ _) as [[]|]. }
  assert (lm_mac p <> 0 -> (lm_lan p =? 0) = false) as Hlan.
  { intros Hm. apply Z.eqb_neq. intros H0. by apply (pw_blank p Hpw) in H0 as [? _]. }
  destruct (Z.eqb_spec (lm_mac p) 0) as [H0|H0]; cbn [negb].
  { rewrite decide_False by (by intros [? _]). exact Hnext. }
  rewrite (Hlan H0). destruct (Z.eqb_spec (lm_mac p) mac) as [E|E]; cbn [negb cassert].
  { rewrite decide_True by (split; [done|by left]). simpl. by rewrite E, Z.eqb_refl. }
  destruct (cache_scan_all p mac Hpw) as (r & -> & Hr). destruct r as [d|]; cbn [res_bind negb cassert].
  - rewrite decide_True by (split; [done|right; by eapply list_elem_of_lookup_2; apply Hr]). simpl.
    apply Z.eqb_neq in E. by rewrite E.
  - rewrite decide_False by (intros [_ [?|?]]; done). exact Hnext.
Qed.

(** The search is the first port that has the address. *)
Lemma llan_mac_find_spec t mac :
  tab_wf t -> llan_mac_find t mac = Ok (find_answer mac (list_find (has_mac mac) t)).
Proof.
  intros [Hl Hp _]. unfold llan_mac_find. rewrite mac_find_loop_spec; [by rewrite drop_0|done|done|].
  rewrite Z2Nat.id by done. lia.
Qed.

(** ** Changes *)

(** The same devices with the same registered addresses; caches may differ. *)
Definition port_same (p q : llan_ports_s) : Prop := lm_mac q = lm_mac p /\ lm_lan q = lm_lan p.
Definition ports_same : relation (list llan_ports_s) := Forall2 port_same.

#[global] Instance port_same_pre : PreOrder port_same.
Proof. split; [done|]. intros p q r [H1 H2] [H3 H4]. split; congruence. Qed.
#[global] Instance ports_same_pre : PreOrder ports_same.
Proof. apply _. Qed.

Lemma ports_same_insert t i p q :
  t !! i = Some p -> lm_mac q = lm_mac p -> lm_lan q = lm_lan p -> ports_same t (<[i := q]> t).
Proof.
  intros Hi H1 H2. rewrite <- (list_insert_id t i p Hi) at 1. apply Forall2_insert; [reflexivity|done].
Qed.

Lemma ports_same_lookup t t' i p' :
  ports_same t t' -> t' !! i = Some p' -> exists p, t !! i = Some p /\ lm_mac p' = lm_mac p /\ lm_lan p' = lm_lan p.
Proof. intros H Hi. destruct (Forall2_lookup_r _ _ _ _ _ H Hi) as (p & Hp & E). by exists p. Qed.

Lemma ports_same_lookup_l t t' i p :
  ports_same t t' -> t !! i = Some p -> exists p', t' !! i = Some p' /\ lm_mac p' = lm_mac p /\ lm_lan p' = lm_lan p.
Proof. intros H Hi. destruct (Forall2_lookup_l _ _ _ _ _ H Hi) as (p' & Hp & E). by exists p'. Qed.

(** Changing the cache of a port in use. *)
Lemma tab_wf_cache t i p cache next :
  tab_wf t -> t !! i = Some p -> lm_lan p <> 0 -> length cache = length (lm_cache p) -> 0 <= next < MACS_PER_PORT ->
  tab_wf (<[i := Port (lm_mac p) cache (lm_lan p) next]> t) /\
  ports_same t (<[i := Port (lm_mac p) cache (lm_lan p) next]> t).
Proof.
  intros Ht Hi Hlan Hlen Hn. split; [|by eapply ports_same_insert].
  apply (tab_wf_update t i p); [done|done| |done]. destruct (tw_ports t Ht i p Hi). split; simpl; [congruence|done|done].
Qed.

Lemma empty_scan_spec n : forall cache c mac,
  0 <= c -> c + Z.of_nat n = Z.of_nat (length cache) ->
  exists r, empty_scan n cache c mac = Ok r /\
    match r with
    | Some d => c <= d /\ (cache !! Z.to_nat d = Some mac \/ cache !! Z.to_nat d = Some 0)
    | None => True
    end.
Proof.
  induction n as [|n IH]; intros cache c mac Hc Hn; simpl; [by exists None|].
  destruct (aget_is_ok cache c) as [x Hx]; [lia|]. rewrite Hx. simpl. pose proof (aget_inv _ _ _ Hx) as [_ Hx'].
  destruct (Z.eqb_spec x mac) as [->|Hne]; [exists (Some c); split; [done|split; [lia|by left]]|].
  destruct (Z.eqb_spec x 0) as [->|Hne0]; [exists (Some c); split; [done|split; [lia|by right]]|].
  destruct (IH cache (c + 1) mac) as (r & -> & Hr); [lia|lia|]. exists r. split; [done|].
  destruct r as [d|]; [destruct Hr; split; [lia|done]|done].
Qed.

(** Learning an address keeps the table in order, and the address is then known at
    the device's port. *)
Lemma llan_mac_cache_add_spec t idx l mac m :
  tab_wf t -> 0 <= idx -> t !! Z.to_nat idx = Some m ->
  exists r t', llan_mac_cache_add t idx l mac = Ok (r, t') /\ tab_wf t' /\ ports_same t t' /\
    (forall j, j <> Z.to_nat idx -> t' !! j = t !! j) /\
    (lm_mac m <> 0 -> lm_lan m = l -> exists m', t' !! Z.to_nat idx = Some m' /\ mac ∈ lm_cache m').
Proof.
  intros Ht Hi Hm. pose proof (tw_ports t Ht _ _ Hm) as Hw. unfold llan_mac_cache_add. rewrite (aget_ok _ _ _ Hi Hm). cbn [res_bind].
  destruct (Z.eqb_spec (lm_mac m) 0) as [H0|H0]; cbn [negb andb]; [exists (-1), t; by split_and!|].
  destruct (Z.eqb_spec (lm_lan m) l) as [E|E]; cbn [andb]; [|exists (-1), t; by split_and!].
  assert (lm_lan m <> 0) as Hlan. { intros H. by apply (pw_blank m Hw) in H as [? _]. }
  assert (forall c v next, 0 <= c < MACS_PER_PORT -> 0 <= next < MACS_PER_PORT -> exists t',
    (let! cache := aset (lm_cache m) c mac in
     let! t := aset t idx (Port (lm_mac m) cache (lm_lan m) next) in Ok (v : Z, t)) = Ok (v, t') /\ tab_wf t' /\ ports_same t t' /\
    (forall j, j <> Z.to_nat idx -> t' !! j = t !! j) /\
    exists m', t' !! Z.to_nat idx = Some m' /\ mac ∈ lm_cache m') as Hput.
  { intros c v next Hc Hn. pose proof (pw_cache m Hw) as Hlen. apply lookup_lt_Some in Hm as Hlt.
    rewrite aset_ok by lia. cbn [res_bind]. rewrite aset_ok by lia. cbn [res_bind]. eexists. split; [reflexivity|].
    destruct (tab_wf_cache t (Z.to_nat idx) m (<[Z.to_nat c := mac]> (lm_cache m)) next) as [K1 K2]; try done; [by rewrite length_insert|].
    split_and!; try done.
    - intros j Hj. by rewrite list_lookup_insert_ne.
    - eexists. split; [apply list_lookup_insert_eq; lia|]. simpl. apply list_elem_of_lookup_2 with (Z.to_nat c).
      apply list_lookup_insert_eq. lia. }
  destruct (empty_scan_spec (Z.to_nat MACS_PER_PORT) (lm_cache m) 0 mac) as (r & Hr & Hcase); [done|by rewrite (pw_cache m Hw)|].
  rewrite Hr. cbn [res_bind]. destruct r as [c|].
  - destruct Hcase as [Hc1 Hc2].
    assert (0 <= c < MACS_PER_PORT) as Hc. { pose proof (pw_cache m Hw). destruct Hc2 as [Hx|Hx]; apply lookup_lt_Some in Hx; lia. }
    destruct (lm_cache m !! Z.to_nat c) as [x|] eqn:Ex; [|by destruct Hc2]. rewrite (aget_ok _ _ _ (proj1 Hc) Ex). cbn [res_bind].
    destruct (Z.eqb_spec x mac) as [->|Hne].
    + exists c, t. split_and!; try done. intros _ _. exists m. split; [done|]. by eapply list_elem_of_lookup_2.
    + destruct (Hput c c ((c + 1) mod MACS_PER_PORT)) as (t' & -> & ? & ? & ? & ?); [done|by apply Z.mod_pos_bound|]. by exists c, t'.
  - destruct (Hput (lm_next m) (-1) ((lm_next m + 1) mod MACS_PER_PORT)) as (t' & -> & ? & ? & ? & ?);
      [apply Hw|by apply Z.mod_pos_bound|]. by exists (-1), t'.
Qed.

Lemma llan_mac_cache_free_spec t idx l mac :
  tab_wf t -> 0 <= idx < LLAN_IFACES ->
  exists t', llan_mac_cache_free t idx l mac = Ok t' /\ tab_wf t' /\ ports_same t t'.
Proof.
  intros Ht Hi. pose proof (tw_len t Ht) as Hlen. destruct (aget_is_ok t idx) as [m Hm]; [lia|].
  unfold llan_mac_cache_free. rewrite Hm. apply aget_inv in Hm as [_ Hm]. cbn [res_bind].
  pose proof (tw_ports t Ht _ _ Hm) as Hw.
  destruct (Z.eqb_spec (lm_mac m) 0) as [H0|H0]; cbn [negb andb]; [by exists t|].
  destruct (lm_lan m =? l); [|by exists t].
  assert (lm_lan m <> 0) as Hlan. { intros H. by apply (pw_blank m Hw) in H as [? _]. }
  destruct (cache_scan_all m mac Hw) as (r & -> & Hr). cbn [res_bind]. destruct r as [c|]; [|by exists t].
  destruct Hr as [Hc Hr]. pose proof (pw_cache m Hw) as Hcl. rewrite aset_ok by lia. cbn [res_bind]. rewrite aset_ok by lia.
  eexists. split; [reflexivity|]. apply tab_wf_cache; try done. by rewrite length_insert.
Qed.

(** The first blank port is taken. *)
Lemma add_loop_spec n : forall t i l mac,
  tab_wf t -> 0 <= i -> i + Z.of_nat n = Z.of_nat (length t) -> l <> 0 -> (forall i, ~ port_of t i l) ->
  exists r t', add_loop n t i l mac = Ok (r, t') /\ tab_wf t' /\
    (r = -1 /\ t' = t \/ i <= r /\ exists p, t !! Z.to_nat r = Some p /\ lm_lan p = 0 /\
       t' = <[Z.to_nat r := Port mac (repeat 0 8) l (lm_next p)]> t).
Proof.
  induction n as [|n IH]; intros t i l mac Ht Hi Hn Hl Hno; cbn [add_loop].
  - exists (-1), t. split_and!; try done. by left.
  - destruct (aget_is_ok t i) as [p Hp]; [lia|]. rewrite Hp. apply aget_inv in Hp as [Hr Hp]. cbn [res_bind].
    unfold cas_uval, cas. destruct (Z.eqb_spec (lm_lan p) 0) as [H0|H0].
    + destruct (pw_blank p (tw_ports t Ht _ _ Hp) H0) as [Em Ec]. rewrite Em. cbn [cassert Z.eqb].
      rewrite aset_ok by lia. cbn [res_bind]. eexists _, _. split; [reflexivity|]. split.
      * eapply tab_wf_claim; [done|exact Hp| |].
        { destruct (tw_ports t Ht _ _ Hp). split; [done|done|]. simpl. done. }
        simpl. intros j q Hj Hq. destruct (Hno (Z.of_nat j)). split; [lia|]. exists q. by rewrite Nat2Z.id.
      * right. split; [lia|]. exists p. split; [done|]. split; [done|]. by rewrite Ec.
    + destruct (IH t (i + 1) l mac) as (r & t' & -> & Ht' & Hcase); try done; try lia.
      exists r, t'. split; [done|]. split; [done|]. destruct Hcase as [?|[? ?]]; [by left|right; split; [lia|done]].
Qed.

(** Adding a device: refused, or on a blank port of its own. *)
Lemma llan_mac_add_spec mac_idx t l mac :
  tab_wf t -> l <> 0 -> (forall i, ~ port_of t i l) ->
  (forall i d, d <> 0 -> port_of t i d -> exists j, mac_idx d = Ok j /\ 0 <= j < LLAN_IFACES) ->
  exists r t0 t', llan_mac_add mac_idx t l mac = Ok (r, t') /\ tab_wf t' /\ tab_wf t0 /\ ports_same t t0 /\
    (r = -1 /\ t' = t0 \/ 0 <= r /\ exists p, t0 !! Z.to_nat r = Some p /\ lm_lan p = 0 /\
       t' = <[Z.to_nat r := Port mac (repeat 0 8) l (lm_next p)]> t0).
Proof.
  intros Ht Hl Hno Hidx. unfold llan_mac_add. rewrite (llan_mac_find_spec t mac Ht). cbn [res_bind].
  assert (forall t0, tab_wf t0 -> ports_same t t0 -> exists r t1 t', add_loop (Z.to_nat LLAN_IFACES) t0 0 l mac = Ok (r, t') /\
    tab_wf t' /\ tab_wf t1 /\ ports_same t t1 /\
    (r = -1 /\ t' = t1 \/ 0 <= r /\ exists p, t1 !! Z.to_nat r = Some p /\ lm_lan p = 0 /\
       t' = <[Z.to_nat r := Port mac (repeat 0 8) l (lm_next p)]> t1)) as Hadd.
  { intros t0 H0 Hs. destruct (add_loop_spec (Z.to_nat LLAN_IFACES) t0 0 l mac) as (r & t' & E & K & Hc); try done.
    - rewrite (tw_len t0 H0). done.
    - intros i [Hi (p & Hp & E)]. destruct (ports_same_lookup _ _ _ _ Hs Hp) as (q & Hq & _ & Eq). apply (Hno i).
      split; [done|]. exists q. split; [done|]. congruence.
    - exists r, t0, t'. split_and!; try done. }
  destruct (list_find (has_mac mac) t) as [[k p]|] eqn:Ef; cbn [find_answer].
  2:{ apply Hadd; [done|reflexivity]. }
  apply list_find_Some in Ef as (Hk & [Hm _] & _).
  assert (lm_lan p <> 0) as Hlan. { intros H. by apply (pw_blank p (tw_ports t Ht _ _ Hk)) in H as [? _]. }
  apply Z.eqb_neq in Hlan as E. rewrite E. destruct (lm_mac p =? mac).
  - exists (-1), t, t. split_and!; try done. by left.
  - destruct (Hidx (Z.of_nat k) (lm_lan p) Hlan) as (j & -> & Hj); [split; [lia|exists p; by rewrite Nat2Z.id]|]. cbn [res_bind].
    destruct (llan_mac_cache_free_spec t j (lm_lan p) mac Ht Hj) as (t0 & -> & H0 & Hs). cbn [res_bind]. by apply Hadd.
Qed.

Lemma change_loop_spec n : forall t i l old mac k p,
  tab_wf t -> 0 <= i <= k -> i + Z.of_nat n = Z.of_nat (length t) -> l <> 0 ->
  t !! Z.to_nat k = Some p -> lm_lan p = l -> lm_mac p = old ->
  change_loop n t i l old mac = Ok (k, <[Z.to_nat k := Port mac (lm_cache p) l (lm_next p)]> t).
Proof.
  induction n as [|n IH]; intros t i l old mac k p Ht Hi Hn Hl Hk El Em; cbn [change_loop].
  - apply lookup_lt_Some in Hk. lia.
  - apply lookup_lt_Some in Hk as Hlt. destruct (aget_is_ok t i) as [q Hq]; [lia|]. rewrite Hq. apply aget_inv in Hq as [_ Hq]. cbn [res_bind].
    destruct (Z.eqb_spec (lm_lan q) l) as [E|E].
    + assert (Z.to_nat i = Z.to_nat k) as Eik by (eapply (tw_once t Ht); try done; congruence).
      assert (i = k) as -> by lia. rewrite Hk in Hq. injection Hq as <-. rewrite Em, Z.eqb_refl. cbn [cassert].
      rewrite aset_ok by lia. cbn [res_bind]. by rewrite El.
    + apply (IH t (i + 1) l old mac k p); try done; try lia. split; [lia|].
      destruct (decide (i = k)) as [->|]; [|lia]. rewrite Hk in Hq. injection Hq as <-. done.
Qed.

Lemma llan_mac_change_spec t l old mac k p :
  tab_wf t -> 0 <= k -> l <> 0 -> t !! Z.to_nat k = Some p -> lm_lan p = l -> lm_mac p = old ->
  exists t', llan_mac_change t l old mac = Ok (k, t') /\ tab_wf t' /\
    t' = <[Z.to_nat k := Port mac (lm_cache p) l (lm_next p)]> t.
Proof.
  intros Ht Hk Hl Hp El Em. eexists. split; [apply (change_loop_spec _ t 0 l old mac k p); try done|].
  - rewrite (tw_len t Ht). done.
  - split; [|done]. eapply tab_wf_update; [done|exact Hp| |by rewrite El].
    destruct (tw_ports t Ht _ _ Hp). split; [done|done|]. simpl. done.
Qed.

Lemma llan_mac_free_spec t idx mac p :
  tab_wf t -> 0 <= idx -> t !! Z.to_nat idx = Some p -> lm_mac p = mac ->
  exists t', llan_mac_free t idx mac = Ok t' /\ tab_wf t' /\ t' = <[Z.to_nat idx := Port 0 (repeat 0 8) 0 (lm_next p)]> t.
Proof.
  intros Ht Hi Hp Em. unfold llan_mac_free. rewrite (aget_ok _ _ _ Hi Hp). cbn [res_bind]. unfold cas_uval, cas.
  rewrite Em, Z.eqb_refl. cbn [cassert]. apply lookup_lt_Some in Hp as Hlt. rewrite aset_ok by lia. eexists. split; [reflexivity|].
  split; [|done]. eapply tab_wf_claim; [done|exact Hp| |].
  - destruct (tw_ports t Ht _ _ Hp). by split.
  - done.
Qed.
