(* ===== verification/Llan.v ===== *)
(** * Llan: the logical LAN

    [hype/llan.c], [hype/llan.h] and the hypervisor calls on it.  A device belongs to
    one partition, which registers with it a MAC address, a receive queue, a filter
    page and a buffer list in its own memory, posts receive buffers, and sends frames;
    a frame is copied into a posted buffer of the device that has the destination
    address ([LanPorts]), or of all others, and an entry is written to the receive
    queue.  What the partition registered stays in its memory ([Imemcpy]), which it may
    change at any time.  Of the two resources of a device only the owner of the current
    one appears; passing a device on ([llan_acquire], [llan_grant], [llan_rescind]) is
    not here. *)

From S2P Require Import Prelude Hcall Bitmap PgAlloc Atomic Xirr Xir Logical Field Tce Imemcpy LanPorts.

Definition CACHE_LINE_SIZE : Z := 128.
Definition XIRR_CLASS_LLAN : Z := 1.
Definition LLAN_MEM_SZ : Z := 0x10000000.
Definition LLAN_BL_POOLS : Z := 3.
Definition LLAN_BL_POOL_NUM : Z := 256.
Definition LLAN_BL_SIZE : Z := PGSIZE.
Definition LLAN_BL_RECVQ : Z := 0.
Definition LLAN_BL_FILTER : Z := 1.
Definition LLAN_BL_POOL_START : Z := 2.
Definition LLAN_BL_POOL_END : Z := LLAN_BL_POOL_START + 256.
Definition LLAN_BL_COUNTER : Z := LLAN_BL_SIZE / 8 - 1.
Definition LL_MCAST_RECV : Z := 1.
Definition LL_MCAST_FILTER : Z := 1.
Definition LL_MCAST_ENTRIES : Z := 255.
Definition LMF_MODR : Z := 2 ^ (63 - 44).
Definition LMF_MODF : Z := 2 ^ (63 - 45).
Definition LMF_MODR_ALLOW : Z := 2 ^ (63 - 46).
Definition LMF_MODF_ALLOW : Z := 2 ^ (63 - 47).
Definition LMF_MODC_MASK : Z := 3.
Definition LLAN_SEND_BD_NUM : Z := 6.
Definition bcast : Z := 0xffffffffffff.

(** The first doubleword of [union llan_recvq_entry]. *)
Definition lrqe_vtoggle : field := Field 63 1.
Definition lrqe_v : field := Field 62 1.
Definition lrqe_off : field := Field 32 16.
Definition lrqe_len : field := Field 0 32.

(** [struct llan]; [ll_owner] is the owner of [ll_res[ll_owner_res]]. *)
Record llan := Llan {
  ll_mac : Z;
  ll_tce_data : tce_data;
  ll_blist_pool : list (list Z);
  ll_owner : Z;
  ll_recvq : Z;
  ll_blist : Z;
  ll_mfilter : Z;
  ll_size : Z;
  ll_dma_size : Z;
  ll_lock : Z;
  ll_interrupt : Z;
  ll_mcast_state : Z;
  ll_registered : Z;
  ll_recvq_toggle : Z;
  ll_valid : Z;
  ll_mac_idx : Z;
  ll_mcast_count : Z;
  ll_recvq_idx : Z;
  ll_recvq_end : Z
}.
Definition SIZEOF_LLAN : Z := 6456.

Definition set_tce (x : llan) (t : tce_data) : llan :=
  Llan (ll_mac x) t (ll_blist_pool x) (ll_owner x) (ll_recvq x) (ll_blist x) (ll_mfilter x) (ll_size x)
    (ll_dma_size x) (ll_lock x) (ll_interrupt x) (ll_mcast_state x) (ll_registered x) (ll_recvq_toggle x) (ll_valid x)
    (ll_mac_idx x) (ll_mcast_count x) (ll_recvq_idx x) (ll_recvq_end x).
Definition set_pool (x : llan) (l : list (list Z)) : llan :=
  Llan (ll_mac x) (ll_tce_data x) l (ll_owner x) (ll_recvq x) (ll_blist x) (ll_mfilter x) (ll_size x)
    (ll_dma_size x) (ll_lock x) (ll_interrupt x) (ll_mcast_state x) (ll_registered x) (ll_recvq_toggle x) (ll_valid x)
    (ll_mac_idx x) (ll_mcast_count x) (ll_recvq_idx x) (ll_recvq_end x).
(** The three areas in the partition's memory. *)
Definition set_areas (x : llan) (rq bl mf : Z) : llan :=
  Llan (ll_mac x) (ll_tce_data x) (ll_blist_pool x) (ll_owner x) rq bl mf (ll_size x)
    (ll_dma_size x) (ll_lock x) (ll_interrupt x) (ll_mcast_state x) (ll_registered x) (ll_recvq_toggle x) (ll_valid x)
    (ll_mac_idx x) (ll_mcast_count x) (ll_recvq_idx x) (ll_recvq_end x).
Definition set_lock (x : llan) (w : Z) : llan :=
  Llan (ll_mac x) (ll_tce_data x) (ll_blist_pool x) (ll_owner x) (ll_recvq x) (ll_blist x) (ll_mfilter x) (ll_size x)
    (ll_dma_size x) w (ll_interrupt x) (ll_mcast_state x) (ll_registered x) (ll_recvq_toggle x) (ll_valid x)
    (ll_mac_idx x) (ll_mcast_count x) (ll_recvq_idx x) (ll_recvq_end x).
Definition set_mcast (x : llan) (st cnt : Z) : llan :=
  Llan (ll_mac x) (ll_tce_data x) (ll_blist_pool x) (ll_owner x) (ll_recvq x) (ll_blist x) (ll_mfilter x) (ll_size x)
    (ll_dma_size x) (ll_lock x) (ll_interrupt x) st (ll_registered x) (ll_recvq_toggle x) (ll_valid x)
    (ll_mac_idx x) cnt (ll_recvq_idx x) (ll_recvq_end x).
Definition set_ring (x : llan) (toggle idx end_ : Z) : llan :=
  Llan (ll_mac x) (ll_tce_data x) (ll_blist_pool x) (ll_owner x) (ll_recvq x) (ll_blist x) (ll_mfilter x) (ll_size x)
    (ll_dma_size x) (ll_lock x) (ll_interrupt x) (ll_mcast_state x) (ll_registered x) toggle (ll_valid x)
    (ll_mac_idx x) (ll_mcast_count x) idx end_.
(** The address, its port and [ll_registered]. *)
Definition set_reg (x : llan) (mac idx reg : Z) : llan :=
  Llan mac (ll_tce_data x) (ll_blist_pool x) (ll_owner x) (ll_recvq x) (ll_blist x) (ll_mfilter x) (ll_size x)
    (ll_dma_size x) (ll_lock x) (ll_interrupt x) (ll_mcast_state x) reg (ll_recvq_toggle x) (ll_valid x)
    idx (ll_mcast_count x) (ll_recvq_idx x) (ll_recvq_end x).
Definition set_valid (x : llan) (v : Z) : llan :=
  Llan (ll_mac x) (ll_tce_data x) (ll_blist_pool x) (ll_owner x) (ll_recvq x) (ll_blist x) (ll_mfilter x) (ll_size x)
    (ll_dma_size x) (ll_lock x) (ll_interrupt x) (ll_mcast_state x) (ll_registered x) (ll_recvq_toggle x) v
    (ll_mac_idx x) (ll_mcast_count x) (ll_recvq_idx x) (ll_recvq_end x).

(** The devices by address, the switch table, memory, the interrupt lines and the page
    allocator. *)
Record lan := Lan {
  lans : gmap Z llan;
  ports : list llan_ports_s;
  pm : pmem;
  irq : machine;
  pool : pg_alloc
}.

Definition set_lans (s : lan) (v : gmap Z llan) : lan := Lan v (ports s) (pm s) (irq s) (pool s).
Definition set_ports (s : lan) (v : list llan_ports_s) : lan := Lan (lans s) v (pm s) (irq s) (pool s).
Definition set_pm (s : lan) (v : pmem) : lan := Lan (lans s) (ports s) v (irq s) (pool s).
Definition set_irq (s : lan) (v : machine) : lan := Lan (lans s) (ports s) (pm s) v (pool s).
Definition set_pages (s : lan) (v : pg_alloc) : lan := Lan (lans s) (ports s) (pm s) (irq s) v.

(** [llan_get] does not look at the class of the unit address, so the device may be
    none of these; using it as one is a fault. *)
Definition llan_get (s : lan) (liobn : Z) : res Z := xir_get_device (irq s) (u32 liobn).
Definition get_lan (s : lan) (l : Z) : res llan := of_option Null_deref (lans s !! l).
Definition put_lan (s : lan) (l : Z) (x : llan) : lan := set_lans s (<[l := x]> (lans s)).
Definition llan_getos (x : llan) : Z := ll_owner x.

(** [if (lock_tryacquire(&l->ll_lock))]: the state with the lock held, or [None]. *)
Definition try_lock (s : lan) (l : Z) : res (option lan) :=
  let! x := get_lan s l in
  let '(w, ok) := lock_tryacquire (ll_lock x) in
  Ok (if truth ok then Some (put_lan s l (set_lock x w)) else None).

Definition unlock (s : lan) (l : Z) : res lan :=
  let! x := get_lan s l in Ok (put_lan s l (set_lock x (lock_release (ll_lock x)))).

(** ** Registration *)
Definition llan_tce_put l_to_r (m : memory) (s : lan) (os liobn ioba ltce : Z) : res (Z * lan) :=
  let! l := llan_get s liobn in
  if l =? 0 then Ok (H_Parameter, s)
  else
    let! x := get_lan s l in
    if sub64 (ll_size x) PGSIZE <? ioba then Ok (H_Parameter, s)
    else
      cassert (negb (t_tce (ll_tce_data x) =? 0))
        (let! (r, t) := tce_put l_to_r m os (ll_tce_data x) ioba ltce in
         Ok (r, put_lan s l (set_tce x t))).

Definition llan_bd_tce_xlate (x : llan) (bd : Z) : res Z := tce_bd_xlate (ll_tce_data x) bd.

(** [llan_bdesc]: the address of the descriptor of a pool, 0 for [NULL]. *)
Definition llan_bdesc (x : llan) (sz : Z) : res Z :=
  if sz =? 0 then Ok 0
  else
    cassert (Z.land sz 0x3ff =? 0)
      (let sz := add64 (shr64 sz 10) (LLAN_BL_POOL_START - 1) in
       if LLAN_BL_COUNTER <=? sz then Ok 0 else Ok (add64 (ll_blist x) (8 * sz))).

(** A device page that may be read and written: its physical address. *)
Definition rw_page (x : llan) (a : Z) : res (option Z) :=
  let pg := shr64 a LOG_PGSIZE in
  if pg <? t_entries (ll_tce_data x) then
    let! e := aget (t_tab (ll_tce_data x)) pg in
    Ok (if (fget tce_read e =? 1) && (fget tce_write e =? 1) then Some (shl64 (fget tce_rpn e) LOG_PGSIZE) else None)
  else Ok None.

Definition psz : list Z := [1024 * 2; 1024 * 4; 1024 * 10].

Fixpoint init_pools (x : llan) (m : pmem) (pg : Z) (l : list Z) : res pmem :=
  match l with
  | [] => Ok m
  | sz :: l =>
      let! p := llan_bdesc x sz in
      cassert (negb (p =? 0))
        (let lbd := fset lbd_addr (fset lbd_len (fset lbd_ctrl_v 0 1) sz) pg in
         init_pools x (store64 m p lbd) (pg + 1) l)
  end.

Definition u8 (x : Z) : Z := x mod 2 ^ 8.
Definition mac_idx (s : lan) (d : Z) : res Z := let! x := get_lan s d in Ok (ll_mac_idx x).

Definition llan_register_locked (s : lan) (l bl rq fl mac : Z) : res (Z * lan) :=
  let! x := get_lan s l in
  cassert (negb (t_tce (ll_tce_data x) =? 0))
    (if negb (bl =? ALIGN_DOWN bl PGSIZE) then Ok (H_Parameter, s)
     else
       let! pg := rw_page x bl in
       match pg with
       | None => Ok (H_Parameter, s)
       | Some blist =>
           let x := set_areas x (ll_recvq x) blist (ll_mfilter x) in
           let s := put_lan s l x in
           cassert (fget lbd_ctrl_v rq =? 1)
             (let! recvq := llan_bd_tce_xlate x rq in
              let x := set_areas x recvq blist (ll_mfilter x) in
              let s := put_lan s l x in
              if recvq =? 0 then Ok (H_Parameter, s)
              else if negb (fget lbd_len rq mod 16 =? 0) then Ok (H_Parameter, s)
              else
                let x := set_ring x 1 0 (u16 (fget lbd_len rq / 16)) in
                let s := set_pm (put_lan s l x) (zero_mem (pm s) recvq (fget lbd_len rq)) in
                if negb (fl =? ALIGN_DOWN fl PGSIZE) then Ok (H_Parameter, s)
                else
                  let! pg := rw_page x fl in
                  match pg with
                  | None => Ok (H_Parameter, s)
                  | Some mfilter =>
                      let x := set_reg (set_areas x recvq blist mfilter) mac (ll_mac_idx x) (ll_registered x) in
                      let m := zero_mem (pm s) blist LLAN_BL_SIZE in
                      let m := store64 m (add64 blist (8 * LLAN_BL_RECVQ)) rq in
                      let bd := fset lbd_len (fset lbd_addr rq fl) (LL_MCAST_ENTRIES * 8) in
                      let m := store64 m (add64 blist (8 * LLAN_BL_FILTER)) bd in
                      let! m := init_pools x m 0 psz in
                      let x := set_pool x (repeat (repeat 0 (Z.to_nat LLAN_BL_POOL_NUM)) (Z.to_nat LLAN_BL_POOLS)) in
                      let s := set_pm (put_lan s l x) m in
                      let! (i, t) := llan_mac_add (mac_idx s) (ports s) l mac in
                      let s := set_ports s t in
                      cassert (negb (i =? -1)) (Ok (H_Success, put_lan s l (set_reg x mac i 1)))
                  end)
       end).

(** [thread] is [&os->cpu[0]->thread[0]]. *)
Definition llan_register (s : lan) (os thread uaddr bl rq fl mac : Z) : res (Z * lan) :=
  let! l := llan_get s uaddr in
  if l =? 0 then Ok (H_Parameter, s)
  else
    let! x := get_lan s l in
    if negb (llan_getos x =? os) then Ok (H_Parameter, s)
    else if ll_valid x =? 0 then Ok (H_Parameter, s)
    else
      let! locked := try_lock s l in
      match locked with
      | None => Ok (H_Parameter, s)
      | Some s =>
          if truth (ll_registered x) then Ok (H_Hardware, s)
          else
            let! (ret, s) := llan_register_locked s l bl rq fl mac in
            let! s := unlock s l in
            let! (_, m) := xir_default_config (irq s) (ll_interrupt x) thread l in
            Ok (ret, set_irq s m)
      end.

Definition llan_free (s : lan) (os uaddr : Z) : res (Z * lan) :=
  let! l := llan_get s uaddr in
  if l =? 0 then Ok (H_Parameter, s)
  else
    let! x := get_lan s l in
    cassert (llan_getos x =? os)
      (let! locked := try_lock s l in
       match locked with
       | None => Ok (H_Hardware, s)
       | Some s =>
           let! (ret, s) :=
             if truth (ll_registered x) then
               let! t := llan_mac_free (ports s) (ll_mac_idx x) (ll_mac x) in
               let! y := get_lan s l in
               Ok (H_Success, put_lan (set_ports s t) l (set_reg y (ll_mac y) (ll_mac_idx y) 0))
             else Ok (H_Parameter, s) in
           let! s := unlock s l in
           Ok (ret, s)
       end).

Definition llan_change_mac (s : lan) (os uaddr mac : Z) : res (Z * lan) :=
  let! l := llan_get s uaddr in
  if l =? 0 then Ok (H_Parameter, s)
  else
    let! x := get_lan s l in
    cassert (llan_getos x =? os)
      (let! locked := try_lock s l in
       match locked with
       | None => Ok (H_Hardware, s)
       | Some s =>
           let! (ret, s) :=
             if truth (ll_registered x) then
               let! (i, t) := llan_mac_change (ports s) l (ll_mac x) mac in
               let! y := get_lan s l in
               cassert (0 <? i) (Ok (H_Success, put_lan (set_ports s t) l (set_reg y mac i (ll_registered y))))
             else Ok (H_Parameter, s) in
           let! s := unlock s l in
           Ok (ret, s)
       end).

(** ** Multicast control *)

(** The result, [*state_p] if it was set, and the device and memory. *)
Definition llan_mcast_ctrl_locked (x : llan) (m : pmem) (fl : Z) : res (Z * option Z * llan * pmem) :=
  let known := Z.lor LMF_MODR (Z.lor LMF_MODR_ALLOW (Z.lor LMF_MODF (Z.lor LMF_MODF_ALLOW LMF_MODC_MASK))) in
  if truth (Z.land fl (not64 known)) then Ok (H_Parameter, None, x, m)
  else
    let st := ll_mcast_state x in
    let st := if truth (Z.land fl LMF_MODR)
              then if truth (Z.land fl LMF_MODR_ALLOW) then Z.lor st LL_MCAST_RECV else Z.land st (not32 LL_MCAST_RECV)
              else st in
    let st := if truth (Z.land fl LMF_MODF)
              then if truth (Z.land fl LMF_MODF_ALLOW) then Z.lor st LL_MCAST_FILTER else Z.land st (not32 LL_MCAST_FILTER)
              else st in
    let cnt := ll_mcast_count x in
    let! (ret, cnt, m) :=
      match Z.land fl LMF_MODC_MASK with
      | 0 => Ok (H_Success, cnt, m)
      | 1 => Ok (if cnt <? LL_MCAST_ENTRIES then (H_Success, u16 (cnt + 1), m) else (H_Constrained, cnt, m))
      | 2 => Ok (if 0 <? cnt then (H_Success, u16 (cnt - 1), m) else (H_NOT_FOUND, cnt, m))
      | 3 => Ok (H_Success, 0, zero_mem m (ll_mfilter x) PGSIZE)
      | _ => Fault Assert_failed
      end in
    let state := cnt in
    let state := if truth (Z.land st LL_MCAST_RECV) then Z.lor state LMF_MODR_ALLOW else state in
    let state := if truth (Z.land st LL_MCAST_FILTER) then Z.lor state LMF_MODF_ALLOW else state in
    Ok (ret, Some state, set_mcast x st cnt, m).

(** The result, and the value returned in register 1: [None] when it was not set. *)
Definition llan_mcast_ctrl (s : lan) (os uaddr fl mmac : Z) : res (Z * option Z * lan) :=
  let! l := llan_get s uaddr in
  if l =? 0 then Ok (H_Parameter, None, s)
  else
    let! x := get_lan s l in
    cassert (llan_getos x =? os)
      (let! locked := try_lock s l in
       match locked with
       | None => Ok (H_Parameter, None, s)
       | Some s =>
           let! x := get_lan s l in
           let! (ret, state, x, m) := llan_mcast_ctrl_locked x (pm s) fl in
           let! s := unlock (set_pm (put_lan s l x) m) l in
           Ok (ret, state, s)
       end).

(** ** Receive buffers *)

(** The first slot whose valid bit is [v]. *)
Fixpoint pool_scan (n : nat) (pool : list Z) (i v : Z) : res (option (Z * Z)) :=
  match n with
  | O => Ok None
  | S n => let! bd := aget pool i in if fget lbd_ctrl_v bd =? v then Ok (Some (i, bd)) else pool_scan n pool (i + 1) v
  end.

(** [l->ll_blist_pool[k][i] = bd] *)
Definition pool_set (x : llan) (k i bd : Z) : res llan :=
  let! row := aget (ll_blist_pool x) k in
  let! row := aset row i bd in
  let! l := aset (ll_blist_pool x) k row in
  Ok (set_pool x l).

Definition llan_add_buf (s : lan) (os uaddr bd : Z) : res (Z * lan) :=
  cassert (1024 <=? fget lbd_len bd)
    (let! l := llan_get s uaddr in
     if l =? 0 then Ok (H_Parameter, s)
     else
       let! x := get_lan s l in
       cassert (llan_getos x =? os)
         (let! locked := try_lock s l in
          match locked with
          | None => Ok (H_Hardware, s)
          | Some s =>
              cassert (fget lbd_ctrl_v bd =? 1)
                (let! x := get_lan s l in
                 let! bd_addr := llan_bd_tce_xlate x bd in
                 if bd_addr =? 0 then Ok (H_Parameter, s)
                 else
                   let! p := llan_bdesc x (fget lbd_len bd) in
                   cassert (negb (p =? 0))
                     (let lbd := load64 (pm s) p in
                      cassert (fget lbd_ctrl_v lbd =? 1)
                        (cassert (fget lbd_len lbd =? fget lbd_len bd)
                           (let! row := aget (ll_blist_pool x) (fget lbd_addr lbd) in
                            let! slot := pool_scan (Z.to_nat LLAN_BL_POOL_NUM) row 0 0 in
                            match slot with
                            | Some (i, _) =>
                                let! x := pool_set x (fget lbd_addr lbd) i bd in
                                let! s := unlock (put_lan s l x) l in
                                Ok (H_Success, s)
                            | None => let! s := unlock s l in Ok (H_Resource, s)
                            end))))
          end)).

(** The pool of the first descriptor that is long enough, as an [int]. *)
Fixpoint pool_search (n : nat) (x : llan) (m : pmem) (p size : Z) : option Z :=
  match n with
  | O => None
  | S n =>
      let lbd := load64 m (add64 (ll_blist x) (8 * p)) in
      if size <=? fget lbd_len lbd then Some (s32 (fget lbd_addr lbd)) else pool_search n x m (p + 1) size
  end.

(** The buffer's physical address, 0 for [NULL]. *)
Definition llan_getbuf (x : llan) (m : pmem) (size : Z) : res (Z * llan * pmem) :=
  let count :=
    let a := add64 (ll_blist x) (8 * LLAN_BL_COUNTER) in
    Ok (0, x, store64 m a (add64 (load64 m a) 1)) in
  match pool_search (Z.to_nat (LLAN_BL_POOL_END - LLAN_BL_POOL_START)) x m LLAN_BL_POOL_START size with
  | None => count
  | Some k =>
      let! row := aget (ll_blist_pool x) k in
      let! slot := pool_scan (Z.to_nat LLAN_BL_POOL_NUM) row 0 1 in
      match slot with
      | None => count
      | Some (b, bd) =>
          let bd := fset lbd_ctrl_v bd 0 in
          let! x := pool_set x k b bd in
          let! rb := llan_bd_tce_xlate x bd in
          Ok (rb, x, m)
      end
  end.

(** [rq] is the entry's first doubleword; its second is read from the buffer. *)
Definition llan_write_rqe (x : llan) (m : pmem) (rq rb : Z) : llan * pmem :=
  let rqp := add64 (ll_recvq x) (16 * ll_recvq_idx x) in
  let rq := fset lrqe_vtoggle rq (Z.land (ll_recvq_toggle x) 1) in
  let idx := u16 (ll_recvq_idx x + 1) in
  let x := if ll_recvq_end x <=? idx then set_ring x (u8 (ll_recvq_toggle x + 1)) 0 (ll_recvq_end x)
           else set_ring x (ll_recvq_toggle x) idx (ll_recvq_end x) in
  let handle := load64 m rb in
  let m := zero_mem m rqp 8 in
  let m := store64 m (add64 rqp 8) handle in
  (x, store64 m rqp rq).

Definition llan_freebuf (s : lan) (os uaddr size : Z) : res (Z * lan) :=
  let! l := llan_get s uaddr in
  if l =? 0 then Ok (H_Parameter, s)
  else
    let! x := get_lan s l in
    cassert (llan_getos x =? os)
      (let! (rb, x, m) := llan_getbuf x (pm s) size in
       let s := set_pm (put_lan s l x) m in
       if rb =? 0 then Ok (H_NOT_FOUND, s)
       else
         let '(x, m) := llan_write_rqe x m (fset lrqe_len 0 size) rb in
         Ok (H_Success, set_pm (put_lan s l x) m)).

(** ** Sending *)

(** The fragments at [pa], of the lengths of the descriptors, one after the other. *)
Fixpoint copy_bits (m : pmem) (p : Z) (frags : list (Z * Z)) : pmem :=
  match frags with
  | [] => m
  | (pa, bd) :: l => copy_bits (copy_mem m p pa (fget lbd_len bd)) (add64 p (fget lbd_len bd)) l
  end.

Section Send.
Context (other_handler : Z -> machine -> Z -> xh_ptr -> Z -> Z -> res (Z * Z * machine)).

(** [frags]: the addresses and descriptors of the [end] fragments, not empty. *)
Definition llan_enqueue (s : lan) (l sum : Z) (frags : list (Z * Z)) : res (Z * lan) :=
  let! x := get_lan s l in
  let! (pa0, _) := of_option Out_of_bounds (head frags) in
  let align := CACHE_LINE_SIZE + Z.land pa0 (CACHE_LINE_SIZE - 1) in
  let! (rb, x, m) := llan_getbuf x (pm s) (add64 sum align) in
  let s := set_pm (put_lan s l x) m in
  if rb =? 0 then Ok (H_Busy, s)
  else
    let rq := fset lrqe_len (fset lrqe_off (fset lrqe_v 0 1) align) sum in
    let m := copy_bits m (add64 rb (fget lrqe_off rq)) frags in
    let '(x, m) := llan_write_rqe x m rq rb in
    let s := set_pm (put_lan s l x) m in
    let! (_, _, i) := xir_raise other_handler (irq s) (ll_interrupt x) in
    Ok (H_Success, set_irq s i).

Fixpoint broadcast_loop (n : nat) (s : lan) (i mac sum : Z) (frags : list (Z * Z)) (ret : Z) : res (Z * lan) :=
  match n with
  | O => Ok (ret, s)
  | S n =>
      let! p := aget (ports s) i in
      if negb (lm_mac p =? 0) && negb (lm_mac p =? mac) then
        let! d := get_lan s (lm_lan p) in
        if Z.land (ll_mcast_state d) LL_MCAST_RECV =? 0 then broadcast_loop n s (i + 1) mac sum frags ret
        else
          let! (lret, s) := llan_enqueue s (lm_lan p) sum frags in
          broadcast_loop n s (i + 1) mac sum frags (if negb (lret =? H_Success) then lret else ret)
      else broadcast_loop n s (i + 1) mac sum frags ret
  end.

Definition llan_broadcast (s : lan) (l sum : Z) (frags : list (Z * Z)) : res (Z * lan) :=
  let! x := get_lan s l in
  broadcast_loop (Z.to_nat LLAN_IFACES) s 0 (ll_mac x) sum frags H_Success.

(** The descriptors up to the first empty one, translated; [None] when one does not
    translate. *)
Fixpoint gather (x : llan) (bds : list Z) (sum : Z) : res (option (list (Z * Z) * Z)) :=
  match bds with
  | [] => Ok (Some ([], sum))
  | bd :: bds =>
      let sz := fget lbd_len bd in
      if 0 <? sz then
        cassert (fget lbd_ctrl_v bd =? 1)
          (let! pa := llan_bd_tce_xlate x bd in
           if pa =? 0 then Ok None
           else
             let! r := gather x bds (add64 sum sz) in
             Ok (match r with Some (l, sum) => Some ((pa, bd) :: l, sum) | None => None end))
      else Ok (Some ([], sum))
  end.

(** Six bytes of the header, most significant first. *)
Definition mac_at (hdr : list Z) (o : nat) : Z :=
  let b i := default 0 (hdr !! (o + i)%nat) in
  Z.lor (Z.lor (Z.lor (Z.lor (Z.lor (b 5%nat) (shl64 (b 4%nat) 8)) (shl64 (b 3%nat) 16)) (shl64 (b 2%nat) 24))
    (shl64 (b 1%nat) 32)) (shl64 (b 0%nat) 40).

Definition llan_send_locked (s : lan) (l : Z) (bds : list Z) (token : Z) : res (Z * lan) :=
  cassert (token =? 0)
    (let! x := get_lan s l in
     let! r := gather x bds 0 in
     match r with
     | None => Ok (H_Parameter, s)
     | Some ([], _) => Ok (H_Parameter, s)
     | Some ((pa0, bd0) :: l', sum) =>
         let frags := (pa0, bd0) :: l' in
         if ll_size x <? sum then Ok (H_Parameter, s)
         else
           cassert (13 <? fget lbd_len bd0)
             (let hdr := copy_in (pm s) pa0 14 in
              let dst := mac_at hdr 0 in
              let src := mac_at hdr 6 in
              let! (_, t) := llan_mac_cache_add (ports s) (ll_mac_idx x) l src in
              let s := set_ports s t in
              if negb (dst =? bcast) then
                let! (ld, _) := llan_mac_find (ports s) dst in
                if negb (ld =? 0) then llan_enqueue s ld sum frags else llan_broadcast s l sum frags
              else llan_broadcast s l sum frags)
     end).

(** The result and the value returned in register 1, if any. *)
Definition llan_send (s : lan) (os uaddr : Z) (bds : list Z) (token : Z) : res (Z * option Z * lan) :=
  let! l := llan_get s uaddr in
  if l =? 0 then Ok (H_Parameter, None, s)
  else
    let! x := get_lan s l in
    cassert (llan_getos x =? os)
      (let! locked := try_lock s l in
       match locked with
       | None => Ok (H_Parameter, None, s)
       | Some s =>
           let! (ret, s) := llan_send_locked s l bds token in
           let! s := unlock s l in
           Ok (ret, Some token, s)
       end).
End Send.

(** ** Creating and releasing devices *)
Definition no_tce : tce_data := TceData 0 0 0 0 [].

(** [struct llan] after [memset]. *)
Definition zero_llan : llan :=
  Llan 0 no_tce (repeat (repeat 0 (Z.to_nat LLAN_BL_POOL_NUM)) (Z.to_nat LLAN_BL_POOLS)) 0 0 0 0 0 0 0 0 0 0 0 0 0 0 0 0.

(** [hfree] of the device: the object is larger than any cache's and its pages go back
    to the page allocator. *)
Definition free_llan (s : lan) (l : Z) : res lan :=
  cassert (negb (l =? 0))
    (let! pa := free_pages (pool s) l (ALIGN_UP SIZEOF_LLAN PGSIZE) in
     Ok (set_pages (set_lans s (delete l (lans s))) pa)).

(** The device, 0 for [NULL].  [halloc] takes an object of this size from the page
    allocator, which reports failure as [PAGE_ALLOC_ERROR]: not [NULL], and clearing
    it is a fault. *)
Definition llan_acquire_internal (s : lan) (dma_range : Z) : res (Z * lan) :=
  let! (l, pa) := get_pages (pool s) SIZEOF_LLAN in
  let s := set_pages s pa in
  if l =? 0 then let! s := free_llan s l in Ok (0, s)
  else
    let! (isrc, m) := xir_find (irq s) XIRR_CLASS_LLAN in
    let s := set_irq s m in
    cassert (negb (isrc =? -1))
      (let xenc := xirr_encode isrc XIRR_CLASS_LLAN in
       check! negb (l =? PAGE_ALLOC_ERROR) else Out_of_bounds in
       let! (dma, t, pa) := tce_alloc (pool s) no_tce 0 dma_range in
       let s := set_pages s pa in
       if 0 <? dma then
         let x := Llan (Z.lor (shl64 2 40) xenc) t (ll_blist_pool zero_llan) 0 0 0 0 LLAN_MEM_SZ dma lock_init xenc 0 0 0 1 0 0 0 0 in
         Ok (l, put_lan s l x)
       else
         let! (_, pa) := tce_free (pool s) t in
         let s := set_pages s pa in
         let! (_, m) := xir_default_config (irq s) xenc 0 0 in
         let! s := free_llan (set_irq s m) l in
         Ok (0, s)).

Definition llan_release (s : lan) (os liobn : Z) : res (Z * lan) :=
  let! l := llan_get s liobn in
  if l =? 0 then Ok (H_Parameter, s)
  else
    let! x := get_lan s l in
    if negb (llan_getos x =? os) then Ok (H_Parameter, s)
    else
      let! (_, s) := llan_free s os liobn in
      let! x := get_lan s l in
      let! (t, pa) := tce_free (pool s) (ll_tce_data x) in
      let s := set_pages (put_lan s l (set_tce x t)) pa in
      let! (_, m) := xir_default_config (irq s) (ll_interrupt x) 0 0 in
      let! s := free_llan (set_irq s m) l in
      Ok (H_Success, s).

Definition llan_accept (s : lan) (os liobn : Z) : res (Z * option Z) :=
  let! l := llan_get s liobn in
  if l =? 0 then Ok (H_Parameter, None)
  else let! x := get_lan s l in
       Ok (if os =? llan_getos x then (H_Success, Some liobn) else (H_Parameter, None)).

Definition llan_invalidate (s : lan) (os liobn : Z) : res (Z * lan) :=
  let! l := llan_get s liobn in
  if l =? 0 then Ok (H_Parameter, s)
  else let! x := get_lan s l in
       Ok (H_Success, if os =? llan_getos x then put_lan s l (set_valid x 0) else s).

Definition llan_return (s : lan) (os liobn : Z) : res Z :=
  let! l := llan_get s liobn in Ok (if l =? 0 then H_Parameter else H_Success).

(** ** The hypervisor calls *)

(** [thread->cpu->os] *)
Definition thread_os (s : lan) (thread : Z) : res Z :=
  let! t := get_thread (irq s) thread in
  let! c := get_cpu (irq s) (thr_cpu t) in
  Ok (cpu_os c).

Section Calls.
Context (other_handler : Z -> machine -> Z -> xh_ptr -> Z -> Z -> res (Z * Z * machine)).

(** The calls a partition makes, by the thread that makes them; [First] is the first
    thread of its partition. *)
Inductive lan_call :=
  | Register (First uaddr bl rq fl mac : Z)
  | Free (uaddr : Z)
  | Change_mac (uaddr mac : Z)
  | Multicast (uaddr flags mmac : Z)
  | Add_buffer (uaddr bufd : Z)
  | Free_buffer (uaddr size : Z)
  | Send (uaddr bd1 bd2 bd3 bd4 bd5 bd6 token : Z).

Definition h_register_logical_lan (s : lan) (thread First uaddr bl rq fl mac : Z) : res (Z * lan) :=
  let! os := thread_os s thread in llan_register s os First uaddr bl rq fl mac.
Definition h_free_logical_lan (s : lan) (thread uaddr : Z) : res (Z * lan) :=
  let! os := thread_os s thread in llan_free s os uaddr.
Definition h_change_logical_lan_mac (s : lan) (thread uaddr mac : Z) : res (Z * lan) :=
  let! os := thread_os s thread in llan_change_mac s os uaddr mac.
Definition h_multicast_ctrl (s : lan) (thread uaddr flags mmac : Z) : res (Z * option Z * lan) :=
  let! os := thread_os s thread in llan_mcast_ctrl s os uaddr flags mmac.
Definition h_add_logical_lan_buffer (s : lan) (thread uaddr bufd : Z) : res (Z * lan) :=
  let! os := thread_os s thread in llan_add_buf s os uaddr bufd.
Definition h_free_logical_lan_buffer (s : lan) (thread uaddr size : Z) : res (Z * lan) :=
  let! os := thread_os s thread in llan_freebuf s os uaddr size.
Definition h_send_logical_lan (s : lan) (thread uaddr bd1 bd2 bd3 bd4 bd5 bd6 token : Z) : res (Z * option Z * lan) :=
  let! os := thread_os s thread in llan_send other_handler s os uaddr [bd1; bd2; bd3; bd4; bd5; bd6] token.

(** A call and the state after it. *)
Definition lan_step (s : lan) (thread : Z) (c : lan_call) : res lan :=
  match c with
  | Register f u bl rq fl mac => let! (_, s) := h_register_logical_lan s thread f u bl rq fl mac in Ok s
  | Free u => let! (_, s) := h_free_logical_lan s thread u in Ok s
  | Change_mac u mac => let! (_, s) := h_change_logical_lan_mac s thread u mac in Ok s
  | Multicast u f mm => let! (_, _, s) := h_multicast_ctrl s thread u f mm in Ok s
  | Add_buffer u b => let! (_, s) := h_add_logical_lan_buffer s thread u b in Ok s
  | Free_buffer u n => let! (_, s) := h_free_logical_lan_buffer s thread u n in Ok s
  | Send u b1 b2 b3 b4 b5 b6 tok => let! (_, _, s) := h_send_logical_lan s thread u b1 b2 b3 b4 b5 b6 tok in Ok s
  end.
End Calls.

(** ** Well-formedness *)

(** The pools have their shape, the next entry is inside the receive queue, the counters
    are in range, and the areas are physical addresses. *)
Record dev_wf (x : llan) : Prop := {
  dw_pools : Z.of_nat (length (ll_blist_pool x)) = LLAN_BL_POOLS;
  dw_rows : Forall (fun r => Z.of_nat (length r) = LLAN_BL_POOL_NUM) (ll_blist_pool x);
  dw_end : 0 <= ll_recvq_end x < 2 ^ 16;
  dw_idx : 0 <= ll_recvq_idx x < Z.max 1 (ll_recvq_end x);
  dw_toggle : 0 <= ll_recvq_toggle x < 2 ^ 8;
  dw_count : 0 <= ll_mcast_count x <= LL_MCAST_ENTRIES;
  dw_recvq : 0 <= ll_recvq x < 2 ^ 53;
  dw_blist : 0 <= ll_blist x < 2 ^ 53 /\ (PGSIZE | ll_blist x)
}.

(** A registered device has a port, of its address, and a port in use belongs to a
    registered device that knows it. *)
Record lan_wf (v : gmap Z llan) (t : list llan_ports_s) : Prop := {
  lw_tab : tab_wf t;
  lw_dev l x : v !! l = Some x -> l <> 0 /\ dev_wf x;
  lw_reg l x : v !! l = Some x -> ll_registered x <> 0 ->
    0 <= ll_mac_idx x /\ exists p, t !! Z.to_nat (ll_mac_idx x) = Some p /\ lm_lan p = l /\ lm_mac p = ll_mac x;
  lw_idx l x : v !! l = Some x -> 0 <= ll_mac_idx x < LLAN_IFACES;
  lw_port i p : t !! i = Some p -> lm_lan p <> 0 ->
    exists x, v !! lm_lan p = Some x /\ ll_registered x <> 0 /\ Z.to_nat (ll_mac_idx x) = i
}.

(** The same registration; without one, the address may change. *)
Definition reg_same (x y : llan) : Prop :=
  ll_registered y = ll_registered x /\ (ll_registered x <> 0 -> ll_mac y = ll_mac x) /\ ll_mac_idx y = ll_mac_idx x.

Lemma wf_put v t l x y :
  lan_wf v t -> v !! l = Some x -> reg_same x y -> dev_wf y -> lan_wf (<[l := y]> v) t.
Proof.
  intros [Ht Hd Hr Hi Hp] Hx (E1 & E2 & E3) Hy. split; [done| | | |].
  - intros k z [[<- <-]|[_ Hz]]%lookup_insert_Some; [split; [by eapply Hd|done]|by apply Hd].
  - intros k z [[<- <-]|[_ Hz]]%lookup_insert_Some; [rewrite E1, E3; intros Hne; rewrite E2 by done; by apply Hr|by apply Hr].
  - intros k z [[<- <-]|[_ Hz]]%lookup_insert_Some; [rewrite E3; by eapply Hi|by eapply Hi].
  - intros i p Hip Hne. destruct (Hp i p Hip Hne) as (z & Hz & H1 & H2). destruct (decide (l = lm_lan p)) as [E|E].
    + subst l. rewrite Hx in Hz. injection Hz as <-. exists y. rewrite lookup_insert_eq. split; [done|]. by rewrite E1, E3.
    + exists z. by rewrite lookup_insert_ne.
Qed.

Lemma wf_ports_same v t t' : lan_wf v t -> tab_wf t' -> ports_same t t' -> lan_wf v t'.
Proof.
  intros [Ht Hd Hr Hi Hp] Ht' Hs. split; [done|done| |done|].
  - intros l x Hx Hx1. destruct (Hr l x Hx Hx1) as (H0 & p & Hip & H1 & H2). split; [done|].
    destruct (ports_same_lookup_l _ _ _ _ Hs Hip) as (p' & Hp' & E1 & E2). exists p'. split; [done|]. by rewrite E1, E2.
  - intros i p' Hip Hne. destruct (ports_same_lookup _ _ _ _ Hs Hip) as (p & Hip' & E1 & E2). rewrite E2 in *. by apply Hp.
Qed.

(** Stepping through a run that ended well. *)
Ltac run H :=
  repeat first
    [ progress cbn [res_bind cassert] in H
    | discriminate H
    | match type of H with
      | res_bind ?m _ = Ok _ => let a := fresh "r" in let E := fresh "E" in apply res_bind_ok in H as (a & E & H)
      | cassert ?b _ = Ok _ => let E := fresh "A" in destruct b eqn:E; [|discriminate H]
      | (match ?a with pair _ _ => _ end) = Ok _ => is_var a; destruct a
      | (if ?b then _ else _) = Ok _ => let E := fresh "B" in destruct b eqn:E
      | (match ?a with Some _ => _ | None => _ end) = Ok _ => is_var a; destruct a
      end ].

Lemma get_lan_inv s l x : get_lan s l = Ok x -> lans s !! l = Some x.
Proof. unfold get_lan. by destruct (lans s !! l); intros [= ->]. Qed.

Lemma try_lock_inv s l s' :
  try_lock s l = Ok (Some s') -> exists x w, lans s !! l = Some x /\ s' = put_lan s l (set_lock x w).
Proof.
  unfold try_lock. intros H. run H. apply get_lan_inv in E. destruct (lock_tryacquire (ll_lock r)) as [w ok].
  destruct (truth ok); [|done]. injection H as <-. eauto.
Qed.

Lemma unlock_inv s l s' : unlock s l = Ok s' -> exists x, lans s !! l = Some x /\ s' = put_lan s l (set_lock x lock_unlocked).
Proof. unfold unlock. intros H. run H. apply get_lan_inv in E. injection H as <-. eauto. Qed.

Definition wf (s : lan) : Prop := lan_wf (lans s) (ports s).

(** The lock is not part of what is well-formed. *)
Lemma wf_set_lock s l x w : wf s -> lans s !! l = Some x -> wf (put_lan s l (set_lock x w)).
Proof. intros Hs Hx. apply (wf_put _ _ l x); [done|done|done|]. destruct (proj2 (lw_dev _ _ Hs l x Hx)). by split. Qed.

Lemma try_lock_wf s l s' : wf s -> try_lock s l = Ok (Some s') -> wf s'.
Proof. intros Hs H. apply try_lock_inv in H as (x & w & Hx & ->). by apply wf_set_lock. Qed.

Lemma unlock_wf s l s' : wf s -> unlock s l = Ok s' -> wf s'.
Proof. intros Hs H. apply unlock_inv in H as (x & Hx & ->). by apply wf_set_lock. Qed.

(** ** Registration keeps the table and the devices in step *)
Lemma wf_no_port v t l x : lan_wf v t -> v !! l = Some x -> ll_registered x = 0 -> forall i, ~ port_of t i l.
Proof.
  intros Hw Hx H0 i (Hi & p & Hp & E). destruct (lw_port _ _ Hw _ _ Hp) as (y & Hy & H1 & _).
  - rewrite E. by apply (lw_dev _ _ Hw l x).
  - rewrite E, Hx in Hy. by injection Hy as <-.
Qed.

Lemma wf_add v t t0 l x y i p cache next :
  lan_wf v t -> v !! l = Some x -> ll_registered x = 0 -> ports_same t t0 -> 0 <= i -> t0 !! Z.to_nat i = Some p -> lm_lan p = 0 ->
  tab_wf (<[Z.to_nat i := Port (ll_mac y) cache l next]> t0) -> dev_wf y -> ll_registered y <> 0 -> ll_mac_idx y = i ->
  lan_wf (<[l := y]> v) (<[Z.to_nat i := Port (ll_mac y) cache l next]> t0).
Proof.
  intros Hw Hx H0 Hs Hi Hp Hp0 Ht Hy Hr Ei. pose proof Hw as [Ht0 Hd Hreg Hidx Hport].
  assert (l <> 0) as Hl by (by eapply Hd). apply lookup_lt_Some in Hp as Hlt.
  assert (Z.to_nat i < Z.to_nat LLAN_IFACES)%nat as Hlt'. { rewrite <- (tw_len _ Ht), length_insert, Nat2Z.id. done. }
  split; [done| | | |].
  - intros k z [[<- <-]|[_ Hz]]%lookup_insert_Some; [done|by apply Hd].
  - intros k z [[<- <-]|[Hne Hz]]%lookup_insert_Some Hzr.
    + rewrite Ei. split; [done|]. eexists. split; [by apply list_lookup_insert_eq|done].
    + destruct (Hreg k z Hz Hzr) as (G0 & q & Hq & Eq1 & Eq2). split; [done|].
      destruct (ports_same_lookup_l _ _ _ _ Hs Hq) as (q' & Hq' & F1 & F2). exists q'. rewrite F1, F2. split; [|done].
      rewrite list_lookup_insert_ne; [done|]. intros E. rewrite <- E, Hp in Hq'. injection Hq' as <-.
      rewrite F2 in Hp0. rewrite Hp0 in Eq1. subst k. by apply (Hd 0 z) in Hz as [? _].
  - intros k z [[<- <-]|[_ Hz]]%lookup_insert_Some; [lia|by eapply Hidx].
  - intros j q [(<- & <- & _)|[Hne Hq]]%list_lookup_insert_Some Hq0; simpl.
    + exists y. rewrite lookup_insert_eq. by subst i.
    + destruct (ports_same_lookup _ _ _ _ Hs Hq) as (q' & Hq' & F1 & F2). rewrite F2 in Hq0 |- *.
      destruct (Hport j q' Hq' Hq0) as (z & Hz & Hz1 & Hz2). exists z. rewrite lookup_insert_ne; [done|].
      intros E. rewrite <- E, Hx in Hz. by injection Hz as <-.
Qed.

(** The port of a registered device. *)
Lemma wf_own_port v t l x :
  lan_wf v t -> v !! l = Some x -> ll_registered x <> 0 ->
  0 <= ll_mac_idx x /\ exists p, t !! Z.to_nat (ll_mac_idx x) = Some p /\ lm_lan p = l /\ lm_mac p = ll_mac x /\
    forall j q, t !! j = Some q -> lm_lan q = l -> j = Z.to_nat (ll_mac_idx x).
Proof.
  intros Hw Hx Hr. destruct (lw_reg _ _ Hw l x Hx Hr) as (H0 & p & Hp & E1 & E2). split; [done|]. exists p. split_and!; try done.
  intros j q Hq Eq. eapply (tw_once _ (lw_tab _ _ Hw)); [exact Hq|exact Hp| |congruence].
  rewrite Eq. by apply (lw_dev _ _ Hw l x).
Qed.

(** Replacing the port of a registered device along with the device. *)
Lemma wf_swap v t l x y q :
  lan_wf v t -> v !! l = Some x -> ll_registered x <> 0 -> dev_wf y -> ll_mac_idx y = ll_mac_idx x ->
  tab_wf (<[Z.to_nat (ll_mac_idx x) := q]> t) ->
  (ll_registered y = 0 /\ lm_lan q = 0 \/ ll_registered y <> 0 /\ lm_lan q = l /\ lm_mac q = ll_mac y) ->
  lan_wf (<[l := y]> v) (<[Z.to_nat (ll_mac_idx x) := q]> t).
Proof.
  intros Hw Hx Hr Hy Ei Ht Hq. destruct (wf_own_port v t l x Hw Hx Hr) as (H0 & p & Hp & E1 & E2 & Hu).
  pose proof Hw as [_ Hd Hreg Hidx Hport]. assert (l <> 0) as Hl by (by eapply Hd). apply lookup_lt_Some in Hp as Hlt.
  split; [done| | | |].
  - intros k z [[<- <-]|[_ Hz]]%lookup_insert_Some; [done|by apply Hd].
  - intros k z [[<- <-]|[Hne Hz]]%lookup_insert_Some Hzr.
    + rewrite Ei. split; [done|]. exists q. rewrite list_lookup_insert_eq by done. by destruct Hq as [[? ?]|(? & ? & ?)].
    + destruct (Hreg k z Hz Hzr) as (G0 & r & Hr' & Er1 & Er2). split; [done|]. exists r. split; [|done].
      rewrite list_lookup_insert_ne; [done|]. intros E. rewrite <- E, Hp in Hr'. injection Hr' as <-. congruence.
  - intros k z [[<- <-]|[_ Hz]]%lookup_insert_Some; [rewrite Ei; by eapply Hidx|by eapply Hidx].
  - intros j r [(<- & <- & _)|[Hne Hj]]%list_lookup_insert_Some Hr0.
    + destruct Hq as [[? ?]|(? & -> & ?)]; [done|]. exists y. rewrite lookup_insert_eq, Ei. done.
    + destruct (Hport j r Hj Hr0) as (z & Hz & Hz1 & Hz2). exists z. rewrite lookup_insert_ne; [done|].
      intros E. apply Hne. symmetry. by apply (Hu j r).
Qed.

(** ** The operations keep the devices well-formed *)
Lemma reg_same_trans x y z : reg_same x y -> reg_same y z -> reg_same x z.
Proof. intros (A1 & A2 & A3) (B1 & B2 & B3). split_and!; try congruence. intros H. rewrite B2, A2 by congruence. done. Qed.

Lemma pool_set_dev x k i bd y :
  dev_wf x -> pool_set x k i bd = Ok y -> dev_wf y /\ reg_same x y /\
    exists row, 0 <= k /\ ll_blist_pool x !! Z.to_nat k = Some row /\ 0 <= i < Z.of_nat (length row) /\
      y = set_pool x (<[Z.to_nat k := <[Z.to_nat i := bd]> row]> (ll_blist_pool x)).
Proof.
  intros [H1 H2 H3 H4 H5 H6 H7 H8] H. unfold pool_set in H. run H. injection H as <-.
  apply aget_inv in E as [K1 K2]. apply aset_inv in E0 as [L1 ->]. apply aset_inv in E1 as [_ ->].
  split; [|split; [done|exists r; split_and!; done || lia]]. split; simpl; try done.
  - by rewrite length_insert.
  - apply Forall_insert; [done|]. rewrite length_insert. by apply (proj1 (Forall_lookup _ _) H2 _ _ K2).
Qed.

Lemma getbuf_dev x m size rb y m' :
  dev_wf x -> llan_getbuf x m size = Ok (rb, y, m') -> dev_wf y /\ reg_same x y.
Proof.
  intros Hx H. unfold llan_getbuf in H. destruct (pool_search _ _ _ _ _) as [k|]; [|by injection H as <- <- <-].
  run H; [|by injection H as <- <- <-].
  injection H as <- <- <-. destruct (pool_set_dev _ _ _ _ _ Hx E1) as (? & ? & _). done.
Qed.

Lemma write_rqe_dev x m rq rb y m' : dev_wf x -> llan_write_rqe x m rq rb = (y, m') -> dev_wf y /\ reg_same x y.
Proof.
  intros [H1 H2 H3 H4 H5 H6 H7 H8] H. unfold llan_write_rqe in H. injection H as <- <-.
  assert (u16 (ll_recvq_idx x + 1) = ll_recvq_idx x + 1 \/ u16 (ll_recvq_idx x + 1) = 0) as Hu.
  { destruct (decide (ll_recvq_idx x + 1 = 2 ^ 16)) as [->|]; [by right|]. left. apply Z.mod_small. lia. }
  destruct (Z.leb_spec (ll_recvq_end x) (u16 (ll_recvq_idx x + 1))); split; try done; split; simpl; try done; try lia.
  apply Z.mod_pos_bound. lia.
Qed.

(** A device updated in place. *)
Lemma wf_update s l x y : wf s -> lans s !! l = Some x -> dev_wf y -> reg_same x y -> wf (put_lan s l y).
Proof. intros Hs Hx Hy Hr. by apply (wf_put _ _ l x). Qed.

Lemma wf_dev s l x : wf s -> lans s !! l = Some x -> dev_wf x.
Proof. intros Hs Hx. by apply (lw_dev _ _ Hs l x). Qed.

Lemma mcast_dev x m fl r st y m' :
  dev_wf x -> llan_mcast_ctrl_locked x m fl = Ok (r, st, y, m') -> dev_wf y /\ reg_same x y.
Proof.
  intros Hx H. pose proof Hx as [H1 H2 H3 H4 H5 H6 H7 H8]. unfold llan_mcast_ctrl_locked in H.
  destruct (truth _); [by injection H as <- <- <- <-|].
  apply res_bind_ok in H as ([[ret cnt] m1] & E & H). injection H as <- <- <- <-.
  assert (0 <= cnt <= LL_MCAST_ENTRIES) as Hc; [|split; [by split|done]].
  unfold LL_MCAST_ENTRIES in *. destruct (Z.land fl LMF_MODC_MASK) as [|[[]|[]|]|]; try done;
    try (destruct (Z.ltb_spec (ll_mcast_count x) 255)); try (destruct (Z.ltb_spec 0 (ll_mcast_count x)));
    injection E as <- <- <-; unfold u16; rewrite ?Z.mod_small by lia; lia.
Qed.

(** Translated addresses are physical. *)
Lemma page_range e :
  0 <= shl64 (fget tce_rpn e) LOG_PGSIZE <= 2 ^ 52 - PGSIZE /\ (PGSIZE | shl64 (fget tce_rpn e) LOG_PGSIZE).
Proof.
  pose proof (fget_range tce_rpn e ltac:(field_side)) as H. simpl f_len in H. unfold shl64, LOG_PGSIZE, PGSIZE.
  rewrite Z.shiftl_mul_pow2, u64_small by lia. split; [unfold LOG_PGSIZE; lia|]. by exists (fget tce_rpn e).
Qed.

Lemma rw_page_range x a pg : rw_page x a = Ok (Some pg) -> 0 <= pg < 2 ^ 53 /\ (PGSIZE | pg).
Proof.
  unfold rw_page. intros H. run H. destruct (_ && _); [|done]. injection H as <-. destruct (page_range r) as [H1 H2].
  split; [unfold PGSIZE in *; lia|done].
Qed.

Lemma xlate_range t bd r : tce_bd_xlate t bd = Ok r -> 0 <= r < 2 ^ 53.
Proof.
  unfold tce_bd_xlate. intros H. run H; [|injection H as <-; lia]. injection H as <-.
  destruct (page_range r1) as [H1 _]. pose proof (fget_range lbd_addr bd ltac:(field_side)) as H2. simpl f_len in H2.
  assert (PGSIZE = 2 ^ 12) as Hpg by reflexivity. rewrite Hpg in *.
  rewrite (ALIGN_DOWN_pow2 (fget lbd_addr bd) 12) by (unfold is_u64; lia).
  assert (0 <= fget lbd_addr bd - fget lbd_addr bd / 2 ^ 12 * 2 ^ 12 < 2 ^ 12) by dlia.
  rewrite sub64_small, add64_small by lia. lia.
Qed.

(** Taking a port is the last step of a registration. *)
Lemma join_wf s l y mac i t :
  wf s -> lans s !! l = Some y -> ll_registered y = 0 -> llan_mac_add (mac_idx s) (ports s) l mac = Ok (i, t) -> i <> -1 ->
  wf (put_lan (set_ports s t) l (set_reg y mac i 1)).
Proof.
  intros Hs Hy H0 H Hi. pose proof (lw_dev _ _ Hs l y Hy) as [Hl Hd].
  destruct (llan_mac_add_spec (mac_idx s) (ports s) l mac) as (r & t0 & t' & E & Ht' & Ht0 & Hsame & Hcase).
  - apply Hs.
  - done.
  - by eapply wf_no_port.
  - intros k d Hd0 (_ & p & Hp & Ep). destruct (lw_port _ _ Hs _ _ Hp) as (z & Hz & _); [congruence|].
    exists (ll_mac_idx z). unfold mac_idx, get_lan. rewrite <- Ep, Hz. split; [done|]. by eapply (lw_idx _ _ Hs).
  - rewrite H in E. injection E as <- <-. destruct Hcase as [[? _]|(H1 & p & Hp & Hp0 & ->)]; [done|].
    apply (wf_add _ (ports s) t0 l y (set_reg y mac i 1) i p); try done. by destruct Hd.
Qed.

Lemma lan_register_locked_wf s l x bl rq fl mac r s' :
  wf s -> lans s !! l = Some x -> ll_registered x = 0 -> llan_register_locked s l bl rq fl mac = Ok (r, s') -> wf s'.
Proof.
  intros Hs Hx H0 H. pose proof (wf_dev s l x Hs Hx) as [D1 D2 D3 D4 D5 D6 D7 D8].
  assert (forall y, ll_registered y = 0 -> ll_mac_idx y = ll_mac_idx x -> dev_wf y -> lan_wf (<[l := y]> (lans s)) (ports s)) as Hput.
  { intros y E1 E2 Hy. apply (wf_put _ _ l x); [done|done| |done]. split; [congruence|]. split; [by rewrite H0|done]. }
  unfold llan_register_locked in H. apply res_bind_ok in H as (x' & Ex & H). apply get_lan_inv in Ex. rewrite Hx in Ex. injection Ex as <-.
  assert (forall y e, Z.of_nat (length (ll_blist_pool y)) = LLAN_BL_POOLS ->
    Forall (fun r => Z.of_nat (length r) = LLAN_BL_POOL_NUM) (ll_blist_pool y) -> ll_recvq_end y = u16 e -> ll_recvq_idx y = 0 ->
    ll_recvq_toggle y = 1 -> ll_mcast_count y = ll_mcast_count x -> 0 <= ll_recvq y < 2 ^ 53 ->
    0 <= ll_blist y < 2 ^ 53 /\ (PGSIZE | ll_blist y) -> dev_wf y) as Hring.
  { intros y e P1 P2 R1 R2 R3 R4 R5 R6. assert (0 <= u16 e < 2 ^ 16) by (apply Z.mod_pos_bound; lia).
    split; rewrite ?R1, ?R2, ?R3, ?R4; done || lia. }
  run H; try (injection H as <- <-; done); try apply rw_page_range in E; try apply xlate_range in E0;
    try (injection H as <- <-; unfold wf; simpl; rewrite ?insert_insert_eq; apply Hput; [done|done|]; first [by split | by eapply Hring]).
  injection H as <- <-. match type of E3 with llan_mac_add (mac_idx ?s1) _ _ _ = _ => assert (wf s1) as Hs1 end.
  { unfold wf. cbn [lans ports set_pm put_lan set_lans]. rewrite !insert_insert_eq. apply Hput; [done|done|].
    eapply Hring; try reflexivity; [by repeat constructor|exact E0|exact E]. }
  eapply join_wf; [exact Hs1|by apply lookup_insert_eq|done|exact E3|]. by apply negb_true_iff, Z.eqb_neq in A1.
Qed.

(** A device read, and the state whose lock was taken. *)
Ltac locked H :=
  let x := fresh "x" in let w := fresh "w" in let Hx := fresh "Hx" in
  apply try_lock_inv in H as (x & w & Hx & ->).

Lemma register_wf s os th u bl rq fl mac r s' : wf s -> llan_register s os th u bl rq fl mac = Ok (r, s') -> wf s'.
Proof.
  intros Hs H. unfold llan_register in H. run H; try (by injection H as <- <-).
  - injection H as <- <-. by eapply try_lock_wf.
  - injection H as <- <-. apply (unlock_wf _ _ _) with (2 := E3). apply get_lan_inv in E0. locked E1.
    rewrite E0 in Hx. injection Hx as <-. eapply lan_register_locked_wf; [by apply wf_set_lock|by apply lookup_insert_eq| |exact E2].
    by apply truth_false in B2.
Qed.

(** The two calls that change the registration of a registered device. *)
Lemma free_wf s os u r s' : wf s -> llan_free s os u = Ok (r, s') -> wf s'.
Proof.
  intros Hs H. unfold llan_free in H. run H; try (by injection H as <- <-). injection H as <- <-.
  apply (unlock_wf _ _ _) with (2 := E3). apply get_lan_inv in E0. locked E1. rewrite E0 in Hx. injection Hx as <-.
  pose proof (wf_set_lock s r0 r1 w Hs E0) as Hs1.
  destruct (truth (ll_registered r1)) eqn:Er; [|by injection E2 as <- <-]. run E2. injection E2 as <- <-.
  apply truth_true in Er. apply get_lan_inv in E4. simpl in E4. rewrite lookup_insert_eq in E4. injection E4 as <-.
  destruct (wf_own_port _ _ r0 _ Hs1 (lookup_insert_eq _ _ _) Er) as (Hi & p & Hp & Ep & Em & _).
  destruct (llan_mac_free_spec _ (ll_mac_idx r1) (ll_mac r1) p (lw_tab _ _ Hs1) Hi Hp Em) as (t & Et & Ht & ->).
  rewrite E1 in Et. injection Et as ->.
  apply (wf_swap _ (ports s) r0 (set_lock r1 w)); try done; [by apply lookup_insert_eq| |by left].
  destruct (wf_dev s r0 r1 Hs E0). by split.
Qed.

Lemma change_mac_wf s os u mac r s' : wf s -> llan_change_mac s os u mac = Ok (r, s') -> wf s'.
Proof.
  intros Hs H. unfold llan_change_mac in H. run H; try (by injection H as <- <-). injection H as <- <-.
  apply (unlock_wf _ _ _) with (2 := E3). apply get_lan_inv in E0. locked E1. rewrite E0 in Hx. injection Hx as <-.
  pose proof (wf_set_lock s r0 r1 w Hs E0) as Hs1.
  destruct (truth (ll_registered r1)) eqn:Er; [|by injection E2 as <- <-]. run E2. injection E2 as <- <-.
  apply truth_true in Er. apply get_lan_inv in E4. simpl in E4. rewrite lookup_insert_eq in E4. injection E4 as <-.
  destruct (wf_own_port _ _ r0 _ Hs1 (lookup_insert_eq _ _ _) Er) as (Hi & p & Hp & Ep & Em & _).
  pose proof (proj1 (lw_dev _ _ Hs r0 r1 E0)) as Hne.
  destruct (llan_mac_change_spec _ r0 (ll_mac r1) mac _ p (lw_tab _ _ Hs1) Hi Hne Hp Ep Em) as (t & Et & Ht & ->).
  rewrite E1 in Et. injection Et as -> ->.
  apply (wf_swap _ (ports s) r0 (set_lock r1 w)); try done; [by apply lookup_insert_eq| |by right].
  destruct (wf_dev s r0 r1 Hs E0). by split.
Qed.

Lemma mcast_wf s os u fl mm r st s' : wf s -> llan_mcast_ctrl s os u fl mm = Ok (r, st, s') -> wf s'.
Proof.
  intros Hs H. unfold llan_mcast_ctrl in H. run H; try (by injection H as <- <- <-). injection H as <- <- <-.
  apply (unlock_wf _ _ _) with (2 := E4). pose proof (try_lock_wf _ _ _ Hs E1) as Hs1. apply get_lan_inv in E2.
  destruct (mcast_dev _ _ _ _ _ _ _ (wf_dev _ _ _ Hs1 E2) E3) as [Hd Hr]. by eapply (wf_update l).
Qed.

Lemma add_buf_wf s os u bd r s' : wf s -> llan_add_buf s os u bd = Ok (r, s') -> wf s'.
Proof.
  intros Hs H. unfold llan_add_buf in H. run H; try (by injection H as <- <-).
  all: pose proof (try_lock_wf _ _ _ Hs E1) as Hs1; injection H as <- <-; try done.
  - apply (unlock_wf _ _ _) with (2 := E8). apply get_lan_inv in E2.
    destruct (pool_set_dev _ _ _ _ _ (wf_dev _ _ _ Hs1 E2) E7) as (Hd & Hr & _). by eapply (wf_update l).
  - by eapply unlock_wf.
Qed.

Lemma freebuf_wf s os u n r s' : wf s -> llan_freebuf s os u n = Ok (r, s') -> wf s'.
Proof.
  intros Hs H. unfold llan_freebuf in H. run H; try (by injection H as <- <-).
  all: apply get_lan_inv in E0; destruct (getbuf_dev _ _ _ _ _ _ (wf_dev _ _ _ Hs E0) E1) as [Hd Hr].
  - injection H as <- <-. by eapply (wf_update s).
  - destruct (llan_write_rqe _ _ _ _) as [x m] eqn:Ew. injection H as <- <-.
    destruct (write_rqe_dev _ _ _ _ _ _ Hd Ew) as [Hd' Hr']. unfold wf. simpl. rewrite insert_insert_eq.
    eapply (wf_update s); [done|done|done|by eapply reg_same_trans].
Qed.

(** Learning an address changes caches only. *)
Lemma learn_wf s l x mac k t :
  wf s -> lans s !! l = Some x -> llan_mac_cache_add (ports s) (ll_mac_idx x) l mac = Ok (k, t) -> wf (set_ports s t).
Proof.
  intros Hs Hx H. pose proof (lw_idx _ _ Hs l x Hx) as Hi. pose proof (tw_len _ (lw_tab _ _ Hs)) as Hlen.
  destruct (aget_is_ok (ports s) (ll_mac_idx x)) as [p Hp]; [lia|]. apply aget_inv in Hp as [_ Hp].
  destruct (llan_mac_cache_add_spec (ports s) (ll_mac_idx x) l mac p) as (k' & t' & E & Ht & Hsame & _); [apply Hs|lia|done|].
  rewrite H in E. injection E as <- <-. by eapply wf_ports_same.
Qed.

Section SendWf.
Context (other_handler : Z -> machine -> Z -> xh_ptr -> Z -> Z -> res (Z * Z * machine)).

Lemma enqueue_wf s l sum frags r s' : wf s -> llan_enqueue other_handler s l sum frags = Ok (r, s') -> wf s' /\ ports s' = ports s.
Proof.
  intros Hs H. unfold llan_enqueue in H. run H.
  all: apply get_lan_inv in E; destruct (getbuf_dev _ _ _ _ _ _ (wf_dev _ _ _ Hs E) E1) as [Hd Hr].
  - injection H as <- <-. split; [by eapply (wf_update s)|done].
  - destruct (llan_write_rqe _ _ _ _) as [x m] eqn:Ew. run H. injection H as <- <-. split; [|done].
    destruct (write_rqe_dev _ _ _ _ _ _ Hd Ew) as [Hd' Hr']. unfold wf. simpl. rewrite insert_insert_eq.
    eapply (wf_update s); [done|done|done|by eapply reg_same_trans].
Qed.

Lemma broadcast_wf n : forall s i mac sum frags ret r s',
  wf s -> broadcast_loop other_handler n s i mac sum frags ret = Ok (r, s') -> wf s'.
Proof.
  induction n as [|n IH]; intros s i mac sum frags ret r s' Hs H; simpl in H; [by injection H as <- <-|].
  run H; try (by eapply IH). eapply IH; [|exact H]. by apply (enqueue_wf _ _ _ _ _ _ Hs E1).
Qed.

Lemma send_wf s os u bds tok r a s' : wf s -> llan_send other_handler s os u bds tok = Ok (r, a, s') -> wf s'.
Proof.
  intros Hs H. unfold llan_send in H. run H; try (by injection H as <- <- <-). injection H as <- <- <-.
  apply (unlock_wf _ _ _) with (2 := E3). pose proof (try_lock_wf _ _ _ Hs E1) as Hs1. clear E1 E3.
  unfold llan_send_locked in E2. run E2; try (by injection E2 as <- <-).
  destruct l1 as [|[pa0 bd0] l']; [by injection E2 as <- <-|]. run E2; try (by injection E2 as <- <-).
  all: assert (wf (set_ports l l1)) as Hs2 by (apply get_lan_inv in E1; by eapply learn_wf).
  - by apply (enqueue_wf _ _ _ _ _ _ Hs2 E2).
  - unfold llan_broadcast in E2. run E2. by apply (broadcast_wf _ _ _ _ _ _ _ _ _ Hs2 E2).
  - unfold llan_broadcast in E2. run E2. by apply (broadcast_wf _ _ _ _ _ _ _ _ _ Hs2 E2).
Qed.
End SendWf.

(** ** Creating, releasing, mapping *)
Lemma tce_put_wf l_to_r m s os u a e r s' : wf s -> llan_tce_put l_to_r m s os u a e = Ok (r, s') -> wf s'.
Proof.
  intros Hs H. unfold llan_tce_put in H. run H; try (by injection H as <- <-). injection H as <- <-. apply get_lan_inv in E0.
  eapply (wf_update s); [done|done| |done]. destruct (wf_dev _ _ _ Hs E0). by split.
Qed.

Lemma invalidate_wf s os u r s' : wf s -> llan_invalidate s os u = Ok (r, s') -> wf s'.
Proof.
  intros Hs H. unfold llan_invalidate in H. run H; injection H as <- <-; [done|]. apply get_lan_inv in E0.
  destruct (os =? llan_getos r1); [|done]. eapply (wf_update s); [done|done| |done]. destruct (wf_dev _ _ _ Hs E0). by split.
Qed.

Lemma wf_delete v t l x : lan_wf v t -> v !! l = Some x -> ll_registered x = 0 -> lan_wf (delete l v) t.
Proof.
  intros Hw Hx H0. pose proof Hw as [Ht Hd Hr Hi Hp]. split; [done| | | |].
  - intros k z [_ Hz]%lookup_delete_Some. by apply Hd.
  - intros k z [_ Hz]%lookup_delete_Some. by apply Hr.
  - intros k z [_ Hz]%lookup_delete_Some. by eapply Hi.
  - intros i p Hip Hne. destruct (Hp i p Hip Hne) as (z & Hz & H1 & H2). exists z. split; [|done].
    apply lookup_delete_Some. split; [|done]. intros E. subst l. rewrite Hx in Hz. by injection Hz as <-.
Qed.

Lemma wf_new v t l x : lan_wf v t -> v !! l = None -> l <> 0 -> dev_wf x -> ll_registered x = 0 -> ll_mac_idx x = 0 -> lan_wf (<[l := x]> v) t.
Proof.
  intros Hw Hx Hl Hd0 H0 Hi0. pose proof Hw as [Ht Hd Hr Hi Hp]. split; [done| | | |].
  - intros k z [[<- <-]|[_ Hz]]%lookup_insert_Some; [done|by apply Hd].
  - intros k z [[<- <-]|[_ Hz]]%lookup_insert_Some; [done|by apply Hr].
  - intros k z [[<- <-]|[_ Hz]]%lookup_insert_Some; [by rewrite Hi0|by eapply Hi].
  - intros i p Hip Hne. destruct (Hp i p Hip Hne) as (z & Hz & H1). exists z. split; [|done].
    rewrite lookup_insert_ne; [done|]. intros E. subst l. by rewrite Hx in Hz.
Qed.

(** Freeing a device whose lock is free leaves it without a registration. *)
Lemma free_unregisters s os u l x r s' :
  llan_free s os u = Ok (r, s') -> llan_get s u = Ok l -> l <> 0 -> lans s !! l = Some x -> ll_lock x = lock_unlocked ->
  exists y, lans s' !! l = Some y /\ ll_registered y = 0.
Proof.
  intros H Hg Hl Hx Hlock. unfold llan_free in H. rewrite Hg in H. run H; [apply Z.eqb_eq in B; done| |].
  2:{ apply get_lan_inv in E. rewrite Hx in E. injection E as <-. unfold try_lock, get_lan in E0. rewrite Hx in E0.
      cbn [of_option res_bind] in E0. by rewrite Hlock in E0. }
  injection H as <- <-. apply unlock_inv in E2 as (y & Hy & ->). exists (set_lock y lock_unlocked). split; [by apply lookup_insert_eq|].
  apply get_lan_inv in E. rewrite Hx in E. injection E as <-. locked E0. rewrite Hx in Hx0. injection Hx0 as <-.
  simpl. destruct (truth (ll_registered x)) eqn:Er.
  - run E1. injection E1 as <- <-. simpl in Hy. rewrite lookup_insert_eq in Hy. by injection Hy as <-.
  - injection E1 as <- <-. simpl in Hy. rewrite lookup_insert_eq in Hy. injection Hy as <-. by apply truth_false.
Qed.

Lemma free_llan_inv s l s' : free_llan s l = Ok s' -> lans s' = delete l (lans s) /\ ports s' = ports s.
Proof. unfold free_llan. intros H. run H. by injection H as <-. Qed.

Lemma release_wf s os u r s' :
  wf s -> (forall l x, llan_get s u = Ok l -> lans s !! l = Some x -> ll_lock x = lock_unlocked) ->
  llan_release s os u = Ok (r, s') -> wf s'.
Proof.
  intros Hs Hlock H. unfold llan_release in H. run H; try (by injection H as <- <-). injection H as <- <-.
  apply get_lan_inv in E0, E2. apply Z.eqb_neq in B.
  pose proof (free_wf _ _ _ _ _ Hs E1) as Hs1.
  destruct (free_unregisters _ _ _ _ _ _ _ E1 E B E0 (Hlock _ _ E E0)) as (y & Hy & Hy0). rewrite E2 in Hy. injection Hy as <-.
  apply free_llan_inv in E5 as [El Ep]. unfold wf. rewrite El, Ep. cbn [lans ports set_irq set_pages put_lan set_lans].
  rewrite delete_insert_eq. by eapply wf_delete.
Qed.

(** A page the allocator gives out holds no device. *)
Definition fresh_page (s : lan) : Prop :=
  forall l pa, get_pages (pool s) SIZEOF_LLAN = Ok (l, pa) -> lans s !! l = None.

Lemma acquire_wf s dma l s' : wf s -> fresh_page s -> llan_acquire_internal s dma = Ok (l, s') -> wf s'.
Proof.
  intros Hs Hnew H. unfold llan_acquire_internal in H. run H; injection H as <- <-; specialize (Hnew _ _ E).
  - apply Z.eqb_eq in B. by rewrite B in E0.
  - apply Z.eqb_neq in B. apply wf_new; try done. split; try done; [by repeat constructor|]. split; [done|by exists 0].
  - apply free_llan_inv in E4 as [El Ep]. unfold wf. rewrite El, Ep. cbn [lans ports set_irq set_pages].
    by rewrite delete_id.
Qed.

(** ** Runs *)

(** What happens to the LAN: calls of partitions, changes of memory by whoever owns it,
    device pages mapped, devices created, invalidated and released. *)
Inductive lan_event :=
  | Call (thread : Z) (c : lan_call)
  | Memory (m : pmem)
  | Put_tce (m : memory) (os liobn ioba ltce : Z)
  | Acquire (dma_range : Z)
  | Invalidate (os liobn : Z)
  | Release (os liobn : Z).

Section Runs.
Context (other_handler : Z -> machine -> Z -> xh_ptr -> Z -> Z -> res (Z * Z * machine)).
Context (l_to_r : Z -> logical_chunk_info -> Z -> Z -> res Z).

Definition event_step (s : lan) (e : lan_event) : res lan :=
  match e with
  | Call th c => lan_step other_handler s th c
  | Memory m => Ok (set_pm s m)
  | Put_tce m os u a v => let! (_, s) := llan_tce_put l_to_r m s os u a v in Ok s
  | Acquire dma => let! (_, s) := llan_acquire_internal s dma in Ok s
  | Invalidate os u => let! (_, s) := llan_invalidate s os u in Ok s
  | Release os u => let! (_, s) := llan_release s os u in Ok s
  end.

(** New devices come from pages not in use, and a device is released while its lock is
    free. *)
Definition event_ok (s : lan) (e : lan_event) : Prop :=
  match e with
  | Acquire _ => fresh_page s
  | Release _ u => forall l x, llan_get s u = Ok l -> lans s !! l = Some x -> ll_lock x = lock_unlocked
  | _ => True
  end.

Inductive lan_run : lan -> list lan_event -> lan -> Prop :=
  | run_nil s : lan_run s [] s
  | run_cons s e s1 l s2 : event_ok s e -> event_step s e = Ok s1 -> lan_run s1 l s2 -> lan_run s (e :: l) s2.

Lemma lan_step_wf s th c s' : wf s -> lan_step other_handler s th c = Ok s' -> wf s'.
Proof.
  intros Hs H. destruct c; cbn [lan_step] in H; run H; injection H as <-.
  - unfold h_register_logical_lan in E. run E. by eapply register_wf.
  - unfold h_free_logical_lan in E. run E. by eapply free_wf.
  - unfold h_change_logical_lan_mac in E. run E. by eapply change_mac_wf.
  - unfold h_multicast_ctrl in E. run E. by eapply mcast_wf.
  - unfold h_add_logical_lan_buffer in E. run E. by eapply add_buf_wf.
  - unfold h_free_logical_lan_buffer in E. run E. by eapply freebuf_wf.
  - unfold h_send_logical_lan in E. run E. by eapply send_wf.
Qed.

Lemma event_step_wf s e s' : wf s -> event_ok s e -> event_step s e = Ok s' -> wf s'.
Proof.
  intros Hs Hok H. destruct e; cbn [event_step] in H; cbn [event_ok] in Hok; [by eapply lan_step_wf|by injection H as <-| | | |]; run H; injection H as <-.
  - by eapply tce_put_wf.
  - by eapply acquire_wf.
  - by eapply invalidate_wf.
  - by eapply release_wf.
Qed.

(** C9: the LAN stays well-formed through any run: however partitions register, free, change
    addresses, post buffers, send and change their memory, and devices come and go, a
    registered device has one port, with its address, every port in use belongs to a
    registered device that knows its index, the pools keep their shape, and the next
    entry is inside the receive queue.  Two conditions are on the run: pages for new devices are
    not in use, and a device is released only while its lock is free; the code does not
    check the second, and a release with the lock held leaves a port that names a freed device
    ([LlanSend.release_dangling]). *)
Theorem lan_well_formed s events s' :
  lan_wf (lans s) (ports s) -> lan_run s events s' -> lan_wf (lans s') (ports s').
Proof. intros Hs H. induction H as [|s e s1 l s2 Hok He _ IH]; [done|]. apply IH. by eapply event_step_wf. Qed.
End Runs.
