(* ===== verification/LlanSend.v ===== *)
(** * LlanSend: what sending a frame does to memory

    Where [Llan.llan_send] may write: receive buffers that were posted, receive queues
    and counters of dropped frames; and what the receiver finds there. *)

From S2P Require Import Prelude Hcall Bitmap PgAlloc Atomic Xirr Xir Logical Field Tce Imemcpy LanPorts Llan.

(** ** Pools and the buffer list *)

(** A buffer in pool [k]. *)
Definition posted (x : llan) (k : nat) (bd : Z) : Prop :=
  exists row i, ll_blist_pool x !! k = Some row /\ row !! i = Some bd /\ fget lbd_ctrl_v bd = 1.

(** Every buffer is in the pool of its length. *)
Definition pools_ok (x : llan) : Prop := forall k bd, posted x k bd -> psz !! k = Some (fget lbd_len bd).

(** The descriptors of the pools are as registration wrote them. *)
Definition blist_intact (x : llan) (m : pmem) : Prop :=
  forall p, LLAN_BL_POOL_START <= p < LLAN_BL_COUNTER ->
    let d := load64 m (add64 (ll_blist x) (8 * p)) in
    fget lbd_len d = 0 \/ exists k, fget lbd_addr d = Z.of_nat k /\ psz !! k = Some (fget lbd_len d).

(** Where those descriptors are. *)
Definition in_blist (x : llan) (a : Z) : Prop :=
  ll_blist x + 8 * LLAN_BL_POOL_START <= a < ll_blist x + 8 * LLAN_BL_COUNTER.

Lemma blist_addr x p : dev_wf x -> 0 <= p < 512 -> add64 (ll_blist x) (8 * p) = ll_blist x + 8 * p.
Proof. intros [_ _ _ _ _ _ _ [H _]] Hp. apply add64_small. lia. Qed.

Lemma blist_intact_ext x m m' (P : Z -> Prop) :
  dev_wf x -> only_in P m m' -> (forall a, P a -> ~ in_blist x a) -> blist_intact x m -> blist_intact x m'.
Proof.
  intros Hx Ho Hd Hi p Hp. change LLAN_BL_COUNTER with 511 in Hp. unfold LLAN_BL_POOL_START in Hp.
  replace (load64 m' (add64 (ll_blist x) (8 * p))) with (load64 m (add64 (ll_blist x) (8 * p))); [by apply Hi|].
  unfold load64. f_equal. symmetry. apply copy_in_ext. intros a Ha. apply Ho. intros HP. apply (Hd a HP).
  rewrite blist_addr in Ha by (done || lia). unfold in_blist. change LLAN_BL_COUNTER with 511. unfold LLAN_BL_POOL_START. lia.
Qed.

Lemma psz_range k n : psz !! k = Some n -> (k < 3)%nat /\ 2048 <= n <= 10240.
Proof. unfold psz. destruct k as [|[|[|k]]]; intros [= <-]; split; lia. Qed.

Lemma pool_search_spec n : forall x m p size k,
  blist_intact x m -> LLAN_BL_POOL_START <= p -> p + Z.of_nat n <= LLAN_BL_POOL_END -> 0 < size ->
  pool_search n x m p size = Some k -> exists j len, k = Z.of_nat j /\ psz !! j = Some len /\ size <= len.
Proof.
  induction n as [|n IH]; intros x m p size k Hi Hp Hn Hs H; cbn [pool_search] in H; [done|].
  destruct (Z.leb_spec size (fget lbd_len (load64 m (add64 (ll_blist x) (8 * p))))) as [Hle|]; [|eapply IH; [done| | | |done]; lia].
  injection H as <-. destruct (Hi p) as [H0|(j & Hj & Hl)]; [|lia|].
  { change LLAN_BL_COUNTER with 511. unfold LLAN_BL_POOL_END, LLAN_BL_POOL_START in *. lia. }
  exists j, (fget lbd_len (load64 m (add64 (ll_blist x) (8 * p)))). split; [|done]. rewrite Hj. apply psz_range in Hl as [Hl _].
  unfold s32. rewrite u32_small by lia. destruct (Z.ltb_spec (Z.of_nat j) (2 ^ 31)); [done|lia].
Qed.

Lemma pool_scan_spec n : forall pool i v b bd,
  0 <= i -> pool_scan n pool i v = Ok (Some (b, bd)) -> 0 <= b /\ pool !! Z.to_nat b = Some bd /\ fget lbd_ctrl_v bd = v.
Proof.
  induction n as [|n IH]; intros pool i v b bd Hi H; cbn [pool_scan] in H; [done|]. run H.
  - injection H as <- <-. apply aget_inv in E as [? ?]. apply Z.eqb_eq in B. done.
  - eapply IH; [|done]. lia.
Qed.

(** The valid bit does not matter to the translation. *)
Lemma xlate_invalid t bd : tce_bd_xlate t (fset lbd_ctrl_v bd 0) = tce_bd_xlate t bd.
Proof.
  unfold tce_bd_xlate. rewrite !(fget_fset_other lbd_addr lbd_ctrl_v), !(fget_fset_other lbd_len lbd_ctrl_v) by field_side. done.
Qed.

Lemma ctrl_v_cleared bd : fget lbd_ctrl_v (fset lbd_ctrl_v bd 0) = 0.
Proof. rewrite fget_fset by field_side. done. Qed.

(** Taking a buffer off a pool leaves the others. *)
Lemma posted_taken x y k i row bd :
  ll_blist_pool x !! k = Some row -> y = set_pool x (<[k := <[i := bd]> row]> (ll_blist_pool x)) -> fget lbd_ctrl_v bd = 0 ->
  forall k' bd', posted y k' bd' -> posted x k' bd'.
Proof.
  intros Hrow -> Hv k' bd' (row' & i' & Hr & Hb & Hv'). simpl in Hr. apply list_lookup_insert_Some in Hr as [(<- & <- & _)|[_ Hr]].
  - apply list_lookup_insert_Some in Hb as [(_ & <- & _)|[_ Hb]]; [by rewrite Hv in Hv'|]. by exists row, i'.
  - by exists row', i'.
Qed.

(** ** Where a device may be written *)
Definition in_ring (x : llan) (a : Z) : Prop := ll_recvq x <= a < ll_recvq x + 16 * Z.max 1 (ll_recvq_end x).
Definition in_counter (x : llan) (a : Z) : Prop := ll_blist x + 8 * LLAN_BL_COUNTER <= a < ll_blist x + 8 * LLAN_BL_COUNTER + 8.
(** The bytes of a posted buffer, each at the address the device's table gives it. *)
Definition in_buffer (x : llan) (a : Z) : Prop :=
  exists k bd o, posted x k bd /\ 0 <= o < fget lbd_len bd /\ byte_at (ll_tce_data x) (fget lbd_addr bd + o) = Some a.

(** The pages of every posted buffer lie one behind the other in physical memory.  Nothing checks it: [Tce.tce_pages_apart]. *)
Definition flat (x : llan) : Prop := forall k bd, posted x k bd -> contiguous (ll_tce_data x) bd.

Definition allowed (x : llan) (a : Z) : Prop := in_ring x a \/ in_counter x a \/ in_buffer x a.

(** [y] is [x] with fewer buffers and another place in the ring. *)
Record shrunk (x y : llan) : Prop := {
  sh_posted k bd : posted y k bd -> posted x k bd;
  sh_tce : ll_tce_data y = ll_tce_data x;
  sh_recvq : ll_recvq y = ll_recvq x;
  sh_end : ll_recvq_end y = ll_recvq_end x;
  sh_blist : ll_blist y = ll_blist x;
  sh_reg : reg_same x y
}.

#[global] Instance shrunk_pre : PreOrder shrunk.
Proof.
  split; [by intros x; split|]. intros x y z [A1 A2 A3 A4 A5 A6] [B1 B2 B3 B4 B5 B6]. split; try congruence; [auto|].
  by eapply reg_same_trans.
Qed.

Lemma shrunk_allowed x y a : shrunk x y -> allowed y a -> allowed x a.
Proof.
  intros [A1 A2 A3 A4 A5 A6]. unfold allowed, in_ring, in_counter, in_buffer. rewrite A2, A3, A4, A5.
  intros [?|[?|(k & bd & o & ? & ?)]]; [by left|by right; left|]. right. right. exists k, bd, o. auto.
Qed.

Lemma shrunk_pools x y : shrunk x y -> pools_ok x -> pools_ok y.
Proof. intros Hs Hp k bd H. by apply Hp, (sh_posted _ _ Hs). Qed.

Lemma shrunk_flat x y : shrunk x y -> flat x -> flat y.
Proof. intros Hs Hf k bd H. rewrite (sh_tce _ _ Hs). by eapply Hf, (sh_posted _ _ Hs). Qed.

Lemma shrunk_intact x y m : shrunk x y -> blist_intact x m -> blist_intact y m.
Proof. intros Hs H p Hp. rewrite (sh_blist _ _ Hs). by apply H. Qed.

Lemma shrunk_pool x l :
  (forall k bd, posted (set_pool x l) k bd -> posted x k bd) -> shrunk x (set_pool x l).
Proof. by split. Qed.

(** A buffer is taken from a pool, and is long enough; or the counter is incremented. *)
Lemma getbuf_spec x m size rb y m' :
  dev_wf x -> blist_intact x m -> pools_ok x -> 0 < size -> llan_getbuf x m size = Ok (rb, y, m') ->
  shrunk x y /\ only_in (in_counter x) m m' /\
  (rb <> 0 -> m' = m /\ exists k bd, posted x k bd /\ llan_bd_tce_xlate x bd = Ok rb /\ size <= fget lbd_len bd).
Proof.
  intros Hx Hi Hp Hs H. unfold llan_getbuf in H.
  assert (only_in (in_counter x) m (store64 m (add64 (ll_blist x) (8 * LLAN_BL_COUNTER))
    (add64 (load64 m (add64 (ll_blist x) (8 * LLAN_BL_COUNTER))) 1))) as Hc.
  { rewrite (blist_addr x) by done. apply only_in_store. }
  destruct (pool_search _ _ _ _ _) as [k|] eqn:Ek; [|injection H as <- <- <-; by split; [reflexivity|]].
  apply pool_search_spec in Ek as (j & len & -> & Hlen & Hle); try done. run H; [|injection H as <- <- <-; by split; [reflexivity|]].
  injection H as <- <- <-. apply pool_scan_spec in E0 as (Hb & Hbd & Hv); [|done].
  apply pool_set_dev in E1 as (_ & _ & row & _ & Hrow & _ & ->); [|done]. rewrite Nat2Z.id in Hrow.
  apply aget_inv in E as [_ Hrow']. rewrite Nat2Z.id, Hrow in Hrow'. injection Hrow' as <-.
  assert (posted x j z0) as Hpost by (by exists row, (Z.to_nat z)).
  split; [|split; [apply only_in_refl|]].
  - apply shrunk_pool. rewrite Nat2Z.id. eapply posted_taken; [exact Hrow|reflexivity|apply ctrl_v_cleared].
  - intros _. split; [done|]. exists j, z0. unfold llan_bd_tce_xlate in *. cbn [ll_tce_data set_pool] in E2. rewrite xlate_invalid in E2.
    split_and!; try done. specialize (Hp j z0 Hpost). rewrite Hlen in Hp. by injection Hp as <-.
Qed.

(** The slot of the next entry. *)
Definition next_slot (x : llan) : Z := ll_recvq x + 16 * ll_recvq_idx x.

Lemma write_rqe_spec x m rq rb y m' :
  dev_wf x -> llan_write_rqe x m rq rb = (y, m') ->
  shrunk x y /\ only_in (fun a => next_slot x <= a < next_slot x + 16) m m' /\
  forall a, next_slot x <= a < next_slot x + 16 -> in_ring x a.
Proof.
  intros Hx H. unfold llan_write_rqe in H. injection H as <- <-. split; [by destruct (_ <=? _)|].
  destruct Hx as [_ _ H3 H4 _ _ H7 _]. split; [|unfold in_ring, next_slot; lia].
  assert (add64 (ll_recvq x) (16 * ll_recvq_idx x) = next_slot x) as -> by (apply add64_small; lia).
  rewrite (add64_small (next_slot x)) by (unfold next_slot; lia).
  intros a Ha. unfold store64. rewrite !copy_out_outside by (rewrite ?length_be_bytes; lia). apply zero_mem_outside. lia.
Qed.

(** ** One frame into one device *)
Definition frag_len (f : Z * Z) : Z := fget lbd_len f.2.

Lemma frag_len_range f : 0 <= frag_len f < 2 ^ 24.
Proof. apply (fget_range lbd_len). field_side. Qed.

Lemma copy_bits_only frags : forall m p,
  0 <= p -> p + zsum frag_len frags < 2 ^ 64 -> only_in (fun a => p <= a < p + zsum frag_len frags) m (copy_bits m p frags).
Proof.
  induction frags as [|[pa bd] l IH]; intros m p Hp Hs; cbn [copy_bits]; [apply only_in_refl|]. simpl zsum in *.
  pose proof (frag_len_range (pa, bd)) as Hl. change (frag_len (pa, bd)) with (fget lbd_len bd) in *.
  pose proof (zsum_nonneg frag_len l (fun f => proj1 (frag_len_range f))) as Hn. rewrite add64_small by lia.
  apply (only_in_trans _ _ (copy_mem m p pa (fget lbd_len bd))); [eapply only_in_impl; [|apply only_in_copy_mem; lia]|eapply only_in_impl; [|apply IH; lia]]; simpl; lia.
Qed.

Section Send.
Context (other_handler : Z -> machine -> Z -> xh_ptr -> Z -> Z -> res (Z * Z * machine)).

Lemma align_range pa : 0 <= pa -> 0 <= Z.land pa (CACHE_LINE_SIZE - 1) < CACHE_LINE_SIZE.
Proof.
  intros H. change (CACHE_LINE_SIZE - 1) with (Z.ones 7). rewrite Z.land_ones by lia. by apply Z.mod_pos_bound.
Qed.

(** The entry written for a frame. *)
Definition frame_rqe (align sum : Z) : Z := fset lrqe_len (fset lrqe_off (fset lrqe_v 0 1) align) sum.

Lemma frame_rqe_off align sum : 0 <= align < 2 ^ 16 -> fget lrqe_off (frame_rqe align sum) = align.
Proof.
  intros H. unfold frame_rqe. rewrite fget_fset_other, fget_fset by field_side. rewrite Z.land_ones by (simpl; lia).
  apply Z.mod_small. done.
Qed.

(** What [llan_enqueue] does, step by step. *)
Lemma enqueue_inv s l sum pa0 bd0 fl x r s' :
  lans s !! l = Some x -> llan_enqueue other_handler s l sum ((pa0, bd0) :: fl) = Ok (r, s') ->
  exists rb y m1, llan_getbuf x (pm s) (add64 sum (CACHE_LINE_SIZE + Z.land pa0 (CACHE_LINE_SIZE - 1))) = Ok (rb, y, m1) /\
    ((rb = 0 /\ r = H_Busy /\ s' = set_pm (put_lan s l y) m1) \/
     rb <> 0 /\ r = H_Success /\ exists z m2 i,
       let align := CACHE_LINE_SIZE + Z.land pa0 (CACHE_LINE_SIZE - 1) in
       let rq := frame_rqe align sum in
       llan_write_rqe y (copy_bits m1 (add64 rb (fget lrqe_off rq)) ((pa0, bd0) :: fl)) rq rb = (z, m2) /\
       lans s' = <[l := z]> (lans s) /\ pm s' = m2 /\ ports s' = ports s /\ irq s' = i /\
       exists q t, xir_raise other_handler (irq s) (ll_interrupt z) = Ok (q, t, i)).
Proof.
  intros Hx H. unfold llan_enqueue, get_lan in H. rewrite Hx in H. cbn [of_option res_bind head] in H.
  apply res_bind_ok in H as ([[rb y] m1] & Eg & H). exists rb, y, m1. split; [done|].
  destruct (Z.eqb_spec rb 0) as [->|Hrb]; [injection H as <- <-; by left|]. right. split; [done|].
  change (fset lrqe_len _ _) with (frame_rqe (CACHE_LINE_SIZE + Z.land pa0 (CACHE_LINE_SIZE - 1)) sum) in H.
  destruct (llan_write_rqe _ _ _ _) as [z m2] eqn:Ew. apply res_bind_ok in H as ([[q t] i] & Er & H).
  injection H as <- <-. split; [done|]. exists z, m2, i. cbn zeta. split; [done|]. cbn [lans set_irq set_pm put_lan set_lans pm ports irq].
  rewrite insert_insert_eq. split_and!; try done. by exists q, t.
Qed.

Lemma enqueue_inside s l sum frags x r s' :
  lans s !! l = Some x -> dev_wf x -> blist_intact x (pm s) -> pools_ok x -> flat x ->
  sum = zsum frag_len frags -> 0 < sum < 2 ^ 32 -> (forall f, f ∈ frags -> 0 <= f.1) ->
  llan_enqueue other_handler s l sum frags = Ok (r, s') ->
  ports s' = ports s /\ only_in (allowed x) (pm s) (pm s') /\ exists y, shrunk x y /\ lans s' = <[l := y]> (lans s).
Proof.
  intros Hx Hd Hi Hp Hfl Hsum Hs Hpa H. destruct frags as [|[pa0 bd0] fl]; [simpl in Hsum; lia|].
  destruct (enqueue_inv _ _ _ _ _ _ _ _ _ Hx H) as (rb & y & m1 & Eg & Hcase).
  assert (0 <= pa0) as Hpa0 by (apply (Hpa (pa0, bd0)); left). pose proof (align_range pa0 Hpa0) as Ha. unfold CACHE_LINE_SIZE in Ha.
  rewrite add64_small in Eg by (unfold CACHE_LINE_SIZE; lia).
  assert (forall a, in_counter x a -> allowed x a) as Hc by (unfold allowed; tauto).
  assert (0 < sum + (CACHE_LINE_SIZE + Z.land pa0 (CACHE_LINE_SIZE - 1))) as Hsz by (unfold CACHE_LINE_SIZE; lia).
  destruct (getbuf_spec _ _ _ _ _ _ Hd Hi Hp Hsz Eg) as (S1 & O1 & Hbuf).
  destruct Hcase as [(_ & _ & ->)|(Hrb & _ & z & m2 & i & Ew & El & Em & Ept & _)].
  { split; [done|]. split; [by eapply only_in_impl|]. by exists y. }
  destruct (Hbuf Hrb) as (-> & k & bd & Hpost & Hxl & Hle). pose proof (xlate_range _ _ _ Hxl) as Hr. cbn zeta in Ew.
  destruct (getbuf_dev _ _ _ _ _ _ Hd Eg) as [Hdy _]. destruct (write_rqe_spec _ _ _ _ _ _ Hdy Ew) as (S2 & O2 & Hin2).
  rewrite frame_rqe_off in Ew, O2 by (unfold CACHE_LINE_SIZE; lia).
  split; [done|]. split; [|exists z; split; [by transitivity y|done]]. rewrite Em.
  unfold CACHE_LINE_SIZE in *. rewrite (add64_small rb) in O2 by lia.
  apply only_in_trans with (copy_bits (pm s) (rb + (128 + Z.land pa0 (128 - 1))) ((pa0, bd0) :: fl)).
  1: eapply only_in_impl; [|apply copy_bits_only; rewrite <- ?Hsum; lia].
  2: eapply only_in_impl; [|exact O2].
  - intros a Hin. right. right. exists k, bd, (a - rb). rewrite <- Hsum in Hin. split; [done|]. split; [lia|].
    rewrite (xlate_byte_at _ _ rb) by (by eauto || lia). f_equal. lia.
  - intros a Hin. apply (shrunk_allowed x y); [done|]. left. by apply Hin2.
Qed.

(** ** Frames to any number of devices *)
Definition reg (s : lan) (l : Z) (x : llan) : Prop := lans s !! l = Some x /\ ll_registered x <> 0.
Definition lan_allowed (s : lan) (a : Z) : Prop := exists l x, reg s l x /\ allowed x a.

(** Registered devices have their buffers in the right pools, in physically contiguous
    pages, and their buffer lists as they were written at registration: the list is in the
    partition's own memory, and this is up to it.  No buffer, queue or counter lies on a
    buffer list. *)
Record ready (s : lan) : Prop := {
  rd_wf : wf s;
  rd_dev l x : reg s l x -> pools_ok x /\ blist_intact x (pm s) /\ flat x;
  rd_apart k y a : reg s k y -> lan_allowed s a -> ~ in_blist y a
}.

(** Nothing new may be written. *)
Definition covers (s s' : lan) : Prop := forall l y, reg s' l y -> exists x, reg s l x /\ shrunk x y.

#[local] Instance covers_pre : PreOrder covers.
Proof.
  split; [by intros s l y H; exists y|]. intros s1 s2 s3 H1 H2 l z Hz. destruct (H2 l z Hz) as (y & Hy & Sy).
  destruct (H1 l y Hy) as (x & Hx & Sx). exists x. split; [done|]. by transitivity y.
Qed.

Lemma covers_allowed s s' a : covers s s' -> lan_allowed s' a -> lan_allowed s a.
Proof. intros Hc (l & y & Hy & Ha). destruct (Hc l y Hy) as (x & Hx & Hs). exists l, x. split; [done|]. by eapply shrunk_allowed. Qed.

Lemma ready_step s s' : ready s -> wf s' -> covers s s' -> only_in (lan_allowed s) (pm s) (pm s') -> ready s'.
Proof.
  intros [Hw Hd Ha] Hw' Hc Ho. split; [done| |].
  - intros l y Hy. destruct (Hc l y Hy) as (x & Hx & Hs). destruct (Hd l x Hx) as (Hp & Hi & Hf). split; [by eapply shrunk_pools|]. split; [|by eapply shrunk_flat].
    apply (shrunk_intact x y); [done|]. apply (blist_intact_ext x (pm s) (pm s') (lan_allowed s)); try done.
    + by eapply wf_dev; [exact Hw|apply Hx].
    + intros a Hal. by eapply Ha.
  - intros k y a Hy Hal. destruct (Hc k y Hy) as (x & Hx & Hs). apply (covers_allowed s s' a Hc) in Hal.
    specialize (Ha k x a Hx Hal). unfold in_blist in *. by rewrite (sh_blist _ _ Hs).
Qed.

Definition frame_ok (sum : Z) (frags : list (Z * Z)) : Prop :=
  sum = zsum frag_len frags /\ 0 < sum < 2 ^ 32 /\ forall f, f ∈ frags -> 0 <= f.1.

(** Writes stay inside, and the state stays ready for the next device. *)
Definition inside (s s' : lan) : Prop := ready s' /\ covers s s' /\ only_in (lan_allowed s) (pm s) (pm s').

#[local] Instance inside_trans : Transitive inside.
Proof.
  intros s1 s2 s3 (R1 & C1 & O1) (R2 & C2 & O2). split; [done|]. split; [by transitivity s2|].
  eapply only_in_trans; [exact O1|]. eapply only_in_impl; [|exact O2]. intros a. by apply covers_allowed.
Qed.

Lemma inside_refl s : ready s -> inside s s.
Proof. intros H. split; [done|]. split; [reflexivity|apply only_in_refl]. Qed.

Lemma enqueue_ready s l sum frags x r s' :
  ready s -> reg s l x -> frame_ok sum frags -> llan_enqueue other_handler s l sum frags = Ok (r, s') -> inside s s' /\ ports s' = ports s.
Proof.
  intros Hr Hx (Hs & Hs' & Hf) H. pose proof Hr as [Hw Hd Ha]. destruct (Hd l x Hx) as (Hp & Hi & Hfl). pose proof Hx as [Hx1 Hx2].
  destruct (enqueue_inside s l sum frags x r s' Hx1) as (Ep & Ho & y & Hy & El); try done; [by eapply wf_dev|].
  assert (covers s s') as Hc.
  { intros k z [Hz Hz1]. rewrite El in Hz. apply lookup_insert_Some in Hz as [[<- <-]|[_ Hz]]; [by exists x|]. by exists z. }
  assert (only_in (lan_allowed s) (pm s) (pm s')) as Hol by (eapply only_in_impl; [|exact Ho]; intros a Hal; by exists l, x).
  split; [|done]. split; [|done]. eapply ready_step; try done. by apply (enqueue_wf _ _ _ _ _ _ _ Hw H).
Qed.

Lemma port_reg s i p : wf s -> ports s !! i = Some p -> lm_mac p <> 0 -> exists x, reg s (lm_lan p) x.
Proof.
  intros Hs Hp Hm. destruct (lw_port _ _ Hs i p Hp) as (x & Hx & H1 & _); [|by exists x].
  intros H0. by apply (pw_blank p (tw_ports _ (lw_tab _ _ Hs) _ _ Hp)) in H0 as [? _].
Qed.

Lemma broadcast_inside n : forall s i mac sum frags ret r s',
  ready s -> frame_ok sum frags -> broadcast_loop other_handler n s i mac sum frags ret = Ok (r, s') -> inside s s'.
Proof.
  induction n as [|n IH]; intros s i mac sum frags ret r s' Hr Hf H; cbn [broadcast_loop] in H; [injection H as <- <-; by apply inside_refl|].
  run H; try (by eapply IH). apply aget_inv in E as [_ E]. apply andb_prop in B as [B _]. apply negb_true_iff, Z.eqb_neq in B.
  destruct (port_reg s _ _ (rd_wf _ Hr) E B) as (x & Hx).
  destruct (enqueue_ready _ _ _ _ _ _ _ Hr Hx Hf E1) as [Hi _]. transitivity l; [done|]. eapply IH; [apply Hi|done|exact H].
Qed.

Lemma gather_spec x bds : forall sum frags sum',
  0 <= sum -> sum + 2 ^ 24 * Z.of_nat (length bds) < 2 ^ 32 -> gather x bds sum = Ok (Some (frags, sum')) ->
  sum' = sum + zsum frag_len frags /\ sum' < 2 ^ 32 /\ Forall (fun f => 0 < frag_len f) frags /\
  Forall (fun f => llan_bd_tce_xlate x f.2 = Ok f.1 /\ f.1 <> 0) frags.
Proof.
  induction bds as [|bd bds IH]; intros sum frags sum' H0 Hs H; cbn [gather] in H.
  - injection H as <- <-. simpl in *. split_and!; done || lia.
  - pose proof (frag_len_range (0, bd)) as Hl. change (frag_len (0, bd)) with (fget lbd_len bd) in Hl.
    change (length (bd :: bds)) with (S (length bds)) in Hs. rewrite Nat2Z.inj_succ in Hs. run H.
    + rewrite add64_small in E0 by lia. destruct r0 as [[l s1]|]; [|done]. injection H as <- <-.
      apply Z.ltb_lt in B. apply Z.eqb_neq in B0.
      destruct (IH (sum + fget lbd_len bd) l s1 ltac:(lia) ltac:(lia) E0) as (-> & K & F1 & F2). split; [simpl; unfold frag_len at 2; simpl; lia|].
      split; [done|]. by split; constructor.
    + injection H as <- <-. simpl. split_and!; done || lia.
Qed.

Lemma gather_frame x bds f frags sum :
  (length bds <= 6)%nat -> gather x bds 0 = Ok (Some (f :: frags, sum)) -> frame_ok sum (f :: frags).
Proof.
  intros Hl H. destruct (gather_spec x bds 0 (f :: frags) sum) as (-> & Hs & F1 & F2); [done|lia|done|].
  apply Forall_cons in F1 as [Hf F1]. split; [lia|]. split.
  - split; [|done]. simpl. pose proof (zsum_nonneg frag_len frags (fun f => proj1 (frag_len_range f))). lia.
  - intros g Hg. apply (proj1 (Forall_forall _ _) F2) in Hg as [Hg _]. apply xlate_range in Hg. lia.
Qed.

Lemma find_reg s mac d c : wf s -> llan_mac_find (ports s) mac = Ok (d, c) -> d <> 0 -> exists x, reg s d x.
Proof.
  intros Hs H Hd. rewrite (llan_mac_find_spec _ mac (lw_tab _ _ Hs)) in H.
  destruct (list_find _ _) as [[i p]|] eqn:Ef; simpl in H; [|injection H as <- <-; done]. injection H as <- <-.
  apply list_find_Some in Ef as (Hi & [Hm _] & _). by eapply port_reg.
Qed.

Lemma send_locked_inside s l bds tok r s' :
  ready s -> (length bds <= 6)%nat -> llan_send_locked other_handler s l bds tok = Ok (r, s') -> inside s s'.
Proof.
  intros Hr Hl H. unfold llan_send_locked in H. run H; try (injection H as <- <-; by apply inside_refl).
  destruct l0 as [|f fl]; [injection H as <- <-; by apply inside_refl|]. destruct f as [pa0 bd0].
  pose proof (gather_frame _ _ _ _ _ Hl E0) as Hf. run H; try (injection H as <- <-; by apply inside_refl).
  all: assert (ready (set_ports s l0)) as Hr1
    by (pose proof (get_lan_inv _ _ _ E) as Ex; destruct Hr as [Hw Hd Ha]; split; [by eapply learn_wf|exact Hd|exact Ha]).
  all: assert (inside s (set_ports s l0)) as Hs1 by (split; [done|]; split; [by intros k y Hy; exists y|apply only_in_refl]).
  all: transitivity (set_ports s l0); [done|].
  - apply negb_true_iff, Z.eqb_neq in B1. destruct (find_reg _ _ _ _ (rd_wf _ Hr1) E2 B1) as (x & Hx).
    by apply (enqueue_ready _ _ _ _ _ _ _ Hr1 Hx Hf H).
  - unfold llan_broadcast in H. run H. by eapply broadcast_inside.
  - unfold llan_broadcast in H. run H. by eapply broadcast_inside.
Qed.

(** The lock does not matter. *)
Lemma set_lock_reg s l x w k y :
  lans s !! l = Some x -> reg (put_lan s l (set_lock x w)) k y -> exists x', reg s k x' /\ shrunk x' y /\ shrunk y x'.
Proof.
  intros Hx [Hy Hy1]. simpl in Hy. apply lookup_insert_Some in Hy as [[<- <-]|[_ Hy]]; [|by exists y].
  exists x. split; [by split|]. by split.
Qed.

Lemma set_lock_inside s l x w : ready s -> lans s !! l = Some x -> inside s (put_lan s l (set_lock x w)).
Proof.
  intros Hr Hx. assert (covers s (put_lan s l (set_lock x w))) as Hc.
  { intros k y Hy. destruct (set_lock_reg s l x w k y Hx Hy) as (x' & H1 & H2 & _). by exists x'. }
  split; [|split; [done|apply only_in_refl]]. eapply ready_step; [done| |done|apply only_in_refl].
  apply wf_set_lock; [apply Hr|done].
Qed.

End Send.

(** ** Registration prepares a device *)

(** The descriptor of pool [k]. *)
Definition pool_desc (k len : Z) : Z := fset lbd_addr (fset lbd_len (fset lbd_ctrl_v 0 1) len) k.

Lemma pool_desc_fields k len :
  0 <= k < 2 ^ 32 -> 0 <= len < 2 ^ 24 ->
  fget lbd_addr (pool_desc k len) = k /\ fget lbd_len (pool_desc k len) = len /\ is_u64 (pool_desc k len).
Proof.
  intros Hk Hl. unfold pool_desc. rewrite fget_fset, (fget_fset_other lbd_len lbd_addr), fget_fset, !Z.land_ones by (simpl; field_side).
  simpl f_len. rewrite !Z.mod_small by done. split_and!; try done; apply fset_u64; try field_side; by repeat (apply fset_u64; [field_side|]).
Qed.

(** The descriptor of buffers of [n] kilobytes. *)
Lemma bdesc_spec x sz p :
  0 <= ll_blist x < 2 ^ 53 -> 0 <= sz < 2 ^ 24 -> llan_bdesc x sz = Ok p -> p <> 0 ->
  exists n, 0 < n /\ n + 1 < LLAN_BL_COUNTER /\ sz = 1024 * n /\ p = ll_blist x + 8 * (n + 1).
Proof.
  intros Hb Hsz H Hp. unfold llan_bdesc in H. run H; [by injection H as <-|by injection H as <-|]. injection H as <-.
  apply Z.eqb_neq in B. apply Z.eqb_eq in A. change 1023 with (Z.ones 10) in A. rewrite Z.land_ones in A by lia.
  unfold shr64, LLAN_BL_POOL_START in *. rewrite Z.shiftr_div_pow2 in * by lia. apply Z.leb_gt in B0.
  rewrite (add64_small (sz / _)) in * by dlia. change LLAN_BL_COUNTER with 511 in *. exists (sz / 2 ^ 10).
  rewrite add64_small by dlia. split_and!; dlia.
Qed.

Lemma init_pools_spec x m m' :
  0 <= ll_blist x < 2 ^ 53 -> init_pools x m 0 psz = Ok m' ->
  m' = store64 (store64 (store64 m (ll_blist x + 8 * 3) (pool_desc 0 2048)) (ll_blist x + 8 * 5) (pool_desc 1 4096))
         (ll_blist x + 8 * 11) (pool_desc 2 10240).
Proof.
  intros Hx H. unfold psz in H. cbn [init_pools] in H.
  run H. injection H as <-.
  assert (forall sz p n, llan_bdesc x sz = Ok p -> negb (p =? 0) = true -> sz = 1024 * n -> 0 < n < 100 -> p = ll_blist x + 8 * (n + 1)) as Hb.
  { intros sz p n Hp Hp0 -> Hn. apply negb_true_iff, Z.eqb_neq in Hp0. destruct (bdesc_spec x (1024 * n) p Hx) as (k & _ & _ & Ek & ->); try done; [lia|].
    lia. }
  rewrite (Hb _ _ 2 E), (Hb _ _ 4 E0), (Hb _ _ 10 E1) by (done || lia). done.
Qed.

Lemma blist_written x m :
  0 <= ll_blist x < 2 ^ 53 -> (forall p, LLAN_BL_POOL_START <= p < LLAN_BL_COUNTER -> load64 m (ll_blist x + 8 * p) = 0) ->
  blist_intact x (store64 (store64 (store64 m (ll_blist x + 8 * 3) (pool_desc 0 2048)) (ll_blist x + 8 * 5) (pool_desc 1 4096))
    (ll_blist x + 8 * 11) (pool_desc 2 10240)).
Proof.
  intros Hx Hz p Hp. specialize (Hz p Hp).
  change LLAN_BL_COUNTER with 511 in Hp. unfold LLAN_BL_POOL_START in Hp. rewrite add64_small by lia.
  assert (forall k len, 0 <= k < 3 -> 0 <= len < 2 ^ 24 -> psz !! Z.to_nat k = Some len ->
    fget lbd_len (pool_desc k len) = 0 \/ exists j, fget lbd_addr (pool_desc k len) = Z.of_nat j /\ psz !! j = Some (fget lbd_len (pool_desc k len))) as Hd.
  { intros k len Hk Hl Hpsz. right. destruct (pool_desc_fields k len) as (-> & -> & _); [lia|done|]. exists (Z.to_nat k).
    split; [lia|done]. }
  destruct (decide (p = 11)) as [->|]; [rewrite load_store64 by (apply pool_desc_fields; lia); by apply Hd|].
  rewrite load_store64_other by lia. destruct (decide (p = 5)) as [->|]; [rewrite load_store64 by (apply pool_desc_fields; lia); by apply Hd|].
  rewrite load_store64_other by lia. destruct (decide (p = 3)) as [->|]; [rewrite load_store64 by (apply pool_desc_fields; lia); by apply Hd|].
  rewrite load_store64_other by lia. rewrite Hz. by left.
Qed.

Lemma blist_inited x m m' :
  0 <= ll_blist x < 2 ^ 53 -> (forall p, LLAN_BL_POOL_START <= p < LLAN_BL_COUNTER -> load64 m (ll_blist x + 8 * p) = 0) ->
  init_pools x m 0 psz = Ok m' -> blist_intact x m'.
Proof. intros Hx Hz ->%(init_pools_spec x m m' Hx). by apply blist_written. Qed.

Lemma no_pools_posted x k bd : ll_blist_pool x = repeat (repeat 0 256) 3 -> ~ posted x k bd.
Proof.
  intros E (row & i & Hr & Hb & Hv). rewrite E in Hr. apply list_elem_of_lookup_2, list_elem_of_In, repeat_spec in Hr as ->.
  apply list_elem_of_lookup_2, list_elem_of_In, repeat_spec in Hb as ->. done.
Qed.

(** A device that has registered is ready to receive: its pools are empty and its buffer
    list names them. *)
Lemma register_locked_ready s l x bl rq fl mac s' :
  wf s -> lans s !! l = Some x -> ll_registered x = 0 -> llan_register_locked s l bl rq fl mac = Ok (H_Success, s') ->
  exists y, lans s' !! l = Some y /\ ll_registered y = 1 /\ ll_mac y = mac /\ pools_ok y /\ blist_intact y (pm s').
Proof.
  intros Hs Hx H0 H. pose proof (lan_register_locked_wf _ _ _ _ _ _ _ _ _ Hs Hx H0 H) as Hw.
  unfold llan_register_locked in H. apply res_bind_ok in H as (x' & Ex & H). apply get_lan_inv in Ex. rewrite Hx in Ex. injection Ex as <-.
  run H; try (injection H; discriminate). injection H as <-. eexists. split; [by apply lookup_insert_eq|].
  split; [done|]. split; [done|]. split; [intros k bd Hp; by apply no_pools_posted in Hp|].
  pose proof (wf_dev _ l _ Hw (lookup_insert_eq _ _ _)) as Hd.
  destruct (dw_blist _ Hd) as [Hbl _]. clear Hd Hw E3. cbn [pm put_lan set_lans set_ports set_pm] in E2 |- *.
  apply blist_inited in E2; [exact E2|exact Hbl|]. intros p Hp. cbn in Hbl.
  change LLAN_BL_COUNTER with 511 in Hp. unfold LLAN_BL_POOL_START, LLAN_BL_RECVQ, LLAN_BL_FILTER in *. cbn [ll_blist set_reg set_areas set_ring].
  rewrite !add64_small by lia. rewrite !load_store64_other by lia. apply load64_zero; [lia|]. change LLAN_BL_SIZE with 4096. lia.
Qed.

(** A buffer accepted is in the pool of its length. *)
Lemma add_buf_ready s os u bd l x s' :
  llan_get s u = Ok l -> lans s !! l = Some x -> dev_wf x -> pools_ok x -> blist_intact x (pm s) ->
  llan_add_buf s os u bd = Ok (H_Success, s') ->
  exists y k, lans s' !! l = Some y /\ pools_ok y /\ pm s' = pm s /\ posted y k bd.
Proof.
  intros Hg Hx Hd Hp Hi H. unfold llan_add_buf in H. rewrite Hg in H. run H; try (injection H; discriminate).
  injection H as <-. apply get_lan_inv in E. rewrite Hx in E. injection E as <-. apply try_lock_inv in E0 as (x' & w & Hx' & ->).
  rewrite Hx in Hx'. injection Hx' as <-. apply get_lan_inv in E1. simpl in E1. rewrite lookup_insert_eq in E1. injection E1 as <-.
  apply pool_set_dev in E6 as (_ & _ & row & Hk & Hrow & Hz & ->); [|by destruct Hd].
  apply unlock_inv in E7 as (y & Hy & ->). simpl in Hy. rewrite lookup_insert_eq in Hy. injection Hy as <-.
  cbn [pm put_lan set_lans ll_blist_pool set_lock] in *.
  pose proof (frag_len_range (0, bd)) as Hl. change (frag_len (0, bd)) with (fget lbd_len bd) in Hl.
  apply negb_true_iff, Z.eqb_neq in A2. apply Z.eqb_eq in A1, A3, A4.
  destruct (bdesc_spec _ _ _ (proj1 (dw_blist _ Hd)) Hl E3 A2) as (n & Hn & Hn1 & Hn2 & ->). cbn [ll_blist set_lock] in *.
  change LLAN_BL_COUNTER with 511 in Hn1.
  assert (psz !! Z.to_nat (fget lbd_addr (load64 (pm s) (ll_blist x + 8 * (n + 1)))) = Some (fget lbd_len bd)) as Hpsz.
  { rewrite <- A4. destruct (Hi (n + 1)) as [E|(k & Ek & E)]; rewrite ?(blist_addr x) in * by (done || lia).
    - change LLAN_BL_COUNTER with 511. unfold LLAN_BL_POOL_START. lia.
    - lia.
    - by rewrite Ek, Nat2Z.id. }
  eexists _, (Z.to_nat (fget lbd_addr (load64 (pm s) (ll_blist x + 8 * (n + 1))))). split; [by apply lookup_insert_eq|]. split; [|split; [done|]].
  - intros j b (row' & i & Hr & Hb & Hv). simpl in Hr. apply list_lookup_insert_Some in Hr as [(<- & <- & _)|[_ Hr]].
    + apply list_lookup_insert_Some in Hb as [(_ & <- & _)|[_ Hb]]; [done|]. apply Hp. by exists row, i.
    + apply Hp. by exists row', i.
  - eexists _, (Z.to_nat z). apply lookup_lt_Some in Hrow as Hlt. split; [simpl; by apply list_lookup_insert_eq|].
    split; [apply list_lookup_insert_eq; lia|done].
Qed.

(** ** What the receiver finds *)
Definition frag_bytes (m : pmem) (f : Z * Z) : list Z := copy_in m f.1 (frag_len f).
Definition apart (a n b k : Z) : Prop := a + n <= b \/ b + k <= a.

Lemma copy_bits_contents frags : forall m p lo n,
  0 <= p -> p + zsum frag_len frags < 2 ^ 64 -> lo <= p -> p + zsum frag_len frags <= lo + n ->
  Forall (fun f => apart f.1 (frag_len f) lo n) frags ->
  copy_in (copy_bits m p frags) p (zsum frag_len frags) = concat (frag_bytes m <$> frags).
Proof.
  induction frags as [|[pa bd] l IH]; intros m p lo n Hp Hs Hlo Hhi Hf; [done|]. cbn [copy_bits]. simpl zsum in *.
  pose proof (frag_len_range (pa, bd)) as Hl. apply Forall_cons in Hf as [Hf0 Hf]. unfold apart in Hf0. cbn [fst] in Hf0.
  pose proof (zsum_nonneg frag_len l (fun f => proj1 (frag_len_range f))) as Hn. change (fget lbd_len bd) with (frag_len (pa, bd)).
  rewrite add64_small by lia. set (m1 := copy_mem m p pa (frag_len (pa, bd))). rewrite copy_in_app by lia. rewrite fmap_cons. cbn [concat]. f_equal.
  - transitivity (copy_in m1 p (frag_len (pa, bd))).
    + apply copy_in_ext. intros a Ha. apply (copy_bits_only l m1 (p + frag_len (pa, bd))); [lia|lia|]. lia.
    + unfold m1, copy_mem, frag_bytes. simpl fst.
      rewrite <- (copy_out_in m p (copy_in m pa (frag_len (pa, bd)))) at 2. rewrite length_copy_in. f_equal. lia.
  - rewrite (IH m1 (p + frag_len (pa, bd)) lo n) by (done || lia). f_equal. apply list_fmap_ext. intros i f Hi.
    apply (proj1 (Forall_lookup _ _) Hf) in Hi. unfold apart in Hi. apply copy_in_ext. intros a Ha.
    unfold m1. apply only_in_copy_mem; [lia|]. pose proof (zsum_nonneg frag_len l (fun f => proj1 (frag_len_range f))). lia.
Qed.

(** The entry written: the word with the current toggle, and the buffer's first word. *)
Lemma write_rqe_contents x m rq rb y m' :
  dev_wf x -> is_u64 rq -> is_u64 (load64 m rb) -> llan_write_rqe x m rq rb = (y, m') ->
  load64 m' (next_slot x) = fset lrqe_vtoggle rq (Z.land (ll_recvq_toggle x) 1) /\ load64 m' (next_slot x + 8) = load64 m rb.
Proof.
  intros [_ _ H3 H4 _ _ H7 _] Hrq Hh H. unfold llan_write_rqe in H. injection H as <- <-. unfold next_slot.
  rewrite (add64_small (ll_recvq x)) by lia. rewrite (add64_small (_ + _) 8) by lia. split.
  - apply load_store64. by apply fset_u64; [field_side|].
  - rewrite load_store64_other by lia. by apply load_store64.
Qed.

Lemma frame_rqe_u64 align sum : is_u64 (frame_rqe align sum).
Proof. unfold frame_rqe. by repeat (apply fset_u64; [field_side|]). Qed.

Lemma getbuf_pool x m size rb y m' : llan_getbuf x m size = Ok (rb, y, m') -> y = set_pool x (ll_blist_pool y).
Proof.
  intros H. unfold llan_getbuf in H. destruct (pool_search _ _ _ _ _); [|injection H as _ <- _; by destruct x].
  run H; [|injection H as _ <- _; by destruct x]. injection H as _ <- _. unfold pool_set in E1. run E1. by injection E1 as <-.
Qed.

Lemma write_rqe_ring x m rq rb y m' :
  dev_wf x -> llan_write_rqe x m rq rb = (y, m') -> ll_interrupt y = ll_interrupt x /\
  ll_recvq_idx y = (if ll_recvq_end x <=? ll_recvq_idx x + 1 then 0 else ll_recvq_idx x + 1) /\
  ll_recvq_toggle y = (if ll_recvq_end x <=? ll_recvq_idx x + 1 then u8 (ll_recvq_toggle x + 1) else ll_recvq_toggle x) /\
  ll_recvq_end y = ll_recvq_end x /\ ll_recvq y = ll_recvq x.
Proof.
  intros [_ _ H3 H4 _ _ _ _] H. unfold llan_write_rqe in H. injection H as <- _.
  assert (u16 (ll_recvq_idx x + 1) = ll_recvq_idx x + 1 \/ ll_recvq_end x <= 1) as [->|Hle].
  { unfold u16. destruct (decide (ll_recvq_end x <= 1)); [by right|]. left. apply Z.mod_small. lia. }
  - by destruct (_ <=? _).
  - assert (ll_recvq_idx x = 0) as E by lia. rewrite E. change (u16 (0 + 1)) with (0 + 1). by destruct (_ <=? _).
Qed.

Section Deliver.
Context (other_handler : Z -> machine -> Z -> xh_ptr -> Z -> Z -> res (Z * Z * machine)).

(** What a device address range holds, read through the device's table. *)
Definition dev_read (t : tce_data) (m : pmem) (v n : Z) : option (list Z) :=
  mapM (fun i => m <$> byte_at t (v + Z.of_nat i)) (seq 0 (Z.to_nat n)).

Lemma dev_read_flat t m bd rb off n :
  contiguous t bd -> tce_bd_xlate t bd = Ok rb -> rb <> 0 -> 0 <= off -> off + n <= fget lbd_len bd ->
  dev_read t m (fget lbd_addr bd + off) n = Some (copy_in m (rb + off) n).
Proof.
  intros Hc Hx Hrb Hoff Hn. unfold dev_read, copy_in. apply mapM_Some. apply Forall2_fmap_r, Forall_Forall2_diag, Forall_forall.
  intros i Hi. apply elem_of_seq in Hi. rewrite <- Z.add_assoc, (xlate_byte_at t bd rb) by (done || lia). cbn. do 2 f_equal. lia.
Qed.

(** C36: a frame that is accepted arrives, on a device whose buffer list is as registration
    wrote it and whose buffers lie in physically contiguous pages, clear of the fragments and
    of the entry of the queue: the device had a posted buffer long enough; read through the
    device's table, the fragments stand in it one after the other behind the offset; the next
    entry of the receive queue is valid, carries the toggle of the current lap, the offset,
    the length and the buffer's own first word as handle; the queue has moved on by one, and
    the interrupt has been raised. *)
Theorem llan_enqueue_delivers s l sum frags x s' :
  let align := CACHE_LINE_SIZE + Z.land (default 0 (fst <$> head frags)) (CACHE_LINE_SIZE - 1) in
  lans s !! l = Some x -> dev_wf x -> blist_intact x (pm s) -> pools_ok x -> flat x -> bytes_ok (pm s) -> frame_ok sum frags ->
  llan_enqueue other_handler s l sum frags = Ok (H_Success, s') ->
  exists k bd rb y, posted x k bd /\ llan_bd_tce_xlate x bd = Ok rb /\ rb <> 0 /\ align + sum <= fget lbd_len bd /\ lans s' !! l = Some y /\
    ll_recvq_idx y = (if ll_recvq_end x <=? ll_recvq_idx x + 1 then 0 else ll_recvq_idx x + 1) /\
    (exists q t, xir_raise other_handler (irq s) (ll_interrupt x) = Ok (q, t, irq s')) /\
    (Forall (fun f => apart f.1 (frag_len f) rb (fget lbd_len bd)) frags -> apart (next_slot x) 16 rb (fget lbd_len bd) ->
     dev_read (ll_tce_data x) (pm s') (fget lbd_addr bd + align) sum = Some (concat (frag_bytes (pm s) <$> frags)) /\
     load64 (pm s') (next_slot x) = fset lrqe_vtoggle (frame_rqe align sum) (Z.land (ll_recvq_toggle x) 1) /\
     load64 (pm s') (next_slot x + 8) = load64 (pm s) rb).
Proof.
  cbn zeta. intros Hx Hd Hi Hp Hfl Hb (Hsum & Hs & Hpa) H. destruct frags as [|[pa0 bd0] fl]; [cbn [zsum] in Hsum; lia|].
  change (default 0 (fst <$> head ((pa0, bd0) :: fl))) with pa0.
  destruct (enqueue_inv _ _ _ _ _ _ _ _ _ _ Hx H) as (rb & y & m1 & Eg & Hcase).
  assert (0 <= pa0) as Hpa0 by (apply (Hpa (pa0, bd0)); left). pose proof (align_range pa0 Hpa0) as Ha.
  set (align := CACHE_LINE_SIZE + Z.land pa0 (CACHE_LINE_SIZE - 1)) in *.
  assert (CACHE_LINE_SIZE <= align < 2 * CACHE_LINE_SIZE) as Hal by (unfold align; lia). unfold CACHE_LINE_SIZE in Hal. clearbody align.
  rewrite add64_small in Eg by lia. assert (0 < sum + align) as Hsz by lia.
  destruct (getbuf_spec _ _ _ _ _ _ Hd Hi Hp Hsz Eg) as (S1 & O1 & Hbuf). destruct (getbuf_dev _ _ _ _ _ _ Hd Eg) as [Hdy _].
  destruct Hcase as [(_ & ? & _)|(Hrb & _ & z & m2 & i & Ew & El & Em & Ept & Ei & q & t & Er)]; [done|].
  destruct (Hbuf Hrb) as (-> & k & bd & Hpost & Hxl & Hle). pose proof (xlate_range _ _ _ Hxl) as Hr. cbn zeta in Ew.
  rewrite frame_rqe_off, (add64_small rb) in Ew by lia. pose proof (getbuf_pool _ _ _ _ _ _ Eg) as Ey.
  destruct (write_rqe_ring _ _ _ _ _ _ Hdy Ew) as (R1 & R2 & _ & _). rewrite Ey in R1, R2. cbn in R1, R2.
  exists k, bd, rb, z. split_and!; try done; [lia|by rewrite El, lookup_insert_eq|exists q, t; by rewrite <- R1, Ei|].
  intros Hf Hslot. set (frags := (pa0, bd0) :: fl) in *. set (mc := copy_bits (pm s) (rb + align) frags) in *.
  assert (load64 mc rb = load64 (pm s) rb) as Eh.
  { apply load64_ext. intros a Hin. apply (copy_bits_only frags (pm s) (rb + align)); lia. }
  assert (is_u64 (load64 mc rb)) as Hu by (rewrite Eh; by apply load64_u64).
  destruct (write_rqe_contents _ _ _ _ _ _ Hdy (frame_rqe_u64 _ _) Hu Ew) as [W1 W2].
  destruct (write_rqe_spec _ _ _ _ _ _ Hdy Ew) as (_ & O2 & _).
  assert (next_slot y = next_slot x) as En by (by rewrite Ey). assert (ll_recvq_toggle y = ll_recvq_toggle x) as Et by (by rewrite Ey).
  rewrite En, Et in *. rewrite Em. split; [|by rewrite W2, Eh].
  rewrite (dev_read_flat _ _ _ rb) by (by eauto || lia). f_equal. transitivity (copy_in mc (rb + align) sum).
  - apply copy_in_ext. intros a Hin. apply O2. unfold apart in Hslot. lia.
  - rewrite Hsum. apply (copy_bits_contents frags (pm s) (rb + align) rb (fget lbd_len bd)); done || lia.
Qed.
End Deliver.

(** ** Laps of the receive queue *)
Definition write_rqes (x : llan) (m : pmem) (l : list (Z * Z)) : llan * pmem :=
  foldl (fun '(x, m) '(rq, rb) => llan_write_rqe x m rq rb) (x, m) l.

Lemma write_rqes_ring x m l : forall y m',
  dev_wf x -> ll_recvq_idx x = 0 -> ll_recvq_toggle x = 1 -> 0 < ll_recvq_end x -> write_rqes x m l = (y, m') ->
  let n := Z.of_nat (length l) in
  dev_wf y /\ ll_recvq_end y = ll_recvq_end x /\ ll_recvq y = ll_recvq x /\
  ll_recvq_idx y = n mod ll_recvq_end x /\ ll_recvq_toggle y = u8 (1 + n / ll_recvq_end x).
Proof.
  induction l as [|[rq rb] l IH] using rev_ind; intros y m' Hd H0 H1 He H.
  - injection H as <- <-. cbn [length]. rewrite Z.mod_0_l, Z.div_0_l by lia. done.
  - unfold write_rqes in H. rewrite foldl_app in H. fold (write_rqes x m l) in H. destruct (write_rqes x m l) as [z mz]. cbn [foldl] in H.
    destruct (IH z mz Hd H0 H1 He eq_refl) as (Hdz & Ez & Er & Ei & Et).
    destruct (write_rqe_ring _ _ _ _ _ _ Hdz H) as (_ & Wi & Wt & We & Wr). destruct (write_rqe_dev _ _ _ _ _ _ Hdz H) as [Hdy _].
    split; [done|]. split; [congruence|]. split; [congruence|]. rewrite Wi, Wt, Ei, Et, Ez, length_app. cbn [length].
    rewrite Nat2Z.inj_add. change (Z.of_nat 1) with 1. set (n := Z.of_nat (length l)) in *. set (e := ll_recvq_end x) in *.
    assert (0 <= n) as Hn by lia. destruct (Z.leb_spec e (n mod e + 1)) as [Hw|Hw].
    + assert (n + 1 = e * (n / e + 1)) as E by (pose proof (Z.mod_pos_bound n e He); pose proof (Z.div_mod n e); nia).
      rewrite E, Z.mul_comm, Z.mod_mul, Z.div_mul by lia. split; [done|]. unfold u8. rewrite Zplus_mod_idemp_l. f_equal. lia.
    + assert ((n + 1) / e = n / e /\ (n + 1) mod e = n mod e + 1) as [-> ->]; [|done].
      pose proof (Z.mod_pos_bound n e He). pose proof (Z.div_mod n e). split.
      * symmetry. apply (Z.div_unique_pos (n + 1) e (n / e) (n mod e + 1)); lia.
      * symmetry. apply (Z.mod_unique_pos (n + 1) e (n / e) (n mod e + 1)); lia.
Qed.

Lemma write_rqes_bytes x m l : forall y m', bytes_ok m -> write_rqes x m l = (y, m') -> bytes_ok m'.
Proof.
  induction l as [|[rq rb] l IH] using rev_ind; intros y m' Hb H; [by injection H as <- <-|].
  unfold write_rqes in H. rewrite foldl_app in H. fold (write_rqes x m l) in H. destruct (write_rqes x m l) as [z mz]. cbn [foldl] in H.
  specialize (IH z mz Hb eq_refl). unfold llan_write_rqe in H. injection H as _ <-. auto with word.
Qed.

(** After registration the [n]-th entry written, counting from 0, goes to slot [n] modulo
    the length of the queue, with the toggle bit of its lap: set in the first lap and
    flipped in every following one, so that a reader who counts entries can tell a new one
    from the one it replaces, also after the lap counter has wrapped. *)
Theorem recvq_laps x m l y m' rq rb z m'' :
  dev_wf x -> ll_recvq_idx x = 0 -> ll_recvq_toggle x = 1 -> 0 < ll_recvq_end x -> bytes_ok m -> is_u64 rq ->
  write_rqes x m l = (y, m') -> llan_write_rqe y m' rq rb = (z, m'') ->
  let n := Z.of_nat (length l) in
  fget lrqe_vtoggle (load64 m'' (ll_recvq x + 16 * (n mod ll_recvq_end x))) = (1 + n / ll_recvq_end x) mod 2.
Proof.
  intros Hd H0 H1 He Hb Hrq Hl Hw n. destruct (write_rqes_ring _ _ _ _ _ Hd H0 H1 He Hl) as (Hdy & Ee & Er & Ei & Et). fold n in Ei, Et.
  destruct (write_rqe_contents _ _ _ _ _ _ Hdy Hrq (load64_u64 _ _ (write_rqes_bytes _ _ _ _ _ Hb Hl)) Hw) as [W _]. unfold next_slot in W. rewrite Er, Ei in W.
  rewrite W, fget_fset by field_side. rewrite Et. simpl f_len. change (Z.ones 1) with 1. rewrite <- Z.land_assoc. change (Z.land 1 1) with (Z.ones 1).
  rewrite Z.land_ones by lia. unfold u8. change (2 ^ 8) with (2 ^ 1 * 2 ^ 7). rewrite Z.rem_mul_r by lia.
  rewrite Z.mul_comm, Z.mod_add by lia. by rewrite Z.mod_mod by lia.
Qed.

(** ** A registration that is refused *)

(** [y] is [x] with another receive queue and buffer list, another place in the queue, and the lock free. *)
Definition areas_only (x y : llan) : Prop :=
  y = set_lock (set_ring (set_areas x (ll_recvq y) (ll_blist y) (ll_mfilter x)) (ll_recvq_toggle y) (ll_recvq_idx y) (ll_recvq_end y))
        lock_unlocked.

(** Where the receive queue that was offered is. *)
Definition in_queue (x : llan) (rq a : Z) : Prop :=
  exists p, llan_bd_tce_xlate x rq = Ok p /\ p <= a < p + fget lbd_len rq.

(** What is left of a call that is refused with device [l] in hand. *)
Inductive refused (s s' : lan) (l th rq : Z) (x : llan) : Prop :=
  | refused_held w : ll_registered x <> 0 -> lock_tryacquire (ll_lock x) = (w, 1) -> s' = put_lan s l (set_lock x w) -> refused s s' l th rq x
  | refused_free y q : ll_registered x = 0 -> areas_only x y -> lans s' = <[l := y]> (lans s) -> ports s' = ports s -> pool s' = pool s ->
      only_in (in_queue x rq) (pm s) (pm s') -> xir_default_config (irq s) (ll_interrupt x) th l = Ok (q, irq s') -> refused s s' l th rq x.

Lemma put_put s l x y : put_lan (put_lan s l x) l y = put_lan s l y.
Proof. unfold put_lan, set_lans. cbn. by rewrite insert_insert_eq. Qed.

Lemma put_same s l x : lans s !! l = Some x -> s = set_pm (put_lan s l x) (pm s).
Proof. intros H. destruct s. unfold set_pm, put_lan, set_lans. simpl in *. by rewrite insert_id. Qed.

Lemma register_locked_refused s l x bl rq fl mac r s' :
  lans s !! l = Some x -> llan_register_locked s l bl rq fl mac = Ok (r, s') -> r <> H_Success ->
  exists y m, s' = set_pm (put_lan s l y) m /\ only_in (in_queue x rq) (pm s) m /\
    y = set_ring (set_areas x (ll_recvq y) (ll_blist y) (ll_mfilter x)) (ll_recvq_toggle y) (ll_recvq_idx y) (ll_recvq_end y).
Proof.
  intros Hx H Hr. unfold llan_register_locked in H. apply res_bind_ok in H as (x' & Ex & H). apply get_lan_inv in Ex.
  rewrite Hx in Ex. injection Ex as <-.
  pose proof (put_same s l x Hx) as Es.
  run H; injection H as <- <-; try done; rewrite ?put_put.
  1, 6: exists x, (pm s); split; [done|]; split; [apply only_in_refl|by destruct x].
  1, 2: eexists _, (pm s); split; [done|]; split; [apply only_in_refl|done].
  all: eexists _, _; split; [done|]; (split; [|done]); eapply only_in_impl; [|apply only_in_zero]; intros a Ha; by exists r0.
Qed.


(** ** Witnesses *)

(** Two devices: partition 1 owns the one at 0x10000, which is not registered; partition 2
    owns the one at 0x12000, registered, with a buffer of 2048 bytes posted. *)
Definition demo_tab (base : Z) : list Z := (fun i => Z.lor (Z.shiftl (base + Z.of_nat i) 12) 3) <$> seq 0 8.
Definition demo_buf : Z := fset lbd_addr (fset lbd_len (fset lbd_ctrl_v 0 1) 2048) 0x2000.
Definition no_bufs : list Z := repeat 0 256.
Definition demo_mac : Z := 0x020000100001.
Definition lan_a : llan :=
  Llan 0x020000100000 (TceData 8 0 4096 0x14000 (demo_tab 0x200)) [no_bufs; no_bufs; no_bufs] 1 0 0 0 LLAN_MEM_SZ 32768 0
    (xirr_encode 0 1) 0 0 0 1 0 0 0 0.
Definition lan_b : llan :=
  Llan demo_mac (TceData 8 0 4096 0x15000 (demo_tab 0x100)) [demo_buf :: repeat 0 255; no_bufs; no_bufs] 2 0x101000 0x100000 0x103000
    LLAN_MEM_SZ 32768 0 (xirr_encode 1 1) 1 1 1 1 0 0 0 4.
Definition demo_irq : machine :=
  Machine (XirrClass None None ::
           XirrClass (Some (XhData 1 (Some Xir_raise_fn) 0x10000 24 :: XhData 2 (Some Xir_raise_fn) 0x12000 24 :: repeat (XhData 0 None 0 0) 254)) None ::
           repeat (XirrClass None None) 13)
    (list_to_map [(1, CpuThread (XirQueue 0 0 (repeat 0 256)) 1); (2, CpuThread (XirQueue 0 0 (repeat 0 256)) 2)])
    (list_to_map [(1, Cpu 1 1); (2, Cpu 2 0)]).
Definition demo_frame : list Z := [2; 0; 0; 16; 0; 1; 2; 0; 0; 16; 0; 0; 8; 0].
Definition demo_pools (m : pmem) : pmem :=
  store64 (store64 (store64 m (0x100000 + 8 * 3) (pool_desc 0 2048)) (0x100000 + 8 * 5) (pool_desc 1 4096)) (0x100000 + 8 * 11) (pool_desc 2 10240).
Definition demo_lan : lan :=
  Lan (list_to_map [(0x10000, lan_a); (0x12000, lan_b)]) (Port demo_mac (repeat 0 8) 0x12000 0 :: repeat no_port 255)
    (demo_pools (copy_out (fun _ => 0) 0x200000 demo_frame)) demo_irq
    (PgAlloc (Lbm 64 [2 ^ 64 - 2 ^ 6]) 16 12).

(** A fragment of 64 bytes at device address 0. *)
Definition demo_bd : Z := fset lbd_len (fset lbd_ctrl_v 0 1) 64.

Example demo_send :
  (let! (r, a, s) := llan_send no_handler demo_lan 1 (xirr_encode 0 1) [demo_bd; 0; 0; 0; 0; 0] 0 in
   Ok (r, a, copy_in (pm s) (0x102000 + 128) 14, load64 (pm s) 0x101000)) = Ok (0, Some 0, demo_frame, 0xC000008000000040).
Proof. vm_compute. reflexivity. Qed.

Lemma demo_lans l x : lans demo_lan !! l = Some x -> l = 0x10000 /\ x = lan_a \/ l = 0x12000 /\ x = lan_b.
Proof. simpl. intros [[<- <-]|[_ [[<- <-]|[_ H]]%lookup_insert_Some]]%lookup_insert_Some; [by left|by right|]. by rewrite lookup_empty in H. Qed.

Lemma demo_port i p : ports demo_lan !! i = Some p -> i = 0%nat /\ p = Port demo_mac (repeat 0 8) 0x12000 0 \/ p = no_port.
Proof. intros H. destruct i as [|i]; [left; by injection H as <-|]. right. by apply (list_elem_of_lookup_2 _ i), list_elem_of_In, repeat_spec in H. Qed.

Lemma demo_lan_wf : wf demo_lan.
Proof.
  split.
  - change (ports demo_lan) with (<[0%nat := Port demo_mac (repeat 0 8) 0x12000 0]> llan_ports).
    apply (tab_wf_claim llan_ports 0 no_port _ llan_ports_wf); [done|by split|]. intros j r H.
    apply list_elem_of_lookup_2, list_elem_of_In, repeat_spec in H as ->. done.
  - intros l x [[-> ->]|[-> ->]]%demo_lans; (split; [done|]); (split; try done; try (by repeat constructor); split; [done|]).
    + by exists 0.
    + by exists 0x100.
  - intros l x [[-> ->]|[-> ->]]%demo_lans H; [done|]. split; [done|]. by exists (Port demo_mac (repeat 0 8) 0x12000 0).
  - intros l x [[-> ->]|[-> ->]]%demo_lans; done.
  - intros i p [[-> ->]| ->]%demo_port H; [|done]. by exists lan_b.
Qed.

Lemma demo_posted k bd : posted lan_b k bd -> k = 0%nat /\ bd = demo_buf.
Proof.
  intros (row & i & Hr & Hb & Hv). assert (forall j, no_bufs !! j = Some bd -> False) as Hno.
  { intros j H. apply list_elem_of_lookup_2, list_elem_of_In, repeat_spec in H as ->. done. }
  destruct k as [|[|[|k]]]; try (injection Hr as <-; by apply Hno in Hb); [|done]. injection Hr as <-.
  destruct i as [|i]; [by injection Hb as <-|]. apply (list_elem_of_lookup_2 _ i), list_elem_of_In, (repeat_spec 255) in Hb as ->. done.
Qed.

Lemma demo_flat : contiguous (ll_tce_data lan_b) demo_buf.
Proof.
  intros i e e' H1 H2. change (fget lbd_addr demo_buf) with 0x2000 in *. change (fget lbd_len demo_buf) with 0x800 in *.
  change PGSIZE with 4096 in *. change (0x2000 / 4096) with 2 in *. lia.
Qed.

Lemma demo_buffer a : in_buffer lan_b a -> 0x102000 <= a < 0x102800.
Proof.
  intros (k & bd & o & [-> ->]%demo_posted & Ho & Hb). change (fget lbd_len demo_buf) with 2048 in Ho.
  rewrite (xlate_byte_at _ _ 0x102000) in Hb by (done || exact demo_flat). injection Hb as <-. lia.
Qed.

Lemma demo_ready : ready demo_lan.
Proof.
  assert (forall l x, reg demo_lan l x -> x = lan_b) as Hb by (intros l x [[[-> ->]|[-> ->]]%demo_lans H]; done).
  split; [apply demo_lan_wf| |].
  - intros l x ->%Hb. split; [by intros k bd [-> ->]%demo_posted|]. split; [|intros k bd [-> ->]%demo_posted; exact demo_flat].
    apply (blist_written lan_b (copy_out (fun _ => 0) 0x200000 demo_frame)); [done|].
    intros p Hp. change LLAN_BL_COUNTER with 511 in Hp. unfold LLAN_BL_POOL_START in Hp. cbn [ll_blist lan_b].
    rewrite (load64_ext (fun _ => 0)); [done|]. intros a Ha. apply copy_out_outside. simpl. lia.
  - intros k y a ->%Hb (l & x & ->%Hb & Ha). unfold in_blist. change LLAN_BL_COUNTER with 511. unfold LLAN_BL_POOL_START. cbn [ll_blist lan_b].
    destruct Ha as [Ha|[Ha|Ha%demo_buffer]]; [|change (1048576 + 8 * 511 <= a < 1048576 + 8 * 511 + 8) in Ha; lia|lia].
    change (0x101000 <= a < 0x101000 + 16 * 4) in Ha. lia.
Qed.


(** A registration by partition 1 with pages 4, 5 and 6 of its device. *)
Definition demo_rq : Z := fset lbd_addr (fset lbd_len (fset lbd_ctrl_v 0 1) 64) 0x5000.
Definition demo_register (mac : Z) : lan_call := Register 1 (xirr_encode 0 1) 0x4000 demo_rq 0x6000 mac.

Fixpoint run_events (s : lan) (l : list lan_event) : res lan :=
  match l with
  | [] => Ok s
  | e :: l => let! s := event_step no_handler no_l_to_r s e in run_events s l
  end.

Lemma run_events_run l : forall s s',
  Forall (fun e => match e with Acquire _ | Release _ _ => False | _ => True end) l -> run_events s l = Ok s' ->
  lan_run no_handler no_l_to_r s l s'.
Proof.
  induction l as [|e l IH]; intros s s' Hl H; cbn [run_events] in H; [injection H as <-; constructor|].
  apply Forall_cons in Hl as [He Hl]. run H. econstructor; [|exact E|by apply IH]. by destruct e.
Qed.

Definition demo_events : list lan_event :=
  [Call 1 (demo_register 0x020000100000); Call 1 (Change_mac (xirr_encode 0 1) 7); Call 1 (Multicast (xirr_encode 0 1) 0xA0001 0);
   Call 1 (Add_buffer (xirr_encode 0 1) demo_buf); Memory (pm demo_lan); Call 2 (Send (xirr_encode 1 1) demo_buf 0 0 0 0 0 0);
   Call 1 (Free (xirr_encode 0 1))].

Lemma lan_well_formed_witness :
  exists s', lan_run no_handler no_l_to_r demo_lan demo_events s' /\ lan_wf (lans s') (ports s').
Proof.
  destruct (is_ok_inv (run_events demo_lan demo_events)) as [s' E]; [vm_compute; reflexivity|].
  apply run_events_run in E; [|by repeat constructor]. exists s'. split; [exact E|].
  exact (lan_well_formed no_handler no_l_to_r demo_lan demo_events s' demo_lan_wf E).
Defined.

Lemma demo_b : lans demo_lan !! 0x12000 = Some lan_b.
Proof. reflexivity. Qed.

Definition demo_frags : list (Z * Z) := [(0x200000, demo_bd)].

Lemma demo_bytes : bytes_ok (pm demo_lan).
Proof.
  unfold demo_lan, demo_pools. cbn [pm]. do 3 apply bytes_store64. apply bytes_copy_out; [intros a; lia|]. repeat constructor; lia.
Qed.

Lemma llan_enqueue_delivers_witness :
  exists s' k bd rb y, llan_enqueue no_handler demo_lan 0x12000 64 demo_frags = Ok (H_Success, s') /\
    posted lan_b k bd /\ llan_bd_tce_xlate lan_b bd = Ok rb /\ rb <> 0 /\ 128 + 64 <= fget lbd_len bd /\ lans s' !! 0x12000 = Some y /\
    ll_recvq_idx y = 1 /\ (exists q t, xir_raise no_handler (irq demo_lan) (ll_interrupt lan_b) = Ok (q, t, irq s')) /\
    (Forall (fun f => apart f.1 (frag_len f) rb (fget lbd_len bd)) demo_frags -> apart (next_slot lan_b) 16 rb (fget lbd_len bd) ->
     dev_read (ll_tce_data lan_b) (pm s') (fget lbd_addr bd + 128) 64 = Some (concat (frag_bytes (pm demo_lan) <$> demo_frags)) /\
     load64 (pm s') (next_slot lan_b) = fset lrqe_vtoggle (frame_rqe 128 64) 1 /\ load64 (pm s') (next_slot lan_b + 8) = load64 (pm demo_lan) rb).
Proof.
  destruct (is_ok_inv (llan_enqueue no_handler demo_lan 0x12000 64 demo_frags)) as [[r s'] E]; [vm_compute; reflexivity|].
  assert (r = H_Success) as ->.
  { assert ((let! (r, _) := llan_enqueue no_handler demo_lan 0x12000 64 demo_frags in Ok r) = Ok H_Success) as E1 by (vm_compute; reflexivity).
    rewrite E in E1. by injection E1. }
  assert (ll_registered lan_b <> 0) as Hr by discriminate.
  destruct (rd_dev _ demo_ready 0x12000 lan_b (conj demo_b Hr)) as (Hp & Hi & Hf).
  destruct (llan_enqueue_delivers no_handler demo_lan 0x12000 64 demo_frags lan_b s' demo_b (wf_dev _ _ _ demo_lan_wf demo_b) Hi Hp Hf demo_bytes) as (k & bd & rb & y & K).
  - split; [done|]. split; [lia|]. intros f [->|[]%elem_of_nil]%elem_of_cons. done.
  - exact E.
  - exists s', k, bd, rb, y. split; [exact E|exact K].
Defined.

Lemma recvq_laps_witness :
  exists y m' z m'', write_rqes lan_b (fun _ => 0) (repeat (0, 0) 6) = (y, m') /\ llan_write_rqe y m' 0 0 = (z, m'') /\
    fget lrqe_vtoggle (load64 m'' (0x101000 + 16 * (6 mod 4))) = (1 + 6 / 4) mod 2.
Proof.
  destruct (write_rqes lan_b (fun _ => 0) (repeat (0, 0) 6)) as [y m'] eqn:E1. destruct (llan_write_rqe y m' 0 0) as [z m''] eqn:E2.
  exists y, m', z, m''. split; [done|]. split; [exact E2|].
  apply (recvq_laps lan_b (fun _ => 0) (repeat (0, 0) 6) y m' 0 0 z m''); try done. exact (wf_dev _ _ _ demo_lan_wf demo_b).
Defined.


(** ** What goes wrong *)

(** The results of calls one after the other, up to a fault. *)
Fixpoint results (s : lan) (l : list (lan -> res (Z * lan))) : list (Z + fault) :=
  match l with
  | [] => []
  | f :: l => match f s with Ok (r, s) => inl r :: results s l | Fault e => [inr e] end
  end.

Definition reg_a (mac : Z) (s : lan) := llan_register s 1 1 (xirr_encode 0 1) 0x4000 demo_rq 0x6000 mac.
Definition buf_a (bd : Z) (s : lan) := llan_add_buf s 1 (xirr_encode 0 1) bd.
Definition free_a (s : lan) := llan_free s 1 (xirr_encode 0 1).
Definition send_b (s : lan) :=
  let! (r, _, s) := llan_send no_handler (set_pm s (copy_out (pm s) 0x100000 [0; 0; 0; 0; 0; 5; 2; 0; 0; 16; 0; 1; 8; 0])) 2 (xirr_encode 1 1) [demo_bd; 0; 0; 0; 0; 0] 0 in
  Ok (r, s).
Definition write_a (a v : Z) (s : lan) : res (Z * lan) := Ok (0, set_pm s (store64 (pm s) a v)).

(** Registering twice leaves the device locked: no call on it works any more. *)
Example register_twice : results demo_lan [reg_a 5; reg_a 5; free_a; buf_a demo_buf] = [inl H_Success; inl H_Hardware; inl H_Hardware; inl H_Hardware].
Proof. vm_compute. reflexivity. Qed.

(** Releasing it then keeps the port, and a frame for the address uses freed memory. *)
Example release_dangling :
  results demo_lan [reg_a 5; reg_a 5; fun s => llan_release s 1 (xirr_encode 0 1); send_b] = [inl H_Success; inl H_Hardware; inl H_Success; inr Null_deref].
Proof. vm_compute. reflexivity. Qed.

(** A buffer outside the mapped window is refused with the lock held. *)
Example bad_buffer_locks :
  results demo_lan [reg_a 5; buf_a (fset lbd_addr demo_buf 0x20000); free_a] = [inl H_Success; inl H_Parameter; inl H_Hardware].
Proof. vm_compute. reflexivity. Qed.

(** An address that is in use, a change of address on port 0, and a buffer of 3072 bytes
    trap the hypervisor. *)
Example duplicate_mac_traps : results demo_lan [reg_a demo_mac] = [inr Assert_failed].
Proof. vm_compute. reflexivity. Qed.
Example change_mac_port0_traps : results demo_lan [fun s => llan_change_mac s 2 (xirr_encode 1 1) 7] = [inr Assert_failed].
Proof. vm_compute. reflexivity. Qed.
Example odd_buffer_traps : results demo_lan [reg_a 5; buf_a (fset lbd_len demo_buf 3072)] = [inl H_Success; inr Assert_failed].
Proof. vm_compute. reflexivity. Qed.

(** The pool index and length are read back from the partition's own page: a partition
    that changes them makes another's frame index outside the pools, or run past the end
    of a buffer. *)
Example pool_index_trusted :
  results demo_lan [reg_a 5; buf_a demo_buf; write_a (0x204000 + 8 * 3) (pool_desc 7 2048); send_b] =
    [inl H_Success; inl H_Success; inl 0; inr Out_of_bounds].
Proof. vm_compute. reflexivity. Qed.

Example pool_length_trusted :
  match llan_getbuf lan_b (store64 (pm demo_lan) (0x100000 + 8 * 2) (pool_desc 0 0xffffff)) 100000 with
  | Ok (rb, _, _) => rb = 0x102000 /\ fget lbd_len demo_buf < 100000
  | Fault _ => False
  end.
Proof. vm_compute. done. Qed.

(** Another partition may map its own pages into a device. *)
Example tce_put_not_checked :
  (let! (r, s) := llan_tce_put no_l_to_r Logical.demo (set_lans demo_lan (<[0x12000 := lan_b]> (lans demo_lan))) 1 (xirr_encode 1 1) 0x3000 0x5003 in Ok r) = Ok H_Success.
Proof. vm_compute. reflexivity. Qed.

(** A frame for address 0 goes to the first port with room in its cache. *)
Example mac_zero_found : llan_mac_find (ports demo_lan) 0 = Ok (0x12000, Some 1).
Proof. vm_compute. reflexivity. Qed.

(** A receive queue of 65536 entries is taken for one of none: every entry overwrites the
    last. *)
Example long_queue_wraps : u16 (fget lbd_len (fset lbd_len 0 0x100000) / 16) = 0.
Proof. reflexivity. Qed.

(** Turning the filter on turns reception on. *)
Example filter_is_receive :
  match llan_mcast_ctrl_locked lan_a (fun _ => 0) (Z.lor LMF_MODF LMF_MODF_ALLOW) with
  | Ok (_, st, x, _) => st = Some (Z.lor LMF_MODR_ALLOW LMF_MODF_ALLOW) /\ ll_mcast_state x = LL_MCAST_RECV
  | Fault _ => False
  end.
Proof. vm_compute. done. Qed.
