(* ===== verification/Ipc.v ===== *)
(** * Ipc: messages between partitions

    [hype/ipc.c], [hype/aipc.h], [include/ipc.h], [hype/create_msgq.c], [hype/h_send_async.c]
    and the functions of [hype/os.h] that find a thread.  A partition names a range of its
    memory as a message queue ([aipc_create]); others append to it ([__ipc_send]), and the
    owner takes messages out by itself: [head], [tail] and the messages are in its memory
    ([Imemcpy]), where its processors may change them at any time, also while the
    hypervisor runs.  The locks [po_mutex] and [aipc->lock] make a call one step. *)

From S2P Require Import Prelude Hcall Bitmap PgAlloc Dlist Os Xirr Xir Logical Imemcpy.

Definition MAX_NUM_AIPC : Z := 16.
Definition AIPC_LOCAL : Z := 1.
Definition XIRR_CLASS_AIPC : Z := 2.
Definition CT_PREEMPT_YIELD_SELF : Z := 2.

(** [struct msg_queue] and [struct async_msg_s] in memory. *)
Definition SIZEOF_MSG_QUEUE : Z := 24.
Definition SIZEOF_ASYNC_MSG : Z := 40.
Definition mq_bufSize (mqp : Z) : Z := mqp.
Definition mq_head (mqp : Z) : Z := add64 mqp 8.
Definition mq_tail (mqp : Z) : Z := add64 mqp 16.
Definition mq_buffer (mqp i : Z) : Z := add64 mqp (SIZEOF_MSG_QUEUE + SIZEOF_ASYNC_MSG * i).

Record aipc := Aipc { ai_buf : Z; ai_buf_size : Z; ai_xirr : Z; ai_target : Z }.

(** [struct lpar_event]: its [le_list] is the node at its address; [le_func] is the
    name of a function. *)
Record lpar_event := LparEvent { le_mask : Z; le_func : Z }.
Definition AIPC_CLEANUP : Z := 1.

(** What is used here of [struct os] ([io_events] is the address of the head of its
    events, [io_cpu] the threads of its processors) and of [struct cpu_thread]. *)
Record ios := IOs { io_lpid : Z; io_cpu : list (option (list Z)); io_events : Z; aipc_tab : list Z; aipc_cleanup_le : Z }.
Record ithread := IThread { local_aipc_idx : Z; cpu_num : Z; thr_num : Z; preempt : Z }.

(** The queues, events, partitions and threads by address, memory, the interrupt lines
    and the nodes of the event lists. *)
Record ipc := Ipc {
  aipcs : gmap Z aipc;
  les : gmap Z lpar_event;
  ioss : gmap Z ios;
  ithreads : gmap Z ithread;
  ipm : pmem;
  iirq : machine;
  ievents : dheap
}.

Definition set_ipm (s : ipc) (m : pmem) : ipc := Ipc (aipcs s) (les s) (ioss s) (ithreads s) m (iirq s) (ievents s).
Definition set_iirq (s : ipc) (m : machine) : ipc := Ipc (aipcs s) (les s) (ioss s) (ithreads s) (ipm s) m (ievents s).
Definition put_aipc (s : ipc) (a : Z) (x : aipc) : ipc :=
  Ipc (<[a := x]> (aipcs s)) (les s) (ioss s) (ithreads s) (ipm s) (iirq s) (ievents s).
Definition put_ios (s : ipc) (o : Z) (x : ios) : ipc :=
  Ipc (aipcs s) (les s) (<[o := x]> (ioss s)) (ithreads s) (ipm s) (iirq s) (ievents s).
Definition put_ithread (s : ipc) (t : Z) (x : ithread) : ipc :=
  Ipc (aipcs s) (les s) (ioss s) (<[t := x]> (ithreads s)) (ipm s) (iirq s) (ievents s).

Definition get_aipc (s : ipc) (a : Z) : res aipc := of_option Null_deref (aipcs s !! a).
Definition get_ios (s : ipc) (o : Z) : res ios := of_option Null_deref (ioss s !! o).
Definition get_ithread (s : ipc) (t : Z) : res ithread := of_option Null_deref (ithreads s !! t).

(** [thread->cpu->os] *)
Definition thread_os (s : ipc) (thread : Z) : res Z :=
  let! t := get_thread (iirq s) thread in
  let! c := get_cpu (iirq s) (thr_cpu t) in
  Ok (cpu_os c).

Definition set_tab (o : ios) (l : list Z) : ios := IOs (io_lpid o) (io_cpu o) (io_events o) l (aipc_cleanup_le o).

(** ** Threads of a partition *)
Definition get_os_cpu (o : ios) (idx : Z) : option (list Z) :=
  if idx <? Z.of_nat (length (io_cpu o)) then mjoin (io_cpu o !! Z.to_nat idx) else None.

(** 0 is [NULL]. *)
Definition get_os_thread (o : ios) (cpu thr : Z) : Z :=
  match get_os_cpu o cpu with
  | Some c => if thr <? Z.of_nat (length c) then default 0 (c !! Z.to_nat thr) else 0
  | None => 0
  end.

Definition THREAD_MATCH : Z := 0.
Definition CPU_MATCH : Z := 1.
Definition NO_MATCH : Z := 2.
Definition is_colocated (a b : ithread) : Z :=
  if (thr_num a =? thr_num b) && (cpu_num a =? cpu_num b) then THREAD_MATCH
  else if cpu_num a =? cpu_num b then CPU_MATCH
  else NO_MATCH.

Definition find_colocated_thread (source : ithread) (target : ios) : Z :=
  let thread := get_os_thread target (cpu_num source) (thr_num source) in
  if thread =? 0 then
    let thread := get_os_thread target (cpu_num source) 0 in
    if thread =? 0 then get_os_thread target 0 0 else thread
  else thread.

(** ** Creating and freeing queues *)

(** [for (; i < MAX_NUM_AIPC; ++i)], up to the first free entry. *)
Fixpoint free_slot (l : list Z) (i : Z) : Z :=
  match l with
  | [] => i
  | a :: l => if a =? 0 then i else free_slot l (i + 1)
  end.

(** The loop of [aipc_cleanup]. *)
Fixpoint free_aipcs (q : gmap Z aipc) (l : list Z) : gmap Z aipc :=
  match l with
  | [] => q
  | a :: l => free_aipcs (if a =? 0 then q else delete a q) l
  end.

Definition aipc_cleanup (s : ipc) (os le event : Z) : res (Z * ipc) :=
  let! o := get_ios s os in
  let s := put_ios s os (set_tab o (repeat 0 (Z.to_nat MAX_NUM_AIPC))) in
  Ok (0, Ipc (free_aipcs (aipcs s) (aipc_tab o)) (delete le (les s)) (ioss s) (ithreads s) (ipm s) (iirq s) (ievents s)).

Definition hv_map_LA := logical_to_physical_address.

Section Create.
Context (l_to_r : Z -> logical_chunk_info -> Z -> Z -> res Z) (m : memory).

(** The cleanup handler, registered with the first queue; [le] is what [halloc] returns
    for it. *)
Definition register_cleanup (s : ipc) (os le : Z) : res ipc :=
  let! o := get_ios s os in
  if aipc_cleanup_le o =? 0 then
    check! negb (le =? 0) else Null_deref in
    let s := put_ios s os (IOs (io_lpid o) (io_cpu o) (io_events o) (aipc_tab o) le) in
    let! (_, h) := register_event (ievents s) (io_events o) le in
    Ok (Ipc (aipcs s) (<[le := LparEvent LPAR_DIE AIPC_CLEANUP]> (les s)) (ioss s) (ithreads s) (ipm s) (iirq s) h)
  else Ok s.

(** [if (flags & AIPC_LOCAL)] *)
Definition set_local (s : ipc) (os thread a i flags : Z) : res ipc :=
  if truth (Z.land flags AIPC_LOCAL) then
    let! o := get_ios s os in
    let! t := get_ithread s thread in
    let! cur := aget (aipc_tab o) (local_aipc_idx t) in
    let! mine := if cur =? 0 then Ok false else let! x := get_aipc s cur in Ok (ai_target x =? thread) in
    let s := if mine : bool then s
             else put_ithread s thread (IThread (u16 i) (cpu_num t) (thr_num t) (preempt t)) in
    let! x := get_aipc s a in
    Ok (put_aipc s a (Aipc (ai_buf x) (ai_buf_size x) (ai_xirr x) thread))
  else Ok s.

(** [a] and [le] are what [halloc] returns for the queue and for the handler. *)
Definition aipc_create (s : ipc) (thread lbase size flags a le : Z) : res (Z * ipc) :=
  if truth (Z.land (Z.lor size lbase) (PGSIZE - 1)) then Ok (H_INVAL, s)
  else if CHUNK_SIZE <? add64 lbase size then Ok (H_Parameter, s)
  else
    let! os := thread_os s thread in
    let! o := get_ios s os in
    let i := free_slot (aipc_tab o) 0 in
    if i =? MAX_NUM_AIPC then Ok (H_Success, s)
    else
      let! rbase := hv_map_LA l_to_r m os lbase PGSIZE in
      if rbase =? INVALID_PHYSICAL_ADDRESS then Ok (H_Parameter, s)
      else
        let s := set_ipm s (zero_mem (ipm s) rbase size) in
        check! negb (a =? 0) else Null_deref in
        let buf_size := sub64 size SIZEOF_MSG_QUEUE / SIZEOF_ASYNC_MSG in
        let s := set_ipm s (store64 (ipm s) (mq_bufSize rbase) buf_size) in
        let! (ret, irq) := xir_find (iirq s) XIRR_CLASS_AIPC in
        cassert (negb (ret =? -1))
          (let xirr := xirr_encode ret XIRR_CLASS_AIPC in
           let! (_, irq) := xir_default_config irq xirr thread a in
           let s := put_aipc (set_iirq s irq) a (Aipc rbase buf_size xirr 0) in
           let! tab := aset (aipc_tab o) i a in
           let s := put_ios s os (set_tab o tab) in
           let! s := register_cleanup s os le in
           let! s := set_local s os thread a i flags in
           Ok (ret, s)).

(** The result, and the value returned in register 1: [None] when it was not set. *)
Definition h_create_msgq (s : ipc) (thread lbase size flags a le : Z) : res (Z * option Z * ipc) :=
  let! (ret, s) := aipc_create s thread lbase size flags a le in
  if 0 <=? ret then Ok (H_Success, Some (xirr_encode ret XIRR_CLASS_AIPC), s) else Ok (ret, None, s).
End Create.

(** ** Sending *)
Section Send.
Context (other_handler : Z -> machine -> Z -> xh_ptr -> Z -> Z -> res (Z * Z * machine)).
(** What the other processors, running partitions, do to memory before the n-th access
    of the queue. *)
Context (race : nat -> pmem -> pmem).

Fixpoint put_words (m : pmem) (p : Z) (l : list Z) : pmem :=
  match l with
  | [] => m
  | w :: l => put_words (store64 m p w) (add64 p 8) l
  end.

Definition __ipc_send (s : ipc) (x : aipc) (sender arg1 arg2 arg3 arg4 : Z) : res (Z * ipc) :=
  let mqp := ai_buf x in
  let mqbufsize := ai_buf_size x in
  if mqp =? 0 then Ok (H_Parameter, s)
  else
    let m := race 0 (ipm s) in
    let head := load64 m (mq_head mqp) in
    let m := race 1 m in
    let tail := load64 m (mq_tail mqp) in
    if add64 tail mqbufsize <=? head then Ok (H_Busy, set_ipm s m)
    else
      let m := race 2 m in
      let headp := load64 m (mq_head mqp) in
      check! negb (mqbufsize =? 0) else Out_of_bounds in
      let m := put_words m (mq_buffer mqp (headp mod mqbufsize)) [sender; arg1; arg2; arg3; arg4] in
      let m := race 3 m in
      let m := store64 m (mq_head mqp) (add64 (load64 m (mq_head mqp)) 1) in
      let m := race 4 m in
      let head := load64 m (mq_head mqp) in
      let m := race 5 m in
      let tail := load64 m (mq_tail mqp) in
      let s := set_ipm s m in
      if head =? add64 tail 1 then
        let! (ret, _, irq) := xir_raise other_handler (iirq s) (ai_xirr x) in
        cassert (0 <=? ret) (Ok (0, set_iirq s irq))
      else Ok (0, s).

(** [proc] and [thr] are [get_proc_id()] and [get_thread_id()]. *)
Definition ipc_directed_aipc (s : ipc) (proc thr dest aipc_id src arg1 arg2 arg3 arg4 : Z) : res (Z * ipc) :=
  if MAX_NUM_AIPC <=? aipc_id then Ok (H_Parameter, s)
  else
    let! o := get_ios s dest in
    let! dst := aget (aipc_tab o) aipc_id in
    if dst =? 0 then Ok (H_Parameter, s)
    else
      let! x := get_aipc s dst in
      let dst_thr := if ai_target x =? 0 then get_os_thread o proc thr else ai_target x in
      if dst_thr =? 0 then Ok (H_Parameter, s)
      else
        let! d := thread_os s dst_thr in
        cassert (d =? dest) (__ipc_send s x src arg1 arg2 arg3 arg4).

Definition ipc_send_async (s : ipc) (thread sender arg1 arg2 arg3 arg4 : Z) : res (Z * ipc) :=
  if thread =? 0 then Ok (H_Parameter, s)
  else
    let! os := thread_os s thread in
    let! o := get_ios s os in
    let! t := get_ithread s thread in
    let! a := aget (aipc_tab o) (local_aipc_idx t) in
    if a =? 0 then Ok (H_Parameter, s)
    else let! x := get_aipc s a in __ipc_send s x sender arg1 arg2 arg3 arg4.

(** [destos] is what [os_lookup] finds ([Os.os_lookup]). *)
Definition h_send_async (s : ipc) (thread destos arg1 arg2 arg3 arg4 : Z) : res (Z * ipc) :=
  if destos =? 0 then Ok (H_Parameter, s)
  else
    let! d := get_ios s destos in
    let! me := get_ithread s thread in
    let thr := find_colocated_thread me d in
    let! t := get_ithread s thr in
    let s := if is_colocated t me =? THREAD_MATCH
             then put_ithread s thread (IThread (local_aipc_idx me) (cpu_num me) (thr_num me) CT_PREEMPT_YIELD_SELF) else s in
    let! myos := thread_os s thread in
    let! o := get_ios s myos in
    ipc_send_async s thr (io_lpid o) arg1 arg2 arg3 arg4.
End Send.

(** ** Where a send writes *)

(** A queue of [size] bytes. *)
Record aipc_wf (x : aipc) (size : Z) : Prop := {
  aw_buf : 0 < ai_buf x;
  aw_end : ai_buf x + size < 2 ^ 64;
  aw_size : PGSIZE <= size;
  aw_num : ai_buf_size x = (size - SIZEOF_MSG_QUEUE) / SIZEOF_ASYNC_MSG
}.

Definition in_queue (x : aipc) (size a : Z) : Prop := ai_buf x <= a < ai_buf x + size.

Lemma wf_num_pos x size : aipc_wf x size -> 0 < ai_buf_size x /\ SIZEOF_MSG_QUEUE + SIZEOF_ASYNC_MSG * ai_buf_size x <= size.
Proof. intros [_ _ Hs ->]. unfold PGSIZE, SIZEOF_MSG_QUEUE, SIZEOF_ASYNC_MSG in *. change (2 ^ LOG_PGSIZE) with 4096 in Hs. dlia. Qed.

Lemma wf_slot x size i :
  aipc_wf x size -> 0 <= i < ai_buf_size x ->
  mq_buffer (ai_buf x) i = ai_buf x + SIZEOF_MSG_QUEUE + SIZEOF_ASYNC_MSG * i /\
  ai_buf x + SIZEOF_MSG_QUEUE + SIZEOF_ASYNC_MSG * i + SIZEOF_ASYNC_MSG <= ai_buf x + size.
Proof.
  intros Hw Hi. destruct (wf_num_pos x size Hw). destruct Hw as [H1 H2 _ _]. unfold mq_buffer, SIZEOF_MSG_QUEUE, SIZEOF_ASYNC_MSG in *.
  rewrite add64_small; nia.
Qed.

Lemma wf_fields x size :
  aipc_wf x size -> mq_head (ai_buf x) = ai_buf x + 8 /\ mq_tail (ai_buf x) = ai_buf x + 16 /\ ai_buf x + 24 <= ai_buf x + size.
Proof.
  intros [H1 H2 H3 _]. unfold PGSIZE in H3. change (2 ^ LOG_PGSIZE) with 4096 in H3. unfold mq_head, mq_tail. rewrite !add64_small; lia.
Qed.

Lemma put_words_only l : forall m p, 0 <= p -> p + 8 * Z.of_nat (length l) < 2 ^ 64 ->
  only_in (fun a => p <= a < p + 8 * Z.of_nat (length l)) m (put_words m p l).
Proof.
  induction l as [|w l IH]; intros m p Hp He; cbn [put_words length] in *; [by intros a|].
  rewrite add64_small by lia. eapply only_in_trans; [|eapply only_in_impl; [|apply IH; lia]; simpl; intros; lia].
  eapply only_in_impl; [|apply only_in_store]. simpl. intros; lia.
Qed.

#[global] Arguments put_words : simpl never.

Section Inside.
Context (oh : Z -> machine -> Z -> xh_ptr -> Z -> Z -> res (Z * Z * machine)) (race : nat -> pmem -> pmem) (P : Z -> Prop).
Hypothesis race_in : forall n m, only_in P m (race n m).

(** Whatever the owner does to its queue at the same time, a send writes only there. *)
Lemma ipc_send_only s x size sender a1 a2 a3 a4 r s' :
  aipc_wf x size -> __ipc_send oh race s x sender a1 a2 a3 a4 = Ok (r, s') ->
  only_in (fun a => P a \/ in_queue x size a) (ipm s) (ipm s') /\ aipcs s' = aipcs s /\ ioss s' = ioss s.
Proof.
  intros Hw. unfold __ipc_send. set (Q a := P a \/ in_queue x size a). destruct (wf_fields x size Hw) as (Eh & Et & Hf).
  pose proof Hw as [H1 H2 _ _]. destruct (wf_num_pos x size Hw) as [Hn _].
  assert (forall n m m0, only_in Q m0 m -> only_in Q m0 (race n m)) as Hrace.
  { intros n m m0 Hm. eapply only_in_trans; [exact Hm|]. eapply only_in_impl; [|apply race_in]. unfold Q. tauto. }
  assert (forall m m0 v, only_in Q m0 m -> only_in Q m0 (store64 m (mq_head (ai_buf x)) v)) as Hhead.
  { intros m m0 v Hm. eapply only_in_trans; [exact Hm|]. eapply only_in_impl; [|apply only_in_store].
    rewrite Eh. unfold Q, in_queue. simpl. lia. }
  assert (forall m m0 i, only_in Q m0 m ->
    only_in Q m0 (put_words m (mq_buffer (ai_buf x) (i mod ai_buf_size x)) [sender; a1; a2; a3; a4])) as Hmsg.
  { intros m m0 i Hm. destruct (wf_slot x size (i mod ai_buf_size x) Hw) as [-> He]; [by apply Z.mod_pos_bound|].
    pose proof (Z.mod_pos_bound i _ Hn). unfold SIZEOF_MSG_QUEUE, SIZEOF_ASYNC_MSG in *.
    eapply only_in_trans; [exact Hm|]. eapply only_in_impl; [|apply put_words_only; simpl length; lia].
    simpl length. unfold Q, in_queue. simpl. lia. }
  destruct (Z.eqb_spec (ai_buf x) 0); [lia|]. cbv zeta.
  destruct (_ <=? _); [intros [= <- <-]; simpl; auto with word|].
  destruct (Z.eqb_spec (ai_buf_size x) 0); [lia|]. cbn [negb].
  destruct (_ =? _); [|intros [= <- <-]; cbn [ipm set_ipm aipcs ioss]; split; [auto 10 with word|done]].
  intros E. apply res_bind_ok in E as ([[ret t] irq] & _ & E). unfold cassert in E. destruct (0 <=? ret); [|done].
  injection E as <- <-. cbn [ipm set_ipm set_iirq aipcs ioss]. split; [auto 10 with word|done].
Qed.
End Inside.

(** ** The queue as its owner sees it *)
Definition head_of (m : pmem) (x : aipc) : Z := load64 m (mq_head (ai_buf x)).
Definition tail_of (m : pmem) (x : aipc) : Z := load64 m (mq_tail (ai_buf x)).

(** The words of the message with number [i]. *)
Definition msg_at (m : pmem) (x : aipc) (i : Z) : list Z :=
  (fun k => load64 m (mq_buffer (ai_buf x) (i mod ai_buf_size x) + 8 * k)) <$> [0; 1; 2; 3; 4].

Definition mq_contents (m : pmem) (x : aipc) : list (list Z) :=
  (fun k => msg_at m x (tail_of m x + Z.of_nat k)) <$> seq 0 (Z.to_nat (head_of m x - tail_of m x)).

Lemma put_words_read l : forall m p k w,
  0 <= p -> p + 8 * Z.of_nat (length l) < 2 ^ 64 -> Forall is_u64 l -> l !! k = Some w ->
  load64 (put_words m p l) (p + 8 * Z.of_nat k) = w.
Proof.
  induction l as [|v l IH]; intros m p k w Hp He Hl Hk; [done|]. cbn [length] in He. inversion_clear Hl as [|? ? Hv Hl'].
  change (put_words m p (v :: l)) with (put_words (store64 m p v) (add64 p 8) l). rewrite add64_small by lia.
  destruct k as [|k]; cbn [lookup list_lookup] in Hk.
  - injection Hk as ->. rewrite Z.mul_0_r, Z.add_0_r. rewrite (load64_ext (store64 m p w)); [by apply load_store64|].
    intros b Hb. apply put_words_only; lia.
  - replace (p + 8 * Z.of_nat (S k)) with ((p + 8) + 8 * Z.of_nat k) by lia. apply IH; done || lia.
Qed.

Lemma msg_at_ext m m' x size i :
  aipc_wf x size -> (forall a, mq_buffer (ai_buf x) (i mod ai_buf_size x) <= a < mq_buffer (ai_buf x) (i mod ai_buf_size x) + 40 -> m' a = m a) ->
  msg_at m' x i = msg_at m x i.
Proof.
  intros Hw H. unfold msg_at. apply list_fmap_ext. intros j k Hk. apply load64_ext. intros a Ha. apply H.
  apply list_elem_of_lookup_2 in Hk. repeat (apply elem_of_cons in Hk as [->|Hk]; [lia|]). by apply elem_of_nil in Hk.
Qed.

(** Messages less than a lap apart are in different places. *)
Lemma slots_differ i j n : 0 < n -> i < j < i + n -> i mod n <> j mod n.
Proof.
  intros Hn Hij E. pose proof (Z_div_mod_eq_full i n). pose proof (Z_div_mod_eq_full j n). assert (j - i = n * (j / n - i / n)) as Hd by lia.
  destruct (Z.lt_trichotomy (j / n - i / n) 0) as [|[E0|]]; [nia|rewrite E0 in Hd; lia|nia].
Qed.

Section Fifo.
Context (x : aipc) (size : Z) (Hw : aipc_wf x size).

Lemma slot_above i : ai_buf x + 24 <= mq_buffer (ai_buf x) (i mod ai_buf_size x) /\
  mq_buffer (ai_buf x) (i mod ai_buf_size x) + 40 < 2 ^ 64.
Proof.
  destruct (wf_num_pos x size Hw) as [Hn _]. pose proof (Z.mod_pos_bound i _ Hn).
  destruct (wf_slot x size (i mod ai_buf_size x) Hw) as [-> He]; [done|]. destruct Hw.
  unfold SIZEOF_MSG_QUEUE, SIZEOF_ASYNC_MSG in *. lia.
Qed.

(** Memory after a message was appended. *)
Definition appended (m : pmem) (l : list Z) : pmem :=
  store64 (put_words m (mq_buffer (ai_buf x) (head_of m x mod ai_buf_size x)) l) (mq_head (ai_buf x)) (head_of m x + 1).

Context (m : pmem) (l : list Z).
Hypothesis (Hl : Forall is_u64 l) (Hlen : length l = 5%nat).

Lemma put_words_keeps i a :
  ~ (mq_buffer (ai_buf x) (i mod ai_buf_size x) <= a < mq_buffer (ai_buf x) (i mod ai_buf_size x) + 40) ->
  put_words m (mq_buffer (ai_buf x) (i mod ai_buf_size x)) l a = m a.
Proof.
  intros Ha. pose proof (slot_above i). pose proof (aw_buf x size Hw). apply put_words_only; rewrite ?Hlen; lia.
Qed.

Lemma appended_head : is_u64 (head_of m x + 1) -> head_of (appended m l) x = head_of m x + 1.
Proof. intros H. by apply load_store64. Qed.

Lemma appended_tail : tail_of (appended m l) x = tail_of m x.
Proof.
  unfold tail_of, appended. destruct (wf_fields x size Hw) as (Eh & Et & _). rewrite load_store64_other by lia.
  apply load64_ext. intros a Ha. apply put_words_keeps. pose proof (slot_above (head_of m x)). lia.
Qed.

Lemma appended_new : msg_at (appended m l) x (head_of m x) = l.
Proof.
  pose proof (slot_above (head_of m x)) as [H1 H2]. pose proof (aw_buf x size Hw) as Hb. destruct (wf_fields x size Hw) as (Eh & _).
  transitivity (msg_at (put_words m (mq_buffer (ai_buf x) (head_of m x mod ai_buf_size x)) l) x (head_of m x)).
  { apply (msg_at_ext _ _ x size); [done|]. intros a Ha. apply only_in_store. lia. }
  assert (forall k w, l !! k = Some w -> load64 (put_words m (mq_buffer (ai_buf x) (head_of m x mod ai_buf_size x)) l)
    (mq_buffer (ai_buf x) (head_of m x mod ai_buf_size x) + 8 * Z.of_nat k) = w) as H.
  { intros k w Hk. apply put_words_read; try done; [lia|]. rewrite Hlen. lia. }
  destruct l as [|w0 [|w1 [|w2 [|w3 [|w4 [|]]]]]]; try done.
  unfold msg_at. cbn [fmap list_fmap].
  repeat f_equal; [exact (H 0%nat _ eq_refl)|exact (H 1%nat _ eq_refl)|exact (H 2%nat _ eq_refl)|exact (H 3%nat _ eq_refl)|exact (H 4%nat _ eq_refl)].
Qed.

Lemma appended_old i : i < head_of m x < i + ai_buf_size x -> msg_at (appended m l) x i = msg_at m x i.
Proof.
  intros Hi. destruct (wf_num_pos x size Hw) as [Hn _]. destruct (wf_fields x size Hw) as (Eh & _). pose proof (slot_above i).
  assert (i mod ai_buf_size x <> head_of m x mod ai_buf_size x) as Hne by (apply slots_differ; lia).
  apply (msg_at_ext _ _ x size); [done|]. intros a Ha. unfold appended.
  rewrite only_in_store by lia. apply put_words_keeps.
  destruct (wf_slot x size (i mod ai_buf_size x) Hw) as [E1 _]; [by apply Z.mod_pos_bound|].
  destruct (wf_slot x size (head_of m x mod ai_buf_size x) Hw) as [E2 _]; [by apply Z.mod_pos_bound|].
  rewrite E1 in Ha. rewrite E2. unfold SIZEOF_ASYNC_MSG in *. nia.
Qed.

Lemma appended_contents :
  tail_of m x <= head_of m x < tail_of m x + ai_buf_size x -> is_u64 (head_of m x + 1) ->
  mq_contents (appended m l) x = mq_contents m x ++ [l].
Proof.
  intros Ht Hh. unfold mq_contents. rewrite appended_head, appended_tail by done.
  replace (Z.to_nat (head_of m x + 1 - tail_of m x)) with (Z.to_nat (head_of m x - tail_of m x) + 1)%nat by lia.
  rewrite seq_app, fmap_app. f_equal.
  - apply list_fmap_ext. intros j k Hk. apply lookup_seq in Hk as [-> Hk]. apply appended_old. lia.
  - cbn [seq fmap list_fmap]. replace (tail_of m x + Z.of_nat (0 + Z.to_nat (head_of m x - tail_of m x))) with (head_of m x) by lia.
    by rewrite appended_new.
Qed.
End Fifo.

Lemma length_contents m x : Z.of_nat (length (mq_contents m x)) = Z.max 0 (head_of m x - tail_of m x).
Proof. unfold mq_contents. rewrite length_fmap, length_seq. lia. Qed.

(** A line on which an interrupt can be delivered now. *)
Record line_ready (m : machine) (c d : Z) (xh : xh_data) (t : cpu_thread) (u : cpu) : Prop := {
  lr_line : line m c d = Some xh;
  lr_unlocked : unlocked xh;
  lr_enabled : has xh 0 = false;
  lr_handler : xh_handler xh = Some Xir_raise_fn;
  lr_thread : threads m !! xh_dat xh = Some t;
  lr_cpu : cpus m !! thr_cpu t = Some u;
  lr_queue : xq_wf (xirq t);
  lr_room : Z.of_nat (length (xq_contents (xirq t))) < 255
}.

(** The interrupt is on the way: already, or now queued for the thread. *)
Lemma raise_ready oh m c d xh t u :
  0 <= c < XIRR_CLASS_MAX -> 0 <= d < XIRR_DEVID_SZ -> line_ready m c d xh t u ->
  exists r thr m', xir_raise oh m (xirr_encode d c) = Ok (r, thr, m') /\ 0 <= r /\
    if has xh 2 then m' = m else queued m' (xh_dat xh) (xirr_encode d c).
Proof.
  intros Hc Hd [Hl Hu H0 Hh Ht Hcu Hq Hr]. unfold xir_raise.
  destruct (decode_encode_small d c) as [-> ->]; [unfold XIRR_CLASS_MAX, XIRR_DEVID_SZ in *; lia..|].
  destruct (has xh 2) eqn:H2.
  - do 3 eexists. split; [by apply (inject_again oh m c d 0 xh); try lia|]. done.
  - destruct (xir_inject_effect oh m c d 0 xh t u) as (r & thr & m' & E & (xh' & _ & _ & H) & _); try done.
    rewrite H0, H2 in H. destruct H as (_ & _ & q & Hts & _ & H). destruct (Z.eqb_spec (Z.of_nat (length (xq_contents (xirq t)))) 255); [lia|].
    destruct H as (Hr0 & Hqc & _). exists r, thr, m'. split; [done|]. split; [done|]. exists (CpuThread q (thr_cpu t)).
    rewrite Hts, lookup_insert_eq. split; [done|]. simpl. rewrite Hqc. apply list_elem_of_In, in_or_app. right. by left.
Qed.

Section Quiet.
Context (oh : Z -> machine -> Z -> xh_ptr -> Z -> Z -> res (Z * Z * machine)) (s : ipc) (x : aipc) (size : Z).
Hypothesis (Hw : aipc_wf x size) (Hb : bytes_ok (ipm s)).
Hypothesis (Hh : tail_of (ipm s) x <= head_of (ipm s) x) (Hm : tail_of (ipm s) x + ai_buf_size x < 2 ^ 64).
Context (sender a1 a2 a3 a4 : Z) (Ha : Forall is_u64 [sender; a1; a2; a3; a4]).
Local Abbreviation quiet := (fun (_ : nat) (m : pmem) => m).

(** What [__ipc_send] does when nobody else writes to the queue. *)
Lemma send_full : head_of (ipm s) x = tail_of (ipm s) x + ai_buf_size x -> __ipc_send oh quiet s x sender a1 a2 a3 a4 = Ok (H_Busy, s).
Proof.
  intros E. unfold __ipc_send. pose proof (aw_buf x size Hw). destruct (wf_num_pos x size Hw) as [Hn _].
  pose proof (load64_u64 (ipm s) (mq_tail (ai_buf x)) Hb) as Ht. unfold is_u64 in Ht. fold (tail_of (ipm s) x) in Ht.
  destruct (Z.eqb_spec (ai_buf x) 0); [lia|]. cbv zeta. fold (head_of (ipm s) x) (tail_of (ipm s) x).
  rewrite add64_small by lia. destruct (Z.leb_spec (tail_of (ipm s) x + ai_buf_size x) (head_of (ipm s) x)); [by destruct s|lia].
Qed.

Lemma send_room :
  head_of (ipm s) x < tail_of (ipm s) x + ai_buf_size x ->
  __ipc_send oh quiet s x sender a1 a2 a3 a4 =
    let s := set_ipm s (appended x (ipm s) [sender; a1; a2; a3; a4]) in
    if head_of (ipm s) x =? tail_of (ipm s) x + 1 then
      let! (ret, _, irq) := xir_raise oh (iirq s) (ai_xirr x) in
      cassert (0 <=? ret) (Ok (0, set_iirq s irq))
    else Ok (0, s).
Proof.
  intros Hr. unfold __ipc_send. pose proof (aw_buf x size Hw). destruct (wf_num_pos x size Hw) as [Hn _].
  pose proof (load64_u64 (ipm s) (mq_tail (ai_buf x)) Hb) as Ht. unfold is_u64 in Ht. fold (tail_of (ipm s) x) in Ht.
  destruct (Z.eqb_spec (ai_buf x) 0); [lia|]. cbv zeta. fold (head_of (ipm s) x) (tail_of (ipm s) x).
  rewrite add64_small by lia. destruct (Z.leb_spec (tail_of (ipm s) x + ai_buf_size x) (head_of (ipm s) x)); [lia|].
  destruct (Z.eqb_spec (ai_buf_size x) 0); [lia|]. cbn [negb].
  set (l := [sender; a1; a2; a3; a4]). set (m1 := put_words (ipm s) _ l).
  assert (load64 m1 (mq_head (ai_buf x)) = head_of (ipm s) x) as ->.
  { apply load64_ext. intros a Hin. apply (put_words_keeps x size Hw); [done|]. destruct (wf_fields x size Hw) as (Eh & _).
    pose proof (slot_above x size Hw (head_of (ipm s) x)). lia. }
  rewrite add64_small by lia. unfold m1. fold (appended x (ipm s) l). cbn [set_ipm ipm iirq].
  fold (head_of (appended x (ipm s) l) x) (tail_of (appended x (ipm s) l) x).
  rewrite (appended_tail x size Hw) by done. by rewrite add64_small by lia.
Qed.
End Quiet.

(** A message queue is a bounded first-in first-out queue: while nobody else writes
    to it, a send to a queue with room appends the message, leaves all memory outside the
    queue as it was, and, if the queue was empty, sees to it that the owner's interrupt is
    on the way; a send to a full queue is refused and changes nothing. *)
Theorem ipc_send_fifo oh s x size d xh t u sender a1 a2 a3 a4 :
  aipc_wf x size -> bytes_ok (ipm s) -> Forall is_u64 [sender; a1; a2; a3; a4] ->
  ai_xirr x = xirr_encode d XIRR_CLASS_AIPC -> 0 <= d < XIRR_DEVID_SZ -> line_ready (iirq s) XIRR_CLASS_AIPC d xh t u ->
  tail_of (ipm s) x <= head_of (ipm s) x <= tail_of (ipm s) x + ai_buf_size x -> tail_of (ipm s) x + ai_buf_size x < 2 ^ 64 ->
  exists r s', __ipc_send oh (fun _ m => m) s x sender a1 a2 a3 a4 = Ok (r, s') /\
    if Z.of_nat (length (mq_contents (ipm s) x)) =? ai_buf_size x then r = H_Busy /\ s' = s
    else r = H_Success /\ mq_contents (ipm s') x = mq_contents (ipm s) x ++ [[sender; a1; a2; a3; a4]] /\
      tail_of (ipm s') x = tail_of (ipm s) x /\ only_in (in_queue x size) (ipm s) (ipm s') /\
      match mq_contents (ipm s) x with
      | [] => if has xh 2 then iirq s' = iirq s else queued (iirq s') (xh_dat xh) (ai_xirr x)
      | _ => iirq s' = iirq s
      end.
Proof.
  intros Hw Hb Ha Hx Hd Hlr [Hh Hh2] Hm. pose proof (load64_u64 (ipm s) (mq_tail (ai_buf x)) Hb) as Ht. fold (tail_of (ipm s) x) in Ht.
  unfold is_u64 in Ht. pose proof (length_contents (ipm s) x) as Hlen.
  destruct (Z.eqb_spec (Z.of_nat (length (mq_contents (ipm s) x))) (ai_buf_size x)) as [E|E].
  { do 2 eexists. split; [apply (send_full oh s x size); done || lia|done]. }
  set (l := [sender; a1; a2; a3; a4]) in *. pose proof (send_room oh s x size Hw Hb Hh Hm sender a1 a2 a3 a4 ltac:(lia)) as Hs.
  fold l in Hs. cbv zeta in Hs. cbn [set_ipm ipm iirq] in Hs.
  assert (mq_contents (appended x (ipm s) l) x = mq_contents (ipm s) x ++ [l]) as Hc
    by (apply (appended_contents x size Hw); done || lia || (unfold is_u64; lia)).
  assert (tail_of (appended x (ipm s) l) x = tail_of (ipm s) x) as Htl by by apply (appended_tail x size Hw).
  rewrite (appended_head x), Htl in Hs by (unfold is_u64; lia).
  assert (forall r s', __ipc_send oh (fun _ m => m) s x sender a1 a2 a3 a4 = Ok (r, s') -> only_in (in_queue x size) (ipm s) (ipm s')) as Ho.
  { intros r s' E'. destruct (ipc_send_only oh (fun _ m => m) (fun _ => False) ltac:(intros; apply only_in_refl) s x size _ _ _ _ _ r s' Hw E') as [Ho _].
    eapply only_in_impl; [|exact Ho]. simpl. tauto. }
  destruct (Z.eqb_spec (head_of (ipm s) x + 1) (tail_of (ipm s) x + 1)) as [E1|E1].
  - destruct (raise_ready oh (iirq s) XIRR_CLASS_AIPC d xh t u) as (r & thr & irq & Er & Hr & Hq); try done.
    rewrite Hx, Er in Hs. cbn [res_bind] in Hs. unfold cassert in Hs. destruct (Z.leb_spec 0 r); [|lia].
    do 2 eexists. split; [exact Hs|]. cbn [set_ipm set_iirq ipm iirq]. split_and!; try done; [by apply (Ho _ _ Hs)|].
    destruct (mq_contents (ipm s) x); [|simpl in Hlen; lia]. by rewrite Hx.
  - do 2 eexists. split; [exact Hs|]. cbn [set_ipm ipm iirq]. split_and!; try done; [by apply (Ho _ _ Hs)|].
    destruct (mq_contents (ipm s) x); [simpl in Hlen; lia|done].
Qed.

(** ** Any run of calls *)
Section Calls.
Context (l_to_r : Z -> logical_chunk_info -> Z -> Z -> res Z) (m : memory).
Context (oh : Z -> machine -> Z -> xh_ptr -> Z -> Z -> res (Z * Z * machine)) (race : nat -> pmem -> pmem) (P : Z -> Prop).
Hypothesis race_in : forall n m, only_in P m (race n m).
(** The memory of partitions is bound in whole chunks. *)
Hypothesis records : forall os x, maps_record m os x ->
  lci_sane x /\ lci_raddr x <> INVALID_PHYSICAL_ADDRESS /\ 0 < lci_raddr x /\ (CHUNK_SIZE | lci_laddr x) /\ (CHUNK_SIZE | lci_size x).

Inductive ipc_call :=
  | Create (thread lbase size flags a le : Z)
  | Directed (proc thr dest aipc_id src arg1 arg2 arg3 arg4 : Z)
  | Async (thread destos arg1 arg2 arg3 arg4 : Z)
  | Cleanup (os le : Z).

Definition ipc_exec (s : ipc) (c : ipc_call) : res (Z * ipc) :=
  match c with
  | Create thread lbase size flags a le => aipc_create l_to_r m s thread lbase size flags a le
  | Directed proc thr dest id src a1 a2 a3 a4 => ipc_directed_aipc oh race s proc thr dest id src a1 a2 a3 a4
  | Async thread destos a1 a2 a3 a4 => h_send_async oh race s thread destos a1 a2 a3 a4
  | Cleanup os le => aipc_cleanup s os le LPAR_DIE
  end.

Definition os_of (s : ipc) (t : Z) : Z := match thread_os s t with Ok o => o | Fault _ => 0 end.

(** The partition whose queue a call reaches. *)
Definition receiver (s : ipc) (c : ipc_call) : Z :=
  match c with
  | Create thread _ _ _ _ _ => os_of s thread
  | Directed _ _ dest _ _ _ _ _ _ => dest
  | Async thread destos _ _ _ _ =>
      match ithreads s !! thread, ioss s !! destos with
      | Some me, Some d => os_of s (find_colocated_thread me d)
      | _, _ => 0
      end
  | Cleanup os _ => os
  end.

(** A size that is not zero and does not wrap around, and a new structure for the queue;
    the rest is up to the partitions. *)
Definition ok_call (s : ipc) (c : ipc_call) : Prop :=
  match c with
  | Create _ lbase size _ a _ => 0 <= lbase /\ 0 < size /\ lbase + size < 2 ^ 64 /\ aipcs s !! a = None
  | _ => True
  end.

Inductive ipc_run : ipc -> list Z -> ipc -> Prop :=
  | run_nil s : ipc_run s [] s
  | run_cons s c r s1 l s2 :
      ok_call s c -> ipc_exec s c = Ok (r, s1) -> ipc_run s1 l s2 -> ipc_run s (receiver s c :: l) s2
  | run_other s pm irq l s2 :
      only_in P (ipm s) pm -> ipc_run (set_iirq (set_ipm s pm) irq) l s2 -> ipc_run s l s2.

Lemma run_call s c r s1 os l s2 :
  receiver s c = os -> ok_call s c -> ipc_exec s c = Ok (r, s1) -> ipc_run s1 l s2 -> ipc_run s (os :: l) s2.
Proof. intros <-. apply run_cons. Qed.

(** Every queue is in the memory of the partition that has it. *)
Record ipc_inv (s : ipc) : Prop := {
  ii_queue os o i a : ioss s !! os = Some o -> aipc_tab o !! i = Some a -> a <> 0 ->
    exists x size, aipcs s !! a = Some x /\ aipc_wf x size /\ covered m os (ai_buf x) size;
  ii_one os1 o1 i1 os2 o2 i2 a : ioss s !! os1 = Some o1 -> ioss s !! os2 = Some o2 ->
    aipc_tab o1 !! i1 = Some a -> aipc_tab o2 !! i2 = Some a -> a <> 0 -> os1 = os2
}.

Definition owned (os a : Z) : Prop := covered m os a 1.

Lemma covered_owned os b n a : covered m os b n -> b <= a < b + n -> owned os a.
Proof. intros (x & Hr & H1 & H2) Ha. exists x. split; [done|]. lia. Qed.

Lemma inv_same s s' : ipc_inv s -> aipcs s' = aipcs s -> ioss s' = ioss s -> ipc_inv s'.
Proof. intros [H1 H2] E1 E2. constructor; rewrite ?E1, ?E2; done. Qed.

(** A queue of a partition's table. *)
Lemma send_owned s os o i a x sender a1 a2 a3 a4 r s' :
  ipc_inv s -> ioss s !! os = Some o -> aget (aipc_tab o) i = Ok a -> a <> 0 -> get_aipc s a = Ok x ->
  __ipc_send oh race s x sender a1 a2 a3 a4 = Ok (r, s') ->
  ipc_inv s' /\ only_in (fun b => P b \/ owned os b) (ipm s) (ipm s').
Proof.
  intros Hi Ho [_ Ha]%aget_inv Hne Hx E. destruct (ii_queue s Hi os o _ a Ho Ha Hne) as (y & size & Hy & Hw & Hc).
  unfold get_aipc in Hx. rewrite Hy in Hx. injection Hx as <-.
  destruct (ipc_send_only oh race P race_in s y size _ _ _ _ _ r s' Hw E) as (Hon & E1 & E2).
  split; [by apply (inv_same s)|]. eapply only_in_impl; [|exact Hon]. intros b [Hb|Hb]; [by left|]. right. by apply (covered_owned os _ _ _ Hc).
Qed.

Lemma get_ios_inv s o x : get_ios s o = Ok x -> ioss s !! o = Some x.
Proof. unfold get_ios. destruct (ioss s !! o); simpl; congruence. Qed.

Lemma create_covered os lbase size pa :
  0 <= lbase -> 0 < size -> lbase + size <= CHUNK_SIZE -> truth (Z.land (Z.lor size lbase) (PGSIZE - 1)) = false ->
  hv_map_LA l_to_r m os lbase PGSIZE = Ok pa -> pa <> INVALID_PHYSICAL_ADDRESS ->
  covered m os pa size /\ 0 < pa /\ pa + size < 2 ^ 64 /\ PGSIZE <= size.
Proof.
  intros Hl Hs Hc Ha E Hpa. apply truth_false in Ha. change (PGSIZE - 1) with (Z.ones 12) in Ha.
  rewrite Z.land_lor_distr_l, Z.lor_eq_0_iff, !Z.land_ones in Ha by lia. destruct Ha as [Ha _].
  assert (PGSIZE <= size) as Hp by (unfold PGSIZE; change (2 ^ LOG_PGSIZE) with 4096; dlia).
  change CHUNK_SIZE with 67108864 in *. change PGSIZE with 4096 in *.
  destruct (l2p_contained l_to_r m os lbase 4096 pa) as (x & Hr & _ & H1 & H2 & H3 & H4 & H5); try done; try lia.
  { intros x Hr. destruct (records os x Hr) as (? & ? & _). done. }
  destruct (records os x Hr) as ((? & ? & ? & ? & ?) & _ & Hra & [p Hp1] & [q Hp2]). change CHUNK_SIZE with 67108864 in *.
  assert (p = 0) as -> by nia. assert (1 <= q) by nia.
  split; [exists x; split; [done|]; nia|]. split_and!; nia.
Qed.

(** States that agree on memory, on the tables and on where the queues are. *)
Record similar (s s' : ipc) : Prop := {
  sm_mem : ipm s' = ipm s;
  sm_tab k o : ioss s' !! k = Some o -> exists o', ioss s !! k = Some o' /\ aipc_tab o' = aipc_tab o;
  sm_queue a x : aipcs s !! a = Some x -> exists x', aipcs s' !! a = Some x' /\ ai_buf x' = ai_buf x /\ ai_buf_size x' = ai_buf_size x
}.

Lemma similar_refl s : similar s s.
Proof. split; eauto. Qed.

Lemma similar_inv s s' : similar s s' -> ipc_inv s -> ipc_inv s'.
Proof.
  intros [_ Ht Hq] [H1 H2]. constructor.
  - intros os o i a Ho Ha Hne. destruct (Ht os o Ho) as (o' & Ho' & E). rewrite <- E in Ha.
    destruct (H1 os o' i a Ho' Ha Hne) as (x & size & Hx & Hw & Hc). destruct (Hq a x Hx) as (x' & Hx' & Eb & En).
    exists x', size. rewrite Eb. split_and!; try done. destruct Hw. by constructor; rewrite ?Eb, ?En.
  - intros os1 o1 i1 os2 o2 i2 a Ho1 Ho2 Ha1 Ha2. destruct (Ht _ _ Ho1) as (o1' & Ho1' & E1), (Ht _ _ Ho2) as (o2' & Ho2' & E2).
    rewrite <- E1 in Ha1. rewrite <- E2 in Ha2. by apply (H2 os1 o1' i1 os2 o2' i2 a).
Qed.

Lemma register_cleanup_similar s os le s' : register_cleanup s os le = Ok s' -> similar s s'.
Proof.
  unfold register_cleanup. intros H. apply res_bind_ok in H as (o & Ho%get_ios_inv & H).
  destruct (_ =? 0); [|injection H as <-; apply similar_refl]. destruct (negb _); [|done].
  apply res_bind_ok in H as ([? h] & _ & H). injection H as <-. split; simpl; [done| |eauto].
  intros k o' Hk. apply lookup_insert_Some in Hk as [[<- <-]|[_ Hk]]; [by exists o|by exists o'].
Qed.

Lemma set_local_similar s os thread a i flags s' : set_local s os thread a i flags = Ok s' -> similar s s'.
Proof.
  unfold set_local. intros H. destruct (truth _); [|injection H as <-; apply similar_refl].
  apply res_bind_ok in H as (o & _ & H). apply res_bind_ok in H as (t & _ & H). apply res_bind_ok in H as (cur & _ & H).
  apply res_bind_ok in H as (mine & _ & H). apply res_bind_ok in H as (x & Hx & H). injection H as <-.
  assert (aipcs s !! a = Some x) as Hs by (destruct mine; unfold get_aipc in Hx; simpl in Hx; destruct (aipcs s !! a); simpl in Hx; congruence).
  split; [by destruct mine| |].
  - intros k o' Hk. exists o'. by destruct mine.
  - intros b y Hy. destruct (decide (b = a)) as [->|Hne].
    + rewrite Hs in Hy. injection Hy as <-. eexists. split; [apply lookup_insert_eq|done].
    + exists y. split; [|done]. simpl. rewrite lookup_insert_ne by done. by destruct mine.
Qed.

Lemma inv_new_queue s s1 os o i a x size :
  ipc_inv s -> aipcs s !! a = None -> ioss s !! os = Some o -> aipc_wf x size -> covered m os (ai_buf x) size ->
  aipcs s1 = <[a := x]> (aipcs s) -> ioss s1 = <[os := set_tab o (<[i := a]> (aipc_tab o))]> (ioss s) -> ipc_inv s1.
Proof.
  intros [H1 H2] Hf Ho Hw Hc E1 E2.
  assert (forall k o' j b, ioss s1 !! k = Some o' -> aipc_tab o' !! j = Some b -> b <> 0 ->
    b = a /\ k = os \/ b <> a /\ exists o0, ioss s !! k = Some o0 /\ aipc_tab o0 !! j = Some b) as Hcase.
  { assert (forall k o' j b, ioss s !! k = Some o' -> aipc_tab o' !! j = Some b -> b <> 0 -> b <> a) as Hold.
    { intros k o' j b Hk Hj Hb ->. destruct (H1 k o' j a Hk Hj Hb) as (y & ? & Hy & _). congruence. }
    intros k o' j b Hk Hj Hb. rewrite E2 in Hk. apply lookup_insert_Some in Hk as [[<- <-]|[Hne Hk]].
    - simpl in Hj. apply list_lookup_insert_Some in Hj as [(_ & -> & _)|[_ Hj]]; [by left|]. right. split; [|by exists o].
      by apply (Hold os o j b).
    - right. split; [by apply (Hold k o' j b)|by exists o']. }
  constructor.
  - intros k o' j b Hk Hj Hb. rewrite E1. destruct (Hcase k o' j b Hk Hj Hb) as [[-> ->]|[Hne (o0 & Hk0 & Hj0)]].
    + exists x, size. by rewrite lookup_insert_eq.
    + rewrite lookup_insert_ne by done. by apply (H1 k o0 j b).
  - intros k1 o1 j1 k2 o2 j2 b Hk1 Hk2 Hj1 Hj2 Hb.
    destruct (Hcase k1 o1 j1 b Hk1 Hj1 Hb) as [[? ?]|[? (o3 & Hk3 & Hj3)]], (Hcase k2 o2 j2 b Hk2 Hj2 Hb) as [[? ?]|[? (o4 & Hk4 & Hj4)]]; try congruence.
    by apply (H2 k1 o3 j1 k2 o4 j2 b).
Qed.

Lemma create_step s thread lbase size flags a le r s' :
  ipc_inv s -> ok_call s (Create thread lbase size flags a le) -> aipc_create l_to_r m s thread lbase size flags a le = Ok (r, s') ->
  ipc_inv s' /\ only_in (owned (os_of s thread)) (ipm s) (ipm s').
Proof.
  intros Hi (Hl & Hs & Hov & Hfresh). unfold aipc_create.
  assert (forall c : Z, ipc_inv s /\ only_in (owned (os_of s thread)) (ipm s) (ipm s)) as Hno by (intros _; split; [done|apply only_in_refl]).
  destruct (truth (Z.land (Z.lor size lbase) (PGSIZE - 1))) eqn:Hal; [intros [= <- <-]; by apply Hno|].
  rewrite add64_small by lia. destruct (Z.ltb_spec CHUNK_SIZE (lbase + size)); [intros [= <- <-]; by apply Hno|].
  intros E. apply res_bind_ok in E as (os & Hos & E). unfold os_of. rewrite Hos.
  apply res_bind_ok in E as (o & Ho%get_ios_inv & E). destruct (_ =? MAX_NUM_AIPC); [injection E as <- <-; split; [done|apply only_in_refl]|].
  apply res_bind_ok in E as (pa & Hpa & E). destruct (Z.eqb_spec pa INVALID_PHYSICAL_ADDRESS); [injection E as <- <-; split; [done|apply only_in_refl]|].
  destruct (create_covered os lbase size pa) as (Hc & Hp & He & Hz); try done.
  destruct (Z.eqb_spec a 0) as [|Ha0]; [done|]. cbn [negb] in E.
  apply res_bind_ok in E as ([d irq] & _ & E). unfold cassert in E. destruct (negb (d =? -1)); [|done].
  apply res_bind_ok in E as ([? irq'] & _ & E). apply res_bind_ok in E as (tab & Htab & E).
  apply res_bind_ok in E as (s2 & H2%register_cleanup_similar & E). apply res_bind_ok in E as (s3 & H3%set_local_similar & E).
  injection E as <- <-. apply aset_inv in Htab as (Hrange & ->).
  set (num := sub64 size SIZEOF_MSG_QUEUE / SIZEOF_ASYNC_MSG) in *.
  assert (aipc_wf (Aipc pa num (xirr_encode d XIRR_CLASS_AIPC) 0) size) as Hw.
  { constructor; simpl; try done. unfold num. rewrite sub64_small; [done|]. unfold SIZEOF_MSG_QUEUE. change PGSIZE with 4096 in Hz. lia. }
  split.
  - apply (similar_inv _ _ H3), (similar_inv _ _ H2). by eapply (inv_new_queue s).
  - rewrite (sm_mem _ _ H3), (sm_mem _ _ H2). simpl. change PGSIZE with 4096 in Hz.
    apply only_in_trans with (zero_mem (ipm s) pa size); [eapply only_in_impl; [|apply only_in_zero]|eapply only_in_impl; [|apply only_in_store]];
      simpl; intros b Hb; apply (covered_owned os pa size); (done || unfold mq_bufSize in *; lia).
Qed.

Lemma free_aipcs_other l : forall q a, a ∉ l -> free_aipcs q l !! a = q !! a.
Proof.
  induction l as [|b l IH]; intros q a Ha; simpl; [done|]. apply not_elem_of_cons in Ha as [Hne Ha]. rewrite IH by done.
  destruct (b =? 0); [done|]. by rewrite lookup_delete_ne.
Qed.

Lemma cleanup_step s os le r s' : ipc_inv s -> aipc_cleanup s os le LPAR_DIE = Ok (r, s') -> ipc_inv s' /\ ipm s' = ipm s.
Proof.
  intros [H1 H2] E. unfold aipc_cleanup in E. apply res_bind_ok in E as (o & Ho%get_ios_inv & E). injection E as <- <-. split; [|done].
  assert (forall k o' i a, <[os := set_tab o (repeat 0 16)]> (ioss s) !! k = Some o' -> aipc_tab o' !! i = Some a -> a <> 0 ->
    k <> os /\ ioss s !! k = Some o') as Hcase.
  { intros k o' i a Hk Hi Ha. apply lookup_insert_Some in Hk as [[<- <-]|[Hne Hk]]; [|done].
    apply list_elem_of_lookup_2, list_elem_of_In, (repeat_spec 16) in Hi. done. }
  constructor; simpl.
  - intros k o' i a Hk Hi Ha. destruct (Hcase k o' i a Hk Hi Ha) as [Hne Hk']. rewrite free_aipcs_other; [by apply (H1 k o' i a)|].
    intros [j Hj]%list_elem_of_lookup_1. apply Hne. by apply (H2 k o' i os o j a).
  - intros k1 o1 i1 k2 o2 i2 a Hk1 Hk2 Hi1 Hi2 Ha. destruct (Hcase _ _ _ _ Hk1 Hi1 Ha), (Hcase _ _ _ _ Hk2 Hi2 Ha).
    by apply (H2 k1 o1 i1 k2 o2 i2 a).
Qed.

Lemma async_step s thread sender a1 a2 a3 a4 r s' :
  ipc_inv s -> ipc_send_async oh race s thread sender a1 a2 a3 a4 = Ok (r, s') ->
  ipc_inv s' /\ only_in (fun b => P b \/ owned (os_of s thread) b) (ipm s) (ipm s').
Proof.
  intros Hi E. unfold ipc_send_async in E. assert (ipc_inv s /\ only_in (fun b => P b \/ owned (os_of s thread) b) (ipm s) (ipm s)) as Hno by auto with word.
  destruct (thread =? 0); [injection E as <- <-; done|]. apply res_bind_ok in E as (os & Hos & E). unfold os_of in *. rewrite Hos in *.
  apply res_bind_ok in E as (o & Ho%get_ios_inv & E). apply res_bind_ok in E as (t & _ & E). apply res_bind_ok in E as (a & Ha & E).
  destruct (Z.eqb_spec a 0); [injection E as <- <-; done|]. apply res_bind_ok in E as (x & Hx & E). by apply (send_owned s os o (local_aipc_idx t) a x sender a1 a2 a3 a4 r).
Qed.

Lemma ipc_exec_step s c r s' :
  ipc_inv s -> ok_call s c -> ipc_exec s c = Ok (r, s') ->
  ipc_inv s' /\ only_in (fun b => P b \/ owned (receiver s c) b) (ipm s) (ipm s').
Proof.
  intros Hi Hok E. destruct c as [t lb sz fl a le|pr th dest id src a1 a2 a3 a4|t d a1 a2 a3 a4|os le]; simpl in E |- *.
  - destruct (create_step s t lb sz fl a le r s' Hi Hok E) as [H1 H2]. split; [done|]. eapply only_in_impl; [|exact H2]. simpl. tauto.
  - unfold ipc_directed_aipc in E. assert (ipc_inv s /\ only_in (fun b => P b \/ owned dest b) (ipm s) (ipm s)) as Hno by auto with word.
    destruct (_ <=? _); [injection E as <- <-; done|]. apply res_bind_ok in E as (o & Ho%get_ios_inv & E). apply res_bind_ok in E as (a & Ha & E).
    destruct (Z.eqb_spec a 0); [injection E as <- <-; done|]. apply res_bind_ok in E as (x & Hx & E).
    destruct (_ =? 0); [injection E as <- <-; done|]. apply res_bind_ok in E as (d & _ & E). unfold cassert in E.
    destruct (d =? dest); [|done]. by apply (send_owned s dest o id a x src a1 a2 a3 a4 r).
  - unfold h_send_async in E. destruct (d =? 0); [injection E as <- <-; auto with word|].
    apply res_bind_ok in E as (o & Ho%get_ios_inv & E). apply res_bind_ok in E as (me & Hme & E). rewrite Ho.
    unfold get_ithread in Hme. destruct (ithreads s !! t); [|done]. injection Hme as ->.
    apply res_bind_ok in E as (th & _ & E). apply res_bind_ok in E as (mo & _ & E). apply res_bind_ok in E as (o2 & _ & E).
    destruct (is_colocated th me =? THREAD_MATCH); apply async_step in E; done || by apply (inv_same s).
  - destruct (cleanup_step s os le r s' Hi E) as [H1 ->]. auto with word.
Qed.

End Calls.

(** ** Witnesses: two partitions, with one thread each *)
Definition demo_lines2 : list xh_data := repeat (XhData 0 None 0 0) 256.
Definition demo_irq2 : machine :=
  Machine (repeat (XirrClass None None) 2 ++ XirrClass (Some demo_lines2) None :: repeat (XirrClass None None) 12)
    (list_to_map [(1, CpuThread (XirQueue 0 0 (repeat 0 256)) 1); (2, CpuThread (XirQueue 0 0 (repeat 0 256)) 2)])
    (list_to_map [(1, Cpu 1 1); (2, Cpu 2 0)]).
Definition demo_ring : gmap Z Z := list_to_map [(0x500, 0x500); (0x600, 0x600); (0x700, 0x700)].
Definition demo_ios (lpid events : Z) (thr : Z) : ios := IOs lpid [Some [thr]] events (repeat 0 16) 0.
Definition demo_ipc : ipc :=
  Ipc ∅ ∅ (list_to_map [(1, demo_ios 1001 0x500 1); (2, demo_ios 1002 0x600 2)])
    (list_to_map [(1, IThread 0 0 0 0); (2, IThread 0 0 0 0)]) (fun _ => 0) demo_irq2 (DHeap demo_ring demo_ring).
Definition still (_ : nat) (m : pmem) : pmem := m.

(** Partition 2 creates a queue of one page at address 0x3000. *)
Definition demo_create (size : Z) : ipc_call := Create 2 0x3000 size AIPC_LOCAL 0x8000 0x700.
Definition demo_queue : Z := 9 * CHUNK_SIZE + 0x3000.
Definition call := ipc_exec no_l_to_r Logical.demo no_handler still.

(** [h_vio_signal] enables the interrupt. *)
Definition enable (s : ipc) : res ipc :=
  let! irq := xir_set_state no_handler (iirq s) (xirr_encode 0 XIRR_CLASS_AIPC) (Some (XIRR_CLASS_AIPC, 0)) 1 in Ok (set_iirq s irq).

Definition demo_send : ipc_call := Async 1 2 11 12 13 14.
Definition demo_run : res (Z * Z * ipc) :=
  let! (r1, s) := call demo_ipc (demo_create 4096) in
  let! s := enable s in
  let! (r2, s) := call s demo_send in Ok (r1, r2, s).

Example demo_run_delivers :
  match demo_run with
  | Ok (r1, r2, s) =>
      r1 = 0 /\ r2 = H_Success /\
      copy_in (ipm s) demo_queue 8 = be_bytes 8 101 /\ load64 (ipm s) (demo_queue + 8) = 1 /\
      (fun k => load64 (ipm s) (demo_queue + 24 + 8 * k)) <$> [0; 1; 2; 3; 4] = [1001; 11; 12; 13; 14] /\
      (match threads (iirq s) !! 2 with Some t => xq_contents (xirq t) | None => [] end) = [xirr_encode 0 2]
  | Fault _ => False
  end.
Proof. vm_compute. repeat split; reflexivity. Qed.

Lemma demo_whole os x : maps_record Logical.demo os x ->
  lci_sane x /\ lci_raddr x <> INVALID_PHYSICAL_ADDRESS /\ 0 < lci_raddr x /\ (CHUNK_SIZE | lci_laddr x) /\ (CHUNK_SIZE | lci_size x).
Proof.
  intros Hr. destruct (demo_sane os x Hr) as [H1 H2]. split; [done|]. split; [done|].
  apply demo_records in Hr as [[_ ->]|[_ ->]]; unfold demo_lci; cbn [lci_raddr lci_laddr lci_size];
    (split; [done|]; split; [apply Z.divide_0_r|apply Z.divide_refl]).
Qed.

Lemma demo_ipc_inv : ipc_inv Logical.demo demo_ipc.
Proof.
  assert (forall os o i a, ioss demo_ipc !! os = Some o -> aipc_tab o !! i = Some a -> a = 0) as H0.
  { intros os o i a Ho Hi. assert (aipc_tab o = repeat 0 16) as E.
    { unfold demo_ipc in Ho. cbn [ioss] in Ho. apply elem_of_list_to_map_2 in Ho.
      repeat (apply elem_of_cons in Ho as [[= -> ->]|Ho]; [done|]). by apply elem_of_nil in Ho. }
    rewrite E in Hi. by apply list_elem_of_lookup_2, list_elem_of_In, (repeat_spec 16) in Hi. }
  constructor.
  - intros os o i a Ho Hi Hne. by rewrite (H0 os o i a) in Hne.
  - intros os1 o1 i1 os2 o2 i2 a Ho1 _ Hi1 _ Hne. by rewrite (H0 os1 o1 i1 a) in Hne.
Qed.

Example demo_receiver :
  match (let! (_, s) := call demo_ipc (demo_create 4096) in enable s) with
  | Ok s => receiver s demo_send = 2
  | Fault _ => False
  end.
Proof. vm_compute. reflexivity. Qed.


(** A queue of 101 messages, with one in it. *)
Definition ready_aipc : aipc := Aipc demo_queue 101 (xirr_encode 0 XIRR_CLASS_AIPC) 2.
Definition ready_irq : machine :=
  upd demo_irq2 XIRR_CLASS_AIPC 0 (XhData 2 (Some Xir_raise_fn) 0x8000 24).
Definition ready_ipc : ipc := set_iirq (set_ipm demo_ipc (store64 (fun _ => 0) (demo_queue + 8) 0)) ready_irq.

Lemma ipc_send_fifo_witness :
  exists r s', __ipc_send no_handler (fun _ m => m) ready_ipc ready_aipc 1001 11 12 13 14 = Ok (r, s') /\
    r = H_Success /\ mq_contents (ipm s') ready_aipc = [] ++ [[1001; 11; 12; 13; 14]] /\
    tail_of (ipm s') ready_aipc = 0 /\ only_in (in_queue ready_aipc 4096) (ipm ready_ipc) (ipm s') /\
    queued (iirq s') 2 (xirr_encode 0 XIRR_CLASS_AIPC).
Proof.
  pose proof (ipc_send_fifo no_handler ready_ipc ready_aipc 4096 0 (XhData 2 (Some Xir_raise_fn) 0x8000 24)
    (CpuThread (XirQueue 0 0 (repeat 0 256)) 2) (Cpu 2 0) 1001 11 12 13 14) as H.
  destruct H as (r & s' & E & H).
  - constructor; vm_compute; try reflexivity; discriminate.
  - apply bytes_store64. intros a. lia.
  - repeat constructor; vm_compute; discriminate || reflexivity.
  - reflexivity.
  - vm_compute. split; [discriminate|reflexivity].
  - constructor; try (vm_compute; reflexivity); split; vm_compute; discriminate || reflexivity || (split; [discriminate|reflexivity]).
  - vm_compute. split; discriminate.
  - vm_compute. reflexivity.
  - exists r, s'. split; [exact E|]. exact H.
Defined.

(** ** Where the code does not do what it means to *)

(** The address space of partition 2 ends below this address. *)
Definition beyond : Z := 10 * CHUNK_SIZE.

(** A queue of size 0 is accepted, with room for 2^64 / 40 messages: its owner sets [head],
    and the next message is written into memory that is not its own. *)
Example empty_queue_escapes :
  match (let! (_, s) := call demo_ipc (demo_create 0) in
         let! s := enable s in
         call (set_ipm s (store64 (ipm s) (demo_queue + 8) 1677722)) demo_send) with
  | Ok (r, s) => r = H_Success /\ beyond <= demo_queue + 24 + 40 * 1677722 /\ load64 (ipm s) (demo_queue + 24 + 40 * 1677722) = 1001
  | Fault _ => False
  end.
Proof. vm_compute. repeat split; (reflexivity || discriminate). Qed.

(** [lbase + size] may wrap around: all memory above the queue is cleared. *)
Example wrapped_size_clears_all :
  match call (set_ipm demo_ipc (fun _ => 7)) (demo_create (2 ^ 64 - 0x3000)) with
  | Ok (r, s) => r = 0 /\ ipm s beyond = 0
  | Fault _ => False
  end.
Proof. vm_compute. split; reflexivity. Qed.

(** The first message to a queue whose owner has not enabled, or has disabled, its
    interrupt stops the hypervisor: raising the interrupt reports that it was dropped. *)
Example disabled_interrupt_traps :
  (let! (_, s) := call demo_ipc (demo_create 4096) in call s demo_send) = Fault Assert_failed.
Proof. vm_compute. reflexivity. Qed.

(** With all 16 queues in use, creating one more reports success, with the identifier of
    line 0, which may be another partition's. *)
Definition full_ipc : ipc := put_ios demo_ipc 2 (IOs 1002 [Some [2]] 0x600 (repeat 0x9000 16) 0x700).
Example full_table_succeeds :
  h_create_msgq no_l_to_r Logical.demo full_ipc 2 0x3000 4096 0 0x8000 0x700 =
    Ok (H_Success, Some (xirr_encode 0 XIRR_CLASS_AIPC), full_ipc).
Proof. reflexivity. Qed.

(** A queue that is freed with its partition stays the device of its interrupt line, and
    the line stays taken. *)
Example cleanup_keeps_line :
  match (let! (_, s) := call demo_ipc (demo_create 4096) in aipc_cleanup s 2 0x700 LPAR_DIE) with
  | Ok (_, s) => aipcs s !! 0x8000 = None /\ xir_get_device (iirq s) (xirr_encode 0 XIRR_CLASS_AIPC) = Ok 0x8000
  | Fault _ => False
  end.
Proof. vm_compute. split; reflexivity. Qed.

(** What [halloc] returns is not checked. *)
Example create_without_memory : call demo_ipc (Create 2 0x3000 4096 0 0 0x700) = Fault Null_deref.
Proof. vm_compute. reflexivity. Qed.
