(* ===== verification/VtFifo.v ===== *)
(** * VtFifo: the character buffers of virtual terminals

    [struct vt_fifo] of [hype/vterm.c]: a ring of bytes with a read and a write cursor of 16
    bits, equal when the ring is empty, so that one byte always stays free.  A write is
    all or nothing, a read takes up to 16 bytes.  The lock of a buffer makes an operation
    one step. *)

From S2P Require Import Prelude Bitmap PgAlloc.

(** [vtf_b] has [vtf_sz] bytes. *)
Record vt_fifo := VtFifo { vtf_r : Z; vtf_w : Z; vtf_sz : Z; vtf_reap : Z; vtf_full : Z; vtf_b : list Z }.
Definition SIZEOF_VT_FIFO : Z := 12.

Definition set_w (f : vt_fifo) (w : Z) (b : list Z) : vt_fifo := VtFifo (vtf_r f) w (vtf_sz f) (vtf_reap f) (vtf_full f) b.
Definition set_r (f : vt_fifo) (r : Z) : vt_fifo := VtFifo r (vtf_w f) (vtf_sz f) (vtf_reap f) (vtf_full f) (vtf_b f).
Definition set_full (f : vt_fifo) (v : Z) : vt_fifo := VtFifo (vtf_r f) (vtf_w f) (vtf_sz f) (vtf_reap f) v (vtf_b f).
Definition set_cursors (f : vt_fifo) (r w : Z) : vt_fifo := VtFifo r w (vtf_sz f) (vtf_reap f) (vtf_full f) (vtf_b f).

(** [++x; x %= f->vtf_sz], on 16 bits. *)
Definition vtf_step (f : vt_fifo) (x : Z) : res Z :=
  check! negb (vtf_sz f =? 0) else Out_of_bounds in Ok (u16 (x + 1) mod vtf_sz f).

Fixpoint vtf_write_loop (n : nat) (f : vt_fifo) (i : Z) (buf : list Z) : res vt_fifo :=
  match n with
  | O => Ok f
  | S n =>
      let! c := aget buf i in
      let! b := aset (vtf_b f) (vtf_w f) c in
      let! w := vtf_step f (vtf_w f) in
      vtf_write_loop n (set_w f w b) (i + 1) buf
  end.

Definition vtf_write (f : vt_fifo) (c : Z) (buf : list Z) : res (Z * vt_fifo) :=
  if truth (vtf_reap f) then Ok (0, f)
  else
    let sz := if vtf_w f <? vtf_r f then u64 (vtf_r f - vtf_w f) else add64 (u64 (vtf_sz f - vtf_w f)) (vtf_r f) in
    let sz := sub64 sz 1 in
    if c <=? sz then
      let! f := vtf_write_loop (Z.to_nat c) f 0 buf in Ok (c, set_full f 0)
    else Ok (0, set_full f 1).

(** The bytes that are stored in [buf]. *)
Fixpoint vtf_read_loop (n : nat) (f : vt_fifo) : res (list Z * vt_fifo) :=
  match n with
  | O => Ok ([], f)
  | S n =>
      let! c := aget (vtf_b f) (vtf_r f) in
      let! r := vtf_step f (vtf_r f) in
      let! (l, f) := vtf_read_loop n (set_r f r) in
      Ok (c :: l, f)
  end.

Definition vtf_read (f : vt_fifo) : res (list Z * vt_fifo) :=
  let sz := if vtf_r f =? vtf_w f then 0
            else if vtf_r f <? vtf_w f then u64 (vtf_w f - vtf_r f)
            else add64 (u64 (vtf_sz f - vtf_r f)) (vtf_w f) in
  let sz := Z.min sz 16 in
  if 0 <? sz then
    let! (l, f) := vtf_read_loop (Z.to_nat sz) f in
    let f := if vtf_r f =? vtf_w f then set_cursors f 0 0 else f in
    Ok (l, set_full f 0)
  else Ok ([], f).

(** ** The bytes in a buffer *)

Definition vtf_len (f : vt_fifo) : Z := (vtf_w f - vtf_r f) mod vtf_sz f.
Definition vtf_bytes (f : vt_fifo) : list Z :=
  (fun i => default 0 (vtf_b f !! Z.to_nat ((vtf_r f + Z.of_nat i) mod vtf_sz f))) <$> seq 0 (Z.to_nat (vtf_len f)).

Record vtf_wf (f : vt_fifo) : Prop := {
  fw_sz : 0 < vtf_sz f < 2 ^ 16;
  fw_len : Z.of_nat (length (vtf_b f)) = vtf_sz f;
  fw_r : 0 <= vtf_r f < vtf_sz f;
  fw_w : 0 <= vtf_w f < vtf_sz f;
  fw_reap : vtf_reap f = 0
}.

(** A position less than two laps from the start. *)
Lemma wrap sz x : 0 <= x < 2 * sz -> x mod sz = if x <? sz then x else x - sz.
Proof.
  intros Hx. destruct (Z.ltb_spec x sz); [apply Z.mod_small; lia|]. rewrite <- (Z.mod_small (x - sz) sz) by lia.
  rewrite <- (Z_mod_plus_full (x - sz) 1 sz). f_equal. lia.
Qed.

Lemma len_cases f : vtf_wf f -> vtf_len f = if vtf_w f <? vtf_r f then vtf_sz f - vtf_r f + vtf_w f else vtf_w f - vtf_r f.
Proof.
  intros [H1 _ H2 H3 _]. unfold vtf_len. destruct (Z.ltb_spec (vtf_w f) (vtf_r f)); [|by rewrite Z.mod_small by lia].
  rewrite <- (Z_mod_plus_full (vtf_w f - vtf_r f) 1 (vtf_sz f)). rewrite Z.mod_small by lia. lia.
Qed.

Lemma len_range f : vtf_wf f -> 0 <= vtf_len f < vtf_sz f.
Proof. intros [H1 _ _ _ _]. apply Z.mod_pos_bound. lia. Qed.

Lemma length_bytes f : vtf_wf f -> Z.of_nat (length (vtf_bytes f)) = vtf_len f.
Proof. intros Hw. pose proof (len_range f Hw). unfold vtf_bytes. rewrite length_fmap, length_seq. lia. Qed.

Lemma step_ok f x : vtf_wf f -> 0 <= x < vtf_sz f -> vtf_step f x = Ok ((x + 1) mod vtf_sz f).
Proof.
  intros [H1 _ _ _ _] Hx. unfold vtf_step. destruct (Z.eqb_spec (vtf_sz f) 0); [lia|]. simpl. unfold u16. by rewrite (Z.mod_small (x + 1) (2 ^ 16)) by lia.
Qed.

(** One byte in. *)
Definition pushed (f : vt_fifo) (c : Z) : vt_fifo := set_w f ((vtf_w f + 1) mod vtf_sz f) (<[Z.to_nat (vtf_w f) := c]> (vtf_b f)).

Lemma pushed_spec f c :
  vtf_wf f -> vtf_len f < vtf_sz f - 1 ->
  vtf_wf (pushed f c) /\ vtf_len (pushed f c) = vtf_len f + 1 /\ vtf_bytes (pushed f c) = vtf_bytes f ++ [c].
Proof.
  intros Hw Hl. pose proof Hw as [H1 H2 H3 H4 H5]. pose proof (len_cases f Hw) as Hlen.
  assert (0 <= (vtf_w f + 1) mod vtf_sz f < vtf_sz f) as Hm by (apply Z.mod_pos_bound; lia).
  assert (vtf_wf (pushed f c)) as Hw' by (constructor; simpl; rewrite ?length_insert; done || lia).
  assert (vtf_len (pushed f c) = vtf_len f + 1) as El.
  { rewrite (len_cases _ Hw'), Hlen. simpl. rewrite wrap by lia.
    destruct (Z.ltb_spec (vtf_w f) (vtf_r f)), (Z.ltb_spec (vtf_w f + 1) (vtf_sz f)); simpl; zbool; lia. }
  split; [done|]. split; [done|]. unfold vtf_bytes. rewrite El. pose proof (len_range f Hw).
  replace (Z.to_nat (vtf_len f + 1)) with (Z.to_nat (vtf_len f) + 1)%nat by lia. rewrite seq_app, fmap_app. f_equal.
  - apply list_fmap_ext. intros j k Hk. apply lookup_seq in Hk as [-> Hk]. simpl. rewrite list_lookup_insert_ne; [done|].
    rewrite wrap by lia. destruct (Z.ltb_spec (vtf_r f + Z.of_nat j) (vtf_sz f)), (Z.ltb_spec (vtf_w f) (vtf_r f)); lia.
  - simpl. replace ((vtf_r f + Z.of_nat (Z.to_nat (vtf_len f))) mod vtf_sz f) with (vtf_w f).
    { rewrite list_lookup_insert_eq by lia. done. }
    rewrite wrap by lia. destruct (Z.ltb_spec (vtf_w f) (vtf_r f)); zbool; lia.
Qed.

Lemma write_loop_spec n : forall f i buf,
  vtf_wf f -> 0 <= i -> i + Z.of_nat n <= Z.of_nat (length buf) -> vtf_len f + Z.of_nat n < vtf_sz f ->
  exists f', vtf_write_loop n f i buf = Ok f' /\ vtf_wf f' /\ vtf_sz f' = vtf_sz f /\ vtf_bytes f' = vtf_bytes f ++ take n (drop (Z.to_nat i) buf).
Proof.
  induction n as [|n IH]; intros f i buf Hw Hi Hn Hl; cbn [vtf_write_loop].
  - exists f. by rewrite take_0, app_nil_r.
  - destruct (aget_is_ok buf i) as [c Hc]; [lia|]. rewrite Hc. cbn [res_bind]. apply aget_inv in Hc as [_ Hc]. pose proof Hw as [H1 H2 H3 H4 H5].
    rewrite aset_ok by lia. cbn [res_bind]. rewrite step_ok by done. cbn [res_bind]. change (set_w f _ _) with (pushed f c).
    destruct (pushed_spec f c Hw) as (Hw' & El & Eb); [lia|].
    destruct (IH (pushed f c) (i + 1) buf) as (f' & -> & Hwf & Esz & E); try done; [lia|lia|simpl; lia|].
    exists f'. split; [done|]. split; [done|]. split; [done|]. rewrite E, Eb, <- app_assoc. f_equal.
    rewrite (drop_S buf c (Z.to_nat i)) by done. cbn [take app]. replace (Z.to_nat (i + 1)) with (S (Z.to_nat i)) by lia. done.
Qed.

(** One byte out. *)
Lemma pop_spec f :
  vtf_wf f -> 0 < vtf_len f ->
  exists c, vtf_b f !! Z.to_nat (vtf_r f) = Some c /\
    let f' := set_r f ((vtf_r f + 1) mod vtf_sz f) in
    vtf_wf f' /\ vtf_len f' = vtf_len f - 1 /\ vtf_bytes f = c :: vtf_bytes f'.
Proof.
  intros Hw Hl. pose proof Hw as [H1 H2 H3 H4 H5]. pose proof (len_cases f Hw) as Hlen.
  destruct (vtf_b f !! Z.to_nat (vtf_r f)) as [c|] eqn:Ec; [|apply lookup_ge_None in Ec; lia]. exists c. split; [done|]. cbv zeta.
  assert (0 <= (vtf_r f + 1) mod vtf_sz f < vtf_sz f) as Hm by (apply Z.mod_pos_bound; lia).
  assert (vtf_wf (set_r f ((vtf_r f + 1) mod vtf_sz f))) as Hw' by (constructor; simpl; done || lia).
  assert (vtf_len (set_r f ((vtf_r f + 1) mod vtf_sz f)) = vtf_len f - 1) as El.
  { rewrite (len_cases _ Hw'), Hlen. simpl. rewrite wrap by lia.
    destruct (Z.ltb_spec (vtf_w f) (vtf_r f)), (Z.ltb_spec (vtf_r f + 1) (vtf_sz f)); simpl; zbool; lia. }
  split; [done|]. split; [done|]. unfold vtf_bytes. rewrite El.
  replace (Z.to_nat (vtf_len f)) with (S (Z.to_nat (vtf_len f - 1))) by lia. cbn [seq fmap list_fmap]. f_equal.
  - rewrite Z.add_0_r, Z.mod_small by lia. by rewrite Ec.
  - rewrite <- fmap_S_seq, <- list_fmap_compose. apply list_fmap_ext. intros j k _. unfold compose. simpl.
    rewrite Zplus_mod_idemp_l. do 4 f_equal. lia.
Qed.

Lemma read_loop_spec n : forall f,
  vtf_wf f -> Z.of_nat n <= vtf_len f ->
  exists f', vtf_read_loop n f = Ok (take n (vtf_bytes f), f') /\ vtf_wf f' /\ vtf_sz f' = vtf_sz f /\ vtf_bytes f' = drop n (vtf_bytes f).
Proof.
  induction n as [|n IH]; intros f Hw Hn; cbn [vtf_read_loop]; [by exists f; rewrite take_0|].
  destruct (pop_spec f Hw) as (c & Hc & Hw' & El & Eb); [lia|]. destruct Hw as [H1 H2 H3 H4 H5].
  rewrite (aget_ok _ _ c) by (done || lia). cbn [res_bind]. rewrite step_ok by (done || lia). cbn [res_bind].
  destruct (IH _ Hw') as (f' & -> & Hwf & Esz & E); [lia|]. exists f'. cbn [res_bind]. rewrite Eb. cbn [take drop]. done.
Qed.

Lemma vtf_write_spec f c buf :
  vtf_wf f -> 0 <= c <= Z.of_nat (length buf) ->
  exists f', vtf_write f c buf = Ok (if c <? vtf_sz f - vtf_len f then c else 0, f') /\ vtf_wf f' /\ vtf_sz f' = vtf_sz f /\
    vtf_bytes f' = vtf_bytes f ++ (if c <? vtf_sz f - vtf_len f then take (Z.to_nat c) buf else []) /\
    vtf_full f' = b2z (negb (c <? vtf_sz f - vtf_len f)).
Proof.
  intros Hw Hc. pose proof Hw as [H1 H2 H3 H4 H5]. pose proof (len_range f Hw). pose proof (len_cases f Hw) as Hl.
  unfold vtf_write. rewrite H5. cbn [truth negb Z.eqb].
  replace (sub64 (if vtf_w f <? vtf_r f then u64 (vtf_r f - vtf_w f) else add64 (u64 (vtf_sz f - vtf_w f)) (vtf_r f)) 1)
    with (vtf_sz f - vtf_len f - 1).
  2: { rewrite Hl. destruct (Z.ltb_spec (vtf_w f) (vtf_r f)).
       - rewrite u64_small by lia. rewrite sub64_small by lia. lia.
       - rewrite u64_small by lia. rewrite add64_small by lia. rewrite sub64_small by lia. lia. }
  destruct (Z.leb_spec c (vtf_sz f - vtf_len f - 1)), (Z.ltb_spec c (vtf_sz f - vtf_len f)); try lia.
  - destruct (write_loop_spec (Z.to_nat c) f 0 buf Hw) as (f' & -> & Hw' & Es & Eb); [lia..|]. cbn [res_bind].
    exists (set_full f' 0). split; [done|]. split; [by destruct Hw'; constructor|]. split; [done|]. split; [exact Eb|done].
  - eexists. split; [done|]. split; [by constructor|]. split; [done|]. by rewrite app_nil_r.
Qed.

Lemma vtf_read_spec f :
  vtf_wf f -> exists f', vtf_read f = Ok (take 16 (vtf_bytes f), f') /\ vtf_wf f' /\ vtf_sz f' = vtf_sz f /\ vtf_bytes f' = drop 16 (vtf_bytes f).
Proof.
  intros Hw. pose proof Hw as [H1 H2 H3 H4 H5]. pose proof (len_range f Hw). pose proof (len_cases f Hw) as Hl.
  pose proof (length_bytes f Hw) as Hb. unfold vtf_read.
  replace (if vtf_r f =? vtf_w f then 0 else _) with (vtf_len f).
  2: { rewrite Hl. destruct (Z.ltb_spec (vtf_w f) (vtf_r f)), (Z.eqb_spec (vtf_r f) (vtf_w f)), (Z.ltb_spec (vtf_r f) (vtf_w f)); try lia.
       - rewrite u64_small by lia. by rewrite add64_small by lia.
       - by rewrite u64_small by lia. }
  destruct (Z.ltb_spec 0 (Z.min (vtf_len f) 16)).
  - destruct (read_loop_spec (Z.to_nat (Z.min (vtf_len f) 16)) f Hw) as (f1 & -> & Hw1 & Es & Eb); [lia|]. cbn [res_bind].
    assert (take (Z.to_nat (Z.min (vtf_len f) 16)) (vtf_bytes f) = take 16 (vtf_bytes f)) as ->.
    { destruct (Z.le_gt_cases (vtf_len f) 16); [rewrite !take_ge by lia; done|f_equal; lia]. }
    assert (drop (Z.to_nat (Z.min (vtf_len f) 16)) (vtf_bytes f) = drop 16 (vtf_bytes f)) as Ed.
    { destruct (Z.le_gt_cases (vtf_len f) 16); [rewrite !drop_ge by lia; done|f_equal; lia]. }
    rewrite Ed in Eb. pose proof (length_bytes f1 Hw1) as Hb1. destruct Hw1 as [G1 G2 G3 G4 G5].
    destruct (Z.eqb_spec (vtf_r f1) (vtf_w f1)) as [E|E].
    + eexists. split; [done|]. split; [constructor; simpl; done || lia|]. split; [done|]. rewrite <- Eb.
      unfold vtf_bytes, vtf_len. simpl. by rewrite E, Z.sub_diag.
    + eexists. split; [done|]. split; [by constructor|]. done.
  - exists f. assert (vtf_bytes f = []) as E0 by (apply nil_length_inv; lia). rewrite E0. done.
Qed.

(** ** A bounded queue of bytes *)
Inductive vtf_op := Vtf_write (c : Z) (buf : list Z) | Vtf_read.

(** The number of bytes taken, or the bytes given out. *)
Definition vtf_exec (f : vt_fifo) (o : vtf_op) : res (Z * list Z * vt_fifo) :=
  match o with
  | Vtf_write c buf => let! (n, f) := vtf_write f c buf in Ok (n, [], f)
  | Vtf_read => let! (l, f) := vtf_read f in Ok (Z.of_nat (length l), l, f)
  end.

Definition queue_exec (cap : Z) (q : list Z) (o : vtf_op) : Z * list Z * list Z :=
  match o with
  | Vtf_write c buf =>
      if Z.of_nat (length q) + c <=? cap then (c, [], q ++ take (Z.to_nat c) buf) else (0, [], q)
  | Vtf_read => (Z.of_nat (length (take 16 q)), take 16 q, drop 16 q)
  end.

Fixpoint vtf_run (f : vt_fifo) (l : list vtf_op) : res (list (Z * list Z) * vt_fifo) :=
  match l with
  | [] => Ok ([], f)
  | o :: l =>
      let! (n, bs, f) := vtf_exec f o in
      let! (out, f) := vtf_run f l in
      Ok ((n, bs) :: out, f)
  end.

Fixpoint queue_run (cap : Z) (q : list Z) (l : list vtf_op) : list (Z * list Z) * list Z :=
  match l with
  | [] => ([], q)
  | o :: l =>
      let '(n, bs, q) := queue_exec cap q o in
      let '(out, q) := queue_run cap q l in
      ((n, bs) :: out, q)
  end.

(** A write of no more bytes than it has. *)
Definition vtf_ok (o : vtf_op) : Prop :=
  match o with Vtf_write c buf => 0 <= c <= Z.of_nat (length buf) | Vtf_read => True end.

Lemma vtf_exec_queue f o :
  vtf_wf f -> vtf_ok o -> exists f', vtf_exec f o = Ok ((queue_exec (vtf_sz f - 1) (vtf_bytes f) o).1, f') /\
    vtf_wf f' /\ vtf_sz f' = vtf_sz f /\ vtf_bytes f' = (queue_exec (vtf_sz f - 1) (vtf_bytes f) o).2.
Proof.
  intros Hw Ho. destruct o as [c buf|]; simpl.
  - destruct (vtf_write_spec f c buf Hw Ho) as (f' & -> & Hw' & Es & Eb & _). exists f'. cbn [res_bind].
    rewrite (length_bytes f Hw). destruct (Z.ltb_spec c (vtf_sz f - vtf_len f)), (Z.leb_spec (vtf_len f + c) (vtf_sz f - 1)); try lia; [done|].
    by rewrite app_nil_r in Eb.
  - destruct (vtf_read_spec f Hw) as (f' & -> & Hw' & Es & Eb). by exists f'.
Qed.

(** C33: a character buffer behaves as a queue of [vtf_sz - 1] bytes under every sequence of
    writes and reads: a write that fits appends all its bytes and one that does not
    appends none, and a read gives out the oldest bytes, up to 16. *)
Theorem vtf_refines_queue l : forall f,
  vtf_wf f -> Forall vtf_ok l ->
  exists f', vtf_run f l = Ok ((queue_run (vtf_sz f - 1) (vtf_bytes f) l).1, f') /\
    vtf_bytes f' = (queue_run (vtf_sz f - 1) (vtf_bytes f) l).2.
Proof.
  induction l as [|o l IH]; intros f Hw Hl; cbn [vtf_run queue_run]; [by exists f|].
  inversion_clear Hl as [|? ? Ho Hl']. destruct (vtf_exec_queue f o Hw Ho) as (f1 & -> & Hw1 & Es & Eb). cbn [res_bind].
  destruct (queue_exec (vtf_sz f - 1) (vtf_bytes f) o) as [[n bs] q]. simpl in *. destruct (IH f1 Hw1 Hl') as (f2 & E2 & Eb2).
  rewrite Es, Eb in E2, Eb2. cbn [res_bind]. rewrite E2. exists f2. cbn [res_bind].
  by destruct (queue_run (vtf_sz f - 1) q l).
Qed.

Lemma vtf_refines_queue_witness :
  let f := VtFifo 6 6 8 0 0 (repeat 0 8) in
  exists f', vtf_run f [Vtf_write 5 [1; 2; 3; 4; 5]; Vtf_write 3 [6; 7; 8]; Vtf_read; Vtf_read] =
    Ok ([(5, []); (0, []); (5, [1; 2; 3; 4; 5]); (0, [])], f') /\ vtf_bytes f' = [].
Proof.
  intros f. apply (vtf_refines_queue [Vtf_write 5 [1; 2; 3; 4; 5]; Vtf_write 3 [6; 7; 8]; Vtf_read; Vtf_read] f).
  - constructor; vm_compute; (reflexivity || split; discriminate || reflexivity).
  - repeat constructor; vm_compute; discriminate.
Defined.
