(* ===== verification/Vterm.v ===== *)
(** * Vterm: virtual terminals

    [hype/vterm.c], [hype/vtty.c] and the hypervisor calls on them.  A terminal is the server
    or the client end of a session; the server brings the two character buffers ([VtFifo]),
    and when it is registered with a client the two ends share them, crosswise.  Clients
    without a server are on the list [vt_unpaired], whose nodes, in the terminals
    themselves, are in a heap of pointers ([Dlist]): a terminal's node has the terminal's
    address.  Of the two resources of a terminal only the owner of the current one appears;
    the list of a partition's resources is [Resource]'s, and passing a terminal on ([vt_grant],
    [vt_rescind]) is not here. *)

From S2P Require Import Prelude Hcall Bitmap PgAlloc Dlist Xirr Xir Logical Imemcpy VtFifo.

Definition XIRR_CLASS_VTERM : Z := 4.
Definition CHANNELS_PER_OS : Z := 8.

(** [struct vt]; [vt_partner], [vt_get] and [vt_put] are addresses. *)
Record vt := Vt {
  vt_owner : Z;
  vt_liobn : Z;
  vt_interrupt : Z;
  vt_valid : Z;
  vt_dma_size : Z;
  vt_partner : Z;
  vt_get_fifo : Z;
  vt_put_fifo : Z
}.

(** What is used here of [struct os]. *)
Record vos := VOs { vo_lpid : Z; po_vt : list Z; po_chan : list Z }.

(** The terminals and the buffers by address, the nodes of the list of clients, the
    partitions, memory, the interrupt lines and the page allocator. *)
Record vterm := Vterm {
  vts : gmap Z vt;
  fifos : gmap Z vt_fifo;
  vlist : dheap;
  voss : gmap Z vos;
  vpm : pmem;
  virq : machine;
  vpool : pg_alloc
}.

(** [&vt_unpaired.vu_dlist] *)
Definition vu_dlist : Z := 1.

Definition put_vt (s : vterm) (a : Z) (x : vt) : vterm := Vterm (<[a := x]> (vts s)) (fifos s) (vlist s) (voss s) (vpm s) (virq s) (vpool s).
Definition del_vt (s : vterm) (a : Z) : vterm :=
  Vterm (delete a (vts s)) (fifos s) (DHeap (delete a (dl_next (vlist s))) (delete a (dl_prev (vlist s)))) (voss s) (vpm s) (virq s) (vpool s).
Definition set_fifos (s : vterm) (f : gmap Z vt_fifo) : vterm := Vterm (vts s) f (vlist s) (voss s) (vpm s) (virq s) (vpool s).
Definition put_fifo (s : vterm) (a : Z) (f : vt_fifo) : vterm := set_fifos s (<[a := f]> (fifos s)).
Definition set_vlist (s : vterm) (h : dheap) : vterm := Vterm (vts s) (fifos s) h (voss s) (vpm s) (virq s) (vpool s).
Definition set_vpm (s : vterm) (m : pmem) : vterm := Vterm (vts s) (fifos s) (vlist s) (voss s) m (virq s) (vpool s).
Definition set_virq (s : vterm) (m : machine) : vterm := Vterm (vts s) (fifos s) (vlist s) (voss s) (vpm s) m (vpool s).
Definition set_vpool (s : vterm) (p : pg_alloc) : vterm := Vterm (vts s) (fifos s) (vlist s) (voss s) (vpm s) (virq s) p.

Definition get_vt (s : vterm) (a : Z) : res vt := of_option Null_deref (vts s !! a).
Definition get_fifo (s : vterm) (a : Z) : res vt_fifo := of_option Null_deref (fifos s !! a).
Definition get_vos (s : vterm) (o : Z) : res vos := of_option Null_deref (voss s !! o).

Definition set_link (x : vt) (partner get put : Z) : vt :=
  Vt (vt_owner x) (vt_liobn x) (vt_interrupt x) (vt_valid x) (vt_dma_size x) partner get put.
Definition set_vt_valid (x : vt) (v : Z) : vt :=
  Vt (vt_owner x) (vt_liobn x) (vt_interrupt x) v (vt_dma_size x) (vt_partner x) (vt_get_fifo x) (vt_put_fifo x).
Definition set_vt_owner (x : vt) (o : Z) : vt :=
  Vt o (vt_liobn x) (vt_interrupt x) (vt_valid x) (vt_dma_size x) (vt_partner x) (vt_get_fifo x) (vt_put_fifo x).
Definition set_dma_size (x : vt) (n : Z) : vt :=
  Vt (vt_owner x) (vt_liobn x) (vt_interrupt x) (vt_valid x) n (vt_partner x) (vt_get_fifo x) (vt_put_fifo x).

Definition vt_isserver (x : vt) : bool := 0 <? vt_dma_size x.
Definition vt_getos (x : vt) : Z := vt_owner x.

(** [vt_get] does not look at the class of the unit address, so the device may be none
    of these; using it as one is a fault. *)
Definition vt_get (s : vterm) (liobn : Z) : res Z := xir_get_device (virq s) (u32 liobn).

(** ** Buffers of a server *)

(** [p] is what [halloc] returned: the size, or 0. *)
Definition vtf_alloc (s : vterm) (p : Z) : Z * vterm :=
  let sz := PGSIZE in
  let half := sz / 2 in
  let fsz := half - SIZEOF_VT_FIFO in
  if p =? PAGE_ALLOC_ERROR then (0, s)
  else
    let f := VtFifo 0 0 fsz 0 0 (repeat 0 (Z.to_nat fsz)) in
    (sz, put_fifo (put_fifo s p f) (p + half) f).

Definition vtf_free (s : vterm) (f0 f1 sz : Z) : res (Z * vterm) :=
  let! f := get_fifo s f0 in
  if negb (vtf_r f =? vtf_w f) then Ok (0, s)
  else
    let! pa := free_pages (vpool s) f0 sz in
    Ok (1, set_vpool (set_fifos s (delete f1 (delete f0 (fifos s)))) pa).

(** ** Characters *)
Section Chars.
(** [USE_THINWIRE_IO], [hout_get()], and the channels themselves: what [chan_write] returns,
    and what [chan_read_noblock] returns and reads. *)
Context (thinwire : bool) (hout : Z) (chan_write : Z -> list Z -> Z -> Z) (chan_read_noblock : Z -> Z -> Z * list Z).

Definition vtty_put_term_char16 (s : vterm) (os channel count : Z) (data : list Z) : res Z :=
  cassert (channel <? CHANNELS_PER_OS)
    (let! o := get_vos s os in
     let! c := aget (po_chan o) channel in
     if (c =? 0) && thinwire then Ok H_Closed
     else
       let c := if c =? 0 then hout else c in
       let val := chan_write c data count in
       if val <? 0 then Ok val
       else cassert (val =? count) (Ok H_Success)).

(** The result, the bytes read, and their number in register 1: [None] when it was
    not set. *)
Definition vtty_get_term_char16 (s : vterm) (os channel : Z) : res (Z * option Z * list Z) :=
  if thinwire then
    cassert (channel <? CHANNELS_PER_OS)
      (let! o := get_vos s os in
       let! c := aget (po_chan o) channel in
       if c =? 0 then Ok (H_Closed, None, [])
       else
         let '(val, data) := chan_read_noblock c 16 in
         if val <? 0 then Ok (val, None, data) else Ok (H_Success, Some val, data))
  else Ok (H_Success, Some 0, []).

Context (ctrl_os : Z) (other_handler : Z -> machine -> Z -> xh_ptr -> Z -> Z -> res (Z * Z * machine)).

Definition raise (s : vterm) (xirr : Z) : res vterm :=
  let! (_, _, m) := xir_raise other_handler (virq s) xirr in Ok (set_virq s m).

(** The channel a call is about: [inl] is one of the partition's own, [inr] a terminal. *)
Definition channel_of (s : vterm) (os chan : Z) : res (Z + Z) :=
  if (os =? ctrl_os) && (chan <? CHANNELS_PER_OS) then Ok (inl chan)
  else if chan <? 2 then
    let! o := get_vos s os in
    let! v := aget (po_vt o) chan in
    Ok (if v =? 0 then inl chan else inr v)
  else Ok (inr chan).

Definition vt_char_put (s : vterm) (os chan c : Z) (buf : list Z) : res (Z * vterm) :=
  let! ch := channel_of s os chan in
  match ch with
  | inl chan => let! r := vtty_put_term_char16 s os chan c buf in Ok (r, s)
  | inr chan =>
      let! a := vt_get s chan in
      if a =? 0 then Ok (H_Parameter, s)
      else
        let! x := get_vt s a in
        if negb (vt_getos x =? os) then Ok (H_Parameter, s)
        else if vt_partner x =? 0 then Ok (H_Closed, s)
        else
          let! f := get_fifo s (vt_put_fifo x) in
          let! (sz, f) := vtf_write f c buf in
          let s := put_fifo s (vt_put_fifo x) f in
          if sz =? 0 then Ok (H_Busy, s)
          else
            let! p := get_vt s (vt_partner x) in
            let! s := raise s (vt_interrupt p) in
            Ok (H_Success, s)
  end.

Definition vt_char_get (s : vterm) (os chan : Z) : res (Z * option Z * list Z * vterm) :=
  let! ch := channel_of s os chan in
  match ch with
  | inl chan => let! (r, n, data) := vtty_get_term_char16 s os chan in Ok (r, n, data, s)
  | inr chan =>
      let! a := vt_get s chan in
      if a =? 0 then Ok (H_Parameter, None, [], s)
      else
        let! x := get_vt s a in
        if negb (vt_getos x =? os) then Ok (H_Parameter, None, [], s)
        else if vt_partner x =? 0 then Ok (H_Closed, None, [], s)
        else
          let! f := get_fifo s (vt_get_fifo x) in
          let signal := vtf_full f in
          let! (data, f) := vtf_read f in
          let sz := Z.of_nat (length data) in
          let s := put_fifo s (vt_get_fifo x) f in
          let! s :=
            if (0 <? sz) && truth signal then
              let! p := get_vt s (vt_partner x) in raise s (vt_interrupt p)
            else Ok s in
          Ok (H_Success, Some sz, data, s)
  end.

(** [data] has 16 characters or more. *)
Definition h_put_term_char (s : vterm) (os channel count : Z) (data : list Z) : res (Z * vterm) :=
  if 16 <? count then Ok (H_Parameter, s) else vt_char_put s os channel count data.

(** The result, the count, the 16 characters returned in registers 2 and 3, and the state;
    [stack] is what [str] held before. *)
Definition h_get_term_char (s : vterm) (os channel : Z) (stack : list Z) : res (Z * option Z * list Z * vterm) :=
  let! (retval, n, data, s) := vt_char_get s os channel in
  Ok (retval, n, if retval =? H_Success then data ++ drop (length data) stack else [], s).

(** ** Making and freeing terminals *)

(** The memory of a new terminal, with its node of the list. *)
Definition new_node (h : dheap) (a : Z) : dheap := DHeap (<[a := a]> (dl_next h)) (<[a := a]> (dl_prev h)).

(** [a] is what [halloc] returned; the terminal, or 0. *)
Definition vt_acquire_internal (s : vterm) (a : Z) : res (Z * vterm) :=
  if a =? 0 then Ok (0, s)
  else
    let! (isrc, m) := xir_find (virq s) XIRR_CLASS_VTERM in
    cassert (negb (isrc =? -1))
      (let xenc := xirr_encode isrc XIRR_CLASS_VTERM in
       Ok (a, put_vt (set_vlist (set_virq s m) (new_node (vlist s) a)) a (Vt 0 xenc xenc 1 0 0 0 0))).

Definition vts_free_internal (s : vterm) (a : Z) : res (Z * vterm) :=
  let! x := get_vt s a in
  let pvt := vt_partner x in
  let! s :=
    if pvt =? 0 then Ok s
    else
      let! p := get_vt s pvt in
      let s := put_vt s pvt (set_link p 0 0 0) in
      let! h := dlist_insert (vlist s) pvt vu_dlist in
      Ok (set_vlist s h) in
  let! x := get_vt s a in
  let s := put_vt s a (set_link x 0 (vt_get_fifo x) (vt_put_fifo x)) in
  let! g := get_fifo s (vt_get_fifo x) in
  let! _ := get_fifo s (vt_put_fifo x) in
  let s := put_fifo s (vt_get_fifo x) (set_cursors g 0 0) in
  let! p := get_fifo s (vt_put_fifo x) in
  Ok (H_Success, put_fifo s (vt_put_fifo x) (set_cursors p 0 0)).

Definition vt_release_internal (s : vterm) (a : Z) : res (Z * vterm) :=
  let! x := get_vt s a in
  let pvt := vt_partner x in
  let! (busy, s) :=
    if vt_isserver x then
      let! (_, s) := vts_free_internal s a in
      let! (ok, s) := vtf_free s (vt_get_fifo x) (vt_put_fifo x) (vt_dma_size x) in
      Ok (negb (truth ok), s)
    else if pvt =? 0 then Ok (false, s)
    else
      let! p := get_vt s pvt in
      let! s := raise s (vt_interrupt p) in
      Ok (false, put_vt s pvt (set_link p 0 (vt_get_fifo p) (vt_put_fifo p))) in
  if busy : bool then Ok (H_Busy, s)
  else
    let! (_, m) := xir_default_config (virq s) (vt_interrupt x) 0 0 in
    Ok (1, del_vt (set_virq s m) a).

Definition vt_accept (s : vterm) (os liobn : Z) : res (Z * option Z) :=
  let! a := vt_get s liobn in
  if a =? 0 then Ok (H_Parameter, None)
  else
    let! x := get_vt s a in
    Ok (if os =? vt_getos x then (H_Success, Some liobn) else (H_Parameter, None)).

(** [insert_resource] makes the partition the owner. *)
Definition vt_res_init (s : vterm) (thread os a : Z) : res vterm :=
  let! x := get_vt s a in
  let! (_, m) := xir_default_config (virq s) (vt_interrupt x) thread a in
  let s := put_vt (set_virq s m) a (set_vt_owner x os) in
  let! (rc, _) := vt_accept s os (vt_liobn x) in
  cassert (rc =? H_Success) (Ok s).

(** The result, registers 1 to 3 when they are set, and the state; [a] and [p] are what
    [halloc] returns for the terminal and for its buffers. *)
Definition vts_acquire (s : vterm) (thread os a p : Z) : res (Z * option (Z * Z * Z) * vterm) :=
  let! (vts, s) := vt_acquire_internal s a in
  let '(dma_range, s) := if vts =? 0 then (0, s) else vtf_alloc s p in
  if 0 <? dma_range then
    let! x := get_vt s vts in
    let s := put_vt s vts (set_dma_size (set_link x (vt_partner x) p (p + PGSIZE / 2)) dma_range) in
    let! s := vt_res_init s thread os vts in
    let! x := get_vt s vts in
    Ok (H_Success, Some (vt_liobn x, 0, dma_range), s)
  else
    let! (_, s) := vt_release_internal s vts in
    Ok (H_UNAVAIL, None, s).

Definition vtc_acquire (s : vterm) (thread os a : Z) : res (Z * option (Z * Z * Z) * vterm) :=
  let! (vtc, s) := vt_acquire_internal s a in
  if vtc =? 0 then
    let! (_, s) := vt_release_internal s vtc in
    Ok (H_UNAVAIL, None, s)
  else
    let! s := vt_res_init s thread os vtc in
    let! x := get_vt s vtc in
    let s := put_vt s vtc (set_dma_size x 0) in
    let! h := dlist_insert (vlist s) vtc vu_dlist in
    Ok (H_Success, Some (vt_liobn x, 0, 0), set_vlist s h).

Definition vt_acquire (s : vterm) (thread os dma_range a p : Z) : res (Z * option (Z * Z * Z) * vterm) :=
  if dma_range =? 0 then vtc_acquire s thread os a else vts_acquire s thread os a p.

Definition vt_release (s : vterm) (os liobn : Z) : res (Z * vterm) :=
  let! a := vt_get s liobn in
  if a =? 0 then Ok (H_Parameter, s)
  else
    let! x := get_vt s a in
    if negb (vt_getos x =? os) then Ok (H_Parameter, s)
    else
      let! (r, s) := vt_release_internal s a in
      Ok (if r =? 0 then H_Busy else H_Success, s).

(** ** Sessions *)
Context (os_lookup : Z -> res Z).

Definition vts_register (s : vterm) (os ua lpid pua : Z) : res (Z * vterm) :=
  let! a := vt_get s ua in
  if a =? 0 then Ok (H_Parameter, s)
  else
    let! x := get_vt s a in
    if negb (vt_getos x =? os) then Ok (H_Parameter, s)
    else
      let! pos := os_lookup lpid in
      if pos =? 0 then Ok (H_Parameter, s)
      else if negb (vt_isserver x) then Ok (H_Parameter, s)
      else
        let! b := vt_get s pua in
        if b =? 0 then Ok (H_Parameter, s)
        else
          let! p := get_vt s b in
          if negb (vt_getos p =? pos) then Ok (H_Parameter, s)
          else if vt_isserver p then Ok (H_Parameter, s)
          else if vt_valid x =? 0 then Ok (H_Parameter, s)
          else if vt_partner x =? 0 then
            let s1 := put_vt s a (set_link x b (vt_get_fifo x) (vt_put_fifo x)) in
            if vt_partner p =? 0 then
              let s := put_vt s1 b (set_link p a (vt_put_fifo x) (vt_get_fifo x)) in
              let! h := dlist_detach (vlist s) b in
              Ok (H_Success, set_vlist s h)
            else Ok (H_Parameter, put_vt s1 a (set_link x 0 (vt_get_fifo x) (vt_put_fifo x)))
          else Ok (H_Parameter, s).

Definition vts_free (s : vterm) (os ua : Z) : res (Z * vterm) :=
  if negb (os =? ctrl_os) then Ok (H_Parameter, s)
  else if ua <? CHANNELS_PER_OS then Ok (H_Parameter, s)
  else
    let! a := vt_get s ua in
    if a =? 0 then Ok (H_Parameter, s) else vts_free_internal s a.

(** The digits of [%lx]. *)
Fixpoint hex_digits (fuel : nat) (v : Z) : list Z :=
  match fuel with
  | O => []
  | S fuel =>
      let d := v mod 16 in
      let c := if d <? 10 then 48 + d else 87 + d in
      if v <? 16 then [c] else hex_digits fuel (v / 16) ++ [c]
  end.

(** ["vterms suck 0x"] *)
Definition suck : list Z := [118; 116; 101; 114; 109; 115; 32; 115; 117; 99; 107; 32; 48; 120].

(** [while (curr != &vt_unpaired.vu_dlist)], up to the client asked for. *)
Fixpoint find_client (fuel : nat) (s : vterm) (curr plpid pua : Z) : res Z :=
  if curr =? vu_dlist then Ok curr
  else
    match fuel with
    | O => Fault Out_of_fuel
    | S fuel =>
        let! p := get_vt s curr in
        let! o := get_vos s (vt_getos p) in
        if (vo_lpid o =? plpid) && (vt_interrupt p =? pua) then Ok curr
        else let! n := dlist_next (vlist s) curr in find_client fuel s n plpid pua
    end.

Context (l_to_r : Z -> logical_chunk_info -> Z -> Z -> res Z) (m : memory).

Definition vts_partner_info (fuel : nat) (s : vterm) (os ua plpid pua lba : Z) : res (Z * vterm) :=
  if ua <? CHANNELS_PER_OS then Ok (H_Parameter, s)
  else
    let! a := vt_get s ua in
    if a =? 0 then Ok (H_Parameter, s)
    else
      let! x := get_vt s a in
      if negb (vt_isserver x) then Ok (H_Parameter, s)
      else if truth (Z.land lba (PGSIZE - 1)) then Ok (H_Parameter, s)
      else
        let! pba := logical_to_physical_address l_to_r m os lba PGSIZE in
        if pba =? INVALID_PHYSICAL_ADDRESS then Ok (H_Parameter, s)
        else
          let! curr := dlist_next (vlist s) vu_dlist in
          let! curr :=
            if negb (plpid =? ONES64) && negb (pua =? ONES64) then
              let! c := find_client fuel s curr plpid pua in
              if c =? vu_dlist then Ok None
              else let! n := dlist_next (vlist s) c in Ok (Some n)
            else Ok (Some curr) in
          match curr with
          | None => Ok (H_Parameter, s)
          | Some curr =>
              let! b :=
                if curr =? vu_dlist then Ok (be_bytes 8 ONES64 ++ be_bytes 8 ONES64 ++ be_bytes 8 0)
                else
                  let! p := get_vt s curr in
                  let! o := get_vos s (vt_getos p) in
                  Ok (be_bytes 8 (vo_lpid o) ++ be_bytes 8 (vt_interrupt p) ++
                      suck ++ hex_digits 16 (vt_interrupt p) ++ [0]) in
              let! pba := logical_to_physical_address l_to_r m os lba PGSIZE in
              if pba =? INVALID_PHYSICAL_ADDRESS then Ok (H_Parameter, s)
              else Ok (H_Success, set_vpm s (copy_out (vpm s) pba b))
          end.
End Chars.

(** ** As a resource *)
Definition vt_tce_put (os liobn ioba ltce : Z) : Z := H_Parameter.

Definition vt_invalidate (s : vterm) (os liobn : Z) : res (Z * vterm) :=
  let! a := vt_get s liobn in
  if a =? 0 then Ok (H_Parameter, s)
  else
    let! x := get_vt s a in
    Ok (H_Success, if os =? vt_getos x then put_vt s a (set_vt_valid x 0) else s).

Definition vt_return (s : vterm) (os liobn : Z) : res Z :=
  let! a := vt_get s liobn in
  if a =? 0 then Ok H_Parameter else let! _ := get_vt s a in Ok H_Success.

Definition vt_conflict (s : vterm) (liobn : Z) : res Z :=
  let! a := vt_get s liobn in
  if a =? 0 then Ok H_Parameter else Fault Assert_failed.

(** ** Raising an interrupt leaves the devices of all lines as they are *)
Lemma device_upd m c d xh y xirr :
  line m c d = Some xh -> xh_device y = xh_device xh -> xir_get_device (upd m c d y) xirr = xir_get_device m xirr.
Proof.
  intros (Hc & Hd & k & a & Hk & Ha & Hx)%line_inv Hy.
  unfold xir_get_device, xir_get_xh_data, __xir_get_xh_data, get_class.
  assert (forall i, aget (xirr_classes (upd m c d y)) i =
    let! k := aget (xirr_classes m) i in Ok (if i =? c then XirrClass (<[Z.to_nat d := y]> <$> xc_data k) (eoi_fn k) else k)) as Hget.
  { intros i. unfold aget, upd. cbn [xirr_classes]. destruct (Z.ltb_spec i 0); [done|].
    destruct (Z.eqb_spec i c) as [->|Hne].
    - rewrite list_lookup_alter_eq, Hk. done.
    - rewrite list_lookup_alter_ne by lia. by destruct (xirr_classes m !! Z.to_nat i). }
  rewrite Hget. destruct (aget (xirr_classes m) (xirr_class xirr)) as [k1|] eqn:E1; [|done]. cbn [res_bind].
  destruct (Z.eqb_spec (xirr_class xirr) c) as [Ec|Ec].
  - rewrite Ec in *. apply aget_inv in E1 as [_ E1]. rewrite Hk in E1. injection E1 as <-. cbn [xc_data]. rewrite Ha. cbn [fmap option_fmap option_map].
    destruct (_ <=? _); [done|]. cbn [res_bind]. unfold get_xh, get_lines, get_class. rewrite Hget. unfold aget at 1 3.
    destruct (Z.ltb_spec c 0); [lia|]. rewrite Hk. cbn [of_option res_bind]. rewrite Z.eqb_refl. cbn [xc_data]. rewrite Ha. cbn [fmap option_fmap option_map of_option res_bind].
    unfold aget. destruct (Z.ltb_spec (xirr_xisr xirr) 0); [done|]. destruct (decide (Z.to_nat (xirr_xisr xirr) = Z.to_nat d)) as [En|En].
    + rewrite En, list_lookup_insert_eq, Hx by (by eapply lookup_lt_Some). cbn [of_option res_bind]. by rewrite Hy.
    + by rewrite list_lookup_insert_ne by done.
  - destruct (xc_data k1) eqn:E2; [|done]. destruct (_ <=? _); [done|]. cbn [res_bind]. unfold get_xh, get_lines, get_class. rewrite Hget, E1.
    cbn [res_bind]. destruct (Z.eqb_spec (xirr_class xirr) c); [done|]. by rewrite E2.
Qed.

Lemma device_tc m ts us xirr : xir_get_device (with_tc m ts us) xirr = xir_get_device m xirr.
Proof. done. Qed.

Lemma raise_devices oh m c d xh :
  xir_inv m -> line m c d = Some xh -> exists r thr m', xir_raise oh m (xirr_encode d c) = Ok (r, thr, m') /\ xir_inv m' /\
    forall xirr, xir_get_device m' xirr = xir_get_device m xirr.
Proof.
  intros Hi Hl. destruct (inv_range m c d xh Hi Hl) as [Hc Hd]. unfold xir_raise.
  destruct (decode_encode_small d c) as [-> ->]; [unfold XIRR_DEVID_SZ, XIRR_CLASS_MAX in *; lia..|].
  destruct (inject_total oh _ m c d 0 xh Hi Hl) as (r & thr & m' & E & Hi'). exists r, thr, m'. split; [done|]. split; [done|]. intros xirr.
  destruct (inv_lines m Hi c d xh Hl) as (_ & Hd' & Hu & Hh). destruct (has xh 0) eqn:H0.
  { rewrite (inject_disabled oh m c d 0 xh) in E by done. injection E as _ _ <-. by apply (device_upd m c d xh). }
  destruct Hh as [Hh|[Hh [t Ht]]].
  { rewrite (inject_none oh m c d 0 xh) in E by done. by injection E as _ _ <-. }
  destruct (has xh 2) eqn:H2.
  { rewrite (inject_again oh m c d 0 xh) in E by done. by injection E as _ _ <-. }
  destruct (inv_threads m Hi _ t Ht) as (Hwf & [u Hcu] & _).
  destruct (xir_add_total (xirq t) (xirr_encode d c) Hwf) as (n & q & Hq).
  rewrite (inject_deliver oh m c d 0 xh t u n q) in E by done. injection E as _ _ <-. unfold delivered. rewrite device_tc. by apply (device_upd m c d xh).
Qed.

(** ** Sessions are symmetric and have their own buffers *)
Record vt_inv (s : vterm) : Prop := {
  vv_pair a x : vts s !! a = Some x -> vt_partner x <> 0 ->
    exists y, vts s !! vt_partner x = Some y /\ vt_partner y = a /\ vt_get_fifo y = vt_put_fifo x /\ vt_put_fifo y = vt_get_fifo x /\
      vt_isserver y = negb (vt_isserver x);
  vv_server a x : vts s !! a = Some x -> vt_isserver x = true ->
    exists g p, fifos s !! vt_get_fifo x = Some g /\ vtf_wf g /\ fifos s !! vt_put_fifo x = Some p /\ vtf_wf p /\ vt_get_fifo x <> vt_put_fifo x;
  vv_apart a x b y : vts s !! a = Some x -> vts s !! b = Some y -> vt_isserver x = true -> vt_isserver y = true -> a <> b ->
    forall f, f = vt_get_fifo x \/ f = vt_put_fifo x -> f <> vt_get_fifo y /\ f <> vt_put_fifo y;
  vv_null : vts s !! 0 = None
}.

Lemma vinv_same s s' : vt_inv s -> vts s' = vts s -> fifos s' = fifos s -> vt_inv s'.
Proof. intros [H1 H2 H3 H4] E1 E2. constructor; rewrite ?E1, ?E2; done. Qed.

Lemma vinv_fifo s k f f' : vt_inv s -> fifos s !! k = Some f -> vtf_wf f' -> vt_inv (put_fifo s k f').
Proof.
  intros [H1 H2 H3 H4] Hk Hw. constructor; try done. intros a x Hx Hs. simpl.
  destruct (H2 a x Hx Hs) as (g & p & Hg & Wg & Hp & Wp & Hne).
  assert (forall i h, fifos s !! i = Some h -> vtf_wf h -> exists h', <[k := f']> (fifos s) !! i = Some h' /\ vtf_wf h') as Hup.
  { intros i h Hi Wh. destruct (decide (i = k)) as [->|Hn]; [exists f'; by rewrite lookup_insert_eq|exists h; by rewrite lookup_insert_ne]. }
  destruct (Hup _ _ Hg Wg) as (g' & ? & ?), (Hup _ _ Hp Wp) as (p' & ? & ?). by exists g', p'.
Qed.

(** A client and a server without partners become one session. *)
Lemma vinv_join s a b x p :
  vt_inv s -> vts s !! a = Some x -> vts s !! b = Some p -> a <> 0 -> b <> 0 ->
  vt_isserver x = true -> vt_isserver p = false -> vt_partner x = 0 -> vt_partner p = 0 ->
  vt_inv (put_vt (put_vt s a (set_link x b (vt_get_fifo x) (vt_put_fifo x))) b (set_link p a (vt_put_fifo x) (vt_get_fifo x))).
Proof.
  intros [H1 H2 H3 H4] Hx Hp Ha Hb Sx Sp Px Pp. assert (a <> b) as Hab by congruence.
  set (x' := set_link x b (vt_get_fifo x) (vt_put_fifo x)). set (p' := set_link p a (vt_put_fifo x) (vt_get_fifo x)).
  assert (forall k y, <[b := p']> (<[a := x']> (vts s)) !! k = Some y ->
    k = b /\ y = p' \/ k = a /\ y = x' \/ k <> a /\ k <> b /\ vts s !! k = Some y) as Hcase.
  { intros k y Hk. apply lookup_insert_Some in Hk as [[<- <-]|[Hn1 Hk]]; [by left|].
    apply lookup_insert_Some in Hk as [[<- <-]|[Hn2 Hk]]; [by right; left|]. right; right. done. }
  constructor; simpl.
  - intros k y Hk Hne. destruct (Hcase k y Hk) as [[-> ->]|[[-> ->]|(Hn1 & Hn2 & Hk')]].
    + exists x'. simpl. rewrite lookup_insert_ne, lookup_insert_eq by done. unfold vt_isserver in *. simpl. by rewrite Sx, Sp.
    + exists p'. simpl. rewrite lookup_insert_eq. unfold vt_isserver in *. simpl. by rewrite Sx, Sp.
    + destruct (H1 k y Hk' Hne) as (z & Hz & Pz & Gz & Wz & Sz).
      assert (vt_partner y <> a) by (intros E; rewrite E, Hx in Hz; injection Hz as <-; congruence).
      assert (vt_partner y <> b) by (intros E; rewrite E, Hp in Hz; injection Hz as <-; congruence).
      exists z. by rewrite !lookup_insert_ne.
  - intros k y Hk Sy. destruct (Hcase k y Hk) as [[-> ->]|[[-> ->]|(_ & _ & Hk')]]; [unfold vt_isserver in *; simpl in *; congruence| |by apply (H2 k)].
    by apply (H2 a x).
  - intros k y k2 y2 Hk Hk2 Sy Sy2 Hne.
    assert (forall k y, <[b := p']> (<[a := x']> (vts s)) !! k = Some y -> vt_isserver y = true ->
      exists z, vts s !! k = Some z /\ vt_isserver z = true /\ vt_get_fifo z = vt_get_fifo y /\ vt_put_fifo z = vt_put_fifo y) as Hold.
    { intros k' y' Hk' Sy'. destruct (Hcase k' y' Hk') as [[-> ->]|[[-> ->]|(_ & _ & Hk3)]]; [unfold vt_isserver in *; simpl in *; congruence|by exists x|by exists y']. }
    destruct (Hold k y Hk Sy) as (z & Hz & Sz & <- & <-), (Hold k2 y2 Hk2 Sy2) as (z2 & Hz2 & Sz2 & <- & <-). by apply (H3 k z k2 z2).
  - by rewrite !lookup_insert_ne.
Qed.

(** Terminals that stay, or become, servers keep their buffers. *)
Definition servers_kept (s s' : vterm) : Prop :=
  forall a y, vts s' !! a = Some y -> vt_isserver y = true ->
    exists x, vts s !! a = Some x /\ vt_isserver x = true /\ vt_get_fifo x = vt_get_fifo y /\ vt_put_fifo x = vt_put_fifo y /\
      forall k f, k = vt_get_fifo y \/ k = vt_put_fifo y -> fifos s !! k = Some f -> vtf_wf f -> exists f', fifos s' !! k = Some f' /\ vtf_wf f'.

(** The session of [a], if it has one, is over: its ends have no partner any more, and
    everything else is as it was. *)
Definition session_over (s s' : vterm) (a : Z) (x : vt) : Prop :=
  (forall k, k <> a -> k <> vt_partner x -> vts s' !! k = vts s !! k) /\
  (forall k y, k = a \/ k = vt_partner x -> vts s' !! k = Some y -> vt_partner y = 0).

Lemma vinv_cut s s' a x :
  vt_inv s -> vts s !! a = Some x -> session_over s s' a x -> servers_kept s s' -> vts s' !! 0 = None -> vt_inv s'.
Proof.
  intros [H1 H2 H3 H4] Hx [Hk H0] Hs Hz. constructor; [| | |done].
  - intros k y Hy Hne. assert (k <> a) as Hka by (intros ->; by rewrite (H0 a y) in Hne; auto).
    assert (k <> vt_partner x) as Hkp by (intros ->; by rewrite (H0 (vt_partner x) y) in Hne; auto).
    rewrite Hk in Hy by done. destruct (H1 k y Hy Hne) as (z & Hz' & Pz & Rz). exists z. split; [|done].
    rewrite Hk; [done|..].
    + intros E. rewrite E, Hx in Hz'. injection Hz' as <-. congruence.
    + intros E. destruct (decide (vt_partner x = 0)) as [E0|E0]; [congruence|].
      destruct (H1 a x Hx E0) as (w & Hw & Pw & _). rewrite E, Hw in Hz'. injection Hz' as <-. congruence.
  - intros b y Hy Sy. destruct (Hs b y Hy Sy) as (z & Hz' & Sz & Eg & Ep & Hf). destruct (H2 b z Hz' Sz) as (g & p & Hg & Wg & Hp & Wp & Hne).
    rewrite Eg in Hg, Hne. rewrite Ep in Hp, Hne.
    destruct (Hf _ g (or_introl eq_refl) Hg Wg) as (g' & ? & ?), (Hf _ p (or_intror eq_refl) Hp Wp) as (p' & ? & ?). by exists g', p'.
  - intros k y k2 y2 Hy Hy2 Sy Sy2 Hne. destruct (Hs k y Hy Sy) as (z & Hz1 & Sz & <- & <- & _), (Hs k2 y2 Hy2 Sy2) as (z2 & Hz2 & Sz2 & <- & <- & _).
    by apply (H3 k z k2 z2).
Qed.

Lemma partner_ne s a x : vt_inv s -> vts s !! a = Some x -> vt_partner x <> a.
Proof.
  intros Hi Hx E. assert (a <> 0) as Ha by (intros ->; rewrite (vv_null s Hi) in Hx; done).
  destruct (vv_pair s Hi a x Hx) as (y & Hy & _ & _ & _ & Hs); [congruence|]. rewrite E, Hx in Hy. injection Hy as <-.
  by destruct (vt_isserver x).
Qed.

Lemma get_vt_inv s a x : get_vt s a = Ok x -> vts s !! a = Some x.
Proof. unfold get_vt. destruct (vts s !! a); simpl; congruence. Qed.
Lemma get_fifo_inv s a x : get_fifo s a = Ok x -> fifos s !! a = Some x.
Proof. unfold get_fifo. destruct (fifos s !! a); simpl; congruence. Qed.

Lemma wf_reset f : vtf_wf f -> vtf_wf (set_cursors f 0 0).
Proof. intros [H1 H2 H3 H4 H5]. constructor; simpl; done || lia. Qed.

(** What [vts_free_internal] does to a server. *)
Lemma vts_free_effect s a x r s' :
  vt_inv s -> vts s !! a = Some x -> vt_isserver x = true -> vts_free_internal s a = Ok (r, s') ->
  session_over s s' a x /\ servers_kept s s' /\ vts s' !! a = Some (set_link x 0 (vt_get_fifo x) (vt_put_fifo x)) /\ vts s' !! 0 = None /\
  fifos s' !! vt_get_fifo x = (fun f => set_cursors f 0 0) <$> fifos s !! vt_get_fifo x /\ voss s' = voss s /\ virq s' = virq s.
Proof.
  intros Hi Hx Sx E. unfold vts_free_internal, get_vt in E. rewrite Hx in E. cbn [of_option res_bind] in E.
  pose proof (partner_ne s a x Hi Hx) as Hpa. pose proof (vv_null s Hi) as Hnull.
  assert (a <> 0) as Ha by (intros ->; congruence). destruct (vv_server s Hi a x Hx Sx) as (g & p & Hg & Wg & Hp & Wp & Hgp).
  apply res_bind_ok in E as (s1 & E1 & E).
  assert (fifos s1 = fifos s /\ voss s1 = voss s /\ virq s1 = virq s /\ vts s1 !! a = Some x /\ vts s1 !! 0 = None /\ (forall k, k <> vt_partner x -> vts s1 !! k = vts s !! k) /\
    (forall y, vt_partner x <> 0 -> vts s1 !! vt_partner x = Some y -> vt_partner y = 0 /\ vt_isserver y = false)) as (Ef & Eo & Eq & Hx1 & Hn1 & Ho & Hp1).
  { destruct (Z.eqb_spec (vt_partner x) 0) as [E0|E0]; [injection E1 as <-; split_and!; try done|].
    destruct (vv_pair s Hi a x Hx E0) as (y & Hy & _ & _ & _ & Sy). rewrite Hy in E1. cbn [of_option res_bind] in E1.
    apply res_bind_ok in E1 as (h & _ & E1). injection E1 as <-. simpl. split_and!; try done.
    - by rewrite lookup_insert_ne.
    - by rewrite lookup_insert_ne.
    - intros k Hk. by rewrite lookup_insert_ne.
    - intros y' _. rewrite lookup_insert_eq. intros [= <-]. split; [done|]. unfold vt_isserver in *. simpl. by rewrite Sy, Sx. }
  rewrite Hx1 in E. cbn [of_option res_bind] in E.
  apply res_bind_ok in E as (g' & Hg'%get_fifo_inv & E). apply res_bind_ok in E as (p' & _ & E). apply res_bind_ok in E as (q & Hq%get_fifo_inv & E).
  injection E as <- <-. simpl in *. rewrite Ef in Hg', Hq |- *. rewrite Hg in Hg'. injection Hg' as <-. rewrite lookup_insert_ne, Hp in Hq by done. injection Hq as <-.
  split_and!; try done.
  - split.
    + intros k Hk1 Hk2. simpl. rewrite lookup_insert_ne by done. by apply Ho.
    + intros k y [->| ->] Hy; simpl in Hy.
      * rewrite lookup_insert_eq in Hy. by injection Hy as <-.
      * rewrite lookup_insert_ne in Hy by done. destruct (decide (vt_partner x = 0)) as [E0|E0]; [by rewrite E0, Hn1 in Hy|by apply Hp1].
  - intros b y Hy Sy. simpl in *. destruct (decide (b = a)) as [->|Hba].
    + rewrite lookup_insert_eq in Hy. injection Hy as <-. exists x. simpl. split_and!; try done.
      intros k f Hk Hf Wf. destruct (decide (k = vt_put_fifo x)) as [->|Hn]; [rewrite lookup_insert_eq; eexists; split; [done|by apply wf_reset]|].
      destruct Hk as [-> | ->]; [|done]. rewrite lookup_insert_ne, lookup_insert_eq by done. eexists. split; [done|by apply wf_reset].
    + rewrite lookup_insert_ne in Hy by done. destruct (decide (b = vt_partner x)) as [->|Hbp].
      { destruct (decide (vt_partner x = 0)) as [E0|E0]; [by rewrite E0, Hn1 in Hy|]. destruct (Hp1 y E0 Hy). congruence. }
      rewrite Ho in Hy by done. exists y. split_and!; try done. intros k f Hk Hf Wf.
      destruct (vv_apart s Hi b y a x Hy Hx Sy Sx Hba k Hk) as [Hk1 Hk2].
      exists f. by rewrite !lookup_insert_ne, Ef by congruence.
  - by rewrite lookup_insert_eq.
  - by rewrite lookup_insert_ne.
  - rewrite lookup_insert_ne, lookup_insert_eq by done. by rewrite Hg.
Qed.

Lemma raise_frame oh s xirr s' : raise oh s xirr = Ok s' -> vts s' = vts s /\ fifos s' = fifos s /\ voss s' = voss s.
Proof. unfold raise. intros H. apply res_bind_ok in H as ([[? ?] m] & _ & H). by injection H as <-. Qed.

Lemma vt_release_step oh s a x r s' :
  vt_inv s -> vts s !! a = Some x -> vt_release_internal oh s a = Ok (r, s') -> vt_inv s' /\ vts s' !! a = None.
Proof.
  intros Hi Hx E. unfold vt_release_internal, get_vt in E. rewrite Hx in E. cbn [of_option res_bind] in E.
  pose proof (partner_ne s a x Hi Hx) as Hpa. pose proof (vv_null s Hi) as Hnull.
  apply res_bind_ok in E as ([busy s1] & E1 & E).
  destruct (vt_isserver x) eqn:Sx.
  - apply res_bind_ok in E1 as ([r1 s2] & E2 & E1). apply res_bind_ok in E1 as ([ok s3] & E3 & E1). injection E1 as <- <-.
    destruct (vts_free_effect s a x r1 s2 Hi Hx Sx E2) as ([Ho1 Ho2] & Hsk & Ha2 & Hn2 & Hf2 & _).
    unfold vtf_free in E3. apply res_bind_ok in E3 as (f & Hf%get_fifo_inv & E3). rewrite Hf2 in Hf.
    destruct (vv_server s Hi a x Hx Sx) as (g & p & Hg & Wg & Hp & Wp & Hgp). rewrite Hg in Hf. injection Hf as <-. cbn [set_cursors vtf_r vtf_w Z.eqb negb] in E3.
    apply res_bind_ok in E3 as (pa & _ & E3). injection E3 as <- <-. cbn [truth Z.eqb negb] in E.
    apply res_bind_ok in E as ([? m] & _ & E). injection E as <- <-. split; [|simpl; by rewrite lookup_delete_eq].
    apply (vinv_cut s _ a x); try done.
    + split; simpl.
      * intros k Hk1 Hk2. rewrite lookup_delete_ne by done. by apply Ho1.
      * intros k y Hk Hy. apply lookup_delete_Some in Hy as [_ Hy]. by apply (Ho2 k y).
    + intros b y Hy Sy. cbn [vts fifos del_vt set_virq set_vpool set_fifos] in Hy |- *. apply lookup_delete_Some in Hy as [Hba Hy].
      destruct (Hsk b y Hy Sy) as (w & Hw & Sw & Eg & Ep & Hf). exists w. split_and!; try done. intros k f Hk Hfk Wf.
      destruct (Hf k f Hk Hfk Wf) as (f' & Hf' & Wf'). exists f'. rewrite <- Eg, <- Ep in Hk.
      destruct (vv_apart s Hi b w a x Hw Hx Sw Sx (not_eq_sym Hba) k Hk) as [? ?]. by rewrite !lookup_delete_ne by congruence.
    + simpl. by rewrite lookup_delete_None; right.
  - assert (session_over s s1 a x /\ servers_kept s s1 /\ vts s1 !! 0 = None /\ busy = false \/ vt_partner x <> 0 /\ busy = false /\
      exists p, vts s !! vt_partner x = Some p /\ vts s1 = <[vt_partner x := set_link p 0 (vt_get_fifo p) (vt_put_fifo p)]> (vts s) /\ fifos s1 = fifos s) as Hcase.
    { destruct (Z.eqb_spec (vt_partner x) 0) as [E0|E0].
      - injection E1 as <- <-. left. split_and!; try done.
        + split; [done|]. intros k y [-> | ->] Hy; [|by rewrite E0, Hnull in Hy]. rewrite Hx in Hy. by injection Hy as <-.
        + intros b y Hy Sy. exists y. split_and!; try done. intros k f _ Hf Wf. by exists f.
      - right. split; [done|]. apply res_bind_ok in E1 as (p & Hp%get_vt_inv & E1). apply res_bind_ok in E1 as (s2 & E2%raise_frame & E1).
        destruct E2 as (Ev & Ef & _). injection E1 as <- <-. split; [done|]. exists p. simpl. by rewrite Ev, Ef. }
    assert (busy = false) as -> by (destruct Hcase as [(_ & _ & _ & ?)|(_ & ? & _)]; done).
    apply res_bind_ok in E as ([? m] & _ & E). injection E as <- <-. split; [|simpl; by rewrite lookup_delete_eq].
    apply (vinv_cut s _ a x); try done.
    + destruct Hcase as [([H1 H2] & _)|(_ & _ & p & Hp & Ev & _)]; split; simpl.
      * intros k Hk1 Hk2. rewrite lookup_delete_ne by done. by apply H1.
      * intros k y Hk Hy. apply lookup_delete_Some in Hy as [_ Hy]. by apply (H2 k y).
      * intros k Hk1 Hk2. rewrite lookup_delete_ne, Ev, lookup_insert_ne by done. done.
      * intros k y Hk Hy. apply lookup_delete_Some in Hy as [Hka Hy]. destruct Hk as [-> | ->]; [done|]. rewrite Ev, lookup_insert_eq in Hy. by injection Hy as <-.
    + intros b y Hy Sy. cbn [vts fifos del_vt set_virq set_vpool set_fifos] in Hy |- *. apply lookup_delete_Some in Hy as [Hba Hy].
      destruct Hcase as [(_ & Hsk & _)|(_ & _ & p & Hp & Ev & Ef)]; [by apply Hsk|].
      rewrite Ev in Hy. apply lookup_insert_Some in Hy as [[<- <-]|[_ Hy]]; [exists p|exists y]; split_and!; try done; intros k f _ Hf Wf; exists f; by rewrite Ef.
    + simpl. rewrite lookup_delete_None. right. destruct Hcase as [(_ & _ & ? & _)|(? & _ & p & _ & -> & _)]; [done|]. by rewrite lookup_insert_ne.
Qed.

(** A new terminal. *)
Lemma vinv_new s s' a x :
  vt_inv s -> vts s !! a = None -> a <> 0 -> vt_partner x = 0 -> vts s' = <[a := x]> (vts s) ->
  (forall k f, fifos s !! k = Some f -> fifos s' !! k = Some f) ->
  (vt_isserver x = true -> fifos s !! vt_get_fifo x = None /\ fifos s !! vt_put_fifo x = None /\ vt_get_fifo x <> vt_put_fifo x /\
    exists g p, fifos s' !! vt_get_fifo x = Some g /\ vtf_wf g /\ fifos s' !! vt_put_fifo x = Some p /\ vtf_wf p) -> vt_inv s'.
Proof.
  intros [H1 H2 H3 H4] Ha Ha0 Hp Ev Hf Hs.
  assert (forall b y, vts s !! b = Some y -> vt_isserver y = true -> vt_isserver x = true ->
    forall f, f = vt_get_fifo y \/ f = vt_put_fifo y -> f <> vt_get_fifo x /\ f <> vt_put_fifo x) as Hnew.
  { intros b y Hy Sy Sx f Hff. destruct (H2 b y Hy Sy) as (g & p & Hg & _ & Hpf & _). destruct (Hs Sx) as (E1 & E2 & _).
    destruct Hff as [-> | ->]; split; congruence. }
  constructor; rewrite Ev.
  - intros b y Hb Hne. apply lookup_insert_Some in Hb as [[<- <-]|[Hba Hb]]; [done|].
    destruct (H1 b y Hb Hne) as (z & Hz & Rz). exists z. split; [|done]. rewrite lookup_insert_ne; [done|]. intros ->. congruence.
  - intros b y Hb Sy. apply lookup_insert_Some in Hb as [[<- <-]|[Hba Hb]].
    + destruct (Hs Sy) as (_ & _ & Hne & g & p & ? & ? & ? & ?). by exists g, p.
    + destruct (H2 b y Hb Sy) as (g & p & ? & ? & ? & ? & ?). exists g, p. split_and!; auto.
  - intros b y c z Hb Hc Sy Sz Hbc f Hff. apply lookup_insert_Some in Hb as [[<- <-]|[Hba Hb]]; apply lookup_insert_Some in Hc as [[<- <-]|[Hca Hc]].
    + done.
    + split; intros ->; destruct (Hnew c z Hc Sz Sy (vt_get_fifo z)) as [? ?], (Hnew c z Hc Sz Sy (vt_put_fifo z)) as [? ?]; auto; naive_solver.
    + by apply (Hnew b y).
    + by apply (H3 b y c z).
  - by rewrite lookup_insert_ne.
Qed.

(** Fields that sessions do not depend on. *)
Lemma vinv_field s a x y :
  vt_inv s -> vts s !! a = Some x ->
  vt_partner y = vt_partner x -> vt_get_fifo y = vt_get_fifo x -> vt_put_fifo y = vt_put_fifo x -> vt_dma_size y = vt_dma_size x ->
  vt_inv (put_vt s a y).
Proof.
  intros [H1 H2 H3 H4] Hx E1 E2 E3 E4.
  assert (forall b z, <[a := y]> (vts s) !! b = Some z -> exists w, vts s !! b = Some w /\ vt_partner z = vt_partner w /\
    vt_get_fifo z = vt_get_fifo w /\ vt_put_fifo z = vt_put_fifo w /\ vt_isserver z = vt_isserver w) as Hback.
  { intros b z Hz. apply lookup_insert_Some in Hz as [[<- <-]|[_ Hz]]; [exists x; unfold vt_isserver; by rewrite E4|by exists z]. }
  assert (forall b w, vts s !! b = Some w -> exists z, <[a := y]> (vts s) !! b = Some z /\ vt_partner z = vt_partner w /\
    vt_get_fifo z = vt_get_fifo w /\ vt_put_fifo z = vt_put_fifo w /\ vt_isserver z = vt_isserver w) as Hforth.
  { intros b w Hw. destruct (decide (b = a)) as [->|Hn]; [|exists w; by rewrite lookup_insert_ne].
    exists y. rewrite lookup_insert_eq. rewrite Hx in Hw. injection Hw as <-. unfold vt_isserver. by rewrite E4. }
  constructor; simpl.
  - intros b z Hz Hne. destruct (Hback b z Hz) as (w & Hw & P1 & P2 & P3 & P4). rewrite P1, P2, P3, P4 in *.
    destruct (H1 b w Hw Hne) as (u & Hu & Q1 & Q2 & Q3 & Q4). destruct (Hforth _ u Hu) as (v & Hv & R1 & R2 & R3 & R4). exists v. by rewrite R1, R2, R3, R4.
  - intros b z Hz Sz. destruct (Hback b z Hz) as (w & Hw & P1 & P2 & P3 & P4). rewrite P2, P3. rewrite P4 in Sz. by apply (H2 b w).
  - intros b z c v Hz Hv Sz Sv Hbc. destruct (Hback b z Hz) as (w & Hw & _ & P2 & P3 & P4), (Hback c v Hv) as (u & Hu & _ & Q2 & Q3 & Q4).
    rewrite P2, P3, Q2, Q3. rewrite P4 in Sz. rewrite Q4 in Sv. by apply (H3 b w c u).
  - rewrite lookup_insert_ne; [done|]. intros ->. congruence.
Qed.

Lemma acquire_internal_frame s a r s' :
  vt_acquire_internal s a = Ok (r, s') ->
  r = a /\ (a = 0 /\ s' = s \/ a <> 0 /\ fifos s' = fifos s /\ exists xenc, vts s' = <[a := Vt 0 xenc xenc 1 0 0 0 0]> (vts s)).
Proof.
  unfold vt_acquire_internal. destruct (Z.eqb_spec a 0) as [->|Ha]; [intros [= <- <-]; auto|]. intros E.
  apply res_bind_ok in E as ([isrc m] & _ & E). unfold cassert in E. destruct (negb (isrc =? -1)); [|done]. injection E as <- <-.
  split; [done|]. right. split; [done|]. split; [done|]. by eexists.
Qed.

Lemma res_init_frame s thread os a s' :
  vt_res_init s thread os a = Ok s' -> exists x, vts s !! a = Some x /\ vts s' = <[a := set_vt_owner x os]> (vts s) /\ fifos s' = fifos s.
Proof.
  unfold vt_res_init. intros E. apply res_bind_ok in E as (x & Hx%get_vt_inv & E). apply res_bind_ok in E as ([? m] & _ & E).
  apply res_bind_ok in E as ([rc ?] & _ & E). unfold cassert in E. destruct (rc =? H_Success); [|done]. injection E as <-. by exists x.
Qed.

Section Runs.
Context (thinwire : bool) (hout : Z) (chan_write : Z -> list Z -> Z -> Z) (chan_read_noblock : Z -> Z -> Z * list Z).
Context (ctrl_os : Z) (oh : Z -> machine -> Z -> xh_ptr -> Z -> Z -> res (Z * Z * machine)) (os_lookup : Z -> res Z).
Context (l_to_r : Z -> logical_chunk_info -> Z -> Z -> res Z) (lm : memory).

Inductive vt_call :=
  | Put (os chan c : Z) (buf : list Z)
  | Get (os chan : Z)
  | Register_vterm (os ua lpid pua : Z)
  | Free_vterm (os ua : Z)
  | Partner_info (fuel : nat) (os ua plpid pua lba : Z)
  | Acquire (thread os dma_range a p : Z)
  | Release (os liobn : Z)
  | Invalidate (os liobn : Z).

Definition vt_exec (s : vterm) (c : vt_call) : res vterm :=
  match c with
  | Put os chan c buf => let! (_, s) := h_put_term_char thinwire hout chan_write ctrl_os oh s os chan c buf in Ok s
  | Get os chan => let! (_, _, _, s) := vt_char_get thinwire chan_read_noblock ctrl_os oh s os chan in Ok s
  | Register_vterm os ua lpid pua => let! (_, s) := vts_register os_lookup s os ua lpid pua in Ok s
  | Free_vterm os ua => let! (_, s) := vts_free ctrl_os s os ua in Ok s
  | Partner_info fuel os ua plpid pua lba => let! (_, s) := vts_partner_info l_to_r lm fuel s os ua plpid pua lba in Ok s
  | Acquire thread os dma a p => let! (_, _, s) := vt_acquire oh s thread os dma a p in Ok s
  | Release os liobn => let! (_, s) := vt_release oh s os liobn in Ok s
  | Invalidate os liobn => let! (_, s) := vt_invalidate s os liobn in Ok s
  end.

(** Sixteen characters are there; a session is freed from its server's end; memory for new
    terminals and buffers is not in use. *)
Definition vt_ok (s : vterm) (c : vt_call) : Prop :=
  match c with
  | Put _ _ c buf => 0 <= c /\ (16 <= length buf)%nat
  | Free_vterm os ua => forall a x, vt_get s ua = Ok a -> vts s !! a = Some x -> vt_isserver x = true
  | Acquire _ _ _ a p => vts s !! a = None /\ fifos s !! p = None /\ fifos s !! (p + PGSIZE / 2) = None
  | _ => True
  end.

Inductive vt_run : vterm -> vterm -> Prop :=
  | vrun_nil s : vt_run s s
  | vrun_call s c s1 s2 : vt_ok s c -> vt_exec s c = Ok s1 -> vt_run s1 s2 -> vt_run s s2
  | vrun_other s m irq s2 : vt_run (set_virq (set_vpm s m) irq) s2 -> vt_run s s2.

Lemma acquire_step s thread os dma a p r s' :
  vt_inv s -> vt_ok s (Acquire thread os dma a p) -> vt_acquire oh s thread os dma a p = Ok (r, s') -> vt_inv s'.
Proof.
  intros Hi (Ha & Hp & Hp2) E. unfold vt_acquire in E. destruct (dma =? 0).
  - unfold vtc_acquire in E. apply res_bind_ok in E as ([vtc s1] & E1 & E). apply acquire_internal_frame in E1 as (-> & [[-> ->]|(Ha0 & Ef & xenc & Ev)]).
    { apply res_bind_ok in E as ([? s2] & E2 & _). unfold vt_release_internal, get_vt in E2. by rewrite Ha in E2. }
    destruct (Z.eqb_spec a 0); [done|]. apply res_bind_ok in E as (s2 & E2 & E). apply res_init_frame in E2 as (x & Hx & Ev2 & Ef2).
    rewrite Ev, lookup_insert_eq in Hx. injection Hx as <-. apply res_bind_ok in E as (y & Hy%get_vt_inv & E).
    rewrite Ev2, lookup_insert_eq in Hy. injection Hy as <-. apply res_bind_ok in E as (h & _ & E). injection E as <- <-.
    apply (vinv_new s _ a (set_dma_size (set_vt_owner (Vt 0 xenc xenc 1 0 0 0 0) os) 0)); try done; simpl;
      [by rewrite Ev2, Ev, !insert_insert_eq|by rewrite Ef2, Ef].
  - unfold vts_acquire in E. apply res_bind_ok in E as ([v s1] & E1 & E). apply acquire_internal_frame in E1 as (-> & [[-> ->]|(Ha0 & Ef & xenc & Ev)]).
    { simpl in E. apply res_bind_ok in E as ([? s2] & E2 & _). unfold vt_release_internal, get_vt in E2. by rewrite Ha in E2. }
    destruct (Z.eqb_spec a 0); [done|]. unfold vtf_alloc in E. destruct (Z.eqb_spec p PAGE_ALLOC_ERROR) as [|Hpe].
    { simpl in E. apply res_bind_ok in E as ([? s2] & E2 & E). injection E as <- <-.
      eapply (vt_release_step oh s1); [|by rewrite Ev, lookup_insert_eq|exact E2].
      apply (vinv_new s _ a (Vt 0 xenc xenc 1 0 0 0 0)); try done. by rewrite Ef. }
    change (0 <? PGSIZE) with true in E. cbv iota in E. set (f := VtFifo 0 0 _ 0 0 _) in E.
    apply res_bind_ok in E as (x & Hx%get_vt_inv & E). apply res_bind_ok in E as (s2 & E2 & E). apply res_bind_ok in E as (y & _ & E). injection E as <- <-.
    apply res_init_frame in E2 as (z & Hz & Ev2 & Ef2). cbn [vts put_vt put_fifo set_fifos fifos] in *.
    rewrite Ev, lookup_insert_eq in Hx. injection Hx as <-. rewrite lookup_insert_eq in Hz. injection Hz as <-.
    assert (vtf_wf f) as Hf by (constructor; unfold f; cbn [vtf_sz vtf_b vtf_r vtf_w vtf_reap]; rewrite ?repeat_length; vm_compute; done).
    assert (p <> p + PGSIZE / 2) by (change (PGSIZE / 2) with 2048; lia).
    apply (vinv_new s _ a (set_vt_owner (set_dma_size (set_link (Vt 0 xenc xenc 1 0 0 0 0) 0 p (p + PGSIZE / 2)) PGSIZE) os)); try done.
    + by rewrite Ev2, Ev, !insert_insert_eq.
    + intros k g Hg. rewrite Ef2, Ef, !lookup_insert_ne; [done|congruence..].
    + intros _. cbn [set_vt_owner set_dma_size set_link vt_get_fifo vt_put_fifo]. split_and!; try done. exists f, f.
      rewrite Ef2. rewrite (lookup_insert_ne _ (p + PGSIZE / 2) p) by done. by rewrite !lookup_insert_eq.
Qed.

Lemma paired_fifos s a x :
  vt_inv s -> vts s !! a = Some x -> vt_partner x <> 0 ->
  exists g p, fifos s !! vt_get_fifo x = Some g /\ vtf_wf g /\ fifos s !! vt_put_fifo x = Some p /\ vtf_wf p /\ vt_get_fifo x <> vt_put_fifo x.
Proof.
  intros Hi Hx Hp. destruct (vt_isserver x) eqn:Sx; [by apply (vv_server s Hi a x)|].
  destruct (vv_pair s Hi a x Hx Hp) as (y & Hy & _ & Eg & Ep & Sy). rewrite Sx in Sy.
  destruct (vv_server s Hi _ y Hy Sy) as (g & p & ? & ? & ? & ? & ?). exists p, g. rewrite <- Eg, <- Ep. split_and!; congruence.
Qed.

Lemma put_step s os chan c buf r s' :
  vt_inv s -> 0 <= c -> (16 <= length buf)%nat -> h_put_term_char thinwire hout chan_write ctrl_os oh s os chan c buf = Ok (r, s') -> vt_inv s'.
Proof.
  intros Hi Hc Hb E. unfold h_put_term_char in E. destruct (Z.ltb_spec 16 c); [by injection E as <- <-|].
  unfold vt_char_put in E. apply res_bind_ok in E as (ch & _ & E). destruct ch as [ch|ch].
  { apply res_bind_ok in E as (? & _ & E). by injection E as <- <-. }
  apply res_bind_ok in E as (a & _ & E). destruct (a =? 0); [by injection E as <- <-|]. apply res_bind_ok in E as (x & Hx%get_vt_inv & E).
  destruct (negb _); [by injection E as <- <-|]. destruct (Z.eqb_spec (vt_partner x) 0); [by injection E as <- <-|].
  apply res_bind_ok in E as (f & Hf%get_fifo_inv & E). destruct (paired_fifos s a x Hi Hx) as (g & p & _ & _ & Hp & Wp & _); [done|].
  rewrite Hp in Hf. injection Hf as <-. destruct (vtf_write_spec p c buf Wp) as (f' & E' & Wf' & _); [lia|]. rewrite E' in E. cbn [res_bind] in E.
  destruct (_ =? 0); [injection E as <- <-; by apply (vinv_fifo s _ p)|]. apply res_bind_ok in E as (q & _ & E).
  apply res_bind_ok in E as (s2 & (Ev & Ef & _)%raise_frame & E). injection E as <- <-. eapply vinv_same; [by apply (vinv_fifo s _ p _ Hi Hp Wf')|done..].
Qed.

Lemma get_step s os chan r n data s' :
  vt_inv s -> vt_char_get thinwire chan_read_noblock ctrl_os oh s os chan = Ok (r, n, data, s') -> vt_inv s'.
Proof.
  intros Hi E. unfold vt_char_get in E. apply res_bind_ok in E as (ch & _ & E). destruct ch as [ch|ch].
  { apply res_bind_ok in E as ([[? ?] ?] & _ & E). by injection E as <- <- <- <-. }
  apply res_bind_ok in E as (a & _ & E). destruct (a =? 0); [by injection E as <- <- <- <-|]. apply res_bind_ok in E as (x & Hx%get_vt_inv & E).
  destruct (negb _); [by injection E as <- <- <- <-|]. destruct (Z.eqb_spec (vt_partner x) 0); [by injection E as <- <- <- <-|].
  apply res_bind_ok in E as (f & Hf%get_fifo_inv & E). destruct (paired_fifos s a x Hi Hx) as (g & p & Hg & Wg & _); [done|].
  rewrite Hg in Hf. injection Hf as <-. destruct (vtf_read_spec g Wg) as (f' & E' & Wf' & _). rewrite E' in E. cbn [res_bind] in E.
  apply res_bind_ok in E as (s2 & E2 & E). injection E as <- <- <- <-.
  assert (vts s2 = vts s /\ fifos s2 = <[vt_get_fifo x := f']> (fifos s)) as [Ev Ef].
  { destruct (_ && _); [|by injection E2 as <-]. apply res_bind_ok in E2 as (q & _ & E2). apply raise_frame in E2 as (-> & -> & _). done. }
  eapply vinv_same; [by apply (vinv_fifo s _ g _ Hi Hg Wf')|done..].
Qed.

Lemma register_step s os ua lpid pua r s' : vt_inv s -> vts_register os_lookup s os ua lpid pua = Ok (r, s') -> vt_inv s'.
Proof.
  intros Hi E. unfold vts_register in E. apply res_bind_ok in E as (a & _ & E). destruct (Z.eqb_spec a 0); [by injection E as <- <-|].
  apply res_bind_ok in E as (x & Hx%get_vt_inv & E). destruct (negb _); [by injection E as <- <-|].
  apply res_bind_ok in E as (pos & _ & E). destruct (pos =? 0); [by injection E as <- <-|].
  destruct (vt_isserver x) eqn:Sx; cbn [negb] in E; [|by injection E as <- <-].
  apply res_bind_ok in E as (b & _ & E). destruct (Z.eqb_spec b 0); [by injection E as <- <-|].
  apply res_bind_ok in E as (p & Hp%get_vt_inv & E). destruct (negb _); [by injection E as <- <-|].
  destruct (vt_isserver p) eqn:Sp; [by injection E as <- <-|]. destruct (vt_valid x =? 0); [by injection E as <- <-|].
  destruct (Z.eqb_spec (vt_partner x) 0) as [Px|]; [|by injection E as <- <-].
  destruct (Z.eqb_spec (vt_partner p) 0) as [Pp|].
  - apply res_bind_ok in E as (h & _ & E). injection E as <- <-. eapply vinv_same; [by apply (vinv_join s a b x p)|done..].
  - injection E as <- <-. assert (set_link x 0 (vt_get_fifo x) (vt_put_fifo x) = x) as -> by (destruct x; simpl in *; by subst).
    apply (vinv_same s); [done| |done]. simpl. rewrite insert_insert_eq. by rewrite insert_id.
Qed.

Lemma partner_info_frame fuel s os ua plpid pua lba r s' :
  vts_partner_info l_to_r lm fuel s os ua plpid pua lba = Ok (r, s') -> vts s' = vts s /\ fifos s' = fifos s.
Proof.
  unfold vts_partner_info. intros E. destruct (ua <? _); [by injection E as <- <-|]. apply res_bind_ok in E as (a & _ & E).
  destruct (a =? 0); [by injection E as <- <-|]. apply res_bind_ok in E as (x & _ & E). destruct (negb (vt_isserver x)); [by injection E as <- <-|].
  destruct (truth _); [by injection E as <- <-|]. apply res_bind_ok in E as (pba & _ & E). destruct (pba =? _); [by injection E as <- <-|].
  apply res_bind_ok in E as (curr & _ & E). apply res_bind_ok in E as (c & _ & E). destruct c as [c|]; [|by injection E as <- <-].
  apply res_bind_ok in E as (b & _ & E). apply res_bind_ok in E as (pba' & _ & E). destruct (pba' =? _); by injection E as <- <-.
Qed.

Lemma vt_step s c s' : vt_inv s -> vt_ok s c -> vt_exec s c = Ok s' -> vt_inv s'.
Proof.
  intros Hi Hok E. destruct c as [os chan c buf|os chan|os ua lpid pua|os ua|fuel os ua plpid pua lba|thread os dma a p|os liobn|os liobn]; cbn [vt_exec] in E.
  - apply res_bind_ok in E as ([r s1] & E1 & E). injection E as <-. destruct Hok. by apply (put_step s os chan c buf r).
  - apply res_bind_ok in E as ([[[r n] d] s1] & E1 & E). injection E as <-. by apply (get_step s os chan r n d).
  - apply res_bind_ok in E as ([r s1] & E1 & E). injection E as <-. by apply (register_step s os ua lpid pua r).
  - apply res_bind_ok in E as ([r s1] & E1 & E). injection E as <-. unfold vts_free in E1.
    destruct (negb _); [by injection E1 as <- <-|]. destruct (ua <? _); [by injection E1 as <- <-|]. apply res_bind_ok in E1 as (a & Ha & E1).
    destruct (a =? 0); [by injection E1 as <- <-|]. destruct (vts s !! a) as [x|] eqn:Hx; [|unfold vts_free_internal, get_vt in E1; by rewrite Hx in E1].
    destruct (vts_free_effect s a x r s1 Hi Hx (Hok a x Ha Hx) E1) as (H1 & H2 & _ & H3 & _). by apply (vinv_cut s s1 a x).
  - apply res_bind_ok in E as ([r s1] & E1 & E). injection E as <-. apply partner_info_frame in E1 as [? ?]. by apply (vinv_same s).
  - apply res_bind_ok in E as ([[r v] s1] & E1 & E). injection E as <-. by apply (acquire_step s thread os dma a p (r, v)).
  - apply res_bind_ok in E as ([r s1] & E1 & E). injection E as <-. unfold vt_release in E1. apply res_bind_ok in E1 as (a & _ & E1).
    destruct (a =? 0); [by injection E1 as <- <-|]. apply res_bind_ok in E1 as (x & Hx%get_vt_inv & E1). destruct (negb _); [by injection E1 as <- <-|].
    apply res_bind_ok in E1 as ([r2 s2] & E2 & E1). injection E1 as <- <-. by apply (vt_release_step oh s a x r2).
  - apply res_bind_ok in E as ([r s1] & E1 & E). injection E as <-. unfold vt_invalidate in E1. apply res_bind_ok in E1 as (a & _ & E1).
    destruct (a =? 0); [by injection E1 as <- <-|]. apply res_bind_ok in E1 as (x & Hx%get_vt_inv & E1). injection E1 as <- <-.
    destruct (os =? _); [|done]. by apply (vinv_field s a x).
Qed.

(** C34: through any run of the calls on terminals, with interrupts and memory changing in
    between, as long as [h_free_vterm] is only called on the server's end of a session: the two ends of a
    session name each other, one is a server and one a client, one reads from the buffer
    the other writes to, and no third terminal writes there.  Freed from the client's end a session loses its server's
    buffers ([free_client_traps]). *)
Theorem vterm_sessions s s' a x :
  vt_inv s -> vt_run s s' -> vts s' !! a = Some x -> vt_partner x <> 0 ->
  exists y, vts s' !! vt_partner x = Some y /\ vt_partner y = a /\ vt_get_fifo y = vt_put_fifo x /\ vt_put_fifo y = vt_get_fifo x /\
    vt_isserver y = negb (vt_isserver x) /\ (exists f, fifos s' !! vt_put_fifo x = Some f /\ vtf_wf f) /\
    forall b z, vts s' !! b = Some z -> vt_partner z <> 0 -> vt_put_fifo z = vt_put_fifo x -> b = a.
Proof.
  intros Hi Hr Hx Hp. assert (vt_inv s') as Hi'.
  { clear Hx Hp. induction Hr as [s|s c s1 s2 Hok E Hr IH|s m irq s2 Hr IH]; [done|apply IH; by apply (vt_step s c)|apply IH; by apply (vinv_same s)]. }
  destruct (vv_pair s' Hi' a x Hx Hp) as (y & Hy & Py & Gy & Wy & Sy). exists y. split_and!; try done.
  - destruct (paired_fifos s' a x Hi' Hx Hp) as (_ & f & _ & _ & ? & ? & _). by exists f.
  - intros b z Hz Pz Ez. destruct (decide (b = a)) as [|Hba]; [done|exfalso].
    destruct (vv_pair s' Hi' b z Hz Pz) as (w & Hw & Pw & Gw & Ww & Sw).
    destruct (paired_fifos s' a x Hi' Hx Hp) as (_ & _ & _ & _ & _ & _ & Hne). destruct (vt_isserver x) eqn:Sx, (vt_isserver z) eqn:Sz; simpl in *.
    + destruct (vv_apart s' Hi' b z a x Hz Hx Sz Sx Hba (vt_put_fifo z)) as [_ ?]; auto.
    + assert (vt_partner z <> a) by (intros E; rewrite E, Hx in Hw; injection Hw as <-; congruence).
      destruct (vv_apart s' Hi' _ w a x Hw Hx Sw Sx ltac:(done) (vt_get_fifo w)) as [_ ?]; [auto|]. congruence.
    + assert (vt_partner x <> b) by (intros E; rewrite E, Hz in Hy; injection Hy as <-; congruence).
      destruct (vv_apart s' Hi' _ y b z Hy Hz Sy Sz ltac:(done) (vt_get_fifo y)) as [_ ?]; [auto|]. congruence.
    + assert (vt_partner x <> vt_partner z) by (intros E; congruence).
      destruct (vv_apart s' Hi' _ y _ w Hy Hw Sy Sw ltac:(done) (vt_get_fifo y)) as [? _]; [auto|]. congruence.
Qed.

(** What a terminal of the caller gives for its channel. *)
Lemma channel_vterm s os chan : CHANNELS_PER_OS <= chan -> channel_of ctrl_os s os chan = Ok (inr chan).
Proof.
  intros H. unfold channel_of, CHANNELS_PER_OS in *. destruct (Z.ltb_spec chan 8); [lia|]. rewrite andb_false_r. destruct (Z.ltb_spec chan 2); [lia|done].
Qed.

(** C35: what one end of a session puts, the other end gets: with room in the buffer a put
    succeeds, and a get at the other end gives the characters that were waiting followed by
    the new ones, 16 at a time, and leaves the rest. *)
Theorem vterm_delivers s ua pua a b x y f c buf stack d cl xh :
  vt_inv s -> xir_inv (virq s) -> CHANNELS_PER_OS <= ua -> CHANNELS_PER_OS <= pua ->
  vt_get s ua = Ok a -> vts s !! a = Some x -> vt_get s pua = Ok b -> vts s !! b = Some y -> vt_partner x = b ->
  vt_interrupt y = xirr_encode d cl -> line (virq s) cl d = Some xh ->
  fifos s !! vt_put_fifo x = Some f -> 0 < c <= 16 -> (16 <= length buf)%nat -> Z.of_nat (length (vtf_bytes f)) + c < vtf_sz f ->
  let data := take 16 (vtf_bytes f ++ take (Z.to_nat c) buf) in
  exists s1 s2 f2,
    h_put_term_char thinwire hout chan_write ctrl_os oh s (vt_owner x) ua c buf = Ok (H_Success, s1) /\
    h_get_term_char thinwire chan_read_noblock ctrl_os oh s1 (vt_owner y) pua stack =
      Ok (H_Success, Some (Z.of_nat (length data)), data ++ drop (length data) stack, s2) /\
    fifos s2 !! vt_put_fifo x = Some f2 /\ vtf_bytes f2 = drop 16 (vtf_bytes f ++ take (Z.to_nat c) buf).
Proof.
  intros Hi Hm Hua Hpua Ga Hx Gb Hy Hp Ei Hl Hf Hc Hb Hroom data.
  assert (a <> 0 /\ b <> 0) as [Ha0 Hb0] by (split; intros ->; [rewrite (vv_null s Hi) in Hx|rewrite (vv_null s Hi) in Hy]; done).
  destruct (paired_fifos s a x Hi Hx) as (_ & f0 & _ & _ & Hf0 & Wf & _); [congruence|]. rewrite Hf in Hf0. injection Hf0 as <-.
  destruct (vv_pair s Hi a x Hx) as (y' & Hy' & Py & Gy & _); [congruence|]. rewrite Hp, Hy in Hy'. injection Hy' as <-.
  pose proof (length_bytes f Wf) as Hlen. destruct (vtf_write_spec f c buf Wf) as (f1 & E1 & Wf1 & _ & Eb1 & Ef1); [lia|].
  destruct (Z.ltb_spec c (vtf_sz f - vtf_len f)); [|lia]. destruct (raise_devices oh (virq s) cl d xh Hm Hl) as (r & thr & m1 & Er & _ & Hdev).
  destruct (vtf_read_spec f1 Wf1) as (f2 & E2 & _ & _ & Eb2). rewrite Eb1 in E2, Eb2.
  set (s1 := set_virq (put_fifo s (vt_put_fifo x) f1) m1). exists s1, (put_fifo s1 (vt_put_fifo x) f2), f2. split_and!.
  - unfold h_put_term_char, vt_char_put. destruct (Z.ltb_spec 16 c); [lia|]. rewrite channel_vterm by done. cbn [res_bind]. rewrite Ga. cbn [res_bind].
    destruct (Z.eqb_spec a 0); [done|]. unfold get_vt, get_fifo. rewrite Hx. cbn [of_option res_bind]. unfold vt_getos. rewrite Z.eqb_refl. cbn [negb].
    rewrite Hp. destruct (Z.eqb_spec b 0); [done|]. rewrite Hf. cbn [of_option res_bind]. rewrite E1. cbn [res_bind]. destruct (Z.eqb_spec c 0); [lia|].
    cbn [vts put_fifo set_fifos]. rewrite Hy. cbn [of_option res_bind]. unfold raise. cbn [virq put_fifo set_fifos]. by rewrite Ei, Er.
  - unfold h_get_term_char, vt_char_get. rewrite channel_vterm by done. cbn [res_bind].
    assert (vt_get s1 pua = Ok b) as -> by (unfold vt_get, s1; cbn [virq set_virq]; by rewrite Hdev). cbn [res_bind].
    destruct (Z.eqb_spec b 0); [done|]. unfold get_vt, get_fifo, s1 at 1. cbn [vts set_virq put_fifo set_fifos]. rewrite Hy. cbn [of_option res_bind].
    unfold vt_getos. rewrite Z.eqb_refl. cbn [negb]. rewrite Py. destruct (Z.eqb_spec a 0); [done|]. rewrite Gy. unfold s1 at 1. cbn [fifos set_virq put_fifo set_fifos].
    rewrite lookup_insert_eq. cbn [of_option res_bind]. rewrite E2. cbn [res_bind]. rewrite Ef1. cbn [b2z negb truth Z.eqb]. rewrite andb_false_r. cbn [res_bind].
    by rewrite Z.eqb_refl.
  - cbn [fifos put_fifo set_fifos]. by rewrite lookup_insert_eq.
  - done.
Qed.
End Runs.

(** ** Witnesses: a server of partition 1 at 0x10000 and a client of partition 2 at 0x20000 *)
Definition no_write (_ : Z) (_ : list Z) (n : Z) : Z := n.
Definition no_read (_ _ : Z) : Z * list Z := (0, []).
Definition demo_lookup (lpid : Z) : res Z := Ok (if lpid =? 1001 then 1 else if lpid =? 1002 then 2 else 0).

Definition line_a : xh_data := XhData 1 (Some Xir_raise_fn) 0x10000 24.
Definition line_b : xh_data := XhData 1 (Some Xir_raise_fn) 0x20000 24.
Definition demo_irq4 : machine := upd (upd (Xir.demo 24) 1 0 line_a) 1 1 line_b.

Lemma demo_not_queued m c d xh thr x : threads m = threads (Xir.demo 24) -> ~ queued (upd m c d xh) thr x.
Proof.
  intros E (t & Ht & Hin). simpl in Ht. rewrite E in Ht. simpl in Ht. apply lookup_singleton_Some in Ht as [<- <-].
  change (xq_contents (xirq demo_thread)) with (@nil Z) in Hin. by apply elem_of_nil in Hin.
Qed.

Lemma demo_irq4_inv : xir_inv demo_irq4.
Proof.
  assert (forall m f, is_Some (threads m !! 1) -> unlocked (XhData 1 (Some Xir_raise_fn) f 24) /\ handler_ok m (XhData 1 (Some Xir_raise_fn) f 24)) as Hok.
  { intros m f Ht. split; [split; simpl; [unfold is_u32; lia|done]|]. by right. }
  assert (is_Some (threads (Xir.demo 24) !! 1)) as H1 by (by eexists).
  unfold demo_irq4. apply (inv_upd _ 1 1 (XhData 0 None 0 0)); [|vm_compute; reflexivity|apply (Hok (Xir.demo 24)); done|apply Hok; exact H1|].
  - apply (inv_upd _ 1 0 (demo_line 24)); [apply demo_inv|vm_compute; reflexivity|apply (Hok (Xir.demo 24)); done|apply Hok; exact H1|].
    intros thr _ Hq. exfalso. apply (demo_not_queued (Xir.demo 24) 1 0 (demo_line 24) thr (xirr_encode 0 1) eq_refl).
    by rewrite upd_id by (vm_compute; reflexivity).
  - intros thr _ Hq. by destruct (demo_not_queued (Xir.demo 24) 1 0 line_a thr (xirr_encode 1 1) eq_refl).
Qed.

Definition demo_fifo : vt_fifo := VtFifo 0 0 2036 0 0 (repeat 0 2036).
Definition demo_server : vt := Vt 1 (xirr_encode 0 1) (xirr_encode 0 1) 1 4096 0x20000 0x30000 0x30800.
Definition demo_client : vt := Vt 2 (xirr_encode 1 1) (xirr_encode 1 1) 1 0 0x10000 0x30800 0x30000.
Definition demo_node : gmap Z Z := list_to_map [(1, 1); (0x10000, 0x10000); (0x20000, 0x20000)].
Definition demo_vterm : vterm :=
  Vterm (list_to_map [(0x10000, demo_server); (0x20000, demo_client)]) (list_to_map [(0x30000, demo_fifo); (0x30800, demo_fifo)])
    (DHeap demo_node demo_node) (list_to_map [(1, VOs 1001 [0; 0] (repeat 0 8)); (2, VOs 1002 [0; 0] (repeat 0 8))])
    (fun _ => 0) demo_irq4 (PgAlloc (Lbm 64 [2 ^ 64 - 2 ^ 6]) 16 12).

Lemma demo_fifo_wf : vtf_wf demo_fifo.
Proof. constructor; vm_compute; (reflexivity || split; discriminate || reflexivity). Qed.

Lemma demo_vterm_inv : vt_inv demo_vterm.
Proof.
  assert (forall a x, vts demo_vterm !! a = Some x -> a = 0x10000 /\ x = demo_server \/ a = 0x20000 /\ x = demo_client) as Hc.
  { intros a x Hx. cbn [vts demo_vterm] in Hx. apply elem_of_list_to_map_2 in Hx.
    apply elem_of_cons in Hx as [[= -> ->]|Hx]; [by left|]. apply elem_of_cons in Hx as [[= -> ->]|Hx]; [by right|]. by apply elem_of_nil in Hx. }
  constructor.
  - intros a x Hx _. destruct (Hc a x Hx) as [[-> ->]|[-> ->]]; [exists demo_client|exists demo_server]; vm_compute; repeat split; reflexivity.
  - intros a x Hx Sx. destruct (Hc a x Hx) as [[-> ->]|[-> ->]]; [|done]. exists demo_fifo, demo_fifo.
    split; [reflexivity|]. split; [apply demo_fifo_wf|]. split; [reflexivity|]. split; [apply demo_fifo_wf|done].
  - intros a x b y Hx Hy Sx Sy Hab. destruct (Hc a x Hx) as [[-> ->]|[-> ->]], (Hc b y Hy) as [[-> ->]|[-> ->]]; done.
  - reflexivity.
Qed.

Lemma vterm_delivers_witness :
  exists s1 s2 f2,
    h_put_term_char false 0 no_write 9 no_handler demo_vterm 1 (xirr_encode 0 1) 3 [104; 105; 33; 0; 0; 0; 0; 0; 0; 0; 0; 0; 0; 0; 0; 0] = Ok (H_Success, s1) /\
    h_get_term_char false no_read 9 no_handler s1 2 (xirr_encode 1 1) (repeat 7 16) =
      Ok (H_Success, Some 3, [104; 105; 33] ++ repeat 7 13, s2) /\
    fifos s2 !! 0x30800 = Some f2 /\ vtf_bytes f2 = [].
Proof.
  refine (vterm_delivers false 0 no_write no_read 9 no_handler demo_vterm (xirr_encode 0 1) (xirr_encode 1 1) 0x10000 0x20000 demo_server demo_client demo_fifo 3
    [104; 105; 33; 0; 0; 0; 0; 0; 0; 0; 0; 0; 0; 0; 0; 0] (repeat 7 16) 1 1 line_b demo_vterm_inv demo_irq4_inv _ _ _ _ _ _ _ _ _ _ _ _ _);
    vm_compute; (reflexivity || discriminate || (split; discriminate || reflexivity) || lia).
Defined.

(** Before: no terminals; the client is made, then the server, which registers it. *)
Definition free_lines : machine :=
  Machine (repeat (XirrClass None None) 4 ++ XirrClass (Some (repeat (XhData 0 None 0 0) 256)) None :: repeat (XirrClass None None) 10)
    {[1 := demo_thread; 2 := demo_thread]} {[1 := Cpu 7 0]}.
Definition empty_vterm : vterm :=
  Vterm ∅ ∅ (DHeap {[1 := 1]} {[1 := 1]}) (voss demo_vterm) (fun _ => 0) free_lines (vpool demo_vterm).
Definition exec := vt_exec false 0 no_write no_read 9 no_handler demo_lookup no_l_to_r Logical.demo.
Definition make_client : vt_call := Acquire 2 2 0 0x20000 0.
Definition make_server : vt_call := Acquire 1 1 4096 0x10000 0x30000.
Definition pair : vt_call := Register_vterm 1 (xirr_encode 1 4) 1002 (xirr_encode 0 4).
Definition demo_session : res vterm :=
  let! s := exec empty_vterm make_client in
  let! s := exec s make_server in exec s pair.

Example demo_session_paired :
  match demo_session with
  | Ok s => vt_partner <$> vts s !! 0x10000 = Some 0x20000 /\ vt_put_fifo <$> vts s !! 0x20000 = Some 0x30000
  | Fault _ => False
  end.
Proof. vm_compute. split; reflexivity. Qed.

Example demo_session_fresh :
  match exec empty_vterm make_client with
  | Ok s => vts s !! 0x10000 = None /\ fifos s !! 0x30000 = None /\ fifos s !! (0x30000 + PGSIZE / 2) = None
  | Fault _ => False
  end.
Proof. vm_compute. repeat split; reflexivity. Qed.

Lemma vterm_sessions_witness :
  exists s x, vt_run false 0 no_write no_read 9 no_handler demo_lookup no_l_to_r Logical.demo empty_vterm s /\
    vts s !! 0x10000 = Some x /\ vt_partner x = 0x20000 /\
    exists y, vts s !! vt_partner x = Some y /\ vt_partner y = 0x10000 /\ vt_get_fifo y = vt_put_fifo x /\ vt_put_fifo y = vt_get_fifo x /\
      vt_isserver y = negb (vt_isserver x) /\ (exists f, fifos s !! vt_put_fifo x = Some f /\ vtf_wf f) /\
      forall b z, vts s !! b = Some z -> vt_partner z <> 0 -> vt_put_fifo z = vt_put_fifo x -> b = 0x10000.
Proof.
  destruct (is_ok_inv demo_session) as [s E]; [vm_compute; reflexivity|]. pose proof demo_session_paired as Hp. rewrite E in Hp. destruct Hp as [Hp _].
  destruct (vts s !! 0x10000) as [x|] eqn:Hx; [|done]. injection Hp as Hp. exists s, x.
  assert (vt_run false 0 no_write no_read 9 no_handler demo_lookup no_l_to_r Logical.demo empty_vterm s) as Hrun.
  { pose proof demo_session_fresh as Hf. unfold demo_session in E. apply res_bind_ok in E as (s1 & E1 & E). apply res_bind_ok in E as (s2 & E2 & E3). rewrite E1 in Hf.
    eapply (vrun_call _ _ _ _ _ _ _ _ _ _ make_client); [done|exact E1|]. eapply (vrun_call _ _ _ _ _ _ _ _ _ _ make_server); [exact Hf|exact E2|].
    eapply (vrun_call _ _ _ _ _ _ _ _ _ _ pair); [exact I|exact E3|apply vrun_nil]. }
  split; [done|]. split; [done|]. split; [done|].
  apply (vterm_sessions false 0 no_write no_read 9 no_handler demo_lookup no_l_to_r Logical.demo empty_vterm); [|done|done|congruence].
  constructor; try done; intros a y Hy; by rewrite lookup_empty in Hy.
Defined.

(** ** Where the code does not do what it means to *)

(** The clients on the list, as [vts_partner_info] walks it. *)
Fixpoint listed (fuel : nat) (h : dheap) (p : Z) : list Z :=
  match fuel with
  | O => []
  | S fuel =>
      match dl_next h !! p with
      | Some n => if n =? vu_dlist then [] else n :: listed fuel h n
      | None => []
      end
  end.
Definition clients (s : vterm) : list Z := listed 10 (vlist s) vu_dlist.

Definition three_clients : res vterm :=
  let! s := exec empty_vterm make_client in
  let! s := exec s (Acquire 2 2 0 0x21000 0) in
  let! s := exec s (Acquire 2 2 0 0x22000 0) in
  exec s make_server.

(** A client comes back on the list with the pointers it had when it left: freeing its
    session takes the clients that were behind it off the list, and does not put it on. *)
Example freed_session_loses_clients :
  match (let! s := three_clients in
         let! s1 := exec s (Register_vterm 1 (xirr_encode 3 4) 1002 (xirr_encode 1 4)) in
         let! s2 := exec s1 (Free_vterm 9 (xirr_encode 3 4)) in Ok (clients s, clients s1, clients s2)) with
  | Ok (l, l1, l2) => l = [0x20000; 0x21000; 0x22000] /\ l1 = [0x20000; 0x22000] /\ l2 = [0x20000]
  | Fault _ => False
  end.
Proof. vm_compute. repeat split; reflexivity. Qed.

(** A client that is released while it waits stays on the list, in memory that was freed. *)
Example released_client_listed :
  match (let! s := three_clients in
         let! s := exec s (Release 2 (xirr_encode 0 4)) in
         Ok (vts s !! 0x20000, clients s, exec s (Partner_info 10 1 (xirr_encode 3 4) ONES64 ONES64 0x3000))) with
  | Ok (v, l, r) => v = None /\ l = [0x20000] /\ r = Fault Null_deref
  | Fault _ => False
  end.
Proof. vm_compute. repeat split; reflexivity. Qed.

(** [h_free_vterm] does not ask for a server: on a client without partner it follows a null
    pointer; on one in a session it takes the buffers away from the server, whose release
    then follows null pointers. *)
Example free_client_traps :
  (let! s := three_clients in exec s (Free_vterm 9 (xirr_encode 0 4))) = Fault Null_deref /\
  (let! s := demo_session in let! s := exec s (Free_vterm 9 (xirr_encode 0 4)) in exec s (Release 1 (xirr_encode 1 4))) = Fault Null_deref.
Proof. vm_compute. split; reflexivity. Qed.

(** Any partition that knows the address of a server can list the clients. *)
Example partner_info_not_checked :
  is_ok (let! s := three_clients in exec s (Partner_info 10 2 (xirr_encode 3 4) ONES64 ONES64 0x3000)) = true.
Proof. vm_compute. reflexivity. Qed.

(** No characters at all are reported as a full buffer. *)
Example empty_put_busy :
  match h_put_term_char false 0 no_write 9 no_handler demo_vterm 1 (xirr_encode 0 1) 0 (repeat 0 16) with
  | Ok (r, _) => r = H_Busy
  | Fault _ => False
  end.
Proof. vm_compute. reflexivity. Qed.

(** Failing to allocate a terminal releases the null pointer. *)
Example acquire_without_memory : exec empty_vterm (Acquire 1 1 4096 0 0x30000) = Fault Null_deref.
Proof. vm_compute. reflexivity. Qed.
