(* ===== verification/Vio.v ===== *)
(** * Vio: virtual I/O

    [hype/vio.c], [hype/vio.h], [hype/liob.c], [hype/io_xlate.c] and the hypervisor calls
    [h_vio_ctl], [h_vio_signal], [h_put_tce], [h_stuff_tce], [h_get_tce].  Every kind of
    virtual adapter registers its operations ([struct vios]) under its class, and a
    call on an identifier goes to the operations of the identifier's class.  The adapters
    are components of their own; here they are records of operations on a state of
    type [W] in which the interrupt lines are found. *)

From S2P Require Import Prelude Hcall Xirr Xir.

Definition HVIO_ACQUIRE : Z := 1.
Definition HVIO_RELEASE : Z := 2.
Definition HVIO_HW : Z := 0.
Definition HVIO_CLASS_LOG : Z := 20.
Definition HVIO_CLASS_MASK : Z := Z.shiftl (Z.shiftl 1 4 - 1) 20.
Definition HVIO_DATA_MASK : Z := Z.shiftl 1 4 - 1.

Definition vio_type (val : Z) : Z := Z.shiftr (Z.land (u32 val) HVIO_CLASS_MASK) HVIO_CLASS_LOG.

Definition vio_type_set (val type : Z) : Z :=
  Z.lor (Z.land val HVIO_DATA_MASK) (Z.land (shl64 type HVIO_CLASS_LOG) HVIO_CLASS_MASK).

(** [struct vios]; the first argument of an operation is the caller: its partition, or its
    thread for [vs_acquire]. *)
Record vios (W : Type) := Vios {
  vs_tce_put : option (Z -> Z -> Z -> Z -> W -> res (Z * W));
  vs_signal : option (Z -> Z -> Z -> W -> res (Z * W));
  vs_acquire : option (Z -> Z -> W -> res (Z * W));
  vs_release : option (Z -> Z -> W -> res (Z * W));
  vs_grant : option (Z -> Z -> Z -> W -> res (Z * Z * W));
  vs_accept : option (Z -> Z -> W -> res (Z * Z * W));
  vs_invalidate : option (Z -> Z -> W -> res (Z * W));
  vs_return : option (Z -> Z -> W -> res (Z * W));
  vs_rescind : option (Z -> Z -> W -> res (Z * W));
  vs_conflict : option (Z -> Z -> Z -> W -> res Z)
}.
Arguments Vios {W}.
Arguments vs_tce_put {W}.
Arguments vs_signal {W}.
Arguments vs_acquire {W}.
Arguments vs_release {W}.
Arguments vs_grant {W}.
Arguments vs_accept {W}.
Arguments vs_invalidate {W}.
Arguments vs_return {W}.
Arguments vs_rescind {W}.
Arguments vs_conflict {W}.

(** [struct vios_resource]: the identifier, and the owner of the resource in it. *)
Record vios_resource := VRes { vr_liobn : Z; vr_owner : Z }.

Definition io_xlate_put (os buid index ltce : Z) : Z := H_Parameter.

Section Dispatch.
Context {W : Type} (irq : W -> machine) (set_irq : W -> machine -> W).
Context (other_handler : Z -> machine -> Z -> xh_ptr -> Z -> Z -> res (Z * Z * machine)).

(** [static struct vios *vios[16]] *)
Local Abbreviation table := (list (option (vios W))).
Definition no_vios : table := repeat None 16.

Definition vios_get (t : table) (i : Z) : option (vios W) :=
  if i <? Z.of_nat (length t) then mjoin (t !! Z.to_nat i) else None.

Definition vio_register (t : table) (v : vios W) (i : Z) : Z * table :=
  if i <? Z.of_nat (length t) then
    match mjoin (t !! Z.to_nat i) with
    | None => (i, <[Z.to_nat i := Some v]> t)
    | Some _ => (-1, t)
    end
  else (-1, t).

Definition hw_vios : vios W :=
  Vios (Some (fun os liobn ioba tce w => Ok (io_xlate_put os liobn ioba tce, w))) None None None None None None None None None.

Definition vio_init (t : table) : res table :=
  let '(i, t) := vio_register t hw_vios HVIO_HW in cassert (i =? HVIO_HW) (Ok t).

(** The adapter of an identifier; without one, [assert(0, ...)] traps. *)
Definition adapter (t : table) (liobn : Z) : res (vios W) := of_option Assert_failed (vios_get t (vio_type liobn)).

(** Calling through a pointer that may be null. *)
Definition fn {A} (f : option A) : res A := of_option Null_deref f.

Definition vio_acquire (t : table) (w : W) (thread type dma_range : Z) : res (Z * W) :=
  let! v := of_option Assert_failed (vios_get t type) in
  let! f := fn (vs_acquire v) in f thread dma_range w.

Definition vio_release (t : table) (w : W) (os liobn : Z) : res (Z * W) :=
  let! v := adapter t (u32 liobn) in
  let! f := fn (vs_release v) in f os (u32 liobn) w.

(** [os] is the partition of [thread]. *)
Definition vio_ctl (t : table) (w : W) (thread os cmd arg1 arg2 : Z) : res (Z * W) :=
  if cmd =? HVIO_ACQUIRE then vio_acquire t w thread arg1 arg2
  else if cmd =? HVIO_RELEASE then vio_release t w os arg1
  else Ok (H_Parameter, w).

Definition vio_signal (t : table) (w : W) (os uaddr mode : Z) : res (Z * W) :=
  if negb ((mode =? 0) || (mode =? 1)) then Ok (H_Parameter, w)
  else
    let! v := adapter t uaddr in
    match vs_signal v with
    | Some f => f os uaddr mode w
    | None =>
        let m := irq w in
        let! xd := xir_get_xh_data m (u32 uaddr) in
        let! thr := xir_get_thread m (u32 uaddr) in
        let! mine :=
          if thr =? 0 then Ok false
          else
            let! t := get_thread m thr in
            let! c := get_cpu m (thr_cpu t) in Ok (cpu_os c =? os) in
        if mine : bool then
          let! m := xir_set_state other_handler m (u32 uaddr) xd mode in Ok (H_Success, set_irq w m)
        else Ok (H_Permission, w)
    end.

Definition vio_tce_put (t : table) (w : W) (os liobn ioba tce : Z) : res (Z * W) :=
  let! v := adapter t (u32 liobn) in
  match vs_tce_put v with
  | None => Ok (H_Parameter, w)
  | Some f => f os (u32 liobn) ioba tce w
  end.

Definition liob_tce_put (t : table) (w : W) (os liobn ioba tce : Z) : res (Z * W) :=
  if vio_type (u32 liobn) =? 0 then Ok (io_xlate_put os (u32 liobn) ioba tce, w)
  else vio_tce_put t w os liobn ioba tce.

(** ** Adapters as resources *)

(** The error and the resource. *)
Definition vio_grant (t : table) (w : W) (src flags logical_hi logical_lo size dest : Z) : res (Z * Z * W) :=
  let! v := adapter t logical_hi in
  match vs_grant v with
  | None => Ok (H_Parameter, 0, w)
  | Some f => f src dest logical_hi w
  end.

Definition vio_accept (t : table) (w : W) (r : vios_resource) : res (Z * Z * W) :=
  let! v := adapter t (vr_liobn r) in
  match vs_accept v with
  | Some f => f (vr_owner r) (vr_liobn r) w
  | None => Ok (H_Parameter, 0, w)
  end.

Definition vio_invalidate (t : table) (w : W) (r : vios_resource) : res (Z * W) :=
  let! v := adapter t (vr_liobn r) in
  match vs_invalidate v with
  | Some f => f (vr_owner r) (vr_liobn r) w
  | None => Ok (H_Parameter, w)
  end.

Definition vio_return (t : table) (w : W) (r : vios_resource) : res (Z * W) :=
  let! v := adapter t (vr_liobn r) in
  match vs_return v with
  | Some f => f (vr_owner r) (vr_liobn r) w
  | None => Ok (H_Parameter, w)
  end.

Definition vio_rescind (t : table) (w : W) (r : vios_resource) : res (Z * W) :=
  let! v := adapter t (vr_liobn r) in
  match vs_rescind v with
  | Some f => f (vr_owner r) (vr_liobn r) w
  | None => Ok (H_Parameter, w)
  end.

(** [res1] and [res2] are the addresses of the resources, the first with identifier [r]. *)
Definition vio_conflict (t : table) (w : W) (res1 res2 : Z) (r : vios_resource) : res Z :=
  let! v := adapter t (vr_liobn r) in
  match vs_conflict v with
  | Some f => f res1 res2 (vr_liobn r) w
  | None => Ok H_Parameter
  end.

(** ** Hypervisor calls *)
Definition os_of_thread (w : W) (thread : Z) : res Z :=
  let! t := get_thread (irq w) thread in
  let! c := get_cpu (irq w) (thr_cpu t) in Ok (cpu_os c).

Definition h_vio_ctl (t : table) (w : W) (thread cmd arg1 arg2 : Z) : res (Z * W) :=
  let! os := os_of_thread w thread in vio_ctl t w thread os cmd arg1 arg2.

Definition h_vio_signal (t : table) (w : W) (thread uaddr mode : Z) : res (Z * W) :=
  let! os := os_of_thread w thread in vio_signal t w os uaddr mode.

Definition h_put_tce (t : table) (w : W) (thread liobn ioba tce_dword : Z) : res (Z * W) :=
  let! os := os_of_thread w thread in vio_tce_put t w os liobn ioba tce_dword.

Definition h_stuff_tce (liobn ioba tce_dword count : Z) : Z := H_Function.
Definition h_get_tce (liobn ioba : Z) : Z := H_Function.
End Dispatch.

(** ** Which adapter a call reaches *)
Lemma vio_type_class x : is_u32 x -> vio_type x = xirr_class x.
Proof.
  intros Hx. unfold vio_type, xirr_class, HVIO_CLASS_LOG, XIRR_CLASS_WIDTH, XIRR_CLASS_LOG. rewrite u32_small by done.
  apply Z.bits_inj'. intros i Hi. rewrite testbit_get_field by lia. rewrite Z.shiftr_spec, Z.land_spec by lia.
  change HVIO_CLASS_MASK with (Z.shiftl (Z.ones 4) 20). rewrite Z.shiftl_spec, Z.testbit_ones by lia.
  replace (i + 20 - 20) with i by lia. destruct (Z.leb_spec 0 i); [|lia]. apply andb_comm.
Qed.

Lemma encode_u32 d c : is_u32 (xirr_encode d c).
Proof. unfold xirr_encode, __xirr_set_field, u32, is_u32. apply Z.mod_pos_bound. lia. Qed.

Section Facts.
Context {W : Type} (irq : W -> machine) (set_irq : W -> machine -> W).
Context (oh : Z -> machine -> Z -> xh_ptr -> Z -> Z -> res (Z * Z * machine)).

(** An identifier of a class reaches the adapter that registered first for it. *)
Lemma adapter_encode (t : list (option (vios W))) d c v : 0 <= d < 2 ^ 20 -> 0 <= c < 16 -> vios_get t c = Some v -> adapter t (xirr_encode d c) = Ok v.
Proof.
  intros Hd Hc Hv. unfold adapter. rewrite vio_type_class by apply encode_u32. destruct (decode_encode_small d c) as [_ ->]; [done..|]. by rewrite Hv.
Qed.

Lemma register_first (t : list (option (vios W))) v c t' r : 0 <= c -> vio_register t v c = (r, t') ->
  (r = c /\ vios_get t c = None /\ vios_get t' c = Some v \/ r = -1 /\ t' = t) /\
  forall k, 0 <= k -> k <> c -> vios_get t' k = vios_get t k.
Proof.
  intros Hc. unfold vio_register, vios_get. destruct (Z.ltb_spec c (Z.of_nat (length t))); [|intros [= <- <-]; auto].
  destruct (mjoin (t !! Z.to_nat c)); intros [= <- <-]; [auto|]. rewrite length_insert. split.
  - left. split; [done|]. split; [done|]. destruct (Z.ltb_spec c (Z.of_nat (length t))); [|lia]. by rewrite list_lookup_insert_eq by lia.
  - intros k Hk Hne. destruct (_ <? _); [|done]. by rewrite list_lookup_insert_ne by lia.
Qed.

(** A line routed to thread [t] of a processor [u]. *)
Record routed (m : machine) (c d : Z) (xh : xh_data) (t : cpu_thread) (u : cpu) : Prop := {
  rt_line : line m c d = Some xh;
  rt_handler : xh_handler xh = Some Xir_raise_fn;
  rt_data : has xh 3 = true;
  rt_dat : xh_dat xh <> 0;
  rt_thread : threads m !! xh_dat xh = Some t;
  rt_cpu : cpus m !! thr_cpu t = Some u
}.

(** [h_vio_signal] switches an interrupt for the partition it is routed to, and only
    for it: on a line of another partition the call is refused and changes nothing;
    on its own it succeeds, the line is masked afterwards if that was asked for, all
    other lines stay as they are, and the lines and queues stay consistent. *)
Theorem vio_signal_isolated (t : list (option (vios W))) w os d c mode v xh th u :
  (forall w m, irq (set_irq w m) = m) -> xir_inv (irq w) -> vios_get t c = Some v -> vs_signal v = None ->
  routed (irq w) c d xh th u -> mode = 0 \/ mode = 1 ->
  exists r w', vio_signal irq set_irq oh t w os (xirr_encode d c) mode = Ok (r, w') /\
    if cpu_os u =? os then
      r = H_Success /\ xir_inv (irq w') /\ (mode = 0 -> exists xh', line (irq w') c d = Some xh' /\ has xh' 0 = true) /\
      forall c' d', (c', d') <> (c, d) -> line (irq w') c' d' = line (irq w) c' d'
    else r = H_Permission /\ w' = w.
Proof.
  intros Hset Hi Hv Hs [Hl Hh Ht H0 Hth Hcu] Hmode. destruct (inv_range _ _ _ _ Hi Hl) as [Hc Hd].
  unfold vio_signal. assert (negb ((mode =? 0) || (mode =? 1)) = false) as -> by (destruct Hmode as [-> | ->]; done).
  unfold XIRR_CLASS_MAX, XIRR_DEVID_SZ in *. rewrite (adapter_encode t d c v) by (done || lia). cbn [res_bind]. rewrite Hs.
  rewrite (u32_small (xirr_encode d c)) by apply encode_u32.
  destruct (decode_encode_small d c) as [Ed Ec]; [lia..|]. destruct (inv_lines _ Hi c d xh Hl) as (_ & Hdd & Hu & _).
  assert (xir_get_xh_data (irq w) (xirr_encode d c) = Ok (Some (c, d))) as Hx.
  { unfold xir_get_xh_data. change (xirr_xisr (xirr_encode d c)) with (xirr_dev_id (xirr_encode d c)). rewrite Ec, Ed. by apply (get_data_ok _ _ _ xh). }
  rewrite Hx. cbn [res_bind]. unfold xir_get_thread. rewrite Hx. cbn [res_bind]. rewrite (get_xh_ok _ _ _ xh Hl). cbn [res_bind].
  unfold __xir_get_thread. rewrite flag_DATA_THR. unfold has in Ht. rewrite Ht. destruct (Z.eqb_spec (xh_dat xh) 0); [done|].
  unfold get_thread. rewrite Hth. cbn [of_option res_bind]. unfold get_cpu. rewrite Hcu. cbn [of_option res_bind].
  destruct (Z.eqb_spec (cpu_os u) os); [|by do 2 eexists].
  destruct (set_state_total oh _ (irq w) c d xh mode Hi Hl) as (m' & Em & Hi'). rewrite Em. cbn [res_bind]. do 2 eexists. split; [done|]. rewrite Hset.
  split; [done|]. split; [done|]. split.
  - intros ->. rewrite (set_state_disable oh _ c d _ xh) in Em by done. injection Em as <-. eexists. split; [by eauto using line_upd_eq|].
    destruct Hu as [Hf _]. unfold has. rewrite set_flags_flags by auto with word. rewrite testbit_with by lia. apply orb_true_r.
  - intros c' d' Hne. destruct Hmode as [-> | ->].
    + rewrite (set_state_disable oh _ c d _ xh) in Em by done. injection Em as <-. apply line_upd_ne; (done || lia).
    + rewrite (set_state_enable oh _ c d _ xh) in Em by done. cbv zeta in Em. set (m1 := upd (irq w) c d _) in Em.
      assert (line m1 c' d' = line (irq w) c' d') as <- by (apply line_upd_ne; (done || lia)).
      destruct (has xh 0 && has xh 1); [|by injection Em as <-]. apply res_bind_ok in Em as ([[r thr] m2] & Er & Em). injection Em as <-.
      unfold xir_raise in Er. rewrite Ec, Ed in Er. set (y := set_flags xh (without_flag (xh_flags xh) 0)) in m1.
      assert (line m1 c d = Some y) as Hy by by eauto using line_upd_eq. destruct Hu as [Hf Hb].
      assert (unlocked y) as Huy.
      { split; unfold y; rewrite set_flags_flags by auto with word; [auto with word|]. by rewrite testbit_without, Hb by (done || lia). }
      destruct (inv_threads _ Hi _ th Hth) as (Hwf & _).
      destruct (xir_inject_effect oh m1 c d 0 y th u) as (r' & thr' & m3 & E3 & _ & Hother); try done.
      rewrite E3 in Er. injection Er as _ _ <-. by apply Hother.
Qed.
End Facts.

(** ** Witness: one adapter, of class 1, whose first line is partition 7's *)
Definition bare : vios machine := Vios None None None None None None None None None None.
Definition demo_table : list (option (vios machine)) := <[1%nat := Some bare]> no_vios.

Lemma vio_signal_isolated_witness :
  (exists r m', vio_signal id (fun _ m => m) no_handler demo_table (demo 24) 7 (xirr_encode 0 1) 0 = Ok (r, m') /\
    r = H_Success /\ xir_inv m' /\ (0 = 0 -> exists xh', line m' 1 0 = Some xh' /\ has xh' 0 = true) /\
    forall c' d', (c', d') <> (1, 0) -> line m' c' d' = line (demo 24) c' d') /\
  (exists r m', vio_signal id (fun _ m => m) no_handler demo_table (demo 24) 8 (xirr_encode 0 1) 0 = Ok (r, m') /\
    r = H_Permission /\ m' = demo 24).
Proof.
  assert (routed (demo 24) 1 0 (demo_line 24) demo_thread (Cpu 7 0)) as Hr by (constructor; done).
  split.
  - apply (vio_signal_isolated id (fun _ m => m) no_handler demo_table (demo 24) 7 0 1 0 bare (demo_line 24) demo_thread (Cpu 7 0)); try done;
      [apply demo_inv|by left].
  - apply (vio_signal_isolated id (fun _ m => m) no_handler demo_table (demo 24) 8 0 1 0 bare (demo_line 24) demo_thread (Cpu 7 0)); try done;
      [apply demo_inv|by left].
Defined.

(** ** Where the code does not do what it means to *)

(** A class nobody registered for stops the hypervisor, from any of the calls. *)
Example unknown_class_traps thread :
  vio_ctl demo_table (demo 24) thread 7 HVIO_ACQUIRE 9 0 = Fault Assert_failed /\
  vio_ctl demo_table (demo 24) thread 7 HVIO_RELEASE (xirr_encode 0 9) 0 = Fault Assert_failed /\
  vio_tce_put demo_table (demo 24) 7 (xirr_encode 0 9) 0 0 = Fault Assert_failed.
Proof. repeat split; reflexivity. Qed.

(** Acquiring or releasing an adapter that has no such operation, as hardware and message
    queues do not, calls a null pointer. *)
Example acquire_null thread :
  match vio_init no_vios with
  | Ok t =>
      vio_ctl t (demo 24) thread 7 HVIO_ACQUIRE HVIO_HW 0 = Fault Null_deref /\
      vio_ctl t (demo 24) thread 7 HVIO_RELEASE (xirr_encode 5 HVIO_HW) 0 = Fault Null_deref
  | Fault _ => False
  end.
Proof. repeat split; reflexivity. Qed.

(** Setting the class of an identifier keeps four bits of its data. *)
Example type_set_drops_data : vio_type_set 0x12345 1 = 0x100005.
Proof. reflexivity. Qed.
