(* ===== verification/Clib.v ===== *)
(** * Clib: the memory and string routines of the library

    [lib/memcpy.c], [lib/memmove.c], [lib/memset.c], [lib/memcmp.c], [lib/strlen.c],
    [lib/strnlen.c], [lib/strcmp.c], [lib/strncmp.c], [lib/strncpy.c], [lib/strstr.c],
    [lib/strtoul.c], [lib/hexstr.c], and [ffs] of [include/powerpc/bitops.h].

    The routines that write work on byte memory, by address, because they choose
    how to move the bytes from the addresses.  The ones that only read are given what
    their pointers point at: the bytes of the object from there to its end, so that a
    read past the end is a fault.  [char] is unsigned, as it is on PowerPC. *)

From S2P Require Import Prelude Bitmap PgAlloc Imemcpy.

(** ** Memory *)

Definition s32 (x : Z) : Z := let y := u32 x in if y <? 2 ^ 31 then y else y - 2 ^ 32.

(** The argument is an [int]: callers that pass an [uval] lose its upper half. *)
Definition ffs (b : Z) : Z :=
  let i := u64 (s32 b) in
  s32 (add64 (bit_log2 (Z.land i (u64 (- i)))) 1).

(** One access of [w] bytes. *)
Definition load_n (w : nat) (m : pmem) (a : Z) : Z := be_val (copy_in m a (Z.of_nat w)).
Definition store_n (w : nat) (m : pmem) (a v : Z) : pmem := copy_out m a (be_bytes w v).

(** [for (i = 0; i < n; i++) ((T * )dest)[i] = ((const T * )src)[i]], [w] the size of
    [T]: the rounds from [i] on. *)
Fixpoint copy_units (w : nat) (m : pmem) (dest src i : Z) (k : nat) : pmem :=
  match k with
  | O => m
  | S k =>
      copy_units w (store_n w m (dest + Z.of_nat w * i) (load_n w m (src + Z.of_nat w * i)))
        dest src (i + 1) k
  end.

Definition memcpy (m : pmem) (dest src n : Z) : res pmem :=
  let sz := Z.lor (Z.lor dest src) n in
  let sh := ffs sz - 1 in
  check! (0 <=? sh) && (sh <? 64) else Bad_shift in
  let sz := shl64 1 sh in
  let sz := if 8 <? sz then 8 else sz in
  Ok (if sz =? 1 then copy_units 1 m dest src 0 (Z.to_nat n)
      else if sz =? 2 then copy_units 2 m dest src 0 (Z.to_nat (n / 2))
      else if sz =? 4 then copy_units 4 m dest src 0 (Z.to_nat (n / 4))
      else if sz =? 8 then copy_units 8 m dest src 0 (Z.to_nat (n / 8))
      else m).

Definition set_byte (m : pmem) (a v : Z) : pmem := fun b => if b =? a then v else m b.

(** [while (i > 0) { *cd-- = *cs--; i--; }] *)
Fixpoint move_back (m : pmem) (cd cs : Z) (i : nat) : pmem :=
  match i with
  | O => m
  | S i => move_back (set_byte m cd (m cs)) (cd - 1) (cs - 1) i
  end.

(** [while (i > 0) { *cd++ = *cs++; i--; }] *)
Fixpoint move_forth (m : pmem) (cd cs : Z) (i : nat) : pmem :=
  match i with
  | O => m
  | S i => move_forth (set_byte m cd (m cs)) (cd + 1) (cs + 1) i
  end.

Definition memmove (m : pmem) (dest src n : Z) : pmem :=
  if src <? dest then move_back m (dest + (n - 1)) (src + (n - 1)) (Z.to_nat n)
  else move_forth m dest src (Z.to_nat n).

(** [while (((uval)ss & (sizeof (uval) - 1)) > 0) { *ss = c; ++ss; --n; }] *)
Fixpoint set_unaligned (fuel : nat) (m : pmem) (ss c n : Z) : pmem * Z * Z :=
  match fuel with
  | O => (m, ss, n)
  | S fuel =>
      if 0 <? Z.land ss 7 then set_unaligned fuel (set_byte m ss (c mod 256)) (ss + 1) c (sub64 n 1)
      else (m, ss, n)
  end.

(** [while (n >= sizeof (uval)) { *(uval * )ss = val; ... }] *)
Fixpoint set_words (fuel : nat) (m : pmem) (ss val n : Z) : pmem * Z * Z :=
  match fuel with
  | O => (m, ss, n)
  | S fuel =>
      if 8 <=? n then set_words fuel (store_n 8 m ss val) (ss + 8) val (n - 8)
      else (m, ss, n)
  end.

(** [while (n > 0) { *ss = c; ++ss; --n; }] *)
Fixpoint set_bytes (m : pmem) (ss c : Z) (n : nat) : pmem :=
  match n with
  | O => m
  | S n => set_bytes (set_byte m ss (c mod 256)) (ss + 1) c n
  end.

(** [for (i = 0; i < sizeof (uval); i++) val = (val << 8) | c;] *)
Definition spread (c : Z) : Z :=
  Nat.iter 8 (fun val => Z.lor (shl64 val 8) (u64 c)) 0.

(** At most seven bytes precede an aligned one, and no more than [n] words are set. *)
Definition memset (m : pmem) (s c n : Z) : pmem :=
  if n =? 0 then m
  else
    let '(m, ss, n) :=
      if 16 <=? n then
        let val := if c =? 0 then 0 else spread c in
        let '(m, ss, n) := set_unaligned 8 m s c n in
        set_words (Z.to_nat n) m ss val n
      else (m, s, n) in
    set_bytes m ss c (Z.to_nat n).

(** ** Copying and filling *)

Lemma be_bytes_val bs : Forall (fun b => 0 <= b < 256) bs -> be_bytes (length bs) (be_val bs) = bs.
Proof.
  induction bs as [|b bs IH] using rev_ind; intros H; [done|]. apply Forall_app in H as [H1 H2].
  apply Forall_cons in H2 as [Hb _]. rewrite length_app, Nat.add_1_r. unfold be_val in *. rewrite foldl_app.
  simpl. rewrite Z.div_add_l, Z.div_small, Z.add_0_r, Z.add_comm, Z.mod_add, Z.mod_small by lia. by rewrite IH.
Qed.

Lemma Forall_copy_in m a n : bytes_ok m -> Forall (fun b => 0 <= b < 256) (copy_in m a n).
Proof.
  intros Hm. apply Forall_lookup. intros i x E. apply lookup_lt_Some in E as Hi. rewrite length_copy_in in Hi.
  rewrite lookup_copy_in in E by done. injection E as <-. apply Hm.
Qed.

(** One access moves [w] bytes as they are. *)
Lemma store_load m w d s a :
  bytes_ok m ->
  store_n w m d (load_n w m s) a = if (d <=? a) && (a <? d + Z.of_nat w) then m (s + (a - d)) else m a.
Proof.
  intros Hm. unfold store_n, load_n.
  assert (be_bytes w (be_val (copy_in m s (Z.of_nat w))) = copy_in m s (Z.of_nat w)) as ->.
  { rewrite <- (be_bytes_val (copy_in m s (Z.of_nat w))) at 2 by by apply Forall_copy_in.
    by rewrite length_copy_in, Nat2Z.id. }
  unfold copy_out. rewrite length_copy_in, Nat2Z.id. destruct (_ && _) eqn:E; [|done].
  apply andb_true_iff in E as [E1%Z.leb_le E2%Z.ltb_lt]. rewrite lookup_copy_in by lia. simpl. f_equal. lia.
Qed.

Lemma copy_mem_at m d s n a :
  0 <= n -> copy_mem m d s n a = if (d <=? a) && (a <? d + n) then m (s + (a - d)) else m a.
Proof.
  intros Hn. unfold copy_mem, copy_out. rewrite length_copy_in, Z2Nat.id by done. destruct (_ && _) eqn:E; [|done].
  apply andb_true_iff in E as [E1%Z.leb_le E2%Z.ltb_lt]. rewrite lookup_copy_in by lia. simpl. f_equal. lia.
Qed.

(** Where no byte is read after it was overwritten. *)
Definition no_smear (dest src n : Z) : Prop := dest <= src \/ src + n <= dest.

Lemma bytes_store_n w m a v : bytes_ok m -> bytes_ok (store_n w m a v).
Proof. intros H. apply bytes_copy_out; [done|apply bytes_be]. Qed.

(** Copying unit by unit, of any size, is copying the bytes. *)
Lemma copy_units_spec w dest src k : forall m i,
  (0 < w)%nat -> bytes_ok m -> 0 <= i ->
  no_smear dest src (Z.of_nat w * (i + Z.of_nat k)) ->
  forall a, copy_units w m dest src i k a =
    if (dest + Z.of_nat w * i <=? a) && (a <? dest + Z.of_nat w * (i + Z.of_nat k)) then m (src + (a - dest)) else m a.
Proof.
  induction k as [|k IH]; intros m i Hw Hm Hi Hs a; cbn [copy_units].
  - zcases.
  - rewrite IH; [|done|by apply bytes_store_n|lia|by replace (i + 1 + Z.of_nat k) with (i + Z.of_nat (S k)) by lia].
    rewrite !store_load by done. unfold no_smear in Hs.
    replace (i + 1 + Z.of_nat k) with (i + Z.of_nat (S k)) by lia. rewrite Nat2Z.inj_succ in *.
    destruct (Z.leb_spec (dest + Z.of_nat w * (i + 1)) a), (Z.ltb_spec a (dest + Z.of_nat w * (i + Z.succ (Z.of_nat k))));
      destruct (Z.leb_spec (dest + Z.of_nat w * i) a); simpl; try nia.
    + destruct (Z.leb_spec (dest + Z.of_nat w * i) (src + (a - dest))),
        (Z.ltb_spec (src + (a - dest)) (dest + Z.of_nat w * i + Z.of_nat w)); simpl; try done. nia.
    + destruct (Z.ltb_spec a (dest + Z.of_nat w * i + Z.of_nat w)); [nia|done].
    + destruct (Z.ltb_spec a (dest + Z.of_nat w * i + Z.of_nat w)); [f_equal; lia|nia].
Qed.

Lemma copy_units_all w m dest src n :
  (0 < w)%nat -> bytes_ok m -> 0 <= n -> (Z.of_nat w | n) -> no_smear dest src n ->
  forall a, copy_units w m dest src 0 (Z.to_nat (n / Z.of_nat w)) a = copy_mem m dest src n a.
Proof.
  intros Hw Hm Hn [q ->] Hs a. rewrite Z.div_mul by lia. rewrite copy_units_spec; [|done..|].
  - rewrite copy_mem_at by done. rewrite Z2Nat.id by nia. replace (dest + Z.of_nat w * 0) with dest by lia.
    by replace (dest + Z.of_nat w * (0 + q)) with (dest + q * Z.of_nat w) by lia.
  - rewrite Z2Nat.id by nia. by rewrite Z.add_0_l, Z.mul_comm.
Qed.

Lemma s32_mod x : exists k, s32 x = x + k * 2 ^ 32.
Proof.
  unfold s32, u32. destruct (_ <? _).
  - exists (- (x / 2 ^ 32)). rewrite Z.mod_eq by done. lia.
  - exists (- (x / 2 ^ 32) - 1). rewrite Z.mod_eq by done. lia.
Qed.

Lemma testbit_s32 x i : 0 <= i < 32 -> Z.testbit (u64 (s32 x)) i = Z.testbit x i.
Proof.
  intros Hi. rewrite testbit_u64 by lia. destruct (Z.ltb_spec i 64); [|lia]. simpl.
  destruct (s32_mod x) as [k ->]. rewrite <- (Z.mod_pow2_bits_low _ 32) by lia.
  rewrite Z.mod_add by done. by rewrite Z.mod_pow2_bits_low by lia.
Qed.

(** [ffs] finds the lowest set bit when the lower half has one. *)
Lemma ffs_spec x :
  u32 x <> 0 ->
  0 <= ffs x - 1 < 32 /\ Z.testbit x (ffs x - 1) = true /\ (forall j, 0 <= j < ffs x - 1 -> Z.testbit x j = false).
Proof.
  intros Hx. unfold ffs. set (i := u64 (s32 x)).
  assert (exists j, 0 <= j < 32 /\ Z.testbit i j = true) as (j0 & Hj0 & Ej0).
  { destruct (Z.log2_spec (u32 x)) as [_ _]; [pose proof (Z.mod_pos_bound x (2 ^ 32)); unfold u32 in *; lia|].
    exists (Z.log2 (u32 x)). assert (0 < u32 x < 2 ^ 32) as Hr by (pose proof (Z.mod_pos_bound x (2 ^ 32)); unfold u32 in *; lia).
    assert (Z.log2 (u32 x) < 32) by (apply Z.log2_lt_pow2; lia). pose proof (Z.log2_nonneg (u32 x)).
    split; [lia|]. unfold i. rewrite testbit_s32 by lia. pose proof (Z.bit_log2 (u32 x) ltac:(lia)) as Hb.
    rewrite testbit_u32 in Hb by lia. by apply andb_true_iff in Hb as [_ ?]. }
  pose proof (u64_range (s32 x)) as Hi. fold i in Hi. unfold is_u64 in Hi.
  assert (i <> 0) by (intros E; by rewrite E, Z.bits_0 in Ej0).
  destruct (land_opp_least i) as (b & Hb & Hl & Hbit & Hlow); [lia|].
  assert (b < 32).
  { destruct (Z.lt_ge_cases b 32); [done|]. rewrite Hlow in Ej0; [done|lia]. }
  assert (Z.land i (u64 (- i)) = 2 ^ b) as ->.
  { rewrite <- Hl. bits j. destruct (Z.ltb_spec j 64); [done|]. by rewrite (is_u64_testbit i j). }
  unfold bit_log2. destruct (Z.eqb_spec (2 ^ b) 0); [pose proof (Z.pow_pos_nonneg 2 b); lia|].
  rewrite Z.log2_pow2, add64_small by lia.
  assert (s32 (b + 1) = b + 1) as ->. { unfold s32. rewrite u32_small by lia. zcases. }
  replace (b + 1 - 1) with b by lia. split; [lia|]. split; [by rewrite <- testbit_s32 by lia|].
  intros j Hj. rewrite <- testbit_s32 by lia. by apply Hlow.
Qed.

Lemma low_bits_divide x k : 0 <= k -> 0 <= x -> (forall j, 0 <= j < k -> Z.testbit x j = false) -> (2 ^ k | x).
Proof.
  intros Hk Hx H. apply Z.mod_divide; [lia|]. apply Z.bits_inj_0. intros i. destruct (Z.lt_ge_cases i 0).
  { by apply Z.testbit_neg_r. }
  destruct (Z.lt_ge_cases i k); [rewrite Z.mod_pow2_bits_low by lia; apply H; lia|by rewrite Z.mod_pow2_bits_high by lia].
Qed.

Lemma low_bits_lor x y z k :
  0 <= k -> 0 <= x -> 0 <= y -> 0 <= z -> (forall j, 0 <= j < k -> Z.testbit (Z.lor (Z.lor x y) z) j = false) ->
  (2 ^ k | z).
Proof.
  intros Hk Hx Hy Hz H. apply low_bits_divide; [done..|]. intros j Hj. specialize (H j Hj).
  rewrite !Z.lor_spec in H. by apply orb_false_iff in H as [_ ?].
Qed.

(** [memcpy] moves the bytes whatever unit it chooses. *)
Lemma memcpy_spec m dest src n :
  bytes_ok m -> 0 <= dest -> 0 <= src -> 0 <= n -> u32 (Z.lor (Z.lor dest src) n) <> 0 -> no_smear dest src n ->
  exists m', memcpy m dest src n = Ok m' /\ forall a, m' a = copy_mem m dest src n a.
Proof.
  intros Hm Hd Hs Hn Hl Ho. unfold memcpy. set (sz := Z.lor (Z.lor dest src) n) in *.
  destruct (ffs_spec sz Hl) as (Hr & _ & Hlow). set (k := ffs sz - 1) in *.
  pose proof (low_bits_lor dest src n k ltac:(lia) Hd Hs Hn Hlow) as Hdiv.
  destruct (Z.leb_spec 0 k), (Z.ltb_spec k 64); try lia. simpl. eexists; split; [done|]. intros a.
  rewrite shl64_one by lia.
  assert (k = 0 \/ k = 1 \/ k = 2 \/ 3 <= k) as [Ek|[Ek|[Ek|Ek]]] by lia.
  - rewrite Ek. simpl. rewrite <- (copy_units_all 1) by (done || lia || apply Z.divide_1_l).
    by rewrite Z.div_1_r.
  - rewrite Ek in *. simpl. apply (copy_units_all 2); done || lia.
  - rewrite Ek in *. simpl. apply (copy_units_all 4); done || lia.
  - assert (8 <= 2 ^ k) by (change 8 with (2 ^ 3); apply Z.pow_le_mono_r; lia).
    assert ((if 8 <? 2 ^ k then 8 else 2 ^ k) = 8) as -> by zcases. simpl.
    apply (copy_units_all 8); [lia|done..| |done].
    transitivity (2 ^ k); [|done]. exists (2 ^ (k - 3)). change (Z.of_nat 8) with (2 ^ 3).
    rewrite <- Z.pow_add_r by lia. f_equal. lia.
Qed.

Lemma move_back_spec i : forall m cd cs,
  cs <= cd ->
  forall a, move_back m cd cs i a = if (cd - Z.of_nat i <? a) && (a <=? cd) then m (cs + (a - cd)) else m a.
Proof.
  induction i as [|i IH]; intros m cd cs H a; cbn [move_back]; [zcases|].
  rewrite IH by lia. unfold set_byte. zbool; try (lia || done); try (f_equal; lia).
Qed.

Lemma move_forth_spec i : forall m cd cs,
  cd <= cs ->
  forall a, move_forth m cd cs i a = if (cd <=? a) && (a <? cd + Z.of_nat i) then m (cs + (a - cd)) else m a.
Proof.
  induction i as [|i IH]; intros m cd cs H a; cbn [move_forth]; [zcases|].
  rewrite IH by lia. unfold set_byte. zbool; try (lia || done); try (f_equal; lia).
Qed.

(** [memmove] reads every byte before it overwrites it, wherever the ranges lie. *)
Lemma memmove_spec m dest src n a : 0 <= n -> memmove m dest src n a = copy_mem m dest src n a.
Proof.
  intros Hn. rewrite copy_mem_at by done. unfold memmove. destruct (Z.ltb_spec src dest).
  - rewrite move_back_spec by lia. rewrite Z2Nat.id by done. zbool; try (lia || done); f_equal; lia.
  - rewrite move_forth_spec by lia. by rewrite Z2Nat.id by done.
Qed.

(** *** Filling *)
Lemma memset_at m s c n a : PgAlloc.memset m s c n a = if (s <=? a) && (a <? s + n) then c else m a.
Proof. done. Qed.

(** [t] bytes, then [r] more. *)
Lemma memset_seq m m' s c t r :
  0 <= t -> 0 <= r -> (forall a, m' a = PgAlloc.memset m s c t a) ->
  forall a, PgAlloc.memset m' (s + t) c r a = PgAlloc.memset m s c (t + r) a.
Proof. intros Ht Hr H a. unfold PgAlloc.memset at 1. rewrite H. rewrite !memset_at. zbool; done || lia. Qed.

Lemma set_byte_memset m s c a : set_byte m s c a = PgAlloc.memset m s c 1 a.
Proof. unfold set_byte. rewrite memset_at. zbool; done || lia. Qed.

Lemma set_unaligned_spec fuel : forall m ss c n,
  let r := (- ss) mod 8 in
  r < Z.of_nat fuel -> r <= n < 2 ^ 64 -> 0 <= c < 256 ->
  exists m', set_unaligned fuel m ss c n = (m', ss + r, n - r) /\ forall a, m' a = PgAlloc.memset m ss c r a.
Proof.
  induction fuel as [|fuel IH]; intros m ss c n r Hf Hn Hc; cbn [set_unaligned].
  { pose proof (Z.mod_pos_bound (- ss) 8). subst r. lia. }
  change 7 with (Z.ones 3). rewrite Z.land_ones by lia. change (2 ^ 3) with 8. destruct (Z.ltb_spec 0 (ss mod 8)) as [E|E].
  - assert ((- (ss + 1)) mod 8 = r - 1) as Er by (subst r; dlia).
    destruct (IH (set_byte m ss (c mod 256)) (ss + 1) c (n - 1)) as (m' & E' & Hm'); try (rewrite Er; lia); [done|].
    assert (1 <= r) by (subst r; dlia). rewrite sub64_small by lia. exists m'. rewrite E', Er.
    split; [f_equal; [f_equal|]; lia|]. intros a. rewrite Hm', Er.
    replace r with (1 + (r - 1)) at 2 by lia. apply (memset_seq m); [lia..|]. intros b.
    rewrite Z.mod_small by lia. apply set_byte_memset.
  - assert (r = 0) as -> by (subst r; dlia). exists m. split; [f_equal; [f_equal|]; lia|]. intros a. rewrite memset_at. zbool; done || lia.
Qed.

Lemma spread_bytes c : 0 <= c < 256 -> be_bytes 8 (if c =? 0 then 0 else spread c) = replicate 8 c.
Proof.
  intros Hc.
  assert (forallb (fun c => bool_decide (be_bytes 8 (if c =? 0 then 0 else spread c) = replicate 8 c))
    (Z.of_nat <$> seq 0 256) = true) as H by (vm_compute; reflexivity).
  rewrite forallb_forall in H. specialize (H c). apply bool_decide_eq_true_1 in H; [done|].
  apply list_elem_of_In, list_elem_of_fmap. exists (Z.to_nat c). split; [lia|]. apply elem_of_seq. lia.
Qed.

Lemma store_spread m ss c a :
  0 <= c < 256 -> store_n 8 m ss (if c =? 0 then 0 else spread c) a = PgAlloc.memset m ss c 8 a.
Proof.
  intros Hc. unfold store_n. rewrite spread_bytes by done. rewrite memset_at. unfold copy_out.
  rewrite length_replicate. change (Z.of_nat 8) with 8. destruct (_ && _) eqn:E; [|done].
  rewrite lookup_replicate_2; [done|]. zbool; done || lia.
Qed.

Lemma set_words_spec fuel : forall m ss c n,
  n < 8 * Z.of_nat fuel + 8 -> 0 <= n -> 0 <= c < 256 ->
  exists m', set_words fuel m ss (if c =? 0 then 0 else spread c) n = (m', ss + 8 * (n / 8), n mod 8) /\
    forall a, m' a = PgAlloc.memset m ss c (8 * (n / 8)) a.
Proof.
  induction fuel as [|fuel IH]; intros m ss c n Hf Hn Hc; cbn [set_words].
  { rewrite Z.div_small, Z.mod_small by lia. exists m. split; [f_equal; f_equal; lia|].
    intros a. rewrite memset_at. zbool; done || lia. }
  destruct (Z.leb_spec 8 n).
  - destruct (IH (store_n 8 m ss (if c =? 0 then 0 else spread c)) (ss + 8) c (n - 8)) as (m' & E & Hm'); [lia..|].
    exists m'. assert ((n - 8) / 8 = n / 8 - 1) as Eq by dlia. rewrite E, Eq.
    split; [f_equal; [f_equal|]; dlia|]. intros a. rewrite Hm', Eq.
    replace (8 * (n / 8)) with (8 + 8 * (n / 8 - 1)) by lia. apply (memset_seq m); [lia|dlia|].
    intros b. by apply store_spread.
  - rewrite Z.div_small, Z.mod_small by lia. exists m. split; [f_equal; f_equal; lia|].
    intros a. rewrite memset_at. zbool; done || lia.
Qed.

Lemma set_bytes_spec n : forall m ss c a,
  0 <= c < 256 -> set_bytes m ss c n a = PgAlloc.memset m ss c (Z.of_nat n) a.
Proof.
  induction n as [|n IH]; intros m ss c a Hc; cbn [set_bytes]; [rewrite memset_at; zbool; done || lia|].
  rewrite IH, Nat2Z.inj_succ, <- Z.add_1_l by done. apply (memset_seq m); [lia..|]. intros b.
  rewrite Z.mod_small by done. apply set_byte_memset.
Qed.

Lemma memset_spec m s c n a :
  0 <= n < 2 ^ 64 -> 0 <= c < 256 -> memset m s c n a = PgAlloc.memset m s c n a.
Proof.
  intros Hn Hc. unfold memset. destruct (Z.eqb_spec n 0) as [->|]; [rewrite memset_at; zbool; done || lia|].
  destruct (Z.leb_spec 16 n); [|by rewrite set_bytes_spec, Z2Nat.id by lia].
  pose proof (Z.mod_pos_bound (- s) 8 ltac:(lia)).
  destruct (set_unaligned_spec 8 m s c n) as (m1 & -> & H1); [lia..|].
  set (r := (- s) mod 8) in *.
  destruct (set_words_spec (Z.to_nat (n - r)) m1 (s + r) c (n - r)) as (m2 & -> & H2); [lia..|].
  rewrite set_bytes_spec by done. rewrite Z2Nat.id by dlia.
  rewrite (memset_seq m1 m2 (s + r)) by (done || dlia).
  rewrite (memset_seq m m1 s) by (done || dlia). f_equal. dlia.
Qed.

(** ** Strings *)

Definition deref (s : list Z) : res Z := match s with [] => Fault Out_of_bounds | c :: _ => Ok c end.

Fixpoint strlen (s : list Z) : res Z :=
  match s with
  | [] => Fault Out_of_bounds
  | c :: s => if c =? 0 then Ok 0 else let! i := strlen s in Ok (i + 1)
  end.

(** [while ( *s++ != 0 && i < maxlen) i++;]: the character is read before the bound is
    looked at. *)
Fixpoint strnlen_from (s : list Z) (maxlen i : Z) : res Z :=
  match s with
  | [] => Fault Out_of_bounds
  | c :: s => if negb (c =? 0) && (i <? maxlen) then strnlen_from s maxlen (i + 1) else Ok i
  end.

Definition strnlen (s : list Z) (maxlen : Z) : res Z := strnlen_from s maxlen 0.

Fixpoint strcmp (s1 s2 : list Z) : res Z :=
  match s1, s2 with
  | c1 :: s1, c2 :: s2 => if c1 =? c2 then (if c1 =? 0 then Ok 0 else strcmp s1 s2) else Ok (c1 - c2)
  | _, _ => Fault Out_of_bounds
  end.

Fixpoint strncmp (s1 s2 : list Z) (n : Z) : res Z :=
  if n <=? 0 then Ok 0
  else
    match s1, s2 with
    | c1 :: s1, c2 :: s2 =>
        if negb (c1 =? c2) then Ok (c1 - c2)
        else if c1 =? 0 then Ok 0
        else strncmp s1 s2 (n - 1)
    | _, _ => Fault Out_of_bounds
    end.

Fixpoint memcmp (s1 s2 : list Z) (n : Z) : res Z :=
  if n <=? 0 then Ok 0
  else
    match s1, s2 with
    | c1 :: s1, c2 :: s2 => if negb (c1 =? c2) then Ok (c1 - c2) else memcmp s1 s2 (n - 1)
    | _, _ => Fault Out_of_bounds
    end.

(** [do { *dp++ = *src; --n; ++src; } while (( *src != 0) && (n > 0));]: [dp] is an
    index into the array [dest]. *)
Fixpoint strncpy_copy (src dest : list Z) (dp n : Z) : res (list Z * Z * Z) :=
  match src with
  | [] => Fault Out_of_bounds
  | c :: src =>
      let! dest := aset dest dp c in
      let! c' := deref src in
      if negb (c' =? 0) && (0 <? n - 1) then strncpy_copy src dest (dp + 1) (n - 1)
      else Ok (dest, dp + 1, n - 1)
  end.

Fixpoint strncpy_pad (dest : list Z) (dp : Z) (n : nat) : res (list Z) :=
  match n with
  | O => Ok dest
  | S n => let! dest := aset dest dp 0 in strncpy_pad dest (dp + 1) n
  end.

Definition strncpy (dest src : list Z) (n : Z) : res (list Z) :=
  if n <=? 0 then Ok dest
  else
    let! r := strncpy_copy src dest 0 n in
    let '(dest, dp, n) := r in
    strncpy_pad dest dp (Z.to_nat n).

(** [while (sl >= subl)]; [s] moves with [sl]. *)
Fixpoint strstr_loop (s sub : list Z) (sl subl : Z) : res (option (list Z)) :=
  if sl <? subl then Ok None
  else
    let! d := strncmp s sub subl in
    if d =? 0 then Ok (Some s)
    else match s with [] => Fault Out_of_bounds | _ :: s => strstr_loop s sub (sl - 1) subl end.

Definition strstr (s sub : option (list Z)) : res (option (list Z)) :=
  match s with
  | None => Ok None
  | Some s =>
      let! sub := of_option Null_deref sub in
      let! subl := strlen sub in
      if subl =? 0 then Ok (Some s)
      else let! sl := strlen s in strstr_loop s sub sl subl
  end.

Definition char_0 : Z := 48.
Definition char_9 : Z := 57.
Definition char_a : Z := 97.
Definition char_f : Z := 102.
Definition char_A : Z := 65.
Definition char_F : Z := 70.
Definition between (lo c hi : Z) : bool := (lo <=? c) && (c <=? hi).

(** [for (;;) switch (c)] of [strtoul], with [c] the last character read and [nptr]
    behind it. *)
Fixpoint strtoul_loop (c : Z) (nptr : list Z) (base val : Z) : res (Z * list Z) :=
  let next d :=
    match nptr with
    | [] => Fault Out_of_bounds
    | c' :: nptr' => strtoul_loop c' nptr' base (add64 (mul64 val base) d)
    end in
  if between char_0 c char_9 then next (c - char_0)
  else if between char_a c char_f then next (10 + (c - char_a))
  else if between char_A c char_F then next (10 + (c - char_A))
  else Ok (val, nptr).

Definition next_char (nptr : list Z) : res (Z * list Z) :=
  match nptr with [] => Fault Out_of_bounds | c :: nptr => Ok (c, nptr) end.

(** The value, and what is stored through [endptr] if it is not null: the pointer, and
    the index from [endptr] at which it goes, which [ep++] has moved. *)
Definition strtoul (nptr : option (list Z)) (endptr : bool) (base : Z) : res (Z * option (Z * list Z)) :=
  let ep := 1 in
  match nptr with
  | None => Ok (0, None)
  | Some nptr =>
      let! cn := next_char nptr in
      let! r :=
        if base =? 0 then
          if fst cn =? char_0 then
            let! cn := next_char (snd cn) in
            if (fst cn =? 120) || (fst cn =? 88) then
              let! cn := next_char (snd cn) in Ok (cn, 16)
            else Ok (cn, 8)
          else Ok (cn, 10)
        else Ok (cn, base) in
      let '(cn, base) := r in
      let! r := strtoul_loop (fst cn) (snd cn) (u64 base) 0 in
      let '(val, nptr) := r in
      Ok (val, if endptr then Some (ep, nptr) else None)
  end.

(** *** Hexadecimal digits *)
Definition char2hex (c : Z) : Z :=
  if between char_a c char_f then c - char_a + 10
  else if between char_0 c char_9 then c - char_0
  else if between char_A c char_F then c - char_A + 10
  else -1.

Definition hex_digits : list Z := (fun i => char_0 + Z.of_nat i) <$> seq 0 10.
Definition hex_lower : list Z := hex_digits ++ ((fun i => char_a + Z.of_nat i) <$> seq 0 6).

Definition hex2char (x : Z) : Z := hex_lower !!! Z.to_nat (Z.land x 15).

(** Returned as a [char]. *)
Definition str2hex (str : list Z) : res Z :=
  let! c0 := aget str 0 in
  let! c1 := aget str 1 in
  Ok (Z.lor (Z.shiftl (char2hex c0) 4) (char2hex c1) mod 256).

Fixpoint str2uval_loop (str : list Z) (bytes x i : Z) : res Z :=
  match str with
  | [] => Fault Out_of_bounds
  | c :: str =>
      if truth c && (i <? mul64 bytes 2) then str2uval_loop str bytes (add64 (shl64 x 4) (char2hex c)) (i + 1)
      else Ok x
  end.

Definition str2uval (str : list Z) (bytes : Z) : res Z := str2uval_loop str bytes 0 0.

(** *** What the string routines compute *)

(** The characters [l], their terminator, and what lies behind it. *)
Definition cstr (l rest : list Z) : list Z := l ++ 0 :: rest.
Definition no_nul (l : list Z) : Prop := Forall (fun c => c <> 0) l.

Lemma strlen_spec l rest : no_nul l -> strlen (cstr l rest) = Ok (Z.of_nat (length l)).
Proof.
  unfold cstr. induction 1 as [|c l Hc Hl IH]; [done|]. cbn [strlen app]. destruct (Z.eqb_spec c 0); [done|].
  rewrite IH. cbn [res_bind length]. f_equal. lia.
Qed.

Lemma strnlen_from_spec l rest maxlen : forall i,
  no_nul l -> 0 <= i -> strnlen_from (cstr l rest) maxlen i = Ok (Z.max i (Z.min maxlen (i + Z.of_nat (length l)))).
Proof.
  unfold cstr. intros i Hl. revert i. induction Hl as [|c l Hc Hl IH]; intros i Hi; cbn [strnlen_from app length].
  - simpl. f_equal. lia.
  - destruct (Z.eqb_spec c 0); [done|]. simpl. destruct (Z.ltb_spec i maxlen).
    + rewrite IH by lia. f_equal. lia.
    + f_equal. lia.
Qed.

(** [strncmp] on strings tells whether their first [n] characters are the same. *)
Lemma strncmp_spec a ra b rb n :
  no_nul a -> no_nul b ->
  exists d, strncmp (cstr a ra) (cstr b rb) n = Ok d /\ (d = 0 <-> take (Z.to_nat n) a = take (Z.to_nat n) b).
Proof.
  unfold cstr. intros Ha. revert b n. induction Ha as [|x a Hx Ha IH]; intros b n Hb; cbn [strncmp app].
  - destruct (Z.leb_spec n 0) as [H|H]; [replace (Z.to_nat n) with 0%nat by lia; eexists; split; [done|]; by rewrite !take_0|].
    destruct b as [|y b]; cbn [app]; [eexists; split; [done|]; done|].
    apply Forall_cons in Hb as [Hy _]. destruct (Z.eqb_spec 0 y); [lia|]. simpl. eexists; split; [done|].
    destruct (Z.to_nat n) eqn:E; [lia|]. rewrite take_nil. cbn [take]. split; [lia|done].
  - destruct (Z.leb_spec n 0) as [H|H]; [replace (Z.to_nat n) with 0%nat by lia; eexists; split; [done|]; by rewrite !take_0|].
    destruct b as [|y b]; cbn [app].
    + destruct (Z.eqb_spec x 0); [done|]. simpl. eexists; split; [done|].
      destruct (Z.to_nat n) eqn:E; [lia|]. rewrite take_nil. cbn [take]. split; [lia|done].
    + apply Forall_cons in Hb as [Hy Hb]. destruct (IH b (n - 1) Hb) as (d & Ed & Hd).
      destruct (Z.to_nat n) as [|k] eqn:E; [lia|]. replace (Z.to_nat (n - 1)) with k in Hd by lia. cbn [take].
      destruct (Z.eqb_spec x y) as [->|Hxy]; simpl.
      * destruct (Z.eqb_spec y 0); [done|]. rewrite Ed. eexists; split; [done|]. rewrite Hd. split; [by intros ->|by intros [= ->]].
      * eexists; split; [done|]. split; [lia|by intros [= ->]].
Qed.

Lemma strcmp_spec a ra b rb :
  no_nul a -> no_nul b -> exists d, strcmp (cstr a ra) (cstr b rb) = Ok d /\ (d = 0 <-> a = b).
Proof.
  unfold cstr. intros Ha. revert b. induction Ha as [|x a Hx Ha IH]; intros [|y b] Hb; cbn [strcmp app].
  - by exists 0.
  - apply Forall_cons in Hb as [Hy Hb]. destruct (Z.eqb_spec 0 y); [lia|]. eexists; split; [done|]. split; [lia|done].
  - destruct (Z.eqb_spec x 0); [done|]. eexists; split; [done|]. split; [lia|done].
  - apply Forall_cons in Hb as [Hy Hb]. destruct (Z.eqb_spec x y) as [->|Hxy].
    + destruct (Z.eqb_spec y 0); [done|]. destruct (IH b Hb) as (d & -> & Hd). eexists; split; [done|]. rewrite Hd.
      split; [by intros ->|by intros [= ->]].
    + eexists; split; [done|]. split; [lia|by intros [= ->]].
Qed.

Lemma memcmp_spec a ra b rb :
  length a = length b ->
  exists d, memcmp (a ++ ra) (b ++ rb) (Z.of_nat (length a)) = Ok d /\ (d = 0 <-> a = b).
Proof.
  revert b. induction a as [|x a IH]; intros [|y b] Hl; try discriminate; cbn [app length].
  - exists 0. destruct ra; done.
  - injection Hl as Hl. cbn [memcmp]. destruct (Z.leb_spec (Z.of_nat (S (length a))) 0); [lia|].
    destruct (Z.eqb_spec x y) as [->|Hxy]; simpl negb; cbv iota.
    + destruct (IH b Hl) as (d & Ed & Hd). exists d. split; [rewrite <- Ed; f_equal; lia|]. rewrite Hd.
      split; [by intros ->|by intros [= ->]].
    + eexists; split; [done|]. split; [lia|by intros [= ->]].
Qed.

Lemma aset_next {A} (pre : list A) x d c : aset (pre ++ x :: d) (Z.of_nat (length pre)) c = Ok ((pre ++ [c]) ++ d).
Proof.
  unfold aset. rewrite length_app. simpl. destruct (_ && _) eqn:E; [|zcases].
  rewrite Nat2Z.id, insert_app_r_alt, Nat.sub_diag by done. simpl. by rewrite <- app_assoc.
Qed.

Lemma strncpy_pad_spec n : forall pre d,
  (n <= length d)%nat -> strncpy_pad (pre ++ d) (Z.of_nat (length pre)) n = Ok (pre ++ replicate n 0 ++ drop n d).
Proof.
  induction n as [|n IH]; intros pre [|x d] H; simpl in H; try lia; cbn [strncpy_pad]; [done..|].
  rewrite aset_next. cbn [res_bind]. replace (Z.of_nat (length pre) + 1) with (Z.of_nat (length (pre ++ [0]))) by (rewrite length_app; simpl; lia).
  rewrite IH by lia. by rewrite <- app_assoc.
Qed.

Lemma strncpy_copy_spec l rest : forall pre d n,
  no_nul l -> l <> [] -> 0 < n -> (Z.to_nat n <= length d)%nat ->
  let k := Nat.min (Z.to_nat n) (length l) in
  strncpy_copy (cstr l rest) (pre ++ d) (Z.of_nat (length pre)) n =
  Ok ((pre ++ take k l) ++ drop k d, Z.of_nat (length (pre ++ take k l)), n - Z.of_nat k).
Proof.
  unfold cstr. intros pre d n Hl. revert pre d n. induction Hl as [|c l Hc Hl IH]; intros pre d n Hne Hn Hd; [done|].
  destruct d as [|x d]; [simpl in Hd; lia|]. cbn [strncpy_copy app]. rewrite aset_next. cbn [res_bind length] in *.
  replace (Z.of_nat (length pre) + 1) with (Z.of_nat (length (pre ++ [c]))) by (rewrite length_app; simpl; lia).
  replace (Nat.min (Z.to_nat n) (S (length l))) with (S (Nat.min (Z.to_nat (n - 1)) (length l))) by lia. cbn [take drop].
  destruct l as [|c' l].
  - simpl. rewrite Nat.min_0_r. simpl. done.
  - cbn [deref app res_bind]. apply Forall_cons in Hl as [Hc' _]. destruct (Z.eqb_spec c' 0); [done|]. simpl negb. cbn [andb].
    destruct (Z.ltb_spec 0 (n - 1)).
    + specialize (IH (pre ++ [c]) d (n - 1)). cbn [app] in IH. rewrite IH by (done || lia).
      rewrite <- !app_assoc. cbn [app length]. do 2 f_equal. lia.
    + replace (Z.to_nat (n - 1)) with 0%nat by lia. simpl. done.
Qed.

(** [strncpy] of a string that is not empty: its characters up to [n], then nulls. *)
Lemma strncpy_spec l rest d n :
  no_nul l -> l <> [] -> 0 <= n -> (Z.to_nat n <= length d)%nat ->
  let k := Nat.min (Z.to_nat n) (length l) in
  strncpy d (cstr l rest) n = Ok (take k l ++ replicate (Z.to_nat n - k) 0 ++ drop (Z.to_nat n) d).
Proof.
  intros Hl Hne Hn Hd k. unfold strncpy. destruct (Z.leb_spec n 0).
  { subst k. replace (Z.to_nat n) with 0%nat by lia. by rewrite Nat.min_0_l. }
  pose proof (strncpy_copy_spec l rest [] d n Hl Hne ltac:(lia) Hd) as E. cbn [app length] in E. change (Z.of_nat 0) with 0 in E.
  rewrite E. cbn [res_bind]. fold k. rewrite strncpy_pad_spec by (rewrite length_drop; lia).
  replace (Z.to_nat (n - Z.of_nat k)) with (Z.to_nat n - k)%nat by lia. rewrite drop_drop. do 4 f_equal. lia.
Qed.

(** Where [sub] first occurs in [l], if it does. *)
Fixpoint first_occurrence (l sub : list Z) : option (list Z * list Z) :=
  if bool_decide (take (length sub) l = sub) then Some ([], l)
  else
    match l with
    | [] => None
    | c :: l => '(pre, tl) ← first_occurrence l sub; Some (c :: pre, tl)
    end.

(** No position before the one found has [sub] at it; where none is found, none has. *)
Lemma first_occurrence_spec l sub :
  match first_occurrence l sub with
  | Some (pre, tl) => l = pre ++ tl /\ take (length sub) tl = sub /\
      forall j, (j < length pre)%nat -> take (length sub) (drop j l) <> sub
  | None => forall j, take (length sub) (drop j l) <> sub
  end.
Proof.
  induction l as [|c l IH]; cbn [first_occurrence].
  - case_bool_decide; [split_and!; [done..|simpl; lia]|]. intros j. by rewrite drop_nil.
  - case_bool_decide as E; [split_and!; [done..|simpl; lia]|]. destruct (first_occurrence l sub) as [[pre tl]|]; simpl.
    + destruct IH as (-> & H1 & H2). split_and!; [done..|]. intros [|j] Hj; [done|]. simpl. apply H2. lia.
    + intros [|j]; [done|]. apply IH.
Qed.

Lemma first_occurrence_short l sub : (length l < length sub)%nat -> first_occurrence l sub = None.
Proof.
  induction l as [|c l IH]; intros H; cbn [first_occurrence]; case_bool_decide as E;
    try (apply (f_equal length) in E; rewrite length_take in E; simpl in *; lia); [done|].
  rewrite IH by (simpl in H; lia). done.
Qed.

Lemma strstr_loop_spec l rest sub rs :
  no_nul l -> no_nul sub -> sub <> [] ->
  strstr_loop (cstr l rest) (cstr sub rs) (Z.of_nat (length l)) (Z.of_nat (length sub)) =
  Ok ('(_, tl) ← first_occurrence l sub; Some (cstr tl rest)).
Proof.
  intros Hl Hs Hne. destruct sub as [|x sub]; [done|].
  induction Hl as [|c l Hc Hl IH]; cbn [strstr_loop cstr app].
  - rewrite first_occurrence_short by (simpl; lia). by destruct (Z.ltb_spec (Z.of_nat (@length Z [])) (Z.of_nat (length (x :: sub)))); [|simpl in *; lia].
  - destruct (Z.ltb_spec (Z.of_nat (length (c :: l))) (Z.of_nat (length (x :: sub)))).
    { rewrite first_occurrence_short by lia. done. }
    destruct (strncmp_spec (c :: l) rest (x :: sub) rs (Z.of_nat (length (x :: sub)))) as (d & E & Hd); [by constructor|done|].
    unfold cstr in E. cbn [app] in E. rewrite E. cbn [res_bind]. rewrite Nat2Z.id in Hd.
    rewrite (firstn_all (x :: sub)) in Hd. cbn [first_occurrence]. case_bool_decide as Eb.
    + apply Hd in Eb as ->. done.
    + destruct (Z.eqb_spec d 0) as [E0|E0]; [by apply Hd in E0|].
      replace (Z.of_nat (length (c :: l)) - 1) with (Z.of_nat (length l)) by (simpl; lia).
      etransitivity; [exact IH|]. by destruct (first_occurrence l (x :: sub)) as [[? ?]|].
Qed.

(** [strstr] returns a pointer to the first occurrence of the substring in the string,
    and null when it does not occur: no position before the one returned has the substring
    at it, and the empty string is found at the start. *)
Theorem strstr_first l rest sub rs :
  no_nul l -> no_nul sub ->
  exists o, strstr (Some (cstr l rest)) (Some (cstr sub rs)) = Ok o /\
    match o with
    | Some p => exists pre tl, p = cstr tl rest /\ l = pre ++ tl /\ take (length sub) tl = sub /\
        forall j, (j < length pre)%nat -> take (length sub) (drop j l) <> sub
    | None => forall j, take (length sub) (drop j l) <> sub
    end.
Proof.
  intros Hl Hs. unfold strstr. cbn [of_option res_bind]. rewrite strlen_spec by done. cbn [res_bind].
  pose proof (first_occurrence_spec l sub) as H. destruct (Z.eqb_spec (Z.of_nat (length sub)) 0) as [E|E].
  - exists (Some (cstr l rest)). split; [done|]. exists [], l. destruct sub; [|simpl in E; lia].
    split_and!; [done..|]. simpl. lia.
  - rewrite strlen_spec by done. cbn [res_bind]. rewrite strstr_loop_spec; [|done..|by intros ->].
    eexists; split; [done|]. destruct (first_occurrence l sub) as [[pre tl]|]; simpl; [|done]. by exists pre, tl.
Qed.

Lemma strstr_first_witness :
  exists o, strstr (Some (cstr [97; 98; 97; 98; 99] [7])) (Some (cstr [97; 98; 99] [])) = Ok o /\
    match o with
    | Some p => exists pre tl, p = cstr tl [7] /\ [97; 98; 97; 98; 99] = pre ++ tl /\ take 3 tl = [97; 98; 99] /\
        forall j, (j < length pre)%nat -> take 3 (drop j [97; 98; 97; 98; 99]) <> [97; 98; 99]
    | None => forall j, take 3 (drop j [97; 98; 97; 98; 99]) <> [97; 98; 99]
    end.
Proof. apply (strstr_first [97; 98; 97; 98; 99] [7] [97; 98; 99] []); repeat constructor; done. Defined.

(** C32: [memcpy], [memmove] and [memset] do to memory what the byte-wise copy and fill the
    rest of the development uses do, whatever unit they choose to move: [memcpy] when the
    lower half of one of the addresses or of the length is not zero ([memcpy_4g_units]) and no byte would be
    read after it was overwritten, [memmove] for all ranges, [memset] for every fill value of one byte
    ([memset_wide_value]). *)
Theorem mem_routines_bytewise m dest src n c :
  bytes_ok m -> 0 <= dest -> 0 <= src -> 0 <= n < 2 ^ 64 -> 0 <= c < 256 ->
  (u32 (Z.lor (Z.lor dest src) n) <> 0 -> no_smear dest src n ->
   exists m', memcpy m dest src n = Ok m' /\ forall a, m' a = copy_mem m dest src n a) /\
  (forall a, memmove m dest src n a = copy_mem m dest src n a) /\
  (forall a, memset m dest c n a = PgAlloc.memset m dest c n a).
Proof.
  intros Hm Hd Hs Hn Hc. split_and!.
  - intros Hl Ho. apply memcpy_spec; done || lia.
  - intros a. apply memmove_spec. lia.
  - intros a. by apply memset_spec.
Qed.

Definition ramp : pmem := fun a => a mod 256.

Lemma mem_routines_bytewise_witness :
  (exists m', memcpy ramp 4096 8196 24 = Ok m' /\ forall a, m' a = copy_mem ramp 4096 8196 24 a) /\
  (forall a, memset ramp 4096 170 24 a = PgAlloc.memset ramp 4096 170 24 a).
Proof.
  assert (bytes_ok ramp) as H by (intros a; unfold ramp; apply Z.mod_pos_bound; lia).
  destruct (mem_routines_bytewise ramp 4096 8196 24 170 H ltac:(lia) ltac:(lia) ltac:(lia) ltac:(lia)) as (H1 & _ & H3).
  split; [|exact H3]. apply H1; [by vm_compute|left; lia].
Defined.

(** *** Where they fall short *)

(** [ffs] takes an [int]: a copy of whole four-gigabyte units between such addresses
    shifts by minus one. *)
Example memcpy_4g_units m : memcpy m 0 (2 ^ 32) (2 ^ 32) = Fault Bad_shift.
Proof. reflexivity. Qed.

(** A fill value is not reduced to a byte before it is spread over a word. *)
Example memset_wide_value : memset (fun _ => 0) 0 384 16 1 = 129 /\ memset (fun _ => 0) 0 384 8 1 = 128.
Proof. split; reflexivity. Qed.

(** The bounded length reads one character past its bound. *)
Example strnlen_reads_past : strnlen [97; 98] 2 = Fault Out_of_bounds.
Proof. reflexivity. Qed.

(** Copying the empty string goes on behind its terminator. *)
Example strncpy_empty_runs_on : strncpy [1; 1; 1; 1] [0; 97; 98; 0] 4 = Ok [0; 97; 98; 0].
Proof. reflexivity. Qed.

(** No null test of the substring. *)
Example strstr_null_sub : strstr (Some [97; 0]) None = Fault Null_deref.
Proof. reflexivity. Qed.

(** The end pointer goes into the word after the one [endptr] points at, and points
    past the character that ended the number. *)
Example strtoul_end_misplaced : strtoul (Some [49; 50; 32; 120; 0]) true 10 = Ok (12, Some (1, [120; 0])).
Proof. reflexivity. Qed.

(** Digits of a larger base are taken. *)
Example strtoul_any_digit : strtoul (Some [48; 57; 0]) false 0 = Ok (9, None).
Proof. reflexivity. Qed.

(** A character that is no digit counts as minus one. *)
Example str2uval_not_hex : str2uval [49; 122; 0] 8 = Ok 15.
Proof. reflexivity. Qed.

Lemma char2hex_hex2char x : char2hex (hex2char x) = Z.land x 15.
Proof.
  unfold hex2char. assert (0 <= Z.land x 15 < 16) as H.
  { change 15 with (Z.ones 4). rewrite Z.land_ones by lia. apply Z.mod_pos_bound. lia. }
  generalize dependent (Z.land x 15). intros y Hy.
  assert (Forall (fun i => char2hex (hex_lower !!! i) = Z.of_nat i) (seq 0 16)) as HF by (repeat constructor).
  rewrite Forall_forall in HF. rewrite HF; [lia|]. apply elem_of_seq. lia.
Qed.
