(* ===== verification/Snprintf.v ===== *)
(** * Snprintf: formatted printing

    [lib/snprintf.c], and [hputs], [_vhprintf] and [hstrerror] of [lib/print.c].  A
    format is the bytes from its first character to the end of the array it lies in.
    Every argument of PowerPC's calling convention is a doubleword: [Num] is one that
    holds a number or an address, [Str] one that points at a string. *)

From S2P Require Import Prelude Hcall Clib.

(** ** Numbers *)
Definition UPPER : Z := 1.
Definition SIGNED : Z := 16.
Definition ZERO : Z := 256.
Definition PTR : Z := 4096.
Definition NUMBUFSZ : Z := 24.

Definition hex_upper : list Z := hex_digits ++ ((fun i => char_A + Z.of_nat i) <$> seq 0 6).
Definition hex_x : list Z := hex_lower ++ [120].
Definition Hex_X : list Z := hex_upper ++ [88].

(** [while (val > 0) { num[i++] = dig[val % radix]; val /= radix; }]: [num] is the part
    of the array that is filled. *)
Fixpoint digits_loop (fuel : nat) (dig num : list Z) (val radix : Z) : res (list Z) :=
  match fuel with
  | O => Fault Out_of_fuel
  | S fuel =>
      if 0 <? val then
        check! Z.of_nat (length num) <? NUMBUFSZ else Out_of_bounds in
        let! d := aget dig (val mod radix) in
        digits_loop fuel dig (num ++ [d]) (val / radix) radix
      else Ok num
  end.

(** The bytes written to [buf], which are as many as [digits] returns.  The array [num]
    is full before the loop has gone round more than [NUMBUFSZ] times. *)
Definition digits (val radix width flgs : Z) : res (list Z) :=
  let radix := if (radix =? 0) || (16 <? radix) then 16 else radix in
  let dig := if truth (Z.land flgs UPPER) then Hex_X else hex_x in
  let neg := truth (Z.land flgs SIGNED) && (radix =? 10) && (s64 val <? 0) in
  let sign := if neg then [45] else [] in
  let val := if neg then mul64 val ONES64 else val in
  let! ptr :=
    if truth (Z.land flgs PTR) && (radix =? 16) then
      let! x := aget dig 16 in Ok [char_0; x]
    else Ok [] in
  let! num := if val =? 0 then Ok [char_0] else digits_loop 25 dig [] val radix in
  let i := Z.of_nat (length num) in
  let pad := if truth (Z.land flgs ZERO) && (i <? width) then replicate (Z.to_nat (width - i)) char_0 else [] in
  Ok (sign ++ ptr ++ pad ++ rev num).

(** ** Formats *)
Inductive arg : Type :=
  | Num (v : Z)
  | Str (s : option (list Z)).

(** What has been written to the buffer, how much there was to write, the arguments
    left, and the stores of [%n]: address, size and value. *)
Record fmt_state : Type := FmtState {
  out : list Z;
  used : Z;
  ap : list arg;
  stores : list (Z * Z * Z);
}.

Definition va_arg (st : fmt_state) : res (arg * fmt_state) :=
  match ap st with
  | [] => Fault Out_of_bounds
  | a :: ap' => Ok (a, FmtState (out st) (used st) ap' (stores st))
  end.

Definition va_num (st : fmt_state) : res (Z * fmt_state) :=
  let! r := va_arg st in
  match fst r with
  | Num v => Ok (v, snd r)
  | Str _ => Fault Out_of_bounds
  end.

(** [if (used++ < size) *buf++ = c;] *)
Definition emit (size : Z) (st : fmt_state) (c : Z) : fmt_state :=
  FmtState (if used st <? size then out st ++ [c] else out st) (used st + 1) (ap st) (stores st).

Definition emits (size : Z) (st : fmt_state) (cs : list Z) : fmt_state := foldl (emit size) st cs.

(** [while ( *str != 0) ...] *)
Fixpoint emit_str (size : Z) (st : fmt_state) (str : list Z) : res fmt_state :=
  match str with
  | [] => Fault Out_of_bounds
  | c :: str => if c =? 0 then Ok st else emit_str size (emit size st c) str
  end.

Definition is_digit (c : Z) : bool := between char_0 c char_9.

(** The width: [while (c >= '0' && c <= '9')]. *)
Fixpoint width_loop (fmt : list Z) (width : Z) : res (Z * list Z) :=
  match fmt with
  | [] => Fault Out_of_bounds
  | c :: fmt' =>
      if is_digit c then width_loop fmt' (add64 (mul64 width 10) (c - char_0)) else Ok (width, fmt)
  end.

(** The length modifiers: [loop:], up to the character that is none. *)
Fixpoint length_loop (fmt : list Z) (ells : Z) : res (Z * Z * list Z) :=
  match fmt with
  | [] => Fault Out_of_bounds
  | c :: fmt =>
      if c =? 108 then length_loop fmt (u32 (ells + 1))        (* l *)
      else if c =? 104 then length_loop fmt 0                  (* h *)
      else if c =? 76 then length_loop fmt 2                   (* L *)
      else if c =? 90 then length_loop fmt 1                   (* Z *)
      else Ok (c, ells, fmt)
  end.

(** The widths [va_arg] takes by [ells]: signed, then unsigned. *)
Definition signed_arg (ells v : Z) : Z := if ells =? 0 then u64 (s32 v) else u64 v.
Definition unsigned_arg (ells v : Z) : Z := if ells =? 0 then u32 v else u64 v.

(** [print_value:]; the number goes through [num], [NUMBUFSZ] bytes on the stack. *)
Definition print_value (size : Z) (st : fmt_state) (val radix width flgs : Z) : res fmt_state :=
  let! num := digits val radix width flgs in
  check! Z.of_nat (length num) <=? NUMBUFSZ else Out_of_bounds in
  Ok (emits size st num).

Definition print_uvalue (size : Z) (st : fmt_state) (ells radix width flgs : Z) : res fmt_state :=
  let! r := va_num st in
  print_value size (snd r) (unsigned_arg ells (fst r)) radix width flgs.

(** The [switch] on the conversion character. *)
Definition convert (size : Z) (st : fmt_state) (c ells width flgs : Z) : res fmt_state :=
  if c =? 115 then                                             (* s *)
    let! r := va_arg st in
    match fst r with
    | Str (Some str) => emit_str size (snd r) str
    | Str None => emit_str size (snd r) (cstr [40; 110; 105; 108; 41] [])
    | Num v => if v =? 0 then emit_str size (snd r) (cstr [40; 110; 105; 108; 41] []) else Fault Out_of_bounds
    end
  else if c =? 99 then                                         (* c *)
    let! r := va_num st in Ok (emit size (snd r) (fst r mod 256))
  else if c =? 37 then Ok (emit size st c)                     (* % *)
  else if c =? 110 then                                        (* n *)
    let! r := va_num st in
    let st := snd r in
    let sz := if ells =? 0 then 4 else 8 in
    Ok (FmtState (out st) (used st) (ap st) (stores st ++ [(fst r, sz, used st mod 2 ^ (8 * sz))]))
  else if c =? 112 then                                        (* p *)
    let! r := va_num st in
    print_value size (snd r) (u64 (fst r)) 16 16 (Z.lor flgs (Z.lor PTR ZERO))
  else if (c =? 100) || (c =? 105) then                        (* d, i *)
    let! r := va_num st in
    print_value size (snd r) (signed_arg ells (fst r)) 10 width (Z.lor flgs SIGNED)
  else if c =? 117 then print_uvalue size st ells 10 width flgs  (* u *)
  else if c =? 111 then print_uvalue size st ells 8 width flgs   (* o *)
  else if c =? 88 then print_uvalue size st ells 16 width (Z.lor flgs UPPER)  (* X *)
  else if c =? 120 then print_uvalue size st ells 16 width flgs  (* x *)
  else Ok st.

(** [while ((c = *fmt++) != 0)] *)
Fixpoint fmt_loop (fuel : nat) (size : Z) (fmt : list Z) (st : fmt_state) : res fmt_state :=
  match fuel with
  | O => Fault Out_of_fuel
  | S fuel =>
      let! r := next_char fmt in
      let '(c, fmt) := r in
      if c =? 0 then Ok st
      else if negb (c =? 37) then fmt_loop fuel size fmt (emit size st c)
      else
        let! c := deref fmt in
        let flgs := if is_digit c then ZERO else 0 in
        let! w := width_loop fmt 0 in
        let! l := length_loop (snd w) 0 in
        let '(c, ells, fmt) := l in
        let! st := convert size st c ells (fst w) flgs in
        fmt_loop fuel size fmt st
  end.

(** What is written from [buf] on, the value returned, and the stores of [%n].  Every round
    takes a character of the format. *)
Definition vsnprintf (size : Z) (fmt : list Z) (args : list arg) : res (list Z * Z * list (Z * Z * Z)) :=
  let nullify := negb (size =? 0) in
  let size := if nullify then size - 1 else size in
  let! st := fmt_loop (S (length fmt)) size fmt (FmtState [] 0 args []) in
  Ok (out st ++ (if nullify then [0] else []), s32 (used st), stores st).

Definition snprintf (size : Z) (fmt : list Z) (args : list arg) := vsnprintf size fmt args.
Definition vsprintf (fmt : list Z) (args : list arg) := vsnprintf (not64 0) fmt args.
Definition sprintf (fmt : list Z) (args : list arg) := vsprintf fmt args.

(** ** Printing *)
Section Print.
(** What the output device has been given, and its [ic_write]. *)
Context {W : Type}.
Variable ic_write : W -> list Z -> W.

Record io_chan : Type := IoChan { ic_locked : bool; ic_dev : W }.

Definition chan_lock (c : io_chan) : res io_chan :=
  check! negb (ic_locked c) else Deadlock in Ok (IoChan true (ic_dev c)).
Definition chan_unlock (c : io_chan) : io_chan := IoChan false (ic_dev c).
Definition chan_write (c : io_chan) (bs : list Z) : io_chan := IoChan (ic_locked c) (ic_write (ic_dev c) bs).

Definition hout_set (print_out out : option io_chan) : option io_chan * option io_chan := (print_out, out).

Definition hputs (print_out : option io_chan) (buf : list Z) : res (option io_chan) :=
  match print_out with
  | None => Ok None
  | Some c =>
      let! len := strlen buf in
      let! c := chan_lock c in
      let c := chan_write c (take (Z.to_nat len) buf) in
      Ok (Some (chan_unlock c))
  end.

Definition PRINT_BUFSZ : Z := 256.
(** "(TRUNCATED)\n" *)
Definition trunc_msg : list Z := cstr [40; 84; 82; 85; 78; 67; 65; 84; 69; 68; 41; 10] [].

(** The bytes of [hbuf] behind what [vsnprintf] wrote are not printed. *)
Definition _vhprintf (print_out : option io_chan) (fmt : list Z) (args : list arg) (lk : bool)
  : res (Z * option io_chan) :=
  match print_out with
  | None => Ok (-1, None)
  | Some c =>
      let! r := vsnprintf PRINT_BUFSZ fmt args in
      let '(hbuf, ret, _) := r in
      let sz := u64 ret in
      let! c := if lk then chan_lock c else Ok c in
      let '(c, sz) :=
        if sz <? PRINT_BUFSZ then (chan_write c (take (Z.to_nat sz) hbuf), sz)
        else (chan_write (chan_write c (take (Z.to_nat PRINT_BUFSZ) hbuf)) trunc_msg, PRINT_BUFSZ) in
      Ok (sz, Some (if lk then chan_unlock c else c))
  end.

Definition vhprintf (print_out : option io_chan) (fmt : list Z) (args : list arg) := _vhprintf print_out fmt args true.
Definition hprintf (print_out : option io_chan) (fmt : list Z) (args : list arg) := _vhprintf print_out fmt args true.
End Print.
Arguments io_chan W : clear implicits.

(** ** Numbers are read back *)

(** The value of a digit character, as [strtoul] takes it. *)
Definition digit_value (c : Z) : option Z :=
  if between char_0 c char_9 then Some (c - char_0)
  else if between char_a c char_f then Some (10 + (c - char_a))
  else if between char_A c char_F then Some (10 + (c - char_A))
  else None.

Definition is_dig (dig : list Z) : Prop := forall d, 0 <= d < 16 -> exists c, aget dig d = Ok c /\ digit_value c = Some d.

Lemma is_dig_table dig :
  Forall (fun i => exists c, dig !! i = Some c /\ digit_value c = Some (Z.of_nat i)) (seq 0 16) -> is_dig dig.
Proof.
  intros H d Hd. rewrite Forall_forall in H. destruct (H (Z.to_nat d)) as (c & E & V); [apply elem_of_seq; lia|].
  exists c. rewrite Z2Nat.id in V by lia. split; [|done]. apply aget_ok; [lia|done].
Qed.

Lemma is_dig_hex : is_dig hex_x.
Proof. apply is_dig_table. repeat constructor; by eexists. Qed.
Lemma is_dig_Hex : is_dig Hex_X.
Proof. apply is_dig_table. repeat constructor; by eexists. Qed.

(** Digits, least significant first, and their value. *)
Inductive digits_of (radix : Z) : list Z -> Z -> Prop :=
  | digits_nil : digits_of radix [] 0
  | digits_cons c d cs v : digit_value c = Some d -> digits_of radix cs v -> digits_of radix (c :: cs) (v * radix + d).

Lemma digits_loop_spec dig radix k : forall fuel num val,
  is_dig dig -> 2 <= radix <= 16 -> 0 <= val < radix ^ Z.of_nat k -> (k < fuel)%nat ->
  Z.of_nat (length num) + Z.of_nat k <= NUMBUFSZ ->
  exists cs, digits_loop fuel dig num val radix = Ok (num ++ cs) /\ digits_of radix cs val /\ (length cs <= k)%nat.
Proof.
  induction k as [|k IH]; intros [|fuel] num val Hd Hr Hv Hf Hn; try lia; cbn [digits_loop].
  - simpl in Hv. destruct (Z.ltb_spec 0 val); [lia|]. exists []. assert (val = 0) as -> by lia.
    split_and!; [by rewrite app_nil_r|constructor|done].
  - destruct (Z.ltb_spec 0 val) as [Hp|Hp].
    + destruct (Z.ltb_spec (Z.of_nat (length num)) NUMBUFSZ); [|lia].
      destruct (Hd (val mod radix)) as (c & Ec & Vc); [pose proof (Z.mod_pos_bound val radix); lia|]. rewrite Ec. cbn [res_bind].
      destruct (IH fuel (num ++ [c]) (val / radix)) as (cs & E & Hcs & Hl); [done|done| |lia|rewrite length_app; simpl; lia|].
      { rewrite Nat2Z.inj_succ, Z.pow_succ_r in Hv by lia. split; [apply Z.div_pos; lia|]. apply Z.div_lt_upper_bound; lia. }
      exists (c :: cs). rewrite E, <- app_assoc. split_and!; [done| |simpl; lia].
      rewrite (Z.div_mod val radix) at 1 by lia. rewrite (Z.mul_comm radix). by constructor.
    + exists []. assert (val = 0) as -> by lia. split_and!; [by rewrite app_nil_r|constructor|simpl; lia].
Qed.

Definition eval_digits (base val : Z) (ds : list Z) : Z :=
  foldl (fun v c => v * base + default 0 (digit_value c)) val ds.

Lemma eval_rev radix cs v : digits_of radix cs v -> eval_digits radix 0 (rev cs) = v.
Proof.
  unfold eval_digits. induction 1 as [|c d cs v Hd H IH]; [done|]. simpl rev. rewrite foldl_app, IH. simpl. by rewrite Hd.
Qed.

Lemma eval_zeros base n ds : eval_digits base 0 (replicate n char_0 ++ ds) = eval_digits base 0 ds.
Proof. unfold eval_digits. rewrite foldl_app. f_equal. by induction n. Qed.

(** [strtoul] reads digits up to the first character that is none. *)
Lemma strtoul_loop_step c d nptr base val :
  digit_value c = Some d ->
  strtoul_loop c nptr base val =
  match nptr with [] => Fault Out_of_bounds | c' :: nptr' => strtoul_loop c' nptr' base (add64 (mul64 val base) d) end.
Proof.
  unfold digit_value. intros H. destruct nptr; cbn [strtoul_loop];
    repeat match type of H with context [if ?b then _ else _] => destruct b end; congruence.
Qed.

Lemma strtoul_loop_end c nptr base val : digit_value c = None -> strtoul_loop c nptr base val = Ok (val, nptr).
Proof.
  unfold digit_value. intros H. destruct nptr; cbn [strtoul_loop];
    repeat match type of H with context [if ?b then _ else _] => destruct b end; congruence.
Qed.

Lemma strtoul_loop_spec ds t rest base : forall val,
  Forall (fun c => is_Some (digit_value c)) ds -> digit_value t = None -> is_u64 val ->
  strtoul_loop (List.hd 0 (ds ++ t :: rest)) (List.tl (ds ++ t :: rest)) base val =
  Ok (u64 (eval_digits base val ds), rest).
Proof.
  intros val Hds Ht. revert val. induction Hds as [|c ds [d Hd] Hds IH]; intros val Hv; cbn [app List.hd List.tl].
  - rewrite strtoul_loop_end by done. unfold eval_digits. simpl. by rewrite u64_small by exact Hv.
  - rewrite (strtoul_loop_step c d) by done. specialize (IH (add64 (mul64 val base) d) (u64_range _)).
    destruct (ds ++ t :: rest) as [|c' r] eqn:E; [by destruct ds|]. cbn [List.hd List.tl] in IH. rewrite IH. f_equal. f_equal.
    unfold eval_digits at 2. simpl. rewrite Hd. simpl default. fold (eval_digits base (val * base + d) ds).
    unfold add64, mul64, u64. clear. generalize (val * base) as x. intros x.
    assert (((x mod 2 ^ 64 + d) mod 2 ^ 64) mod 2 ^ 64 = (x + d) mod 2 ^ 64) as H by (rewrite Zmod_mod, Zplus_mod_idemp_l; done).
    revert H. generalize ((x mod 2 ^ 64 + d) mod 2 ^ 64) as y. generalize (x + d) as z. unfold eval_digits.
    induction ds as [|c ds IH]; intros z y H; simpl; [done|]. apply IH.
    rewrite (Z.add_mod (y * base)), (Z.mul_mod y), H, <- Z.mul_mod, <- Z.add_mod by done. done.
Qed.

(** The digits of a number without sign or prefix. *)
Lemma digits_plain val radix width flgs :
  0 <= val < 2 ^ 64 -> 8 <= radix <= 16 -> 0 <= width -> Z.land flgs SIGNED = 0 -> (Z.land flgs PTR = 0 \/ radix <> 16) ->
  exists num, digits val radix width flgs = Ok (replicate (if truth (Z.land flgs ZERO) then Z.to_nat width - length num else 0) char_0 ++ rev num) /\
    digits_of radix num val /\ (1 <= length num <= 22)%nat.
Proof.
  intros Hv Hr Hw Hs Hp. unfold digits. destruct (Z.eqb_spec radix 0), (Z.ltb_spec 16 radix); try lia. cbn [orb].
  set (dig := if truth (Z.land flgs UPPER) then Hex_X else hex_x).
  assert (is_dig dig) as Hd by (unfold dig; destruct (truth _); [apply is_dig_Hex|apply is_dig_hex]).
  rewrite Hs. change (truth 0) with false. cbn [andb].
  assert (truth (Z.land flgs PTR) && (radix =? 16) = false) as ->.
  { destruct Hp as [->|?]; [done|]. destruct (Z.eqb_spec radix 16); [done|]. apply andb_false_r. }
  cbn [res_bind].
  assert (exists num, (if val =? 0 then Ok [char_0] else digits_loop 25 dig [] val radix) = Ok num /\
    digits_of radix num val /\ (1 <= length num <= 22)%nat) as (num & -> & Hn & Hl).
  { destruct (Z.eqb_spec val 0) as [->|Hnz].
    - exists [char_0]. split_and!; [done| |simpl; lia..]. apply (digits_cons radix char_0 0 [] 0); [done|constructor].
    - destruct (digits_loop_spec dig radix 22 25 [] val) as (cs & E & Hcs & Hl); [done|lia| |lia|done|].
      { split; [lia|]. apply Z.lt_le_trans with (8 ^ 22); [lia|]. apply Z.pow_le_mono_l. lia. }
      exists cs. rewrite E. split_and!; [done..| |done]. destruct cs; [inversion Hcs; lia|simpl; lia]. }
  cbn [res_bind app]. exists num. split_and!; [|done|lia..]. do 2 f_equal.
  destruct (truth (Z.land flgs ZERO)); [|done]. cbn [andb]. destruct (Z.ltb_spec (Z.of_nat (length num)) width).
  - f_equal. lia.
  - by replace (Z.to_nat width - length num)%nat with 0%nat by lia.
Qed.

Lemma digits_of_digits radix cs v : digits_of radix cs v -> Forall (fun c => is_Some (digit_value c)) cs.
Proof. induction 1; constructor; [by eexists|done]. Qed.

Lemma padded_digits n radix num v :
  digits_of radix num v -> Forall (fun c => is_Some (digit_value c)) (replicate n char_0 ++ rev num).
Proof.
  intros H. apply Forall_app. split; [apply Forall_replicate; by eexists|]. apply Forall_rev. by eapply digits_of_digits.
Qed.

Lemma strtoul_digits ds t rest base :
  Forall (fun c => is_Some (digit_value c)) ds -> digit_value t = None -> base <> 0 -> is_u64 base ->
  strtoul (Some (ds ++ t :: rest)) false base = Ok (u64 (eval_digits base 0 ds), None).
Proof.
  intros Hds Ht Hb Hu. unfold strtoul. pose proof (strtoul_loop_spec ds t rest base 0 Hds Ht ltac:(done)) as E.
  destruct (ds ++ t :: rest) as [|c r] eqn:Es; [by destruct ds|]. cbn [next_char res_bind List.hd List.tl] in *.
  destruct (Z.eqb_spec base 0); [done|]. cbn [res_bind fst snd]. rewrite (u64_small base) by exact Hu. rewrite E. done.
Qed.

Lemma digits_pointer val :
  digits val 16 16 (Z.lor PTR ZERO) = let! ds := digits val 16 16 ZERO in Ok (char_0 :: 120 :: ds).
Proof.
  unfold digits. change ((16 =? 0) || (16 <? 16)) with false. cbv iota.
  change (truth (Z.land (Z.lor PTR ZERO) UPPER)) with false. change (truth (Z.land ZERO UPPER)) with false.
  change (truth (Z.land (Z.lor PTR ZERO) SIGNED)) with false. change (truth (Z.land ZERO SIGNED)) with false.
  change (truth (Z.land (Z.lor PTR ZERO) PTR)) with true. change (truth (Z.land ZERO PTR)) with false.
  change (truth (Z.land (Z.lor PTR ZERO) ZERO)) with true. change (truth (Z.land ZERO ZERO)) with true.
  cbn [andb]. change (16 =? 16) with true. change (aget hex_x 16) with (Ok 120). cbv iota. cbn [res_bind].
  destruct (if val =? 0 then _ else _) as [num|]; done.
Qed.

(** C31: an unsigned number that [digits] writes is read back by [strtoul]: in every radix from 8 to 16,
    in either case and padded to any width of at most [NUMBUFSZ] = 24, the size of the buffer, which
    is then not overrun (a larger width does overrun it: [width_overruns]); a pointer, written with its [0x] prefix, is read
    back with base 0.  Signed conversions are left out. *)
Theorem number_roundtrip val radix width flgs rest :
  0 <= val < 2 ^ 64 -> 8 <= radix <= 16 -> 0 <= width <= NUMBUFSZ -> Z.land flgs SIGNED = 0 -> Z.land flgs PTR = 0 ->
  (exists ds, digits val radix width flgs = Ok ds /\ Z.of_nat (length ds) <= NUMBUFSZ /\
     strtoul (Some (cstr ds rest)) false radix = Ok (val, None)) /\
  (exists ds, digits val 16 16 (Z.lor PTR ZERO) = Ok ds /\ Z.of_nat (length ds) <= NUMBUFSZ /\
     strtoul (Some (cstr ds rest)) false 0 = Ok (val, None)).
Proof.
  intros Hv Hr Hw Hs Hp. split.
  - destruct (digits_plain val radix width flgs) as (num & E & Hn & Hl); [done..|lia|done|by left|].
    eexists; split; [exact E|]. split.
    + rewrite length_app, length_replicate, length_rev. unfold NUMBUFSZ in *. destruct (truth _); lia.
    + unfold cstr. rewrite strtoul_digits; [|by eapply padded_digits|done|lia|unfold is_u64; lia].
      rewrite eval_zeros, (eval_rev radix num val) by done. by rewrite u64_small by done.
  - destruct (digits_plain val 16 16 ZERO) as (num & E & Hn & Hl); [done..|lia|done|by left|].
    rewrite digits_pointer, E. cbn [res_bind]. eexists; split; [done|]. change (truth (Z.land ZERO ZERO)) with true. cbv iota. split.
    + cbn [length]. rewrite length_app, length_replicate, length_rev. change NUMBUFSZ with 24. lia.
    + set (ds := replicate (Z.to_nat 16 - length num) char_0 ++ rev num). unfold cstr, strtoul. cbn [app next_char res_bind fst snd].
      pose proof (strtoul_loop_spec ds 0 rest 16 0 ltac:(by eapply padded_digits) ltac:(done) ltac:(done)) as El.
      destruct (ds ++ 0 :: rest) as [|c r] eqn:Es; [by destruct ds|]. cbn [next_char res_bind List.hd List.tl fst snd] in *.
      change (0 =? 0) with true. change (char_0 =? char_0) with true. change ((120 =? 120) || (120 =? 88)) with true. cbv iota. cbn [res_bind fst snd].
      change (u64 16) with 16. rewrite El. cbn [res_bind]. unfold ds. rewrite eval_zeros, (eval_rev 16 num val) by done.
      by rewrite u64_small by done.
Qed.

Lemma number_roundtrip_witness :
  (exists ds, digits 48879 16 8 (Z.lor ZERO UPPER) = Ok ds /\ Z.of_nat (length ds) <= NUMBUFSZ /\
     strtoul (Some (cstr ds [])) false 16 = Ok (48879, None)) /\
  (exists ds, digits 48879 16 16 (Z.lor PTR ZERO) = Ok ds /\ Z.of_nat (length ds) <= NUMBUFSZ /\
     strtoul (Some (cstr ds [])) false 0 = Ok (48879, None)).
Proof. apply (number_roundtrip 48879 16 8 (Z.lor ZERO UPPER) []); done || lia. Defined.

(** ** The bound of the buffer *)

(** The state of a run whose buffer holds [size] bytes, when all there was to write so far
    is [full]. *)
Definition cut (size : Z) (full : list Z) (args : list arg) (w : list (Z * Z * Z)) : fmt_state :=
  FmtState (take (Z.to_nat size) full) (Z.of_nat (length full)) args w.

Definition cut_res (size : Z) (r : res (list Z * list arg * list (Z * Z * Z))) : res fmt_state :=
  let! x := r in Ok (cut size (x.1.1) (x.1.2) (x.2)).

(** A step that writes the same whatever the size of the buffer. *)
Definition uniform (f : Z -> fmt_state -> res fmt_state) : Prop :=
  forall full args w, exists r, forall size, 0 <= size -> f size (cut size full args w) = cut_res size r.

Lemma emit_cut size full args w c : 0 <= size -> emit size (cut size full args w) c = cut size (full ++ [c]) args w.
Proof.
  intros Hs. unfold emit, cut. cbn [out used ap stores]. f_equal.
  - rewrite take_app. destruct (Z.ltb_spec (Z.of_nat (length full)) size).
    + f_equal. destruct (Z.to_nat size - length full)%nat eqn:E; [lia|]. cbn [take]. by rewrite take_nil.
    + replace (Z.to_nat size - length full)%nat with 0%nat by lia. by rewrite app_nil_r.
  - rewrite length_app. simpl. lia.
Qed.

Lemma emits_cut size cs : forall full args w, 0 <= size -> emits size (cut size full args w) cs = cut size (full ++ cs) args w.
Proof.
  unfold emits. induction cs as [|c cs IH]; intros full args w Hs; simpl; [by rewrite app_nil_r|].
  rewrite emit_cut, IH by done. by rewrite <- app_assoc.
Qed.

Lemma uniform_ok : uniform (fun _ st => Ok st).
Proof. intros full args w. by exists (Ok (full, args, w)). Qed.

Lemma uniform_fault f : uniform (fun _ _ => Fault f).
Proof. intros full args w. by exists (Fault f). Qed.

Lemma uniform_emit c : uniform (fun size st => Ok (emit size st c)).
Proof. intros full args w. exists (Ok (full ++ [c], args, w)). intros size Hs. by rewrite emit_cut. Qed.

Lemma uniform_bind f g : uniform f -> uniform g -> uniform (fun size st => let! st := f size st in g size st).
Proof.
  intros Hf Hg full args w. destruct (Hf full args w) as ([[[full' args'] w']|e] & E).
  - destruct (Hg full' args' w') as (r & Er). exists r. intros size Hs. rewrite E by done. simpl. by apply Er.
  - exists (Fault e). intros size Hs. by rewrite E by done.
Qed.

Lemma uniform_const {A} (m : res A) g : (forall a, uniform (g a)) -> uniform (fun size st => let! a := m in g a size st).
Proof. intros H. destruct m as [a|e]; simpl; [apply H|apply uniform_fault]. Qed.

Lemma uniform_va_arg g : (forall a, uniform (g a)) -> uniform (fun size st => let! r := va_arg st in g (fst r) size (snd r)).
Proof.
  intros H full args w. destruct args as [|a args]; [by exists (Fault Out_of_bounds)|].
  destruct (H a full args w) as (r & E). exists r. intros size Hs. by apply E.
Qed.

Lemma uniform_va_num g : (forall a, uniform (g a)) -> uniform (fun size st => let! r := va_num st in g (fst r) size (snd r)).
Proof.
  intros H full args w. destruct args as [|[v|s] args]; [by exists (Fault Out_of_bounds)| |by exists (Fault Out_of_bounds)].
  destruct (H v full args w) as (r & E). exists r. intros size Hs. by apply E.
Qed.

Lemma uniform_emit_str str : uniform (fun size st => emit_str size st str).
Proof.
  intros full. revert full. induction str as [|c str IH]; intros full args w; cbn [emit_str]; [by exists (Fault Out_of_bounds)|].
  destruct (c =? 0); [by exists (Ok (full, args, w))|]. destruct (IH (full ++ [c]) args w) as (r & E).
  exists r. intros size Hs. rewrite emit_cut by done. by apply E.
Qed.

Lemma uniform_print_value val radix width flgs : uniform (fun size st => print_value size st val radix width flgs).
Proof.
  unfold print_value. apply (uniform_const (digits val radix width flgs)). intros num.
  destruct (_ <=? _); [|apply uniform_fault]. intros full args w. exists (Ok (full ++ num, args, w)).
  intros size Hs. by rewrite emits_cut.
Qed.

Lemma uniform_print_uvalue ells radix width flgs : uniform (fun size st => print_uvalue size st ells radix width flgs).
Proof. apply (uniform_va_num (fun v size st => print_value size st (unsigned_arg ells v) radix width flgs)). intros v. apply uniform_print_value. Qed.

Create HintDb uniform.
#[local] Hint Resolve uniform_ok uniform_fault uniform_emit uniform_emit_str uniform_print_value uniform_print_uvalue : uniform.

Lemma uniform_convert c ells width flgs : uniform (fun size st => convert size st c ells width flgs).
Proof.
  unfold convert.
  destruct (c =? 115).
  { apply (uniform_va_arg (fun a size st => match a with
      | Str (Some str) => emit_str size st str
      | Str None => emit_str size st (cstr [40; 110; 105; 108; 41] [])
      | Num v => if v =? 0 then emit_str size st (cstr [40; 110; 105; 108; 41] []) else Fault Out_of_bounds
      end)).
    intros [v|[str|]]; [destruct (v =? 0)|..]; eauto with uniform. }
  destruct (c =? 99). { apply (uniform_va_num (fun v size st => Ok (emit size st (v mod 256)))). eauto with uniform. }
  destruct (c =? 37); [eauto with uniform|].
  destruct (c =? 110).
  { apply (uniform_va_num (fun v size st =>
      let sz := if ells =? 0 then 4 else 8 in
      Ok (FmtState (out st) (used st) (ap st) (stores st ++ [(v, sz, used st mod 2 ^ (8 * sz))])))).
    intros v full args w. set (sz := if ells =? 0 then 4 else 8).
    by exists (Ok (full, args, w ++ [(v, sz, Z.of_nat (length full) mod 2 ^ (8 * sz))])). }
  destruct (c =? 112). { apply (uniform_va_num (fun v size st => print_value size st (u64 v) 16 16 (Z.lor flgs (Z.lor PTR ZERO)))). eauto with uniform. }
  destruct (_ || _). { apply (uniform_va_num (fun v size st => print_value size st (signed_arg ells v) 10 width (Z.lor flgs SIGNED))). eauto with uniform. }
  repeat (match goal with |- context [if ?b then _ else _] => destruct b end; eauto with uniform).
Qed.

Lemma uniform_fmt_loop fuel : forall fmt, uniform (fun size st => fmt_loop fuel size fmt st).
Proof.
  induction fuel as [|fuel IH]; intros fmt; cbn [fmt_loop]; [apply uniform_fault|].
  apply (uniform_const (next_char fmt)). intros [c fmt1]. destruct (c =? 0); [apply uniform_ok|].
  destruct (negb (c =? 37)).
  - intros full args w. destruct (IH fmt1 (full ++ [c]) args w) as (r & E). exists r. intros size Hs.
    rewrite emit_cut by done. by apply E.
  - apply (uniform_const (deref fmt1)). intros d. apply (uniform_const (width_loop fmt1 0)). intros [width fmt2].
    apply (uniform_const (length_loop fmt2 0)). intros [[c2 ells] fmt3].
    apply (uniform_bind (fun size st => convert size st c2 ells width (if is_digit d then ZERO else 0))); [apply uniform_convert|apply IH].
Qed.

(** *** The rounds the loops are given are enough *)
Definition ends {A} (r : res A) : Prop := r <> Fault Out_of_fuel.

Lemma ends_bind {A B} (m : res A) (k : A -> res B) : ends m -> (forall a, m = Ok a -> ends (k a)) -> ends (res_bind m k).
Proof. unfold ends. destruct m; simpl; intros H1 H2; [by apply H2|congruence]. Qed.

Lemma ends_aget {A} (l : list A) i : ends (aget l i).
Proof. unfold aget, ends. destruct (i <? 0); [done|]. by destruct (l !! _). Qed.

Lemma ends_digits_loop dig radix fuel : forall num val,
  (length num <= 24)%nat -> (25 <= length num + fuel)%nat -> ends (digits_loop fuel dig num val radix).
Proof.
  induction fuel as [|fuel IH]; intros num val H1 H2; cbn [digits_loop]; [lia|].
  destruct (0 <? val); [|done]. unfold NUMBUFSZ. destruct (Z.ltb_spec (Z.of_nat (length num)) 24); [|done].
  apply ends_bind; [apply ends_aget|]. intros d _. apply IH; rewrite length_app; simpl; lia.
Qed.

Lemma ends_digits val radix width flgs : ends (digits val radix width flgs).
Proof.
  unfold digits. apply ends_bind.
  { destruct (_ && _); [|done]. apply ends_bind; [apply ends_aget|done]. }
  intros ptr _. apply ends_bind; [|done]. destruct (_ =? 0); [done|]. apply ends_digits_loop; simpl; lia.
Qed.

Lemma ends_emit_str size str : forall st, ends (emit_str size st str).
Proof. induction str as [|c str IH]; intros st; cbn [emit_str]; [done|]. destruct (c =? 0); [done|apply IH]. Qed.

Lemma ends_va_num {A} st (k : Z * fmt_state -> res A) : (forall a, ends (k a)) -> ends (res_bind (va_num st) k).
Proof. intros H. unfold va_num, va_arg. destruct (ap st) as [|[v|s] l]; simpl; done || apply H. Qed.

Lemma ends_print_value size st val radix width flgs : ends (print_value size st val radix width flgs).
Proof. unfold print_value. apply ends_bind; [apply ends_digits|]. intros num _. by destruct (_ <=? _). Qed.

Lemma ends_convert size st c ells width flgs : ends (convert size st c ells width flgs).
Proof.
  unfold convert, print_uvalue.
  repeat (match goal with |- ends (if ?b then _ else _) => destruct b end);
    try (apply ends_va_num; intros a); try done; try apply ends_print_value.
  unfold va_arg. destruct (ap st) as [|[v|[str|]] l]; cbn [res_bind fst snd]; try done; try apply ends_emit_str.
  destruct (v =? 0); [apply ends_emit_str|done].
Qed.

Lemma width_loop_rest fmt : forall w, match width_loop fmt w with Ok (_, r) => (length r <= length fmt)%nat | Fault f => f = Out_of_bounds end.
Proof.
  induction fmt as [|c fmt IH]; intros w; cbn [width_loop]; [done|]. destruct (is_digit c); [|done].
  specialize (IH (add64 (mul64 w 10) (c - char_0))). destruct (width_loop fmt _) as [[w' r]|]; [simpl; lia|done].
Qed.

Lemma length_loop_rest fmt : forall e, match length_loop fmt e with Ok (_, _, r) => (length r < length fmt)%nat | Fault f => f = Out_of_bounds end.
Proof.
  induction fmt as [|c fmt IH]; intros e; cbn [length_loop]; [done|].
  pose proof (IH (u32 (e + 1))) as H1. pose proof (IH 0) as H2. pose proof (IH 2) as H3. pose proof (IH 1) as H4.
  repeat match goal with |- context [if ?b then _ else _] => destruct b end;
    try match goal with |- context [length_loop fmt ?x] => destruct (length_loop fmt x) as [[[? ?] r]|] end; simpl in *; done || lia.
Qed.

(** Every round of the format loop takes a character. *)
Lemma fmt_loop_ends fuel : forall size fmt st, (length fmt < fuel)%nat -> ends (fmt_loop fuel size fmt st).
Proof.
  induction fuel as [|fuel IH]; intros size fmt st H; [lia|]. cbn [fmt_loop].
  destruct fmt as [|c fmt1]; cbn [next_char res_bind]; [done|]. simpl in H. destruct (c =? 0); [done|].
  destruct (negb (c =? 37)); [apply IH; lia|]. destruct (deref fmt1) as [d|] eqn:Ed; cbn [res_bind]; [|by destruct fmt1; inversion Ed].
  pose proof (width_loop_rest fmt1 0) as Hw. destruct (width_loop fmt1 0) as [[w fmt2]|f]; cbn [res_bind snd]; [|by subst f].
  pose proof (length_loop_rest fmt2 0) as Hl. destruct (length_loop fmt2 0) as [[[c2 e] fmt3]|f]; cbn [res_bind]; [|by subst f].
  apply ends_bind; [apply ends_convert|]. intros st' _. apply IH. lia.
Qed.

Lemma vsnprintf_ends size fmt args : ends (vsnprintf size fmt args).
Proof. unfold vsnprintf. apply ends_bind; [apply fmt_loop_ends; lia|done]. Qed.

(** [snprintf] is [sprintf] cut to the buffer: it writes the first [size - 1] bytes of
    what [sprintf] would write and a null, nothing at all when [size] is zero, never more
    than [size] bytes, and returns the length of the whole text. *)
Theorem snprintf_truncates size fmt args w n st :
  0 <= size -> sprintf fmt args = Ok (w, n, st) -> Z.of_nat (length w) < 2 ^ 64 - 2 ->
  exists text, w = text ++ [0] /\
    snprintf size fmt args = Ok (if size =? 0 then [] else take (Z.to_nat (size - 1)) text ++ [0], n, st) /\
    forall w' n' st', snprintf size fmt args = Ok (w', n', st') -> Z.of_nat (length w') <= size.
Proof.
  intros Hs H Hl. unfold sprintf, vsprintf, snprintf, vsnprintf in *.
  assert (2 ^ 64 - 1 = not64 0) as EB by reflexivity. revert EB H. generalize (not64 0) as B. intros B EB H.
  destruct (uniform_fmt_loop (S (length fmt)) fmt [] args []) as (r & E).
  assert (forall sz, FmtState [] 0 args [] = cut sz [] args []) as Ec by (intros sz; unfold cut; by rewrite take_nil).
  destruct (Z.eqb_spec B 0) as [|_]; [lia|]. cbn [negb] in H. rewrite (Ec (B - 1)), E in H by lia.
  destruct r as [[[full args'] w0]|f]; [|discriminate]. cbn [cut_res res_bind fst snd cut out used stores] in H.
  injection H as <- <- <-. rewrite length_app, length_take in Hl. simpl in Hl.
  rewrite take_ge by lia. exists full. split; [done|].
  rewrite (Ec (if negb (size =? 0) then size - 1 else size)), E by (destruct (Z.eqb_spec size 0); simpl; lia).
  cbn [cut_res res_bind fst snd cut out used stores]. destruct (Z.eqb_spec size 0) as [->|Hn]; cbn [negb].
  - split; [done|]. intros w' n' st' [= <- _ _]. simpl. lia.
  - split; [done|]. intros w' n' st' [= <- _ _]. rewrite length_app, length_take. simpl. lia.
Qed.

(** "a=%d %s%%" *)
Definition demo_fmt : list Z := cstr [97; 61; 37; 100; 32; 37; 115; 37; 37] [].

Example demo_full : sprintf demo_fmt [Num (-5); Str (Some (cstr [111; 107] []))] = Ok (cstr [97; 61; 45; 53; 32; 111; 107; 37] [], 8, []).
Proof. vm_compute. reflexivity. Qed.

Lemma snprintf_truncates_witness :
  exists text, cstr [97; 61; 45; 53; 32; 111; 107; 37] [] = text ++ [0] /\
    snprintf 5 demo_fmt [Num (-5); Str (Some (cstr [111; 107] []))] =
      Ok (if 5 =? 0 then [] else take (Z.to_nat (5 - 1)) text ++ [0], 8, []) /\
    forall w' n' st', snprintf 5 demo_fmt [Num (-5); Str (Some (cstr [111; 107] []))] = Ok (w', n', st') ->
      Z.of_nat (length w') <= 5.
Proof. apply (snprintf_truncates 5 demo_fmt _ _ _ _ ltac:(lia) demo_full). vm_compute. reflexivity. Defined.

(** A width of more than the buffer of [digits] overruns it. *)
Example width_overruns : sprintf (cstr [37; 51; 48; 120] []) [Num 1] = Fault Out_of_bounds.
Proof. vm_compute. reflexivity. Qed.

(** A format that ends in a percent sign is read past its terminator. *)
Example percent_at_end : sprintf (cstr [37] []) [] = Fault Out_of_bounds /\ sprintf (cstr [37] [97; 0]) [] = Ok ([97; 0], 1, []).
Proof. split; vm_compute; reflexivity. Qed.

(** A message that fills the buffer is printed with its null. *)
Example truncated_prints_nul :
  _vhprintf (fun w bs => w ++ [length bs]) (Some (IoChan false [])) (cstr (replicate 256 97) []) [] true =
  Ok (256, Some (IoChan false [256; 13]%nat)).
Proof. vm_compute. reflexivity. Qed.
