(* ===== verification/Ofd.v ===== *)
(** * Ofd: the device tree

    [lib/of_devtree.c] and [ofd_walk] of [lib/of_devwalk.c].  The tree lies in one array
    of 64-bit cells: nodes, properties and open instances are carved from it in order,
    never returned, and name one another by the index of their first cell.  [om_mem] maps
    the first cell of every object to the object.  All cells that belong to no object are
    zero, because [ofd_create] clears the memory: an object fetched at cell 0 fails the
    check of its pattern.  An index inside an object is a fault of its own. *)

From S2P Require Import Prelude Bitmap PgAlloc Imemcpy Clib.

(** ** Data *)

(** [struct ofd_node_s]; [on_path] is all that lies between the header and the end of the
    node's last cell. *)
Record ofd_node : Type := OfdNode {
  on_parent : Z; on_child : Z; on_peer : Z; on_io : Z;
  on_next : Z; on_prev : Z; on_prop : Z;
  on_pathlen : Z; on_last : Z;
  on_path : list Z;
}.

(** [struct ofd_prop_s]: the value, then the name with its terminator. *)
Record ofd_prop : Type := OfdProp {
  op_next : Z; op_objsz : Z; op_namesz : Z;
  op_data : list Z;
}.

(** [struct ofd_io_s] *)
Record ofd_io : Type := OfdIo { oi_node : Z; oi_open : Z }.

(** What [on_ima], [op_ima] and [oi_ima] tell apart. *)
Inductive ofd_obj : Type :=
  | NODE_PAT (n : ofd_node)
  | PROP_PAT (p : ofd_prop)
  | IO_PAT (i : ofd_io).

(** [struct ofd_mem_s] *)
Record ofd_mem : Type := OfdMem {
  om_num : Z;
  om_next : Z;
  om_mem : gmap Z ofd_obj;
}.

Definition OFD_ROOT : Z := 1.
Definition OF_FAILURE : Z := -1.
Definition SIZEOF_MEM : Z := 16.
Definition SIZEOF_NODE : Z := 40.
Definition SIZEOF_PROP : Z := 16.
Definition SIZEOF_IO : Z := 16.
Definition CELL : Z := 8.

Definition obj_cells (o : ofd_obj) : Z :=
  match o with
  | NODE_PAT n => (SIZEOF_NODE + Z.of_nat (length (on_path n))) / CELL
  | PROP_PAT p => (SIZEOF_PROP + Z.of_nat (length (op_data p))) / CELL
  | IO_PAT _ => SIZEOF_IO / CELL
  end.

Definition put (m : ofd_mem) (k : Z) (o : ofd_obj) : ofd_mem := OfdMem (om_num m) (om_next m) (<[k := o]> (om_mem m)).

Definition ofd_size (m : ofd_mem) : Z := om_next m * CELL + SIZEOF_MEM.
Definition ofd_space (m : ofd_mem) : Z := om_num m * CELL.

(** ** Paths *)
Definition SLASH : Z := 47.
Definition COLON : Z := 58.

Fixpoint pathsplit_right_loop (s : list Z) (c max i : Z) : res Z :=
  match s with
  | [] => Fault Out_of_bounds
  | x :: s =>
      if truth x && negb (x =? c) && truth max then pathsplit_right_loop s c (max - 1) (i + 1) else Ok i
  end.

Definition ofd_pathsplit_right (s : list Z) (c max : Z) : res Z :=
  let max := if max =? 0 then sub64 max 1 else max in
  pathsplit_right_loop s c max 0.

(** [while (s >= p) { if ( *s == c) { ++s; break; } --s; }], with [s] one before [p + k]. *)
Fixpoint pathsplit_left_loop (p : list Z) (c : Z) (k : nat) : res Z :=
  match k with
  | O => Ok 0
  | S s =>
      let! x := aget p (Z.of_nat s) in
      if x =? c then Ok (Z.of_nat s + 1) else pathsplit_left_loop p c s
  end.

Definition ofd_pathsplit_left (p : list Z) (c len : Z) : res Z :=
  if 0 <? len then
    let! x := aget p (len - 1) in
    let s := if x =? 0 then len - 2 else len - 1 in
    pathsplit_left_loop p c (Z.to_nat (s + 1))
  else Ok 0.

(** ** Objects *)

Definition ofd_create (sz : Z) : option ofd_mem :=
  if sz <? SIZEOF_NODE * 4 then None
  else
    let root := OfdNode 0 0 0 0 0 0 0 2 1 [SLASH; 0; 0; 0; 0; 0; 0; 0] in
    let sum := SIZEOF_NODE + 2 in
    let cells := (sum + CELL - 1) / CELL in
    Some (OfdMem (s32 ((sz - SIZEOF_MEM) / CELL)) (OFD_ROOT + cells) {[OFD_ROOT := NODE_PAT root]}).

(** The cell [n], read as the head of an object. *)
Definition obj_at (m : ofd_mem) (n : Z) : res ofd_obj :=
  check! 0 <=? n else Out_of_bounds in
  match om_mem m !! n with
  | Some o => Ok o
  | None => Fault (if n =? 0 then Assert_failed else Out_of_bounds)
  end.

(** The null pointer is [None]. *)
Definition ofd_node_get (m : ofd_mem) (n : Z) : res (option ofd_node) :=
  if n <? om_next m then
    let! o := obj_at m n in
    match o with
    | NODE_PAT r => Ok (Some r)
    | _ => Fault Assert_failed
    end
  else Ok None.

Definition ofd_prop_get (m : ofd_mem) (p : Z) : res (option ofd_prop) :=
  if p <? om_next m then
    let! o := obj_at m p in
    match o with
    | PROP_PAT r => Ok (Some r)
    | _ => Fault Assert_failed
    end
  else Ok None.

Definition ofd_io_get (m : ofd_mem) (i : Z) : res (option ofd_io) :=
  if i <? om_next m then
    let! o := obj_at m i in
    match o with
    | IO_PAT r => Ok (Some r)
    | _ => Fault Assert_failed
    end
  else Ok None.

(** [ofd_node_get(m, n)->...] *)
Definition node (m : ofd_mem) (n : Z) : res ofd_node := let! r := ofd_node_get m n in of_option Null_deref r.
Definition prop (m : ofd_mem) (p : Z) : res ofd_prop := let! r := ofd_prop_get m p in of_option Null_deref r.
Definition inst (m : ofd_mem) (i : Z) : res ofd_io := let! r := ofd_io_get m i in of_option Null_deref r.

Definition ofd_node_parent (m : ofd_mem) (n : Z) : res Z := let! r := node m n in Ok (on_parent r).
Definition ofd_node_peer (m : ofd_mem) (n : Z) : res Z :=
  if n =? 0 then Ok OFD_ROOT else let! r := node m n in Ok (on_peer r).
Definition ofd_node_path (m : ofd_mem) (n : Z) : res (list Z) := let! r := node m n in Ok (on_path r).
Definition ofd_node_prop (m : ofd_mem) (n : Z) : res Z := let! r := node m n in Ok (on_prop r).
Definition ofd_node_child (m : ofd_mem) (p : Z) : res Z := let! r := node m p in Ok (on_child r).
Definition ofd_node_io (m : ofd_mem) (n : Z) : res Z := let! r := node m n in Ok (on_io r).

(** The bytes copied to the buffer, and the length of the path. *)
Definition ofd_node_to_path (m : ofd_mem) (p sz : Z) : res (Z * list Z) :=
  let! r := node m p in
  let sz := if on_pathlen r <? sz then on_pathlen r else sz in
  check! sz <=? Z.of_nat (length (on_path r)) else Out_of_bounds in
  Ok (on_pathlen r, take (Z.to_nat sz) (on_path r)).

Definition set_child (r : ofd_node) (v : Z) : ofd_node :=
  OfdNode (on_parent r) v (on_peer r) (on_io r) (on_next r) (on_prev r) (on_prop r) (on_pathlen r) (on_last r) (on_path r).
Definition set_peer (r : ofd_node) (v : Z) : ofd_node :=
  OfdNode (on_parent r) (on_child r) v (on_io r) (on_next r) (on_prev r) (on_prop r) (on_pathlen r) (on_last r) (on_path r).
Definition set_parent (r : ofd_node) (v : Z) : ofd_node :=
  OfdNode v (on_child r) (on_peer r) (on_io r) (on_next r) (on_prev r) (on_prop r) (on_pathlen r) (on_last r) (on_path r).
Definition set_prop (r : ofd_node) (v : Z) : ofd_node :=
  OfdNode (on_parent r) (on_child r) (on_peer r) (on_io r) (on_next r) (on_prev r) v (on_pathlen r) (on_last r) (on_path r).
Definition set_io (r : ofd_node) (v : Z) : ofd_node :=
  OfdNode (on_parent r) (on_child r) (on_peer r) v (on_next r) (on_prev r) (on_prop r) (on_pathlen r) (on_last r) (on_path r).
Definition set_list (r : ofd_node) (next prev : Z) : ofd_node :=
  OfdNode (on_parent r) (on_child r) (on_peer r) (on_io r) next prev (on_prop r) (on_pathlen r) (on_last r) (on_path r).

(** [ofd_check]: whether [cells] cells from [pos] on are all zero, that is, no object
    lies on one of them.  A negative count makes it run through the address space. *)
Definition ofd_check (m : ofd_mem) (pos cells : Z) : res bool :=
  check! 0 <=? cells else Out_of_bounds in
  Ok (forallb (fun x => (x.1 + obj_cells x.2 <=? pos) || (pos + cells <=? x.1)) (map_to_list (om_mem m))).

(** Takes cells for an object of [sum] bytes: its position, or 0 when there is no room. *)
Definition take_cells (m : ofd_mem) (sum : Z) : res (Z * Z * ofd_mem) :=
  let cells := s32 (u64 (sum + CELL - 1) / CELL) in
  if om_num m <=? om_next m + cells then Ok (0, cells, m)
  else
    let pos := om_next m in
    let! b := ofd_check m pos cells in
    cassert b (Ok (pos, cells, OfdMem (om_num m) (om_next m + cells) (om_mem m))).

Definition ofd_node_create (m : ofd_mem) (path : list Z) (pathlen : Z) : res (Z * ofd_mem) :=
  let sum := u64 (pathlen + 1 + SIZEOF_NODE) in
  let! t := take_cells m sum in
  let '(pos, cells, m) := t in
  if pos =? 0 then Ok (0, m)
  else
    let! last := ofd_pathsplit_left path SLASH pathlen in
    let! data := strncpy (replicate (Z.to_nat (CELL * cells - SIZEOF_NODE)) 0) path pathlen in
    let! data := aset data (u32 pathlen) 0 in
    Ok (pos, put m pos (NODE_PAT (OfdNode 0 0 0 0 0 0 0 (u32 pathlen) (u32 last) data))).

(** ** The tree *)

Definition ofd_node_child_create (m : ofd_mem) (parent : Z) (path : list Z) (pathlen : Z) : res (Z * ofd_mem) :=
  let! p := ofd_node_get m parent in
  let! c := ofd_node_create m path pathlen in
  let '(pos, m) := c in
  let! n := ofd_node_get m pos in
  let! p := of_option Null_deref p in
  cassert (on_child p =? 0)
  (let! n := of_option Null_deref n in
   Ok (pos, put (put m parent (NODE_PAT (set_child p pos))) pos (NODE_PAT (set_parent n parent)))).

Definition ofd_node_peer_create (m : ofd_mem) (sibling : Z) (path : list Z) (pathlen : Z) : res (Z * ofd_mem) :=
  let! s := ofd_node_get m sibling in
  let! c := ofd_node_create m path pathlen in
  let '(pos, m) := c in
  let! n := ofd_node_get m pos in
  let! s := of_option Null_deref s in
  cassert (on_peer s =? 0)
  (let! n := of_option Null_deref n in
   Ok (pos, put (put m sibling (NODE_PAT (set_peer s pos))) pos (NODE_PAT (set_parent n (on_parent s))))).

(** No list of the tree has more members than there are cells. *)
Definition fuel_of (m : ofd_mem) : nat := S (Z.to_nat (om_next m)).

(** [while (n->on_peer > 0) ...] *)
Fixpoint peer_last_loop (fuel : nat) (m : ofd_mem) (c : Z) (n : ofd_node) : res Z :=
  match fuel with
  | O => Fault Out_of_fuel
  | S fuel =>
      if 0 <? on_peer n then
        let c := on_peer n in
        let! n := node m c in
        peer_last_loop fuel m c n
      else Ok c
  end.

Definition ofd_node_peer_last (m : ofd_mem) (c : Z) : res Z :=
  let! n := node m c in
  peer_last_loop (fuel_of m) m c n.

Definition ofd_node_add (m : ofd_mem) (p : Z) (path : list Z) (sz : Z) : res (Z * ofd_mem) :=
  let! n := ofd_node_child m p in
  if 0 <? n then
    let! n := ofd_node_peer_last m n in
    if 0 <? n then ofd_node_peer_create m n path sz else Ok (n, m)
  else ofd_node_child_create m p path sz.

(** [while (s->on_peer != node) s = ofd_node_get(m, s->on_peer);]: the sibling before
    [node]. *)
Fixpoint prune_loop (fuel : nat) (m : ofd_mem) (k : Z) (s : ofd_node) (nd : Z) : res (Z * ofd_node) :=
  match fuel with
  | O => Fault Out_of_fuel
  | S fuel =>
      if on_peer s =? nd then Ok (k, s)
      else
        let k := on_peer s in
        let! s := node m k in
        prune_loop fuel m k s nd
  end.

Definition ofd_node_prune (m : ofd_mem) (nd : Z) : res (Z * ofd_mem) :=
  let! n := node m nd in
  let! p := node m (on_parent n) in
  if on_child p =? nd then Ok (1, put m (on_parent n) (NODE_PAT (set_child p (on_peer n))))
  else
    let! s := node m (on_child p) in
    let! ks := prune_loop (fuel_of m) m (on_child p) s nd in
    Ok (1, put m (fst ks) (NODE_PAT (set_peer (snd ks) (on_peer n)))).

(** [ofd_node_walk]; a call goes to a child or a peer. *)
Fixpoint ofd_node_walk (fuel : nat) (m : ofd_mem) (p : Z) (s : list Z) : res Z :=
  match fuel with
  | O => Fault Out_of_fuel
  | S fuel =>
      let! c := deref s in
      let! s :=
        if c =? SLASH then
          let s := List.tl s in
          let! c := deref s in
          cassert (negb (c =? 0)) (Ok s)
        else Ok s in
      let! np := node m p in
      let last := on_last np in
      let lsz := sub64 (on_pathlen np) last in
      let! sz := ofd_pathsplit_right s SLASH 0 in
      let! found :=
        if 0 <? lsz then
          check! last <=? Z.of_nat (length (on_path np)) else Out_of_bounds in
          let! d := strncmp s (drop (Z.to_nat last) (on_path np)) sz in Ok (d =? 0)
        else Ok false in
      if found then
        let! c := aget s sz in
        if c =? 0 then Ok p
        else
          let! n := ofd_node_child m p in
          if truth n then ofd_node_walk fuel m n (drop (Z.to_nat sz) s) else Ok 0
      else
        let! n := ofd_node_peer m p in
        if 0 <? n then ofd_node_walk fuel m n s else Ok 0
  end.

Definition ofd_node_find (m : ofd_mem) (devspec : option (list Z)) : res Z :=
  match devspec with
  | None => Ok 0
  | Some s =>
      let! c := deref s in
      if c =? 0 then Ok 0
      else
        let down :=
          let! n := ofd_node_child m OFD_ROOT in
          if n =? 0 then Ok 0 else ofd_node_walk (fuel_of m) m n s in
        if negb (c =? SLASH) then
          let! sz := ofd_pathsplit_right s SLASH 0 in
          let! asz := ofd_pathsplit_right s COLON sz in
          let! c := aget s asz in
          cassert (negb (c =? COLON)) down
        else
          let! c := aget s 1 in
          if c =? 0 then Ok OFD_ROOT else down
  end.

(** [ofd_walk], of [lib/of_devwalk.c]; [fn] is given the tree, and may change it. *)
Fixpoint ofd_walk {S} (fuel : nat) (fn : ofd_mem -> Z -> S -> S * ofd_mem) (m : ofd_mem) (p : Z) (st : S) : res (S * ofd_mem) :=
  match fuel with
  | O => Fault Out_of_fuel
  | Datatypes.S fuel =>
      let '(st, m) := fn m p st in
      let! n := ofd_node_child m p in
      let! r := if truth n then ofd_walk fuel fn m n st else Ok (st, m) in
      let '(st, m) := r in
      let! n := ofd_node_peer m p in
      if truth n then ofd_walk fuel fn m n st else Ok (st, m)
  end.

(** ** Properties *)

(** [memcpy(l + off, bs, length bs)] *)
Definition blit (l : list Z) (off : Z) (bs : list Z) : res (list Z) :=
  check! (0 <=? off) && (off + Z.of_nat (length bs) <=? Z.of_nat (length l)) else Out_of_bounds in
  Ok (take (Z.to_nat off) l ++ bs ++ drop (Z.to_nat off + length bs) l).

(** The first [n] bytes at a pointer. *)
Definition peek (s : list Z) (n : Z) : res (list Z) :=
  check! n <=? Z.of_nat (length s) else Out_of_bounds in Ok (take (Z.to_nat n) s).

(** [for (;;) { nxt = ofd_prop_get(m, pn); if (nxt->op_next == target) ...; pn = nxt->op_next; }]:
    the property before [target]. *)
Fixpoint prop_seek (fuel : nat) (m : ofd_mem) (pn target : Z) : res (Z * ofd_prop) :=
  match fuel with
  | O => Fault Out_of_fuel
  | S fuel =>
      let! nxt := prop m pn in
      if op_next nxt =? target then Ok (pn, nxt) else prop_seek fuel m (op_next nxt) target
  end.

Definition set_next (r : ofd_prop) (v : Z) : ofd_prop := OfdProp v (op_objsz r) (op_namesz r) (op_data r).

(** The cell cleared before the copies is the last of a property whose cells are all zero. *)
Definition ofd_prop_create (m : ofd_mem) (nd : Z) (name src : list Z) (sz : Z) : res (Z * ofd_mem) :=
  let! l := strlen name in
  let len := l + 1 in
  let sum := u64 (SIZEOF_PROP + sz + len) in
  let! t := take_cells m sum in
  let '(pos, cells, m) := t in
  if pos =? 0 then Ok (0, m)
  else
    let data := replicate (Z.to_nat (CELL * cells - SIZEOF_PROP)) 0 in
    let! data :=
      if 0 <? sz then let! bs := peek src sz in blit data 0 bs else Ok data in
    let! bs := peek name len in
    let! data := blit data sz bs in
    let m := put m pos (PROP_PAT (OfdProp 0 (u32 sz) (u32 len) data)) in
    let! n := node m nd in
    if on_prop n =? 0 then Ok (pos, put m nd (NODE_PAT (set_prop n pos)))
    else
      let! x := prop_seek (fuel_of m) m (on_prop n) 0 in
      Ok (pos, put m (fst x) (PROP_PAT (set_next (snd x) pos))).

Definition ofd_prop_remove (m : ofd_mem) (nd pr : Z) : res ofd_mem :=
  let! n := ofd_node_get m nd in
  let! p := ofd_prop_get m pr in
  let! n := of_option Null_deref n in
  if on_prop n =? pr then
    let! p := of_option Null_deref p in
    Ok (put m nd (NODE_PAT (set_prop n (op_next p))))
  else
    let! x := prop_seek (fuel_of m) m (on_prop n) pr in
    let! p := of_option Null_deref p in
    Ok (put m (fst x) (PROP_PAT (set_next (snd x) (op_next p)))).

(** [while (p != 0) ...] *)
Fixpoint prop_find_loop (fuel : nat) (m : ofd_mem) (p : Z) (name : list Z) (len : Z) : res Z :=
  match fuel with
  | O => Fault Out_of_fuel
  | S fuel =>
      if p =? 0 then Ok 0
      else
        let! r := prop m p in
        check! op_objsz r <=? Z.of_nat (length (op_data r)) else Out_of_bounds in
        let s := drop (Z.to_nat (op_objsz r)) (op_data r) in
        let! same :=
          if len =? op_namesz r then let! d := strncmp name s (op_namesz r) in Ok (d =? 0) else Ok false in
        if same then Ok p else prop_find_loop fuel m (op_next r) name len
  end.

Definition ofd_prop_find (m : ofd_mem) (n : Z) (name : option (list Z)) : res Z :=
  let! p := ofd_node_prop m n in
  match name with
  | None => Ok 0
  | Some name =>
      let! c := deref name in
      if c =? 0 then Ok 0
      else
        let! l := strlen name in
        prop_find_loop (fuel_of m) m p name (l + 1)
  end.

Definition ofd_prop_next (m : ofd_mem) (n : Z) (prev : option (list Z)) : res Z :=
  let! first := match prev with None => Ok true | Some s => let! c := deref s in Ok (c =? 0) end in
  if first then ofd_node_prop m n
  else
    let! p := ofd_prop_find m n prev in
    if truth p then let! r := prop m p in Ok (op_next r) else Ok (-1).

(** With the name copied to the caller, if there is one. *)
Definition ofd_nextprop (m : ofd_mem) (n : Z) (prev : option (list Z)) : res (Z * list Z) :=
  let! p := ofd_prop_next m n prev in
  if 0 <? p then
    let! r := prop m p in
    let! nm := peek (drop (Z.to_nat (op_objsz r)) (op_data r)) (op_namesz r) in
    Ok (p, nm)
  else Ok (p, []).

(** The value returned, and the bytes copied to the buffer. *)
Definition ofd_getprop (m : ofd_mem) (n : Z) (name : option (list Z)) (sz : Z) : res (Z * list Z) :=
  let! p := ofd_prop_find m n name in
  if p =? 0 then Ok (-1, [])
  else
    let! r := prop m p in
    let sz := if op_objsz r <? sz then op_objsz r else sz in
    let! bs := peek (op_data r) sz in
    Ok (op_objsz r, bs).

Definition ofd_getproplen (m : ofd_mem) (n : Z) (name : option (list Z)) : res Z :=
  let! p := ofd_prop_find m n name in
  if p =? 0 then Ok (-1) else let! r := prop m p in Ok (op_objsz r).

(** The two cells as four bytes each; a null pointer is [None]. *)
Definition is_zero_cell (b : option (list Z)) : bool :=
  match b with Some bs => forallb (Z.eqb 0) bs | None => false end.

Definition getcell (m : ofd_mem) (n : Z) (b : option (list Z)) (name : list Z) : res (option (list Z)) :=
  match b with
  | Some bs =>
      if is_zero_cell b then
        let! r := ofd_getprop m n (Some name) 4 in
        let! bs := blit bs 0 (snd r) in Ok (Some bs)
      else Ok b
  | None => Ok None
  end.

(** "#address-cells" and "#size-cells" *)
Definition ADDRESS_CELLS : list Z := cstr [35; 97; 100; 100; 114; 101; 115; 115; 45; 99; 101; 108; 108; 115] [].
Definition SIZE_CELLS : list Z := cstr [35; 115; 105; 122; 101; 45; 99; 101; 108; 108; 115] [].

(** [retry:], up the tree. *)
Fixpoint getcells_loop (fuel : nat) (m : ofd_mem) (n : Z) (a s : option (list Z))
  : res (Z * option (list Z) * option (list Z)) :=
  match fuel with
  | O => Fault Out_of_fuel
  | S fuel =>
      let! a := getcell m n a ADDRESS_CELLS in
      let! s := getcell m n s SIZE_CELLS in
      if is_zero_cell s || is_zero_cell a then
        if negb (n =? OFD_ROOT) then
          let! n := ofd_node_parent m n in
          getcells_loop fuel m n a s
        else Ok (-1, a, s)
      else Ok (1, a, s)
  end.

Definition ofd_getcells (m : ofd_mem) (n : Z) (addr size : bool) : res (Z * option (list Z) * option (list Z)) :=
  let cell (b : bool) := if b then Some [0; 0; 0; 0] else None in
  getcells_loop (fuel_of m) m n (cell addr) (cell size).

Definition ofd_prop_set (m : ofd_mem) (n : Z) (name : list Z) (src : list Z) (sz : Z) : res (Z * ofd_mem) :=
  let! p := ofd_prop_find m n (Some name) in
  let! r := prop m p in
  if sz <=? op_objsz r then
    let! bs := peek src sz in
    let! data := blit (op_data r) 0 bs in
    if sz <? op_objsz r then
      let! nm := peek name (op_namesz r) in
      let! data := blit data sz nm in
      Ok (p, put m p (PROP_PAT (OfdProp (op_next r) (u32 sz) (op_namesz r) data)))
    else Ok (p, put m p (PROP_PAT (OfdProp (op_next r) (op_objsz r) (op_namesz r) data)))
  else
    let! m := ofd_prop_remove m n p in
    ofd_prop_create m n name src sz.

Definition ofd_prop_add (m : ofd_mem) (n : Z) (name : option (list Z)) (buf : list Z) (sz : Z) : res (Z * ofd_mem) :=
  let! r := ofd_prop_find m n name in
  let! name := of_option Null_deref name in
  if r =? 0 then ofd_prop_create m n name buf sz else ofd_prop_set m n name buf sz.

(** The same, but for what it returns. *)
Definition ofd_setprop (m : ofd_mem) (n : Z) (name : option (list Z)) (buf : list Z) (sz : Z) : res (Z * ofd_mem) :=
  let! r := ofd_prop_find m n name in
  let! name := of_option Null_deref name in
  let! rm := if r =? 0 then ofd_prop_create m n name buf sz else ofd_prop_set m n name buf sz in
  let '(r, m) := rm in
  if 0 <? r then let! pp := prop m r in Ok (op_objsz pp, m) else Ok (OF_FAILURE, m).

(** ** Searching by property: a list through the nodes themselves *)
Definition match_prop (m : ofd_mem) (p : Z) (val : option (list Z)) (sz : Z) : res bool :=
  match val with
  | None => Ok true
  | Some v =>
      let! pp := prop m p in
      if sz =? op_objsz pp then let! d := memcmp (op_data pp) v sz in Ok (d =? 0) else Ok false
  end.

(** [match == 1]: [n] goes behind [prev], or becomes the head. *)
Definition link_match (m : ofd_mem) (head prev n : Z) : res (Z * ofd_mem) :=
  let! hm :=
    if 0 <=? prev then
      let! np := node m prev in
      Ok (head, put m prev (NODE_PAT (set_list np n (on_prev np))))
    else Ok (n, m) in
  let '(head, m) := hm in
  let! np := node m n in
  Ok (head, put m n (NODE_PAT (set_list np (-1) prev))).

Fixpoint ofd_find_by_prop (fuel : nat) (m : ofd_mem) (head prev n : Z) (name : list Z) (val : option (list Z)) (sz : Z)
  : res (Z * ofd_mem) :=
  match fuel with
  | O => Fault Out_of_fuel
  | S fuel =>
      let! p := ofd_prop_find m n (Some name) in
      let! r :=
        if 0 <? p then
          let! b := match_prop m p val sz in
          if b then let! hm := link_match m head prev n in Ok (fst hm, n, snd hm) else Ok (head, prev, m)
        else Ok (head, prev, m) in
      let '(head, prev, m) := r in
      let! p := ofd_node_child m n in
      let! hm := if 0 <? p then ofd_find_by_prop fuel m head prev p name val sz else Ok (head, m) in
      let '(head, m) := hm in
      let! p := ofd_node_peer m n in
      if 0 <? p then ofd_find_by_prop fuel m head prev p name val sz else Ok (head, m)
  end.

Definition ofd_node_find_by_prop (m : ofd_mem) (n : Z) (name : list Z) (val : option (list Z)) (sz : Z) : res (Z * ofd_mem) :=
  let n := if n <=? 0 then OFD_ROOT else n in
  ofd_find_by_prop (fuel_of m) m (-1) (-1) n name val sz.

Definition ofd_node_find_next (m : ofd_mem) (n : Z) : res Z := let! np := node m n in Ok (on_next np).
Definition ofd_node_find_prev (m : ofd_mem) (n : Z) : res Z := let! np := node m n in Ok (on_prev np).

(** ** Open instances *)
Definition ofd_io_create (m : ofd_mem) (nd open : Z) : res (Z * ofd_mem) :=
  let! n := ofd_node_get m nd in
  match n with
  | None => Ok (0, m)
  | Some n =>
      let! t := take_cells m SIZEOF_IO in
      let '(pos, _, m) := t in
      if pos =? 0 then Ok (0, m)
      else Ok (pos, put (put m pos (IO_PAT (OfdIo nd (u64 open)))) nd (NODE_PAT (set_io n pos)))
  end.

Definition ofd_io_open (m : ofd_mem) (n : Z) : res Z := let! r := inst m n in Ok (oi_open r).

Definition ofd_io_close (m : ofd_mem) (n : Z) : res ofd_mem :=
  let! o := ofd_io_get m n in
  let! o := of_option Null_deref o in
  let! r := ofd_node_get m (oi_node o) in
  let m := put m n (IO_PAT (OfdIo (oi_node o) 0)) in
  let! r := of_option Null_deref r in
  Ok (put m (oi_node o) (NODE_PAT (set_io r 0))).

(** ** A small tree *)
Definition str (l : list Z) : list Z := cstr l [].
(** "/cpus", "/cpu", "/cpus/a", "model" *)
Definition s_cpus : list Z := str [47; 99; 112; 117; 115].
Definition s_cpu : list Z := str [47; 99; 112; 117].
Definition s_cpus_a : list Z := str [47; 99; 112; 117; 115; 47; 97].
Definition s_model : list Z := str [109; 111; 100; 101; 108].

Definition demo : res (Z * Z * Z * ofd_mem) :=
  let! m := of_option Null_deref (ofd_create 4096) in
  let! x := ofd_node_add m OFD_ROOT s_cpus 5 in let '(cpus, m) := x in
  let! x := ofd_node_add m OFD_ROOT s_cpu 4 in let '(cpu, m) := x in
  let! x := ofd_node_add m cpus s_cpus_a 7 in let '(a, m) := x in
  let! x := ofd_setprop m a (Some s_model) [1; 2; 3] 3 in let '(_, m) := x in
  let! x := ofd_setprop m cpu (Some s_model) [4; 5; 6; 7] 4 in let '(_, m) := x in
  Ok (cpus, cpu, a, m).
