(* ===== verification/OfdTree.v ===== *)
(** * OfdTree: the device tree is a tree

    The invariant of [Ofd]: objects do not overlap and lie below [om_next]; every link
    leads to an object of the right kind; children, peers and properties lie behind what
    points at them, so every list ends; a child's parent is the node it hangs from; a
    property is on the list of one node only.  Every operation keeps it. *)

From S2P Require Import Prelude Bitmap PgAlloc Imemcpy Clib Ofd.

Definition is_node (g : gmap Z ofd_obj) (k : Z) : Prop := exists r, g !! k = Some (NODE_PAT r).
Definition is_prop (g : gmap Z ofd_obj) (k : Z) : Prop := exists r, g !! k = Some (PROP_PAT r).
Definition is_io (g : gmap Z ofd_obj) (k : Z) : Prop := exists r, g !! k = Some (IO_PAT r).
Definition has_parent (g : gmap Z ofd_obj) (k p : Z) : Prop := exists r, g !! k = Some (NODE_PAT r) /\ on_parent r = p.

Record node_ok (g : gmap Z ofd_obj) (own : Z -> Z) (k : Z) (r : ofd_node) : Prop := {
  nk_child : on_child r = 0 \/ k < on_child r /\ has_parent g (on_child r) k;
  nk_peer : on_peer r = 0 \/ k < on_peer r /\ has_parent g (on_peer r) (on_parent r);
  nk_parent : on_parent r = 0 \/ 0 < on_parent r < k /\ is_node g (on_parent r);
  nk_prop : on_prop r = 0 \/ k < on_prop r /\ is_prop g (on_prop r) /\ own (on_prop r) = k;
  nk_io : on_io r = 0 \/ is_io g (on_io r);
  nk_path : 0 <= on_last r <= on_pathlen r /\ on_path r !! Z.to_nat (on_pathlen r) = Some 0;
}.

(** A value and a name, as [ofd_prop_create] lays them out. *)
Definition holds (r : ofd_prop) (name v : list Z) : Prop :=
  no_nul name /\ op_objsz r = Z.of_nat (length v) /\ op_namesz r = Z.of_nat (length name) + 1 /\
  exists pad, op_data r = v ++ cstr name pad.

Record prop_ok (g : gmap Z ofd_obj) (own : Z -> Z) (k : Z) (r : ofd_prop) : Prop := {
  pk_next : op_next r = 0 \/ k < op_next r /\ is_prop g (op_next r) /\ own (op_next r) = own k;
  pk_data : exists name v, holds r name v;
}.

Definition obj_ok (g : gmap Z ofd_obj) (own : Z -> Z) (k : Z) (o : ofd_obj) : Prop :=
  match o with
  | NODE_PAT r => node_ok g own k r
  | PROP_PAT r => prop_ok g own k r
  | IO_PAT r => is_node g (oi_node r)
  end.

(** [own] names the node each property belongs to. *)
Record ofd_own (m : ofd_mem) (own : Z -> Z) : Prop := {
  w_num : 0 < om_next m < om_num m /\ om_num m <= 2 ^ 28;
  w_obj : forall k o, om_mem m !! k = Some o -> 0 < k /\ 0 < obj_cells o /\ k + obj_cells o <= om_next m;
  w_apart : forall k1 o1 k2 o2, om_mem m !! k1 = Some o1 -> om_mem m !! k2 = Some o2 -> k1 < k2 -> k1 + obj_cells o1 <= k2;
  w_root : is_node (om_mem m) OFD_ROOT;
  w_ok : forall k o, om_mem m !! k = Some o -> obj_ok (om_mem m) own k o;
}.

Definition ofd_wf (m : ofd_mem) : Prop := exists own, ofd_own m own.

(** ** Changing one object *)

(** What other objects rely on: the kind, and a node's parent. *)
Definition same_shape (o o' : ofd_obj) : Prop :=
  match o, o' with
  | NODE_PAT r, NODE_PAT r' => on_parent r' = on_parent r
  | PROP_PAT _, PROP_PAT _ => True
  | IO_PAT _, IO_PAT _ => True
  | _, _ => False
  end.

Definition keeps (g g' : gmap Z ofd_obj) : Prop :=
  forall k o, g !! k = Some o -> exists o', g' !! k = Some o' /\ same_shape o o'.

Lemma keeps_node g g' k : keeps g g' -> is_node g k -> is_node g' k.
Proof. intros H [r E]. apply H in E as ([r'| |] & E & S); try done. by exists r'. Qed.
Lemma keeps_prop g g' k : keeps g g' -> is_prop g k -> is_prop g' k.
Proof. intros H [r E]. apply H in E as ([|r'|] & E & S); try done. by exists r'. Qed.
Lemma keeps_io g g' k : keeps g g' -> is_io g k -> is_io g' k.
Proof. intros H [r E]. apply H in E as ([| |r'] & E & S); try done. by exists r'. Qed.
Lemma keeps_parent g g' k p : keeps g g' -> has_parent g k p -> has_parent g' k p.
Proof. intros H (r & E & <-). apply H in E as ([r'| |] & E & S); try done. by exists r'. Qed.

Create HintDb ofd.
#[export] Hint Resolve keeps_node keeps_prop keeps_io keeps_parent : ofd.

(** An object stays right when the others keep their shape and the owners theirs. *)
Lemma obj_ok_keeps g g' own own' k o o0 :
  keeps g g' -> (forall p, is_prop g p -> own' p = own p) -> g !! k = Some o0 -> same_shape o0 o ->
  obj_ok g own k o -> obj_ok g' own' k o.
Proof.
  intros H Ho Ek S Hk. destruct o as [r|r|r]; simpl in *.
  - destruct Hk as [H1 H2 H3 H4 H5 H6]. split; [| | | | |done].
    + destruct H1 as [?|[??]]; [by left|right; eauto with ofd].
    + destruct H2 as [?|[??]]; [by left|right; eauto with ofd].
    + destruct H3 as [?|[??]]; [by left|right; eauto with ofd].
    + destruct H4 as [?|(?&?&E)]; [by left|right]. rewrite Ho by done. eauto with ofd.
    + destruct H5; [by left|right; eauto with ofd].
  - destruct Hk as [H1 H2]. split; [|done]. destruct H1 as [?|(?&?&E)]; [by left|right].
    rewrite (Ho (op_next r)) by done. rewrite (Ho k) by (destruct o0 as [|r0|]; try done; by exists r0). eauto with ofd.
  - eauto with ofd.
Qed.

Lemma keeps_insert g k o o' : g !! k = Some o -> same_shape o o' -> keeps g (<[k := o']> g).
Proof.
  intros E S j x Ej. destruct (decide (j = k)) as [->|]; [rewrite lookup_insert_eq; exists o'; split; [done|congruence]|].
  rewrite lookup_insert_ne by done. exists x. split; [done|]. by destruct x.
Qed.

Lemma keeps_fresh g k o' : g !! k = None -> keeps g (<[k := o']> g).
Proof.
  intros E j x Ej. rewrite lookup_insert_ne by (intros ->; congruence). exists x. split; [done|]. by destruct x.
Qed.

(** Replacing an object by one of the same shape and size that is right where it lies. *)
Lemma put_own m own k o o' :
  ofd_own m own -> om_mem m !! k = Some o -> same_shape o o' -> obj_cells o' = obj_cells o ->
  obj_ok (om_mem m) own k o' -> ofd_own (put m k o') own.
Proof.
  intros [Hn Ho Ha Hr Hk] E S C K. pose proof (keeps_insert _ _ _ _ E S) as Hkeep. split; cbn [om_num om_next om_mem put].
  - done.
  - intros j x Ej. destruct (decide (j = k)) as [->|]; [rewrite lookup_insert_eq in Ej; injection Ej as <-; rewrite C; by apply Ho|].
    rewrite lookup_insert_ne in Ej by done. by apply Ho.
  - intros j1 x1 j2 x2 E1 E2 Hj.
    assert (forall j x, <[k := o']> (om_mem m) !! j = Some x -> exists y, om_mem m !! j = Some y /\ obj_cells x = obj_cells y) as Hold.
    { intros j x Ej. destruct (decide (j = k)) as [->|]; [rewrite lookup_insert_eq in Ej; injection Ej as <-; eauto|].
      rewrite lookup_insert_ne in Ej by done. eauto. }
    apply Hold in E1 as (y1 & E1 & ->). apply Hold in E2 as (y2 & E2 & _). by eapply Ha.
  - by eapply keeps_node.
  - intros j x Ej. destruct (decide (j = k)) as [->|].
    + rewrite lookup_insert_eq in Ej. injection Ej as <-. by eapply obj_ok_keeps.
    + rewrite lookup_insert_ne in Ej by done. eapply obj_ok_keeps; [done|done|done| |by apply Hk]. by destruct x.
Qed.

(** ** A new object *)
Lemma fresh_above m own k : ofd_own m own -> om_next m <= k -> om_mem m !! k = None.
Proof. intros H Hk. destruct (om_mem m !! k) as [o|] eqn:E; [|done]. apply (w_obj _ _ H) in E. lia. Qed.

Definition set_own (own : Z -> Z) (k v : Z) : Z -> Z := fun j => if j =? k then v else own j.

Lemma set_own_old g own k v p : g !! k = None -> is_prop g p -> set_own own k v p = own p.
Proof. intros E [r Er]. unfold set_own. destruct (Z.eqb_spec p k); [congruence|done]. Qed.

(** A right object put at [om_next], which moves up. *)
Lemma new_own m own cells o v :
  ofd_own m own -> 0 < cells -> om_next m + cells < om_num m -> obj_cells o = cells ->
  let g := <[om_next m := o]> (om_mem m) in
  obj_ok g (set_own own (om_next m) v) (om_next m) o ->
  ofd_own (OfdMem (om_num m) (om_next m + cells) g) (set_own own (om_next m) v).
Proof.
  intros H Hc Hn C g K. pose proof (fresh_above m own (om_next m) H ltac:(lia)) as Hf.
  pose proof (keeps_fresh _ _ o Hf) as Hkeep. fold g in Hkeep. destruct H as [Hn' Ho Ha Hr Hk]. split; cbn [om_num om_next om_mem].
  - lia.
  - intros j x Ej. unfold g in Ej. apply lookup_insert_Some in Ej as [[<- <-]|[_ Ej]]; [lia|]. apply Ho in Ej. lia.
  - intros j1 x1 j2 x2 E1 E2 Hj. unfold g in E1, E2.
    apply lookup_insert_Some in E1 as [[<- <-]|[_ E1]]; apply lookup_insert_Some in E2 as [[<- <-]|[_ E2]]; try lia.
    + apply Ho in E2. lia.
    + apply Ho in E1. lia.
    + by eapply Ha.
  - by eapply keeps_node.
  - intros j x Ej. unfold g in Ej. apply lookup_insert_Some in Ej as [[<- <-]|[_ Ej]]; [done|].
    eapply obj_ok_keeps; [exact Hkeep| |exact Ej|by destruct x|by apply Hk]. intros p Hp. by eapply set_own_old.
Qed.

(** ** Fetching objects *)
Lemma node_inv m k r : node m k = Ok r -> om_mem m !! k = Some (NODE_PAT r) /\ 0 <= k < om_next m.
Proof.
  unfold node, ofd_node_get, obj_at. destruct (Z.ltb_spec k (om_next m)); [|discriminate]. destruct (Z.leb_spec 0 k); [|discriminate].
  destruct (om_mem m !! k) as [[r'| |]|]; simpl; try discriminate. by intros [= ->].
Qed.

Lemma prop_inv m k r : prop m k = Ok r -> om_mem m !! k = Some (PROP_PAT r) /\ 0 <= k < om_next m.
Proof.
  unfold prop, ofd_prop_get, obj_at. destruct (Z.ltb_spec k (om_next m)); [|discriminate]. destruct (Z.leb_spec 0 k); [|discriminate].
  destruct (om_mem m !! k) as [[|r'|]|]; simpl; try discriminate. by intros [= ->].
Qed.

Lemma get_inv m k r : ofd_node_get m k = Ok (Some r) -> om_mem m !! k = Some (NODE_PAT r) /\ 0 <= k < om_next m.
Proof. intros H. apply node_inv. unfold node. by rewrite H. Qed.

Lemma pget_inv m k r : ofd_prop_get m k = Ok (Some r) -> om_mem m !! k = Some (PROP_PAT r) /\ 0 <= k < om_next m.
Proof. intros H. apply prop_inv. unfold prop. by rewrite H. Qed.

Lemma node_ok_at m own k r : ofd_own m own -> om_mem m !! k = Some (NODE_PAT r) -> node m k = Ok r.
Proof.
  intros H E. apply (w_obj _ _ H) in E as Hk. unfold node, ofd_node_get, obj_at.
  destruct (Z.ltb_spec k (om_next m)); [|lia]. destruct (Z.leb_spec 0 k); [|lia]. by rewrite E.
Qed.

Lemma prop_ok_at m own k r : ofd_own m own -> om_mem m !! k = Some (PROP_PAT r) -> prop m k = Ok r.
Proof.
  intros H E. apply (w_obj _ _ H) in E as Hk. unfold prop, ofd_prop_get, obj_at.
  destruct (Z.ltb_spec k (om_next m)); [|lia]. destruct (Z.leb_spec 0 k); [|lia]. by rewrite E.
Qed.

(** ** Taking cells *)
Lemma take_cells_inv m sum pos cells m' :
  take_cells m sum = Ok (pos, cells, m') ->
  (pos = 0 /\ m' = m) \/
  (pos = om_next m /\ cells = s32 (u64 (sum + CELL - 1) / CELL) /\ 0 <= cells /\ om_next m + cells < om_num m /\
   m' = OfdMem (om_num m) (om_next m + cells) (om_mem m)).
Proof.
  unfold take_cells. set (c := s32 _). destruct (Z.leb_spec (om_num m) (om_next m + c)).
  { intros [= <- <- <-]. by left. }
  unfold ofd_check. destruct (Z.leb_spec 0 c); [|discriminate]. cbn [res_bind]. unfold cassert. destruct (forallb _ _); [|discriminate].
  intros [= <- <- <-]. right. split_and!; done || lia.
Qed.

(** There is room, and it is taken. *)
Lemma take_cells_ok m own sum :
  ofd_own m own -> 0 <= sum < 2 ^ 32 ->
  let cells := (sum + 7) / 8 in
  take_cells m sum =
  if om_num m <=? om_next m + cells then Ok (0, cells, m)
  else Ok (om_next m, cells, OfdMem (om_num m) (om_next m + cells) (om_mem m)).
Proof.
  intros H Hs cells. unfold take_cells, CELL. rewrite u64_small by lia. replace (sum + 8 - 1) with (sum + 7) by lia. fold cells.
  assert (0 <= cells < 2 ^ 31) as Hc by (unfold cells; split; dlia).
  assert (s32 cells = cells) as ->. { unfold s32. rewrite u32_small by lia. zcases. }
  destruct (_ <=? _); [done|]. unfold ofd_check. destruct (Z.leb_spec 0 cells); [|lia]. cbn [res_bind].
  rewrite (proj2 (forallb_forall _ _)); [done|]. intros [k o] Hin. apply list_elem_of_In, elem_of_map_to_list in Hin.
  apply (w_obj _ _ H) in Hin. simpl. apply orb_true_iff. left. apply Z.leb_le. lia.
Qed.

(** ** New nodes *)
Lemma aset_length {A} (l l' : list A) i x : aset l i x = Ok l' -> length l' = length l /\ 0 <= i < Z.of_nat (length l) /\ l' !! Z.to_nat i = Some x.
Proof.
  unfold aset. destruct (_ && _) eqn:E; [|discriminate]. intros [= <-]. zbool; try done.
  rewrite length_insert. split_and!; try done. apply list_lookup_insert_eq. lia.
Qed.

Lemma strncpy_copy_len src : forall d dp n d' dp' n',
  strncpy_copy src d dp n = Ok (d', dp', n') -> 0 <= dp -> 0 < n ->
  length d' = length d /\ dp' + n' = dp + n /\ dp' <= Z.of_nat (length d) /\ 0 <= dp' /\ 0 <= n'.
Proof.
  induction src as [|c src IH]; intros d dp n d' dp' n' H Hd Hn; [discriminate|]. cbn [strncpy_copy] in H.
  apply res_bind_ok in H as (d1 & E1 & H). apply aset_length in E1 as (L1 & R1 & _).
  apply res_bind_ok in H as (c' & E2 & H). destruct (_ && _) eqn:Eb.
  - apply andb_true_iff in Eb as [_ Eb%Z.ltb_lt]. apply IH in H; [|lia..]. lia.
  - injection H as <- <- <-. lia.
Qed.

Lemma strncpy_pad_len n : forall d dp d',
  strncpy_pad d dp n = Ok d' -> 0 <= dp -> dp <= Z.of_nat (length d) ->
  length d' = length d /\ dp + Z.of_nat n <= Z.of_nat (length d).
Proof.
  induction n as [|n IH]; intros d dp d' H Hd Hl; cbn [strncpy_pad] in H; [injection H as <-; lia|].
  apply res_bind_ok in H as (d1 & E1 & H). apply aset_length in E1 as (L1 & R1 & _). apply IH in H; lia.
Qed.

Lemma strncpy_len d src n d' : strncpy d src n = Ok d' -> length d' = length d /\ n <= Z.of_nat (length d).
Proof.
  unfold strncpy. destruct (Z.leb_spec n 0); [intros [= <-]; lia|]. intros E.
  apply res_bind_ok in E as ([[d1 dp] n1] & E1 & E). apply strncpy_copy_len in E1 as (L & S & B & Hp & Hn); [|lia..].
  apply strncpy_pad_len in E; lia.
Qed.

Lemma pathsplit_left_loop_le p c k : forall r, pathsplit_left_loop p c k = Ok r -> 0 <= r <= Z.of_nat k.
Proof.
  induction k as [|k IH]; intros r H; cbn [pathsplit_left_loop] in H; [injection H as <-; lia|].
  apply res_bind_ok in H as (x & _ & H). destruct (x =? c); [injection H as <-; lia|]. apply IH in H. lia.
Qed.

Lemma pathsplit_left_le p c len r : ofd_pathsplit_left p c len = Ok r -> 0 <= r <= Z.max 0 len.
Proof.
  unfold ofd_pathsplit_left. destruct (Z.ltb_spec 0 len); [|intros [= <-]; lia]. intros H'.
  apply res_bind_ok in H' as (x & _ & H'). apply pathsplit_left_loop_le in H'. destruct (x =? 0); lia.
Qed.

(** A node not yet linked. *)
Definition blank (r : ofd_node) : Prop :=
  on_parent r = 0 /\ on_child r = 0 /\ on_peer r = 0 /\ on_io r = 0 /\ on_prop r = 0 /\
  0 <= on_last r <= on_pathlen r /\ on_path r !! Z.to_nat (on_pathlen r) = Some 0.

Definition grown (m m' : ofd_mem) (o : ofd_obj) : Prop :=
  exists cells, 0 < cells /\ om_next m + cells < om_num m /\ obj_cells o = cells /\
  m' = OfdMem (om_num m) (om_next m + cells) (<[om_next m := o]> (om_mem m)).

Lemma node_create_inv m own path pathlen pos m' :
  ofd_own m own -> ofd_node_create m path pathlen = Ok (pos, m') ->
  (pos = 0 /\ m' = m) \/ (pos = om_next m /\ exists r, blank r /\ grown m m' (NODE_PAT r)).
Proof.
  intros Hw H. unfold ofd_node_create in H. apply res_bind_ok in H as ([[pos' cells] m1] & E1 & H).
  pose proof (w_num _ _ Hw) as Hnum.
  apply take_cells_inv in E1 as [[-> ->]|(-> & _ & Hc & Hn & ->)].
  { change (0 =? 0) with true in H. injection H as <- <-. by left. }
  destruct (Z.eqb_spec (om_next m) 0); [lia|].
  apply res_bind_ok in H as (last & Ela & H). apply res_bind_ok in H as (d1 & E1 & H). apply res_bind_ok in H as (d2 & E2 & H).
  injection H as <- <-. right. split; [done|].
  apply strncpy_len in E1 as [L1 B1]. rewrite length_replicate in *. apply aset_length in E2 as (L2 & R2 & N2).
  unfold CELL, SIZEOF_NODE in *. rewrite L1 in *.
  exists (OfdNode 0 0 0 0 0 0 0 (u32 pathlen) (u32 last) d2). split.
  - unfold blank. cbn [on_parent on_child on_peer on_io on_prop on_last on_pathlen on_path]. split_and!; try done.
    + apply Z.mod_pos_bound. lia.
    + apply pathsplit_left_le in Ela. destruct (Z.le_gt_cases pathlen 0).
      * assert (last = 0) as -> by lia. apply Z.mod_pos_bound. lia.
      * rewrite !u32_small by lia. lia.
  - exists cells. split_and!; [lia|lia| |done]. simpl. rewrite L2. unfold SIZEOF_NODE, CELL. dlia.
Qed.

Lemma grown_own m own m' o v :
  ofd_own m own -> grown m m' o -> obj_ok (om_mem m') (set_own own (om_next m) v) (om_next m) o ->
  ofd_own m' (set_own own (om_next m) v).
Proof. intros Hw (cells & Hc & Hn & Ho & ->) K. by apply new_own. Qed.

Lemma blank_ok g own k r : blank r -> node_ok g own k r.
Proof. intros (?&?&?&?&?&?&?). split; auto. Qed.

(** A freshly created node linked to [k]: as its child, or as its peer. *)
Lemma link_own m own m' k r n r' p :
  ofd_own m own -> om_mem m !! k = Some (NODE_PAT r) -> blank n -> grown m m' (NODE_PAT n) ->
  on_parent r' = on_parent r -> on_path r' = on_path r ->
  (p = 0 \/ 0 < p < om_next m /\ is_node (om_mem m) p) ->
  (forall g own', has_parent g (om_next m) p -> node_ok g own' k r -> node_ok g own' k r') ->
  ofd_wf (put (put m' k (NODE_PAT r')) (om_next m) (NODE_PAT (set_parent n p))).
Proof.
  intros Hw Ek Hb (cells & Hc & Hnn & Ho & ->) Spar Ep Hp Hr'.
  pose proof (fresh_above m own (om_next m) Hw ltac:(lia)) as Hf. pose proof (w_obj _ _ Hw _ _ Ek) as Hk.
  set (n' := set_parent n p). set (m1 := OfdMem (om_num m) (om_next m + cells) (<[om_next m := NODE_PAT n']> (om_mem m))).
  assert (Hw1 : ofd_own m1 (set_own own (om_next m) 0)).
  { apply new_own; [done..|]. simpl. destruct Hb as (?&?&?&?&?&?&?). split; simpl; auto.
    destruct Hp as [|[? Hp]]; [by left|right]. split; [done|]. eapply keeps_node; [|exact Hp]. by apply keeps_fresh. }
  assert (om_mem m1 !! k = Some (NODE_PAT r)) as Ek1 by (simpl; rewrite lookup_insert_ne by lia; done).
  exists (set_own own (om_next m) 0).
  assert (put (put (OfdMem (om_num m) (om_next m + cells) (<[om_next m := NODE_PAT n]> (om_mem m))) k (NODE_PAT r')) (om_next m) (NODE_PAT n')
    = put m1 k (NODE_PAT r')) as ->.
  { unfold put, m1. simpl. f_equal. rewrite !(insert_insert_ne _ k (om_next m)) by lia. by rewrite insert_insert_eq. }
  apply put_own with (NODE_PAT r); [done..| |].
  - simpl. by rewrite Ep.
  - simpl. apply Hr'; [|by apply (w_ok _ _ Hw1 _ _ Ek1)]. exists n'. split; [apply lookup_insert_eq|done].
Qed.

(** A node that was created and fetched: where there is no room, fetching it traps. *)
Lemma created m own path len pos m1 n1 :
  ofd_own m own -> ofd_node_create m path len = Ok (pos, m1) -> ofd_node_get m1 pos = Ok n1 ->
  pos = om_next m /\ exists n, n1 = Some n /\ blank n /\ grown m m1 (NODE_PAT n).
Proof.
  intros Hw E2 E3. pose proof (w_num _ _ Hw).
  apply (node_create_inv m own) in E2 as [[-> ->]|(-> & n & Hb & Hg)]; [| |done].
  - unfold ofd_node_get, obj_at in E3. destruct (Z.ltb_spec 0 (om_next m)); [|lia]. simpl in E3.
    destruct (om_mem m !! 0) eqn:E0; [|discriminate]. apply (w_obj _ _ Hw) in E0. lia.
  - split; [done|]. exists n. split_and!; [|done..]. destruct Hg as (cells & ? & _ & _ & ->).
    unfold ofd_node_get, obj_at in E3. cbn [om_next om_mem] in E3. rewrite lookup_insert_eq in E3.
    destruct (Z.ltb_spec (om_next m) (om_next m + cells)); [|lia]. destruct (Z.leb_spec 0 (om_next m)); [|lia].
    by injection E3 as <-.
Qed.

Lemma child_create_wf m p path len pos m' :
  ofd_wf m -> ofd_node_child_create m p path len = Ok (pos, m') -> ofd_wf m'.
Proof.
  intros [own Hw] H. unfold ofd_node_child_create in H. apply res_bind_ok in H as (o & E1 & H).
  apply res_bind_ok in H as ([pos1 m1] & E2 & H). apply res_bind_ok in H as (n1 & E3 & H).
  destruct (created m own path len pos1 m1 n1) as (-> & n & -> & Hb & Hg); [done..|].
  destruct o as [pr|]; [|discriminate]. apply get_inv in E1 as [E1 R1]. cbn [of_option res_bind] in H. unfold cassert in H.
  destruct (Z.eqb_spec (on_child pr) 0); [|discriminate]. injection H as <- <-.
  apply (link_own m own m1 p pr); [done..| |].
  - right. apply (w_obj _ _ Hw) in E1 as Hk. split; [lia|]. by exists pr.
  - intros g own' Hpa [K1 K2 K3 K4 K5 K6]. split; simpl; auto. right. split; [lia|done].
Qed.

Lemma peer_create_wf m s path len pos m' :
  ofd_wf m -> ofd_node_peer_create m s path len = Ok (pos, m') -> ofd_wf m'.
Proof.
  intros [own Hw] H. unfold ofd_node_peer_create in H. apply res_bind_ok in H as (o & E1 & H).
  apply res_bind_ok in H as ([pos1 m1] & E2 & H). apply res_bind_ok in H as (n1 & E3 & H).
  destruct (created m own path len pos1 m1 n1) as (-> & n & -> & Hb & Hg); [done..|].
  destruct o as [sr|]; [|discriminate]. apply get_inv in E1 as [E1 R1]. cbn [of_option res_bind] in H. unfold cassert in H.
  destruct (Z.eqb_spec (on_peer sr) 0); [|discriminate]. injection H as <- <-.
  apply (link_own m own m1 s sr); [done..| |].
  - pose proof (w_ok _ _ Hw _ _ E1) as K. destruct (nk_parent _ _ _ _ K) as [|[? ?]]; [by left|right]. split; [lia|done].
  - intros g own' Hpa [K1 K2 K3 K4 K5 K6]. split; simpl; auto. right. split; [lia|done].
Qed.

Lemma node_add_wf m p path len pos m' : ofd_wf m -> ofd_node_add m p path len = Ok (pos, m') -> ofd_wf m'.
Proof.
  intros Hw H. unfold ofd_node_add in H. apply res_bind_ok in H as (c & _ & H). destruct (0 <? c).
  - apply res_bind_ok in H as (l & _ & H). destruct (0 <? l); [by eapply peer_create_wf|by injection H as <- <-].
  - by eapply child_create_wf.
Qed.

(** ** Pruning *)
Lemma prune_loop_inv fuel : forall m k s nd k' s',
  prune_loop fuel m k s nd = Ok (k', s') -> om_mem m !! k = Some (NODE_PAT s) ->
  om_mem m !! k' = Some (NODE_PAT s') /\ on_peer s' = nd.
Proof.
  induction fuel as [|fuel IH]; intros m k s nd k' s' H E; [discriminate|]. cbn [prune_loop] in H.
  destruct (Z.eqb_spec (on_peer s) nd); [by injection H as <- <-|].
  apply res_bind_ok in H as (s1 & E1 & H). apply node_inv in E1 as [E1 _]. by eapply IH.
Qed.

(** The peers of a node's peers may take its place. *)
Lemma prune_wf m nd r m' : ofd_wf m -> ofd_node_prune m nd = Ok (r, m') -> ofd_wf m'.
Proof.
  intros [own Hw] H. unfold ofd_node_prune in H. apply res_bind_ok in H as (n & E1 & H). apply node_inv in E1 as [E1 _].
  apply res_bind_ok in H as (p & E2 & H). apply node_inv in E2 as [E2 _]. exists own.
  pose proof (w_obj _ _ Hw _ _ E1) as Hk. pose proof (nk_peer _ _ _ _ (w_ok _ _ Hw _ _ E1)) as Hpeer.
  destruct (Z.eqb_spec (on_child p) nd) as [Ec|Ec].
  - injection H as <- <-. eapply put_own; [done|exact E2|done..|].
    destruct (w_ok _ _ Hw _ _ E2) as [K1 K2 K3 K4 K5 K6]. split; simpl; auto.
    destruct Hpeer as [|[Hlt Hpar]]; [by left|right]. destruct K1 as [|[? Hc]]; [lia|]. split; [lia|done].
  - apply res_bind_ok in H as (s & E3 & H). apply node_inv in E3 as [E3 _]. apply res_bind_ok in H as ([k s'] & E4 & H).
    apply prune_loop_inv in E4 as [E4 Es]; [|done]. injection H as <- <-. cbn [fst snd].
    eapply put_own; [done|exact E4|done..|]. destruct (w_ok _ _ Hw _ _ E4) as [K1 K2 K3 K4 K5 K6]. split; simpl; auto.
    destruct Hpeer as [|[Hlt Hpar]]; [by left|right]. destruct K2 as [|[? Hc]]; [lia|]. split; [lia|].
    destruct Hc as (c & Hc & Epar). rewrite Es in Hc. assert (c = n) as -> by congruence. by rewrite <- Epar.
Qed.

(** ** Properties *)
Lemma prop_seek_inv m own fuel : ofd_own m own -> forall pn target k x,
  prop_seek fuel m pn target = Ok (k, x) ->
  om_mem m !! k = Some (PROP_PAT x) /\ op_next x = target /\ own k = own pn /\ is_prop (om_mem m) pn.
Proof.
  intros Hw. induction fuel as [|fuel IH]; intros pn target k x H; [discriminate|]. cbn [prop_seek] in H.
  apply res_bind_ok in H as (r & E & H). apply prop_inv in E as [E _].
  destruct (Z.eqb_spec (op_next r) target) as [Et|Et].
  - injection H as <- <-. split_and!; [done..|]. by exists r.
  - apply IH in H as (H1 & H2 & H3 & [r1 H4]). split_and!; [done|done| |by exists r].
    rewrite H3. destruct (pk_next _ _ _ _ (w_ok _ _ Hw _ _ E)) as [Hz|(_ & _ & Ho)]; [|done].
    rewrite Hz in H4. apply (w_obj _ _ Hw) in H4. lia.
Qed.

Lemma strlen_inv s l : strlen s = Ok l -> exists nm rest, s = cstr nm rest /\ no_nul nm /\ l = Z.of_nat (length nm).
Proof.
  revert l. induction s as [|c s IH]; intros l H; [discriminate|]. cbn [strlen] in H. destruct (Z.eqb_spec c 0) as [->|Hc].
  - injection H as <-. exists [], s. split_and!; done || constructor.
  - apply res_bind_ok in H as (i & E & H). apply IH in E as (nm & rest & -> & Hn & ->). injection H as <-.
    exists (c :: nm), rest. split_and!; [done|by constructor|simpl; lia].
Qed.

Lemma peek_inv s n bs : peek s n = Ok bs -> bs = take (Z.to_nat n) s /\ n <= Z.of_nat (length s).
Proof. unfold peek. destruct (Z.leb_spec n (Z.of_nat (length s))); [|discriminate]. by intros [= <-]. Qed.

Lemma blit_inv l off bs l' :
  blit l off bs = Ok l' ->
  0 <= off /\ off + Z.of_nat (length bs) <= Z.of_nat (length l) /\
  l' = take (Z.to_nat off) l ++ bs ++ drop (Z.to_nat off + length bs) l /\ length l' = length l.
Proof.
  unfold blit. destruct (_ && _) eqn:E; [|discriminate]. apply andb_true_iff in E as [E1%Z.leb_le E2%Z.leb_le].
  intros [= <-]. split_and!; [done..|]. rewrite !length_app, length_take, length_drop. lia.
Qed.

Lemma peek_name nm rest : peek (cstr nm rest) (Z.of_nat (length nm) + 1) = Ok (nm ++ [0]).
Proof.
  unfold peek, cstr. rewrite length_app. simpl length. destruct (Z.leb_spec (Z.of_nat (length nm) + 1) (Z.of_nat (length nm + S (length rest)))); [|lia].
  f_equal. replace (Z.to_nat (Z.of_nat (length nm) + 1)) with (length nm + 1)%nat by lia. by rewrite take_app_add.
Qed.

(** The layout: the value, then the name. *)
Lemma layout data v nm data' :
  blit data (Z.of_nat (length v)) (nm ++ [0]) = Ok data' -> take (length v) data = v -> exists pad, data' = v ++ cstr nm pad.
Proof.
  intros H Hv. apply blit_inv in H as (_ & _ & -> & _). rewrite Nat2Z.id, Hv. eexists. unfold cstr. by rewrite <- app_assoc.
Qed.

Lemma prop_create_inv m own nd name src sz pos m' :
  ofd_own m own -> ofd_prop_create m nd name src sz = Ok (pos, m') ->
  exists nm rest, name = cstr nm rest /\ no_nul nm /\
  ((pos = 0 /\ m' = m) \/
   (pos = om_next m /\ exists r m1 n, grown m m1 (PROP_PAT r) /\ op_next r = 0 /\ holds r nm (take (Z.to_nat sz) src) /\
      0 <= sz <= Z.of_nat (length src) /\ om_mem m !! nd = Some (NODE_PAT n) /\
      ((on_prop n = 0 /\ m' = put m1 nd (NODE_PAT (set_prop n pos))) \/
       (on_prop n <> 0 /\ exists k x, prop_seek (fuel_of m1) m1 (on_prop n) 0 = Ok (k, x) /\
          m' = put m1 k (PROP_PAT (set_next x pos)))))).
Proof.
  intros Hw H. pose proof (w_num _ _ Hw) as Hnum. unfold ofd_prop_create in H. apply res_bind_ok in H as (l & El & H).
  apply strlen_inv in El as (nm & rest & -> & Hnm & ->). exists nm, rest. split_and!; [done..|].
  apply res_bind_ok in H as ([[pos' cells] m0] & E1 & H). apply take_cells_inv in E1 as [[-> ->]|(-> & _ & Hc & Hn & ->)].
  { change (0 =? 0) with true in H. injection H as <- <-. by left. }
  destruct (Z.eqb_spec (om_next m) 0) as [|_]; [lia|]. rewrite peek_name in H.
  apply res_bind_ok in H as (d1 & E1 & H). cbn [res_bind] in H. apply res_bind_ok in H as (d2 & E2 & H).
  apply res_bind_ok in H as (n & E3 & H).
  assert (length d1 = Z.to_nat (CELL * cells - SIZEOF_PROP) /\ sz <= Z.of_nat (length src) /\
    (0 <= sz -> take (Z.to_nat sz) d1 = take (Z.to_nat sz) src)) as (L1 & Bs & T1).
  { destruct (Z.ltb_spec 0 sz).
    - apply res_bind_ok in E1 as (bs & Eb & E1). apply peek_inv in Eb as [-> Hb].
      apply blit_inv in E1 as (_ & _ & -> & L). rewrite length_replicate in L. split_and!; [done..|]. intros _.
      simpl. rewrite take_app_le by (rewrite length_take; lia). rewrite take_take. by rewrite Nat.min_id.
    - injection E1 as <-. rewrite length_replicate. split_and!; [done|lia|]. intros ?.
      by replace (Z.to_nat sz) with 0%nat by lia. }
  pose proof E2 as E2'. apply blit_inv in E2 as (Hsz & Hb & _ & L2). rewrite length_app in Hb. simpl in Hb.
  unfold CELL, SIZEOF_PROP in *. specialize (T1 Hsz).
  assert (length (take (Z.to_nat sz) src) = Z.to_nat sz) as Lt by (rewrite length_take; lia).
  assert (holds (OfdProp 0 (u32 sz) (u32 (Z.of_nat (length nm) + 1)) d2) nm (take (Z.to_nat sz) src)) as Hh.
  { split_and!; [done|simpl; rewrite Lt, u32_small by lia; lia|simpl; apply u32_small; lia|].
    apply (layout d1); [by rewrite Lt, Z2Nat.id by lia|by rewrite Lt]. }
  right. set (r := OfdProp 0 (u32 sz) (u32 (Z.of_nat (length nm) + 1)) d2) in *.
  set (m1 := put (OfdMem (om_num m) (om_next m + cells) (om_mem m)) (om_next m) (PROP_PAT r)) in *.
  assert (grown m m1 (PROP_PAT r)) as Hg.
  { exists cells. split_and!; [lia|done| |done]. simpl. rewrite L2, L1. unfold SIZEOF_PROP, CELL. dlia. }
  apply node_inv in E3 as [E3 _]. simpl in E3. apply lookup_insert_Some in E3 as [[_ ?]|[Hnd E3]]; [discriminate|].
  destruct (Z.eqb_spec (on_prop n) 0) as [Hz|Hz].
  - injection H as <- <-. split; [done|]. exists r, m1, n. split_and!; try done. by left.
  - apply res_bind_ok in H as ([k x] & Es & H). injection H as <- <-. split; [done|]. exists r, m1, n. split_and!; try done.
    right. split; [done|]. by exists k, x.
Qed.

(** The new property, owned by the node, before it is linked. *)
Lemma new_prop_own m own m1 r nd :
  ofd_own m own -> grown m m1 (PROP_PAT r) -> op_next r = 0 -> (exists nm v, holds r nm v) ->
  ofd_own m1 (set_own own (om_next m) nd) /\ set_own own (om_next m) nd (om_next m) = nd /\
  is_prop (om_mem m1) (om_next m) /\
  (forall k o, om_mem m !! k = Some o -> om_mem m1 !! k = Some o /\ k < om_next m /\ set_own own (om_next m) nd k = own k).
Proof.
  intros Hw Hg Hr Hh. split_and!.
  - eapply grown_own; [done|done|]. split; [by left|done].
  - unfold set_own. by rewrite Z.eqb_refl.
  - destruct Hg as (c & _ & _ & _ & ->). exists r. apply lookup_insert_eq.
  - intros k o E. apply (w_obj _ _ Hw) in E as Hk. destruct Hg as (c & _ & _ & _ & ->). simpl.
    rewrite lookup_insert_ne by lia. split_and!; [done|lia|]. unfold set_own. destruct (Z.eqb_spec k (om_next m)); [lia|done].
Qed.

(** A list of the old memory has only old members. *)
Lemma prop_seek_old m own m1 own1 fuel : ofd_own m own -> ofd_own m1 own1 ->
  (forall k o, om_mem m !! k = Some o -> om_mem m1 !! k = Some o) ->
  forall pn target k x, is_prop (om_mem m) pn -> prop_seek fuel m1 pn target = Ok (k, x) -> om_mem m !! k = Some (PROP_PAT x).
Proof.
  intros Hw Hw1 Hold. induction fuel as [|fuel IH]; intros pn target k x [r0 E0] H; [discriminate|]. cbn [prop_seek] in H.
  apply Hold in E0 as E1. rewrite (prop_ok_at m1 own1 pn r0) in H by done. cbn [res_bind] in H.
  destruct (Z.eqb_spec (op_next r0) target) as [Et|Et]; [by injection H as <- <-|].
  destruct (pk_next _ _ _ _ (w_ok _ _ Hw _ _ E0)) as [Hz|(_ & Hp & _)]; [|by eapply IH].
  rewrite Hz in H. apply (prop_seek_inv m1 own1 _ Hw1) in H as (_ & _ & _ & [r1 H]). apply (w_obj _ _ Hw1) in H. lia.
Qed.

Lemma prop_create_wf m nd name src sz pos m' :
  ofd_wf m -> ofd_prop_create m nd name src sz = Ok (pos, m') -> ofd_wf m'.
Proof.
  intros [own Hw] H. apply (prop_create_inv m own) in H as (nm & rest & -> & Hnm & [[-> ->]|(-> & r & m1 & n & Hg & Hr & Hh & _ & En & H)]);
    [by exists own| |done].
  destruct (new_prop_own m own m1 r nd Hw Hg Hr ltac:(eauto)) as (Hw1 & Ho & Hp & Hold).
  exists (set_own own (om_next m) nd). destruct (Hold _ _ En) as (En1 & Hlt & _).
  destruct H as [[Hz ->]|(Hz & k & x & Es & ->)].
  - eapply put_own; [done|exact En1|done..|]. destruct (w_ok _ _ Hw1 _ _ En1) as [K1 K2 K3 K4 K5 K6]. split; simpl; auto.
  - pose proof Es as Es'. apply (prop_seek_inv m1 _ _ Hw1) in Es' as (Ex & Hx & Hox & Hpn).
    eapply put_own; [done|exact Ex|done..|]. destruct (w_ok _ _ Hw1 _ _ Ex) as [K1 K2]. split; simpl; [|done]. right.
    destruct (nk_prop _ _ _ _ (w_ok _ _ Hw _ _ En)) as [|(_ & Hnp & _)]; [done|].
    destruct (nk_prop _ _ _ _ (w_ok _ _ Hw1 _ _ En1)) as [|(_ & _ & Hon)]; [done|]. split_and!; [|done|by rewrite Ho, Hox].
    apply (prop_seek_old m own m1 _ _ Hw Hw1) in Es; [by apply Hold in Es as (_ & ? & _)| |done].
    intros j o Ej. by apply Hold.
Qed.

Lemma prop_remove_wf m nd pr m' : ofd_wf m -> ofd_prop_remove m nd pr = Ok m' -> ofd_wf m'.
Proof.
  intros [own Hw] H. exists own. unfold ofd_prop_remove in H. apply res_bind_ok in H as (on & E1 & H).
  apply res_bind_ok in H as (op & E2 & H). destruct on as [n|]; [|discriminate]. apply get_inv in E1 as [E1 _].
  cbn [of_option res_bind] in H. destruct (Z.eqb_spec (on_prop n) pr) as [Ep|Ep].
  - destruct op as [p|]; [|discriminate]. injection H as <-. apply pget_inv in E2 as [E2 _].
    eapply put_own; [done|exact E1|done..|]. destruct (w_ok _ _ Hw _ _ E1) as [K1 K2 K3 K4 K5 K6]. split; simpl; auto.
    pose proof (w_obj _ _ Hw _ _ E2). rewrite Ep in K4. destruct K4 as [|(? & _ & Hon)]; [lia|].
    destruct (pk_next _ _ _ _ (w_ok _ _ Hw _ _ E2)) as [|(? & ? & Ho)]; [by left|right]. rewrite Ho. split_and!; [lia|done|done].
  - apply res_bind_ok in H as ([k x] & E3 & H). destruct op as [p|]; [|discriminate]. injection H as <-. apply pget_inv in E2 as [E2 _].
    apply (prop_seek_inv m own _ Hw) in E3 as (Ex & Hx & _ & _). cbn [fst snd].
    eapply put_own; [done|exact Ex|done..|]. destruct (w_ok _ _ Hw _ _ Ex) as [K1 K2]. split; simpl; [|done].
    pose proof (w_obj _ _ Hw _ _ E2). rewrite Hx in K1. destruct K1 as [|(? & _ & Hon)]; [lia|].
    destruct (pk_next _ _ _ _ (w_ok _ _ Hw _ _ E2)) as [|(? & ? & Ho)]; [by left|right]. rewrite Ho. split_and!; [lia|done|done].
Qed.

(** A value that fits is written over the old one, the name moved up to it. *)
Lemma overwrite_holds r nm old name' rest v src sz d1 :
  holds r nm old -> name' = cstr nm rest -> v = take (Z.to_nat sz) src -> 0 <= sz -> sz <= op_objsz r -> sz <= Z.of_nat (length src) ->
  op_objsz r < 2 ^ 32 -> blit (op_data r) 0 v = Ok d1 ->
  if sz <? op_objsz r then
    forall d2, blit d1 sz (nm ++ [0]) = Ok d2 -> holds (OfdProp (op_next r) (u32 sz) (op_namesz r) d2) nm v
  else holds (OfdProp (op_next r) (op_objsz r) (op_namesz r) d1) nm v.
Proof.
  intros (Hn & Hs & Hns & pad & Hd) -> -> Hsz Hle Hsrc Hr Hb.
  assert (length (take (Z.to_nat sz) src) = Z.to_nat sz) as Lt by (rewrite length_take; lia).
  apply blit_inv in Hb as (_ & _ & -> & _). simpl. rewrite Lt.
  destruct (Z.ltb_spec sz (op_objsz r)) as [Hlt|Hge].
  - intros d2 Hb. split_and!; [done|simpl; rewrite Lt, u32_small by lia; lia|done|]. eapply layout.
    + by rewrite Lt, Z2Nat.id by lia.
    + by rewrite Lt, take_app_length' by done.
  - assert (sz = op_objsz r) as -> by lia. split_and!; [done|simpl; lia|done|]. exists pad. simpl. f_equal.
    rewrite Hd, Hs, Nat2Z.id. by rewrite drop_app_length.
Qed.

(** *** Finding a property *)
Lemma holds_name r nm v : holds r nm v -> exists pad, drop (Z.to_nat (op_objsz r)) (op_data r) = cstr nm pad /\ op_objsz r <= Z.of_nat (length (op_data r)).
Proof.
  intros (_ & Hs & _ & pad & Hd). exists pad. rewrite Hs, Nat2Z.id, Hd. split; [by rewrite drop_app_length|].
  rewrite length_app. lia.
Qed.

Lemma holds_value r nm v : holds r nm v -> take (Z.to_nat (op_objsz r)) (op_data r) = v.
Proof. intros (_ & Hs & _ & pad & Hd). by rewrite Hs, Nat2Z.id, Hd, take_app_length. Qed.

(** The comparison of [ofd_prop_find] compares the names. *)
Lemma compare_names r nm v nm0 rest :
  holds r nm v -> no_nul nm0 ->
  (if Z.of_nat (length nm0) + 1 =? op_namesz r
   then let! d := strncmp (cstr nm0 rest) (drop (Z.to_nat (op_objsz r)) (op_data r)) (op_namesz r) in Ok (d =? 0)
   else Ok false) = Ok (bool_decide (nm0 = nm)).
Proof.
  intros H H0. destruct (holds_name _ _ _ H) as (pad & -> & _). destruct H as (Hn & _ & -> & _).
  destruct (Z.eqb_spec (Z.of_nat (length nm0) + 1) (Z.of_nat (length nm) + 1)) as [El|El].
  - destruct (strncmp_spec nm0 rest nm pad (Z.of_nat (length nm) + 1) H0 Hn) as (d & -> & Hd). simpl. f_equal.
    rewrite !take_ge in Hd by lia. destruct (Z.eqb_spec d 0) as [E|E].
    + by rewrite bool_decide_eq_true_2 by (by apply Hd).
    + rewrite bool_decide_eq_false_2; [done|]. by rewrite <- Hd.
  - rewrite bool_decide_eq_false_2; [done|]. by intros ->.
Qed.

Lemma prop_find_loop_inv m own fuel nm rest : ofd_own m own -> no_nul nm -> forall p q,
  prop_find_loop fuel m p (cstr nm rest) (Z.of_nat (length nm) + 1) = Ok q -> q <> 0 ->
  exists r v, om_mem m !! q = Some (PROP_PAT r) /\ holds r nm v.
Proof.
  intros Hw Hn. induction fuel as [|fuel IH]; intros p q H Hq; [discriminate|]. cbn [prop_find_loop] in H.
  destruct (p =? 0); [by injection H as <-|]. apply res_bind_ok in H as (r & E & H). apply prop_inv in E as [E _].
  destruct (_ <=? _); [|discriminate]. destruct (pk_data _ _ _ _ (w_ok _ _ Hw _ _ E)) as (nm' & v & Hh).
  rewrite (compare_names r nm' v nm rest Hh Hn) in H. cbn [res_bind] in H. case_bool_decide as Eb; [|by eapply IH].
  injection H as <-. subst nm'. eauto.
Qed.

Lemma prop_find_named m n nm rest :
  no_nul nm -> nm <> [] ->
  ofd_prop_find m n (Some (cstr nm rest)) =
  let! p := ofd_node_prop m n in prop_find_loop (fuel_of m) m p (cstr nm rest) (Z.of_nat (length nm) + 1).
Proof.
  intros Hn Hne. unfold ofd_prop_find. destruct nm as [|c nm]; [done|].
  assert (deref (cstr (c :: nm) rest) = Ok c) as -> by done. rewrite strlen_spec by done. cbn [res_bind].
  apply Forall_cons in Hn as [Hc _]. by destruct (Z.eqb_spec c 0).
Qed.

Lemma prop_find_unnamed m n rest q : ofd_prop_find m n (Some (cstr [] rest)) = Ok q -> q = 0.
Proof. intros H. unfold ofd_prop_find in H. apply res_bind_ok in H as (p & _ & H). by injection H as <-. Qed.

Lemma prop_find_inv m own n name q :
  ofd_own m own -> ofd_prop_find m n (Some name) = Ok q -> q <> 0 ->
  exists nm rest r v, name = cstr nm rest /\ no_nul nm /\ om_mem m !! q = Some (PROP_PAT r) /\ holds r nm v.
Proof.
  intros Hw H Hq. pose proof H as H'. unfold ofd_prop_find in H'. apply res_bind_ok in H' as (p & _ & H').
  apply res_bind_ok in H' as (c & _ & H'). destruct (c =? 0); [by injection H' as <-|].
  apply res_bind_ok in H' as (l & El & _). apply strlen_inv in El as (nm & rest & -> & Hn & _).
  destruct nm as [|c' nm]; [by apply prop_find_unnamed in H|]. rewrite prop_find_named in H by done.
  apply res_bind_ok in H as (p' & _ & H). eapply prop_find_loop_inv in H as (r & v & ? & ?); [|done..].
  by exists (c' :: nm), rest, r, v.
Qed.

Lemma objsz_small m own k r : ofd_own m own -> om_mem m !! k = Some (PROP_PAT r) -> 0 <= op_objsz r < 2 ^ 32.
Proof.
  intros Hw E. pose proof (w_num _ _ Hw). destruct (w_obj _ _ Hw _ _ E) as (H1 & H2 & H3). apply (w_ok _ _ Hw) in E.
  destruct (pk_data _ _ _ _ E) as (nm & v & _ & Hs & _ & pad & Hd). simpl in H3. unfold SIZEOF_PROP, CELL in H3.
  rewrite Hd, length_app in H3. rewrite Hs. split; [lia|]. dlia.
Qed.

(** A property that is overwritten: what comes of it. *)
Lemma prop_set_inv m own n name src sz p m' :
  ofd_own m own -> 0 <= sz -> ofd_prop_set m n name src sz = Ok (p, m') ->
  exists nm rest q r v, name = cstr nm rest /\ no_nul nm /\ ofd_prop_find m n (Some name) = Ok q /\ q <> 0 /\
    om_mem m !! q = Some (PROP_PAT r) /\ holds r nm v /\
    ((sz <= op_objsz r /\ sz <= Z.of_nat (length src) /\ p = q /\ exists r', m' = put m q (PROP_PAT r') /\ op_next r' = op_next r /\
        length (op_data r') = length (op_data r) /\ holds r' nm (take (Z.to_nat sz) src)) \/
     (op_objsz r < sz /\ exists m1, ofd_prop_remove m n q = Ok m1 /\ ofd_prop_create m1 n name src sz = Ok (p, m'))).
Proof.
  intros Hw Hsz H. unfold ofd_prop_set in H. apply res_bind_ok in H as (q & E1 & H).
  apply res_bind_ok in H as (r & E2 & H). apply prop_inv in E2 as [E2 Hq].
  assert (q <> 0) as Hnz by (apply (w_obj _ _ Hw) in E2; lia).
  destruct (prop_find_inv m own n name q Hw E1 Hnz) as (nm & rest & r' & v & -> & Hn & E2' & Hh).
  rewrite E2 in E2'. injection E2' as <-. exists nm, rest, q, r, v. split_and!; [done..|].
  destruct (Z.leb_spec sz (op_objsz r)) as [Hle|Hgt].
  - left. apply res_bind_ok in H as (bs & Eb & H). apply peek_inv in Eb as [-> Hb]. apply res_bind_ok in H as (d1 & Ed & H).
    pose proof (overwrite_holds r nm v _ rest _ src sz d1 Hh eq_refl eq_refl Hsz Hle Hb (proj2 (objsz_small _ _ _ _ Hw E2)) Ed) as Ho.
    apply blit_inv in Ed as (_ & _ & _ & L1). split_and!; [done..| |].
    + destruct (sz <? op_objsz r); [|by injection H as <- _]. apply res_bind_ok in H as (nm1 & _ & H).
      apply res_bind_ok in H as (d2 & _ & H). by injection H as <- _.
    + destruct (sz <? op_objsz r).
      * apply res_bind_ok in H as (nm1 & En & H). apply res_bind_ok in H as (d2 & Ed2 & H). injection H as <- <-.
        destruct Hh as (_ & _ & Hns & _). rewrite Hns, peek_name in En. injection En as <-.
        eexists. split_and!; [done|done| |by apply Ho]. simpl. apply blit_inv in Ed2 as (_ & _ & _ & L2). congruence.
      * injection H as <- <-. eexists. split_and!; [done|done| |exact Ho]. done.
  - right. split; [done|]. apply res_bind_ok in H as (m1 & E3 & H). eauto.
Qed.

Lemma prop_set_wf m n name src sz p m' : ofd_wf m -> 0 <= sz -> ofd_prop_set m n name src sz = Ok (p, m') -> ofd_wf m'.
Proof.
  intros Hwf Hsz H. pose proof Hwf as [own Hw].
  apply (prop_set_inv m own) in H as (nm & rest & q & r & v & -> & Hn & E1 & Hnz & E2 & Hh & [(Hle & Hb & -> & r' & -> & En & Hl & Hh')|(Hgt & m1 & Er & Ec)]); [| |done..].
  - exists own. eapply put_own; [done|exact E2|done| |].
    + simpl. by rewrite Hl.
    + destruct (w_ok _ _ Hw _ _ E2) as [K1 K2]. split; [by rewrite En|eauto].
  - eapply prop_create_wf; [|exact Ec]. by eapply prop_remove_wf.
Qed.

Lemma prop_add_wf m n name src sz p m' : ofd_wf m -> 0 <= sz -> ofd_prop_add m n name src sz = Ok (p, m') -> ofd_wf m'.
Proof.
  intros Hw Hsz H. unfold ofd_prop_add in H. apply res_bind_ok in H as (q & _ & H). apply res_bind_ok in H as (nm & _ & H).
  destruct (q =? 0); [by eapply prop_create_wf|by eapply prop_set_wf].
Qed.

(** [ofd_setprop] is [ofd_prop_add], and reports the size of what was stored. *)
Lemma setprop_add m n name src sz :
  ofd_setprop m n name src sz =
  let! rm := ofd_prop_add m n name src sz in
  if 0 <? fst rm then let! pp := prop (snd rm) (fst rm) in Ok (op_objsz pp, snd rm) else Ok (OF_FAILURE, snd rm).
Proof.
  unfold ofd_setprop, ofd_prop_add. destruct (ofd_prop_find m n name) as [q|]; [|done]. cbn [res_bind].
  destruct name as [name|]; [|done]. cbn [of_option res_bind].
  by destruct (if q =? 0 then ofd_prop_create m n name src sz else ofd_prop_set m n name src sz) as [[r m1]|].
Qed.

(** ** Instances and search lists *)
Lemma set_io_own m own k r i :
  ofd_own m own -> om_mem m !! k = Some (NODE_PAT r) -> (i = 0 \/ is_io (om_mem m) i) -> ofd_own (put m k (NODE_PAT (set_io r i))) own.
Proof.
  intros Hw E Hi. eapply put_own; [done|exact E|done..|]. destruct (w_ok _ _ Hw _ _ E) as [K1 K2 K3 K4 K5 K6]. split; simpl; auto.
Qed.

Lemma set_list_own m own k r a b :
  ofd_own m own -> om_mem m !! k = Some (NODE_PAT r) -> ofd_own (put m k (NODE_PAT (set_list r a b))) own.
Proof.
  intros Hw E. eapply put_own; [done|exact E|done..|]. destruct (w_ok _ _ Hw _ _ E) as [K1 K2 K3 K4 K5 K6]. split; simpl; auto.
Qed.

Lemma io_create_wf m nd open pos m' : ofd_wf m -> ofd_io_create m nd open = Ok (pos, m') -> ofd_wf m'.
Proof.
  intros [own Hw] H. unfold ofd_io_create in H. apply res_bind_ok in H as ([n|] & E1 & H); [|by injection H as <- <-; exists own].
  apply get_inv in E1 as [E1 _]. apply res_bind_ok in H as ([[p c] m1] & E2 & H). pose proof (w_num _ _ Hw).
  apply take_cells_inv in E2 as [[-> ->]|(-> & -> & Hc & Hn & ->)].
  { change (0 =? 0) with true in H. injection H as <- <-. by exists own. }
  destruct (Z.eqb_spec (om_next m) 0); [lia|]. injection H as <- <-. pose proof (w_obj _ _ Hw _ _ E1) as Hk.
  exists (set_own own (om_next m) 0).
  set (m1 := put (OfdMem (om_num m) (om_next m + s32 (u64 (SIZEOF_IO + CELL - 1) / CELL)) (om_mem m)) (om_next m) (IO_PAT (OfdIo nd (u64 open)))).
  assert (ofd_own m1 (set_own own (om_next m) 0)) as Hw1.
  { apply (new_own m own 2 (IO_PAT (OfdIo nd (u64 open)))); [done..|]. simpl. eapply keeps_node; [|by exists n]. apply keeps_fresh. eapply fresh_above; [done|lia]. }
  apply set_io_own; [done|simpl; rewrite lookup_insert_ne by lia; done|]. right. eexists. apply lookup_insert_eq.
Qed.

Lemma io_close_wf m i m' : ofd_wf m -> ofd_io_close m i = Ok m' -> ofd_wf m'.
Proof.
  intros [own Hw] H. unfold ofd_io_close in H. apply res_bind_ok in H as ([o|] & E1 & H); [|discriminate].
  cbn [of_option res_bind] in H. apply res_bind_ok in H as ([r|] & E2 & H); [|discriminate]. injection H as <-.
  apply get_inv in E2 as [E2 _]. exists own.
  unfold ofd_io_get, obj_at in E1. destruct (i <? om_next m); [|discriminate]. destruct (0 <=? i); [|discriminate].
  destruct (om_mem m !! i) as [[| |o']|] eqn:Ei; try discriminate. injection E1 as ->.
  apply set_io_own; [|simpl; rewrite lookup_insert_ne by congruence; done|by left].
  eapply put_own; [done|exact Ei|done..|]. by apply (w_ok _ _ Hw _ _ Ei).
Qed.

Lemma link_match_wf m head prev n h m' : ofd_wf m -> link_match m head prev n = Ok (h, m') -> ofd_wf m'.
Proof.
  intros [own Hw] H. exists own. unfold link_match in H. apply res_bind_ok in H as ([h1 m1] & E1 & H).
  assert (ofd_own m1 own) as Hw1.
  { destruct (0 <=? prev); [|by injection E1 as _ <-]. apply res_bind_ok in E1 as (np & E & E1). apply node_inv in E as [E _].
    injection E1 as _ <-. by apply set_list_own. }
  apply res_bind_ok in H as (np & E & H). apply node_inv in E as [E _]. injection H as _ <-. by apply set_list_own.
Qed.

Lemma find_by_prop_wf fuel : forall m head prev n name val sz h m',
  ofd_wf m -> ofd_find_by_prop fuel m head prev n name val sz = Ok (h, m') -> ofd_wf m'.
Proof.
  induction fuel as [|fuel IH]; intros m head prev n name val sz h m' Hw H; [discriminate|]. cbn [ofd_find_by_prop] in H.
  apply res_bind_ok in H as (p & _ & H). apply res_bind_ok in H as ([[h1 p1] m1] & E1 & H).
  assert (ofd_wf m1) as Hw1.
  { destruct (0 <? p); [|by injection E1 as _ _ <-]. apply res_bind_ok in E1 as (b & _ & E1).
    destruct b; [|by injection E1 as _ _ <-]. apply res_bind_ok in E1 as ([h2 m2] & E2 & E1). injection E1 as _ _ <-.
    by eapply link_match_wf. }
  apply res_bind_ok in H as (c & _ & H). apply res_bind_ok in H as ([h2 m2] & E2 & H).
  assert (ofd_wf m2) as Hw2 by (destruct (0 <? c); [by eapply IH|by injection E2 as _ <-]).
  apply res_bind_ok in H as (q & _ & H). destruct (0 <? q); [by eapply IH|by injection H as _ <-].
Qed.

Lemma create_wf sz m : sz < 2 ^ 31 -> ofd_create sz = Some m -> ofd_wf m.
Proof.
  intros Hs H. unfold ofd_create, SIZEOF_NODE, SIZEOF_MEM, CELL, OFD_ROOT in H. destruct (Z.ltb_spec sz (40 * 4)); [discriminate|]. injection H as <-.
  assert (18 <= (sz - 16) / 8 < 2 ^ 28) as Hn by (split; dlia).
  assert (s32 ((sz - 16) / 8) = (sz - 16) / 8) as ->. { unfold s32. rewrite u32_small by lia. zcases. }
  exists (fun _ => 0). split; cbn [om_num om_next om_mem].
  - change ((40 + 2 + 8 - 1) / 8) with 6. lia.
  - intros k o E. apply lookup_singleton_Some in E as [<- <-]. vm_compute. split_and!; done.
  - intros k1 o1 k2 o2 E1 E2. apply lookup_singleton_Some in E1 as [<- _]. apply lookup_singleton_Some in E2 as [<- _]. lia.
  - eexists. apply lookup_singleton_eq.
  - intros k o E. apply lookup_singleton_Some in E as [<- <-]. simpl. split; simpl; auto. split; [lia|done].
Qed.

(** ** Every sequence of calls *)
Inductive ofd_call : Type :=
  | CNodeAdd (p : Z) (path : list Z) (sz : Z)
  | CChildCreate (p : Z) (path : list Z) (sz : Z)
  | CPeerCreate (s : Z) (path : list Z) (sz : Z)
  | CPrune (n : Z)
  | CPropAdd (n : Z) (name : option (list Z)) (buf : list Z) (sz : Z)
  | CSetProp (n : Z) (name : option (list Z)) (buf : list Z) (sz : Z)
  | CPropRemove (n p : Z)
  | CFindByProp (n : Z) (name : list Z) (val : option (list Z)) (sz : Z)
  | CIoCreate (n open : Z)
  | CIoClose (i : Z).

Definition ofd_exec (m : ofd_mem) (c : ofd_call) : res ofd_mem :=
  match c with
  | CNodeAdd p path sz => let! r := ofd_node_add m p path (u64 sz) in Ok (snd r)
  | CChildCreate p path sz => let! r := ofd_node_child_create m p path (u64 sz) in Ok (snd r)
  | CPeerCreate s path sz => let! r := ofd_node_peer_create m s path (u64 sz) in Ok (snd r)
  | CPrune n => let! r := ofd_node_prune m n in Ok (snd r)
  | CPropAdd n name buf sz => let! r := ofd_prop_add m n name buf (u64 sz) in Ok (snd r)
  | CSetProp n name buf sz => let! r := ofd_setprop m n name buf (u64 sz) in Ok (snd r)
  | CPropRemove n p => ofd_prop_remove m n p
  | CFindByProp n name val sz => let! r := ofd_node_find_by_prop m n name val (u64 sz) in Ok (snd r)
  | CIoCreate n open => let! r := ofd_io_create m n open in Ok (snd r)
  | CIoClose i => ofd_io_close m i
  end.

Fixpoint ofd_run (m : ofd_mem) (cs : list ofd_call) : res ofd_mem :=
  match cs with
  | [] => Ok m
  | c :: cs => let! m := ofd_exec m c in ofd_run m cs
  end.

Lemma exec_wf m c m' : ofd_wf m -> ofd_exec m c = Ok m' -> ofd_wf m'.
Proof.
  intros Hw H. destruct c; cbn [ofd_exec] in H;
    try (apply res_bind_ok in H as ([r m1] & E & H); injection H as <-; cbn [snd]).
  - by eapply node_add_wf.
  - by eapply child_create_wf.
  - by eapply peer_create_wf.
  - by eapply prune_wf.
  - eapply prop_add_wf; [done| |exact E]. apply u64_range.
  - rewrite setprop_add in E. apply res_bind_ok in E as ([r1 m2] & E1 & E). cbn [fst snd] in E.
    assert (m1 = m2) as ->. { destruct (0 <? r1); [|by injection E as _ <-]. apply res_bind_ok in E as (pp & _ & E). by injection E as _ <-. }
    eapply prop_add_wf; [done| |exact E1]. apply u64_range.
  - by eapply prop_remove_wf.
  - by eapply find_by_prop_wf.
  - by eapply io_create_wf.
  - by eapply io_close_wf.
Qed.

Lemma run_wf cs : forall m0 m, ofd_wf m0 -> ofd_run m0 cs = Ok m -> ofd_wf m.
Proof.
  induction cs as [|c cs IH]; intros m0 m Hw H; cbn [ofd_run] in H; [by injection H as <-|].
  apply res_bind_ok in H as (m1 & E & H). eapply IH; [|exact H]. by eapply exec_wf.
Qed.

(** C29: Whatever is done to a device tree, by any sequence of calls with any arguments that
    does not trap, it stays one: objects do not overlap and lie below [om_next], every child,
    peer, property and instance link leads to an object of its kind, a child's parent is the
    node it hangs from and peers share theirs, children, peers and properties lie behind what
    links to them, so that every list ends, no property is on the lists of two nodes, and
    paths and property names keep their terminators. *)
Theorem ofd_stays_tree sz m0 cs m :
  sz < 2 ^ 31 -> ofd_create sz = Some m0 -> ofd_run m0 cs = Ok m -> ofd_wf m.
Proof.
  intros Hs Hc H. eapply run_wf; [|exact H]. by eapply create_wf.
Qed.

Definition demo_m0 : ofd_mem := default (OfdMem 0 0 ∅) (ofd_create 4096).
Definition demo_calls : list ofd_call :=
  [CNodeAdd 1 s_cpus 5; CNodeAdd 1 s_cpu 4; CNodeAdd 7 s_cpus_a 7; CSetProp 19 (Some s_model) [1; 2; 3] 3;
   CSetProp 19 (Some s_model) [1; 2; 3; 4; 5] 5; CIoCreate 7 5; CPrune 7].
Lemma demo_runs : is_ok (ofd_run demo_m0 demo_calls) = true.
Proof. by vm_compute. Qed.

Lemma ofd_stays_tree_witness : exists m, ofd_run demo_m0 demo_calls = Ok m /\ ofd_wf m.
Proof.
  destruct (is_ok_inv _ demo_runs) as [m E]. exists m. split; [exact E|].
  exact (ofd_stays_tree 4096 demo_m0 demo_calls m ltac:(lia) eq_refl E).
Defined.
