(* ===== verification/OfdProps.v ===== *)
(** * OfdProps: the properties of a node

    What [ofd_setprop], [ofd_getprop] and [ofd_nextprop] of [lib/of_devtree.c] promise:
    a node holds a list of named values, in order. *)

From S2P Require Import Prelude Bitmap PgAlloc Imemcpy Clib Ofd OfdTree.

(** ** The list of a node's properties *)

(** The properties from [p] up to [q], as they are linked. *)
Fixpoint seg (g : gmap Z ofd_obj) (p : Z) (l : list (Z * ofd_prop)) (q : Z) : Prop :=
  match l with
  | [] => p = q
  | (k, r) :: l => p = k /\ k <> 0 /\ g !! k = Some (PROP_PAT r) /\ seg g (op_next r) l q
  end.

Lemma seg_app g p l1 l2 q : seg g p (l1 ++ l2) q <-> exists m, seg g p l1 m /\ seg g m l2 q.
Proof.
  revert p. induction l1 as [|[k r] l1 IH]; intros p; simpl.
  - split; [eauto|by intros (m & -> & H)].
  - rewrite IH. naive_solver.
Qed.

Lemma seg_frame g g' p l q : seg g p l q -> (forall k, k ∈ l.*1 -> g' !! k = g !! k) -> seg g' p l q.
Proof.
  revert p. induction l as [|[k r] l IH]; intros p H Hf; simpl in *; [done|]. destruct H as (-> & Hk & E & H).
  split_and!; [done|done|by rewrite Hf by left|]. apply IH; [done|]. intros j Hj. apply Hf. by right.
Qed.

(** What a property says. *)
Definition pname (r : ofd_prop) : list Z := take (Z.to_nat (op_namesz r - 1)) (drop (Z.to_nat (op_objsz r)) (op_data r)).
Definition pvalue (r : ofd_prop) : list Z := take (Z.to_nat (op_objsz r)) (op_data r).
Definition view (l : list (Z * ofd_prop)) : list (list Z * list Z) := (fun x => (pname (snd x), pvalue (snd x))) <$> l.

Lemma holds_view r nm v : holds r nm v -> pname r = nm /\ pvalue r = v.
Proof.
  intros H. split; [|by eapply holds_value]. destruct (holds_name _ _ _ H) as (pad & E & _). unfold pname. rewrite E.
  destruct H as (_ & _ & -> & _). replace (Z.to_nat (Z.of_nat (length nm) + 1 - 1)) with (length nm) by lia.
  unfold cstr. by rewrite take_app_length.
Qed.

Section Lists.
Context (m : ofd_mem) (own : Z -> Z) (Hw : ofd_own m own).

Lemma prop_holds k r : om_mem m !! k = Some (PROP_PAT r) -> holds r (pname r) (pvalue r).
Proof using Hw.
  intros E. destruct (pk_data _ _ _ _ (w_ok _ _ Hw _ _ E)) as (nm & v & H). by destruct (holds_view _ _ _ H) as [-> ->].
Qed.

(** Every list ends. *)
Lemma seg_total n : forall p, (Z.to_nat (om_next m - p) <= n)%nat -> is_prop (om_mem m) p ->
  exists l, seg (om_mem m) p l 0 /\ (length l <= n)%nat.
Proof using Hw.
  induction n as [|n IH]; intros p Hn [r E]; pose proof (w_obj _ _ Hw _ _ E) as Hk; [lia|].
  destruct (pk_next _ _ _ _ (w_ok _ _ Hw _ _ E)) as [Hz|(Hlt & Hp & _)].
  - exists [(p, r)]. simpl. split_and!; [done|lia|done|done|lia].
  - destruct (IH (op_next r)) as (l & Hl & Hlen); [lia|done|]. exists ((p, r) :: l). simpl. split_and!; [done|lia|done|done|lia].
Qed.

(** Its members lie one behind the other and belong to one node. *)
Lemma seg_members l : forall p, seg (om_mem m) p l 0 ->
  NoDup l.*1 /\ Forall (fun x => p <= x.1 /\ own x.1 = own p) l.
Proof using Hw.
  induction l as [|[k r] l IH]; intros p H; simpl in *; [split; constructor|]. destruct H as (-> & Hk & E & H).
  destruct (pk_next _ _ _ _ (w_ok _ _ Hw _ _ E)) as [Hz|(Hlt & Hp & Ho)].
  - rewrite Hz in H. destruct l as [|[k' r'] l]; [|by destruct H as (? & ? & _)].
    split; [repeat constructor; set_solver|]. by repeat constructor.
  - destruct (IH _ H) as [Hn Hf]. split.
    + constructor; [|done]. intros Hin. apply list_elem_of_fmap in Hin as ([j y] & -> & Hin).
      rewrite Forall_forall in Hf. apply Hf in Hin. simpl in *. lia.
    + constructor; [done|]. eapply Forall_impl; [exact Hf|]. simpl. intros x [H1 H2]. split; [lia|congruence].
Qed.

(** The member from which a list leads to [t]. *)
Lemma seek_at l1 k x t : forall fuel p, seg (om_mem m) p (l1 ++ [(k, x)]) t ->
  Forall (fun y => op_next (snd y) <> t) l1 -> (length l1 < fuel)%nat -> prop_seek fuel m p t = Ok (k, x).
Proof using Hw.
  induction l1 as [|[j y] l1 IH]; intros [|fuel] p H Hf Hl; simpl in Hl; try lia; cbn [prop_seek]; simpl in H.
  - destruct H as (-> & Hk & E & Hn). rewrite (prop_ok_at m own k x) by done. cbn [res_bind]. by rewrite Hn, Z.eqb_refl.
  - destruct H as (-> & Hk & E & H). rewrite (prop_ok_at m own j y) by done. cbn [res_bind].
    apply Forall_cons in Hf as [Hy Hf]. simpl in Hy. destruct (Z.eqb_spec (op_next y) t); [done|]. apply IH; [done|done|lia].
Qed.

(** Where the search for a name stops. *)
Lemma find_at nm rest l : no_nul nm -> forall fuel p, seg (om_mem m) p l 0 -> (length l < fuel)%nat ->
  prop_find_loop fuel m p (cstr nm rest) (Z.of_nat (length nm) + 1) =
  Ok (default 0 (fst <$> (snd <$> list_find (fun x => pname (snd x) = nm) l))).
Proof using Hw.
  intros Hn. induction l as [|[k r] l IH]; intros [|fuel] p H Hl; simpl in Hl; try lia; cbn [prop_find_loop]; simpl in H.
  - by subst p.
  - destruct H as (-> & Hk & E & H). destruct (Z.eqb_spec k 0); [done|]. rewrite (prop_ok_at m own k r) by done. cbn [res_bind].
    pose proof (prop_holds k r E) as Hh. destruct (holds_name _ _ _ Hh) as (pad & _ & Hlen).
    destruct (Z.leb_spec (op_objsz r) (Z.of_nat (length (op_data r)))); [|lia].
    rewrite (compare_names r _ _ nm rest Hh Hn). cbn [res_bind list_find snd].
    destruct (decide (pname r = nm)) as [En|En].
    + rewrite bool_decide_eq_true_2 by done. done.
    + rewrite bool_decide_eq_false_2 by congruence. rewrite IH by (done || lia).
      by destruct (list_find _ l) as [[? ?]|].
Qed.
End Lists.

Definition node_props (m : ofd_mem) (n : Z) (l : list (Z * ofd_prop)) : Prop :=
  exists r, om_mem m !! n = Some (NODE_PAT r) /\ seg (om_mem m) (on_prop r) l 0.

Lemma node_props_total m own n r :
  ofd_own m own -> om_mem m !! n = Some (NODE_PAT r) ->
  exists l, seg (om_mem m) (on_prop r) l 0 /\ (length l < fuel_of m)%nat /\ NoDup l.*1 /\ Forall (fun x => own x.1 = n) l.
Proof.
  intros Hw E. destruct (nk_prop _ _ _ _ (w_ok _ _ Hw _ _ E)) as [->|(Hlt & Hp & Ho)].
  - exists []. split_and!; [done|unfold fuel_of; simpl; lia|constructor|constructor].
  - destruct (seg_total m own Hw (Z.to_nat (om_next m - on_prop r)) (on_prop r)) as (l & Hl & Hn); [lia|done|].
    destruct (seg_members m own Hw l _ Hl) as [Hd Hf]. exists l. pose proof (w_obj _ _ Hw _ _ E). split_and!; [done|unfold fuel_of; lia|done|].
    eapply Forall_impl; [exact Hf|]. simpl. intros x [_ H']. congruence.
Qed.

Lemma seg_det g l : forall p l', seg g p l 0 -> seg g p l' 0 -> l = l'.
Proof.
  induction l as [|[k r] l IH]; intros p [|[k' r'] l'] H H'; simpl in *; try done; try (destruct H as (->&?&_) || destruct H' as (->&?&_); congruence).
  destruct H as (-> & _ & E & H), H' as (-> & _ & E' & H'). assert (r = r') as -> by congruence. f_equal. by eapply IH.
Qed.

(** ** Reading *)
Fixpoint found (l : list (list Z * list Z)) (nm : list Z) : option (list Z) :=
  match l with
  | [] => None
  | (nm', v) :: l => if decide (nm' = nm) then Some v else found l nm
  end.

(** What [ofd_getprop] makes of it, with a buffer of [sz] bytes. *)
Definition answer (o : option (list Z)) (sz : Z) : Z * list Z :=
  match o with
  | Some v => (Z.of_nat (length v), take (Z.to_nat (Z.min (Z.of_nat (length v)) sz)) v)
  | None => (-1, [])
  end.

Lemma find_view l nm : found (view l) nm = (fun x => pvalue (snd (snd x))) <$> list_find (fun x => pname (snd x) = nm) l.
Proof.
  unfold view. induction l as [|[k r] l IH]; [done|]. cbn [fmap list_fmap list_find found fst snd].
  destruct (decide (pname r = nm)); [done|]. unfold view in IH. cbn [fmap] in IH. rewrite IH.
  by destruct (list_find (fun x => pname (snd x) = nm) l) as [[? ?]|].
Qed.

Lemma found_app a b nm : found (a ++ b) nm = match found a nm with Some v => Some v | None => found b nm end.
Proof. induction a as [|[x v] a IH]; simpl; [done|]. by destruct (decide (x = nm)). Qed.

Lemma found_none a nm : found a nm = None <-> nm ∉ a.*1.
Proof.
  induction a as [|[x v] a IH]; simpl; [set_solver|]. destruct (decide (x = nm)) as [->|]; [split; [done|set_solver]|].
  rewrite IH. set_solver.
Qed.

Lemma find_total m own n l nm rest :
  ofd_own m own -> node_props m n l -> no_nul nm -> nm <> [] ->
  ofd_prop_find m n (Some (cstr nm rest)) = Ok (default 0 (fst <$> (snd <$> list_find (fun x => pname (snd x) = nm) l))).
Proof.
  intros Hw (r & E & Hl) Hn Hne. rewrite prop_find_named by done. unfold ofd_node_prop. rewrite (node_ok_at m own n r) by done.
  cbn [res_bind]. destruct (node_props_total m own n r Hw E) as (l' & Hl' & Hf & _). rewrite (seg_det _ _ _ _ Hl' Hl) in Hf.
  by apply find_at with own.
Qed.

Lemma getprop_view m own n l nm rest sz :
  ofd_own m own -> node_props m n l -> no_nul nm -> nm <> [] -> 0 <= sz ->
  ofd_getprop m n (Some (cstr nm rest)) sz = Ok (answer (found (view l) nm) sz).
Proof.
  intros Hw Hl Hn Hne Hs. unfold ofd_getprop. rewrite (find_total m own n l) by done. cbn [res_bind]. rewrite find_view.
  destruct (list_find _ l) as [[i [k r]]|] eqn:Ef; [|done]. cbn [fmap option_fmap option_map fst snd default].
  apply list_find_Some in Ef as (Ei & _ & _). destruct Hl as (rn & _ & Hl).
  apply list_elem_of_split_length in Ei as (l1 & l2 & -> & _). apply seg_app in Hl as (mid & _ & Hl). simpl in Hl. destruct Hl as (_ & Hk & E & _).
  change (id k) with k. destruct (Z.eqb_spec k 0); [done|]. rewrite (prop_ok_at m own k r) by done. cbn [res_bind answer].
  pose proof (prop_holds m own Hw k r E) as Hh. pose proof Hh as (_ & Hos & _ & pad & Hd).
  assert ((if op_objsz r <? sz then op_objsz r else sz) = Z.min (Z.of_nat (length (pvalue r))) sz) as -> by (rewrite Hos; zcases).
  unfold peek. destruct (Z.leb_spec (Z.min (Z.of_nat (length (pvalue r))) sz) (Z.of_nat (length (op_data r)))) as [Hb|Hb].
  - cbn [res_bind]. rewrite Hos. do 2 f_equal. rewrite Hd at 1. rewrite take_app_le by lia. done.
  - rewrite Hd, length_app in Hb. lia.
Qed.

(** ** Writing *)

(** The lists of other nodes: their members belong to them. *)
Lemma other_node m own m' nd n l :
  ofd_own m own -> is_node (om_mem m) nd -> n <> nd -> node_props m n l ->
  (forall j o, om_mem m !! j = Some o -> j <> nd -> (is_prop (om_mem m) j -> own j <> nd) -> om_mem m' !! j = Some o) ->
  node_props m' n l.
Proof.
  intros Hw [rd Ed] Hne (r & E & Hl) Hf. exists r. split.
  - apply Hf; [done|done|]. intros [r' E']. congruence.
  - destruct (node_props_total m own n r Hw E) as (l' & Hl' & _ & _ & Ho). rewrite (seg_det _ _ _ _ Hl' Hl) in Ho.
    eapply seg_frame; [exact Hl|]. intros k Hk. apply list_elem_of_fmap in Hk as ([k' x] & -> & Hin). simpl.
    rewrite Forall_forall in Ho. specialize (Ho _ Hin). simpl in Ho.
    apply list_elem_of_split in Hin as (l1 & l2 & ->). apply seg_app in Hl as (mid & _ & Hl). simpl in Hl. destruct Hl as (_ & _ & Ek & _).
    rewrite Ek. apply Hf; [done| |congruence]. intros ->. congruence.
Qed.

Lemma seg_mem g p l1 k r l2 q : seg g p (l1 ++ (k, r) :: l2) q -> g !! k = Some (PROP_PAT r) /\ k <> 0.
Proof. intros H. apply seg_app in H as (mid & _ & H). simpl in H. by destruct H as (_ & ? & ? & _). Qed.

(** Only the last member of a list leads to 0. *)
Lemma seg_inner g p l1 k x l2 : seg g p (l1 ++ (k, x) :: l2) 0 -> Forall (fun y => op_next (snd y) <> 0) l1.
Proof.
  revert p. induction l1 as [|[j y] l1 IH]; intros p H; simpl in *; constructor.
  - destruct H as (_ & _ & _ & H). simpl. intros E. rewrite E in H. destruct l1 as [|[j1 y1] l1]; simpl in H; destruct H as (<- & ? & _); done.
  - destruct H as (_ & _ & _ & H). by eapply IH.
Qed.

(** Replacing a member by one that leads on elsewhere. *)
Lemma seg_replace g p l1 k x l2 x' l2' :
  seg g p (l1 ++ (k, x) :: l2) 0 -> NoDup (l1 ++ (k, x) :: l2).*1 ->
  seg (<[k := PROP_PAT x']> g) (op_next x') l2' 0 -> seg (<[k := PROP_PAT x']> g) p (l1 ++ (k, x') :: l2') 0.
Proof.
  intros H Hd H2. apply seg_app in H as (mid & H1 & H). simpl in H. destruct H as (-> & Hk & E & _).
  apply seg_app. exists k. split.
  - eapply seg_frame; [exact H1|]. intros j Hj. apply lookup_insert_ne. intros ->.
    rewrite fmap_app in Hd. apply NoDup_app in Hd as (_ & Hd & _). apply (Hd j); [done|]. simpl. by left.
  - simpl. rewrite lookup_insert_eq. done.
Qed.

Lemma seg_tail g p l1 k x l2 : seg g p (l1 ++ (k, x) :: l2) 0 -> seg g (op_next x) l2 0.
Proof. intros H. apply seg_app in H as (mid & _ & H). simpl in H. by destruct H as (_ & _ & _ & H). Qed.

Lemma view_app l1 l2 : view (l1 ++ l2) = view l1 ++ view l2.
Proof. unfold view. by rewrite fmap_app. Qed.

Lemma last_split {A} (l : list A) : l <> [] -> exists l0 x, l = l0 ++ [x].
Proof. intros H. destruct l as [|x l] using rev_ind; [done|eauto]. Qed.

Lemma cstr_inj a ra b rb : no_nul a -> no_nul b -> cstr a ra = cstr b rb -> a = b.
Proof.
  intros Ha Hb Hc. pose proof (f_equal strlen Hc) as Hs. rewrite !strlen_spec in Hs by done. injection Hs as Hs.
  unfold cstr in Hc. apply app_inj_1 in Hc as [? _]; [done|lia].
Qed.

Lemma seg_extends g g1 l : (forall k o, g !! k = Some o -> g1 !! k = Some o) -> forall p q, seg g p l q -> seg g1 p l q.
Proof. intros Hf. induction l as [|[k r] l IH]; intros p q H; simpl in *; [done|]. destruct H as (? & ? & ? & ?). auto. Qed.

(** A new property goes to the end of the list. *)
Lemma create_effect m own nd nm rest src sz pos m' l :
  ofd_own m own -> ofd_prop_create m nd (cstr nm rest) src sz = Ok (pos, m') -> no_nul nm -> node_props m nd l ->
  (pos = 0 /\ m' = m) \/
  (0 < pos /\ exists l' r, node_props m' nd l' /\ view l' = view l ++ [(nm, take (Z.to_nat sz) src)] /\
     om_mem m' !! pos = Some (PROP_PAT r) /\ op_objsz r = sz /\
     forall n l0, n <> nd -> node_props m n l0 -> node_props m' n l0).
Proof.
  intros Hw H Hn (rn & En & Hl). pose proof H as H'. pose proof (w_num _ _ Hw).
  apply (prop_create_inv m own) in H as (nm' & rest' & Hc & Hn' & [?|(-> & r & m1 & n & Hg & Hr & Hh & Hsz & En' & H)]); [by left| |done].
  apply cstr_inj in Hc; [|done..]. subst nm'.
  rewrite En in En'. injection En' as <-. right. split; [lia|].
  destruct (new_prop_own m own m1 r nd Hw Hg Hr ltac:(eauto)) as (Hw1 & Ho & _ & Hold).
  assert (om_mem m1 !! om_next m = Some (PROP_PAT r)) as Er by (destruct Hg as (c & _ & _ & _ & ->); apply lookup_insert_eq).
  destruct (holds_view _ _ _ Hh) as [Vn Vv]. destruct (Hold _ _ En) as (En1 & Hlt & _).
  assert (op_objsz r = sz) as Hos by (destruct Hh as (_ & -> & _); rewrite length_take; lia).
  destruct H as [[Hz ->]|(Hz & k & x & Es & ->)].
  - rewrite Hz in Hl. destruct l as [|[k x] l]; [|by destruct Hl as (<- & ? & _)].
    exists [(om_next m, r)], r. split_and!.
    + exists (set_prop rn (om_next m)). simpl. rewrite lookup_insert_eq. split; [done|]. rewrite lookup_insert_ne by lia. split_and!; [done|lia|done|done].
    + unfold view. simpl. by rewrite Vn, Vv.
    + simpl. by rewrite lookup_insert_ne by lia.
    + done.
    + intros n l0 Hne Hl0. apply (other_node m own _ nd); [done|by exists rn|done|done|]. intros j o Ej Hj _. simpl.
      rewrite lookup_insert_ne by done. by apply Hold.
  - assert (l <> []) as Hnn by (intros ->; simpl in Hl; done). destruct (last_split l Hnn) as (l0 & [k' x'] & ->).
    destruct (node_props_total m own nd rn Hw En) as (l' & Hl' & Hf & Hd & Hown). rewrite (seg_det _ _ _ _ Hl' Hl) in *. clear l' Hl'.
    assert (seg (om_mem m1) (on_prop rn) (l0 ++ [(k', x')]) 0) as Hl1 by (eapply seg_extends; [|exact Hl]; intros j o Ej; by apply Hold).
    rewrite (seek_at m1 _ Hw1 l0 k' x' 0) in Es; [|done|by eapply seg_inner|rewrite length_app in Hf; simpl in Hf; destruct Hg as (c & ? & _ & _ & ->); unfold fuel_of in *; simpl; lia].
    injection Es as <- <-. cbn [fst snd]. destruct (seg_mem _ _ _ _ _ _ _ Hl) as [Ek Hk0]. destruct (Hold _ _ Ek) as (_ & Hkl & _).
    exists (l0 ++ (k', set_next x' (om_next m)) :: [(om_next m, r)]), r. split_and!.
    + exists rn. simpl. split; [rewrite lookup_insert_ne by congruence; done|]. eapply seg_replace; [exact Hl1|done|]. simpl.
      rewrite lookup_insert_ne by lia. split_and!; [done|lia|done|done].
    + rewrite !view_app. unfold view at 2 3. simpl. rewrite Vn, Vv. by rewrite <- app_assoc.
    + simpl. by rewrite lookup_insert_ne by lia.
    + done.
    + intros n l2 Hne Hl2. apply (other_node m own _ nd); [done|by exists rn|done|done|]. intros j o Ej Hj Hoj. simpl.
      rewrite lookup_insert_ne; [by apply Hold|]. intros <-. apply Hoj; [by exists x'|].
      rewrite Forall_forall in Hown. apply (Hown (k', x')). set_solver.
Qed.

(** The copies of [ofd_prop_create] stay inside a property of [cap] bytes. *)
Lemma fill_total cap nm src sz :
  0 <= sz <= Z.of_nat (length src) -> sz + Z.of_nat (length nm) + 1 <= cap -> cap < 2 ^ 32 -> no_nul nm ->
  exists d1 d2,
    (if 0 <? sz then let! bs := peek src sz in blit (replicate (Z.to_nat cap) 0) 0 bs else Ok (replicate (Z.to_nat cap) 0)) = Ok d1 /\
    blit d1 sz (nm ++ [0]) = Ok d2 /\ length d2 = Z.to_nat cap /\
    holds (OfdProp 0 (u32 sz) (u32 (Z.of_nat (length nm) + 1)) d2) nm (take (Z.to_nat sz) src).
Proof.
  intros Hsz Hb Hc Hn. assert (length (take (Z.to_nat sz) src) = Z.to_nat sz) as Lt by (rewrite length_take; lia).
  assert (exists d1, (if 0 <? sz then let! bs := peek src sz in blit (replicate (Z.to_nat cap) 0) 0 bs else Ok (replicate (Z.to_nat cap) 0)) = Ok d1 /\
    length d1 = Z.to_nat cap /\ take (Z.to_nat sz) d1 = take (Z.to_nat sz) src) as (d1 & E1 & L1 & T1).
  { destruct (Z.ltb_spec 0 sz).
    - unfold peek. destruct (Z.leb_spec sz (Z.of_nat (length src))); [|lia]. cbn [res_bind]. unfold blit.
      rewrite length_replicate, Lt. destruct (_ && _) eqn:E; [|zcases]. eexists; split; [done|].
      simpl. rewrite !length_app, length_drop, length_replicate, Lt. split; [lia|].
      rewrite take_app_le by lia. by rewrite take_take, Nat.min_id.
    - eexists; split; [done|]. rewrite length_replicate. split; [done|]. by replace (Z.to_nat sz) with 0%nat by lia. }
  exists d1. destruct (blit d1 sz (nm ++ [0])) as [d2|] eqn:E2; cycle 1.
  { unfold blit in E2. rewrite length_app, L1 in E2. simpl in E2. destruct (_ && _) eqn:E; [discriminate|zcases]. }
  exists d2. split_and!; [done|done|apply blit_inv in E2 as (_ & _ & _ & L2); congruence|].
  split_and!; [done|simpl; rewrite Lt, u32_small by lia; lia|simpl; apply u32_small; lia|].
  apply (layout d1); [by rewrite Lt, Z2Nat.id by lia|by rewrite Lt].
Qed.

(** There is room for it, or there is not; it does not trap. *)
Lemma create_total m own nd n nm rest src sz :
  ofd_own m own -> om_mem m !! nd = Some (NODE_PAT n) -> no_nul nm -> 0 <= sz <= Z.of_nat (length src) ->
  sz + Z.of_nat (length nm) < 2 ^ 30 -> exists pos m', ofd_prop_create m nd (cstr nm rest) src sz = Ok (pos, m').
Proof.
  intros Hw En Hn Hsz Hb. pose proof (w_num _ _ Hw). unfold ofd_prop_create. rewrite strlen_spec by done. cbn [res_bind].
  unfold SIZEOF_PROP, CELL. rewrite u64_small by lia. set (sum := 16 + sz + (Z.of_nat (length nm) + 1)).
  rewrite (take_cells_ok m own) by (done || lia). set (cells := (sum + 7) / 8). assert (sum <= 8 * cells <= sum + 7) as Hcells by (unfold cells; dlia).
  destruct (Z.leb_spec (om_num m) (om_next m + cells)); [cbn [res_bind]; change (0 =? 0) with true; eauto|]. cbn [res_bind].
  destruct (Z.eqb_spec (om_next m) 0); [lia|]. rewrite peek_name.
  destruct (fill_total (8 * cells - 16) nm src sz) as (d1 & d2 & -> & E2 & L2 & Hh); [lia..|done|]. cbn [res_bind]. rewrite E2. cbn [res_bind].
  set (r := OfdProp 0 (u32 sz) (u32 (Z.of_nat (length nm) + 1)) d2) in *.
  set (m1 := put (OfdMem (om_num m) (om_next m + cells) (om_mem m)) (om_next m) (PROP_PAT r)).
  assert (grown m m1 (PROP_PAT r)) as Hg.
  { exists cells. split_and!; [lia|lia| |done]. simpl. rewrite L2. unfold SIZEOF_PROP, CELL. dlia. }
  destruct (new_prop_own m own m1 r nd Hw Hg eq_refl ltac:(eauto)) as (Hw1 & _ & _ & Hold).
  destruct (Hold _ _ En) as (En1 & _). rewrite (node_ok_at m1 _ nd n Hw1 En1). cbn [res_bind].
  destruct (Z.eqb_spec (on_prop n) 0); [eauto|].
  destruct (node_props_total m1 _ nd n Hw1 En1) as (l & Hl & Hf & _). assert (l <> []) as Hnn by (intros ->; done).
  destruct (last_split l Hnn) as (l0 & [k x] & ->). rewrite length_app in Hf. simpl in Hf.
  rewrite (seek_at m1 _ Hw1 l0 k x 0) by (done || (by eapply seg_inner) || lia). cbn [res_bind]. eauto.
Qed.

(** Before [q], no member of its list leads to [q]. *)
Lemma seg_before g l1 : forall p q x l2, seg g p (l1 ++ (q, x) :: l2) 0 -> NoDup (l1 ++ (q, x) :: l2).*1 ->
  forall l0 y, l1 = l0 ++ [y] -> Forall (fun z => op_next (snd z) <> q) l0.
Proof.
  induction l1 as [|[j z] l1 IH]; intros p q x l2 H Hd l0 y E; [by destruct l0|]. destruct l0 as [|z0 l0]; [constructor|].
  injection E as <- E. simpl in H. destruct H as (_ & _ & _ & H). constructor; [|by eapply IH; [exact H|by inversion Hd|exact E]].
  simpl. intros Eq. rewrite E in H, Hd. destruct (l0 ++ [y]) as [|[j1 z1] l3] eqn:El; [by destruct l0|].
  simpl in H. destruct H as (Ej & _ & _ & _). simpl in Hd. apply NoDup_cons in Hd as [_ Hd]. apply NoDup_cons in Hd as [Hd _].
  apply Hd. rewrite <- Ej, Eq. apply list_elem_of_fmap. exists (q, x). split; [done|set_solver].
Qed.

Lemma seek_before m own p l1 k x q r l2 fuel :
  ofd_own m own -> seg (om_mem m) p ((l1 ++ [(k, x)]) ++ (q, r) :: l2) 0 -> NoDup ((l1 ++ [(k, x)]) ++ (q, r) :: l2).*1 ->
  (length l1 < fuel)%nat -> p <> q /\ prop_seek fuel m p q = Ok (k, x).
Proof.
  intros Hw Hl Hd Hf. split.
  - intros ->. rewrite <- app_assoc in Hl. destruct l1 as [|[j z] l1]; simpl in Hl; destruct Hl as (<- & _); simpl in Hd;
      apply NoDup_cons in Hd as [Hd _]; apply Hd; [by left|].
    apply list_elem_of_fmap. exists (q, r). split; [done|set_solver].
  - apply (seek_at m own Hw l1); [|by eapply seg_before|done].
    apply seg_app in Hl as (mid & Hl & Hq). simpl in Hq. by destruct Hq as (-> & _).
Qed.

(** Removing a property takes it out of the list. *)
Lemma remove_effect m own nd l1 q r l2 :
  ofd_own m own -> node_props m nd (l1 ++ (q, r) :: l2) ->
  exists m' l', ofd_prop_remove m nd q = Ok m' /\ node_props m' nd l' /\ view l' = view (l1 ++ l2) /\
    forall n l0, n <> nd -> node_props m n l0 -> node_props m' n l0.
Proof.
  intros Hw (rn & En & Hl). pose proof (seg_mem _ _ _ _ _ _ _ Hl) as [Eq Hq].
  destruct (node_props_total m own nd rn Hw En) as (l' & Hl' & Hf & Hd & Hown). rewrite (seg_det _ _ _ _ Hl' Hl) in *. clear l' Hl'.
  unfold ofd_prop_remove. pose proof (node_ok_at m own nd rn Hw En) as E1. pose proof (prop_ok_at m own q r Hw Eq) as E2.
  unfold node, prop in E1, E2. destruct (ofd_node_get m nd) as [[?|]|]; try discriminate. injection E1 as ->.
  destruct (ofd_prop_get m q) as [[?|]|]; try discriminate. injection E2 as ->. cbn [res_bind of_option].
  destruct l1 as [|y l1] using rev_ind.
  - simpl in Hl. destruct Hl as (-> & _ & _ & Hl). rewrite Z.eqb_refl. eexists _, l2. split_and!; [done| |done|].
    + eexists. simpl. rewrite lookup_insert_eq. split; [done|]. simpl. eapply seg_frame; [exact Hl|]. intros k Hk.
      apply lookup_insert_ne. intros <-. apply list_elem_of_fmap in Hk as ([k x] & -> & Hin). apply list_elem_of_split in Hin as (a & b & ->).
      apply seg_mem in Hl as [Hl _]. simpl in *. congruence.
    + intros n l0 Hne Hl0. apply (other_node m own _ nd); [done|by exists rn|done|done|]. intros j o Ej Hj _. simpl. by rewrite lookup_insert_ne.
  - destruct y as [k x]. pose proof Hl as Hl'. rewrite <- app_assoc in Hl'. simpl in Hl'. pose proof (seg_mem _ _ _ _ _ _ _ Hl') as [Ek Hk].
    destruct (seek_before m own (on_prop rn) l1 k x q r l2 (fuel_of m) Hw Hl Hd) as [Hne ->]; [rewrite !length_app in Hf; simpl in Hf; lia|].
    destruct (Z.eqb_spec (on_prop rn) q) as [|_]; [done|].
    cbn [res_bind fst snd]. eexists _, (l1 ++ (k, set_next x (op_next r)) :: l2). rewrite <- app_assoc in Hd. split_and!; [done| | |].
    + exists rn. simpl. split; [rewrite lookup_insert_ne by congruence; done|]. eapply seg_replace; [exact Hl'|done|]. simpl.
      pose proof (seg_tail _ _ _ _ _ _ Hl') as Ht. simpl in Ht. destruct Ht as (_ & _ & _ & Ht). eapply seg_frame; [exact Ht|].
      intros j Hj. apply lookup_insert_ne. intros <-. rewrite fmap_app in Hd. apply NoDup_app in Hd as (_ & _ & Hd). simpl in Hd.
      apply NoDup_cons in Hd as [Hd _]. apply Hd. by right.
    + rewrite !view_app, <- app_assoc. done.
    + intros n l0 Hnn Hl0. apply (other_node m own _ nd); [done|by exists rn|done|done|]. intros j o Ej Hj Hoj. simpl.
      rewrite lookup_insert_ne; [done|]. intros <-. apply Hoj; [by exists x|].
      rewrite Forall_forall in Hown. apply (Hown (k, x)). set_solver.
Qed.

(** *** Overwriting *)
Lemma set_in_place m own nd nm rest src sz q r l1 l2 :
  ofd_own m own -> node_props m nd (l1 ++ (q, r) :: l2) -> ofd_prop_find m nd (Some (cstr nm rest)) = Ok q ->
  pname r = nm -> 0 <= sz <= op_objsz r -> sz <= Z.of_nat (length src) ->
  exists m' r', ofd_prop_set m nd (cstr nm rest) src sz = Ok (q, m') /\ node_props m' nd (l1 ++ (q, r') :: l2) /\
    om_mem m' !! q = Some (PROP_PAT r') /\ holds r' nm (take (Z.to_nat sz) src) /\
    forall n l0, n <> nd -> node_props m n l0 -> node_props m' n l0.
Proof.
  intros Hw (rn & En & Hl) Hf Hnm Hsz Hb. pose proof (seg_mem _ _ _ _ _ _ _ Hl) as [Eq Hq].
  assert (exists m', ofd_prop_set m nd (cstr nm rest) src sz = Ok (q, m')) as [m' E].
  { pose proof (prop_holds m own Hw q r Eq) as (_ & Hos & Hns & pad & Hd). rewrite Hnm in *.
    assert (Z.of_nat (length (op_data r)) >= op_objsz r + op_namesz r) as Hlen.
    { rewrite Hd. unfold cstr. rewrite !length_app. simpl. lia. }
    unfold ofd_prop_set. rewrite Hf. cbn [res_bind]. rewrite (prop_ok_at m own q r) by done. cbn [res_bind].
    destruct (Z.leb_spec sz (op_objsz r)); [|lia]. unfold peek at 1. destruct (Z.leb_spec sz (Z.of_nat (length src))); [|lia]. cbn [res_bind].
    destruct (blit (op_data r) 0 (take (Z.to_nat sz) src)) as [d1|] eqn:E1; cycle 1.
    { unfold blit in E1. rewrite length_take in E1. destruct (_ && _) eqn:E; [discriminate|zcases]. }
    apply blit_inv in E1 as (_ & _ & _ & L1). cbn [res_bind]. destruct (sz <? op_objsz r); [|eauto].
    rewrite Hns, peek_name. cbn [res_bind]. destruct (blit d1 sz (nm ++ [0])) as [d2|] eqn:E2; cycle 1.
    { unfold blit in E2. rewrite length_app, L1 in E2. simpl in E2. destruct (_ && _) eqn:E; [discriminate|zcases]. }
    cbn [res_bind]. eauto. }
  pose proof E as E'. apply (prop_set_inv m own) in E' as (nm' & rest' & q' & r0 & v & Hc & Hn & Hf' & Hq0 & Eq' & Hh & H); [|done|lia].
  assert (q' = q) as -> by congruence. assert (r0 = r) as -> by congruence.
  destruct H as [(_ & _ & _ & r' & -> & Hnx & Hl' & Hh')|(Hgt & _)]; [|lia].
  destruct (holds_view _ _ _ Hh) as [Hnm' _]. rewrite Hnm in Hnm'. subst nm'.
  destruct (node_props_total m own nd rn Hw En) as (l' & Hl2 & _ & Hd & Hown). rewrite (seg_det _ _ _ _ Hl2 Hl) in *. clear l' Hl2.
  eexists _, r'. split_and!; [exact E| |simpl; apply lookup_insert_eq|done|].
  - exists rn. simpl. split; [rewrite lookup_insert_ne by congruence; done|]. eapply seg_replace; [exact Hl|done|]. rewrite Hnx.
    apply seg_tail in Hl as Ht. eapply seg_frame; [exact Ht|]. intros j Hj. apply lookup_insert_ne. intros <-.
    rewrite fmap_app in Hd. apply NoDup_app in Hd as (_ & _ & Hd). simpl in Hd. by apply NoDup_cons in Hd as [Hd _].
  - intros n l0 Hne Hl0. apply (other_node m own _ nd); [done|by exists rn|done|done|]. intros j o Ej Hj Hoj. simpl.
    rewrite lookup_insert_ne; [done|]. intros <-. apply Hoj; [by exists r|]. rewrite Forall_forall in Hown. apply (Hown (q, r)). set_solver.
Qed.

(** ** The contract *)

(** [lv'] is [lv] with what [nm] names changed to [o]; names are not repeated. *)
Definition updates (lv lv' : list (list Z * list Z)) (nm : list Z) (o : option (list Z)) : Prop :=
  NoDup (lv'.*1) /\ found lv' nm = o /\ forall nm', nm' <> nm -> found lv' nm' = found lv nm'.

Lemma updates_app lv nm v : NoDup (lv.*1) -> found lv nm = None -> updates lv (lv ++ [(nm, v)]) nm (Some v).
Proof.
  intros Hd Hf. split_and!.
  - rewrite fmap_app. simpl. apply NoDup_app. split_and!; [done| |repeat constructor; set_solver].
    intros x Hx Hin. apply list_elem_of_singleton in Hin as ->. by apply found_none in Hf.
  - rewrite found_app, Hf. simpl. by rewrite decide_True.
  - intros nm' Hne. rewrite found_app. destruct (found lv nm'); [done|]. simpl. by rewrite decide_False.
Qed.

Lemma names_apart (a b : list (list Z * list Z)) nm old :
  NoDup ((a ++ (nm, old) :: b).*1) -> NoDup ((a ++ b).*1) /\ (nm ∉ a.*1) /\ (nm ∉ b.*1).
Proof.
  rewrite !fmap_app. simpl. intros (H1 & H2 & [H3 H4]%NoDup_cons)%NoDup_app. split_and!; [|set_solver|done].
  apply NoDup_app. split_and!; [done| |done]. intros x Hx Hb. apply (H2 x Hx). by right.
Qed.

Lemma updates_replace a nm old b v : NoDup ((a ++ (nm, old) :: b).*1) -> updates (a ++ (nm, old) :: b) (a ++ (nm, v) :: b) nm (Some v).
Proof.
  intros Hd. destruct (names_apart _ _ _ _ Hd) as (_ & Ha & _). split_and!.
  - by rewrite fmap_app in *.
  - rewrite found_app, (proj2 (found_none a nm)) by done. simpl. by rewrite decide_True.
  - intros nm' Hne. rewrite !found_app. simpl. by rewrite !(decide_False (P := nm = nm')).
Qed.

Lemma updates_delete a nm old b : NoDup ((a ++ (nm, old) :: b).*1) -> updates (a ++ (nm, old) :: b) (a ++ b) nm None.
Proof.
  intros Hd. destruct (names_apart _ _ _ _ Hd) as (H1 & Ha & Hb). split_and!; [done| |].
  - rewrite found_app, !(proj2 (found_none _ nm)) by done. done.
  - intros nm' Hne. rewrite !found_app. simpl. by rewrite decide_False.
Qed.

Lemma updates_then lv lv1 lv2 nm o o' : updates lv lv1 nm o -> updates lv1 lv2 nm o' -> updates lv lv2 nm o'.
Proof. intros (_ & _ & H1) (H2 & H3 & H4). split_and!; [done..|]. intros nm' Hne. by rewrite H4, H1. Qed.

Lemma updates_none lv nm : NoDup (lv.*1) -> found lv nm = None -> updates lv lv nm None.
Proof. by intros. Qed.

Section Set_.
Context (m : ofd_mem) (n : Z) (l : list (Z * ofd_prop)) (nm rest buf : list Z) (sz : Z).
Context (Hwf : ofd_wf m) (Hl : node_props m n l) (Hd : NoDup ((view l).*1)) (Hn : no_nul nm) (Hne : nm <> [])
  (Hsz : 0 <= sz <= Z.of_nat (length buf)) (Hb : sz + Z.of_nat (length nm) < 2 ^ 30).

(** Stored, where a property of that size lies now; or not, and then none is left. *)
Definition set_outcome (r : res (Z * ofd_mem)) : Prop :=
  exists pos m' l', r = Ok (pos, m') /\ ofd_wf m' /\ node_props m' n l' /\
    (forall k l0, k <> n -> node_props m k l0 -> node_props m' k l0) /\
    ((0 < pos /\ (exists rp, om_mem m' !! pos = Some (PROP_PAT rp) /\ op_objsz rp = sz) /\ updates (view l) (view l') nm (Some (take (Z.to_nat sz) buf))) \/
     (pos = 0 /\ updates (view l) (view l') nm None)).

Lemma create_outcome : found (view l) nm = None -> set_outcome (ofd_prop_create m n (cstr nm rest) buf sz).
Proof using Hwf Hl Hd Hn Hsz Hb.
  intros Hf. pose proof Hwf as [own Hw]. pose proof Hl as (rn & En & _).
  destruct (create_total m own n rn nm rest buf sz Hw En Hn Hsz Hb) as (pos & m' & E). pose proof (prop_create_wf _ _ _ _ _ _ _ Hwf E) as Hw'.
  destruct (create_effect m own n nm rest buf sz pos m' l Hw E Hn Hl) as [[-> ->]|(Hp & l' & r & Hl' & Hv & Er & Hos & Hfr)].
  - exists 0, m, l. split_and!; [done|done|done|done|]. right. split; [done|]. by apply updates_none.
  - exists pos, m', l'. split_and!; [done..|]. left. split_and!; [done|eauto|]. rewrite Hv. by apply updates_app.
Qed.
End Set_.

Lemma list_find_split {A} (P : A -> Prop) `{!forall x, Decision (P x)} l i x :
  list_find P l = Some (i, x) -> exists l1 l2, l = l1 ++ x :: l2 /\ P x.
Proof.
  intros (Hi & Hp & _)%list_find_Some. exists (take i l), (drop (S i) l). by rewrite take_drop_middle.
Qed.

Lemma add_outcome m n l nm rest buf sz :
  ofd_wf m -> node_props m n l -> NoDup ((view l).*1) -> no_nul nm -> nm <> [] -> 0 <= sz <= Z.of_nat (length buf) ->
  sz + Z.of_nat (length nm) < 2 ^ 30 ->
  set_outcome m n l nm buf sz (ofd_prop_add m n (Some (cstr nm rest)) buf sz).
Proof.
  intros Hwf Hl Hd Hn Hne Hsz Hb. pose proof Hwf as [own Hw]. unfold ofd_prop_add.
  pose proof (find_total m own n l nm rest Hw Hl Hn Hne) as Ef. rewrite Ef. cbn [res_bind of_option].
  pose proof (find_view l nm) as Hv. destruct (list_find _ l) as [[i [q r]]|] eqn:El; cycle 1.
  { apply create_outcome; done. }
  apply list_find_split in El as (l1 & l2 & -> & Hnm). cbn [snd fmap option_fmap option_map default fst id] in *.
  pose proof Hl as (rn & En & Hseg). pose proof (seg_mem _ _ _ _ _ _ _ Hseg) as [Eq Hq]. destruct (Z.eqb_spec q 0) as [|_]; [done|].
  rewrite view_app in Hd. unfold view in Hd at 2. cbn [fmap list_fmap snd] in Hd. rewrite Hnm in Hd.
  assert (view (l1 ++ (q, r) :: l2) = view l1 ++ (nm, pvalue r) :: view l2) as Ev by (rewrite view_app; unfold view at 2; simpl; by rewrite Hnm).
  pose proof (w_obj _ _ Hw _ _ Eq) as Hqpos.
  destruct (Z.le_gt_cases sz (op_objsz r)) as [Hle|Hgt].
  - destruct (set_in_place m own n nm rest buf sz q r l1 l2) as (m' & r' & E & Hl' & Er & Hh & Hfr); [done|done|done|done|lia|lia|].
    exists q, m', (l1 ++ (q, r') :: l2). split_and!; [done| |done|done|].
    + eapply prop_set_wf; [exact Hwf| |exact E]. lia.
    + left. split_and!; [lia| |].
      * exists r'. split; [done|]. destruct Hh as (_ & -> & _). rewrite length_take. lia.
      * rewrite Ev, view_app. destruct (holds_view _ _ _ Hh) as [H1 H2]. unfold view at 4. simpl. rewrite H1, H2. by apply updates_replace.
  - destruct (remove_effect m own n l1 q r l2 Hw Hl) as (m1 & l1' & E1 & Hl1 & Hv1 & Hfr1).
    pose proof (prop_remove_wf _ _ _ _ Hwf E1) as Hwf1.
    assert (updates (view l1 ++ (nm, pvalue r) :: view l2) (view l1') nm None) as Hu.
    { rewrite Hv1, view_app. by apply updates_delete. }
    assert (ofd_prop_set m n (cstr nm rest) buf sz = ofd_prop_create m1 n (cstr nm rest) buf sz) as ->.
    { unfold ofd_prop_set. rewrite Ef. cbn [res_bind]. rewrite (prop_ok_at m own q r) by done. cbn [res_bind].
      destruct (Z.leb_spec sz (op_objsz r)); [lia|]. by rewrite E1. }
    destruct (create_outcome m1 n l1' nm rest buf sz) as (pos & m' & l' & E & Hw' & Hl' & Hfr & H); [done|done|by apply Hu|done|done|done|by apply Hu|].
    exists pos, m', l'. split_and!; [done|done|done|by auto|]. rewrite Ev.
    destruct H as [(Hp & Hr & Hu')|[-> Hu']]; [left; split_and!; [done|done|]|right; split; [done|]]; by eapply updates_then.
Qed.

(** C30: On every node of a device tree, [ofd_setprop] returns: either the size of the value,
    and from then on [ofd_getprop] of that name gives the value, cut to the caller's buffer;
    or failure, for want of room, and then the node has no property of that name, not even
    the one it had.  Every other property of the node and of every other node reads as
    before, names stay unique, and the tree stays a tree. *)
Theorem setprop_getprop m n l nm rest buf sz :
  ofd_wf m -> node_props m n l -> NoDup ((view l).*1) -> no_nul nm -> nm <> [] -> 0 <= sz <= Z.of_nat (length buf) ->
  sz + Z.of_nat (length nm) < 2 ^ 30 ->
  exists ret m' l', ofd_setprop m n (Some (cstr nm rest)) buf sz = Ok (ret, m') /\ ofd_wf m' /\
    node_props m' n l' /\ NoDup ((view l').*1) /\ (ret = sz \/ ret = OF_FAILURE) /\
    (forall rest' cap, 0 <= cap -> ofd_getprop m' n (Some (cstr nm rest')) cap =
       Ok (answer (if ret =? OF_FAILURE then None else Some (take (Z.to_nat sz) buf)) cap)) /\
    (forall nm' rest' cap, 0 <= cap -> no_nul nm' -> nm' <> [] -> nm' <> nm ->
       ofd_getprop m' n (Some (cstr nm' rest')) cap = ofd_getprop m n (Some (cstr nm' rest')) cap) /\
    (forall k lk nm' rest' cap, k <> n -> node_props m k lk -> 0 <= cap -> no_nul nm' -> nm' <> [] ->
       ofd_getprop m' k (Some (cstr nm' rest')) cap = ofd_getprop m k (Some (cstr nm' rest')) cap).
Proof.
  intros Hwf Hl Hd Hn Hne Hsz Hb. pose proof Hwf as [own Hw].
  destruct (add_outcome m n l nm rest buf sz) as (pos & m' & l' & E & Hw' & Hl' & Hfr & H); [done..|]. pose proof Hw' as [own' Ho'].
  assert (exists ret, ofd_setprop m n (Some (cstr nm rest)) buf sz = Ok (ret, m') /\ (ret = sz \/ ret = OF_FAILURE) /\
    updates (view l) (view l') nm (if ret =? OF_FAILURE then None else Some (take (Z.to_nat sz) buf))) as (ret & Er & Hret & Hu1 & Hu2 & Hu3).
  { rewrite setprop_add, E. cbn [res_bind fst snd]. destruct H as [(Hp & (rp & Ep & Hos) & Hu)|[-> Hu]].
    - exists sz. destruct (Z.ltb_spec 0 pos); [|lia]. rewrite (prop_ok_at m' own' pos rp) by done. cbn [res_bind]. rewrite Hos.
      split_and!; [done|by left|]. destruct (Z.eqb_spec sz OF_FAILURE); [unfold OF_FAILURE in *; lia|done].
    - exists OF_FAILURE. split_and!; [done|by right|done]. }
  exists ret, m', l'. split_and!; [done..| | |].
  - intros rest' cap Hc. rewrite (getprop_view m' own' n l') by done. by rewrite Hu2.
  - intros nm' rest' cap Hc Hn' Hne' Hnn. rewrite (getprop_view m' own' n l'), (getprop_view m own n l) by done. by rewrite Hu3.
  - intros k lk nm' rest' cap Hk Hlk Hc Hn' Hne'. rewrite (getprop_view m' own' k lk), (getprop_view m own k lk) by auto. done.
Qed.

(** *** A tree, and where the operations fall short *)
Definition demo_tree : ofd_mem := match demo with Ok (_, _, _, m) => m | Fault _ => OfdMem 0 0 ∅ end.

Lemma demo_tree_wf : ofd_wf demo_tree.
Proof.
  assert (is_ok (ofd_run demo_m0 [CNodeAdd 1 s_cpus 5; CNodeAdd 1 s_cpu 4; CNodeAdd 7 s_cpus_a 7;
    CSetProp 19 (Some s_model) [1; 2; 3] 3; CSetProp 13 (Some s_model) [4; 5; 6; 7] 4]) = true) as H by by vm_compute.
  apply is_ok_inv in H as [m E]. assert (m = demo_tree) as <-.
  { vm_compute in E. injection E as <-. by vm_compute. }
  eapply run_wf; [|exact E]. by apply (create_wf 4096).
Qed.

(** The property of "/cpus/a". *)
Definition demo_prop : ofd_prop := OfdProp 0 3 6 [1; 2; 3; 109; 111; 100; 101; 108; 0; 0; 0; 0; 0; 0; 0; 0].

Lemma setprop_getprop_witness :
  exists ret m' l', ofd_setprop demo_tree 19 (Some (cstr [109; 111; 100; 101; 108] [])) [7; 8; 9; 10; 11] 5 = Ok (ret, m') /\ ofd_wf m' /\
    node_props m' 19 l' /\ NoDup ((view l').*1) /\ (ret = 5 \/ ret = OF_FAILURE) /\
    (forall rest' cap, 0 <= cap -> ofd_getprop m' 19 (Some (cstr [109; 111; 100; 101; 108] rest')) cap =
       Ok (answer (if ret =? OF_FAILURE then None else Some (take (Z.to_nat 5) [7; 8; 9; 10; 11])) cap)).
Proof.
  destruct (setprop_getprop demo_tree 19 [(25, demo_prop)] [109; 111; 100; 101; 108] [] [7; 8; 9; 10; 11] 5)
    as (ret & m' & l' & H1 & H2 & H3 & H4 & H5 & H6 & _).
  - exact demo_tree_wf.
  - eexists. split; [vm_compute; reflexivity|]. split_and!; [vm_compute; reflexivity|lia|vm_compute; reflexivity|done].
  - apply (NoDup_singleton (pname demo_prop)).
  - repeat constructor; done.
  - done.
  - simpl; lia.
  - simpl; lia.
  - exists ret, m', l'. exact (conj H1 (conj H2 (conj H3 (conj H4 (conj H5 H6))))).
Defined.

(** A path component finds every node whose name it begins: "/cpu" is "/cpus". *)
Example find_by_prefix : ofd_node_find demo_tree (Some s_cpu) = Ok 7 /\ ofd_node_path demo_tree 7 = Ok (s_cpus ++ [0; 0]).
Proof. split; vm_compute; reflexivity. Qed.

(** Of the two nodes with the property only the last is on the list: what was found below a
    node is forgotten when its peer matches. *)
Example search_loses_child :
  match ofd_node_find_by_prop demo_tree 0 s_model None 0 with
  | Ok (head, m) => head = 13 /\ ofd_node_find_next m 13 = Ok (-1) /\ ofd_getproplen demo_tree 19 (Some s_model) = Ok 3
  | Fault _ => False
  end.
Proof. vm_compute. done. Qed.

(** A node that does not fit is not refused: the creation traps. *)
Example full_tree_traps :
  match ofd_create 160 with
  | Some m => let! x := ofd_node_add m OFD_ROOT s_cpus 5 in ofd_node_add (snd x) OFD_ROOT s_cpu 4
  | None => Ok (0, OfdMem 0 0 ∅)
  end = Fault Assert_failed.
Proof. vm_compute. reflexivity. Qed.

(** A larger value that does not fit costs the old one. *)
Example failed_set_loses_old :
  match ofd_create 160 with
  | Some m =>
      let! x := ofd_setprop m OFD_ROOT (Some s_model) [1] 1 in
      let! y := ofd_setprop (snd x) OFD_ROOT (Some s_model) (replicate 60 2) 60 in
      let! z := ofd_getproplen (snd y) OFD_ROOT (Some s_model) in Ok (fst x, fst y, z)
  | None => Fault Null_deref
  end = Ok (1, OF_FAILURE, -1).
Proof. vm_compute. reflexivity. Qed.
