(* ===== verification/OfdFind.v ===== *)
(** * OfdFind: finding a node by its path

    [ofd_node_find] and [ofd_node_walk] of [lib/of_devtree.c] on well-formed trees. *)

From S2P Require Import Prelude Bitmap PgAlloc Imemcpy Clib Ofd OfdTree OfdProps.

(** The characters before the terminator. *)
Fixpoint upto_nul (l : list Z) : list Z :=
  match l with
  | [] => []
  | c :: l => if c =? 0 then [] else c :: upto_nul l
  end.

(** The last component of a node's path. *)
Definition last_name (r : ofd_node) : list Z := upto_nul (drop (Z.to_nat (on_last r)) (on_path r)).

(** A path component: not empty, without slash or terminator. *)
Definition comp_ok (c : list Z) : Prop := c <> [] /\ Forall (fun x => x <> 0 /\ x <> SLASH) c.

(** "/c1/c2/..." *)
Definition path_of (cs : list (list Z)) : list Z := concat ((fun c => SLASH :: c) <$> cs).

(** Some node below [p] whose name begins with the first component, one below that for the
    second, and so on to [n]. *)
Inductive leads (m : ofd_mem) : Z -> list (list Z) -> Z -> Prop :=
  | leads_last p c k r : om_mem m !! k = Some (NODE_PAT r) -> on_parent r = p ->
      c `prefix_of` last_name r -> leads m p [c] k
  | leads_more p c cs k r n : om_mem m !! k = Some (NODE_PAT r) -> on_parent r = p ->
      c `prefix_of` last_name r -> leads m k cs n -> leads m p (c :: cs) n.

(** [k] is [p] or one of the peers behind it. *)
Inductive peer_of (m : ofd_mem) : Z -> Z -> Prop :=
  | peer_here p : peer_of m p p
  | peer_next p r k : om_mem m !! p = Some (NODE_PAT r) -> peer_of m (on_peer r) k -> peer_of m p k.

Lemma upto_nul_spec l i : l !! i = Some 0 -> exists rest, l = cstr (upto_nul l) rest /\ no_nul (upto_nul l) /\ (length (upto_nul l) <= i)%nat.
Proof.
  revert i. induction l as [|c l IH]; intros i H; [done|]. simpl. destruct (Z.eqb_spec c 0) as [->|Hc].
  - exists l. split_and!; [done|constructor|simpl; lia].
  - destruct i as [|i]; [simpl in H; congruence|]. destruct (IH i H) as (rest & E & Hn & Hl). exists rest.
    split_and!; [unfold cstr in *; simpl; by f_equal|by constructor|simpl; lia].
Qed.

Lemma last_name_spec g own k r :
  node_ok g own k r ->
  exists rest, drop (Z.to_nat (on_last r)) (on_path r) = cstr (last_name r) rest /\ no_nul (last_name r) /\
    Z.of_nat (length (last_name r)) <= on_pathlen r - on_last r /\ on_last r <= Z.of_nat (length (on_path r)).
Proof.
  intros K. destruct (nk_path _ _ _ _ K) as [Hb Hn]. apply lookup_lt_Some in Hn as Hlen.
  destruct (upto_nul_spec (drop (Z.to_nat (on_last r)) (on_path r)) (Z.to_nat (on_pathlen r - on_last r))) as (rest & E & H1 & H2).
  { rewrite lookup_drop. rewrite <- Hn. f_equal. lia. }
  exists rest. split_and!; [done|done|unfold last_name; lia|lia].
Qed.

Lemma pathsplit_right_spec c x t max :
  Forall (fun y => y <> 0 /\ y <> SLASH) c -> x = 0 \/ x = SLASH -> Z.of_nat (length c) < max -> forall i,
  pathsplit_right_loop (c ++ x :: t) SLASH max i = Ok (i + Z.of_nat (length c)).
Proof.
  intros Hc Hx. revert max. induction Hc as [|y c [H0 Hs] Hc IH]; intros max Hm i; cbn [pathsplit_right_loop app].
  - simpl length. destruct Hx as [->| ->]; simpl; f_equal; lia.
  - rewrite (proj2 (truth_true y)) by done. destruct (Z.eqb_spec y SLASH); [done|]. rewrite (proj2 (truth_true max)) by (simpl in Hm; lia).
    cbn [negb andb]. rewrite IH by (simpl in Hm; lia). simpl length. f_equal. lia.
Qed.

(** What stands behind a component. *)
Definition behind (cs : list (list Z)) (rest : list Z) : list Z := cstr (path_of cs) rest.

Lemma behind_head cs rest : exists x t, behind cs rest = x :: t /\ (x = 0 /\ cs = [] \/ x = SLASH /\ cs <> []).
Proof. destruct cs as [|c cs]; [by exists 0, rest; auto|]. eexists _, _. split; [done|]. by right. Qed.

Lemma path_no_nul cs : Forall comp_ok cs -> no_nul (path_of cs).
Proof.
  unfold path_of, no_nul. induction 1 as [|c cs [_ Hc] H IH]; simpl; [constructor|]. constructor; [done|].
  apply Forall_app. split; [|done]. eapply Forall_impl; [exact Hc|]. simpl. by intros x [? _].
Qed.

Lemma prefix_take (c l : list Z) : c `prefix_of` l <-> c = take (length c) l.
Proof.
  split; [intros [k ->]; by rewrite take_app_length|]. intros ->. exists (drop (length (take (length c) l)) l).
  rewrite length_take. destruct (decide (length c <= length l)%nat).
  - rewrite Nat.min_l by done. by rewrite take_drop.
  - rewrite Nat.min_r by lia. rewrite drop_ge, take_ge by lia. by rewrite app_nil_r.
Qed.

Lemma compare_component g own k r c cs rest :
  node_ok g own k r -> on_pathlen r < 2 ^ 64 -> comp_ok c -> Forall comp_ok cs ->
  (if 0 <? sub64 (on_pathlen r) (on_last r) then
     check! on_last r <=? Z.of_nat (length (on_path r)) else Out_of_bounds in
     let! d := strncmp (c ++ behind cs rest) (drop (Z.to_nat (on_last r)) (on_path r)) (Z.of_nat (length c)) in Ok (d =? 0)
   else Ok false) = Ok (bool_decide (c `prefix_of` last_name r)).
Proof.
  intros K Hsmall [Hne Hc] Hcs. destruct (last_name_spec _ _ _ _ K) as (rest' & -> & Hn & Hlen & Hb).
  destruct (Z.leb_spec (on_last r) (Z.of_nat (length (on_path r)))); [|lia].
  assert (no_nul (c ++ path_of cs)) as Hnn.
  { apply Forall_app. split; [|by apply path_no_nul]. eapply Forall_impl; [exact Hc|]. simpl. by intros x [? _]. }
  destruct (strncmp_spec (c ++ path_of cs) rest (last_name r) rest' (Z.of_nat (length c)) Hnn Hn) as (d & E & Hd).
  unfold behind, cstr in *. rewrite <- app_assoc in E. rewrite E. cbn [res_bind]. rewrite Nat2Z.id, take_app_length in Hd.
  destruct (Z.ltb_spec 0 (sub64 (on_pathlen r) (on_last r))) as [Hl|Hl].
  - f_equal. rewrite <- prefix_take in Hd. destruct (Z.eqb_spec d 0) as [E0|E0]; symmetry; [apply bool_decide_eq_true_2|apply bool_decide_eq_false_2]; tauto.
  - rewrite bool_decide_eq_false_2; [done|]. intros Hp. apply prefix_length in Hp. destruct c as [|x c]; [done|]. simpl in Hp.
    destruct (nk_path _ _ _ _ K) as [Hp' _]. rewrite sub64_small in Hl by lia. lia.
Qed.

Lemma pathlen_small m own k r : ofd_own m own -> om_mem m !! k = Some (NODE_PAT r) -> on_pathlen r < 2 ^ 64.
Proof.
  intros Hw E. pose proof (w_num _ _ Hw). pose proof (w_obj _ _ Hw _ _ E) as (H1 & H2 & H3).
  destruct (nk_path _ _ _ _ (w_ok _ _ Hw _ _ E)) as [Hb Hn]. apply lookup_lt_Some in Hn. simpl in H3.
  unfold SIZEOF_NODE, CELL in H3. dlia.
Qed.

(** One call of [ofd_node_walk]: the node is it, or its children or its peers are asked. *)
Lemma walk_node m own fuel p r pre c cs rest :
  ofd_own m own -> om_mem m !! p = Some (NODE_PAT r) -> comp_ok c -> Forall comp_ok cs ->
  pre = [] \/ pre = [SLASH] -> Z.of_nat (length c) < 2 ^ 32 ->
  ofd_node_walk (S fuel) m p (pre ++ c ++ behind cs rest) =
  if bool_decide (c `prefix_of` last_name r) then
    match cs with
    | [] => Ok p
    | _ => if truth (on_child r) then ofd_node_walk fuel m (on_child r) (behind cs rest) else Ok 0
    end
  else if 0 <? on_peer r then ofd_node_walk fuel m (on_peer r) (c ++ behind cs rest) else Ok 0.
Proof.
  intros Hw E Hc Hcs Hpre Hlen. cbn [ofd_node_walk]. pose proof Hc as [Hne Hch]. destruct c as [|x c]; [done|].
  pose proof (Forall_inv Hch) as [Hx0 Hxs]. pose proof (w_obj _ _ Hw _ _ E) as Hp.
  set (s := (x :: c) ++ behind cs rest).
  assert ((let! d := deref (pre ++ s) in
           if d =? SLASH then let! d := deref (List.tl (pre ++ s)) in cassert (negb (d =? 0)) (Ok (List.tl (pre ++ s))) else Ok (pre ++ s)) = Ok s) as Es.
  { destruct Hpre as [->| ->]; cbn [app s deref res_bind List.tl].
    - by destruct (Z.eqb_spec x SLASH).
    - rewrite Z.eqb_refl. cbn [deref res_bind s app List.tl]. by destruct (Z.eqb_spec x 0). }
  destruct (deref (pre ++ s)) as [d|]; [|discriminate]. cbn [res_bind] in *. rewrite Es. cbn [res_bind].
  unfold ofd_node_child, ofd_node_peer. rewrite (node_ok_at m own p r Hw E). cbn [res_bind].
  assert (ofd_pathsplit_right s SLASH 0 = Ok (Z.of_nat (length (x :: c)))) as ->.
  { unfold ofd_pathsplit_right, s. destruct (behind_head cs rest) as (y & t & -> & Hy). change (0 =? 0) with true. cbv iota.
    rewrite pathsplit_right_spec; [done|done|naive_solver|]. change (sub64 0 1) with (2 ^ 64 - 1). lia. }
  cbn [res_bind]. unfold s at 1.
  rewrite (compare_component (om_mem m) own p r (x :: c) cs rest (w_ok _ _ Hw _ _ E) (pathlen_small _ _ _ _ Hw E) Hc Hcs).
  cbn [res_bind]. destruct (bool_decide _).
  - assert (aget s (Z.of_nat (length (x :: c))) = deref (behind cs rest)) as ->.
    { unfold aget, s. destruct (Z.ltb_spec (Z.of_nat (length (x :: c))) 0); [lia|]. rewrite Nat2Z.id, lookup_app_r, Nat.sub_diag by lia.
      by destruct (behind_head cs rest) as (y & t & -> & _). }
    assert (drop (Z.to_nat (Z.of_nat (length (x :: c)))) s = behind cs rest) as -> by (unfold s; by rewrite Nat2Z.id, drop_app_length).
    destruct cs as [|c' cs]; done.
  - destruct (Z.eqb_spec p 0); [lia|]. done.
Qed.

Lemma behind_cons c cs rest : behind (c :: cs) rest = [SLASH] ++ c ++ behind cs rest.
Proof. unfold behind, cstr, path_of. simpl. by rewrite <- app_assoc. Qed.

Lemma no_node_0 m own r : ofd_own m own -> om_mem m !! 0 = Some (NODE_PAT r) -> False.
Proof. intros Hw E. apply (w_obj _ _ Hw) in E. lia. Qed.

Lemma peer_of_0 m own k r : ofd_own m own -> peer_of m 0 k -> om_mem m !! k = Some (NODE_PAT r) -> False.
Proof. intros Hw H E. inversion H; subst; by eapply no_node_0. Qed.

Lemma walk_spec m own rest : ofd_own m own -> forall fuel p r pre c cs,
  om_mem m !! p = Some (NODE_PAT r) -> om_next m - p < Z.of_nat fuel -> comp_ok c -> Forall comp_ok cs ->
  Forall (fun c => Z.of_nat (length c) < 2 ^ 32) (c :: cs) -> pre = [] \/ pre = [SLASH] ->
  exists n, ofd_node_walk fuel m p (pre ++ c ++ behind cs rest) = Ok n /\
    (n <> 0 -> leads m (on_parent r) (c :: cs) n) /\
    (cs = [] -> n = 0 -> forall k rk, peer_of m p k -> om_mem m !! k = Some (NODE_PAT rk) -> ~ c `prefix_of` last_name rk).
Proof.
  intros Hw. induction fuel as [|fuel IH]; intros p r pre c cs E Hf Hc Hcs Hlen Hpre; pose proof (w_obj _ _ Hw _ _ E) as Hp; [lia|].
  pose proof (w_ok _ _ Hw _ _ E) as K. pose proof Hlen as Hlens. apply Forall_cons in Hlens as [Hl1 Hl2].
  rewrite (walk_node m own fuel p r) by done. case_bool_decide as Hpf.
  - destruct cs as [|c' cs].
    + exists p. split_and!; [done| |lia]. intros _. by eapply leads_last.
    + apply Forall_cons in Hcs as [Hc' Hcs]. destruct (nk_child _ _ _ _ K) as [->|(Hlt & rc & Ec & Hpar)].
      { exists 0. done. }
      rewrite (proj2 (truth_true (on_child r))) by lia. rewrite behind_cons.
      destruct (IH (on_child r) rc [SLASH] c' cs) as (n & -> & Hn & _); [done|lia|done|done|done|by right|].
      exists n. split_and!; [done| |done]. intros Hz. rewrite Hpar in Hn. by eapply leads_more; [| | |apply Hn].
  - destruct (nk_peer _ _ _ _ K) as [Hz|(Hlt & rc & Ec & Hpar)].
    + rewrite Hz. exists 0. split_and!; [done|done|]. intros _ _ k rk Hk Ek. inversion Hk; subst; [congruence|].
      assert (r0 = r) as -> by congruence. rewrite Hz in *. exfalso. by eapply peer_of_0.
    + destruct (Z.ltb_spec 0 (on_peer r)); [|lia].
      destruct (IH (on_peer r) rc [] c cs) as (n & En & Hn & H0); [done|lia|done|done|done|by left|]. cbn [app] in En. rewrite En.
      exists n. rewrite <- Hpar. split_and!; [done..|]. intros Hcs0 Hz k rk Hk Ek. inversion Hk; subst; [congruence|].
      assert (r0 = r) as -> by congruence. by eapply H0.
Qed.

(** On every well-formed tree, looking up a path returns.  The node found lies under the
    root along nodes whose names begin with the components of the path, one for each; a path
    of one component finds no node only when no child of the root has a name that begins
    with it. *)
Theorem node_find_leads m c cs rest :
  ofd_wf m -> Forall comp_ok (c :: cs) -> Forall (fun c => Z.of_nat (length c) < 2 ^ 32) (c :: cs) ->
  exists n, ofd_node_find m (Some (cstr (path_of (c :: cs)) rest)) = Ok n /\
    (n <> 0 -> leads m OFD_ROOT (c :: cs) n) /\
    (cs = [] -> n = 0 -> forall root k rk, om_mem m !! OFD_ROOT = Some (NODE_PAT root) -> peer_of m (on_child root) k ->
       om_mem m !! k = Some (NODE_PAT rk) -> ~ c `prefix_of` last_name rk).
Proof.
  intros [own Hw] Hcs Hlen. destruct (w_root _ _ Hw) as [root E]. pose proof (w_ok _ _ Hw _ _ E) as K.
  pose proof Hcs as [Hc Hcs']%Forall_cons. change (cstr (path_of (c :: cs)) rest) with (behind (c :: cs) rest).
  assert (ofd_node_find m (Some (behind (c :: cs) rest)) =
    if on_child root =? 0 then Ok 0 else ofd_node_walk (fuel_of m) m (on_child root) ([SLASH] ++ c ++ behind cs rest)) as ->.
  { unfold ofd_node_find. rewrite behind_cons. cbn [app deref res_bind]. change (SLASH =? 0) with false. rewrite Z.eqb_refl. cbn [negb].
    destruct Hc as [Hne Hx]. destruct c as [|x c]; [done|]. apply Forall_cons in Hx as [[Hx _] _].
    change (aget (SLASH :: (x :: c) ++ behind cs rest) 1) with (Ok x). cbn [res_bind]. destruct (Z.eqb_spec x 0); [done|].
    unfold ofd_node_child. by rewrite (node_ok_at m own OFD_ROOT root Hw E). }
  destruct (nk_child _ _ _ _ K) as [Hz|(Hlt & rc & Ec & Hpar)].
  - rewrite Hz. exists 0. split_and!; [done|done|]. intros _ _ root' k rk E' Hk Ek. assert (root' = root) as -> by congruence.
    rewrite Hz in Hk. exfalso. by eapply peer_of_0.
  - destruct (Z.eqb_spec (on_child root) 0); [unfold OFD_ROOT in *; lia|]. pose proof (w_obj _ _ Hw _ _ Ec).
    destruct (walk_spec m own rest Hw (fuel_of m) (on_child root) rc [SLASH] c cs) as (n' & En & Hn & H0); [done|unfold fuel_of; lia|done|done|done|by right|].
    exists n'. rewrite Hpar in Hn. split_and!; [done|done|]. intros Hcs0 Hz root' k rk E' Hk Ek. assert (root' = root) as -> by congruence.
    by eapply H0.
Qed.

Lemma node_find_leads_witness : leads demo_tree OFD_ROOT [[99; 112; 117]; [97]] 19.
Proof.
  destruct (node_find_leads demo_tree [99; 112; 117] [[97]] []) as (n & H1 & H2 & _).
  - exact demo_tree_wf.
  - repeat constructor; done.
  - repeat constructor; done.
  - assert (Ok n = Ok 19) as E by (rewrite <- H1; vm_compute; reflexivity). injection E as ->. apply H2. done.
Defined.
