(* ===== verification/Gdbstub.v ===== *)
(** * Gdbstub: the debugger's packets

    [lib/gdbstub.c]: framing, checksums and acknowledgements of gdb's remote protocol.
    The link delivers what the debugger sends in pieces of any size; a read from a link
    that has nothing more to deliver waits for ever.  What the stub does with a command is
    the processor's part ([lib/powerpc/64/gdbstub_isa.c]) and not modelled. *)

From S2P Require Import Prelude Bitmap PgAlloc Imemcpy Clib Ofd.

Definition GDB_PGSIZE : Z := 4096.

(** The file's static variables, and the link: pieces to be read, pieces written. *)
Record gdb : Type := Gdb {
  in_buf : list Z; in_bytes : Z; read_bytes : Z;
  out_buf : list Z; out_offset : Z; out_csum : Z; out_acked : Z;
  rx : list (list Z); tx : list (list Z);
}.

Definition DOLLAR : Z := 36.
Definition HASH : Z := 35.
Definition PLUS : Z := 43.
Definition MINUS : Z := 45.

(** ** The link *)

(** [do { z = gdb_io_read(buf, n); } while (z <= 0);]: empty pieces are read over, and there
    is no way out when no room is asked for. *)
Fixpoint gdb_read (rx : list (list Z)) (n : Z) : res (list Z * list (list Z)) :=
  match rx with
  | [] => Fault Deadlock
  | [] :: rx => gdb_read rx n
  | piece :: rx =>
      if n <=? 0 then Fault Deadlock
      else Ok (take (Z.to_nat n) piece, if Z.of_nat (length piece) <=? n then rx else drop (Z.to_nat n) piece :: rx)
  end.

Definition gdb_write (s : gdb) (bs : list Z) : gdb :=
  Gdb (in_buf s) (in_bytes s) (read_bytes s) (out_buf s) (out_offset s) (out_csum s) (out_acked s) (rx s) (tx s ++ [bs]).
Definition set_rx (s : gdb) (r : list (list Z)) : gdb :=
  Gdb (in_buf s) (in_bytes s) (read_bytes s) (out_buf s) (out_offset s) (out_csum s) (out_acked s) r (tx s).
Definition set_in (s : gdb) (b : list Z) (n r : Z) : gdb :=
  Gdb b n r (out_buf s) (out_offset s) (out_csum s) (out_acked s) (rx s) (tx s).
Definition set_out (s : gdb) (b : list Z) (off c : Z) : gdb :=
  Gdb (in_buf s) (in_bytes s) (read_bytes s) b off c (out_acked s) (rx s) (tx s).
Definition set_acked (s : gdb) (v : Z) : gdb :=
  Gdb (in_buf s) (in_bytes s) (read_bytes s) (out_buf s) (out_offset s) (out_csum s) v (rx s) (tx s).

(** ** Sending *)
Definition reset_out_buf (s : gdb) : res gdb :=
  let! b := aset (out_buf s) 0 DOLLAR in
  let! b := aset b 1 0 in
  Ok (set_acked (set_out s b 1 0) 0).

Fixpoint write_loop (b : list Z) (off csum : Z) (str : list Z) : res (list Z * Z * Z) :=
  match str with
  | [] => Fault Out_of_bounds
  | c :: str =>
      if truth c then let! b := aset b off c in write_loop b (off + 1) ((c + csum) mod 256) str
      else Ok (b, off, csum)
  end.

Definition write_to_packet (s : gdb) (str : list Z) : res gdb :=
  let! r := write_loop (out_buf s) (out_offset s) (out_csum s) str in
  let '(b, off, csum) := r in
  let! b := aset b off 0 in
  Ok (set_out s b off csum).

(** [do { --i; buf[i] = hex2char(x & 15); x >>= 4; } while (x);] on 16 digits. *)
Fixpoint hex_loop (fuel : nat) (x : Z) (acc : list Z) : list Z :=
  match fuel with
  | O => acc
  | S fuel =>
      let acc := hex2char (Z.land x 15) :: acc in
      let x := shr64 x 4 in
      if truth x then hex_loop fuel x acc else acc
  end.

(** [buf] has room for 16 digits: a larger width runs over its start. *)
Definition write_to_packet_hex (s : gdb) (x min_width : Z) : res gdb :=
  let ds := hex_loop 16 x [] in
  check! min_width <=? 16 else Out_of_bounds in
  let pad := replicate (Z.to_nat min_width - length ds) char_0 in
  write_to_packet s (cstr (pad ++ ds) []).

Definition check_ack (s : gdb) : res (bool * gdb) :=
  if truth (out_acked s) then Ok (true, s)
  else
    let! r := gdb_read (rx s) 1 in
    let! c := deref (fst r) in
    Ok (c =? PLUS, set_rx s (snd r)).

(** [do { gdb_io_write(...); } while (!check_ack());]: every round takes a byte off the link. *)
Fixpoint send_loop (fuel : nat) (s : gdb) (bs : list Z) : res gdb :=
  match fuel with
  | O => Fault Out_of_fuel
  | S fuel =>
      let s := gdb_write s bs in
      let! r := check_ack s in
      if fst r then Ok (snd r) else send_loop fuel (snd r) bs
  end.

Definition rx_size (s : gdb) : nat := length (concat (rx s)).

Definition send_packet (s : gdb) : res gdb :=
  let! b := aset (out_buf s) (out_offset s) HASH in
  let! b := aset b (out_offset s + 1) (hex2char (Z.shiftr (out_csum s) 4)) in
  let! b := aset b (out_offset s + 2) (hex2char (Z.land (out_csum s) 15)) in
  let s := set_out s b (out_offset s) (out_csum s) in
  send_loop (S (rx_size s)) s (take (Z.to_nat (out_offset s + 3)) b).

Definition send_ack (s : gdb) : gdb := gdb_write s [PLUS].

(** ** Receiving *)

(** [if (read_bytes == in_bytes) ...] *)
Definition fill (s : gdb) : res gdb :=
  if read_bytes s =? in_bytes s then
    let! r := gdb_read (rx s) (GDB_PGSIZE - read_bytes s) in
    let! b := blit (in_buf s) (read_bytes s) (fst r) in
    Ok (set_rx (set_in s b (in_bytes s + Z.of_nat (length (fst r))) (read_bytes s)) (snd r))
  else Ok s.

(** [while (1)]: the checksum, whether the end was seen, where the packet starts, and
    whether it is complete or [screwed]. *)
Fixpoint scan (fuel : nat) (s : gdb) (checksum endp start : Z) : res (gdb * Z * Z * Z * bool) :=
  match fuel with
  | O => Fault Out_of_fuel
  | S fuel =>
      let! s := fill s in
      let! c := aget (in_buf s) (read_bytes s) in
      let! h :=
        if (read_bytes s =? 0) && negb (c =? DOLLAR) then
          if c =? MINUS then let! s := send_packet s in Ok (Some (s, start + 1))
          else if negb (c =? PLUS) then Ok None
          else Ok (Some (set_acked s 1, start + 1))
        else Ok (Some (s, start)) in
      match h with
      | None => Ok (s, checksum, endp, start, false)
      | Some (s, start) =>
          let endp := if c =? HASH then 1 else endp in
          let checksum := if (start <=? read_bytes s) && negb (truth endp) then (checksum + c) mod 256 else checksum in
          let! two_back := if 3 <=? read_bytes s then aget (in_buf s) (read_bytes s - 2) else Ok 0 in
          if (3 <=? read_bytes s) && (two_back =? HASH) then Ok (s, checksum, endp, start, true)
          else scan fuel (set_in s (in_buf s) (in_bytes s) (read_bytes s + 1)) checksum endp start
      end
  end.

(** [if (read_bytes) { memmove(&in_buf[0], &in_buf[read_bytes], in_bytes - read_bytes); ... }] *)
Definition compact (s : gdb) : gdb :=
  if truth (read_bytes s) then
    let n := in_bytes s - read_bytes s in
    let kept := take (Z.to_nat n) (drop (Z.to_nat (read_bytes s)) (in_buf s)) in
    set_in s (kept ++ drop (Z.to_nat n) (in_buf s)) n 0
  else s.

(** [retry:]; the checksum, the end mark and the start
    stay what they were, and so does a byte that begins no packet. *)
Fixpoint read_packet_from (fuel : nat) (s : gdb) (checksum endp start : Z) : res (gdb * Z) :=
  match fuel with
  | O => Fault Out_of_fuel
  | S fuel =>
      let s := compact s in
      let! r := scan (S (rx_size s + Z.to_nat (in_bytes s))) s checksum endp start in
      let '(s, checksum, endp, start, complete) := r in
      let screwed := read_packet_from fuel (gdb_write s [MINUS]) checksum endp start in
      if negb complete then screwed
      else
        let! d1 := aget (in_buf s) (read_bytes s - 1) in
        if negb (char2hex d1 =? checksum / 16) then screwed
        else
          let! d2 := aget (in_buf s) (read_bytes s) in
          if negb (char2hex d2 =? checksum mod 16) then screwed
          else
            let! b := aset (in_buf s) (read_bytes s - 2) 0 in
            Ok (set_in s b (in_bytes s) (read_bytes s + 1), start)
  end.

Definition read_packet (s : gdb) : res (gdb * Z) :=
  read_packet_from (S (rx_size s + Z.to_nat (in_bytes s))) s 0 0 1.

(** ** What is sent is understood *)
Definition csum (p : list Z) : Z := foldl (fun a c => (c + a) mod 256) 0 p.
Definition packet (p : list Z) : list Z :=
  DOLLAR :: p ++ [HASH; hex2char (Z.shiftr (csum p) 4); hex2char (Z.land (csum p) 15)].

Lemma packet_loop_spec p : forall pre d cs,
  no_nul p -> (length p < length d)%nat ->
  write_loop (pre ++ d) (Z.of_nat (length pre)) cs (cstr p []) =
  Ok ((pre ++ p) ++ drop (length p) d, Z.of_nat (length (pre ++ p)), foldl (fun a c => (c + a) mod 256) cs p).
Proof.
  unfold cstr. intros pre d cs Hp. revert pre d cs. induction Hp as [|c p Hc Hp IH]; intros pre d cs Hl; cbn [write_loop app].
  - simpl. by rewrite !app_nil_r.
  - rewrite (proj2 (truth_true c)) by done. destruct d as [|x d]; [simpl in Hl; lia|]. rewrite aset_next. cbn [res_bind].
    replace (Z.of_nat (length pre) + 1) with (Z.of_nat (length (pre ++ [c]))) by (rewrite length_app; simpl; lia).
    rewrite IH by (simpl in Hl; lia). rewrite <- !app_assoc. done.
Qed.

(** The output buffer holds the payload [p] so far and has room for [n] bytes. *)
Definition holding (s : gdb) (p : list Z) (n : nat) : Prop :=
  exists d, out_buf s = (DOLLAR :: p) ++ d /\ length d = n /\
    out_offset s = Z.of_nat (length (DOLLAR :: p)) /\ out_csum s = csum p /\ out_acked s = 0.

(** Composing changes nothing on the link. *)
Definition same_link (s s' : gdb) : Prop :=
  in_buf s' = in_buf s /\ in_bytes s' = in_bytes s /\ read_bytes s' = read_bytes s /\ rx s' = rx s /\ tx s' = tx s.

Lemma same_link_trans s1 s2 s3 : same_link s1 s2 -> same_link s2 s3 -> same_link s1 s3.
Proof. unfold same_link. intuition congruence. Qed.

Lemma reset_holding s :
  length (out_buf s) = Z.to_nat GDB_PGSIZE -> exists s', reset_out_buf s = Ok s' /\ holding s' [] 4095 /\ same_link s s'.
Proof.
  intros Hb. change (Z.to_nat GDB_PGSIZE) with 4096%nat in *. unfold reset_out_buf.
  destruct (out_buf s) as [|x0 [|x1 d]]; [simpl in Hb; lia..|]. change (aset (x0 :: x1 :: d) 0 DOLLAR) with (Ok ([DOLLAR] ++ x1 :: d)).
  cbn [res_bind]. rewrite (aset_next [DOLLAR] x1 d 0 : aset _ 1 0 = _), <- app_assoc. cbn [res_bind]. eexists. split; [reflexivity|].
  split; [|done]. exists (0 :: d). split_and!; try done. simpl in Hb |- *. lia.
Qed.

Lemma write_holding s p q n :
  holding s p n -> no_nul q -> (length q < n)%nat ->
  exists s', write_to_packet s (cstr q []) = Ok s' /\ holding s' (p ++ q) (n - length q) /\ same_link s s'.
Proof.
  intros (d & Eb & Hd & Eo & Ec & Ea) Hq Hn. unfold write_to_packet. rewrite Eb, Eo, Ec, packet_loop_spec by (done || lia). cbn [res_bind].
  pose proof (length_drop d (length q)) as H. destruct (drop (length q) d) as [|y d']; simpl in H; [lia|].
  rewrite aset_next. cbn [res_bind]. eexists. split; [reflexivity|]. split; [|done]. exists (0 :: d').
  cbn [set_out out_buf out_offset out_csum out_acked app]. rewrite <- !app_assoc. split_and!; try done; [simpl; lia|].
  unfold csum. by rewrite foldl_app.
Qed.

(** Composing a packet. *)
Definition compose (s : gdb) (p : list Z) : res gdb :=
  let! s := reset_out_buf s in
  write_to_packet s (cstr p []).

(** Once composed, the packet goes out whole, and a [+] ends it. *)
Lemma send_holding s p n r :
  holding s p n -> (3 <= n)%nat -> rx s = [PLUS] :: r ->
  exists s', send_packet s = Ok s' /\ tx s' = tx s ++ [packet p] /\ rx s' = r.
Proof.
  intros (d & Eb & Hd & Eo & Ec & Ea) Hn Er. destruct d as [|y1 [|y2 [|y3 d]]]; [simpl in Hd; lia..|].
  unfold send_packet. rewrite Eb, Eo, Ec. set (c1 := hex2char _). set (c2 := hex2char (Z.land _ _)).
  assert (forall z, Z.of_nat (length (DOLLAR :: p)) + 1 = Z.of_nat (length ((DOLLAR :: p) ++ [z]))) as L1 by (intros; rewrite length_app; simpl; lia).
  assert (forall z w, Z.of_nat (length (DOLLAR :: p)) + 2 = Z.of_nat (length (((DOLLAR :: p) ++ [z]) ++ [w]))) as L2 by (intros; rewrite !length_app; simpl; lia).
  rewrite aset_next. cbn [res_bind]. rewrite (L1 HASH), aset_next. cbn [res_bind]. rewrite (L2 HASH c1), aset_next. cbn [res_bind].
  unfold set_out. cbn [out_offset].
  replace (Z.to_nat (Z.of_nat (length (DOLLAR :: p)) + 3)) with (length ((((DOLLAR :: p) ++ [HASH]) ++ [c1]) ++ [c2])) by (rewrite !length_app; simpl; lia).
  rewrite take_app_length. replace ((((DOLLAR :: p) ++ [HASH]) ++ [c1]) ++ [c2]) with (packet p) by (unfold packet; by rewrite <- !app_assoc).
  cbn [send_loop]. unfold check_ack, gdb_write. cbn [out_acked rx tx]. rewrite Ea, Er.
  eexists. split; [cbn; reflexivity|]. done.
Qed.

(** ** Receiving, with the pieces of any size *)

(** What was read ahead or is still on the link. *)
Definition stream (s : gdb) : list Z :=
  take (Z.to_nat (in_bytes s - read_bytes s)) (drop (Z.to_nat (read_bytes s)) (in_buf s)) ++ concat (rx s).

Definition wf_in (s : gdb) : Prop :=
  length (in_buf s) = Z.to_nat GDB_PGSIZE /\ 0 <= read_bytes s <= in_bytes s /\ in_bytes s <= GDB_PGSIZE.

(** [k] bytes of [W] were looked at, and what was received is [W]'s beginning. *)
Definition seen (s : gdb) (k : nat) (W : list Z) : Prop :=
  wf_in s /\ read_bytes s = Z.of_nat k /\ take (Z.to_nat (in_bytes s)) (in_buf s) ++ concat (rx s) = W.

(** A read delivers something of what is on the link, if there is anything. *)
Lemma gdb_read_spec r n :
  0 < n -> concat r <> [] ->
  exists bs r', gdb_read r n = Ok (bs, r') /\ bs <> [] /\ Z.of_nat (length bs) <= n /\ bs ++ concat r' = concat r.
Proof.
  intros Hn. induction r as [|[|c piece] r IH]; simpl; intros Hr; [done|by apply IH|].
  destruct (Z.leb_spec n 0); [lia|].
  assert (take (Z.to_nat n) (c :: piece) <> []) as Ht by (destruct (Z.to_nat n) eqn:E; [lia|done]).
  destruct (Z.leb_spec (Z.of_nat (S (length piece))) n).
  - do 2 eexists. split; [done|]. split; [done|]. rewrite firstn_all2 by (simpl; lia). split; [simpl; lia|done].
  - do 2 eexists. split; [done|]. split; [done|]. rewrite length_take. split; [simpl; lia|].
    simpl concat. by rewrite app_assoc, take_drop.
Qed.

Lemma seen_lookup s k W i :
  seen s k W -> (i < Z.to_nat (in_bytes s))%nat -> in_buf s !! i = W !! i.
Proof.
  intros ((Hl & _ & Hn) & _ & <-) Hi. change (Z.to_nat GDB_PGSIZE) with 4096%nat in Hl. change GDB_PGSIZE with 4096 in Hn.
  rewrite lookup_app_l by (rewrite length_take; lia). by rewrite lookup_take_lt.
Qed.

(** After [fill] the next byte is in the buffer. *)
Lemma fill_spec s k W :
  seen s k W -> (k < length W)%nat -> Z.of_nat k < GDB_PGSIZE ->
  exists s', fill s = Ok s' /\ seen s' k W /\ Z.of_nat k < in_bytes s' /\ tx s' = tx s.
Proof.
  intros Hs Hk Hp. pose proof Hs as ((Hl & Hr & Hn) & Ek & HW). unfold fill.
  destruct (Z.eqb_spec (read_bytes s) (in_bytes s)) as [E|E]; [|exists s; split_and!; try done; lia].
  destruct (gdb_read_spec (rx s) (GDB_PGSIZE - read_bytes s)) as (bs & r & -> & Hbs & Hlen & Hc); [lia| |].
  { intros En. rewrite En, app_nil_r in HW. subst W. rewrite length_take in Hk. lia. }
  cbn [res_bind fst snd]. change GDB_PGSIZE with 4096 in *. change (Z.to_nat 4096) with 4096%nat in *.
  unfold blit. destruct (_ && _) eqn:G; [|zcases].
  cbn [res_bind]. eexists. split; [reflexivity|].
  assert (0 < length bs)%nat by (destruct bs; [done|simpl; lia]).
  cbn [set_rx set_in in_bytes tx]. split; [|split; [lia|done]].
  split; [|split; [done|]]; cbn [set_rx set_in in_bytes in_buf read_bytes rx].
  - repeat split; unfold GDB_PGSIZE; cbn [set_rx set_in in_bytes in_buf read_bytes]; try lia.
    rewrite !length_app, length_take, length_drop. lia.
  - rewrite <- HW, <- Hc, E. rewrite (app_assoc (take _ (in_buf s))), (app_assoc (take _ (in_buf s)) bs (concat r)).
    f_equal. rewrite take_app_le by (rewrite length_app, length_take; lia). by rewrite take_ge by (rewrite length_app, length_take; lia).
Qed.

(** A byte inside a packet. *)
Lemma scan_step fuel s k W c cs e :
  seen s k W -> W !! k = Some c -> Z.of_nat k < GDB_PGSIZE ->
  (k = 0%nat -> c = DOLLAR) -> ((3 <= k)%nat -> W !! (k - 2)%nat <> Some HASH) ->
  exists s', seen s' (S k) W /\ tx s' = tx s /\
    scan (S fuel) s cs e 1 =
    (let e := if c =? HASH then 1 else e in
     scan fuel s' (if (1 <=? Z.of_nat k) && negb (truth e) then (cs + c) mod 256 else cs) e 1).
Proof.
  intros Hs Hc Hp H0 H2. destruct (fill_spec s k W) as (s1 & Ef & Hs1 & Hk & Ht); [done|by eapply lookup_lt_Some|done|].
  assert (read_bytes s1 = Z.of_nat k) as Ek by apply Hs1.
  cbn [scan]. rewrite Ef. cbn [res_bind]. rewrite Ek.
  rewrite (aget_ok _ _ c) by (try rewrite Nat2Z.id, (seen_lookup s1 k W) by (done || lia); done || lia). cbn [res_bind].
  assert ((Z.of_nat k =? 0) && negb (c =? DOLLAR) = false) as ->.
  { destruct k; [|zcases]. rewrite H0 by done. done. }
  cbn [res_bind]. rewrite Ek. exists (set_in s1 (in_buf s1) (in_bytes s1) (Z.of_nat k + 1)). split; [|split; [done|]].
  - destruct Hs1 as ((Hl & Hr & Hn) & _ & HW). split; [|split; [cbn; lia|done]]. repeat split; cbn; try done; lia.
  - destruct (Z.leb_spec 3 (Z.of_nat k)) as [Hge|]; [|done].
    destruct (lookup_lt_is_Some_2 W (k - 2)) as [w Hw]; [apply lookup_lt_Some in Hc; lia|].
    rewrite (aget_ok _ _ w) by (try replace (Z.to_nat (Z.of_nat k - 2)) with (k - 2)%nat by lia; try rewrite (seen_lookup s1 k W) by (done || lia); done || lia).
    cbn [res_bind andb]. destruct (Z.eqb_spec w HASH) as [->|]; [|done]. destruct H2; [lia|done].
Qed.

(** The payload [q] that follows [pre], one byte after the other. *)
Lemma scan_payload q : forall fuel s pre rest cs,
  let W := DOLLAR :: pre ++ q ++ rest in
  seen s (S (length pre)) W -> Forall (fun c => c <> HASH) (pre ++ q) -> Z.of_nat (length (pre ++ q)) + 1 < GDB_PGSIZE ->
  exists s', seen s' (S (length (pre ++ q))) W /\ tx s' = tx s /\
    scan (length q + fuel) s cs 0 1 = scan fuel s' (foldl (fun a c => (c + a) mod 256) cs q) 0 1.
Proof.
  induction q as [|c q IH]; intros fuel s pre rest cs W Hs Hh Hl.
  - exists s. by rewrite app_nil_r.
  - assert (pre ++ c :: q = (pre ++ [c]) ++ q) as Epc by by rewrite <- app_assoc.
    assert (W = DOLLAR :: (pre ++ [c]) ++ q ++ rest) as EW by (subst W; by rewrite <- app_assoc).
    assert (c <> HASH) as Hc by by apply Forall_app in Hh as [_ [? _]%Forall_cons].
    destruct (scan_step (length q + fuel) s (S (length pre)) W c cs 0) as (s1 & Hs1 & Ht1 & E1); [done| | |done| |].
    { subst W. simpl. by rewrite list_lookup_middle. }
    { rewrite length_app in Hl. simpl in Hl. lia. }
    { intros H3. replace (S (length pre) - 2)%nat with (S (length pre - 2)) by lia. subst W. simpl.
      rewrite lookup_app_l by lia. intros Hx%list_elem_of_lookup_2. apply Forall_app in Hh as [Hh _].
      rewrite Forall_forall in Hh. by apply (Hh HASH). }
    destruct (IH fuel s1 (pre ++ [c]) rest ((cs + c) mod 256)) as (s' & Hs' & Ht' & E').
    { rewrite <- EW, length_app, Nat.add_comm. done. } { by rewrite <- Epc. } { by rewrite <- Epc. }
    exists s'. rewrite EW, Epc. split; [done|]. split; [congruence|]. cbn [length Nat.add]. rewrite E1.
    rewrite (proj2 (Z.eqb_neq _ _) Hc). destruct (Z.leb_spec 1 (Z.of_nat (S (length pre)))); [|lia].
    cbn [andb truth negb Z.eqb foldl]. rewrite (Z.add_comm c cs). done.
Qed.

(** The byte two after the hash ends the packet. *)
Lemma scan_last fuel s k W c cs :
  seen s k W -> W !! k = Some c -> Z.of_nat k < GDB_PGSIZE -> (3 <= k)%nat -> W !! (k - 2)%nat = Some HASH ->
  exists s', seen s' k W /\ Z.of_nat k < in_bytes s' /\ tx s' = tx s /\ scan (S fuel) s cs 1 1 = Ok (s', cs, 1, 1, true).
Proof.
  intros Hs Hc Hp H3 H2. destruct (fill_spec s k W) as (s1 & Ef & Hs1 & Hk & Ht); [done|by eapply lookup_lt_Some|done|].
  assert (read_bytes s1 = Z.of_nat k) as Ek by apply Hs1. exists s1. split_and!; try done.
  cbn [scan]. rewrite Ef. cbn [res_bind]. rewrite Ek.
  rewrite (aget_ok _ _ c) by (try rewrite Nat2Z.id, (seen_lookup s1 k W) by (done || lia); done || lia). cbn [res_bind].
  destruct (Z.eqb_spec (Z.of_nat k) 0); [lia|]. cbn [andb res_bind]. rewrite Ek.
  destruct (Z.leb_spec 3 (Z.of_nat k)); [|lia].
  rewrite (aget_ok _ _ HASH) by (try replace (Z.to_nat (Z.of_nat k - 2)) with (k - 2)%nat by lia; try rewrite (seen_lookup s1 k W) by (done || lia); done || lia).
  cbn [res_bind]. replace (if c =? HASH then 1 else 1) with 1 by (by destruct (c =? HASH)). by rewrite andb_false_r.
Qed.

Lemma scan_packet fuel s p rest :
  seen s 0 (packet p ++ rest) -> Forall (fun c => c <> HASH) p -> Z.of_nat (length p) + 4 <= GDB_PGSIZE ->
  exists s', seen s' (length p + 3) (packet p ++ rest) /\ Z.of_nat (length p) + 3 < in_bytes s' /\ tx s' = tx s /\
    scan (S (length p + S (S (S fuel)))) s 0 0 1 = Ok (s', csum p, 1, 1, true).
Proof.
  intros Hs Hh Hl. set (c1 := hex2char (Z.shiftr (csum p) 4)). set (c2 := hex2char (Z.land (csum p) 15)).
  set (W := packet p ++ rest) in *.
  assert (W = DOLLAR :: [] ++ p ++ HASH :: c1 :: c2 :: rest) as EW by (subst W; unfold packet; simpl; by rewrite <- app_assoc).
  assert (forall i, W !! S i = (p ++ HASH :: c1 :: c2 :: rest) !! i) as HW by (intros; by rewrite EW).
  assert (forall i, (i < S (length p))%nat -> W !! i <> Some HASH) as Hno.
  { intros [|i] Hi; [by rewrite EW|]. rewrite HW, lookup_app_l by lia. intros Hx%list_elem_of_lookup_2.
    rewrite Forall_forall in Hh. by apply (Hh HASH). }
  destruct (scan_step (length p + S (S (S fuel))) s 0 W DOLLAR 0 0) as (s1 & Hs1 & Ht1 & E1); [done|by rewrite EW|unfold GDB_PGSIZE; lia|done|lia|].
  rewrite EW in Hs1. destruct (scan_payload p (S (S (S fuel))) s1 [] _ 0 Hs1 Hh) as (s2 & Hs2 & Ht2 & E2); [simpl; lia|].
  rewrite <- EW in Hs2. cbn [app] in Hs2. fold (csum p) in E2.
  destruct (scan_step (S (S fuel)) s2 (S (length p)) W HASH (csum p) 0) as (s3 & Hs3 & Ht3 & E3); [done|by rewrite HW, list_lookup_middle|lia|done|intros; apply Hno; lia|].
  destruct (scan_step (S fuel) s3 (S (S (length p))) W c1 (csum p) 1) as (s4 & Hs4 & Ht4 & E4); [done| |lia|done|intros; apply Hno; lia|].
  { rewrite HW, lookup_app_r by lia. by replace (S (length p) - length p)%nat with 1%nat by lia. }
  destruct (scan_last fuel s4 (S (S (S (length p)))) W c2 (csum p)) as (s5 & Hs5 & Hn5 & Ht5 & E5); [done| |lia|lia| |].
  { rewrite HW, lookup_app_r by lia. by replace (S (S (length p)) - length p)%nat with 2%nat by lia. }
  { replace (S (S (S (length p))) - 2)%nat with (S (length p)) by lia. by rewrite HW, list_lookup_middle. }
  exists s5. replace (length p + 3)%nat with (S (S (S (length p)))) by lia. split; [done|]. split; [lia|]. split; [congruence|].
  transitivity (scan (length p + S (S (S fuel))) s1 0 0 1); [exact E1|]. rewrite E2, E3.
  change (if HASH =? HASH then 1 else 0) with 1. cbv zeta. change (negb (truth 1)) with false. rewrite andb_false_r, E4.
  replace (if c1 =? HASH then 1 else 1) with 1 by (by destruct (c1 =? HASH)). cbv zeta. change (negb (truth 1)) with false. by rewrite andb_false_r.
Qed.

Lemma compact_seen s : wf_in s -> seen (compact s) 0 (stream s) /\ tx (compact s) = tx s.
Proof.
  intros (Hl & Hr & Hn). unfold compact, stream, seen. change GDB_PGSIZE with 4096 in *. change (Z.to_nat 4096) with 4096%nat in *.
  destruct (Z.eq_dec (read_bytes s) 0) as [E|E].
  - rewrite (proj2 (truth_false _)) by done. rewrite E, Z.sub_0_r. unfold wf_in, GDB_PGSIZE. rewrite E. simpl. split_and!; try done; lia.
  - rewrite (proj2 (truth_true _)) by done. set (n := in_bytes s - read_bytes s). split; [|done]. unfold wf_in.
    cbn [set_in in_bytes read_bytes in_buf rx]. change GDB_PGSIZE with 4096. change (Z.to_nat 4096) with 4096%nat.
    split_and!; try (subst n; lia).
    + rewrite length_app, length_take, !length_drop. subst n. lia.
    + f_equal. rewrite take_app_le by (rewrite length_take, length_drop; subst n; lia). rewrite take_take. f_equal. lia.
Qed.

Lemma seen_rest s k W : seen s k W -> stream s = drop k W.
Proof.
  intros ((Hl & Hr & Hn) & Ek & <-). unfold stream. change GDB_PGSIZE with 4096 in *. change (Z.to_nat 4096) with 4096%nat in *.
  rewrite drop_app_le by (rewrite length_take; lia). f_equal. rewrite Ek, Nat2Z.id, skipn_firstn_comm. f_equal. lia.
Qed.

Lemma csum_range p : 0 <= csum p < 256.
Proof.
  unfold csum. assert (forall a, 0 <= a < 256 -> 0 <= foldl (fun a c => (c + a) mod 256) a p < 256) as H; [|apply H; lia].
  induction p as [|c p IH]; intros a Ha; simpl; [done|]. apply IH, Z.mod_pos_bound. lia.
Qed.

Lemma seen_buf s k w rest : seen s k (w ++ rest) -> Z.of_nat (length w) <= in_bytes s -> exists tl, in_buf s = w ++ tl.
Proof.
  intros ((Hl & Hr & Hn) & _ & E) Hw. change GDB_PGSIZE with 4096 in *. change (Z.to_nat 4096) with 4096%nat in *.
  exists (drop (length w) (in_buf s)). rewrite <- (take_drop (length w) (in_buf s)) at 1. f_equal.
  apply (f_equal (take (length w))) in E. rewrite take_app_length, take_app_le in E by (rewrite length_take; lia).
  rewrite take_take in E. etransitivity; [|exact E]. f_equal. lia.
Qed.

(** The bytes after the payload, and what their digits say. *)
Lemma packet_tail p tl i c :
  [HASH; hex2char (Z.shiftr (csum p) 4); hex2char (Z.land (csum p) 15)] !! i = Some c -> (packet p ++ tl) !! (S (length p) + i)%nat = Some c.
Proof.
  intros Hc. unfold packet. simpl Nat.add. cbn [app]. rewrite lookup_cons, <- app_assoc, lookup_app_r by lia.
  replace (length p + i - length p)%nat with i by lia. by apply lookup_app_l_Some.
Qed.

Lemma csum_high p : char2hex (hex2char (Z.shiftr (csum p) 4)) = csum p / 16.
Proof.
  pose proof (csum_range p). rewrite char2hex_hex2char, Z.shiftr_div_pow2 by lia. change 15 with (Z.ones 4). rewrite Z.land_ones by lia.
  change (2 ^ 4) with 16. apply Z.mod_small. split; [apply Z.div_pos; lia|apply Z.div_lt_upper_bound; lia].
Qed.

Lemma csum_low p : char2hex (hex2char (Z.land (csum p) 15)) = csum p mod 16.
Proof. rewrite char2hex_hex2char, <- Z.land_assoc. change (Z.land 15 15) with (Z.ones 4). by rewrite Z.land_ones by lia. Qed.

(** Consuming a byte of the buffer. *)
Lemma stream_next s b k :
  wf_in s -> read_bytes s = Z.of_nat k -> Z.of_nat k < in_bytes s -> drop (S k) b = drop (S k) (in_buf s) -> length b = length (in_buf s) ->
  wf_in (set_in s b (in_bytes s) (Z.of_nat k + 1)) /\ stream (set_in s b (in_bytes s) (Z.of_nat k + 1)) = drop 1 (stream s).
Proof.
  intros (Hl & Hr & Hn) Ek Hk Hd Hb. change GDB_PGSIZE with 4096 in *. change (Z.to_nat 4096) with 4096%nat in *.
  split; [unfold wf_in; cbn [set_in in_buf in_bytes read_bytes]; change GDB_PGSIZE with 4096; change (Z.to_nat 4096) with 4096%nat; split_and!; lia|].
  unfold stream. cbn [set_in in_buf in_bytes read_bytes rx]. rewrite drop_app_le by (rewrite length_take, length_drop; lia). f_equal.
  replace (Z.to_nat (Z.of_nat k + 1)) with (S k) by lia. rewrite Hd, skipn_firstn_comm, drop_drop. f_equal; [lia|]. f_equal. lia.
Qed.

(** A packet at the front of the stream is read, whatever pieces it comes in. *)
Lemma read_packet_spec s p rest :
  wf_in s -> stream s = packet p ++ rest -> Forall (fun c => c <> HASH) p -> Z.of_nat (length p) + 4 <= GDB_PGSIZE ->
  exists s', read_packet s = Ok (s', 1) /\ take (length p + 1) (drop 1 (in_buf s')) = cstr p [] /\
    wf_in s' /\ stream s' = rest /\ tx s' = tx s.
Proof.
  intros Hw Hst Hh Hl. destruct (compact_seen s Hw) as [Hc Htc]. rewrite Hst in Hc.
  assert (rx_size (compact s) + Z.to_nat (in_bytes (compact s)) = length (packet p ++ rest))%nat as Hf.
  { destruct Hc as ((Hb & Hr & Hn) & _ & E). rewrite <- E, length_app, length_take. unfold rx_size. lia. }
  unfold read_packet. cbn [read_packet_from]. rewrite Hf.
  assert (length (packet p ++ rest) = length p + S (S (S (S (length rest)))))%nat as El by (unfold packet; simpl; rewrite !length_app; simpl; lia).
  replace (S (length (packet p ++ rest))) with (S (length p + S (S (S (S (length rest)))))) by lia.
  destruct (scan_packet (S (length rest)) _ p rest Hc Hh Hl) as (s' & Hs & Hn & Ht & ->). cbn [res_bind negb].
  assert (read_bytes s' = Z.of_nat (length p + 3)) as Ek by apply Hs. rewrite Ek.

  destruct (seen_buf s' (length p + 3) (packet p) rest Hs) as [tl Hb]; [unfold packet; simpl; rewrite length_app; simpl; lia|].
  rewrite Hb.
  erewrite (aget_ok _ (Z.of_nat (length p + 3) - 1)); [|lia|replace (Z.to_nat _) with (S (length p) + 1)%nat by lia; by apply packet_tail].
  cbn [res_bind]. rewrite csum_high, Z.eqb_refl. cbn [negb].
  erewrite (aget_ok _ (Z.of_nat (length p + 3))); [|lia|replace (Z.to_nat _) with (S (length p) + 2)%nat by lia; by apply packet_tail].
  cbn [res_bind]. rewrite csum_low, Z.eqb_refl. cbn [negb].
  assert (exists t2, packet p ++ tl = (DOLLAR :: p) ++ HASH :: t2) as [t2 Hb'] by (eexists; unfold packet; cbn [app]; by rewrite <- app_assoc).
  rewrite Hb'.
  replace (Z.of_nat (length p + 3) - 2) with (Z.of_nat (length (DOLLAR :: p))) by (simpl; lia). rewrite aset_next. cbn [res_bind].
  eexists. split; [reflexivity|]. cbn [set_in in_buf tx].
  destruct (stream_next s' (((DOLLAR :: p) ++ [0]) ++ t2) (length p + 3)) as [Hw' Hst']; [apply Hs|done|lia| | |].
  { rewrite Hb, Hb', <- app_assoc, !drop_app_ge by (simpl; lia). replace (S (length p + 3) - length (DOLLAR :: p))%nat with 3%nat by (simpl; lia). done. }
  { rewrite Hb, Hb', !length_app. simpl. lia. }
  split_and!; [|done| |congruence].
  - change (drop 1 _) with ((p ++ [0]) ++ t2). replace (length p + 1)%nat with (length (p ++ [0])) by (rewrite length_app; done). by rewrite take_app_length.
  - rewrite Hst', (seen_rest _ _ _ Hs), drop_drop. apply drop_app_length'. unfold packet. simpl. rewrite length_app. simpl. lia.
Qed.

(** A byte that begins no packet is never consumed: the stub answers it with [-] for ever. *)
Definition stray (c : Z) : bool := negb ((c =? DOLLAR) || (c =? MINUS) || (c =? PLUS)).

Lemma compact_read s : read_bytes (compact s) = 0.
Proof. unfold compact. destruct (truth (read_bytes s)) eqn:E; [done|by apply truth_false in E]. Qed.

Lemma compact_id s : read_bytes s = 0 -> compact s = s.
Proof. intros E. unfold compact. by rewrite E. Qed.

Lemma stray_byte_hangs c : forall fuel s cs e st,
  stray c = true -> 0 < in_bytes (compact s) -> in_buf (compact s) !! 0%nat = Some c ->
  read_packet_from fuel s cs e st = Fault Out_of_fuel.
Proof.
  induction fuel as [|fuel IH]; intros s cs e st Hc Hn Hb; [done|]. cbn [read_packet_from scan]. unfold fill. rewrite (compact_read s).
  destruct (Z.eqb_spec 0 (in_bytes (compact s))); [lia|]. cbn [res_bind]. rewrite (compact_read s), (aget_ok _ 0 c) by done. cbn [res_bind Z.eqb andb].
  pose proof Hc as Hc'. unfold stray in Hc. destruct (c =? DOLLAR); [done|]. destruct (c =? MINUS); [done|]. destruct (c =? PLUS); [done|]. cbn [negb res_bind].
  apply IH; [done|..]; rewrite compact_id by (exact (compact_read s)); done.
Qed.

(** A link of the debugger's that carries [bs]. *)
Definition link (bs : list Z) : gdb :=
  Gdb (replicate (Z.to_nat GDB_PGSIZE) 0) 0 0 (replicate (Z.to_nat GDB_PGSIZE) 0) 0 0 0 [bs] [].

(** That is also how a wrong checksum ends, [$a#00] say: its last digit is not consumed. *)
Lemma bad_checksum_hangs fuel : read_packet_from fuel (link [DOLLAR; 97; HASH; char_0; char_0]) 0 0 1 = Fault Out_of_fuel.
Proof.
  destruct fuel as [|fuel]; [done|]. cbn [read_packet_from].
  destruct (scan _ _ _ _ _) as [[[[[s cs] e] st] complete]|] eqn:E; [|vm_compute in E; discriminate].
  vm_compute in E. injection E as <- <- <- <- <-. cbn [res_bind negb].
  match goal with |- context [aget ?l ?i] => change (aget l i) with (Ok char_0) end. cbn [res_bind].
  apply (stray_byte_hangs char_0); done.
Qed.

(** C27: what the stub frames, it or its peer can read: sending a payload without a zero byte or a hash and
    short enough for the page-sized buffer puts one packet on the link, and reading a link whose bytes
    begin with that packet, whatever was read ahead and in whatever pieces the rest arrives, returns
    exactly the payload, zero-terminated, leaves exactly the bytes after the packet to be read, and asks
    for no retransmission. *)
Theorem gdb_packet_roundtrip s p r :
  length (out_buf s) = Z.to_nat GDB_PGSIZE -> no_nul p -> Forall (fun c => c <> HASH) p ->
  Z.of_nat (length p) + 4 <= GDB_PGSIZE -> rx s = [PLUS] :: r ->
  exists s' w, (let! s := compose s p in send_packet s) = Ok s' /\ tx s' = tx s ++ [w] /\ rx s' = r /\
    (forall t rest, wf_in t -> stream t = w ++ rest ->
     exists t', read_packet t = Ok (t', 1) /\ take (length p + 1) (drop 1 (in_buf t')) = cstr p [] /\
       wf_in t' /\ stream t' = rest /\ tx t' = tx t).
Proof.
  intros Hb Hp Hh Hl Hr. change GDB_PGSIZE with 4096 in Hl. unfold compose.
  destruct (reset_holding s Hb) as (s1 & -> & H1 & L1). cbn [res_bind].
  destruct (write_holding s1 [] p _ H1 Hp) as (s2 & -> & H2 & L2); [lia|]. cbn [res_bind].
  destruct (same_link_trans _ _ _ L1 L2) as (_ & _ & _ & Erx & Etx).
  destruct (send_holding s2 p _ r H2) as (s' & E & Ht & Hrx); [lia|congruence|].
  exists s', (packet p). rewrite Etx in Ht. split_and!; try done. intros t rest Hw Hst. by apply read_packet_spec.
Qed.

Lemma gdb_packet_roundtrip_witness :
  exists s' w, (let! s := compose (link [PLUS]) [83; 48; 53] in send_packet s) = Ok s' /\ tx s' = [] ++ [w] /\ rx s' = [] /\
    (forall t rest, wf_in t -> stream t = w ++ rest ->
     exists t', read_packet t = Ok (t', 1) /\ take 4 (drop 1 (in_buf t')) = [83; 48; 53; 0] /\
       wf_in t' /\ stream t' = rest /\ tx t' = tx t).
Proof.
  apply (gdb_packet_roundtrip (link [PLUS]) [83; 48; 53] []); [done|repeat constructor; done|repeat constructor; done|done|done].
Defined.
