(* ===== verification/GdbIsa.v ===== *)
(** * GdbIsa: the debugger's commands

    [enter_gdb] of [lib/gdbstub.c], the processor's side of it in
    [lib/powerpc/64/gdbstub_isa.c], and access to devices of [hype/powerpc/gdbstub_hv.c].
    What is printed on the console and the flushing of cache lines leave no trace in the state. *)

From S2P Require Import Prelude Bitmap PgAlloc Imemcpy Clib Ofd Gdbstub.

Definition SIGILL : Z := 4.
Definition SIGTRAP : Z := 5.
Definition SIGBUS : Z := 7.
Definition SIGFPE : Z := 8.
Definition SIGSEGV : Z := 11.
Definition SIGALRM : Z := 14.
Definition SIGTERM : Z := 15.
Definition GDB_CONTINUE : Z := 0.
Definition GDB_STEP : Z := 1.
Definition MSR_SE : Z := 0x400.
Definition MSR_TRAP_FE : Z := 0x100000.
Definition MSR_TRAP_IOP : Z := 0x80000.
Definition MSR_TRAP_PRIV : Z := 0x40000.
Definition MSR_TRAP : Z := 0x20000.
Definition MSR_TRAP_BITS : Z := Z.lor (Z.lor (Z.lor MSR_TRAP_FE MSR_TRAP_IOP) MSR_TRAP_PRIV) MSR_TRAP.

(** [msr] and [ps] are one word. *)
Record cpu_state : Type := CpuState {
  gpr : list Z; pc : Z; ps : Z; cr : Z; xer : Z; ctr : Z; lr : Z;
  dar : Z; dsisr : Z; hsrr0 : Z; hsrr1 : Z; hdec : Z; curmsr : Z;
}.

Definition set_pc (st : cpu_state) (v : Z) : cpu_state :=
  CpuState (gpr st) v (ps st) (cr st) (xer st) (ctr st) (lr st) (dar st) (dsisr st) (hsrr0 st) (hsrr1 st) (hdec st) (curmsr st).
Definition set_ps (st : cpu_state) (v : Z) : cpu_state :=
  CpuState (gpr st) (pc st) v (cr st) (xer st) (ctr st) (lr st) (dar st) (dsisr st) (hsrr0 st) (hsrr1 st) (hdec st) (curmsr st).
Definition set_curmsr (st : cpu_state) (v : Z) : cpu_state :=
  CpuState (gpr st) (pc st) (ps st) (cr st) (xer st) (ctr st) (lr st) (dar st) (dsisr st) (hsrr0 st) (hsrr1 st) (hdec st) v.

(** Memory, and the writes the devices have seen: address, value, size. *)
Record world : Type := World { wmem : pmem; wdev : list (Z * Z * Z) }.

(** The debugged machine, the stub's buffers, and [active] and [connected]. *)
Record dbg : Type := Dbg { dcpu : cpu_state; dworld : world; stub : gdb; active : Z; connected : Z }.

Section Isa.

(** The processor's state register, the trap instruction of the assembler's part, and what
    a device answers. *)
Variables (mfmsr trap_instruction : Z) (io_in_sz : list (Z * Z * Z) -> Z -> Z -> Z).

(** ** Signals *)
Definition gdb_ppc_0x700 (st : cpu_state) (m : pmem) : Z * cpu_state :=
  let bits := Z.land (ps st) MSR_TRAP_BITS in
  if bits =? MSR_TRAP_FE then (SIGFPE, st)
  else if (bits =? MSR_TRAP_IOP) || (bits =? MSR_TRAP_PRIV) then (SIGILL, st)
  else if bits =? MSR_TRAP then
    let instr := load_n 4 m (pc st) in
    (SIGTRAP, if instr =? trap_instruction then set_pc st (add64 (pc st) 4) else st)
  else (SIGBUS, st).

Definition gdb_signal_num (st : cpu_state) (m : pmem) (exception_type : Z) : Z * cpu_state :=
  let st := set_curmsr st mfmsr in
  if exception_type =? 0x200 then (SIGTERM, st)
  else if (exception_type =? 0x300) || (exception_type =? 0x380) || (exception_type =? 0x400) || (exception_type =? 0x480) then (SIGSEGV, st)
  else if exception_type =? 0x600 then (SIGBUS, st)
  else if exception_type =? 0x700 then gdb_ppc_0x700 st m
  else if exception_type =? 0x800 then (SIGFPE, st)
  else if exception_type =? 0x900 then (SIGALRM, st)
  else if exception_type =? 0xd00 then (SIGTRAP, st)
  else if exception_type =? 0xe00 then (SIGFPE, st)
  else (SIGBUS, st).

Definition gdb_resume (st : cpu_state) (resume_addr type : Z) : cpu_state :=
  let st := if negb (resume_addr =? not64 0) then set_pc st resume_addr else st in
  if type =? GDB_CONTINUE then set_ps st (Z.land (ps st) (not64 MSR_SE)) else set_ps st (Z.lor (ps st) MSR_SE).

(** ** Registers *)

(** The loops of [write_to_packet_hex] calls, each with its width. *)
Fixpoint write_hexes (s : gdb) (xs : list (Z * Z)) : res gdb :=
  match xs with
  | [] => Ok s
  | (x, w) :: xs => let! s := write_to_packet_hex s x w in write_hexes s xs
  end.

Definition gdb_write_to_packet_reg_array (s : gdb) (st : cpu_state) : res gdb :=
  write_hexes s
    (((fun x => (x, 16)) <$> gpr st) ++ replicate 32 (0, 16) ++
     [(pc st, 16); (ps st, 16); (cr st, 8); (lr st, 16); (ctr st, 16); (xer st, 8); (0, 8)]).

(** [buf += n] *)
Definition advance (buf : list Z) (n : nat) : res (list Z) :=
  check! (n <=? length buf)%nat else Out_of_bounds in Ok (drop n buf).

Fixpoint read_gprs (n : nat) (buf : list Z) : res (list Z * list Z) :=
  match n with
  | O => Ok ([], buf)
  | S n =>
      let! v := str2uval buf 8 in
      let! buf := advance buf 16 in
      let! r := read_gprs n buf in
      Ok (v :: fst r, snd r)
  end.

Definition gdb_read_reg_array (st : cpu_state) (buf : list Z) : res cpu_state :=
  let! r := read_gprs 32 buf in
  let '(gprs, buf) := r in
  let! buf := advance buf (32 * 16) in
  let! pc' := str2uval buf 8 in
  let! buf := advance buf 16 in
  let! ps' := str2uval buf 8 in
  let! buf := advance buf 16 in
  let! cr' := str2uval buf 4 in
  let! buf := advance buf 8 in
  let! lr' := str2uval buf 8 in
  let! buf := advance buf 16 in
  let! ctr' := str2uval buf 8 in
  let! buf := advance buf 16 in
  let! xer' := str2uval buf 4 in
  Ok (CpuState gprs pc' ps' (u32 cr') (u32 xer') ctr' lr' (dar st) (dsisr st) (hsrr0 st) (hsrr1 st) (hdec st) (curmsr st)).

(** ** Memory *)

(** The widest access that the address and the length allow. *)
Definition access_size (mem len : Z) : res Z :=
  let bits := Z.lor len mem in
  let sh := ffs bits - 1 in
  check! (0 <=? sh) && (sh <? 64) else Bad_shift in
  let sz := shl64 1 sh in
  Ok (if 8 <? sz then 8 else sz).

(** Device registers lie above this bit. *)
Definition LOG_MAXPHYS : Z := 41.

(** [for (i = 0; i < len; i += sz) { ...; write_to_packet_hex(val, sz * 2); }]; the packet's
    buffer is full long before the fuel is used up. *)
Fixpoint mem_out (fuel : nat) (s : gdb) (ld : Z -> Z) (mem len sz i : Z) : res gdb :=
  if i <? len then
    match fuel with
    | O => Fault Out_of_fuel
    | S fuel => let! s := write_to_packet_hex s (ld (add64 mem i)) (sz * 2) in mem_out fuel s ld mem len sz (add64 i sz)
    end
  else Ok s.

Definition mem_fuel : nat := S (Z.to_nat GDB_PGSIZE).

Definition gdb_write_to_packet_mem_hv (w : world) (s : gdb) (mem len : Z) : res (Z * gdb) :=
  if Z.testbit mem LOG_MAXPHYS then
    let! sz := access_size mem len in
    let! s := mem_out mem_fuel s (fun a => io_in_sz (wdev w) a sz) mem len sz 0 in
    Ok (len, s)
  else Ok (0, s).

Definition gdb_write_to_packet_mem (w : world) (s : gdb) (mem len : Z) : res (Z * gdb) :=
  let! r := gdb_write_to_packet_mem_hv w s mem len in
  let '(n, s) := r in
  if n =? len then Ok (len, s)
  else
    let! sz := access_size mem len in
    let! s := mem_out mem_fuel s (load_n (Z.to_nat sz) (wmem w)) mem len sz 0 in
    Ok (len, s).

(** [for (j = 0; j < len; j += sz) { val = str2uval(&buf[j], sz); ... }] *)
Fixpoint mem_in (fuel : nat) (w : world) (put : world -> Z -> Z -> world) (mem len sz : Z) (buf : list Z) (j : Z) : res world :=
  if j <? len then
    match fuel with
    | O => Fault Out_of_fuel
    | S fuel =>
        let! val := str2uval (drop (Z.to_nat j) buf) sz in
        mem_in fuel (put w (add64 mem j) val) put mem len sz buf (add64 j sz)
    end
  else Ok w.

Definition put_dev (sz : Z) (w : world) (a v : Z) : world := World (wmem w) (wdev w ++ [(a, v, sz)]).
Definition put_mem (sz : Z) (w : world) (a v : Z) : world := World (store_n (Z.to_nat sz) (wmem w) a v) (wdev w).

Definition gdb_write_mem_hv (w : world) (mem len : Z) (buf : list Z) : res (Z * world) :=
  if Z.testbit mem LOG_MAXPHYS then
    let! sz := access_size mem len in
    let! w := mem_in mem_fuel w (put_dev sz) mem len sz buf 0 in
    Ok (len, w)
  else Ok (0, w).

Definition gdb_write_mem (w : world) (mem len : Z) (buf : list Z) : res (Z * world) :=
  let! r := gdb_write_mem_hv w mem len buf in
  let '(n, w) := r in
  if n =? len then Ok (len, w)
  else
    let! sz := access_size mem len in
    let! w := mem_in mem_fuel w (put_mem sz) mem len sz buf 0 in
    Ok (len, w).

(** ** The command loop *)
Definition chr (c : Z) : list Z := cstr [c] [].
Definition char_S : Z := 83.
Definition str_OK : list Z := cstr [79; 75] [].
Definition str_E11 : list Z := cstr [69; 49; 49] [].

(** [while (packet[i] != c) ++i;] *)
Fixpoint seek (l : list Z) (c i : Z) : res Z :=
  match l with
  | [] => Fault Out_of_bounds
  | x :: l => if x =? c then Ok i else seek l c (i + 1)
  end.

(** [packet + i], [packet] being [&in_buf[start]]. *)
Definition at_packet (s : gdb) (start i : Z) : list Z := drop (Z.to_nat (start + i)) (in_buf s).

(** [packet[i] = 0], in the input buffer itself. *)
Definition cut_packet (s : gdb) (start i : Z) : res gdb :=
  let! b := aset (in_buf s) (start + i) 0 in
  Ok (set_in s b (in_bytes s) (read_bytes s)).

Definition send_signal (s : gdb) (signum : Z) : res gdb :=
  let! s := write_to_packet s (chr char_S) in
  let! s := write_to_packet_hex s signum 2 in
  send_packet s.

Definition with_stub (x : dbg) (s : gdb) : dbg := Dbg (dcpu x) (dworld x) s (active x) (connected x).
Definition with_cpu (x : dbg) (st : cpu_state) : dbg := Dbg st (dworld x) (stub x) (active x) (connected x).
Definition with_world (x : dbg) (w : world) : dbg := Dbg (dcpu x) w (stub x) (active x) (connected x).
Definition with_flags (x : dbg) (a c : Z) : dbg := Dbg (dcpu x) (dworld x) (stub x) a c.

(** [write_to_packet(str); send_packet();] *)
Definition reply (x : dbg) (str : list Z) : res dbg :=
  let! s := write_to_packet (stub x) str in
  let! s := send_packet s in
  Ok (with_stub x s).

(** [case 'm':] *)
Definition cmd_read_mem (x : dbg) (start : Z) : res dbg :=
  let s := stub x in
  let! i := seek (at_packet s start 1) 44 1 in
  let! s := cut_packet s start i in
  let! addr := str2uval (at_packet s start 1) 8 in
  let! len := str2uval (at_packet s start (i + 1)) 8 in
  let! r := gdb_write_to_packet_mem (dworld x) s addr len in
  let '(ret, s) := r in
  let! s :=
    if negb (len =? ret) then let! s := reset_out_buf s in write_to_packet s str_E11 else Ok s in
  let! s := send_packet s in
  Ok (with_stub x s).

(** [case 'M':] *)
Definition cmd_write_mem (x : dbg) (start : Z) : res dbg :=
  let s := stub x in
  let! i := seek (at_packet s start 1) 44 1 in
  let! s := cut_packet s start i in
  let! addr := str2uval (at_packet s start 1) 8 in
  let lenstr := i + 1 in
  let! i := seek (at_packet s start lenstr) 58 lenstr in
  let! s := cut_packet s start i in
  let! len := str2uval (at_packet s start lenstr) 8 in
  let! r := gdb_write_mem (dworld x) addr len (at_packet s start (i + 1)) in
  let '(n, w) := r in
  reply (with_world (with_stub x s) w) (if n =? len then str_OK else str_E11).

(** [case 's':], [case 'c':] and what falls into them. *)
Definition cmd_resume (x : dbg) (start : Z) : res dbg :=
  let! c0 := aget (in_buf (stub x)) start in
  let type := if c0 =? 115 then GDB_STEP else GDB_CONTINUE in
  let! c1 := aget (in_buf (stub x)) (start + 1) in
  let! addr := if truth c1 then str2uval (at_packet (stub x) start 1) 8 else Ok (not64 0) in
  Ok (with_cpu x (gdb_resume (dcpu x) addr type)).

(** One command: where the stub goes on, and whether it is done. *)
Definition gdb_command (x : dbg) (start signum : Z) : res (dbg * bool) :=
  let! c := aget (in_buf (stub x)) start in
  if c =? 63 then let! s := send_signal (stub x) signum in Ok (with_stub x s, false)
  else if c =? 72 then let! x := reply x str_OK in Ok (x, false)
  else if c =? 103 then
    let! s := gdb_write_to_packet_reg_array (stub x) (dcpu x) in
    let! s := send_packet s in
    Ok (with_stub x s, false)
  else if c =? 71 then
    let! st := gdb_read_reg_array (dcpu x) (at_packet (stub x) start 1) in
    let! x := reply (with_cpu x st) str_OK in
    Ok (x, false)
  else if c =? 109 then let! x := cmd_read_mem x start in Ok (x, false)
  else if c =? 77 then let! x := cmd_write_mem x start in Ok (x, false)
  else if (c =? 68) || (c =? 107) || (c =? 115) || (c =? 99) then
    let! x := if c =? 68 then reply x str_OK else Ok x in
    let x := if (c =? 68) || (c =? 107) then with_flags x (active x) 0 else x in
    let! x := cmd_resume x start in
    Ok (x, true)
  else let! x := reply x (cstr [] []) in Ok (x, false).

(** [while (1)]: every round takes a packet off the link. *)
Fixpoint gdb_loop (fuel : nat) (x : dbg) (signum : Z) : res dbg :=
  match fuel with
  | O => Fault Out_of_fuel
  | S fuel =>
      let! r := read_packet (stub x) in
      let '(s, start) := r in
      let s := send_ack s in
      let! s := reset_out_buf s in
      let! r := gdb_command (with_stub x s) start signum in
      if snd r then Ok (fst r) else gdb_loop fuel (fst r) signum
  end.

(** A second entry spins: [while (1) ;]. *)
Definition enter_gdb (x : dbg) (exception_type : Z) : res dbg :=
  check! negb (truth (active x)) else Deadlock in
  let x := with_flags x 1 1 in
  let '(signum, st) := gdb_signal_num (dcpu x) (wmem (dworld x)) exception_type in
  let x := with_cpu x st in
  let! s := reset_out_buf (stub x) in
  let! s := send_signal s signum in
  let! x := gdb_loop (S (rx_size s + Z.to_nat (in_bytes s))) (with_stub x s) signum in
  Ok (with_flags x 0 (connected x)).

End Isa.

(** ** Hexadecimal fields *)
Fixpoint hex_fixed (w : nat) (x : Z) : list Z :=
  match w with
  | O => []
  | S w => hex_fixed w (x / 16) ++ [hex2char (Z.land x 15)]
  end.

Lemma length_hex_fixed w : forall x, length (hex_fixed w x) = w.
Proof. induction w as [|w IH]; intros x; simpl; [done|]. rewrite length_app, IH. simpl. lia. Qed.

Lemma hex2char_char x : hex2char x <> 0 /\ hex2char x <> HASH.
Proof.
  pose proof (char2hex_hex2char x) as H. pose proof (Z.land_nonneg x 15) as Hn.
  split; intros E; rewrite E in H; change (char2hex _) with (-1) in H; lia.
Qed.

Lemma hex_fixed_chars w : forall x, Forall (fun c => c <> 0 /\ c <> HASH) (hex_fixed w x).
Proof.
  induction w as [|w IH]; intros x; simpl; [done|]. apply Forall_app. split; [apply IH|].
  apply Forall_singleton, hex2char_char.
Qed.

Lemma hex_fixed_nul w x : no_nul (hex_fixed w x).
Proof. eapply Forall_impl; [apply hex_fixed_chars|]. by intros ? [? _]. Qed.

Lemma hex_fixed_zero w : hex_fixed w 0 = replicate w char_0.
Proof. induction w as [|w IH]; [done|]. cbn [hex_fixed]. change (0 / 16) with 0. rewrite IH, replicate_S_end. done. Qed.

Lemma hex_loop_pad w : forall f x acc,
  0 <= x < 16 ^ Z.of_nat w -> (1 <= w <= f)%nat ->
  exists ds, hex_loop f x acc = ds ++ acc /\ replicate (w - length ds) char_0 ++ ds = hex_fixed w x.
Proof.
  induction w as [|w IH]; intros f x acc Hx Hw; [lia|]. destruct f as [|f]; [lia|]. cbn [hex_loop hex_fixed].
  replace (shr64 x 4) with (x / 16) by (unfold shr64; by rewrite Z.shiftr_div_pow2).
  assert (0 <= x / 16 < 16 ^ Z.of_nat w) as Hx'.
  { split; [apply Z.div_pos; lia|]. apply Z.div_lt_upper_bound; [lia|]. rewrite Nat2Z.inj_succ, Z.pow_succ_r in Hx by lia. lia. }
  destruct (Z.eq_dec (x / 16) 0) as [E|E].
  - rewrite E. change (truth 0) with false. exists [hex2char (Z.land x 15)]. split; [done|]. rewrite hex_fixed_zero. simpl. do 2 f_equal. lia.
  - rewrite (proj2 (truth_true _)) by done.
    assert (1 <= w)%nat by (destruct w; [simpl in Hx'; lia|lia]).
    destruct (IH f (x / 16) (hex2char (Z.land x 15) :: acc)) as (ds & -> & Hd); [done|lia|].
    exists (ds ++ [hex2char (Z.land x 15)]). rewrite <- Hd, <- !app_assoc. split; [done|]. rewrite length_app. simpl. f_equal. f_equal. lia.
Qed.

(** A field is written at its full width. *)
Lemma write_hex_field s p n x w :
  holding s p n -> 0 <= x < 16 ^ Z.of_nat w -> (1 <= w <= 16)%nat -> (w < n)%nat ->
  exists s', write_to_packet_hex s x (Z.of_nat w) = Ok s' /\ holding s' (p ++ hex_fixed w x) (n - w) /\ same_link s s'.
Proof.
  intros Hs Hx Hw Hn. unfold write_to_packet_hex. destruct (hex_loop_pad w 16 x [] Hx) as (ds & E & Hd); [lia|].
  rewrite E, app_nil_r. destruct (Z.leb_spec (Z.of_nat w) 16); [|lia]. rewrite Nat2Z.id, Hd.
  destruct (write_holding s p (hex_fixed w x) n) as (s' & E' & Hs' & L); [done|apply hex_fixed_nul|by rewrite length_hex_fixed|].
  rewrite length_hex_fixed in Hs'. eauto.
Qed.

(** ... and read back at it, whatever follows. *)
Lemma str2uval_field w : forall x acc bytes i tl,
  0 <= x < 16 ^ Z.of_nat w -> 0 <= acc -> acc * 16 ^ Z.of_nat w + x < 2 ^ 64 -> 0 <= i -> i + Z.of_nat w <= bytes * 2 < 2 ^ 64 ->
  str2uval_loop (hex_fixed w x ++ tl) bytes acc i = str2uval_loop tl bytes (acc * 16 ^ Z.of_nat w + x) (i + Z.of_nat w).
Proof.
  induction w as [|w IH]; intros x acc bytes i tl Hx Ha Hlt Hi Hb; simpl.
  - f_equal; [simpl in Hx|]; lia.
  - rewrite Nat2Z.inj_succ, Z.pow_succ_r in * by lia. pose proof (Z.div_mod x 16 ltac:(lia)) as Hdm. pose proof (Z.mod_pos_bound x 16 ltac:(lia)).
    assert (0 <= x / 16 < 16 ^ Z.of_nat w) as Hx' by (split; [apply Z.div_pos; lia|apply Z.div_lt_upper_bound; lia]).
    assert (0 <= acc * 16 ^ Z.of_nat w) by (apply Z.mul_nonneg_nonneg; lia).
    rewrite <- app_assoc, IH by lia. cbn [app str2uval_loop].
    rewrite (proj2 (truth_true _)) by apply hex2char_char. unfold mul64. rewrite u64_small by lia.
    destruct (Z.ltb_spec (i + Z.of_nat w) (bytes * 2)); [|lia]. cbn [andb]. rewrite char2hex_hex2char.
    rewrite <- Z.land_assoc. change (Z.land 15 15) with (Z.ones 4). rewrite Z.land_ones by lia. change (2 ^ 4) with 16.
    unfold add64, shl64. rewrite Z.shiftl_mul_pow2 by lia. change (2 ^ 4) with 16. rewrite (u64_small (_ * 16)) by lia.
    rewrite u64_small by lia. f_equal; lia.
Qed.

Lemma str2uval_hex (b : nat) x tl :
  0 <= x < 16 ^ Z.of_nat (2 * b) -> (b <= 8)%nat -> tl <> [] -> str2uval (hex_fixed (2 * b) x ++ tl) (Z.of_nat b) = Ok x.
Proof.
  intros Hx Hb Ht. unfold str2uval.
  assert (16 ^ Z.of_nat (2 * b) <= 2 ^ 64) by (change (2 ^ 64) with (16 ^ 16); apply Z.pow_le_mono_r; lia).
  rewrite str2uval_field by lia. destruct tl as [|c tl]; [done|]. cbn [str2uval_loop]. unfold mul64. rewrite u64_small by lia.
  destruct (Z.ltb_spec (0 + Z.of_nat (2 * b)) (Z.of_nat b * 2)); [lia|]. by rewrite andb_false_r.
Qed.

(** ** The register array *)
Definition fields (xs : list (Z * Z)) : list Z := concat ((fun xw => hex_fixed (Z.to_nat (snd xw)) (fst xw)) <$> xs).

Definition fits (xw : Z * Z) : Prop := 1 <= snd xw <= 16 /\ 0 <= fst xw < 16 ^ snd xw.

Lemma fields_app xs ys : fields (xs ++ ys) = fields xs ++ fields ys.
Proof. unfold fields. by rewrite fmap_app, concat_app. Qed.

Lemma fields_chars xs : Forall (fun c => c <> 0 /\ c <> HASH) (fields xs).
Proof. induction xs as [|[x w] xs IH]; [done|]. apply Forall_app. split; [apply hex_fixed_chars|exact IH]. Qed.

Lemma write_hexes_spec xs : forall s p n,
  holding s p n -> Forall fits xs -> (length (fields xs) < n)%nat ->
  exists s', write_hexes s xs = Ok s' /\ holding s' (p ++ fields xs) (n - length (fields xs)) /\ same_link s s'.
Proof.
  induction xs as [|[x w] xs IH]; intros s p n Hs Hf Hn; cbn [write_hexes].
  - exists s. rewrite app_nil_r, Nat.sub_0_r. done.
  - apply Forall_cons in Hf as [[Hw Hx] Hf]. cbn [fst snd] in *.
    assert (length (fields ((x, w) :: xs)) = Z.to_nat w + length (fields xs))%nat as El by (unfold fields; simpl; by rewrite length_app, length_hex_fixed).
    destruct (write_hex_field s p n x (Z.to_nat w)) as (s1 & E1 & H1 & L1); [done|by rewrite Z2Nat.id by lia|lia|lia|].
    rewrite Z2Nat.id in E1 by lia. rewrite E1. cbn [res_bind].
    destruct (IH s1 _ _ H1 Hf) as (s2 & E2 & H2 & L2); [lia|]. exists s2. split; [done|]. split; [|by eapply same_link_trans].
    rewrite El. rewrite <- app_assoc in H2. replace (n - (Z.to_nat w + length (fields xs)))%nat with (n - Z.to_nat w - length (fields xs))%nat by lia. exact H2.
Qed.

Definition wf_cpu (st : cpu_state) : Prop :=
  length (gpr st) = 32%nat /\ Forall is_u64 (gpr st) /\ is_u64 (pc st) /\ is_u64 (ps st) /\ is_u64 (lr st) /\ is_u64 (ctr st) /\
  0 <= cr st < 2 ^ 32 /\ 0 <= xer st < 2 ^ 32.

(** The registers of [st], the rest of [st']. *)
Definition take_regs (st st' : cpu_state) : cpu_state :=
  CpuState (gpr st) (pc st) (ps st) (cr st) (xer st) (ctr st) (lr st) (dar st') (dsisr st') (hsrr0 st') (hsrr1 st') (hdec st') (curmsr st').

Definition reg_fields (st : cpu_state) : list (Z * Z) :=
  ((fun x => (x, 16)) <$> gpr st) ++ replicate 32 (0, 16) ++
  [(pc st, 16); (ps st, 16); (cr st, 8); (lr st, 16); (ctr st, 16); (xer st, 8); (0, 8)].

Lemma advance_field w x tl : advance (hex_fixed w x ++ tl) w = Ok tl.
Proof.
  unfold advance. rewrite length_app, length_hex_fixed. destruct (Nat.leb_spec w (w + length tl)); [|lia].
  by rewrite drop_app_length' by (by rewrite length_hex_fixed).
Qed.

Lemma field64 x tl : is_u64 x -> tl <> [] -> str2uval (hex_fixed 16 x ++ tl) 8 = Ok x.
Proof. intros Hx Ht. apply (str2uval_hex 8); [exact Hx|lia|done]. Qed.
Lemma field32 x tl : 0 <= x < 2 ^ 32 -> tl <> [] -> str2uval (hex_fixed 8 x ++ tl) 4 = Ok x.
Proof. intros Hx Ht. apply (str2uval_hex 4); [exact Hx|lia|done]. Qed.

Lemma read_gprs_spec xs : forall tl,
  Forall is_u64 xs -> tl <> [] -> read_gprs (length xs) (fields ((fun x => (x, 16)) <$> xs) ++ tl) = Ok (xs, tl).
Proof.
  induction xs as [|x xs IH]; intros tl Hx Ht; [done|]. apply Forall_cons in Hx as [Hx Hxs].
  change (fields ((fun x => (x, 16)) <$> x :: xs)) with (hex_fixed 16 x ++ fields ((fun x => (x, 16)) <$> xs)).
  cbn [length read_gprs]. rewrite <- app_assoc, field64 by (done || (by destruct (fields _))). cbn [res_bind].
  rewrite advance_field. cbn [res_bind]. rewrite IH by done. done.
Qed.

Lemma length_fields xs : length (fields xs) = sum_list_with (fun xw => Z.to_nat (snd xw)) xs.
Proof.
  induction xs as [|[x w] xs IH]; [done|]. change (fields ((x, w) :: xs)) with (hex_fixed (Z.to_nat w) x ++ fields xs).
  by rewrite length_app, length_hex_fixed, IH.
Qed.

Lemma length_reg_fields st : length (gpr st) = 32%nat -> length (fields (reg_fields st)) = 1112%nat.
Proof.
  intros Hg. unfold reg_fields. rewrite fields_app, length_app, !length_fields.
  assert (forall xs, sum_list_with (fun xw => Z.to_nat (snd xw)) ((fun x : Z => (x, 16)) <$> xs) = (16 * length xs)%nat) as ->.
  { induction xs as [|x xs IH]; [done|]. rewrite fmap_cons. cbn [sum_list_with snd length]. rewrite IH. lia. }
  rewrite Hg. reflexivity.
Qed.

Lemma reg_fields_fit st : wf_cpu st -> Forall fits (reg_fields st).
Proof.
  intros (_ & Hg & Hpc & Hps & Hlr & Hctr & Hcr & Hxer). unfold reg_fields, is_u64 in *.
  repeat (apply Forall_app; split); [apply Forall_fmap; eapply Forall_impl; [exact Hg|]|apply Forall_replicate|repeat constructor];
    unfold fits; cbn; intros; try lia.
Qed.

Lemma read_reg_array_spec st st' tl :
  wf_cpu st -> gdb_read_reg_array st' (fields (reg_fields st) ++ tl) = Ok (take_regs st st').
Proof.
  intros (Hg & Hgs & Hpc & Hps & Hlr & Hctr & Hcr & Hxer). unfold gdb_read_reg_array, reg_fields.
  rewrite !fields_app, <- !app_assoc. replace 32%nat with (length (gpr st)) at 1 by exact Hg. rewrite read_gprs_spec by (done || (by destruct (fields (replicate _ _)))).
  cbn [res_bind]. unfold advance at 1. rewrite length_app, length_fields.
  change (sum_list_with _ (replicate 32 (0, 16))) with 512%nat. change (32 * 16)%nat with 512%nat.
  destruct (Nat.leb_spec 512 (512 + length (fields [(pc st, 16); (ps st, 16); (cr st, 8); (lr st, 16); (ctr st, 16); (xer st, 8); (0, 8)] ++ tl))); [|lia].
  cbn [res_bind]. rewrite drop_app_length' by reflexivity.
  change (fields [(pc st, 16); (ps st, 16); (cr st, 8); (lr st, 16); (ctr st, 16); (xer st, 8); (0, 8)])
    with (hex_fixed 16 (pc st) ++ hex_fixed 16 (ps st) ++ hex_fixed 8 (cr st) ++ hex_fixed 16 (lr st) ++ hex_fixed 16 (ctr st) ++
          hex_fixed 8 (xer st) ++ hex_fixed 8 0 ++ []). rewrite <- !app_assoc.
  assert (forall w x (l : list Z), (0 < w)%nat -> hex_fixed w x ++ l <> []) as Hne.
  { intros w x l Hw E. apply (f_equal length) in E. rewrite length_app, length_hex_fixed in E. simpl in E. lia. }
  rewrite field64 by (done || (apply Hne; lia)). cbn [res_bind]. rewrite advance_field. cbn [res_bind].
  rewrite field64 by (done || (apply Hne; lia)). cbn [res_bind]. rewrite advance_field. cbn [res_bind].
  rewrite field32 by (done || (apply Hne; lia)). cbn [res_bind]. rewrite advance_field. cbn [res_bind].
  rewrite field64 by (done || (apply Hne; lia)). cbn [res_bind]. rewrite advance_field. cbn [res_bind].
  rewrite field64 by (done || (apply Hne; lia)). cbn [res_bind]. rewrite advance_field. cbn [res_bind].
  rewrite field32 by (done || (apply Hne; lia)). cbn [res_bind]. unfold take_regs, u32. by rewrite !Z.mod_small by lia.
Qed.

(** ** Memory, a byte at a time *)
Definition hex_dump (bs : list Z) : list Z := concat (hex_fixed 2 <$> bs).

Lemma length_hex_dump bs : length (hex_dump bs) = (2 * length bs)%nat.
Proof.
  induction bs as [|b bs IH]; [done|]. change (hex_dump (b :: bs)) with (hex_fixed 2 b ++ hex_dump bs).
  rewrite length_app, length_hex_fixed, IH. simpl. lia.
Qed.

Lemma hex_dump_app a b : hex_dump (a ++ b) = hex_dump a ++ hex_dump b.
Proof. unfold hex_dump. by rewrite fmap_app, concat_app. Qed.

(** The digits of a number are its bytes', the most significant first. *)
Lemma hex_fixed_bytes bs :
  Forall (fun b => 0 <= b < 256) bs -> hex_fixed (2 * length bs) (be_val bs) = hex_dump bs.
Proof.
  induction bs as [|b bs IH] using rev_ind; intros Hb; [done|]. apply Forall_app in Hb as [Hbs [Hb _]%Forall_cons].
  rewrite hex_dump_app, <- IH by done. rewrite length_app. replace (2 * (length bs + length [b]))%nat with (S (S (2 * length bs))) by (simpl; lia).
  unfold be_val. rewrite foldl_app. cbn [foldl]. fold (be_val bs). cbn [hex_fixed]. rewrite <- app_assoc.
  assert ((be_val bs * 256 + b) / 16 = be_val bs * 16 + b / 16) as ->.
  { replace (be_val bs * 256 + b) with (b + be_val bs * 16 * 16) by lia. rewrite Z.div_add by lia. lia. }
  assert ((be_val bs * 16 + b / 16) / 16 = be_val bs) as ->.
  { rewrite Z.add_comm, Z.div_add by lia. rewrite (Z.div_small (b / 16)); [lia|].
    split; [apply Z.div_pos; lia|apply Z.div_lt_upper_bound; lia]. }
  f_equal. change 15 with (Z.ones 4). rewrite !Z.land_ones by lia. change (2 ^ 4) with 16.
  replace ((be_val bs * 16 + b / 16) mod 16) with ((b / 16) mod 16) by (by rewrite Z.add_comm, Z.mod_add by lia).
  replace ((be_val bs * 256 + b) mod 16) with (b mod 16) by (replace (be_val bs * 256 + b) with (b + be_val bs * 16 * 16) by lia; by rewrite Z.mod_add by lia).
  change (hex_dump [b]) with [hex2char (Z.land (b / 16) (Z.ones 4)); hex2char (Z.land b (Z.ones 4))]. by rewrite !Z.land_ones by lia.
Qed.

Lemma access_size_spec mem len :
  0 <= mem -> 0 < len < 2 ^ 31 -> exists w : nat, access_size mem len = Ok (Z.of_nat w) /\ (1 <= w <= 8)%nat /\ (Z.of_nat w | len).
Proof.
  intros Hm Hl. unfold access_size.
  assert (u32 (Z.lor len mem) <> 0) as Hz.
  { intros E. assert (Z.testbit (u32 (Z.lor len mem)) (Z.log2 len) = true) as Ht; [|by rewrite E, Z.bits_0 in Ht].
    pose proof (Z.log2_nonneg len). assert (Z.log2 len < 32) by (apply Z.log2_lt_pow2; lia).
    unfold u32. rewrite Z.mod_pow2_bits_low, Z.lor_spec, Z.bit_log2 by lia. done. }
  destruct (ffs_spec _ Hz) as (Hr & _ & Hlow). set (k := ffs _ - 1) in *.
  assert (2 ^ k | len) as Hdiv.
  { apply low_bits_divide; [lia..|]. intros j Hj. specialize (Hlow j Hj). rewrite Z.lor_spec in Hlow. by apply orb_false_iff in Hlow as [? _]. }
  destruct (Z.leb_spec 0 k), (Z.ltb_spec k 64); try lia. cbn [andb]. rewrite shl64_one by lia.
  destruct (Z.ltb_spec 8 (2 ^ k)) as [H8|H8].
  - exists 8%nat. split; [done|]. split; [lia|]. transitivity (2 ^ k); [|done].
    assert (3 <= k) by (destruct (Z.lt_ge_cases k 3); [|done]; assert (2 ^ k <= 2 ^ 3) by (apply Z.pow_le_mono_r; lia); lia).
    exists (2 ^ (k - 3)). change (Z.of_nat 8) with (2 ^ 3). rewrite <- Z.pow_add_r by lia. f_equal. lia.
  - pose proof (Z.pow_pos_nonneg 2 k). exists (Z.to_nat (2 ^ k)). rewrite Z2Nat.id by lia. split; [done|]. split; [lia|done].
Qed.

Lemma load_n_range w m a : bytes_ok m -> 0 <= load_n w m a < 16 ^ Z.of_nat (2 * w).
Proof.
  intros Hm. pose proof (be_val_range (copy_in m a (Z.of_nat w)) (Forall_copy_in m a _ Hm)) as H.
  rewrite length_copy_in, Nat2Z.id in H. replace (Z.of_nat (2 * w)) with (2 * Z.of_nat w) by lia. rewrite Z.pow_mul_r by lia. exact H.
Qed.

Lemma mem_out_spec m mem len (w : nat) :
  bytes_ok m -> (1 <= w <= 8)%nat -> 0 <= mem -> mem + len <= 2 ^ 64 -> len < 2 ^ 64 ->
  forall k fuel s p n j, holding s p n -> (k <= fuel)%nat -> len = Z.of_nat (j + k) * Z.of_nat w -> (2 * w * k < n)%nat ->
  exists s', mem_out fuel s (load_n w m) mem len (Z.of_nat w) (Z.of_nat j * Z.of_nat w) = Ok s' /\
    holding s' (p ++ hex_dump (copy_in m (mem + Z.of_nat j * Z.of_nat w) (Z.of_nat k * Z.of_nat w))) (n - 2 * w * k) /\ same_link s s'.
Proof.
  intros Hm Hw Hmem Hend Hlen. induction k as [|k IH]; intros fuel s p n j Hs Hf El Hn.
  - exists s. assert (mem_out fuel s (load_n w m) mem len (Z.of_nat w) (Z.of_nat j * Z.of_nat w) = Ok s) as ->.
    { destruct fuel; cbn [mem_out]; destruct (Z.ltb_spec (Z.of_nat j * Z.of_nat w) len); try done; lia. }
    change (copy_in m _ (Z.of_nat 0 * Z.of_nat w)) with (@nil Z). rewrite app_nil_r, Nat.mul_0_r, Nat.sub_0_r. done.
  - destruct fuel as [|fuel]; [lia|]. cbn [mem_out].
    assert (Z.of_nat j * Z.of_nat w + Z.of_nat w <= len) as Hj by nia. assert (0 <= Z.of_nat j * Z.of_nat w) by nia.
    destruct (Z.ltb_spec (Z.of_nat j * Z.of_nat w) len); [|lia]. rewrite !add64_small by lia.
    destruct (write_hex_field s p n (load_n w m (mem + Z.of_nat j * Z.of_nat w)) (2 * w)) as (s1 & E1 & H1 & L1); [done|by apply load_n_range|lia|nia|].
    replace (Z.of_nat (2 * w)) with (Z.of_nat w * 2) in E1 by lia. rewrite E1. cbn [res_bind].
    replace (Z.of_nat j * Z.of_nat w + Z.of_nat w) with (Z.of_nat (S j) * Z.of_nat w) by lia.
    destruct (IH fuel s1 _ _ (S j) H1) as (s2 & E2 & H2 & L2); [lia|rewrite El; f_equal; lia|nia|].
    exists s2. split; [done|]. split; [|by eapply same_link_trans].
    replace (n - 2 * w * S k)%nat with (n - 2 * w - 2 * w * k)%nat by lia. rewrite <- app_assoc in H2.
    replace (Z.of_nat (S k) * Z.of_nat w) with (Z.of_nat w + Z.of_nat k * Z.of_nat w) by lia. rewrite copy_in_app, hex_dump_app by lia.
    rewrite <- (hex_fixed_bytes (copy_in m _ (Z.of_nat w))) by by apply Forall_copy_in. rewrite length_copy_in, Nat2Z.id.
    replace (mem + Z.of_nat j * Z.of_nat w + Z.of_nat w) with (mem + Z.of_nat (S j) * Z.of_nat w) by lia. exact H2.
Qed.

Section Properties.
Context (io_in_sz : list (Z * Z * Z) -> Z -> Z -> Z).

Lemma mem_dump_spec wo s p n mem len :
  holding s p n -> bytes_ok (wmem wo) -> 0 <= mem -> mem + len <= 2 ^ 64 -> Z.testbit mem LOG_MAXPHYS = false ->
  0 < len -> 2 * len < Z.of_nat n -> Z.of_nat n <= GDB_PGSIZE ->
  exists s', gdb_write_to_packet_mem io_in_sz wo s mem len = Ok (len, s') /\
    holding s' (p ++ hex_dump (copy_in (wmem wo) mem len)) (n - Z.to_nat (2 * len)) /\ same_link s s'.
Proof.
  intros Hs Hm Hmem Hend Hdev Hlen Hn Hn4. change GDB_PGSIZE with 4096 in Hn4. unfold gdb_write_to_packet_mem, gdb_write_to_packet_mem_hv. rewrite Hdev.
  cbn [res_bind]. destruct (Z.eqb_spec 0 len); [lia|].
  destruct (access_size_spec mem len) as (w & -> & Hw & [k Hk]); [lia..|]. cbn [res_bind]. rewrite Nat2Z.id.
  assert (0 < k) by nia. assert (k <= len) by nia.
  assert (2 * w * Z.to_nat k = Z.to_nat (2 * len))%nat as Ek by (apply Nat2Z.inj; rewrite !Nat2Z.inj_mul, !Z2Nat.id by lia; lia).
  destruct (mem_out_spec (wmem wo) mem len w Hm Hw Hmem Hend ltac:(lia) (Z.to_nat k) mem_fuel s p n 0 Hs) as (s' & E & H' & L).
  { unfold mem_fuel. change (Z.to_nat GDB_PGSIZE) with 4096%nat. lia. } { rewrite Nat.add_0_l, Z2Nat.id by lia. done. } { lia. }
  change (Z.of_nat 0 * Z.of_nat w) with 0 in *. rewrite E. cbn [res_bind]. exists s'. split; [done|].
  rewrite Z2Nat.id, <- Hk, Z.add_0_r, Ek in H' by lia. done.
Qed.

(** What the stub sends for [m] is a bytewise dump: for any range of ordinary memory that fits a packet, and
    whatever access width its address and length allow, the reply holds the two digits of every byte in the
    order of their addresses, so the wide big-endian loads cannot be told from byte loads, and the packet's
    buffer is not overrun. *)
Theorem mem_dump_bytewise wo s mem len :
  holding s [] 4095 -> bytes_ok (wmem wo) -> 0 <= mem -> mem + len <= 2 ^ 64 -> Z.testbit mem LOG_MAXPHYS = false -> 0 < len <= 2046 ->
  exists s', gdb_write_to_packet_mem io_in_sz wo s mem len = Ok (len, s') /\
    holding s' (hex_dump (copy_in (wmem wo) mem len)) (4095 - Z.to_nat (2 * len)) /\ same_link s s' /\
    (forall r, rx s' = [PLUS] :: r -> exists s'', send_packet s' = Ok s'' /\ tx s'' = tx s ++ [packet (hex_dump (copy_in (wmem wo) mem len))]).
Proof.
  intros Hs Hm Hmem Hend Hdev Hlen. destruct (mem_dump_spec wo s [] 4095 mem len) as (s' & E & H & L); try done; [lia..|].
  exists s'. split_and!; try done. intros r Hr. destruct (send_holding s' _ _ r H) as (s'' & Es & Ht & _); [lia|done|].
  exists s''. split; [done|]. rewrite Ht. by destruct L as (_ & _ & _ & _ & ->).
Qed.

End Properties.

(** C28: the registers a debugger reads with [g] are the registers it sets with [G]: the array the stub writes
    takes 1112 characters, fits the packet, contains no character that would break the packet's framing, and
    when it is read back, whatever follows it, restores all 32 general registers, the program counter, the
    state, condition, link, count and exception registers, and no other field of the saved state. *)
Theorem registers_roundtrip s st :
  holding s [] 4095 -> wf_cpu st ->
  exists s' p, gdb_write_to_packet_reg_array s st = Ok s' /\ length p = 1112%nat /\ holding s' p (4095 - 1112) /\ same_link s s' /\
    Forall (fun c => c <> 0 /\ c <> HASH) p /\
    (forall st' rest, gdb_read_reg_array st' (cstr p rest) = Ok (take_regs st st')).
Proof.
  intros Hs Hst. pose proof (length_reg_fields st) as El. specialize (El ltac:(apply Hst)).
  destruct (write_hexes_spec (reg_fields st) s [] 4095 Hs) as (s' & E & H & L); [by apply reg_fields_fit|rewrite El; lia|].
  exists s', (fields (reg_fields st)). rewrite El in H. split_and!; try done; [apply fields_chars|].
  intros st' rest. by apply read_reg_array_spec.
Qed.

(** ** Sessions *)
Definition idle_stub : gdb := Gdb (replicate 4096 0) 0 0 (DOLLAR :: 0 :: replicate 4094 0) 1 0 0 [] [].
Definition demo_cpu : cpu_state := CpuState (Z.of_nat <$> seq 0 32) 0x1000 MSR_SE 0x22000000 0x20000000 7 0xc000 1 2 3 4 5 6.
Definition demo_world : world := World (fun a => a mod 256) [].

Lemma idle_holding : holding idle_stub [] 4095.
Proof. exists (0 :: replicate 4094 0). split_and!; done. Qed.

Lemma mem_dump_bytewise_witness :
  exists s', gdb_write_to_packet_mem (fun _ _ _ => 0) demo_world idle_stub 0x1008 12 = Ok (12, s') /\
    holding s' (hex_dump (copy_in (wmem demo_world) 0x1008 12)) (4095 - Z.to_nat (2 * 12)) /\ same_link idle_stub s' /\
    (forall r, rx s' = [PLUS] :: r -> exists s'', send_packet s' = Ok s'' /\ tx s'' = [] ++ [packet (hex_dump (copy_in (wmem demo_world) 0x1008 12))]).
Proof.
  apply (mem_dump_bytewise (fun _ _ _ => 0) demo_world idle_stub 0x1008 12);
    [apply idle_holding|intros a; apply Z.mod_pos_bound; lia|lia|lia|done|lia].
Defined.

Lemma registers_roundtrip_witness :
  exists s' p, gdb_write_to_packet_reg_array idle_stub demo_cpu = Ok s' /\ length p = 1112%nat /\ holding s' p (4095 - 1112) /\ same_link idle_stub s' /\
    Forall (fun c => c <> 0 /\ c <> HASH) p /\
    (forall st' rest, gdb_read_reg_array st' (cstr p rest) = Ok (take_regs demo_cpu st')).
Proof.
  apply (registers_roundtrip idle_stub demo_cpu); [apply idle_holding|]. unfold wf_cpu, is_u64.
  split; [done|]. split; [|split_and!; vm_compute; (done || congruence)]. apply Forall_fmap, Forall_seq. intros j Hj. cbn in *. lia.
Defined.

(** The debugger reads a word and lets the program go on. *)
Definition session (pieces : list (list Z)) : res dbg :=
  enter_gdb 0 0x7fe00008 (fun _ _ _ => 0) (Dbg demo_cpu demo_world (set_rx idle_stub pieces) 0 0) 0x300.

Example session_continues :
  exists x, session [[PLUS]; packet [109; 49; 48; 44; 52]; [PLUS]; packet [99]] = Ok x /\
    tx (stub x) = [packet [83; 48; 98]; [PLUS]; packet [49; 48; 49; 49; 49; 50; 49; 51]; [PLUS]] /\
    ps (dcpu x) = 0 /\ active x = 0 /\ connected x = 1.
Proof. eexists. split; [vm_compute; reflexivity|]. vm_compute. done. Qed.

(** [M] of more than one unit: the second unit's digits are taken from the middle of the first's. *)
Definition sixteen_bytes : list Z := cstr (hex_dump [0; 0x11; 0x22; 0x33; 0x44; 0x55; 0x66; 0x77; 0x88; 0x99; 0xaa; 0xbb; 0xcc; 0xdd; 0xee; 0xff]) [].
Example write_mem_misreads :
  exists w, gdb_write_mem demo_world 0x1000 16 sixteen_bytes = Ok (16, w) /\
    load64 (wmem w) 0x1000 = 0x0011223344556677 /\ load64 (wmem w) 0x1008 = 0x445566778899aabb.
Proof. eexists. split; [vm_compute; reflexivity|]. by vm_compute. Qed.

(** A debugger that asks for more than a packet holds makes the stub write past its buffer. *)
Example read_mem_overruns : gdb_write_to_packet_mem (fun _ _ _ => 0) demo_world idle_stub 0x1000 4096 = Fault Out_of_bounds.
Proof. by vm_compute. Qed.
