(* ===== verification/X86Vm.v ===== *)
(** * X86Vm: the hypervisor's own mappings on x86, and copying through them

    [hype/x86/vm.c] (mapping, address translation) and [hype/x86/imemcpy.c].  On this port
    [uval] has 32 bits, the hypervisor occupies the top 64 megabytes of every address
    space, and a partition's page is reached through a window that [hv_map] moves. *)

From S2P Require Import Prelude Bitmap PgAlloc Imemcpy.

(** ** Words and page-table entries *)
Definition add32 (a b : Z) : Z := u32 (a + b).
Definition sub32 (a b : Z) : Z := u32 (a - b).
Definition ONES32 : Z := 2 ^ 32 - 1.

Definition LOG_PDSIZE : Z := 22.
Definition LPGSIZE : Z := 2 ^ LOG_PDSIZE.
Definition PDE_MASK : Z := 0xFFC00000.
Definition PTE_MASK : Z := 0x003FF000.
Definition PTE_P : Z := 0x1.
Definition PTE_RW : Z := 0x2.
Definition PTE_US : Z := 0x4.
Definition PTE_A : Z := 0x20.
Definition PTE_D : Z := 0x40.
Definition PTE_PS : Z := 0x80.
Definition PTE_FLAGS : Z := 0xFFF.
Definition PTE_SMALLBASE : Z := not32 PTE_FLAGS.
Definition PTE_LARGEBASE : Z := 0xFFC00000.
Definition pte_flags (e : Z) : Z := Z.land e PTE_FLAGS.
Definition pte_pageaddr (e : Z) : Z := Z.land e PTE_SMALLBASE.

(** [(vaddr & PDE_MASK) >> LOG_PDSIZE] and [(vaddr & PTE_MASK) >> LOG_PGSIZE] *)
Definition pdi_of (vaddr : Z) : Z := Z.shiftr (Z.land vaddr PDE_MASK) LOG_PDSIZE.
Definition pti_of (vaddr : Z) : Z := Z.shiftr (Z.land vaddr PTE_MASK) LOG_PGSIZE.

(** A bit of an entry. *)
Definition has (e bit : Z) : bool := truth (Z.land e bit).

Definition HV_VBASE : Z := 0xFC000000.
Definition HV_VSIZE : Z := 2 ^ 32 - HV_VBASE.
Definition INVALID_VIRTUAL_ADDRESS : Z := ONES32.

(** The hypervisor's page tables, by directory and table index, and memory. *)
Record hvmm : Type := Hvmm { hpt : gmap (Z * Z) Z; hmem : pmem }.

Section Vm.

(** [hv_pgd], whose entries do not change. *)
Variable hv_pgd : Z -> Z.

Definition virtual (paddr : Z) : res Z := cassert (paddr <? HV_VSIZE) (Ok (add32 paddr HV_VBASE)).

(** [pgtab[pti]], [pgtab] being where the directory entry points. *)
Definition pgtab_of (pdi : Z) : res Z := virtual (Z.land (hv_pgd pdi) PTE_SMALLBASE).

(** The two loops of [hv_map], a page at a time. *)
Fixpoint map_pages (n : nat) (t : gmap (Z * Z) Z) (pdi pti paddr flags : Z) : res (gmap (Z * Z) Z) :=
  match n with
  | O => Ok t
  | S n =>
      cassert (has (hv_pgd pdi) PTE_P)
        (cassert (negb (has (hv_pgd pdi) PTE_PS))
           (let! _ := pgtab_of pdi in
            let t := <[(pdi, pti) := Z.lor (Z.lor (u32 paddr) PTE_P) flags]> t in
            if pti + 1 <? 1024 then map_pages n t pdi (pti + 1) (paddr + PGSIZE) flags
            else map_pages n t (pdi + 1) 0 (paddr + PGSIZE) flags))
  end.

(** [get_pages] is asked for [fresh] when no address is given. *)
Definition hv_map (s : hvmm) (fresh vaddr paddr size flags : Z) : res (Z * hvmm) :=
  let vaddr' := if vaddr =? 0 then fresh else vaddr in
  if (vaddr =? 0) && (fresh =? ONES32) then Ok (ONES32, s)
  else
    cassert (Z.land vaddr' (PGSIZE - 1) =? 0)
      (cassert (Z.land paddr (PGSIZE - 1) =? 0)
         (cassert ((HV_VBASE <=? vaddr') && (vaddr' <=? HV_VBASE + HV_VSIZE - 1))
            (let! t := map_pages (Z.to_nat ((size + PGSIZE - 1) / PGSIZE)) (hpt s) (pdi_of vaddr') (pti_of vaddr') paddr flags in
             Ok (vaddr', Hvmm t (hmem s))))).

(** The mapping of [hv_unmap]; what it frees goes back to the page allocator. *)
Definition hv_unmap (s : hvmm) (vaddr size : Z) : res hvmm :=
  let! r := hv_map s 0 vaddr (sub32 vaddr HV_VBASE) size PTE_RW in
  Ok (snd r).

Definition physical (s : hvmm) (vaddr : Z) : res Z :=
  let pdi := pdi_of vaddr in
  let pde := hv_pgd pdi in
  if (vaddr <? HV_VBASE) || (HV_VBASE + HV_VSIZE - 1 <? vaddr) then Ok INVALID_VIRTUAL_ADDRESS
  else if negb (has pde PTE_P) then Ok INVALID_VIRTUAL_ADDRESS
  else if has pde PTE_PS then Ok (Z.lor (Z.land pde PTE_LARGEBASE) (Z.land vaddr (not32 PTE_LARGEBASE)))
  else
    let! _ := pgtab_of pdi in
    let pte := default 0 (hpt s !! (pdi, pti_of vaddr)) in
    if negb (has pte PTE_P) then Ok INVALID_VIRTUAL_ADDRESS
    else Ok (Z.lor (Z.land pte PTE_SMALLBASE) (Z.land vaddr (not32 PTE_SMALLBASE))).

(** ** Copying *)

(** What the processor does with an access of the hypervisor's: a page that is not mapped
    faults, which [page_fault] answers with a failed [assert]. *)
Definition hv_addr (s : hvmm) (va : Z) : res Z :=
  let! pa := physical s va in
  check! negb (pa =? INVALID_VIRTUAL_ADDRESS) else Assert_failed in
  Ok pa.

(** [memcpy] out of and into a window, and [memset] of it. *)
Fixpoint window_read (s : hvmm) (va : Z) (n : nat) : res (list Z) :=
  match n with
  | O => Ok []
  | S n =>
      let! pa := hv_addr s va in
      let! bs := window_read s (va + 1) n in
      Ok (hmem s pa :: bs)
  end.

Fixpoint window_write (s : hvmm) (va : Z) (bs : list Z) : res hvmm :=
  match bs with
  | [] => Ok s
  | b :: bs =>
      let! pa := hv_addr s va in
      window_write (Hvmm (hpt s) (fun a => if a =? pa then b else hmem s a)) (va + 1) bs
  end.

Definition COPY_BUFSIZE : Z := 16 * PGSIZE.

(** [copybuf1] and [copybuf2]. *)
Variables copybuf1 copybuf2 : Z.

Definition misaligned (a : Z) : Z := a - a / PGSIZE * PGSIZE.
Definition page_up (n : Z) : Z := (n + PGSIZE - 1) / PGSIZE * PGSIZE.

(** Each round copies at least one byte. *)
Fixpoint copy_in_loop (fuel : nat) (s : hvmm) (cs n mis : Z) : res (list Z * hvmm) :=
  if 0 <? n then
    match fuel with
    | O => Fault Out_of_fuel
    | S fuel =>
        let nbytes := Z.min (COPY_BUFSIZE - mis) n in
        let map_size := page_up (nbytes + mis) in
        let! r := hv_map s 0 copybuf2 (cs - mis) map_size PTE_RW in
        let s := snd r in
        let! bs := window_read s (copybuf2 + mis) (Z.to_nat nbytes) in
        let! r := copy_in_loop fuel s (cs + nbytes) (n - nbytes) 0 in
        Ok (bs ++ fst r, snd r)
    end
  else Ok ([], s).

Definition copy_in (s : hvmm) (src n : Z) : res (list Z * hvmm) :=
  cassert (negb (copybuf2 =? ONES32)) (copy_in_loop (Z.to_nat n) s src n (misaligned src)).

(** [copy_out] and [zero_mem]: the size that is mapped leaves out where in the page it begins. *)
Fixpoint copy_out_loop (fuel : nat) (s : hvmm) (cd : Z) (bs : list Z) (mis : Z) : res hvmm :=
  match bs with
  | [] => Ok s
  | _ =>
      match fuel with
      | O => Fault Out_of_fuel
      | S fuel =>
          let nbytes := Z.min (COPY_BUFSIZE - mis) (Z.of_nat (length bs)) in
          let! r := hv_map s 0 copybuf1 (cd - mis) (page_up nbytes) PTE_RW in
          let! s := window_write (snd r) (copybuf1 + mis) (take (Z.to_nat nbytes) bs) in
          copy_out_loop fuel s (cd + nbytes) (drop (Z.to_nat nbytes) bs) 0
      end
  end.

Definition copy_out (s : hvmm) (dest : Z) (bs : list Z) : res hvmm :=
  cassert (negb (copybuf1 =? ONES32)) (copy_out_loop (length bs) s dest bs (misaligned dest)).

Definition zero_mem (s : hvmm) (dest n : Z) : res hvmm :=
  cassert (negb (copybuf1 =? ONES32)) (copy_out_loop (Z.to_nat n) s dest (replicate (Z.to_nat n) 0) (misaligned dest)).

Fixpoint copy_mem_loop (fuel : nat) (s : hvmm) (cd cs n : Z) : res hvmm :=
  if 0 <? n then
    match fuel with
    | O => Fault Out_of_fuel
    | S fuel =>
        let mis_src := misaligned cs in
        let mis_dest := misaligned cd in
        let size := Z.min (COPY_BUFSIZE - mis_src) n in
        let size := Z.min (COPY_BUFSIZE - mis_dest) size in
        let! r := hv_map s 0 copybuf1 (cs - mis_src) (page_up size) PTE_RW in
        let! r := hv_map (snd r) 0 copybuf2 (cd - mis_dest) (page_up size) PTE_RW in
        let s := snd r in
        let! bs := window_read s (copybuf1 + mis_src) (Z.to_nat size) in
        let! s := window_write s (copybuf2 + mis_dest) bs in
        copy_mem_loop fuel s (cd + size) (cs + size) (n - size)
    end
  else Ok s.

Definition copy_mem (s : hvmm) (dest src n : Z) : res hvmm :=
  cassert (negb (copybuf1 =? ONES32)) (cassert (negb (copybuf2 =? ONES32)) (copy_mem_loop (Z.to_nat n) s dest src n)).

End Vm.

(** ** Windows *)

(** Every directory entry of the hypervisor's points to one of its page tables. *)
Definition hv_pgd_ok (hv_pgd : Z -> Z) : Prop :=
  forall pdi, 1008 <= pdi < 1024 ->
    has (hv_pgd pdi) PTE_P = true /\ has (hv_pgd pdi) PTE_PS = false /\ Z.land (hv_pgd pdi) PTE_SMALLBASE < HV_VSIZE.

(** The place of a page's entry. *)
Definition slot (vpn : Z) : Z * Z := (vpn / 1024, vpn mod 1024).

Lemma slot_inj a b : slot a = slot b -> a = b.
Proof. unfold slot. intros [= H1 H2]. rewrite (Z.div_mod a 1024), (Z.div_mod b 1024) by lia. lia. Qed.

(** Masking off low bits of a 32-bit word, and keeping them. *)
Lemma land_high x k : is_u32 x -> 0 <= k <= 32 -> Z.land x (2 ^ 32 - 2 ^ k) = x / 2 ^ k * 2 ^ k.
Proof.
  intros Hx Hk. rewrite <- Z.shiftr_div_pow2, <- Z.shiftl_mul_pow2, <- Z.ldiff_ones_r by lia.
  replace (2 ^ 32 - 2 ^ k) with (Z.ldiff (Z.ones 32) (Z.ones k)).
  { apply Z.bits_inj'. intros j Hj. rewrite Z.land_spec, !Z.ldiff_spec, !Z.testbit_ones_nonneg by lia.
    destruct (Z.ltb_spec j 32); [done|]. by rewrite (testbit_high x 32) by (done || lia). }
  rewrite Z.ldiff_ones_r, Z.shiftl_mul_pow2, Z.shiftr_div_pow2, Z.ones_equiv by lia.
  replace (Z.pred (2 ^ 32)) with ((2 ^ (32 - k) - 1) * 2 ^ k + (2 ^ k - 1)).
  - rewrite Z.div_add_l by (pose proof (Z.pow_pos_nonneg 2 k); lia). rewrite Z.div_small by (pose proof (Z.pow_pos_nonneg 2 k); lia).
    rewrite Z.add_0_r, Z.mul_sub_distr_r, <- Z.pow_add_r by lia. f_equal; [f_equal|]; lia.
  - rewrite Z.mul_sub_distr_r, <- Z.pow_add_r by lia. replace (32 - k + k) with 32 by lia. lia.
Qed.

Lemma land_low x k : 0 <= k -> Z.land x (2 ^ k - 1) = x mod 2 ^ k.
Proof. intros Hk. rewrite <- Z.land_ones by done. f_equal. rewrite Z.ones_equiv. lia. Qed.

Lemma slot_of va : is_u32 va -> (pdi_of va, pti_of va) = slot (va / PGSIZE).
Proof.
  intros Hva. unfold pdi_of, pti_of, slot. rewrite !Z.shiftr_div_pow2 by done. f_equal.
  - change PDE_MASK with (2 ^ 32 - 2 ^ 22). rewrite land_high by (done || lia). change LOG_PDSIZE with 22. rewrite Z.div_mul by lia.
    rewrite Z.div_div by done. done.
  - change PTE_MASK with (Z.land (2 ^ 22 - 1) (2 ^ 32 - 2 ^ 12)). rewrite Z.land_assoc, land_low by lia. change LOG_PGSIZE with 12.
    pose proof (Z.mod_pos_bound va (2 ^ 22) ltac:(lia)). rewrite land_high, Z.div_mul by (unfold is_u32; lia).
    change PGSIZE with (2 ^ 12). change (2 ^ 22) with (2 ^ 12 * 1024). rewrite Z.rem_mul_r, Z.mul_comm, Z.div_add by lia.
    rewrite (Z.div_small (va mod _)) by (apply Z.mod_pos_bound; lia). lia.
Qed.

Lemma lor_page pa f : (PGSIZE | pa) -> 0 <= f < PGSIZE -> Z.lor pa f = pa + f.
Proof.
  intros [q ->] Hf. pose proof (Z.add_lor_land (q * PGSIZE) f) as H.
  assert (Z.land (q * PGSIZE) f = 0) as E; [|lia]. change PGSIZE with (2 ^ 12). rewrite <- Z.shiftl_mul_pow2 by lia.
  apply Z.bits_inj_0. intros j. destruct (Z.lt_ge_cases j 0); [by rewrite Z.testbit_neg_r|].
  rewrite Z.land_spec, Z.shiftl_spec by lia. destruct (Z.lt_ge_cases j 12).
  - by rewrite Z.testbit_neg_r by lia.
  - by rewrite (testbit_high f 12), andb_false_r by (done || lia).
Qed.

Lemma page_entry pa f :
  (PGSIZE | pa) -> is_u32 pa -> 0 <= f < PGSIZE -> Z.lor (Z.lor pa PTE_P) f = pa + Z.lor PTE_P f /\ is_u32 (pa + Z.lor PTE_P f) /\
  pte_pageaddr (pa + Z.lor PTE_P f) = pa /\ has (pa + Z.lor PTE_P f) PTE_P = true.
Proof.
  intros Hd Hpa Hf. assert (0 <= Z.lor PTE_P f < PGSIZE) as Hl.
  { change PGSIZE with (2 ^ 12) in *. split; [apply Z.lor_nonneg; split; [done|lia]|]. apply Z.log2_lt_cancel. rewrite Z.log2_lor by (done || lia).
    change (Z.log2 (2 ^ 12)) with 12. destruct (Z.eq_dec f 0) as [->|]; [done|]. apply Z.max_lub_lt; [done|]. apply Z.log2_lt_pow2; lia. }
  assert (is_u32 (pa + Z.lor PTE_P f)) as Hu.
  { destruct Hd as [q ->]. unfold is_u32 in *. change PGSIZE with (2 ^ 12) in *. change (2 ^ 32) with (2 ^ 20 * 2 ^ 12) in *. nia. }
  rewrite <- Z.lor_assoc, lor_page by done. split_and!; try done; try apply Hu.
  - unfold pte_pageaddr. change PTE_SMALLBASE with (2 ^ 32 - 2 ^ 12). rewrite land_high by (done || lia).
    destruct Hd as [q ->]. change PGSIZE with (2 ^ 12) in *. rewrite Z.add_comm, Z.div_add, Z.div_small by lia. lia.
  - rewrite <- lor_page by done. unfold has. apply truth_true. intros E. assert (Z.testbit (Z.land (Z.lor pa (Z.lor PTE_P f)) PTE_P) 0 = false) as E'.
    { by rewrite E, Z.bits_0. } rewrite Z.land_spec, !Z.lor_spec in E'. by rewrite orb_true_r in E'.
Qed.

Section Windows.
Context (hv_pgd : Z -> Z) (Hpgd : hv_pgd_ok hv_pgd).

Lemma map_pages_spec flags n : forall t vpn pa,
  1008 * 1024 <= vpn -> vpn + Z.of_nat n <= 2 ^ 20 ->
  exists t', map_pages hv_pgd n t (vpn / 1024) (vpn mod 1024) pa flags = Ok t' /\
    (forall k, 0 <= k < Z.of_nat n -> t' !! slot (vpn + k) = Some (Z.lor (Z.lor (u32 (pa + k * PGSIZE)) PTE_P) flags)) /\
    (forall q, q < vpn \/ vpn + Z.of_nat n <= q -> t' !! slot q = t !! slot q).
Proof.
  induction n as [|n IH]; intros t vpn pa Hv Hn; cbn [map_pages].
  - exists t. split_and!; try done. lia.
  - assert (1008 <= vpn / 1024 < 1024) as Hp by (split; [apply Z.div_le_lower_bound; lia|apply Z.div_lt_upper_bound; lia]).
    destruct (Hpgd _ Hp) as (HP & HS & Hb). unfold cassert. rewrite HP, HS. cbn [negb]. unfold pgtab_of, virtual, cassert.
    destruct (Z.ltb_spec (Z.land (hv_pgd (vpn / 1024)) PTE_SMALLBASE) HV_VSIZE); [|lia]. cbn [res_bind].
    set (t1 := <[(vpn / 1024, vpn mod 1024) := _]> t).
    destruct (IH t1 (vpn + 1) (pa + PGSIZE)) as (t' & E & H1 & H2); [lia..|].
    assert (map_pages hv_pgd n t1 ((vpn + 1) / 1024) ((vpn + 1) mod 1024) (pa + PGSIZE) flags =
            if vpn mod 1024 + 1 <? 1024 then map_pages hv_pgd n t1 (vpn / 1024) (vpn mod 1024 + 1) (pa + PGSIZE) flags
            else map_pages hv_pgd n t1 (vpn / 1024 + 1) 0 (pa + PGSIZE) flags) as Estep.
    { pose proof (Z.div_mod vpn 1024 ltac:(lia)). pose proof (Z.mod_pos_bound vpn 1024 ltac:(lia)).
      destruct (Z.ltb_spec (vpn mod 1024 + 1) 1024).
      - f_equal; [symmetry; apply Z.div_unique with (vpn mod 1024 + 1)|symmetry; apply Z.mod_unique with (vpn / 1024)]; lia.
      - f_equal; [symmetry; apply Z.div_unique with 0|symmetry; apply Z.mod_unique with (vpn / 1024 + 1)]; lia. }
    rewrite <- Estep. exists t'. split; [exact E|]. split.
    + intros k Hk. destruct (Z.eq_dec k 0) as [->|].
      * rewrite H2 by lia. subst t1. rewrite Z.add_0_r, Z.mul_0_l, Z.add_0_r. apply lookup_insert_eq.
      * replace (vpn + k) with (vpn + 1 + (k - 1)) by lia. rewrite H1 by lia. do 4 f_equal. lia.
    + intros q Hq. rewrite H2 by lia. subst t1. apply lookup_insert_ne. intros Es%slot_inj. lia.
Qed.

(** A buffer of [COPY_BUFSIZE] bytes of the hypervisor's. *)
Definition buf_ok (buf : Z) : Prop := (PGSIZE | buf) /\ HV_VBASE <= buf /\ buf + COPY_BUFSIZE <= 2 ^ 32 - PGSIZE.

(** [buf] shows [size] bytes of memory from [pa] on. *)
Definition shows (s : hvmm) (buf pa size : Z) : Prop :=
  forall off, 0 <= off < size -> hv_addr hv_pgd s (buf + off) = Ok (pa + off).

Lemma hv_addr_spec s va vpn pa :
  va / PGSIZE = vpn -> is_u32 va -> HV_VBASE <= va -> hpt s !! slot vpn = Some (pa + Z.lor PTE_P PTE_RW) ->
  (PGSIZE | pa) -> 0 <= pa -> pa + PGSIZE <= HV_VBASE -> hv_addr hv_pgd s va = Ok (pa + va mod PGSIZE).
Proof.
  intros Hq Hva Hb Hl Hd Hpa Hlt. unfold hv_addr, physical.
  assert (is_u32 pa) as Hu by (unfold is_u32, HV_VBASE in *; change PGSIZE with 4096 in *; lia).
  destruct (page_entry pa PTE_RW Hd Hu ltac:(done)) as (_ & Hpu & Hpg & Hpp).
  assert (1008 <= pdi_of va < 1024) as Hp.
  { pose proof (slot_of va Hva) as E. unfold slot in E. injection E as E _. rewrite E, Hq. subst vpn. rewrite Z.div_div by done.
    unfold is_u32, HV_VBASE in *. change (PGSIZE * 1024) with (2 ^ 22). split; [apply Z.div_le_lower_bound; lia|apply Z.div_lt_upper_bound; lia]. }
  destruct (Hpgd _ Hp) as (HP & HS & Hbase).
  destruct (Z.ltb_spec va HV_VBASE); [lia|]. change (HV_VBASE + HV_VSIZE - 1) with (2 ^ 32 - 1).
  destruct (Z.ltb_spec (2 ^ 32 - 1) va); [unfold is_u32 in Hva; lia|]. cbn [orb]. rewrite HP, HS. cbn [negb].
  unfold pgtab_of, virtual, cassert. destruct (Z.ltb_spec (Z.land (hv_pgd (pdi_of va)) PTE_SMALLBASE) HV_VSIZE); [|lia]. cbn [res_bind].
  rewrite (slot_of va Hva), Hq, Hl. cbv beta iota delta [from_option id]. rewrite Hpp. cbn [negb res_bind]. unfold pte_pageaddr in Hpg. rewrite Hpg.
  change (not32 PTE_SMALLBASE) with (2 ^ 12 - 1). rewrite land_low by lia. change (2 ^ 12) with PGSIZE.
  pose proof (Z.mod_pos_bound va PGSIZE ltac:(done)). rewrite lor_page by done.
  destruct (Z.eqb_spec (pa + va mod PGSIZE) INVALID_VIRTUAL_ADDRESS) as [E|]; [|done].
  unfold INVALID_VIRTUAL_ADDRESS, ONES32, HV_VBASE in *. lia.
Qed.

Lemma hv_map_window s buf pa size :
  buf_ok buf -> (PGSIZE | pa) -> 0 <= pa -> 0 <= size <= COPY_BUFSIZE -> pa + page_up size <= HV_VBASE ->
  exists s', hv_map hv_pgd s 0 buf pa size PTE_RW = Ok (buf, s') /\ hmem s' = hmem s /\ shows s' buf pa (page_up size).
Proof.
  intros (Hal & Hlo & Hhi) Hd Hpa Hs Hend. unfold hv_map. assert (0 < buf < 2 ^ 32) by (unfold HV_VBASE, COPY_BUFSIZE in *; change PGSIZE with 4096 in *; lia).
  destruct (Z.eqb_spec buf 0) as [|_]; [lia|]. cbn [andb]. change (PGSIZE - 1) with (2 ^ 12 - 1). rewrite !land_low by lia. change (2 ^ 12) with PGSIZE.
  rewrite (proj2 (Z.mod_divide buf PGSIZE ltac:(done)) Hal), (proj2 (Z.mod_divide pa PGSIZE ltac:(done)) Hd). cbn [cassert Z.eqb].
  unfold cassert. change (HV_VBASE + HV_VSIZE - 1) with (2 ^ 32 - 1).
  destruct (Z.leb_spec HV_VBASE buf), (Z.leb_spec buf (2 ^ 32 - 1)); try lia. cbn [andb].
  set (n := (size + PGSIZE - 1) / PGSIZE). assert (page_up size = n * PGSIZE) as Epu by done.
  assert (0 <= n <= 16) as Hn by (split; [apply Z.div_pos; [change PGSIZE with 4096; lia|done]|apply Z.lt_succ_r, Z.div_lt_upper_bound; [done|unfold COPY_BUFSIZE in *; change PGSIZE with 4096 in *; lia]]).
  destruct Hal as [q Hq].
  assert (is_u32 buf) as Hbu by (unfold is_u32; lia). pose proof (slot_of buf Hbu) as Es. unfold slot in Es. injection Es as -> ->.
  assert (buf / PGSIZE = q) as -> by (rewrite Hq; apply Z.div_mul; done).
  destruct (map_pages_spec PTE_RW (Z.to_nat n) (hpt s) q pa) as (t & -> & Ht & _); [unfold HV_VBASE, COPY_BUFSIZE in *; change PGSIZE with 4096 in *; lia..|].
  cbn [res_bind]. eexists. split; [reflexivity|]. split; [done|]. intros off Ho. rewrite Epu in *.
  set (k := off / PGSIZE). assert (0 <= k < n) as Hk by (split; [apply Z.div_pos; [lia|done]|apply Z.div_lt_upper_bound; [done|lia]]).
  pose proof (Z.div_mod off PGSIZE ltac:(done)) as Hdm. fold k in Hdm. pose proof (Z.mod_pos_bound off PGSIZE ltac:(done)) as Hm.
  assert ((PGSIZE | pa + k * PGSIZE)) as Hdk by (apply Z.divide_add_r; [done|apply Z.divide_factor_r]).
  assert (pa + k * PGSIZE + PGSIZE <= HV_VBASE) by (change PGSIZE with 4096 in *; lia).
  rewrite (hv_addr_spec _ (buf + off) (q + k) (pa + k * PGSIZE)); try done.
  - f_equal. rewrite Hq, (Z.add_comm (q * PGSIZE)), Z.mod_add by done. change PGSIZE with 4096 in *. lia.
  - rewrite Hq, (Z.add_comm (q * PGSIZE)), Z.div_add by done. fold k. lia.
  - unfold is_u32, COPY_BUFSIZE, HV_VBASE in *. change PGSIZE with 4096 in *. lia.
  - lia.
  - cbn [hpt]. rewrite Ht by lia. f_equal. rewrite u32_small by (unfold HV_VBASE in *; change PGSIZE with 4096 in *; lia).
    apply page_entry; [done| |done]. unfold is_u32, HV_VBASE in *. change PGSIZE with 4096 in *. lia.
  - change PGSIZE with 4096 in *. lia.
Qed.

Lemma window_read_spec s buf pa size : shows s buf pa size ->
  forall n off, 0 <= off -> off + Z.of_nat n <= size ->
  window_read hv_pgd s (buf + off) n = Ok (Imemcpy.copy_in (hmem s) (pa + off) (Z.of_nat n)).
Proof.
  intros Hs. induction n as [|n IH]; intros off Ho Hn; [done|]. cbn [window_read]. rewrite Hs by lia. cbn [res_bind].
  replace (buf + off + 1) with (buf + (off + 1)) by lia. rewrite IH by lia. cbn [res_bind]. f_equal.
  replace (Z.of_nat (S n)) with (1 + Z.of_nat n) by lia. rewrite copy_in_app by lia.
  replace (pa + (off + 1)) with (pa + off + 1) by lia. replace (Imemcpy.copy_in (hmem s) (pa + off) 1) with [hmem s (pa + off)]; [done|].
  unfold Imemcpy.copy_in. simpl. do 2 f_equal. lia.
Qed.

Lemma page_up_bounds n : 0 <= n -> n <= page_up n < n + PGSIZE /\ (PGSIZE | page_up n).
Proof.
  intros Hn. unfold page_up. split; [|apply Z.divide_factor_r].
  pose proof (Z.div_mod (n + PGSIZE - 1) PGSIZE ltac:(done)). pose proof (Z.mod_pos_bound (n + PGSIZE - 1) PGSIZE ltac:(done)). lia.
Qed.

Lemma misaligned_spec a : misaligned a = a mod PGSIZE.
Proof. unfold misaligned. pose proof (Z.div_mod a PGSIZE ltac:(done)). lia. Qed.

Lemma page_up_le n k : (PGSIZE | k) -> n <= k -> page_up n <= k.
Proof.
  intros [q ->] Hn. unfold page_up. apply Z.mul_le_mono_nonneg_r; [done|]. apply Z.lt_succ_r, Z.div_lt_upper_bound; [done|].
  change PGSIZE with 4096 in *. lia.
Qed.

Lemma copy_in_loop_spec copybuf2 : buf_ok copybuf2 ->
  forall fuel s cs n mis, (Z.to_nat n <= fuel)%nat -> 0 <= n -> 0 <= mis < PGSIZE -> (PGSIZE | cs - mis) -> 0 <= cs - mis -> cs + n <= HV_VBASE ->
  exists s', copy_in_loop hv_pgd copybuf2 fuel s cs n mis = Ok (Imemcpy.copy_in (hmem s) cs n, s') /\ hmem s' = hmem s.
Proof.
  intros Hb. induction fuel as [|fuel IH]; intros s cs n mis Hf Hn Hm Hd Hc He; cbn [copy_in_loop].
  { destruct (Z.ltb_spec 0 n); [lia|]. replace n with 0 by lia. by exists s. }
  destruct (Z.ltb_spec 0 n) as [Hpos|]; [|replace n with 0 by lia; by exists s].
  set (nb := Z.min (COPY_BUFSIZE - mis) n). assert (0 < nb <= n /\ nb + mis <= COPY_BUFSIZE) as [Hnb Hnm] by (unfold COPY_BUFSIZE in *; change PGSIZE with 4096 in *; lia).
  destruct (page_up_bounds (nb + mis)) as [Hpu _]; [lia|].
  assert (page_up (page_up (nb + mis)) = page_up (nb + mis)) as Eid.
  { unfold page_up at 1. destruct (page_up_bounds (nb + mis)) as [_ [q ->]]; [lia|]. replace (q * PGSIZE + PGSIZE - 1) with (PGSIZE - 1 + q * PGSIZE) by lia.
    rewrite Z.div_add by done. rewrite Z.div_small by done. lia. }
  assert (page_up (nb + mis) <= COPY_BUFSIZE) by (apply page_up_le; [by exists 16|lia]).
  destruct (hv_map_window s copybuf2 (cs - mis) (page_up (nb + mis)) Hb Hd Hc) as (s1 & -> & Hm1 & Hw); [lia| |].
  { rewrite Eid. assert (page_up (nb + mis) <= HV_VBASE - (cs - mis)); [|lia]. apply page_up_le; [|lia].
    apply Z.divide_sub_r; [by exists (HV_VBASE / PGSIZE)|done]. }
  rewrite Eid in Hw. cbn [res_bind snd].
  rewrite (window_read_spec s1 copybuf2 (cs - mis) _ Hw (Z.to_nat nb) mis) by lia. cbn [res_bind].
  replace (cs - mis + mis) with cs by lia. rewrite Z2Nat.id, Hm1 by lia.
  destruct (Z.eq_dec nb n) as [En|En].
  - rewrite En, Z.sub_diag. destruct fuel; cbn; eexists; (split; [rewrite app_nil_r; reflexivity|done]).
  - destruct (IH s1 (cs + nb) (n - nb) 0) as (s2 & -> & Hm2); [lia..| | |lia|].
    { assert (nb = COPY_BUFSIZE - mis) as -> by lia. replace (cs + (COPY_BUFSIZE - mis) - 0) with (cs - mis + COPY_BUFSIZE) by lia.
      apply Z.divide_add_r; [done|by exists 16]. } { lia. }
    cbn [res_bind fst snd]. exists s2. split; [|congruence]. rewrite Hm1, <- copy_in_app by lia. repeat f_equal. lia.
Qed.

(** Writing through a window writes the memory it shows. *)
Lemma window_write_spec bs : forall s buf pa size off,
  shows s buf pa size -> 0 <= off -> off + Z.of_nat (length bs) <= size ->
  exists s', window_write hv_pgd s (buf + off) bs = Ok s' /\ hpt s' = hpt s /\ forall a, hmem s' a = Imemcpy.copy_out (hmem s) (pa + off) bs a.
Proof.
  induction bs as [|b bs IH]; intros s buf pa size off Hs Ho Hl; cbn [window_write].
  - exists s. split_and!; try done. intros a. unfold Imemcpy.copy_out. cbn [length]. destruct (_ && _) eqn:E; [|done]. zbool; try done; lia.
  - rewrite Hs by (cbn [length] in Hl; lia). cbn [res_bind]. replace (buf + off + 1) with (buf + (off + 1)) by lia.
    edestruct (IH (Hvmm (hpt s) (fun a => if a =? pa + off then b else hmem s a)) buf pa size (off + 1)) as (s' & -> & Hp & Hm);
      [exact Hs|lia|cbn [length] in Hl; lia|]. exists s'. split_and!; try done. intros a. rewrite Hm. cbn [hmem].
    unfold Imemcpy.copy_out. cbn [length]. rewrite Nat2Z.inj_succ.
    destruct (Z.eqb_spec a (pa + off)) as [->|Hne].
    + destruct (Z.leb_spec (pa + (off + 1)) (pa + off)); [lia|]. destruct (Z.leb_spec (pa + off) (pa + off)); [|lia].
      destruct (Z.ltb_spec (pa + off) (pa + off + Z.succ (Z.of_nat (length bs)))); [|lia]. cbn [andb]. by rewrite Z.sub_diag.
    + zbool; try lia; try done. replace (Z.to_nat (a - (pa + off))) with (S (Z.to_nat (a - (pa + (off + 1))))) by lia. done.
Qed.

Lemma copy_out_split m m1 dest bs k a :
  (k <= length bs)%nat -> (forall a, m1 a = Imemcpy.copy_out m dest (take k bs) a) ->
  Imemcpy.copy_out m1 (dest + Z.of_nat k) (drop k bs) a = Imemcpy.copy_out m dest bs a.
Proof.
  intros Hk Hm. unfold Imemcpy.copy_out. rewrite Hm. unfold Imemcpy.copy_out. rewrite length_drop, length_take, Nat.min_l by done.
  zbool; try lia; try done.
  - by rewrite lookup_take_lt by lia.
  - rewrite lookup_drop. do 2 f_equal. lia.
Qed.

(** What is mapped for a piece of [n] bytes, [mis] bytes into a page, covers the piece. *)
Definition mapped_whole (mis n : Z) : Prop :=
  mis + Z.min (COPY_BUFSIZE - mis) n <= page_up (Z.min (COPY_BUFSIZE - mis) n).

Lemma mapped_whole_aligned n : 0 <= n -> mapped_whole 0 n.
Proof. intros Hn. unfold mapped_whole. apply (page_up_bounds (Z.min _ n)). unfold COPY_BUFSIZE. change PGSIZE with 4096. lia. Qed.

(** One piece. *)
Lemma copy_piece copybuf1 s cd mis bs :
  buf_ok copybuf1 -> 0 <= mis < PGSIZE -> (PGSIZE | cd - mis) -> 0 <= cd - mis -> cd + Z.of_nat (length bs) <= HV_VBASE ->
  0 < Z.of_nat (length bs) -> mis + Z.of_nat (length bs) <= COPY_BUFSIZE -> mis + Z.of_nat (length bs) <= page_up (Z.of_nat (length bs)) ->
  exists r s2, hv_map hv_pgd s 0 copybuf1 (cd - mis) (page_up (Z.of_nat (length bs))) PTE_RW = Ok r /\
    window_write hv_pgd (snd r) (copybuf1 + mis) bs = Ok s2 /\ forall a, hmem s2 a = Imemcpy.copy_out (hmem s) cd bs a.
Proof.
  intros Hb Hm Hdv H0 He Hpos Hfit Hmap. destruct (page_up_bounds (Z.of_nat (length bs))) as [Hpu Hpd]; [lia|].
  assert (page_up (page_up (Z.of_nat (length bs))) = page_up (Z.of_nat (length bs))) as Eid.
  { apply Z.le_antisymm; [by apply page_up_le|]. apply (page_up_bounds (page_up _)). lia. }
  destruct (hv_map_window s copybuf1 (cd - mis) (page_up (Z.of_nat (length bs))) Hb Hdv H0) as (s1 & -> & Hm1 & Hw).
  { split; [lia|]. apply page_up_le; [by exists 16|lia]. }
  { rewrite Eid. assert (page_up (Z.of_nat (length bs)) <= HV_VBASE - (cd - mis)); [|lia].
    apply page_up_le; [apply Z.divide_sub_r; [by exists (HV_VBASE / PGSIZE)|done]|lia]. }
  rewrite Eid in Hw. destruct (window_write_spec bs s1 copybuf1 _ _ mis Hw) as (s2 & E2 & _ & Hm2); [lia..|].
  eexists _, s2. split; [reflexivity|]. split; [exact E2|]. intros a. rewrite Hm2, Hm1. f_equal. lia.
Qed.

(** [copy_out], when what it maps for its first piece covers it. *)
Lemma copy_out_loop_spec copybuf1 : buf_ok copybuf1 ->
  forall fuel s cd bs mis, (length bs <= fuel)%nat -> 0 <= mis < PGSIZE -> (PGSIZE | cd - mis) -> 0 <= cd - mis ->
  cd + Z.of_nat (length bs) <= HV_VBASE -> mapped_whole mis (Z.of_nat (length bs)) ->
  exists s', copy_out_loop hv_pgd copybuf1 fuel s cd bs mis = Ok s' /\ forall a, hmem s' a = Imemcpy.copy_out (hmem s) cd bs a.
Proof.
  intros Hb. induction fuel as [|fuel IH]; intros s cd bs mis Hf Hm Hd Hc He Hw; destruct bs as [|b bs0];
    try (cbn [length] in Hf; lia);
    try (exists s; split; [done|]; intros a; unfold Imemcpy.copy_out; cbn [length]; destruct (_ && _) eqn:E; [zbool; lia || done|done]).
  cbn [copy_out_loop]. remember (b :: bs0) as bs eqn:Ebs. assert (0 < Z.of_nat (length bs)) as Hpos by (rewrite Ebs; simpl; lia). clear Ebs.
  unfold mapped_whole in Hw. set (nb := Z.min (COPY_BUFSIZE - mis) (Z.of_nat (length bs))) in *.
  assert (0 < nb <= Z.of_nat (length bs) /\ mis + nb <= COPY_BUFSIZE) as [Hnb Hfit] by (unfold COPY_BUFSIZE in *; change PGSIZE with 4096 in *; lia).
  assert (Z.of_nat (length (take (Z.to_nat nb) bs)) = nb) as El by (rewrite length_take; lia).
  destruct (copy_piece copybuf1 s cd mis (take (Z.to_nat nb) bs)) as (r & s1 & E1 & E2 & Hm1); rewrite ?El; try done; try lia.
  rewrite El in E1. rewrite E1. cbn [res_bind]. rewrite E2. cbn [res_bind].
  destruct (decide (nb = Z.of_nat (length bs))) as [En|Hne].
  - rewrite drop_ge by lia. exists s1. split; [by destruct fuel|]. intros a. rewrite Hm1. by rewrite take_ge by lia.
  - assert (nb = COPY_BUFSIZE - mis) as En by lia. assert (Z.of_nat (length (drop (Z.to_nat nb) bs)) = Z.of_nat (length bs) - nb) as Ed by (rewrite length_drop; lia).
    destruct (IH s1 (cd + nb) (drop (Z.to_nat nb) bs) 0) as (s2 & E & Hm2); [lia|done| |lia|lia|apply mapped_whole_aligned; lia|].
    { replace (cd + nb - 0) with (cd - mis + COPY_BUFSIZE) by lia. apply Z.divide_add_r; [done|by exists 16]. }
    exists s2. split; [exact E|]. intros a. rewrite Hm2. replace nb with (Z.of_nat (Z.to_nat nb)) at 1 by lia. apply copy_out_split; [lia|done].
Qed.

(** C26: through whatever its windows showed before, the hypervisor reads from a partition's memory exactly the
    bytes that are there, a 64-kilobyte piece after the other from any start, and changes no byte of memory; and
    it writes exactly the given bytes, in as many pieces, as long as what it maps for the first piece covers it: when the
    bytes start on a page, fill the first piece, or do not reach one page further than their length rounded up.  A short copy that crosses
    into a page it does not map goes astray ([copy_out_stray]). *)
Theorem copy_in_out_exact copybuf1 copybuf2 s src n dest bs :
  buf_ok copybuf1 -> buf_ok copybuf2 -> 0 <= src -> 0 <= n -> src + n <= HV_VBASE ->
  0 <= dest -> dest + Z.of_nat (length bs) <= HV_VBASE -> mapped_whole (misaligned dest) (Z.of_nat (length bs)) ->
  (exists s', copy_in hv_pgd copybuf2 s src n = Ok (Imemcpy.copy_in (hmem s) src n, s') /\ hmem s' = hmem s) /\
  (exists s', copy_out hv_pgd copybuf1 s dest bs = Ok s' /\ forall a, hmem s' a = Imemcpy.copy_out (hmem s) dest bs a).
Proof.
  intros Hb1 Hb2 Hs Hn He Hd Hde Hmap.
  assert (forall b, buf_ok b -> b <> ONES32) as Hne by (intros b (_ & _ & ?) ->; unfold ONES32, COPY_BUFSIZE in *; change PGSIZE with 4096 in *; lia).
  assert (forall a, 0 <= a -> 0 <= a mod PGSIZE < PGSIZE /\ (PGSIZE | a - a mod PGSIZE) /\ 0 <= a - a mod PGSIZE) as Hmis.
  { intros a Ha. pose proof (Z.div_mod a PGSIZE ltac:(done)). pose proof (Z.div_pos a PGSIZE Ha ltac:(done)).
    split_and!; [apply Z.mod_pos_bound; done..|exists (a / PGSIZE); lia|change PGSIZE with 4096 in *; lia]. }
  rewrite misaligned_spec in Hmap. destruct (Hmis src Hs) as (S1 & S2 & S3). destruct (Hmis dest Hd) as (D1 & D2 & D3).
  split; unfold copy_in, copy_out, cassert; rewrite misaligned_spec.
  - destruct (Z.eqb_spec copybuf2 ONES32); [by destruct (Hne copybuf2)|]. cbn [negb]. apply copy_in_loop_spec; done || lia.
  - destruct (Z.eqb_spec copybuf1 ONES32); [by destruct (Hne copybuf1)|]. cbn [negb]. by apply copy_out_loop_spec.
Qed.

End Windows.

(** ** A hypervisor with two buffers *)
Definition demo_pgd (pdi : Z) : Z := (pdi - 1008) * PGSIZE + 3.
Definition demo_buf1 : Z := HV_VBASE + 0x100000.
Definition demo_buf2 : Z := HV_VBASE + 0x200000.
Definition demo_mm : hvmm := Hvmm ∅ (fun a => a mod 251).

Lemma demo_pgd_ok : hv_pgd_ok demo_pgd.
Proof.
  assert (forallb (fun i => has (demo_pgd i) PTE_P && negb (has (demo_pgd i) PTE_PS) && (Z.land (demo_pgd i) PTE_SMALLBASE <? HV_VSIZE))
    ((fun i => 1008 + Z.of_nat i) <$> seq 0 16) = true) as H by by vm_compute.
  rewrite forallb_forall in H. intros i Hi. specialize (H i). assert (In i ((fun i => 1008 + Z.of_nat i) <$> seq 0 16)) as Hin.
  { apply list_elem_of_In, list_elem_of_fmap. exists (Z.to_nat (i - 1008)). split; [lia|]. apply elem_of_seq. lia. }
  specialize (H Hin). apply andb_true_iff in H as [[H1 H2]%andb_true_iff H3]. apply negb_true_iff in H2. apply Z.ltb_lt in H3. done.
Qed.

Lemma demo_bufs_ok : buf_ok demo_buf1 /\ buf_ok demo_buf2.
Proof. split; (split; [|vm_compute; split; congruence]); [by exists (demo_buf1 / PGSIZE)|by exists (demo_buf2 / PGSIZE)]. Qed.

(** A copy out of two pieces. *)
Lemma copy_in_out_exact_witness :
  (exists s', copy_in demo_pgd demo_buf2 demo_mm 0x1ffe 70000 = Ok (Imemcpy.copy_in (hmem demo_mm) 0x1ffe 70000, s') /\ hmem s' = hmem demo_mm) /\
  (exists s', copy_out demo_pgd demo_buf1 demo_mm 0x5123 (replicate (Z.to_nat 65536) 7) = Ok s' /\
     forall a, hmem s' a = Imemcpy.copy_out (hmem demo_mm) 0x5123 (replicate (Z.to_nat 65536) 7) a).
Proof.
  apply (copy_in_out_exact demo_pgd demo_pgd_ok demo_buf1 demo_buf2 demo_mm 0x1ffe 70000 0x5123 (replicate (Z.to_nat 65536) 7)).
  - exact (proj1 demo_bufs_ok).
  - exact (proj2 demo_bufs_ok).
  - done.
  - done.
  - unfold HV_VBASE. lia.
  - done.
  - rewrite length_replicate, Z2Nat.id by done. unfold HV_VBASE. lia.
  - rewrite length_replicate, Z2Nat.id by done. vm_compute. congruence.
Defined.

(** Four bytes that cross a page: only their first page is mapped, and the last two go to the page the window
    showed before, wherever the copy before this one went. *)
Example copy_out_stray :
  (let! s := copy_out demo_pgd demo_buf1 demo_mm 0x100000 (replicate 4097 0) in
   let! s := copy_out demo_pgd demo_buf1 s 0x200ffe [11; 12; 13; 14] in
   Ok (Imemcpy.copy_in (hmem s) 0x200ffe 4, Imemcpy.copy_in (hmem s) 0x101000 2)) =
  Ok ([11; 12; 0x201000 mod 251; 0x201001 mod 251], [13; 14]).
Proof. by vm_compute. Qed.

(** [copy_mem] reads and writes the same stray pages. *)
Example copy_mem_stray :
  (let! s := copy_out demo_pgd demo_buf1 demo_mm 0x100000 (replicate 4099 7) in
   let! r := copy_in demo_pgd demo_buf2 s 0x300000 8192 in
   let! s := copy_mem demo_pgd demo_buf1 demo_buf2 (snd r) 0x400000 0x200ffe 4 in
   Ok (Imemcpy.copy_in (hmem s) 0x400000 4)) =
  Ok [0x200ffe mod 251; 0x200fff mod 251; 7; 7].
Proof. by vm_compute. Qed.
