(* ===== verification/X86Pgc.v ===== *)
(** * X86Pgc: the cache of shadow page tables

    [hype/x86/pgcache.c] and [hype/x86/pgcache.h].  A partition's page directories and page
    tables are shadowed by frames of the hypervisor's: the processor walks the shadows, whose
    entries the hypervisor translates from what the partition wrote.  A frame is named by
    its index in [pgc->frames]: the first [NR_DIR_FRAMES] shadow directories, the others page
    tables; the chains through [next] are lists. *)

From S2P Require Import Prelude Bitmap PgAlloc Imemcpy X86Vm.

Definition NR_MMU_PTES : Z := 1024.
Definition NR_HV_PGTABS : Z := HV_VSIZE / 2 ^ LOG_PDSIZE.
Definition NR_LPAR_PGTABS : Z := 1024 - NR_HV_PGTABS.
Definition NR_FRAMES : Z := 4 * PGSIZE / 32.
Definition NR_DIR_FRAMES : Z := NR_FRAMES * 20 / 100.
Definition HASHSIZE : Z := 32.
Definition hash_of (laddr : Z) : Z := Z.land (Z.shiftr laddr 12) (HASHSIZE - 1).
Definition INVALID_PADDR : Z := ONES32.
Definition X86_CHUNK_SIZE : Z := 2 ^ 26.

Inductive pgc_type : Type := PGC_PGDIR | PGC_PGTAB.

(** [union pgframe]: [fr_map] is the page of memory that [lp_vaddr] shows, [fr_hv] the shadow
    entries (those absent are zero), [fr_hvpa] where the shadow page lies; a directory has the
    time of its last use and its page tables, a page table its place in its directory. *)
Record pgframe : Type := Frame {
  fr_laddr : Z; fr_map : Z; fr_hv : gmap Z Z; fr_hvpa : Z;
  fr_last : Z; fr_pgt : gmap Z Z;
  fr_pdi : Z; fr_pgd : option Z;
}.

Record pgcache : Type := Pgc {
  frames : gmap Z pgframe;
  free_dir : list Z; free_tab : list Z; count_dir : Z; count_tab : Z;
  htab : gmap Z (list Z);
}.

(** What the cache's operations see of [struct cpu_thread]. *)
Record xthread : Type := XThread {
  t_pgd : Z; t_flushed : option Z; t_cr3 : Z; t_cr2 : Z; t_cb : bool;
}.

(** ** Access to frames *)
Definition fget (c : pgcache) (i : Z) : res pgframe := of_option Null_deref (frames c !! i).
Definition fput (c : pgcache) (i : Z) (f : pgframe) : pgcache :=
  Pgc (<[i := f]> (frames c)) (free_dir c) (free_tab c) (count_dir c) (count_tab c) (htab c).
Definition fr_set_hv (f : pgframe) (h : gmap Z Z) : pgframe :=
  Frame (fr_laddr f) (fr_map f) h (fr_hvpa f) (fr_last f) (fr_pgt f) (fr_pdi f) (fr_pgd f).
Definition fr_set_pgt (f : pgframe) (g : gmap Z Z) : pgframe :=
  Frame (fr_laddr f) (fr_map f) (fr_hv f) (fr_hvpa f) (fr_last f) g (fr_pdi f) (fr_pgd f).
Definition fr_set_place (f : pgframe) (pdi : Z) (pgd : option Z) : pgframe :=
  Frame (fr_laddr f) (fr_map f) (fr_hv f) (fr_hvpa f) (fr_last f) (fr_pgt f) pdi pgd.
Definition fr_set_last (f : pgframe) (t : Z) : pgframe :=
  Frame (fr_laddr f) (fr_map f) (fr_hv f) (fr_hvpa f) t (fr_pgt f) (fr_pdi f) (fr_pgd f).
Definition fr_set_page (f : pgframe) (laddr map : Z) : pgframe :=
  Frame laddr map (fr_hv f) (fr_hvpa f) (fr_last f) (fr_pgt f) (fr_pdi f) (fr_pgd f).

Definition hv_entry (f : pgframe) (i : Z) : Z := default 0 (fr_hv f !! i).

(** [hv_vaddr[i] = e], [i] an index of the page. *)
Definition hv_store (c : pgcache) (t i e : Z) : res pgcache :=
  let! f := fget c t in
  check! (0 <=? i) && (i <? NR_MMU_PTES) else Out_of_bounds in
  Ok (fput c t (fr_set_hv f (<[i := e]> (fr_hv f)))).

(** [lp_vaddr[i]]: a little-endian word of the page the frame shows. *)
Definition ld32 (m : pmem) (a : Z) : Z := m a + 256 * m (a + 1) + 65536 * m (a + 2) + 16777216 * m (a + 3).
Definition lp_word (m : pmem) (f : pgframe) (i : Z) : Z := ld32 m (fr_map f + 4 * i).

(** ** Lists *)
Definition freelist (c : pgcache) (type : pgc_type) : list Z := match type with PGC_PGDIR => free_dir c | PGC_PGTAB => free_tab c end.

Definition pgc_enqueue (c : pgcache) (type : pgc_type) (i : Z) : pgcache :=
  match type with
  | PGC_PGDIR => Pgc (frames c) (i :: free_dir c) (free_tab c) (add32 (count_dir c) 1) (count_tab c) (htab c)
  | PGC_PGTAB => Pgc (frames c) (free_dir c) (i :: free_tab c) (count_dir c) (add32 (count_tab c) 1) (htab c)
  end.

Definition pgc_dequeue (c : pgcache) (type : pgc_type) : option Z * pgcache :=
  match freelist c type with
  | [] => (None, c)
  | i :: rest =>
      (Some i,
       match type with
       | PGC_PGDIR => Pgc (frames c) rest (free_tab c) (sub32 (count_dir c) 1) (count_tab c) (htab c)
       | PGC_PGTAB => Pgc (frames c) (free_dir c) rest (count_dir c) (sub32 (count_tab c) 1) (htab c)
       end)
  end.

(** The hash table has directories only. *)
Definition chain (c : pgcache) (h : Z) : list Z := default [] (htab c !! h).
Definition set_chain (c : pgcache) (h : Z) (l : list Z) : pgcache :=
  Pgc (frames c) (free_dir c) (free_tab c) (count_dir c) (count_tab c) (<[h := l]> (htab c)).

Definition pgc_enter (c : pgcache) (i : Z) : res pgcache :=
  let! f := fget c i in
  let h := hash_of (fr_laddr f) in
  Ok (set_chain c h (i :: chain c h)).

(** [for (; h->cmn.next; ...) if (h->cmn.next == frame)]: the first of an empty chain is not there. *)
Fixpoint unchain (i : Z) (l : list Z) : list Z :=
  match l with
  | [] => []
  | x :: l => if x =? i then l else x :: unchain i l
  end.

Definition pgc_remove (c : pgcache) (i : Z) : res pgcache :=
  let! f := fget c i in
  let h := hash_of (fr_laddr f) in
  check! match chain c h with [] => false | _ => true end else Null_deref in
  Ok (set_chain c h (unchain i (chain c h))).

(** [for (h = htab[...]; h; h = h->cmn.next) if (h->cmn.lp_laddr == laddr) break;] *)
Fixpoint find_laddr (c : pgcache) (l : list Z) (laddr : Z) : res (option Z) :=
  match l with
  | [] => Ok None
  | i :: l => let! f := fget c i in if fr_laddr f =? laddr then Ok (Some i) else find_laddr c l laddr
  end.

Definition pgc_lookup (c : pgcache) (laddr : Z) : res (option Z) := find_laddr c (chain c (hash_of laddr)) laddr.

(** ** Freeing *)
Definition pgc_free_pgtab (c : pgcache) (t : Z) : res pgcache :=
  let! ft := fget c t in
  let! d := of_option Assert_failed (fr_pgd ft) in
  cassert (fr_pdi ft <? NR_MMU_PTES)
    (let c := fput c t (fr_set_hv (fr_set_place ft (fr_pdi ft) None) ∅) in
     let! fd := fget c d in
     let c := fput c d (fr_set_pgt fd (delete (fr_pdi ft) (fr_pgt fd))) in
     let! c := hv_store c d (fr_pdi ft) 0 in
     Ok (pgc_enqueue c PGC_PGTAB t)).

(** [for (pdi = 0; pdi < NR_LPAR_PGTABS; pdi++) if ((pgtab = pgdir->pgdir.pgt[pdi]) != NULL) ...] *)
Fixpoint free_tabs (n : nat) (c : pgcache) (d pdi : Z) : res pgcache :=
  match n with
  | O => Ok c
  | S n =>
      let! fd := fget c d in
      let! c := match fr_pgt fd !! pdi with Some t => pgc_free_pgtab c t | None => Ok c end in
      free_tabs n c d (pdi + 1)
  end.

Definition pgc_free_pgdir (c : pgcache) (d : Z) : res pgcache :=
  let! c := free_tabs (Z.to_nat NR_LPAR_PGTABS) c d 0 in
  let! fd := fget c d in
  let c := fput c d (fr_set_hv fd ∅) in
  let! c := pgc_remove c d in
  Ok (pgc_enqueue c PGC_PGDIR d).

Definition pgc_free (c : pgcache) (i : Z) (type : pgc_type) : res pgcache :=
  match type with PGC_PGTAB => pgc_free_pgtab c i | PGC_PGDIR => pgc_free_pgdir c i end.

(** ** Garbage collection *)

(** [victim]: of those used least recently the one found last. *)
Fixpoint pick_victim (c : pgcache) (l : list Z) (victim : option Z) : res (option Z) :=
  match l with
  | [] => Ok victim
  | i :: l =>
      let! f := fget c i in
      match victim with
      | None => pick_victim c l (Some i)
      | Some v =>
          let! fv := fget c v in
          pick_victim c l (Some (if fr_last f <=? fr_last fv then i else v))
      end
  end.

Definition all_chains (c : pgcache) : list Z :=
  concat ((fun h => chain c (Z.of_nat h)) <$> seq 0 (Z.to_nat HASHSIZE)).

Definition pgc_count (c : pgcache) (type : pgc_type) : Z := match type with PGC_PGDIR => count_dir c | PGC_PGTAB => count_tab c end.

(** [do { ... } while (victim != NULL && victim != thread->pgd)]: whether a frame was found. *)
Fixpoint gc_dirs (fuel : nat) (c : pgcache) (th : xthread) (type : pgc_type) : res (bool * pgcache) :=
  match fuel with
  | O => Fault Out_of_fuel
  | S fuel =>
      let! v := pick_victim c (all_chains c) None in
      let! v := of_option Assert_failed v in
      let! c := if negb (v =? t_pgd th) then pgc_free c v PGC_PGDIR else Ok c in
      match freelist c type with
      | _ :: _ => Ok (true, c)
      | [] => if v =? t_pgd th then Ok (false, c) else gc_dirs fuel c th type
      end
  end.

Definition set_flushed (th : xthread) (f : option Z) : xthread := XThread (t_pgd th) f (t_cr3 th) (t_cr2 th) (t_cb th).

Definition gc_fuel : nat := S (Z.to_nat NR_DIR_FRAMES).

Definition pgc_garbage_collect (c : pgcache) (th : xthread) (ticks : Z) (type : pgc_type) : res (pgcache * xthread) :=
  cassert (pgc_count c type =? 0)
    (let! r :=
       match t_flushed th with
       | Some fl => if negb (fl =? t_pgd th) then let! c := pgc_free c fl PGC_PGDIR in Ok (c, set_flushed th None, match freelist c type with [] => false | _ => true end)
                    else Ok (c, th, false)
       | None => Ok (c, th, false)
       end in
     let '(c, th, done) := r in
     if done then Ok (c, th)
     else
       let! r := gc_dirs gc_fuel c th type in
       let '(found, c) := r in
       if found then Ok (c, th)
       else
         cassert (match type with PGC_PGTAB => true | PGC_PGDIR => false end)
           (let index := ticks mod (NR_FRAMES - NR_DIR_FRAMES) in
            let! f := fget c (NR_DIR_FRAMES + index) in
            cassert (match fr_pgd f with Some _ => true | None => false end)
              (let! c := pgc_free c (NR_DIR_FRAMES + index) PGC_PGTAB in
               cassert (match freelist c type with [] => false | _ => true end) (Ok (c, th))))).

Section Pgc.

(** What the partition's logical addresses mean, whether it may reach devices, where memory
    ends, and the hypervisor's page directory. *)
Variables (l2p : Z -> Z -> Z) (iopl2 : bool) (max_phys_memory : Z) (hv_pgd : Z -> Z).

(** ** Allocation *)
Definition pgc_alloc (c : pgcache) (th : xthread) (ticks laddr : Z) (type : pgc_type) : res (option Z * pgcache * xthread) :=
  let paddr := if negb (laddr =? INVALID_PADDR) then l2p laddr PGSIZE else INVALID_PADDR in
  if negb (laddr =? INVALID_PADDR) && (paddr =? INVALID_PADDR) then Ok (None, c, th)
  else
    let! r := match freelist c type with [] => pgc_garbage_collect c th ticks type | _ => Ok (c, th) end in
    let '(c, th) := r in
    let '(o, c) := pgc_dequeue c type in
    let! i := of_option Assert_failed o in
    let! f := fget c i in
    cassert ((paddr =? INVALID_PADDR) || (Z.land paddr (PGSIZE - 1) =? 0))
      (let f := fr_set_page f laddr (if negb (paddr =? INVALID_PADDR) then paddr else fr_map f) in
       let f := fr_set_hv f ∅ in
       let f := match type with PGC_PGDIR => fr_set_last f ticks | PGC_PGTAB => f end in
       let c := fput c i f in
       let! c := match type with PGC_PGDIR => pgc_enter c i | PGC_PGTAB => Ok c end in
       Ok (Some i, c, th)).

(** ** Entries *)
Definition isa_iospace (a : Z) : bool := (0x0A0000 <=? a) && (a <? 0x100000).

(** The shadow of an entry in logical format, and whether it could be made. *)
Definition shadow_of (entry : Z) : bool * Z :=
  let laddr := pte_pageaddr entry in
  if has entry PTE_P then
    let paddr := l2p laddr PGSIZE in
    if paddr =? INVALID_PADDR then
      if iopl2 && (max_phys_memory <=? laddr) then (true, entry) else (false, 0)
    else if iopl2 && isa_iospace laddr then (true, entry)
    else
      let pte := Z.lor paddr (pte_flags entry) in
      (true, if negb (has pte PTE_D) then Z.land pte (not32 PTE_RW) else pte)
  else (true, 0).

Definition pgc_set_pte (c : pgcache) (table index entry : Z) : res (bool * pgcache) :=
  let '(ok, pte) := shadow_of entry in
  let! c := hv_store c table index pte in
  Ok (ok, c).

Definition pgc_set_pgtab (c : pgcache) (d pdi t flags : Z) : res pgcache :=
  let! ft := fget c t in
  let! c := hv_store c d pdi (Z.lor (fr_hvpa ft) flags) in
  let! fd := fget c d in
  let c := fput c d (fr_set_pgt fd (<[pdi := t]> (fr_pgt fd))) in
  let! ft := fget c t in
  Ok (fput c t (fr_set_place ft pdi (Some d))).

(** [for (pdi = NR_LPAR_PGTABS; pdi < NR_MMU_PTES; pdi++) hv_vaddr[pdi] = hv_pgd[pdi];] *)
Fixpoint map_hypervisor (n : nat) (c : pgcache) (d pdi : Z) : res pgcache :=
  match n with
  | O => Ok c
  | S n => let! c := hv_store c d pdi (hv_pgd pdi) in map_hypervisor n c d (pdi + 1)
  end.

Definition pgc_hypervisor_mapping (c : pgcache) (d : Z) : res pgcache :=
  map_hypervisor (Z.to_nat NR_HV_PGTABS) c d NR_LPAR_PGTABS.

Fixpoint map_linear (n : nat) (c : pgcache) (d pdi laddr : Z) : res pgcache :=
  match n with
  | O => Ok c
  | S n =>
      let! r := pgc_set_pte c d pdi (fold_left Z.lor [PTE_PS; PTE_US; PTE_RW; PTE_A; PTE_D; PTE_P] laddr) in
      cassert (fst r) (map_linear n (snd r) d (pdi + 1) (laddr + LPGSIZE))
  end.

Definition pgc_initial_mapping (c : pgcache) (th : xthread) : res pgcache :=
  let! c := pgc_hypervisor_mapping c (t_pgd th) in
  map_linear (Z.to_nat (X86_CHUNK_SIZE / LPGSIZE)) c (t_pgd th) 0 0.

(** ** Flushing and prefetching *)
Fixpoint flush_loop (n : nat) (c : pgcache) (d pdi : Z) : res pgcache :=
  match n with
  | O => Ok c
  | S n =>
      let! fd := fget c d in
      let pde := hv_entry fd pdi in
      let! c :=
        if negb (has pde PTE_P) then Ok c
        else if negb (has pde PTE_PS) then
          let! t := of_option Null_deref (fr_pgt fd !! pdi) in pgc_free c t PGC_PGTAB
        else let! r := pgc_set_pte c d pdi 0 in Ok (snd r) in
      flush_loop n c d (pdi + 1)
  end.

Definition pgc_flush (c : pgcache) (d : Z) : res pgcache := flush_loop (Z.to_nat NR_LPAR_PGTABS) c d 0.

Fixpoint prefetch_entries (n : nat) (m : pmem) (c : pgcache) (t i : Z) (status : bool) : res (bool * pgcache) :=
  match n with
  | O => Ok (status, c)
  | S n =>
      let! f := fget c t in
      let! r := pgc_set_pte c t i (lp_word m f i) in
      prefetch_entries n m (snd r) t (i + 1) (if fst r then status else false)
  end.

Definition pgc_prefetch_pgtab (m : pmem) (c : pgcache) (t : Z) : res (bool * pgcache) :=
  prefetch_entries (Z.to_nat NR_MMU_PTES) m c t 0 true.

(** One round of [pgc_prefetch_pgdir]. *)
Definition prefetch_pde (m : pmem) (c : pgcache) (th : xthread) (ticks d pdi : Z) : res (bool * pgcache * xthread) :=
  let! fd := fget c d in
  let pde := lp_word m fd pdi in
  let flags := pte_flags pde in
  let laddr := pte_pageaddr pde in
  let pgt := fr_pgt fd !! pdi in
  if negb (has flags PTE_P) then
    let! c := match pgt with Some t => pgc_free c t PGC_PGTAB | None => Ok c end in
    let! r := pgc_set_pte c d pdi 0 in
    Ok (true, snd r, th)
  else if has flags PTE_PS then
    let! c := match pgt with Some t => pgc_free c t PGC_PGTAB | None => Ok c end in
    let! r := pgc_set_pte c d pdi pde in
    Ok (true, snd r, th)
  else
    let! r :=
      match pgt with
      | Some t =>
          let! ft := fget c t in
          if fr_laddr ft =? laddr then let! r := pgc_prefetch_pgtab m c t in Ok (true, snd r)
          else let! c := pgc_free c t PGC_PGTAB in Ok (false, c)
      | None => Ok (false, c)
      end in
    let '(kept, c) := r in
    if kept then Ok (true, c, th)
    else
      let! r := pgc_alloc c th ticks laddr PGC_PGTAB in
      let '(o, c, th) := r in
      match o with
      | Some t =>
          let! c := pgc_set_pgtab c d pdi t flags in
          let! r := pgc_prefetch_pgtab m c t in
          Ok (true, snd r, th)
      | None => let! r := pgc_set_pte c d pdi 0 in Ok (false, snd r, th)
      end.

Fixpoint prefetch_pdes (n : nat) (m : pmem) (c : pgcache) (th : xthread) (ticks d pdi : Z) (status : bool) : res (bool * pgcache * xthread) :=
  match n with
  | O => Ok (status, c, th)
  | S n =>
      let! r := prefetch_pde m c th ticks d pdi in
      let '(ok, c, th) := r in
      prefetch_pdes n m c th ticks d (pdi + 1) (if ok then status else false)
  end.

Definition pgc_prefetch_pgdir (m : pmem) (c : pgcache) (th : xthread) (ticks d : Z) : res (bool * pgcache * xthread) :=
  prefetch_pdes (Z.to_nat NR_LPAR_PGTABS) m c th ticks d 0 true.

Definition pgc_prefetch (m : pmem) (c : pgcache) (th : xthread) (ticks i : Z) (type : pgc_type) : res (bool * pgcache * xthread) :=
  match type with
  | PGC_PGTAB => let! r := pgc_prefetch_pgtab m c i in Ok (fst r, snd r, th)
  | PGC_PGDIR => pgc_prefetch_pgdir m c th ticks i
  end.

End Pgc.

(** ** The cache of a new partition *)

(** [get_zeroed_page] gives the pages [page 0], [page 1], ...; a frame's window shows its own page. *)
Definition init_frame (page : Z -> Z) (i : Z) : pgframe := Frame 0 (page (3 * i)) ∅ (page (3 * i + 1)) 0 ∅ 0 None.

Definition pgc_init (page : Z -> Z) : pgcache :=
  Pgc (list_to_map ((fun i => (Z.of_nat i, init_frame page (Z.of_nat i))) <$> seq 0 (Z.to_nat NR_FRAMES)))
      (Z.of_nat <$> seq 0 (Z.to_nat NR_DIR_FRAMES))
      (Z.of_nat <$> seq (Z.to_nat NR_DIR_FRAMES) (Z.to_nat (NR_FRAMES - NR_DIR_FRAMES)))
      NR_DIR_FRAMES (NR_FRAMES - NR_DIR_FRAMES) ∅.
