(* ===== verification/X86Fault.v ===== *)
(** * X86Fault: page faults and the page-table calls on x86

    [hype/x86/h_page_dir.c], [hype/x86/h_flush_tlb.c], [hype/x86/h_get_pte.c], the translation of
    [hype/x86/vm.c], and the exceptions of [hype/x86/intr.c] that a page fault is forwarded by.
    A fault in pushing the exception's frame is a page fault again, so [page_fault] and
    [force_page_fault] call each other. *)

From S2P Require Import Prelude Hcall Bitmap PgAlloc Imemcpy X86Vm X86Pgc.

Definition H_PAGE_DIR_FLUSH : Z := 1.
Definition H_PAGE_DIR_PREFETCH : Z := 2.
Definition H_PAGE_DIR_ACTIVATE : Z := 4.
Definition H_FLUSH_TLB_ALL : Z := 1.
Definition H_FLUSH_TLB_GLOBAL : Z := 2.
Definition H_FLUSH_TLB_SINGLE : Z := 4.
Definition H_FLUSH_TLB_PREFETCH : Z := 8.
Definition H_GET_ENTRY_PHYSICAL : Z := 1.
Definition H_GET_ENTRY_ROOT : Z := 2.
Definition H_GET_ENTRY_PDE : Z := 4.
Definition H_GET_ENTRY_PTE : Z := 8.
Definition EFLAGS_TF : Z := 0x100.
Definition EFLAGS_IF : Z := 0x200.
Definition EFLAGS_IOPL_MASK : Z := 0x3000.
Definition PF_VECTOR : Z := 14.
Definition GATE_MASK : Z := 0x9fff.
Definition INTR_GATE : Z := 0x8E00.

(** The part of the task state that exceptions change. *)
Record xregs : Type := XRegs { r_cs : Z; r_ss : Z; r_esp : Z; r_eip : Z; r_eflags : Z; r_ss2 : Z; r_esp2 : Z }.
Record idt_descriptor : Type := Idt { id_offset : Z; id_segment : Z; id_flags : Z }.

(** A thread with its cache, registers and gates, its mailbox's [IF], memory, and the
    hypervisor's windows; [x_cr3] is the processor's register. *)
Record xst : Type := Xst {
  xc : pgcache; xt : xthread; xm : pmem; xr : xregs;
  x_idt : gmap Z idt_descriptor; x_mbox_if : option Z; x_hpt : gmap (Z * Z) Z; x_cr3 : Z;
}.

Definition with_c (s : xst) (c : pgcache) : xst := Xst c (xt s) (xm s) (xr s) (x_idt s) (x_mbox_if s) (x_hpt s) (x_cr3 s).
Definition with_t (s : xst) (t : xthread) : xst := Xst (xc s) t (xm s) (xr s) (x_idt s) (x_mbox_if s) (x_hpt s) (x_cr3 s).
Definition with_m (s : xst) (m : pmem) : xst := Xst (xc s) (xt s) m (xr s) (x_idt s) (x_mbox_if s) (x_hpt s) (x_cr3 s).
Definition with_r (s : xst) (r : xregs) : xst := Xst (xc s) (xt s) (xm s) r (x_idt s) (x_mbox_if s) (x_hpt s) (x_cr3 s).
Definition with_mbox (s : xst) (b : option Z) : xst := Xst (xc s) (xt s) (xm s) (xr s) (x_idt s) b (x_hpt s) (x_cr3 s).
Definition with_hpt (s : xst) (h : gmap (Z * Z) Z) (m : pmem) : xst := Xst (xc s) (xt s) m (xr s) (x_idt s) (x_mbox_if s) h (x_cr3 s).
Definition set_cb (t : xthread) (b : bool) : xthread := XThread (t_pgd t) (t_flushed t) (t_cr3 t) (t_cr2 t) b.
Definition set_cr2 (t : xthread) (v : Z) : xthread := XThread (t_pgd t) (t_flushed t) (t_cr3 t) v (t_cb t).
Definition set_esp (r : xregs) (v : Z) : xregs := XRegs (r_cs r) (r_ss r) v (r_eip r) (r_eflags r) (r_ss2 r) (r_esp2 r).

(** ** Translation *)

(** [getpte]: the entry, and whether it is a large page's. *)
Definition getpte (s : xst) (vaddr : Z) : res (Z * bool) :=
  cassert (vaddr <? HV_VBASE)
    (let! d := fget (xc s) (t_pgd (xt s)) in
     let pdi := pdi_of vaddr in
     let pde := hv_entry d pdi in
     if negb (has pde PTE_P) then Ok (0, false)
     else if has pde PTE_PS then Ok (pde, true)
     else
       let! t := of_option Assert_failed (fr_pgt d !! pdi) in
       let! f := fget (xc s) t in
       Ok (hv_entry f (pti_of vaddr), false)).

Definition v2p (s : xst) (vaddr : Z) : res Z :=
  let! r := getpte s vaddr in
  let '(pte, large) := r in
  if negb (has pte PTE_P) then Ok ONES32
  else if large then Ok (Z.lor (Z.land pte PTE_LARGEBASE) (Z.land vaddr (not32 PTE_LARGEBASE)))
  else Ok (Z.lor (Z.land pte PTE_SMALLBASE) (Z.land vaddr (not32 PTE_SMALLBASE))).

(** The error and the address that faults, if one does. *)
Fixpoint ispresent_loop (fuel : nat) (s : xst) (vaddr endp mask : Z) : res (option (Z * Z)) :=
  if vaddr <=? endp then
    match fuel with
    | O => Fault Out_of_fuel
    | S fuel =>
        let! r := getpte s vaddr in
        let '(pte, large) := r in
        if negb (has pte PTE_P) then Ok (Some (Z.land mask (not32 PTE_P), vaddr))
        else if negb (Z.land pte mask =? mask) then Ok (Some (Z.lor mask PTE_P, vaddr))
        else ispresent_loop fuel s (add32 vaddr (if large then LPGSIZE else PGSIZE)) endp mask
    end
  else Ok None.

Definition ispresent (s : xst) (vaddr len mask : Z) : res (option (Z * Z)) :=
  ispresent_loop (Z.to_nat (len / PGSIZE + 2)) s vaddr (sub32 (add32 vaddr len) 1) mask.

Definition isstackpresent (s : xst) (n mask : Z) : res (option (Z * Z)) :=
  let len := n * 4 in
  ispresent s (sub32 (r_esp (xr s)) len) len mask.

(** ** Exceptions *)
Definition le32 (v : Z) : list Z := [v mod 256; v / 2 ^ 8 mod 256; v / 2 ^ 16 mod 256; v / 2 ^ 24 mod 256].

(** A store through the thread's own tables, which are the processor's. *)
Fixpoint store_bytes (s : xst) (va : Z) (bs : list Z) : res xst :=
  match bs with
  | [] => Ok s
  | b :: bs =>
      let! pa := v2p s va in
      check! negb (pa =? ONES32) else Assert_failed in
      store_bytes (with_m s (fun a => if a =? pa then b else xm s a)) (add32 va 1) bs
  end.

Section Fault.

Variables (l2p : Z -> Z -> Z) (iopl2 : bool) (max_phys_memory : Z) (hv_pgd : Z -> Z) (copybuf1 : Z) (iopl : Z).
Local Abbreviation set_pte := (pgc_set_pte l2p iopl2 max_phys_memory).

(** [false]: the pointer that is returned is null. *)
Definition put_lpar (s : xst) (v va : Z) : res (bool * xst) :=
  let! d := fget (xc s) (t_pgd (xt s)) in
  if fr_hvpa d =? x_cr3 s then let! s := store_bytes s va (le32 v) in Ok (true, s)
  else
    let! pa := v2p s va in
    if pa =? ONES32 then Ok (false, s)
    else
      let! h := X86Vm.copy_out hv_pgd copybuf1 (Hvmm (x_hpt s) (xm s)) pa (le32 v) in
      Ok (true, with_hpt s (hpt h) (hmem h)).

Definition push (s : xst) (v : Z) : res xst :=
  let s := with_r s (set_esp (xr s) (sub32 (r_esp (xr s)) 4)) in
  let! r := put_lpar s v (r_esp (xr s)) in
  cassert (fst r) (Ok (snd r)).

Fixpoint pushes (s : xst) (vs : list Z) : res xst :=
  match vs with
  | [] => Ok s
  | v :: vs => let! s := push s v in pushes s vs
  end.

(** [1] is returned when there is no stack; [page_fault] is what a missing page leads to. *)
Definition push_exception_state (page_fault : xst -> Z -> Z -> res (Z * xst)) (s : xst) (pl_change : bool) (except : Z) : res (Z * xst) :=
  let room := 3 + 2 * b2z pl_change + except in
  let old_ss := r_ss (xr s) in
  let old_esp := r_esp (xr s) in
  let s :=
    if pl_change then with_r s (XRegs (r_cs (xr s)) (r_ss2 (xr s)) (r_esp2 (xr s)) (r_eip (xr s)) (r_eflags (xr s)) (r_ss2 (xr s)) (r_esp2 (xr s)))
    else s in
  let mask := if Z.land (r_ss (xr s)) 3 =? 3 then Z.lor PTE_US PTE_RW else PTE_RW in
  let! p := isstackpresent s room mask in
  let! r :=
    match p with
    | None => Ok (false, s)
    | Some (error, fault) =>
        let! r := page_fault s error fault in
        if truth (fst r) then cassert (negb (has mask PTE_US)) (Ok (true, snd r)) else Ok (false, snd r)
    end in
  let '(failed, s) := r in
  if failed then Ok (1, s)
  else
    let! s := if pl_change then pushes s [old_ss; old_esp] else Ok s in
    cassert (Z.land (r_eflags (xr s)) EFLAGS_IOPL_MASK =? iopl)
      (let! s := pushes s [Z.lor (r_eflags (xr s)) EFLAGS_IF; r_cs (xr s); r_eip (xr s)] in
       Ok (0, s)).

Definition force_sync_exception (page_fault : xst -> Z -> Z -> res (Z * xst)) (s : xst) (d : idt_descriptor) (except : Z) : res (Z * xst) :=
  let pl_change := Z.land (r_cs (xr s)) 3 =? 3 in
  let! r := push_exception_state page_fault s pl_change except in
  let '(failed, s) := r in
  if truth failed then Ok (1, s)
  else
    let r := xr s in
    let s := with_r s (XRegs (id_segment d) (r_ss r) (r_esp r) (id_offset d) (Z.land (r_eflags r) (not32 EFLAGS_TF)) (r_ss2 r) (r_esp2 r)) in
    Ok (0, if Z.land (id_flags d) GATE_MASK =? INTR_GATE then with_mbox s (match x_mbox_if s with Some _ => Some 0 | None => None end) else s).

Definition force_page_fault_with (page_fault : xst -> Z -> Z -> res (Z * xst)) (s : xst) (error_code cr2 : Z) : res (Z * xst) :=
  let! r := force_sync_exception page_fault s (default (Idt 0 0 0) (x_idt s !! PF_VECTOR)) 1 in
  let '(failed, s) := r in
  if truth failed then Ok (1, s)
  else
    let! s := push s error_code in
    Ok (0, with_t s (set_cr2 (xt s) cr2)).

(** ** Faults *)

(** [lp_vaddr[i] |= bits] *)
Definition st32 (m : pmem) (a v : Z) : pmem := Imemcpy.copy_out m a (le32 v).
Definition lp_or (s : xst) (t i bits : Z) : res xst :=
  let! f := fget (xc s) t in
  Ok (with_m s (st32 (xm s) (fr_map f + 4 * i) (Z.lor (lp_word (xm s) f i) bits))).

(** [pgc_set_pte] on the state. *)
Definition x_set_pte (s : xst) (table index entry : Z) : res (bool * xst) :=
  let! r := set_pte (xc s) table index entry in
  Ok (fst r, with_c s (snd r)).

Definition x_prefetch (s : xst) (ticks i : Z) (type : pgc_type) : res xst :=
  let! r := pgc_prefetch l2p iopl2 max_phys_memory (xm s) (xc s) (xt s) ticks i type in
  let '(_, c, t) := r in
  Ok (with_t (with_c s c) t).

(** A new page table for the directory's entry, filled from the partition's. *)
Definition new_pgtab (s : xst) (ticks d pdi lp_pde : Z) : res (option Z * xst) :=
  let! r := pgc_alloc l2p (xc s) (xt s) ticks (pte_pageaddr lp_pde) PGC_PGTAB in
  let '(o, c, t) := r in
  let s := with_t (with_c s c) t in
  match o with
  | None => Ok (None, s)
  | Some pgt =>
      let! c := pgc_set_pgtab (xc s) d pdi pgt (pte_flags lp_pde) in
      let! s := x_prefetch (with_c s c) ticks pgt PGC_PGTAB in
      Ok (Some pgt, s)
  end.

(** [thread->cb], called by [iret]. *)
Definition shadow_fault_callback (s : xst) (ticks : Z) : res xst :=
  let s := with_t s (set_cb (xt s) false) in
  let d := t_pgd (xt s) in
  let pdi := pdi_of (t_cr2 (xt s)) in
  let pti := pti_of (t_cr2 (xt s)) in
  let! fd := fget (xc s) d in
  let lp_pde := lp_word (xm s) fd pdi in
  if negb (has lp_pde PTE_P) then Ok s
  else if has lp_pde PTE_PS then let! r := x_set_pte s d pdi lp_pde in Ok (snd r)
  else
    let! r := match fr_pgt fd !! pdi with Some pgt => Ok (Some pgt, s) | None => new_pgtab s ticks d pdi lp_pde end in
    match r with
    | (None, s) => Ok s
    | (Some pgt, s) =>
        let! f := fget (xc s) pgt in
        let lp_pte := lp_word (xm s) f pti in
        if negb (has lp_pte PTE_P) then Ok s
        else let! r := x_set_pte s pgt pti lp_pte in Ok (snd r)
    end.

Section With.
Variable force : xst -> Z -> Z -> res (Z * xst).

Definition linear_fault (s : xst) (error_code addr : Z) : res (Z * xst) :=
  let pdi := pdi_of addr in
  let! fd := fget (xc s) (t_pgd (xt s)) in
  cassert (negb (has (hv_entry fd pdi) PTE_P))
    (let lp_pde := fold_left Z.lor [PTE_PS; PTE_RW; PTE_A; PTE_D; PTE_P] (Z.land addr PTE_LARGEBASE) in
     let! r := x_set_pte s (t_pgd (xt s)) pdi lp_pde in
     let '(ok, s) := r in
     if ok then Ok (0, s) else let! r := force s error_code addr in Ok (1, snd r)).

(** [if (!force_page_fault(...)) thread->cb = shadow_fault_callback; return 1;] *)
Definition forward (s : xst) (error_code addr : Z) : res (Z * xst) :=
  let! r := force s error_code addr in
  let '(failed, s) := r in
  Ok (1, if truth failed then s else with_t s (set_cb (xt s) true)).

(** From the entry of the page table on. *)
Definition shadow_pte_fault (s : xst) (pgt pti mask error_code addr : Z) : res (Z * xst) :=
  let! f := fget (xc s) pgt in
  let lp_pte := lp_word (xm s) f pti in
  let hv_pte := hv_entry f pti in
  if negb (Z.land lp_pte mask =? mask) then forward s error_code addr
  else if negb (has hv_pte PTE_P) && negb (has lp_pte PTE_P) then forward s error_code addr
  else
    let! r :=
      if has mask PTE_RW && (Z.land hv_pte (Z.lor PTE_RW PTE_P) =? PTE_P) && has lp_pte PTE_RW then
        let! s := lp_or s pgt pti (Z.lor PTE_A PTE_D) in Ok (Z.lor lp_pte (Z.lor PTE_A PTE_D), s)
      else Ok (lp_pte, s) in
    let '(lp_pte, s) := r in
    let! r := x_set_pte s pgt pti lp_pte in
    let '(ok, s) := r in
    if ok then Ok (0, s) else forward s error_code addr.

Definition shadow_fault (s : xst) (ticks error_code addr : Z) : res (Z * xst) :=
  let mask := Z.land error_code 7 in
  let pdi := pdi_of addr in
  let pti := pti_of addr in
  let d := t_pgd (xt s) in
  let! fd := fget (xc s) d in
  let lp_pde := lp_word (xm s) fd pdi in
  let hv_pde := hv_entry fd pdi in
  if negb (Z.land lp_pde mask =? mask) then forward s error_code addr
  else if negb (has hv_pde PTE_P) && negb (has lp_pde PTE_P) then forward s error_code addr
  else if negb (has hv_pde PTE_P) && has lp_pde PTE_PS then
    let! r := x_set_pte s d pdi lp_pde in
    let '(ok, s) := r in
    if ok then Ok (0, s) else forward s error_code addr
  else
    let! r := if negb (has hv_pde PTE_P) then new_pgtab s ticks d pdi lp_pde else Ok (fr_pgt fd !! pdi, s) in
    let '(pgt, s) := r in
    if has mask PTE_RW && negb (has hv_pde PTE_RW) && (Z.land lp_pde (Z.lor PTE_PS PTE_RW) =? Z.lor PTE_PS PTE_RW) then
      let! s := lp_or s d pdi (Z.lor PTE_A PTE_D) in
      let! r := x_set_pte s d pdi (Z.lor lp_pde (Z.lor PTE_A PTE_D)) in
      let '(ok, s) := r in
      if ok then Ok (0, s) else forward s error_code addr
    else
      match pgt with
      | None => forward s error_code addr
      | Some pgt => shadow_pte_fault s pgt pti mask error_code addr
      end.

Definition page_fault_with (ticks : Z) (s : xst) (error_code addr : Z) : res (Z * xst) :=
  cassert (truth (Z.land (r_cs (xr s)) 3))
    (if has error_code 8 then let! r := force s error_code addr in Ok (1, snd r)
     else
       let! fd := fget (xc s) (t_pgd (xt s)) in
       if fr_laddr fd =? INVALID_PADDR then linear_fault s error_code addr
       else shadow_fault s ticks error_code addr).

End With.

(** The depth of the hypervisor's stack bounds how often they call each other. *)
Fixpoint force_page_fault (depth : nat) (ticks : Z) (s : xst) (error_code cr2 : Z) : res (Z * xst) :=
  match depth with
  | O => Fault Out_of_fuel
  | S depth => force_page_fault_with (page_fault_with (force_page_fault depth ticks) ticks) s error_code cr2
  end.

Definition page_fault (depth : nat) (ticks : Z) (s : xst) (error_code addr : Z) : res (Z * xst) :=
  page_fault_with (force_page_fault depth ticks) ticks s error_code addr.

(** ** Calls *)
Definition activate (s : xst) (ticks d : Z) : res xst :=
  let! f := fget (xc s) d in
  let t := xt s in
  Ok (with_t (with_c s (fput (xc s) d (fr_set_last f ticks))) (XThread d (t_flushed t) (fr_hvpa f) (t_cr2 t) (t_cb t))).

(** From [process flush/prefetch hints] on. *)
Definition h_page_dir_hints (s : xst) (ticks flags d : Z) : res (Z * xst) :=
  let hints := Z.land flags (Z.lor H_PAGE_DIR_FLUSH H_PAGE_DIR_PREFETCH) in
  let! s :=
    if hints =? H_PAGE_DIR_FLUSH then
      let! c :=
        match t_flushed (xt s) with
        | Some f => if negb (f =? d) then pgc_free (xc s) f PGC_PGDIR else Ok (xc s)
        | None => Ok (xc s)
        end in
      Ok (with_t (with_c s c) (set_flushed (xt s) (Some d)))
    else if truth hints then x_prefetch s ticks d PGC_PGDIR
    else Ok s in
  let! s := if has flags H_PAGE_DIR_ACTIVATE then activate s ticks d else Ok s in
  Ok (H_Success, s).

Definition h_page_dir (s : xst) (ticks flags laddr : Z) : res (Z * xst) :=
  let! pgd := pgc_lookup (xc s) laddr in
  match pgd with
  | Some d =>
      if flags =? H_PAGE_DIR_ACTIVATE then let! s := activate s ticks d in Ok (H_Success, s)
      else h_page_dir_hints s ticks flags d
  | None =>
      let! r := pgc_alloc l2p (xc s) (xt s) ticks laddr PGC_PGDIR in
      let '(o, c, t) := r in
      match o with
      | None => Ok (H_Parameter, s)
      | Some d =>
          let! c := pgc_hypervisor_mapping hv_pgd c d in
          h_page_dir_hints (with_t (with_c s c) t) ticks (Z.lor flags H_PAGE_DIR_PREFETCH) d
      end
  end.

(** The large page's entry is taken from [lp_vaddr[pti]]. *)
Definition flush_single (s : xst) (vaddr : Z) (prefetch : bool) : res (Z * xst) :=
  let pdi := pdi_of vaddr in
  let pti := pti_of vaddr in
  if HV_VBASE <=? vaddr then Ok (H_Parameter, s)
  else
    let d := t_pgd (xt s) in
    let! fd := fget (xc s) d in
    let pde := hv_entry fd pdi in
    let! r :=
      if Z.land pde (Z.lor PTE_PS PTE_P) =? PTE_P then
        let! t := of_option Null_deref (fr_pgt fd !! pdi) in
        let! ft := fget (xc s) t in
        x_set_pte s t pti (if prefetch then lp_word (xm s) ft pti else 0)
      else if Z.land pde (Z.lor PTE_PS PTE_P) =? Z.lor PTE_PS PTE_P then
        x_set_pte s d pdi (if prefetch then lp_word (xm s) fd pti else 0)
      else Ok (true, s) in
    let '(ok, s) := r in
    if negb ok then Ok (H_Parameter, s)
    else Ok (H_Success, if prefetch && t_cb (xt s) && (t_cr2 (xt s) =? vaddr) then with_t s (set_cb (xt s) false) else s).

(** [flush_all] and [flush_global], which differ in how the processor is told. *)
Definition flush_all (s : xst) (ticks : Z) (prefetch : bool) : res (Z * xst) :=
  let d := t_pgd (xt s) in
  let! s := if prefetch then x_prefetch s ticks d PGC_PGDIR
            else let! c := pgc_flush l2p iopl2 max_phys_memory (xc s) d in Ok (with_c s c) in
  Ok (H_Success, if prefetch && t_cb (xt s) then with_t s (set_cb (xt s) false) else s).

Definition h_flush_tlb (s : xst) (ticks flags vaddr : Z) : res (Z * xst) :=
  let prefetch := has flags H_FLUSH_TLB_PREFETCH in
  if has flags H_FLUSH_TLB_SINGLE then flush_single s vaddr prefetch
  else if has flags H_FLUSH_TLB_ALL then flush_all s ticks prefetch
  else if has flags H_FLUSH_TLB_GLOBAL then flush_all s ticks prefetch
  else Ok (H_Parameter, s).

Definition combine (lpe hve : Z) : Z :=
  if has hve PTE_P then Z.lor (Z.land lpe (not32 PTE_FLAGS)) (Z.land hve PTE_FLAGS) else lpe.

(** What is returned, and [return_arg(thread, 1, ...)]. *)
Definition get_pde (flags lp_pde hv_pde : Z) : res (Z * option Z) :=
  if has flags H_GET_ENTRY_PHYSICAL then
    cassert (has hv_pde PTE_P) (Ok (H_Success, Some hv_pde))
  else Ok (H_Success, Some (combine lp_pde hv_pde)).

Definition h_get_pte (s : xst) (flags vaddr : Z) : res (Z * option Z * xst) :=
  if HV_VBASE <=? vaddr then Ok (H_NOT_FOUND, None, s)
  else
    let! fd := fget (xc s) (t_pgd (xt s)) in
    let pdi := pdi_of vaddr in
    let pti := pti_of vaddr in
    let lp_pde := lp_word (xm s) fd pdi in
    let hv_pde := hv_entry fd pdi in
    if has flags H_GET_ENTRY_ROOT then
      Ok (H_Success, Some (if has flags H_GET_ENTRY_PHYSICAL then fr_hvpa fd else fr_laddr fd), s)
    else if has flags H_GET_ENTRY_PDE then
      if negb (has lp_pde PTE_P) then Ok (H_NOT_FOUND, None, s)
      else let! r := get_pde flags lp_pde hv_pde in Ok (r, s)
    else if has flags H_GET_ENTRY_PTE then
      if negb (has lp_pde PTE_P) then Ok (H_NOT_FOUND, None, s)
      else if has lp_pde PTE_PS then let! r := get_pde flags lp_pde hv_pde in Ok (r, s)
      else
        let! t := of_option Null_deref (fr_pgt fd !! pdi) in
        let! ft := fget (xc s) t in
        let lp_pte := lp_word (xm s) ft pti in
        let hv_pte := hv_entry ft pti in
        if negb (has lp_pte PTE_P) then Ok (H_NOT_FOUND, None, s)
        else if has flags H_GET_ENTRY_PHYSICAL then
          let! r := if negb (has hv_pte PTE_P) then x_set_pte s t pti lp_pte else Ok (true, s) in
          let '(ok, s) := r in
          if negb ok then Ok (H_NOT_FOUND, None, s)
          else let! ft := fget (xc s) t in Ok (H_Success, Some (hv_entry ft pti), s)
        else Ok (H_Success, Some (combine lp_pte hv_pte), s)
    else Ok (H_Parameter, None, s).

End Fault.

(** ** A new thread

    The end of [arch_init_thread] ([hype/x86/arch_os.c]): its page cache, its directory, and the mapping it
    starts with. *)
Definition start_thread (l2p : Z -> Z -> Z) (iopl2 : bool) (max_phys_memory : Z) (hv_pgd : Z -> Z) (page : Z -> Z) (ticks : Z) : res (pgcache * xthread) :=
  let! r := pgc_alloc l2p (pgc_init page) (XThread 0 None 0 0 false) ticks INVALID_PADDR PGC_PGDIR in
  let '(o, c, _) := r in
  let! d := of_option Assert_failed o in
  let th := XThread d None 0 0 false in
  let! c := pgc_initial_mapping l2p iopl2 max_phys_memory hv_pgd c th in
  let! f := fget c d in
  Ok (c, XThread d None (fr_hvpa f) 0 false).
