(* ===== verification/X86Iso.v ===== *)
(** * X86Iso: what a partition can reach through its shadow page tables

    The interface between the shadow tables and the translation of logical addresses, the
    invariant of the cache, and that every operation keeps it.  The invariant is about every
    frame, free or not, so it does not depend on which frames are in use. *)

From S2P Require Import Prelude Hcall Bitmap PgAlloc Imemcpy X86Vm X86Pgc X86Fault.

(** ** Partial correctness *)
Definition post {A} (r : res A) (Q : A -> Prop) : Prop := forall a, r = Ok a -> Q a.

Lemma post_ok {A} (a : A) (Q : A -> Prop) : Q a -> post (Ok a) Q.
Proof. by intros H x [= <-]. Qed.
Lemma post_fault {A} f (Q : A -> Prop) : post (Fault f) Q.
Proof. by intros x. Qed.
Lemma post_bind {A B} (m : res A) (k : A -> res B) (P : A -> Prop) (Q : B -> Prop) :
  post m P -> (forall a, P a -> post (k a) Q) -> post (res_bind m k) Q.
Proof. intros Hm Hk b H. apply res_bind_ok in H as (a & Ha & Hb). by eapply Hk; [apply Hm|]. Qed.
Lemma post_cassert {A} b (k : res A) Q : (b = true -> post k Q) -> post (cassert b k) Q.
Proof. destruct b; intros H; [by apply H|apply post_fault]. Qed.
Lemma post_of_option {A} f (o : option A) (Q : A -> Prop) : (forall a, o = Some a -> Q a) -> post (of_option f o) Q.
Proof. destruct o; intros H; [by apply post_ok, H|apply post_fault]. Qed.
Lemma post_weaken {A} (r : res A) (P Q : A -> Prop) : post r P -> (forall a, P a -> Q a) -> post r Q.
Proof. intros H1 H2 a Ha. by apply H2, H1. Qed.

Create HintDb x86.
#[export] Hint Resolve post_fault : x86.

(** ** What the shadow tables ask of the translation *)
Class Translation : Type := {
  l2p : Z -> Z -> Z;
  owned : Z -> Prop;
  l2p_u32 la : is_u32 (l2p la PGSIZE);
  l2p_page la : (PGSIZE | la) -> l2p la PGSIZE <> INVALID_PADDR ->
    (PGSIZE | l2p la PGSIZE) /\ forall x, l2p la PGSIZE <= x < l2p la PGSIZE + PGSIZE -> owned x;
  (** memory is handed out in units of large pages *)
  l2p_large la : (PGSIZE | la) -> l2p la PGSIZE <> INVALID_PADDR -> forall x, x / LPGSIZE = l2p la PGSIZE / LPGSIZE -> owned x;
}.

Section Iso.
Context `{Translation} (iopl2 : bool) (max_phys_memory : Z) (hv_pgd : Z -> Z).

(** Where the shadow page of a frame lies. *)
Context (shadow_page : Z -> Z) (Hpages : forall i, 0 <= i < NR_FRAMES -> (PGSIZE | shadow_page i) /\ is_u32 (shadow_page i)).

Definition is_dir (i : Z) : Prop := 0 <= i < NR_DIR_FRAMES.
Definition is_tab (i : Z) : Prop := NR_DIR_FRAMES <= i < NR_FRAMES.

(** A device's page, for the partition that may reach devices. *)
Definition device_page (la : Z) : Prop := (PGSIZE | la) /\ (max_phys_memory <= la \/ isa_iospace la = true).

(** The bytes an entry gives access to. *)
Definition reaches (e : Z) (large : bool) (x : Z) : Prop :=
  if large then x / LPGSIZE * LPGSIZE = Z.land e PTE_LARGEBASE else x / PGSIZE * PGSIZE = pte_pageaddr e.

Definition entry_ok (e : Z) (large : bool) : Prop :=
  forall x, reaches e large x -> owned x \/ (iopl2 = true /\ exists la, device_page la /\ reaches e large la).

Definition pde_ok (k e : Z) : Prop :=
  (NR_LPAR_PGTABS <= k /\ e = hv_pgd k) \/
  (has e PTE_PS = true /\ entry_ok e true) \/
  (has e PTE_PS = false /\ exists t, is_tab t /\ pte_pageaddr e = shadow_page t).

Definition slot_ok (i k e : Z) : Prop := has e PTE_P = true -> if bool_decide (i < NR_DIR_FRAMES) then pde_ok k e else entry_ok e false.

Record frame_ok (i : Z) (f : pgframe) : Prop := {
  fo_range : 0 <= i < NR_FRAMES;
  fo_page : fr_hvpa f = shadow_page i;
  fo_hv : forall k e, fr_hv f !! k = Some e -> slot_ok i k e;
  fo_pgt : forall k t, fr_pgt f !! k = Some t -> is_tab t;
  fo_pgd : forall d, fr_pgd f = Some d -> is_dir d;
}.

Record cache_ok (c : pgcache) : Prop := {
  co_frames : forall i f, frames c !! i = Some f -> frame_ok i f;
  co_dir : Forall is_dir (free_dir c);
  co_tab : Forall is_tab (free_tab c);
  co_chain : forall h l, htab c !! h = Some l -> Forall is_dir l;
}.

Record thread_ok (th : xthread) : Prop := {
  to_pgd : is_dir (t_pgd th);
  to_flushed : forall f, t_flushed th = Some f -> is_dir f;
  to_cr3 : t_cr3 th = shadow_page (t_pgd th);
}.

(** ** Entries *)
Lemma slot_ok_zero i k : slot_ok i k 0.
Proof. intros H0. done. Qed.

Lemma flags_range e : 0 <= pte_flags e < PGSIZE.
Proof. unfold pte_flags. change PTE_FLAGS with (Z.ones 12). rewrite Z.land_ones by lia. change PGSIZE with (2 ^ 12). apply Z.mod_pos_bound. lia. Qed.

Lemma pageaddr_aligned e : (PGSIZE | pte_pageaddr e).
Proof.
  unfold pte_pageaddr. change PTE_SMALLBASE with (Z.shiftl (Z.ones 20) 12). exists (Z.land (Z.shiftr e 12) (Z.ones 20)).
  change PGSIZE with (2 ^ 12). rewrite <- Z.shiftl_mul_pow2 by lia. bits j.
  destruct (Z.lt_ge_cases j 12); [rewrite !(Z.testbit_neg_r _ (j - 12)) by lia; by rewrite andb_false_r|].
  rewrite Z.shiftr_spec by lia. by replace (j - 12 + 12) with j by lia.
Qed.


Lemma pageaddr_u32 e : is_u32 (pte_pageaddr e).
Proof.
  unfold pte_pageaddr. change PTE_SMALLBASE with (Z.land (Z.ones 32) (2 ^ 32 - 2 ^ 12)). rewrite Z.land_assoc, Z.land_ones by lia.
  pose proof (Z.mod_pos_bound e (2 ^ 32) ltac:(lia)) as Hm. rewrite land_high by (done || lia).
  pose proof (Z.div_mod (e mod 2 ^ 32) (2 ^ 12) ltac:(lia)). pose proof (Z.mod_pos_bound (e mod 2 ^ 32) (2 ^ 12) ltac:(lia)).
  pose proof (Z.div_pos (e mod 2 ^ 32) (2 ^ 12) ltac:(lia) ltac:(lia)). unfold is_u32. lia.
Qed.

(** Flags, and taking the write bit away, leave the address. *)
Lemma entry_base pa f n :
  (PGSIZE | pa) -> Z.land PTE_SMALLBASE n = n -> is_u32 pa ->
  Z.land (Z.lor pa (pte_flags f)) n = Z.land pa n /\ Z.land (Z.land (Z.lor pa (pte_flags f)) (not32 PTE_RW)) n = Z.land pa n.
Proof.
  intros Hd Hn Hu.
  assert (Z.land (pte_flags f) n = 0) as E0.
  { rewrite <- Hn. unfold pte_flags. rewrite Z.land_assoc, <- (Z.land_assoc f). change (Z.land PTE_FLAGS PTE_SMALLBASE) with 0. by rewrite Z.land_0_r. }
  assert (Z.land (Z.lor pa (pte_flags f)) n = Z.land pa n) as E1 by (rewrite Z.land_lor_distr_l, E0; apply Z.lor_0_r).
  split; [done|]. rewrite <- Z.land_assoc. replace (Z.land (not32 PTE_RW) n) with n; [done|].
  rewrite <- Hn, Z.land_assoc. by change (Z.land (not32 PTE_RW) PTE_SMALLBASE) with PTE_SMALLBASE.
Qed.

Lemma pageaddr_of pa : (PGSIZE | pa) -> is_u32 pa -> pte_pageaddr pa = pa.
Proof.
  intros [q ->] Hu. unfold pte_pageaddr. change PTE_SMALLBASE with (2 ^ 32 - 2 ^ 12). rewrite land_high by (done || lia).
  change (2 ^ 12) with PGSIZE. by rewrite Z.div_mul.
Qed.

Lemma has_lor_PS pa f : (PGSIZE | pa) -> is_u32 pa -> has (Z.lor pa (pte_flags f)) PTE_PS = has f PTE_PS.
Proof.
  intros Hd Hu. unfold has. rewrite Z.land_lor_distr_l. replace (Z.land pa PTE_PS) with 0.
  - rewrite Z.lor_0_l. unfold pte_flags. rewrite <- Z.land_assoc. by change (Z.land PTE_FLAGS PTE_PS) with PTE_PS.
  - rewrite <- (pageaddr_of pa Hd Hu). unfold pte_pageaddr. rewrite <- Z.land_assoc. change (Z.land PTE_SMALLBASE PTE_PS) with 0. by rewrite Z.land_0_r.
Qed.

(** A shadow entry is of the kind of the entry it shadows, and reaches only what the partition may. *)
Lemma shadow_of_ok entry ok e :
  shadow_of l2p iopl2 max_phys_memory entry = (ok, e) -> has e PTE_P = true ->
  entry_ok e false /\ entry_ok e true /\ has e PTE_PS = has entry PTE_PS.
Proof.
  unfold shadow_of. set (la := pte_pageaddr entry). pose proof (pageaddr_aligned entry : (PGSIZE | la)) as Hla.
  assert (forall large la', la' = la -> device_page la' -> reaches entry large la') as Hdev.
  { intros [] ? -> [Hd _]; unfold reaches.
    - unfold la, pte_pageaddr. change PTE_LARGEBASE with (Z.land PTE_SMALLBASE PTE_LARGEBASE). rewrite Z.land_assoc. fold (pte_pageaddr entry). fold la.
      pose proof (pageaddr_u32 entry : is_u32 la) as Hu.
      change PTE_LARGEBASE with (2 ^ 32 - 2 ^ 22). by rewrite land_high by (done || lia).
    - destruct Hd as [q Hq]. rewrite Hq at 1. rewrite Z.div_mul by done. unfold la in *. lia. }
  destruct (has entry PTE_P); [|intros [= <- <-]; done].
  destruct (Z.eqb_spec (l2p la PGSIZE) INVALID_PADDR) as [Hinv|Hval].
  { destruct (iopl2 && (max_phys_memory <=? la)) eqn:Em; [|intros [= <- <-]; done]. apply andb_true_iff in Em as [Eio Hm%Z.leb_le].
    intros [= <- <-] _. split_and!; [..|done]; intros x _; right; (split; [exact Eio|]); exists la; (split; [by split; [|left]|by apply Hdev; [|split; [|left]]]). }
  destruct (iopl2 && isa_iospace la) eqn:Eisa.
  { apply andb_true_iff in Eisa as [Eio Hi]. intros [= <- <-] _.
    split_and!; [..|done]; intros x _; right; (split; [exact Eio|]); exists la; (split; [by split; [|right]|by apply Hdev; [|split; [|right]]]). }
  destruct (l2p_page la Hla Hval) as [Hpa Hown]. pose proof (l2p_u32 la) as Hu.
  set (pa := l2p la PGSIZE) in *.
  assert (forall e', e' = Z.lor pa (pte_flags entry) \/ e' = Z.land (Z.lor pa (pte_flags entry)) (not32 PTE_RW) ->
    entry_ok e' false /\ entry_ok e' true /\ has e' PTE_PS = has entry PTE_PS) as Hgoal; [|intros [= <- <-] _; destruct (negb _); apply Hgoal; [by right|by left]].
  intros e' He'.
  assert (pte_pageaddr e' = pa /\ Z.land e' PTE_LARGEBASE = Z.land pa PTE_LARGEBASE) as [Es El].
  { destruct (entry_base pa entry PTE_SMALLBASE Hpa eq_refl Hu) as [A1 A2]. destruct (entry_base pa entry PTE_LARGEBASE Hpa eq_refl Hu) as [B1 B2].
    fold (pte_pageaddr pa) in A1, A2. rewrite (pageaddr_of pa Hpa Hu) in A1, A2. by destruct He' as [-> | ->]. }
  split_and!.
  - intros x Hx. left. apply Hown. unfold reaches in Hx. rewrite Es in Hx. pose proof (Z.div_mod x PGSIZE ltac:(done)). pose proof (Z.mod_pos_bound x PGSIZE ltac:(done)). lia.
  - intros x Hx. left. apply (l2p_large la Hla Hval). fold pa. unfold reaches in Hx. rewrite El in Hx.
    change PTE_LARGEBASE with (2 ^ 32 - 2 ^ 22) in Hx. rewrite land_high in Hx by (done || lia). change (2 ^ 22) with LPGSIZE in Hx.
    apply (Z.mul_reg_r _ _ LPGSIZE); [done|lia].
  - assert (forall w, has (Z.land w (not32 PTE_RW)) PTE_PS = has w PTE_PS) as Hrw by (intros w; unfold has; rewrite <- Z.land_assoc; by change (Z.land (not32 PTE_RW) PTE_PS) with PTE_PS).
    destruct He' as [-> | ->]; rewrite ?Hrw; by apply has_lor_PS.
Qed.

(** ** The cache's operations *)
Lemma frame_set_hv i f h : frame_ok i f -> (forall k e, h !! k = Some e -> slot_ok i k e) -> frame_ok i (fr_set_hv f h).
Proof. by intros [? ? ? ? ?] Hh. Qed.
Lemma frame_hv_empty i f : frame_ok i f -> frame_ok i (fr_set_hv f ∅).
Proof. intros Hf. apply frame_set_hv; [done|]. intros k e He. by rewrite lookup_empty in He. Qed.
Lemma frame_set_pgt i f g : frame_ok i f -> (forall k t, g !! k = Some t -> is_tab t) -> frame_ok i (fr_set_pgt f g).
Proof. by intros [? ? ? ? ?] Hg. Qed.
Lemma frame_set_place i f pdi o : frame_ok i f -> (forall d, o = Some d -> is_dir d) -> frame_ok i (fr_set_place f pdi o).
Proof. by intros [? ? ? ? ?] Ho. Qed.
Lemma frame_set_last i f t : frame_ok i f -> frame_ok i (fr_set_last f t).
Proof. by intros [? ? ? ? ?]. Qed.
Lemma frame_set_page i f la m : frame_ok i f -> frame_ok i (fr_set_page f la m).
Proof. by intros [? ? ? ? ?]. Qed.

Lemma cache_fput c i f : cache_ok c -> frame_ok i f -> cache_ok (fput c i f).
Proof.
  intros [Hf Hd Ht Hc] Hi. split; try done. intros j g. cbn [fput frames]. destruct (decide (j = i)) as [->|Hne].
  - rewrite lookup_insert_eq. by intros [= <-].
  - rewrite lookup_insert_ne by done. apply Hf.
Qed.

Lemma fget_post c i : cache_ok c -> post (fget c i) (fun f => frames c !! i = Some f /\ frame_ok i f).
Proof. intros Hc. apply post_of_option. intros f Hf. split; [done|]. by apply (co_frames c Hc). Qed.

Lemma hv_store_post c t i e : cache_ok c -> slot_ok t i e -> post (hv_store c t i e) cache_ok.
Proof.
  intros Hc He. unfold hv_store. eapply post_bind; [by apply fget_post|]. intros f [_ Hf]. destruct (_ && _); [|apply post_fault].
  apply post_ok, cache_fput; [done|]. apply frame_set_hv; [done|]. intros k e'. destruct (decide (k = i)) as [->|].
  - rewrite lookup_insert_eq. by intros [= <-].
  - rewrite lookup_insert_ne by done. apply (fo_hv t f Hf).
Qed.

Definition typed (type : pgc_type) (i : Z) : Prop := match type with PGC_PGDIR => is_dir i | PGC_PGTAB => is_tab i end.

Lemma enqueue_ok c type i : cache_ok c -> typed type i -> cache_ok (pgc_enqueue c type i).
Proof. intros [? ? ? ?] Hi. destruct type; split; try done; by constructor. Qed.

Lemma dequeue_ok c type o c' : cache_ok c -> pgc_dequeue c type = (o, c') -> cache_ok c' /\ forall i, o = Some i -> typed type i.
Proof.
  intros [Hf Hd Ht Hc]. unfold pgc_dequeue, freelist. destruct type.
  - destruct (free_dir c) as [|x l] eqn:E; intros [= <- <-]; [split; [split; by rewrite ?E|done]|].
    apply Forall_cons in Hd as [Hx Hl]. split; [by split|]. by intros i [= <-].
  - destruct (free_tab c) as [|x l] eqn:E; intros [= <- <-]; [split; [split; by rewrite ?E|done]|].
    apply Forall_cons in Ht as [Hx Hl]. split; [by split|]. by intros i [= <-].
Qed.

Lemma chain_dirs c h : cache_ok c -> Forall is_dir (chain c h).
Proof. intros Hc. unfold chain. destruct (htab c !! h) eqn:E; [by apply (co_chain c Hc h)|by constructor]. Qed.

Lemma set_chain_ok c h l : cache_ok c -> Forall is_dir l -> cache_ok (set_chain c h l).
Proof.
  intros [Hf Hd Ht Hc] Hl. split; try done. intros j l'. cbn [set_chain htab]. destruct (decide (j = h)) as [->|].
  - rewrite lookup_insert_eq. by intros [= <-].
  - rewrite lookup_insert_ne by done. apply Hc.
Qed.

Lemma unchain_dirs i l : Forall is_dir l -> Forall is_dir (unchain i l).
Proof. induction 1 as [|x l Hx Hl IH]; cbn [unchain]; [by constructor|]. destruct (x =? i); [done|by constructor]. Qed.

Lemma enter_post c i : cache_ok c -> is_dir i -> post (pgc_enter c i) cache_ok.
Proof.
  intros Hc Hi. unfold pgc_enter. eapply post_bind; [by apply fget_post|]. intros f _. apply post_ok, set_chain_ok; [done|].
  constructor; [done|]. by apply chain_dirs.
Qed.

Lemma remove_post c i : cache_ok c -> post (pgc_remove c i) cache_ok.
Proof.
  intros Hc. unfold pgc_remove. eapply post_bind; [by apply fget_post|]. intros f _.
  destruct (match chain _ _ with [] => false | _ => true end); [|apply post_fault].
  apply post_ok, set_chain_ok; [done|]. by apply unchain_dirs, chain_dirs.
Qed.

Lemma free_pgtab_post c t : cache_ok c -> is_tab t -> post (pgc_free_pgtab c t) cache_ok.
Proof.
  intros Hc Ht. unfold pgc_free_pgtab. eapply post_bind; [by apply fget_post|]. intros f [_ Hf].
  eapply post_bind; [apply post_of_option; intros d Hd; exact (fo_pgd _ _ Hf d Hd)|]. intros d Hd. apply post_cassert. intros _.
  set (c1 := fput c t _). assert (cache_ok c1) as Hc1 by by apply cache_fput, frame_hv_empty, frame_set_place.
  eapply post_bind; [by apply fget_post|]. intros fd [_ Hfd]. set (c2 := fput c1 d _).
  assert (cache_ok c2) as Hc2.
  { apply cache_fput, frame_set_pgt; try done. intros k t' Hk. apply lookup_delete_Some in Hk as [_ Hk]. exact (fo_pgt _ _ Hfd k t' Hk). }
  eapply post_bind; [apply hv_store_post; [exact Hc2|apply slot_ok_zero]|]. intros c3 Hc3. by apply post_ok, enqueue_ok.
Qed.

Lemma free_tabs_post n : forall c d pdi, cache_ok c -> post (free_tabs n c d pdi) cache_ok.
Proof.
  induction n as [|n IH]; intros c d pdi Hc; cbn [free_tabs]; [by apply post_ok|]. eapply post_bind; [by apply fget_post|]. intros f [_ Hf].
  eapply post_bind; [|intros c' Hc'; by apply IH].
  destruct (fr_pgt f !! pdi) eqn:E; [|by apply post_ok]. apply free_pgtab_post; [done|]. exact (fo_pgt _ _ Hf _ _ E).
Qed.

Lemma free_post c i type : cache_ok c -> typed type i -> post (pgc_free c i type) cache_ok.
Proof.
  intros Hc Hi. destruct type; [|by apply free_pgtab_post]. cbn [pgc_free]. unfold pgc_free_pgdir.
  eapply post_bind; [by apply free_tabs_post|]. intros c1 Hc1. eapply post_bind; [by apply fget_post|]. intros f [_ Hf].
  eapply post_bind; [apply remove_post; by apply cache_fput, frame_hv_empty|]. intros c2 Hc2. by apply post_ok, enqueue_ok.
Qed.

Lemma pick_victim_post c l : forall v, Forall is_dir l -> (forall x, v = Some x -> is_dir x) ->
  post (pick_victim c l v) (fun o => forall x, o = Some x -> is_dir x).
Proof.
  induction l as [|i l IH]; intros v Hl Hv; cbn [pick_victim]; [by apply post_ok|]. apply Forall_cons in Hl as [Hi Hl].
  eapply (post_bind _ _ (fun _ => True)); [done|]. intros f _. destruct v as [v|].
  - eapply (post_bind _ _ (fun _ => True)); [done|]. intros fv _. apply IH; [done|]. intros x [= <-]. destruct (_ <=? _); [done|by apply Hv].
  - apply IH; [done|]. by intros x [= <-].
Qed.

Lemma all_chains_dirs c : cache_ok c -> Forall is_dir (all_chains c).
Proof.
  intros Hc. unfold all_chains. apply Forall_concat, Forall_fmap, Forall_forall. intros h _. by apply chain_dirs.
Qed.

Lemma gc_dirs_post fuel : forall c th type, cache_ok c -> post (gc_dirs fuel c th type) (fun r => cache_ok (snd r)).
Proof.
  induction fuel as [|fuel IH]; intros c th type Hc; cbn [gc_dirs]; [apply post_fault|].
  eapply post_bind; [apply pick_victim_post; [by apply all_chains_dirs|done]|]. intros v Hv.
  eapply post_bind; [apply post_of_option; intros x Hx; exact (Hv x Hx)|]. intros x Hx.
  eapply (post_bind _ _ cache_ok); [destruct (negb _); [by apply (free_post c x PGC_PGDIR)|by apply post_ok]|]. intros c1 Hc1.
  destruct (freelist c1 type); [|by apply post_ok]. destruct (x =? t_pgd th); [by apply post_ok|by apply IH].
Qed.

Lemma gc_post c th ticks type : cache_ok c -> thread_ok th ->
  post (pgc_garbage_collect c th ticks type) (fun r => cache_ok (fst r) /\ thread_ok (snd r)).
Proof.
  intros Hc Hth. unfold pgc_garbage_collect. apply post_cassert. intros _.
  eapply (post_bind _ _ (fun r => cache_ok r.1.1 /\ thread_ok r.1.2)).
  { destruct (t_flushed th) as [fl|] eqn:E; [|by apply post_ok]. destruct (negb _); [|by apply post_ok].
    eapply post_bind; [apply (free_post c fl PGC_PGDIR); [done|by apply (to_flushed _ Hth)]|]. intros c1 Hc1. apply post_ok. split; [done|]. destruct Hth. by split. }
  intros [[c1 th1] dn] [Hc1 Hth1]. cbn [fst snd] in *. destruct dn; [by apply post_ok|].
  eapply post_bind; [by apply gc_dirs_post|]. intros [found c2] Hc2. cbn [snd] in Hc2. destruct found; [by apply post_ok|].
  apply post_cassert. intros _. eapply post_bind; [by apply fget_post|]. intros f _. apply post_cassert. intros _.
  eapply post_bind; [apply (free_post c2 _ PGC_PGTAB); [done|]|].
  { cbn. unfold is_tab. pose proof (Z.mod_pos_bound ticks (NR_FRAMES - NR_DIR_FRAMES) ltac:(done)). lia. }
  intros c3 Hc3. apply post_cassert. intros _. by apply post_ok.
Qed.

Lemma alloc_post c th ticks laddr type : cache_ok c -> thread_ok th ->
  post (pgc_alloc l2p c th ticks laddr type) (fun r => cache_ok r.1.2 /\ thread_ok r.2 /\ forall i, r.1.1 = Some i -> typed type i).
Proof.
  intros Hc Hth. unfold pgc_alloc. destruct (_ && _); [by apply post_ok|].
  eapply (post_bind _ _ (fun r => cache_ok (fst r) /\ thread_ok (snd r))); [destruct (freelist c type); [by apply gc_post|by apply post_ok]|].
  intros [c1 th1] [Hc1 Hth1]. cbn [fst snd] in *. destruct (pgc_dequeue c1 type) as [o c2] eqn:Ed.
  destruct (dequeue_ok _ _ _ _ Hc1 Ed) as [Hc2 Ho].
  eapply post_bind; [apply post_of_option; intros i Hi; exact (Ho i Hi)|]. intros i Hi. eapply post_bind; [by apply fget_post|]. intros f [_ Hf].
  apply post_cassert. intros _. set (f' := match type with PGC_PGDIR => fr_set_last _ _ | PGC_PGTAB => _ end).
  assert (frame_ok i f') as Hf' by (subst f'; destruct type; [apply frame_set_last|]; by apply frame_hv_empty, frame_set_page).
  eapply (post_bind _ _ cache_ok); [destruct type; [apply enter_post; [by apply cache_fput|done]|by apply post_ok, cache_fput]|].
  intros c3 Hc3. apply post_ok. split_and!; try done. by intros j [= <-].
Qed.

Abbreviation set_pte := (pgc_set_pte l2p iopl2 max_phys_memory).

(** An entry may go into a page table, or it is a large page's or absent. *)
Definition settable (t entry : Z) : Prop := is_tab t \/ has entry PTE_PS = true \/ has entry PTE_P = false.

Lemma set_pte_post c t i entry : cache_ok c -> settable t entry -> post (set_pte c t i entry) (fun r => cache_ok (snd r)).
Proof.
  intros Hc Hs. unfold pgc_set_pte. destruct (shadow_of _ _ _ entry) as [ok e] eqn:E.
  eapply post_bind; [apply hv_store_post; [done|]|intros c' Hc'; by apply post_ok].
  intros HP. destruct (shadow_of_ok entry ok e E HP) as (Hsmall & Hlarge & HPS).
  case_bool_decide as Hd; [|done]. destruct Hs as [[Ht _]|[Hps|Hp]]; [lia| |].
  - right. left. by rewrite HPS.
  - unfold shadow_of in E. rewrite Hp in E. injection E as <- <-. done.
Qed.

Lemma set_pgtab_post c d pdi t pde : cache_ok c -> is_dir d -> is_tab t -> has pde PTE_PS = false ->
  post (pgc_set_pgtab c d pdi t (pte_flags pde)) cache_ok.
Proof.
  intros Hc Hd Ht Hps. unfold pgc_set_pgtab. eapply post_bind; [by apply fget_post|]. intros ft [_ Hft]. destruct (Hpages t (fo_range _ _ Hft)) as [Hpa Hpu].
  rewrite (fo_page _ _ Hft). eapply post_bind; [apply hv_store_post; [done|]|].
  { intros _. rewrite bool_decide_eq_true_2 by apply Hd. right. right. split.
    - by rewrite has_lor_PS.
    - exists t. split; [done|]. unfold pte_pageaddr. destruct (entry_base (shadow_page t) pde PTE_SMALLBASE Hpa eq_refl Hpu) as [-> _].
      by apply pageaddr_of. }
  intros c1 Hc1. eapply post_bind; [by apply fget_post|]. intros fd [_ Hfd]. set (c2 := fput c1 d _).
  assert (cache_ok c2) as Hc2.
  { apply cache_fput, frame_set_pgt; try done. intros k t' Hk. apply lookup_insert_Some in Hk as [[_ <-]|[_ Hk]]; [done|exact (fo_pgt _ _ Hfd k t' Hk)]. }
  eapply post_bind; [by apply fget_post|]. intros ft' [_ Hft']. apply post_ok, cache_fput; [done|]. apply frame_set_place; [done|]. by intros d' [= <-].
Qed.

Lemma map_hypervisor_post n : forall c d pdi, cache_ok c -> is_dir d -> NR_LPAR_PGTABS <= pdi -> post (map_hypervisor hv_pgd n c d pdi) cache_ok.
Proof.
  induction n as [|n IH]; intros c d pdi Hc Hd Hp; cbn [map_hypervisor]; [by apply post_ok|].
  eapply post_bind; [apply hv_store_post; [done|]|intros c' Hc'; apply IH; done || lia].
  intros _. rewrite bool_decide_eq_true_2 by apply Hd. by left.
Qed.

Lemma hypervisor_mapping_post c d : cache_ok c -> is_dir d -> post (pgc_hypervisor_mapping hv_pgd c d) cache_ok.
Proof. intros Hc Hd. by apply map_hypervisor_post. Qed.

(** The bits of an entry that its low word shows. *)
Lemma has_flags e b : Z.land PTE_FLAGS b = b -> has (pte_flags e) b = has e b.
Proof. intros Hb. unfold has, pte_flags. by rewrite <- Z.land_assoc, Hb. Qed.

Lemma map_linear_post n : forall c d pdi laddr, cache_ok c -> post (map_linear l2p iopl2 max_phys_memory n c d pdi laddr) cache_ok.
Proof.
  induction n as [|n IH]; intros c d pdi laddr Hc; cbn [map_linear]; [by apply post_ok|].
  eapply post_bind; [apply set_pte_post; [done|]|intros [ok c'] Hc'; apply post_cassert; intros _; by apply IH].
  right. left. unfold has. apply truth_true. intros E. apply (f_equal (fun z => Z.testbit z 7)) in E. cbn [fold_left] in E.
  rewrite Z.land_spec, !Z.lor_spec, Z.bits_0 in E. change (Z.testbit PTE_PS 7) with true in E. by rewrite ?orb_true_r in E.
Qed.

Lemma flush_post n : forall c d pdi, cache_ok c -> post (flush_loop l2p iopl2 max_phys_memory n c d pdi) cache_ok.
Proof.
  induction n as [|n IH]; intros c d pdi Hc; cbn [flush_loop]; [by apply post_ok|]. eapply post_bind; [by apply fget_post|]. intros f [_ Hf].
  eapply (post_bind _ _ cache_ok); [|intros c' Hc'; by apply IH]. destruct (negb _); [by apply post_ok|]. destruct (negb _).
  - eapply post_bind; [apply post_of_option; intros t Et; exact (fo_pgt _ _ Hf _ _ Et)|]. intros t Ht. by apply (free_post c t PGC_PGTAB).
  - eapply post_bind; [apply set_pte_post; [done|by right; right]|]. intros [ok c'] Hc'. by apply post_ok.
Qed.

Lemma prefetch_entries_post n m : forall c t i st, cache_ok c -> is_tab t ->
  post (prefetch_entries l2p iopl2 max_phys_memory n m c t i st) (fun r => cache_ok (snd r)).
Proof.
  induction n as [|n IH]; intros c t i st Hc Ht; cbn [prefetch_entries]; [by apply post_ok|]. eapply post_bind; [by apply fget_post|]. intros f _.
  eapply post_bind; [apply set_pte_post; [done|by left]|]. intros [ok c'] Hc'. by apply IH.
Qed.

Lemma prefetch_pgtab_post m c t : cache_ok c -> is_tab t -> post (pgc_prefetch_pgtab l2p iopl2 max_phys_memory m c t) (fun r => cache_ok (snd r)).
Proof. apply prefetch_entries_post. Qed.

Definition ok3 {A} (r : A * pgcache * xthread) : Prop := cache_ok r.1.2 /\ thread_ok r.2.

Lemma prefetch_pde_post m c th ticks d pdi : cache_ok c -> thread_ok th -> is_dir d ->
  post (prefetch_pde l2p iopl2 max_phys_memory m c th ticks d pdi) ok3.
Proof.
  intros Hc Hth Hd. unfold prefetch_pde. eapply post_bind; [by apply fget_post|]. intros f [_ Hf]. set (pde := lp_word m f pdi).
  rewrite !has_flags by done.
  assert (post (match fr_pgt f !! pdi with Some t => pgc_free c t PGC_PGTAB | None => Ok c end) cache_ok) as Hfree.
  { destruct (fr_pgt f !! pdi) as [t|] eqn:E; [|by apply post_ok]. apply (free_post c t PGC_PGTAB); [done|exact (fo_pgt _ _ Hf _ _ E)]. }
  destruct (negb (has pde PTE_P)).
  { eapply post_bind; [exact Hfree|]. intros c1 Hc1. eapply post_bind; [apply set_pte_post; [done|by right; right]|]. intros [ok c2] Hc2. by apply post_ok. }
  destruct (has pde PTE_PS) eqn:Eps.
  { eapply post_bind; [exact Hfree|]. intros c1 Hc1. eapply post_bind; [apply set_pte_post; [done|by right; left]|]. intros [ok c2] Hc2. by apply post_ok. }
  eapply (post_bind _ _ (fun r => cache_ok (snd r))).
  { destruct (fr_pgt f !! pdi) as [t|] eqn:E; [|by apply post_ok]. pose proof (fo_pgt _ _ Hf _ _ E) as Ht. eapply post_bind; [by apply fget_post|]. intros ft _.
    destruct (_ =? _); [eapply post_bind; [by apply prefetch_pgtab_post|]; intros [st c1] Hc1; by apply post_ok|].
    eapply post_bind; [by apply (free_post c t PGC_PGTAB)|]. intros c1 Hc1. by apply post_ok. }
  intros [kept c1] Hc1. cbn [snd] in Hc1. destruct kept; [by apply post_ok|].
  eapply post_bind; [by apply alloc_post|]. intros [[o c2] th2] (Hc2 & Hth2 & Ho). cbn [fst snd] in *. destruct o as [t|].
  - eapply post_bind; [apply set_pgtab_post; [done..|by apply Ho|done]|]. intros c3 Hc3.
    eapply post_bind; [apply prefetch_pgtab_post; [done|by apply Ho]|]. intros [st c4] Hc4. by apply post_ok.
  - eapply post_bind; [apply set_pte_post; [done|by right; right]|]. intros [ok c3] Hc3. by apply post_ok.
Qed.

Lemma prefetch_post m c th ticks i type : cache_ok c -> thread_ok th -> typed type i ->
  post (pgc_prefetch l2p iopl2 max_phys_memory m c th ticks i type) ok3.
Proof.
  intros Hc Hth Hi. destruct type; cbn [pgc_prefetch].
  - assert (forall n c th pdi st, cache_ok c -> thread_ok th -> post (prefetch_pdes l2p iopl2 max_phys_memory n m c th ticks i pdi st) ok3) as Hl; [|by apply Hl].
    clear c th Hc Hth. induction n as [|n IH]; intros c th pdi st Hc Hth; cbn [prefetch_pdes]; [by apply post_ok|].
    eapply post_bind; [by apply prefetch_pde_post|]. intros [[ok c1] th1] [Hc1 Hth1]. by apply IH.
  - eapply post_bind; [by apply prefetch_pgtab_post|]. intros [st c1] Hc1. by apply post_ok.
Qed.

(** ** Faults and calls *)
Definition st_ok (s : xst) : Prop := cache_ok (xc s) /\ thread_ok (xt s).

(** Registers, gates and memory do not matter. *)
Definition same_tables (s s' : xst) : Prop := xc s' = xc s /\ xt s' = xt s.

Lemma same_st_ok s s' : same_tables s s' -> st_ok s -> st_ok s'.
Proof. intros [E1 E2]. unfold st_ok. by rewrite E1, E2. Qed.

Lemma store_bytes_post bs : forall s va, post (store_bytes s va bs) (same_tables s).
Proof.
  induction bs as [|b bs IH]; intros s va; cbn [store_bytes]; [by apply post_ok|]. eapply (post_bind _ _ (fun _ => True)); [done|]. intros pa _.
  destruct (negb _); [|apply post_fault]. eapply post_weaken; [apply IH|]. by intros s' [? ?].
Qed.

Section Exceptions.
Context (copybuf1 iopl : Z).

Lemma push_post s v : post (push hv_pgd copybuf1 s v) (same_tables s).
Proof.
  unfold push. eapply (post_bind _ _ (fun r => same_tables s (snd r))).
  - unfold put_lpar. eapply (post_bind _ _ (fun _ => True)); [done|]. intros d _. destruct (_ =? _).
    + eapply post_bind; [apply store_bytes_post|]. intros s' [? ?]. by apply post_ok.
    + eapply (post_bind _ _ (fun _ => True)); [done|]. intros pa _. destruct (pa =? _); [by apply post_ok|].
      eapply (post_bind _ _ (fun _ => True)); [done|]. intros h _. by apply post_ok.
  - intros [ok s'] Hs. apply post_cassert. intros _. by apply post_ok.
Qed.

Lemma pushes_post vs : forall s, post (pushes hv_pgd copybuf1 s vs) (same_tables s).
Proof.
  induction vs as [|v vs IH]; intros s; cbn [pushes]; [by apply post_ok|]. eapply post_bind; [apply push_post|]. intros s1 [E1 E2].
  eapply post_weaken; [apply IH|]. intros s2 [E3 E4]. split; congruence.
Qed.

(** A handler of faults that keeps the tables in order. *)
Definition keeps (h : xst -> Z -> Z -> res (Z * xst)) : Prop := forall s e a, st_ok s -> post (h s e a) (fun r => st_ok (snd r)).

Lemma push_exception_post pf s pl ex : keeps pf -> st_ok s -> post (push_exception_state hv_pgd copybuf1 iopl pf s pl ex) (fun r => st_ok (snd r)).
Proof.
  intros Hpf Hs. unfold push_exception_state. set (s1 := if pl then _ else s). assert (st_ok s1) as Hs1 by by destruct pl.
  eapply (post_bind _ _ (fun _ => True)); [done|]. intros p _. eapply (post_bind _ _ (fun r => st_ok (snd r))).
  { destruct p as [[er fa]|]; [|by apply post_ok]. eapply post_bind; [by apply Hpf|]. intros [r s2] Hs2. cbn [fst snd] in *.
    destruct (truth r); [apply post_cassert; intros _|]; by apply post_ok. }
  intros [failed s2] Hs2. cbn [snd] in Hs2. destruct failed; [by apply post_ok|].
  eapply (post_bind _ _ st_ok).
  { destruct pl; [|by apply post_ok]. eapply post_weaken; [apply pushes_post|]. intros s3 H3. by eapply same_st_ok. }
  intros s3 Hs3. apply post_cassert. intros _. eapply post_bind; [apply pushes_post|]. intros s4 H4. apply post_ok. by eapply same_st_ok.
Qed.

Lemma force_with_keeps pf : keeps pf -> keeps (force_page_fault_with hv_pgd copybuf1 iopl pf).
Proof.
  intros Hpf s e a Hs. unfold force_page_fault_with. eapply (post_bind _ _ (fun r => st_ok (snd r))).
  { unfold force_sync_exception. eapply post_bind; [by apply push_exception_post|]. intros [failed s1] Hs1. cbn [snd] in Hs1.
    destruct (truth failed); [by apply post_ok|]. apply post_ok. by destruct (_ =? _). }
  intros [failed s1] Hs1. cbn [snd] in Hs1. destruct (truth failed); [by apply post_ok|]. eapply post_bind; [apply push_post|]. intros s2 H2.
  apply post_ok. destruct (same_st_ok _ _ H2 Hs1) as [Hc Ht]. split; [done|]. by destruct Ht.
Qed.

Lemma x_set_pte_post s t i e : st_ok s -> settable t e -> post (x_set_pte l2p iopl2 max_phys_memory s t i e) (fun r => st_ok (snd r)).
Proof.
  intros [Hc Ht] He. unfold x_set_pte. eapply post_bind; [by apply set_pte_post|]. intros [ok c] Hc'. by apply post_ok.
Qed.

Lemma x_prefetch_post s ticks i type : st_ok s -> typed type i -> post (x_prefetch l2p iopl2 max_phys_memory s ticks i type) st_ok.
Proof.
  intros [Hc Ht] Hi. unfold x_prefetch. eapply post_bind; [by apply prefetch_post|]. intros [[st c] th] Hr. by apply post_ok.
Qed.

Lemma new_pgtab_post s ticks d pdi pde : st_ok s -> is_dir d -> has pde PTE_PS = false ->
  post (new_pgtab l2p iopl2 max_phys_memory s ticks d pdi pde) (fun r => st_ok (snd r) /\ forall t, fst r = Some t -> is_tab t).
Proof.
  intros [Hc Ht] Hd Hp. unfold new_pgtab. eapply post_bind; [by apply alloc_post|]. intros [[o c] th] (Hc1 & Ht1 & Ho). cbn [fst snd] in *.
  destruct o as [t|]; [|by apply post_ok]. specialize (Ho t eq_refl). eapply post_bind; [by apply set_pgtab_post|]. intros c2 Hc2.
  eapply post_bind; [apply x_prefetch_post; [by split|done]|]. intros s2 Hs2. apply post_ok. split; [done|]. by intros t' [= <-].
Qed.

Lemma callback_post s ticks : st_ok s -> post (shadow_fault_callback l2p iopl2 max_phys_memory s ticks) st_ok.
Proof.
  intros [Hc Ht]. unfold shadow_fault_callback. set (s1 := with_t s _). assert (st_ok s1) as Hs1 by (split; [done|by destruct Ht]).
  eapply post_bind; [by apply fget_post|]. intros fd [_ Hfd]. set (pde := lp_word _ _ _). destruct (negb (has pde PTE_P)); [by apply post_ok|].
  destruct (has pde PTE_PS) eqn:Eps.
  { eapply post_bind; [apply x_set_pte_post; [done|by right; left]|]. intros r Hr. by apply post_ok. }
  eapply (post_bind _ _ (fun r => st_ok (snd r) /\ forall t, fst r = Some t -> is_tab t)).
  { destruct (fr_pgt fd !! _) as [t|] eqn:E; [apply post_ok; split; [done|]; intros t' [= <-]; exact (fo_pgt _ _ Hfd _ _ E)|].
    apply new_pgtab_post; [done|apply Ht|done]. }
  intros [[t|] s2] [Hs2 Hto]; cbn [fst snd] in *; [|by apply post_ok].
  eapply post_bind; [apply fget_post, Hs2|]. intros f _. destruct (negb _); [by apply post_ok|].
  eapply post_bind; [apply x_set_pte_post; [done|left; by apply Hto]|]. intros r Hr. by apply post_ok.
Qed.

Section Handlers.
Context (force : xst -> Z -> Z -> res (Z * xst)) (Hforce : keeps force).

Lemma forward_post s e a : st_ok s -> post (forward force s e a) (fun r => st_ok (snd r)).
Proof.
  intros Hs. unfold forward. eapply post_bind; [by apply Hforce|]. intros [failed s1] [Hc Ht]. apply post_ok. cbn [snd] in *.
  destruct (truth failed); [done|]. split; [done|by destruct Ht].
Qed.

Lemma set_or_forward s t i en e a : st_ok s -> settable t en ->
  post (let! r := x_set_pte l2p iopl2 max_phys_memory s t i en in let '(ok, s) := r in if ok then Ok (0, s) else forward force s e a)
    (fun r => st_ok (snd r)).
Proof.
  intros Hs He. eapply post_bind; [by apply x_set_pte_post|]. intros [ok s1] Hs1. cbn [snd] in Hs1.
  destruct ok; [by apply post_ok|by apply forward_post].
Qed.

Lemma linear_post s e a : st_ok s -> post (linear_fault l2p iopl2 max_phys_memory force s e a) (fun r => st_ok (snd r)).
Proof.
  intros Hs. unfold linear_fault. eapply post_bind; [apply fget_post, Hs|]. intros fd _. apply post_cassert. intros _.
  eapply post_bind; [apply x_set_pte_post; [done|right; left]|].
  { unfold has. apply truth_true. intros E. apply (f_equal (fun z => Z.testbit z 7)) in E. cbn [fold_left] in E.
    rewrite Z.land_spec, !Z.lor_spec, Z.bits_0 in E. change (Z.testbit PTE_PS 7) with true in E. by rewrite ?orb_true_r in E. }
  intros [ok s1] Hs1. destruct ok; [by apply post_ok|]. eapply post_bind; [by apply Hforce|]. intros r Hr. by apply post_ok.
Qed.

Lemma shadow_pte_post s t pti mask e a : st_ok s -> is_tab t ->
  post (shadow_pte_fault l2p iopl2 max_phys_memory force s t pti mask e a) (fun r => st_ok (snd r)).
Proof.
  intros Hs Ht. unfold shadow_pte_fault. eapply post_bind; [apply fget_post, Hs|]. intros f _. destruct (negb _); [by apply forward_post|].
  destruct (_ && _); [by apply forward_post|]. eapply (post_bind _ _ (fun r => st_ok (snd r))).
  { destruct (_ && _); [|by apply post_ok]. eapply (post_bind _ _ st_ok); [|intros s1 Hs1; by apply post_ok].
    unfold lp_or. eapply post_bind; [apply fget_post, Hs|]. intros f' _. by apply post_ok. }
  intros [pte s1] Hs1. cbn [snd] in Hs1. apply set_or_forward; [done|by left].
Qed.

Lemma land_both lp : Z.land lp (Z.lor PTE_PS PTE_RW) = Z.lor PTE_PS PTE_RW -> forall x, has (Z.lor lp x) PTE_PS = true.
Proof.
  intros E x. unfold has. apply truth_true. intros E0. apply (f_equal (fun z => Z.testbit z 7)) in E, E0.
  rewrite Z.land_spec in E. rewrite Z.land_spec, Z.lor_spec, Z.bits_0 in E0. change (Z.testbit (Z.lor PTE_PS PTE_RW) 7) with true in E.
  rewrite andb_true_r in E. rewrite E in E0. done.
Qed.

Lemma shadow_post s ticks e a : st_ok s -> post (shadow_fault l2p iopl2 max_phys_memory force s ticks e a) (fun r => st_ok (snd r)).
Proof.
  intros Hs. unfold shadow_fault. eapply post_bind; [apply fget_post, Hs|]. intros fd [_ Hfd]. set (pde := lp_word _ _ _). set (hpde := hv_entry _ _).
  destruct (negb (Z.land pde _ =? _)); [by apply forward_post|].
  destruct (negb (has hpde PTE_P) && negb (has pde PTE_P)) eqn:E1; [by apply forward_post|].
  destruct (negb (has hpde PTE_P) && has pde PTE_PS) eqn:E2.
  { apply andb_true_iff in E2 as [_ E2]. apply set_or_forward; [done|by right; left]. }
  eapply (post_bind _ _ (fun r => st_ok (snd r) /\ forall t, fst r = Some t -> is_tab t)).
  { destruct (negb (has hpde PTE_P)).
    - apply new_pgtab_post; [done|apply Hs|exact E2].
    - apply post_ok. split; [done|]. cbn [fst]. intros t Ht. exact (fo_pgt _ _ Hfd _ _ Ht). }
  intros [o s1] [Hs1 Ho]. cbn [fst snd] in *. destruct (_ && _ && _) eqn:E3.
  - apply andb_true_iff in E3 as [_ E3%Z.eqb_eq]. eapply (post_bind _ _ st_ok).
    { unfold lp_or. eapply post_bind; [apply fget_post, Hs1|]. intros f' _. by apply post_ok. }
    intros s2 Hs2. apply set_or_forward; [done|]. right. left. by apply land_both.
  - destruct o as [t|]; [|by apply forward_post]. apply shadow_pte_post; [done|by apply Ho].
Qed.

Lemma page_fault_with_keeps ticks : keeps (page_fault_with l2p iopl2 max_phys_memory force ticks).
Proof.
  intros s e a Hs. unfold page_fault_with. apply post_cassert. intros _. destruct (has e 8).
  { eapply post_bind; [by apply Hforce|]. intros r Hr. by apply post_ok. }
  eapply post_bind; [apply fget_post, Hs|]. intros fd _. destruct (_ =? _); [by apply linear_post|by apply shadow_post].
Qed.

End Handlers.

Lemma force_keeps depth ticks : keeps (force_page_fault l2p iopl2 max_phys_memory hv_pgd copybuf1 iopl depth ticks).
Proof.
  induction depth as [|depth IH]; intros s e a Hs; cbn [force_page_fault]; [apply post_fault|].
  by apply force_with_keeps, Hs; apply page_fault_with_keeps.
Qed.

Lemma page_fault_post depth ticks s e a : st_ok s ->
  post (page_fault l2p iopl2 max_phys_memory hv_pgd copybuf1 iopl depth ticks s e a) (fun r => st_ok (snd r)).
Proof. apply page_fault_with_keeps, force_keeps. Qed.

Lemma activate_post s ticks d : st_ok s -> is_dir d -> post (activate s ticks d) st_ok.
Proof.
  intros [Hc Ht] Hd. unfold activate. eapply post_bind; [by apply fget_post|]. intros f [_ Hf]. apply post_ok. split.
  - by apply cache_fput, frame_set_last.
  - destruct Ht. split; try done. exact (fo_page _ _ Hf).
Qed.

Lemma hints_post s ticks flags d : st_ok s -> is_dir d -> post (h_page_dir_hints l2p iopl2 max_phys_memory s ticks flags d) (fun r => st_ok (snd r)).
Proof.
  intros Hs Hd. unfold h_page_dir_hints. eapply (post_bind _ _ st_ok).
  { destruct (_ =? _).
    - destruct Hs as [Hc Ht]. eapply (post_bind _ _ cache_ok).
      + destruct (t_flushed (xt s)) as [f|] eqn:E; [|by apply post_ok]. destruct (negb _); [|by apply post_ok].
        apply (free_post _ f PGC_PGDIR); [done|by apply (to_flushed _ Ht)].
      + intros c Hc'. apply post_ok. split; [done|]. destruct Ht. split; try done. by intros f [= <-].
    - destruct (truth _); [by apply x_prefetch_post|by apply post_ok]. }
  intros s1 Hs1. eapply (post_bind _ _ st_ok); [destruct (has flags _); [by apply activate_post|by apply post_ok]|]. intros s2 Hs2. by apply post_ok.
Qed.

Lemma find_laddr_post c l la : Forall is_dir l -> post (find_laddr c l la) (fun o => forall d, o = Some d -> is_dir d).
Proof.
  induction 1 as [|i l Hi Hl IH]; cbn [find_laddr]; [by apply post_ok|]. eapply (post_bind _ _ (fun _ => True)); [done|]. intros f _.
  destruct (_ =? _); [|done]. apply post_ok. by intros d [= <-].
Qed.

Lemma page_dir_post s ticks flags la : st_ok s -> post (h_page_dir l2p iopl2 max_phys_memory hv_pgd s ticks flags la) (fun r => st_ok (snd r)).
Proof.
  intros Hs. unfold h_page_dir. eapply post_bind; [apply find_laddr_post, chain_dirs, Hs|]. intros [d|] Hd.
  - specialize (Hd d eq_refl). destruct (_ =? _); [|by apply hints_post]. eapply post_bind; [by apply activate_post|]. intros s1 Hs1. by apply post_ok.
  - eapply post_bind; [apply alloc_post; apply Hs|]. intros [[o c] th] (Hc & Ht & Ho). cbn [fst snd] in *. destruct o as [d|]; [|by apply post_ok].
    specialize (Ho d eq_refl). eapply post_bind; [by apply hypervisor_mapping_post|]. intros c1 Hc1. by apply hints_post.
Qed.

(** What [flush_single] must not meet: a large page whose new entry is not a large page's. *)
Definition flush_safe (s : xst) (flags vaddr : Z) : Prop :=
  has flags H_FLUSH_TLB_SINGLE = true -> has flags H_FLUSH_TLB_PREFETCH = true ->
  forall fd, frames (xc s) !! t_pgd (xt s) = Some fd -> has (hv_entry fd (pdi_of vaddr)) PTE_PS = true ->
  has (lp_word (xm s) fd (pti_of vaddr)) PTE_PS = true \/ has (lp_word (xm s) fd (pti_of vaddr)) PTE_P = false.

Lemma both_bits e : Z.land e (Z.lor PTE_PS PTE_P) = Z.lor PTE_PS PTE_P -> has e PTE_PS = true.
Proof.
  intros E. unfold has. apply truth_true. intros E0. apply (f_equal (fun z => Z.testbit z 7)) in E, E0.
  rewrite Z.land_spec in E, E0. change (Z.testbit (Z.lor PTE_PS PTE_P) 7) with true in E. change (Z.testbit PTE_PS 7) with true in E0.
  rewrite andb_true_r in E, E0. rewrite Z.bits_0 in E0. congruence.
Qed.

Lemma flush_single_post s va pre : st_ok s -> (forall flags, has flags H_FLUSH_TLB_SINGLE = true -> has flags H_FLUSH_TLB_PREFETCH = pre -> flush_safe s flags va) ->
  post (flush_single l2p iopl2 max_phys_memory s va pre) (fun r => st_ok (snd r)).
Proof.
  intros Hs Hsafe. unfold flush_single. destruct (_ <=? _); [by apply post_ok|]. eapply post_bind; [apply fget_post, Hs|]. intros fd [Efd Hfd].
  eapply (post_bind _ _ (fun r => st_ok (snd r))).
  { destruct (_ =? PTE_P).
    - eapply post_bind; [apply post_of_option; intros t Et; exact (fo_pgt _ _ Hfd _ _ Et)|]. intros t Ht. eapply post_bind; [apply fget_post, Hs|]. intros ft _.
      apply x_set_pte_post; [done|by left].
    - destruct (Z.eqb_spec (Z.land (hv_entry fd (pdi_of va)) (Z.lor PTE_PS PTE_P)) (Z.lor PTE_PS PTE_P)) as [E%both_bits|]; [|by apply post_ok].
      apply x_set_pte_post; [done|]. destruct pre; [|by right; right]. right. apply (Hsafe (Z.lor H_FLUSH_TLB_SINGLE H_FLUSH_TLB_PREFETCH)); done. }
  intros [ok s1] Hs1. cbn [snd] in Hs1. destruct (negb ok); [by apply post_ok|]. apply post_ok. cbn [snd]. destruct (_ && _); [|done].
  destruct Hs1 as [Hc Ht]. split; [done|by destruct Ht].
Qed.

Lemma flush_all_post s ticks pre : st_ok s -> post (flush_all l2p iopl2 max_phys_memory s ticks pre) (fun r => st_ok (snd r)).
Proof.
  intros Hs. unfold flush_all. eapply (post_bind _ _ st_ok).
  { destruct pre; [apply x_prefetch_post; [done|apply Hs]|]. eapply post_bind; [apply flush_post, Hs|]. intros c Hc. apply post_ok. by split; [|apply Hs]. }
  intros s1 [Hc Ht]. apply post_ok. cbn [snd]. destruct (_ && _); [split; [done|by destruct Ht]|done].
Qed.

Lemma flush_tlb_post s ticks flags va : st_ok s -> flush_safe s flags va ->
  post (h_flush_tlb l2p iopl2 max_phys_memory s ticks flags va) (fun r => st_ok (snd r)).
Proof.
  intros Hs Hsafe. unfold h_flush_tlb. destruct (has flags H_FLUSH_TLB_SINGLE) eqn:E1.
  - apply flush_single_post; [done|]. intros flags' H1 H2. destruct (has flags H_FLUSH_TLB_PREFETCH) eqn:E2; [by intros _ _; apply Hsafe|].
    intros _ H3. congruence.
  - destruct (has flags H_FLUSH_TLB_ALL); [by apply flush_all_post|]. destruct (has flags H_FLUSH_TLB_GLOBAL); [by apply flush_all_post|by apply post_ok].
Qed.

Lemma get_pte_post s flags va : st_ok s -> post (h_get_pte l2p iopl2 max_phys_memory s flags va) (fun r => st_ok (snd r)).
Proof.
  intros Hs. unfold h_get_pte. destruct (_ <=? _); [by apply post_ok|]. eapply post_bind; [apply fget_post, Hs|]. intros fd [_ Hfd].
  destruct (has flags _); [by apply post_ok|]. destruct (has flags _).
  { destruct (negb _); [by apply post_ok|]. eapply (post_bind _ _ (fun _ => True)); [done|]. intros r _. by apply post_ok. }
  destruct (has flags _); [|by apply post_ok]. destruct (negb _); [by apply post_ok|]. destruct (has _ PTE_PS).
  { eapply (post_bind _ _ (fun _ => True)); [done|]. intros r _. by apply post_ok. }
  eapply post_bind; [apply post_of_option; intros t Et; exact (fo_pgt _ _ Hfd _ _ Et)|]. intros t Ht. eapply post_bind; [apply fget_post, Hs|]. intros ft _.
  destruct (negb _); [by apply post_ok|]. destruct (has flags _); [|by apply post_ok].
  eapply (post_bind _ _ (fun r => st_ok (snd r))); [destruct (negb _); [apply x_set_pte_post; [done|by left]|by apply post_ok]|].
  intros [ok s1] Hs1. cbn [snd] in Hs1. destruct (negb ok); [by apply post_ok|]. eapply post_bind; [apply fget_post, Hs1|]. intros ft' _. by apply post_ok.
Qed.

(** ** Runs *)

(** What the partition does, and what happens on its behalf: it computes, writes its memory and
    registers at will, makes calls, faults, and returns from its handler. *)
Inductive guest_step : xst -> xst -> Prop :=
  | Guest_runs s s' : same_tables s s' -> guest_step s s'
  | Guest_page_dir s ticks flags la r s' : h_page_dir l2p iopl2 max_phys_memory hv_pgd s ticks flags la = Ok (r, s') -> guest_step s s'
  | Guest_flush s ticks flags va r s' :
      flush_safe s flags va -> h_flush_tlb l2p iopl2 max_phys_memory s ticks flags va = Ok (r, s') -> guest_step s s'
  | Guest_get_pte s flags va r s' : h_get_pte l2p iopl2 max_phys_memory s flags va = Ok (r, s') -> guest_step s s'
  | Guest_faults s depth ticks e a r s' :
      page_fault l2p iopl2 max_phys_memory hv_pgd copybuf1 iopl depth ticks s e a = Ok (r, s') -> guest_step s s'
  | Guest_returns s ticks s' : t_cb (xt s) = true -> shadow_fault_callback l2p iopl2 max_phys_memory s ticks = Ok s' -> guest_step s s'.

Lemma guest_step_ok s s' : guest_step s s' -> st_ok s -> st_ok s'.
Proof.
  intros [s0 s1 E|s0 ticks flags la r s1 E|s0 ticks flags va r s1 Hsafe E|s0 flags va r s1 E|s0 depth ticks e a r s1 E|s0 ticks s1 _ E] Hs.
  - by eapply same_st_ok.
  - exact (page_dir_post _ _ _ _ Hs _ E).
  - exact (flush_tlb_post _ _ _ _ Hs Hsafe _ E).
  - exact (get_pte_post _ _ _ Hs _ E).
  - exact (page_fault_post _ _ _ _ _ Hs _ E).
  - exact (callback_post _ _ Hs _ E).
Qed.

Lemma run_ok s s' : rtc guest_step s s' -> st_ok s -> st_ok s'.
Proof. induction 1; eauto using guest_step_ok. Qed.

End Exceptions.

(** ** The beginning *)
Lemma init_frames page n : forall k i f, (list_to_map ((fun i => (Z.of_nat i, init_frame page (Z.of_nat i))) <$> seq k n) : gmap Z pgframe) !! i = Some f ->
  Z.of_nat k <= i < Z.of_nat (k + n) /\ f = init_frame page i.
Proof.
  induction n as [|n IH]; intros k i f; cbn [seq fmap list_fmap list_to_map foldr]; [done|]. cbn [fst snd].
  intros [[<- <-]|[Hne Hl]]%lookup_insert_Some; [split; [lia|done]|]. apply IH in Hl as [? ->]. split; [lia|done].
Qed.

Lemma init_ok page : (forall i, shadow_page i = page (3 * i + 1)) -> cache_ok (pgc_init page).
Proof.
  intros Hp. split.
  - intros i f Hf. apply init_frames in Hf as [Hr ->]. split; try done.
  - apply Forall_fmap, Forall_seq. intros j Hj. change (Z.to_nat NR_DIR_FRAMES) with 102%nat in Hj. change (0 <= Z.of_nat j < 102). lia.
  - apply Forall_fmap, Forall_seq. intros j Hj. change (Z.to_nat NR_DIR_FRAMES) with 102%nat in Hj. change (Z.to_nat (NR_FRAMES - NR_DIR_FRAMES)) with 410%nat in Hj.
    change (102 <= Z.of_nat j < 512). lia.
  - intros h l Hl. cbn in Hl. by rewrite lookup_empty in Hl.
Qed.

Lemma start_post page ticks : (forall i, shadow_page i = page (3 * i + 1)) ->
  post (start_thread l2p iopl2 max_phys_memory hv_pgd page ticks) (fun r => cache_ok (fst r) /\ thread_ok (snd r)).
Proof.
  intros Hp. unfold start_thread.
  assert (post (pgc_alloc l2p (pgc_init page) (XThread 0 None 0 0 false) ticks INVALID_PADDR PGC_PGDIR)
    (fun r => cache_ok r.1.2 /\ forall d, r.1.1 = Some d -> is_dir d)) as Ha.
  { unfold pgc_alloc. cbn [negb Z.eqb]. rewrite Z.eqb_refl. cbn [negb andb]. change (freelist (pgc_init page) PGC_PGDIR) with (Z.of_nat <$> seq 0 (Z.to_nat NR_DIR_FRAMES)).
    change (seq 0 (Z.to_nat NR_DIR_FRAMES)) with (0%nat :: seq 1 101). cbn [fmap list_fmap res_bind].
    destruct (pgc_dequeue (pgc_init page) PGC_PGDIR) as [o c2] eqn:Ed. destruct (dequeue_ok _ _ _ _ (init_ok page Hp) Ed) as [Hc2 Ho].
    eapply post_bind; [apply post_of_option; intros i Hi; exact (Ho i Hi)|]. intros i Hi. eapply post_bind; [by apply fget_post|]. intros f [_ Hf].
    apply post_cassert. intros _. eapply post_bind; [apply enter_post; [|exact Hi]; by apply cache_fput, frame_set_last, frame_hv_empty, frame_set_page|].
    intros c3 Hc3. apply post_ok. split; [done|]. by intros d [= <-]. }
  eapply post_bind; [exact Ha|]. intros [[o c] th] [Hc Ho]. cbn [fst snd] in *.
  eapply post_bind; [apply post_of_option; intros d Hd; exact (Ho d Hd)|]. intros d Hd.
  eapply (post_bind _ _ cache_ok).
  { unfold pgc_initial_mapping. eapply post_bind; [by apply hypervisor_mapping_post|]. intros c1 Hc1. by apply map_linear_post. }
  intros c1 Hc1. eapply post_bind; [by apply fget_post|]. intros f [_ Hf]. apply post_ok. split; [done|]. split; cbn; try done. exact (fo_page _ _ Hf).
Qed.

(** ** The processor's walk *)

(** Where the processor finds [va] when the directory of frame [d] is loaded. *)
Inductive walks (c : pgcache) (d va : Z) : Z -> Prop :=
  | Walk_large fd :
      frames c !! d = Some fd -> has (hv_entry fd (pdi_of va)) PTE_P = true -> has (hv_entry fd (pdi_of va)) PTE_PS = true ->
      walks c d va (Z.land (hv_entry fd (pdi_of va)) PTE_LARGEBASE + va mod LPGSIZE)
  | Walk_small fd t ft :
      frames c !! d = Some fd -> has (hv_entry fd (pdi_of va)) PTE_P = true -> has (hv_entry fd (pdi_of va)) PTE_PS = false ->
      frames c !! t = Some ft -> fr_hvpa ft = pte_pageaddr (hv_entry fd (pdi_of va)) ->
      has (hv_entry ft (pti_of va)) PTE_P = true ->
      walks c d va (pte_pageaddr (hv_entry ft (pti_of va)) + va mod PGSIZE).

(** What the partition may reach at [va]. *)
Definition sanctioned (c : pgcache) (d va x : Z) : Prop :=
  owned x \/
  (iopl2 = true /\ exists la, device_page la /\ (x / PGSIZE = la / PGSIZE \/ x / LPGSIZE = la / LPGSIZE)) \/
  (HV_VBASE <= va /\ exists fd, frames c !! d = Some fd /\ hv_entry fd (pdi_of va) = hv_pgd (pdi_of va)).

Lemma pdi_hv va : is_u32 va -> NR_LPAR_PGTABS <= pdi_of va -> HV_VBASE <= va.
Proof.
  intros Hva Hp. pose proof (slot_of va Hva) as E. unfold slot in E. injection E as E _. rewrite E, Z.div_div in Hp by done.
  change (PGSIZE * 1024) with (2 ^ 22) in Hp. change NR_LPAR_PGTABS with 1008 in Hp. unfold HV_VBASE.
  pose proof (Z.mul_div_le va (2 ^ 22) ltac:(lia)). lia.
Qed.

Lemma entry_walk e large x : entry_ok e large -> reaches e large x ->
  owned x \/ (iopl2 = true /\ exists la, device_page la /\ (x / PGSIZE = la / PGSIZE \/ x / LPGSIZE = la / LPGSIZE)).
Proof.
  intros He Hx. destruct (He x Hx) as [?|[Hio (la & Hd & Hr)]]; [by left|]. right. split; [done|]. exists la. split; [done|].
  unfold reaches in *. destruct large; [right|left].
  - apply (Z.mul_reg_r _ _ LPGSIZE); [done|congruence].
  - apply (Z.mul_reg_r _ _ PGSIZE); [done|congruence].
Qed.

Lemma base_plus a n va : 0 < n -> (n | a) -> (a + va mod n) / n * n = a.
Proof.
  intros Hn [q ->]. rewrite Z.add_comm, Z.div_add by lia. rewrite (Z.div_small (va mod n)) by (by apply Z.mod_pos_bound). lia.
Qed.

Lemma walk_sanctioned c d va x :
  (forall i j, 0 <= i < NR_FRAMES -> 0 <= j < NR_FRAMES -> shadow_page i = shadow_page j -> i = j) ->
  cache_ok c -> is_dir d -> is_u32 va -> walks c d va x -> sanctioned c d va x.
Proof.
  intros Hinj Hc Hd Hva Hw.
  assert (forall fd, frames c !! d = Some fd -> has (hv_entry fd (pdi_of va)) PTE_P = true -> pde_ok (pdi_of va) (hv_entry fd (pdi_of va))) as Hpde.
  { intros fd Hfd HP. unfold hv_entry in *. destruct (fr_hv fd !! pdi_of va) as [e|] eqn:E; [|done].
    pose proof (fo_hv _ _ (co_frames _ Hc _ _ Hfd) _ _ E HP) as Hs. by rewrite bool_decide_eq_true_2 in Hs by apply Hd. }
  assert (forall e large x, entry_ok e large -> reaches e large x -> sanctioned c d va x) as Hdone.
  { intros e large y He Hy. destruct (entry_walk e large y He Hy); [by left|by right; left]. }
  destruct Hw as [fd Hfd HP HPS|fd t ft Hfd HP HPS Hft Hpg HPt].
  - destruct (Hpde fd Hfd HP) as [[Hk E]|[[_ He]|[HPS' _]]]; [|eapply Hdone; [exact He|]|congruence].
    + right. right. split; [by apply pdi_hv|]. by exists fd.
    + unfold reaches. set (e := hv_entry fd (pdi_of va)). apply (base_plus _ LPGSIZE); [done|].
      exists (Z.land (Z.shiftr e 22) (Z.ones 10)). change LPGSIZE with (2 ^ 22). rewrite <- Z.shiftl_mul_pow2 by lia.
      change PTE_LARGEBASE with (Z.shiftl (Z.ones 10) 22). bits j.
      destruct (Z.lt_ge_cases j 22); [rewrite !(Z.testbit_neg_r _ (j - 22)) by lia; by rewrite andb_false_r|].
      rewrite Z.shiftr_spec by lia. by replace (j - 22 + 22) with j by lia.
  - destruct (Hpde fd Hfd HP) as [[Hk E]|[[HPS' _]|[_ (t' & Ht' & E)]]]; [|congruence|].
    + right. right. split; [by apply pdi_hv|]. by exists fd.
    + pose proof (co_frames _ Hc _ _ Hft) as Hok. rewrite (fo_page _ _ Hok), E in Hpg.
      apply Hinj in Hpg as ->; [|apply Hok|unfold is_tab in Ht'; change NR_DIR_FRAMES with 102 in Ht'; lia].
      unfold hv_entry in *. destruct (fr_hv ft !! pti_of va) as [e|] eqn:Ee; [|done]. cbn [from_option id] in *.
      pose proof (fo_hv _ _ Hok _ _ Ee HPt) as Hs. rewrite bool_decide_eq_false_2 in Hs by (unfold is_tab in Ht'; lia).
      eapply Hdone; [exact Hs|]. unfold reaches. apply (base_plus _ PGSIZE); [done|apply pageaddr_aligned].
Qed.

End Iso.

(** ** Isolation *)


(** ** Prefetching *)
Section Mirror.
Context (l2p : Z -> Z -> Z) (iopl2 : bool) (max_phys_memory : Z).

Lemma prefetch_entries_spec m n : forall c t i st f,
  frames c !! t = Some f -> 0 <= i -> i + Z.of_nat n <= NR_MMU_PTES ->
  exists c' f', prefetch_entries l2p iopl2 max_phys_memory n m c t i st =
      Ok (st && forallb (fun k => fst (shadow_of l2p iopl2 max_phys_memory (lp_word m f (i + Z.of_nat k)))) (seq 0 n), c') /\
    frames c' !! t = Some f' /\ fr_map f' = fr_map f /\
    (forall j, j <> t -> frames c' !! j = frames c !! j) /\
    (forall k, hv_entry f' k = if (i <=? k) && (k <? i + Z.of_nat n) then snd (shadow_of l2p iopl2 max_phys_memory (lp_word m f k)) else hv_entry f k).
Proof.
  induction n as [|n IH]; intros c t i st f Hf Hi Hn; cbn [prefetch_entries].
  - exists c, f. rewrite andb_true_r. split_and!; try done. intros k. zbool; done || lia.
  - unfold fget. rewrite Hf. cbn [of_option res_bind]. unfold pgc_set_pte. destruct (shadow_of _ _ _ (lp_word m f i)) as [ok e] eqn:E.
    unfold hv_store, fget. rewrite Hf. cbn [of_option res_bind]. change NR_MMU_PTES with 1024 in *.
    destruct (Z.leb_spec 0 i), (Z.ltb_spec i 1024); try lia. cbn [andb res_bind fst snd].
    set (f1 := fr_set_hv f (<[i:=e]> (fr_hv f))).
    destruct (IH (fput c t f1) t (i + 1) (if ok then st else false) f1) as (c' & f' & E' & Hf' & Hm & Ho & Hk);
      [apply lookup_insert_eq|lia|lia|]. exists c', f'. split_and!; try done.
    + rewrite E'. do 2 f_equal. cbn [seq forallb]. replace (i + Z.of_nat 0) with i by lia. rewrite E. cbn [fst].
      replace (forallb _ (seq 1 n)) with (forallb (fun k => fst (shadow_of l2p iopl2 max_phys_memory (lp_word m f (i + 1 + Z.of_nat k)))) (seq 0 n)).
      * destruct ok, st; cbn [andb]; try done.
      * apply eq_true_iff_eq. rewrite !forallb_forall. split; intros Hall k Hq%in_seq.
        -- specialize (Hall (k - 1)%nat). replace (i + 1 + Z.of_nat (k - 1)) with (i + Z.of_nat k) in Hall by lia. apply Hall, in_seq. lia.
        -- specialize (Hall (S k)). replace (i + Z.of_nat (S k)) with (i + 1 + Z.of_nat k) in Hall by lia. apply Hall, in_seq. lia.
    + intros j Hj. rewrite Ho by done. by apply lookup_insert_ne.
    + intros k. rewrite Hk. change (lp_word m f1 k) with (lp_word m f k). subst f1. unfold hv_entry at 1. cbn [fr_set_hv fr_hv].
      destruct (decide (k = i)) as [->|Hne].
      * rewrite lookup_insert_eq. cbn [from_option id]. destruct (Z.leb_spec (i + 1) i); [lia|]. cbn [andb].
        destruct (Z.leb_spec i i), (Z.ltb_spec i (i + Z.of_nat (S n))); try lia. cbn [andb]. by rewrite E.
      * rewrite lookup_insert_ne by done. fold (hv_entry f k). zbool; done || lia.
Qed.

(** The shadow of [f'] is the translation of the page that [f] shows. *)
Definition mirrors (m : pmem) (f f' : pgframe) : Prop :=
  forall k, 0 <= k < 1024 -> hv_entry f' k = snd (shadow_of l2p iopl2 max_phys_memory (lp_word m f k)).

(** Prefetching a page table makes its shadow the mirror of what the partition wrote: afterwards every one of the
    1024 entries is the translation of the partition's entry in the same place, whatever the shadow held
    before; the status says whether all could be translated; and no other frame changes. *)
Theorem prefetch_mirrors m c t f :
  frames c !! t = Some f ->
  exists c' f', pgc_prefetch_pgtab l2p iopl2 max_phys_memory m c t =
      Ok (forallb (fun k => fst (shadow_of l2p iopl2 max_phys_memory (lp_word m f (Z.of_nat k)))) (seq 0 1024), c') /\
    frames c' !! t = Some f' /\ (forall j, j <> t -> frames c' !! j = frames c !! j) /\ mirrors m f f'.
Proof.
  intros Hf. destruct (prefetch_entries_spec m 1024 c t 0 true f Hf) as (c' & f' & E & Hf' & _ & Ho & Hk); [done..|].
  exists c', f'. split_and!; try done. intros k Hr. rewrite Hk. change (0 + Z.of_nat 1024) with 1024. zbool; done || lia.
Qed.

End Mirror.
