(* ===== verification/X86Flaws.v ===== *)
(** * X86Flaws: shadow paging at work

    That the translation of [Logical] is one the shadow tables may rely on, runs on a concrete
    partition, and what goes wrong in them. *)

From S2P Require Import Prelude Hcall Bitmap PgAlloc Imemcpy X86Vm X86Pgc X86Fault X86Iso.
From S2P Require Import Logical.

(** ** The interface discharged *)
Section Discharge.
Context (l_to_r : Z -> logical_chunk_info -> Z -> Z -> res Z) (m : memory) (os : Z).

(** Memory below the hypervisor's addresses, in whole large pages. *)
Definition whole_large (x : logical_chunk_info) : Prop :=
  lci_sane x /\ (LPGSIZE | lci_laddr x) /\ (LPGSIZE | lci_raddr x) /\ (LPGSIZE | lci_size x) /\ lci_raddr x + lci_size x <= HV_VBASE.

Context (Hlarge : forall x, maps_record m os x -> whole_large x).

(** [logical_to_physical_address] in 32 bits. *)
Definition l2p32 (la len : Z) : Z :=
  if (0 <=? la) && (la <? 2 ^ 32) then
    match logical_to_physical_address l_to_r m os la len with
    | Ok pa => if pa =? INVALID_PHYSICAL_ADDRESS then ONES32 else pa
    | Fault _ => ONES32
    end
  else ONES32.

Definition owned_by (x : Z) : Prop := covered m os x 1.

Lemma l2p32_inv la : l2p32 la PGSIZE <> INVALID_PADDR ->
  exists x, maps_record m os x /\ whole_large x /\ lci_laddr x <= la /\ l2p32 la PGSIZE - lci_raddr x = la - lci_laddr x /\
    lci_raddr x <= l2p32 la PGSIZE /\ l2p32 la PGSIZE + PGSIZE <= lci_raddr x + lci_size x.
Proof.
  unfold l2p32. destruct ((0 <=? la) && (la <? 2 ^ 32)) eqn:Er; [|done]. apply andb_true_iff in Er as [?%Z.leb_le ?%Z.ltb_lt].
  destruct (logical_to_physical_address l_to_r m os la PGSIZE) as [pa|] eqn:E; [|done].
  destruct (Z.eqb_spec pa INVALID_PHYSICAL_ADDRESS) as [|Hne]; [done|]. intros _.
  destruct (l2p_contained l_to_r m os la PGSIZE pa) as (x & Hx & _ & H1 & H2 & H3 & H4 & H5); try done; [|change PGSIZE with 4096; lia|].
  - intros x Hx. destruct (Hlarge x Hx) as ((S1 & S2 & S3 & S4 & S5) & _ & _ & _ & Hb). split; [done|].
    unfold INVALID_PHYSICAL_ADDRESS, ONES64, HV_VBASE in *. lia.
  - exists x. split_and!; try done. by apply Hlarge.
Qed.

#[refine] Instance logical_translation : Translation := {| l2p := l2p32; owned := owned_by |}.
Proof.
  - intros la. destruct (Z.eq_dec (l2p32 la PGSIZE) INVALID_PADDR) as [->|Hne]; [done|].
    destruct (l2p32_inv la Hne) as (x & _ & ((_ & ? & _ & ? & _) & _ & _ & _ & Hb) & _ & _ & H1 & H2).
    unfold is_u32, HV_VBASE in *. change PGSIZE with 4096 in *. lia.
  - intros la Hd Hne. destruct (l2p32_inv la Hne) as (x & Hx & (Hs & Dl & Dr & _ & _) & _ & Heq & H1 & H2). split.
    + replace (l2p32 la PGSIZE) with (la - lci_laddr x + lci_raddr x) by lia.
      assert (forall z, (LPGSIZE | z) -> (PGSIZE | z)) as Hdiv by (intros z Hz; transitivity LPGSIZE; [by exists 1024|done]).
      apply Z.divide_add_r; [apply Z.divide_sub_r; [done|]|]; by apply Hdiv.
    + intros y Hy. exists x. split; [done|]. lia.
  - intros la Hd Hne y Hy. destruct (l2p32_inv la Hne) as (x & Hx & (Hs & Dl & [r Dr] & [n Dn] & _) & _ & Heq & H1 & H2).
    exists x. split; [done|]. rewrite Dr, Dn in *. set (pa := l2p32 la PGSIZE) in *.
    assert (r <= pa / LPGSIZE) by (apply Z.div_le_lower_bound; [done|lia]).
    assert (pa / LPGSIZE < r + n) by (apply Z.div_lt_upper_bound; [done|change PGSIZE with 4096 in *; lia]).
    pose proof (Z.div_mod y LPGSIZE ltac:(done)). pose proof (Z.mod_pos_bound y LPGSIZE ltac:(done)). rewrite Hy in *.
    change LPGSIZE with 4194304 in *. nia.
Defined.

End Discharge.

(** ** A partition with 64 megabytes at 512 megabytes *)
Definition xl2p : Z -> Z -> Z := l2p32 no_l_to_r demo 1.

Lemma demo_large x : maps_record demo 1 x -> whole_large x.
Proof.
  intros [[_ ->]|[E _]]%demo_records; [|done]. split; [vm_compute; repeat split; discriminate|].
  split_and!; [by exists 0|by exists 128|by exists 16|vm_compute; discriminate].
Qed.

Definition demo_translation : Translation := logical_translation no_l_to_r demo 1 demo_large.

Definition demo_page (k : Z) : Z := 0x2000000 + k * PGSIZE.
Definition no_regs : xregs := XRegs 0x33 0x3b 0 0 0 0x32 0.

(** The thread at its start, with memory [m]. *)
Definition demo_thread (m : pmem) : res xst :=
  let! r := start_thread xl2p false 0x20000000 demo_pgd demo_page 0 in
  Ok (Xst (fst r) (snd r) m no_regs ∅ None ∅ 0).

(** Memory from words. *)
Definition words (ws : list (Z * Z)) : pmem := fold_left (fun m aw => st32 m (fst aw) (snd aw)) ws (fun _ => 0).

(** Physical address of logical [la]. *)
Definition at_logical (la : Z) : Z := 0x20000000 + la.

Definition on_cpu (s : xst) : xst := Xst (xc s) (xt s) (xm s) (xr s) (x_idt s) (x_mbox_if s) (x_hpt s) (t_cr3 (xt s)).

(** Present, writable, the user's, accessed and dirty. *)
Definition USRW : Z := 0x67.

Definition x_page_dir := h_page_dir xl2p false 0x20000000 demo_pgd.
Definition x_page_fault := page_fault xl2p false 0x20000000 demo_pgd demo_buf1 0.

(** The thread on a directory of its own at logical [0x10000], whose entries are [ws]. *)
Definition on_directory (ws : list (Z * Z)) : res xst :=
  let! s := demo_thread (words ((fun iw => (at_logical (0x10000 + 4 * fst iw), snd iw)) <$> ws)) in
  let! r := x_page_dir s 1 H_PAGE_DIR_ACTIVATE 0x10000 in
  Ok (on_cpu (snd r)).

Definition pde (s : xst) (k : Z) : res Z := let! fd := fget (xc s) (t_pgd (xt s)) in Ok (hv_entry fd k).

(** *** A page table of the partition's own making

    [flush_single] of a large page takes the new entry from the directory at the page-table index, and does
    not ask whether it is a large page's: here the entry names a page table of the partition's, and the
    shadow directory then points to memory the partition writes at will. *)
Example flush_single_breaks_isolation :
  (let! s := on_directory [(0, 0x80 + USRW); (1, 0x20000 + USRW)] in
   let! before := pde s 0 in
   let! r := h_flush_tlb xl2p false 0x20000000 s 2 (Z.lor H_FLUSH_TLB_SINGLE H_FLUSH_TLB_PREFETCH) 0x1000 in
   let! after := pde (snd r) 0 in
   Ok (before, fst r, after, has after PTE_P, has after PTE_PS, pte_pageaddr after =? at_logical 0x20000)) =
  Ok (at_logical 0 + 0x80 + USRW, H_Success, at_logical 0x20000 + USRW, true, false, true).
Proof. by vm_compute. Qed.

(** *** The hypervisor's own mapping

    A fault above the hypervisor's base is forwarded, and the callback that runs when the partition returns
    replaces the hypervisor's directory entry by the partition's. *)
Definition with_stack (s : xst) (esp2 : Z) : xst := with_r s (XRegs 0x33 0x3b 0x4000 0 0 0x32 esp2).

Example callback_replaces_hypervisor :
  (let! s := on_directory [(0, 0x80 + USRW); (1008, 0x80 + USRW)] in
   let! before := pde s 1008 in
   let! r := x_page_fault 3 2 (with_stack s 0x8000) 5 HV_VBASE in
   let! s := shadow_fault_callback xl2p false 0x20000000 (snd r) 3 in
   let! after := pde s 1008 in
   Ok (before =? demo_pgd 1008, fst r, t_cb (xt (snd r)), after)) =
  Ok (true, 1, true, at_logical 0 + 0x80 + USRW).
Proof. by vm_compute. Qed.

(** *** Flushing

    A flushed directory that is activated again still has its entries ... *)
Example flush_keeps_entries :
  (let! s := on_directory [(0, 0x80 + USRW)] in
   let s := with_m s (fun _ => 0) in
   let! r := x_page_dir s 2 H_PAGE_DIR_FLUSH 0x10000 in
   let! r := x_page_dir (snd r) 3 H_PAGE_DIR_ACTIVATE 0x10000 in
   pde (snd r) 0) = Ok (at_logical 0 + 0x80 + USRW).
Proof. by vm_compute. Qed.

(** ... and one that is flushed while it is loaded is freed by the next flush of another, the
    hypervisor's mapping included. *)
Example flush_frees_active :
  (let! s := on_directory [(0, 0x80 + USRW)] in
   let! r := x_page_dir s 2 H_PAGE_DIR_PREFETCH 0x30000 in
   let! r := x_page_dir (snd r) 3 H_PAGE_DIR_FLUSH 0x10000 in
   let! r := x_page_dir (snd r) 4 H_PAGE_DIR_FLUSH 0x30000 in
   let s := snd r in
   let! hv := pde s 1008 in
   Ok (hd 0 (free_dir (xc s)) =? t_pgd (xt s), hv)) = Ok (true, 0).
Proof. by vm_compute. Qed.

(** *** Traps a partition can cause *)

(** A page directory that is not page-aligned. *)
Example unaligned_directory_traps :
  (let! s := on_directory [] in x_page_dir s 2 H_PAGE_DIR_ACTIVATE 0x30004) = Fault Assert_failed.
Proof. by vm_compute. Qed.

(** More directories than there are frames, none activated after the current one: collection finds the
    current one least recently used. *)
Fixpoint make_dirs (n : nat) (s : xst) (ticks la : Z) : res xst :=
  match n with
  | O => Ok s
  | S n => let! r := x_page_dir s ticks H_PAGE_DIR_PREFETCH la in make_dirs n (snd r) (ticks + 1) (la + PGSIZE)
  end.

Example directories_exhausted_traps :
  is_ok (let! s := demo_thread (fun _ => 0) in make_dirs 101 s 1 0x100000) = true /\
  (let! s := demo_thread (fun _ => 0) in make_dirs 102 s 1 0x100000) = Fault Assert_failed.
Proof. split; by vm_compute. Qed.

(** An entry of a page table that has no shadow yet. *)
Example get_pte_without_table :
  (let! s := on_directory [] in
   h_get_pte xl2p false 0x20000000 (with_m s (words [(at_logical 0x10000, 0x20000 + USRW)])) H_GET_ENTRY_PTE 0x1000) = Fault Null_deref.
Proof. by vm_compute. Qed.

(** A stack that crosses a page: only the page of its lowest word is looked for, and the push of the first
    word faults in the hypervisor. *)
Definition one_page : list (Z * Z) := [(at_logical 0x10000, 0x20000 + USRW); (at_logical 0x20004, 0x5000 + USRW)].

Example crossing_stack_traps :
  (let! s := demo_thread (words one_page) in
   let! r := x_page_dir s 1 H_PAGE_DIR_ACTIVATE 0x10000 in
   let s := with_r (on_cpu (snd r)) (set_esp no_regs 0x2008) in
   let! p := isstackpresent s 6 PTE_RW in
   Ok (p, push demo_pgd demo_buf1 s 0)) = Ok (None, Fault Assert_failed).
Proof. by vm_compute. Qed.

(** A large page of which the partition has only the first small page. *)
Example large_page_overreaches :
  shadow_of (fun la _ => if la =? 0x400000 then 0x800000 else INVALID_PADDR) false 0 (0x400000 + 0x80 + USRW) = (true, 0x800000 + 0x80 + USRW).
Proof. by vm_compute. Qed.

(** *** No stack

    When the page of the partition's kernel stack is not in its own directory, forwarding the fault faults on the
    stack, which is forwarded: the two call each other until the hypervisor's stack is used up. *)
Section NoStack.
Context (l2p : Z -> Z -> Z) (iopl2 : bool) (max_phys_memory : Z) (hv_pgd : Z -> Z) (copybuf1 iopl ticks : Z).
Context (s : xst) (fd : pgframe) (err fa : Z).
Context (Hcs : r_cs (xr s) = 0x33) (Hss : r_ss (xr s) = r_ss2 (xr s)) (Hesp : r_esp (xr s) = r_esp2 (xr s)).
Context (Hmask : Z.land (r_ss (xr s)) 3 <> 3) (Hstack : isstackpresent s 6 PTE_RW = Ok (Some (err, fa))).
Context (Herr : has err 8 = false) (Hfd : frames (xc s) !! t_pgd (xt s) = Some fd) (Hla : fr_laddr fd <> INVALID_PADDR).
Context (Habsent : Z.land (lp_word (xm s) fd (pdi_of fa)) (Z.land err 7) <> Z.land err 7).

Lemma no_stack_recurses depth : forall e a,
  force_page_fault l2p iopl2 max_phys_memory hv_pgd copybuf1 iopl depth ticks s e a = Fault Out_of_fuel.
Proof.
  induction depth as [|depth IH]; intros e a; [done|]. cbn [force_page_fault].
  unfold force_page_fault_with, force_sync_exception, push_exception_state. rewrite Hcs. change (Z.land 0x33 3 =? 3) with true. cbn [b2z].
  assert (with_r s (XRegs 0x33 (r_ss2 (xr s)) (r_esp2 (xr s)) (r_eip (xr s)) (r_eflags (xr s)) (r_ss2 (xr s)) (r_esp2 (xr s))) = s) as ->.
  { transitivity (with_r s (xr s)); [|by destruct s]. f_equal. clear - Hcs Hss Hesp. destruct (xr s). cbn in *. congruence. }
  destruct (Z.eqb_spec (Z.land (r_ss (xr s)) 3) 3); [done|]. change (3 + 2 * 1 + 1) with 6. rewrite Hstack. cbn [res_bind].
  unfold page_fault_with. rewrite Hcs, Herr. change (truth (Z.land 0x33 3)) with true. cbn [cassert]. unfold fget. rewrite Hfd. cbn [of_option res_bind].
  destruct (Z.eqb_spec (fr_laddr fd) INVALID_PADDR); [done|]. unfold shadow_fault, fget. rewrite Hfd. cbn [of_option res_bind].
  destruct (Z.eqb_spec (Z.land (lp_word (xm s) fd (pdi_of fa)) (Z.land err 7)) (Z.land err 7)); [done|]. cbn [negb].
  unfold forward. by rewrite IH.
Qed.
End NoStack.

(** Such a state: the stack lies where the directory has nothing. *)
Definition stackless (s : xst) : xst := with_r s (XRegs 0x33 0x32 0x800100 0 0 0x32 0x800100).

Example no_stack_hangs depth :
  (let! s := on_directory [(0, 0x80 + USRW)] in
   force_page_fault xl2p false 0x20000000 demo_pgd demo_buf1 0 depth 2 (stackless s) 4 0x900000) = Fault Out_of_fuel.
Proof.
  assert (is_ok (on_directory [(0, 0x80 + USRW)]) = true) as Hok by by vm_compute. destruct (is_ok_inv _ Hok) as [s E]. rewrite E. cbn [res_bind].
  assert ((let! s := on_directory [(0, 0x80 + USRW)] in
           let s := stackless s in
           let! fd := fget (xc s) (t_pgd (xt s)) in
           let! p := isstackpresent s 6 PTE_RW in
           Ok (p, fr_laddr fd, lp_word (xm s) fd (pdi_of 0x8000e8))) = Ok (Some (PTE_RW, 0x8000e8), 0x10000, 0)) as Hc by by vm_compute.
  rewrite E in Hc. cbn [res_bind] in Hc. unfold fget in Hc. destruct (frames (xc (stackless s)) !! t_pgd (xt (stackless s))) as [fd|] eqn:Ef; [|done].
  cbn [of_option res_bind] in Hc. destruct (isstackpresent (stackless s) 6 PTE_RW) as [p|] eqn:Ep; [|done]. cbn [res_bind] in Hc. injection Hc as -> Hl Hw.
  apply (no_stack_recurses xl2p false 0x20000000 demo_pgd demo_buf1 0 2 (stackless s) fd PTE_RW 0x8000e8); try reflexivity; try assumption.
  - change (Z.land 0x32 3 <> 3). discriminate.
  - rewrite Hl. discriminate.
  - change (xm (stackless s)) with (xm s). rewrite Hw. discriminate.
Qed.


Lemma prefetch_mirrors_witness :
  exists c' f', pgc_prefetch_pgtab xl2p false 0x20000000 (words one_page) (pgc_init demo_page) 200 =
      Ok (forallb (fun k => fst (shadow_of xl2p false 0x20000000 (lp_word (words one_page) (init_frame demo_page 200) (Z.of_nat k)))) (seq 0 1024), c') /\
    frames c' !! 200 = Some f' /\ (forall j, j <> 200 -> frames c' !! j = frames (pgc_init demo_page) !! j) /\
    mirrors xl2p false 0x20000000 (words one_page) (init_frame demo_page 200) f'.
Proof.
  apply (prefetch_mirrors xl2p false 0x20000000 (words one_page) (pgc_init demo_page) 200 (init_frame demo_page 200)). vm_compute. reflexivity.
Defined.
