(* ===== verification/X86Seg.v ===== *)
(** * X86Seg: what a partition may put into the processor's descriptor tables

    [hype/x86/gdt.c], [hype/x86/gdt.h], [hype/x86/idt.c] and [hype/x86/h_dr.c].  On x86 the kernel of a
    partition runs in ring 2, which the page tables do not tell from the hypervisor's ring 0; what keeps
    it out of the hypervisor's memory are its segments, which end below [HV_VBASE].  The partition
    asks for segments and gates with calls; the hypervisor packs them into the tables. *)

From stdpp Require Import relations.
From S2P Require Import Prelude Hcall X86Vm X86Fault.

Definition GDT_ENTRY_COUNT : Z := 32.
Definition GDT_ENTRY_MIN : Z := 4.
Definition SEG_FLAGS_DPL_MASK : Z := 0x60.
Definition SEG_FLAGS_DPL_SHIFT : Z := 5.
Definition SEG_FLAGS_G_BIT : Z := 0x8000.
Definition SEG_FLAGS_P_BIT : Z := 0x80.
Definition SEG_FLAGS_NONSYS_BIT : Z := 0x10.
Definition SEG_FLAGS_CODE_BIT : Z := 0x8.
Definition SEG_FLAGS_E_BIT : Z := 0x4.
Definition HV_CS : Z := 0x8.
Definition HV_DS : Z := 0x10.
Definition TSS_SEL : Z := 0x18.
Definition GUEST_CS : Z := 0x22.
Definition GUEST_DS : Z := 0x2a.
Definition NR_EXCEPTIONS_HANDLERS : Z := 32.
Definition NR_INTERRUPT_HANDLERS : Z := 32.
Definition NR_TRAP_HANDLERS : Z := 192.
Definition NR_IDT_ENTRIES : Z := 256.
Definition BASE_IRQ_VECTOR : Z := 0x20.
Definition BASE_TRAP_VECTOR : Z := 0x40.
Definition BASE_HCALL_VECTOR : Z := 0xF0.
Definition DB_VECTOR : Z := 1.
Definition BP_VECTOR : Z := 3.
Definition TASK_GATE : Z := 0x8500.
Definition TRAP_GATE : Z := 0x8F00.
Definition H_DT_GDT : Z := 0.
Definition H_DT_IDT : Z := 1.
Definition H_DR4 : Z := 0x10.
Definition H_DR5 : Z := 0x20.
Definition H_DR7 : Z := 0x80.

Record descriptor : Type := Descr { word0 : Z; word1 : Z }.
Record gdt_entry_info : Type := GdtInfo { is_partial : bool; last_toggle_eip : Z; toggle_count : Z }.

(** What the calls see of [struct cpu_thread]: an entry that is absent is zero. *)
Record segst : Type := Seg {
  gdt : gmap Z descriptor; gdt_info : gmap Z gdt_entry_info;
  idt : gmap Z descriptor; idt_info : gmap Z idt_descriptor;
  drs : gmap Z Z;
}.

Definition set_gdt (s : segst) (i : Z) (d : descriptor) (info : gdt_entry_info) : segst :=
  Seg (<[i := d]> (gdt s)) (<[i := info]> (gdt_info s)) (idt s) (idt_info s) (drs s).
Definition set_idt (s : segst) (i : Z) (d : descriptor) : segst := Seg (gdt s) (gdt_info s) (<[i := d]> (idt s)) (idt_info s) (drs s).
Definition set_idt_info (s : segst) (i : Z) (d : idt_descriptor) : segst := Seg (gdt s) (gdt_info s) (idt s) (<[i := d]> (idt_info s)) (drs s).
Definition set_drs (s : segst) (r : gmap Z Z) : segst := Seg (gdt s) (gdt_info s) (idt s) (idt_info s) r.

(** ** Descriptors *)
Definition pack_descr (flags base size : Z) : descriptor :=
  Descr (Z.lor (Z.shiftl (Z.land base 0x0000ffff) 16) (Z.land (sub32 size 1) 0x0000ffff))
    (Z.lor (Z.lor (Z.lor (Z.land base 0xff000000) (Z.shiftr (Z.land base 0x00ff0000) 16)) (Z.land (sub32 size 1) 0x000f0000))
       (Z.shiftl (Z.land flags 0xf0ff) 8)).

Definition descr_flags (w0 w1 : Z) : Z := Z.land (Z.shiftr w1 8) 0xf0ff.
Definition descr_base (w0 w1 : Z) : Z :=
  Z.lor (Z.lor (Z.land w1 0xff000000) (Z.land (u32 (Z.shiftl w1 16)) 0x00ff0000)) (Z.land (Z.shiftr w0 16) 0x0000ffff).
Definition descr_size (w0 w1 : Z) : Z := add32 (Z.lor (Z.land w1 0x000f0000) (Z.land w0 0x0000ffff)) 1.

(** [unpack_descr_words]: flags, base and size. *)
Definition unpack_descr_words (w0 w1 : Z) : Z * Z * Z := (descr_flags w0 w1, descr_base w0 w1, descr_size w0 w1).
Definition unpack_descr (d : descriptor) : Z * Z * Z := unpack_descr_words (word0 d) (word1 d).

(** ** The global descriptor table *)
Section Gdt.
Variables (tss tss_size : Z).

Definition gdt_init (s : segst) : segst :=
  let t := <[HV_CS / 8 := pack_descr 0xc09a 0 0x100000]> ∅ in
  let t := <[HV_DS / 8 := pack_descr 0xc092 0 0x100000]> t in
  let t := <[TSS_SEL / 8 := pack_descr 0x89 tss tss_size]> t in
  let t := <[GUEST_CS / 8 := pack_descr 0xc0da 0 0xfc000]> t in
  let t := <[GUEST_DS / 8 := pack_descr 0xc0d2 0 0xfc000]> t in
  Seg t ∅ (idt s) (idt_info s) (drs s).

End Gdt.

Definition info_of (s : segst) (i : Z) : gdt_entry_info := default (GdtInfo false 0 0) (gdt_info s !! i).
Definition gdt_of (s : segst) (i : Z) : descriptor := default (Descr 0 0) (gdt s !! i).
Definition not_partial (g : gdt_entry_info) : gdt_entry_info := GdtInfo false (last_toggle_eip g) (toggle_count g).

(** A data segment of user mode that covers all addresses from a base that is not zero. *)
Definition wants_partial (flags base size : Z) : bool :=
  negb (base =? 0) && (base <=? HV_VBASE) && (size =? 0x100000) &&
  (Z.land flags (fold_left Z.lor [SEG_FLAGS_G_BIT; SEG_FLAGS_NONSYS_BIT; SEG_FLAGS_CODE_BIT; SEG_FLAGS_E_BIT; SEG_FLAGS_DPL_MASK] SEG_FLAGS_P_BIT) =?
   fold_left Z.lor [SEG_FLAGS_G_BIT; SEG_FLAGS_NONSYS_BIT; Z.shiftl 3 SEG_FLAGS_DPL_SHIFT] SEG_FLAGS_P_BIT).

(** [DPL] is raised to 2. *)
Definition force_dpl (flags : Z) : Z :=
  if Z.land flags SEG_FLAGS_DPL_MASK <? Z.shiftl 2 SEG_FLAGS_DPL_SHIFT
  then Z.lor (Z.land flags (not32 SEG_FLAGS_DPL_MASK)) (Z.shiftl 2 SEG_FLAGS_DPL_SHIFT) else flags.

(** [Restrict segment range to exclude HV space.] *)
Definition restrict_size (flags base size : Z) : Z :=
  let max_size := if HV_VBASE <? base then 0 else HV_VBASE - base in
  let max_size := if has flags SEG_FLAGS_G_BIT then Z.shiftr max_size 12 else max_size in
  if max_size <? size then max_size else size.

Definition h_gdt_entry (s : segst) (index w0 w1 : Z) : Z * segst :=
  if (index <? GDT_ENTRY_MIN) || (GDT_ENTRY_COUNT <=? index) then (H_Parameter, s)
  else if (w0 =? 0) && (w1 =? 0) then (H_Success, set_gdt s index (Descr 0 0) (not_partial (info_of s index)))
  else
    let '(flags, base, size) := unpack_descr_words w0 w1 in
    if wants_partial flags base size then
      let size := Z.shiftr (HV_VBASE - base) 12 in
      (H_Success, set_gdt s index (pack_descr flags base size) (GdtInfo true 0 0))
    else if has flags SEG_FLAGS_P_BIT then
      if Z.land flags (Z.lor (Z.lor SEG_FLAGS_NONSYS_BIT SEG_FLAGS_CODE_BIT) SEG_FLAGS_E_BIT) =? Z.lor SEG_FLAGS_NONSYS_BIT SEG_FLAGS_E_BIT
      then (H_Parameter, s)
      else
        let flags := force_dpl flags in
        (H_Success, set_gdt s index (pack_descr flags base (restrict_size flags base size)) (not_partial (info_of s index)))
    else (H_Success, set_gdt s index (pack_descr flags base size) (not_partial (info_of s index))).

(** The segment register that the instruction at [pc] names by a prefix, at most [n] bytes of which are read. *)
Fixpoint prefix_seg (n : nat) (code : Z -> Z) (pc fs gs : Z) : Z :=
  match n with
  | O => 0
  | S n =>
      let inst_byte := code pc in
      if (inst_byte =? 0x66) || (inst_byte =? 0x67) || (inst_byte =? 0xF0) || (inst_byte =? 0xF2) || (inst_byte =? 0xF3)
      then prefix_seg n code (add32 pc 1) fs gs
      else if inst_byte =? 0x64 then fs
      else if inst_byte =? 0x65 then gs
      else 0
  end.

(** [true]: the segment now has the other half of its addresses. *)
Definition handle_partial_seg_fault (s : segst) (code : Z -> Z) (eip fs gs : Z) : bool * segst :=
  let seg := prefix_seg 4 code eip fs gs in
  let idx := Z.shiftr seg 3 in
  let info := info_of s idx in
  if (GDT_ENTRY_MIN <=? idx) && (idx <? GDT_ENTRY_COUNT) && (Z.land seg 0x4 =? 0) && is_partial info && negb (eip =? last_toggle_eip info) then
    let '(flags, base, size) := unpack_descr (gdt_of s idx) in
    let '(flags, size) :=
      if Z.land flags SEG_FLAGS_E_BIT =? 0 then (Z.lor flags SEG_FLAGS_E_BIT, 0x100000 - Z.shiftr base 12)
      else (Z.land flags (not32 SEG_FLAGS_E_BIT), Z.shiftr (sub32 HV_VBASE base) 12) in
    (true, set_gdt s idx (pack_descr flags base size) (GdtInfo true eip (add32 (toggle_count info) 1)))
  else (false, s).

(** ** The interrupt descriptor table *)
Definition set_trap_gate (selector offset flags : Z) : descriptor :=
  Descr (Z.lor (Z.shiftl selector 16) (Z.land offset 0xffff)) (Z.lor (Z.land offset 0xffff0000) flags).
Definition set_intr_gate (handler dpl : Z) : descriptor :=
  set_trap_gate HV_CS handler (Z.lor 0x8e00 (Z.shiftl (Z.land dpl 0x3) 13)).

Section Idt.
Variables (exception_handlers interrupt_handlers trap_handlers : Z -> Z).

(** [for (i = 0; i < n; i++) set_intr_gate(&thread->idt[first + i], handlers[i], pl(i));] *)
Fixpoint set_gates (n : nat) (first : Z) (handlers pl : Z -> Z) (i : Z) (t : gmap Z descriptor) : gmap Z descriptor :=
  match n with
  | O => t
  | S n => set_gates n first handlers pl (i + 1) (<[first + i := set_intr_gate (handlers i) (pl i)]> t)
  end.

Definition idt_init (s : segst) : segst :=
  let pl i := if (i =? DB_VECTOR) || (i =? BP_VECTOR) then 3 else 0 in
  let t := set_gates (Z.to_nat NR_EXCEPTIONS_HANDLERS) 0 exception_handlers pl 0 (idt s) in
  let t := set_gates (Z.to_nat NR_INTERRUPT_HANDLERS) BASE_IRQ_VECTOR interrupt_handlers (fun _ => 0) 0 t in
  let t := set_gates (Z.to_nat NR_TRAP_HANDLERS) BASE_TRAP_VECTOR trap_handlers (fun _ => 3) 0 t in
  Seg (gdt s) (gdt_info s) t ∅ (drs s).

Definition get_idt_descriptor (s : segst) (vector : Z) : option idt_descriptor :=
  if NR_IDT_ENTRIES <=? vector then None else Some (default (Idt 0 0 0) (idt_info s !! vector)).

Definition h_idt_entry (s : segst) (index w0 w1 : Z) : Z * segst :=
  if NR_IDT_ENTRIES <=? index then (H_Parameter, s)
  else
    let offset := Z.lor (Z.land w1 0xffff0000) (Z.land w0 0x0000ffff) in
    let segment := Z.land (Z.shiftr w0 16) 0xffff in
    let flags := Z.land w1 0x0000ffff in
    let gate := Z.land flags GATE_MASK in
    if negb (gate =? TASK_GATE) && negb (gate =? INTR_GATE) && negb (gate =? TRAP_GATE) then (H_Parameter, s)
    else
      let seg_idx := Z.shiftr segment 3 in
      if (seg_idx <? GDT_ENTRY_MIN) || (GDT_ENTRY_COUNT <=? seg_idx) then (H_Parameter, s)
      else
        let s := set_idt_info s index (Idt offset segment flags) in
        (H_Success,
         if (BASE_TRAP_VECTOR <=? index) && (index <? BASE_HCALL_VECTOR) then
           if gate =? TRAP_GATE then set_idt s index (Descr w0 w1)
           else set_idt s index (set_intr_gate (trap_handlers (index - BASE_TRAP_VECTOR)) 3)
         else s).

Definition h_dt_entry (s : segst) (type index w0 w1 : Z) : Z * segst :=
  if type =? H_DT_GDT then h_gdt_entry s index w0 w1
  else if type =? H_DT_IDT then h_idt_entry s index w0 w1
  else (H_Parameter, s).

End Idt.

(** ** Debug registers *)
Definition dr6_fixed (v : Z) : Z := Z.lor (Z.land v (not32 (2 ^ 12))) 0xffff0ff0.
Definition dr7_fixed (v : Z) : Z := Z.lor (Z.land v (not32 0xf800)) 0x400.

(** [for (x = 16; x < 32; x += 2) if (((dr7 >> x) & 3) == 2) return H_INVAL;] *)
Definition dr7_bad (v : Z) : bool := existsb (fun x => Z.land (Z.shiftr v x) 3 =? 2) [16; 18; 20; 22; 24; 26; 28; 30].

(** [set_dr(n, val)] *)
Definition set_dr (selector : Z) (r : gmap Z Z) (nv : Z * Z) : gmap Z Z := if has selector (2 ^ fst nv) then <[fst nv := snd nv]> r else r.

(** What is returned with [return_arg], if anything is. *)
Definition h_dr (s : segst) (selector dr0 dr1 dr2 dr3 dr6 dr7 : Z) : Z * list Z * segst :=
  if selector =? 0 then (H_Success, (fun i => default 0 (drs s !! Z.of_nat i)) <$> seq 0 8, s)
  else if existsb (fun nv => has selector (2 ^ fst nv) && (HV_VBASE <=? snd nv)) [(0, dr0); (1, dr1); (2, dr2); (3, dr3)] then (H_Parameter, [], s)
  else
    let dr6 := dr6_fixed dr6 in
    let dr7 := if has selector H_DR7 then dr7_fixed dr7 else dr7 in
    if has selector H_DR7 && dr7_bad dr7 then (H_INVAL, [], s)
    else if has selector (Z.lor H_DR4 H_DR5) then (H_INVAL, [], s)
    else (H_Success, [], set_drs s (fold_left (set_dr selector) [(0, dr0); (1, dr1); (2, dr2); (3, dr3); (6, dr6); (7, dr7)] (drs s))).

(** ** What the processor makes of a descriptor

    The limit of a segment is its size less one, in bytes or in pages; a data segment that expands down
    has the offsets beyond its limit. *)
Definition last_offset (flags size : Z) : Z := if has flags SEG_FLAGS_G_BIT then size * 4096 - 1 else size - 1.
Definition SEG_FLAGS_B_BIT : Z := 0x4000.
Definition expands_down (flags : Z) : bool := negb (has flags SEG_FLAGS_CODE_BIT) && has flags SEG_FLAGS_E_BIT.
Definition offset_valid (flags size off : Z) : Prop :=
  if expands_down flags then last_offset flags size < off <= (if has flags SEG_FLAGS_B_BIT then 2 ^ 32 - 1 else 0xffff)
  else 0 <= off <= last_offset flags size.

(** A descriptor that, when it is present, is of a code or data segment, through which no address of the hypervisor can be
    named, and which is not for rings 0 and 1. *)
Definition shuts_out (flags base size : Z) : Prop :=
  has flags SEG_FLAGS_P_BIT = true ->
  has flags SEG_FLAGS_NONSYS_BIT = true /\
  Z.shiftl 2 SEG_FLAGS_DPL_SHIFT <= Z.land flags SEG_FLAGS_DPL_MASK /\
  forall off, offset_valid flags size off -> u32 (base + off) < HV_VBASE.

Definition seg_safe (d : descriptor) : Prop := let '(flags, base, size) := unpack_descr d in shuts_out flags base size.

(** ** Packing *)

(** Words of 32 bits are equal when their bits are. *)
Lemma u32_ext x y : is_u32 x -> is_u32 y -> (forall n, (n < 32)%nat -> Z.testbit x (Z.of_nat n) = Z.testbit y (Z.of_nat n)) -> x = y.
Proof.
  intros Hx Hy H. apply Z.bits_inj'. intros i Hi. destruct (Z.ltb_spec i 32) as [Hlt|Hge].
  - specialize (H (Z.to_nat i) ltac:(lia)). by rewrite Z2Nat.id in H by lia.
  - by rewrite !is_u32_testbit by done.
Qed.

(** Each of the 32 bits of an equality between packed fields. *)
Ltac one_bit :=
  repeat match goal with
  | |- context [Z.testbit ?a ?i] => rewrite (Z.testbit_neg_r a i) by lia
  | |- context [Z.testbit (Z.lor ?a ?b) ?i] => rewrite (Z.lor_spec a b i)
  | |- context [Z.testbit (Z.land ?a ?b) ?i] => rewrite (Z.land_spec a b i)
  | |- context [Z.testbit (u32 ?a) ?i] => rewrite (testbit_u32 a i) by lia
  | |- context [Z.testbit (Z.shiftl ?a ?b) ?i] => rewrite (Z.shiftl_spec a b i) by lia
  | |- context [Z.testbit (Z.shiftr ?a ?b) ?i] => rewrite (Z.shiftr_spec a b i) by lia
  end.
Ltac each_bit :=
  let n := fresh "n" in let H := fresh "Hn" in
  intros n H; do 32 (destruct n as [|n]; [cbn [Z.of_nat Pos.of_succ_nat Pos.succ]; one_bit; simpl; rewrite ?andb_true_r, ?andb_false_r, ?orb_false_r; reflexivity|]); lia.

Lemma land_u32 x y : is_u32 y -> is_u32 (Z.land x y).
Proof.
  intros Hy. apply is_u32_intro.
  - intros i Hi. by rewrite Z.land_spec, (is_u32_testbit y i), andb_false_r by done.
  - apply Z.land_nonneg. unfold is_u32 in Hy. lia.
Qed.

Lemma descr_base_pack flags base size : is_u32 base -> descr_base (word0 (pack_descr flags base size)) (word1 (pack_descr flags base size)) = base.
Proof.
  intros Hb. apply u32_ext; [|done|].
  - unfold descr_base. repeat apply is_u32_lor; apply land_u32; done.
  - unfold descr_base, pack_descr. cbn [word0 word1]. each_bit.
Qed.

Lemma descr_flags_pack flags base size : descr_flags (word0 (pack_descr flags base size)) (word1 (pack_descr flags base size)) = Z.land flags 0xf0ff.
Proof.
  apply u32_ext; [by apply land_u32..|]. unfold descr_flags, pack_descr. cbn [word0 word1]. each_bit.
Qed.

Lemma descr_size_pack flags base size :
  0 <= size <= 0x100000 -> descr_size (word0 (pack_descr flags base size)) (word1 (pack_descr flags base size)) = if size =? 0 then 0x100000 else size.
Proof.
  intros Hs. unfold descr_size, add32.
  assert (forall l, Z.lor (Z.land (word1 (pack_descr flags base size)) 0x000f0000) (Z.land (word0 (pack_descr flags base size)) 0x0000ffff) = l ->
    l = Z.land (sub32 size 1) 0xfffff) as Hl.
  { intros l <-. apply u32_ext; [by repeat apply is_u32_lor; apply land_u32|by apply land_u32|]. unfold pack_descr. cbn [word0 word1]. each_bit. }
  rewrite (Hl _ eq_refl). change 0xfffff with (2 ^ 20 - 1). rewrite land_low by done. unfold sub32, u32.
  destruct (Z.eqb_spec size 0) as [->|Hne]; [done|]. rewrite (Z.mod_small (size - 1) (2 ^ 32)), (Z.mod_small (size - 1) (2 ^ 20)), Z.mod_small by lia. lia.
Qed.

Lemma unpack_pack flags base size :
  is_u32 base -> 0 <= size <= 0x100000 -> unpack_descr (pack_descr flags base size) = (Z.land flags 0xf0ff, base, if size =? 0 then 0x100000 else size).
Proof. intros Hb Hs. unfold unpack_descr, unpack_descr_words. by rewrite descr_base_pack, descr_flags_pack, descr_size_pack. Qed.

Lemma unpack_u32 w0 w1 : is_u32 (descr_base w0 w1).
Proof. unfold descr_base. repeat apply is_u32_lor; by apply land_u32. Qed.

Lemma unpack_size w0 w1 : 0 < descr_size w0 w1 <= 0x100000.
Proof.
  unfold descr_size, add32, u32.
  assert (0 <= Z.lor (Z.land w1 0x000f0000) (Z.land w0 0x0000ffff) < 2 ^ 20) as H; [|rewrite Z.mod_small; lia].
  assert (Z.lor (Z.land w1 0x000f0000) (Z.land w0 0x0000ffff) = Z.lor (Z.land w1 0x000f0000) (Z.land w0 0x0000ffff) mod 2 ^ 20) as ->; [|by apply Z.mod_pos_bound].
  rewrite <- land_low by done. apply u32_ext; [by repeat apply is_u32_lor; apply land_u32|by apply land_u32|]. each_bit.
Qed.

(** The flags a descriptor keeps. *)
Lemma has_kept flags b : Z.land 0xf0ff b = b -> has (Z.land flags 0xf0ff) b = has flags b.
Proof. intros Hb. unfold has. by rewrite <- Z.land_assoc, Hb. Qed.

Lemma dpl_kept flags : Z.land (Z.land flags 0xf0ff) SEG_FLAGS_DPL_MASK = Z.land flags SEG_FLAGS_DPL_MASK.
Proof. by rewrite <- Z.land_assoc. Qed.

Lemma shuts_out_kept flags base size : shuts_out flags base size -> shuts_out (Z.land flags 0xf0ff) base size.
Proof.
  unfold shuts_out, offset_valid, expands_down, last_offset. rewrite !has_kept, dpl_kept by done. done.
Qed.

(** ** Segments that end below the hypervisor *)

(** There is room for a unit of the segment's between its base and the hypervisor. *)
Definition room (flags base : Z) : Prop := base + (if has flags SEG_FLAGS_G_BIT then 4096 else 1) <= HV_VBASE.

Definition dpl_ok (flags : Z) : Prop := Z.shiftl 2 SEG_FLAGS_DPL_SHIFT <= Z.land flags SEG_FLAGS_DPL_MASK.

Lemma up_shuts_out flags base size :
  dpl_ok flags -> (has flags SEG_FLAGS_P_BIT = true -> has flags SEG_FLAGS_NONSYS_BIT = true) ->
  (has flags SEG_FLAGS_NONSYS_BIT = true -> expands_down flags = false) -> 0 <= base <= HV_VBASE ->
  size <= (if has flags SEG_FLAGS_G_BIT then Z.shiftr (HV_VBASE - base) 12 else HV_VBASE - base) ->
  shuts_out flags base size.
Proof.
  intros Hd Hn He Hb Hs Hp. specialize (Hn Hp). split; [done|]. split; [done|]. intros off. unfold offset_valid, last_offset. rewrite He by done.
  unfold HV_VBASE in *. rewrite Z.shiftr_div_pow2 in Hs by done. change (2 ^ 12) with 4096 in Hs.
  pose proof (Z.mul_div_le (0xFC000000 - base) 4096 ltac:(lia)). intros Hoff.
  assert (base + off < 0xFC000000) by (destruct (has flags SEG_FLAGS_G_BIT); lia). unfold u32. rewrite Z.mod_small; lia.
Qed.

Lemma down_shuts_out flags base :
  dpl_ok flags -> has flags SEG_FLAGS_NONSYS_BIT = true -> has flags SEG_FLAGS_G_BIT = true -> expands_down flags = true -> 0 <= base <= HV_VBASE ->
  shuts_out flags base (0x100000 - Z.shiftr base 12).
Proof.
  intros Hd Hn Hg He Hb _. split; [done|]. split; [done|]. intros off. unfold offset_valid, last_offset. rewrite He, Hg.
  rewrite Z.shiftr_div_pow2 by done. change (2 ^ 12) with 4096. unfold HV_VBASE in *.
  pose proof (Z.div_mod base 4096 ltac:(lia)). pose proof (Z.mod_pos_bound base 4096 ltac:(lia)). intros Hoff.
  assert (2 ^ 32 - base <= off + 4095 /\ off <= 2 ^ 32 - 1) as [? ?] by (destruct (has flags SEG_FLAGS_B_BIT); lia).
  unfold u32. destruct (Z.ltb_spec (base + off) (2 ^ 32)).
  - exfalso. destruct (has flags SEG_FLAGS_B_BIT); lia.
  - rewrite (Z.mod_eq _ (2 ^ 32)) by done. assert ((base + off) / 2 ^ 32 = 1) as -> by (symmetry; apply (Z.div_unique _ _ _ (base + off - 2 ^ 32)); lia). lia.
Qed.

(** What a partial segment keeps when its polarity changes. *)
Definition PARTIAL_MASK : Z := 0x80f8.
Definition PARTIAL_FLAGS : Z := 0x80f0.
Definition partial_ok (flags base : Z) : Prop := Z.land flags PARTIAL_MASK = PARTIAL_FLAGS /\ 0 < base /\ base + 4096 <= HV_VBASE.

Lemma partial_bit flags b : Z.land flags PARTIAL_MASK = PARTIAL_FLAGS -> Z.land PARTIAL_MASK b = b -> Z.land flags b = Z.land PARTIAL_FLAGS b.
Proof. intros H Hb. by rewrite <- H, <- Z.land_assoc, Hb. Qed.

Lemma partial_facts flags :
  Z.land flags PARTIAL_MASK = PARTIAL_FLAGS -> dpl_ok flags /\ has flags SEG_FLAGS_G_BIT = true /\
    has flags SEG_FLAGS_CODE_BIT = false /\ has flags SEG_FLAGS_NONSYS_BIT = true.
Proof. intros H. unfold dpl_ok, has. rewrite !(partial_bit flags) by done. done. Qed.

Lemma partial_up flags base :
  partial_ok flags base -> has flags SEG_FLAGS_E_BIT = false -> shuts_out flags base (Z.shiftr (HV_VBASE - base) 12).
Proof.
  intros (Hf & Hb & Hr) He. destruct (partial_facts _ Hf) as (Hd & Hg & _ & Hn).
  apply up_shuts_out; [done|done| |lia|by rewrite Hg]. intros _. unfold expands_down. by rewrite He, andb_false_r.
Qed.

Lemma partial_down flags base :
  partial_ok flags base -> has flags SEG_FLAGS_E_BIT = true -> shuts_out flags base (0x100000 - Z.shiftr base 12).
Proof.
  intros (Hf & Hb & Hr) He. destruct (partial_facts _ Hf) as (Hd & Hg & Hc & Hn).
  apply down_shuts_out; try done; [|lia]. unfold expands_down. by rewrite He, Hc.
Qed.

Lemma has_full e k : 0 <= k -> has e (2 ^ k) = true -> Z.land e (2 ^ k) = 2 ^ k.
Proof.
  unfold has. intros Hk H. rewrite truth_land_pow2 in H by done. apply Z.bits_inj'. intros i Hi.
  rewrite Z.land_spec, Z.pow2_bits_eqb by done. destruct (Z.eqb_spec k i) as [->|]; [by rewrite H|by rewrite andb_false_r].
Qed.

Lemma has_empty e b : has e b = false -> Z.land e b = 0.
Proof. unfold has, truth. intros H. apply negb_false_iff, Z.eqb_eq in H. done. Qed.

Lemma force_dpl_has flags b : Z.land (not32 SEG_FLAGS_DPL_MASK) b = b -> Z.land (Z.shiftl 2 SEG_FLAGS_DPL_SHIFT) b = 0 -> has (force_dpl flags) b = has flags b.
Proof.
  intros H1 H2. unfold force_dpl. destruct (_ <? _); [|done]. unfold has.
  by rewrite Z.land_lor_distr_l, <- Z.land_assoc, H1, H2, Z.lor_0_r.
Qed.

Lemma force_dpl_ok flags : dpl_ok (force_dpl flags).
Proof.
  unfold dpl_ok, force_dpl. destruct (Z.ltb_spec (Z.land flags SEG_FLAGS_DPL_MASK) (Z.shiftl 2 SEG_FLAGS_DPL_SHIFT)); [|done].
  rewrite Z.land_lor_distr_l, <- Z.land_assoc. change (Z.land (not32 SEG_FLAGS_DPL_MASK) SEG_FLAGS_DPL_MASK) with 0. by rewrite Z.land_0_r.
Qed.

Lemma not_down flags :
  (Z.land flags (Z.lor (Z.lor SEG_FLAGS_NONSYS_BIT SEG_FLAGS_CODE_BIT) SEG_FLAGS_E_BIT) =? Z.lor SEG_FLAGS_NONSYS_BIT SEG_FLAGS_E_BIT) = false ->
  has flags SEG_FLAGS_NONSYS_BIT = true -> expands_down flags = false.
Proof.
  intros H Hn. unfold expands_down. destruct (has flags SEG_FLAGS_CODE_BIT) eqn:Hc; [done|]. destruct (has flags SEG_FLAGS_E_BIT) eqn:He; [|done].
  exfalso. apply Z.eqb_neq in H. apply H. rewrite !Z.land_lor_distr_r, (has_empty _ _ Hc).
  change SEG_FLAGS_NONSYS_BIT with (2 ^ 4) in *. change SEG_FLAGS_E_BIT with (2 ^ 2) in *. by rewrite !has_full by done.
Qed.

Lemma restrict_size_spec flags base size :
  0 <= base -> 0 < size <= 0x100000 -> room flags base ->
  0 < restrict_size flags base size <= 0x100000 /\
  restrict_size flags base size <= (if has flags SEG_FLAGS_G_BIT then Z.shiftr (HV_VBASE - base) 12 else HV_VBASE - base).
Proof.
  intros Hb Hs. unfold room, restrict_size. unfold HV_VBASE. rewrite !Z.shiftr_div_pow2 by done. change (2 ^ 12) with 4096.
  destruct (has flags SEG_FLAGS_G_BIT); intros Hr; destruct (Z.ltb_spec 0xFC000000 base); try lia.
  - pose proof (Z.div_le_mono 4096 (0xFC000000 - base) 4096 ltac:(lia) ltac:(lia)) as Hq. change (4096 / 4096) with 1 in Hq. zbool; lia.
  - zbool; lia.
Qed.

(** ** The tables stay safe *)
Definition entry_safe (d : descriptor) (info : gdt_entry_info) : Prop :=
  seg_safe d /\ (is_partial info = true -> partial_ok (descr_flags (word0 d) (word1 d)) (descr_base (word0 d) (word1 d))).
Definition gdt_ok (s : segst) : Prop := forall i, GDT_ENTRY_MIN <= i -> entry_safe (gdt_of s i) (info_of s i).

(** A request that is for a code or data segment and leaves it some room below the hypervisor, if it is present.  The
    call checks neither: [call_gate_accepted], [segment_above_hypervisor]. *)
Definition request_ok (w0 w1 : Z) : Prop :=
  has (descr_flags w0 w1) SEG_FLAGS_P_BIT = true ->
  has (descr_flags w0 w1) SEG_FLAGS_NONSYS_BIT = true /\ room (descr_flags w0 w1) (descr_base w0 w1).

Lemma set_gdt_ok s i d info : gdt_ok s -> entry_safe d info -> gdt_ok (set_gdt s i d info).
Proof.
  intros Hs Hd j Hj. unfold gdt_of, info_of, set_gdt. cbn [gdt gdt_info]. destruct (decide (i = j)) as [->|Hne].
  - by rewrite !lookup_insert_eq.
  - rewrite !lookup_insert_ne by done. by apply Hs.
Qed.

Lemma pack_safe flags base size info :
  is_u32 base -> 0 < size <= 0x100000 -> shuts_out flags base size -> is_partial info = false -> entry_safe (pack_descr flags base size) info.
Proof.
  intros Hb Hs Ho Hi. split; [|by rewrite Hi]. unfold seg_safe. rewrite unpack_pack by (done || lia).
  destruct (Z.eqb_spec size 0); [lia|]. by apply shuts_out_kept.
Qed.

Lemma pack_partial flags base size eip n :
  partial_ok flags base -> 0 < size <= 0x100000 -> shuts_out flags base size -> entry_safe (pack_descr flags base size) (GdtInfo true eip n).
Proof.
  intros Hp Hs Ho. assert (is_u32 base) as Hb by (destruct Hp as (_ & ? & ?); unfold is_u32, HV_VBASE in *; lia).
  split.
  - unfold seg_safe. rewrite unpack_pack by (done || lia). destruct (Z.eqb_spec size 0); [lia|]. by apply shuts_out_kept.
  - intros _. rewrite descr_base_pack, descr_flags_pack by done. destruct Hp as (Hf & Hr). split; [|done]. by rewrite <- Z.land_assoc.
Qed.

Lemma up_size base : 0 < base -> base + 4096 <= HV_VBASE -> 0 < Z.shiftr (HV_VBASE - base) 12 <= 0x100000.
Proof.
  unfold HV_VBASE. intros Hb Hr. rewrite Z.shiftr_div_pow2 by done. change (2 ^ 12) with 4096.
  pose proof (Z.div_le_mono 4096 (0xFC000000 - base) 4096 ltac:(lia) ltac:(lia)) as H1. change (4096 / 4096) with 1 in H1.
  pose proof (Z.div_le_mono (0xFC000000 - base) 0xFC000000 4096 ltac:(lia) ltac:(lia)) as H2. change (0xFC000000 / 4096) with 0xFC000 in H2. lia.
Qed.

Lemma down_size base : 0 < base -> base + 4096 <= HV_VBASE -> 0 < 0x100000 - Z.shiftr base 12 <= 0x100000.
Proof.
  unfold HV_VBASE. intros Hb Hr. rewrite Z.shiftr_div_pow2 by done. change (2 ^ 12) with 4096.
  pose proof (Z.div_pos base 4096 ltac:(lia) ltac:(lia)).
  pose proof (Z.div_le_mono base 0xFC000000 4096 ltac:(lia) ltac:(lia)) as H2. change (0xFC000000 / 4096) with 0xFC000 in H2. lia.
Qed.

Lemma wants_partial_spec flags base size :
  0 <= base -> wants_partial flags base size = true -> room flags base ->
  partial_ok flags base /\ has flags SEG_FLAGS_E_BIT = false.
Proof.
  intros H0. unfold wants_partial, has. intros [[[Hb _]%andb_true_iff _]%andb_true_iff Hf]%andb_true_iff Hr. apply Z.eqb_eq in Hf.
  match type of Hf with Z.land _ ?M = ?V => set (M0 := M) in Hf; set (V0 := V) in Hf end.
  assert (forall b, Z.land M0 b = b -> Z.land flags b = Z.land V0 b) as Hbit by (intros b Hb0; by rewrite <- Hf, <- Z.land_assoc, Hb0).
  assert (has flags SEG_FLAGS_G_BIT = true) as Hg by (unfold has; by rewrite Hbit).
  unfold room in Hr. rewrite Hg in Hr. split; [split; [by rewrite Hbit|]|by rewrite Hbit].
  apply negb_true_iff, Z.eqb_neq in Hb. split; [lia|done].
Qed.

Lemma absent_safe d info : is_partial info = false -> has (descr_flags (word0 d) (word1 d)) SEG_FLAGS_P_BIT = false -> entry_safe d info.
Proof.
  intros Hi Hp. split; [|by rewrite Hi]. unfold seg_safe, unpack_descr, unpack_descr_words, shuts_out. rewrite Hp. done.
Qed.

Lemma h_gdt_entry_ok s index w0 w1 : gdt_ok s -> request_ok w0 w1 -> gdt_ok (snd (h_gdt_entry s index w0 w1)).
Proof.
  intros Hs Hr. unfold h_gdt_entry, unpack_descr_words. destruct (_ || _); [done|].
  destruct (_ && _); [by apply set_gdt_ok, absent_safe|]. unfold request_ok in Hr.
  pose proof (unpack_u32 w0 w1) as Hb. pose proof (unpack_size w0 w1) as Hz.
  set (flags := descr_flags w0 w1) in *. set (base := descr_base w0 w1) in *. set (size := descr_size w0 w1) in *.
  assert (0 <= base) as Hb0 by (unfold is_u32 in Hb; lia).
  destruct (wants_partial flags base size) eqn:Hw.
  - assert (has flags SEG_FLAGS_P_BIT = true) as Hp.
    { apply andb_true_iff in Hw as [_ Hf%Z.eqb_eq]. unfold has. match type of Hf with Z.land _ ?M = ?V => assert (Z.land flags SEG_FLAGS_P_BIT = Z.land V SEG_FLAGS_P_BIT) as -> end; [|done].
      rewrite <- Hf, <- Z.land_assoc. done. }
    destruct (wants_partial_spec _ _ _ Hb0 Hw (proj2 (Hr Hp))) as [Hpo He]. pose proof Hpo as (_ & ? & ?).
    cbn [snd]. apply set_gdt_ok, pack_partial; [done..|by apply up_size|by apply partial_up].
  - destruct (has flags SEG_FLAGS_P_BIT) eqn:Hp.
    + destruct (Hr eq_refl) as [Hns Hro]. clear Hr. rename Hro into Hr. destruct (_ =? _) eqn:Hd; [done|]. cbn [snd].
      assert (room (force_dpl flags) base) as Hr' by (unfold room in *; rewrite force_dpl_has; done).
      destruct (restrict_size_spec (force_dpl flags) base size Hb0 Hz Hr') as [Hz1 Hz2].
      apply set_gdt_ok, pack_safe; try done. apply up_shuts_out; try done; [apply force_dpl_ok| | |].
      * intros _. by rewrite force_dpl_has.
      * unfold expands_down. rewrite !force_dpl_has by done. by apply not_down.
      * unfold room in Hr. destruct (has flags SEG_FLAGS_G_BIT); lia.
    + cbn [snd]. apply set_gdt_ok, absent_safe; [done..|]. by rewrite descr_flags_pack, has_kept.
Qed.

Lemma partial_flip flags base f : partial_ok flags base -> Z.land f PARTIAL_MASK = Z.land flags PARTIAL_MASK -> partial_ok f base.
Proof. intros [Hf Hr] E. split; [by rewrite E|done]. Qed.

Lemma handle_partial_ok s code eip fs gs : gdt_ok s -> gdt_ok (snd (handle_partial_seg_fault s code eip fs gs)).
Proof.
  intros Hs. unfold handle_partial_seg_fault, unpack_descr, unpack_descr_words. set (seg := prefix_seg _ _ _ _ _). set (idx := Z.shiftr seg 3).
  destruct ((GDT_ENTRY_MIN <=? idx) && (idx <? GDT_ENTRY_COUNT) && (Z.land seg 4 =? 0) && is_partial (info_of s idx) && negb (eip =? last_toggle_eip (info_of s idx))) eqn:Hc; [|done].
  apply andb_true_iff in Hc as [[[[Hi%Z.leb_le _]%andb_true_iff _]%andb_true_iff Hp]%andb_true_iff _].
  destruct (Hs idx Hi) as [_ Hpo]. specialize (Hpo Hp). set (flags := descr_flags _ _) in *. set (base := descr_base _ _) in *.
  pose proof Hpo as (_ & Hb1 & Hb2). destruct (Z.land flags SEG_FLAGS_E_BIT =? 0) eqn:He; cbn [snd]; (apply set_gdt_ok; [exact Hs|]).
  - apply pack_partial; [|by apply down_size|].
    + apply (partial_flip flags); [done|]. rewrite Z.land_lor_distr_l. by rewrite Z.lor_0_r.
    + apply partial_down.
      * apply (partial_flip flags); [done|]. rewrite Z.land_lor_distr_l. by rewrite Z.lor_0_r.
      * unfold has. rewrite Z.land_lor_distr_l. apply Z.eqb_eq in He. by rewrite He.
  - assert (sub32 HV_VBASE base = HV_VBASE - base) as -> by (unfold sub32, u32, HV_VBASE in *; rewrite Z.mod_small; lia).
    assert (partial_ok (Z.land flags (not32 SEG_FLAGS_E_BIT)) base) as Hpo' by (apply (partial_flip flags); [done|]; by rewrite <- Z.land_assoc).
    apply pack_partial; [done|by apply up_size|]. apply partial_up; [done|]. unfold has. by rewrite <- Z.land_assoc, Z.land_0_r.
Qed.

(** ** Gates *)
Section Tables.
Variables (exception_handlers interrupt_handlers trap_handlers : Z -> Z) (tss tss_size : Z).

(** The gate into the hypervisor at a vector. *)
Definition hv_gate (v : Z) : descriptor :=
  if v <? BASE_IRQ_VECTOR then set_intr_gate (exception_handlers v) (if (v =? DB_VECTOR) || (v =? BP_VECTOR) then 3 else 0)
  else if v <? BASE_TRAP_VECTOR then set_intr_gate (interrupt_handlers (v - BASE_IRQ_VECTOR)) 0
  else set_intr_gate (trap_handlers (v - BASE_TRAP_VECTOR)) 3.

(** A gate that leads into a segment of the partition's, without a change of the interrupt flag. *)
Definition guest_gate (d : descriptor) : Prop :=
  GDT_ENTRY_MIN <= Z.shiftr (Z.land (Z.shiftr (word0 d) 16) 0xffff) 3 < GDT_ENTRY_COUNT /\ Z.land (Z.land (word1 d) 0xffff) GATE_MASK = TRAP_GATE.

(** The partition's own gates are between the interrupts and the calls of the hypervisor. *)
Definition idt_ok (s : segst) : Prop :=
  forall v, 0 <= v < NR_IDT_ENTRIES -> exists d, idt s !! v = Some d /\
    (d = hv_gate v \/ BASE_TRAP_VECTOR <= v < BASE_HCALL_VECTOR /\ guest_gate d).

(** No debug register watches the hypervisor's memory, and none guards the debug registers. *)
Definition drs_ok (s : segst) : Prop :=
  (forall i a, 0 <= i < 4 -> drs s !! i = Some a -> a < HV_VBASE) /\ (forall a, drs s !! 7 = Some a -> Z.testbit a 13 = false).

Lemma set_gates_lookup n first handlers pl i t v :
  set_gates n first handlers pl i t !! v =
  if (first + i <=? v) && (v <? first + i + Z.of_nat n) then Some (set_intr_gate (handlers (v - first)) (pl (v - first))) else t !! v.
Proof.
  revert i t. induction n as [|n IH]; intros i t; cbn [set_gates].
  - zbool; done || lia.
  - rewrite IH. destruct (decide (v = first + i)) as [->|Hne].
    + rewrite lookup_insert_eq. replace (first + i - first) with i by lia. zbool; done || lia.
    + rewrite lookup_insert_ne by done. zbool; done || lia.
Qed.

Lemma idt_init_ok s : idt_ok (idt_init exception_handlers interrupt_handlers trap_handlers s).
Proof.
  intros v Hv. exists (hv_gate v). split; [|by left]. unfold idt_init, hv_gate. cbn [idt]. rewrite !set_gates_lookup.
  unfold NR_IDT_ENTRIES, NR_EXCEPTIONS_HANDLERS, NR_INTERRUPT_HANDLERS, NR_TRAP_HANDLERS, BASE_IRQ_VECTOR, BASE_TRAP_VECTOR in *.
  rewrite !Z2Nat.id, Z.sub_0_r by lia. destruct (Z.ltb_spec v 32), (Z.ltb_spec v 64); try lia;
    destruct (Z.leb_spec (64 + 0) v), (Z.ltb_spec v (64 + 0 + 192)); try lia; cbn [andb]; try done;
    destruct (Z.leb_spec (32 + 0) v), (Z.ltb_spec v (32 + 0 + 32)); try lia; cbn [andb]; try done;
    destruct (Z.leb_spec (0 + 0) v), (Z.ltb_spec v (0 + 0 + 32)); try lia; done.
Qed.

Lemma set_idt_ok s i d :
  idt_ok s -> (d = hv_gate i \/ BASE_TRAP_VECTOR <= i < BASE_HCALL_VECTOR /\ guest_gate d) -> idt_ok (set_idt s i d).
Proof.
  intros Hs Hd v Hv. unfold set_idt. cbn [idt]. destruct (decide (i = v)) as [->|Hne].
  - exists d. by rewrite lookup_insert_eq.
  - rewrite lookup_insert_ne by done. by apply Hs.
Qed.

Lemma h_idt_entry_ok s index w0 w1 : idt_ok s -> idt_ok (snd (h_idt_entry trap_handlers s index w0 w1)).
Proof.
  intros Hs. unfold h_idt_entry. destruct (_ <=? _); [done|]. destruct (_ && _); [done|]. destruct (_ || _) eqn:Hseg; [done|]. cbn [snd].
  destruct (_ && _) eqn:Hr; [|done]. apply andb_true_iff in Hr as [H1%Z.leb_le H2%Z.ltb_lt]. apply orb_false_iff in Hseg as [H3%Z.ltb_ge H4%Z.leb_gt].
  destruct (Z.eqb_spec (Z.land (Z.land w1 65535) GATE_MASK) TRAP_GATE) as [Hg|_]; apply set_idt_ok; try done.
  - right. split; [done|]. split; [|exact Hg]. cbn [word0]. lia.
  - left. unfold hv_gate. unfold BASE_TRAP_VECTOR, BASE_IRQ_VECTOR in *. zbool; done || lia.
Qed.

Lemma set_dr_keep selector r n v k : k <> n -> set_dr selector r (n, v) !! k = r !! k.
Proof. intros Hk. unfold set_dr. cbn [fst snd]. destruct (has _ _); [|done]. by rewrite lookup_insert_ne. Qed.

Lemma set_dr_here selector r n v a : set_dr selector r (n, v) !! n = Some a -> (has selector (2 ^ n) = true /\ a = v) \/ r !! n = Some a.
Proof. unfold set_dr. cbn [fst snd]. destruct (has _ _); [|by right]. rewrite lookup_insert_eq. intros [= <-]. by left. Qed.

Lemma dr7_unguarded v : Z.testbit (dr7_fixed v) 13 = false.
Proof. unfold dr7_fixed. rewrite Z.lor_spec, Z.land_spec. change (Z.testbit (not32 63488) 13) with false. by rewrite andb_false_r. Qed.

Lemma h_dr_ok s selector dr0 dr1 dr2 dr3 dr6 dr7 : drs_ok s -> drs_ok (snd (h_dr s selector dr0 dr1 dr2 dr3 dr6 dr7)).
Proof.
  intros Hs. unfold h_dr. destruct (_ =? _); [done|]. destruct (existsb _ _) eqn:Hex; [done|]. destruct (_ && _); [done|]. destruct (has _ (Z.lor _ _)); [done|]. cbn [snd].
  destruct Hs as [Hlow H7]. cbn [fold_left]. split.
  - intros i a Hi Ha. cbn [drs set_drs] in Ha. rewrite !(set_dr_keep _ _ 7), !(set_dr_keep _ _ 6) in Ha by lia.
    cbn [existsb fst snd] in Hex. rewrite !orb_false_iff in Hex. destruct Hex as (E0 & E1 & E2 & E3 & _).
    assert (i = 0 \/ i = 1 \/ i = 2 \/ i = 3) as Hcases by lia.
    assert (forall n v, has selector (2 ^ n) && (HV_VBASE <=? v) = false -> has selector (2 ^ n) = true -> v < HV_VBASE) as Hlt
      by (intros n v E Hh; rewrite Hh in E; by apply Z.leb_gt in E).
    destruct Hcases as [->|[->|[->| ->]]]; repeat (rewrite set_dr_keep in Ha by done); apply set_dr_here in Ha as [[Hh ->]|Ha];
      try (eapply Hlt; done); repeat (rewrite set_dr_keep in Ha by done); by eapply Hlow.
  - intros a Ha. cbn [drs set_drs] in Ha. apply set_dr_here in Ha as [[Hh ->]|Ha].
    + change (2 ^ 7) with H_DR7 in Hh. rewrite Hh. apply dr7_unguarded.
    + repeat (rewrite set_dr_keep in Ha by done). by apply H7.
Qed.

(** A call of the partition, or a protection fault of its. *)
Inductive dt_step : segst -> segst -> Prop :=
  | Dt_entry s type index w0 w1 : (type = H_DT_GDT -> request_ok w0 w1) -> dt_step s (snd (h_dt_entry trap_handlers s type index w0 w1))
  | Dt_fault s code eip fs gs : dt_step s (snd (handle_partial_seg_fault s code eip fs gs))
  | Dt_debug s selector dr0 dr1 dr2 dr3 dr6 dr7 : dt_step s (snd (h_dr s selector dr0 dr1 dr2 dr3 dr6 dr7)).

Definition tables_ok (s : segst) : Prop := gdt_ok s /\ idt_ok s /\ drs_ok s.

Definition fresh_tables : segst :=
  gdt_init tss tss_size (idt_init exception_handlers interrupt_handlers trap_handlers (Seg ∅ ∅ ∅ ∅ ∅)).

Lemma gdt_init_ok s : gdt_ok (gdt_init tss tss_size s).
Proof.
  intros i Hi. unfold gdt_of, info_of, gdt_init. cbn [gdt gdt_info]. rewrite lookup_empty. cbn [default].
  unfold GDT_ENTRY_MIN in Hi. destruct (decide (GUEST_DS / 8 = i)) as [<-|H1]; [rewrite lookup_insert_eq|rewrite (lookup_insert_ne _ (GUEST_DS / 8)) by done].
  { cbn [default]. by apply pack_safe; [..|apply up_shuts_out|]. }
  destruct (decide (GUEST_CS / 8 = i)) as [<-|H2]; [rewrite lookup_insert_eq|rewrite (lookup_insert_ne _ (GUEST_CS / 8)) by done].
  { cbn [default]. by apply pack_safe; [..|apply up_shuts_out|]. }
  assert (TSS_SEL / 8 < i /\ HV_DS / 8 < i /\ HV_CS / 8 < i) as (? & ? & ?) by (change (TSS_SEL / 8) with 3; change (HV_DS / 8) with 2; change (HV_CS / 8) with 1; lia).
  rewrite !lookup_insert_ne, lookup_empty by lia. by apply absent_safe.
Qed.

(** Each call changes the tables it is about. *)
Lemma gdt_entry_frame s index w0 w1 : idt (snd (h_gdt_entry s index w0 w1)) = idt s /\ drs (snd (h_gdt_entry s index w0 w1)) = drs s.
Proof. unfold h_gdt_entry, unpack_descr_words. by repeat (case_match; cbn [snd]; try done). Qed.

Lemma partial_fault_frame s code eip fs gs :
  idt (snd (handle_partial_seg_fault s code eip fs gs)) = idt s /\ drs (snd (handle_partial_seg_fault s code eip fs gs)) = drs s.
Proof. unfold handle_partial_seg_fault. by repeat (case_match; cbn [snd]; try done). Qed.

Lemma idt_entry_frame s index w0 w1 :
  gdt (snd (h_idt_entry trap_handlers s index w0 w1)) = gdt s /\ gdt_info (snd (h_idt_entry trap_handlers s index w0 w1)) = gdt_info s /\
  drs (snd (h_idt_entry trap_handlers s index w0 w1)) = drs s.
Proof. unfold h_idt_entry. by repeat (case_match; cbn [snd]; try done). Qed.

Lemma dr_frame s selector dr0 dr1 dr2 dr3 dr6 dr7 :
  gdt (snd (h_dr s selector dr0 dr1 dr2 dr3 dr6 dr7)) = gdt s /\ gdt_info (snd (h_dr s selector dr0 dr1 dr2 dr3 dr6 dr7)) = gdt_info s /\
  idt (snd (h_dr s selector dr0 dr1 dr2 dr3 dr6 dr7)) = idt s.
Proof. unfold h_dr. by repeat (case_match; cbn [snd]; try done). Qed.

Lemma gdt_ok_ext s s' : gdt s' = gdt s -> gdt_info s' = gdt_info s -> gdt_ok s -> gdt_ok s'.
Proof. intros E1 E2 H i Hi. unfold gdt_of, info_of. rewrite E1, E2. by apply H. Qed.
Lemma idt_ok_ext s s' : idt s' = idt s -> idt_ok s -> idt_ok s'.
Proof. intros E H v Hv. rewrite E. by apply H. Qed.
Lemma drs_ok_ext s s' : drs s' = drs s -> drs_ok s -> drs_ok s'.
Proof. intros E H. unfold drs_ok. by rewrite E. Qed.

Lemma dt_step_ok s s' : dt_step s s' -> tables_ok s -> tables_ok s'.
Proof.
  intros [s0 type index w0 w1 Hreq|s0 code eip fs gs|s0 selector dr0 dr1 dr2 dr3 dr6 dr7] (Hg & Hi & Hd).
  - unfold h_dt_entry. destruct (Z.eqb_spec type H_DT_GDT) as [->|].
    { destruct (gdt_entry_frame s0 index w0 w1) as [E1 E2]. split; [by apply h_gdt_entry_ok, Hreq|]. split; [by eapply idt_ok_ext|by eapply drs_ok_ext]. }
    destruct (type =? H_DT_IDT); [|done]. destruct (idt_entry_frame s0 index w0 w1) as (E1 & E2 & E3).
    split; [by eapply gdt_ok_ext|]. split; [by apply h_idt_entry_ok|by eapply drs_ok_ext].
  - destruct (partial_fault_frame s0 code eip fs gs) as [E1 E2]. split; [by apply handle_partial_ok|]. split; [by eapply idt_ok_ext|by eapply drs_ok_ext].
  - destruct (dr_frame s0 selector dr0 dr1 dr2 dr3 dr6 dr7) as (E1 & E2 & E3). split; [by eapply gdt_ok_ext|]. split; [by eapply idt_ok_ext|by apply h_dr_ok].
Qed.

(** C3: whatever segments, gates and debug registers a partition asks for, in any order and with any protection faults
    between, as long as the descriptors it asks for that are present are of code and data segments that begin at least one unit (a byte, or
    a page for those counted in pages) below the hypervisor's base:
    every descriptor it can load is of a code or data segment for rings 2 and 3 that covers no address of the hypervisor, a
    segment that is mapped by halves included; every gate of the processor's is the hypervisor's own, save those between the
    interrupts and the calls, which may lead to the partition's segments; and no debug register watches the
    hypervisor.  The condition is not checked and is needed: the call takes call gates, and segments that begin above
    the base, as they come ([call_gate_accepted], [segment_above_hypervisor]). *)
Theorem x86_tables_exclude_hypervisor s :
  rtc dt_step fresh_tables s -> tables_ok s.
Proof.
  intros H. apply (rtc_ind_r (fun s => tables_ok s) fresh_tables) in H; [done| |].
  - split; [apply gdt_init_ok|]. split; [apply idt_init_ok|]. split; intros *; change (drs fresh_tables) with (∅ : gmap Z Z); by rewrite lookup_empty.
  - intros y z _ Hstep Hy. by eapply dt_step_ok.
Qed.

End Tables.

(** ** Witness *)
Definition demo_tables : segst := fresh_tables (fun v => 0xFC100000 + 16 * v) (fun v => 0xFC101000 + 16 * v) (fun v => 0xFC102000 + 16 * v) 0xFC200000 104.

(** A flat code segment, which is cut; a thread's data segment from 0xB0000000 on, which becomes partial; its
    other half after a fault on an instruction with the prefix of [gs]; a system call's gate. *)
Definition demo_calls (s : segst) : segst :=
  let s := snd (h_dt_entry (fun v => 0xFC102000 + 16 * v) s H_DT_GDT 6 0x0000ffff 0x00cf9a00) in
  let s := snd (h_dt_entry (fun v => 0xFC102000 + 16 * v) s H_DT_GDT 7 0x0000ffff 0xb0cff200) in
  let s := snd (handle_partial_seg_fault s (fun _ => 0x65) 0x8048000 0 0x3b) in
  snd (h_dt_entry (fun v => 0xFC102000 + 16 * v) s H_DT_IDT 0x80 0x00331234 0x0804ef00).

Lemma x86_tables_exclude_hypervisor_witness :
  tables_ok (fun v => 0xFC100000 + 16 * v) (fun v => 0xFC101000 + 16 * v) (fun v => 0xFC102000 + 16 * v) (demo_calls demo_tables) /\
  (fun i => unpack_descr (gdt_of (demo_calls demo_tables) i)) <$> [6; 7] = [(0xc0da, 0, 0xfc000); (0xc0f6, 0xb0000000, 0x50000)] /\
  idt (demo_calls demo_tables) !! 0x80 = Some (Descr 0x00331234 0x0804ef00).
Proof.
  split; [|split; vm_compute; reflexivity].
  apply (x86_tables_exclude_hypervisor _ _ _ 0xFC200000 104). unfold demo_calls.
  eapply rtc_l; [apply (Dt_entry _ _ H_DT_GDT 6 0x0000ffff 0x00cf9a00); intros _ _; split; vm_compute; congruence|].
  eapply rtc_l; [apply (Dt_entry _ _ H_DT_GDT 7 0x0000ffff 0xb0cff200); intros _ _; split; vm_compute; congruence|].
  eapply rtc_l; [apply (Dt_fault _ _ (fun _ => 0x65) 0x8048000 0 0x3b)|].
  apply rtc_once, (Dt_entry _ _ H_DT_IDT 0x80 0x00331234 0x0804ef00). discriminate.
Defined.

(** ** Findings *)

(** A segment that begins above [HV_VBASE] is cut to size 0, which the descriptor holds as the largest size:
    it covers the hypervisor to its last byte. *)
Example segment_above_hypervisor :
  let s := snd (h_gdt_entry demo_tables 6 0x0000ffff 0xfdcf9200) in
  unpack_descr (gdt_of s 6) = (0xc0d2, 0xfd000000, 0x100000) /\ ~ seg_safe (gdt_of s 6).
Proof.
  split; [vm_compute; reflexivity|]. unfold seg_safe. replace (unpack_descr _) with (0xc0d2, 0xfd000000, 0x100000) by (vm_compute; reflexivity).
  intros H. destruct (H eq_refl) as (_ & _ & H'). specialize (H' 0). vm_compute in H'. specialize (H' ltac:(split; congruence)). congruence.
Qed.

(** The same with a partial segment of user mode that begins at [HV_VBASE]. *)
Example partial_segment_at_hypervisor :
  unpack_descr (gdt_of (snd (h_gdt_entry demo_tables 6 0x0000ffff 0xfccff200)) 6) = (0xc0f2, HV_VBASE, 0x100000).
Proof. vm_compute. reflexivity. Qed.

(** System descriptors are taken as they come: a call gate into the hypervisor's code segment, at an address
    the partition chooses, runs the partition's code in ring 0. *)
Example call_gate_accepted :
  let r := h_gdt_entry demo_tables 6 (Z.lor (Z.shiftl HV_CS 16) 0x1000) 0x0040ec00 in
  fst r = H_Success /\ gdt_of (snd r) 6 = Descr (Z.lor (Z.shiftl HV_CS 16) 0x1000) 0x0040ec00.
Proof. vm_compute. split; reflexivity. Qed.
