(* ===== verification/X86Trap.v ===== *)
(** * X86Trap: exceptions, interrupts and the return from them

    [hype/x86/handler.c] and the rest of [hype/x86/intr.c].  What the processor stops a partition for is
    reflected to the partition: the hypervisor pushes a frame onto the partition's stack and lets it go on in
    its own handler, which returns with a call.  Device interrupts are chosen in turn from those pending
    in the partition's mailbox. *)

From S2P Require Import Prelude Hcall Bitmap PgAlloc Imemcpy X86Vm X86Pgc X86Fault X86Seg.

Definition DF_VECTOR : Z := 8.
Definition TS_VECTOR : Z := 10.
Definition NP_VECTOR : Z := 11.
Definition SS_VECTOR : Z := 12.
Definition GP_VECTOR : Z := 13.
Definition AC_VECTOR : Z := 17.
Definition HCALL_VECTOR : Z := 0xF0.
Definition HCALL_VECTOR_IRET : Z := 0xF1.

Definition RPL (a : Z) : Z := Z.land a 3.

(** ** Reading the partition's stack *)

(** A load through the thread's own tables, which are the processor's. *)
Fixpoint load_bytes (s : xst) (va : Z) (n : nat) : res (list Z) :=
  match n with
  | O => Ok []
  | S n =>
      let! pa := v2p s va in
      check! negb (pa =? ONES32) else Assert_failed in
      let! bs := load_bytes s (add32 va 1) n in
      Ok (xm s pa :: bs)
  end.

Definition of_le32 (bs : list Z) : Z := foldr (fun b v => b + 256 * v) 0 bs.

Section Trap.

Variables (l2p : Z -> Z -> Z) (iopl2 : bool) (max_phys_memory : Z) (hv_pgd : Z -> Z) (copybuf1 copybuf2 : Z) (iopl : Z).

(** [None]: the pointer that is returned is null. *)
Definition get_lpar (s : xst) (va : Z) : res (option Z * xst) :=
  let! d := fget (xc s) (t_pgd (xt s)) in
  if fr_hvpa d =? x_cr3 s then let! bs := load_bytes s va 4 in Ok (Some (of_le32 bs), s)
  else
    let! pa := v2p s va in
    if pa =? ONES32 then Ok (None, s)
    else
      let! r := X86Vm.copy_in hv_pgd copybuf2 (Hvmm (x_hpt s) (xm s)) pa 4 in
      Ok (Some (of_le32 (fst r)), with_hpt s (hpt (snd r)) (hmem (snd r))).

Definition pop (s : xst) : res (Z * xst) :=
  let! r := get_lpar s (r_esp (xr s)) in
  let! v := of_option Assert_failed (fst r) in
  let s := snd r in
  Ok (v, with_r s (set_esp (xr s) (add32 (r_esp (xr s)) 4))).

Definition enable_intr (s : xst) : xst := with_mbox s (match x_mbox_if s with Some _ => Some 1 | None => None end).

Definition set_eip (r : xregs) (v : Z) : xregs := XRegs (r_cs r) (r_ss r) (r_esp r) v (r_eflags r) (r_ss2 r) (r_esp2 r).
Definition set_cs_eflags (r : xregs) (cs eflags : Z) : xregs := XRegs cs (r_ss r) (r_esp r) (r_eip r) eflags (r_ss2 r) (r_esp2 r).
Definition set_ss_esp (r : xregs) (ss esp : Z) : xregs := XRegs (r_cs r) ss esp (r_eip r) (r_eflags r) (r_ss2 r) (r_esp2 r).

(** From the first [pop] on. *)
Definition iret_pops (s : xst) : res xst :=
  let! r := pop s in
  let '(eip, s) := r in
  let s := with_r s (set_eip (xr s) eip) in
  let! r := pop s in
  let '(new_cs, s) := r in
  let! r := pop s in
  let '(fl, s) := r in
  let eflags := Z.land fl (not32 EFLAGS_IOPL_MASK) in
  let! s :=
    if negb (RPL new_cs =? RPL (r_cs (xr s))) then
      let! r := pop s in
      let '(tmp_esp, s) := r in
      let! r := pop s in
      let '(ss, s) := r in
      Ok (with_r s (set_ss_esp (xr s) ss tmp_esp))
    else Ok s in
  let s := with_r s (set_cs_eflags (xr s) new_cs (Z.lor (Z.lor eflags iopl) EFLAGS_IF)) in
  Ok (if has eflags EFLAGS_IF then enable_intr s else s).

Definition iret (depth : nat) (ticks : Z) (s : xst) : res xst :=
  let! s := if t_cb (xt s) then shadow_fault_callback l2p iopl2 max_phys_memory s ticks else Ok s in
  let mask := if RPL (r_ss (xr s)) =? 3 then PTE_US else 0 in
  let! p := isstackpresent s 5 mask in
  match p with
  | None => iret_pops s
  | Some (error, fault) =>
      let! r := page_fault l2p iopl2 max_phys_memory hv_pgd copybuf1 iopl depth ticks s error fault in
      if truth (fst r) then cassert (negb (has mask PTE_US)) (Ok (snd r)) else iret_pops (snd r)
  end.

(** ** Reflecting exceptions *)
Definition idt_at (s : xst) (trapno : Z) : option idt_descriptor :=
  if NR_IDT_ENTRIES <=? trapno then None else Some (default (Idt 0 0 0) (x_idt s !! trapno)).

Definition sync (depth : nat) (ticks : Z) := force_sync_exception hv_pgd copybuf1 iopl (page_fault l2p iopl2 max_phys_memory hv_pgd copybuf1 iopl depth ticks).

Definition raise_exception (depth : nat) (ticks : Z) (s : xst) (trapno : Z) : res (Z * xst) :=
  match idt_at s trapno with
  | None => Ok (1, s)
  | Some d => let! r := sync depth ticks s d 0 in Ok (if truth (fst r) then 1 else 0, snd r)
  end.

Definition raise_fault (depth : nat) (ticks : Z) (s : xst) (trapno error_code : Z) : res (Z * xst) :=
  match idt_at s trapno with
  | None => Ok (1, s)
  | Some d =>
      let! r := sync depth ticks s d 1 in
      if truth (fst r) then Ok (1, snd r)
      else let! s := push hv_pgd copybuf1 (snd r) error_code in Ok (0, s)
  end.

(** The segments are part of the thread too; the faulting instruction is read through its tables. *)
Definition gen_prot_fault (depth : nat) (ticks : Z) (s : xst) (g : segst) (code : Z -> Z) (fs gs trapno error_code : Z) : res (Z * xst * segst) :=
  let '(handled, g) := handle_partial_seg_fault g code (r_eip (xr s)) fs gs in
  if handled then Ok (0, s, g)
  else let! r := raise_fault depth ticks s trapno error_code in Ok (r, g).

Definition exception (depth : nat) (ticks : Z) (s : xst) (g : segst) (code : Z -> Z) (cr2 fs gs trapno error_code : Z) : res (xst * segst) :=
  if trapno =? PF_VECTOR then
    let! r := page_fault l2p iopl2 max_phys_memory hv_pgd copybuf1 iopl depth ticks s error_code cr2 in Ok (snd r, g)
  else if trapno =? GP_VECTOR then
    let! r := gen_prot_fault depth ticks s g code fs gs trapno error_code in Ok (snd (fst r), snd r)
  else if (trapno =? DF_VECTOR) || (trapno =? TS_VECTOR) || (trapno =? NP_VECTOR) || (trapno =? SS_VECTOR) || (trapno =? AC_VECTOR) then
    let! r := raise_fault depth ticks s trapno error_code in Ok (snd r, g)
  else let! r := raise_exception depth ticks s trapno in Ok (snd r, g).

(** [hcall] is the dispatch to the calls' handlers. *)
Definition trap (hcall : xst -> res xst) (depth : nat) (ticks : Z) (s : xst) (trapno : Z) : res xst :=
  if (BASE_HCALL_VECTOR <=? trapno) && (RPL (r_cs (xr s)) <? 3) then
    if trapno =? HCALL_VECTOR then hcall s
    else if trapno =? HCALL_VECTOR_IRET then iret depth ticks s
    else Ok s
  else let! r := raise_exception depth ticks s trapno in Ok (snd r).

(** ** Device interrupts *)

(** [struct mailbox] but for [IF], which is with the thread, and [thread->lastirq]. *)
Record irqs : Type := Irqs { irq_masked : Z; irq_pending : Z; lastirq : Z }.

(** [for (i = 0; i < NR_INTERRUPT_HANDLERS; i++)] *)
Fixpoint irq_search (n : nat) (i mask last : Z) : option Z :=
  match n with
  | O => None
  | S n =>
      let irq := add32 (add32 i last) 1 mod NR_INTERRUPT_HANDLERS in
      if has mask (2 ^ irq) then Some irq else irq_search n (i + 1) mask last
  end.

(** [None] for -1. *)
Definition external_interrupt (mbox_if : option Z) (q : irqs) : option Z * irqs :=
  match mbox_if with
  | None => (None, q)
  | Some f =>
      if f =? 0 then (None, q)
      else
        let mask := Z.land (irq_pending q) (not32 (irq_masked q)) in
        if mask =? 0 then (None, q)
        else match irq_search (Z.to_nat NR_INTERRUPT_HANDLERS) 0 mask (lastirq q) with
             | Some irq => (Some irq, Irqs (irq_masked q) (irq_pending q) irq)
             | None => (None, q)
             end
  end.

Definition deliver_intr_exception (depth : nat) (ticks : Z) (s : xst) (q : irqs) : res (xst * irqs) :=
  match x_mbox_if s with
  | None => Ok (s, q)
  | Some _ =>
      match external_interrupt (x_mbox_if s) q with
      | (None, q) => Ok (s, q)
      | (Some irq, q) =>
          match idt_at s (irq + BASE_IRQ_VECTOR) with
          | None => Ok (s, q)
          | Some d =>
              let! r := sync depth ticks s d 0 in
              if truth (fst r) then Ok (snd r, q)
              else Ok (snd r, Irqs (Z.lor (irq_masked q) (2 ^ irq)) (Z.land (irq_pending q) (not32 (2 ^ irq))) (lastirq q))
          end
      end
  end.

Definition check_intr_delivery (depth : nat) (ticks : Z) (s : xst) (q : irqs) : res (xst * irqs) :=
  match x_mbox_if s with
  | Some _ => if truth (Z.land (irq_pending q) (not32 (irq_masked q))) then deliver_intr_exception depth ticks s q else Ok (s, q)
  | None => Ok (s, q)
  end.

Definition SIZEOF_MAILBOX : Z := 20.

(** The mailbox ([0] when there is none) becomes the one at the logical address; [fresh] is what the page allocator has. *)
Definition h_set_mbox (s : hvmm) (mbox fresh mbox_laddr : Z) : res (Z * Z * hvmm) :=
  let mbox_paddr := l2p mbox_laddr SIZEOF_MAILBOX in
  if mbox_paddr =? INVALID_PADDR then Ok (H_Parameter, mbox, s)
  else if PGSIZE <? Z.land mbox_laddr (PGSIZE - 1) + SIZEOF_MAILBOX then Ok (H_Parameter, mbox, s)
  else
    let! r := hv_map hv_pgd s fresh mbox (Z.land mbox_paddr PTE_SMALLBASE) PGSIZE PTE_RW in
    let '(mbox_vaddr, s) := r in
    if mbox_vaddr =? ONES32 then Ok (H_Busy, mbox, s)
    else Ok (H_Success, Z.lor mbox_vaddr (Z.land mbox_paddr (not32 PTE_SMALLBASE)), s).

(** ** Turns *)

(** What is chosen from the mailbox's states, one call after the other, whoever changes it between them. *)
Fixpoint served (last : Z) (boxes : list (Z * Z)) : list (option Z) :=
  match boxes with
  | [] => []
  | (masked, pending) :: boxes =>
      let r := external_interrupt (Some 1) (Irqs masked pending last) in
      fst r :: served (lastirq (snd r)) boxes
  end.

(** How many turns are before [k]'s. *)
Definition turns (last k : Z) : Z := (k - last - 1) mod 32.

Lemma irq_search_spec mask last j0 n i :
  0 <= last < 32 -> 0 <= i -> i <= j0 < i + Z.of_nat n -> j0 < 32 -> has mask (2 ^ ((j0 + last + 1) mod 32)) = true ->
  exists j, i <= j <= j0 /\ irq_search n i mask last = Some ((j + last + 1) mod 32) /\ has mask (2 ^ ((j + last + 1) mod 32)) = true.
Proof.
  intros Hl. revert i. induction n as [|n IH]; intros i Hi Hj Hj32 Hm; [lia|]. cbn [irq_search].
  assert (add32 (add32 i last) 1 = i + last + 1) as -> by (unfold add32, u32; rewrite (Z.mod_small (i + last)), Z.mod_small; lia). unfold NR_INTERRUPT_HANDLERS.
  destruct (has mask (2 ^ ((i + last + 1) mod 32))) eqn:E; [exists i; repeat split; done || lia|].
  assert (i <> j0) by (intros ->; congruence). destruct (IH (i + 1)) as (j & Hj' & E1 & E2); try lia; [done|]. exists j. repeat split; done || lia.
Qed.

Lemma next_in_turn mask last k :
  0 <= last < 32 -> 0 <= k < 32 -> has mask (2 ^ k) = true ->
  exists irq, irq_search 32 0 mask last = Some irq /\ 0 <= irq < 32 /\ has mask (2 ^ irq) = true /\ (irq = k \/ turns irq k < turns last k).
Proof.
  intros Hl Hk Hm. assert ((turns last k + last + 1) mod 32 = k) as Ek by (unfold turns; Z.to_euclidean_division_equations; lia).
  assert (0 <= turns last k < 32) as Ht by (unfold turns; apply Z.mod_pos_bound; lia).
  destruct (irq_search_spec mask last (turns last k) 32 0 Hl) as (j & Hj & E & Hb); try lia; [by rewrite Ek|].
  exists ((j + last + 1) mod 32). split_and!; try done; try apply Z.mod_pos_bound; try lia.
  destruct (decide (j = turns last k)) as [->|Hne]; [by left|right].
  assert (turns ((j + last + 1) mod 32) k = turns last k - j - 1) as ->; [|lia].
  unfold turns in *. Z.to_euclidean_division_equations; lia.
Qed.

Lemma waiting_bit masked pending k :
  0 <= k < 32 -> Z.testbit pending k = true -> Z.testbit masked k = false -> has (Z.land pending (not32 masked)) (2 ^ k) = true.
Proof.
  intros Hk Hp Hm. unfold has. rewrite truth_land_pow2, Z.land_spec, testbit_not32, Hp, Hm by lia. zbool; done || lia.
Qed.

Lemma external_interrupt_some masked pending last k :
  0 <= last < 32 -> 0 <= k < 32 -> Z.testbit pending k = true -> Z.testbit masked k = false ->
  exists irq, external_interrupt (Some 1) (Irqs masked pending last) = (Some irq, Irqs masked pending irq) /\ 0 <= irq < 32 /\
    (irq = k \/ turns irq k < turns last k).
Proof.
  intros Hl Hk Hp Hm. unfold external_interrupt. cbn [Z.eqb irq_pending irq_masked lastirq].
  pose proof (waiting_bit masked pending k Hk Hp Hm) as Hb. set (mask := Z.land pending (not32 masked)) in *.
  destruct (Z.eqb_spec mask 0) as [E0|_]; [rewrite E0 in Hb; by destruct k|].
  destruct (next_in_turn mask last k Hl Hk Hb) as (irq & E & Hr & _ & Ht). exists irq. unfold NR_INTERRUPT_HANDLERS. change (Z.to_nat 32) with 32%nat. by rewrite E.
Qed.

Lemma served_in_turn k boxes last :
  0 <= last < 32 -> 0 <= k < 32 -> Forall (fun b => Z.testbit (snd b) k = true /\ Z.testbit (fst b) k = false) boxes ->
  turns last k < Z.of_nat (length boxes) -> Some k ∈ served last boxes.
Proof.
  intros Hl Hk Hb. revert last Hl. induction Hb as [|[masked pending] boxes [Hp Hm] _ IH]; intros last Hl Ht; cbn [length] in Ht.
  { assert (0 <= turns last k) by (unfold turns; apply Z.mod_pos_bound; lia). cbn in Ht. lia. }
  destruct (external_interrupt_some masked pending last k Hl Hk Hp Hm) as (irq & E & Hr & Hirq). cbn [served]. rewrite E. cbn [fst snd lastirq].
  destruct Hirq as [->|Hlt]; [by left|]. right. apply IH; [done|lia].
Qed.

End Trap.

(** C25: no interrupt waits for ever behind the others: one that is pending and not masked whenever the mailbox is looked at
    is delivered at one of any 32 deliveries in a row, whatever else becomes pending or masked in between. *)
Theorem irq_rotation_fair k last boxes :
  0 <= last < 32 -> 0 <= k < 32 -> Forall (fun b => Z.testbit (snd b) k = true /\ Z.testbit (fst b) k = false) boxes ->
  length boxes = 32%nat -> Some k ∈ served last boxes.
Proof.
  intros Hl Hk Hb Hlen. apply served_in_turn; try done. rewrite Hlen. unfold turns. pose proof (Z.mod_pos_bound (k - last - 1) 32). lia.
Qed.

Lemma irq_rotation_fair_witness : Some 0 ∈ served 0 (replicate 32 (0x6, 0xffffffff)) /\ take 3 (served 0 (replicate 32 (0x6, 0xffffffff))) = [Some 3; Some 4; Some 5].
Proof.
  split; [|vm_compute; reflexivity].
  apply (irq_rotation_fair 0 0 (replicate 32 (0x6, 0xffffffff))); [lia|lia| |by vm_compute]. apply Forall_replicate. split; reflexivity.
Defined.

(** The address of a mailbox has its offset in the page, and is mapped again as it is: a partition that moves a mailbox from
    the middle of a page stops the hypervisor. *)
Example set_mbox_twice_traps :
  (let! r := h_set_mbox (fun la _ => 0x20000000 + la) demo_pgd (Hvmm ∅ (fun _ => 0)) 0 demo_buf1 0x1100 in
   let '(rc, mbox, s) := r in
   Ok (rc, mbox, h_set_mbox (fun la _ => 0x20000000 + la) demo_pgd s mbox 0 0x2000)) =
  Ok (H_Success, demo_buf1 + 0x100, Fault Assert_failed).
Proof. vm_compute. reflexivity. Qed.
