(* ===== verification/X86Frame.v ===== *)
(** * X86Frame: the frame of an exception

    What [force_sync_exception] pushes onto the partition's stack is what [iret] takes from it: a thread that is
    interrupted by an exception goes on where it was. *)

From S2P Require Import Prelude Bitmap PgAlloc Imemcpy X86Vm X86Pgc X86Fault X86Seg X86Trap.

(** The thread's tables are the processor's. *)
Definition active (s : xst) : Prop := exists d, frames (xc s) !! t_pgd (xt s) = Some d /\ fr_hvpa d = x_cr3 s.

(** The page of the stack at [va] has the entry [pte], which both rings of the partition may write through. *)
Definition stack_page (s : xst) (va pte : Z) : Prop :=
  (PGSIZE | va) /\ 0 <= va /\ va + PGSIZE <= HV_VBASE /\ is_u32 pte /\ pte_pageaddr pte < 2 ^ 32 - PGSIZE /\
  has pte PTE_P = true /\ Z.land pte (Z.lor PTE_US PTE_RW) = Z.lor PTE_US PTE_RW /\
  forall o, 0 <= o < PGSIZE -> getpte s (va + o) = Ok (pte, false).

Definition same_map (s s' : xst) : Prop := xc s' = xc s /\ xt s' = xt s /\ x_cr3 s' = x_cr3 s.

Lemma getpte_ext s s' a : same_map s s' -> getpte s' a = getpte s a.
Proof. intros (E1 & E2 & _). unfold getpte. by rewrite E1, E2. Qed.

Lemma stack_page_ext s s' va pte : same_map s s' -> stack_page s va pte -> stack_page s' va pte.
Proof. intros Hs (H1 & H2 & H3 & H4 & H5 & H6 & H7 & H8). split_and!; try done. intros o Ho. rewrite (getpte_ext s s') by done. by apply H8. Qed.

Lemma active_ext s s' : same_map s s' -> active s -> active s'.
Proof. intros (E1 & E2 & E3) (d & H1 & H2). exists d. by rewrite E1, E2, E3. Qed.

(** ** Bytes of the page *)

Lemma v2p_page s va pte o : stack_page s va pte -> 0 <= o < PGSIZE -> v2p s (va + o) = Ok (pte_pageaddr pte + o) /\ pte_pageaddr pte + o <> ONES32.
Proof.
  intros ([q ->] & H2 & H3 & H4 & H5 & H6 & H7 & H8) Ho. unfold v2p. rewrite H8 by done. cbn [res_bind]. rewrite H6. cbn [negb]. unfold pte_pageaddr in *.
  change (not32 PTE_SMALLBASE) with (2 ^ 12 - 1). rewrite land_low by done. change (2 ^ 12) with PGSIZE.
  assert ((q * PGSIZE + o) mod PGSIZE = o) as -> by (rewrite Z.add_comm, Z.mod_add by done; by apply Z.mod_small).
  assert (PGSIZE | Z.land pte PTE_SMALLBASE) as Hd.
  { change PTE_SMALLBASE with (2 ^ 32 - 2 ^ 12). rewrite land_high by done. by exists (pte / 2 ^ 12). }
  split; [|unfold ONES32; change PGSIZE with 4096 in *; lia]. by rewrite lor_page.
Qed.

(** A run of bytes put at an address. *)
Fixpoint poke (m : pmem) (pa : Z) (bs : list Z) : pmem :=
  match bs with
  | [] => m
  | b :: bs => poke (fun a => if a =? pa then b else m a) (pa + 1) bs
  end.

Lemma poke_out m pa bs a : a < pa \/ pa + Z.of_nat (length bs) <= a -> poke m pa bs a = m a.
Proof.
  revert m pa. induction bs as [|b bs IH]; intros m pa Ha; [done|]. cbn [poke length] in *. rewrite IH by lia. zbool; done || lia.
Qed.

Lemma poke_le32 m pa v : is_u32 v -> ld32 (poke m pa (le32 v)) pa = v.
Proof.
  intros Hv. unfold ld32, le32. cbn [poke]. repeat match goal with |- context [?a =? ?b] => destruct (Z.eqb_spec a b); try (exfalso; lia) end. unfold is_u32 in Hv.
  change (2 ^ 24) with (2 ^ 8 * 2 ^ 8 * 2 ^ 8). change (2 ^ 16) with (2 ^ 8 * 2 ^ 8). rewrite <- !Z.div_div by done. change (2 ^ 8) with 256.
  pose proof (Z.div_mod v 256 ltac:(done)). pose proof (Z.div_mod (v / 256) 256 ltac:(done)). pose proof (Z.div_mod (v / 256 / 256) 256 ltac:(done)).
  assert (v / 256 / 256 / 256 < 256) by (repeat (apply Z.div_lt_upper_bound; [lia|]); lia).
  assert (0 <= v / 256 / 256 / 256) by (repeat (apply Z.div_pos; [|lia]); lia). rewrite (Z.mod_small (v / 256 / 256 / 256)) by lia. lia.
Qed.

Lemma ld32_ext m m' a : (forall i, 0 <= i < 4 -> m' (a + i) = m (a + i)) -> ld32 m' a = ld32 m a.
Proof. intros H. unfold ld32. pose proof (H 0) as H0. rewrite !Z.add_0_r in H0. by rewrite H0, !H by lia. Qed.

Lemma store_bytes_page s va pte o bs :
  stack_page s va pte -> 0 <= o -> o + Z.of_nat (length bs) <= PGSIZE ->
  store_bytes s (va + o) bs = Ok (with_m s (poke (xm s) (pte_pageaddr pte + o) bs)).
Proof.
  intros Hp. revert s o Hp. induction bs as [|b bs IH]; intros s o Hp Ho Hl; cbn [length store_bytes poke] in *.
  - by destruct s.
  - destruct (v2p_page s va pte o Hp) as [E Hne]; [lia|]. rewrite E. cbn [res_bind]. apply Z.eqb_neq in Hne. rewrite Hne. cbn [negb].
    assert (add32 (va + o) 1 = va + (o + 1)) as ->.
    { destruct Hp as (_ & ? & ? & _). unfold add32, u32, HV_VBASE in *. rewrite Z.mod_small; change PGSIZE with 4096 in *; lia. }
    rewrite IH; [|by apply (stack_page_ext s)|lia|lia]. cbn [xm with_m]. by rewrite Z.add_assoc.
Qed.

Lemma load_word_page s va pte o :
  stack_page s va pte -> 0 <= o -> o + 4 <= PGSIZE ->
  exists bs, load_bytes s (va + o) 4 = Ok bs /\ of_le32 bs = ld32 (xm s) (pte_pageaddr pte + o).
Proof.
  intros Hp Ho Hl. assert (forall i, 0 <= i < 4 -> add32 (va + (o + i)) 1 = va + (o + (i + 1))) as Hnext.
  { intros i Hi. destruct Hp as (_ & ? & ? & _). unfold add32, u32, HV_VBASE in *. rewrite Z.mod_small; change PGSIZE with 4096 in *; lia. }
  assert (forall i, 0 <= i < 4 -> v2p s (va + (o + i)) = Ok (pte_pageaddr pte + (o + i)) /\ (pte_pageaddr pte + (o + i) =? ONES32) = false) as Hat.
  { intros i Hi. destruct (v2p_page s va pte (o + i) Hp) as [E Hne]; [lia|]. split; [done|]. by apply Z.eqb_neq. }
  replace (va + o) with (va + (o + 0)) by lia. cbn [load_bytes].
  rewrite (proj1 (Hat 0 ltac:(lia))). cbn [res_bind]. rewrite (proj2 (Hat 0 ltac:(lia))), (Hnext 0) by lia. cbn [negb].
  rewrite (proj1 (Hat (0 + 1) ltac:(lia))). cbn [res_bind]. rewrite (proj2 (Hat (0 + 1) ltac:(lia))), (Hnext (0 + 1)) by lia. cbn [negb].
  rewrite (proj1 (Hat (0 + 1 + 1) ltac:(lia))). cbn [res_bind]. rewrite (proj2 (Hat (0 + 1 + 1) ltac:(lia))), (Hnext (0 + 1 + 1)) by lia. cbn [negb].
  rewrite (proj1 (Hat (0 + 1 + 1 + 1) ltac:(lia))). cbn [res_bind]. rewrite (proj2 (Hat (0 + 1 + 1 + 1) ltac:(lia))). cbn [negb res_bind].
  eexists. split; [done|]. unfold of_le32, ld32. cbn [foldr]. rewrite !Z.add_assoc, !Z.add_0_r. change (0 + 1) with 1.
  replace (pte_pageaddr pte + o + 1 + 1 + 1) with (pte_pageaddr pte + o + 3) by lia. replace (pte_pageaddr pte + o + 1 + 1) with (pte_pageaddr pte + o + 2) by lia. lia.
Qed.

(** ** Words of the stack *)
Section Frame.

Variables (l2p : Z -> Z -> Z) (iopl2 : bool) (max_phys_memory : Z) (hv_pgd : Z -> Z) (copybuf1 copybuf2 : Z) (iopl : Z).
Variables (va pte : Z).
Local Abbreviation base := (pte_pageaddr pte).

Definition on_stack (s : xst) (o : Z) : Prop := active s /\ stack_page s va pte /\ r_esp (xr s) = va + o.

Lemma page_bounds s o : on_stack s o -> 0 <= va /\ va + 4096 <= HV_VBASE.
Proof. intros (_ & (_ & ? & ? & _) & _). done. Qed.

Lemma push_page s o v :
  on_stack s o -> 4 <= o <= 4096 ->
  push hv_pgd copybuf1 s v = Ok (with_r (with_m s (poke (xm s) (base + (o - 4)) (le32 v))) (set_esp (xr s) (va + (o - 4)))).
Proof.
  intros Hs Ho. pose proof (page_bounds s o Hs) as [Hv1 Hv2]. destruct Hs as ((d & Hd & Hcr) & Hp & He).
  unfold push. rewrite He. assert (sub32 (va + o) 4 = va + (o - 4)) as -> by (unfold sub32, u32, HV_VBASE in *; rewrite Z.mod_small; lia).
  unfold put_lpar. cbn [xc xt xr with_r set_esp r_esp x_cr3]. unfold fget. rewrite Hd. cbn [of_option res_bind]. rewrite Hcr, Z.eqb_refl.
  rewrite (store_bytes_page _ va pte) by (first [apply (stack_page_ext s); done | change PGSIZE with 4096; cbn; lia]). done.
Qed.

Lemma pop_page s o :
  on_stack s o -> 0 <= o -> o + 4 <= 4096 ->
  pop hv_pgd copybuf2 s = Ok (ld32 (xm s) (base + o), with_r s (set_esp (xr s) (va + (o + 4)))).
Proof.
  intros Hs Ho Ho4. pose proof (page_bounds s o Hs) as [Hv1 Hv2]. destruct Hs as ((d & Hd & Hcr) & Hp & He).
  unfold pop, get_lpar. unfold fget. rewrite Hd. cbn [of_option res_bind]. rewrite Hcr, Z.eqb_refl, He.
  destruct (load_word_page s va pte o Hp Ho) as (bs & E & Eb); [change PGSIZE with 4096; lia|]. rewrite E. cbn [res_bind fst snd of_option]. rewrite Eb.
  assert (add32 (r_esp (xr s)) 4 = va + (o + 4)) as -> by (rewrite He; unfold add32, u32, HV_VBASE in *; rewrite Z.mod_small; lia). done.
Qed.

Lemma on_stack_push s o m : on_stack s o -> on_stack (with_r (with_m s m) (set_esp (xr s) (va + (o - 4)))) (o - 4).
Proof. intros (Ha & Hp & He). split_and!; [by apply (active_ext s)|by apply (stack_page_ext s)|done]. Qed.

(** The words that are pushed lie below one another, and nothing above them changes. *)
Lemma pushes_page vs s o :
  on_stack s o -> 4 * Z.of_nat (length vs) <= o <= 4096 ->
  exists m, pushes hv_pgd copybuf1 s vs = Ok (with_r (with_m s m) (set_esp (xr s) (va + (o - 4 * Z.of_nat (length vs))))) /\
    (forall a, base + o <= a -> m a = xm s a) /\
    (forall i v, vs !! i = Some v -> is_u32 v -> ld32 m (base + (o - 4 * (Z.of_nat i + 1))) = v).
Proof.
  revert s o. induction vs as [|v vs IH]; intros s o Hs Ho; cbn [length pushes] in *.
  - exists (xm s). split_and!; [|done|done]. destruct Hs as (_ & _ & He). rewrite Z.mul_0_r, Z.sub_0_r, <- He. by destruct s as [? ? ? [] ? ? ? ?].
  - rewrite (push_page s o v Hs) by lia. cbn [res_bind]. destruct (IH _ (o - 4) (on_stack_push s o (poke (xm s) (base + (o - 4)) (le32 v)) Hs)) as (m & E & Hab & Hin); [lia|].
    exists m. rewrite E. cbn [xm with_r with_m] in Hab. split_and!.
    + replace (o - 4 - 4 * Z.of_nat (length vs)) with (o - 4 * Z.of_nat (S (length vs))) by lia. done.
    + intros a Ha. rewrite Hab by lia. apply poke_out. cbn. lia.
    + intros [|i] w Hi Hw; cbn in Hi.
      * injection Hi as ->. rewrite (ld32_ext (poke (xm s) (base + (o - 4)) (le32 w)) m) by (intros; apply Hab; lia).
        replace (o - 4 * (Z.of_nat 0 + 1)) with (o - 4) by lia. by apply poke_le32.
      * replace (o - 4 * (Z.of_nat (S i) + 1)) with (o - 4 - 4 * (Z.of_nat i + 1)) by lia. by apply Hin.
Qed.

Lemma pushes_app s vs ws :
  pushes hv_pgd copybuf1 s (vs ++ ws) = let! s := pushes hv_pgd copybuf1 s vs in pushes hv_pgd copybuf1 s ws.
Proof. revert s. induction vs as [|v vs IH]; intros s; [done|]. cbn [app pushes]. destruct (push _ _ _ _); [cbn [res_bind]; apply IH|done]. Qed.

Lemma ispresent_page s n mask o :
  on_stack s o -> 0 < n <= 5 -> 4 * n <= o <= 4096 -> Z.land (Z.lor PTE_US PTE_RW) mask = mask -> isstackpresent s n mask = Ok None.
Proof.
  intros Hs Hn Ho Hm. pose proof (page_bounds s o Hs) as [Hv1 Hv2]. destruct Hs as (_ & (_ & _ & _ & _ & _ & HP & Hf & Hg) & He).
  unfold isstackpresent, ispresent. rewrite He.
  assert (sub32 (va + o) (n * 4) = va + (o - 4 * n)) as -> by (unfold sub32, u32, HV_VBASE in *; rewrite Z.mod_small; lia).
  assert (sub32 (add32 (va + (o - 4 * n)) (n * 4)) 1 = va + o - 1) as -> by (unfold add32, sub32, u32, HV_VBASE in *; rewrite !Z.mod_small; try rewrite Z.mod_small; lia).
  rewrite (Z.div_small (n * 4) PGSIZE) by (change PGSIZE with 4096; lia). change (Z.to_nat (0 + 2)) with 2%nat. cbn [ispresent_loop].
  destruct (Z.leb_spec (va + (o - 4 * n)) (va + o - 1)); [|lia]. rewrite Hg by (change PGSIZE with 4096; lia). cbn [res_bind]. rewrite HP. cbn [negb].
  assert (Z.land pte mask = mask) as -> by (by rewrite <- Hm, Z.land_assoc, Hf). rewrite Z.eqb_refl. cbn [negb].
  assert (add32 (va + (o - 4 * n)) PGSIZE = va + (o - 4 * n) + 4096) as -> by (unfold add32, u32, HV_VBASE in *; change PGSIZE with 4096; rewrite Z.mod_small; lia).
  destruct (Z.leb_spec (va + (o - 4 * n) + 4096) (va + o - 1)); [lia|done].
Qed.

Lemma on_stack_regs s o r o' : on_stack s o -> r_esp r = va + o' -> on_stack (with_r s r) o'.
Proof. intros (Ha & Hp & He) Hr. split_and!; [by apply (active_ext s)|by apply (stack_page_ext s)|done]. Qed.

(** ** Out and back *)

(** From ring 3 the stack is the one of ring 2 and the old one is part of the frame. *)
Definition from_user (s : xst) : bool := RPL (r_cs (xr s)) =? 3.
Definition frame_words (s : xst) : list Z :=
  (if from_user s then [r_ss (xr s); r_esp (xr s)] else []) ++ [Z.lor (r_eflags (xr s)) EFLAGS_IF; r_cs (xr s); r_eip (xr s)].
Definition frame_size (s : xst) : Z := if from_user s then 20 else 12.
Definition handler_stack (s : xst) : Z := if from_user s then r_esp2 (xr s) else r_esp (xr s).

Definition handler_regs (s : xst) (d : idt_descriptor) (esp : Z) : xregs :=
  XRegs (id_segment d) (if from_user s then r_ss2 (xr s) else r_ss (xr s)) esp (id_offset d) (Z.land (r_eflags (xr s)) (not32 EFLAGS_TF))
    (r_ss2 (xr s)) (r_esp2 (xr s)).

Lemma stack_mask s : Z.land (Z.lor PTE_US PTE_RW) (if Z.land s 3 =? 3 then Z.lor PTE_US PTE_RW else PTE_RW) = if Z.land s 3 =? 3 then Z.lor PTE_US PTE_RW else PTE_RW.
Proof. by destruct (_ =? _). Qed.

Lemma force_sync_frame pf s d o :
  active s -> stack_page s va pte -> handler_stack s = va + o -> 20 <= o <= 4096 -> Z.land (r_eflags (xr s)) EFLAGS_IOPL_MASK = iopl ->
  exists s1, force_sync_exception hv_pgd copybuf1 iopl pf s d 0 = Ok (0, s1) /\ same_map s s1 /\
    xr s1 = handler_regs s d (va + (o - frame_size s)) /\
    (forall i v, frame_words s !! i = Some v -> is_u32 v -> ld32 (xm s1) (base + (o - 4 * (Z.of_nat i + 1))) = v).
Proof.
  intros Ha Hp Hst Ho Hio. unfold force_sync_exception, push_exception_state, handler_stack, frame_words, frame_size, handler_regs, from_user, RPL in *.
  destruct (Z.land (r_cs (xr s)) 3 =? 3); cbn [b2z].
  - match goal with |- context [isstackpresent ?x _ _] => set (s0 := x) end.
    assert (on_stack s0 o) as Hon by (split_and!; [by apply (active_ext s)|by apply (stack_page_ext s)|done]).
    rewrite (ispresent_page s0 5 _ o Hon) by (lia || apply stack_mask). cbn [res_bind].
    destruct (pushes_page ([r_ss (xr s); r_esp (xr s)] ++ [Z.lor (r_eflags (xr s)) EFLAGS_IF; r_cs (xr s); r_eip (xr s)]) s0 o Hon) as (m & E & _ & Hin); [cbn; lia|].
    rewrite pushes_app in E. destruct (pushes hv_pgd copybuf1 s0 _) as [sm|] eqn:Em; [|done]. cbn [res_bind] in *.
    destruct (pushes_page [r_ss (xr s); r_esp (xr s)] s0 o Hon) as (m' & Em' & _); [cbn; lia|]. rewrite Em in Em'. injection Em' as ->.
    cbn [xr with_r with_m set_esp r_eflags r_cs r_eip s0]. rewrite Hio. unfold cassert. rewrite Z.eqb_refl. cbn [res_bind]. cbn [length] in E. rewrite E. cbn [res_bind truth Z.eqb negb].
    eexists. split; [reflexivity|]. split; [by destruct (_ =? _)|]. split; [destruct (_ =? _); cbn; f_equal; lia|]. intros i v Hi Hv. specialize (Hin i v Hi Hv). by destruct (_ =? _).
  - assert (on_stack s o) as Hon by done.
    rewrite (ispresent_page s 3 _ o Hon) by (lia || apply stack_mask). cbn [res_bind].
    rewrite Hio. unfold cassert. rewrite Z.eqb_refl.
    destruct (pushes_page [Z.lor (r_eflags (xr s)) EFLAGS_IF; r_cs (xr s); r_eip (xr s)] s o Hon) as (m & E & _ & Hin); [cbn; lia|].
    rewrite E. cbn [res_bind truth Z.eqb negb].
    eexists. split; [reflexivity|]. split; [by destruct (_ =? _)|]. split; [destruct (_ =? _); cbn; f_equal; lia|]. intros i v Hi Hv. specialize (Hin i v Hi Hv). by destruct (_ =? _).
Qed.

Lemma eflags_return e : is_u32 e ->
  Z.lor (Z.lor (Z.land (Z.lor e EFLAGS_IF) (not32 EFLAGS_IOPL_MASK)) (Z.land e EFLAGS_IOPL_MASK)) EFLAGS_IF = Z.lor e EFLAGS_IF.
Proof.
  intros He. assert (is_u32 EFLAGS_IF) by done. apply u32_ext; [repeat first [apply is_u32_lor|apply land_u32|done]..|].
  unfold EFLAGS_IF, EFLAGS_IOPL_MASK. change (not32 0x3000) with 0xffffcfff. intros n Hn.
  do 32 (destruct n as [|n]; [cbn [Z.of_nat Pos.of_succ_nat Pos.succ]; one_bit; simpl; rewrite ?andb_true_r, ?andb_false_r, ?orb_false_r, ?orb_true_r; reflexivity|]); lia.
Qed.

(** The registers the partition has again. *)
Definition resumed (s : xst) : xregs :=
  XRegs (r_cs (xr s)) (r_ss (xr s)) (r_esp (xr s)) (r_eip (xr s)) (Z.lor (r_eflags (xr s)) EFLAGS_IF) (r_ss2 (xr s)) (r_esp2 (xr s)).

(** The next [pop], at offset [o] of the page. *)
Ltac next_pop Hon o :=
  match goal with |- context [pop _ _ ?x] => rewrite (pop_page x o) by first [lia | apply (on_stack_regs _ _ _ o Hon); reflexivity] end;
  cbn [res_bind]; cbn [xr xm with_r set_esp set_eip r_cs].

Lemma iret_pops_frame s s' d o :
  on_stack s' (o - frame_size s) -> frame_size s <= o <= 4096 -> handler_stack s = va + o ->
  r_cs (xr s') = id_segment d -> r_ss (xr s') = (if from_user s then r_ss2 (xr s) else r_ss (xr s)) ->
  r_ss2 (xr s') = r_ss2 (xr s) -> r_esp2 (xr s') = r_esp2 (xr s) ->
  RPL (id_segment d) = 2 -> RPL (r_cs (xr s)) = 2 \/ RPL (r_cs (xr s)) = 3 -> is_u32 (r_eflags (xr s)) -> Z.land (r_eflags (xr s)) EFLAGS_IOPL_MASK = iopl ->
  (forall i v, frame_words s !! i = Some v -> ld32 (xm s') (base + (o - 4 * (Z.of_nat i + 1))) = v) ->
  exists s2, iret_pops hv_pgd copybuf2 iopl s' = Ok s2 /\ xr s2 = resumed s /\ xm s2 = xm s'.
Proof.
  intros Hon Ho Hst Hcs Hss Hss2 Hesp2 Hd Hcpl Hef Hio Hw. unfold iret_pops, frame_size, handler_stack, frame_words, from_user in *.
  destruct (RPL (r_cs (xr s)) =? 3) eqn:Hpl; cbn [app] in Hw.
  - rewrite (pop_page _ _ Hon) by lia. cbn [res_bind]. cbn [xr xm with_r set_esp set_eip r_cs].
    next_pop Hon (o - 20 + 4).
    next_pop Hon (o - 20 + 4 + 4).
    rewrite Hcs. replace (o - 20) with (o - 4 * (Z.of_nat 4 + 1)) by lia. rewrite (Hw 4%nat _ eq_refl).
    replace (o - 4 * (Z.of_nat 4 + 1) + 4) with (o - 4 * (Z.of_nat 3 + 1)) by lia. rewrite (Hw 3%nat _ eq_refl).
    replace (o - 4 * (Z.of_nat 3 + 1) + 4) with (o - 4 * (Z.of_nat 2 + 1)) by lia. rewrite (Hw 2%nat _ eq_refl).
    apply Z.eqb_eq in Hpl. rewrite Hpl, Hd. cbn [Z.eqb negb].
    replace (o - 4 * (Z.of_nat 2 + 1) + 4) with (o - 4 * (Z.of_nat 1 + 1)) by lia.
    next_pop Hon (o - 4 * (Z.of_nat 1 + 1)).
    rewrite (Hw 1%nat _ eq_refl). replace (o - 4 * (Z.of_nat 1 + 1) + 4) with (o - 4 * (Z.of_nat 0 + 1)) by lia.
    next_pop Hon (o - 4 * (Z.of_nat 0 + 1)).
    rewrite (Hw 0%nat _ eq_refl), <- Hio, eflags_return by done.
    eexists. split; [reflexivity|]. destruct (has _ _); (split; [|done]); unfold resumed, set_cs_eflags, set_ss_esp, set_esp, set_eip; cbn; by rewrite Hss2, Hesp2.
  - assert (RPL (r_cs (xr s)) = 2) as Hpl2 by (destruct Hcpl as [?|E]; [done|]; by rewrite E in Hpl).
    rewrite (pop_page _ _ Hon) by lia. cbn [res_bind]. cbn [xr xm with_r set_esp set_eip r_cs].
    next_pop Hon (o - 12 + 4).
    next_pop Hon (o - 12 + 4 + 4).
    rewrite Hcs. replace (o - 12) with (o - 4 * (Z.of_nat 2 + 1)) by lia. rewrite (Hw 2%nat _ eq_refl).
    replace (o - 4 * (Z.of_nat 2 + 1) + 4) with (o - 4 * (Z.of_nat 1 + 1)) by lia. rewrite (Hw 1%nat _ eq_refl).
    replace (o - 4 * (Z.of_nat 1 + 1) + 4) with (o - 4 * (Z.of_nat 0 + 1)) by lia. rewrite (Hw 0%nat _ eq_refl).
    rewrite Hpl2, Hd. cbn [Z.eqb negb Pos.eqb res_bind]. rewrite <- Hio, eflags_return by done.
    eexists. split; [reflexivity|]. destruct (has _ _); (split; [|done]); unfold resumed, set_cs_eflags, set_esp, set_eip; cbn; rewrite Hss2, Hesp2, Hss; f_equal; lia.
Qed.


End Frame.

(** ** A thread with a page of stack at 0x8000 *)
Definition frame_cache : pgcache :=
  Pgc (<[0 := Frame 0 0 {[0 := 0x5067]} 0x4000 0 {[0 := 150]} 0 None]> {[150 := Frame 0 0 {[8 := 0x20008067]} 0x5000 0 ∅ 0 (Some 0)]}) [] [] 0 0 ∅.
Definition user_regs : xregs := XRegs 0x33 0x3b 0x4000 0x1000 0x2202 0x2a 0x8ff0.
Definition frame_thread (m : pmem) (r : xregs) : xst := Xst frame_cache (XThread 0 None 0x4000 0 false) m r ∅ None ∅ 0x4000.

Lemma frame_stack m r : stack_page (frame_thread m r) 0x8000 0x20008067.
Proof.
  split_and!; [by exists 8|done..|]. change PGSIZE with 4096. intros o Ho.
  assert (pdi_of (0x8000 + o) = 0 /\ pti_of (0x8000 + o) = 8) as [E1 E2].
  { pose proof (slot_of (0x8000 + o)) as E. unfold is_u32, slot in E. specialize (E ltac:(lia)). change PGSIZE with 4096 in E.
    assert ((0x8000 + o) / 4096 = 8) as Eq by (symmetry; apply (Z.div_unique _ _ _ o); lia). rewrite Eq in E. injection E as -> ->. done. }
  unfold getpte, cassert, HV_VBASE. destruct (Z.ltb_spec (0x8000 + o) 0xFC000000); [|lia]. rewrite E1, E2. vm_compute. reflexivity.
Qed.


(** ** Findings *)
Definition kernel_regs (esp : Z) : xregs := XRegs 0x22 0x2a esp 0x1000 0x2202 0x2a 0x8ff0.
Definition words_at (a : Z) (ws : list Z) : pmem := poke (fun _ => 0) a (concat (le32 <$> ws)).
Definition x_iret := iret (fun _ _ => ONES32) false 0 demo_pgd demo_buf1 demo_buf2 0x2000 3 0.

(** The code segment is taken from the partition's stack as it is: with the hypervisor's, the partition goes on in
    ring 0 at an address of its own. *)
Example iret_enters_ring0 :
  (let! s := x_iret (frame_thread (words_at 0x20008100 [0x401000; HV_CS; 0x2202; 0x8f00; HV_DS]) (kernel_regs 0x8100)) in
   Ok (r_cs (xr s), RPL (r_cs (xr s)), r_eip (xr s), r_ss (xr s))) = Ok (HV_CS, 0, 0x401000, HV_DS).
Proof. by vm_compute. Qed.

(** The stack is looked for below its pointer, and the frame is above it: a frame that goes on into a page that is not there
    makes the hypervisor fault. *)
Example iret_looks_below :
  isstackpresent (frame_thread (fun _ => 0) (kernel_regs 0x8ff8)) 5 0 = Ok None /\
  x_iret (frame_thread (fun _ => 0) (kernel_regs 0x8ff8)) = Fault Assert_failed.
Proof. split; by vm_compute. Qed.
