(* ===== verification/Logio.v ===== *)
(** * Logio: calls on a partition's own memory

    [h_logical_cache_load], [h_logical_cache_store], [h_logical_ci_load], [h_logical_ci_store],
    [h_logical_dcbf], [h_logical_icbi], [h_real_to_logical], [h_page_init], [h_lpar_info] and
    [h_hypervisor_data]: a partition names an address, and the hypervisor loads, stores, copies
    or flushes there on its behalf.  Cache operations leave memory as it is. *)

From S2P Require Import Prelude Hcall Bitmap PgAlloc Logical Imemcpy.

Definition H_ICACHE_INVALIDATE : Z := 2 ^ 23.
Definition H_ICACHE_SYNCHRONIZE : Z := 2 ^ 22.
Definition H_ZERO_PAGE : Z := 2 ^ 15.
Definition H_COPY_PAGE : Z := 2 ^ 14.
Definition MEM_ADDR : Z := 1.
Definition H_GET_PINFO : Z := 0x1000.
Definition H_GET_MEM_INFO : Z := 0x2000.
Definition MAX_LOGICAL_ADDRESS : Z := MAX_LOGICAL_MEM_CHUNKS * CHUNK_SIZE.

Section Logio.

(** Translation of other components' chunks, the tables, the calling partition, the processor's cache line, and
    the hypervisor's record of the partition. *)
Context (l_to_r : Z -> logical_chunk_info -> Z -> Z -> res Z) (m : memory) (os : Z) (CACHE_LINE_SIZE : Z) (cached_partition_info : list Z).

Local Abbreviation l2p := (logical_to_physical_address l_to_r m os).

(** An access of [n] bytes at a physical address.  The invalid address is an address like any
    other here: nothing in the calls that load and store through the cache tells it apart. *)
Definition ld (pm : pmem) (a n : Z) : Z := be_val (copy_in pm a n).
Definition st (pm : pmem) (a n v : Z) : pmem := copy_out pm a (be_bytes (Z.to_nat n) v).

(** What a call returns, the value it hands back, and memory. *)
Definition outcome : Type := Z * option Z * pmem.
Definition refuse (rc : Z) (pm : pmem) : res outcome := Ok (rc, None, pm).

(** A load or store of [n] bytes that must be aligned. *)
Definition load_at (pm : pmem) (a n : Z) : res outcome :=
  if truth (Z.land a (n - 1)) then refuse H_Parameter pm else Ok (H_Success, Some (ld pm a n), pm).
Definition store_at (pm : pmem) (a n v : Z) : res outcome :=
  if truth (Z.land a (n - 1)) then refuse H_Parameter pm else Ok (H_Success, None, st pm a n v).

Definition h_logical_cache_load (pm : pmem) (size addr : Z) : res outcome :=
  let! a := l2p addr size in
  if (size =? 1) || (size =? 2) || (size =? 4) || (size =? 8) then load_at pm a size
  else refuse H_Parameter pm.

Definition h_logical_cache_store (pm : pmem) (size addr value : Z) : res outcome :=
  let! a := l2p addr size in
  if (size =? 1) || (size =? 2) || (size =? 4) || (size =? 8) then store_at pm a size value
  else refuse H_Parameter pm.

(** Sizes 3 and 4 stand for words and double words here. *)
Definition ci_width (size : Z) : option Z :=
  if size =? 1 then Some 1 else if size =? 2 then Some 2 else if size =? 3 then Some 4 else if size =? 4 then Some 8 else None.

Definition h_logical_ci_load (pm : pmem) (size addr : Z) : res outcome :=
  let! a := l2p addr size in
  if a =? INVALID_PHYSICAL_ADDRESS then refuse H_Parameter pm
  else match ci_width size with Some n => load_at pm a n | None => refuse H_Parameter pm end.

Definition h_logical_ci_store (pm : pmem) (size addr value : Z) : res outcome :=
  let! a := l2p addr size in
  if a =? INVALID_PHYSICAL_ADDRESS then refuse H_Parameter pm
  else match ci_width size with Some n => store_at pm a n value | None => refuse H_Parameter pm end.

Definition h_logical_dcbf (pm : pmem) (addr : Z) : res outcome :=
  let! a := l2p addr 0 in
  refuse (if a =? INVALID_PHYSICAL_ADDRESS then H_Parameter else H_Success) pm.

Definition h_logical_icbi (pm : pmem) (addr : Z) : res outcome :=
  let! a := l2p addr 0 in
  refuse (if a =? INVALID_PHYSICAL_ADDRESS then H_Parameter else H_Success) pm.

Definition h_real_to_logical (pm : pmem) (raddr : Z) : res outcome :=
  let! virt_addr := l2p raddr 0 in
  if virt_addr =? INVALID_PHYSICAL_ADDRESS then refuse H_Parameter pm else Ok (H_Success, Some virt_addr, pm).

(** [for (k = 0; k < page_size; k += CACHE_LINE_SIZE) dcbz(addr + k);] *)
Fixpoint clear_lines (n : nat) (pm : pmem) (addr k page_size : Z) : pmem :=
  match n with
  | O => pm
  | S n => if k <? page_size then clear_lines n (zero_mem pm (addr + k) CACHE_LINE_SIZE) addr (k + CACHE_LINE_SIZE) page_size else pm
  end.

Definition clear_page (pm : pmem) (rpn pgshift : Z) : pmem :=
  let page_size := 2 ^ pgshift in
  clear_lines (Z.to_nat page_size) pm (shl64 rpn LOG_PGSIZE) 0 page_size.

(** [large], the shift of the page's size, is 0. *)
Definition h_page_init (pm : pmem) (flags destination source : Z) : res outcome :=
  let! destination := l2p destination PGSIZE in
  let! source := l2p source PGSIZE in
  if (destination =? INVALID_PHYSICAL_ADDRESS) || (source =? INVALID_PHYSICAL_ADDRESS) then refuse H_Parameter pm
  else if truth (Z.land destination (PGSIZE - 1)) || truth (Z.land source (PGSIZE - 1)) then refuse H_Parameter pm
  else
    let pm := if truth (Z.land flags H_ZERO_PAGE) then clear_page pm (shr64 destination LOG_PGSIZE) 0 else pm in
    let pm := if truth (Z.land flags H_COPY_PAGE) then copy_mem pm destination source PGSIZE else pm in
    refuse H_Success pm.

Definition get_pinfo (pm : pmem) (laddr : Z) : res outcome :=
  let! paddr := l2p laddr (Z.of_nat (length cached_partition_info)) in
  if paddr =? INVALID_PHYSICAL_ADDRESS then refuse H_Parameter pm
  else refuse 0 (copy_out pm paddr cached_partition_info).

(** [sr_type], the type of the resource a record is part of. *)
Variable sr_type : Z -> Z.

(** [laddr_to_lci], and null when it is of another type. *)
Definition lci_of_type (type laddr : Z) : res Z :=
  let! l := laddr_to_lci m os laddr in
  Ok (if negb (l =? 0) && negb (sr_type l =? type) then 0 else l).

(** [while ((lci == NULL) && (laddr < MAX_LOGICAL_ADDRESS))] *)
Fixpoint meminfo_loop (fuel : nat) (type lci laddr : Z) : res Z :=
  if (lci =? 0) && (laddr <? MAX_LOGICAL_ADDRESS) then
    match fuel with
    | O => Fault Out_of_fuel
    | S fuel => let! l := lci_of_type type laddr in meminfo_loop fuel type l (add64 laddr CHUNK_SIZE)
    end
  else Ok lci.

(** The two values that are handed back for a record. *)
Definition describe (lci : Z) : res (Z * Z) :=
  if lci =? 0 then Ok (INVALID_LOGICAL_ADDRESS, INVALID_LOGICAL_ADDRESS)
  else
    let! x := get_lci m lci in
    Ok (lci_laddr x, if lci_raddr x =? INVALID_PHYSICAL_ADDRESS then 0 else lci_size x).

Definition get_meminfo (type start_laddr : Z) : res (Z * Z) :=
  let laddr := ALIGN_DOWN start_laddr CHUNK_SIZE in
  let! lci := lci_of_type type start_laddr in
  let! r :=
    if lci =? 0 then Ok (lci, laddr)
    else
      let! x := get_lci m lci in
      if negb (lci_owns x start_laddr) then
        if add64 (lci_laddr x) (lci_size x) <=? start_laddr then Ok (0, ALIGN_UP start_laddr CHUNK_SIZE) else Ok (lci, laddr)
      else Ok (lci, laddr) in
  let! lci := meminfo_loop (Z.to_nat MAX_LOGICAL_MEM_CHUNKS) type (fst r) (snd r) in
  describe lci.

(** Return code, the values handed back, memory. *)
Definition h_lpar_info (pm : pmem) (cmd arg1 : Z) : res (Z * option (Z * Z) * pmem) :=
  if cmd =? H_GET_PINFO then let! r := get_pinfo pm arg1 in Ok (fst (fst r), None, snd r)
  else if cmd =? H_GET_MEM_INFO then let! r := get_meminfo MEM_ADDR arg1 in Ok (H_Success, Some r, pm)
  else Ok (0, None, pm).

(** ** Data for demonstration *)
Definition bs_data : list Z := Z.of_nat <$> seq 0 16.

(** The values for registers 4 to 11, and the next position. *)
Definition h_hypervisor_data (ctrl : Z) : Z * list Z :=
  if 16 <? ctrl then (H_Parameter, [])
  else let vs := take 8 (drop (Z.to_nat ctrl) bs_data) in (ctrl + Z.of_nat (length vs), vs).

End Logio.

(** ** Calls as data *)
Inductive call : Type :=
  | Cache_load (size addr : Z) | Cache_store (size addr value : Z)
  | Ci_load (size addr : Z) | Ci_store (size addr value : Z)
  | Dcbf (addr : Z) | Icbi (addr : Z) | Real_to_logical (raddr : Z)
  | Page_init (flags destination source : Z) | Get_pinfo (laddr : Z).

Section Isolation.

Context (l_to_r : Z -> logical_chunk_info -> Z -> Z -> res Z) (m : memory) (os : Z) (CACHE_LINE_SIZE : Z) (cached_partition_info : list Z).
Local Abbreviation l2p := (logical_to_physical_address l_to_r m os).

Definition run_call (pm : pmem) (c : call) : res outcome :=
  match c with
  | Cache_load size addr => h_logical_cache_load l_to_r m os pm size addr
  | Cache_store size addr value => h_logical_cache_store l_to_r m os pm size addr value
  | Ci_load size addr => h_logical_ci_load l_to_r m os pm size addr
  | Ci_store size addr value => h_logical_ci_store l_to_r m os pm size addr value
  | Dcbf addr => h_logical_dcbf l_to_r m os pm addr
  | Icbi addr => h_logical_icbi l_to_r m os pm addr
  | Real_to_logical raddr => h_real_to_logical l_to_r m os pm raddr
  | Page_init flags d s => h_page_init l_to_r m os CACHE_LINE_SIZE pm flags d s
  | Get_pinfo laddr => get_pinfo l_to_r m os cached_partition_info pm laddr
  end.

(** An address with an entry in the table of chunks: one beyond is looked up outside it. *)
Definition low (a : Z) : Prop := 0 <= a < MAX_LOGICAL_ADDRESS.
Definition call_low (c : call) : Prop :=
  match c with
  | Cache_load _ a | Cache_store _ a _ | Ci_load _ a | Ci_store _ a _ | Dcbf a | Icbi a | Real_to_logical a | Get_pinfo a => low a
  | Page_init _ d s => low d /\ low s
  end.

(** Memory that is the partition's. *)
Definition own (a : Z) : Prop := covered m os a 1.

(** Single bytes loaded and stored through the cache are loaded and stored at the invalid
    address when the one asked for is not the partition's. *)
Definition one_byte (c : call) : Prop :=
  match c with Cache_load size _ | Cache_store size _ _ => size = 1 | _ => False end.
Definition seen (c : call) (a : Z) : Prop := own a \/ one_byte c /\ a = INVALID_PHYSICAL_ADDRESS.

(** The partition has a table of chunks, whose entries are records of ordinary memory in whole pages. *)
Record whole_pages : Prop := {
  wp_table : exists map, maps m !! os = Some map /\ length (p_lci map) = 512%nat /\
    forall i l, p_lci map !! i = Some l -> l <> 0 -> is_Some (lcis m !! l);
  wp_record : forall x, maps_record m os x ->
    (lci_sane x /\ lci_raddr x <> INVALID_PHYSICAL_ADDRESS) /\ (PGSIZE | lci_raddr x) /\ (PGSIZE | lci_size x)
}.

Context (Hwhole : whole_pages) (Hline : 0 < CACHE_LINE_SIZE <= PGSIZE) (Hinfo : (0 < length cached_partition_info <= 4096)%nat).

(** What is [P] is the same in two memories. *)
Definition alike (P : Z -> Prop) (pm1 pm2 : pmem) : Prop := forall a, P a -> pm1 a = pm2 a.

(** Two runs that only differ in memory that is not [P]. *)
Definition agree (P : Z -> Prop) (r1 r2 : res outcome) (pm1 : pmem) : Prop :=
  exists rc v pm1' pm2', r1 = Ok (rc, v, pm1') /\ r2 = Ok (rc, v, pm2') /\ only_in P pm1 pm1' /\ alike P pm1' pm2'.

Lemma low_bound a : low a -> 0 <= a < 2 ^ 35.
Proof. done. Qed.

(** In the table, translation always returns. *)
Lemma l2p_total la n : low la -> exists pa, l2p la n = Ok pa.
Proof.
  intros Hla. destruct (wp_table Hwhole) as (map & Hm & Hlen & Hrec). unfold logical_to_physical_address, laddr_to_lci, get_map.
  rewrite Hm. cbn [of_option res_bind]. unfold chunk_number_addr, shr64. rewrite Z.shiftr_div_pow2 by done.
  assert (0 <= la / 2 ^ LOG_CHUNKSIZE < 512) as Hk.
  { unfold low, MAX_LOGICAL_ADDRESS in Hla. change MAX_LOGICAL_MEM_CHUNKS with 512 in Hla. change (2 ^ LOG_CHUNKSIZE) with CHUNK_SIZE.
    split; [apply Z.div_pos; [lia|done]|apply Z.div_lt_upper_bound; [done|lia]]. }
  destruct (p_lci map !! Z.to_nat (la / 2 ^ LOG_CHUNKSIZE)) as [l|] eqn:El; [|apply lookup_ge_None_1 in El; lia].
  rewrite (aget_ok _ _ l) by (done || lia). cbn [res_bind]. destruct (Z.eqb_spec l 0) as [|Hl]; [by eexists|].
  destruct (Hrec _ _ El Hl) as [x Hx]. unfold get_lci. rewrite Hx. cbn [of_option res_bind]. unfold lci_translate.
  destruct (truth _); [by eexists|]. destruct (Z.eqb_spec (lci_raddr x) INVALID_PHYSICAL_ADDRESS) as [E|_].
  - destruct (wp_record Hwhole x) as [[_ Hne] _]; [|done]. by exists map, (Z.to_nat (la / 2 ^ LOG_CHUNKSIZE)), l.
  - destruct (_ || _); by eexists.
Qed.

(** An aligned unit of at most eight bytes whose first byte is the partition's is the partition's. *)
Lemma l2p_owned la n pa k w :
  low la -> 0 < n <= 4096 -> l2p la n = Ok pa -> pa <> INVALID_PHYSICAL_ADDRESS ->
  n <= w -> (w <= n \/ w = 2 ^ k /\ 0 <= k <= 12 /\ pa mod w = 0) -> forall a, pa <= a < pa + w -> own a.
Proof.
  intros Hla Hn E Hne Hnw Hw a Ha. apply low_bound in Hla.
  destruct (l2p_contained l_to_r m os la n pa) as (x & Hx & _ & _ & _ & _ & H1 & H2); try done; try lia.
  { intros x Hx. apply (wp_record Hwhole x Hx). }
  exists x. split; [done|]. destruct Hw as [?|(-> & Hk & Hmod)]; [lia|]. destruct (wp_record Hwhole x Hx) as (_ & [r Hr] & [q Hq]).
  assert (exists d, pa = d * 2 ^ k) as [d ->] by (exists (pa / 2 ^ k); pose proof (Z.div_mod pa (2 ^ k) ltac:(lia)); lia).
  assert (PGSIZE = 2 ^ k * 2 ^ (12 - k)) as Hpg by (rewrite <- Z.pow_add_r by lia; replace (k + (12 - k)) with 12 by lia; done).
  rewrite Hr, Hq, Hpg in *. assert (0 < 2 ^ k) by lia. assert (d < (r + q) * 2 ^ (12 - k)) by nia. nia.
Qed.

Section Seen.
Context (P : Z -> Prop) (Hown : forall a, own a -> P a).

Lemma copy_in_alike pm1 pm2 a n : alike P pm1 pm2 -> (forall x, a <= x < a + n -> P x) -> copy_in pm1 a n = copy_in pm2 a n.
Proof. intros Hal Ho. symmetry. apply copy_in_ext. intros x Hx. symmetry. by apply Hal, Ho. Qed.

Lemma copy_out_alike pm1 pm2 a bs : alike P pm1 pm2 -> alike P (copy_out pm1 a bs) (copy_out pm2 a bs).
Proof. intros Hal x Hx. unfold copy_out. destruct (_ && _); [done|]. by apply Hal. Qed.

Lemma agree_same pm1 pm2 rc v : alike P pm1 pm2 -> agree P (Ok (rc, v, pm1)) (Ok (rc, v, pm2)) pm1.
Proof. intros Hal. exists rc, v, pm1, pm2. split_and!; [done|done|apply only_in_refl|done]. Qed.

Lemma load_at_agree pm1 pm2 a n :
  alike P pm1 pm2 -> (truth (Z.land a (n - 1)) = false -> forall x, a <= x < a + n -> P x) ->
  agree P (load_at pm1 a n) (load_at pm2 a n) pm1.
Proof.
  intros Hal Ho. unfold load_at, refuse. destruct (truth (Z.land a (n - 1))) eqn:Et; [by apply agree_same|].
  unfold ld. rewrite (copy_in_alike pm1 pm2 a n Hal) by (by apply Ho). by apply agree_same.
Qed.

Lemma store_at_agree pm1 pm2 a n v :
  alike P pm1 pm2 -> 0 <= n -> (truth (Z.land a (n - 1)) = false -> forall x, a <= x < a + n -> P x) ->
  agree P (store_at pm1 a n v) (store_at pm2 a n v) pm1.
Proof.
  intros Hal Hn Ho. unfold store_at, refuse. destruct (truth (Z.land a (n - 1))) eqn:Et; [by apply agree_same|].
  do 4 eexists. split_and!; [done|done| |by apply copy_out_alike].
  eapply only_in_impl; [|apply only_in_copy_out]. intros x Hx. rewrite length_be_bytes, Z2Nat.id in Hx by done. by apply Ho.
Qed.

Lemma aligned_mod a k : 0 <= k -> truth (Z.land a (2 ^ k - 1)) = false -> a mod 2 ^ k = 0.
Proof.
  intros Hk H. unfold truth in H. apply negb_false_iff, Z.eqb_eq in H. rewrite <- H.
  replace (2 ^ k - 1) with (Z.ones k) by (rewrite Z.ones_equiv; lia). by rewrite Z.land_ones.
Qed.

Lemma zero_alike pm1 pm2 a n : alike P pm1 pm2 -> alike P (zero_mem pm1 a n) (zero_mem pm2 a n).
Proof. intros Hal x Hx. unfold zero_mem, memset. destruct (_ && _); [done|]. by apply Hal. Qed.

Lemma copy_mem_alike pm1 pm2 d s n :
  alike P pm1 pm2 -> (forall x, s <= x < s + n -> P x) -> alike P (copy_mem pm1 d s n) (copy_mem pm2 d s n).
Proof. intros Hal Ho. unfold copy_mem. rewrite (copy_in_alike pm1 pm2 s n) by done. by apply copy_out_alike. Qed.

Lemma clear_one_line pm d : is_u64 d -> d mod 4096 = 0 -> clear_page CACHE_LINE_SIZE pm (shr64 d LOG_PGSIZE) 0 = zero_mem pm d CACHE_LINE_SIZE.
Proof.
  intros Hd Hm. unfold clear_page. change (2 ^ 0) with 1. change (Z.to_nat 1) with 1%nat. cbn [clear_lines Z.ltb Z.compare].
  unfold shl64, shr64. change LOG_PGSIZE with 12. rewrite Z.shiftl_mul_pow2, Z.shiftr_div_pow2 by done. change (2 ^ 12) with 4096.
  pose proof (Z.div_mod d 4096 ltac:(done)). replace (d / 4096 * 4096) with d by lia. rewrite u64_small, Z.add_0_r by done. done.
Qed.

Lemma page_init_agree pm1 pm2 flags d s : alike P pm1 pm2 -> low d -> low s ->
  agree P (h_page_init l_to_r m os CACHE_LINE_SIZE pm1 flags d s) (h_page_init l_to_r m os CACHE_LINE_SIZE pm2 flags d s) pm1.
Proof.
  intros Hal Hd Hs. unfold h_page_init. destruct (l2p_total d PGSIZE Hd) as [pd Ed]. rewrite Ed. cbn [res_bind].
  destruct (l2p_total s PGSIZE Hs) as [ps Es]. rewrite Es. cbn [res_bind]. unfold refuse.
  destruct (_ || _) eqn:Ei; [by apply agree_same|]. apply orb_false_iff in Ei as [Hpd%Z.eqb_neq Hps%Z.eqb_neq].
  destruct (truth _ || truth _) eqn:Ea; [by apply agree_same|]. apply orb_false_iff in Ea as [Had _].
  change (PGSIZE - 1) with (2 ^ 12 - 1) in Had. apply aligned_mod in Had; [|done].
  assert (forall a, pd <= a < pd + PGSIZE -> own a) as Hod by (apply (l2p_owned d PGSIZE pd 0 PGSIZE); try done; lia || by left).
  assert (forall a, ps <= a < ps + PGSIZE -> own a) as Hos by (apply (l2p_owned s PGSIZE ps 0 PGSIZE); try done; lia || by left).
  assert (is_u64 pd) as Hu.
  { apply low_bound in Hd. destruct (l2p_contained l_to_r m os d PGSIZE pd) as (x & Hx & _ & _ & _ & _ & H1 & H2); try done; try (change PGSIZE with 4096; lia).
    { intros x Hx. apply (wp_record Hwhole x Hx). }
    destruct (wp_record Hwhole x Hx) as [[(_ & _ & _ & ? & ?) _] _]. unfold is_u64. change PGSIZE with 4096 in *. lia. }
  rewrite !clear_one_line by done. do 4 eexists. split_and!; [done|done| |].
  - eapply (only_in_trans _ _ (if truth (Z.land flags H_ZERO_PAGE) then zero_mem pm1 pd CACHE_LINE_SIZE else pm1)).
    + destruct (truth _); [|apply only_in_refl]. eapply only_in_impl; [|apply only_in_zero]. intros x Hx. cbv beta in Hx. apply Hown, Hod. lia.
    + destruct (truth (Z.land flags H_COPY_PAGE)); [|apply only_in_refl]. eapply only_in_impl; [|by apply only_in_copy_mem]. intros x Hx. by apply Hown, Hod.
  - assert (alike P (if truth (Z.land flags H_ZERO_PAGE) then zero_mem pm1 pd CACHE_LINE_SIZE else pm1)
      (if truth (Z.land flags H_ZERO_PAGE) then zero_mem pm2 pd CACHE_LINE_SIZE else pm2)) as Hz by (destruct (truth _); [by apply zero_alike|done]).
    destruct (truth (Z.land flags H_COPY_PAGE)); [|done]. apply copy_mem_alike; [done|]. intros x Hx. by apply Hown, Hos.
Qed.

End Seen.

Lemma width_pow n : (n =? 1) || (n =? 2) || (n =? 4) || (n =? 8) = true -> exists k, 0 <= k <= 3 /\ n = 2 ^ k.
Proof.
  intros H. repeat (apply orb_true_iff in H as [H|H]); apply Z.eqb_eq in H as ->; [by exists 0|by exists 1|by exists 2|by exists 3].
Qed.

Lemma ci_width_pow size w : ci_width size = Some w -> exists k, 0 <= k <= 3 /\ w = 2 ^ k /\ 0 < size <= w.
Proof.
  unfold ci_width. intros H. repeat (match type of H with context [?a =? ?b] => destruct (Z.eqb_spec a b) as [->|] end; [injection H as <-|]); try done;
    [by exists 0|by exists 1|by exists 2|by exists 3].
Qed.

(** The bytes a load or store through the cache of a translated address touches. *)
Lemma cache_seen c size a pa k :
  low a -> l2p a size = Ok pa -> size = 2 ^ k -> 0 <= k <= 3 -> (size = 1 -> one_byte c) ->
  truth (Z.land pa (size - 1)) = false -> forall x, pa <= x < pa + size -> seen c x.
Proof.
  intros Ha E Hs Hk Hc Hal x Hx. pose proof (Z.pow_le_mono_r 2 k 3 ltac:(lia) ltac:(lia)). pose proof (Z.pow_pos_nonneg 2 k ltac:(lia) ltac:(lia)).
  destruct (Z.eqb_spec pa INVALID_PHYSICAL_ADDRESS) as [->|Hne]; [right|left; apply (l2p_owned a size pa k size); try done; lia].
  assert (k = 0) as ->.
  { destruct (decide (k = 0)) as [|Hk0]; [done|exfalso]. assert (k = 1 \/ k = 2 \/ k = 3) as [->|[->| ->]] by lia; subst size; vm_compute in Hal; discriminate. }
  subst size. split; [by apply Hc|]. change (2 ^ 0) with 1 in Hx. lia.
Qed.

(** C23: the calls that load, store, copy, clear or report on a partition's behalf touch and see only what is the
    partition's.  A call with addresses that have an entry in the partition's table of chunks always returns; it writes no byte
    outside the partition's memory, and in two memories that agree on the partition's bytes it returns the same code and value
    and leaves the partition's bytes the same, so nothing of another partition's memory, or of the hypervisor's, shows.
    One byte is excepted: loads and stores of a single byte through the cache, which do not check the translation, reach the byte at
    the invalid address as well ([cache_load_unchecked]).  The partition's memory is ordinary memory in whole pages. *)
Theorem logical_calls_noninterference c pm1 pm2 :
  call_low c -> alike (seen c) pm1 pm2 ->
  exists rc v pm1' pm2', run_call pm1 c = Ok (rc, v, pm1') /\ run_call pm2 c = Ok (rc, v, pm2') /\
    only_in (seen c) pm1 pm1' /\ alike (seen c) pm1' pm2'.
Proof.
  intros Hlow Hal. change (agree (seen c) (run_call pm1 c) (run_call pm2 c) pm1).
  assert (forall a, own a -> seen c a) as Hown by (by left).
  destruct c as [size a|size a w|size a|size a w|a|a|a|flags d s|a]; cbn [run_call call_low] in *.
  - unfold h_logical_cache_load. destruct (l2p_total a size Hlow) as [pa E]. rewrite E. cbn [res_bind].
    destruct ((size =? 1) || (size =? 2) || (size =? 4) || (size =? 8)) eqn:Hsz; [|by apply agree_same]. apply width_pow in Hsz as (k & Hk & ->).
    apply load_at_agree; [done|]. by apply (cache_seen _ (2 ^ k) a pa k).
  - unfold h_logical_cache_store. destruct (l2p_total a size Hlow) as [pa E]. rewrite E. cbn [res_bind].
    destruct ((size =? 1) || (size =? 2) || (size =? 4) || (size =? 8)) eqn:Hsz; [|by apply agree_same]. apply width_pow in Hsz as (k & Hk & ->).
    apply store_at_agree; [done|lia|]. by apply (cache_seen _ (2 ^ k) a pa k).
  - unfold h_logical_ci_load. destruct (l2p_total a size Hlow) as [pa E]. rewrite E. cbn [res_bind].
    destruct (Z.eqb_spec pa INVALID_PHYSICAL_ADDRESS) as [|Hne]; [by apply agree_same|]. destruct (ci_width size) as [w|] eqn:Hw; [|by apply agree_same].
    apply ci_width_pow in Hw as (k & Hk & -> & Hs). apply load_at_agree; [done|]. intros Hal8 x Hx. apply Hown. revert x Hx.
    pose proof (Z.pow_le_mono_r 2 k 3 ltac:(lia) ltac:(lia)).
    apply (l2p_owned a size pa k); try done; try lia. right. split_and!; try done; try lia. apply aligned_mod; [lia|done].
  - unfold h_logical_ci_store. destruct (l2p_total a size Hlow) as [pa E]. rewrite E. cbn [res_bind].
    destruct (Z.eqb_spec pa INVALID_PHYSICAL_ADDRESS) as [|Hne]; [by apply agree_same|]. destruct (ci_width size) as [w'|] eqn:Hw; [|by apply agree_same].
    apply ci_width_pow in Hw as (k & Hk & -> & Hs). apply store_at_agree; [done|lia|]. intros Hal8 x Hx. apply Hown. revert x Hx.
    pose proof (Z.pow_le_mono_r 2 k 3 ltac:(lia) ltac:(lia)).
    apply (l2p_owned a size pa k); try done; try lia. right. split_and!; try done; try lia. apply aligned_mod; [lia|done].
  - unfold h_logical_dcbf. destruct (l2p_total a 0 Hlow) as [pa E]. rewrite E. by apply agree_same.
  - unfold h_logical_icbi. destruct (l2p_total a 0 Hlow) as [pa E]. rewrite E. by apply agree_same.
  - unfold h_real_to_logical. destruct (l2p_total a 0 Hlow) as [pa E]. rewrite E. cbn [res_bind]. destruct (_ =? _); by apply agree_same.
  - by destruct Hlow; apply page_init_agree.
  - unfold get_pinfo. destruct (l2p_total a (Z.of_nat (length cached_partition_info)) Hlow) as [pa E]. rewrite E. cbn [res_bind].
    destruct (Z.eqb_spec pa INVALID_PHYSICAL_ADDRESS) as [|Hne]; [by apply agree_same|].
    do 4 eexists. split_and!; [done|done| |by apply copy_out_alike]. eapply only_in_impl; [|apply only_in_copy_out].
    intros x Hx. apply Hown. revert x Hx. apply (l2p_owned a (Z.of_nat (length cached_partition_info)) pa 0); try done; try lia.
Qed.

End Isolation.

(** ** The report on memory *)
Section Meminfo.

Context (m : memory) (os : Z) (sr_type : Z -> Z) (map : logical_memory_map).
Context (Hmap : maps m !! os = Some map) (Hlen : length (p_lci map) = 512%nat).

(** The record of the chunk, if it is of the type. *)
Definition at_chunk (type k : Z) (l : Z) (x : logical_chunk_info) : Prop :=
  entry map k = l /\ l <> 0 /\ sr_type l = type /\ lcis m !! l = Some x.

(** Every record of the type reaches into the chunks that point to it. *)
Definition records_reach (type : Z) : Prop :=
  forall k, 0 <= k < 512 -> entry map k <> 0 -> sr_type (entry map k) = type ->
    exists x, lcis m !! entry map k = Some x /\ lci_sane x /\ k * CHUNK_SIZE < lci_laddr x + lci_size x.

Lemma lci_of_type_spec type laddr k :
  is_u64 laddr -> k = laddr / CHUNK_SIZE -> k < 512 ->
  lci_of_type m os sr_type type laddr = Ok (if negb (entry map k =? 0) && negb (sr_type (entry map k) =? type) then 0 else entry map k).
Proof.
  intros Hu -> Hk. unfold lci_of_type, laddr_to_lci, get_map. rewrite Hmap. cbn [of_option res_bind].
  unfold chunk_number_addr, shr64. rewrite Z.shiftr_div_pow2 by done. change (2 ^ LOG_CHUNKSIZE) with CHUNK_SIZE.
  assert (0 <= laddr / CHUNK_SIZE) as H0 by (apply Z.div_pos; unfold is_u64 in Hu; [lia|done]).
  destruct (p_lci map !! Z.to_nat (laddr / CHUNK_SIZE)) as [l|] eqn:El; [|apply lookup_ge_None_1 in El; lia].
  rewrite (aget_ok _ _ l) by done. unfold entry. by rewrite El.
Qed.

Definition none_before (type k j : Z) : Prop := forall i, k <= i < j -> entry map i = 0 \/ sr_type (entry map i) <> type.

Lemma meminfo_loop_spec type fuel k :
  0 <= k <= 512 -> 512 - k <= Z.of_nat fuel ->
  exists l, meminfo_loop m os sr_type fuel type 0 (k * CHUNK_SIZE) = Ok l /\
    (l = 0 /\ none_before type k 512 \/ exists j, k <= j < 512 /\ l = entry map j /\ l <> 0 /\ sr_type l = type /\ none_before type k j).
Proof.
  revert k. induction fuel as [|fuel IH]; intros k Hk Hf; cbn [meminfo_loop Z.eqb andb].
  - destruct (Z.ltb_spec (k * CHUNK_SIZE) MAX_LOGICAL_ADDRESS) as [Hlt|_]; [unfold MAX_LOGICAL_ADDRESS in Hlt; change MAX_LOGICAL_MEM_CHUNKS with 512 in Hlt; change CHUNK_SIZE with 67108864 in Hlt; lia|].
    exists 0. split; [done|]. left. split; [done|]. intros i Hi. lia.
  - destruct (Z.ltb_spec (k * CHUNK_SIZE) MAX_LOGICAL_ADDRESS) as [Hlt|Hge]; unfold MAX_LOGICAL_ADDRESS in *; change MAX_LOGICAL_MEM_CHUNKS with 512 in *.
    2:{ exists 0. split; [done|]. left. split; [done|]. intros i Hi. change CHUNK_SIZE with 67108864 in *. lia. }
    rewrite (lci_of_type_spec type _ k); [|unfold is_u64; change CHUNK_SIZE with 67108864 in *; lia|by rewrite Z.div_mul|change CHUNK_SIZE with 67108864 in *; lia].
    cbn [res_bind]. replace (add64 (k * CHUNK_SIZE) CHUNK_SIZE) with ((k + 1) * CHUNK_SIZE) by (rewrite add64_small; change CHUNK_SIZE with 67108864 in *; lia).
    destruct (decide (entry map k <> 0 /\ sr_type (entry map k) = type)) as [[Hn Ht]|Hno].
    + apply Z.eqb_neq in Hn as Hb. rewrite Hb, Ht, Z.eqb_refl. cbn [negb andb].
      exists (entry map k). split; [destruct fuel; cbn [meminfo_loop]; by rewrite Hb|]. right. exists k. split_and!; try done; try (change CHUNK_SIZE with 67108864 in *; lia). intros i Hi. lia.
    + destruct (IH (k + 1)) as (l & E & Hl); try (change CHUNK_SIZE with 67108864 in *; lia).
      assert ((if negb (entry map k =? 0) && negb (sr_type (entry map k) =? type) then 0 else entry map k) = 0) as ->.
      { destruct (Z.eqb_spec (entry map k) 0) as [->|]; [done|]. destruct (Z.eqb_spec (sr_type (entry map k)) type); [exfalso; by apply Hno|done]. }
      assert (entry map k = 0 \/ sr_type (entry map k) <> type) as Hk0.
      { destruct (decide (entry map k = 0)) as [|Hn]; [by left|right]. intros Ht. by apply Hno. }
      exists l. split; [done|]. destruct Hl as [[-> Hnone]|(j & Hj & H1 & H2 & H3 & Hnone)]; [left|right].
      * split; [done|]. intros i Hi. destruct (decide (i = k)) as [->|]; [done|]. apply Hnone. lia.
      * exists j. split_and!; try done; try lia. intros i Hi. destruct (decide (i = k)) as [->|]; [done|]. apply Hnone. lia.
Qed.

(** The chunk's record is of the type. *)
Definition typed_at (type k : Z) : Prop := entry map k <> 0 /\ sr_type (entry map k) = type.

(** The answer [r] is the first record that reaches beyond [start]; or there is none. *)
Definition told (type start : Z) (r : res (Z * Z)) : Prop :=
  (r = Ok (INVALID_LOGICAL_ADDRESS, INVALID_LOGICAL_ADDRESS) /\
     forall k l x, start / CHUNK_SIZE <= k < 512 -> at_chunk type k l x -> lci_laddr x + lci_size x <= start) \/
  exists j l x, start / CHUNK_SIZE <= j < 512 /\ at_chunk type j l x /\ start < lci_laddr x + lci_size x /\
    r = Ok (lci_laddr x, if lci_raddr x =? INVALID_PHYSICAL_ADDRESS then 0 else lci_size x) /\
    forall k l' x', start / CHUNK_SIZE <= k < j -> at_chunk type k l' x' -> lci_laddr x' + lci_size x' <= start.

Lemma none_at type k j i l x : none_before type k j -> k <= i < j -> ~ at_chunk type i l x.
Proof. intros Hn Hi (E1 & E2 & E3 & E4). destruct (Hn i Hi); congruence. Qed.

Lemma describe_at type j l x : at_chunk type j l x -> describe m l = Ok (lci_laddr x, if lci_raddr x =? INVALID_PHYSICAL_ADDRESS then 0 else lci_size x).
Proof. intros (_ & H0%Z.eqb_neq & _ & Hx). unfold describe, get_lci. by rewrite H0, Hx. Qed.

Lemma search_told type start k0 :
  records_reach type -> 0 <= start / CHUNK_SIZE < 512 -> start / CHUNK_SIZE <= k0 <= start / CHUNK_SIZE + 1 ->
  (forall k l x, start / CHUNK_SIZE <= k < k0 -> at_chunk type k l x -> lci_laddr x + lci_size x <= start) ->
  (k0 = start / CHUNK_SIZE -> ~ typed_at type k0) ->
  told type start (let! lci := meminfo_loop m os sr_type (Z.to_nat MAX_LOGICAL_MEM_CHUNKS) type 0 (k0 * CHUNK_SIZE) in describe m lci).
Proof.
  intros Hreach Hkc Hk0 Hb Hn.
  destruct (meminfo_loop_spec type (Z.to_nat MAX_LOGICAL_MEM_CHUNKS) k0) as (l & -> & Hl); [lia|change MAX_LOGICAL_MEM_CHUNKS with 512; lia|]. cbn [res_bind].
  assert (forall j, none_before type k0 j -> forall k l' x', start / CHUNK_SIZE <= k < j -> at_chunk type k l' x' -> lci_laddr x' + lci_size x' <= start) as Hall.
  { intros j Hnb k l' x' Hk Hat. destruct (decide (k < k0)); [apply (Hb k l'); [lia|done]|]. exfalso. eapply none_at; [done| |done]. lia. }
  destruct Hl as [[-> Hnone]|(j & Hj & -> & H0 & Ht & Hnone)]; [left; split; [done|by apply Hall]|right].
  destruct (Hreach j) as (x & Hx & Hsane & Hend); [lia|done..|].
  assert (at_chunk type j (entry map j) x) as Hat by done.
  assert (start / CHUNK_SIZE < j) as Hlt.
  { destruct (decide (j = start / CHUNK_SIZE)) as [->|]; [|lia]. assert (k0 = start / CHUNK_SIZE) as -> by lia. exfalso. by apply (Hn eq_refl). }
  exists j, (entry map j), x. split_and!; [lia|lia|done| |by eapply describe_at|by apply Hall].
  pose proof (Z.mul_succ_div_gt start CHUNK_SIZE ltac:(done)). change CHUNK_SIZE with 67108864 in *. nia.
Qed.

(** A partition that asks for its memory from an address on is told of the first record that reaches beyond it: no memory of
    the type between is passed over, and at the end it is told so. *)
Theorem meminfo_next type start :
  records_reach type -> 0 <= start < MAX_LOGICAL_ADDRESS -> told type start (get_meminfo m os sr_type type start).
Proof.
  intros Hreach Hs. unfold MAX_LOGICAL_ADDRESS in Hs. change MAX_LOGICAL_MEM_CHUNKS with 512 in Hs.
  assert (is_u64 start) as Hu by (unfold is_u64; change CHUNK_SIZE with 67108864 in *; lia).
  assert (0 <= start / CHUNK_SIZE < 512) as Hkc by (split; [apply Z.div_pos; [lia|done]|apply Z.div_lt_upper_bound; [done|lia]]).
  unfold get_meminfo. assert (ALIGN_DOWN start CHUNK_SIZE = start / CHUNK_SIZE * CHUNK_SIZE) as -> by (by apply (ALIGN_DOWN_pow2 start 26)).
  rewrite (lci_of_type_spec type start (start / CHUNK_SIZE)) by (done || lia). cbn [res_bind].
  set (kc := start / CHUNK_SIZE) in *. destruct (decide (typed_at type kc)) as [[Hn Ht]|Hno].
  2:{ assert ((if negb (entry map kc =? 0) && negb (sr_type (entry map kc) =? type) then 0 else entry map kc) = 0) as ->.
      { destruct (Z.eqb_spec (entry map kc) 0) as [->|]; [done|]. destruct (Z.eqb_spec (sr_type (entry map kc)) type); [exfalso; by apply Hno|done]. }
      cbn [res_bind fst snd Z.eqb]. apply search_told; try done; try lia. }
  destruct (Hreach kc Hkc Hn Ht) as (x & Hx & Hsane & Hend). apply Z.eqb_neq in Hn as Hb. rewrite Hb, Ht, Z.eqb_refl. cbn [negb andb]. rewrite Hb.
  unfold get_lci. rewrite Hx. cbn [of_option res_bind]. pose proof Hsane as (? & ? & ? & _).
  assert (forall lci a, lci = entry map kc -> start < lci_laddr x + lci_size x ->
    told type start (let! lci := meminfo_loop m os sr_type (Z.to_nat MAX_LOGICAL_MEM_CHUNKS) type lci a in describe m lci)) as Hhere.
  { intros lci a -> Hlt. assert (meminfo_loop m os sr_type (Z.to_nat MAX_LOGICAL_MEM_CHUNKS) type (entry map kc) a = Ok (entry map kc)) as ->
      by (destruct (Z.to_nat MAX_LOGICAL_MEM_CHUNKS); cbn [meminfo_loop]; by rewrite Hb).
    right. exists kc, (entry map kc), x. fold kc. split_and!; try done; try lia; try (by eapply (describe_at type kc)). }
  pose proof (lci_owns_iff x start Hsane ltac:(change CHUNK_SIZE with 67108864 in *; lia)) as How.
  destruct (lci_owns x start); cbn [negb res_bind fst snd]; [apply Hhere; [done|by apply How]|].
  rewrite add64_small by lia. destruct (Z.leb_spec (lci_laddr x + lci_size x) start) as [Hle|Hgt]; cbn [res_bind fst snd]; [|by apply Hhere].
  assert (ALIGN_UP start CHUNK_SIZE = (kc + 1) * CHUNK_SIZE) as ->.
  { change CHUNK_SIZE with (2 ^ 26) at 1. rewrite ALIGN_UP_pow2 by (try done; change CHUNK_SIZE with 67108864 in *; lia). change (2 ^ 26) with CHUNK_SIZE. f_equal.
    pose proof (Z.div_mod start CHUNK_SIZE ltac:(done)). pose proof (Z.mod_pos_bound start CHUNK_SIZE ltac:(done)). subst kc.
    symmetry. apply (Z.div_unique _ _ _ (start mod CHUNK_SIZE - 1)); change CHUNK_SIZE with 67108864 in *; lia. }
  apply search_told; try done; try (subst kc; lia). intros k l' x' Hk (E1 & _ & _ & E4). assert (k = kc) as -> by (subst kc; lia). congruence.
Qed.

End Meminfo.

(** ** Witnesses *)
Lemma demo_pages_whole : whole_pages demo 1.
Proof.
  split.
  - exists (demo_map 10). split_and!; [done|done|]. intros i l Hi Hl. destruct i as [|i]; cbn in Hi; [injection Hi as <-; by eexists|].
    by apply list_elem_of_lookup_2, list_elem_of_In, (repeat_spec 511) in Hi.
  - intros x Hx. split; [by eapply demo_sane|]. apply demo_records in Hx as [[_ ->]|[E _]]; [|done].
    split; [by exists (8 * CHUNK_SIZE / PGSIZE)|by exists (CHUNK_SIZE / PGSIZE)].
Qed.

(** Memory in which all but the first partition's chunk is 7. *)
Definition other_sevens : pmem := fun a => if (8 * CHUNK_SIZE <=? a) && (a <? 9 * CHUNK_SIZE) then 0 else 7.

Lemma demo_alike c : ~ one_byte c -> alike (seen demo 1 c) (fun _ => 0) other_sevens.
Proof.
  intros Hc a [(x & Hx & H1 & H2)|[? _]]; [|done]. apply demo_records in Hx as [[_ ->]|[E _]]; [|done]. cbn [demo_lci lci_raddr lci_size] in *. unfold other_sevens.
  destruct (Z.leb_spec (8 * CHUNK_SIZE) a), (Z.ltb_spec a (9 * CHUNK_SIZE)); cbn [andb]; lia || done.
Qed.

Lemma logical_calls_noninterference_witness :
  exists pm1', run_call no_l_to_r demo 1 128 [1] (fun _ => 0) (Cache_store 8 0x100 0x1122) = Ok (H_Success, None, pm1') /\
    pm1' (8 * CHUNK_SIZE + 0x107) = 0x22 /\
    only_in (own demo 1) (fun _ => 0) pm1' /\
    exists pm2', run_call no_l_to_r demo 1 128 [1] other_sevens (Cache_store 8 0x100 0x1122) = Ok (H_Success, None, pm2') /\
      alike (own demo 1) pm1' pm2'.
Proof.
  destruct (logical_calls_noninterference no_l_to_r demo 1 128 [1] demo_pages_whole ltac:(change PGSIZE with 4096; lia) ltac:(cbn; lia)
    (Cache_store 8 0x100 0x1122) (fun _ => 0) other_sevens) as (rc & v & pm1' & pm2' & E1 & E2 & Ho & Ha).
  - split; [lia|reflexivity].
  - by apply demo_alike.
  - assert (run_call no_l_to_r demo 1 128 [1] (fun _ => 0) (Cache_store 8 0x100 0x1122) =
      Ok (H_Success, None, st (fun _ => 0) (8 * CHUNK_SIZE + 0x100) 8 0x1122)) as E.
    { cbn [run_call]. unfold h_logical_cache_store.
      replace (logical_to_physical_address no_l_to_r demo 1 0x100 8) with (Ok (8 * CHUNK_SIZE + 0x100)) by (vm_compute; reflexivity). reflexivity. }
    rewrite E in E1. injection E1 as <- <- <-. eexists. split; [exact E|]. split; [vm_compute; reflexivity|].
    split; [intros a Hna; apply Ho; by intros [?|[? _]]|]. exists pm2'. split; [exact E2|]. intros a Hoa. apply Ha. by left.
Defined.

(** ** Findings *)

(** The shift of the page's size is 0: of a page of 4096 bytes, one line is cleared. *)
Example page_zero_clears_a_line :
  (let! r := h_page_init no_l_to_r demo 1 128 (fun _ => 7) H_ZERO_PAGE 0x1000 0x2000 in
   Ok (fst (fst r), snd r (8 * CHUNK_SIZE + 0x107f), snd r (8 * CHUNK_SIZE + 0x1080))) = Ok (H_Success, 0, 7).
Proof. vm_compute. reflexivity. Qed.

(** An address that is not the partition's is loaded from and stored to all the same, when one byte is asked for: the
    access is at the invalid address.  The call that bypasses the cache refuses. *)
Example cache_load_unchecked pm :
  h_logical_cache_load no_l_to_r demo 1 pm 1 CHUNK_SIZE = Ok (H_Success, Some (ld pm INVALID_PHYSICAL_ADDRESS 1), pm) /\
  h_logical_cache_store no_l_to_r demo 1 pm 1 CHUNK_SIZE 9 = Ok (H_Success, None, st pm INVALID_PHYSICAL_ADDRESS 1 9) /\
  h_logical_ci_load no_l_to_r demo 1 pm 1 CHUNK_SIZE = Ok (H_Parameter, None, pm).
Proof.
  unfold h_logical_cache_load, h_logical_cache_store, h_logical_ci_load.
  replace (logical_to_physical_address no_l_to_r demo 1 CHUNK_SIZE 1) with (Ok INVALID_PHYSICAL_ADDRESS) by (vm_compute; reflexivity). done.
Qed.

(** A length of 0 is checked up to the byte before: the first address of a record's memory, here one at the second chunk, is refused. *)
Definition demo_second : memory :=
  Memory (<[40 := Lci (5 * CHUNK_SIZE) CHUNK_SIZE CHUNK_SIZE 0 0 Phys_mem_ops 1]> (lcis demo)) (<[1 := Lmm (10 :: 40 :: repeat 0 510) (Lbm 512 (3 :: repeat 0 7))]> (maps demo)).

Example flush_of_first_refused :
  (fun a => let! r := h_logical_dcbf no_l_to_r demo_second 1 (fun _ => 7) a in Ok (fst (fst r))) <$> [CHUNK_SIZE; CHUNK_SIZE + 1] = [Ok H_Parameter; Ok H_Success].
Proof. vm_compute. reflexivity. Qed.

(** The partition's memory, one record after the other. *)
Example meminfo_walk :
  (fun a => get_meminfo demo_second 1 (fun _ => MEM_ADDR) MEM_ADDR a) <$> [0; CHUNK_SIZE; 2 * CHUNK_SIZE] =
  [Ok (0, CHUNK_SIZE); Ok (CHUNK_SIZE, CHUNK_SIZE); Ok (INVALID_LOGICAL_ADDRESS, INVALID_LOGICAL_ADDRESS)].
Proof. vm_compute. reflexivity. Qed.

(** [h_real_to_logical] takes a logical address and gives the real one. *)
Example real_to_logical_reversed :
  (let! r := h_real_to_logical no_l_to_r demo 1 (fun _ => 7) 0x1000 in Ok (fst r)) = Ok (H_Success, Some (8 * CHUNK_SIZE + 0x1000)).
Proof. vm_compute. reflexivity. Qed.
