(* ===== verification/Thinwire.v ===== *)
(** * Thinwire: many channels over one serial line

    [hype/thinwire.c], with the locked operations of [lib/chan.c] on its channels.  Each command on the line
    begins with five characters: what to do, a length of 18 bits in three of them, and a channel.  What is at
    the other end of the line is a server outside the program; [Wire] is the line, and [Server] what the
    protocol asks of the server: the theorems are proved against it.

    The line's speed is not changed ([THINWIRE_BAUDRATE] is not defined), and channels begin with the
    operations that activate the connection when they are first used ([IMMEDIATE] is 0). *)

From S2P Require Import Prelude Hcall.

Definition MAX_CHANNELS : Z := 95.
Definition CHANNELS_PER_OS : Z := 8.
Definition CONSOLE_CHANNEL : Z := 0.

(** Characters. *)
Definition SP : Z := 32.
Definition CH_WRITE : Z := 48.
Definition CH_SIMPLE : Z := 35.
Definition CH_SELECT : Z := 63.
Definition CH_READ : Z := 65.
Definition thinwire_magic_string : list Z := [42; 42; 42; 116; 104; 105; 110; 119; 105; 114; 101; 42; 42; 42].

(** The line: [ic_write], [ic_read_all], [ic_read], [ic_read_avail], [ic_write_avail] and [ic_noread] of the device. *)
Class Wire (W : Type) : Type := {
  w_write : W -> list Z -> W;
  w_read_all : W -> nat -> res (list Z * W);
  w_read : W -> nat -> list Z * W;
  w_read_avail : W -> Z;
  w_write_avail : W -> Z;
  w_noread : W -> W;
}.

(** ** Commands *)
Definition header (cmd length channel : Z) : list Z :=
  [cmd; SP + Z.land (Z.shiftr length 12) 63; SP + Z.land (Z.shiftr length 6) 63; SP + Z.land length 63; SP + channel].

Definition at_ (buf : list Z) (i : nat) : res Z := of_option Out_of_bounds (buf !! i).

(** [-1] is returned behind a failed assertion only. *)
Definition parseThinWireReply (channel : Z) (buf : list Z) : res Z :=
  let! b4 := at_ buf 4 in
  cassert (b4 - SP =? channel)
    (let! b1 := at_ buf 1 in
     let! b2 := at_ buf 2 in
     let! b3 := at_ buf 3 in
     Ok (Z.lor (Z.lor (Z.shiftl (b1 - SP) 12) (Z.shiftl (b2 - SP) 6)) (b3 - SP))).

(** Which operations a channel has. *)
Inductive write_op : Type := thinwireSimpleWrite_op | thinwireWrite_op | wrap_thinwireWrite_op.
Inductive other_op : Type := thinwire_op | wrap_thinwire_op.
Record chan_ops : Type := ChanOps { ic_write : write_op; ic_write_avail : other_op; ic_read : other_op; ic_read_avail : other_op }.

(** The static state of the file: the channels' operations and locks, the line and its lock. *)
Record tw (W : Type) : Type := Tw {
  thinwire_activated : bool; channels : gmap Z chan_ops; ch_lock : gmap Z bool;
  thinwire_ic : W; ic_lock : bool;
}.
Arguments Tw {W}.
Arguments thinwire_activated {W}.
Arguments channels {W}.
Arguments ch_lock {W}.
Arguments thinwire_ic {W}.
Arguments ic_lock {W}.

Section Thinwire.
Context {W : Type} `{Wire W}.

(** Whether the program runs on a simulator, how often the line is read to empty it, and the message on activation. *)
Variables (onsim : bool) (purge : nat) (wrap_msg : Z -> list Z).

Definition set_wire (s : tw W) (w : W) : tw W := Tw (thinwire_activated s) (channels s) (ch_lock s) w (ic_lock s).
Definition set_ic_lock (s : tw W) (b : bool) : tw W := Tw (thinwire_activated s) (channels s) (ch_lock s) (thinwire_ic s) b.
Definition set_activated (s : tw W) : tw W := Tw true (channels s) (ch_lock s) (thinwire_ic s) (ic_lock s).
Definition set_ops (s : tw W) (n : Z) (o : chan_ops) : tw W := Tw (thinwire_activated s) (<[n := o]> (channels s)) (ch_lock s) (thinwire_ic s) (ic_lock s).
Definition set_ch_lock (s : tw W) (n : Z) (b : bool) : tw W := Tw (thinwire_activated s) (channels s) (<[n := b]> (ch_lock s)) (thinwire_ic s) (ic_lock s).

(** [lock_acquire(&thinwire_ic->lock)]: a lock that is held is never released by who waits for it. *)
Definition line_lock (s : tw W) : res (tw W) := check! negb (ic_lock s) else Deadlock in Ok (set_ic_lock s true).
Definition line_unlock (s : tw W) : tw W := set_ic_lock s false.
Definition chan_lock (s : tw W) (n : Z) : res (tw W) := check! negb (default false (ch_lock s !! n)) else Deadlock in Ok (set_ch_lock s n true).
Definition chan_held (s : tw W) (n : Z) : bool := default false (ch_lock s !! n).

(** A pointer to a channel is its number here; [breakpoint] traps. *)
Definition getChanNum (n : Z) : res Z := cassert ((0 <=? n) && (n <? MAX_CHANNELS)) (Ok n).
Definition getThinWireChannel (num : Z) : res Z := cassert (num <? MAX_CHANNELS) (Ok num).

Definition ops_of (s : tw W) (n : Z) : res chan_ops := of_option Null_deref (channels s !! n).

(** ** Setting up *)

(** [while (thinwire_ic->ic_read(thinwire_ic, garbage, 32) == 32) ;] *)
Fixpoint purge_line (fuel : nat) (w : W) : res W :=
  match fuel with
  | O => Fault Out_of_fuel
  | S fuel => let '(g, w) := w_read w 32 in if length g =? 32%nat then purge_line fuel w else Ok w
  end%nat.

Definition resetThinwire (s : tw W) : res (tw W) :=
  let! s := line_lock s in
  let! w := if negb onsim then purge_line purge (thinwire_ic s) else Ok (thinwire_ic s) in
  Ok (line_unlock (set_wire s (w_write w thinwire_magic_string))).

Definition activateThinWire (s : tw W) : res (tw W) := resetThinwire (set_activated s).

Definition first_ops (i : Z) : chan_ops :=
  ChanOps (if i mod CHANNELS_PER_OS =? CONSOLE_CHANNEL then thinwireSimpleWrite_op else wrap_thinwireWrite_op) wrap_thinwire_op wrap_thinwire_op wrap_thinwire_op.

(** Until it is activated, what is read goes to the console of the first partition. *)
Definition configThinWire (w : W) : tw W :=
  let all := list_to_map ((fun i => (Z.of_nat i, first_ops (Z.of_nat i))) <$> seq 0 (Z.to_nat MAX_CHANNELS)) in
  let n := CHANNELS_PER_OS + CONSOLE_CHANNEL in
  Tw false (<[n := ChanOps (ic_write (first_ops n)) wrap_thinwire_op thinwire_op thinwire_op]> all) ∅ w false.

(** ** Writing *)
Definition thinwireSimpleWrite (s : tw W) (ops : Z) (buf : list Z) : res (Z * tw W) :=
  let! channel := getChanNum ops in
  let length := Z.of_nat (length buf) in
  if negb (thinwire_activated s) then Ok (length, set_wire s (w_write (thinwire_ic s) buf))
  else
    let! s := line_lock s in
    let w := w_write (thinwire_ic s) (header CH_SIMPLE length channel) in
    let w := w_write w buf in
    Ok (length, line_unlock (set_wire s w)).

(** Without the channel's lock it reports and stops. *)
Definition thinwireWrite (s : tw W) (ops : Z) (buf : list Z) : res (Z * tw W) :=
  let! channel := getChanNum ops in
  let length := Z.of_nat (length buf) in
  if negb (thinwire_activated s) then Ok (length, set_wire s (w_write (thinwire_ic s) buf))
  else
    cassert (chan_held s ops)
      (let! s := line_lock s in
       let w := w_write (thinwire_ic s) (header CH_WRITE length channel) in
       let w := w_write w buf in
       let! r := w_read_all w 5 in
       let '(reply, w) := r in
       let! inlen := parseThinWireReply channel reply in
       cassert (inlen =? length) (Ok (length, line_unlock (set_wire s w)))).

Definition thinwireWriteAvail (s : tw W) (ops : Z) : res (Z * tw W) := Ok (w_write_avail (thinwire_ic s), s).

(** ** Reading *)

(** Eight characters of four bits each, from the fifth on. *)
Definition nibbles (buf : list Z) : Z := foldl (fun v b => Z.lor (Z.shiftl v 4) (b - SP)) 0 (take 8 (drop 5 buf)).

Definition locked_thinwireSelect (w : W) (base : Z) : res (Z * W) :=
  let w := w_write w (header CH_SELECT 0 base) in
  let! r := w_read_all w 13 in
  let '(buffer, w) := r in
  Ok (u32 (nibbles buffer), w_noread w).

(** How many characters, and the characters. *)
Definition thinwireRead (s : tw W) (ops max_length : Z) : res (Z * list Z * tw W) :=
  let! channel := getChanNum ops in
  if negb (thinwire_activated s) then
    let '(bs, w) := w_read (thinwire_ic s) (Z.to_nat max_length) in Ok (Z.of_nat (length bs), bs, set_wire s w)
  else
    cassert (chan_held s ops)
      (let! s := line_lock s in
       let! r := locked_thinwireSelect (thinwire_ic s) channel in
       let '(avail, w) := r in
       if negb (truth avail) then Ok (0, [], line_unlock (set_wire s w))
       else
         let w := w_write w (header CH_READ max_length channel) in
         let! r := w_read_all w 5 in
         let '(reply, w) := r in
         let! r_length := parseThinWireReply channel reply in
         cassert (u64 r_length <=? max_length)
           (let! r := if 0 <? r_length then w_read_all w (Z.to_nat r_length) else Ok ([], w) in
            let '(bs, w) := r in
            Ok (r_length, bs, line_unlock (set_wire s (w_noread w))))).

Definition thinwireReadAvail (s : tw W) (ops : Z) : res (Z * tw W) :=
  let! channel := getChanNum ops in
  if negb (thinwire_activated s) then Ok (w_read_avail (thinwire_ic s), s)
  else
    let! s := line_lock s in
    let! r := locked_thinwireSelect (thinwire_ic s) channel in
    let '(avail, w) := r in
    Ok (if truth (Z.land avail 1) then 1 else 0, line_unlock (set_wire s w)).

(** ** The first use of a channel *)

(** [hprintf] of a message that fits its buffer: the hypervisor prints to its console, channel 0, whose lock it takes. *)
Definition print_console (s : tw W) (msg : list Z) : res (tw W) :=
  let! s := chan_lock s CONSOLE_CHANNEL in
  let! r := thinwireSimpleWrite s CONSOLE_CHANNEL msg in
  Ok (set_ch_lock (snd r) CONSOLE_CHANNEL false).

Definition tw_setops (s : tw W) (ops : Z) : res (tw W) :=
  let! s := if negb (thinwire_activated s) then activateThinWire s else Ok s in
  let! i := getChanNum ops in
  let w := if i mod CHANNELS_PER_OS =? CONSOLE_CHANNEL then thinwireSimpleWrite_op else thinwireWrite_op in
  let s := set_ops s ops (ChanOps w thinwire_op thinwire_op thinwire_op) in
  print_console s (wrap_msg i).

(** [ops->ic_write(ops, buf, length)]; the wrapper calls what it puts in its own place. *)
Definition do_write (s : tw W) (ops : Z) (buf : list Z) : res (Z * tw W) :=
  let! o := ops_of s ops in
  match ic_write o with
  | thinwireSimpleWrite_op => thinwireSimpleWrite s ops buf
  | thinwireWrite_op => thinwireWrite s ops buf
  | wrap_thinwireWrite_op =>
      let! s := tw_setops s ops in
      let! o := ops_of s ops in
      match ic_write o with
      | thinwireSimpleWrite_op => thinwireSimpleWrite s ops buf
      | thinwireWrite_op => thinwireWrite s ops buf
      | wrap_thinwireWrite_op => Fault Out_of_fuel
      end
  end.

Definition do_read (s : tw W) (ops max_length : Z) : res (Z * list Z * tw W) :=
  let! o := ops_of s ops in
  match ic_read o with
  | thinwire_op => thinwireRead s ops max_length
  | wrap_thinwire_op => let! s := tw_setops s ops in thinwireRead s ops max_length
  end.

Definition do_read_avail (s : tw W) (ops : Z) : res (Z * tw W) :=
  let! o := ops_of s ops in
  match ic_read_avail o with
  | thinwire_op => thinwireReadAvail s ops
  | wrap_thinwire_op => let! s := tw_setops s ops in thinwireReadAvail s ops
  end.

Definition do_write_avail (s : tw W) (ops : Z) : res (Z * tw W) :=
  let! o := ops_of s ops in
  match ic_write_avail o with
  | thinwire_op => thinwireWriteAvail s ops
  | wrap_thinwire_op => let! s := tw_setops s ops in thinwireWriteAvail s ops
  end.

(** ** [lib/chan.c] on a channel *)
Definition chan_write (s : tw W) (chan : Z) (buf : list Z) : res (Z * tw W) :=
  let! s := chan_lock s chan in
  let! r := do_write s chan buf in
  Ok (fst r, set_ch_lock (snd r) chan false).

Definition chan_write_noblock (s : tw W) (chan : Z) (buf : list Z) : res (Z * tw W) :=
  let! s := chan_lock s chan in
  let! r := do_write_avail s chan in
  let '(avail, s) := r in
  let! r := if negb (truth avail) then Ok (0, s) else do_write s chan buf in
  Ok (fst r, set_ch_lock (snd r) chan false).

Definition chan_read (s : tw W) (chan length : Z) : res (Z * list Z * tw W) :=
  let! s := chan_lock s chan in
  let! r := do_read s chan length in
  let '(n, bs, s) := r in
  Ok (n, bs, set_ch_lock s chan false).

Definition chan_read_noblock (s : tw W) (chan length : Z) : res (Z * list Z * tw W) :=
  let! s := chan_lock s chan in
  let! r := do_read_avail s chan in
  let '(avail, s) := r in
  let! r := if negb (truth avail) then Ok (0, [], s) else do_read s chan length in
  let '(n, bs, s) := r in
  Ok (n, bs, set_ch_lock s chan false).

End Thinwire.

(** ** Lengths *)
Lemma parse_header cmd n ch : 0 <= n < 2 ^ 18 -> parseThinWireReply ch (header cmd n ch) = Ok n.
Proof.
  intros Hn. unfold parseThinWireReply, header, at_. cbn [lookup list_lookup of_option res_bind].
  assert (forall x, SP + x - SP = x) as E by (intros; unfold SP; lia). rewrite !E. unfold cassert. rewrite Z.eqb_refl. f_equal.
  change 63 with (Z.ones 6). apply Z.bits_inj'. intros i Hi.
  rewrite !Z.lor_spec, !Z.shiftl_spec by done. destruct (Z.ltb_spec i 18) as [H18|H18].
  2:{ rewrite !Z.land_spec. assert (Z.testbit n i = false) as -> by (apply (testbit_high n 18); lia).
      rewrite !Z.testbit_ones_nonneg by lia. zbool; rewrite ?andb_false_r; done || lia. }
  rewrite !Z.land_spec. destruct (Z.ltb_spec i 12) as [H12|H12].
  - rewrite (Z.testbit_neg_r _ (i - 12)) by lia. cbn [andb orb]. destruct (Z.ltb_spec i 6).
    + rewrite (Z.testbit_neg_r _ (i - 6)) by lia. cbn [andb orb]. rewrite Z.testbit_ones_nonneg by lia. zbool; [|lia]. by rewrite andb_true_r.
    + rewrite Z.shiftr_spec, !Z.testbit_ones_nonneg by lia. replace (i - 6 + 6) with i by lia. zbool; try lia. by rewrite andb_true_r, andb_false_r, orb_false_r.
  - rewrite !Z.shiftr_spec, !Z.testbit_ones_nonneg by lia. replace (i - 12 + 12) with i by lia. zbool; try lia. by rewrite andb_true_r, !andb_false_r, !orb_false_r.
Qed.

(** ** What the server does

    It keeps what was written to each channel and what is there to be read from it. *)
Record srv : Type := Srv { s_out : gmap Z (list Z); s_in : gmap Z (list Z) }.
Definition sent (v : srv) (ch : Z) : list Z := default [] (s_out v !! ch).
Definition pending (v : srv) (ch : Z) : list Z := default [] (s_in v !! ch).
Definition send (v : srv) (ch : Z) (bs : list Z) : srv := Srv (<[ch := sent v ch ++ bs]> (s_out v)) (s_in v).
Definition take_in (v : srv) (ch : Z) (n : nat) : srv := Srv (s_out v) (<[ch := drop n (pending v ch)]> (s_in v)).

Definition ch_ok (ch : Z) : Prop := 0 <= ch < MAX_CHANNELS.
Definition short (bs : list Z) : Prop := Z.of_nat (length bs) < 2 ^ 18.

(** The other end of the line: [at_rest w v] when no command is under way. *)
Class Server (W : Type) `{Wire W} : Type := {
  at_rest : W -> srv -> Prop;
  srv_write w v ch bs :
    at_rest w v -> ch_ok ch -> short bs ->
    exists w', w_read_all (w_write (w_write w (header CH_WRITE (Z.of_nat (length bs)) ch)) bs) 5 = Ok (header CH_READ (Z.of_nat (length bs)) ch, w') /\
      at_rest w' (send v ch bs);
  srv_simple w v ch bs :
    at_rest w v -> ch_ok ch -> short bs -> at_rest (w_write (w_write w (header CH_SIMPLE (Z.of_nat (length bs)) ch)) bs) (send v ch bs);
  srv_select w v ch :
    at_rest w v -> ch_ok ch ->
    exists buf w', w_read_all (w_write w (header CH_SELECT 0 ch)) 13 = Ok (buf, w') /\ at_rest (w_noread w') v /\
      forall i, 0 <= i < 32 -> Z.testbit (nibbles buf) i = negb (bool_decide (pending v (ch + i) = []));
  srv_read w v ch n :
    at_rest w v -> ch_ok ch -> 0 <= n < 2 ^ 18 -> let r := min (Z.to_nat n) (length (pending v ch)) in
    exists w1, w_read_all (w_write w (header CH_READ n ch)) 5 = Ok (header CH_READ (Z.of_nat r) ch, w1) /\
      (r = 0%nat -> at_rest (w_noread w1) v) /\
      (r <> 0%nat -> exists w2, w_read_all w1 r = Ok (take r (pending v ch), w2) /\ at_rest (w_noread w2) (take_in v ch r));
}.

(** ** The channels as a client sees them *)
Record mux : Type := Mux { m_srv : srv; m_ops : gmap Z chan_ops }.
(** The hypervisor's own console is written to only. *)
Inductive client : Type := C_write (ch : Z) (bs : list Z) | C_read (ch n : Z) | C_poll (ch n : Z).
Definition client_ok (c : client) : Prop :=
  match c with C_write ch bs => ch_ok ch /\ short bs | C_read ch n | C_poll ch n => ch_ok ch /\ ch <> CONSOLE_CHANNEL /\ 0 <= n < 2 ^ 18 end.

Definition regular (ch : Z) : chan_ops :=
  ChanOps (if ch mod CHANNELS_PER_OS =? CONSOLE_CHANNEL then thinwireSimpleWrite_op else thinwireWrite_op) thinwire_op thinwire_op thinwire_op.

Section Refines.
Context {W : Type} `{Server W}.
Variables (onsim : bool) (purge : nat) (wrap_msg : Z -> list Z).
Context (Hmsg : forall ch, short (wrap_msg ch)).

(** A channel's first use is announced on the console. *)
Definition m_open (a : mux) (ch : Z) : mux := Mux (send (m_srv a) CONSOLE_CHANNEL (wrap_msg ch)) (<[ch := regular ch]> (m_ops a)).

Definition m_write (a : mux) (ch : Z) (bs : list Z) : mux :=
  let a := match ic_write <$> m_ops a !! ch with Some wrap_thinwireWrite_op => m_open a ch | _ => a end in
  Mux (send (m_srv a) ch bs) (m_ops a).

Definition m_fetch (a : mux) (ch n : Z) : list Z * mux :=
  let k := min (Z.to_nat n) (length (pending (m_srv a) ch)) in
  (take k (pending (m_srv a) ch), if (k =? 0)%nat then a else Mux (take_in (m_srv a) ch k) (m_ops a)).

Definition m_read (a : mux) (ch n : Z) : list Z * mux :=
  m_fetch (match ic_read <$> m_ops a !! ch with Some wrap_thinwire_op => m_open a ch | _ => a end) ch n.

(** A poll asks first whether there is anything. *)
Definition m_poll (a : mux) (ch n : Z) : list Z * mux :=
  let a := match ic_read_avail <$> m_ops a !! ch with Some wrap_thinwire_op => m_open a ch | _ => a end in
  if bool_decide (pending (m_srv a) ch = []) then ([], a) else m_read a ch n.

Definition m_step (a : mux) (c : client) : Z * list Z * mux :=
  match c with
  | C_write ch bs => (Z.of_nat (length bs), [], m_write a ch bs)
  | C_read ch n => let '(bs, a) := m_read a ch n in (Z.of_nat (length bs), bs, a)
  | C_poll ch n => let '(bs, a) := m_poll a ch n in (Z.of_nat (length bs), bs, a)
  end.

Definition tw_step (s : tw W) (c : client) : res (Z * list Z * tw W) :=
  match c with
  | C_write ch bs => let! r := chan_write onsim purge wrap_msg s ch bs in Ok (fst r, [], snd r)
  | C_read ch n => chan_read onsim purge wrap_msg s ch n
  | C_poll ch n => chan_read_noblock onsim purge wrap_msg s ch n
  end.

(** The state of the file shows the channels [a]; [busy] are those whose locks are held. *)
Definition shows (s : tw W) (busy : gset Z) (a : mux) : Prop :=
  thinwire_activated s = true /\ ic_lock s = false /\ at_rest (thinwire_ic s) (m_srv a) /\ channels s = m_ops a /\
  (forall ch, ch_ok ch -> is_Some (m_ops a !! ch)) /\
  (forall ch, default false (ch_lock s !! ch) = bool_decide (ch ∈ busy)) /\
  (ic_write <$> m_ops a !! CONSOLE_CHANNEL) = Some thinwireSimpleWrite_op.

Lemma shows_wire s busy a w v : shows s busy a -> at_rest w v -> shows (line_unlock (set_wire (set_ic_lock s true) w)) busy (Mux v (m_ops a)).
Proof. intros (Q1 & Q2 & Q3 & Q4 & Q5 & Q6 & Q7) Hw. by split_and!. Qed.

Lemma shows_lock s busy a : shows s busy a -> line_lock s = Ok (set_ic_lock s true).
Proof. intros (_ & H2 & _). unfold line_lock. by rewrite H2. Qed.

Lemma shows_chan ch : ch_ok ch -> getChanNum ch = Ok ch.
Proof. intros [H1 H2]. unfold getChanNum, cassert. by rewrite (proj2 (Z.leb_le _ _) H1), (proj2 (Z.ltb_lt _ _) H2). Qed.

Lemma simple_shows s busy a ch bs :
  shows s busy a -> ch_ok ch -> short bs ->
  exists s', thinwireSimpleWrite s ch bs = Ok (Z.of_nat (length bs), s') /\ shows s' busy (Mux (send (m_srv a) ch bs) (m_ops a)).
Proof.
  intros Hs Hc Hb. unfold thinwireSimpleWrite. rewrite (shows_chan ch Hc). cbn [res_bind]. rewrite (proj1 Hs). cbn [negb]. rewrite (shows_lock s busy a Hs). cbn [res_bind].
  eexists. split; [done|]. apply shows_wire; [done|]. apply srv_simple; try done. apply Hs.
Qed.

Lemma busy_held s ch a : shows s {[ch]} a -> chan_held s ch = true.
Proof. intros Hs. unfold chan_held. destruct Hs as (_ & _ & _ & _ & _ & -> & _). rewrite bool_decide_true; set_solver. Qed.

Lemma write_shows s a ch bs :
  shows s {[ch]} a -> ch_ok ch -> short bs ->
  exists s', thinwireWrite s ch bs = Ok (Z.of_nat (length bs), s') /\ shows s' {[ch]} (Mux (send (m_srv a) ch bs) (m_ops a)).
Proof.
  intros Hs Hc Hb. unfold thinwireWrite. rewrite (shows_chan ch Hc). cbn [res_bind]. rewrite (proj1 Hs). cbn [negb]. unfold cassert at 1. rewrite (busy_held s ch a Hs), (shows_lock s _ a Hs). cbn [res_bind].
  destruct (srv_write (thinwire_ic s) (m_srv a) ch bs) as (w' & E & Hw); [apply Hs|done..|]. cbn [set_ic_lock thinwire_ic]. rewrite E. cbn [res_bind].
  unfold short in Hb. rewrite parse_header by lia. cbn [res_bind]. unfold cassert. rewrite Z.eqb_refl. eexists. split; [done|]. by apply shows_wire.
Qed.

Lemma select_shows w v ch : at_rest w v -> ch_ok ch ->
  exists avail w', locked_thinwireSelect w ch = Ok (avail, w') /\ at_rest w' v /\
    (truth (Z.land avail 1) = negb (bool_decide (pending v ch = []))) /\ (truth avail = false -> pending v ch = []).
Proof.
  intros Hw Hc. unfold locked_thinwireSelect. destruct (srv_select w v ch Hw Hc) as (buf & w' & E & Hr & Hbits). rewrite E. cbn [res_bind].
  exists (u32 (nibbles buf)), (w_noread w'). assert (Z.testbit (u32 (nibbles buf)) 0 = negb (bool_decide (pending v ch = []))) as Hbit0.
  { rewrite testbit_u32 by done. cbn [andb Z.ltb Z.compare]. specialize (Hbits 0 ltac:(lia)). by rewrite Z.add_0_r in Hbits. }
  split_and!; [done|done| |].
  - change 1 with (2 ^ 0) at 1. by rewrite truth_land_pow2.
  - unfold truth. intros Hz. apply negb_false_iff, Z.eqb_eq in Hz. rewrite Hz in Hbit0. rewrite Z.bits_0 in Hbit0. symmetry in Hbit0. apply negb_false_iff, bool_decide_eq_true in Hbit0. done.
Qed.

Lemma fetch_shows s a ch n :
  shows s {[ch]} a -> ch_ok ch -> 0 <= n < 2 ^ 18 ->
  exists s', thinwireRead s ch n = Ok (Z.of_nat (length (fst (m_fetch a ch n))), fst (m_fetch a ch n), s') /\ shows s' {[ch]} (snd (m_fetch a ch n)).
Proof.
  intros Hs Hc Hn. unfold thinwireRead. rewrite (shows_chan ch Hc). cbn [res_bind]. rewrite (proj1 Hs). cbn [negb]. unfold cassert at 1. rewrite (busy_held s ch a Hs), (shows_lock s _ a Hs). cbn [res_bind set_ic_lock thinwire_ic].
  pose proof Hs as (_ & _ & Hrest & _). destruct (select_shows _ _ ch Hrest Hc) as (avail & w' & E & Hw' & _ & Hnone). rewrite E. cbn [res_bind].
  unfold m_fetch. cbn [fst snd]. destruct (truth avail); cbn [negb].
  2:{ rewrite (Hnone eq_refl). cbn [length]. rewrite Nat.min_0_r. cbn. eexists. split; [done|]. destruct a as [v o]. by apply (shows_wire s _ (Mux v o)). }
  destruct (srv_read w' (m_srv a) ch n Hw' Hc Hn) as (w1 & E1 & Hzero & Hmore). set (k := min (Z.to_nat n) (length (pending (m_srv a) ch))) in *.
  rewrite E1. cbn [res_bind]. assert (0 <= Z.of_nat k <= n) as Hk by lia. rewrite parse_header by lia. cbn [res_bind]. unfold cassert.
  rewrite u64_small by (unfold is_u64; lia). destruct (Z.leb_spec (Z.of_nat k) n); [|lia]. rewrite length_take_le by lia.
  destruct (Nat.eqb_spec k 0) as [Hk0|Hk0].
  - rewrite Hk0. cbn. eexists. split; [done|]. destruct a as [v o]. apply (shows_wire s _ (Mux v o)); [done|]. by apply Hzero.
  - destruct (Z.ltb_spec 0 (Z.of_nat k)); [|lia]. rewrite Nat2Z.id. destruct (Hmore Hk0) as (w2 & E2 & Hw2). rewrite E2. cbn [res_bind]. eexists. split; [done|]. by apply shows_wire.
Qed.

(** Taking a channel's lock, and letting it go. *)
Lemma take_shows s busy a ch : shows s busy a -> ch ∉ busy -> chan_lock s ch = Ok (set_ch_lock s ch true) /\ shows (set_ch_lock s ch true) ({[ch]} ∪ busy) a.
Proof.
  intros (Q1 & Q2 & Q3 & Q4 & Q5 & Q6 & Q7) Hn. unfold chan_lock. rewrite Q6, bool_decide_false by done. split; [done|]. split_and!; try done. intros c. cbn [ch_lock set_ch_lock].
  destruct (decide (ch = c)) as [->|Hne]; [rewrite lookup_insert_eq; rewrite bool_decide_true; set_solver|].
  rewrite lookup_insert_ne by done. rewrite Q6. apply bool_decide_ext. set_solver.
Qed.

Lemma drop_shows s busy a ch : shows s ({[ch]} ∪ busy) a -> ch ∉ busy -> shows (set_ch_lock s ch false) busy a.
Proof.
  intros (Q1 & Q2 & Q3 & Q4 & Q5 & Q6 & Q7) Hn. split_and!; try done. intros c. cbn [ch_lock set_ch_lock].
  destruct (decide (ch = c)) as [->|Hne]; [rewrite lookup_insert_eq; rewrite bool_decide_false by done; done|].
  rewrite lookup_insert_ne by done. rewrite Q6. apply bool_decide_ext. set_solver.
Qed.

Lemma take_one s a ch : shows s ∅ a -> chan_lock s ch = Ok (set_ch_lock s ch true) /\ shows (set_ch_lock s ch true) {[ch]} a.
Proof. intros Hs. rewrite <- (union_empty_r_L {[ch]}). apply take_shows; [done|set_solver]. Qed.

Lemma drop_one s a ch : shows s {[ch]} a -> shows (set_ch_lock s ch false) ∅ a.
Proof. intros Hs. apply drop_shows; [by rewrite union_empty_r_L|set_solver]. Qed.

Lemma print_shows s busy a msg :
  shows s busy a -> CONSOLE_CHANNEL ∉ busy -> short msg ->
  exists s', print_console s msg = Ok s' /\ shows s' busy (Mux (send (m_srv a) CONSOLE_CHANNEL msg) (m_ops a)).
Proof.
  intros Hs Hn Hm. unfold print_console. destruct (take_shows s busy a _ Hs Hn) as [E Hs1]. rewrite E. cbn [res_bind].
  destruct (simple_shows _ _ _ CONSOLE_CHANNEL msg Hs1) as (s2 & E2 & Hs2); [done..|]. rewrite E2. cbn [res_bind snd]. eexists. split; [done|]. by apply drop_shows.
Qed.

Lemma setops_shows s busy a ch :
  shows s busy a -> CONSOLE_CHANNEL ∉ busy -> ch <> CONSOLE_CHANNEL -> ch_ok ch ->
  exists s', tw_setops onsim purge wrap_msg s ch = Ok s' /\ shows s' busy (m_open a ch).
Proof.
  intros Hs Hn Hne Hc. unfold tw_setops. rewrite (proj1 Hs). cbn [negb res_bind]. rewrite (shows_chan ch Hc). cbn [res_bind].
  set (s1 := set_ops s ch _). apply (print_shows s1 busy (Mux (m_srv a) (<[ch := regular ch]> (m_ops a)))); [|done|apply Hmsg].
  destruct Hs as (Q1 & Q2 & Q3 & Q4 & Q5 & Q6 & Q7). split_and!; try done; [by rewrite <- Q4| |cbn [m_ops]; by rewrite lookup_insert_ne].
  intros c Hcc. cbn [m_ops]. apply lookup_insert_is_Some'. right. by apply Q5.
Qed.

Lemma shows_ops s busy a ch : shows s busy a -> ch_ok ch -> exists o, m_ops a !! ch = Some o /\ ops_of s ch = Ok o.
Proof. intros (_ & _ & _ & Q4 & Q5 & _ & _) Hc. destruct (Q5 ch Hc) as [o Ho]. exists o. split; [done|]. unfold ops_of. by rewrite Q4, Ho. Qed.

Lemma opened_ops a ch : m_ops (m_open a ch) !! ch = Some (regular ch).
Proof. cbn. by rewrite lookup_insert_eq. Qed.

Lemma plain_write_shows s a ch bs o :
  shows s {[ch]} a -> ch_ok ch -> short bs -> o <> wrap_thinwireWrite_op ->
  exists s', match o with thinwireSimpleWrite_op => thinwireSimpleWrite s ch bs | thinwireWrite_op => thinwireWrite s ch bs | wrap_thinwireWrite_op => Fault Out_of_fuel end =
      Ok (Z.of_nat (length bs), s') /\ shows s' {[ch]} (Mux (send (m_srv a) ch bs) (m_ops a)).
Proof. intros Hs Hc Hb Ho. destruct o; [by apply simple_shows|by apply write_shows|done]. Qed.

Lemma do_write_shows s a ch bs :
  shows s {[ch]} a -> ch_ok ch -> short bs ->
  exists s', do_write onsim purge wrap_msg s ch bs = Ok (Z.of_nat (length bs), s') /\ shows s' {[ch]} (m_write a ch bs).
Proof.
  intros Hs Hc Hb. destruct (shows_ops s _ a ch Hs Hc) as (o & Ho & E). unfold do_write, m_write. rewrite E, Ho. cbn [res_bind fmap option_fmap option_map].
  destruct (ic_write o) eqn:Eo; [by apply simple_shows|by apply write_shows|].
  assert (ch <> CONSOLE_CHANNEL) as Hne. { intros ->. destruct Hs as (_ & _ & _ & _ & _ & _ & Q7). rewrite Ho in Q7. cbn in Q7. congruence. }
  destruct (setops_shows s _ a ch Hs) as (s1 & E1 & Hs1); [set_solver|done..|]. rewrite E1. cbn [res_bind].
  destruct (shows_ops s1 _ _ ch Hs1 Hc) as (o1 & Ho1 & E2). rewrite E2. cbn [res_bind]. rewrite opened_ops in Ho1. injection Ho1 as <-.
  apply plain_write_shows; try done. unfold regular. cbn [ic_write]. by destruct (_ =? _).
Qed.

Lemma do_read_shows s a ch n :
  shows s {[ch]} a -> ch_ok ch -> ch <> CONSOLE_CHANNEL -> 0 <= n < 2 ^ 18 ->
  exists s', do_read onsim purge wrap_msg s ch n = Ok (Z.of_nat (length (fst (m_read a ch n))), fst (m_read a ch n), s') /\ shows s' {[ch]} (snd (m_read a ch n)).
Proof.
  intros Hs Hc Hne Hn. destruct (shows_ops s _ a ch Hs Hc) as (o & Ho & E). unfold do_read, m_read. rewrite E, Ho. cbn [res_bind fmap option_fmap option_map].
  destruct (ic_read o); [by apply fetch_shows|]. destruct (setops_shows s _ a ch Hs) as (s1 & E1 & Hs1); [set_solver|done..|]. rewrite E1. cbn [res_bind]. by apply fetch_shows.
Qed.

Lemma avail_shows s a ch :
  shows s {[ch]} a -> ch_ok ch ->
  exists s', thinwireReadAvail s ch = Ok (if bool_decide (pending (m_srv a) ch = []) then 0 else 1, s') /\ shows s' {[ch]} a.
Proof.
  intros Hs Hc. unfold thinwireReadAvail. rewrite (shows_chan ch Hc). cbn [res_bind]. rewrite (proj1 Hs). cbn [negb]. rewrite (shows_lock s _ a Hs). cbn [res_bind set_ic_lock thinwire_ic].
  pose proof Hs as (_ & _ & Hrest & _). destruct (select_shows _ _ ch Hrest Hc) as (avail & w' & E & Hw' & Hb & _). rewrite E. cbn [res_bind]. rewrite Hb.
  eexists. split; [by destruct (bool_decide _)|]. destruct a as [v o]. by apply (shows_wire s _ (Mux v o)).
Qed.

Lemma do_avail_shows s a ch :
  shows s {[ch]} a -> ch_ok ch -> ch <> CONSOLE_CHANNEL ->
  let a' := match ic_read_avail <$> m_ops a !! ch with Some wrap_thinwire_op => m_open a ch | _ => a end in
  exists s', do_read_avail onsim purge wrap_msg s ch = Ok (if bool_decide (pending (m_srv a') ch = []) then 0 else 1, s') /\ shows s' {[ch]} a'.
Proof.
  intros Hs Hc Hne. destruct (shows_ops s _ a ch Hs Hc) as (o & Ho & E). unfold do_read_avail. rewrite E, Ho. cbn [res_bind fmap option_fmap option_map].
  destruct (ic_read_avail o); [by apply avail_shows|]. destruct (setops_shows s _ a ch Hs) as (s1 & E1 & Hs1); [set_solver|done..|]. rewrite E1. cbn [res_bind]. by apply avail_shows.
Qed.

Lemma step_shows s a c :
  shows s ∅ a -> client_ok c -> exists s', tw_step s c = Ok (fst (fst (m_step a c)), snd (fst (m_step a c)), s') /\ shows s' ∅ (snd (m_step a c)).
Proof.
  intros Hs Hc. destruct c as [ch bs|ch n|ch n]; cbn [tw_step m_step client_ok] in *; destruct Hc as [Hc Hb]; destruct (take_one s a ch Hs) as [E Hs1].
  - unfold chan_write. rewrite E. cbn [res_bind]. destruct (do_write_shows _ a ch bs Hs1 Hc Hb) as (s2 & E2 & Hs2). rewrite E2. cbn [res_bind fst snd].
    eexists. split; [done|]. by apply drop_one.
  - destruct Hb as [Hne Hb]. unfold chan_read. rewrite E. cbn [res_bind]. destruct (do_read_shows _ a ch n Hs1 Hc Hne Hb) as (s2 & E2 & Hs2). rewrite E2. cbn [res_bind]. destruct (m_read a ch n) as [bs a']. cbn [fst snd] in *.
    eexists. split; [done|]. by apply drop_one.
  - destruct Hb as [Hne Hb]. unfold chan_read_noblock. rewrite E. cbn [res_bind]. destruct (do_avail_shows _ a ch Hs1 Hc Hne) as (s2 & E2 & Hs2). rewrite E2. cbn [res_bind]. unfold m_poll.
    set (a1 := match ic_read_avail <$> m_ops a !! ch with Some wrap_thinwire_op => m_open a ch | _ => a end) in *.
    destruct (bool_decide (pending (m_srv a1) ch = [])); cbn [truth Z.eqb negb res_bind].
    + eexists. split; [done|]. by apply drop_one.
    + destruct (do_read_shows _ a1 ch n Hs2 Hc Hne Hb) as (s3 & E3 & Hs3). rewrite E3. cbn [res_bind]. destruct (m_read a1 ch n) as [bs a']. cbn [fst snd] in *.
      eexists. split; [done|]. by apply drop_one.
Qed.

(** What a sequence of calls returns. *)
Fixpoint m_run (a : mux) (cs : list client) : list (Z * list Z) * mux :=
  match cs with
  | [] => ([], a)
  | c :: cs => let '(n, bs, a) := m_step a c in let '(rs, a) := m_run a cs in ((n, bs) :: rs, a)
  end.
Fixpoint tw_run (s : tw W) (cs : list client) : res (list (Z * list Z) * tw W) :=
  match cs with
  | [] => Ok ([], s)
  | c :: cs => let! r := tw_step s c in let '(n, bs, s) := r in let! r := tw_run s cs in Ok ((n, bs) :: fst r, snd r)
  end.


End Refines.

(** ** A server that keeps the protocol *)
Record ref_server : Type := RefServer { rs_srv : srv; rs_body : option (bool * Z); rs_reply : list Z }.

Definition waiting (v : srv) (ch : Z) : Z :=
  foldr (fun i acc => if bool_decide (pending v (ch + Z.of_nat i) = []) then acc else Z.setbit acc (Z.of_nat i)) 0 (seq 0 32).
Definition nib (m : Z) (k : Z) : Z := SP + Z.land (Z.shiftr m (4 * k)) 15.

(** A command that has arrived; [None] when characters follow it. *)
Definition obey (v : srv) (cmd n ch : Z) : ref_server :=
  if cmd =? CH_SELECT then RefServer v None (header CH_SELECT 0 ch ++ (nib (waiting v ch) <$> [7; 6; 5; 4; 3; 2; 1; 0]))
  else if cmd =? CH_READ then
    let r := min (Z.to_nat n) (length (pending v ch)) in
    RefServer (if (r =? 0)%nat then v else take_in v ch r) None (header CH_READ (Z.of_nat r) ch ++ take r (pending v ch))
  else RefServer v (Some (cmd =? CH_WRITE, ch)) [].

Definition ref_write (w : ref_server) (bs : list Z) : ref_server :=
  match rs_body w with
  | Some (ack, ch) => RefServer (send (rs_srv w) ch bs) None (if ack then header CH_READ (Z.of_nat (length bs)) ch else [])
  | None =>
      match bs with
      | [cmd; _; _; _; c] => match parseThinWireReply (c - SP) bs with Ok n => obey (rs_srv w) cmd n (c - SP) | Fault _ => w end
      | _ => w
      end
  end.

Definition ref_read (w : ref_server) (n : nat) : list Z * ref_server := (take n (rs_reply w), RefServer (rs_srv w) (rs_body w) (drop n (rs_reply w))).

#[global] Instance ref_wire : Wire ref_server := {
  w_write := ref_write;
  w_read_all w n := if (n <=? length (rs_reply w))%nat then Ok (ref_read w n) else Fault Deadlock;
  w_read := ref_read;
  w_read_avail w := Z.of_nat (length (rs_reply w));
  w_write_avail w := 1;
  w_noread w := w;
}.

Lemma testbit_waiting_aux v ch l i : NoDup l -> Z.testbit (foldr (fun i acc => if bool_decide (pending v (ch + Z.of_nat i) = []) then acc else Z.setbit acc (Z.of_nat i)) 0 l) (Z.of_nat i) =
  bool_decide (i ∈ l) && negb (bool_decide (pending v (ch + Z.of_nat i) = [])).
Proof.
  induction 1 as [|j l Hj _ IH]; cbn [foldr]; [by rewrite Z.bits_0|]. destruct (decide (i = j)) as [->|Hne].
  - rewrite (bool_decide_true (j ∈ j :: l)) by set_solver. destruct (bool_decide (pending v _ = [])) eqn:E.
    + rewrite IH. by rewrite bool_decide_false.
    + rewrite Z.setbit_eq by lia. done.
  - rewrite (bool_decide_ext (i ∈ j :: l) (i ∈ l)) by set_solver. destruct (bool_decide (pending v (ch + Z.of_nat j) = [])); [done|]. by rewrite Z.setbit_neq by lia.
Qed.

Lemma testbit_waiting v ch i : 0 <= i < 32 -> Z.testbit (waiting v ch) i = negb (bool_decide (pending v (ch + i) = [])).
Proof.
  intros Hi. replace i with (Z.of_nat (Z.to_nat i)) at 1 by lia. unfold waiting. rewrite testbit_waiting_aux by apply NoDup_seq. rewrite Z2Nat.id by lia.
  rewrite bool_decide_true; [done|]. apply elem_of_seq. lia.
Qed.

Lemma nib_step m k : 0 <= k -> Z.lor (Z.shiftl (Z.shiftr m (4 * (k + 1))) 4) (nib m k - SP) = Z.shiftr m (4 * k).
Proof.
  intros Hk. unfold nib. replace (SP + Z.land (Z.shiftr m (4 * k)) 15 - SP) with (Z.land (Z.shiftr m (4 * k)) (Z.ones 4)) by (change (Z.ones 4) with 15; lia).
  apply Z.bits_inj'. intros i Hi. rewrite Z.lor_spec, Z.land_spec, Z.shiftl_spec, Z.testbit_ones_nonneg, (Z.shiftr_spec m (4 * k)) by lia. destruct (Z.ltb_spec i 4).
  - rewrite (Z.testbit_neg_r _ (i - 4)) by lia. by rewrite andb_true_r.
  - rewrite Z.shiftr_spec by lia. rewrite andb_false_r, orb_false_r. f_equal. lia.
Qed.

Lemma nibbles_nib m hd : length hd = 5%nat -> 0 <= m < 2 ^ 32 -> nibbles (hd ++ (nib m <$> [7; 6; 5; 4; 3; 2; 1; 0])) = m.
Proof.
  intros Hl Hm. unfold nibbles. rewrite drop_app_length' by done. cbn [take fmap list_fmap foldl].
  replace 0 with (Z.shiftr m (4 * (7 + 1))) at 1 by (rewrite Z.shiftr_div_pow2 by lia; apply Z.div_small; lia).
  rewrite (nib_step m 7) by lia. change (4 * 7) with (4 * (6 + 1)). rewrite (nib_step m 6) by lia. change (4 * 6) with (4 * (5 + 1)). rewrite (nib_step m 5) by lia.
  change (4 * 5) with (4 * (4 + 1)). rewrite (nib_step m 4) by lia. change (4 * 4) with (4 * (3 + 1)). rewrite (nib_step m 3) by lia.
  change (4 * 3) with (4 * (2 + 1)). rewrite (nib_step m 2) by lia. change (4 * 2) with (4 * (1 + 1)). rewrite (nib_step m 1) by lia.
  change (4 * 1) with (4 * (0 + 1)). rewrite (nib_step m 0) by lia. by rewrite Z.shiftr_0_r.
Qed.

Lemma waiting_range v ch : 0 <= waiting v ch < 2 ^ 32.
Proof.
  unfold waiting. assert (forall l, Forall (fun i => (i < 32)%nat) l -> forall acc, acc = foldr (fun i acc => if bool_decide (pending v (ch + Z.of_nat i) = []) then acc else Z.setbit acc (Z.of_nat i)) 0 l ->
    0 <= acc < 2 ^ 32) as Hall.
  { induction 1 as [|j l Hj _ IH]; intros acc ->; cbn [foldr]; [lia|]. specialize (IH _ eq_refl). destruct (bool_decide _); [done|]. rewrite Z.setbit_spec'.
    apply is_u32_lor; [done|]. split; [lia|]. apply Z.pow_lt_mono_r; lia. }
  apply (Hall (seq 0 32)); [|done]. apply Forall_seq. lia.
Qed.

Lemma ref_header w cmd n ch : rs_body w = None -> 0 <= n < 2 ^ 18 -> ref_write w (header cmd n ch) = obey (rs_srv w) cmd n ch.
Proof.
  intros Hb Hn. unfold ref_write. rewrite Hb. unfold header. replace (SP + ch - SP) with ch by lia. fold (header cmd n ch). by rewrite parse_header.
Qed.

Lemma ref_read_all v b hd tl n : n = length hd -> w_read_all (RefServer v b (hd ++ tl)) n = Ok (hd, RefServer v b tl).
Proof.
  intros ->. cbn [w_read_all ref_wire rs_reply]. rewrite length_app. destruct (Nat.leb_spec (length hd) (length hd + length tl)); [|lia].
  unfold ref_read. cbn [rs_srv rs_body rs_reply]. by rewrite take_app_length, drop_app_length.
Qed.

(** The protocol's laws hold of it. *)
#[global, program] Instance ref_keeps_protocol : Server ref_server := { at_rest w v := w = RefServer v None [] }.
Next Obligation.
  intros w v ch bs -> Hc Hb. unfold short in Hb. exists (RefServer (send v ch bs) None []). split; [|done]. cbn [w_write ref_wire]. rewrite ref_header by (done || lia).
  change (obey (rs_srv (RefServer v None [])) CH_WRITE (Z.of_nat (length bs)) ch) with (RefServer v (Some (true, ch)) []). cbn [ref_write rs_body rs_srv].
  rewrite <- (app_nil_r (header CH_READ _ ch)) at 1. by apply ref_read_all.
Qed.
Next Obligation. intros w v ch bs -> Hc Hb. unfold short in Hb. cbn [w_write ref_wire]. by rewrite ref_header by (done || lia). Qed.
Next Obligation.
  intros w v ch -> Hc. cbn [w_write ref_wire]. rewrite ref_header by done. set (reply := header CH_SELECT 0 ch ++ (nib (waiting v ch) <$> [7; 6; 5; 4; 3; 2; 1; 0])).
  exists reply, (RefServer v None []). split; [|split; [done|]].
  - change (obey (rs_srv (RefServer v None [])) CH_SELECT 0 ch) with (RefServer v None reply). rewrite <- (app_nil_r reply) at 1. by apply ref_read_all.
  - intros i Hi. unfold reply. rewrite nibbles_nib by (done || apply waiting_range). by apply testbit_waiting.
Qed.
Next Obligation.
  intros w v ch n -> Hc Hn. cbn zeta. cbn [w_write ref_wire w_noread]. rewrite ref_header by done. set (r := min (Z.to_nat n) (length (pending v ch))).
  change (obey (rs_srv (RefServer v None [])) CH_READ n ch) with (RefServer (if (r =? 0)%nat then v else take_in v ch r) None (header CH_READ (Z.of_nat r) ch ++ take r (pending v ch))).
  eexists. split; [by apply ref_read_all|]. split.
  - intros ->. cbn. by rewrite take_0.
  - intros Hr. destruct (Nat.eqb_spec r 0); [done|]. eexists. split; [|done]. rewrite <- (app_nil_r (take r _)) at 1. apply ref_read_all. rewrite length_take_le; lia.
Qed.

(** ** The beginning *)
Lemma config_channels {W} (w : W) ch : ch_ok ch -> is_Some (channels (configThinWire w) !! ch).
Proof.
  intros [H1 H2]. unfold configThinWire. cbn [channels]. apply lookup_insert_is_Some'. right. exists (first_ops ch). apply elem_of_list_to_map.
  - rewrite <- list_fmap_compose. apply NoDup_fmap_2; [intros i j; cbn; lia|]. apply NoDup_seq.
  - apply list_elem_of_fmap. exists (Z.to_nat ch). rewrite Z2Nat.id by done. split; [done|]. apply elem_of_seq. unfold MAX_CHANNELS in *. lia.
Qed.

Definition inbox : srv := Srv ∅ {[ 9 := [104; 105; 33] ]}.
Definition calls : list client := [C_write 9 [97; 98]; C_poll 9 2; C_read 10 4; C_write 8 [99]; C_read 9 8].
Definition active : tw ref_server := Tw true (channels (configThinWire tt)) ∅ (RefServer inbox None []) false.

Lemma active_shows : shows active ∅ (Mux inbox (channels (configThinWire tt))).
Proof. split_and!; try done. intros ch Hch. by apply config_channels. Qed.


(** The first use of a channel activates the connection. *)
Example first_use : exists s, chan_write true 1 (fun _ => [62]) (configThinWire (RefServer inbox None [])) 9 [97] = Ok (1, s) /\
  thinwire_activated s = true /\ sent (rs_srv (thinwire_ic s)) 9 = [97] /\ sent (rs_srv (thinwire_ic s)) 0 = [62].
Proof. eexists. split; [vm_compute; reflexivity|]. split_and!; vm_compute; reflexivity. Qed.

(** A length of 2^18 is sent as 0. *)
Example length_wraps ch : header CH_WRITE (2 ^ 18) ch = header CH_WRITE 0 ch.
Proof. done. Qed.

(** When another channel above it has something to read, a read of an empty channel goes to the server. *)
Example whole_mask_tested :
  let w := RefServer inbox None [] in
  match locked_thinwireSelect w 8 with Ok (avail, _) => truth avail = true /\ truth (Z.land avail 1) = false | Fault _ => False end.
Proof. vm_compute. done. Qed.

(** Reading from the hypervisor's console for the first time, its lock is taken twice. *)
Example console_read_deadlocks : chan_read true 1 (fun _ => [62]) active CONSOLE_CHANNEL 4 = Fault Deadlock.
Proof. vm_compute. reflexivity. Qed.
